(* ===== verification/_CoqProject ===== *)
-Q . S2P
Prelude.v
Words.v
Utf8.v
Text.v
Sort.v
Cbor.v
Ctap.v
Sha.v
Keyring.v
Device.v
Select.v
KeyNames.v
BlobCrypto.v
CryptoModel.v
DeviceLabel.v
LargeBlobs.v
BlobStore.v
Trace.v
ClientPin.v
CredMgmt.v
BioEnroll.v
CtapConfig.v
FidoKey.v
FidoPin.v
FidoCreds.v
FidoAdmin.v
FidoModel.v
CtapHid.v
Token2Ids.v
Codec.v
Sm4.v
Apdu.v
IsoRead.v
Molto.v
Pcsc.v
CtapPcsc.v
Oath.v
Applet.v
OathSession.v
ImportEntry.v
Otpauth.v
Migration.v
Bulk.v
Plan.v
Run.v
ImportStore.v
PgpTlv.v
PgpAlg.v
PgpApdu.v
PgpData.v
Gzip.v
PivTlv.v
PivDates.v
PivApdu.v
PivData.v
X509.v
PivSend.v
PivFingerprint.v
PivTables.v
PivCompat.v
Token2Entry.v
Token2Otp.v
Token2Crypto.v
Token2Wire.v
Token2Session.v
Token2Safe.v
Token2Key.v
PgpSession.v
PgpCard.v
PgpKeys.v
PivRules.v
PivSession.v
PivSessionSpec.v
ImportToken2.v
UsbTree.v
Match.v
Identity.v
Correlate.v
