(* ===== verification/Prelude.v ===== *)
(** * keyroost: a verification library

    keyroost manages security keys: FIDO2 keys over USB-HID or a smart-card
    reader, the OATH, PIV, OpenPGP and Token2 OTP applets over PC/SC or HID, and
    Token2's Molto2 programmer. Its crates (src/crates/keyroost-<name>) are
    byte-level protocol layers without I/O, transports that carry them, the import
    of authenticator exports, the matching of what was enumerated into one row per
    key, and two front-ends. This library models the protocol layers, the
    transports' sessions, the import and the matching.

    ** Conventions

    Integers are [Z] with the wrap-around of their width written out (Words);
    bytes are [Z] in [0, 256), [&str] and [String] their UTF-8 bytes (Utf8, Text).
    [Result] is [result E A] with [Ok] and [Err]; [Option] is [option]; where the
    code can panic, the model gives [None] (or the session error that stands for
    a panic). Code that keeps state is a computation [io S E A]: a function from
    the state to the outcome and the state after; Words gives its weakest
    preconditions. A [Vec] is a list; a [HashMap] a [gmap], or the association list
    the code walks. Loops with no structural measure take fuel; each file says what
    fuel it starts from, and a theorem shows it is enough. What a crate outside the
    repository does (AES-GCM, inflate, the curves, the pcsc crate, serde_json, the
    operating system's reads, clock and random source) is a type class or an
    argument of the model, its laws the crate's documented behaviour. Wiping secrets
    has no functional effect and is left out everywhere.

    ** The parts, and what is shown of each

    - Prelude: results, options, the [io] monad, list and integer lemmas, the
      tactics. Words: machine words and their byte forms; weakest preconditions of
      [io]. Utf8, Text: strings.
      Sort: Rust's [Ord], the stable sort and [dedup], with their laws (classes
      [TotalCmp], [StrictCmp]). IsoRead: what a card reads of an APDU, the
      reference the applet files share.
    - keyroost-proto. Codec (codec.rs): the text codecs; decoding is the
      reference decoding of RFC 4648. Sm4 (sm4.rs): decryption inverts
      encryption. Sha (sha1.rs, sha256.rs, sha512.rs): the incremental
      hash is the hash of the concatenation, however the input is cut. Apdu
      (apdu.rs): padding, MAC, wrong-Le resend. Molto (commands.rs): a device
      that checks the MAC and decrypts gets exactly the seed, title, key, time
      and configuration that were meant, and its answers are read back. Trace
      (trace.rs): the trace line and the capture. Token2Ids (lib.rs).
    - keyroost-ctap. Cbor (cbor.rs): the decoder accepts exactly the grammar
      of definite-length CBOR it documents (written without the decoder), encode/decode round trip, measuring
      and splitting agree with decoding. Ctap (transport.rs, cmd.rs): the
      transport as a class, getInfo, reset. CtapHid (hid.rs): a message of any
      length goes out and comes back whole over 64-byte reports, busy retries
      and waits are bounded, the channel of an opening is the one of the reports
      heard that echoes its own nonce, personal data stays out of the trace whatever
      the request's bytes. BlobCrypto, DeviceLabel, LargeBlobs,
      BlobStore (large_blobs.rs, device_label.rs): rewriting the array keeps
      every element it was not asked to change byte for byte, a written array is
      read back, a name is found again, a planned change is applied only to the
      array it was planned on and leaves one name, or none. ClientPin, CredMgmt, BioEnroll, CtapConfig
      (pin.rs, client_pin.rs, cred_mgmt.rs, bio_enroll.rs, config.rs): the PIN/UV
      protocols and the commands of a PIN's holder; against the reference
      authenticator of FidoKey, they are shown by FidoPin, FidoCreds and FidoAdmin to do
      what a record of a PIN, its attempts, passkeys, templates and settings does.
      The authenticator's leeway in CTAP 2.1 is a policy of the model: three wrong
      PINs in a row, forced changes, the options it announces and what it refuses.
      CryptoModel, the end of BlobStore and FidoModel are concrete instances, so that these
      theorems are evaluated.
    - keyroost-oath. Oath (crypto.rs, lib.rs): HMAC and PBKDF2 against RFC 2898,
      what the applet reads from each command, what its answers are read as, and
      the password handshake.
    - keyroost-piv. PivTlv, PivDates, PivApdu, PivData (lib.rs): every command and
      object; a card puts the chain back together and reads what was meant, the
      calendar is the Gregorian one, the admin-data flag changes its bit and no
      other byte. PivFingerprint (fingerprint.rs): which applet a card holds, from
      its answer to reset and SELECT. PivTables, PivCompat (compat.rs): every row of
      the compatibility tables and the decisions made from them; a newer version is
      never offered less, and a version named as needed is the exact boundary. X509
      (spki.rs, x509.rs, x509_parse.rs): a certificate built for a key reads back as
      that key, its algorithm and its subject.
    - keyroost-openpgp. PgpTlv, PgpAlg, PgpApdu, PgpData (lib.rs): key import as
      the card reads it, the card's objects read back, fingerprints of whole key
      packets.
    - keyroost-token2otp. Token2Entry (with the report frames), Token2Otp, Token2Crypto: frames,
      entries, commands and sealing of Token2's OTP applet.
    - keyroost-transport. Pcsc: the card behind a reader, as a class, with a
      reference T=0 card. Applet (lib.rs): the 61xx/6Cxx reassembly gives the
      applet's whole answer, within its caps, and runs the command once. CtapPcsc
      (ctap_pcsc.rs): the same for CTAP, over chaining and keep-alives (but for a
      card that asks for an exact Le after a keep-alive), and the
      bound on what any card can make it do. OathSession (oath.rs, recover.rs):
      the session refines a reference authenticator with its password, and an
      opening is retried at most once. Token2Wire, Token2Session (token2otp.rs):
      the three transports of the OTP applet and every session operation;
      Token2Safe holds for any key that answers: a PIN or a window marked as proven
      is one the log of the exchanges shows the key accepted; Token2Key refines a
      reference key. PgpSession (openpgp.rs): the OpenPGP session; against the reference
      card of PgpCard a reset ends in a blank card, and PgpKeys shows that what an
      import reports is what the card holds. Gzip (gzip.rs): a compressed
      certificate comes back, or is found damaged. PivSend (piv.rs): chains,
      retries and the outcome of an import, which is true of the card whatever the
      reader loses. PivRules (piv.rs): what the PIV session decides without the
      card, and what its trace hides. PivSession (piv.rs): opening, identifying,
      caching and every operation; PivSessionSpec: resets and reads spend no PIN
      or PUK try unless the tables say they must.
    - keyroost-import. ImportEntry, Otpauth, Migration, Bulk (text.rs, entry.rs,
      otpauth.rs, migration.rs, bulk.rs): the readers, with round trips, unknown
      fields among the known ones. Plan
      (plan.rs): what each entry of a file becomes on one key, within its limits
      and with no name lost, and that each refusal's reason holds. Run (run.rs):
      the report of a run is what the store holds, reached by the operations it
      names and no others. ImportStore, ImportToken2 (keyroost-transport/src/import.rs): the
      destinations, and what a whole import leaves on the reference key.
    - keyroost-keyring. Keyring (lib.rs, fingerprint.rs): the registry of names in
      memory; names stay unique, a name is set on one key.
    - keyroost-resolve and keyroost-hid. Device (device.rs): rows, capabilities,
      the reset plan. Select (select.rs): a selection is exactly the
      one admissible row that was named, and every refusal names a value that
      selects. KeyNames (names.rs): one name per key, never taken
      over by another key. UsbTree (devtree.rs): the evidence of one physical
      device. Match (lib.rs, device.rs): no reader goes to two keys, each binding
      rests on evidence that fits one node and one reader only. Identity
      (identity.rs): identities read and remembered per plug-in, none crossing
      from one plug-in to another or outliving its key's absence from a scan.
      Correlate (device.rs): the rows of a scan can be trusted.

    How the parts meet: every CTAP command runs against the class
    [Ctap.CtapTransport], of which CtapHid and CtapPcsc are the two instances;
    BlobStore and FidoKey have others for evaluation; applet sessions run against
    [Pcsc.PcscCard], those of the Token2 OTP applet against [Token2Wire.OtpTransport]
    ([CardReconnect] where a card is connected to again). An import writes to a
    [Run.CodeStore] that obeys [StoreLaws]; [ImportStore.OathIo], [MoltoIo] and
    [ImportToken2.Token2Io] are what its instances need of a session. The byte
    layers are pure and are composed with the transports in the sessions. Matching
    asks a vendor through [Identity.IdentityIo]; Correlate joins UsbTree, Match and
    Identity into the rows of Device, which KeyNames names from the registry of
    Keyring and Select picks from. The other classes are crates outside the
    repository: [BlobCrypto], [PinCipher], [PinCrypto] and their laws,
    [Token2Key.KeyMake], [Bulk.JsonExport], and [Keyring.Unicode], the two tables of
    the standard library that are too long to write out (lower case, alphabetic).

    ** Bounds and fuel

    [Cbor] recursions take the levels left of the code's own depth limit, and its
    item loops fuel above the input's length, which every item shortens; so do
    [Migration.fields_loop], [Token2Entry.entries_loop], [PgpTlv.parse_loop] and
    [Identity.config_serial]. [PgpTlv.find_nested_at] goes sixteen levels deep, as
    the code does. The reassembly loops ([Applet.applet_loop],
    [CtapPcsc.drain_loop]) start from the code's own cap on turns;
    [CtapPcsc.reader_drain_bounded] shows that more fuel changes nothing. So do
    [Token2Session.enum_loop] (the cap on pages) and [Token2Wire] ([raw_fuel], above
    its frames). [CredMgmt.enumerate] runs the device's total less one, at most
    4095; [PgpSession.block_loop] the tries of a PIN and one more.
    [CtapHid]'s loops are driven by the script of the environment; one that ends
    early leaves the call waiting ([None]), and [hid_transact_bounded] bounds the
    attempts of any run. [PivSession]'s blocking loops run the
    attempts cap of the code, its openings once more than once. Lengths stay below 2^63, as Rust's allocations do; where
    the code casts to [u8], [u16] or [u32] the cast is written out.

    ** Not modelled, and why

    The front-ends (keyroost, keyroostctl) are drawing, prompts and argument
    parsing. The platform crates (HID enumeration, Windows device tree, screen
    capture, WebAuthn) are foreign-function calls. PKCS#12, OpenPGP key sets,
    vault decryption, RSA key import and the PIV self-tests are built on public-key
    and cipher crates, and QR import on image crates. Of keyroost-transport, the
    lists of readers, the PIV self-test and PKCS#12 import, the vendor reads behind
    [IdentityIo] and the programmable token's session are left out; of keyroost-resolve, the live enumeration (its caches by
    time, warnings and protocol probes), the metadata tables and the firmware texts.
    Opening readers and device nodes is the environment's. *)
From Stdlib Require Export ZArith Lia.
From stdpp Require Export base option list numbers.

(** * Scope, notations, tactics *)

Declare Scope kr_scope.
Delimit Scope kr_scope with kr.
Open Scope kr_scope.
Open Scope Z_scope.

Create HintDb kr.
Create Rewrite HintDb zlen.

(** A Rust [Result<A, E>]. *)
Inductive result (E A : Type) : Type :=
  | Ok (a : A)
  | Err (e : E).
Arguments Ok {E A} a.
Arguments Err {E A} e.

#[export] Instance result_bind E : MBind (result E) :=
  fun A B f m => match m with Ok a => f a | Err e => Err e end.
#[export] Instance result_ret E : MRet (result E) := fun A a => Ok a.
#[export] Instance result_fmap E : FMap (result E) :=
  fun A B f m => match m with Ok a => Ok (f a) | Err e => Err e end.

#[export] Instance result_eq_dec E A `{EqDecision E} `{EqDecision A} :
  EqDecision (result E A).
Proof. solve_decision. Defined.

(** [Result::map_err]. *)
Definition map_err {E F A} (f : E -> F) (r : result E A) : result F A :=
  match r with Ok a => Ok a | Err e => Err (f e) end.

(** [Option::ok_or]. *)
Definition ok_or {E A} (e : E) (o : option A) : result E A :=
  match o with Some a => Ok a | None => Err e end.

(** [Result::ok]. *)
Definition result_ok {E A} (r : result E A) : option A :=
  match r with Ok a => Some a | Err _ => None end.

Definition is_ok {E A} (r : result E A) : bool :=
  match r with Ok _ => true | Err _ => false end.

Section result_lemmas.
Context {E A B : Type}.
Implicit Types (m : result E A) (f : A -> result E B).

Lemma bind_Ok_iff m f b : (m ≫= f) = Ok b <-> exists a, m = Ok a /\ f a = Ok b.
Proof.
  destruct m as [a|e]; simpl; split.
  - eauto.
  - intros (x & [= <-] & H); exact H.
  - discriminate.
  - intros (x & H & _); discriminate.
Qed.

Lemma bind_Err_iff m f e :
  (m ≫= f) = Err e <-> m = Err e \/ exists a, m = Ok a /\ f a = Err e.
Proof.
  destruct m as [a|e']; simpl; split.
  - eauto.
  - intros [H|(x & [= <-] & H)]; [discriminate|exact H].
  - intros [= ->]; auto.
  - intros [[= ->]|(x & H & _)]; [reflexivity|discriminate].
Qed.

(** Injectivity, leaving the values as they are. *)
Lemma Ok_inj (a a' : A) : @Ok E A a = Ok a' -> a = a'.
Proof. congruence. Qed.

Lemma ok_or_Ok (e : E) (o : option A) a : ok_or e o = Ok a <-> o = Some a.
Proof. destruct o; simpl; split; congruence. Qed.
End result_lemmas.

(** Splits the successful binds of a hypothesis [H : (m ≫= f) = Ok b]. *)
Ltac inv_bind H :=
  match type of H with
  | (_ ≫= _) = Ok _ =>
      let a := fresh "a" in let H1 := fresh "Hb" in
      apply bind_Ok_iff in H; destruct H as (a & H1 & H)
  end.

(** ** Fallible operations on a state *)

(** A method taking [&mut self]: the state it leaves behind stays, whether it
    returned [Ok] or [Err]. *)
Definition io (S E A : Type) : Type := S -> result E A * S.

#[export] Instance io_ret S E : MRet (io S E) := fun A a s => (Ok a, s).
#[export] Instance io_bind S E : MBind (io S E) := fun A B f m s =>
  match m s with
  | (Ok a, s') => f a s'
  | (Err e, s') => (Err e, s')
  end.

(** A pure step of a method body. *)
Definition lift {S E A} (r : result E A) : io S E A := fun s => (r, s).

(** [.map_err(f)] on a method's result. *)
Definition io_map_err {S E F A} (f : E -> F) (m : io S E A) : io S F A := fun s =>
  let '(r, s') := m s in (map_err f r, s').

(** Reading and replacing a part of the state. *)
Definition io_gets {S E A} (f : S -> A) : io S E A := fun s => (Ok (f s), s).
Definition io_modify {S E} (f : S -> S) : io S E unit := fun s => (Ok tt, f s).

Lemma io_bind_Ok {S E A B} (m : io S E A) (f : A -> io S E B) s b s' :
  (m ≫= f) s = (Ok b, s') <-> exists a s1, m s = (Ok a, s1) /\ f a s1 = (Ok b, s').
Proof.
  unfold mbind, io_bind. destruct (m s) as [[a|e] s1] eqn:E1; split.
  - intros H. eauto.
  - by intros (a' & s1' & [= <- <-] & H).
  - done.
  - by intros (a' & s1' & ? & _).
Qed.

Lemma io_bind_Ok_eq {S E A B} (m : io S E A) (f : A -> io S E B) s a s1 :
  m s = (Ok a, s1) -> (m ≫= f) s = f a s1.
Proof. unfold mbind, io_bind. by intros ->. Qed.

Lemma io_bind_Err_eq {S E A B} (m : io S E A) (f : A -> io S E B) s e s1 :
  m s = (Err e, s1) -> (m ≫= f) s = (Err e, s1).
Proof. unfold mbind, io_bind. by intros ->. Qed.

Section io_steps.
Context {S E A B : Type}.
Implicit Types (k : A -> io S E B) (s : S).

Lemma io_gets_bind (f : S -> A) k s : (io_gets f ≫= k) s = k (f s) s.
Proof. done. Qed.
Lemma io_ret_bind (a : A) k s : (mret (M := io S E) a ≫= k) s = k a s.
Proof. done. Qed.
Lemma io_lift_bind (a : A) k s : (lift (Ok a) ≫= k) s = k a s.
Proof. done. Qed.
Lemma io_lift_Err (e : E) k s : (lift (Err e) ≫= k) s = (Err e, s).
Proof. done. Qed.
Lemma io_modify_bind (f : S -> S) (k : unit -> io S E B) s : (io_modify f ≫= k) s = k tt (f s).
Proof. done. Qed.
End io_steps.

(** Runs the steps of a method that are known to succeed. *)
Ltac io_step := rewrite ?io_gets_bind, ?io_ret_bind, ?io_lift_bind, ?io_lift_Err, ?io_modify_bind.

(** *** What an operation does to the state, whatever it returns *)

Section io_respects.
Context {S : Type} (R : relation S) `{!PreOrder R}.

Definition io_respects {E A} (m : io S E A) : Prop := forall s, R s (m s).2.

Lemma io_respects_lift {E A} (r : result E A) : io_respects (lift r).
Proof. intros s. simpl. reflexivity. Qed.
Lemma io_respects_ret {E A} (a : A) : io_respects (mret (M := io S E) a).
Proof. intros s. simpl. reflexivity. Qed.
Lemma io_respects_gets {E A} (f : S -> A) : io_respects (io_gets (E := E) f).
Proof. intros s. simpl. reflexivity. Qed.
Lemma io_respects_bind {E A B} (m : io S E A) (f : A -> io S E B) :
  io_respects m -> (forall a, io_respects (f a)) -> io_respects (m ≫= f).
Proof.
  intros Hm Hf s. unfold mbind, io_bind. specialize (Hm s). destruct (m s) as [[a|e] s1]; [|done].
  etransitivity; [exact Hm|apply Hf].
Qed.
End io_respects.

#[export] Hint Resolve io_respects_lift io_respects_ret io_respects_gets io_respects_bind : kr.

(** Splits the successful binds of [H : (m ≫= f) s = (Ok b, s')]. *)
Ltac inv_io H :=
  match type of H with
  | (_ ≫= _) _ = (Ok _, _) =>
      let a := fresh "a" in let s1 := fresh "s" in let H1 := fresh "Hm" in
      apply io_bind_Ok in H; destruct H as (a & s1 & H1 & H)
  end.

(** [lia] with quotients and remainders by constants. *)
Ltac lia_div := Z.div_mod_to_equations; lia.
(** A closed decidable goal, by evaluation. *)
Ltac by_decision := apply (bool_decide_eq_true_1 _); vm_compute; reflexivity.
Ltac done_lia := first [done | lia | (simpl in *; lia)].

(** Case analysis on the scrutinee of the innermost [match]/[if] of [H]. *)
Ltac case_in H :=
  match type of H with
  | context [match ?x with _ => _ end] =>
      lazymatch x with
      | context [match _ with _ => _ end] => fail
      | _ => let E := fresh "E" in destruct x eqn:E
      end
  end.

(** Turns boolean comparisons in the context into propositions. *)
Ltac bools :=
  repeat match goal with
  | H : _ && _ = true |- _ => apply andb_true_iff in H; destruct H
  | H : _ || _ = false |- _ => apply orb_false_iff in H; destruct H
  | H : _ && _ = false |- _ => apply andb_false_iff in H
  | H : _ || _ = true |- _ => apply orb_true_iff in H
  | H : negb _ = false |- _ => apply negb_false_iff in H
  | H : negb _ = true |- _ => apply negb_true_iff in H
  | H : (_ <? _) = true |- _ => apply Z.ltb_lt in H
  | H : (_ <? _) = false |- _ => apply Z.ltb_ge in H
  | H : (_ <=? _) = true |- _ => apply Z.leb_le in H
  | H : (_ <=? _) = false |- _ => apply Z.leb_gt in H
  | H : (_ =? _) = true |- _ => apply Z.eqb_eq in H
  | H : (_ =? _) = false |- _ => apply Z.eqb_neq in H
  end.

(** Evaluates the comparisons of a goal that [lia] can decide. *)
Ltac decide_cmp :=
  repeat match goal with
  | |- context [?a <? ?b] =>
      first [ replace (a <? b) with true by (symmetry; apply Z.ltb_lt; lia)
            | replace (a <? b) with false by (symmetry; apply Z.ltb_ge; lia) ]
  | |- context [?a <=? ?b] =>
      first [ replace (a <=? b) with true by (symmetry; apply Z.leb_le; lia)
            | replace (a <=? b) with false by (symmetry; apply Z.leb_gt; lia) ]
  end.

(** * Bytes *)

(** A [u8] is a [Z] in [0, 256); a byte slice or vector is a list of them. *)
Abbreviation byte := Z (only parsing).
Abbreviation bytes := (list Z) (only parsing).

Definition is_byte (b : Z) : Prop := 0 <= b < 256.
#[export] Instance is_byte_dec b : Decision (is_byte b).
Proof. unfold is_byte. apply _. Defined.

Abbreviation Bytes := (Forall is_byte).

(** A w-bit unsigned machine word. *)
Definition is_word (w x : Z) : Prop := 0 <= x < 2 ^ w.
#[export] Instance is_word_dec w x : Decision (is_word w x).
Proof. unfold is_word. apply _. Defined.

(** Exhaustive checking of a boolean property of bytes. *)
Definition all_bytes : list Z := seqZ 0 256.

Lemma byte_forall (P : Z -> bool) :
  forallb P all_bytes = true -> forall b, is_byte b -> P b = true.
Proof.
  intros H b Hb. rewrite forallb_forall in H. apply H.
  apply list_elem_of_In, elem_of_seqZ. unfold is_byte in Hb. lia.
Qed.

Definition all_bytes2 (P : Z -> Z -> bool) : bool :=
  forallb (fun a => forallb (P a) all_bytes) all_bytes.

Lemma byte_forall2 (P : Z -> Z -> bool) :
  all_bytes2 P = true -> forall a b, is_byte a -> is_byte b -> P a b = true.
Proof.
  intros H a b Ha Hb. unfold all_bytes2 in H.
  apply (byte_forall (P a)); [|done].
  apply (byte_forall (fun a => forallb (P a) all_bytes) H a Ha).
Qed.

(** * Lengths and slices *)

(** [slice.len()] as a [usize]. *)
Definition zlen {A} (l : list A) : Z := Z.of_nat (length l).
Arguments zlen : simpl never.

Lemma zlen_nil {A} : zlen (@nil A) = 0.
Proof. done. Qed.
Lemma zlen_cons {A} (x : A) l : zlen (x :: l) = 1 + zlen l.
Proof. unfold zlen. simpl. lia. Qed.
Lemma zlen_app {A} (l k : list A) : zlen (l ++ k) = zlen l + zlen k.
Proof. unfold zlen. rewrite length_app. lia. Qed.
Lemma zlen_nonneg {A} (l : list A) : 0 <= zlen l.
Proof. unfold zlen. lia. Qed.
Lemma zlen_replicate {A} n (x : A) : zlen (replicate n x) = Z.of_nat n.
Proof. unfold zlen. by rewrite length_replicate. Qed.
Lemma zlen_drop {A} n (l : list A) : zlen (drop n l) = Z.max 0 (zlen l - Z.of_nat n).
Proof. unfold zlen. rewrite length_drop. lia. Qed.
Lemma zlen_take {A} n (l : list A) : zlen (take n l) = Z.min (Z.of_nat n) (zlen l).
Proof. unfold zlen. rewrite length_take. lia. Qed.
Lemma zlen_0 {A} (l : list A) : zlen l = 0 -> l = [].
Proof. destruct l; [done|]. rewrite zlen_cons. pose proof (zlen_nonneg l). lia. Qed.
Lemma zlen_fmap {A B} (f : A -> B) l : zlen (f <$> l) = zlen l.
Proof. unfold zlen. by rewrite length_fmap. Qed.

#[export] Hint Rewrite @zlen_nil @zlen_cons @zlen_app @zlen_replicate @zlen_drop
  @zlen_take @zlen_fmap : zlen.
Ltac zlen := autorewrite with zlen in *.

(** [&l[i..j]] with [i <= j <= l.len()] (callers establish the bounds). *)
Definition slice {A} (l : list A) (i j : nat) : list A := take (j - i) (drop i l).
Lemma slice_app {A} (a b c : list A) : slice (a ++ b ++ c) (length a) (length a + length b) = b.
Proof.
  unfold slice. rewrite drop_app_length. replace (length a + length b - length a)%nat with (length b) by lia.
  apply take_app_length.
Qed.

(** [l.get(i..j)]: [None] when [i > j] or [j > l.len()]. *)
Definition get_range {A} (l : list A) (i j : Z) : option (list A) :=
  if (i <=? j) && (j <=? zlen l) then Some (slice l (Z.to_nat i) (Z.to_nat j)) else None.

(** [l.split_at(n)], [n <= l.len()]. *)
Definition split_at {A} (n : Z) (l : list A) : list A * list A :=
  (take (Z.to_nat n) l, drop (Z.to_nat n) l).

Lemma split_at_app {A} (l k : list A) : split_at (zlen l) (l ++ k) = (l, k).
Proof.
  unfold split_at, zlen. rewrite Nat2Z.id. by rewrite take_app_length, drop_app_length.
Qed.

Lemma split_at_join {A} n (l : list A) : (split_at n l).1 ++ (split_at n l).2 = l.
Proof. apply take_drop. Qed.

Lemma drop_zlen {A} (a b : list A) : drop (Z.to_nat (zlen a)) (a ++ b) = b.
Proof. unfold zlen. rewrite Nat2Z.id. apply drop_app_length. Qed.
Lemma take_zlen {A} (a b : list A) : take (Z.to_nat (zlen a)) (a ++ b) = a.
Proof. unfold zlen. rewrite Nat2Z.id. apply take_app_length. Qed.

(** [slice.chunks(n)]: consecutive pieces of [n] elements, the last one shorter. *)
Fixpoint chunks_aux {A} (fuel : nat) (n : nat) (l : list A) : list (list A) :=
  match fuel, l with
  | _, [] => []
  | O, _ => []
  | S fuel, _ => take n l :: chunks_aux fuel n (drop n l)
  end.
Definition chunks {A} (n : nat) (l : list A) : list (list A) :=
  chunks_aux (length l) n l.

(** Induction along [drop n], the recursion scheme of every chunked loop. *)
Lemma drop_ind {A} (n : nat) (Hn : (0 < n)%nat) (P : list A -> Prop) :
  P [] -> (forall l, l <> [] -> P (drop n l) -> P l) -> forall l, P l.
Proof.
  intros H0 Hs l. remember (length l) as m eqn:Hm.
  revert l Hm. induction (lt_wf m) as [m _ IH]. intros l Hm.
  destruct l as [|x l]; [exact H0|].
  apply Hs; [done|]. eapply IH; [|done].
  rewrite length_drop. simpl in *. lia.
Qed.

Lemma chunks_aux_fuel {A} n (l : list A) f1 f2 :
  (0 < n)%nat -> (length l <= f1)%nat -> (length l <= f2)%nat ->
  chunks_aux f1 n l = chunks_aux f2 n l.
Proof.
  intros Hn. revert l f2. induction f1 as [|f1 IH]; intros l f2 H1 H2.
  - destruct l; [|simpl in *; lia]. by destruct f2.
  - destruct l as [|x l]; [by destruct f2|]. destruct f2 as [|f2]; [simpl in *; lia|].
    simpl. f_equal. apply IH; rewrite length_drop; simpl in *; lia.
Qed.

Lemma chunks_nil {A} n : chunks n (@nil A) = [].
Proof. done. Qed.

Lemma chunks_unfold {A} n (l : list A) :
  (0 < n)%nat -> l <> [] -> chunks n l = take n l :: chunks n (drop n l).
Proof.
  intros Hn Hl. unfold chunks. destruct l as [|x l]; [done|].
  change (length (x :: l)) with (S (length l)). simpl chunks_aux at 1. f_equal.
  apply chunks_aux_fuel; [done| |done]. rewrite length_drop. simpl. lia.
Qed.

Lemma chunks_app_full {A} n (l k : list A) :
  (0 < n)%nat -> length l = n -> chunks n (l ++ k) = l :: chunks n k.
Proof.
  intros Hn Hl. rewrite chunks_unfold; [|done|destruct l; simpl in *; [lia|done]].
  by rewrite take_app_length', drop_app_length'.
Qed.

Lemma concat_chunks {A} n (l : list A) : (0 < n)%nat -> concat (chunks n l) = l.
Proof.
  intros Hn. induction l as [|l Hl IH] using (drop_ind n Hn); [done|].
  rewrite chunks_unfold by done. simpl. rewrite IH. apply take_drop.
Qed.

Lemma chunks_bounded {A} n (l : list A) :
  (0 < n)%nat -> Forall (fun c => c <> [] /\ (length c <= n)%nat) (chunks n l).
Proof.
  intros Hn. induction l as [|l Hl IH] using (drop_ind n Hn); [by constructor|].
  rewrite chunks_unfold by done. constructor; [|done].
  destruct l as [|x l]; [done|]. destruct n; [lia|]. split; [done|].
  rewrite length_take. lia.
Qed.

Lemma chunks_small {A} n (l : list A) :
  l <> [] -> (length l <= n)%nat -> chunks n l = [l].
Proof.
  intros Hl Hn. rewrite chunks_unfold; [|destruct l; simpl in *; [done|lia]|done].
  by rewrite take_ge, drop_ge.
Qed.

Lemma length_chunks {A} n (l : list A) :
  (0 < n)%nat -> Z.of_nat (length (chunks n l)) = (zlen l + Z.of_nat n - 1) / Z.of_nat n.
Proof.
  intros Hn. induction l as [|l Hl IH] using (drop_ind n Hn).
  - rewrite chunks_nil. simpl. symmetry. apply Z.div_small. zlen. lia.
  - rewrite chunks_unfold by done. cbn [length]. rewrite Nat2Z.inj_succ, IH. zlen.
    destruct (Z.le_gt_cases (zlen l) (Z.of_nat n)).
    + rewrite Z.max_l by lia.
      assert (0 < zlen l) by (destruct l; [done|]; zlen; pose proof (zlen_nonneg l); lia).
      rewrite (Z.div_small (0 + _ - _)) by lia.
      replace (zlen l + Z.of_nat n - 1) with ((zlen l - 1) + 1 * Z.of_nat n) by lia.
      rewrite Z.div_add, Z.div_small by lia. lia.
    + rewrite Z.max_r by lia.
      replace (zlen l + Z.of_nat n - 1)
        with ((zlen l - Z.of_nat n + Z.of_nat n - 1) + 1 * Z.of_nat n) by lia.
      rewrite Z.div_add by lia. lia.
Qed.

Lemma chunks_full {A} n (l : list A) :
  (0 < n)%nat -> (length l mod n = 0)%nat -> Forall (fun c => length c = n) (chunks n l).
Proof.
  intros Hn. induction l as [|l Hl IH] using (drop_ind n Hn); [by constructor|].
  intros Hm. rewrite chunks_unfold by done.
  assert (n <= length l)%nat as Hle.
  { destruct (decide (n <= length l)%nat); [done|]. rewrite Nat.mod_small in Hm by lia.
    destruct l; simpl in *; [done|lia]. }
  constructor; [rewrite length_take; lia|]. apply IH. rewrite length_drop.
  rewrite <- Hm. replace (length l) with ((length l - n) + 1 * n)%nat at 2 by lia.
  by rewrite Nat.Div0.mod_add.
Qed.

(** Splitting a concatenation of equal-length pieces gives the pieces back. *)
Lemma chunks_concat {A} n (ls : list (list A)) :
  (0 < n)%nat -> Forall (fun c => length c = n) ls -> chunks n (concat ls) = ls.
Proof.
  intros Hn. induction 1 as [|c ls Hc _ IH]; [done|]. simpl.
  by rewrite chunks_app_full, IH.
Qed.

(** [iter().find_map(..)]. *)
Fixpoint find_map {A B} (f : A -> option B) (l : list A) : option B :=
  match l with
  | [] => None
  | x :: l => match f x with Some y => Some y | None => find_map f l end
  end.

(** * Arrays updated by index *)

(** Rust's [a[i]] and [a[i] = v] on arrays of words; the models index in
    range, where these are stdpp's [!!!] and [<[ := ]>]. *)
#[export] Instance z_inhabited : Inhabited Z := populate 0.

(** [for i in lo..hi { body }] threading a state. *)
Definition for_range {S} (lo n : nat) (body : nat -> S -> S) (s : S) : S :=
  fold_left (fun s i => body i s) (seq lo n) s.

Lemma for_range_S {S} lo n (body : nat -> S -> S) s :
  for_range lo (Datatypes.S n) body s = body (lo + n)%nat (for_range lo n body s).
Proof. unfold for_range. rewrite seq_S, fold_left_app. done. Qed.

Lemma for_range_inv {S} (P : nat -> S -> Prop) lo n (body : nat -> S -> S) s :
  P lo s -> (forall i s, (lo <= i < lo + n)%nat -> P i s -> P (Datatypes.S i) (body i s)) ->
  P (lo + n)%nat (for_range lo n body s).
Proof.
  intros H0 Hs. induction n as [|n IH].
  - by rewrite Nat.add_0_r.
  - rewrite for_range_S, Nat.add_succ_r. apply Hs; [lia|]. apply IH.
    intros i s' Hi. apply Hs. lia.
Qed.

Lemma lookup_total_forall (P : Z -> Prop) (l : list Z) (i : nat) :
  P 0 -> Forall P l -> P (l !!! i).
Proof.
  intros H0 Hl. rewrite list_lookup_total_alt. destruct (l !! i) eqn:E; simpl; [|done].
  by eapply Forall_lookup_1.
Qed.
