(* ===== verification/Words.v ===== *)
(** Machine integers: wrapping arithmetic, rotations, and the big- and
    little-endian byte forms of [uN::to_be_bytes] / [from_be_bytes] /
    [to_le_bytes]; and weakest preconditions of the state and error monad. *)
From S2P Require Export Prelude.
From stdpp Require Import options.
Unset Default Goal Selector.

(** * Wrapping arithmetic on w-bit words *)

Definition wadd (w x y : Z) : Z := (x + y) mod 2 ^ w.
Definition wmul (w x y : Z) : Z := (x * y) mod 2 ^ w.
(** [x << k]: bits shifted past the width are dropped. *)
Definition wshl (w x k : Z) : Z := Z.shiftl x k mod 2 ^ w.
(** [!x]. *)
Definition wnot (w x : Z) : Z := 2 ^ w - 1 - x.
Definition rotl (w x k : Z) : Z := Z.lor (wshl w x k) (Z.shiftr x (w - k)).
Definition rotr (w x k : Z) : Z := Z.lor (Z.shiftr x k) (wshl w x (w - k)).
(** [x as uW]: truncation. *)
Definition cast (w x : Z) : Z := x mod 2 ^ w.
(** [x as i64] of a [u64]. *)
Definition as_i64 (x : Z) : Z := if x <? 2 ^ 63 then x else x - 2 ^ 64.

(** * Byte forms *)

(** [x.to_le_bytes()] for an n-byte integer. *)
Fixpoint to_le (n : nat) (x : Z) : list Z :=
  match n with O => [] | S n => x mod 256 :: to_le n (x / 256) end.
(** [x.to_be_bytes()]. *)
Definition to_be (n : nat) (x : Z) : list Z := rev (to_le n x).

(** [uN::from_le_bytes(bs)]. *)
Fixpoint from_le (bs : list Z) : Z :=
  match bs with [] => 0 | b :: bs => b + 256 * from_le bs end.
(** [uN::from_be_bytes(bs)]. *)
Definition from_be (bs : list Z) : Z := from_le (rev bs).

(** * Word ranges *)

Lemma is_word_byte x : is_word 8 x <-> is_byte x.
Proof. done. Qed.

Lemma is_word_mod w x : 0 <= w -> is_word w (x mod 2 ^ w).
Proof. intros Hw. apply Z.mod_pos_bound. lia. Qed.

Lemma wadd_word w x y : 0 <= w -> is_word w (wadd w x y).
Proof. apply is_word_mod. Qed.
Lemma wshl_word w x k : 0 <= w -> is_word w (wshl w x k).
Proof. apply is_word_mod. Qed.
Lemma cast_word w x : 0 <= w -> is_word w (cast w x).
Proof. apply is_word_mod. Qed.
Lemma wnot_word w x : is_word w x -> is_word w (wnot w x).
Proof. unfold is_word, wnot. lia. Qed.

Lemma cast_small w x : is_word w x -> cast w x = x.
Proof. apply Z.mod_small. Qed.

Lemma word_bits w x :
  0 <= w -> is_word w x <-> (0 <= x /\ forall i, w <= i -> Z.testbit x i = false).
Proof.
  intros Hw. split.
  - intros Hx. split; [apply Hx|]. intros i Hi.
    rewrite <- (Z.mod_small x (2 ^ w)) by done. apply Z.mod_pow2_bits_high. lia.
  - intros [H0 Hi]. split; [done|].
    destruct (decide (x = 0)) as [->|Hx]; [lia|].
    apply Z.log2_lt_pow2; [lia|].
    destruct (decide (Z.log2 x < w)); [done|].
    specialize (Hi (Z.log2 x)). rewrite Z.bit_log2 in Hi by lia.
    discriminate Hi. lia.
Qed.

Lemma lxor_word w x y : 0 <= w -> is_word w x -> is_word w y -> is_word w (Z.lxor x y).
Proof.
  intros Hw Hx Hy. apply word_bits in Hx, Hy; [|lia..]. apply word_bits; [lia|]. split.
  - apply Z.lxor_nonneg. lia.
  - intros i Hi. rewrite Z.lxor_spec. by rewrite (proj2 Hx), (proj2 Hy) by lia.
Qed.
Lemma lor_word w x y : 0 <= w -> is_word w x -> is_word w y -> is_word w (Z.lor x y).
Proof.
  intros Hw Hx Hy. apply word_bits in Hx, Hy; [|lia..]. apply word_bits; [lia|]. split.
  - apply Z.lor_nonneg. lia.
  - intros i Hi. rewrite Z.lor_spec. by rewrite (proj2 Hx), (proj2 Hy) by lia.
Qed.
Lemma land_word w x y : 0 <= w -> is_word w x -> 0 <= y -> is_word w (Z.land x y).
Proof.
  intros Hw Hx Hy. apply word_bits in Hx; [|lia]. apply word_bits; [lia|]. split.
  - apply Z.land_nonneg. lia.
  - intros i Hi. rewrite Z.land_spec. by rewrite (proj2 Hx) by lia.
Qed.
Lemma shiftr_word w x k : 0 <= w -> 0 <= k -> is_word w x -> is_word w (Z.shiftr x k).
Proof.
  intros Hw Hk Hx. apply word_bits in Hx; [|lia]. apply word_bits; [lia|]. split.
  - apply Z.shiftr_nonneg. lia.
  - intros i Hi. rewrite Z.shiftr_spec by lia. apply (proj2 Hx). lia.
Qed.
Lemma rotl_word w x k : 0 <= w -> 0 <= k <= w -> is_word w x -> is_word w (rotl w x k).
Proof.
  intros Hw Hk Hx. apply lor_word; [done|by apply wshl_word|]. apply shiftr_word; lia || done.
Qed.
Lemma rotr_word w x k : 0 <= w -> 0 <= k -> is_word w x -> is_word w (rotr w x k).
Proof.
  intros Hw Hk Hx. apply lor_word; [done| |by apply wshl_word]. apply shiftr_word; lia || done.
Qed.

#[export] Hint Resolve wadd_word wshl_word cast_word wnot_word lxor_word lor_word
  shiftr_word rotl_word rotr_word is_word_mod : kr.
#[export] Hint Extern 0 (_ <= _) => lia : kr.
#[export] Hint Extern 0 (_ <= _ <= _) => lia : kr.
Ltac words := solve [eauto 15 with kr].

Lemma lxor_cancel x y : Z.lxor (Z.lxor x y) y = x.
Proof. by rewrite Z.lxor_assoc, Z.lxor_nilpotent, Z.lxor_0_r. Qed.

(** Disjoint bit fields add up. *)
Lemma lor_disjoint_add a b k : 0 <= k -> 0 <= b < 2 ^ k -> Z.lor (a * 2 ^ k) b = a * 2 ^ k + b.
Proof.
  intros Hk Hb. symmetry. rewrite Z.add_nocarry_lxor, Z.lxor_lor; [done|..].
  all: apply Z.bits_inj'; intros i Hi; rewrite Z.land_spec, Z.bits_0.
  all: destruct (Z.lt_ge_cases i k).
  1,3: rewrite Z.mul_pow2_bits_low by done; done.
  all: rewrite (proj2 (proj1 (word_bits k b Hk) Hb)) by done; apply andb_false_r.
Qed.

Lemma lor_shiftl_add a b k : 0 <= k -> 0 <= b < 2 ^ k -> Z.lor (Z.shiftl a k) b = a * 2 ^ k + b.
Proof. intros Hk Hb. rewrite Z.shiftl_mul_pow2 by done. by apply lor_disjoint_add. Qed.

Lemma land_ones_mod x k : 0 <= k -> Z.land x (2 ^ k - 1) = x mod 2 ^ k.
Proof. intros Hk. rewrite <- Z.land_ones by done. by rewrite Z.ones_equiv, Z.sub_1_r. Qed.

(** * Byte forms: lengths, ranges, inverses *)

Lemma length_to_le n x : length (to_le n x) = n.
Proof. revert x. induction n; intros x; simpl; congruence. Qed.
Lemma length_to_be n x : length (to_be n x) = n.
Proof. unfold to_be. by rewrite length_rev, length_to_le. Qed.
Lemma zlen_to_le n x : zlen (to_le n x) = Z.of_nat n.
Proof. unfold zlen. by rewrite length_to_le. Qed.
Lemma zlen_to_be n x : zlen (to_be n x) = Z.of_nat n.
Proof. unfold zlen. by rewrite length_to_be. Qed.
#[export] Hint Rewrite zlen_to_le zlen_to_be : zlen.

Lemma to_le_bytes n x : Bytes (to_le n x).
Proof.
  revert x. induction n; intros x; constructor; [|done].
  apply Z.mod_pos_bound. lia.
Qed.
Lemma to_be_bytes n x : Bytes (to_be n x).
Proof. unfold to_be. apply Forall_rev, to_le_bytes. Qed.

Lemma from_le_to_le n x : from_le (to_le n x) = x mod 2 ^ (8 * Z.of_nat n).
Proof.
  revert x. induction n as [|n IH]; intros x.
  - simpl. by rewrite Z.mod_1_r.
  - cbn [to_le from_le]. rewrite IH.
    replace (8 * Z.of_nat (S n)) with (8 + 8 * Z.of_nat n) by lia.
    rewrite Z.pow_add_r by lia. change (2 ^ 8) with 256.
    rewrite Z.rem_mul_r by lia. done.
Qed.
Lemma from_be_to_be n x : from_be (to_be n x) = x mod 2 ^ (8 * Z.of_nat n).
Proof. unfold from_be, to_be. rewrite rev_involutive. apply from_le_to_le. Qed.

Lemma from_be_to_be_small n x : is_word (8 * Z.of_nat n) x -> from_be (to_be n x) = x.
Proof. intros H. rewrite from_be_to_be. by apply Z.mod_small. Qed.

Lemma from_le_bound bs : Bytes bs -> 0 <= from_le bs < 2 ^ (8 * zlen bs).
Proof.
  induction 1 as [|b bs Hb _ IH]; [done|]. cbn [from_le]. rewrite zlen_cons.
  replace (8 * (1 + zlen bs)) with (8 + 8 * zlen bs) by lia.
  pose proof (zlen_nonneg bs). rewrite Z.pow_add_r by lia. unfold is_byte in Hb. lia.
Qed.
Lemma from_be_bound bs : Bytes bs -> 0 <= from_be bs < 2 ^ (8 * zlen bs).
Proof.
  intros H. unfold from_be. replace (zlen bs) with (zlen (rev bs)).
  - by apply from_le_bound, Forall_rev.
  - unfold zlen. by rewrite length_rev.
Qed.

Lemma to_le_from_le bs : Bytes bs -> to_le (length bs) (from_le bs) = bs.
Proof.
  induction 1 as [|b bs Hb _ IH]; [done|]. cbn [from_le length to_le]. unfold is_byte in Hb.
  f_equal.
  - rewrite Z.mul_comm, Z.mod_add by lia. by apply Z.mod_small.
  - rewrite Z.mul_comm, Z.div_add by lia. rewrite Z.div_small by done. exact IH.
Qed.
Lemma to_be_from_be bs : Bytes bs -> to_be (length bs) (from_be bs) = bs.
Proof.
  intros H. unfold to_be, from_be. rewrite <- (length_rev bs).
  rewrite to_le_from_le by (by apply Forall_rev). apply rev_involutive.
Qed.

Lemma to_be_inj n x y :
  is_word (8 * Z.of_nat n) x -> is_word (8 * Z.of_nat n) y -> to_be n x = to_be n y -> x = y.
Proof. intros Hx Hy H. rewrite <- (from_be_to_be_small n x), H by done. by apply from_be_to_be_small. Qed.

Lemma to_le_mod n x : to_le n (x mod 2 ^ (8 * Z.of_nat n)) = to_le n x.
Proof.
  rewrite <- from_le_to_le. rewrite <- (length_to_le n x) at 1.
  apply to_le_from_le, to_le_bytes.
Qed.
Lemma to_be_mod n x : to_be n (x mod 2 ^ (8 * Z.of_nat n)) = to_be n x.
Proof. unfold to_be. by rewrite to_le_mod. Qed.

(** * Numbers in radix 2^k, most significant digit first *)

Definition digits (k : Z) (vs : list Z) : Z := fold_left (fun a v => a * 2 ^ k + v) vs 0.

Lemma digits_snoc k vs v : digits k (vs ++ [v]) = digits k vs * 2 ^ k + v.
Proof. unfold digits. by rewrite fold_left_app. Qed.

Lemma digits_app k vs ws :
  0 <= k -> digits k (vs ++ ws) = digits k vs * 2 ^ (k * zlen ws) + digits k ws.
Proof.
  intros Hk. induction ws as [|w ws IH] using rev_ind.
  - rewrite app_nil_r, zlen_nil, Z.mul_0_r. change (digits k []) with 0. lia.
  - rewrite (assoc_L (++)), !digits_snoc, IH. zlen. pose proof (zlen_nonneg ws).
    replace (k * (zlen ws + (1 + 0))) with (k * zlen ws + k) by lia.
    rewrite Z.pow_add_r by lia. lia.
Qed.

Lemma digits_nonneg k vs : 0 <= k -> Forall (fun v => 0 <= v) vs -> 0 <= digits k vs.
Proof.
  intros Hk. induction vs as [|v vs IH] using rev_ind; [done|].
  rewrite Forall_app, Forall_singleton. intros [Hvs Hv]. rewrite digits_snoc.
  specialize (IH Hvs). pose proof (Z.pow_nonneg 2 k). lia.
Qed.

Lemma from_le_app a b : from_le (a ++ b) = from_le a + 2 ^ (8 * zlen a) * from_le b.
Proof.
  induction a as [|x a IH]; [change (zlen (@nil Z)) with 0; cbn [app from_le]; lia|].
  cbn [app from_le]. rewrite IH. zlen. pose proof (zlen_nonneg a).
  replace (8 * (1 + zlen a)) with (8 + 8 * zlen a) by lia.
  rewrite Z.pow_add_r by lia. change (2 ^ 8) with 256. lia.
Qed.

Lemma from_be_snoc bs b : from_be (bs ++ [b]) = from_be bs * 256 + b.
Proof. unfold from_be. rewrite rev_app_distr. cbn [rev app from_le]. lia. Qed.

Lemma from_be_cons b bs : from_be (b :: bs) = b * 2 ^ (8 * zlen bs) + from_be bs.
Proof.
  unfold from_be. cbn [rev]. rewrite from_le_app. cbn [from_le].
  replace (zlen (rev bs)) with (zlen bs) by (unfold zlen; by rewrite length_rev). lia.
Qed.

Lemma from_be_app a b : from_be (a ++ b) = from_be a * 2 ^ (8 * zlen b) + from_be b.
Proof.
  unfold from_be. rewrite rev_app_distr, from_le_app.
  replace (zlen (rev b)) with (zlen b) by (unfold zlen; by rewrite length_rev). lia.
Qed.

Lemma from_be_inj a b : Bytes a -> Bytes b -> length a = length b -> from_be a = from_be b -> a = b.
Proof.
  intros Ha Hb Hl H. rewrite <- (to_be_from_be a), <- (to_be_from_be b), Hl, H by done. done.
Qed.

Lemma as_i64_small x : x < 2 ^ 63 -> as_i64 x = x.
Proof. intros. unfold as_i64. by rewrite (proj2 (Z.ltb_lt x _)) by lia. Qed.

(** What a call of the state and error monad does, as a weakest precondition: a run is followed
    bind by bind with what is known of its outcomes. *)

Section wp.
Context {S E : Type}.

(** [m] from [s] ends in a result and a state that [Q] holds of. *)
Definition wp {A} (m : io S E A) (s : S) (Q : result E A -> S -> Prop) : Prop := Q (m s).1 (m s).2.

Lemma wp_eq {A} (m : io S E A) s r s' (Q : result E A -> S -> Prop) : m s = (r, s') -> Q r s' -> wp m s Q.
Proof. intros Hm HQ. unfold wp. by rewrite Hm. Qed.
Lemma wp_mono {A} (m : io S E A) s (P Q : result E A -> S -> Prop) : wp m s P -> (forall r s', P r s' -> Q r s') -> wp m s Q.
Proof. intros HP HPQ. by apply HPQ. Qed.
Lemma wp_ret {A} (a : A) s (Q : result E A -> S -> Prop) : Q (Ok a) s -> wp (mret a) s Q.
Proof. done. Qed.
Lemma wp_lift {A} (r : result E A) s (Q : result E A -> S -> Prop) : Q r s -> wp (lift r) s Q.
Proof. done. Qed.
Lemma wp_bind {A B} (m : io S E A) (f : A -> io S E B) s (Q : result E B -> S -> Prop) :
  wp m s (fun r s' => match r with Ok a => wp (f a) s' Q | Err e => Q (Err e) s' end) -> wp (m ≫= f) s Q.
Proof. unfold wp, mbind, io_bind. by destruct (m s) as [[a|e] s']. Qed.
Lemma wp_bind_lift {A B} (r : result E A) (f : A -> io S E B) s (Q : result E B -> S -> Prop) :
  match r with Ok a => wp (f a) s Q | Err e => Q (Err e) s end -> wp (lift r ≫= f) s Q.
Proof. intros HQ. apply wp_bind, wp_lift. by destruct r. Qed.
End wp.
