(* ===== verification/Utf8.v ===== *)
(** Rust strings. A [&str]/[String] is modelled by its UTF-8 bytes;
    [from_utf8] is [std::str::from_utf8] (well-formedness as in Table 3-7 of
    the Unicode standard: no overlong forms, no surrogates, at most U+10FFFF)
    and [chars] is [str::chars], the sequence of Unicode scalar values. *)
From S2P Require Export Prelude.
From Stdlib Require Ascii String.
Export Stdlib.Strings.String.StringSyntax.

(** ASCII literals: [s2b "abc"] is the byte string [b"abc"]. *)
Fixpoint s2b (s : String.string) : list Z :=
  match s with
  | String.EmptyString => []
  | String.String c s => Z.of_N (Ascii.N_of_ascii c) :: s2b s
  end.
Arguments s2b s%_string_scope.

Example s2b_ex : s2b "AZ" = [65; 90].
Proof. reflexivity. Qed.

Definition is_scalar (c : Z) : Prop := (0 <= c < 0xD800) \/ (0xE000 <= c < 0x110000).

Definition is_cont (b : Z) : bool := (0x80 <=? b) && (b <? 0xC0).

(** One scalar value to bytes ([char::encode_utf8]). *)
Definition encode_char (c : Z) : list Z :=
  if c <? 0x80 then [c]
  else if c <? 0x800 then [0xC0 + c / 64; 0x80 + c mod 64]
  else if c <? 0x10000 then
    [0xE0 + c / 4096; 0x80 + (c / 64) mod 64; 0x80 + c mod 64]
  else
    [0xF0 + c / 262144; 0x80 + (c / 4096) mod 64; 0x80 + (c / 64) mod 64; 0x80 + c mod 64].

Definition utf8_encode (cs : list Z) : list Z := flat_map encode_char cs.

(** Bytes to scalar values; [None] when the bytes are not well-formed UTF-8. *)
Fixpoint utf8_decode (bs : list Z) : option (list Z) :=
  match bs with
  | [] => Some []
  | b0 :: r0 =>
    if (0 <=? b0) && (b0 <? 0x80) then cons b0 <$> utf8_decode r0
    else match r0 with
    | [] => None
    | b1 :: r1 =>
      if negb (is_cont b1) then None
      else if (0xC0 <=? b0) && (b0 <? 0xE0) then
        let c := (b0 - 0xC0) * 64 + (b1 - 0x80) in
        if c <? 0x80 then None else cons c <$> utf8_decode r1
      else match r1 with
      | [] => None
      | b2 :: r2 =>
        if negb (is_cont b2) then None
        else if (0xE0 <=? b0) && (b0 <? 0xF0) then
          let c := (b0 - 0xE0) * 4096 + (b1 - 0x80) * 64 + (b2 - 0x80) in
          if (c <? 0x800) || ((0xD800 <=? c) && (c <? 0xE000)) then None
          else cons c <$> utf8_decode r2
        else match r2 with
        | [] => None
        | b3 :: r3 =>
          if negb (is_cont b3) then None
          else if (0xF0 <=? b0) && (b0 <? 0xF8) then
            let c := (b0 - 0xF0) * 262144 + (b1 - 0x80) * 4096
                     + (b2 - 0x80) * 64 + (b3 - 0x80) in
            if (c <? 0x10000) || (0x110000 <=? c) then None
            else cons c <$> utf8_decode r3
          else None
        end
      end
    end
  end.

(** [std::str::from_utf8(bs).ok()]: the same bytes, checked. *)
Definition from_utf8 (bs : list Z) : option (list Z) :=
  match utf8_decode bs with Some _ => Some bs | None => None end.

(** [s.chars()]. *)
Definition chars (s : list Z) : list Z := default [] (utf8_decode s).

(** What a Rust string's bytes satisfy. *)
Definition is_str (s : list Z) : Prop := is_Some (utf8_decode s).
#[export] Instance is_str_dec s : Decision (is_str s).
Proof. unfold is_str. apply _. Defined.

Lemma utf8_decode_char c r :
  is_scalar c -> utf8_decode (encode_char c ++ r) = cons c <$> utf8_decode r.
Proof.
  intros Hc. unfold is_scalar in Hc. unfold encode_char.
  destruct (c <? 0x80) eqn:E1; [|destruct (c <? 0x800) eqn:E2; [|destruct (c <? 0x10000) eqn:E3]];
    bools; cbn [app utf8_decode]; unfold is_cont.
  - decide_cmp. done.
  - assert (2 <= c / 64 < 32) by (split; [apply Z.div_le_lower_bound|apply Z.div_lt_upper_bound]; lia).
    pose proof (Z.mod_pos_bound c 64). pose proof (Z.div_mod c 64).
    replace ((0xC0 + c / 64 - 0xC0) * 64 + (0x80 + c mod 64 - 0x80)) with c by lia.
    decide_cmp. done.
  - pose proof (Z.mod_pos_bound c 64). pose proof (Z.mod_pos_bound (c / 64) 64).
    pose proof (Z.div_mod c 64). pose proof (Z.div_mod (c / 64) 64).
    assert (c / 4096 = c / 64 / 64) by (rewrite Z.div_div by lia; done).
    assert (0 <= c / 4096 < 16) by (split; [apply Z.div_pos|apply Z.div_lt_upper_bound]; lia).
    replace ((0xE0 + c / 4096 - 0xE0) * 4096 + (0x80 + (c / 64) mod 64 - 0x80) * 64
             + (0x80 + c mod 64 - 0x80)) with c by lia.
    decide_cmp. simpl. destruct (0xD800 <=? c) eqn:E4, (c <? 0xE000) eqn:E5; bools; try done. lia.
  - pose proof (Z.mod_pos_bound c 64). pose proof (Z.mod_pos_bound (c / 64) 64).
    pose proof (Z.mod_pos_bound (c / 4096) 64).
    pose proof (Z.div_mod c 64). pose proof (Z.div_mod (c / 64) 64).
    pose proof (Z.div_mod (c / 4096) 64).
    assert (c / 4096 = c / 64 / 64) by (rewrite Z.div_div by lia; done).
    assert (c / 262144 = c / 4096 / 64) by (rewrite Z.div_div by lia; done).
    assert (0 <= c / 262144 < 5) by (split; [apply Z.div_pos|apply Z.div_lt_upper_bound]; lia).
    replace ((0xF0 + c / 262144 - 0xF0) * 262144 + (0x80 + (c / 4096) mod 64 - 0x80) * 4096
             + (0x80 + (c / 64) mod 64 - 0x80) * 64 + (0x80 + c mod 64 - 0x80)) with c by lia.
    decide_cmp. done.
Qed.

Lemma utf8_decode_encode cs : Forall is_scalar cs -> utf8_decode (utf8_encode cs) = Some cs.
Proof.
  induction 1 as [|c cs Hc _ IH]; [done|]. unfold utf8_encode. simpl.
  rewrite utf8_decode_char by done. unfold utf8_encode in IH. by rewrite IH.
Qed.


Ltac zdiv_facts :=
  repeat match goal with
  | |- context [?a / ?b] => 
      lazymatch goal with
      | H : a = b * (a / b) + a mod b |- _ => fail
      | _ => pose proof (Z.div_mod a b ltac:(lia)); pose proof (Z.mod_pos_bound a b ltac:(lia))
      end
  end.

(** Three and four bytes, put together and written again. *)
Lemma encode_char3 x y z c :
  0 <= x < 16 -> 0 <= y < 64 -> 0 <= z < 64 -> c = x * 4096 + y * 64 + z -> 0x800 <= c ->
  encode_char c = [224 + x; 128 + y; 128 + z].
Proof.
  intros Hx Hy Hz Hc Hlo. unfold encode_char. decide_cmp.
  assert (c / 64 = x * 64 + y) as D1 by (symmetry; apply Z.div_unique with z; lia).
  assert (c / 4096 = x) as D2 by (symmetry; apply Z.div_unique with (y * 64 + z); lia).
  assert (c mod 64 = z) as M1 by (pose proof (Z.div_mod c 64); lia).
  assert ((x * 64 + y) mod 64 = y) as M2 by (symmetry; apply Z.mod_unique with x; lia).
  by rewrite D1, D2, M1, M2.
Qed.
Lemma encode_char4 w x y z c :
  0 <= w -> 0 <= x < 64 -> 0 <= y < 64 -> 0 <= z < 64 -> c = w * 262144 + x * 4096 + y * 64 + z -> 0x10000 <= c ->
  encode_char c = [240 + w; 128 + x; 128 + y; 128 + z].
Proof.
  intros Hw Hx Hy Hz Hc Hlo. unfold encode_char. decide_cmp.
  assert (c / 64 = w * 4096 + x * 64 + y) as D1 by (symmetry; apply Z.div_unique with z; lia).
  assert (c / 4096 = w * 64 + x) as D2 by (symmetry; apply Z.div_unique with (y * 64 + z); lia).
  assert (c / 262144 = w) as D3 by (symmetry; apply Z.div_unique with (x * 4096 + y * 64 + z); lia).
  assert (c mod 64 = z) as M1 by (pose proof (Z.div_mod c 64); lia).
  assert ((w * 4096 + x * 64 + y) mod 64 = y) as M2 by (symmetry; apply Z.mod_unique with (w * 64 + x); lia).
  assert ((w * 64 + x) mod 64 = x) as M3 by (symmetry; apply Z.mod_unique with w; lia).
  by rewrite D1, D2, D3, M1, M2, M3.
Qed.

Lemma utf8_decode_step bs cs :
  Bytes bs -> utf8_decode bs = Some cs ->
  (bs = [] /\ cs = []) \/
  exists c cs' r, cs = c :: cs' /\ is_scalar c /\ bs = encode_char c ++ r /\ utf8_decode r = Some cs'.
Proof.
  unfold is_scalar. intros HB.
  destruct bs as [|b0 r0]; intros H; [left; simpl in H; split; congruence|right].
  inversion HB as [|? ? Hb0 HB0]; subst; clear HB. unfold is_byte in Hb0.
  cbn [utf8_decode] in H. destruct ((0 <=? b0) && (b0 <? 0x80)) eqn:E0.
  { apply fmap_Some in H; destruct H as (cs' & Hd & ->). bools.
    exists b0, cs', r0. split_and!; [done|lia| |done]. unfold encode_char. by decide_cmp. }
  assert (0x80 <= b0) by (bools; lia). clear E0.
  destruct r0 as [|b1 r1]; [done|].
  destruct (is_cont b1) eqn:E1; [|done]. unfold is_cont in E1. bools. cbn [negb] in H.
  destruct ((0xC0 <=? b0) && (b0 <? 0xE0)) eqn:E2.
  { bools. destruct (_ <? 0x80) eqn:E3 in H; [done|]. bools.
    apply fmap_Some in H; destruct H as (cs' & Hd & ->).
    eexists _, cs', r1. split_and!; [done|lia| |done]. unfold encode_char. decide_cmp.
    cbn [app]. zdiv_facts. repeat f_equal; lia. }
  destruct r1 as [|b2 r2]; [done|].
  destruct (is_cont b2) eqn:E3; [|done]. unfold is_cont in E3. bools. cbn [negb] in H.
  destruct ((0xE0 <=? b0) && (b0 <? 0xF0)) eqn:E4.
  { bools. destruct (_ || _) eqn:E5 in H; [done|].
    apply fmap_Some in H; destruct H as (cs' & Hd & ->). apply orb_false_iff in E5 as [E5 E6]. bools.
    eexists _, cs', r2. split_and!; [done|lia| |done].
    rewrite (encode_char3 (b0 - 224) (b1 - 128) (b2 - 128)) by lia. cbn [app]. repeat f_equal; lia. }
  destruct r2 as [|b3 r3]; [done|].
  destruct (is_cont b3) eqn:E5; [|done]. unfold is_cont in E5. bools. cbn [negb] in H.
  destruct ((0xF0 <=? b0) && (b0 <? 0xF8)) eqn:E6; [|done].
  bools. destruct (_ || _) eqn:E7 in H; [done|].
  apply fmap_Some in H; destruct H as (cs' & Hd & ->). apply orb_false_iff in E7 as [E7 E8]. bools.
  eexists _, cs', r3. split_and!; [done|lia| |done].
  rewrite (encode_char4 (b0 - 240) (b1 - 128) (b2 - 128) (b3 - 128)) by lia. cbn [app]. repeat f_equal; lia.
Qed.

Lemma encode_char_length c : (0 < length (encode_char c))%nat.
Proof. unfold encode_char. repeat case_match; simpl; lia. Qed.

Lemma utf8_encode_decode bs cs :
  Bytes bs -> utf8_decode bs = Some cs -> bs = utf8_encode cs /\ Forall is_scalar cs.
Proof.
  remember (length bs) as n eqn:Hn. revert bs cs Hn.
  induction (lt_wf n) as [n _ IH]. intros bs cs -> HB H.
  destruct (utf8_decode_step bs cs HB H) as [[-> ->]|(c & cs' & r & -> & Hc & -> & Hr)];
    [by split|].
  apply Forall_app in HB as [_ HB].
  destruct (IH (length r)) with r cs' as [-> Hs]; try done.
  - rewrite length_app. pose proof (encode_char_length c). lia.
  - split; [done|by constructor].
Qed.

Lemma utf8_decode_app a b ca cb :
  Bytes a -> utf8_decode a = Some ca -> utf8_decode b = Some cb ->
  utf8_decode (a ++ b) = Some (ca ++ cb).
Proof.
  intros HB Ha Hb. destruct (utf8_encode_decode a ca HB Ha) as [-> Hs]. clear HB Ha.
  induction Hs as [|c ca Hc _ IH]; [done|].
  unfold utf8_encode in *. cbn [flat_map]. rewrite <- (assoc_L (++)), utf8_decode_char by done.
  by rewrite IH.
Qed.

Lemma is_str_app a b : Bytes a -> is_str a -> is_str b -> is_str (a ++ b).
Proof. intros HB [ca Ha] [cb Hb]. exists (ca ++ cb). by apply utf8_decode_app. Qed.

(** ASCII text decodes to itself. *)
Lemma utf8_decode_ascii s : Forall (fun b => 0 <= b < 0x80) s -> utf8_decode s = Some s.
Proof.
  induction 1 as [|b s Hb _ IH]; [done|]. cbn [utf8_decode]. decide_cmp. simpl. by rewrite IH.
Qed.

Lemma ascii_is_str s : Forall (fun b => 0 <= b < 0x80) s -> is_str s.
Proof. intros H. exists s. by apply utf8_decode_ascii. Qed.

Lemma from_utf8_Some bs s : from_utf8 bs = Some s <-> s = bs /\ is_str bs.
Proof.
  unfold from_utf8, is_str. destruct (utf8_decode bs) as [cs|].
  - split; [intros [= <-]; eauto|intros [-> _]; done].
  - split; [done|intros [_ [x Hx]]; discriminate].
Qed.

Lemma from_utf8_str s : is_str s -> from_utf8 s = Some s.
Proof. intros H. by apply from_utf8_Some. Qed.
