(* ===== verification/Text.v ===== *)
(** What the sources use of Rust's string library beyond UTF-8 decoding: lossy
    decoding, searching, ASCII case, decimal formatting, trimming. *)
From S2P Require Export Utf8.

(** * [String::from_utf8_lossy] *)

(** U+FFFD. *)
Definition REPLACEMENT : list Z := [0xEF; 0xBF; 0xBD].

Definition between (lo hi b : Z) : bool := (lo <=? b) && (b <=? hi).

(** The length of the well-formed character at the front ([inl]), or of the
    maximal ill-formed prefix to replace ([inr]), as the standard library
    walks them; bytes past the end count as 0. *)
Definition lossy_step (b0 b1 b2 b3 : Z) : nat + nat :=
  if b0 <? 0x80 then inl 1%nat
  else if between 0xC2 0xDF b0 then (if is_cont b1 then inl 2%nat else inr 1%nat)
  else if between 0xE0 0xEF b0 then
    let lo := if b0 =? 0xE0 then 0xA0 else 0x80 in
    let hi := if b0 =? 0xED then 0x9F else 0xBF in
    if between lo hi b1 then (if is_cont b2 then inl 3%nat else inr 2%nat) else inr 1%nat
  else if between 0xF0 0xF4 b0 then
    let lo := if b0 =? 0xF0 then 0x90 else 0x80 in
    let hi := if b0 =? 0xF4 then 0x8F else 0xBF in
    if between lo hi b1 then
      (if is_cont b2 then (if is_cont b3 then inl 4%nat else inr 3%nat) else inr 2%nat)
    else inr 1%nat
  else inr 1%nat.

Fixpoint lossy_aux (fuel : nat) (bs : list Z) : list Z :=
  match fuel, bs with
  | O, _ => []
  | _, [] => []
  | S fuel, _ =>
      match lossy_step (bs !!! 0%nat) (bs !!! 1%nat) (bs !!! 2%nat) (bs !!! 3%nat) with
      | inl n => take n bs ++ lossy_aux fuel (drop n bs)
      | inr n => REPLACEMENT ++ lossy_aux fuel (drop n bs)
      end
  end.
Definition from_utf8_lossy (bs : list Z) : list Z := lossy_aux (length bs) bs.

Example lossy_ex : from_utf8_lossy [0x41; 0xFF; 0xFE; 0xE2; 0x82; 0x42] =
  [0x41] ++ REPLACEMENT ++ REPLACEMENT ++ REPLACEMENT ++ [0x42].
Proof. reflexivity. Qed.

Lemma lossy_char c r :
  is_scalar c ->
  lossy_step ((encode_char c ++ r) !!! 0%nat) ((encode_char c ++ r) !!! 1%nat)
    ((encode_char c ++ r) !!! 2%nat) ((encode_char c ++ r) !!! 3%nat)
  = inl (length (encode_char c)).
Proof.
  unfold is_scalar, encode_char. intros Hc.
  destruct (c <? 0x80) eqn:E1; [|destruct (c <? 0x800) eqn:E2; [|destruct (c <? 0x10000) eqn:E3]];
    bools; cbn [app length].
  - change ((c :: r) !!! 0%nat) with c. unfold lossy_step. by decide_cmp.
  - match goal with |- lossy_step (?l !!! _) _ _ _ = _ => set (s := l) end.
    change (s !!! 0%nat) with (0xC0 + c / 64). change (s !!! 1%nat) with (0x80 + c mod 64).
    unfold lossy_step, between, is_cont.
    assert (2 <= c / 64 < 32 /\ 0 <= c mod 64 < 64) by lia_div.
    by decide_cmp.
  - match goal with |- lossy_step (?l !!! _) _ _ _ = _ => set (s := l) end.
    change (s !!! 0%nat) with (0xE0 + c / 4096). change (s !!! 1%nat) with (0x80 + (c / 64) mod 64).
    change (s !!! 2%nat) with (0x80 + c mod 64).
    assert (0 <= c / 4096 < 16 /\ 0 <= c mod 64 < 64 /\ 0 <= (c / 64) mod 64 < 64 /\
      (c / 4096 = 0 -> 32 <= (c / 64) mod 64) /\ (c / 4096 = 13 -> (c / 64) mod 64 < 32)) by lia_div.
    unfold lossy_step, between, is_cont. decide_cmp. cbn [andb].
    destruct (_ =? 0xE0) eqn:E4, (_ =? 0xED) eqn:E5; bools; decide_cmp; done || lia.
  - match goal with |- lossy_step (?l !!! _) _ _ _ = _ => set (s := l) end.
    change (s !!! 0%nat) with (0xF0 + c / 262144). change (s !!! 1%nat) with (0x80 + (c / 4096) mod 64).
    change (s !!! 2%nat) with (0x80 + (c / 64) mod 64). change (s !!! 3%nat) with (0x80 + c mod 64).
    assert (0 <= c / 262144 < 5 /\ 0 <= c mod 64 < 64 /\ 0 <= (c / 64) mod 64 < 64 /\
      0 <= (c / 4096) mod 64 < 64 /\
      (c / 262144 = 0 -> 16 <= (c / 4096) mod 64) /\ (c / 262144 = 4 -> (c / 4096) mod 64 < 16)) by lia_div.
    unfold lossy_step, between, is_cont. decide_cmp. cbn [andb].
    destruct (_ =? 0xF0) eqn:E4, (_ =? 0xF4) eqn:E5; bools; decide_cmp; done || lia.
Qed.

(** Lossy decoding keeps well-formed text. *)
Lemma from_utf8_lossy_str s : Bytes s -> is_str s -> from_utf8_lossy s = s.
Proof.
  intros HB [cs Hd]. destruct (utf8_encode_decode s cs HB Hd) as [-> Hs]. clear HB Hd.
  unfold from_utf8_lossy. set (s := utf8_encode cs). assert (length s <= length s)%nat as Hf by done.
  revert Hf. generalize (length s) at 2 3. unfold s. clear s.
  induction Hs as [|c cs Hc _ IH]; intros fuel Hf; [by destruct fuel|].
  unfold utf8_encode in *. cbn [flat_map] in *. rewrite length_app in Hf.
  pose proof (encode_char_length c). destruct fuel as [|fuel]; [lia|].
  assert (exists x l, encode_char c ++ flat_map encode_char cs = x :: l) as (x & l & Hx).
  { destruct (encode_char c); [simpl in *; lia|]. by eexists _, _. }
  cbn [lossy_aux]. rewrite Hx. cbv iota. rewrite <- Hx, lossy_char by done.
  rewrite take_app_length, drop_app_length, IH by lia. done.
Qed.

(** * Searching *)

(** [s.starts_with(p)]. *)
Fixpoint starts_with (p s : list Z) : bool :=
  match p, s with
  | [], _ => true
  | x :: p, y :: s => (x =? y) && starts_with p s
  | _, [] => false
  end.

(** [s.contains(p)]. *)
Fixpoint contains (p s : list Z) : bool :=
  starts_with p s || match s with [] => false | _ :: s => contains p s end.

(** [s.find(c)] and [s.rfind(c)] for an ASCII [c]: byte positions. *)
Fixpoint find_byte (c : Z) (s : list Z) : option nat :=
  match s with
  | [] => None
  | x :: s => if x =? c then Some 0%nat else S <$> find_byte c s
  end.
Fixpoint rfind_byte (c : Z) (s : list Z) : option nat :=
  match s with
  | [] => None
  | x :: s =>
      match rfind_byte c s with
      | Some i => Some (S i)
      | None => if x =? c then Some 0%nat else None
      end
  end.

Lemma starts_with_spec p s : starts_with p s = true <-> exists r, s = p ++ r.
Proof.
  revert s. induction p as [|x p IH]; intros s; simpl.
  - split; [by exists s|done].
  - destruct s as [|y s]; [split; [done|by intros [r Hr]]|].
    rewrite andb_true_iff, Z.eqb_eq, IH. split.
    + intros [-> [r ->]]. by exists r.
    + intros [r [= -> ->]]. split; [done|by exists r].
Qed.

Lemma contains_spec p s : contains p s = true <-> exists a b, s = a ++ p ++ b.
Proof.
  induction s as [|x s IH]; simpl.
  - rewrite orb_false_r, starts_with_spec. split.
    + intros [r Hr]. by exists [], r.
    + intros (a & b & H). destruct a; [|done]. by exists b.
  - rewrite orb_true_iff, starts_with_spec, IH. split.
    + intros [[r Hr]|(a & b & ->)]; [by exists [], r|by exists (x :: a), b].
    + intros (a & b & H). destruct a as [|y a]; [left; by exists b|right].
      injection H as -> ->. by exists a, b.
Qed.

(** * ASCII case and classes *)

Definition ascii_lower (b : Z) : Z := if between 65 90 b then b + 32 else b.
Definition to_ascii_lowercase (s : list Z) : list Z := ascii_lower <$> s.
Definition is_ascii_alphanumeric (c : Z) : bool :=
  between 48 57 c || between 65 90 c || between 97 122 c.
Definition is_ascii_digit (c : Z) : bool := between 48 57 c.

(** * Decimal formatting of unsigned integers *)

Fixpoint dec_aux (fuel : nat) (n : Z) : list Z :=
  match fuel with
  | O => []
  | S fuel => if n <? 10 then [48 + n] else dec_aux fuel (n / 10) ++ [48 + n mod 10]
  end.
(** [format!("{n}")]. *)
Definition dec (n : Z) : list Z := dec_aux (S (Z.to_nat (Z.log2 n))) n.

Example dec_ex : dec 0 = s2b "0" /\ dec 4096 = s2b "4096".
Proof. split; reflexivity. Qed.

(** The value of a digit string. *)
Definition undec (s : list Z) : Z := fold_left (fun a d => a * 10 + (d - 48)) s 0.

Lemma dec_aux_spec fuel n :
  0 <= n < 2 ^ Z.of_nat fuel -> (0 < fuel)%nat ->
  undec (dec_aux fuel n) = n /\ Forall (fun d => 48 <= d <= 57) (dec_aux fuel n).
Proof.
  revert n. induction fuel as [|fuel IH]; intros n Hn Hf; [lia|]. cbn [dec_aux].
  destruct (n <? 10) eqn:E; bools.
  - split; [unfold undec; simpl; lia|]. apply Forall_singleton. lia.
  - rewrite Nat2Z.inj_succ, Z.pow_succ_r in Hn by lia.
    destruct fuel as [|fuel]; [simpl in Hn; lia|].
    destruct (IH (n / 10)) as [Hv Hd]; [lia_div|lia|]. split.
    + unfold undec in *. rewrite fold_left_app, Hv. simpl. lia_div.
    + apply Forall_app; split; [done|]. apply Forall_singleton. lia_div.
Qed.

Lemma dec_spec n :
  0 <= n -> undec (dec n) = n /\ Forall (fun d => 48 <= d <= 57) (dec n).
Proof.
  intros Hn. apply dec_aux_spec; [|lia].
  rewrite Nat2Z.inj_succ, Z2Nat.id by apply Z.log2_nonneg.
  destruct (decide (n = 0)) as [->|Hz]; [simpl; lia|].
  pose proof (Z.log2_spec n). lia.
Qed.

Lemma undec_zeros n s : undec (replicate n 48 ++ s) = undec s.
Proof. unfold undec. rewrite fold_left_app. f_equal. induction n; [done|]. simpl. done. Qed.

Lemma dec_aux_length fuel n k :
  (0 < k)%nat -> 0 <= n < 10 ^ Z.of_nat k -> zlen (dec_aux fuel n) <= Z.of_nat k.
Proof.
  revert n k. induction fuel as [|fuel IH]; intros n k Hk Hn; cbn [dec_aux]; [zlen; lia|].
  destruct (n <? 10) eqn:E; [zlen; lia|]. bools. zlen.
  destruct k as [|[|k]]; [lia|simpl in Hn; lia|].
  rewrite Nat2Z.inj_succ, Z.pow_succ_r in Hn by lia.
  specialize (IH (n / 10) (S k) ltac:(lia) ltac:(split; [lia_div|apply Z.div_lt_upper_bound; lia])). lia.
Qed.

(** * Trimming *)

(** [char::is_whitespace] (the Unicode White_Space property). *)
Definition is_whitespace (c : Z) : bool :=
  between 9 13 c || (c =? 0x20) || (c =? 0x85) || (c =? 0xA0) || (c =? 0x1680) ||
  between 0x2000 0x200A c || (c =? 0x2028) || (c =? 0x2029) || (c =? 0x202F) ||
  (c =? 0x205F) || (c =? 0x3000).

Fixpoint drop_while (f : Z -> bool) (cs : list Z) : list Z :=
  match cs with
  | c :: cs' => if f c then drop_while f cs' else cs
  | [] => []
  end.

(** [s.trim_end()] and [s.trim_start()]. *)
Definition trim_end (s : list Z) : list Z :=
  utf8_encode (rev (drop_while is_whitespace (rev (chars s)))).
Definition trim_start (s : list Z) : list Z :=
  utf8_encode (drop_while is_whitespace (chars s)).
Definition trim (s : list Z) : list Z := trim_start (trim_end s).

Lemma drop_while_suffix f cs : exists p, cs = p ++ drop_while f cs /\ Forall (fun c => f c = true) p.
Proof.
  induction cs as [|c cs (p & Hp & Hf)]; [by exists []|]. simpl. destruct (f c) eqn:E.
  - exists (c :: p). rewrite Hp at 1. by split; [|constructor].
  - by exists [].
Qed.

(** * Splitting and parsing *)

(** [s.strip_prefix(p)], [s.split_once(c)] and [s.split(c)] for an ASCII [c]. *)
Definition strip_prefix (p s : list Z) : option (list Z) :=
  if starts_with p s then Some (drop (length p) s) else None.
Fixpoint split_once (c : Z) (s : list Z) : option (list Z * list Z) :=
  match s with
  | [] => None
  | x :: s => if x =? c then Some ([], s) else (fun '(a, b) => (x :: a, b)) <$> split_once c s
  end.
Fixpoint split_on (c : Z) (s : list Z) : list (list Z) :=
  match s with
  | [] => [[]]
  | x :: s =>
      if x =? c then [] :: split_on c s
      else match split_on c s with a :: r => (x :: a) :: r | [] => [[x]] end
  end.

(** [s.lines()]: a line ends at a line feed, with a carriage return before it
    if there is one; nothing after the last line feed is no line. *)
Definition strip_cr (l : list Z) : list Z :=
  match rev l with 13 :: r => rev r | _ => l end.
Fixpoint lines_of (parts : list (list Z)) : list (list Z) :=
  match parts with
  | [] => []
  | [last] => match last with [] => [] | _ => [last] end
  | part :: rest => strip_cr part :: lines_of rest
  end.
Definition str_lines (s : list Z) : list (list Z) := lines_of (split_on 10 s).

Definition ascii_upper (b : Z) : Z := if between 97 122 b then b - 32 else b.
Definition to_ascii_uppercase (s : list Z) : list Z := ascii_upper <$> s.
Definition eq_ignore_ascii_case (a b : list Z) : bool :=
  bool_decide (to_ascii_lowercase a = to_ascii_lowercase b).

(** [s.parse::<uW>().ok()]: a plus sign may come first, digits must, and the value
    must fit. *)
Definition parse_uint (w : Z) (s : list Z) : option Z :=
  let digits := match s with 43 :: r => r | _ => s end in
  match digits with
  | [] => None
  | _ => if forallb is_ascii_digit digits && (undec digits <? 2 ^ w) then Some (undec digits) else None
  end.

(** [s.is_char_boundary(i)]. *)
Definition is_char_boundary (s : list Z) (i : nat) : bool :=
  match i with
  | O => true
  | _ => match s !! i with Some b => negb (is_cont b) | None => bool_decide (i = length s) end
  end.

Example lines_ex : str_lines (s2b "a" ++ [13; 10] ++ s2b "b" ++ [10; 10] ++ s2b "c" ++ [13]) = [s2b "a"; s2b "b"; []; s2b "c" ++ [13]].
Proof. reflexivity. Qed.
Example parse_uint_ex : parse_uint 32 (s2b "+030") = Some 30 /\ parse_uint 32 (s2b "4294967296") = None /\ parse_uint 32 (s2b "+") = None.
Proof. vm_compute. split_and!; reflexivity. Qed.

Lemma strip_prefix_app p s : strip_prefix p (p ++ s) = Some s.
Proof. unfold strip_prefix. rewrite (proj2 (starts_with_spec p _)) by by exists s. by rewrite drop_app_length. Qed.

Lemma strip_prefix_Some p s r : strip_prefix p s = Some r <-> s = p ++ r.
Proof.
  split; [|intros ->; apply strip_prefix_app]. unfold strip_prefix. destruct (starts_with p s) eqn:E; [|done].
  apply starts_with_spec in E as [r' ->]. rewrite drop_app_length. by intros [= ->].
Qed.

Lemma split_once_app c a b : Forall (fun x => x <> c) a -> split_once c (a ++ c :: b) = Some (a, b).
Proof.
  induction 1 as [|x a Hx _ IH]; simpl; [by rewrite Z.eqb_refl|]. by rewrite (proj2 (Z.eqb_neq _ _)), IH.
Qed.

Lemma split_once_none c a : Forall (fun x => x <> c) a -> split_once c a = None.
Proof. induction 1 as [|x a Hx _ IH]; simpl; [done|]. by rewrite (proj2 (Z.eqb_neq _ _)), IH. Qed.

Lemma split_on_none c a : Forall (fun x => x <> c) a -> split_on c a = [a].
Proof. induction 1 as [|x a Hx _ IH]; simpl; [done|]. by rewrite (proj2 (Z.eqb_neq _ _)), IH. Qed.

Lemma split_on_app c a b : Forall (fun x => x <> c) a -> split_on c (a ++ c :: b) = a :: split_on c b.
Proof.
  induction 1 as [|x a Hx _ IH]; simpl; [by rewrite Z.eqb_refl|]. by rewrite (proj2 (Z.eqb_neq _ _)), IH.
Qed.

Lemma parse_uint_dec w n : 0 <= n < 2 ^ w -> parse_uint w (dec n) = Some n.
Proof.
  intros Hn. destruct (dec_spec n ltac:(lia)) as [Hv Hd]. unfold parse_uint.
  assert (dec n <> []) as Hne by (unfold dec; cbn [dec_aux]; destruct (_ <? _); [done|]; by destruct (dec_aux _ _)).
  destruct (dec n) as [|d ds] eqn:E; [done|].
  assert (match d :: ds with 43 :: r => r | _ => d :: ds end = d :: ds) as ->.
  { apply list.Forall_cons in Hd as [Hd _]. repeat (case_match; try done; try lia). }
  rewrite <- Hv, (proj2 (Z.ltb_lt _ _)) by lia.
  assert (forallb is_ascii_digit (d :: ds) = true) as ->; [|by rewrite Hv].
  apply forallb_forall. intros x Hx. rewrite List.Forall_forall in Hd. specialize (Hd x Hx). cbv beta in Hd.
  unfold is_ascii_digit, between. bools. lia.
Qed.

(** * Character boundaries *)

Lemma encode_char_cont c i b : is_scalar c -> encode_char c !! S i = Some b -> is_cont b = true.
Proof.
  unfold is_scalar, encode_char, is_cont. intros Hc H.
  repeat case_match; bools; (do 4 (try destruct i as [|i])); simplify_eq/=; bools; lia_div.
Qed.

Lemma encode_char_lead c : is_scalar c -> exists b r, encode_char c = b :: r /\ is_cont b = false.
Proof.
  unfold is_scalar, encode_char, is_cont. intros Hc. repeat case_match; bools; eexists _, _; (split; [reflexivity|]);
    apply andb_false_iff; rewrite Z.leb_gt, Z.ltb_ge; lia_div.
Qed.

Lemma utf8_encode_cons c cs : utf8_encode (c :: cs) = encode_char c ++ utf8_encode cs.
Proof. done. Qed.
Lemma utf8_encode_app a b : utf8_encode (a ++ b) = utf8_encode a ++ utf8_encode b.
Proof. unfold utf8_encode. by rewrite flat_map_app. Qed.

Lemma boundary_head cs : Forall is_scalar cs -> forall b r, utf8_encode cs = b :: r -> is_cont b = false.
Proof.
  intros [|c cs' Hc _] b r H; [done|]. rewrite utf8_encode_cons in H.
  destruct (encode_char_lead c Hc) as (b' & r' & E & Hb). rewrite E in H. by injection H as -> _.
Qed.

(** A boundary splits the text into texts. *)
Lemma boundary_split cs i :
  Forall is_scalar cs -> (i <= length (utf8_encode cs))%nat -> is_char_boundary (utf8_encode cs) i = true ->
  exists a b, cs = a ++ b /\ take i (utf8_encode cs) = utf8_encode a.
Proof.
  intros Hcs. revert i. induction Hcs as [|c cs Hc Hcs IH]; intros i Hi Hb.
  { exists [], []. split; [done|]. cbn. by rewrite take_nil. }
  rewrite utf8_encode_cons in *. rewrite length_app in Hi.
  destruct i as [|i]; [by exists [], (c :: cs)|].
  destruct (decide (S i < length (encode_char c))%nat) as [Hl|Hl].
  - exfalso. unfold is_char_boundary in Hb. rewrite lookup_app_l in Hb by done.
    destruct (lookup_lt_is_Some_2 _ _ Hl) as [x Hx]. rewrite Hx, (encode_char_cont _ _ _ Hc Hx) in Hb. done.
  - destruct (IH (S i - length (encode_char c))%nat) as (a & b & -> & Ht).
    + lia.
    + unfold is_char_boundary in *. rewrite lookup_app_r in Hb by lia. destruct (S i - length (encode_char c))%nat eqn:E; [done|].
      destruct (utf8_encode cs !! S n) eqn:El; [done|]. rewrite bool_decide_eq_true in Hb |- *. rewrite length_app in Hb. lia.
    + exists (c :: a), b. split; [done|]. rewrite take_app_ge by lia. by rewrite Ht.
Qed.

Lemma boundary_join a b : Forall is_scalar (a ++ b) -> is_char_boundary (utf8_encode (a ++ b)) (length (utf8_encode a)) = true.
Proof.
  intros [_ Hb]%Forall_app. rewrite utf8_encode_app.
  unfold is_char_boundary. destruct (length (utf8_encode a)) eqn:E; [done|]. rewrite <- E, lookup_app_r, Nat.sub_diag by lia.
  destruct (utf8_encode b) as [|x r] eqn:Eb; [by rewrite app_nil_r, bool_decide_true|]. simpl. by rewrite (boundary_head b Hb x r Eb).
Qed.

Lemma utf8_encode_str cs : Forall is_scalar cs -> is_str (utf8_encode cs).
Proof. intros H. exists cs. by apply utf8_decode_encode. Qed.

(** What decodes begins with no continuation byte. *)
Lemma decode_head b r cs : utf8_decode (b :: r) = Some cs -> is_cont b = false.
Proof.
  intros H. cbn [utf8_decode] in H. unfold is_cont at 1. apply andb_false_iff. rewrite Z.leb_gt, Z.ltb_ge.
  repeat (case_match; try done); bools; lia.
Qed.

(** Trimming leaves text without space at its ends alone; here, ASCII without any. *)
Lemma trim_ascii s : Forall (fun c => 0 <= c < 0x80 /\ is_whitespace c = false) s -> trim s = s.
Proof.
  intros H. assert (utf8_decode s = Some s) as Hd by (apply utf8_decode_ascii; eapply list.Forall_impl; [exact H|]; cbv beta; tauto).
  assert (forall l, Forall (fun c => 0 <= c < 0x80 /\ is_whitespace c = false) l -> drop_while is_whitespace l = l) as Hdw.
  { intros [|c l] Hl; [done|]. apply list.Forall_cons in Hl as [[_ Hc] _]. simpl. by rewrite Hc. }
  assert (utf8_encode s = s) as He.
  { clear Hd. induction H as [|c s [Hc _] _ IH]; [done|]. rewrite utf8_encode_cons, IH. unfold encode_char. by decide_cmp. }
  assert (trim_end s = s) as Ht.
  { unfold trim_end, chars. rewrite Hd. cbn [default]. unfold id. rewrite Hdw by by apply Forall_rev. by rewrite rev_involutive. }
  unfold trim. rewrite Ht. unfold trim_start, chars. rewrite Hd. cbn [default]. unfold id. by rewrite Hdw.
Qed.
