(* ===== verification/Sort.v ===== *)
(** Rust's ordering tools: [Ord] on byte strings, [Ordering::then_with], the
    stable [sort_by] of slices and [Vec::dedup], with the laws the components
    rely on. *)
From Stdlib Require Import Sorting.Sorted.
From S2P Require Export Text.

(** * Comparisons *)

Definition then_with (a b : comparison) : comparison := match a with Eq => b | _ => a end.

(** [bool]'s and [str]'s [Ord]: [false < true], and byte by byte, a prefix first. *)
Definition cmp_bool (a b : bool) : comparison :=
  match a, b with false, true => Lt | true, false => Gt | _, _ => Eq end.
Fixpoint cmp_str (a b : list Z) : comparison :=
  match a, b with
  | [], [] => Eq
  | [], _ :: _ => Lt
  | _ :: _, [] => Gt
  | x :: a, y :: b => then_with (x ?= y) (cmp_str a b)
  end.

(** What a comparison must satisfy for sorting by it to make sense. *)
Class TotalCmp {A} (cmp : A -> A -> comparison) : Prop := {
  cmp_sym : forall x y, cmp y x = CompOpp (cmp x y);
  cmp_trans : forall x y z, cmp x y <> Gt -> cmp y z <> Gt -> cmp x z <> Gt;
}.

(** The stronger laws of a comparison that only calls equal things equal. *)
Class StrictCmp {A} (cmp : A -> A -> comparison) : Prop := {
  cmp_eq : forall x y, cmp x y = Eq <-> x = y;
  scmp_sym : forall x y, cmp y x = CompOpp (cmp x y);
  cmp_lt_trans : forall x y z, cmp x y = Lt -> cmp y z = Lt -> cmp x z = Lt;
}.

#[export] Instance strict_total {A} (cmp : A -> A -> comparison) : StrictCmp cmp -> TotalCmp cmp.
Proof.
  intros H. split; [apply scmp_sym|]. intros x y z Hxy Hyz.
  destruct (cmp x y) eqn:E1; [apply cmp_eq in E1 as ->; done| |done].
  destruct (cmp y z) eqn:E2; [apply cmp_eq in E2 as ->; by rewrite E1| |done].
  by rewrite (cmp_lt_trans x y z).
Qed.

#[export] Instance cmp_bool_strict : StrictCmp cmp_bool.
Proof. split; [intros [] []; split; done|intros [] []; done|intros [] [] []; done]. Qed.

#[export] Instance cmp_Z_strict : StrictCmp Z.compare.
Proof.
  split; [apply Z.compare_eq_iff|intros; apply Z.compare_antisym|].
  intros x y z H1 H2. change (x < y) in H1. change (y < z) in H2. change (x < z). lia.
Qed.

#[export] Instance cmp_str_strict : StrictCmp cmp_str.
Proof.
  split.
  - induction x as [|x a IH]; destruct y as [|y b]; simpl; try (split; congruence).
    unfold then_with. destruct (x ?= y) eqn:E; [|split; [done|intros [= -> ->]; by rewrite Z.compare_refl in E]..].
    apply Z.compare_eq_iff in E as ->. rewrite IH. split; congruence.
  - induction x as [|x a IH]; destruct y as [|y b]; simpl; try done.
    unfold then_with. rewrite (Z.compare_antisym x y). destruct (x ?= y); simpl; [apply IH|done..].
  - induction x as [|x a IH]; destruct y as [|y b], z as [|z c]; simpl; try done.
    unfold then_with. destruct (x ?= y) eqn:E1; [|..|done].
    + apply Z.compare_eq_iff in E1 as ->. destruct (y ?= z); [apply IH|done..].
    + intros _. destruct (y ?= z) eqn:E2; [|..|done].
      * apply Z.compare_eq_iff in E2 as ->. by rewrite E1.
      * intros _. by rewrite (cmp_lt_trans x y z).
Qed.

(** A lexicographic pair of comparisons through projections. *)
#[export] Instance then_with_total {A} (f g : A -> A -> comparison) :
  TotalCmp f -> TotalCmp g -> TotalCmp (fun x y => then_with (f x y) (g x y)).
Proof.
  intros Hf Hg. split.
  - intros x y. rewrite (cmp_sym (cmp := f) x y), (cmp_sym (cmp := g) x y). by destruct (f x y), (g x y).
  - intros x y z. pose proof (cmp_trans (cmp := f) x y z) as H1. pose proof (cmp_trans (cmp := g) x y z) as H2.
    pose proof (cmp_trans (cmp := f) y z x) as H3. pose proof (cmp_trans (cmp := f) z x y) as H4.
    pose proof (cmp_sym (cmp := f) x y) as S1. pose proof (cmp_sym (cmp := f) y z) as S2.
    pose proof (cmp_sym (cmp := f) x z) as S3. rewrite S1, S2, S3 in *. clear S1 S2 S3.
    unfold then_with. destruct (f x y), (f y z), (f x z); simpl in *; try done; intros; naive_solver congruence.
Qed.

#[export] Instance on_total {A B} (h : A -> B) (cmp : B -> B -> comparison) :
  TotalCmp cmp -> TotalCmp (fun x y => cmp (h x) (h y)).
Proof. intros H. split; intros; [apply cmp_sym|by eapply (cmp_trans (cmp := cmp))]. Qed.

(** * Stable sorting *)

Fixpoint insert_by {A} (cmp : A -> A -> comparison) (x : A) (l : list A) : list A :=
  match l with
  | [] => [x]
  | y :: r => match cmp x y with Gt => y :: insert_by cmp x r | _ => x :: l end
  end.
(** [l.sort_by(cmp)]: equal elements keep their order. *)
Definition sort_by {A} (cmp : A -> A -> comparison) (l : list A) : list A := foldr (insert_by cmp) [] l.

Definition cmp_le {A} (cmp : A -> A -> comparison) (x y : A) : Prop := cmp x y <> Gt.

Lemma insert_by_perm {A} cmp (x : A) l : insert_by cmp x l ≡ₚ x :: l.
Proof.
  induction l as [|y r IH]; [done|]. simpl. destruct (cmp x y); try done. rewrite IH. apply perm_swap.
Qed.
Lemma sort_by_perm {A} cmp (l : list A) : sort_by cmp l ≡ₚ l.
Proof. induction l as [|x l IH]; [done|]. simpl. by rewrite insert_by_perm, IH. Qed.

Section sorted.
Context {A} (cmp : A -> A -> comparison) `{TotalCmp A cmp}.

Lemma insert_by_sorted x l : StronglySorted (cmp_le cmp) l -> StronglySorted (cmp_le cmp) (insert_by cmp x l).
Proof.
  induction 1 as [|y r Hr IH Hy]; [by repeat constructor|]. simpl.
  assert (cmp_le cmp x y -> StronglySorted (cmp_le cmp) (x :: y :: r)) as Hhere.
  { intros Hn.
    constructor; [by constructor|]. constructor; [done|]. eapply list.Forall_impl; [exact Hy|].
    intros z Hz. by eapply (cmp_trans (cmp := cmp)). }
  unfold cmp_le in Hhere at 1. destruct (cmp x y) eqn:E; [by apply Hhere..|]. constructor; [done|].
  rewrite insert_by_perm. constructor; [|done]. unfold cmp_le. rewrite (cmp_sym x y), E. done.
Qed.

Lemma sort_by_sorted l : StronglySorted (cmp_le cmp) (sort_by cmp l).
Proof. induction l; [constructor|]. by apply insert_by_sorted. Qed.

(** Sorting gives the one sorted arrangement when no two elements compare equal. *)
Lemma sorted_unique l k :
  (forall x y, x ∈ l -> y ∈ l -> cmp x y = Eq -> x = y) ->
  StronglySorted (cmp_le cmp) l -> StronglySorted (cmp_le cmp) k -> l ≡ₚ k -> l = k.
Proof.
  intros Heq Hl. revert k. induction Hl as [|x l Hl IH Hx]; intros k Hk Hp.
  { by apply Permutation_nil_l in Hp. }
  destruct Hk as [|y k Hk Hy]; [by apply Permutation_nil_r in Hp|].
  rewrite list.Forall_forall in Hx, Hy.
  assert (x = y) as ->.
  { assert (x ∈ y :: k) as Hxy by (rewrite <- Hp; left). assert (y ∈ x :: l) as Hyx by (rewrite Hp; left).
    apply elem_of_cons in Hxy as [->|Hxy]; [done|]. apply elem_of_cons in Hyx as [->|Hyx]; [done|].
    apply Heq; [left|by right|]. specialize (Hx _ Hyx). specialize (Hy _ Hxy). unfold cmp_le in *.
    rewrite (cmp_sym x y) in Hy. by destruct (cmp x y). }
  f_equal. apply IH; [|done|by eapply Permutation_cons_inv].
  intros a b Ha Hb. apply Heq; by right.
Qed.

Lemma sort_by_permuted l k :
  (forall x y, x ∈ l -> y ∈ l -> cmp x y = Eq -> x = y) -> l ≡ₚ k -> sort_by cmp l = sort_by cmp k.
Proof.
  intros Heq Hp. apply sorted_unique; [|apply sort_by_sorted..|].
  - intros x y. rewrite !sort_by_perm. apply Heq.
  - by rewrite !sort_by_perm.
Qed.
End sorted.

Lemma sort_by_map {A B} (f : A -> B) (cmp : B -> B -> comparison) l :
  f <$> sort_by (fun x y => cmp (f x) (f y)) l = sort_by cmp (f <$> l).
Proof.
  induction l as [|x l IH]; [done|]. 
  change (f <$> insert_by (fun x y => cmp (f x) (f y)) x (sort_by (fun x y => cmp (f x) (f y)) l) =
          insert_by cmp (f x) (sort_by cmp (f <$> l))). rewrite <- IH.
  generalize (sort_by (fun x y => cmp (f x) (f y)) l). intros k. clear.
  induction k as [|y k IH]; [done|]. rewrite fmap_cons. cbn [insert_by].
  destruct (cmp (f x) (f y)); [done..|]. by rewrite fmap_cons, IH.
Qed.

Lemma insert_by_ext {A} (cmp cmp' : A -> A -> comparison) x l :
  (forall x y, cmp x y = cmp' x y) -> insert_by cmp x l = insert_by cmp' x l.
Proof. intros He. induction l as [|y l IH]; [done|]. cbn [insert_by]. by rewrite He, IH. Qed.
Lemma sort_by_ext {A} (cmp cmp' : A -> A -> comparison) l :
  (forall x y, cmp x y = cmp' x y) -> sort_by cmp l = sort_by cmp' l.
Proof. intros He. induction l as [|x l IH]; [done|]. cbn [sort_by foldr]. fold (sort_by cmp l) (sort_by cmp' l). rewrite IH. by apply insert_by_ext. Qed.

(** * Removing repeats *)

(** [v.dedup()]: of equal neighbours the first stays. *)
Fixpoint dedup `{EqDecision A} (l : list A) : list A :=
  match l with
  | x :: r =>
      match dedup r with
      | y :: r' => if decide (x = y) then x :: r' else x :: y :: r'
      | [] => [x]
      end
  | [] => []
  end.

Lemma dedup_elem `{EqDecision A} (x : A) l : x ∈ dedup l <-> x ∈ l.
Proof.
  induction l as [|y l IH]; [done|]. simpl. destruct (dedup l) as [|z r] eqn:E.
  - by rewrite !elem_of_cons, <- IH.
  - destruct (decide (y = z)) as [->|]; rewrite !elem_of_cons, <- IH, elem_of_cons; tauto.
Qed.

Lemma dedup_hd `{EqDecision A} (l : list A) : hd_error (dedup l) = hd_error l.
Proof. destruct l as [|x l]; [done|]. simpl. destruct (dedup l) as [|y r]; [done|]. by destruct (decide (x = y)). Qed.

Lemma dedup_sorted `{EqDecision A} (cmp : A -> A -> comparison) `{TotalCmp A cmp} l :
  (forall x y, x ∈ l -> y ∈ l -> cmp x y = Eq -> x = y) ->
  StronglySorted (cmp_le cmp) l -> StronglySorted (fun x y => cmp x y = Lt) (dedup l).
Proof.
  intros Heq Hl. induction Hl as [|x l Hl IH Hx]; [constructor|].
  assert (StronglySorted (fun x y => cmp x y = Lt) (dedup l)) as Hd.
  { apply IH. intros. apply Heq; [by right..|done]. }
  simpl. destruct (dedup l) as [|y r] eqn:E; [by repeat constructor|].
  inversion_clear Hd as [|? ? Hr Hy]. destruct (decide (x = y)) as [->|Hne]; [by constructor|].
  assert (y ∈ l) as Hyl by (rewrite <- dedup_elem, E; left).
  assert (cmp x y = Lt) as Hxy.
  { rewrite list.Forall_forall in Hx. specialize (Hx _ Hyl). unfold cmp_le in Hx.
    destruct (cmp x y) eqn:Hc; [|done..]. destruct Hne. apply Heq; [left|by right|done]. }
  constructor; [by constructor|]. constructor; [done|].
  rewrite list.Forall_forall in Hx, Hy |- *. intros z Hz. specialize (Hy _ Hz).
  assert (z ∈ l) as Hzl by (rewrite <- dedup_elem, E; by right).
  specialize (Hx _ Hzl). unfold cmp_le in Hx. destruct (cmp x z) eqn:Hc; [|done..].
  apply Heq in Hc as ->; [|left|by right]. pose proof (cmp_sym y z) as Hs. by rewrite Hxy, Hy in Hs.
Qed.

Example sort_by_ex : sort_by (fun a b => Z.compare (a / 10) (b / 10)) [31; 12; 35; 11; 20] = [12; 11; 20; 31; 35].
Proof. reflexivity. Qed.
Example dedup_ex : dedup [1; 1; 2; 1; 1] = [1; 2; 1].
Proof. reflexivity. Qed.

Lemma StronglySorted_impl_in {A} (R R' : A -> A -> Prop) l :
  StronglySorted R l -> (forall x y, x ∈ l -> y ∈ l -> R x y -> R' x y) -> StronglySorted R' l.
Proof.
  induction 1 as [|x l Hl IH Hx]; intros HR; constructor.
  - apply IH. intros y z Hy Hz. apply HR; by right.
  - rewrite list.Forall_forall in Hx |- *. intros y Hy. apply HR; [by left|by right|by apply Hx].
Qed.

Lemma StronglySorted_filter {A} (R : A -> A -> Prop) f l : StronglySorted R l -> StronglySorted R (List.filter f l).
Proof.
  induction 1 as [|x l Hl IH Hx]; [constructor|]. cbn [List.filter]. destruct (f x); [|done]. constructor; [done|].
  rewrite list.Forall_forall in Hx |- *. intros y [Hy _]%list_elem_of_In%List.filter_In. apply Hx. by apply list_elem_of_In.
Qed.

Section strict.
Context {A} (cmp : A -> A -> comparison) `{TotalCmp A cmp}.

Lemma strict_eq l x y : StronglySorted (fun x y => cmp x y = Lt) l -> x ∈ l -> y ∈ l -> cmp x y = Eq -> x = y.
Proof.
  induction 1 as [|z l Hl IH Hz]; intros Hx Hy He; [by apply elem_of_nil in Hx|].
  rewrite list.Forall_forall in Hz. pose proof (cmp_sym x y) as Hs. rewrite He in Hs.
  apply elem_of_cons in Hx as [->|Hx], Hy as [->|Hy]; [done|..|by apply IH].
  - specialize (Hz _ Hy). congruence.
  - specialize (Hz _ Hx). simpl in Hs. congruence.
Qed.

Lemma strict_NoDup l : StronglySorted (fun x y => cmp x y = Lt) l -> NoDup l.
Proof.
  induction 1 as [|z l Hl IH Hz]; constructor; [|done]. intros Hin. rewrite list.Forall_forall in Hz.
  specialize (Hz _ Hin). pose proof (cmp_sym z z) as Hs. by rewrite Hz in Hs.
Qed.

(** Strictly sorted lists with the same elements are the same. *)
Lemma strict_sorted_ext l k :
  StronglySorted (fun x y => cmp x y = Lt) l -> StronglySorted (fun x y => cmp x y = Lt) k -> (forall x, x ∈ l <-> x ∈ k) -> l = k.
Proof.
  intros Hl Hk Hm.
  assert (Hle : forall m, StronglySorted (fun x y => cmp x y = Lt) m -> StronglySorted (cmp_le cmp) m).
  { intros m Hs. apply (StronglySorted_impl_in _ _ _ Hs). unfold cmp_le. congruence. }
  apply (sorted_unique cmp); [|by apply Hle..|].
  - intros x y Hx Hy. by apply (strict_eq l).
  - apply NoDup_Permutation; [by apply strict_NoDup..|done].
Qed.
End strict.

(** * Positions *)

(** [iter().position(f)]. *)
Fixpoint position {A} (f : A -> bool) (l : list A) : option nat :=
  match l with [] => None | x :: l => if f x then Some O else S <$> position f l end.

Lemma position_Some {A} (f : A -> bool) l i :
  position f l = Some i -> exists x, l !! i = Some x /\ f x = true.
Proof.
  revert i. induction l as [|x l IH]; intros i; [done|]. simpl. destruct (f x) eqn:Hx.
  - intros [= <-]. by exists x.
  - destruct (position f l) as [j|]; [|done]. intros [= <-]. by destruct (IH j eq_refl) as (y & Hy & Hf); exists y.
Qed.
Lemma position_None {A} (f : A -> bool) l : position f l = None -> Forall (fun x => f x = false) l.
Proof.
  induction l as [|x l IH]; [constructor|]. simpl. destruct (f x) eqn:Hx; [done|].
  destruct (position f l); [done|]. intros _. constructor; auto.
Qed.

(** The order [Option<usize>] has: [None] first. *)
Definition cmp_option (a b : option nat) : comparison :=
  match a, b with None, None => Eq | None, _ => Lt | _, None => Gt | Some x, Some y => Nat.compare x y end.
#[export] Instance cmp_option_strict : StrictCmp cmp_option.
Proof.
  split.
  - intros [x|] [y|]; simpl; [rewrite Nat.compare_eq_iff|..]; split; congruence.
  - intros [x|] [y|]; simpl; [apply Nat.compare_antisym|done..].
  - intros [x|] [y|] [z|]; simpl; try done. rewrite !Nat.compare_lt_iff. lia.
Qed.

Section index.
Context `{EqDecision A}.

Definition index_of (l : list A) (x : A) : option nat := position (fun y => bool_decide (y = x)) l.
Definition index_cmp (l : list A) (x y : A) : comparison := cmp_option (index_of l x) (index_of l y).

Lemma index_of_lookup l x i : index_of l x = Some i -> l !! i = Some x.
Proof. intros (y & Hy & Hx)%position_Some. case_bool_decide; congruence. Qed.
Lemma index_of_elem l x : x ∈ l -> is_Some (index_of l x).
Proof.
  intros Hx. apply not_eq_None_Some. intros Hn%position_None. rewrite list.Forall_forall in Hn.
  specialize (Hn _ Hx). by case_bool_decide.
Qed.
Lemma index_cmp_eq l x y : x ∈ l -> y ∈ l -> index_cmp l x y = Eq -> x = y.
Proof.
  intros [i Hi]%index_of_elem [j Hj]%index_of_elem. unfold index_cmp. rewrite (cmp_eq (cmp := cmp_option)), Hi, Hj.
  intros [= ->]. apply index_of_lookup in Hi, Hj. congruence.
Qed.
Lemma index_of_NoDup l x i : NoDup l -> l !! i = Some x -> index_of l x = Some i.
Proof.
  intros Hl Hi. destruct (index_of_elem l x (list_elem_of_lookup_2 _ _ _ Hi)) as [j Hj].
  pose proof (index_of_lookup _ _ _ Hj). rewrite Hj. f_equal. by eapply NoDup_lookup.
Qed.

Lemma index_sorted l : NoDup l -> StronglySorted (fun x y => index_cmp l x y = Lt) l.
Proof.
  induction 1 as [|x l Hx Hl IH]; [constructor|]. unfold index_cmp, index_of in *. cbn [position].
  assert (Hne : forall y, y ∈ l -> bool_decide (x = y) = false) by (intros y Hy; apply bool_decide_eq_false_2; by intros ->).
  constructor.
  - apply (StronglySorted_impl_in _ _ _ IH). intros y z Hy Hz. rewrite !Hne by done.
    destruct (index_of_elem l y Hy) as [i Hi], (index_of_elem l z Hz) as [j Hj]. unfold index_of in *. by rewrite Hi, Hj.
  - apply list.Forall_forall. intros y Hy. rewrite (Hne y), (bool_decide_eq_true_2 (x = x)) by done.
    destruct (index_of_elem l y Hy) as [i Hi]. unfold index_of in Hi. by rewrite Hi.
Qed.

(** Sorting some members of a list by where they stand in it, each once, is
    filtering the list. *)
Lemma dedup_sort_index l h f :
  NoDup l -> (forall x, x ∈ h <-> x ∈ l /\ f x = true) -> dedup (sort_by (index_cmp l) h) = List.filter f l.
Proof.
  intros Hl Hh. apply (strict_sorted_ext (index_cmp l)).
  - apply dedup_sorted; [apply _| |apply sort_by_sorted, _]. intros x y. rewrite !sort_by_perm.
    intros [Hx _]%Hh [Hy _]%Hh. by apply index_cmp_eq.
  - apply StronglySorted_filter. by apply index_sorted.
  - intros x. rewrite dedup_elem, sort_by_perm, Hh, !list_elem_of_In. symmetry. apply List.filter_In.
Qed.
End index.
