(* ===== verification/Cbor.v ===== *)
(** keyroost-ctap/src/cbor.rs: the CBOR codec. The depth-limited recursions
    take the levels left ([DECODE_DEPTH_LIMIT + 1 - depth]), so running out is
    the code's own [DepthLimit]; the item loops, which run up to 2^64 times on
    paper, take fuel above the input's length, which is enough because every
    item consumes a byte ([repeat_dec_fuel]). [usize] is 64 bits wide. *)
From S2P Require Export Words Utf8.
Set Warnings "-register-all".

(** * Definitions *)

Definition MT_UINT : Z := 0.
Definition MT_NINT : Z := 1.
Definition MT_BYTES : Z := 2.
Definition MT_TEXT : Z := 3.
Definition MT_ARRAY : Z := 4.
Definition MT_MAP : Z := 5.
Definition MT_TAG : Z := 6.
Definition MT_SIMPLE : Z := 7.

Definition SIMPLE_FALSE : Z := 20.
Definition SIMPLE_TRUE : Z := 21.
Definition SIMPLE_NULL : Z := 22.
Definition SIMPLE_UNDEFINED : Z := 23.

Definition DECODE_DEPTH_LIMIT : nat := 16.

Inductive Value : Type :=
  | UInt (n : Z)
  | NInt (n : Z)
  | VBytes (b : list Z)
  | Text (s : list Z)
  | Array (a : list Value)
  | Map (m : list (Value * Value))
  | VBool (b : bool)
  | Null.

Inductive CborError :=
  | UnexpectedEnd
  | InvalidUtf8
  | UnsupportedType (t : Z)
  | UnsupportedAdditional (a : Z)
  | DepthLimit.

Definition as_uint (v : Value) : option Z := match v with UInt n => Some n | _ => None end.
Definition as_text (v : Value) : option (list Z) := match v with Text s => Some s | _ => None end.
Definition as_bytes (v : Value) : option (list Z) := match v with VBytes b => Some b | _ => None end.
Definition as_array (v : Value) : option (list Value) := match v with Array a => Some a | _ => None end.
Definition as_map (v : Value) : option (list (Value * Value)) := match v with Map m => Some m | _ => None end.
Definition as_bool (v : Value) : option bool := match v with VBool b => Some b | _ => None end.

Definition get_uint_key (v : Value) (key : Z) : option Value :=
  m ← as_map v;
  find_map (fun kv => if bool_decide (as_uint kv.1 = Some key) then Some kv.2 else None) m.

(** ** Encoding *)

Definition encode_header (major n : Z) : list Z :=
  let mt := wshl 8 major 5 in
  if n <? 24 then [Z.lor mt (cast 8 n)]
  else if n <=? 0xFF then [Z.lor mt 24; cast 8 n]
  else if n <=? 0xFFFF then Z.lor mt 25 :: to_be 2 (cast 16 n)
  else if n <=? 0xFFFFFFFF then Z.lor mt 26 :: to_be 4 (cast 32 n)
  else Z.lor mt 27 :: to_be 8 n.

Fixpoint encode (value : Value) : list Z :=
  match value with
  | UInt n => encode_header MT_UINT n
  | NInt n => encode_header MT_NINT n
  | VBytes b => encode_header MT_BYTES (zlen b) ++ b
  | Text s => encode_header MT_TEXT (zlen s) ++ s
  | Array a => encode_header MT_ARRAY (zlen a) ++ flat_map encode a
  | Map m => encode_header MT_MAP (zlen m) ++ flat_map (fun kv => encode kv.1 ++ encode kv.2) m
  | VBool b => [Z.lor (wshl 8 MT_SIMPLE 5) (if b then SIMPLE_TRUE else SIMPLE_FALSE)]
  | Null => [Z.lor (wshl 8 MT_SIMPLE 5) SIMPLE_NULL]
  end.

Definition array_header (len : Z) : list Z := encode_header MT_ARRAY len.

(** ** Decoding *)

(** [data.split_first().ok_or(UnexpectedEnd)?]. *)
Definition split_first (data : list Z) : result CborError (Z * list Z) :=
  match data with [] => Err UnexpectedEnd | b :: rest => Ok (b, rest) end.

(** [if rest.len() < n { return Err(UnexpectedEnd) }; rest.split_at(n)]. *)
Definition take_n (n : Z) (rest : list Z) : result CborError (list Z * list Z) :=
  if zlen rest <? n then Err UnexpectedEnd else Ok (split_at n rest).

(** The casts are the types of the integers read: a byte, [u16::from_be_bytes],
    [u32::..], [u64::..]. *)
Definition read_arg (rest : list Z) (additional : Z) : result CborError (Z * list Z) :=
  if additional <=? 23 then Ok (additional, rest)
  else if additional =? 24 then '(a, r) ← split_first rest; Ok (cast 8 a, r)
  else if additional =? 25 then '(a, r) ← take_n 2 rest; Ok (cast 16 (from_be a), r)
  else if additional =? 26 then '(a, r) ← take_n 4 rest; Ok (cast 32 (from_be a), r)
  else if additional =? 27 then '(a, r) ← take_n 8 rest; Ok (cast 64 (from_be a), r)
  else Err (UnsupportedAdditional additional).

(** [for _ in 0..n { let (v, r) = dec(rest)?; items.push(v); rest = r; }]. *)
Fixpoint repeat_dec {A} (dec : list Z -> result CborError (A * list Z)) (fuel : nat) (n : Z)
    (rest : list Z) : result CborError (list A * list Z) :=
  if n =? 0 then Ok ([], rest)
  else match fuel with
  | O => Err UnexpectedEnd
  | S fuel =>
      '(v, r) ← dec rest;
      '(vs, r) ← repeat_dec dec fuel (n - 1) r;
      Ok (v :: vs, r)
  end.

(** One turn of a map loop. *)
Definition dec_pair {A} (dec : list Z -> result CborError (A * list Z)) (rest : list Z) :
    result CborError ((A * A) * list Z) :=
  '(k, r) ← dec rest; '(v, r) ← dec r; Ok ((k, v), r).

Definition loop_fuel (data : list Z) : nat := S (length data).

(** The [match major] of [decode_at]; [dec] decodes one level down. *)
Definition decode_item (dec : list Z -> result CborError (Value * list Z))
    (major additional arg : Z) (rest : list Z) : result CborError (Value * list Z) :=
  if major =? MT_UINT then Ok (UInt arg, rest)
  else if major =? MT_NINT then Ok (NInt arg, rest)
  else if major =? MT_BYTES then '(bytes, r) ← take_n arg rest; Ok (VBytes bytes, r)
  else if major =? MT_TEXT then
    '(bytes, r) ← take_n arg rest;
    s ← ok_or InvalidUtf8 (from_utf8 bytes);
    Ok (Text s, r)
  else if major =? MT_ARRAY then
    '(items, rest) ← repeat_dec dec (loop_fuel rest) arg rest;
    Ok (Array items, rest)
  else if major =? MT_MAP then
    '(entries, rest) ← repeat_dec (dec_pair dec) (loop_fuel rest) arg rest;
    Ok (Map entries, rest)
  else if major =? MT_SIMPLE then
    if additional =? SIMPLE_FALSE then Ok (VBool false, rest)
    else if additional =? SIMPLE_TRUE then Ok (VBool true, rest)
    else if (additional =? SIMPLE_NULL) || (additional =? SIMPLE_UNDEFINED) then Ok (Null, rest)
    else Err (UnsupportedAdditional additional)
  else Err (UnsupportedType major).

Fixpoint decode_at (levels : nat) (data : list Z) : result CborError (Value * list Z) :=
  match levels with
  | O => Err DepthLimit
  | S levels =>
      '(b, rest) ← split_first data;
      let major := Z.shiftr b 5 in
      let additional := Z.land b 0x1F in
      '(arg, rest) ← read_arg rest additional;
      decode_item (decode_at levels) major additional arg rest
  end.

Definition decode (data : list Z) : result CborError (Value * list Z) :=
  decode_at (DECODE_DEPTH_LIMIT + 1) data.

(** ** Measuring *)

Definition checked_add (a b : Z) : option Z := if a + b <? 2 ^ 64 then Some (a + b) else None.
Definition checked_mul (a b : Z) : option Z := if a * b <? 2 ^ 64 then Some (a * b) else None.

(** [for _ in 0..count { at += item_len_at(&data[at..])? }]. *)
Fixpoint items_len (len_at : list Z -> result CborError Z) (data : list Z) (fuel : nat)
    (count at_ : Z) : result CborError Z :=
  if count =? 0 then Ok at_
  else match fuel with
  | O => Err UnexpectedEnd
  | S fuel =>
      len ← len_at (drop (Z.to_nat at_) data);
      at' ← ok_or UnexpectedEnd (checked_add at_ len);
      items_len len_at data fuel (count - 1) at'
  end.

(** The closure [body_from]. *)
Definition body_from (data : list Z) (header len : Z) : result CborError Z :=
  total ← ok_or UnexpectedEnd (checked_add header len);
  if zlen data <? total then Err UnexpectedEnd else Ok total.

(** The [match major] of [item_len_at]. *)
Definition item_body (len_at : list Z -> result CborError Z) (data : list Z)
    (major arg header : Z) : result CborError Z :=
  if (major =? MT_UINT) || (major =? MT_NINT) then Ok header
  else if (major =? MT_BYTES) || (major =? MT_TEXT) then body_from data header arg
  else if (major =? MT_ARRAY) || (major =? MT_MAP) then
    count ← (if major =? MT_MAP then ok_or UnexpectedEnd (checked_mul arg 2) else Ok arg);
    items_len len_at data (loop_fuel data) count header
  else if major =? MT_TAG then
    len ← len_at (drop (Z.to_nat header) data);
    body_from data header len
  else Ok header.

Fixpoint item_len_at (levels : nat) (data : list Z) : result CborError Z :=
  match levels with
  | O => Err DepthLimit
  | S levels =>
      '(b, rest) ← split_first data;
      let major := Z.shiftr b 5 in
      let additional := Z.land b 0x1F in
      '(arg, after) ← read_arg rest additional;
      let header := zlen data - zlen after in
      item_body (item_len_at levels) data major arg header
  end.

Definition item_len (data : list Z) : result CborError Z := item_len_at (DECODE_DEPTH_LIMIT + 1) data.

(** [rest.split_at(item_len_at(rest, 1)?)]. *)
Definition split_item (rest : list Z) : result CborError (list Z * list Z) :=
  len ← item_len_at DECODE_DEPTH_LIMIT rest; Ok (split_at len rest).

Definition split_array (data : list Z) : result CborError (list (list Z) * list Z) :=
  '(b, rest) ← split_first data;
  let major := Z.shiftr b 5 in
  if negb (major =? MT_ARRAY) then Err (UnsupportedType major) else
  '(count, rest) ← read_arg rest (Z.land b 0x1F);
  repeat_dec split_item (loop_fuel rest) count rest.

Definition split_map (data : list Z) : result CborError (list (list Z * list Z) * list Z) :=
  '(b, rest) ← split_first data;
  let major := Z.shiftr b 5 in
  if negb (major =? MT_MAP) then Err (UnsupportedType major) else
  '(count, rest) ← read_arg rest (Z.land b 0x1F);
  repeat_dec (dec_pair split_item) (loop_fuel rest) count rest.

Example decode_map : decode [0xA1; 0x01; 0x83; 0x20; 0x41; 0x07; 0x61; 0x78; 0xFF] =
  Ok (Map [(UInt 1, Array [NInt 0; VBytes [7]; Text (s2b "x")])], [0xFF]).
Proof. reflexivity. Qed.
Example encode_300 : encode (UInt 300) = [0x19; 0x01; 0x2C].
Proof. reflexivity. Qed.
Example decode_tag : decode [0xC1; 0x00] = Err (UnsupportedType 6).
Proof. reflexivity. Qed.
Example measure_tag : item_len [0xC1; 0xF9; 0; 0; 1] = Ok 4.
Proof. reflexivity. Qed.

(** * Well-formed values *)

(** Induction over [Value] through its lists. *)
Section value_induction.
Context (P : Value -> Prop).
Hypothesis HU : forall n, P (UInt n).
Hypothesis HN : forall n, P (NInt n).
Hypothesis HB : forall b, P (VBytes b).
Hypothesis HT : forall s, P (Text s).
Hypothesis HA : forall a, Forall P a -> P (Array a).
Hypothesis HM : forall m, Forall (fun kv => P kv.1 /\ P kv.2) m -> P (Map m).
Hypothesis HBo : forall b, P (VBool b).
Hypothesis HNu : P Null.

Fixpoint Value_rect' (v : Value) : P v :=
  match v with
  | UInt n => HU n
  | NInt n => HN n
  | VBytes b => HB b
  | Text s => HT s
  | Array a => HA a ((fix go (l : list Value) : Forall P l :=
      match l with [] => Forall_nil_2 P | x :: l => Forall_cons_2 P x l (Value_rect' x) (go l) end) a)
  | Map m => HM m ((fix go (l : list (Value * Value)) : Forall (fun kv => P kv.1 /\ P kv.2) l :=
      match l with
      | [] => Forall_nil_2 _
      | x :: l => Forall_cons_2 _ x l (conj (Value_rect' x.1) (Value_rect' x.2)) (go l)
      end) m)
  | VBool b => HBo b
  | Null => HNu
  end.
End value_induction.

(** What a [Value] of the program satisfies: integers are [u64], strings are
    UTF-8, lengths fit the address space. *)
Inductive wf : Value -> Prop :=
  | wf_uint n : is_word 64 n -> wf (UInt n)
  | wf_nint n : is_word 64 n -> wf (NInt n)
  | wf_bytes b : Bytes b -> zlen b < 2 ^ 64 -> wf (VBytes b)
  | wf_text s : Bytes s -> is_str s -> zlen s < 2 ^ 64 -> wf (Text s)
  | wf_array a : Forall wf a -> zlen a < 2 ^ 64 -> wf (Array a)
  | wf_map m : Forall (fun kv => wf kv.1 /\ wf kv.2) m -> zlen m < 2 ^ 64 -> wf (Map m)
  | wf_bool b : wf (VBool b)
  | wf_null : wf Null.

(** Nesting: how many containers are around the deepest leaf. *)
Fixpoint depth (v : Value) : nat :=
  match v with
  | Array a => match a with [] => 0%nat | _ => S (fold_right (fun v d => Nat.max (depth v) d) 0%nat a) end
  | Map m => match m with [] => 0%nat
             | _ => S (fold_right (fun kv d => Nat.max (Nat.max (depth kv.1) (depth kv.2)) d) 0%nat m) end
  | _ => 0%nat
  end.

(** * Headers *)

Lemma header_byte mt x :
  0 <= mt < 8 -> 0 <= x < 32 ->
  Z.shiftr (Z.lor (wshl 8 mt 5) x) 5 = mt /\ Z.land (Z.lor (wshl 8 mt 5) x) 0x1F = x /\
  is_byte (Z.lor (wshl 8 mt 5) x).
Proof.
  intros Hm Hx. unfold wshl. rewrite Z.shiftl_mul_pow2, Z.mod_small by lia.
  rewrite lor_disjoint_add by lia. rewrite Z.shiftr_div_pow2 by lia.
  change 0x1F with (2 ^ 5 - 1). rewrite land_ones_mod by lia. unfold is_byte. lia_div.
Qed.

(** Every header [encode_header] writes reads back as its argument. *)
Lemma encode_header_read mt n k :
  0 <= mt < 8 -> is_word 64 n ->
  exists b args, encode_header mt n = b :: args /\ Z.shiftr b 5 = mt /\
    read_arg (args ++ k) (Z.land b 0x1F) = Ok (n, k).
Proof.
  unfold is_word. intros Hm Hn. unfold encode_header.
  assert (forall m x, (m = 1 \/ m = 2 \/ m = 4 \/ m = 8)%nat -> is_word (8 * Z.of_nat m) x ->
    take_n (Z.of_nat m) (to_be m x ++ k) = Ok (to_be m x, k) /\
    cast (8 * Z.of_nat m) (from_be (to_be m x)) = x) as Htb.
  { intros m x Hm' Hx. split; [|rewrite from_be_to_be_small by done; by apply cast_small].
    unfold take_n. rewrite zlen_app, zlen_to_be. pose proof (zlen_nonneg k). decide_cmp.
    f_equal. rewrite <- (zlen_to_be m x). apply split_at_app. }
  destruct (n <? 24) eqn:E1; [|destruct (n <=? 0xFF) eqn:E2; [|destruct (n <=? 0xFFFF) eqn:E3;
    [|destruct (n <=? 0xFFFFFFFF) eqn:E4]]]; bools;
  (match goal with |- context [Z.lor (wshl 8 mt 5) ?x] =>
    destruct (header_byte mt x) as (H1 & H2 & _);
      [done|rewrite ?cast_small; unfold is_word; lia|] end);
  eexists _, _; (split; [reflexivity|]); (split; [done|]); rewrite H2; unfold read_arg.
  - rewrite cast_small by (unfold is_word; lia). decide_cmp. done.
  - cbn. rewrite !cast_small by (unfold is_word; lia || (rewrite cast_small; unfold is_word; lia)). done.
  - rewrite cast_small by (unfold is_word; lia).
    destruct (Htb 2%nat n) as [Ht Hf]; [tauto|unfold is_word; lia|]. cbn -[to_be app take_n from_be].
    change 2 with (Z.of_nat 2). rewrite Ht. cbn -[to_be from_be cast]. change 16 with (8 * Z.of_nat 2). by rewrite Hf.
  - rewrite cast_small by (unfold is_word; lia).
    destruct (Htb 4%nat n) as [Ht Hf]; [tauto|unfold is_word; lia|]. cbn -[to_be app take_n from_be].
    change 4 with (Z.of_nat 4). rewrite Ht. cbn -[to_be from_be cast]. change 32 with (8 * Z.of_nat 4). by rewrite Hf.
  - destruct (Htb 8%nat n) as [Ht Hf]; [tauto|unfold is_word; lia|]. cbn -[to_be app take_n from_be].
    change 8 with (Z.of_nat 8). rewrite Ht. cbn -[to_be from_be cast]. change 64 with (8 * Z.of_nat 8). by rewrite Hf.
Qed.

Lemma encode_header_Bytes mt n : 0 <= mt < 8 -> 0 <= n -> Bytes (encode_header mt n).
Proof.
  intros Hm Hn. unfold encode_header.
  assert (forall x, 0 <= x < 32 -> is_byte (Z.lor (wshl 8 mt 5) x)) as Hb
    by (intros x Hx; by apply header_byte).
  assert (is_byte (cast 8 n)) as Hc by (apply cast_word; lia).
  repeat case_match; bools;
    repeat first [apply Forall_nil_2|apply to_be_bytes|apply Forall_cons_2];
    try done; apply Hb; rewrite ?cast_small; unfold is_word; lia.
Qed.

Lemma take_n_spec n rest a r :
  0 <= n -> take_n n rest = Ok (a, r) -> rest = a ++ r /\ zlen a = n.
Proof.
  intros Hn. unfold take_n, split_at. destruct (zlen rest <? n) eqn:E; [done|]. bools. intros [= <- <-].
  split; [by rewrite take_drop|]. zlen. lia.
Qed.

Lemma take_n_app n a k : zlen a = n -> take_n n (a ++ k) = Ok (a, k).
Proof.
  intros <-. unfold take_n. pose proof (zlen_nonneg k). zlen. decide_cmp. by rewrite split_at_app.
Qed.

(** [read_arg] consumes a prefix whose content alone decides the result, and
    no header is shorter than the one [encode_header] writes. *)
Lemma read_arg_local rest a n r mt :
  0 <= a -> read_arg rest a = Ok (n, r) ->
  exists used, rest = used ++ r /\ (forall k, read_arg (used ++ k) a = Ok (n, k)) /\
    is_word 64 n /\ zlen (encode_header mt n) <= 1 + zlen used.
Proof.
  intros Ha. unfold read_arg.
  assert (forall m, (m = 2 \/ m = 4 \/ m = 8)%nat ->
    ('(a, r) ← take_n (Z.of_nat m) rest; Ok (cast (8 * Z.of_nat m) (from_be a), r)) = Ok (n, r) ->
    exists used, rest = used ++ r /\
      (forall k, ('(a, r) ← take_n (Z.of_nat m) (used ++ k);
                  Ok (cast (8 * Z.of_nat m) (from_be a), r)) = Ok (n, k)) /\
      is_word 64 n /\ zlen (encode_header mt n) <= 1 + zlen used) as Hm.
  { intros m Hm H. inv_bind H. destruct a0 as [u r0]. injection H as <- <-.
    apply take_n_spec in Hb as [-> Hz]; [|lia]. exists u. split; [done|]. split.
    - intros k. by rewrite take_n_app.
    - pose proof (cast_word (8 * Z.of_nat m) (from_be u) ltac:(lia)) as Hw.
      rewrite Hz. unfold is_word in *. revert Hw. generalize (cast (8 * Z.of_nat m) (from_be u)). intros x Hw.
      destruct Hm as [->|[->| ->]]; (split; [lia|]); unfold encode_header;
        repeat case_match; bools; zlen; lia. }
  destruct (a <=? 23) eqn:E0; bools.
  { intros [= -> ->]. exists []. split_and!; [done..|unfold is_word; lia|].
    unfold encode_header. decide_cmp. done. }
  destruct (a =? 24) eqn:E1; bools.
  { destruct rest as [|b rest]; [done|]. intros [= <- ->]. exists [b]. split_and!; [done..| |].
    - pose proof (cast_word 8 b ltac:(lia)). unfold is_word in *. lia.
    - pose proof (cast_word 8 b ltac:(lia)) as Hw. unfold is_word in Hw.
      revert Hw. generalize (cast 8 b). intros x Hw.
      unfold encode_header. repeat case_match; bools; zlen; lia. }
  destruct (a =? 25) eqn:E2; [|destruct (a =? 26) eqn:E3; [|destruct (a =? 27) eqn:E4; [|done]]].
  - apply (Hm 2%nat). tauto.
  - apply (Hm 4%nat). tauto.
  - apply (Hm 8%nat). tauto.
Qed.

(** * The item loops *)

Section loops.
Context {A : Type} (f : list Z -> result CborError (A * list Z)).

(** A non-empty prefix whose content alone makes [f] return [v]. *)
Definition piece (it : list Z) (v : A) : Prop := it <> [] /\ forall k, f (it ++ k) = Ok (v, k).

(** [f] only ever succeeds on such a prefix. *)
Definition local : Prop := forall d v r, f d = Ok (v, r) -> exists it, d = it ++ r /\ piece it v.

Lemma piece_length it v : piece it v -> (1 <= length it)%nat.
Proof. intros [H _]. destruct it; [done|simpl; lia]. Qed.

Lemma pieces_length its vs : Forall2 piece its vs -> (length its <= length (concat its))%nat.
Proof.
  induction 1 as [|it v its vs Hp _ IH]; [done|]. simpl. rewrite length_app.
  apply piece_length in Hp. lia.
Qed.

Lemma repeat_dec_sound fuel n rest vs r :
  local -> repeat_dec f fuel n rest = Ok (vs, r) ->
  exists its, rest = concat its ++ r /\ n = zlen vs /\ Forall2 piece its vs.
Proof.
  intros Hf. revert n rest vs. induction fuel as [|fuel IH]; intros n rest vs; cbn [repeat_dec].
  - destruct (n =? 0) eqn:E; [|done]. bools. intros [= <- <-]. exists []. by split_and!.
  - destruct (n =? 0) eqn:E; bools.
    + intros [= <- <-]. exists []. by split_and!.
    + intros H. inv_bind H. destruct a as [v r1]. inv_bind H. destruct a as [vs1 r2].
      injection H as <- <-. destruct (Hf _ _ _ Hb) as (it & -> & Hp).
      destruct (IH (n - 1) r1 vs1) as (its & -> & Hz & HF); [done|].
      exists (it :: its). split_and!; [by cbn [concat]; rewrite <- (assoc_L (++))|zlen; lia|by constructor].
Qed.

Lemma repeat_dec_complete fuel its vs k :
  Forall2 piece its vs -> (length its <= fuel)%nat ->
  repeat_dec f fuel (zlen vs) (concat its ++ k) = Ok (vs, k).
Proof.
  intros HF. revert fuel. induction HF as [|it v its vs [_ Hp] _ IH]; intros fuel Hl.
  - by destruct fuel.
  - destruct fuel as [|fuel]; [simpl in Hl; lia|]. cbn [repeat_dec]. pose proof (zlen_nonneg vs).
    rewrite zlen_cons, (proj2 (Z.eqb_neq _ 0)) by lia. cbn [concat].
    rewrite <- (assoc_L (++)), Hp. cbn [mbind result_bind].
    replace (1 + zlen vs - 1) with (zlen vs) by lia.
    rewrite IH by (simpl in Hl; lia). done.
Qed.

(** More fuel than input bytes changes nothing: a loop that would need more
    turns has already failed. *)
Lemma repeat_dec_fuel fuel1 fuel2 n rest :
  (forall d v r, f d = Ok (v, r) -> (length r < length d)%nat) ->
  (length rest < fuel1)%nat -> (length rest < fuel2)%nat ->
  repeat_dec f fuel1 n rest = repeat_dec f fuel2 n rest.
Proof.
  intros Hf. revert fuel2 n rest.
  induction fuel1 as [|fuel1 IH]; intros fuel2 n rest H1 H2; [lia|].
  destruct fuel2 as [|fuel2]; [lia|]. cbn [repeat_dec]. destruct (n =? 0); [done|].
  destruct (f rest) as [[v r]|e] eqn:E; [|done]. cbn [mbind result_bind].
  apply Hf in E. rewrite (IH fuel2) by lia. done.
Qed.
End loops.

Lemma dec_pair_local {A} (f : list Z -> result CborError (A * list Z)) :
  local f -> forall d k v r, dec_pair f d = Ok ((k, v), r) ->
  exists i1 i2, d = (i1 ++ i2) ++ r /\ piece f i1 k /\ piece f i2 v.
Proof.
  intros Hf d k v r H. unfold dec_pair in H. inv_bind H. destruct a as [k0 r1].
  inv_bind H. destruct a as [v0 r2]. injection H as <- <- <-.
  destruct (Hf _ _ _ Hb) as (i1 & -> & H1). destruct (Hf _ _ _ Hb0) as (i2 & -> & H2).
  exists i1, i2. split; [by rewrite <- (assoc_L (++))|done].
Qed.

Lemma dec_pair_piece {A} (f : list Z -> result CborError (A * list Z)) i1 i2 k v :
  piece f i1 k -> piece f i2 v -> piece (dec_pair f) (i1 ++ i2) (k, v).
Proof.
  intros [H1 Hk1] [H2 Hk2]. split; [by destruct i1|]. intros t.
  unfold dec_pair. rewrite <- (assoc_L (++)), Hk1. simpl. by rewrite Hk2.
Qed.

Lemma dec_pair_is_local {A} (f : list Z -> result CborError (A * list Z)) :
  local f -> local (dec_pair f).
Proof.
  intros Hf d [k v] r H. destruct (dec_pair_local f Hf d k v r H) as (i1 & i2 & -> & H1 & H2).
  exists (i1 ++ i2). split; [done|]. by apply dec_pair_piece.
Qed.

(** * The grammar the decoder implements *)

(** The argument of a header (RFC 8949, section 3): its additional information
    itself up to 23, and from 24 to 27 the number in the one, two, four or eight
    bytes after it, the most significant first. ([mod] changes nothing on bytes.) *)
Inductive argument : Z -> list Z -> Z -> Prop :=
  | arg_now a : 0 <= a <= 23 -> argument a [] a
  | arg_1 b0 : argument 24 [b0] (b0 mod 2 ^ 8)
  | arg_2 b1 b0 : argument 25 [b1; b0] ((b1 * 2 ^ 8 + b0) mod 2 ^ 16)
  | arg_4 b3 b2 b1 b0 : argument 26 [b3; b2; b1; b0] ((b3 * 2 ^ 24 + b2 * 2 ^ 16 + b1 * 2 ^ 8 + b0) mod 2 ^ 32)
  | arg_8 b7 b6 b5 b4 b3 b2 b1 b0 : argument 27 [b7; b6; b5; b4; b3; b2; b1; b0]
      ((b7 * 2 ^ 56 + b6 * 2 ^ 48 + b5 * 2 ^ 40 + b4 * 2 ^ 32 + b3 * 2 ^ 24 + b2 * 2 ^ 16 + b1 * 2 ^ 8 + b0) mod 2 ^ 64).

(** [h] is a header of major type [mt] with additional information [a] and
    argument [n] (not necessarily the shortest). *)
Definition hdr (h : list Z) (mt a n : Z) : Prop :=
  exists b used, h = b :: used /\ b = mt * 32 + a /\ 0 <= a < 32 /\ argument a used n.

(** RFC 8949 restricted to the supported types: [it] is an encoding of [v]
    nested at most [levels] deep. *)
Inductive encodes : nat -> list Z -> Value -> Prop :=
  | enc_uint l h a n : hdr h MT_UINT a n -> encodes (S l) h (UInt n)
  | enc_nint l h a n : hdr h MT_NINT a n -> encodes (S l) h (NInt n)
  | enc_bytes l h a s : hdr h MT_BYTES a (zlen s) -> encodes (S l) (h ++ s) (VBytes s)
  | enc_text l h a s : hdr h MT_TEXT a (zlen s) -> is_str s -> encodes (S l) (h ++ s) (Text s)
  | enc_array l h a its vs : hdr h MT_ARRAY a (zlen vs) -> Forall2 (encodes l) its vs ->
      encodes (S l) (h ++ concat its) (Array vs)
  | enc_map l h a its m : hdr h MT_MAP a (zlen m) ->
      Forall2 (fun it kv => exists i1 i2, it = i1 ++ i2 /\ encodes l i1 kv.1 /\ encodes l i2 kv.2) its m ->
      encodes (S l) (h ++ concat its) (Map m)
  | enc_false l h n : hdr h MT_SIMPLE SIMPLE_FALSE n -> encodes (S l) h (VBool false)
  | enc_true l h n : hdr h MT_SIMPLE SIMPLE_TRUE n -> encodes (S l) h (VBool true)
  | enc_null l h a n : hdr h MT_SIMPLE a n -> a = SIMPLE_NULL \/ a = SIMPLE_UNDEFINED ->
      encodes (S l) h Null.

Lemma take_n_all n l r : 0 <= n -> take_n n l = Ok (r, []) -> l = r /\ zlen r = n.
Proof. intros Hn H. apply take_n_spec in H as [-> Hz]; [|done]. by rewrite app_nil_r. Qed.

(** The numbers in two, four and eight bytes. *)
Lemma be_2 b1 b0 : from_be [b1; b0] = b1 * 2 ^ 8 + b0.
Proof. unfold from_be. cbn -[Z.pow]. lia. Qed.
Lemma be_4 b3 b2 b1 b0 : from_be [b3; b2; b1; b0] = b3 * 2 ^ 24 + b2 * 2 ^ 16 + b1 * 2 ^ 8 + b0.
Proof. unfold from_be. cbn -[Z.pow]. lia. Qed.
Lemma be_8 b7 b6 b5 b4 b3 b2 b1 b0 : from_be [b7; b6; b5; b4; b3; b2; b1; b0] =
  b7 * 2 ^ 56 + b6 * 2 ^ 48 + b5 * 2 ^ 40 + b4 * 2 ^ 32 + b3 * 2 ^ 24 + b2 * 2 ^ 16 + b1 * 2 ^ 8 + b0.
Proof. unfold from_be. cbn -[Z.pow]. lia. Qed.
(** Both readings of an argument agree. *)
Lemma argument_reads a used n : argument a used n -> forall k, read_arg (used ++ k) a = Ok (n, k).
Proof.
  assert (forall m (l k : list Z), zlen l = m -> take_n m (l ++ k) = Ok (l, k)) as Ht by (intros; by apply take_n_app).
  intros H k. destruct H as [a Ha|b0|b1 b0|b3 b2 b1 b0|b7 b6 b5 b4 b3 b2 b1 b0]; unfold read_arg.
  - by rewrite (proj2 (Z.leb_le _ _)) by lia.
  - done.
  - rewrite <- be_2. cbn -[take_n app from_be]. by rewrite (Ht 2) by done.
  - rewrite <- be_4. cbn -[take_n app from_be]. by rewrite (Ht 4) by done.
  - rewrite <- be_8. cbn -[take_n app from_be]. by rewrite (Ht 8) by done.
Qed.
Lemma reads_argument a used n : 0 <= a -> read_arg used a = Ok (n, []) -> argument a used n.
Proof.
  intros Ha H. unfold read_arg in H.
  destruct (a <=? 23) eqn:E0; bools; [injection H as -> ->; by constructor|].
  destruct (a =? 24) eqn:E1; bools; [subst; destruct used as [|b [|]]; try done; injection H as <-; apply arg_1|].
  destruct (a =? 25) eqn:E2; bools; [subst a|destruct (a =? 26) eqn:E3; bools; [subst a|destruct (a =? 27) eqn:E4; bools; [subst a|done]]];
    inv_bind H; match type of Hb with _ = Ok ?x => destruct x as [l r] end; injection H as <- ->; apply take_n_all in Hb as [-> Hz]; try lia.
  - assert (length l = 2%nat) as Hl by (unfold zlen in Hz; lia). do 3 (destruct l as [|? l]; try discriminate). rewrite be_2. apply arg_2.
  - assert (length l = 4%nat) as Hl by (unfold zlen in Hz; lia). do 5 (destruct l as [|? l]; try discriminate). rewrite be_4. apply arg_4.
  - assert (length l = 8%nat) as Hl by (unfold zlen in Hz; lia). do 9 (destruct l as [|? l]; try discriminate). rewrite be_8. apply arg_8.
Qed.

Lemma land_31_nonneg b : 0 <= Z.land b 0x1F.
Proof. apply Z.land_nonneg. lia. Qed.
(** The first byte's major type and additional information. *)
Lemma first_byte b mt a : b = mt * 32 + a /\ 0 <= a < 32 <-> Z.shiftr b 5 = mt /\ Z.land b 0x1F = a.
Proof.
  rewrite Z.shiftr_div_pow2 by lia. change 0x1F with (2 ^ 5 - 1). rewrite land_ones_mod by lia. change (2 ^ 5) with 32. split.
  - intros [-> Ha]. lia_div.
  - intros [<- <-]. lia_div.
Qed.

(** A header as the decoder takes it apart. *)
Lemma hdr_parts h mt a n : hdr h mt a n ->
  exists b u, h = b :: u /\ Z.shiftr b 5 = mt /\ Z.land b 0x1F = a /\ forall k, read_arg (u ++ k) a = Ok (n, k).
Proof.
  intros (b & u & -> & Hb & Ha & Hu). destruct (proj1 (first_byte b mt a) (conj Hb Ha)) as [Hx Hy]. exists b, u.
  split; [done|]. split; [done|]. split; [done|]. by apply argument_reads.
Qed.
Lemma hdr_nonempty h mt a n : hdr h mt a n -> h <> [].
Proof. by intros (b & u & -> & _). Qed.

Lemma hdr_word h mt a n : hdr h mt a n -> is_word 64 n /\ zlen (encode_header mt n) <= zlen h.
Proof.
  intros (b & u & -> & _ & Ha & Hu). pose proof (argument_reads _ _ _ Hu []) as Hr.
  apply (read_arg_local _ _ _ _ mt) in Hr as (used & Hx & _ & Hw & Hl); [|lia]. rewrite !app_nil_r in Hx. subst. zlen. split; [done|lia].
Qed.

(** Reading a header, forwards and backwards. *)
Lemma hdr_read h mt a n k {B} (cont : Z -> Z -> Z -> list Z -> result CborError B) :
  hdr h mt a n ->
  ('(b, rest) ← split_first (h ++ k);
   '(arg, rest) ← read_arg rest (Z.land b 0x1F);
   cont (Z.shiftr b 5) (Z.land b 0x1F) arg rest) = cont mt a n k.
Proof.
  intros (b & u & -> & Hx & Hy & Hu)%hdr_parts. cbn [app split_first mbind result_bind]. by rewrite Hx, Hy, Hu.
Qed.

Lemma hdr_found d b rest n r :
  split_first d = Ok (b, rest) -> read_arg rest (Z.land b 0x1F) = Ok (n, r) ->
  exists h, d = h ++ r /\ hdr h (Z.shiftr b 5) (Z.land b 0x1F) n.
Proof.
  destruct d as [|b' d]; [done|]. intros [= <- <-] H.
  destruct (read_arg_local _ _ _ _ (Z.shiftr b' 5) (land_31_nonneg _) H) as (u & -> & Hk & Hw & Hz).
  exists (b' :: u). split; [done|]. exists b', u. split; [done|].
  destruct (proj2 (first_byte b' _ _) (conj eq_refl eq_refl)) as [Hb Ha]. split; [done|]. split; [done|].
  apply reads_argument; [lia|]. specialize (Hk []). by rewrite app_nil_r in Hk.
Qed.

Lemma Forall2_impl_l {A B} (P Q : A -> B -> Prop) l k :
  (forall x y, P x y -> Q x y) -> Forall2 P l k -> Forall2 Q l k.
Proof. intros H. by apply Forall2_impl. Qed.

Lemma decode_complete l it v : encodes l it v -> piece (decode_at l) it v.
Proof.
  revert it v. induction l as [|l IH]; intros it v H; [inversion H|].
  split.
  { inversion H; subst; match goal with Hh : hdr _ _ _ _ |- _ => apply hdr_nonempty in Hh end;
      try done; by destruct h. }
  intros k. cbn [decode_at].
  inversion H; subst; rewrite <- ?(assoc_L (++));
    match goal with Hh : hdr _ _ _ _ |- _ =>
      rewrite (hdr_read _ _ _ _ _ (decode_item (decode_at l)) Hh) end; unfold decode_item; try done.
  - cbn -[take_n]. by rewrite take_n_app.
  - cbn -[take_n from_utf8]. rewrite take_n_app by done. cbn -[from_utf8].
    by rewrite from_utf8_str.
  - cbn -[loop_fuel repeat_dec app concat].
    assert (Forall2 (piece (decode_at l)) its vs) as HF by (eapply Forall2_impl_l; [|done]; apply IH).
    rewrite repeat_dec_complete; [done|done|]. unfold loop_fuel. rewrite length_app.
    apply pieces_length in HF. lia.
  - cbn -[loop_fuel repeat_dec app concat dec_pair].
    assert (Forall2 (piece (dec_pair (decode_at l))) its m) as HF.
    { eapply Forall2_impl_l; [|done]. intros it [x y] (i1 & i2 & -> & He1 & He2). apply dec_pair_piece; auto. }
    rewrite repeat_dec_complete; [done|done|]. unfold loop_fuel. rewrite length_app.
    apply pieces_length in HF. lia.
  - by match goal with Ha : _ \/ _ |- _ => destruct Ha as [->| ->] end.
Qed.

(** From pieces of a decoder to encodings. *)
Lemma pieces_encode l its vs :
  (forall d v r, decode_at l d = Ok (v, r) -> exists it, d = it ++ r /\ encodes l it v) ->
  Forall2 (piece (decode_at l)) its vs -> Forall2 (encodes l) its vs.
Proof.
  intros IH. apply Forall2_impl_l. intros it v [_ Hk].
  destruct (IH _ _ _ (Hk [])) as (it' & He & Henc). rewrite !app_nil_r in He. by subst it'.
Qed.

Lemma pieces_encode_pairs l its m :
  (forall d v r, decode_at l d = Ok (v, r) -> exists it, d = it ++ r /\ encodes l it v) ->
  Forall2 (piece (dec_pair (decode_at l))) its m ->
  Forall2 (fun it kv => exists i1 i2, it = i1 ++ i2 /\ encodes l i1 kv.1 /\ encodes l i2 kv.2) its m.
Proof.
  intros IH. apply Forall2_impl_l. intros it [x y] [_ Hk].
  assert (local (decode_at l)) as Hl.
  { intros d v r H. destruct (IH _ _ _ H) as (i & -> & He). exists i. split; [done|]. by apply decode_complete. }
  destruct (dec_pair_local _ Hl _ _ _ _ (Hk [])) as (i1 & i2 & He & H1 & H2).
  rewrite !app_nil_r in He. exists i1, i2. split; [done|].
  assert (Forall2 (encodes l) [i1; i2] [x; y]) as HF
    by (apply pieces_encode; [done|by repeat apply Forall2_cons_2]).
  by decompose_Forall_hyps.
Qed.

Lemma decode_sound l d v r :
  decode_at l d = Ok (v, r) -> exists it, d = it ++ r /\ encodes l it v.
Proof.
  revert d v r. induction l as [|l IH]; intros d v r H; [done|]. cbn [decode_at] in H.
  inv_bind H. destruct a as [b rest]. inv_bind H. destruct a as [n rest'].
  destruct (hdr_found _ _ _ _ _ Hb Hb0) as (h & -> & Hh). clear Hb Hb0.
  revert Hh H. generalize (Z.shiftr b 5) (Z.land b 0x1F). intros mt a Hh H.
  assert (0 <= n) as Hn by apply (hdr_word _ _ _ _ Hh).
  assert (local (decode_at l)) as Hl.
  { intros d0 v0 r0 H0. destruct (IH _ _ _ H0) as (i & -> & He). exists i. split; [done|]. by apply decode_complete. }
  unfold decode_item in H.
  destruct (mt =? MT_UINT) eqn:E; bools; [subst; injection H as <- <-; exists h; split; [done|by econstructor]|].
  destruct (mt =? MT_NINT) eqn:E0; bools; [subst; injection H as <- <-; exists h; split; [done|by econstructor]|].
  destruct (mt =? MT_BYTES) eqn:E1; bools; [|destruct (mt =? MT_TEXT) eqn:E2; bools;
    [|destruct (mt =? MT_ARRAY) eqn:E3; bools; [|destruct (mt =? MT_MAP) eqn:E4; bools;
    [|destruct (mt =? MT_SIMPLE) eqn:E5; bools; [|done]]]]]; subst mt.
  - inv_bind H. destruct a0 as [s r0]. injection H as <- <-. apply take_n_spec in Hb as [-> <-]; [|done].
    exists (h ++ s). rewrite <- (assoc_L (++)). split; [done|by econstructor].
  - inv_bind H. destruct a0 as [s r0]. inv_bind H. injection H as <- <-.
    apply take_n_spec in Hb as [-> <-]; [|done]. apply ok_or_Ok, from_utf8_Some in Hb0 as [-> Hs].
    exists (h ++ s). rewrite <- (assoc_L (++)). split; [done|by econstructor].
  - inv_bind H. destruct a0 as [vs r0]. injection H as <- <-.
    destruct (repeat_dec_sound _ _ _ _ _ _ Hl Hb) as (its & -> & -> & HF).
    exists (h ++ concat its). rewrite <- (assoc_L (++)). split; [done|].
    econstructor; [done|]. by apply pieces_encode.
  - inv_bind H. destruct a0 as [m r0]. injection H as <- <-.
    destruct (repeat_dec_sound _ _ _ _ _ _ (dec_pair_is_local _ Hl) Hb) as (its & -> & -> & HF).
    exists (h ++ concat its). rewrite <- (assoc_L (++)). split; [done|].
    econstructor; [done|]. by apply pieces_encode_pairs.
  - destruct (a =? SIMPLE_FALSE) eqn:E5; [|destruct (a =? SIMPLE_TRUE) eqn:E6;
      [|destruct ((a =? SIMPLE_NULL) || (a =? SIMPLE_UNDEFINED)) eqn:E7; [|done]]]; bools.
    + subst. injection H as <- <-. exists h. split; [done|by econstructor].
    + subst. injection H as <- <-. exists h. split; [done|by econstructor].
    + injection H as <- <-. exists h. split; [done|]. econstructor; [done|].
      destruct E7 as [E7|E7]; apply Z.eqb_eq in E7; auto.
Qed.

Lemma decode_local l : local (decode_at l).
Proof.
  intros d v r H. destruct (decode_sound _ _ _ _ H) as (i & -> & He). exists i.
  split; [done|]. by apply decode_complete.
Qed.

(** * The encoder against the grammar *)

Lemma encode_header_hdr mt n : 0 <= mt < 8 -> is_word 64 n -> exists a, hdr (encode_header mt n) mt a n.
Proof.
  intros Hm Hn. destruct (encode_header_read mt n [] Hm Hn) as (b & args & He & Hb & Hr).
  exists (Z.land b 0x1F), b, args. destruct (proj2 (first_byte b mt _) (conj Hb eq_refl)) as [Hx Ha].
  split; [done|]. split; [done|]. split; [done|]. apply reads_argument; [lia|]. by rewrite app_nil_r in Hr.
Qed.

(** An element of maximal depth, or none: the fold of [depth]. *)
Lemma fold_max_lt {A} (g : A -> nat) (l : list A) (n : nat) :
  (0 < n)%nat ->
  (fold_right (fun x d => Nat.max (g x) d) 0 l < n)%nat <-> Forall (fun x => (g x < n)%nat) l.
Proof.
  intros Hn. induction l as [|x l IH]; simpl; [split; [constructor|lia]|].
  rewrite list.Forall_cons, <- IH. lia.
Qed.

Lemma flat_map_pieces {A} (e : A -> list Z) (l : list A) : flat_map e l = concat (e <$> l).
Proof. induction l as [|x l IH]; [done|]. simpl. by rewrite IH. Qed.

Lemma Forall2_fmap_self {A} (R : list Z -> A -> Prop) (e : A -> list Z) (l : list A) :
  Forall (fun x => R (e x) x) l -> Forall2 R (e <$> l) l.
Proof. induction 1; constructor; auto. Qed.

Lemma simple_hdr x :
  0 <= x < 24 -> hdr [Z.lor (wshl 8 MT_SIMPLE 5) x] MT_SIMPLE x x.
Proof.
  intros Hx. destruct (header_byte MT_SIMPLE x) as (H1 & H2 & _); [unfold MT_SIMPLE; lia|lia|].
  exists (Z.lor (wshl 8 MT_SIMPLE 5) x), []. destruct (proj2 (first_byte (Z.lor (wshl 8 MT_SIMPLE 5) x) MT_SIMPLE x) (conj H1 H2)) as [Hb Ha].
  split; [done|]. split; [done|]. split; [done|]. constructor. lia.
Qed.

Lemma encode_encodes v l : wf v -> (depth v < l)%nat -> encodes l (encode v) v.
Proof.
  revert l. induction v as [n|n|b|s|a IH|m IH|b|] using Value_rect'; intros l Hw Hd;
    (destruct l as [|l]; [lia|]); inversion Hw; subst; cbn [encode].
  - destruct (encode_header_hdr MT_UINT n) as [a Ha]; [unfold MT_UINT; lia|done|]. by econstructor.
  - destruct (encode_header_hdr MT_NINT n) as [a Ha]; [unfold MT_NINT; lia|done|]. by econstructor.
  - destruct (encode_header_hdr MT_BYTES (zlen b)) as [a Ha];
      [unfold MT_BYTES; lia|pose proof (zlen_nonneg b); unfold is_word; lia|]. by econstructor.
  - destruct (encode_header_hdr MT_TEXT (zlen s)) as [a Ha];
      [unfold MT_TEXT; lia|pose proof (zlen_nonneg s); unfold is_word; lia|]. by econstructor.
  - destruct (encode_header_hdr MT_ARRAY (zlen a)) as [x Hx];
      [unfold MT_ARRAY; lia|pose proof (zlen_nonneg a); unfold is_word; lia|].
    rewrite flat_map_pieces. econstructor; [done|]. apply Forall2_fmap_self.
    destruct a as [|v0 a]; [constructor|]. cbn [depth] in Hd.
    assert (Forall (fun v => (depth v < l)%nat) (v0 :: a)) as HF
      by (apply fold_max_lt; [|lia]; destruct l; lia).
    revert IH HF H0. rewrite !list.Forall_forall. auto.
  - destruct (encode_header_hdr MT_MAP (zlen m)) as [x Hx];
      [unfold MT_MAP; lia|pose proof (zlen_nonneg m); unfold is_word; lia|].
    rewrite flat_map_pieces. econstructor; [done|]. apply Forall2_fmap_self.
    destruct m as [|kv0 m]; [constructor|]. cbn [depth] in Hd.
    assert (Forall (fun kv => (Nat.max (depth kv.1) (depth kv.2) < l)%nat) (kv0 :: m)) as HF.
    { apply (fold_max_lt (fun kv => Nat.max (depth kv.1) (depth kv.2))); [|lia]. destruct l; lia. }
    revert IH HF H0. rewrite !list.Forall_forall. intros IH HF Hwf kv Hin.
    specialize (IH kv Hin). specialize (HF kv Hin). specialize (Hwf kv Hin). cbn in HF.
    exists (encode kv.1), (encode kv.2). split; [done|].
    split; [apply IH|apply IH]; first [apply Hwf|lia].
  - destruct b; econstructor; apply simple_hdr; unfold SIMPLE_TRUE, SIMPLE_FALSE; lia.
  - econstructor; [apply simple_hdr; unfold SIMPLE_NULL; lia|by left].
Qed.

Lemma Bytes_flat_map {A} (e : A -> list Z) l : Forall (fun x => Bytes (e x)) l -> Bytes (flat_map e l).
Proof. induction 1; simpl; [done|]. by apply Forall_app. Qed.

(** A well-formed value is encoded in bytes. *)
Lemma encode_Bytes v : wf v -> Bytes (encode v).
Proof.
  assert (forall mt n, 0 <= mt < 8 -> 0 <= n -> Bytes (encode_header mt n)) as Hh.
  { intros. by apply encode_header_Bytes. }
  assert (forall mt A (l : list A) e, 0 <= mt < 8 -> Forall (fun x => Bytes (e x)) l ->
    Bytes (encode_header mt (zlen l) ++ flat_map e l)) as Hc.
  { intros mt A l e Hm HF. apply Forall_app; split; [apply Hh; [done|apply zlen_nonneg]|].
    by apply Bytes_flat_map. }
  induction v as [n|n|b|s|a IH|m IH|b|] using Value_rect'; intros Hw; inversion Hw; subst; cbn [encode].
  - apply Hh; [done|]. unfold is_word in *. lia.
  - apply Hh; [done|]. unfold is_word in *. lia.
  - apply Forall_app; split; [apply Hh; [done|apply zlen_nonneg]|done].
  - apply Forall_app; split; [apply Hh; [done|apply zlen_nonneg]|done].
  - apply Hc; [done|]. eapply list.Forall_impl; [exact (proj2 (list.Forall_and _ _) (conj IH H0))|].
    intros x [Hx Hy]; eauto.
  - apply Hc; [done|]. eapply list.Forall_impl; [exact (proj2 (list.Forall_and _ _) (conj IH H0))|].
    intros x [[Hx1 Hx2] [Hy1 Hy2]]. apply Forall_app; eauto.
  - destruct b; repeat constructor; done.
  - repeat constructor; done.
Qed.

(** The decoder on an encoded value: the value back, or the depth limit. *)
Lemma repeat_dec_encoded {A} (dec : list Z -> result CborError (A * list Z)) (e : A -> list Z)
    (ok : A -> Prop) `{forall x, Decision (ok x)} xs fuel k :
  Forall (fun x => forall k, dec (e x ++ k) = if decide (ok x) then Ok (x, k) else Err DepthLimit) xs ->
  (length xs <= fuel)%nat ->
  repeat_dec dec fuel (zlen xs) (concat (e <$> xs) ++ k) =
    if decide (Forall ok xs) then Ok (xs, k) else Err DepthLimit.
Proof.
  intros HF. revert fuel. induction HF as [|x xs Hx _ IH]; intros fuel Hl.
  { rewrite decide_True by constructor. by destruct fuel. }
  destruct fuel as [|fuel]; [simpl in Hl; lia|]. cbn [repeat_dec]. pose proof (zlen_nonneg xs).
  rewrite zlen_cons, (proj2 (Z.eqb_neq _ 0)) by lia.
  cbn [fmap list_fmap concat]. rewrite <- (assoc_L (++)), Hx.
  destruct (decide (ok x)) as [Hok|Hok]; cbn [mbind result_bind].
  2:{ rewrite decide_False; [done|]. by rewrite list.Forall_cons; intros [? _]. }
  replace (1 + zlen xs - 1) with (zlen xs) by lia. rewrite IH by (simpl in Hl; lia).
  destruct (decide (Forall ok xs)) as [HF|HF]; cbn [mbind result_bind].
  - by rewrite decide_True by (by constructor).
  - rewrite decide_False; [done|]. by rewrite list.Forall_cons; intros [_ ?].
Qed.

Lemma encode_nonempty v : encode v <> [].
Proof.
  destruct v; cbn [encode]; try done; unfold encode_header; repeat case_match; done.
Qed.

Lemma length_concat_ge {A B} (e : A -> list B) (xs : list A) :
  (forall x, e x <> []) -> (length xs <= length (concat (e <$> xs)))%nat.
Proof.
  intros He. induction xs as [|x xs IH]; [done|]. csimpl. rewrite length_app.
  specialize (He x). destruct (e x); [done|simpl; lia].
Qed.

Lemma decode_at_encode v l k :
  wf v ->
  decode_at l (encode v ++ k) = if decide (depth v < l)%nat then Ok (v, k) else Err DepthLimit.
Proof.
  revert l k. induction v as [n|n|b|s|a IH|m IH|b|] using Value_rect'; intros l k Hw;
    (destruct l as [|l]; [done|]).
  1-4, 7-8: rewrite decide_True by (simpl; lia);
    apply (decode_complete (S l)), encode_encodes; [done|simpl; lia].
  - inversion Hw; subst. destruct (encode_header_hdr MT_ARRAY (zlen a)) as [x Hx];
      [unfold MT_ARRAY; lia|pose proof (zlen_nonneg a); unfold is_word; lia|].
    cbn [decode_at encode]. rewrite <- (assoc_L (++)), (hdr_read _ _ _ _ _ (decode_item (decode_at l)) Hx).
    unfold decode_item. cbn -[loop_fuel repeat_dec app concat zlen depth].
    rewrite flat_map_pieces, (repeat_dec_encoded _ encode (fun v => (depth v < l)%nat)).
    + destruct a as [|v0 a]; [by rewrite !decide_True by (constructor || simpl; lia)|].
      destruct l as [|l].
      { rewrite !decide_False; [done|..]; first [rewrite list.Forall_cons; lia|simpl; lia]. }
      cbn [depth]. rewrite (decide_ext _ (S (fold_right (fun v d => Nat.max (depth v) d) 0%nat (v0 :: a)) < S (S l))%nat).
      * by destruct (decide _).
      * rewrite <- fold_max_lt by lia. lia.
    + revert IH H0. rewrite !list.Forall_forall. auto.
    + unfold loop_fuel. rewrite length_app. pose proof (length_concat_ge encode a encode_nonempty). lia.
  - inversion Hw; subst. destruct (encode_header_hdr MT_MAP (zlen m)) as [x Hx];
      [unfold MT_MAP; lia|pose proof (zlen_nonneg m); unfold is_word; lia|].
    cbn [decode_at encode]. rewrite <- (assoc_L (++)), (hdr_read _ _ _ _ _ (decode_item (decode_at l)) Hx).
    unfold decode_item. cbn -[loop_fuel repeat_dec app concat zlen depth dec_pair].
    rewrite flat_map_pieces, (repeat_dec_encoded _ (fun kv => encode kv.1 ++ encode kv.2)
      (fun kv => (Nat.max (depth kv.1) (depth kv.2) < l)%nat)).
    + destruct m as [|v0 m]; [by rewrite !decide_True by (constructor || simpl; lia)|].
      destruct l as [|l].
      { rewrite !decide_False; [done|..]; first [rewrite list.Forall_cons; lia|simpl; lia]. }
      cbn [depth]. rewrite (decide_ext _
        (S (fold_right (fun kv d => Nat.max (Nat.max (depth kv.1) (depth kv.2)) d) 0%nat (v0 :: m)) < S (S l))%nat).
      * by destruct (decide _).
      * rewrite <- (fold_max_lt (fun kv => Nat.max (depth kv.1) (depth kv.2))) by lia. lia.
    + revert IH H0. rewrite !list.Forall_forall. intros IH Hwf kv Hin k'.
      destruct (IH kv Hin) as [IH1 IH2], (Hwf kv Hin) as [Hw1 Hw2], kv as [kk vv]. cbn in *.
      unfold dec_pair. rewrite <- (assoc_L (++)), IH1 by done.
      destruct (decide (depth kk < l)%nat); cbn -[decide].
      * rewrite IH2 by done. destruct (decide (depth vv < l)%nat); cbn -[decide].
        -- by rewrite decide_True by lia.
        -- by rewrite decide_False by lia.
      * by rewrite decide_False by lia.
    + unfold loop_fuel. rewrite length_app.
      pose proof (length_concat_ge (fun kv => encode kv.1 ++ encode kv.2) m) as Hl.
      assert (forall kv : Value * Value, encode kv.1 ++ encode kv.2 <> []) as Hne.
      { intros kv. pose proof (encode_nonempty kv.1). by destruct (encode kv.1). }
      specialize (Hl Hne). lia.
Qed.

(** * What a decoded value satisfies *)

Lemma decode_encoded v : wf v -> (depth v <= DECODE_DEPTH_LIMIT)%nat -> decode (encode v) = Ok (v, []).
Proof.
  intros Hw Hd. rewrite <- (app_nil_r (encode v)). unfold decode.
  rewrite decode_at_encode by done. rewrite decide_True; [done|lia].
Qed.

Lemma zlen_concat_pieces its : Forall (fun it : list Z => it <> []) its -> zlen its <= zlen (concat its).
Proof.
  induction 1 as [|it its Hit _ IH]; [done|]. cbn [concat]. zlen.
  destruct it; [done|]. zlen. pose proof (zlen_nonneg it). lia.
Qed.

(** Decoded from bytes that fit the address space, a value is well formed, not
    nested beyond the levels, and encoding it again never takes more bytes. *)
(** A piece of a concatenation is no longer than it, and made of its bytes. *)
Lemma concat_piece (its : list (list Z)) i :
  i ∈ its -> zlen (concat its) < 2 ^ 64 -> zlen i < 2 ^ 64 /\ (Bytes (concat its) -> Bytes i).
Proof.
  intros Hi Hzc. apply list_elem_of_split in Hi as (a & b & ->). rewrite concat_app in *. cbn [concat] in *.
  rewrite !zlen_app in Hzc. pose proof (zlen_nonneg (concat a)). pose proof (zlen_nonneg (concat b)).
  split; [lia|]. rewrite !Forall_app. tauto.
Qed.

(** What holds of each element's encoding holds of a container's. *)
Lemma pieces_encoded {A} (enc : A -> list Z) (d : A -> nat) (good : A -> Prop) (l : nat) (its : list (list Z)) (vs : list A) :
  Forall2 (fun it v => good v /\ (d v < l)%nat /\ zlen (enc v) <= zlen it) its vs ->
  Forall good vs /\ (vs <> [] -> (fold_right (fun v k => Nat.max (d v) k) 0 vs < l)%nat) /\
  zlen (concat (enc <$> vs)) <= zlen (concat its).
Proof.
  intros HF. split_and!.
  - induction HF; constructor; tauto.
  - intros Hne. apply fold_max_lt; [destruct HF as [|? ? ? ? (_ & ? & _)]; [done|lia]|].
    clear Hne. induction HF; constructor; tauto.
  - induction HF as [|? ? ? ? (_ & _ & ?) _ IH]; [done|]. csimpl. zlen. lia.
Qed.

Lemma encodes_wf l it v :
  encodes l it v -> Bytes it -> zlen it < 2 ^ 64 ->
  wf v /\ (depth v < l)%nat /\ zlen (encode v) <= zlen it.
Proof.
  revert it v. induction l as [|l IH]; intros it v H HB Hz; [inversion H|].
  inversion H; subst; match goal with Hh : hdr _ _ _ _ |- _ =>
    destruct (hdr_word _ _ _ _ Hh) as [Hw Hl]; pose proof (hdr_nonempty _ _ _ _ Hh) as Hne end;
    try (split_and!; [by constructor|simpl; lia|]; first [done | destruct it; [done|]; cbn; zlen; pose proof (zlen_nonneg it); lia]);
    apply Forall_app in HB as [_ HB]; rewrite zlen_app in Hz; pose proof (zlen_nonneg h).
  - split_and!; [constructor; [done|apply Hw]|simpl; lia|]. cbn [encode]. zlen. lia.
  - split_and!; [constructor; [done|done|apply Hw]|simpl; lia|]. cbn [encode]. zlen. lia.
  - destruct (pieces_encoded encode depth wf l its vs) as (Hf1 & Hf2 & Hf3).
    { apply Forall2_same_length_lookup. split; [by eapply Forall2_length|].
      intros i it0 v0 Hx1 Hx2. destruct (concat_piece its it0) as [Hz0 HB0]; [by eapply list_elem_of_lookup_2|lia|].
      eapply IH; [by eapply Forall2_lookup_lr|by apply HB0|done]. }
    split_and!; [constructor; [done|apply Hw]|by destruct vs as [|v0 vs]; [simpl; lia|]; cbn [depth]; specialize (Hf2 ltac:(done)); lia|].
    cbn [encode]. rewrite flat_map_pieces. zlen. lia.
  - destruct (pieces_encoded (fun kv => encode kv.1 ++ encode kv.2) (fun kv => Nat.max (depth kv.1) (depth kv.2))
      (fun kv => wf kv.1 /\ wf kv.2) l its m) as (Hf1 & Hf2 & Hf3).
    { apply Forall2_same_length_lookup. split; [by eapply Forall2_length|]. intros i it0 kv Hx2 Hx3.
      match goal with HE : Forall2 _ its m |- _ => destruct (Forall2_lookup_lr _ _ _ _ _ _ HE Hx2 Hx3) as (i1 & i2 & -> & He1 & He2) end.
      destruct (concat_piece its (i1 ++ i2)) as [Hzi HBi]; [by eapply list_elem_of_lookup_2|lia|].
      specialize (HBi HB). apply Forall_app in HBi as [HB1 HB2]. rewrite zlen_app in Hzi.
      pose proof (zlen_nonneg i1). pose proof (zlen_nonneg i2).
      destruct (IH _ _ He1) as (? & ? & ?); [done|lia|]. destruct (IH _ _ He2) as (? & ? & ?); [done|lia|]. zlen. split_and!; try done; lia. }
    split_and!; [constructor; [done|apply Hw]|by destruct m as [|v0 m]; [simpl; lia|]; cbn [depth]; specialize (Hf2 ltac:(done)); lia|].
    cbn [encode]. rewrite flat_map_pieces. zlen. lia.
Qed.

(** * Measuring and splitting *)

(** [it] is one item as [item_len_at] measures it, whatever follows. *)
Definition measured (l : nat) (it : list Z) : Prop :=
  it <> [] /\ forall k, item_len_at l (it ++ k) = Ok (zlen it).

Lemma checked_add_Some a b t : checked_add a b = Some t -> t = a + b /\ t < 2 ^ 64.
Proof. unfold checked_add. destruct (_ <? _) eqn:E; [|done]. bools. intros [= <-]. done. Qed.

Lemma body_from_Ok data header n t :
  body_from data header n = Ok t <-> t = header + n /\ t < 2 ^ 64 /\ t <= zlen data.
Proof.
  unfold body_from, checked_add. split.
  - intros H. inv_bind H. apply ok_or_Ok in Hb. destruct (_ <? 2 ^ 64) eqn:E in Hb; [|done].
    injection Hb as <-. destruct (zlen data <? _) eqn:E2; [done|]. injection H as <-. bools. lia.
  - intros (-> & H1 & H2). rewrite (proj2 (Z.ltb_lt _ _)) by done. simpl. by decide_cmp.
Qed.

Section items.
Context (f : list Z -> result CborError Z).
Definition item_ok (it : list Z) : Prop := it <> [] /\ forall k, f (it ++ k) = Ok (zlen it).

Lemma items_len_complete its fuel pre k :
  Forall item_ok its -> (length its <= fuel)%nat -> zlen (pre ++ concat its) < 2 ^ 64 ->
  items_len f (pre ++ concat its ++ k) fuel (zlen its) (zlen pre) = Ok (zlen (pre ++ concat its)).
Proof.
  intros HF. revert fuel pre. induction HF as [|it its [_ Hit] _ IH]; intros fuel pre Hf Hz.
  { cbn [concat]. rewrite app_nil_r. by destruct fuel. }
  destruct fuel as [|fuel]; [simpl in Hf; lia|]. cbn [items_len]. pose proof (zlen_nonneg its).
  rewrite zlen_cons, (proj2 (Z.eqb_neq _ 0)) by lia. rewrite drop_zlen. cbn [concat].
  rewrite <- (assoc_L (++) it), Hit. cbn [mbind result_bind].
  cbn [concat] in Hz. pose proof (zlen_nonneg (concat its)). rewrite !zlen_app in Hz.
  unfold checked_add. rewrite (proj2 (Z.ltb_lt _ _)) by lia. cbn [ok_or mbind result_bind].
  replace (1 + zlen its - 1) with (zlen its) by lia.
  rewrite !(assoc_L (++) pre it), <- (zlen_app pre it).
  rewrite IH; [done|simpl in Hf; lia|rewrite !zlen_app; lia].
Qed.

Lemma items_len_sound fuel pre suf count e :
  (forall d n, f d = Ok n -> exists it r, d = it ++ r /\ n = zlen it /\ item_ok it) ->
  items_len f (pre ++ suf) fuel count (zlen pre) = Ok e ->
  exists its r, suf = concat its ++ r /\ count = zlen its /\ e = zlen (pre ++ concat its) /\
    Forall item_ok its /\ (its <> [] -> e < 2 ^ 64).
Proof.
  intros Hf. revert pre suf count. induction fuel as [|fuel IH]; intros pre suf count; cbn [items_len].
  - destruct (count =? 0) eqn:E; [|done]. bools. intros [= <-]. exists [], suf. simpl.
    rewrite app_nil_r. by split_and!.
  - destruct (count =? 0) eqn:E; bools.
    { intros [= <-]. exists [], suf. simpl. rewrite app_nil_r. by split_and!. }
    intros H. inv_bind H. inv_bind H. apply ok_or_Ok, checked_add_Some in Hb0 as [-> Hlt].
    rewrite drop_zlen in Hb. destruct (Hf _ _ Hb) as (it & r1 & -> & -> & Hit).
    rewrite (assoc_L (++)), <- zlen_app in H.
    destruct (IH _ _ _ H) as (its & r & -> & Hc & -> & HF & He).
    exists (it :: its), r. cbn [concat]. split_and!.
    + by rewrite <- (assoc_L (++)).
    + zlen. lia.
    + by rewrite <- (assoc_L (++)).
    + by constructor.
    + intros _. destruct its as [|i its]; [cbn [concat]; rewrite app_nil_r, zlen_app; lia|by apply He].
Qed.
End items.

Lemma hdr_header h mt a n k : hdr h mt a n -> zlen (h ++ k) - zlen k = zlen h.
Proof. intros _. zlen. lia. Qed.

Lemma item_len_hdr h mt a n k l :
  hdr h mt a n -> item_len_at (S l) (h ++ k) = item_body (item_len_at l) (h ++ k) mt n (zlen h).
Proof.
  intros Hh. cbn [item_len_at].
  rewrite (hdr_read _ _ _ _ _ (fun mt _ n k' => item_body (item_len_at l) (h ++ k) mt n (zlen (h ++ k) - zlen k')) Hh).
  by rewrite (hdr_header _ _ _ _ k Hh).
Qed.

Lemma items_fuel (its : list (list Z)) h k :
  Forall (fun it => it <> []) its -> (length its <= loop_fuel (h ++ concat its ++ k))%nat.
Proof.
  intros HF. pose proof (zlen_concat_pieces its HF) as H. unfold loop_fuel, zlen in *.
  rewrite !length_app. lia.
Qed.

(** Everything [item_len_at] measures is a prefix it would measure alone. *)
Lemma item_len_sound l d n :
  item_len_at l d = Ok n -> exists it r, d = it ++ r /\ n = zlen it /\ measured l it.
Proof.
  revert d n. induction l as [|l IH]; intros d n H; [done|].
  cbn [item_len_at] in H. inv_bind H. destruct a as [b rest]. inv_bind H. destruct a as [arg after].
  destruct (hdr_found _ _ _ _ _ Hb Hb0) as (h & -> & Hh). clear Hb Hb0.
  revert Hh H. generalize (Z.shiftr b 5) (Z.land b 0x1F). intros mt a Hh.
  rewrite (hdr_header _ _ _ _ _ Hh). intros H.
  pose proof (hdr_word _ _ _ _ Hh) as [Hw _]. pose proof (hdr_nonempty _ _ _ _ Hh) as Hne.
  assert (forall body r, after = body ++ r ->
    (forall k, item_body (item_len_at l) (h ++ body ++ k) mt arg (zlen h) = Ok (zlen (h ++ body))) ->
    n = zlen (h ++ body) ->
    exists it r, h ++ after = it ++ r /\ n = zlen it /\ measured (S l) it) as Hfin.
  { intros body r -> Hk ->. exists (h ++ body), r. split; [by rewrite <- (assoc_L (++))|]. split; [done|].
    split; [by destruct h|]. intros k. rewrite <- (assoc_L (++)). by rewrite (item_len_hdr _ _ _ _ _ _ Hh). }
  unfold item_body in H. destruct ((mt =? MT_UINT) || (mt =? MT_NINT)) eqn:E1.
  { injection H as <-. apply (Hfin [] after); [done| |by rewrite app_nil_r].
    intros k. unfold item_body. by rewrite E1, app_nil_r. }
  destruct ((mt =? MT_BYTES) || (mt =? MT_TEXT)) eqn:E2.
  { apply body_from_Ok in H as (-> & Hlt & Hle). unfold is_word in Hw. rewrite zlen_app in Hle.
    assert (zlen (take (Z.to_nat arg) after) = arg) as Hta by (zlen; lia).
    apply (Hfin (take (Z.to_nat arg) after) (drop (Z.to_nat arg) after)).
    - by rewrite take_drop.
    - intros k. unfold item_body. rewrite E1, E2. apply body_from_Ok. rewrite !zlen_app, Hta.
      pose proof (zlen_nonneg k). lia.
    - rewrite zlen_app. lia. }
  destruct ((mt =? MT_ARRAY) || (mt =? MT_MAP)) eqn:E3.
  { inv_bind H.
    destruct (items_len_sound (item_len_at l) _ h after a0 n IH H) as (its & r & -> & -> & -> & HF & Hlt).
    apply (Hfin (concat its) r); [done| |done].
    intros k. unfold item_body. rewrite E1, E2, E3, Hb. cbn [mbind result_bind].
    destruct its as [|i its].
    { cbn [concat]. rewrite app_nil_r. by destruct (loop_fuel _). }
    apply items_len_complete; [done| |by apply Hlt].
    apply items_fuel. clear -HF. induction HF as [|? ? [? ?]]; constructor; auto. }
  destruct (mt =? MT_TAG) eqn:E4.
  { inv_bind H. rewrite drop_zlen in Hb. destruct (IH _ _ Hb) as (it & r & -> & -> & Hne' & Hk).
    apply body_from_Ok in H as (-> & Hlt & Hle).
    apply (Hfin it r); [done| |by rewrite zlen_app].
    intros k. unfold item_body. rewrite E1, E2, E3, E4, drop_zlen, Hk. cbn [mbind result_bind].
    apply body_from_Ok. rewrite !zlen_app in *. pose proof (zlen_nonneg k). lia. }
  injection H as <-. apply (Hfin [] after); [done| |by rewrite app_nil_r].
  intros k. unfold item_body. by rewrite E1, E2, E3, E4, app_nil_r.
Qed.

Lemma measured_item_ok l it : measured l it <-> item_ok (item_len_at l) it.
Proof. done. Qed.

(** Every encoding the decoder accepts is measured with its exact length. *)
Lemma encodes_measured l it v : encodes l it v -> zlen it < 2 ^ 64 -> measured l it.
Proof.
  revert it v. induction l as [|l IH]; intros it v H Hz; [inversion H|].
  assert (forall its : list (list Z), zlen (concat its) < 2 ^ 64 -> forall i, i ∈ its -> zlen i < 2 ^ 64) as Hin
    by (intros its Hzc i Hi; by apply (concat_piece its)).
  split.
  { inversion H; subst; match goal with Hh : hdr _ _ _ _ |- _ => apply hdr_nonempty in Hh end;
      try done; by destruct h. }
  intros k. inversion H; subst; rewrite <- ?(assoc_L (++));
    match goal with Hh : hdr _ _ _ _ |- _ =>
      rewrite (item_len_hdr _ _ _ _ _ _ Hh) end; unfold item_body; try done.
  - cbn -[body_from]. apply body_from_Ok. rewrite !zlen_app in *. pose proof (zlen_nonneg k). lia.
  - cbn -[body_from]. apply body_from_Ok. rewrite !zlen_app in *. pose proof (zlen_nonneg k). lia.
  - cbn -[items_len loop_fuel app concat zlen].
    rewrite zlen_app in Hz. pose proof (zlen_nonneg h).
    assert (length its = length vs) as Hlen by (by eapply Forall2_length).
    assert (Forall (item_ok (item_len_at l)) its) as HF.
    { apply list.Forall_forall. intros i Hi. apply list_elem_of_lookup_1 in Hi as [j Hj].
      match goal with HE : Forall2 _ its vs |- _ => destruct (Forall2_lookup_l _ _ _ _ _ HE Hj) as (v0 & _ & He) end.
      apply (IH _ _ He). apply (Hin its); [lia|by eapply list_elem_of_lookup_2]. }
    replace (zlen vs) with (zlen its) by (unfold zlen; lia).
    apply items_len_complete; [done| |rewrite zlen_app; lia].
    apply items_fuel. clear -HF. induction HF as [|? ? [? ?]]; constructor; auto.
  - cbn -[items_len loop_fuel app concat zlen checked_mul].
    rewrite zlen_app in Hz. pose proof (zlen_nonneg h).
    assert (exists its2, concat its2 = concat its /\ zlen its2 = zlen m * 2 /\
      Forall (item_ok (item_len_at l)) its2) as (its2 & Hc2 & Hz2 & HF2).
    { match goal with HE : Forall2 _ its m |- _ => revert HE end.
      assert (forall i, i ∈ its -> zlen i < 2 ^ 64) as Hin' by (apply Hin; lia). revert Hin'.
      clear -IH. intros Hin HE. induction HE as [|it kv its m (i1 & i2 & -> & H1 & H2) _ IHm].
      - exists []. by split_and!.
      - destruct IHm as (its2 & Hc & Hz & HF); [intros i Hi; apply Hin; by right|].
        specialize (Hin (i1 ++ i2) ltac:(left)). rewrite zlen_app in Hin.
        pose proof (zlen_nonneg i1). pose proof (zlen_nonneg i2).
        exists (i1 :: i2 :: its2). cbn [concat]. rewrite Hc, <- (assoc_L (++)). zlen.
        split_and!; [done|lia|]. constructor; [|constructor; [|done]]; eapply IH; try done; lia. }
    assert (Forall (fun it : list Z => it <> []) its2) as Hne2
      by (clear -HF2; induction HF2 as [|? ? [? ?]]; constructor; auto).
    pose proof (zlen_concat_pieces its2 Hne2). rewrite <- Hc2, Hz2 in *.
    unfold checked_mul. rewrite (proj2 (Z.ltb_lt _ _)) by lia. cbn -[items_len loop_fuel app concat zlen].
    rewrite <- Hz2. apply items_len_complete; [done|by apply items_fuel|rewrite zlen_app; lia].
Qed.

Lemma split_item_piece it it' : piece split_item it it' <-> it' = it /\ measured DECODE_DEPTH_LIMIT it.
Proof.
  unfold piece, measured, split_item. split.
  - intros [Hne Hk]. pose proof (Hk []) as H. inv_bind H. destruct (item_len_sound _ _ _ Hb) as (i & r & He & -> & Hi).
    rewrite He, split_at_app in H. injection H as <- ->. rewrite !app_nil_r in He. subst i.
    split; [done|]. exact Hi.
  - intros (-> & Hne & Hk). split; [done|]. intros k. rewrite Hk. simpl. by rewrite split_at_app.
Qed.

Lemma split_item_local : local split_item.
Proof.
  intros d v r H. unfold split_item in H. inv_bind H.
  destruct (item_len_sound _ _ _ Hb) as (i & r' & -> & -> & Hi). rewrite split_at_app in H.
  injection H as <- <-. exists i. split; [done|]. by apply split_item_piece.
Qed.

Lemma split_array_spec d items r :
  split_array d = Ok (items, r) <->
  exists h a, d = h ++ concat items ++ r /\ hdr h MT_ARRAY a (zlen items) /\
    Forall (measured DECODE_DEPTH_LIMIT) items.
Proof.
  assert (forall its vs, Forall2 (piece split_item) its vs <-> its = vs /\ Forall (measured DECODE_DEPTH_LIMIT) vs) as HP.
  { intros its vs. split.
    - induction 1 as [|it v its vs Hp _ [-> IH]]; [by split|]. apply split_item_piece in Hp as [-> Hm].
      split; [done|by constructor].
    - intros [-> HF]. induction HF; constructor; [by apply split_item_piece|done]. }
  unfold split_array. split.
  - intros H. inv_bind H. destruct a as [b rest]. destruct (negb _) eqn:E in H; [done|]. bools.
    inv_bind H. destruct a as [n rest']. destruct (hdr_found _ _ _ _ _ Hb Hb0) as (h & -> & Hh).
    rewrite E in Hh. destruct (repeat_dec_sound _ _ _ _ _ _ split_item_local H) as (its & -> & -> & HF).
    apply HP in HF as [-> HF]. eauto.
  - intros (h & a & -> & Hh & HF).
    assert (Forall (fun it : list Z => it <> []) items) as Hne
      by (clear -HF; induction HF as [|? ? [? ?]]; constructor; auto).
    pose proof (zlen_concat_pieces items Hne) as Hl.
    destruct (hdr_parts _ _ _ _ Hh) as (b & u & -> & Hs & Ha & Hr). cbn [app split_first mbind result_bind].
    rewrite Hs, Ha, Hr. cbn -[repeat_dec loop_fuel concat app zlen].
    apply repeat_dec_complete; [by apply HP|]. unfold loop_fuel. rewrite length_app.
    unfold zlen in Hl. lia.
Qed.

(** The concatenated keys and values of a split map. *)
Definition map_bytes (pairs : list (list Z * list Z)) : list Z := flat_map (fun kv => kv.1 ++ kv.2) pairs.

Lemma split_map_spec d pairs r :
  split_map d = Ok (pairs, r) <->
  exists h a, d = h ++ map_bytes pairs ++ r /\ hdr h MT_MAP a (zlen pairs) /\
    Forall (fun kv => measured DECODE_DEPTH_LIMIT kv.1 /\ measured DECODE_DEPTH_LIMIT kv.2) pairs.
Proof.
  set (ok := fun kv : list Z * list Z => measured DECODE_DEPTH_LIMIT kv.1 /\ measured DECODE_DEPTH_LIMIT kv.2).
  unfold map_bytes. rewrite flat_map_pieces.
  assert (forall its (vs : list (list Z * list Z)), Forall2 (piece (dec_pair split_item)) its vs <->
    its = ((fun kv => kv.1 ++ kv.2) <$> vs) /\ Forall ok vs) as HP.
  { intros its vs. split.
    - induction 1 as [|it [x y] its vs [_ Hk] _ [-> IH]]; [by split|].
      destruct (dec_pair_local _ split_item_local _ _ _ _ (Hk [])) as (i1 & i2 & He & H1 & H2).
      rewrite !app_nil_r in He. apply split_item_piece in H1 as [-> H1], H2 as [-> H2].
      split; [by rewrite He|by constructor].
    - intros [-> HF]. induction HF as [|[x y] vs [H1 H2] _ IH]; [constructor|].
      constructor; [|done]. apply dec_pair_piece; by apply split_item_piece. }
  unfold split_map. split.
  - intros H. inv_bind H. destruct a as [b rest]. destruct (negb _) eqn:E in H; [done|]. bools.
    inv_bind H. destruct a as [n rest']. destruct (hdr_found _ _ _ _ _ Hb Hb0) as (h & -> & Hh).
    rewrite E in Hh.
    destruct (repeat_dec_sound _ _ _ _ _ _ (dec_pair_is_local _ split_item_local) H) as (its & -> & -> & HF).
    apply HP in HF as [-> HF]. eauto.
  - intros (h & a & -> & Hh & HF).
    destruct (hdr_parts _ _ _ _ Hh) as (b & u & -> & Hs & Ha & Hr). cbn [app split_first mbind result_bind].
    rewrite Hs, Ha, Hr. cbn -[repeat_dec loop_fuel concat app zlen dec_pair].
    apply repeat_dec_complete; [by apply HP|]. unfold loop_fuel. rewrite length_app, length_fmap.
    assert (length pairs <= length (concat ((fun kv : list Z * list Z => kv.1 ++ kv.2) <$> pairs)))%nat; [|lia].
    clear -HF. induction HF as [|[x y] vs [[H1 _] _] _ IH]; [done|]. csimpl. rewrite !length_app.
    destruct x; [done|simpl; lia].
Qed.

Lemma split_array_header items r :
  Forall (measured DECODE_DEPTH_LIMIT) items -> zlen items < 2 ^ 64 ->
  split_array (array_header (zlen items) ++ concat items ++ r) = Ok (items, r).
Proof.
  intros HF Hz. apply split_array_spec.
  destruct (encode_header_hdr MT_ARRAY (zlen items)) as [a Ha];
    [unfold MT_ARRAY; lia|pose proof (zlen_nonneg items); unfold is_word; lia|].
  by exists (array_header (zlen items)), a.
Qed.

Lemma as_uint_key k key : as_uint k = Some key <-> k = UInt key.
Proof. destruct k; simpl; split; congruence. Qed.

(** * Properties *)

(** C27: the decoder implements the CBOR grammar. For every input, decoding
    succeeds with a value and a rest exactly when the input is an encoding of
    that value (as RFC 8949 defines it for the supported types, nested at most
    16 containers deep) followed by that rest. The grammar is written on its own:
    a header is a major type in three bits, five bits of additional information,
    and the argument these give, in the byte itself or in the one, two, four or
    eight bytes that follow, the most significant first. *)
Theorem decode_grammar (data rest : list Z) (v : Value) :
  decode data = Ok (v, rest) <-> exists it, data = it ++ rest /\ encodes (DECODE_DEPTH_LIMIT + 1) it v.
Proof.
  split; [apply decode_sound|].
  intros (it & -> & H). by apply (decode_complete (DECODE_DEPTH_LIMIT + 1)).
Qed.

(** C28: encoding then decoding gives the value back and leaves the bytes that
    follow untouched, for every value of up to 16 nested containers; a deeper
    value is refused with DepthLimit, not mis-read. An innermost container that is
    empty does not count, as the decoder enters nothing in it. *)
Theorem decode_encode (v : Value) (rest : list Z) :
  wf v ->
  decode (encode v ++ rest) = if decide (depth v <= DECODE_DEPTH_LIMIT)%nat then Ok (v, rest) else Err DepthLimit.
Proof.
  intros Hw. unfold decode. rewrite decode_at_encode by done.
  apply decide_ext. lia.
Qed.

Lemma decode_encode_witness :
  decode (encode (Map [(UInt 1, Array [NInt 300; VBytes [1; 2]; Text (s2b "label")]); (Text [], VBool true)]) ++ [9]) =
  Ok (Map [(UInt 1, Array [NInt 300; VBytes [1; 2]; Text (s2b "label")]); (Text [], VBool true)], [9]).
Proof.
  apply (decode_encode (Map [(UInt 1, Array [NInt 300; VBytes [1; 2]; Text (s2b "label")]); (Text [], VBool true)]) [9]).
  repeat first [apply Forall_nil_2 | apply Forall_cons_2 | split | constructor];
    first [lia | (apply (bool_decide_eq_true_1 _); vm_compute; reflexivity)].
Defined.

(** What decoding accepts can be trusted. From bytes that fit the address
    space it only yields well-formed values (64-bit integers, valid UTF-8)
    nested within the limit; encoding such a value again never takes more bytes
    than were read (the encoder's headers are the shortest); and [item_len]
    measures the same item with exactly the length that was consumed. *)
Theorem decode_wellformed (data rest : list Z) (v : Value) :
  Bytes data -> zlen data < 2 ^ 64 -> decode data = Ok (v, rest) ->
  wf v /\ (depth v <= DECODE_DEPTH_LIMIT)%nat /\
  zlen (encode v) <= zlen data - zlen rest /\ item_len data = Ok (zlen data - zlen rest).
Proof.
  intros HB Hz H. destruct (decode_sound _ _ _ _ H) as (it & -> & He).
  rewrite Forall_app in HB. rewrite zlen_app in *. pose proof (zlen_nonneg rest).
  destruct (encodes_wf _ _ _ He) as (Hw & Hd & Hl); [tauto|lia|].
  split_and!; [done|lia|lia|]. unfold item_len.
  destruct (encodes_measured _ _ _ He) as [_ Hm]; [lia|]. rewrite Hm. f_equal. lia.
Qed.

Lemma decode_wellformed_witness :
  wf (Array [UInt 7]) /\ (depth (Array [UInt 7]) <= DECODE_DEPTH_LIMIT)%nat /\
  zlen (encode (Array [UInt 7])) <= zlen [0x81; 0x18; 7; 0] - zlen [0] /\
  item_len [0x81; 0x18; 7; 0] = Ok (zlen [0x81; 0x18; 7; 0] - zlen [0]).
Proof.
  apply (decode_wellformed [0x81; 0x18; 7; 0] [0] (Array [UInt 7])).
  - apply (bool_decide_eq_true_1 _). vm_compute. reflexivity.
  - reflexivity.
  - reflexivity.
Defined.

(** Splitting an array or a map loses nothing. It succeeds exactly on a
    header of that type followed by as many measured items as it announces
    (tags and floats included), and returns those items byte for byte with the
    bytes after; and re-assembling any such items under [array_header] splits
    back into them. *)
Theorem split_exact (data : list Z) (items : list (list Z)) (pairs : list (list Z * list Z)) (rest : list Z) :
  (split_array data = Ok (items, rest) <->
    exists h a, data = h ++ concat items ++ rest /\ hdr h MT_ARRAY a (zlen items) /\
      Forall (measured DECODE_DEPTH_LIMIT) items) /\
  (split_map data = Ok (pairs, rest) <->
    exists h a, data = h ++ map_bytes pairs ++ rest /\ hdr h MT_MAP a (zlen pairs) /\
      Forall (fun kv => measured DECODE_DEPTH_LIMIT kv.1 /\ measured DECODE_DEPTH_LIMIT kv.2) pairs) /\
  (Forall (measured DECODE_DEPTH_LIMIT) items -> zlen items < 2 ^ 64 ->
    split_array (array_header (zlen items) ++ concat items ++ rest) = Ok (items, rest)).
Proof.
  split; [apply split_array_spec|]. split; [apply split_map_spec|].
  apply split_array_header.
Qed.
