(* ===== verification/Ctap.v ===== *)
(** keyroost-ctap/src/transport.rs and cmd.rs: the transport interface every
    CTAP command runs against, the command errors, getInfo and reset. A
    command is a computation on the state of a transport ([io]); durations are
    milliseconds. *)
From S2P Require Export Cbor Text.

(** * Errors *)

(** hid.rs's transport error; an operating-system error is its message. *)
Inductive HidTransportError :=
  | Io (e : list Z)
  | Timeout
  | UnexpectedCommand (expected got : Z)
  | InitResponseTooShort
  | PayloadTooLarge (n : Z)
  | OutOfSequence (expected got : Z)
  | DeviceError (code : Z)
  | Cancelled
  | Backend (s : list Z).

Inductive CtapError :=
  | EHid (e : HidTransportError)
  | ECbor (e : CborError)
  | StatusCode (c : Z)
  | PinChangeRequired
  | EmptyResponse
  | InvalidResponseShape (s : list Z)
  | InvalidArgument (s : list Z)
  | EUnsupported (s : list Z)
  | Transport (s : list Z)
  | EApdu (sw1 sw2 : Z).

Definition is_pin_auth_error (e : CtapError) : bool :=
  match e with
  | StatusCode c => (c =? 0x31) || (c =? 0x33) || (c =? 0x34)
  | _ => false
  end.

(** U+2014. *)
Definition EM_DASH : list Z := [0xE2; 0x80; 0x94].

Definition ctap_status_hint (code : Z) : option (list Z) :=
  if code =? 0x37 then Some (s2b "the new PIN doesn't meet this key's complexity requirements " ++ EM_DASH ++ s2b " try a longer PIN or a different mix of characters (some keys enforce a minimum length or required character variety)")
  else if code =? 0x31 then Some (s2b "the PIN was incorrect")
  else if code =? 0x32 then Some (s2b "too many wrong PIN attempts " ++ EM_DASH ++ s2b " the key is locked; remove and re-insert it, and note it may reset after repeated failures")
  else if code =? 0x33 then Some (s2b "the PIN authentication was rejected; unlock again and retry")
  else if code =? 0x34 then Some (s2b "too many PIN retries this session " ++ EM_DASH ++ s2b " remove and re-insert the key")
  else if code =? 0x35 then Some (s2b "no PIN is set on this key yet")
  else if code =? 0x36 then Some (s2b "this operation needs a fresh PIN/UV authentication first")
  else if code =? 0x3B then Some (s2b "the key needs a physical touch to continue")
  else if code =? 0x3C then Some (s2b "user verification is temporarily blocked " ++ EM_DASH ++ s2b " remove and re-insert the key")
  else if code =? 0x2F then Some (s2b "timed out waiting for you to act on the key")
  else None.

Definition ctap_status_name (code : Z) : option (list Z) :=
  if code =? 0x00 then Some (s2b "CTAP2_OK")
  else if code =? 0x11 then Some (s2b "CTAP2_ERR_CBOR_UNEXPECTED_TYPE")
  else if code =? 0x12 then Some (s2b "CTAP2_ERR_INVALID_CBOR")
  else if code =? 0x14 then Some (s2b "CTAP2_ERR_MISSING_PARAMETER")
  else if code =? 0x19 then Some (s2b "CTAP2_ERR_CREDENTIAL_EXCLUDED")
  else if code =? 0x2B then Some (s2b "CTAP2_ERR_UNSUPPORTED_OPTION")
  else if code =? 0x2C then Some (s2b "CTAP2_ERR_INVALID_OPTION")
  else if code =? 0x2D then Some (s2b "CTAP2_ERR_KEEPALIVE_CANCEL")
  else if code =? 0x2E then Some (s2b "CTAP2_ERR_NO_CREDENTIALS")
  else if code =? 0x2F then Some (s2b "CTAP2_ERR_USER_ACTION_TIMEOUT")
  else if code =? 0x30 then Some (s2b "CTAP2_ERR_NOT_ALLOWED")
  else if code =? 0x31 then Some (s2b "CTAP2_ERR_PIN_INVALID")
  else if code =? 0x32 then Some (s2b "CTAP2_ERR_PIN_BLOCKED")
  else if code =? 0x33 then Some (s2b "CTAP2_ERR_PIN_AUTH_INVALID")
  else if code =? 0x34 then Some (s2b "CTAP2_ERR_PIN_AUTH_BLOCKED")
  else if code =? 0x35 then Some (s2b "CTAP2_ERR_PIN_NOT_SET")
  else if code =? 0x36 then Some (s2b "CTAP2_ERR_PUAT_REQUIRED")
  else if code =? 0x37 then Some (s2b "CTAP2_ERR_PIN_POLICY_VIOLATION")
  else if code =? 0x39 then Some (s2b "CTAP2_ERR_REQUEST_TOO_LARGE")
  else if code =? 0x3A then Some (s2b "CTAP2_ERR_ACTION_TIMEOUT")
  else if code =? 0x3B then Some (s2b "CTAP2_ERR_UP_REQUIRED")
  else if code =? 0x3C then Some (s2b "CTAP2_ERR_UV_BLOCKED")
  else if code =? 0x3F then Some (s2b "CTAP2_ERR_INTEGRITY_FAILURE")
  else None.

(** ["{:02X}"]. *)
Definition hex_upper (n : Z) : list Z :=
  let digit d := if d <? 10 then 48 + d else 55 + d in [digit (n / 16); digit (n mod 16)].

(** The [StatusCode] arm of [CtapError]'s [Display]. *)
Definition status_text (c : Z) : list Z :=
  match ctap_status_hint c, ctap_status_name c with
  | Some hint, Some name => hint ++ s2b " (CTAP2 status 0x" ++ hex_upper c ++ s2b " " ++ name ++ s2b ")"
  | Some hint, None => hint ++ s2b " (CTAP2 status 0x" ++ hex_upper c ++ s2b ")"
  | None, Some name =>
      s2b "authenticator returned CTAP2 status 0x" ++ hex_upper c ++ s2b " (" ++ name ++ s2b ")"
  | None, None => s2b "authenticator returned CTAP2 status 0x" ++ hex_upper c
  end.

(** * The transport interface *)

Definition DEFAULT_READ_TIMEOUT : Z := 2000.
Definition RESET_TIMEOUT : Z := 30000.

Definition CTAPHID_CBOR : Z := 0x90.

(** [trait CtapTransport], over the type of the transport's state. The cancel
    flag itself is shared with another thread; installing it is a change of
    the transport. *)
Class CtapTransport (D : Type) := {
  transact : Z -> list Z -> io D CtapError (list Z);
  set_timeout : Z -> D -> D;
  read_timeout : D -> Z;
  set_cancel_flag : D -> D
}.

(** What the command layer relies on: the deadline read is the deadline set,
    and only [set_timeout] changes it. A transport without a deadline of its
    own (the trait's defaults) reports the default and ignores the setting. *)
Class TimeoutLaws (D : Type) `{CtapTransport D} := {
  set_timeout_again : forall t d d',
    read_timeout d' = read_timeout (set_timeout t d) ->
    read_timeout (set_timeout (read_timeout d) d') = read_timeout d;
  transact_timeout : forall cmd payload d, read_timeout (transact cmd payload d).2 = read_timeout d
}.

Section commands.
Context {D : Type} `{CtapTransport D}.

Definition with_timeout {R} (timeout : Z) (f : D -> R * D) (dev : D) : R * D :=
  let prev := read_timeout dev in
  let dev := set_timeout timeout dev in
  let '(out, dev) := f dev in
  (out, set_timeout prev dev).

Definition split_status (resp : list Z) : result CtapError (Z * list Z) :=
  match resp with [] => Err EmptyResponse | s :: rest => Ok (s, rest) end.

Record AuthenticatorInfo := mkInfo {
  versions : list (list Z);
  extensions : list (list Z);
  aaguid : list Z;  (* [u8; 16] *)
  options : list (list Z * bool);
  max_msg_size : option Z;
  pin_uv_auth_protocols : list Z;
  max_credential_count_in_list : option Z;
  max_credential_id_length : option Z;
  transports : list (list Z);
  force_pin_change : option bool;
  min_pin_length : option Z;
  firmware_version : option Z;
  max_serialized_large_blob_array : option Z
}.

Definition default_info : AuthenticatorInfo :=
  mkInfo [] [] (replicate 16 0) [] None [] None None [] None None None None.

Definition option_flag (info : AuthenticatorInfo) (name : list Z) : option bool :=
  find_map (fun kv => if bool_decide (kv.1 = name) then Some kv.2 else None) (options info).

Definition collect_strings (v : Value) : list (list Z) :=
  match as_array v with Some a => omap as_text a | None => [] end.

Definition collect_uints (v : Value) : list Z :=
  match as_array v with Some a => omap as_uint a | None => [] end.

Definition collect_named_bools (v : Value) : list (list Z * bool) :=
  match as_map v with
  | Some m => omap (fun kv => match as_text kv.1, as_bool kv.2 with
                              | Some k, Some b => Some (k, b) | _, _ => None end) m
  | None => []
  end.

(** One map entry of the loop in [parse_authenticator_info]. *)
Definition info_entry (info : AuthenticatorInfo) (kv : Value * Value) : AuthenticatorInfo :=
  let '(mkInfo v e g o mm pp cc cl tr fp mp fw lb) := info in
  let val := kv.2 in
  match as_uint kv.1 with
  | None => info
  | Some key =>
      if key =? 0x01 then mkInfo (collect_strings val) e g o mm pp cc cl tr fp mp fw lb
      else if key =? 0x02 then mkInfo v (collect_strings val) g o mm pp cc cl tr fp mp fw lb
      else if key =? 0x03 then
        match as_bytes val with
        | Some b => if zlen b =? 16 then mkInfo v e b o mm pp cc cl tr fp mp fw lb else info
        | None => info
        end
      else if key =? 0x04 then mkInfo v e g (collect_named_bools val) mm pp cc cl tr fp mp fw lb
      else if key =? 0x05 then mkInfo v e g o (as_uint val) pp cc cl tr fp mp fw lb
      else if key =? 0x06 then mkInfo v e g o mm (collect_uints val) cc cl tr fp mp fw lb
      else if key =? 0x07 then mkInfo v e g o mm pp (as_uint val) cl tr fp mp fw lb
      else if key =? 0x08 then mkInfo v e g o mm pp cc (as_uint val) tr fp mp fw lb
      else if key =? 0x09 then mkInfo v e g o mm pp cc cl (collect_strings val) fp mp fw lb
      else if key =? 0x0b then mkInfo v e g o mm pp cc cl tr fp mp fw (as_uint val)
      else if key =? 0x0C then mkInfo v e g o mm pp cc cl tr (as_bool val) mp fw lb
      else if key =? 0x0D then mkInfo v e g o mm pp cc cl tr fp (as_uint val) fw lb
      else if key =? 0x0E then mkInfo v e g o mm pp cc cl tr fp mp (as_uint val) lb
      else info
  end.

Definition parse_authenticator_info (v : Value) : result CtapError AuthenticatorInfo :=
  map ← ok_or (InvalidResponseShape (s2b "expected map at top level")) (as_map v);
  Ok (fold_left info_entry map default_info).

Definition CTAP2_GET_INFO : Z := 0x04.
Definition CTAP2_RESET : Z := 0x07.

Definition get_info : io D CtapError AuthenticatorInfo :=
  resp ← transact CTAPHID_CBOR [CTAP2_GET_INFO];
  '(status, body) ← lift (split_status resp);
  if negb (status =? 0) then lift (Err (StatusCode status)) else
  '(value, _) ← lift (map_err ECbor (decode body));
  lift (parse_authenticator_info value).

Definition reset : io D CtapError unit :=
  resp ← with_timeout RESET_TIMEOUT (transact CTAPHID_CBOR [CTAP2_RESET]);
  '(status, _) ← lift (split_status resp);
  if negb (status =? 0) then lift (Err (StatusCode status)) else mret tt.
End commands.

(** * Lemmas *)

Section timeouts.
Context {D : Type} `{TimeoutLaws D}.

(** A window scoped by [with_timeout] is closed again, whatever the command
    answered. *)
Lemma with_timeout_restores {R} t (f : D -> R * D) d :
  (forall d, read_timeout (f d).2 = read_timeout d) ->
  read_timeout (with_timeout t f d).2 = read_timeout d.
Proof.
  intros Hf. unfold with_timeout. destruct (f (set_timeout t d)) as [out d'] eqn:E. simpl.
  apply (set_timeout_again t). specialize (Hf (set_timeout t d)). by rewrite E in Hf.
Qed.

(** A bind whose steps keep the deadline keeps it. *)
Lemma bind_timeout {A B} (m : io D CtapError A) (f : A -> io D CtapError B) d :
  read_timeout (m d).2 = read_timeout d ->
  (forall a d, read_timeout (f a d).2 = read_timeout d) ->
  read_timeout ((m ≫= f) d).2 = read_timeout d.
Proof.
  intros Hm Hf. unfold mbind, io_bind. destruct (m d) as [[a|e] d']; simpl in *; [|done].
  by rewrite Hf.
Qed.

Lemma lift_timeout {A} (r : result CtapError A) d : read_timeout (lift r d).2 = read_timeout d.
Proof. done. Qed.

Lemma reset_keeps_timeout d : read_timeout (reset d).2 = read_timeout d.
Proof.
  unfold reset. apply bind_timeout.
  - apply with_timeout_restores. intros. apply transact_timeout.
  - intros resp d'. apply bind_timeout; [done|]. intros [status body] d2. by destruct (negb _).
Qed.
End timeouts.

(** The value of the last entry under an unsigned key. *)
Definition last_for (key : Z) (m : list (Value * Value)) : option Value :=
  find_map (fun kv => if bool_decide (as_uint kv.1 = Some key) then Some kv.2 else None) (rev m).

Lemma last_for_snoc key m kv :
  last_for key (m ++ [kv]) = if bool_decide (as_uint kv.1 = Some key) then Some kv.2 else last_for key m.
Proof. unfold last_for. rewrite rev_unit. simpl. by destruct (bool_decide _). Qed.

(** The last well-sized AAGUID. *)
Definition last_aaguid (m : list (Value * Value)) : option (list Z) :=
  find_map (fun kv => if bool_decide (as_uint kv.1 = Some 3) then
    match as_bytes kv.2 with Some b => if zlen b =? 16 then Some b else None | None => None end
  else None) (rev m).

Definition strings_for (key : Z) m : list (list Z) :=
  match last_for key m with Some v => collect_strings v | None => [] end.
Definition uint_for (key : Z) m : option Z := last_for key m ≫= as_uint.

(** What getInfo reports, field by field. *)
Definition info_of_map (m : list (Value * Value)) : AuthenticatorInfo :=
  mkInfo (strings_for 1 m) (strings_for 2 m) (default (replicate 16 0) (last_aaguid m))
    (match last_for 4 m with Some v => collect_named_bools v | None => [] end)
    (uint_for 5 m) (match last_for 6 m with Some v => collect_uints v | None => [] end)
    (uint_for 7 m) (uint_for 8 m) (strings_for 9 m)
    (last_for 0x0C m ≫= as_bool) (uint_for 0x0D m) (uint_for 0x0E m) (uint_for 0x0B m).

Lemma info_entries m : fold_left info_entry m default_info = info_of_map m.
Proof.
  induction m as [|kv m IH] using rev_ind; [done|].
  rewrite fold_left_app, IH. simpl. destruct kv as [k val]. unfold info_of_map, strings_for, uint_for.
  rewrite !last_for_snoc.
  assert (last_aaguid (m ++ [(k, val)]) = if bool_decide (as_uint k = Some 3) then
    match as_bytes val with Some b => if zlen b =? 16 then Some b else last_aaguid m | None => last_aaguid m end
    else last_aaguid m) as ->.
  { unfold last_aaguid. rewrite rev_unit. simpl. destruct (bool_decide _); [|done].
    destruct (as_bytes val); [|done]. by destruct (_ =? _). }
  unfold info_entry. cbn [fst snd]. destruct (as_uint k) as [n|] eqn:Ek.
  2:{ rewrite !bool_decide_eq_false_2 by done. done. }
  assert (forall j, bool_decide (Some n = Some j) = (n =? j)) as Hb.
  { intros j. destruct (Z.eqb_spec n j); [rewrite bool_decide_eq_true_2|rewrite bool_decide_eq_false_2]; congruence. }
  rewrite !Hb.
  repeat (match goal with |- context [if n =? ?c then _ else _] =>
    destruct (Z.eqb_spec n c) as [->|]; [simpl; try done|] end).
  - destruct (as_bytes val) as [b|]; [|done]. by destruct (_ =? 16).
  - done.
Qed.

(** * Properties *)

(** GetInfo is read field by field, the last entry under a key deciding,
    and nothing else in the map matters: on any CBOR map the parser returns
    exactly the record of the last values (an AAGUID of the wrong size is
    passed over), on anything else the shape error; and the named options are
    looked up first match first. *)
Theorem parse_authenticator_info_fields (v : Value) (info : AuthenticatorInfo) (name : list Z) :
  parse_authenticator_info v = (match v with
    | Map m => Ok (info_of_map m)
    | _ => Err (InvalidResponseShape (s2b "expected map at top level"))
    end) /\
  (forall b, option_flag info name = Some b <->
    exists pre post, options info = pre ++ (name, b) :: post /\ Forall (fun kv => kv.1 <> name) pre).
Proof.
  split.
  - destruct v; try done. unfold parse_authenticator_info. simpl. by rewrite info_entries.
  - intros b. unfold option_flag. induction (options info) as [|[k x] l IH]; simpl.
    + split; [done|]. by intros ([|??] & ? & ? & _).
    + destruct (bool_decide_reflect (k = name)) as [->|Hne].
      * split.
        -- intros [= ->]. exists [], l. split; [done|constructor].
        -- intros ([|kv pre] & post & Heq & HF); [by injection Heq as -> _|].
           injection Heq as <- _. rewrite list.Forall_cons in HF. by destruct HF.
      * rewrite IH. split.
        -- intros (pre & post & -> & HF). exists ((k, x) :: pre), post. split; [done|by constructor].
        -- intros ([|kv pre] & post & Heq & HF); injection Heq as <-; [congruence|].
           subst. exists pre, post. split; [done|]. by inversion HF.
Qed.

(** A reset never leaks its 30-second window. On every transport whose
    deadline is what was last set (or that has none), the deadline in effect
    after [reset] is the caller's, whether the key accepted, refused or
    failed. *)
Theorem reset_restores_timeout {D : Type} `{TimeoutLaws D} (d : D) :
  read_timeout (reset d).2 = read_timeout d.
Proof. apply reset_keeps_timeout. Qed.

(** A transport that remembers its deadline and refuses everything. *)
#[export] Instance mock_transport : CtapTransport Z := {
  transact _ _ d := (Err (StatusCode 0x30), d);
  set_timeout t _ := t;
  read_timeout d := d;
  set_cancel_flag d := d
}.
#[export] Instance mock_laws : TimeoutLaws Z.
Proof. split; done. Defined.

Lemma reset_restores_timeout_witness : read_timeout (reset 2500).2 = 2500.
Proof. exact (reset_restores_timeout (D := Z) 2500). Defined.
