(* ===== verification/Sha.v ===== *)
(** The incremental Merkle-Damgaard hashing that keyroost-proto's sha1.rs,
    sha256.rs and sha512.rs each write out: the state of the struct ([h],
    [buf], [buf_len], [total_bits]), [update] and [finalize], over the block
    size, the width of the length counter and the compression function, which
    the three files instantiate; then those three. *)
From S2P Require Export Words.
From S2P Require Export Utf8.
Open Scope nat_scope.

Record md_state := mkMd {
  md_h : list Z;          (* chaining words *)
  md_buf : list Z;        (* [buf: [u8; BLOCK_SIZE]] *)
  md_buf_len : nat;
  md_total_bits : Z
}.

Section md.
(** [BLOCK_SIZE], the bytes of the length counter, the bytes of a word, the
    initial words and [process_block]. *)
Context (B L wb : nat) (iv : list Z) (process_block : list Z -> list Z -> list Z).

Definition md_new : md_state := mkMd iv (replicate B 0%Z) 0 0.

(** [while data.len() >= BLOCK_SIZE { ... }], with the rest of [data]. *)
Fixpoint md_absorb (fuel : nat) (h data : list Z) : list Z * list Z :=
  match fuel with
  | O => (h, data)
  | S fuel =>
      if decide (B <= length data)
      then md_absorb fuel (process_block h (take B data)) (drop B data)
      else (h, data)
  end.

(** [if self.buf_len > 0 { ... }]: tops up a partial block, giving the new
    [h], [buf], [buf_len] and the rest of [data]. *)
Definition md_top_up (s : md_state) (data : list Z) : list Z * list Z * nat * list Z :=
  if decide (0 < md_buf_len s) then
    let take_n := Nat.min (B - md_buf_len s) (length data) in
    let buf := list_inserts (md_buf_len s) (take take_n data) (md_buf s) in
    let buf_len := md_buf_len s + take_n in
    let data := drop take_n data in
    if decide (buf_len = B) then (process_block (md_h s) buf, buf, 0, data)
    else (md_h s, buf, buf_len, data)
  else (md_h s, md_buf s, md_buf_len s, data).

Definition md_update (s : md_state) (data : list Z) : md_state :=
  let total := ((md_total_bits s + zlen data * 8) mod 2 ^ (8 * Z.of_nat L))%Z in
  let '(h, buf, buf_len, data) := md_top_up s data in
  let '(h, data) := md_absorb (length data) h data in
  match data with
  | [] => mkMd h buf buf_len total
  | _ => mkMd h (list_inserts 0 data buf) (length data) total
  end.

(** [for i in from..to { self.buf[i] = 0; }]. *)
Definition md_zero (from to : nat) (buf : list Z) : list Z :=
  for_range from (to - from) (fun i buf => <[i := 0%Z]> buf) buf.

Definition md_finalize (s : md_state) : list Z :=
  let bit_len := md_total_bits s in
  let buf := <[md_buf_len s := 0x80%Z]> (md_buf s) in
  let buf_len := md_buf_len s + 1 in
  let '(h, buf, buf_len) :=
    if decide (B - L < buf_len) then
      let buf := md_zero buf_len B buf in
      (process_block (md_h s) buf, buf, 0)
    else (md_h s, buf, buf_len) in
  let buf := md_zero buf_len (B - L) buf in
  let buf := list_inserts (B - L) (to_be L bit_len) buf in
  flat_map (to_be wb) (process_block h buf).

(** ** The hash of a whole message *)

(** 0x80, zeros up to the length field, the bit length. *)
Definition md_padding (n : Z) : list Z :=
  0x80%Z :: replicate (Z.to_nat ((Z.of_nat B - Z.of_nat L - 1 - n) mod Z.of_nat B)) 0%Z
    ++ to_be L (n * 8).

Definition md_hash (msg : list Z) : list Z :=
  flat_map (to_be wb)
    (fold_left process_block (chunks B (msg ++ md_padding (zlen msg))) iv).

Lemma words_out ws : Bytes (flat_map (to_be wb) ws) /\ length (flat_map (to_be wb) ws) = wb * length ws.
Proof.
  induction ws as [|w ws [IHb IHl]]; [split; [constructor|simpl; lia]|]. simpl. split.
  - apply Forall_app; split; [apply to_be_bytes|done].
  - rewrite length_app, length_to_be, IHl. lia.
Qed.

Lemma md_finalize_out s n :
  (forall h b, length (process_block h b) = n) ->
  Bytes (md_finalize s) /\ length (md_finalize s) = wb * n.
Proof.
  intros Hn. unfold md_finalize. destruct (decide _).
  all: match goal with |- context [process_block ?h ?b] =>
    rewrite <- (Hn h b); apply words_out end.
Qed.

Hypothesis HL : L < B.

(** What a state stands for: the bytes fed so far, of which the whole blocks
    have been compressed and the rest sits at the front of the buffer. *)
Record md_abs (s : md_state) (full : list (list Z)) (rest : list Z) : Prop := {
  ma_full : Forall (fun b => length b = B) full;
  ma_h : md_h s = fold_left process_block full iv;
  ma_buf : length (md_buf s) = B;
  ma_rest : md_buf_len s = length rest;
  ma_small : length rest < B;
  ma_take : take (length rest) (md_buf s) = rest;
  ma_bits : (md_total_bits s =
    (zlen (concat full ++ rest) * 8) mod 2 ^ (8 * Z.of_nat L))%Z
}.

Lemma md_new_abs : md_abs md_new [] [].
Proof. by constructor; cbn; rewrite ?length_replicate; try lia. Qed.

Lemma md_absorb_spec fuel h data :
  length data <= fuel ->
  exists full rest, data = concat full ++ rest /\ Forall (fun b => length b = B) full /\
    length rest < B /\ md_absorb fuel h data = (fold_left process_block full h, rest).
Proof.
  revert h data. induction fuel as [|fuel IH]; intros h data Hl; simpl.
  - exists [], data. split_and!; [done|constructor|lia|done].
  - case_decide as Hd.
    + destruct (IH (process_block h (take B data)) (drop B data)) as (full & rest & Hc & Hf & Hr & ->).
      { rewrite length_drop. lia. }
      exists (take B data :: full), rest. split_and!; [|constructor; [|done]|done|done].
      * simpl. rewrite <- (assoc_L (++)), <- Hc. by rewrite take_drop.
      * rewrite length_take. lia.
    + exists [], data. split_and!; [done|constructor|lia|done].
Qed.

Lemma take_list_inserts_0 (data buf : list Z) :
  length data <= length buf -> take (length data) (list_inserts 0 data buf) = data.
Proof.
  intros H. apply list_eq. intros i. destruct (decide (i < length data)) as [Hi|Hi].
  - rewrite lookup_take_lt, list_lookup_inserts by lia. f_equal. lia.
  - rewrite !lookup_ge_None_2; [done|lia|rewrite length_take, length_inserts; lia].
Qed.

Lemma list_inserts_prefix (n : nat) (p data buf : list Z) :
  length p = n -> take n buf = p -> n + length data <= length buf ->
  take (n + length data) (list_inserts n data buf) = p ++ data.
Proof.
  intros Hp Ht Hl. apply list_eq. intros i.
  destruct (decide (i < n + length data)) as [Hi|Hi].
  - rewrite lookup_take_lt by done. destruct (decide (i < n)) as [Hn|Hn].
    + rewrite list_lookup_inserts_lt by done. rewrite lookup_app_l by lia.
      rewrite <- Ht. by rewrite lookup_take_lt.
    + rewrite list_lookup_inserts by lia. rewrite lookup_app_r by lia. f_equal. lia.
  - rewrite !lookup_ge_None_2; [done|rewrite length_app; lia|rewrite length_take, length_inserts; lia].
Qed.

Lemma bits_add (a : Z) (x y : list Z) :
  (a = (zlen x * 8) mod 2 ^ (8 * Z.of_nat L))%Z ->
  ((a + zlen y * 8) mod 2 ^ (8 * Z.of_nat L) = (zlen (x ++ y) * 8) mod 2 ^ (8 * Z.of_nat L))%Z.
Proof. intros ->. rewrite Zplus_mod_idemp_l. f_equal. zlen. lia. Qed.

Lemma md_top_up_spec s full rest data :
  md_abs s full rest ->
  exists buf data' full1 rest1,
    md_top_up s data = (fold_left process_block full1 iv, buf, length rest1, data') /\
    Forall (fun b => length b = B) full1 /\
    length buf = B /\ length rest1 < B /\ take (length rest1) buf = rest1 /\
    (data' <> [] -> rest1 = []) /\
    concat full1 ++ rest1 ++ data' = (concat full ++ rest) ++ data.
Proof.
  intros [Hf Hh Hb Hr Hs Ht _]. unfold md_top_up. rewrite Hr, Hh.
  destruct (decide (0 < length rest)) as [Hpos|Hpos]; cbv zeta.
  - set (tn := Nat.min (B - length rest) (length data)).
    assert (length (take tn data) = tn) as Htn by (rewrite length_take; lia).
    assert (take (length rest + tn) (list_inserts (length rest) (take tn data) (md_buf s))
            = rest ++ take tn data) as Hpre.
    { rewrite <- Htn at 1. apply list_inserts_prefix; [done|done|lia]. }
    destruct (decide (length rest + tn = B)) as [HB|HB].
    + rewrite take_ge in Hpre by (rewrite length_inserts; lia). rewrite Hpre.
      eexists _, _, (full ++ [rest ++ take tn data]), []. split_and!.
      * rewrite fold_left_app. reflexivity.
      * apply Forall_app; split; [done|]. apply Forall_singleton. rewrite length_app. lia.
      * rewrite length_app. lia.
      * simpl. lia.
      * done.
      * done.
      * rewrite concat_app. simpl. rewrite app_nil_r, <- !(assoc_L (++)). by rewrite take_drop.
    + eexists _, _, full, (rest ++ take tn data). split_and!.
      * rewrite length_app, Htn. reflexivity.
      * done.
      * by rewrite length_inserts.
      * rewrite length_app. lia.
      * by rewrite length_app, Htn.
      * intros Hd. exfalso. apply Hd. apply drop_ge. lia.
      * rewrite <- !(assoc_L (++)). by rewrite take_drop.
  - assert (rest = []) as -> by (destruct rest; [done|simpl in *; lia]).
    eexists _, _, full, []. split_and!; try done. by rewrite app_nil_r.
Qed.

Lemma md_update_abs s full rest data :
  md_abs s full rest ->
  exists full' rest', md_abs (md_update s data) full' rest' /\
    concat full' ++ rest' = (concat full ++ rest) ++ data.
Proof.
  intros HA. pose proof (bits_add _ _ data (ma_bits _ _ _ HA)) as Hn'. unfold md_update.
  destruct (md_top_up_spec s full rest data HA)
    as (buf & data' & full1 & rest1 & -> & Hf1 & Hb1 & Hs1 & Ht1 & He1 & Hc1).
  destruct (md_absorb_spec (length data') (fold_left process_block full1 iv) data')
    as (full2 & rest2 & Hd & Hf2 & Hs2 & ->); [done|].
  destruct rest2 as [|x rest2].
  - rewrite app_nil_r in Hd. destruct full2 as [|b full2].
    + exists full1, rest1. simpl in Hd. subst data'. rewrite app_nil_r in Hc1.
      split; [|done]. constructor; cbn; try done. by rewrite Hc1.
    + assert (rest1 = []) as ->.
      { apply He1. subst data'. inversion Hf2; subst. simpl. destruct b; [simpl in *; lia|done]. }
      exists (full1 ++ b :: full2), []. simpl in Hc1.
      assert (concat (full1 ++ b :: full2) = (concat full ++ rest) ++ data) as Hc
        by (by rewrite concat_app, <- Hd).
      rewrite app_nil_r. split; [|done]. constructor; cbn; try done.
      * by apply Forall_app.
      * by rewrite fold_left_app.
      * by rewrite app_nil_r, Hc.
  - assert (rest1 = []) as -> by (apply He1; subst data'; by destruct (concat full2)).
    exists (full1 ++ full2), (x :: rest2). simpl in Hc1.
    assert (concat (full1 ++ full2) ++ x :: rest2 = (concat full ++ rest) ++ data) as Hc
      by (by rewrite concat_app, <- (assoc_L (++)), <- Hd).
    split; [|done]. constructor; cbn [md_h md_buf md_buf_len md_total_bits].
    + by apply Forall_app.
    + by rewrite fold_left_app.
    + by rewrite length_inserts.
    + done.
    + done.
    + apply take_list_inserts_0. lia.
    + by rewrite Hc.
Qed.

Lemma md_zero_spec from to buf :
  to <= length buf -> from <= to ->
  md_zero from to buf = take from buf ++ replicate (to - from) 0%Z ++ drop to buf.
Proof.
  intros Hl Hft. unfold md_zero.
  assert (forall n, from + n <= length buf ->
    for_range from n (fun i buf => <[i := 0%Z]> buf) buf =
    take from buf ++ replicate n 0%Z ++ drop (from + n) buf) as H.
  { induction n as [|n IH]; intros Hn.
    - rewrite Nat.add_0_r. simpl. by rewrite take_drop.
    - rewrite for_range_S, IH by lia. rewrite insert_app_r_alt; rewrite length_take; [|lia].
      rewrite insert_app_r_alt; rewrite length_replicate; [|lia].
      replace (from + n - Nat.min from (length buf) - n) with 0 by lia.
      destruct (drop (from + n) buf) as [|y t] eqn:E.
      { apply (f_equal length) in E. rewrite length_drop in E. simpl in E. lia. }
      simpl insert. assert (drop (from + S n) buf = t) as ->.
      { replace (from + S n) with (from + n + 1) by lia. rewrite <- drop_drop, E. done. }
      f_equal. rewrite replicate_S_end, <- (assoc_L (++)). done. }
  rewrite H by lia. by replace (from + (to - from)) with to by lia.
Qed.

Lemma list_inserts_end (data buf : list Z) (n : nat) :
  length buf = n + length data -> list_inserts n data buf = take n buf ++ data.
Proof.
  intros H. rewrite <- (take_ge (list_inserts n data buf) (n + length data))
    by (rewrite length_inserts; lia).
  apply list_inserts_prefix; [rewrite length_take; lia|done|lia].
Qed.

(** The zeros of the padding: the length field ends a block. *)
Lemma md_padding_zeros (full : list (list Z)) (rest : list Z) :
  Forall (fun b => length b = B) full -> length rest < B ->
  Z.to_nat ((Z.of_nat B - Z.of_nat L - 1 - zlen (concat full ++ rest)) mod Z.of_nat B) =
  if decide (B - L < length rest + 1) then (B - (length rest + 1)) + (B - L)
  else B - L - (length rest + 1).
Proof.
  intros Hf Hr.
  assert (zlen (concat full) = Z.of_nat B * zlen full)%Z as Hc.
  { clear -Hf. induction Hf as [|b full Hb _ IH]; [unfold zlen; simpl; lia|].
    simpl. zlen. rewrite IH. unfold zlen. rewrite Hb. lia. }
  rewrite zlen_app, Hc. unfold zlen at 2. case_decide as Hd.
  - replace (Z.of_nat B - Z.of_nat L - 1 - (Z.of_nat B * zlen full + Z.of_nat (length rest)))%Z
      with (Z.of_nat ((B - (length rest + 1)) + (B - L)) + (- zlen full - 1) * Z.of_nat B)%Z by lia.
    rewrite Z.mod_add, Z.mod_small by lia. lia.
  - replace (Z.of_nat B - Z.of_nat L - 1 - (Z.of_nat B * zlen full + Z.of_nat (length rest)))%Z
      with (Z.of_nat (B - L - (length rest + 1)) + (- zlen full) * Z.of_nat B)%Z by lia.
    rewrite Z.mod_add, Z.mod_small by lia. lia.
Qed.

Lemma md_finalize_abs s full rest :
  md_abs s full rest -> md_finalize s = md_hash (concat full ++ rest).
Proof.
  intros [Hf Hh Hb Hr Hs Ht Hn]. unfold md_finalize, md_hash, md_padding.
  rewrite Hr, Hn, Hh, md_padding_zeros, to_be_mod by done. f_equal.
  set (lenb := to_be L _). assert (length lenb = L) as Hlen by apply length_to_be.
  assert (<[length rest := 0x80%Z]> (md_buf s) = rest ++ 0x80%Z :: drop (length rest + 1) (md_buf s)) as ->.
  { rewrite <- (take_drop (length rest) (md_buf s)) at 1. rewrite Ht.
    rewrite insert_app_r_alt, Nat.sub_diag by lia. f_equal.
    destruct (drop (length rest) (md_buf s)) as [|y t] eqn:E.
    { apply (f_equal length) in E. rewrite length_drop in E. simpl in E. lia. }
    simpl. f_equal. by rewrite <- drop_drop, E. }
  set (tail := drop (length rest + 1) (md_buf s)).
  assert (length tail = B - (length rest + 1)) as Htail by (unfold tail; rewrite length_drop; lia).
  assert (forall k, rest ++ 0x80%Z :: k = (rest ++ [0x80%Z]) ++ k) as Hmid
    by (intros k; by rewrite <- (assoc_L (++))).
  assert (length ((rest ++ [128%Z]) ++ tail) = B) as HlB by (rewrite !length_app; simpl; lia).
  assert (length (rest ++ [128%Z]) = length rest + 1) as Hl1 by (rewrite length_app; done).
  rewrite <- (assoc_L (++) (concat full)), (Hmid tail), (Hmid (replicate _ _ ++ lenb)).
  assert (forall tl, chunks B (concat full ++ tl) = full ++ chunks B tl) as Hch.
  { intros tl. clear -Hf HL. induction Hf as [|b full Hb _ IH]; [done|]. simpl.
    rewrite <- (assoc_L (++)), chunks_app_full by (done || lia). by rewrite IH. }
  rewrite Hch, fold_left_app. set (h := fold_left process_block full iv).
  case_decide as Hd.
  - rewrite md_zero_spec by lia. rewrite (take_app_length' (rest ++ [128%Z]) tail), drop_ge, app_nil_r by lia.
    rewrite md_zero_spec by (rewrite ?length_app, ?length_replicate; simpl; lia).
    rewrite list_inserts_end; [|rewrite !length_app, length_replicate, length_drop, !length_app, length_replicate; simpl; lia].
    rewrite take_0. cbn [app]. rewrite Nat.sub_0_r, (take_app_length' (replicate _ _)) by (rewrite length_replicate; lia).
    rewrite replicate_add, <- (assoc_L (++) (replicate _ _)).
    rewrite (assoc_L (++) (rest ++ [128%Z]) (replicate (B - (length rest + 1)) 0%Z)).
    rewrite chunks_app_full; [|lia|rewrite length_app, length_replicate; lia].
    rewrite chunks_small; [done| |].
    + intros E. apply (f_equal length) in E. rewrite length_app, length_replicate, Hlen in E. simpl in E. lia.
    + rewrite length_app, length_replicate. lia.
  - rewrite md_zero_spec by lia. rewrite (take_app_length' (rest ++ [128%Z]) tail) by lia.
    rewrite list_inserts_end; [|rewrite !length_app, length_replicate, length_drop, !length_app; simpl; lia].
    rewrite (assoc_L (++) (rest ++ [128%Z])).
    rewrite (take_app_length' (_ ++ replicate _ _)) by (rewrite length_app, length_replicate; lia).
    rewrite (assoc_L (++) (rest ++ [128%Z])), chunks_small; [done| |].
    + intros E. apply (f_equal length) in E. rewrite !length_app in E. simpl in E. lia.
    + rewrite !length_app, length_replicate. simpl. lia.
Qed.

(** Feeding pieces one after the other hashes their concatenation. *)
Lemma md_incremental pieces :
  md_finalize (fold_left md_update pieces md_new) = md_hash (concat pieces).
Proof.
  assert (exists full rest, md_abs (fold_left md_update pieces md_new) full rest /\
    concat full ++ rest = concat pieces) as (full & rest & HA & <-); [|by apply md_finalize_abs].
  induction pieces as [|p ps IH] using rev_ind.
  - exists [], []. split; [apply md_new_abs|done].
  - destruct IH as (full & rest & HA & Hc). rewrite fold_left_app. simpl.
    destruct (md_update_abs _ _ _ p HA) as (full' & rest' & HA' & Hc').
    exists full', rest'. split; [done|]. rewrite Hc', Hc, concat_app. simpl. by rewrite app_nil_r.
Qed.
End md.

(** Keyroost-proto/src/sha1.rs, sha256.rs and sha512.rs: the compression functions, translated
    with their schedule array and working variables, and the three structs as instances of the
    hashing state. *)

Open Scope Z_scope.

(** [u32::from_be_bytes(block[i*wb..i*wb+wb])]. *)
Definition sched_word (wb : nat) (block : list Z) (i : nat) : Z :=
  from_be (slice block (i * wb) (i * wb + wb)).

(** The schedule: 16 words of the block, then [n] more by a recurrence. *)
Definition schedule (wb n : nat) (next : nat -> list Z -> Z) (block : list Z) : list Z :=
  let w := replicate (16 + n) 0 in
  let w := for_range 0 16 (fun i w => <[i := sched_word wb block i]> w) w in
  for_range 16 n (fun i w => <[i := next i w]> w) w.

Module Sha1.
Definition BLOCK_SIZE : nat := 64.

Definition IV : list Z := [ 0x67452301; 0xefcdab89; 0x98badcfe; 0x10325476; 0xc3d2e1f0 ].

Definition next_w (i : nat) (w : list Z) : Z :=
  rotl 32 (Z.lxor (Z.lxor (Z.lxor (w !!! (i - 3)%nat) (w !!! (i - 8)%nat)) (w !!! (i - 14)%nat))
             (w !!! (i - 16)%nat)) 1.

(** [a, b, c, d, e]. *)
Record vars := mkVars { va : Z; vb : Z; vc : Z; vd : Z; ve : Z }.

Definition round (w : list Z) (i : nat) (v : vars) : vars :=
  let '(mkVars a b c d e) := v in
  let '(f, k) :=
    if decide (i <= 19)%nat then (Z.lor (Z.land b c) (Z.land (wnot 32 b) d), 0x5a827999)
    else if decide (i <= 39)%nat then (Z.lxor (Z.lxor b c) d, 0x6ed9eba1)
    else if decide (i <= 59)%nat then
      (Z.lor (Z.lor (Z.land b c) (Z.land b d)) (Z.land c d), 0x8f1bbcdc)
    else (Z.lxor (Z.lxor b c) d, 0xca62c1d6) in
  let temp := wadd 32 (wadd 32 (wadd 32 (wadd 32 (rotl 32 a 5) f) e) k) (w !!! i) in
  mkVars temp a (rotl 32 b 30) c d.

Definition process_block (h block : list Z) : list Z :=
  let w := schedule 4 64 next_w block in
  let v := for_range 0 80 (round w) (mkVars (h !!! 0%nat) (h !!! 1%nat) (h !!! 2%nat) (h !!! 3%nat) (h !!! 4%nat)) in
  [ wadd 32 (h !!! 0%nat) (va v); wadd 32 (h !!! 1%nat) (vb v); wadd 32 (h !!! 2%nat) (vc v);
    wadd 32 (h !!! 3%nat) (vd v); wadd 32 (h !!! 4%nat) (ve v) ].

Definition new : md_state := md_new BLOCK_SIZE IV.
Definition update (s : md_state) (data : list Z) : md_state := md_update BLOCK_SIZE 8 process_block s data.
Definition finalize (s : md_state) : list Z := md_finalize BLOCK_SIZE 8 4 process_block s.
Definition sha1 (data : list Z) : list Z := finalize (update new data).

(** RFC 3174's hash of a whole message. *)
Definition spec (msg : list Z) : list Z := md_hash BLOCK_SIZE 8 4 IV process_block msg.

Example sha1_abc : sha1 (s2b "abc") =
  [0xa9; 0x99; 0x3e; 0x36; 0x47; 0x06; 0x81; 0x6a; 0xba; 0x3e;
   0x25; 0x71; 0x78; 0x50; 0xc2; 0x6c; 0x9c; 0xd0; 0xd8; 0x9d].
Proof. vm_compute. reflexivity. Qed.

Example two_blocks :
  sha1 (s2b "abcdbcdecdefdefgefghfghighijhijkijkljklmklmnlmnomnopnopq") =
  [0x84; 0x98; 0x3e; 0x44; 0x1c; 0x3b; 0xd2; 0x6e; 0xba; 0xae;
   0x4a; 0xa1; 0xf9; 0x51; 0x29; 0xe5; 0xe5; 0x46; 0x70; 0xf1].
Proof. vm_compute. reflexivity. Qed.
End Sha1.

(** The eight working variables of the SHA-2 family. *)
Record vars8 := mkVars8 { va : Z; vb : Z; vc : Z; vd : Z; ve : Z; vf : Z; vg : Z; vh : Z }.

Module Sha256.
Definition BLOCK_SIZE : nat := 64.

Definition K : list Z :=
  concat [
    [ 0x428a2f98; 0x71374491; 0xb5c0fbcf; 0xe9b5dba5 ];
    [ 0x3956c25b; 0x59f111f1; 0x923f82a4; 0xab1c5ed5 ];
    [ 0xd807aa98; 0x12835b01; 0x243185be; 0x550c7dc3 ];
    [ 0x72be5d74; 0x80deb1fe; 0x9bdc06a7; 0xc19bf174 ];
    [ 0xe49b69c1; 0xefbe4786; 0x0fc19dc6; 0x240ca1cc ];
    [ 0x2de92c6f; 0x4a7484aa; 0x5cb0a9dc; 0x76f988da ];
    [ 0x983e5152; 0xa831c66d; 0xb00327c8; 0xbf597fc7 ];
    [ 0xc6e00bf3; 0xd5a79147; 0x06ca6351; 0x14292967 ];
    [ 0x27b70a85; 0x2e1b2138; 0x4d2c6dfc; 0x53380d13 ];
    [ 0x650a7354; 0x766a0abb; 0x81c2c92e; 0x92722c85 ];
    [ 0xa2bfe8a1; 0xa81a664b; 0xc24b8b70; 0xc76c51a3 ];
    [ 0xd192e819; 0xd6990624; 0xf40e3585; 0x106aa070 ];
    [ 0x19a4c116; 0x1e376c08; 0x2748774c; 0x34b0bcb5 ];
    [ 0x391c0cb3; 0x4ed8aa4a; 0x5b9cca4f; 0x682e6ff3 ];
    [ 0x748f82ee; 0x78a5636f; 0x84c87814; 0x8cc70208 ];
    [ 0x90befffa; 0xa4506ceb; 0xbef9a3f7; 0xc67178f2 ] ].

Definition IV : list Z :=
  [ 0x6a09e667; 0xbb67ae85; 0x3c6ef372; 0xa54ff53a; 0x510e527f; 0x9b05688c; 0x1f83d9ab; 0x5be0cd19 ].

Definition next_w (i : nat) (w : list Z) : Z :=
  let w15 := w !!! (i - 15)%nat in
  let w2 := w !!! (i - 2)%nat in
  let s0 := Z.lxor (Z.lxor (rotr 32 w15 7) (rotr 32 w15 18)) (Z.shiftr w15 3) in
  let s1 := Z.lxor (Z.lxor (rotr 32 w2 17) (rotr 32 w2 19)) (Z.shiftr w2 10) in
  wadd 32 (wadd 32 (wadd 32 (w !!! (i - 16)%nat) s0) (w !!! (i - 7)%nat)) s1.

Definition round (w : list Z) (i : nat) (v : vars8) : vars8 :=
  let '(mkVars8 a b c d e f g h) := v in
  let big_s1 := Z.lxor (Z.lxor (rotr 32 e 6) (rotr 32 e 11)) (rotr 32 e 25) in
  let ch := Z.lxor (Z.land e f) (Z.land (wnot 32 e) g) in
  let t1 := wadd 32 (wadd 32 (wadd 32 (wadd 32 h big_s1) ch) (K !!! i)) (w !!! i) in
  let big_s0 := Z.lxor (Z.lxor (rotr 32 a 2) (rotr 32 a 13)) (rotr 32 a 22) in
  let maj := Z.lxor (Z.lxor (Z.land a b) (Z.land a c)) (Z.land b c) in
  let t2 := wadd 32 big_s0 maj in
  mkVars8 (wadd 32 t1 t2) a b c (wadd 32 d t1) e f g.

Definition process_block (h block : list Z) : list Z :=
  let w := schedule 4 48 next_w block in
  let v := for_range 0 64 (round w)
    (mkVars8 (h !!! 0%nat) (h !!! 1%nat) (h !!! 2%nat) (h !!! 3%nat)
             (h !!! 4%nat) (h !!! 5%nat) (h !!! 6%nat) (h !!! 7%nat)) in
  [ wadd 32 (h !!! 0%nat) (va v); wadd 32 (h !!! 1%nat) (vb v);
    wadd 32 (h !!! 2%nat) (vc v); wadd 32 (h !!! 3%nat) (vd v);
    wadd 32 (h !!! 4%nat) (ve v); wadd 32 (h !!! 5%nat) (vf v);
    wadd 32 (h !!! 6%nat) (vg v); wadd 32 (h !!! 7%nat) (vh v) ].

Definition new : md_state := md_new BLOCK_SIZE IV.
Definition update (s : md_state) (data : list Z) : md_state := md_update BLOCK_SIZE 8 process_block s data.
Definition finalize (s : md_state) : list Z := md_finalize BLOCK_SIZE 8 4 process_block s.
Definition sha256 (data : list Z) : list Z := finalize (update new data).

(** FIPS 180-4's SHA-256 of a whole message. *)
Definition spec (msg : list Z) : list Z := md_hash BLOCK_SIZE 8 4 IV process_block msg.

Example sha256_abc : sha256 (s2b "abc") =
  [ 0xba; 0x78; 0x16; 0xbf; 0x8f; 0x01; 0xcf; 0xea; 0x41; 0x41; 0x40; 0xde; 0x5d; 0xae; 0x22; 0x23;
    0xb0; 0x03; 0x61; 0xa3; 0x96; 0x17; 0x7a; 0x9c; 0xb4; 0x10; 0xff; 0x61; 0xf2; 0x00; 0x15; 0xad ].
Proof. vm_compute. reflexivity. Qed.
End Sha256.

Module Sha512.
Definition BLOCK_SIZE : nat := 128.

Definition K : list Z :=
  concat [
    [ 0x428a2f98d728ae22; 0x7137449123ef65cd; 0xb5c0fbcfec4d3b2f; 0xe9b5dba58189dbbc ];
    [ 0x3956c25bf348b538; 0x59f111f1b605d019; 0x923f82a4af194f9b; 0xab1c5ed5da6d8118 ];
    [ 0xd807aa98a3030242; 0x12835b0145706fbe; 0x243185be4ee4b28c; 0x550c7dc3d5ffb4e2 ];
    [ 0x72be5d74f27b896f; 0x80deb1fe3b1696b1; 0x9bdc06a725c71235; 0xc19bf174cf692694 ];
    [ 0xe49b69c19ef14ad2; 0xefbe4786384f25e3; 0x0fc19dc68b8cd5b5; 0x240ca1cc77ac9c65 ];
    [ 0x2de92c6f592b0275; 0x4a7484aa6ea6e483; 0x5cb0a9dcbd41fbd4; 0x76f988da831153b5 ];
    [ 0x983e5152ee66dfab; 0xa831c66d2db43210; 0xb00327c898fb213f; 0xbf597fc7beef0ee4 ];
    [ 0xc6e00bf33da88fc2; 0xd5a79147930aa725; 0x06ca6351e003826f; 0x142929670a0e6e70 ];
    [ 0x27b70a8546d22ffc; 0x2e1b21385c26c926; 0x4d2c6dfc5ac42aed; 0x53380d139d95b3df ];
    [ 0x650a73548baf63de; 0x766a0abb3c77b2a8; 0x81c2c92e47edaee6; 0x92722c851482353b ];
    [ 0xa2bfe8a14cf10364; 0xa81a664bbc423001; 0xc24b8b70d0f89791; 0xc76c51a30654be30 ];
    [ 0xd192e819d6ef5218; 0xd69906245565a910; 0xf40e35855771202a; 0x106aa07032bbd1b8 ];
    [ 0x19a4c116b8d2d0c8; 0x1e376c085141ab53; 0x2748774cdf8eeb99; 0x34b0bcb5e19b48a8 ];
    [ 0x391c0cb3c5c95a63; 0x4ed8aa4ae3418acb; 0x5b9cca4f7763e373; 0x682e6ff3d6b2b8a3 ];
    [ 0x748f82ee5defb2fc; 0x78a5636f43172f60; 0x84c87814a1f0ab72; 0x8cc702081a6439ec ];
    [ 0x90befffa23631e28; 0xa4506cebde82bde9; 0xbef9a3f7b2c67915; 0xc67178f2e372532b ];
    [ 0xca273eceea26619c; 0xd186b8c721c0c207; 0xeada7dd6cde0eb1e; 0xf57d4f7fee6ed178 ];
    [ 0x06f067aa72176fba; 0x0a637dc5a2c898a6; 0x113f9804bef90dae; 0x1b710b35131c471b ];
    [ 0x28db77f523047d84; 0x32caab7b40c72493; 0x3c9ebe0a15c9bebc; 0x431d67c49c100d4c ];
    [ 0x4cc5d4becb3e42b6; 0x597f299cfc657e2a; 0x5fcb6fab3ad6faec; 0x6c44198c4a475817 ] ].

Definition H384 : list Z :=
  [ 0xcbbb9d5dc1059ed8; 0x629a292a367cd507; 0x9159015a3070dd17; 0x152fecd8f70e5939;
    0x67332667ffc00b31; 0x8eb44a8768581511; 0xdb0c2e0d64f98fa7; 0x47b5481dbefa4fa4 ].

Definition H512 : list Z :=
  [ 0x6a09e667f3bcc908; 0xbb67ae8584caa73b; 0x3c6ef372fe94f82b; 0xa54ff53a5f1d36f1;
    0x510e527fade682d1; 0x9b05688c2b3e6c1f; 0x1f83d9abfb41bd6b; 0x5be0cd19137e2179 ].

Definition next_w (i : nat) (w : list Z) : Z :=
  let w15 := w !!! (i - 15)%nat in
  let w2 := w !!! (i - 2)%nat in
  let s0 := Z.lxor (Z.lxor (rotr 64 w15 1) (rotr 64 w15 8)) (Z.shiftr w15 7) in
  let s1 := Z.lxor (Z.lxor (rotr 64 w2 19) (rotr 64 w2 61)) (Z.shiftr w2 6) in
  wadd 64 (wadd 64 (wadd 64 (w !!! (i - 16)%nat) s0) (w !!! (i - 7)%nat)) s1.

Definition round (w : list Z) (i : nat) (v : vars8) : vars8 :=
  let '(mkVars8 a b c d e f g h) := v in
  let big_s1 := Z.lxor (Z.lxor (rotr 64 e 14) (rotr 64 e 18)) (rotr 64 e 41) in
  let ch := Z.lxor (Z.land e f) (Z.land (wnot 64 e) g) in
  let t1 := wadd 64 (wadd 64 (wadd 64 (wadd 64 h big_s1) ch) (K !!! i)) (w !!! i) in
  let big_s0 := Z.lxor (Z.lxor (rotr 64 a 28) (rotr 64 a 34)) (rotr 64 a 39) in
  let maj := Z.lxor (Z.lxor (Z.land a b) (Z.land a c)) (Z.land b c) in
  let t2 := wadd 64 big_s0 maj in
  mkVars8 (wadd 64 t1 t2) a b c (wadd 64 d t1) e f g.

Definition process_block (h block : list Z) : list Z :=
  let w := schedule 8 64 next_w block in
  let v := for_range 0 80 (round w)
    (mkVars8 (h !!! 0%nat) (h !!! 1%nat) (h !!! 2%nat) (h !!! 3%nat)
             (h !!! 4%nat) (h !!! 5%nat) (h !!! 6%nat) (h !!! 7%nat)) in
  [ wadd 64 (h !!! 0%nat) (va v); wadd 64 (h !!! 1%nat) (vb v);
    wadd 64 (h !!! 2%nat) (vc v); wadd 64 (h !!! 3%nat) (vd v);
    wadd 64 (h !!! 4%nat) (ve v); wadd 64 (h !!! 5%nat) (vf v);
    wadd 64 (h !!! 6%nat) (vg v); wadd 64 (h !!! 7%nat) (vh v) ].

(** [Core], over the initial words. *)
Definition core_new (iv : list Z) : md_state := md_new BLOCK_SIZE iv.
Definition core_update (s : md_state) (data : list Z) : md_state := md_update BLOCK_SIZE 16 process_block s data.
Definition core_finalize (s : md_state) : list Z := md_finalize BLOCK_SIZE 16 8 process_block s.

(** [Sha384] and [Sha512]. *)
Definition sha384_new : md_state := core_new H384.
Definition sha384_finalize (s : md_state) : list Z := take 48 (core_finalize s).
Definition sha512_new : md_state := core_new H512.

Definition sha384 (data : list Z) : list Z := sha384_finalize (core_update sha384_new data).
Definition sha512 (data : list Z) : list Z := core_finalize (core_update sha512_new data).

(** FIPS 180-4's SHA-384 and SHA-512 of a whole message. *)
Definition spec384 (msg : list Z) : list Z := take 48 (md_hash BLOCK_SIZE 16 8 H384 process_block msg).
Definition spec512 (msg : list Z) : list Z := md_hash BLOCK_SIZE 16 8 H512 process_block msg.

Example abc384 : sha384 (s2b "abc") =
  [ 0xcb; 0x00; 0x75; 0x3f; 0x45; 0xa3; 0x5e; 0x8b; 0xb5; 0xa0; 0x3d; 0x69; 0x9a; 0xc6; 0x50; 0x07;
    0x27; 0x2c; 0x32; 0xab; 0x0e; 0xde; 0xd1; 0x63; 0x1a; 0x8b; 0x60; 0x5a; 0x43; 0xff; 0x5b; 0xed;
    0x80; 0x86; 0x07; 0x2b; 0xa1; 0xe7; 0xcc; 0x23; 0x58; 0xba; 0xec; 0xa1; 0x34; 0xc8; 0x25; 0xa7 ].
Proof. vm_compute. reflexivity. Qed.

Example abc512 : sha512 (s2b "abc") =
  [ 0xdd; 0xaf; 0x35; 0xa1; 0x93; 0x61; 0x7a; 0xba; 0xcc; 0x41; 0x73; 0x49; 0xae; 0x20; 0x41; 0x31;
    0x12; 0xe6; 0xfa; 0x4e; 0x89; 0xa9; 0x7e; 0xa2; 0x0a; 0x9e; 0xee; 0xe6; 0x4b; 0x55; 0xd3; 0x9a;
    0x21; 0x92; 0x99; 0x2a; 0x27; 0x4f; 0xc1; 0xa8; 0x36; 0xba; 0x3c; 0x23; 0xa3; 0xfe; 0xeb; 0xbd;
    0x45; 0x4d; 0x44; 0x23; 0x64; 0x3c; 0xe8; 0x0e; 0x2a; 0x9a; 0xc9; 0x4f; 0xa5; 0x4c; 0xa4; 0x9f ].
Proof. vm_compute. reflexivity. Qed.
End Sha512.

(** * One-shot hashes *)

Lemma sha1_spec msg : Sha1.sha1 msg = Sha1.spec msg.
Proof.
  pose proof (md_incremental Sha1.BLOCK_SIZE 8 4 Sha1.IV Sha1.process_block
    ltac:(unfold Sha1.BLOCK_SIZE; lia) [msg]) as H.
  simpl concat in H. by rewrite app_nil_r in H.
Qed.

Lemma sha256_spec msg : Sha256.sha256 msg = Sha256.spec msg.
Proof.
  pose proof (md_incremental Sha256.BLOCK_SIZE 8 4 Sha256.IV Sha256.process_block
    ltac:(unfold Sha256.BLOCK_SIZE; lia) [msg]) as H.
  simpl concat in H. by rewrite app_nil_r in H.
Qed.

Lemma sha1_out msg : Bytes (Sha1.sha1 msg) /\ length (Sha1.sha1 msg) = 20%nat.
Proof. exact (md_finalize_out Sha1.BLOCK_SIZE 8 4 Sha1.process_block _ 5%nat (fun _ _ => eq_refl)). Qed.

Lemma sha256_out msg : Bytes (Sha256.sha256 msg) /\ length (Sha256.sha256 msg) = 32%nat.
Proof. exact (md_finalize_out Sha256.BLOCK_SIZE 8 4 Sha256.process_block _ 8%nat (fun _ _ => eq_refl)). Qed.

(** * Properties *)

(** Hashing is incremental. Whatever pieces a message is fed in (empty,
    partial, spanning several blocks), [update] and [finalize] of SHA-1,
    SHA-256, SHA-384 and SHA-512 give the hash of the concatenation: the
    compression function folded over the blocks of the message padded with
    0x80, zeros and its bit length (modulo 2^64, resp. 2^128). *)
Theorem sha_incremental (pieces : list (list Z)) :
  Sha1.finalize (fold_left Sha1.update pieces Sha1.new) = Sha1.spec (concat pieces) /\
  Sha256.finalize (fold_left Sha256.update pieces Sha256.new) = Sha256.spec (concat pieces) /\
  Sha512.sha384_finalize (fold_left Sha512.core_update pieces Sha512.sha384_new) =
    Sha512.spec384 (concat pieces) /\
  Sha512.core_finalize (fold_left Sha512.core_update pieces Sha512.sha512_new) =
    Sha512.spec512 (concat pieces).
Proof.
  split_and!.
  - apply md_incremental. unfold Sha1.BLOCK_SIZE. lia.
  - apply md_incremental. unfold Sha256.BLOCK_SIZE. lia.
  - unfold Sha512.sha384_finalize, Sha512.spec384. f_equal.
    apply md_incremental. unfold Sha512.BLOCK_SIZE. lia.
  - apply md_incremental. unfold Sha512.BLOCK_SIZE. lia.
Qed.
