(* ===== verification/Keyring.v ===== *)
(** keyroost-keyring/src/lib.rs and fingerprint.rs, the registry in memory:
    names and their rules, canonical serials, salted fingerprints, and every
    operation on the records. Its files are left out. Then what the
    registry promises. *)
From stdpp Require Import relations.
From S2P Require Export Sha Sort Text.

(** The two Unicode tables of the standard library the sources consult:
    [str::to_lowercase] and [char::is_alphabetic]. *)
Class Unicode := {
  to_lowercase : list Z -> list Z;
  is_alphabetic : Z -> bool;
}.

(** The tables on ASCII text, for concrete runs. *)
Definition ascii_unicode : Unicode := {|
  to_lowercase := to_ascii_lowercase; is_alphabetic := fun c => between 65 90 c || between 97 122 c |}.

(** * Names *)

(** [char::is_control]: the general category Cc. *)
Definition is_control (c : Z) : bool := between 0 0x1F c || between 0x7F 0x9F c.

Definition is_spoofing_char (c : Z) : bool :=
  is_control c ||
  ((c =? 0x00AD) || (c =? 0x061C) || (c =? 0x180E) || between 0x200B 0x200F c ||
   (c =? 0x2028) || (c =? 0x2029) || between 0x202A 0x202E c || between 0x2060 0x2064 c ||
   between 0x2066 0x2069 c || (c =? 0xFEFF) || between 0xE0000 0xE007F c).

Definition strip_control_chars (s : list Z) : list Z :=
  if existsb is_spoofing_char (chars s)
  then utf8_encode (List.filter (fun c => negb (is_spoofing_char c)) (chars s))
  else s.

Inductive KeyringError :=
  | EIo | EParse | NoConfigDir | DuplicateName (n : list Z) | InvalidName (n : list Z)
  | MalformedSalt | NoSerial | Unconverted | NewerFormat (v : Z) | Damaged (detail : list Z).

Definition validate_name (name : list Z) : result KeyringError unit :=
  let trimmed := trim name in
  let ok := negb (bool_decide (trimmed = [])) && (zlen (chars name) <=? 64) &&
            negb (existsb is_spoofing_char (chars name)) in
  if ok then Ok tt else Err (InvalidName (strip_control_chars name)).

(** * Fingerprints *)

Definition FP_DOMAIN : list Z := s2b "keyroost key fingerprint v1" ++ [0].
Definition FP_PREFIX : list Z := s2b "v1:".
Definition BLOCK : nat := 64.

Definition hmac_sha256 (key msg : list Z) : list Z :=
  let block :=
    if Z.of_nat BLOCK <? zlen key then Sha256.sha256 key ++ replicate 32 0
    else key ++ replicate (BLOCK - length key) 0 in
  let ipad := zip_with Z.lxor (replicate BLOCK 0x36) block in
  let opad := zip_with Z.lxor (replicate BLOCK 0x5C) block in
  let inner := Sha256.finalize (Sha256.update (Sha256.update Sha256.new ipad) msg) in
  Sha256.finalize (Sha256.update (Sha256.update Sha256.new opad) inner).

Definition hex_digit (n : Z) : Z := if n <? 10 then 48 + n else 87 + n.
Definition hex (bytes : list Z) : list Z :=
  flat_map (fun b => [hex_digit (Z.shiftr b 4); hex_digit (Z.land b 0x0F)]) bytes.

(** [(c as char).to_digit(16)]. *)
Definition nibble (c : Z) : option Z :=
  if between 48 57 c then Some (c - 48)
  else if between 97 102 c then Some (c - 87)
  else if between 65 70 c then Some (c - 55) else None.
Fixpoint unhex_pairs (raw : list Z) : option (list Z) :=
  match raw with
  | a :: b :: r =>
      x ← nibble a; y ← nibble b; rest ← unhex_pairs r;
      Some (Z.lor (Z.shiftl x 4) y :: rest)
  | _ => Some []
  end.
Definition unhex_32 (raw : list Z) : option (list Z) :=
  if zlen raw =? 64 then unhex_pairs raw else None.

Section keyring.
Context `{Unicode}.

Definition canonical_serial (serial : list Z) : list Z := to_lowercase (trim (strip_control_chars serial)).
Definition fingerprint (salt serial : list Z) : list Z :=
  FP_PREFIX ++ hex (hmac_sha256 salt (FP_DOMAIN ++ canonical_serial serial)).
End keyring.

(** * The registry *)

Inductive IdSource := Usb | Ccid.
Inductive NameStore := Computer | OnKey.
#[export] Instance NameStore_eq_dec : EqDecision NameStore.
Proof. solve_decision. Defined.

Record KeyRecord := mkRecord {
  r_name : list Z; r_fingerprint : option (list Z); r_stored : NameStore; r_source : IdSource;
  r_vendor : option (list Z); r_aaguid : option (list Z); r_note : option (list Z) }.
Record RecordMeta := mkMeta { m_source : IdSource; m_vendor : option (list Z) }.

Inductive Origin := Fresh | V2 | ConvertedFromV1 (backup_pending : bool).
#[export] Instance Origin_eq_dec : EqDecision Origin.
Proof. solve_decision. Defined.
Record LoadReport := mkReport { lr_converted : Z; lr_persisted : bool }.

Record Keyring := mkKeyring {
  keys : list KeyRecord; salt : option (list Z); salt_persisted : bool;
  origin : Origin; report : option LoadReport }.
(** [Keyring::default()]. *)
Definition empty_keyring : Keyring := mkKeyring [] None false Fresh None.
Definition with_keys (k : Keyring) (l : list KeyRecord) : Keyring :=
  mkKeyring l (salt k) (salt_persisted k) (origin k) (report k).

Definition sanitize_record (r : KeyRecord) : KeyRecord :=
  mkRecord (strip_control_chars (r_name r)) (r_fingerprint r) (r_stored r) (r_source r)
    (strip_control_chars <$> r_vendor r) (strip_control_chars <$> r_aaguid r) (strip_control_chars <$> r_note r).

(** [generate_salt]: [rng] is what the operating system's random source answers,
    32 bytes or a failure. *)
Definition generate_salt (rng : option (list Z)) : result KeyringError (list Z) := ok_or EIo rng.
Definition ensure_salt (rng : option (list Z)) (k : Keyring) : result KeyringError (list Z * Keyring) :=
  match salt k with
  | Some s => Ok (s, k)
  | None => s ← generate_salt rng; Ok (s, mkKeyring (keys k) (Some s) false (origin k) (report k))
  end.

Definition is_of (r : KeyRecord) (fp : option (list Z)) : bool :=
  match fp with Some _ => bool_decide (r_fingerprint r = fp) | None => false end.

Definition holder (k : Keyring) (name : list Z) : option KeyRecord :=
  List.find (fun r => bool_decide (r_name r = name)) (keys k).

Section keyring_ops.
Context `{Unicode}.

Definition fingerprint_of (k : Keyring) (serial : list Z) : option (list Z) :=
  if bool_decide (canonical_serial serial = []) then None else (fun s => fingerprint s serial) <$> salt k.

Definition local_name_for (k : Keyring) (serial : list Z) : option (list Z) :=
  let fp := fingerprint_of k serial in
  r_name <$> List.find (fun r => bool_decide (r_stored r = Computer) && is_of r fp) (keys k).

Definition records_for (k : Keyring) (serial : list Z) : list KeyRecord :=
  List.filter (fun r => is_of r (fingerprint_of k serial)) (keys k).

(** Whether [set_name] takes [r] out: the key's other record of this store, or of
    this name. *)
Definition replaced (fp : option (list Z)) (store : NameStore) (name : list Z) (r : KeyRecord) : bool :=
  is_of r fp && (bool_decide (store = OnKey) || bool_decide (r_stored r = Computer) || bool_decide (r_name r = name)).

(** [keys.insert(i, record)] or [keys.push(record)]. *)
Definition put_at (at_ : option nat) (record : KeyRecord) (l : list KeyRecord) : list KeyRecord :=
  match at_ with Some i => take i l ++ record :: drop i l | None => l ++ [record] end.

Definition set_name (rng : option (list Z)) (serial name : list Z) (store : NameStore) (meta : RecordMeta)
    (k : Keyring) : result KeyringError unit * Keyring :=
  match validate_name name with Err e => (Err e, k) | Ok _ =>
  if bool_decide (canonical_serial serial = []) then (Err NoSerial, k) else
  match ensure_salt rng k with Err e => (Err e, k) | Ok (s, k) =>
  let fp := Some (fingerprint s serial) in
  if match holder k name with Some h => negb (is_of h fp) | None => false end then (Err (DuplicateName name), k) else
  let record := sanitize_record (mkRecord name fp store (m_source meta) (m_vendor meta) None None) in
  let at_ := position (replaced fp store name) (keys k) in
  let kept := List.filter (fun r => negb (replaced fp store name r)) (keys k) in
  (Ok tt, with_keys k (put_at at_ record kept))
  end end.

Definition record_first_seen (rng : option (list Z)) (serial name : list Z) (k : Keyring) : bool * Keyring :=
  if negb (is_ok (validate_name name)) || bool_decide (canonical_serial serial = []) ||
     bool_decide (is_Some (holder k name)) then (false, k) else
  match ensure_salt rng k with Err _ => (false, k) | Ok (s, k) =>
  (true, with_keys k (keys k ++ [mkRecord name (Some (fingerprint s serial)) OnKey Usb None None None]))
  end.

Definition drop_stale_key_records (serial current : list Z) (k : Keyring) : Z * Keyring :=
  let fp := fingerprint_of k serial in
  let kept := List.filter (fun r => negb (is_of r fp && bool_decide (r_stored r = OnKey) &&
                                          negb (bool_decide (r_name r = current)))) (keys k) in
  (zlen (keys k) - zlen kept, with_keys k kept).

Definition clear_key (serial : list Z) (k : Keyring) : list KeyRecord * Keyring :=
  let fp := fingerprint_of k serial in
  (List.filter (fun r => is_of r fp) (keys k), with_keys k (List.filter (fun r => negb (is_of r fp)) (keys k))).

Definition remove (name : list Z) (k : Keyring) : option KeyRecord * Keyring :=
  match position (fun r => bool_decide (r_name r = name)) (keys k) with
  | None => (None, k)
  | Some i => (keys k !! i, with_keys k (take i (keys k) ++ drop (S i) (keys k)))
  end.
End keyring_ops.

(** * Names stay unique *)

Lemma strip_control_chars_id s : existsb is_spoofing_char (chars s) = false -> strip_control_chars s = s.
Proof. intros Hs. unfold strip_control_chars. by rewrite Hs. Qed.

Lemma validate_name_Ok s : validate_name s = Ok tt ->
  trim s <> [] /\ zlen (chars s) <= 64 /\ existsb is_spoofing_char (chars s) = false.
Proof.
  unfold validate_name. destruct (_ && _) eqn:Hv; [|done]. intros _. bools. split_and!; [by eapply bool_decide_eq_false_1|lia|done].
Qed.
Lemma validate_name_is_ok s : is_ok (validate_name s) = true -> validate_name s = Ok tt.
Proof. by destruct (validate_name s) as [[]|]. Qed.

Lemma holder_None k name : holder k name = None <-> name ∉ r_name <$> keys k.
Proof.
  unfold holder. induction (keys k) as [|r l IH]; [split; [intros _ Hn; by apply elem_of_nil in Hn|done]|]. cbn [List.find].
  rewrite fmap_cons, not_elem_of_cons, <- IH. case_bool_decide as Hr; split.
  - done.
  - intros [Hn _]. by destruct Hn.
  - intros Hf. split; [intros ->; by destruct Hr|done].
  - by intros [_ Hf].
Qed.
Lemma holder_Some k name h : holder k name = Some h -> h ∈ keys k /\ r_name h = name.
Proof. intros [Hin Hn]%find_some. case_bool_decide; [|done]. by rewrite list_elem_of_In. Qed.

Lemma names_of_filter f (l : list KeyRecord) n : n ∈ r_name <$> List.filter f l -> n ∈ r_name <$> l.
Proof. induction l as [|r l IH]; [done|]. cbn [List.filter]. destruct (f r); rewrite ?fmap_cons, !elem_of_cons; tauto. Qed.
Lemma unique_filter f (l : list KeyRecord) : NoDup (r_name <$> l) -> NoDup (r_name <$> List.filter f l).
Proof.
  induction l as [|r l IH]; [done|]. rewrite fmap_cons. intros [Hn Hl]%list.NoDup_cons. cbn [List.filter].
  destruct (f r); [|by apply IH]. rewrite fmap_cons. apply list.NoDup_cons. split; [|by apply IH].
  by intros ?%names_of_filter.
Qed.

(** The new record and the ones kept, in some order. *)
Lemma put_at_perm at_ r l : put_at at_ r l ≡ₚ r :: l.
Proof.
  destruct at_ as [i|]; simpl; [|symmetry; apply Permutation_cons_append].
  rewrite <- Permutation_middle. by rewrite take_drop.
Qed.
Lemma put_at_filter f at_ r l : f r = false -> List.filter f (put_at at_ r l) = List.filter f l.
Proof.
  intros Hr. destruct at_ as [i|]; simpl; rewrite List.filter_app; cbn [List.filter]; rewrite Hr; [|by rewrite app_nil_r].
  by rewrite <- List.filter_app, take_drop.
Qed.
Lemma position_lt {A} (f : A -> bool) l i :
  position f l = Some i -> exists x, l !! i = Some x /\ f x = true /\ List.filter (fun y => negb (f y)) (take i l) = take i l.
Proof.
  revert i. induction l as [|x l IH]; intros i; [done|]. simpl. destruct (f x) eqn:Hx.
  - intros [= <-]. by exists x.
  - destruct (position f l) as [j|]; [|done]. intros [= <-]. destruct (IH j eq_refl) as (y & Hy & Hf & Ht).
    exists y. split_and!; [done..|]. cbn [take List.filter]. by rewrite Hx, Ht.
Qed.

Section keyring_facts.
Context `{Unicode}.

Lemma ensure_salt_keys rng k s k' : ensure_salt rng k = Ok (s, k') -> keys k' = keys k /\ salt k' = Some s.
Proof.
  unfold ensure_salt. destruct (salt k) eqn:Hs; [by intros [= <- <-]|]. intros Hr. inv_bind Hr.
  by injection Hr as <- <-.
Qed.

(** What a successful [set_name] did. *)
Lemma set_name_run rng serial name store meta k k' :
  set_name rng serial name store meta k = (Ok tt, k') ->
  exists s k1 r at_, ensure_salt rng k = Ok (s, k1) /\ salt k' = Some s /\
    let fp := Some (fingerprint s serial) in
    r = mkRecord name fp store (m_source meta) (strip_control_chars <$> m_vendor meta) None None /\
    at_ = position (replaced fp store name) (keys k) /\
    keys k' = put_at at_ r (List.filter (fun r => negb (replaced fp store name r)) (keys k)) /\
    canonical_serial serial <> [] /\
    forall h, holder k name = Some h -> is_of h fp = true.
Proof.
  unfold set_name. intros Hs. destruct (validate_name name) as [[]|] eqn:Hv; [|done].
  apply validate_name_Ok in Hv as (_ & _ & Hclean). case_bool_decide as Hc; [done|].
  destruct (ensure_salt rng k) as [[s k1]|] eqn:He; [|done].
  pose proof (ensure_salt_keys _ _ _ _ He) as [Hk Hsalt].
  assert (holder k1 name = holder k name) as Hh by (unfold holder; by rewrite Hk). rewrite Hh in Hs.
  destruct (match holder k name with Some h => _ | None => _ end) eqn:Hdup; [done|]. injection Hs as <-.
  eexists s, k1, _, _. split; [done|]. split; [done|]. cbn zeta.
  split; [reflexivity|]. split; [reflexivity|]. split_and!.
  - cbn [with_keys keys]. rewrite Hk. unfold sanitize_record. cbn -[replaced put_at position]. by rewrite strip_control_chars_id.
  - done.
  - intros h Hname. rewrite Hname in Hdup. by apply negb_false_iff in Hdup.
Qed.

Definition unique_names (k : Keyring) : Prop := NoDup (r_name <$> keys k).

(** The registry's operations, as steps. *)
Inductive ring_step : Keyring -> Keyring -> Prop :=
  | step_set_name rng serial name store meta k : ring_step k (set_name rng serial name store meta k).2
  | step_first_seen rng serial name k : ring_step k (record_first_seen rng serial name k).2
  | step_drop_stale serial current k : ring_step k (drop_stale_key_records serial current k).2
  | step_clear serial k : ring_step k (clear_key serial k).2
  | step_remove name k : ring_step k (remove name k).2.

Lemma set_name_unique rng serial name store meta k :
  unique_names k -> unique_names (set_name rng serial name store meta k).2.
Proof.
  intros Hu. destruct (set_name rng serial name store meta k) as [[[]|e] k'] eqn:Hs; simpl.
  - apply set_name_run in Hs as (s & k1 & r & at_ & _ & _ & -> & -> & Hk & _ & Hh). unfold unique_names.
    rewrite Hk, put_at_perm, fmap_cons. apply list.NoDup_cons. split; [|by apply unique_filter].
    cbn [r_name]. intros (r & Hr & Hin%list_elem_of_In%List.filter_In)%list_elem_of_fmap. destruct Hin as [Hin Hn].
    assert (is_Some (holder k name)) as [h Hho].
    { apply not_eq_None_Some. rewrite holder_None. intros Hno. apply Hno. rewrite Hr. apply list_elem_of_fmap_2.
      by apply list_elem_of_In. }
    pose proof (Hh _ Hho) as Hof. apply holder_Some in Hho as [Hin' Hn'].
    assert (h = r) as ->.
    { apply list_elem_of_In in Hin. apply list_elem_of_lookup in Hin as [i Hi], Hin' as [j Hj].
      assert (j = i) as ->; [|congruence]. eapply (NoDup_lookup _ _ _ name Hu); rewrite list_lookup_fmap, ?Hi, ?Hj; simpl; congruence. }
    unfold replaced in Hn. rewrite Hof, (bool_decide_eq_true_2 (r_name r = name)), orb_true_r in Hn by done. done.
  - revert Hs. unfold set_name. destruct (validate_name name); [|by intros [= _ <-]].
    case_bool_decide; [by intros [= _ <-]|]. destruct (ensure_salt rng k) as [[s k1]|] eqn:He; [|by intros [= _ <-]].
    apply ensure_salt_keys in He as [He _]. case_match; [|done]. intros [= _ <-]. unfold unique_names. by rewrite He.
Qed.

Lemma ring_step_unique k k' : ring_step k k' -> unique_names k -> unique_names k'.
Proof.
  intros Hs Hu. destruct Hs as [rng serial name store meta k|rng serial name k|serial current k|serial k|name k].
  - by apply set_name_unique.
  - unfold record_first_seen. destruct (_ || _) eqn:E; [done|]. bools.
    destruct (ensure_salt rng k) as [[s k1]|] eqn:He; [|done]. apply ensure_salt_keys in He as [He _].
    unfold unique_names. cbn [snd with_keys keys]. rewrite He, fmap_app. apply list.NoDup_app.
    split_and!; [done| |apply NoDup_singleton].
    intros n Hn ->%list_elem_of_singleton. cbn [r_name] in Hn. revert Hn. apply holder_None. apply eq_None_not_Some. by eapply bool_decide_eq_false_1.
  - by apply unique_filter.
  - by apply unique_filter.
  - unfold remove. destruct (position _ _) as [i|]; [|done]. unfold unique_names in *. cbn [snd with_keys keys].
    rewrite <- (take_drop i (keys k)) in Hu at 1. rewrite fmap_app in Hu |- *.
    apply list.NoDup_app in Hu as (Ha & Hd & Hb). destruct (drop i (keys k)) as [|r rest] eqn:Hdr.
    { assert (drop (S i) (keys k) = []) as ->; [|by rewrite app_nil_r]. apply (f_equal (drop 1)) in Hdr.
      by rewrite drop_drop, Nat.add_1_r in Hdr. }
    apply (f_equal (drop 1)) in Hdr. rewrite drop_drop, Nat.add_1_r in Hdr. rewrite Hdr. cbn [drop].
    rewrite fmap_cons in Hd, Hb. apply list.NoDup_cons in Hb as [_ Hb]. apply list.NoDup_app. split_and!; [done| |done].
    intros n Hn Hn'. apply (Hd n Hn). by right.
Qed.
End keyring_facts.

(** What the registry of keyroost-keyring/src/lib.rs promises: names stay unique whatever is
    done to it, and naming a key puts one record of that name on that key and leaves every other
    key's records alone. *)

Section keyring_spec.
Context `{Unicode}.

(** Names are unique in the registry, after any sequence of its operations on any
    serials and names, whether or not they succeed. *)
Theorem keyring_names_unique k k' : rtc ring_step k k' -> unique_names k -> unique_names k'.
Proof. induction 1 as [|k k1 k' Hs _ IH]; [done|]. intros Hu. apply IH. by eapply ring_step_unique. Qed.

Lemma replaced_is_of fp store name r : replaced fp store name r = true -> is_of r fp = true.
Proof. unfold replaced. by intros [? _]%andb_true_iff. Qed.

Lemma filter_none_of {A} (f g : A -> bool) l :
  (forall x, f x = true -> g x = false) -> List.filter f (List.filter (fun x => negb (g x)) l) = List.filter f l.
Proof.
  intros Hfg. induction l as [|x l IH]; [done|]. cbn [List.filter]. destruct (g x) eqn:Hg; cbn [negb List.filter].
  - destruct (f x) eqn:Hf; [rewrite (Hfg x Hf) in Hg; done|done].
  - by rewrite IH.
Qed.

Lemma filter_all_gone {A} (f g : A -> bool) l :
  (forall x, f x = true -> g x = true) -> List.filter f (List.filter (fun x => negb (g x)) l) = [].
Proof.
  intros Hfg. induction l as [|x l IH]; [done|]. cbn [List.filter]. destruct (g x) eqn:Hg; cbn [negb List.filter]; [done|].
  destruct (f x) eqn:Hf; [rewrite (Hfg x Hf) in Hg; done|done].
Qed.

Lemma put_at_one f at_ r l : f r = true -> List.filter f l = [] -> List.filter f (put_at at_ r l) = [r].
Proof.
  intros Hr Hl. apply Permutation_singleton_r.
  assert (Hp : forall a b : list KeyRecord, a ≡ₚ b -> List.filter f a ≡ₚ List.filter f b).
  { induction 1; cbn [List.filter]; [done|by destruct (f x); [constructor|]|destruct (f x), (f y); auto; apply perm_swap|by etrans]. }
  rewrite (Hp _ _ (put_at_perm at_ r l)). cbn [List.filter]. by rewrite Hr, Hl.
Qed.

Lemma find_hd_filter {A} (f : A -> bool) l : List.find f l = hd_error (List.filter f l).
Proof. induction l as [|x l IH]; [done|]. cbn [List.find List.filter]. by destruct (f x). Qed.

(** Why [set_name] fails. *)
Definition refused (rng : option (list Z)) (serial name : list Z) (k k' : Keyring) (e : KeyringError) : Prop :=
  match e with
  | InvalidName _ => validate_name name <> Ok tt
  | NoSerial => canonical_serial serial = []
  | EIo => salt k = None /\ rng = None
  | DuplicateName n => n = name /\ exists s h, salt k' = Some s /\ holder k name = Some h /\ is_of h (Some (fingerprint s serial)) = false
  | _ => False
  end.

Lemma set_name_fails rng serial name store meta k e k' :
  set_name rng serial name store meta k = (Err e, k') -> keys k' = keys k /\ refused rng serial name k k' e.
Proof.
  unfold set_name. destruct (validate_name name) as [[]|e0] eqn:Hv.
  2: { intros [= <- <-]. split; [done|]. pose proof Hv as Hi. unfold validate_name in Hi.
       destruct (_ && _); [done|]. injection Hi as <-. unfold refused. congruence. }
  case_bool_decide as Hc; [intros [= <- <-]; by split|].
  destruct (ensure_salt rng k) as [[s k1]|e1] eqn:He.
  - pose proof (ensure_salt_keys _ _ _ _ He) as [Hk1 Hs1].
    destruct (holder k1 name) as [h|] eqn:Hh; [|done]. destruct (is_of h _) eqn:Hof; [done|]. intros [= <- <-].
    split; [done|]. split; [done|]. exists s, h. split_and!; [done| |done]. unfold holder in *. by rewrite <- Hk1.
  - intros [= <- <-]. split; [done|]. revert He. unfold ensure_salt, generate_salt.
    destruct (salt k) eqn:Hk; [done|]. destruct rng; [done|]. by intros [= <-].
Qed.

(** Naming a key. When [set_name] succeeds the name is held by one record, with the
    key's fingerprint and in the store asked for; a name put on the key is then the
    key's only record, a computer name is the one this computer shows for it; every
    other key keeps its records, in order; and names stay unique. When it fails no
    record changes, and it says why: the name is not valid, the key has no usable
    serial, no salt could be drawn, or another key's record holds the name. *)
Theorem keyring_set_name rng serial name store meta k r k' :
  unique_names k -> set_name rng serial name store meta k = (r, k') ->
  match r with
  | Ok _ =>
      exists fp rec, fingerprint_of k' serial = Some fp /\
        holder k' name = Some rec /\ r_name rec = name /\ r_fingerprint rec = Some fp /\ r_stored rec = store /\
        unique_names k' /\
        List.filter (fun r => negb (is_of r (Some fp))) (keys k') = List.filter (fun r => negb (is_of r (Some fp))) (keys k) /\
        match store with OnKey => records_for k' serial = [rec] | Computer => local_name_for k' serial = Some name end
  | Err e => keys k' = keys k /\ refused rng serial name k k' e
  end.
Proof.
  intros Hu Hs. pose proof (set_name_unique rng serial name store meta k Hu) as Hu'. rewrite Hs in Hu'. destruct r as [[]|e].
  - apply set_name_run in Hs as (s & k1 & rec & at_ & _ & Hsalt & -> & Hat & Hk & Hc & Hh). cbn zeta in *.
    set (fp := fingerprint s serial) in *. set (rec := mkRecord name (Some fp) store (m_source meta) (strip_control_chars <$> m_vendor meta) None None) in *.
    assert (is_of rec (Some fp) = true) as Hof by (apply bool_decide_eq_true; done).
    assert (fingerprint_of k' serial = Some fp) as Hfp.
    { unfold fingerprint_of. by rewrite bool_decide_eq_false_2, Hsalt. }
    assert (rec ∈ keys k') as Hin by (rewrite Hk, put_at_perm; left).
    exists fp, rec. split; [exact Hfp|]. split.
    { clear Hk. cbn [snd] in Hu'. revert Hu' Hin. unfold unique_names, holder. induction (keys k') as [|x l IH]; intros Hu' Hin; [by apply elem_of_nil in Hin|].
      rewrite fmap_cons in Hu'. apply list.NoDup_cons in Hu' as [Hx Hl]. cbn [List.find].
      apply elem_of_cons in Hin as [<-|Hin]; [by rewrite bool_decide_eq_true_2|].
      rewrite bool_decide_eq_false_2; [by apply IH|]. intros He. apply Hx. rewrite He.
      change name with (r_name rec). by apply list_elem_of_fmap_2. }
    split_and!; [done..|exact Hu'| |].
    + rewrite Hk, put_at_filter by (by rewrite Hof). apply filter_none_of. intros x Hx.
      apply not_true_iff_false. intros Hr%replaced_is_of. by rewrite Hr in Hx.
    + destruct store eqn:Hst.
      * unfold local_name_for. rewrite Hfp, find_hd_filter, Hk, put_at_one; [done| |].
        { rewrite Hof. by rewrite bool_decide_eq_true_2. }
        apply filter_all_gone. intros x [Hx1 Hx2]%andb_true_iff. unfold replaced. by rewrite Hx2, Hx1, orb_true_r.
      * unfold records_for. rewrite Hfp, Hk. apply put_at_one; [done|]. apply filter_all_gone. intros x Hx.
        unfold replaced. by rewrite Hx.
  - by apply (set_name_fails rng serial name store meta).
Qed.
End keyring_spec.

(** * Concrete runs *)

Section runs.
#[local] Existing Instance ascii_unicode.

Definition run_salt : list Z := seqZ 0 32.
Definition run_ring : Keyring :=
  (set_name (Some run_salt) (s2b "77") (s2b "work") Computer (mkMeta Usb None) empty_keyring).2.

Lemma keyring_names_unique_witness :
  unique_names (set_name None (s2b "78") (s2b "home") OnKey (mkMeta Usb (Some (s2b "Solo"))) run_ring).2.
Proof.
  apply (keyring_names_unique empty_keyring); [|constructor].
  eapply rtc_l; [apply step_set_name|]. apply rtc_once. apply step_set_name.
Defined.

Lemma keyring_set_name_witness :
  exists k', set_name None (s2b "77 ") (s2b "home") OnKey (mkMeta Usb None) run_ring = (Ok tt, k') /\
    exists rec, records_for k' (s2b "77") = [rec] /\ r_name rec = s2b "home".
Proof.
  destruct (set_name None (s2b "77") (s2b "home") OnKey (mkMeta Usb None) run_ring) as [r k'] eqn:Hs.
  assert (r = Ok tt) as -> by (vm_compute in Hs; by injection Hs as <- _).
  destruct (keyring_set_name None (s2b "77") (s2b "home") OnKey (mkMeta Usb None) run_ring (Ok tt) k') as
    (fp & rec & _ & _ & Hn & _ & _ & _ & _ & Hrec); [vm_compute; repeat constructor; by apply not_elem_of_nil|exact Hs|].
  exists k'. split; [rewrite <- Hs; vm_compute; reflexivity|]. exists rec. split; [exact Hrec|exact Hn].
Defined.
End runs.
