(* ===== verification/Device.v ===== *)
(** keyroost-resolve/src/device.rs, the device model: capability sets, the row
    a scan gives for each key or token, its badges, and the factory-reset plan.
    The naming data of keyroost-resolve/src/names.rs is part of a row. *)
From S2P Require Export Keyring.

(** * Capabilities *)

Module Caps.
(** A [u16] bit set. *)
Definition FIDO2 : Z := Z.shiftl 1 0.
Definition OATH : Z := Z.shiftl 1 1.
Definition PGP : Z := Z.shiftl 1 2.
Definition PIV : Z := Z.shiftl 1 3.
Definition TOTP : Z := Z.shiftl 1 4.
Definition OTP : Z := Z.shiftl 1 5.
Definition PROG : Z := Z.shiftl 1 6.
Definition U2F_ONLY : Z := Z.shiftl 1 7.
Definition FIDO_PROTOCOL_UNKNOWN : Z := Z.shiftl 1 8.

Definition empty : Z := 0.
Definition has (s c : Z) : bool := negb (Z.land s c =? 0).
Definition insert (s c : Z) : Z := Z.lor s c.
Definition remove (s c : Z) : Z := Z.land s (Z.lxor 0xFFFF c).
Definition is_empty (s : Z) : bool := s =? 0.
End Caps.

(** * The row's data *)

Inductive CapState := Present | Absent | Unverified.
#[export] Instance CapState_eq_dec : EqDecision CapState.
Proof. solve_decision. Defined.
Inductive DeviceKind := Key | Token | ProgToken.
#[export] Instance DeviceKind_eq_dec : EqDecision DeviceKind.
Proof. solve_decision. Defined.

(** names.rs: where a shown name lives, what a scan learned of the name on the key
    itself, and how the row is named. *)
Inductive NameSource := SrcKey | SrcComputer.
Inductive KeyLabel := NotRead | ReadFailed | LblUnsupported | LblAbsent | LblPresent (name : list Z) | Unreadable.
#[export] Instance KeyLabel_eq_dec : EqDecision KeyLabel.
Proof. solve_decision. Defined.
Record Naming := mkNaming {
  nm_plain : option (list Z); nm_source : option NameSource; nm_selectable : bool;
  nm_on_key : KeyLabel; nm_missing_on_key : option (list Z) }.
Definition no_naming : Naming := mkNaming None None false NotRead None.

Record Device := mkDevice {
  d_id : list Z; d_name : option (list Z); d_vendor : list Z; d_model : list Z; d_serial : list Z;
  d_transport : list Z; d_firmware : list Z; d_caps : Z; d_unverified : Z; d_kind : DeviceKind;
  d_hid_path : option (list Z); d_reader : option (list Z); d_hid_serial : option (list Z);
  d_former_serial : option (list Z); d_naming : Naming; d_smart_card_unlisted : bool }.

#[export] Instance Device_inhabited : Inhabited Device :=
  populate (mkDevice [] None [] [] [] [] [] 0 0 Key None None None None no_naming false).

(** [Path] equality compares components: repeated slashes, a trailing slash and
    inner [.] parts do not count. A path is its bytes, as on Unix. *)
Definition path_key (p : list Z) : bool * bool * list (list Z) :=
  let absolute := starts_with [47] p in
  let parts := split_on 47 p in
  let dot := negb absolute && match parts with [46] :: _ => true | _ => false end in
  (absolute, dot, List.filter (fun c => negb (bool_decide (c = []) || bool_decide (c = [46]))) parts).
Definition path_eq (a b : list Z) : bool := bool_decide (path_key a = path_key b).
(** [p.display().to_string()]. *)
Definition path_display (p : list Z) : list Z := from_utf8_lossy p.

Example path_eq_ex : path_eq (s2b "/dev//hidraw0/") (s2b "/dev/./hidraw0") = true /\ path_eq (s2b "dev") (s2b "./dev") = false.
Proof. by vm_compute. Qed.

Section device.
Context `{Unicode}.

Definition model_title (d : Device) : list Z :=
  if existsb is_alphabetic (chars (d_model d)) || bool_decide (d_vendor d = []) then d_model d
  else d_vendor d ++ [32] ++ d_model d.
End device.

Definition cap_state (d : Device) (c : Z) : CapState :=
  if negb (Caps.has (d_caps d) c) then Absent
  else if Caps.has (d_unverified d) c then Unverified else Present.

Definition cap_badge_states (d : Device) : list (list Z * CapState) :=
  if bool_decide (d_kind d = Token) then [(s2b "TOTP token", Present)] else
  let fido := if Caps.has (d_caps d) Caps.U2F_ONLY then s2b "U2F" else s2b "FIDO2" in
  omap (fun '(c, label) => if Caps.has (d_caps d) c then Some (label, cap_state d c) else None)
    [(Caps.FIDO2, fido); (Caps.OATH, s2b "OATH"); (Caps.PGP, s2b "PGP"); (Caps.PIV, s2b "PIV"); (Caps.OTP, s2b "OTP")].
Definition cap_badges (d : Device) : list (list Z) := fst <$> cap_badge_states d.

(** * Factory reset *)

Inductive ResetStep := ROath | ROpenPgp | RToken2Otp | RPiv | RFido.
#[export] Instance ResetStep_eq_dec : EqDecision ResetStep.
Proof. solve_decision. Defined.

Definition step_label (s : ResetStep) : list Z :=
  match s with
  | ROath => s2b "OATH" | ROpenPgp => s2b "OpenPGP" | RPiv => s2b "PIV" | RToken2Otp => s2b "OTP" | RFido => s2b "FIDO2"
  end.

Definition factory_reset_plan (caps : Z) : list ResetStep :=
  (if Caps.has caps Caps.OATH then [ROath] else []) ++
  (if Caps.has caps Caps.PGP then [ROpenPgp] else []) ++
  (if Caps.has caps Caps.OTP then [RToken2Otp] else []) ++
  (if Caps.has caps Caps.PIV then [RPiv] else []) ++
  (if Caps.has caps Caps.FIDO2 && negb (Caps.has caps Caps.U2F_ONLY) && negb (Caps.has caps Caps.FIDO_PROTOCOL_UNKNOWN)
   then [RFido] else []).

Definition exclude_unresettable_piv (plan : list ResetStep) : list ResetStep :=
  List.filter (fun s => negb (bool_decide (s = RPiv))) plan.

Section reset.
Context `{Unicode}.

(** [d.hid_path.is_some() && d.hid_path == target.hid_path]. *)
Definition same_node (d target : Device) : bool :=
  match d_hid_path d, d_hid_path target with Some a, Some b => path_eq a b | _, _ => false end.

Definition serial_less_reset_blockers (target : Device) (devices : list Device) : list (list Z) :=
  if negb (bool_decide (d_serial target = [])) then [] else
  let is_target d := bool_decide (d_id d = d_id target) || same_node d target in
  (fun d => default (model_title d) (d_name d)) <$> List.filter (fun d => negb (is_target d)) devices.
End reset.

Inductive SerialLessReinsert := Fire | Wait | Refuse.

Definition serial_less_reinsert (cand_path : list Z) (devices : list Device) : SerialLessReinsert :=
  match devices with
  | [only] =>
      if match d_hid_path only with Some p => path_eq p cand_path | None => false end && bool_decide (d_serial only = [])
      then Fire else Wait
  | [] => Wait
  | _ => Refuse
  end.

(** * The reset plan *)

Lemma plan_in caps s :
  s ∈ factory_reset_plan caps <->
  match s with
  | ROath => Caps.has caps Caps.OATH = true
  | ROpenPgp => Caps.has caps Caps.PGP = true
  | RToken2Otp => Caps.has caps Caps.OTP = true
  | RPiv => Caps.has caps Caps.PIV = true
  | RFido => Caps.has caps Caps.FIDO2 = true /\ Caps.has caps Caps.U2F_ONLY = false /\
             Caps.has caps Caps.FIDO_PROTOCOL_UNKNOWN = false
  end.
Proof.
  unfold factory_reset_plan. rewrite !elem_of_app.
  destruct (Caps.has caps Caps.OATH), (Caps.has caps Caps.PGP), (Caps.has caps Caps.OTP), (Caps.has caps Caps.PIV),
    (Caps.has caps Caps.FIDO2), (Caps.has caps Caps.U2F_ONLY), (Caps.has caps Caps.FIDO_PROTOCOL_UNKNOWN), s; simpl;
    rewrite ?list_elem_of_singleton, ?elem_of_nil; naive_solver.
Qed.
