(* ===== verification/Select.v ===== *)
(** keyroost-resolve/src/select.rs: which connected row a command acts on. The
    capability filter, the [--device] / [--reader] / [--path] selectors, the list
    order and numbers, the picker and the refusals with their texts. Then what a selection
    promises. *)
From Stdlib Require Import Sorting.Sorted.
From S2P Require Export Device.

(** * What a command needs *)

Inductive Need :=
  | FidoHid | FidoAny | NOathKey | NOpenPgp | NPiv | NOtp | OtpHid | OtpCcid | NMolto2 | NProg | FactoryReset | Nameable | AnyKey.

Definition noun (n : Need) : list Z :=
  match n with
  | FidoHid => s2b "key with FIDO2 over USB"
  | FidoAny => s2b "key with FIDO2"
  | NOathKey => s2b "key with OATH"
  | NOpenPgp => s2b "key with OpenPGP"
  | NPiv => s2b "key with PIV"
  | NOtp => s2b "key with Token2 OTP"
  | OtpHid => s2b "key with Token2 OTP over USB-HID"
  | OtpCcid => s2b "key with Token2 OTP over a smart-card reader"
  | NMolto2 => s2b "Molto2 token"
  | NProg => s2b "programmable token"
  | FactoryReset => s2b "key with something to factory-reset"
  | Nameable => s2b "key that reports a serial (needed to name it)"
  | AnyKey => s2b "key or token"
  end.

Definition admits (n : Need) (d : Device) : bool :=
  let hid := bool_decide (is_Some (d_hid_path d)) in
  let card := bool_decide (is_Some (d_reader d)) in
  match n with
  | FidoHid => Caps.has (d_caps d) Caps.FIDO2 && hid
  | FidoAny => Caps.has (d_caps d) Caps.FIDO2 && (hid || card)
  | NOathKey => Caps.has (d_caps d) Caps.OATH && card
  | NOpenPgp => Caps.has (d_caps d) Caps.PGP && card
  | NPiv => Caps.has (d_caps d) Caps.PIV && card
  | NOtp => Caps.has (d_caps d) Caps.OTP && (hid || card)
  | OtpHid => Caps.has (d_caps d) Caps.OTP && hid
  | OtpCcid => Caps.has (d_caps d) Caps.OTP && card
  | NMolto2 => bool_decide (d_kind d = Token) && card
  | NProg => bool_decide (d_kind d = ProgToken) && card
  | FactoryReset => bool_decide (d_kind d = Key) && negb (bool_decide (factory_reset_plan (d_caps d) = []))
  | Nameable => negb (bool_decide (d_serial d = []))
  | AnyKey => true
  end.

Definition prefers_reader (n : Need) : bool :=
  match n with NOathKey | NOpenPgp | NPiv | OtpCcid | NMolto2 | NProg => true | _ => false end.

(** * Selectors *)

Record Selector := mkSelector { sel_device : option (list Z); sel_reader : option (list Z); sel_path : option (list Z) }.

Inductive DeviceSpec := SpecAny (v : list Z) | SpecName (n : list Z) | SpecSerial (s : list Z) | SpecNumber (n : Z) | BadNumber (n : list Z).

(** A [usize], 64 bits wide. *)
Definition parse_number (s : list Z) : option Z :=
  if negb (bool_decide (s = [])) && forallb is_ascii_digit s then parse_uint 64 s else None.

Definition parse_device_spec (v : list Z) : DeviceSpec :=
  match strip_prefix (s2b "name:") v with
  | Some n => SpecName n
  | None =>
      match strip_prefix (s2b "serial:") v with
      | Some s => SpecSerial s
      | None =>
          match strip_prefix (s2b "list:") v with
          | Some n => match parse_number n with Some k => SpecNumber k | None => BadNumber n end
          | None => SpecAny v
          end
      end
  end.

(** * List order *)

Definition is_nil (s : list Z) : bool := bool_decide (s = []).
Definition row_cmp (x y : Device) : comparison :=
  then_with (then_with (cmp_bool (is_nil (d_serial x)) (is_nil (d_serial y)))
    (cmp_str (to_ascii_lowercase (d_serial x)) (to_ascii_lowercase (d_serial y))))
    (cmp_str (d_id x) (d_id y)).

(** Row numbers index the slice; [!!!] stands for the panicking index, and every
    index comes from [list_order], so it is in range ([list_order_range]). *)
Definition list_order (devices : list Device) : list nat :=
  sort_by (fun a b => row_cmp (devices !!! a) (devices !!! b)) (seq 0 (length devices)).

Definition list_number (devices : list Device) (index : nat) : option Z :=
  (fun p => Z.of_nat p + 1) <$> index_of (list_order devices) index.

Definition molto_reader_serial (reader : list Z) : option (list Z) :=
  '(_, rest) ← split_once 40 reader;
  '(serial, _) ← split_once 41 rest;
  if bool_decide (serial = []) then None else Some serial.

Definition opt_is {A} (o : option A) (f : A -> bool) : bool := match o with Some a => f a | None => false end.

Definition has_serial (d : Device) (s : list Z) : bool :=
  eq_ignore_ascii_case (d_serial d) s ||
  bool_decide (d_kind d = Token) &&
  opt_is (d_reader d ≫= molto_reader_serial) (fun r => eq_ignore_ascii_case r s).

Definition rows_matching (devices : list Device) (spec : DeviceSpec) : list nat :=
  let order := list_order devices in
  let by_name n := List.filter (fun i => nm_selectable (d_naming (devices !!! i)) &&
                                         bool_decide (nm_plain (d_naming (devices !!! i)) = Some n)) order in
  let by_serial s := List.filter (fun i => negb (bool_decide (s = [])) && has_serial (devices !!! i) s) order in
  let by_number k := if k =? 0 then [] else option_list (order !! Z.to_nat (k - 1)) in
  let hits :=
    match spec with
    | SpecName n => by_name n
    | SpecSerial s => by_serial s
    | SpecNumber k => by_number k
    | BadNumber _ => []
    | SpecAny v => by_name v ++ by_serial v ++ match parse_number v with Some k => by_number k | None => [] end
    end in
  dedup (sort_by (index_cmp order) hits).

Definition selection_needs_key_names (devices : list Device) (sel : Selector) (need : Need) : bool :=
  if bool_decide (is_Some (sel_reader sel)) || bool_decide (is_Some (sel_path sel)) then false else
  match parse_device_spec <$> sel_device sel with
  | Some (SpecSerial _ | SpecNumber _ | BadNumber _) => false
  | Some (SpecName _) => true
  | Some (SpecAny v) =>
      let serial := negb (bool_decide (v = [])) && existsb (fun d => has_serial d v) devices in
      let number := opt_is (parse_number v) (fun k => (1 <=? k) && (k <=? zlen devices)) in
      negb (serial || number)
  | None => 1 <? zlen (List.filter (admits need) devices)
  end.

Definition device_value (devices : list Device) (index : nat) : list Z :=
  let d := devices !!! index in
  let number := default 0 (list_number devices index) in
  let name := if nm_selectable (d_naming d) then nm_plain (d_naming d) else None in
  let tries :=
    option_list name ++
    (if bool_decide (d_serial d = []) then [] else [d_serial d]) ++
    (if bool_decide (d_serial d = []) && bool_decide (d_kind d = Token)
     then option_list ((fun rs => s2b "serial:" ++ rs) <$> (d_reader d ≫= molto_reader_serial)) else []) ++
    [dec number] ++
    option_list ((fun n => s2b "name:" ++ n) <$> name) ++
    (if bool_decide (d_serial d = []) then [] else [s2b "serial:" ++ d_serial d]) in
  default (s2b "list:" ++ dec number)
    (List.find (fun v => bool_decide (rows_matching devices (parse_device_spec v) = [index])) tries).

(** * Labels *)

Definition clean (s : list Z) : list Z :=
  utf8_encode ((fun c => if is_spoofing_char c then 63 else c) <$> chars s).

Section labels.
Context `{Unicode}.

Definition row_label (d : Device) : list Z :=
  let model := model_title d in
  clean (default model (d_name d)) ++
  (if bool_decide (is_Some (d_name d)) && negb (bool_decide (d_model d = [])) then s2b ", " ++ clean model else []) ++
  (if bool_decide (d_serial d = []) then [] else s2b ", serial " ++ clean (d_serial d)).
End labels.

(** [o.or(p)]. *)
Definition opt_or {A} (o p : option A) : option A := match o with Some _ => o | None => p end.

Definition endpoint (d : Device) (need : Need) : list Z :=
  let path := path_display <$> d_hid_path d in
  let via := if prefers_reader need then opt_or (d_reader d) path else opt_or path (d_reader d) in
  clean (default [] via).

Definition shell_safe (c : Z) : bool := is_ascii_alphanumeric c || bool_decide (c ∈ s2b "._:/@%+=,-").
Definition shell_quote (v : list Z) : list Z :=
  if negb (bool_decide (v = [])) && forallb shell_safe v then v
  else [39] ++ flat_map (fun c => if c =? 39 then [39; 92; 39; 39] else [c]) v ++ [39].

(** * Refusals *)

Record Candidate := mkCandidate { c_value : list Z; c_label : list Z }.
Definition candidate_text (c : Candidate) : list Z :=
  s2b "--device " ++ shell_quote (clean (c_value c)) ++ s2b " (" ++ c_label c ++ s2b ")".

Record Choice := mkChoice { ch_number : Z; ch_label : list Z; ch_endpoint : list Z }.

(** Terminal input and output, over a state of the front end. *)
Record Picker (S : Type) := mkPicker {
  interactive : S -> bool;
  pick : list Z -> list Choice -> S -> result (list Z) Z * S }.
Arguments interactive {S}.
Arguments pick {S}.
Definition no_picker {S} : Picker S := mkPicker S (fun _ => false) (fun _ _ s => (Err (s2b "no terminal to choose on"), s)).

Inductive SelectedBy := ByDevice | ByReader | ByPath | OnlyCandidate | Picked.
(** A resolved row; the reference into the slice is its index. *)
Record Target := mkTarget { t_row : nat; t_number : Z; t_how : SelectedBy }.

Inductive SelectError :=
  | Conflict
  | NoCandidates (need : Need) (connected : list Candidate)
  | NeedsChoice (need : Need) (candidates : list Candidate)
  | NotFound (value : list Z) (need : Need) (candidates : list Candidate)
  | Ambiguous (value : list Z) (matches : list Candidate)
  | NameNotConnected (value : list Z) (newcomers : list Candidate)
  | LacksCapability (selector : list Z) (need : Need) (candidates : list Candidate)
  | ReaderNotFound (reader : list Z)
  | ReaderAmbiguous (substr : list Z) (readers : list (list Z))
  | PathNotFound (path : list Z)
  | EPicker (e : list Z).

(** [v.join(sep)]. *)
Fixpoint join_with (sep : list Z) (l : list (list Z)) : list Z :=
  match l with [] => [] | [x] => x | x :: r => x ++ sep ++ join_with sep r end.

Definition join (c : list Candidate) : list Z := join_with (s2b " | ") (candidate_text <$> c).
Definition flags (flag : list Z) (values : list (list Z)) : list Z :=
  join_with (s2b " | ") ((fun v => flag ++ [32] ++ shell_quote (clean v)) <$> values).

Definition select_error_text (e : SelectError) : list Z :=
  match e with
  | Conflict => s2b "pass only one of --device, --reader and --path (they may name different keys)"
  | NoCandidates need [] => s2b "no " ++ noun need ++ s2b " is connected"
  | NoCandidates need connected => s2b "no " ++ noun need ++ s2b " is connected; connected: " ++ join connected
  | NeedsChoice need candidates =>
      dec (zlen candidates) ++ s2b " connected keys qualify (" ++ noun need ++
      s2b ") and there is no terminal to ask on; choose one: " ++ join candidates
  | NotFound value need [] =>
      s2b "no connected key matches --device " ++ shell_quote (clean value) ++
      s2b " (by name, serial or list number), and no " ++ noun need ++ s2b " is connected"
  | NotFound value _ candidates =>
      s2b "no connected key matches --device " ++ shell_quote (clean value) ++
      s2b " (by name, serial or list number); choose one: " ++ join candidates
  | Ambiguous value ms =>
      s2b "--device " ++ shell_quote (clean value) ++ s2b " matches " ++ dec (zlen ms) ++ s2b " keys; choose one: " ++ join ms
  | NameNotConnected value newcomers =>
      s2b "no key named '" ++ clean value ++ s2b "' is connected; " ++
      (if zlen newcomers =? 1 then s2b "a different key carries that name"
       else dec (zlen newcomers) ++ s2b " different keys carry that name") ++ s2b ": " ++ join newcomers
  | LacksCapability selector need [] =>
      selector ++ s2b " does not select a " ++ noun need ++ s2b ", and none is connected"
  | LacksCapability selector need candidates =>
      selector ++ s2b " does not select a " ++ noun need ++ s2b "; choose one: " ++ join candidates
  | ReaderNotFound reader => s2b "no detected key matches reader '" ++ clean reader ++ s2b "'; using it as typed"
  | ReaderAmbiguous substr readers =>
      s2b "--reader " ++ shell_quote (clean substr) ++ s2b " matches several readers; choose one: " ++ flags (s2b "--reader") readers
  | PathNotFound path => s2b "no detected key is at " ++ clean path ++ s2b "; using it as typed"
  | EPicker e => clean e
  end.

(** * Resolving *)

(** [iter().filter(f)] for an effectful [f], in order. *)
Fixpoint filter_io {S E A} (f : A -> io S E bool) (l : list A) : io S E (list A) :=
  match l with
  | [] => mret []
  | a :: l => b ← f a; r ← filter_io f l; mret (if (b : bool) then a :: r else r)
  end.

Section resolve.
Context `{Unicode} {S : Type}.

(** Reading a Molto2's card serial, which contacts the card. *)
Definition CardSerial : Type := Device -> S -> option (list Z) * S.

Variable devices : list Device.

Definition order : list nat := list_order devices.
Definition number (i : nat) : Z := default 0 ((fun p => Z.of_nat p + 1) <$> index_of order i).
Definition candidate_rows (need : Need) : list nat := List.filter (fun i => admits need (devices !!! i)) order.
Definition describe (rows : list nat) : list Candidate :=
  (fun i => mkCandidate (device_value devices i) (row_label (devices !!! i))) <$> rows.
Definition target (i : nat) (how : SelectedBy) : Target := mkTarget i (number i) how.

Definition named (spec : DeviceSpec) : option (list Z) :=
  match spec with SpecAny n | SpecName n => Some n | _ => None end.
Definition newcomer_rows (spec : DeviceSpec) : list nat :=
  match named spec with
  | Some n => List.filter (fun i => negb (nm_selectable (d_naming (devices !!! i))) &&
                                    bool_decide (nm_plain (d_naming (devices !!! i)) = Some n)) order
  | None => []
  end.

(** Whether [card_serial] gives [s] for the row's card. *)
Definition read_is (read : CardSerial) (s : list Z) (i : nat) : io S SelectError bool := fun st =>
  let '(c, st) := read (devices !!! i) st in (Ok (opt_is c (fun c => eq_ignore_ascii_case c s)), st).

(** The rows a card serial is read from, in order. *)
Definition readable_rows (need : Need) : list nat :=
  List.filter (fun i => bool_decide (d_kind (devices !!! i) = Token) && bool_decide (is_Some (d_reader (devices !!! i))) &&
                        admits need (devices !!! i)) order.
Definition rows_by_card (need : Need) (spec : DeviceSpec) (card_serial : option CardSerial) (rows : list nat) :
    io S SelectError (list nat) :=
  match rows, newcomer_rows spec, card_serial, spec with
  | [], [], Some read, (SpecAny s | SpecSerial s) =>
      if bool_decide (s = []) then mret rows else filter_io (read_is read s) (readable_rows need)
  | _, _, _, _ => mret rows
  end.

Definition resolve_device (v : list Z) (need : Need) (card_serial : option CardSerial) : io S SelectError Target :=
  let spec := parse_device_spec v in
  let newcomers := newcomer_rows spec in
  rows ← rows_by_card need spec card_serial (rows_matching devices spec);
  lift match rows, newcomers with
  | [], _ :: _ => Err (NameNotConnected (default v (named spec)) (describe newcomers))
  | [], [] => Err (NotFound v need (describe (candidate_rows need)))
  | [i], _ =>
      if admits need (devices !!! i) then Ok (target i ByDevice)
      else Err (LacksCapability (s2b "--device " ++ shell_quote (clean v)) need (describe (candidate_rows need)))
  | many, _ => Err (Ambiguous v (describe many))
  end.

Definition reader_rows (hit : list Z -> bool) : list nat :=
  List.filter (fun i => opt_is (d_reader (devices !!! i)) hit) order.
Definition pick_reader (typed : list Z) (rows : list nat) : option (result SelectError Target) :=
  match rows with
  | [] => None
  | [i] => Some (Ok (target i ByReader))
  | many => Some (Err (ReaderAmbiguous typed (dedup (sort_by cmp_str (omap (fun i => d_reader (devices !!! i)) many)))))
  end.
Definition resolve_reader (typed : list Z) : result SelectError Target :=
  let needle := to_ascii_lowercase typed in
  let exact := reader_rows (fun r => eq_ignore_ascii_case r typed) in
  let partial := reader_rows (fun r => contains needle (to_ascii_lowercase r)) in
  default (Err (ReaderNotFound typed)) (opt_or (pick_reader typed exact) (pick_reader typed partial)).

Definition resolve_path (p : list Z) : result SelectError Target :=
  match List.find (fun i => opt_is (d_hid_path (devices !!! i)) (fun q => path_eq q p)) order with
  | Some i => Ok (target i ByPath)
  | None => Err (PathNotFound (path_display p))
  end.

(** [picker.pick(heading, choices)] and the row it names. *)
Definition ask (need : Need) (picker : Picker S) (many : list nat) : io S SelectError Target := fun st =>
  let choices := (fun i => mkChoice (number i) (row_label (devices !!! i)) (endpoint (devices !!! i) need)) <$> many in
  let heading := dec (zlen many) ++ s2b " connected keys qualify (" ++ noun need ++ s2b "):" in
  let '(r, st) := pick picker heading choices st in
  match r with
  | Err e => (Err (EPicker e), st)
  | Ok k =>
      match many !! Z.to_nat k with
      | Some i => (Ok (target i Picked), st)
      | None => (Err (EPicker (s2b "choice " ++ dec k ++ s2b " is out of range")), st)
      end
  end.

Definition resolve_choice (need : Need) (picker : Picker S) : io S SelectError Target := fun st =>
  match candidate_rows need with
  | [] => (Err (NoCandidates need (describe order)), st)
  | [i] => (Ok (target i OnlyCandidate), st)
  | many => if interactive picker st then ask need picker many st else (Err (NeedsChoice need (describe many)), st)
  end.

Definition resolve (sel : Selector) (need : Need) (picker : Picker S) (card_serial : option CardSerial) :
    io S SelectError Target :=
  let given := (if bool_decide (is_Some (sel_device sel)) then 1 else 0) +
               (if bool_decide (is_Some (sel_reader sel)) then 1 else 0) +
               (if bool_decide (is_Some (sel_path sel)) then 1 else 0) in
  if 1 <? given then lift (Err Conflict) else
  match sel_device sel, sel_reader sel, sel_path sel with
  | Some v, _, _ => resolve_device v need card_serial
  | None, Some typed, _ => lift (resolve_reader typed)
  | None, None, Some p => lift (resolve_path p)
  | None, None, None => resolve_choice need picker
  end.

Definition resolve_target (sel : Selector) (need : Need) (picker : Picker S) : io S SelectError Target :=
  resolve sel need picker None.
Definition resolve_target_reading (sel : Selector) (need : Need) (picker : Picker S) (card_serial : CardSerial) :
    io S SelectError Target := resolve sel need picker (Some card_serial).
End resolve.

(** What keyroost-resolve/src/select.rs promises: the list order is one sorted order of the
    rows, a selector picks a row only when it is the only one it can mean, the value a refusal
    prints selects its row when it is pasted back into a shell, and a card or a name is read
    only when the choice needs it. *)

(** * The list order *)

#[export] Instance row_cmp_total : TotalCmp row_cmp.
Proof.
  apply then_with_total; [apply then_with_total|]; [apply (on_total (fun d => is_nil (d_serial d)))|
    apply (on_total (fun d => to_ascii_lowercase (d_serial d)))|apply (on_total d_id)]; apply _.
Qed.

Lemma list_order_perm devices : list_order devices ≡ₚ seq 0 (length devices).
Proof. apply sort_by_perm. Qed.
Lemma list_order_range devices i : i ∈ list_order devices <-> (i < length devices)%nat.
Proof. rewrite list_order_perm, elem_of_seq. lia. Qed.
Lemma list_order_NoDup devices : NoDup (list_order devices).
Proof. rewrite list_order_perm. apply NoDup_seq. Qed.
Lemma list_order_length devices : length (list_order devices) = length devices.
Proof. by rewrite list_order_perm, length_seq. Qed.

Lemma list_number_iff devices i k :
  list_number devices i = Some k <-> 1 <= k /\ list_order devices !! Z.to_nat (k - 1) = Some i.
Proof.
  unfold list_number. split.
  - intros (p & Hp & Hk)%fmap_Some. apply index_of_lookup in Hp. split; [lia|].
    by replace (Z.to_nat (k - 1)) with p by lia.
  - intros [Hk Hi]. rewrite (index_of_NoDup _ _ _ (list_order_NoDup devices) Hi). simpl. f_equal. lia.
Qed.
Lemma list_number_some devices i : (i < length devices)%nat -> exists k, list_number devices i = Some k /\ 1 <= k <= zlen devices.
Proof.
  intros Hi%list_order_range. destruct (index_of_elem _ _ Hi) as [p Hp]. exists (Z.of_nat p + 1).
  unfold list_number. rewrite Hp. split; [done|]. apply index_of_lookup, lookup_lt_Some in Hp.
  rewrite list_order_length in Hp. unfold zlen. lia.
Qed.
Lemma number_list_number devices i : number devices i = default 0 (list_number devices i).
Proof. done. Qed.

(** * The rows a value names *)

Definition has_name (d : Device) (n : list Z) : bool :=
  nm_selectable (d_naming d) && bool_decide (nm_plain (d_naming d) = Some n).
Definition is_number (devices : list Device) (i : nat) (k : Z) : bool := bool_decide (list_number devices i = Some k).

Definition answers (devices : list Device) (spec : DeviceSpec) (i : nat) : bool :=
  let d := devices !!! i in
  match spec with
  | SpecName n => has_name d n
  | SpecSerial s => negb (bool_decide (s = [])) && has_serial d s
  | SpecNumber k => is_number devices i k
  | BadNumber _ => false
  | SpecAny v => has_name d v || negb (bool_decide (v = [])) && has_serial d v || opt_is (parse_number v) (is_number devices i)
  end.

Lemma parse_number_range s k : parse_number s = Some k -> 0 <= k < 2 ^ 64.
Proof.
  unfold parse_number. destruct (_ && _) eqn:Hs; [|done]. bools. unfold parse_uint.
  assert (Hd : forall t a, forallb is_ascii_digit t = true -> 0 <= a -> 0 <= fold_left (fun a d => a * 10 + (d - 48)) t a).
  { induction t as [|d t IH]; intros a Ht Ha; [done|]. simpl in *. bools. apply IH; [done|].
    unfold is_ascii_digit, between in *. bools. lia. }
  destruct (match s with 43 :: r => r | _ => s end) as [|d t] eqn:Hm; [done|].
  destruct (forallb is_ascii_digit (d :: t) && _) eqn:Hf; [|done]. intros [= <-].
  apply andb_true_iff in Hf as [Hf Hlt]. bools. split; [by apply Hd|lia].
Qed.

Lemma by_number_in devices k i :
  0 <= k -> i ∈ (if k =? 0 then [] else option_list (list_order devices !! Z.to_nat (k - 1))) <->
            i ∈ list_order devices /\ is_number devices i k = true.
Proof.
  intros Hk. unfold is_number. rewrite bool_decide_eq_true, list_number_iff. destruct (k =? 0) eqn:Hz; bools.
  - rewrite elem_of_nil. split; [done|]. lia.
  - destruct (list_order devices !! Z.to_nat (k - 1)) as [j|] eqn:Hj; simpl.
    + rewrite list_elem_of_singleton. split; [|naive_solver]. intros ->. split; [|split; [lia|done]].
      by apply list_elem_of_lookup_2 in Hj.
    + rewrite elem_of_nil. naive_solver.
Qed.

Lemma filter_in (f : nat -> bool) l i : i ∈ List.filter f l <-> i ∈ l /\ f i = true.
Proof. rewrite !list_elem_of_In. apply List.filter_In. Qed.

Lemma rows_matching_spec devices spec :
  match spec with SpecNumber k => 0 <= k | _ => True end ->
  rows_matching devices spec = List.filter (answers devices spec) (list_order devices).
Proof.
  intros Hw. unfold rows_matching. apply dedup_sort_index; [apply list_order_NoDup|]. intros i.
  destruct spec as [v|n|s|k|n]; [|rewrite filter_in; done..|by apply by_number_in|rewrite elem_of_nil; naive_solver].
  rewrite !elem_of_app, !filter_in. cbn [answers]. unfold has_name. destruct (parse_number v) as [k|] eqn:Hp.
  - rewrite by_number_in by (apply parse_number_range in Hp; lia). cbn [opt_is].
    rewrite !orb_true_iff, !andb_true_iff. tauto.
  - rewrite elem_of_nil. cbn [opt_is]. rewrite !orb_true_iff, !andb_true_iff. naive_solver.
Qed.

Lemma parsed_spec_ok v : match parse_device_spec v with SpecNumber k => 0 <= k | _ => True end.
Proof.
  unfold parse_device_spec. repeat case_match; try done; simplify_eq.
  match goal with H : parse_number _ = Some _ |- _ => apply parse_number_range in H; lia end.
Qed.

(** Exactly one row, no row, has the property. *)
Definition only (devices : list Device) (f : nat -> bool) (i : nat) : Prop :=
  (i < length devices)%nat /\ forall j, (j < length devices)%nat -> f j = true <-> j = i.
Definition none (devices : list Device) (f : nat -> bool) : Prop := forall j, (j < length devices)%nat -> f j = false.

Lemma filter_only devices f i : List.filter f (list_order devices) = [i] <-> only devices f i.
Proof.
  split.
  - intros Hf. assert (Hin : forall j, j ∈ list_order devices /\ f j = true <-> j = i).
    { intros j. rewrite <- filter_in, Hf. apply list_elem_of_singleton. }
    split; [apply list_order_range; by apply Hin|]. intros j Hj%list_order_range. rewrite <- (Hin j). naive_solver.
  - intros [Hi Ho]. apply Permutation_singleton_r. apply NoDup_Permutation; [|apply NoDup_singleton|].
    + apply (strict_NoDup (index_cmp (list_order devices))), StronglySorted_filter, index_sorted, list_order_NoDup.
    + intros j. rewrite filter_in, list_elem_of_singleton, list_order_range. split; [intros [Hj Hf]; by apply Ho|].
      intros ->. split; [done|by apply Ho].
Qed.
Lemma filter_none devices f : List.filter f (list_order devices) = [] <-> none devices f.
Proof.
  split.
  - intros Hf j Hj%list_order_range. destruct (f j) eqn:Hfj; [|done].
    assert (j ∈ List.filter f (list_order devices)) as Hin by (apply filter_in; done). rewrite Hf in Hin. by apply elem_of_nil in Hin.
  - intros Hn. destruct (List.filter f (list_order devices)) as [|j l] eqn:Hf; [done|].
    assert (j ∈ List.filter f (list_order devices)) as [Hj Hfj]%filter_in by (rewrite Hf; left).
    apply list_order_range, Hn in Hj. congruence.
Qed.

(** * The value that names one row *)

Lemma dec_digits n : 0 <= n -> forallb is_ascii_digit (dec n) = true /\ dec n <> [] /\ undec (dec n) = n.
Proof.
  intros Hn. destruct (dec_spec n Hn) as [Hv Hd]. split_and!; [|unfold dec; cbn [dec_aux]; destruct (n <? 10);
    [done|by destruct (dec_aux _ _)]|done].
  apply forallb_forall. intros d Hin. rewrite list.Forall_forall in Hd. apply list_elem_of_In, Hd in Hin.
  unfold is_ascii_digit, between. apply andb_true_iff. lia.
Qed.

Lemma parse_number_dec n : 0 <= n < 2 ^ 64 -> parse_number (dec n) = Some n.
Proof.
  intros [Hn Hlt]. destruct (dec_digits n Hn) as (Hd & Hne & Hv). unfold parse_number.
  rewrite bool_decide_eq_false_2, Hd by done. cbn [negb andb]. unfold parse_uint.
  destruct (dec n) as [|c r] eqn:E; [done|]. assert (c <> 43) as Hc.
  { intros ->. simpl in Hd. done. }
  assert ((match c :: r with 43 :: r0 => r0 | _ => c :: r end) = c :: r) as ->.
  { repeat case_match; congruence. }
  rewrite Hd, Hv. cbn [andb]. by rewrite (proj2 (Z.ltb_lt n (2 ^ 64))).
Qed.

Lemma parse_list_number n : 0 <= n < 2 ^ 64 -> parse_device_spec (s2b "list:" ++ dec n) = SpecNumber n.
Proof.
  intros Hn. unfold parse_device_spec.
  change (strip_prefix (s2b "name:") (s2b "list:" ++ dec n)) with (@None (list Z)).
  change (strip_prefix (s2b "serial:") (s2b "list:" ++ dec n)) with (@None (list Z)).
  by rewrite strip_prefix_app, parse_number_dec.
Qed.

Lemma number_only devices i k :
  (i < length devices)%nat -> list_number devices i = Some k -> rows_matching devices (SpecNumber k) = [i].
Proof.
  intros Hi Hk. pose proof (proj1 (list_number_iff _ _ _) Hk) as [Hk1 Hl]. rewrite rows_matching_spec by lia.
  apply filter_only. split; [done|]. intros j Hj. cbn [answers]. unfold is_number.
  rewrite bool_decide_eq_true, list_number_iff. split; [|by intros ->]. intros [_ Hj']. congruence.
Qed.

(** The value [device_value] gives names its row alone. *)
Lemma device_value_only devices i :
  (i < length devices)%nat -> zlen devices < 2 ^ 64 ->
  rows_matching devices (parse_device_spec (device_value devices i)) = [i].
Proof.
  intros Hi Hn. unfold device_value. cbn zeta.
  match goal with |- context [List.find ?f ?l] => destruct (List.find f l) as [v|] eqn:Hf end.
  - apply find_some in Hf as [_ Hv]. by case_bool_decide.
  - destruct (list_number_some devices i Hi) as (k & Hk & Hr). rewrite Hk. cbn [default from_option]. unfold id.
    rewrite parse_list_number by lia. by apply number_only.
Qed.

(** * The shell's reading *)

(** The characters that may not stand unquoted in a word (POSIX, XCU 2.2; a blank
    or a newline ends it). *)
Definition sh_special (c : Z) : bool := bool_decide (c ∈ s2b "|&;<>()$`*?[#~" ++ [34]).
Definition sh_blank (c : Z) : bool := (c =? 32) || (c =? 9) || (c =? 10).

(** One word as a POSIX shell reads it, quotes removed, and what follows. *)
Fixpoint sh_word (quoted : bool) (s : list Z) : option (list Z * list Z) :=
  match s with
  | [] => if quoted then None else Some ([], [])
  | c :: s' =>
      if quoted then if c =? 39 then sh_word false s' else prod_map (cons c) id <$> sh_word true s'
      else if c =? 39 then sh_word true s'
      else if c =? 92 then match s' with d :: s'' => prod_map (cons d) id <$> sh_word false s'' | [] => None end
      else if sh_blank c then Some ([], s)
      else if sh_special c then None
      else prod_map (cons c) id <$> sh_word false s'
  end.

Lemma sh_word_plain c s :
  shell_safe c = true -> sh_word false (c :: s) = prod_map (cons c) id <$> sh_word false s.
Proof.
  intros Hc. assert ((c =? 39) || (c =? 92) || sh_blank c || sh_special c = false) as Hn.
  { apply not_true_iff_false. intros Hb. rewrite !orb_true_iff in Hb. destruct Hb as [[[Hb|Hb]|Hb]|Hb].
    - apply Z.eqb_eq in Hb as ->. done.
    - apply Z.eqb_eq in Hb as ->. done.
    - unfold sh_blank in Hb. rewrite !orb_true_iff, !Z.eqb_eq in Hb. destruct Hb as [[-> | ->] | ->]; done.
    - unfold sh_special in Hb. apply bool_decide_eq_true in Hb.
      assert (Forall (fun c => shell_safe c = false) (s2b "|&;<>()$`*?[#~" ++ [34])) as Hall by by_decision.
      rewrite list.Forall_forall in Hall. specialize (Hall _ Hb). congruence. }
  rewrite !orb_false_iff in Hn. destruct Hn as [[[H1 H2] H3] H4]. cbn [sh_word]. by rewrite H1, H2, H3, H4.
Qed.

Lemma sh_word_safe v s : forallb shell_safe v = true -> sh_word false (v ++ 32 :: s) = Some (v, 32 :: s).
Proof.
  induction v as [|c v IH]; [done|]. cbn [forallb app]. intros [Hc Hv]%andb_true_iff.
  by rewrite sh_word_plain, IH.
Qed.

Lemma sh_word_quoted v s :
  sh_word true (flat_map (fun c => if c =? 39 then [39; 92; 39; 39] else [c]) v ++ s) = prod_map (app v) id <$> sh_word true s.
Proof.
  induction v as [|c v IH]; [cbn [flat_map app]; by destruct (sh_word true s) as [[]|]|].
  cbn [flat_map]. rewrite <- app_assoc. destruct (c =? 39) eqn:Hc.
  - apply Z.eqb_eq in Hc as ->. change ([39; 92; 39; 39] ++ ?t) with (39 :: 92 :: 39 :: 39 :: t).
    cbn [sh_word Z.eqb Pos.eqb]. rewrite IH. by destruct (sh_word true s) as [[]|].
  - change ([c] ++ ?t) with (c :: t). cbn [sh_word]. rewrite Hc, IH. by destruct (sh_word true s) as [[]|].
Qed.

(** A shell reads a quoted value back as that value, one word of it. *)
Lemma sh_word_quote v s : sh_word false (shell_quote v ++ 32 :: s) = Some (v, 32 :: s).
Proof.
  unfold shell_quote. destruct (_ && _) eqn:Hs.
  - apply andb_true_iff in Hs as [_ Hs]. by apply sh_word_safe.
  - rewrite <- !app_assoc. change ([39] ++ ?t) with (39 :: t). cbn [sh_word Z.eqb Pos.eqb].
    rewrite sh_word_quoted. change ([39] ++ ?t) with (39 :: t). cbn. by rewrite app_nil_r.
Qed.

(** * Resolving *)

Section resolving.
Context `{Unicode} {S : Type}.
Variable devices : list Device.

(** The rows' card serials, read one after the other. *)
Fixpoint read_all (read : CardSerial (S := S)) (rows : list nat) (st : S) : list (option (list Z)) * S :=
  match rows with
  | [] => ([], st)
  | i :: rows =>
      let '(c, st) := read (devices !!! i) st in
      let '(cs, st) := read_all read rows st in (c :: cs, st)
  end.
(** The rows whose card answered [s]. *)
Definition card_matches (s : list Z) (rows : list nat) (cards : list (option (list Z))) : list nat :=
  fst <$> List.filter (fun '(_, c) => opt_is c (fun c => eq_ignore_ascii_case c s)) (combine rows cards).

Lemma filter_io_read read s rows st :
  filter_io (read_is devices read s) rows st =
  (Ok (card_matches s rows (read_all read rows st).1), (read_all read rows st).2).
Proof.
  revert st. induction rows as [|i rows IH]; intros st; [done|]. cbn [filter_io read_all].
  destruct (read (devices !!! i) st) as [c st1] eqn:Hr.
  assert (read_is devices read s i st = (Ok (opt_is c (fun c => eq_ignore_ascii_case c s)), st1)) as Hi.
  { unfold read_is. by rewrite Hr. }
  rewrite (io_bind_Ok_eq _ _ _ _ _ Hi). specialize (IH st1). destruct (read_all read rows st1) as [cs st2].
  rewrite (io_bind_Ok_eq _ _ _ _ _ IH). unfold card_matches. cbn [fst snd combine List.filter].
  by destruct (opt_is c _).
Qed.

Definition spec_text (spec : DeviceSpec) : option (list Z) :=
  match spec with SpecAny s | SpecSerial s => if bool_decide (s = []) then None else Some s | _ => None end.

(** The rows a [--device] value leads to, the card serials read for it, and the
    state after. *)
Definition device_rows (v : list Z) (need : Need) (cs : option (CardSerial (S := S))) (st : S) : list nat * S :=
  let spec := parse_device_spec v in
  match rows_matching devices spec, newcomer_rows devices spec, cs, spec_text spec with
  | [], [], Some read, Some s =>
      let '(cards, st) := read_all read (readable_rows devices need) st in
      (card_matches s (readable_rows devices need) cards, st)
  | rows, _, _, _ => (rows, st)
  end.

Implicit Types (cs : option (CardSerial (S := S))) (st : S) (picker : Picker S).

Lemma rows_by_card_run v need cs st :
  rows_by_card devices need (parse_device_spec v) cs (rows_matching devices (parse_device_spec v)) st =
  (Ok (device_rows v need cs st).1, (device_rows v need cs st).2).
Proof.
  unfold rows_by_card, device_rows. cbn zeta. generalize (parse_device_spec v) as spec. intros spec.
  destruct (rows_matching devices spec) as [|i rows] eqn:Hrows; [|done].
  destruct (newcomer_rows devices spec) as [|j l]; [|done]. destruct cs as [read|]; [|done].
  destruct spec as [s|s|s|k|s]; cbn [spec_text]; try done; case_bool_decide; try done;
    rewrite filter_io_read; by destruct (read_all read _ st).
Qed.

(** The verdict on the rows a value leads to. *)
Definition verdict (v : list Z) (need : Need) (rows : list nat) : result SelectError Target :=
  let spec := parse_device_spec v in
  match rows, newcomer_rows devices spec with
  | [], _ :: _ => Err (NameNotConnected (default v (named spec)) (describe devices (newcomer_rows devices spec)))
  | [], [] => Err (NotFound v need (describe devices (candidate_rows devices need)))
  | [i], _ =>
      if admits need (devices !!! i) then Ok (target devices i ByDevice)
      else Err (LacksCapability (s2b "--device " ++ shell_quote (clean v)) need (describe devices (candidate_rows devices need)))
  | many, _ => Err (Ambiguous v (describe devices many))
  end.

Lemma resolve_device_run v need cs st :
  resolve_device devices v need cs st = (verdict v need (device_rows v need cs st).1, (device_rows v need cs st).2).
Proof. unfold resolve_device. by rewrite (io_bind_Ok_eq _ _ _ _ _ (rows_by_card_run v need cs st)). Qed.

Lemma resolve_by_device v need picker cs st :
  resolve devices (mkSelector (Some v) None None) need picker cs st = resolve_device devices v need cs st.
Proof. done. Qed.

(** The four ways a selector can be set, and the conflict. *)
Lemma resolve_cases sel need picker cs st r st' :
  resolve devices sel need picker cs st = (r, st') ->
  (r = Err Conflict /\ st' = st /\ forall cs', resolve devices sel need picker cs' st = (Err Conflict, st)) \/
  (exists v, sel = mkSelector (Some v) None None /\ resolve_device devices v need cs st = (r, st')) \/
  (exists t, sel = mkSelector None (Some t) None /\ r = resolve_reader devices t /\ st' = st) \/
  (exists p, sel = mkSelector None None (Some p) /\ r = resolve_path devices p /\ st' = st) \/
  (sel = mkSelector None None None /\ resolve_choice devices need picker st = (r, st')).
Proof.
  destruct sel as [[v|] [t|] [p|]]; unfold resolve; cbn -[resolve_device resolve_reader resolve_path resolve_choice];
    rewrite ?(bool_decide_eq_true_2 (is_Some (Some _))), ?(bool_decide_eq_false_2 (is_Some None)) by
      (try done; by intros [? ?]); cbn -[resolve_device resolve_reader resolve_path resolve_choice]; intros Hr;
    try (left; by injection Hr as <- <-); right.
  - left. by exists v.
  - right. left. exists t. injection Hr as <- <-. done.
  - do 2 right. left. exists p. injection Hr as <- <-. done.
  - by do 3 right.
Qed.

(** ** A row is chosen only when it is the only one meant *)

(** A choice shown for a row: its number in [list], its label and its endpoint. *)
Definition shows (need : Need) (i : nat) (c : Choice) : Prop :=
  list_number devices i = Some (ch_number c) /\ ch_label c = row_label (devices !!! i) /\ ch_endpoint c = endpoint (devices !!! i) need.

(** Why the row of [t] was chosen. *)
Definition chosen (sel : Selector) (need : Need) picker cs st (t : Target) st' : Prop :=
  let row := t_row t in
  match t_how t with
  | ByDevice =>
      exists v, sel = mkSelector (Some v) None None /\ admits need (devices !!! row) = true /\
      let spec := parse_device_spec v in
      (only devices (answers devices spec) row /\ st' = st) \/
      (none devices (answers devices spec) /\
       exists read s cards, cs = Some read /\ spec_text spec = Some s /\
         read_all read (readable_rows devices need) st = (cards, st') /\
         card_matches s (readable_rows devices need) cards = [row])
  | ByReader =>
      st' = st /\ exists typed, sel = mkSelector None (Some typed) None /\
      let exact i := opt_is (d_reader (devices !!! i)) (fun r => eq_ignore_ascii_case r typed) in
      let partial i := opt_is (d_reader (devices !!! i)) (fun r => contains (to_ascii_lowercase typed) (to_ascii_lowercase r)) in
      only devices exact row \/ (none devices exact /\ only devices partial row)
  | ByPath =>
      st' = st /\ exists p, sel = mkSelector None None (Some p) /\
      opt_is (d_hid_path (devices !!! row)) (fun q => path_eq q p) = true
  | OnlyCandidate => st' = st /\ sel = mkSelector None None None /\ only devices (fun i => admits need (devices !!! i)) row
  | Picked =>
      sel = mkSelector None None None /\ interactive picker st = true /\ admits need (devices !!! row) = true /\
      exists heading choices k c, pick picker heading choices st = (Ok k, st') /\
        Forall2 (shows need) (List.filter (fun i => admits need (devices !!! i)) (list_order devices)) choices /\
        choices !! Z.to_nat k = Some c /\ shows need row c
  end.

Lemma candidate_in need i : i ∈ candidate_rows devices need <-> (i < length devices)%nat /\ admits need (devices !!! i) = true.
Proof. unfold candidate_rows. by rewrite filter_in, list_order_range. Qed.

Lemma read_all_length read rows st : length (read_all read rows st).1 = length rows.
Proof.
  revert st. induction rows as [|i rows IH]; intros st; [done|]. cbn [read_all].
  destruct (read _ st) as [c st1]. specialize (IH st1). destruct (read_all read rows st1). simpl in *. by rewrite IH.
Qed.

Lemma card_matches_in s rows cards i : i ∈ card_matches s rows cards -> i ∈ rows.
Proof.
  intros ([j c] & -> & [Hin _]%list_elem_of_In%List.filter_In)%list_elem_of_fmap.
  apply in_combine_l in Hin. by apply list_elem_of_In.
Qed.

Lemma device_rows_in v need cs st i : i ∈ (device_rows v need cs st).1 -> (i < length devices)%nat.
Proof.
  assert (Hm : i ∈ rows_matching devices (parse_device_spec v) -> (i < length devices)%nat).
  { rewrite rows_matching_spec by apply parsed_spec_ok. by intros [Hi%list_order_range _]%filter_in. }
  unfold device_rows. repeat case_match; cbn [fst]; try done; simplify_eq.
  intros Hi%card_matches_in. unfold readable_rows in Hi. by apply filter_in in Hi as [Hi%list_order_range _].
Qed.

(** The target and why, as every way of choosing gives them. *)
Definition good (sel : Selector) (need : Need) picker cs st (t : Target) st' : Prop :=
  chosen sel need picker cs st t st' /\ t = target devices (t_row t) (t_how t) /\ (t_row t < length devices)%nat.

Lemma resolve_reader_chosen typed t need picker cs st :
  resolve_reader devices typed = Ok t -> good (mkSelector None (Some typed) None) need picker cs st t st.
Proof.
  unfold resolve_reader, pick_reader. cbn zeta.
  destruct (reader_rows devices (fun r => eq_ignore_ascii_case r typed)) as [|i [|j l]] eqn:He; cbn.
  - destruct (reader_rows devices _) as [|i [|j l]] eqn:Hp in |- *; cbn; [done| |done]. intros [= <-].
    apply filter_none in He. apply filter_only in Hp. split; [|split; [done|apply Hp]].
    split; [done|]. exists typed. split; [done|]. by right.
  - intros [= <-]. apply filter_only in He. split; [|split; [done|apply He]]. split; [done|]. exists typed. split; [done|]. by left.
  - done.
Qed.

Lemma resolve_path_chosen p t need picker cs st :
  resolve_path devices p = Ok t -> good (mkSelector None None (Some p)) need picker cs st t st.
Proof.
  unfold resolve_path. destruct (List.find _ _) as [i|] eqn:Hf; [|done]. intros [= <-].
  apply find_some in Hf as [Hin%list_elem_of_In%list_order_range Hp].
  split; [|split; [done|exact Hin]]. split; [done|]. by exists p.
Qed.

Lemma resolve_choice_chosen need picker cs st t st' :
  resolve_choice devices need picker st = (Ok t, st') -> good (mkSelector None None None) need picker cs st t st'.
Proof.
  unfold resolve_choice. destruct (candidate_rows devices need) as [|i [|j l]] eqn:Hc; [done| |].
  - intros [= <- <-]. apply filter_only in Hc. split; [|split; [done|apply Hc]]. by split.
  - destruct (interactive picker st) eqn:Hi; [|done]. unfold ask.
    match goal with |- context [pick picker ?h ?c st] => destruct (pick picker h c st) as [[k|e] st1] eqn:Hpick end; [|done].
    destruct ((i :: j :: l) !! Z.to_nat k) as [r|] eqn:Hk; [|done]. intros [= <- <-].
    pose proof (list_elem_of_lookup_2 _ _ _ Hk) as Hin. rewrite <- Hc in Hin, Hk. apply candidate_in in Hin as [Hin Ha].
    split; [|split; [done|exact Hin]]. split; [done|]. split; [done|]. split; [exact Ha|].
    assert (forall i, (i < length devices)%nat -> shows need i (mkChoice (number devices i) (row_label (devices !!! i)) (endpoint (devices !!! i) need))) as Hshow.
    { intros x Hx. unfold shows. cbn [ch_number ch_label ch_endpoint]. rewrite number_list_number.
      by destruct (list_number_some devices _ Hx) as (n & -> & _). }
    eexists _, _, k, _. split; [exact Hpick|]. split; [|split].
    + fold (order devices). fold (candidate_rows devices need). rewrite Hc, Forall2_fmap_r. apply Forall_Forall2_diag, list.Forall_forall.
      intros x Hx. apply Hshow. rewrite <- Hc in Hx. by apply candidate_in in Hx as [].
    + by rewrite list_lookup_fmap, <- Hc, Hk.
    + by apply Hshow.
Qed.

Lemma resolve_device_chosen v need picker cs st t st' :
  resolve_device devices v need cs st = (Ok t, st') -> good (mkSelector (Some v) None None) need picker cs st t st'.
Proof.
  rewrite resolve_device_run. intros Hv. injection Hv as Hv <-. unfold verdict in Hv.
  pose proof (device_rows_in v need cs st) as Hlt.
  destruct (device_rows v need cs st) as [[|i [|j l]] st'] eqn:Hd; cbn [fst snd] in *; [by destruct (newcomer_rows _ _)| |done].
  destruct (admits need (devices !!! i)) eqn:Ha; [|done]. injection Hv as <-.
  split; [|split; [done|apply Hlt; left]]. exists v. split; [done|]. split; [done|]. cbn zeta. cbn [target t_row].
  unfold device_rows in Hd. cbn zeta in Hd. destruct (rows_matching devices (parse_device_spec v)) as [|i' l'] eqn:Hm.
  - right. rewrite rows_matching_spec in Hm by apply parsed_spec_ok. split; [by apply filter_none|].
    destruct (newcomer_rows _ _); [|done]. destruct cs as [read|]; [|done]. destruct (spec_text _) as [s|] eqn:Hs; [|done].
    exists read, s. destruct (read_all read _ st) as [cards st2] eqn:Hra. injection Hd as Hd <-. by exists cards.
  - left. injection Hd as -> -> <-. rewrite rows_matching_spec in Hm by apply parsed_spec_ok.
    split; [by apply filter_only|done].
Qed.

(** C9: resolving never takes a first match. A row is the target of a command only
    when it is the one row the selector can mean: the only row answering to the
    [--device] value (or, when none does, the only Molto2 whose card answered with
    that serial), the only reader of that name or, failing that, containing it, the
    only row that can serve the command, or the one the person picked from the list
    of those that can. That list shows every row that can serve the command, in the
    order of [list], each with its own number, label and endpoint, and the place picked
    shows those of the row taken. A row's number is its place in [list], nothing is
    contacted or asked unless the choice needs it, and without [--reader] or [--path]
    the row can serve the command. *)
Theorem select_exact sel need picker cs st t st' :
  resolve devices sel need picker cs st = (Ok t, st') ->
  (t_row t < length devices)%nat /\ list_number devices (t_row t) = Some (t_number t) /\
  chosen sel need picker cs st t st'.
Proof.
  intros Hr. assert (good sel need picker cs st t st') as (Hc & Ht & Hlt).
  { apply resolve_cases in Hr as [[? _]|[(v & -> & Hv)|[(r & -> & Hv & ->)|[(p & -> & Hv & ->)|[-> Hv]]]]]; [done|..].
    - by apply resolve_device_chosen.
    - by apply resolve_reader_chosen.
    - by apply resolve_path_chosen.
    - by apply resolve_choice_chosen. }
  split_and!; [done| |done]. rewrite Ht at 2. cbn [target t_number]. rewrite number_list_number.
  by destruct (list_number_some devices _ Hlt) as (k & -> & _).
Qed.

(** ** Every refusal names the fix *)

Definition offered (e : SelectError) : list Candidate :=
  match e with
  | NoCandidates _ c | NeedsChoice _ c | NotFound _ _ c | Ambiguous _ c | NameNotConnected _ c | LacksCapability _ _ c => c
  | _ => []
  end.
(** The refusals that list only rows the command can use: all that say "choose one"
    but the ambiguous one, which lists the rows the value matches. *)
Definition offers_capable (e : SelectError) : bool :=
  match e with NeedsChoice _ _ | NotFound _ _ _ | LacksCapability _ _ _ => true | _ => false end.

(** The row answers to a value, or is one whose card was asked for it. *)
Definition matched (need : Need) (v : list Z) (i : nat) : Prop :=
  answers devices (parse_device_spec v) i = true \/ (i ∈ readable_rows devices need /\ admits need (devices !!! i) = true).

Definition offers (need : Need) (e : SelectError) : Prop :=
  exists rows, offered e = describe devices rows /\
    forall i, i ∈ rows -> (i < length devices)%nat /\ (offers_capable e = true -> admits need (devices !!! i) = true) /\
      (forall v ms, e = Ambiguous v ms -> matched need v i).

Lemma offers_candidates need e :
  offered e = describe devices (candidate_rows devices need) -> (forall v ms, e <> Ambiguous v ms) -> offers need e.
Proof.
  intros He Hn. exists (candidate_rows devices need). split; [done|]. intros i [Hi Ha]%candidate_in.
  split; [done|]. split; [done|]. intros v ms ->. by destruct (Hn v ms).
Qed.

Lemma device_rows_matched v need cs st i : i ∈ (device_rows v need cs st).1 -> matched need v i.
Proof.
  assert (Hm : i ∈ rows_matching devices (parse_device_spec v) -> matched need v i).
  { rewrite rows_matching_spec by apply parsed_spec_ok. intros [_ Ha]%filter_in. by left. }
  unfold device_rows. repeat case_match; cbn [fst]; try done; simplify_eq.
  intros Hi%card_matches_in. right. split; [done|]. unfold readable_rows in Hi. apply filter_in in Hi as [_ Hi].
  by apply andb_true_iff in Hi as [_ Hi].
Qed.

Lemma newcomer_in spec i : i ∈ newcomer_rows devices spec -> (i < length devices)%nat.
Proof.
  unfold newcomer_rows. destruct (named spec); [|by intros ?%elem_of_nil]. by intros [Hi%list_order_range _]%filter_in.
Qed.

Lemma resolve_offers sel need picker cs st e st' :
  resolve devices sel need picker cs st = (Err e, st') -> offers need e.
Proof.
  assert (Hnone : offered e = [] -> offers need e).
  { intros He. exists []. split; [done|]. by intros i ?%elem_of_nil. }
  intros [[[= ->] _]|[(v & _ & Hv)|[(r & _ & Hv & _)|[(p & _ & Hv & _)|[_ Hv]]]]]%resolve_cases.
  - by apply Hnone.
  - rewrite resolve_device_run in Hv. injection Hv as Hv <-. unfold verdict in Hv. pose proof (device_rows_in v need cs st) as Hlt.
    destruct (device_rows v need cs st) as [[|i [|j l]] st'] eqn:Hd; cbn [fst snd] in *.
    + destruct (newcomer_rows devices (parse_device_spec v)) as [|j l] eqn:Hnew; injection Hv as <-; [by apply offers_candidates|].
      exists (j :: l). split; [done|]. intros i Hi. split; [|by split]. rewrite <- Hnew in Hi. by apply newcomer_in in Hi.
    + destruct (admits need (devices !!! i)); [done|]. injection Hv as <-. by apply offers_candidates.
    + injection Hv as <-. exists (i :: j :: l). split; [done|]. intros k Hk. split; [by apply Hlt|]. split; [done|].
      intros v' ms' Hv'. injection Hv' as <- _. apply (device_rows_matched v need cs st). by rewrite Hd.
  - apply Hnone. revert Hv. unfold resolve_reader, pick_reader.
    repeat case_match; cbn; intros Hv; simplify_eq; by try injection Hv as ->.
  - apply Hnone. revert Hv. unfold resolve_path. case_match; [done|]. by intros [= ->].
  - revert Hv. unfold resolve_choice. destruct (candidate_rows devices need) as [|i [|j l]] eqn:Hc; [|done|].
    + intros [= <- _]. exists (order devices). split; [done|]. intros i Hi%list_order_range. by repeat split.
    + rewrite <- Hc. destruct (interactive picker st).
      * unfold ask. destruct (pick _ _ _ _) as [[k|x] st1]; [case_match; [done|]|]; intros [= <- _]; by apply Hnone.
      * intros [= <- _]. by apply offers_candidates.
Qed.
End resolving.


(** ** The numbers of a list are the same whatever order a scan found the rows in *)

Lemma total_seq (devices : list Device) : (fun i => devices !!! i) <$> seq 0 (length devices) = devices.
Proof.
  apply list_eq. intros i. rewrite list_lookup_fmap. destruct (decide (i < length devices)%nat) as [Hi|Hi].
  - rewrite lookup_seq_lt by done. simpl. symmetry. by apply list_lookup_lookup_total_lt.
  - rewrite lookup_seq_ge, lookup_ge_None_2 by lia. done.
Qed.

(** The numbering of [list] does not depend on the order the scan found the keys
    in: two scans that found the same rows, no two of them alike in serial and id,
    list them in the same order. *)
Theorem select_order_stable devices devices' :
  devices ≡ₚ devices' ->
  (forall x y, x ∈ devices -> y ∈ devices -> row_cmp x y = Eq -> x = y) ->
  (fun i => devices !!! i) <$> list_order devices = (fun i => devices' !!! i) <$> list_order devices'.
Proof.
  intros Hp Hd. unfold list_order.
  rewrite (sort_by_map (fun i => devices !!! i) row_cmp), (sort_by_map (fun i => devices' !!! i) row_cmp), !total_seq.
  by apply sort_by_permuted; [apply _|..].
Qed.

(** ** What is read, and when *)

Section reads.
Context `{Unicode} {S : Type}.

(** A card serial is read only when [--device] gave a value that could be one and
    it matches no row and no key that merely carries it as a name; then exactly the
    Molto2 rows the command can use are read, in list order, each once. In every
    other case resolving is the same as without a card reader. *)
Theorem select_contacts devices sel need (picker : Picker S) read st :
  (exists v s, sel = mkSelector (Some v) None None /\ spec_text (parse_device_spec v) = Some s /\
     none devices (answers devices (parse_device_spec v)) /\ newcomer_rows devices (parse_device_spec v) = [] /\
     (resolve devices sel need picker (Some read) st).2 = (read_all devices read (readable_rows devices need) st).2) \/
  resolve devices sel need picker (Some read) st = resolve devices sel need picker None st.
Proof.
  destruct (resolve devices sel need picker (Some read) st) as [r st'] eqn:Hr.
  pose proof Hr as [(-> & -> & Hc)|[(v & -> & Hv)|[(x & -> & -> & ->)|[(x & -> & -> & ->)|[-> Hv]]]]]%resolve_cases.
  - by right.
  - rewrite resolve_by_device, resolve_device_run in *. injection Hv as <- <-. cbn [snd].
    unfold device_rows. cbn zeta. destruct (rows_matching devices (parse_device_spec v)) as [|i l] eqn:Hm; [|by right].
    destruct (newcomer_rows devices (parse_device_spec v)) as [|j k] eqn:Hn; [|by right].
    destruct (spec_text (parse_device_spec v)) as [s|] eqn:Hs; [|by right]. left. exists v, s.
    rewrite rows_matching_spec in Hm by apply parsed_spec_ok. apply filter_none in Hm.
    split_and!; [done..|]. by destruct (read_all devices read _ st).
  - by right.
  - by right.
  - by right.
Qed.
End reads.

(** ** Names that need not be read *)

(** A row whose names alone may have changed. *)
Definition renamed (d d' : Device) : Prop :=
  exists name naming, d' = mkDevice (d_id d) name (d_vendor d) (d_model d) (d_serial d) (d_transport d) (d_firmware d)
    (d_caps d) (d_unverified d) (d_kind d) (d_hid_path d) (d_reader d) (d_hid_serial d) (d_former_serial d) naming
    (d_smart_card_unlisted d).

Section renaming.
Context `{Unicode} {S : Type} (devices devices' : list Device).
Hypothesis Hren : Forall2 renamed devices devices'.

Lemma renamed_row i : renamed (devices !!! i) (devices' !!! i).
Proof.
  rewrite !list_lookup_total_alt. destruct (devices !! i) as [d|] eqn:Hd.
  - destruct (Forall2_lookup_l _ _ _ _ _ Hren Hd) as (d' & -> & Hr). exact Hr.
  - rewrite lookup_ge_None in Hd. rewrite (list.Forall2_length _ _ _ Hren) in Hd.
    rewrite (lookup_ge_None_2 devices') by done. by exists None, no_naming.
Qed.

Lemma renamed_order : list_order devices' = list_order devices.
Proof.
  unfold list_order. rewrite <- (list.Forall2_length _ _ _ Hren). apply sort_by_ext. intros i j.
  destruct (renamed_row i) as (? & ? & ->), (renamed_row j) as (? & ? & ->). done.
Qed.
Lemma renamed_number i : list_number devices' i = list_number devices i.
Proof. unfold list_number. by rewrite renamed_order. Qed.
Lemma renamed_target i how : target devices' i how = target devices i how.
Proof. unfold target, number, order. by rewrite renamed_order. Qed.
Lemma renamed_admits need i : admits need (devices' !!! i) = admits need (devices !!! i).
Proof. by destruct (renamed_row i) as (? & ? & ->). Qed.
Lemma renamed_candidates need : candidate_rows devices' need = candidate_rows devices need.
Proof. unfold candidate_rows, order. rewrite renamed_order. apply List.filter_ext. intros i. apply renamed_admits. Qed.
Lemma renamed_readers hit : reader_rows devices' hit = reader_rows devices hit.
Proof.
  unfold reader_rows, order. rewrite renamed_order. apply List.filter_ext. intros i. by destruct (renamed_row i) as (? & ? & ->).
Qed.
Lemma renamed_serial i s : has_serial (devices' !!! i) s = has_serial (devices !!! i) s.
Proof. by destruct (renamed_row i) as (? & ? & ->). Qed.

(** The answers that do not look at names. *)
Definition answers_unnamed (spec : DeviceSpec) (i : nat) : bool :=
  match spec with
  | SpecSerial s => negb (bool_decide (s = [])) && has_serial (devices !!! i) s
  | SpecNumber k => is_number devices i k
  | SpecAny v => negb (bool_decide (v = [])) && has_serial (devices !!! i) v || opt_is (parse_number v) (is_number devices i)
  | _ => false
  end.
Lemma renamed_is_number i k : is_number devices' i k = is_number devices i k.
Proof. unfold is_number. by rewrite renamed_number. Qed.
Lemma renamed_answers_any v i :
  answers devices' (SpecAny v) i = has_name (devices' !!! i) v || answers_unnamed (SpecAny v) i.
Proof.
  cbn [answers answers_unnamed]. rewrite renamed_serial, <- orb_assoc. do 2 f_equal.
  destruct (parse_number v); [|done]. apply renamed_is_number.
Qed.

Lemma candidates_length need : length (candidate_rows devices need) = length (List.filter (admits need) devices).
Proof.
  unfold candidate_rows, order. rewrite <- (total_seq devices) at 2.
  assert (Hmap : forall l, length (List.filter (admits need) ((fun i => devices !!! i) <$> l)) =
    length (List.filter (fun i => admits need (devices !!! i)) l)).
  { induction l as [|i l IH]; [done|]. rewrite fmap_cons. cbn [List.filter]. by destruct (admits need _); cbn [length]; rewrite IH. }
  rewrite Hmap. generalize (list_order_perm devices). induction 1; cbn [List.filter]; try congruence.
  - by destruct (admits _ _); cbn [length]; rewrite IHPermutation.
  - by destruct (admits _ _), (admits _ _).
Qed.

(** Some row answers a bare value without its name when names need not be read. *)
Lemma unnamed_exists v :
  existsb (fun d => has_serial d v) devices && negb (bool_decide (v = [])) ||
  opt_is (parse_number v) (fun k => (1 <=? k) && (k <=? zlen devices)) = true ->
  exists i, (i < length devices)%nat /\ answers_unnamed (SpecAny v) i = true.
Proof.
  intros [[(d & Hd & Hs)%existsb_exists Hv]%andb_true_iff|Hk]%orb_true_iff.
  - apply list_elem_of_In, list_elem_of_lookup in Hd as [i Hi]. exists i. split; [by apply lookup_lt_Some in Hi|].
    cbn [answers_unnamed]. by rewrite Hv, (list_lookup_total_correct _ _ _ Hi), Hs.
  - destruct (parse_number v) as [k|] eqn:Hp; [|done]. cbn [opt_is] in Hk. bools.
    destruct (lookup_lt_is_Some_2 (list_order devices) (Z.to_nat (k - 1))) as [i Hi].
    { rewrite list_order_length. unfold zlen in *. lia. }
    exists i. split; [by eapply list_order_range, list_elem_of_lookup_2|]. cbn [answers_unnamed]. rewrite Hp.
    cbn [opt_is]. unfold is_number. rewrite (bool_decide_eq_true_2 (_ = Some k)), orb_true_r; [done|].
    by apply list_number_iff.
Qed.

Lemma resolve_device_unread v need (st : S) :
  resolve_device devices v need None st = (verdict devices v need (rows_matching devices (parse_device_spec v)), st).
Proof.
  rewrite resolve_device_run. unfold device_rows. cbn zeta.
  by destruct (rows_matching devices (parse_device_spec v)), (newcomer_rows devices (parse_device_spec v)).
Qed.

Lemma verdict_Ok v need rows t :
  verdict devices v need rows = Ok t <->
  exists i, rows = [i] /\ admits need (devices !!! i) = true /\ t = target devices i ByDevice.
Proof.
  unfold verdict. destruct rows as [|i [|j l]].
  - by destruct (newcomer_rows devices _); (split; [done|]; intros (i & ? & _)).
  - destruct (admits need (devices !!! i)) eqn:Ha; split; try done.
    + intros [= <-]. by exists i.
    + by intros (j & [= <-] & _ & ->).
    + intros (j & [= <-] & Hj & _). congruence.
  - split; [done|]. by intros (k & ? & _).
Qed.
End renaming.

Section unneeded.
Context `{Unicode} {S : Type} (devices devices' : list Device).
Hypothesis Hren : Forall2 renamed devices devices'.

(** The same rows answer a value that is not a name. *)
Lemma rows_unnamed spec :
  match spec with SpecSerial _ | BadNumber _ => True | SpecNumber k => 0 <= k | _ => False end ->
  rows_matching devices' spec = rows_matching devices spec.
Proof.
  intros Hs. rewrite !rows_matching_spec by (by destruct spec). rewrite (renamed_order _ _ Hren).
  apply List.filter_ext. intros i. destruct spec; cbn [answers]; try done.
  - by rewrite (renamed_serial _ _ Hren).
  - by apply renamed_is_number.
Qed.

Lemma rows_any v i :
  (exists j, (j < length devices)%nat /\ answers_unnamed devices (SpecAny v) j = true) ->
  rows_matching devices (SpecAny v) = [i] -> i ∈ rows_matching devices' (SpecAny v).
Proof.
  intros (j & Hj & Ha). rewrite !rows_matching_spec by done. intros Hi.
  assert (j ∈ List.filter (answers devices (SpecAny v)) (list_order devices)) as Hin.
  { apply filter_in. split; [by apply list_order_range|]. cbn [answers answers_unnamed] in *.
    rewrite <- orb_assoc. by rewrite Ha, orb_true_r. }
  rewrite Hi in Hin. apply list_elem_of_singleton in Hin as ->. apply filter_in.
  rewrite (renamed_order _ _ Hren). split; [by apply list_order_range|].
  by rewrite (renamed_answers_any _ _ Hren), Ha, orb_true_r.
Qed.

Lemma device_unneeded v need (picker : Picker S) (st : S) t st' :
  selection_needs_key_names devices (mkSelector (Some v) None None) need = false ->
  resolve_device devices v need None st = (Ok t, st') ->
  resolve_device devices' v need None st = (Ok t, st') \/
  exists ms, parse_device_spec v = SpecAny v /\ resolve_device devices' v need None st = (Err (Ambiguous v ms), st').
Proof.
  intros Hneed. rewrite !resolve_device_unread. intros [= (i & Hi & Ha & ->)%verdict_Ok <-].
  assert (Hsame : rows_matching devices' (parse_device_spec v) = [i] ->
    verdict devices' v need (rows_matching devices' (parse_device_spec v)) = Ok (target devices i ByDevice)).
  { intros Hrows. apply verdict_Ok. exists i. rewrite (renamed_admits _ _ Hren), (renamed_target _ _ Hren). done. }
  unfold selection_needs_key_names in Hneed. cbn [sel_device sel_reader sel_path fmap option_fmap option_map] in Hneed.
  pose proof (parsed_spec_ok v) as Hok. destruct (parse_device_spec v) as [w|n|s|k|n] eqn:Hp; try done.
  - assert (w = v) as -> by (unfold parse_device_spec in Hp; repeat case_match; congruence).
    assert (i ∈ rows_matching devices' (SpecAny v)) as Hin.
    { apply rows_any; [|done]. apply (unnamed_exists devices). apply negb_false_iff in Hneed. by rewrite andb_comm. }
    destruct (rows_matching devices' (SpecAny v)) as [|j [|k l]] eqn:Hrows; [by apply elem_of_nil in Hin| |].
    + left. rewrite Hsame; [done|]. by apply list_elem_of_singleton in Hin as ->.
    + right. exists (describe devices' (j :: k :: l)). split; [done|]. done.
  - left. rewrite Hsame; [done|]. by rewrite rows_unnamed.
  - left. rewrite Hsame; [done|]. by rewrite rows_unnamed.
Qed.

Lemma renamed_resolve_reader typed : resolve_reader devices' typed = resolve_reader devices typed.
Proof.
  assert (Hpick : forall rows, pick_reader devices' typed rows = pick_reader devices typed rows).
  { intros rows. assert (omap (fun i => d_reader (devices' !!! i)) rows = omap (fun i => d_reader (devices !!! i)) rows) as Ho.
    { clear -Hren. induction rows as [|i rows IH]; [done|]. cbn [omap list_omap]. fold (omap (M := list) (A := nat) (B := list Z)).
      rewrite IH. by destruct (renamed_row _ _ Hren i) as (? & ? & ->). }
    unfold pick_reader. rewrite Ho. destruct rows as [|i [|j l]]; [done| |done]. by rewrite (renamed_target _ _ Hren). }
  unfold resolve_reader. by rewrite !(renamed_readers _ _ Hren), !Hpick.
Qed.

Lemma renamed_resolve_path p : resolve_path devices' p = resolve_path devices p.
Proof.
  unfold resolve_path, order. rewrite (renamed_order _ _ Hren).
  assert (Hf : forall l, List.find (fun i => opt_is (d_hid_path (devices' !!! i)) (fun q => path_eq q p)) l =
                         List.find (fun i => opt_is (d_hid_path (devices !!! i)) (fun q => path_eq q p)) l).
  { induction l as [|i l IH]; [done|]. cbn [List.find]. rewrite IH. by destruct (renamed_row _ _ Hren i) as (? & ? & ->). }
  rewrite Hf. destruct (List.find _ _); [by rewrite (renamed_target _ _ Hren)|done].
Qed.

Lemma choice_unneeded need (picker : Picker S) st t st' :
  selection_needs_key_names devices (mkSelector None None None) need = false ->
  resolve_choice devices need picker st = (Ok t, st') -> resolve_choice devices' need picker st = (Ok t, st').
Proof.
  intros Hneed. change (selection_needs_key_names _ _ need) with (1 <? zlen (List.filter (admits need) devices)) in Hneed.
  unfold zlen in Hneed. rewrite <- candidates_length in Hneed. unfold resolve_choice. rewrite (renamed_candidates _ _ Hren).
  destruct (candidate_rows devices need) as [|i [|j l]]; [done| |bools; cbn [length] in *; lia].
  by rewrite (renamed_target _ _ Hren).
Qed.
End unneeded.

(** When [selection_needs_key_names] says the names stored on the keys need not be
    read, reading them can't make a command act on another key: a choice made without
    them stays the same row, except that an unprefixed [--device] value may turn out
    to be another key's name too and is then refused as ambiguous. *)
Theorem select_names_unneeded `{Unicode} {S : Type} devices devices' sel need (picker : Picker S) st t st' :
  Forall2 renamed devices devices' -> selection_needs_key_names devices sel need = false ->
  resolve_target devices sel need picker st = (Ok t, st') ->
  resolve_target devices' sel need picker st = (Ok t, st') \/
  exists v ms, sel = mkSelector (Some v) None None /\ parse_device_spec v = SpecAny v /\
    resolve_target devices' sel need picker st = (Err (Ambiguous v ms), st').
Proof.
  intros Hren Hneed Hr. unfold resolve_target in *.
  apply resolve_cases in Hr as [[? _]|[(v & -> & Hv)|[(r & -> & Hv & ->)|[(p & -> & Hv & ->)|[-> Hv]]]]]; [done|..].
  - destruct (device_unneeded devices devices' Hren v need picker st t st' Hneed Hv) as [Hd|(ms & Hp & Hd)].
    + left. by rewrite resolve_by_device.
    + right. exists v, ms. by rewrite resolve_by_device.
  - left. change (resolve devices' (mkSelector None (Some r) None) need picker None st) with (resolve_reader devices' r, st).
    by rewrite (renamed_resolve_reader devices), Hv.
  - left. change (resolve devices' (mkSelector None None (Some p)) need picker None st) with (resolve_path devices' p, st).
    by rewrite (renamed_resolve_path devices), Hv.
  - left. by apply (choice_unneeded devices).
Qed.

(** * Concrete runs *)

Section runs.
#[local] Existing Instance ascii_unicode.

Definition run_row (id model serial : list Z) (name : option (list Z)) (selectable : bool) (caps : Z) (kind : DeviceKind)
    (hid reader : option (list Z)) : Device :=
  mkDevice id name (s2b "Token2") model serial [] [] caps 0 kind hid reader None None
    (mkNaming name ((fun _ => SrcComputer) <$> name) selectable NotRead None) false.

(** Two keys, the second carrying the first one's name and not selectable by it, and
    a Molto2 that shows a serial in its reader name. *)
Definition run_rows : list Device :=
  [ run_row (s2b "serial:77") (s2b "Bio3") (s2b "77") (Some (s2b "it's mine")) true (Z.lor Caps.FIDO2 Caps.OATH) Key
      (Some (s2b "/dev/hidraw1")) (Some (s2b "Token2 Bio3 00 00"));
    run_row (s2b "serial:5A") (s2b "R3") (s2b "5A") (Some (s2b "it's mine")) false Caps.FIDO2 Key (Some (s2b "/dev/hidraw0")) None;
    run_row (s2b "molto:r") (s2b "Molto2") [] None false Caps.TOTP Token None (Some (s2b "TOKEN2 Molto2 (5C7D) 02 00")) ].

Example run_order : list_order run_rows = [1; 0; 2]%nat.
Proof. reflexivity. Qed.
Example run_values : device_value run_rows <$> [0; 1; 2]%nat = [s2b "it's mine"; s2b "5A"; s2b "serial:5C7D"].
Proof. vm_compute. reflexivity. Qed.

Definition by_device (v : list Z) : Selector := mkSelector (Some v) None None.

(** A person who picks the second line. *)
Definition second_picker : Picker unit := mkPicker unit (fun _ => true) (fun _ _ s => (Ok 1, s)).

Lemma select_exact_witness :
  chosen (S := unit) run_rows (by_device (s2b "it's mine")) FidoHid no_picker None tt (mkTarget 0 2 ByDevice) tt /\
  chosen run_rows (mkSelector None None None) FidoHid second_picker None tt (mkTarget 0 2 Picked) tt.
Proof.
  split.
  - apply (select_exact run_rows (by_device (s2b "it's mine")) FidoHid no_picker None tt (mkTarget 0 2 ByDevice) tt).
    vm_compute. reflexivity.
  - apply (select_exact run_rows (mkSelector None None None) FidoHid second_picker None tt (mkTarget 0 2 Picked) tt).
    vm_compute. reflexivity.
Defined.


Lemma select_order_stable_witness :
  (fun i => run_rows !!! i) <$> list_order run_rows = (fun i => rev run_rows !!! i) <$> list_order (rev run_rows).
Proof.
  apply select_order_stable.
  - apply Permutation_rev.
  - intros x y Hx Hy. repeat (apply elem_of_cons in Hx as [->|Hx]); repeat (apply elem_of_cons in Hy as [->|Hy]);
      try (by apply elem_of_nil in Hx); try (by apply elem_of_nil in Hy); (done || (vm_compute; discriminate)).
Defined.

(** The scan before the names are read, and the same rows after it. *)
Definition unread_rows : list Device :=
  (fun d => mkDevice (d_id d) None (d_vendor d) (d_model d) (d_serial d) (d_transport d) (d_firmware d) (d_caps d)
    (d_unverified d) (d_kind d) (d_hid_path d) (d_reader d) (d_hid_serial d) (d_former_serial d) no_naming
    (d_smart_card_unlisted d)) <$> run_rows.

Lemma select_names_unneeded_witness :
  resolve_target (S := unit) run_rows (by_device (s2b "5a")) FidoHid no_picker tt = (Ok (mkTarget 1 1 ByDevice), tt).
Proof.
  destruct (select_names_unneeded unread_rows run_rows (by_device (s2b "5a")) FidoHid (@no_picker unit) tt
    (mkTarget 1 1 ByDevice) tt) as [Hr|(v & ms & _ & _ & Hr)].
  - repeat constructor; by eexists _, _.
  - vm_compute. reflexivity.
  - vm_compute. reflexivity.
  - exact Hr.
  - vm_compute in Hr. discriminate.
Defined.

(** A serial with a control character: the value shown is cleaned, and pasted back it
    names no row. *)
Definition odd_rows : list Device :=
  [ run_row (s2b "a") (s2b "X") (s2b "7" ++ [27]) None false Caps.FIDO2 Key (Some (s2b "/dev/hidraw1")) None;
    run_row (s2b "b") (s2b "X") (s2b "8") None false Caps.FIDO2 Key (Some (s2b "/dev/hidraw2")) None ].
Example cleaned_value_lost :
  device_value odd_rows 0 = s2b "7" ++ [27] /\ candidate_text (mkCandidate (device_value odd_rows 0) []) = s2b "--device '7?' ()" /\
  rows_matching odd_rows (parse_device_spec (s2b "7?")) = [].
Proof. vm_compute. done. Qed.

(** A bare value that is one key's serial and, stored on another key, its name: the
    names need not be read, and reading them would have made the value ambiguous. *)
Definition twin_rows (named : bool) : list Device :=
  [ run_row (s2b "serial:77") (s2b "X") (s2b "77") None false Caps.FIDO2 Key (Some (s2b "/dev/hidraw1")) None;
    run_row (s2b "serial:88") (s2b "X") (s2b "88") (if named then Some (s2b "77") else None) named Caps.FIDO2 Key (Some (s2b "/dev/hidraw2")) None ].
Example names_would_matter :
  selection_needs_key_names (twin_rows false) (by_device (s2b "77")) FidoHid = false /\
  is_ok (resolve_target (S := unit) (twin_rows false) (by_device (s2b "77")) FidoHid no_picker tt).1 = true /\
  is_ok (resolve_target (S := unit) (twin_rows true) (by_device (s2b "77")) FidoHid no_picker tt).1 = false.
Proof. vm_compute. done. Qed.
End runs.
