(* ===== verification/KeyNames.v ===== *)
(** keyroost-resolve/src/names.rs: one naming pass over a scan's rows. Which name
    each key shows, whether [--device NAME] may select it, and what the scan learned
    for the registry. Then what the pass promises. *)
From stdpp Require Export gmap.
From S2P Require Export Select.

(** Names claimed earlier in the pass, with who claimed them. *)
Notation Claimed := (gmap (list Z) (list Z)).

Section names.
Context `{Unicode}.

Definition from_text (text : list Z) : KeyLabel :=
  if is_ok (validate_name text) then LblPresent text else Unreadable.

Definition naming_local (name : option (list Z)) : Naming :=
  mkNaming name ((fun _ => SrcComputer) <$> name) (bool_decide (is_Some name)) NotRead None.

Inductive NameUpdate :=
  | FirstSeen (serial name : list Z)
  | DropStale (serial current : list Z)
  | Unrecordable (name : list Z).

Definition serial_tail (serial : list Z) : list Z :=
  let cs := chars serial in
  if (length cs <? 4)%nat then serial else utf8_encode (drop (length cs - 4) cs).
Definition shown_tail (serial : list Z) : list Z :=
  utf8_encode ((fun c => if is_control c || is_whitespace c || is_spoofing_char c then 63 else c) <$> chars (serial_tail serial)).

Definition usable (s : list Z) : bool := negb (bool_decide (canonical_serial s = [])).
Definition known_serials (serial : list Z) (hid_serial former_serial : option (list Z)) : list (list Z) :=
  List.filter usable (serial :: option_list hid_serial ++ option_list former_serial).
Definition row_serials (d : Device) : list (list Z) :=
  known_serials (d_serial d) (d_hid_serial d) (d_former_serial d).

Definition serial_for_display (serial : list Z) : list Z :=
  let hex := negb (bool_decide (serial = [])) &&
             forallb (fun b => between 48 57 b || between 65 70 b || between 97 102 b) serial in
  if hex && existsb (between 97 122) serial then to_ascii_uppercase serial else serial.

(** ** One row *)

Definition on_key_of (labels : gmap (list Z) KeyLabel) (d : Device) : KeyLabel :=
  match labels !! d_id d with
  | Some (LblPresent l) => from_text l
  | Some other => other
  | None => NotRead
  end.

(** Whether one of the row's serials has the record's fingerprint. *)
Definition knows (k : Keyring) (d : Device) (h : KeyRecord) : bool :=
  bool_decide (is_Some (r_fingerprint h)) &&
  existsb (fun s => bool_decide (fingerprint_of k s = r_fingerprint h)) (row_serials d).

Definition claim_of (d : Device) : list Z :=
  let canon := canonical_serial (d_serial d) in if bool_decide (canon = []) then s2b "row:" ++ d_id d else canon.

(** The name on the key: selectable, shown text, claims, first sight. *)
Definition key_name (k : Keyring) (claimed : Claimed) (d : Device) (l : list Z) :
    bool * list Z * Claimed * list NameUpdate :=
  let canon := canonical_serial (d_serial d) in
  let claim := claim_of d in
  let first_here := match claimed !! l with Some by_ => bool_decide (by_ = claim) | None => true end in
  if bool_decide (holder k l = None) && first_here then
    (true, l, <[l := claim]> claimed,
     if bool_decide (claimed !! l = None)
     then [if bool_decide (canon = []) then Unrecordable l else FirstSeen (d_serial d) l] else [])
  else if negb (bool_decide (canon = [])) && opt_is (holder k l) (knows k d) then
    (true, l, match claimed !! l with Some _ => claimed | None => <[l := canon]> claimed end, [])
  else if negb (bool_decide (canon = [])) then
    (false, l ++ s2b " (" ++ shown_tail (d_serial d) ++ s2b ")", claimed, [])
  else (false, l, claimed, []).

(** Records of other names, each serial looked up once. *)
Fixpoint stale (k : Keyring) (l : list Z) (seen known : list (list Z)) : list NameUpdate :=
  match known with
  | [] => []
  | s :: known =>
      let c := canonical_serial s in
      if bool_decide (c ∈ seen) then stale k l seen known
      else (if existsb (fun r => bool_decide (r_stored r = OnKey) && negb (bool_decide (r_name r = l))) (records_for k s)
            then [DropStale s l] else []) ++ stale k l (seen ++ [c]) known
  end.

Definition with_naming (d : Device) (shown : option (list Z)) (n : Naming) : Device :=
  mkDevice (d_id d) shown (d_vendor d) (d_model d) (d_serial d) (d_transport d) (d_firmware d) (d_caps d) (d_unverified d)
    (d_kind d) (d_hid_path d) (d_reader d) (d_hid_serial d) (d_former_serial d) n (d_smart_card_unlisted d).

Definition name_row (k : Keyring) (labels : gmap (list Z) KeyLabel) (claimed : Claimed) (d : Device) :
    Device * Claimed * list NameUpdate :=
  let on_key := on_key_of labels d in
  let known := row_serials d in
  match on_key with
  | LblPresent l =>
      let '(selectable, shown, claimed, first) := key_name k claimed d l in
      (with_naming d (Some shown) (mkNaming (Some l) (Some SrcKey) selectable on_key None), claimed, first ++ stale k l [] known)
  | _ =>
      let local := find_map (local_name_for k) known in
      let missing :=
        if bool_decide (on_key = LblAbsent)
        then find_map (fun s => r_name <$> List.find (fun r => bool_decide (r_stored r = OnKey)) (records_for k s)) known
        else None in
      (with_naming d local (mkNaming local ((fun _ => SrcComputer) <$> local) (bool_decide (is_Some local)) on_key missing), claimed, [])
  end.

(** ** The pass *)

Fixpoint name_rows (k : Keyring) (labels : gmap (list Z) KeyLabel) (order : list nat) (claimed : Claimed) (devices : list Device) :
    list Device * list NameUpdate :=
  match order with
  | [] => (devices, [])
  | i :: order =>
      let '(d, claimed, ups) := name_row k labels claimed (devices !!! i) in
      let '(devices, ups') := name_rows k labels order claimed (<[i := d]> devices) in (devices, ups ++ ups')
  end.
Definition apply_names (devices : list Device) (k : Keyring) (labels : gmap (list Z) KeyLabel) : list Device * list NameUpdate :=
  name_rows k labels (list_order devices) ∅ devices.

(** ** Changes to the registry *)

Definition name_held_elsewhere (k : Keyring) (name : list Z) (serials : list (list Z)) : bool :=
  match holder k name with
  | None => false
  | Some h =>
      negb (bool_decide (is_Some (r_fingerprint h)) &&
            existsb (fun s => bool_decide (fingerprint_of k s = r_fingerprint h)) serials)
  end.

Definition set_key_name (rng : option (list Z)) (serials : list (list Z)) (name : list Z) (store : NameStore) (meta : RecordMeta)
    (k : Keyring) : result KeyringError unit * Keyring :=
  match serials with
  | [] => (Err NoSerial, k)
  | primary :: rest =>
      let ours := fingerprint_of k primary in
      let others := List.filter (fun fp => negb (bool_decide (Some fp = ours))) (omap (fingerprint_of k) rest) in
      let gone r := opt_is (r_fingerprint r) (fun fp => bool_decide (fp ∈ others)) &&
                    (bool_decide (store = OnKey) || bool_decide (r_stored r = Computer) || bool_decide (r_name r = name)) in
      set_name rng primary name store meta (with_keys k (List.filter (fun r => negb (gone r)) (keys k)))
  end.

Fixpoint clear_key_names (serials : list (list Z)) (k : Keyring) : Z * Keyring :=
  match serials with
  | [] => (0, k)
  | s :: serials =>
      let '(gone, k) := clear_key s k in
      let '(n, k) := clear_key_names serials k in (zlen gone + n, k)
  end.

(** [rngs] is what the random source answers if a salt is first needed. *)
Fixpoint apply_updates (rng : option (list Z)) (updates : list NameUpdate) (k : Keyring) : Z * Z * Keyring :=
  match updates with
  | [] => (0, 0, k)
  | u :: updates =>
      let '(rec1, drop1, k) :=
        match u with
        | FirstSeen serial name => let '(b, k) := record_first_seen rng serial name k in ((if b : bool then 1 else 0), 0, k)
        | DropStale serial current => let '(n, k) := drop_stale_key_records serial current k in (0, n, k)
        | Unrecordable _ => (0, 0, k)
        end in
      let '(rec2, drop2, k) := apply_updates rng updates k in (rec1 + rec2, drop1 + drop2, k)
  end.
End names.

(** What keyroost-resolve/src/names.rs promises: the pass is a function of each row, the
    registry and the first row in list order to carry a name; a name selects one identity; and a
    name this computer has seen on a key is never taken over by another key, over any sequence
    of scans. *)

Section names_spec.
Context `{Unicode}.
Implicit Types (k : Keyring) (labels : gmap (list Z) KeyLabel) (d : Device) (l : list Z).

(** * The pass, row by row *)

Definition carries labels d l : bool := bool_decide (on_key_of labels d = LblPresent l).

(** The claim of the first row, in the given order, to carry [l] itself. *)
Definition first_claim labels (devices : list Device) (order : list nat) l : option (list Z) :=
  find_map (fun i => if carries labels (devices !!! i) l then Some (claim_of (devices !!! i)) else None) order.

(** Whether [--device l] may select a row carrying [l] itself. *)
Definition may_select k (first : option (list Z)) d l : bool :=
  match holder k l with
  | None => bool_decide (first = Some (claim_of d))
  | Some h => usable (d_serial d) && knows k d h
  end.

(** The row named: no state but who carries the name first. *)
Definition named_row k labels (first : list Z -> option (list Z)) d : Device :=
  match on_key_of labels d with
  | LblPresent l =>
      let ok := may_select k (first l) d l in
      with_naming d (Some (if ok || negb (usable (d_serial d)) then l else l ++ s2b " (" ++ shown_tail (d_serial d) ++ s2b ")"))
        (mkNaming (Some l) (Some SrcKey) ok (LblPresent l) None)
  | _ => (name_row k labels ∅ d).1.1
  end.

Definition seen_first labels (claimed : Claimed) devices order l : option (list Z) :=
  match claimed !! l with Some c => Some c | None => first_claim labels devices order l end.

Lemma from_text_not_absent t : from_text t = LblPresent t \/ from_text t = Unreadable.
Proof. unfold from_text. destruct (is_ok _); auto. Qed.

Lemma name_row_claims k labels claimed d :
  match on_key_of labels d with
  | LblPresent l =>
      let r := name_row k labels claimed d in
      (holder k l = None -> r.1.2 !! l = Some (default (claim_of d) (claimed !! l))) /\
      (forall l', l' <> l -> r.1.2 !! l' = claimed !! l') /\
      (forall first, (holder k l = None -> first l = r.1.2 !! l) -> r.1.1 = named_row k labels first d)
  | _ => (name_row k labels claimed d).1 = ((name_row k labels ∅ d).1.1, claimed)
  end.
Proof.
  destruct (on_key_of labels d) as [| | | |l|] eqn:Hl; try by (unfold name_row; rewrite Hl).
  unfold name_row, named_row. rewrite Hl. unfold key_name, may_select, usable. cbn zeta.
  destruct (holder k l) as [h|] eqn:Hh.
  - rewrite (bool_decide_eq_false_2 (Some h = None)) by done. cbn [andb opt_is].
    destruct (bool_decide (canonical_serial (d_serial d) = [])); cbn [negb andb orb].
    + split_and!; [done|done|]. intros first _. by destruct (knows k d h).
    + destruct (knows k d h); cbn [fst snd]; split_and!; try done.
      intros l' Hne. destruct (claimed !! l); [done|]. by rewrite lookup_insert_ne.
  - rewrite (bool_decide_eq_true_2 (None = None)) by done. cbn [andb opt_is].
    destruct (claimed !! l) as [c|] eqn:Hc; cbn [fst snd from_option default].
    + destruct (bool_decide (c = claim_of d)) eqn:Hcc; cbn [fst snd].
      * apply bool_decide_eq_true in Hcc as ->. split_and!; [intros _; by rewrite lookup_insert_eq|intros; by rewrite lookup_insert_ne|].
        intros first Hf. rewrite Hf, lookup_insert_eq, (bool_decide_eq_true_2 (Some _ = Some _)) by done. done.
      * apply bool_decide_eq_false in Hcc.
        destruct (bool_decide (canonical_serial (d_serial d) = [])) eqn:Hcan; cbn [negb andb fst snd]; (split_and!; [done|done|]);
          intros first Hf; rewrite Hf, Hc, (bool_decide_eq_false_2 (Some c = _)) by congruence; done.
    + split_and!; [intros _; by rewrite lookup_insert_eq|intros; by rewrite lookup_insert_ne|].
      intros first Hf. rewrite Hf, lookup_insert_eq, (bool_decide_eq_true_2 (Some _ = Some _)) by done. done.
Qed.

Lemma carries_iff labels d l : carries labels d l = true <-> on_key_of labels d = LblPresent l.
Proof. apply bool_decide_eq_true. Qed.

(** What the claims say of a name no record holds, before and after a row. *)
Lemma seen_first_step k labels claimed devices i order l :
  holder k l = None ->
  seen_first labels (name_row k labels claimed (devices !!! i)).1.2 devices order l =
  seen_first labels claimed devices (i :: order) l.
Proof.
  intros Hh. pose proof (name_row_claims k labels claimed (devices !!! i)) as Hr. unfold seen_first, first_claim.
  cbn [find_map]. destruct (carries labels (devices !!! i) l) eqn:Hc.
  - apply carries_iff in Hc. rewrite Hc in Hr. destruct Hr as (Hl & _). rewrite Hl by done. by destruct (claimed !! l).
  - assert ((name_row k labels claimed (devices !!! i)).1.2 !! l = claimed !! l) as ->; [|done].
    destruct (on_key_of labels (devices !!! i)) as [| | | |l'|] eqn:Hk; try (by rewrite Hr).
    destruct Hr as (_ & Hn & _). apply Hn. intros ->. unfold carries in Hc. by rewrite Hk, bool_decide_eq_true_2 in Hc.
Qed.

Lemma name_row_named k labels claimed devices i order first :
  (forall l, holder k l = None -> first l = seen_first labels claimed devices (i :: order) l) ->
  (name_row k labels claimed (devices !!! i)).1.1 = named_row k labels first (devices !!! i).
Proof.
  intros Hf. pose proof (name_row_claims k labels claimed (devices !!! i)) as Hr.
  unfold named_row at 1. destruct (on_key_of labels (devices !!! i)) as [| | | |l|] eqn:Hl; try (by rewrite Hr).
  destruct Hr as (Hl1 & _ & Hrow). rewrite (Hrow first); [unfold named_row; by rewrite Hl|].
  intros Hh. rewrite Hf, Hl1 by done. unfold seen_first, first_claim. cbn [find_map].
  rewrite (proj2 (carries_iff _ _ _) Hl). by destruct (claimed !! l).
Qed.

(** The claims and the rows still to visit do not see what was written. *)
Lemma first_claim_ext labels devices devices' order l :
  (forall i, i ∈ order -> devices !!! i = devices' !!! i) -> first_claim labels devices order l = first_claim labels devices' order l.
Proof.
  intros He. unfold first_claim. induction order as [|i order IH]; [done|]. cbn [find_map]. rewrite (He i) by left.
  destruct (carries _ _ l); [done|]. apply IH. intros j Hj. apply He. by right.
Qed.

Lemma name_rows_run k labels order claimed devices first :
  NoDup order -> (forall i, i ∈ order -> (i < length devices)%nat) ->
  (forall l, holder k l = None -> first l = seen_first labels claimed devices order l) ->
  let ds := (name_rows k labels order claimed devices).1 in
  length ds = length devices /\
  (forall i, i ∈ order -> ds !!! i = named_row k labels first (devices !!! i)) /\
  (forall i, i ∉ order -> ds !!! i = devices !!! i).
Proof.
  intros Hnd. revert claimed devices. induction Hnd as [|i order Hi Hnd IH]; intros claimed devices Hlt Hf; cbn zeta.
  { split_and!; [done| |done]. by intros i ?%elem_of_nil. }
  cbn [name_rows]. pose proof (name_row_named k labels claimed devices i order first Hf) as Hrow.
  assert (Hf' : forall l, holder k l = None -> first l = seen_first labels (name_row k labels claimed (devices !!! i)).1.2 devices order l).
  { intros l Hh. rewrite (seen_first_step k) by done. by apply Hf. }
  destruct (name_row k labels claimed (devices !!! i)) as [[d claimed'] ups]. cbn [fst snd] in *. subst d.
  set (d' := named_row k labels first (devices !!! i)) in *.
  assert (Hother : forall j, j <> i -> <[i := d']> devices !!! j = devices !!! j).
  { intros j Hj. by rewrite list_lookup_total_insert_ne. }
  destruct (IH claimed' (<[i := d']> devices)) as (Hlen & Hin & Hout).
  { intros j Hj. rewrite length_insert. apply Hlt. by right. }
  { intros l Hh. rewrite Hf' by done. unfold seen_first. destruct (claimed' !! l); [done|]. apply first_claim_ext.
    intros j Hj. rewrite Hother; [done|]. by intros ->. }
  destruct (name_rows k labels order claimed' (<[i := d']> devices)) as [ds ups']. cbn [fst] in *.
  rewrite length_insert in Hlen. split; [done|]. split.
  - intros j [->|Hj]%elem_of_cons.
    + rewrite Hout by done. apply list_lookup_total_insert_eq. apply Hlt. left.
    + rewrite Hin by done. rewrite Hother; [done|]. by intros ->.
  - intros j Hj. apply not_elem_of_cons in Hj as [Hji Hj]. by rewrite Hout, Hother.
Qed.

(** The first row to carry [l], over the whole scan. *)
Definition scan_first labels (devices : list Device) l : option (list Z) := first_claim labels devices (list_order devices) l.

(** The pass, with its claims threaded from row to row, is a plain function of each row. *)
Lemma apply_names_rows k labels devices :
  (apply_names devices k labels).1 = named_row k labels (scan_first labels devices) <$> devices.
Proof.
  unfold apply_names. destruct (name_rows_run k labels (list_order devices) ∅ devices (scan_first labels devices)) as (Hl & Hin & _).
  - apply list_order_NoDup.
  - intros i. by rewrite list_order_range.
  - intros l _. unfold seen_first. by rewrite lookup_empty.
  - apply list_eq. intros i. rewrite list_lookup_fmap. destruct (decide (i < length devices)%nat) as [Hi|Hi].
    + rewrite !list_lookup_lookup_total_lt by (rewrite ?Hl; done). simpl. f_equal. apply Hin. by apply list_order_range.
    + rewrite !lookup_ge_None_2 by (rewrite ?Hl; lia). done.
Qed.

(** * A name selects one identity *)

Lemma find_map_Some {A B} (f : A -> option B) xs b : find_map f xs = Some b -> exists x, x ∈ xs /\ f x = Some b.
Proof.
  induction xs as [|x xs IH]; [done|]. cbn [find_map]. destruct (f x) eqn:Hf.
  - intros [= ->]. exists x. split; [left|done].
  - intros (y & Hy & Hb)%IH. exists y. split; [by right|done].
Qed.

Lemma holder_unique k r : unique_names k -> r ∈ keys k -> holder k (r_name r) = Some r.
Proof.
  unfold unique_names, holder. induction (keys k) as [|x xs IH]; intros Hu Hr; [by apply elem_of_nil in Hr|].
  rewrite fmap_cons in Hu. apply list.NoDup_cons in Hu as [Hx Hu]. cbn [List.find].
  apply elem_of_cons in Hr as [->|Hr]; [by rewrite bool_decide_eq_true_2|].
  rewrite bool_decide_eq_false_2; [by apply IH|]. intros He. apply Hx. rewrite He. by apply list_elem_of_fmap_2.
Qed.

Lemma local_name_knows k d l :
  unique_names k -> find_map (local_name_for k) (row_serials d) = Some l -> exists h, holder k l = Some h /\ knows k d h = true.
Proof.
  intros Hu (s & Hs & Hn)%find_map_Some. unfold local_name_for in Hn. apply fmap_Some in Hn as (r & Hr & ->).
  apply find_some in Hr as [Hin%list_elem_of_In Hof]. apply andb_true_iff in Hof as [_ Hof]. unfold is_of in Hof.
  destruct (fingerprint_of k s) as [fp|] eqn:Hfp; [|done]. apply bool_decide_eq_true in Hof.
  exists r. split; [by apply holder_unique|]. unfold knows. rewrite Hof, bool_decide_eq_true_2 by done. cbn [andb].
  apply existsb_exists. exists s. split; [by apply list_elem_of_In|]. by rewrite Hfp, bool_decide_eq_true_2.
Qed.

Lemma selectable_why k labels first d l :
  unique_names k -> nm_selectable (d_naming (named_row k labels first d)) = true ->
  nm_plain (d_naming (named_row k labels first d)) = Some l ->
  (exists h, holder k l = Some h /\ knows k d h = true) \/
  (holder k l = None /\ on_key_of labels d = LblPresent l /\ first l = Some (claim_of d)).
Proof.
  intros Hu. unfold named_row. destruct (on_key_of labels d) as [| | | |l0|] eqn:Hl;
    try (unfold name_row; rewrite Hl; cbn; intros _ Hp; left; by apply (local_name_knows k)).
  cbn. intros Hs [= ->]. unfold may_select in Hs. destruct (holder k l) as [h|] eqn:Hh.
  - apply andb_true_iff in Hs as [_ Hs]. left. by exists h.
  - apply bool_decide_eq_true in Hs. by right.
Qed.

(** A name [--device] accepts stands for one identity. Whatever names the keys of
    a scan carry, two rows of it that the same name selects both have the fingerprint
    of the record that holds the name or, when this computer has no record of it, both
    are the first key to carry it (the same serial, or the very same row). *)
Theorem names_one_identity k labels devices i j d d' l :
  unique_names k -> let ds := (apply_names devices k labels).1 in
  ds !! i = Some d -> nm_selectable (d_naming d) = true -> nm_plain (d_naming d) = Some l ->
  ds !! j = Some d' -> nm_selectable (d_naming d') = true -> nm_plain (d_naming d') = Some l ->
  exists x y, devices !! i = Some x /\ devices !! j = Some y /\
    ((exists h, holder k l = Some h /\ knows k x h = true /\ knows k y h = true) \/
     (holder k l = None /\ claim_of x = claim_of y)).
Proof.
  intros Hu ds. subst ds. rewrite apply_names_rows, !list_lookup_fmap.
  intros (x & Hx & ->)%fmap_Some Hs Hp (y & Hy & ->)%fmap_Some Hs' Hp'. exists x, y. split; [done|]. split; [done|].
  destruct (selectable_why _ _ _ _ _ Hu Hs Hp) as [(h & Hh & Hk)|(Hh & _ & Hc)],
    (selectable_why _ _ _ _ _ Hu Hs' Hp') as [(h' & Hh' & Hk')|(Hh' & _ & Hc')]; try congruence.
  - left. exists h. split_and!; congruence.
  - right. split; [done|]. congruence.
Qed.

(** * A name once seen is never taken over *)

Lemma stale_in k l seen known u : u ∈ stale k l seen known -> exists s, s ∈ known /\ u = DropStale s l.
Proof.
  revert seen. induction known as [|s known IH]; intros seen Hu; [by apply elem_of_nil in Hu|]. cbn [stale] in Hu.
  destruct (bool_decide _).
  - destruct (IH _ Hu) as (t & Ht & ->). exists t. split; [by right|done].
  - apply elem_of_app in Hu as [Hu|Hu].
    + destruct (existsb _ _); [|by apply elem_of_nil in Hu]. apply list_elem_of_singleton in Hu as ->. exists s. split; [left|done].
    + destruct (IH _ Hu) as (t & Ht & ->). exists t. split; [by right|done].
Qed.

Lemma name_row_drops k labels claimed d s l :
  DropStale s l ∈ (name_row k labels claimed d).2 -> on_key_of labels d = LblPresent l /\ s ∈ row_serials d.
Proof.
  unfold name_row. destruct (on_key_of labels d) as [| | | |l'|] eqn:Hl; try by intros ?%elem_of_nil.
  destruct (key_name k claimed d l') as [[[sel shown] cl] ups] eqn:Hk. cbn [snd].
  intros [Hu|(t & Ht & [= -> ->])%stale_in]%elem_of_app; [|done]. exfalso. revert Hk Hu. unfold key_name.
  repeat case_match; intros [= <- <- <- <-]; rewrite ?list_elem_of_singleton, ?elem_of_nil; try done; by case_match.
Qed.

Lemma name_rows_updates k labels order claimed devices u :
  NoDup order -> u ∈ (name_rows k labels order claimed devices).2 ->
  exists i claimed', i ∈ order /\ u ∈ (name_row k labels claimed' (devices !!! i)).2.
Proof.
  intros Hnd. revert claimed devices. induction Hnd as [|i order Hi Hnd IH]; intros claimed devices Hu; [by apply elem_of_nil in Hu|].
  cbn [name_rows] in Hu. destruct (name_row k labels claimed (devices !!! i)) as [[d claimed'] ups] eqn:Hr.
  destruct (name_rows k labels order claimed' (<[i := d]> devices)) as [ds ups'] eqn:Hrs.
  apply elem_of_app in Hu as [Hu|Hu].
  - exists i, claimed. split; [left|by rewrite Hr].
  - destruct (IH claimed' (<[i := d]> devices)) as (j & cl & Hj & Hin); [by rewrite Hrs|]. exists j, cl. split; [by right|].
    rewrite list_lookup_total_insert_ne in Hin; [done|]. by intros ->.
Qed.

Lemma find_filter_keep {A} (f g : A -> bool) xs h : List.find f xs = Some h -> g h = true -> List.find f (List.filter g xs) = Some h.
Proof.
  induction xs as [|x xs IH]; [done|]. cbn [List.find List.filter]. destruct (f x) eqn:Hf.
  - intros [= ->] ->. cbn [List.find]. by rewrite Hf.
  - intros Hx Hg. destruct (g x); [cbn [List.find]; rewrite Hf|]; by apply IH.
Qed.
Lemma find_app_keep {A} (f : A -> bool) xs ys h : List.find f xs = Some h -> List.find f (xs ++ ys) = Some h.
Proof. induction xs as [|x xs IH]; [done|]. cbn [List.find app]. by destruct (f x). Qed.

(** The record of [l] and the salt, through a scan's updates. *)
Lemma updates_keep rng ups k l h s :
  holder k l = Some h -> salt k = Some s ->
  (forall t cur, DropStale t cur ∈ ups -> canonical_serial t <> [] -> r_fingerprint h = Some (fingerprint s t) -> cur = l) ->
  let k' := (apply_updates rng ups k).2 in holder k' l = Some h /\ salt k' = Some s.
Proof.
  revert k. induction ups as [|u ups IH]; intros k Hh Hs Hd; [done|]. cbn zeta. cbn [apply_updates].
  assert (Hd' : forall t cur, DropStale t cur ∈ ups -> canonical_serial t <> [] -> r_fingerprint h = Some (fingerprint s t) -> cur = l).
  { intros t cur Ht. apply Hd. by right. }
  destruct u as [serial name|serial current|name].
  - destruct (record_first_seen rng serial name k) as [b k1] eqn:Hr.
    assert (holder k1 l = Some h /\ salt k1 = Some s) as [Hh1 Hs1].
    { revert Hr. unfold record_first_seen. destruct (_ || _); [by intros [= _ <-]|]. unfold ensure_salt. rewrite Hs.
      intros [= _ <-]. split; [by apply find_app_keep|done]. }
    specialize (IH k1 Hh1 Hs1 Hd'). by destruct (apply_updates rng ups k1) as [[]].
  - destruct (drop_stale_key_records serial current k) as [n k1] eqn:Hr. unfold drop_stale_key_records in Hr. injection Hr as _ <-.
    match goal with |- context [apply_updates rng ups ?r] => assert (holder r l = Some h) as Hh1 end.
    { apply find_filter_keep; [done|]. apply negb_true_iff, andb_false_iff. apply holder_Some in Hh as [_ Hn].
      destruct (decide (current = l)) as [->|Hc]; [right; by rewrite bool_decide_eq_true_2|]. left.
      apply andb_false_iff. left. unfold is_of, fingerprint_of. rewrite Hs. case_bool_decide as Hcan; [done|]. cbn.
      apply bool_decide_eq_false. intros Hfp. apply Hc. by apply (Hd serial); [left|..]. }
    match goal with |- context [apply_updates rng ups ?r] => specialize (IH r Hh1 Hs Hd'); by destruct (apply_updates rng ups r) as [[]] end.
  - specialize (IH k Hh Hs Hd'). by destruct (apply_updates rng ups k) as [[]].
Qed.

Lemma updates_unique rng ups k : unique_names k -> unique_names (apply_updates rng ups k).2.
Proof.
  revert k. induction ups as [|u ups IH]; intros k Hu; [done|]. cbn [apply_updates].
  destruct u as [serial name|serial current|name].
  - pose proof (ring_step_unique _ _ (step_first_seen rng serial name k) Hu) as Hu1.
    destruct (record_first_seen rng serial name k) as [b k1]. specialize (IH k1 Hu1). by destruct (apply_updates rng ups k1) as [[]].
  - pose proof (ring_step_unique _ _ (step_drop_stale serial current k) Hu) as Hu1.
    destruct (drop_stale_key_records serial current k) as [n k1]. specialize (IH k1 Hu1). by destruct (apply_updates rng ups k1) as [[]].
  - specialize (IH k Hu). by destruct (apply_updates rng ups k) as [[]].
Qed.

(** One scan: the pass over some rows and labels, its updates applied; the key of
    [h] carries no name but [l], if it is there. *)
Inductive scan_step l (h : KeyRecord) : Keyring -> Keyring -> Prop :=
  | scan rng devices labels k :
      (forall d l', d ∈ devices -> knows k d h = true -> on_key_of labels d = LblPresent l' -> l' = l) ->
      scan_step l h k (apply_updates rng (apply_names devices k labels).2 k).2.

Lemma scan_step_keeps l h s k k' :
  is_Some (r_fingerprint h) -> scan_step l h k k' -> holder k l = Some h -> salt k = Some s -> holder k' l = Some h /\ salt k' = Some s.
Proof.
  intros Hfp Hstep Hh Hs. destruct Hstep as [rng devices labels k Hcarry].
  apply updates_keep; [done..|]. intros t cur Hu Hcan Ht.
  apply name_rows_updates in Hu as (i & cl & Hi & Hu); [|apply list_order_NoDup].
  apply name_row_drops in Hu as [Hl Ht']. apply (Hcarry (devices !!! i)); [| |done].
  - apply list_elem_of_lookup_total_2. by apply list_order_range.
  - unfold knows. rewrite bool_decide_eq_true_2 by done. apply existsb_exists. exists t. split; [by apply list_elem_of_In|].
    apply bool_decide_eq_true. unfold fingerprint_of. rewrite bool_decide_eq_false_2, Hs by done. by rewrite Ht.
Qed.

(** C11: once this computer has a record of a name on a key, no other key ever takes
    the name over. Over any sequence of scans, of any rows carrying any names, as long
    as the recorded key itself is not seen with another name, the record stays, and in
    every scan a row that [--device] selects by that name has the recorded key's
    fingerprint. *)
Theorem names_never_taken_over l h s k k' labels devices i d :
  holder k l = Some h -> is_Some (r_fingerprint h) -> salt k = Some s ->
  unique_names k -> rtc (scan_step l h) k k' ->
  (apply_names devices k' labels).1 !! i = Some d ->
  nm_selectable (d_naming d) = true -> nm_plain (d_naming d) = Some l ->
  exists x t, devices !! i = Some x /\ t ∈ row_serials x /\ r_fingerprint h = Some (fingerprint s t).
Proof.
  intros Hh Hfp Hs Hu0 Hsteps. assert (holder k' l = Some h /\ salt k' = Some s /\ unique_names k') as (Hh' & Hs' & Hu).
  { induction Hsteps as [|k k1 k' Hstep _ IH]; [done|]. destruct (scan_step_keeps l h s k k1) as [Hh1 Hs1]; [done..|].
    apply IH; [done..|]. destruct Hstep. by apply updates_unique. }
  rewrite apply_names_rows, list_lookup_fmap. intros (x & Hx & ->)%fmap_Some Hsel Hp. exists x.
  destruct (selectable_why _ _ _ _ _ Hu Hsel Hp) as [(h' & Hho & Hk)|(Hn & _)]; [|congruence].
  assert (h' = h) as -> by congruence. unfold knows in Hk. apply andb_true_iff in Hk as [_ (t & Ht & He)%existsb_exists].
  apply bool_decide_eq_true in He. unfold fingerprint_of in He. rewrite Hs' in He. exists t. split; [done|].
  split; [by apply list_elem_of_In|]. case_bool_decide; [destruct Hfp; congruence|]. by rewrite <- He.
Qed.
End names_spec.

(** * Concrete runs *)

Section runs.
#[local] Existing Instance ascii_unicode.

Definition run_salt : list Z := seqZ 0 32.
Definition plain_row (id serial : list Z) : Device :=
  mkDevice id None (s2b "Token2") (s2b "R3") serial [] [] Caps.FIDO2 0 Key (Some id) None None None no_naming false.
(** Two keys that both carry the name "work". *)
Definition run_scan : list Device := [plain_row (s2b "b") (s2b "88"); plain_row (s2b "a") (s2b "77")].
Definition run_labels : gmap (list Z) KeyLabel :=
  <[s2b "a" := LblPresent (s2b "work")]> (<[s2b "b" := LblPresent (s2b "work")]> ∅).
Definition salted : Keyring := mkKeyring [] (Some run_salt) true V2 None.
(** The registry after the first key was seen alone. *)
Definition seen_ring : Keyring := (apply_updates None (apply_names [plain_row (s2b "a") (s2b "77")] salted run_labels).2 salted).2.

Example run_names :
  (fun d => (d_name d, nm_selectable (d_naming d))) <$> (apply_names run_scan seen_ring run_labels).1 =
  [(Some (s2b "work (88)"), false); (Some (s2b "work"), true)].
Proof. vm_compute. reflexivity. Qed.

Lemma names_one_identity_witness : exists x y,
  run_scan !! 1%nat = Some x /\ run_scan !! 1%nat = Some y /\
  ((exists h, holder seen_ring (s2b "work") = Some h /\ knows seen_ring x h = true /\ knows seen_ring y h = true) \/
   (holder seen_ring (s2b "work") = None /\ claim_of x = claim_of y)).
Proof.
  eapply (names_one_identity seen_ring run_labels run_scan 1 1); [|vm_compute; reflexivity..].
  vm_compute. repeat constructor. by apply not_elem_of_nil.
Defined.

Lemma names_never_taken_over_witness :
  exists x t, run_scan !! 1%nat = Some x /\ t ∈ row_serials x /\
    (holder seen_ring (s2b "work") ≫= r_fingerprint) = Some (fingerprint run_salt t).
Proof.
  destruct (holder seen_ring (s2b "work")) as [h|] eqn:Hh; [|vm_compute in Hh; discriminate].
  eapply (names_never_taken_over (s2b "work") h run_salt seen_ring seen_ring run_labels run_scan 1).
  - exact Hh.
  - vm_compute in Hh. injection Hh as <-. by eexists.
  - vm_compute. reflexivity.
  - vm_compute. repeat constructor. by apply not_elem_of_nil.
  - apply rtc_refl.
  - vm_compute. reflexivity.
  - vm_compute. reflexivity.
  - vm_compute. reflexivity.
Defined.
End runs.
