(* ===== verification/BlobCrypto.v ===== *)
(** What keyroost-ctap takes from cryptographic and compression crates (sha2,
    hmac, aes-gcm, miniz_oxide), as an interface with the documented behaviour
    the large-blob code relies on, and the wrappers of large_blobs.rs,
    client_pin.rs and pin.rs around it. *)
From S2P Require Export Words Utf8.

Class BlobCrypto := {
  sha256 : list Z -> list Z;
  hmac_sha256 : list Z -> list Z -> list Z;
  (** key, nonce, associated data, message; the tag is appended. *)
  aes_gcm_encrypt : list Z -> list Z -> list Z -> list Z -> list Z;
  aes_gcm_decrypt : list Z -> list Z -> list Z -> list Z -> option (list Z);
  (** [decompress_to_vec_with_limit(data, limit).ok()]: raw DEFLATE. *)
  inflate : list Z -> Z -> option (list Z)
}.

(** One final stored DEFLATE block (RFC 1951, 3.2.4). *)
Definition stored_block (data : list Z) : list Z :=
  [0x01] ++ to_le 2 (zlen data) ++ to_le 2 (wnot 16 (zlen data)) ++ data.

Class BlobCryptoLaws `{BlobCrypto} := {
  sha256_out : forall m, Bytes (sha256 m) /\ length (sha256 m) = 32%nat;
  hmac_out : forall k m, Bytes (hmac_sha256 k m) /\ length (hmac_sha256 k m) = 32%nat;
  (** The tag is 16 bytes and the cipher a stream: its length is the message's. *)
  gcm_out : forall k n a m, Bytes m -> Bytes (aes_gcm_encrypt k n a m) /\
    zlen (aes_gcm_encrypt k n a m) = zlen m + 16;
  gcm_inverse : forall k n a m, Bytes m -> aes_gcm_decrypt k n a (aes_gcm_encrypt k n a m) = Some m;
  inflate_stored : forall data limit, zlen data < 2 ^ 16 -> zlen data <= limit ->
    inflate (stored_block data) limit = Some data
}.

Section wrappers.
Context `{BlobCrypto}.

Definition left16_sha256 (input : list Z) : list Z := take 16 (sha256 input).

(** [b"blob" || u64le(orig_size)]. *)
Definition blob_aad (orig_size : Z) : list Z := s2b "blob" ++ to_le 8 orig_size.

Definition gcm_decrypt (key nonce ciphertext : list Z) (orig_size : Z) : option (list Z) :=
  if negb (zlen nonce =? 12) then None
  else aes_gcm_decrypt key nonce (blob_aad orig_size) ciphertext.

Definition gcm_encrypt (key nonce plain : list Z) (orig_size : Z) : list Z :=
  aes_gcm_encrypt key nonce (blob_aad orig_size) plain.

Definition MAX_BLOB_PLAINTEXT : Z := 1024 * 1024.

Definition inflate_raw (compressed : list Z) (orig_size : Z) : option (list Z) :=
  let limit := orig_size in
  if MAX_BLOB_PLAINTEXT <? limit then None
  else
    out ← inflate compressed limit;
    if zlen out =? orig_size then Some out else None.

Definition PIN_PROTOCOL_V1 : Z := 1.

Record PinUvAuthToken := mkToken { tok_protocol : Z; tok_token : list Z }.

Definition authenticate (token : PinUvAuthToken) (data : list Z) : list Z :=
  let full := hmac_sha256 (tok_token token) data in
  if tok_protocol token =? PIN_PROTOCOL_V1 then take 16 full else full.

Context `{!BlobCryptoLaws}.

Lemma left16_out m : Bytes (left16_sha256 m) /\ zlen (left16_sha256 m) = 16.
Proof.
  unfold left16_sha256. destruct (sha256_out m) as [HB HL]. split; [by apply Forall_take|].
  rewrite zlen_take. unfold zlen. rewrite HL. done.
Qed.

Lemma gcm_roundtrip key nonce plain n :
  zlen nonce = 12 -> Bytes plain -> gcm_decrypt key nonce (gcm_encrypt key nonce plain n) n = Some plain.
Proof. intros Hn. unfold gcm_decrypt, gcm_encrypt. rewrite Hn. apply gcm_inverse. Qed.

(** The ceiling holds whatever the device claims. *)
Lemma inflate_raw_bounded c n out : inflate_raw c n = Some out -> zlen out = n /\ n <= MAX_BLOB_PLAINTEXT.
Proof.
  unfold inflate_raw. destruct (MAX_BLOB_PLAINTEXT <? n) eqn:E; [done|]. bools.
  destruct (inflate c n) as [o|]; [|done]. simpl. destruct (zlen o =? n) eqn:E2; [|done]. bools.
  intros [= <-]. done.
Qed.

Lemma authenticate_out token data : Bytes (authenticate token data) /\ zlen (authenticate token data) <= 32.
Proof.
  unfold authenticate. destruct (hmac_out (tok_token token) data) as [HB HL].
  destruct (_ =? _); split; [by apply Forall_take|rewrite zlen_take; unfold zlen; lia|done|unfold zlen; lia].
Qed.
End wrappers.
