(* ===== verification/CryptoModel.v ===== *)
(** A concrete instance of BlobCrypto's interface, to evaluate the theorems that
    assume its laws: this repository's SHA-256, a keyed hash in place of HMAC, a
    tag-only authenticated encryption and an inflater of single stored blocks. *)
From S2P Require Export BlobCrypto.
From S2P Require Import Sha.

(** Tag: a hash of everything the tag covers. *)
Definition model_tag (k n a m : list Z) : list Z := take 16 (Sha256.sha256 (k ++ n ++ a ++ m)).

Definition model_crypto : BlobCrypto := {|
  sha256 := Sha256.sha256;
  hmac_sha256 k m := Sha256.sha256 (k ++ m);
  aes_gcm_encrypt k n a m := m ++ model_tag k n a m;
  aes_gcm_decrypt k n a c :=
    let m := take (length c - 16) c in
    if bool_decide (drop (length c - 16) c = model_tag k n a m) then Some m else None;
  inflate c limit :=
    let data := drop 5 c in
    if bool_decide (c = stored_block data) && (zlen data <=? limit) then Some data else None
|}.

Lemma model_tag_length k n a m : length (model_tag k n a m) = 16%nat.
Proof. unfold model_tag. rewrite length_take. by rewrite (proj2 (Sha.sha256_out _)). Qed.

Lemma model_crypto_laws : @BlobCryptoLaws model_crypto.
Proof.
  split; simpl.
  - apply Sha.sha256_out.
  - intros k m. apply Sha.sha256_out.
  - intros k n a m Hm. split.
    + apply Forall_app. split; [done|]. apply Forall_take, Sha.sha256_out.
    + rewrite zlen_app. unfold zlen. rewrite model_tag_length. lia.
  - intros k n a m _. rewrite length_app, model_tag_length.
    replace (length m + 16 - 16)%nat with (length m) by lia.
    rewrite take_app_length, drop_app_length. by rewrite bool_decide_true.
  - intros data limit _ Hl. change (drop 5 (stored_block data)) with data.
    rewrite bool_decide_true by done. by rewrite (proj2 (Z.leb_le _ _)).
Qed.
