(* ===== verification/DeviceLabel.v ===== *)
(** keyroost-ctap/src/device_label.rs, the format half: a key's own name as a
    large-blob entry. (Planning and writing a change are in BlobStore.) *)
From S2P Require Export BlobCrypto Ctap.

(** large_blobs.rs's entry; [original] is the CBOR it was read as. *)
Record LargeBlobEntry := mkEntry {
  ciphertext : list Z;
  nonce : list Z;
  orig_size : Z;
  original : option (list Z)
}.
#[export] Instance LargeBlobEntry_eq_dec : EqDecision LargeBlobEntry.
Proof. solve_decision. Defined.

(** [LargeBlobEntry::built]. *)
Definition built (ciphertext nonce : list Z) (orig_size : Z) : LargeBlobEntry :=
  mkEntry ciphertext nonce orig_size None.

Definition LABEL_KEY_INFO : list Z := s2b "FIDO2 large-blob device label v1".
Definition LABEL_FORMAT_VERSION : Z := 1.
Definition MAX_LABEL_CHARS : Z := 64.
Definition WRITER_KEYROOST : list Z := s2b "keyroost".
Definition P_VERSION : Z := 1.
Definition P_LABEL : Z := 2.
Definition P_WRITER : Z := 3.

Record DeviceLabel := mkLabel { label_text : list Z; label_writer : option (list Z) }.

Inductive LabelError :=
  | InvalidLabel
  | LUnsupported
  | NoPin
  | TooLarge (size max : Z)
  | Changed
  | LCtap (e : CtapError).

Section label.
Context `{BlobCrypto}.

Definition label_key : list Z := sha256 LABEL_KEY_INFO.

Definition fits (s : list Z) : bool :=
  let n := zlen (chars s) in (1 <=? n) && (n <=? MAX_LABEL_CHARS).

Definition plaintext (l : DeviceLabel) : result LabelError (list Z) :=
  if negb (fits (label_text l)) ||
     match label_writer l with Some w => negb (fits w) | None => false end
  then Err InvalidLabel
  else
    let map := [(UInt P_VERSION, UInt LABEL_FORMAT_VERSION); (UInt P_LABEL, Text (label_text l))] in
    let map := map ++ match label_writer l with Some w => [(UInt P_WRITER, Text w)] | None => [] end in
    Ok (encode (Map map)).

Definition stored_deflate (data : list Z) : list Z :=
  let len := cast 16 (zlen data) in
  [0x01] ++ to_le 2 len ++ to_le 2 (wnot 16 len) ++ data.

Definition encode_entry (l : DeviceLabel) (nonce : list Z) : result LabelError LargeBlobEntry :=
  p ← plaintext l;
  let orig_size := zlen p in
  let ciphertext := gcm_encrypt label_key nonce (stored_deflate p) orig_size in
  Ok (built ciphertext nonce orig_size).

Definition decode_entry (e : LargeBlobEntry) : option DeviceLabel :=
  compressed ← gcm_decrypt label_key (nonce e) (ciphertext e) (orig_size e);
  p ← inflate_raw compressed (orig_size e);
  '(map, rest) ← result_ok (decode p);
  if negb (zlen rest =? 0) || negb (bool_decide (is_Some (as_map map))) then None else
  version ← (get_uint_key map P_VERSION ≫= as_uint);
  if negb (version =? LABEL_FORMAT_VERSION) then None else
  label ← (get_uint_key map P_LABEL ≫= as_text);
  if negb (fits label) then None else
  let writer := w ← (get_uint_key map P_WRITER ≫= as_text); if fits w then Some w else None in
  Some (mkLabel label writer).

(** * Lemmas *)

(** A label the program can hold: UTF-8 strings. *)
Definition label_wf (l : DeviceLabel) : Prop :=
  Bytes (label_text l) /\ is_str (label_text l) /\
  match label_writer l with Some w => Bytes w /\ is_str w | None => True end.

Lemma utf8_length cs : zlen (utf8_encode cs) <= 4 * zlen cs.
Proof.
  induction cs as [|c cs IH]; [done|]. unfold utf8_encode in *. cbn [flat_map]. zlen.
  enough (zlen (encode_char c) <= 4) by lia.
  unfold encode_char. repeat case_match; zlen; lia.
Qed.

Lemma fits_length s : Bytes s -> is_str s -> fits s = true -> zlen s <= 256.
Proof.
  intros HB [cs Hd] Hf. destruct (utf8_encode_decode s cs HB Hd) as [-> _].
  unfold fits, chars in Hf. rewrite Hd in Hf. simpl in Hf. bools. unfold MAX_LABEL_CHARS in *.
  pose proof (utf8_length cs). lia.
Qed.

Definition label_map (l : DeviceLabel) : list (Value * Value) :=
  [(UInt P_VERSION, UInt LABEL_FORMAT_VERSION); (UInt P_LABEL, Text (label_text l))] ++
  match label_writer l with Some w => [(UInt P_WRITER, Text w)] | None => [] end.

Definition label_ok (l : DeviceLabel) : bool :=
  fits (label_text l) && match label_writer l with Some w => fits w | None => true end.

Lemma plaintext_spec l :
  plaintext l = if label_ok l then Ok (encode (Map (label_map l))) else Err InvalidLabel.
Proof.
  unfold plaintext, label_ok, label_map. destruct (fits (label_text l)); [|done].
  destruct (label_writer l) as [w|]; simpl; [by destruct (fits w)|done].
Qed.

Lemma label_map_wf l : label_wf l -> label_ok l = true -> wf (Map (label_map l)).
Proof.
  intros (HB & Hs & Hw) Hok. unfold label_ok in Hok. bools.
  pose proof (fits_length _ HB Hs ltac:(done)). unfold label_map.
  constructor; [|destruct (label_writer l); simpl; zlen; lia].
  apply Forall_app; split.
  - constructor; [|constructor; [|constructor]]; cbn; split; constructor;
      (unfold is_word, P_VERSION, P_LABEL, LABEL_FORMAT_VERSION; lia || done || lia).
  - destruct (label_writer l) as [w|]; [|constructor]. destruct Hw as [HwB Hws].
    pose proof (fits_length w HwB Hws ltac:(done)).
    constructor; [|constructor]. cbn. split; constructor; (unfold is_word, P_WRITER; lia || done || lia).
Qed.

Lemma header_len mt n : 0 <= n -> zlen (encode_header mt n) <= 9.
Proof. intros Hn. unfold encode_header. repeat case_match; zlen; lia. Qed.

Lemma plaintext_length l :
  label_wf l -> label_ok l = true -> zlen (encode (Map (label_map l))) < 1000.
Proof.
  intros (HB & Hs & Hw) Hok. unfold label_ok in Hok. bools.
  pose proof (fits_length _ HB Hs ltac:(done)) as Hl. unfold label_map.
  pose proof (zlen_nonneg (label_text l)).
  pose proof (header_len MT_TEXT (zlen (label_text l)) ltac:(done)).
  destruct (label_writer l) as [w|].
  - destruct Hw as [HwB Hws]. pose proof (fits_length w HwB Hws ltac:(done)).
    pose proof (zlen_nonneg w). pose proof (header_len MT_TEXT (zlen w) ltac:(done)).
    cbn [app encode flat_map fst snd]. zlen.
    change (zlen (encode_header MT_MAP _)) with 1. change (zlen (encode_header MT_UINT P_VERSION)) with 1.
    change (zlen (encode_header MT_UINT LABEL_FORMAT_VERSION)) with 1.
    change (zlen (encode_header MT_UINT P_LABEL)) with 1. change (zlen (encode_header MT_UINT P_WRITER)) with 1.
    lia.
  - cbn [app encode flat_map fst snd]. zlen.
    change (zlen (encode_header MT_MAP _)) with 1. change (zlen (encode_header MT_UINT P_VERSION)) with 1.
    change (zlen (encode_header MT_UINT LABEL_FORMAT_VERSION)) with 1.
    change (zlen (encode_header MT_UINT P_LABEL)) with 1. lia.
Qed.

Lemma stored_deflate_block data : zlen data < 2 ^ 16 -> stored_deflate data = stored_block data.
Proof.
  intros Hd. unfold stored_deflate, stored_block. rewrite cast_small; [done|].
  pose proof (zlen_nonneg data). unfold is_word. lia.
Qed.

Lemma stored_deflate_Bytes data : Bytes data -> Bytes (stored_deflate data).
Proof.
  intros Hd. unfold stored_deflate. repeat (apply Forall_app; split);
    [by repeat constructor|apply to_le_bytes|apply to_le_bytes|done].
Qed.

Lemma decode_label_map l :
  label_wf l -> label_ok l = true -> decode (encode (Map (label_map l))) = Ok (Map (label_map l), []).
Proof.
  intros Hw Hok. rewrite <- (app_nil_r (encode _)). unfold decode. rewrite decode_at_encode by by apply label_map_wf.
  rewrite decide_True; [done|]. unfold label_map. destruct (label_writer l); simpl; lia.
Qed.

(** The map half of [decode_entry]. *)
Definition label_of_map (map : Value) : option DeviceLabel :=
  version ← (get_uint_key map P_VERSION ≫= as_uint);
  if negb (version =? LABEL_FORMAT_VERSION) then None else
  label ← (get_uint_key map P_LABEL ≫= as_text);
  if negb (fits label) then None else
  let writer := w ← (get_uint_key map P_WRITER ≫= as_text); if fits w then Some w else None in
  Some (mkLabel label writer).

Lemma read_label_map l : label_ok l = true -> label_of_map (Map (label_map l)) = Some l.
Proof.
  unfold label_ok. intros Hok. apply andb_true_iff in Hok as [Hf Hfw]. unfold label_of_map.
  destruct l as [t w]. cbn [label_text label_writer] in *. set (m := Map _).
  replace (get_uint_key m P_VERSION) with (Some (UInt LABEL_FORMAT_VERSION)) by reflexivity.
  replace (get_uint_key m P_LABEL) with (Some (Text t)) by reflexivity.
  replace (get_uint_key m P_WRITER) with (Text <$> w) by (destruct w; reflexivity).
  cbn -[fits]. rewrite Hf. cbn -[fits]. destruct w as [w|]; cbn -[fits]; [by rewrite Hfw|done].
Qed.

Lemma encode_entry_spec l n :
  encode_entry l n = if label_ok l then
    let p := encode (Map (label_map l)) in
    Ok (built (gcm_encrypt label_key n (stored_deflate p) (zlen p)) n (zlen p))
  else Err InvalidLabel.
Proof. unfold encode_entry. rewrite plaintext_spec. by destruct (label_ok l). Qed.

Context `{!BlobCryptoLaws}.

Lemma decode_encode_entry l n e :
  label_wf l -> zlen n = 12 -> encode_entry l n = Ok e -> decode_entry e = Some l.
Proof.
  intros Hw Hn. rewrite encode_entry_spec. destruct (label_ok l) eqn:Hok; [|done].
  set (p := encode (Map (label_map l))). intros [= <-]. unfold decode_entry, built.
  cbn [ciphertext nonce orig_size].
  pose proof (encode_Bytes _ (label_map_wf l Hw Hok)) as HB. fold p in HB.
  pose proof (plaintext_length l Hw Hok) as Hl. fold p in Hl. pose proof (zlen_nonneg p).
  rewrite gcm_roundtrip by (done || by apply stored_deflate_Bytes). cbn [mbind option_bind].
  unfold inflate_raw, MAX_BLOB_PLAINTEXT. rewrite stored_deflate_block by lia. decide_cmp.
  rewrite inflate_stored by lia. cbn [mbind option_bind]. rewrite Z.eqb_refl. cbn [mbind option_bind].
  unfold p. rewrite (decode_label_map l Hw Hok). by apply read_label_map.
Qed.
End label.
