(* ===== verification/LargeBlobs.v ===== *)
(** keyroost-ctap/src/large_blobs.rs, the format half: the large-blob array, its
    parsing, edits and serialization. (Moving it to and from a key is in
    BlobStore; recognizing certificates in entries is not modelled.) *)
From S2P Require Export DeviceLabel.
From S2P Require Import CryptoModel.

Definition ENTRY_CIPHERTEXT : Z := 1.
Definition ENTRY_NONCE : Z := 2.
Definition ENTRY_ORIG_SIZE : Z := 3.
Definition CHECKSUM_LEN : Z := 16.
Definition DEFAULT_MAX_MSG_SIZE : Z := 1024.
Definition MSG_SIZE_OVERHEAD : Z := 64.
Definition SPEC_MIN_SERIALIZED_ARRAY : Z := 1024.

Record BlobCapacity := mkCapacity {
  max_bytes : Z; used_bytes : Z; free_bytes : Z; entry_count : Z }.

Definition KR_NOTE_MAGIC : list Z := s2b "KR1" ++ [0].

(** ** Entries *)

Definition from_text (text : list Z) : LargeBlobEntry :=
  mkEntry (KR_NOTE_MAGIC ++ text) (replicate 12 0) (zlen text) None.

(** [strip_prefix]. *)
Definition strip_prefix (p s : list Z) : option (list Z) :=
  if starts_with p s then Some (drop (length p) s) else None.

Definition as_text_note (e : LargeBlobEntry) : option (list Z) :=
  body ← strip_prefix KR_NOTE_MAGIC (ciphertext e); from_utf8 body.

Definition is_kr_note (e : LargeBlobEntry) : bool := starts_with KR_NOTE_MAGIC (ciphertext e).

Definition encode_entry (e : LargeBlobEntry) : list Z :=
  encode (Map [(UInt ENTRY_CIPHERTEXT, VBytes (ciphertext e));
               (UInt ENTRY_NONCE, VBytes (nonce e));
               (UInt ENTRY_ORIG_SIZE, UInt (orig_size e))]).

(** The three slots [conforming_entry] fills. *)
Record slots := mkSlots { sl_ct : option (list Z); sl_nonce : option (list Z); sl_size : option Z }.

(** [replace(b).is_some()]. *)
Definition is_taken {A} (o : option A) : bool := match o with Some _ => true | None => false end.

(** One pair of the loop in [conforming_entry]; [None] ends it. *)
Definition conforming_step (s : slots) (kv : list Z * list Z) : option slots :=
  match decode kv.1 with
  | Ok (UInt key, []) =>
      if negb ((ENTRY_CIPHERTEXT <=? key) && (key <=? ENTRY_ORIG_SIZE)) then Some s else
      match decode kv.2 with
      | Ok (value, []) =>
          match value with
          | VBytes b =>
              if key =? ENTRY_CIPHERTEXT then
                if is_taken (sl_ct s) then None else Some (mkSlots (Some b) (sl_nonce s) (sl_size s))
              else if (key =? ENTRY_NONCE) && (zlen b =? 12) then
                if is_taken (sl_nonce s) then None else Some (mkSlots (sl_ct s) (Some b) (sl_size s))
              else None
          | UInt n =>
              if key =? ENTRY_ORIG_SIZE then
                if is_taken (sl_size s) then None else Some (mkSlots (sl_ct s) (sl_nonce s) (Some n))
              else None
          | _ => None
          end
      | _ => None
      end
  | _ => Some s
  end.

(** A loop whose body may leave the function with [None]. *)
Fixpoint fold_opt {A S} (f : S -> A -> option S) (s : S) (l : list A) : option S :=
  match l with [] => Some s | x :: l => s' ← f s x; fold_opt f s' l end.

Definition conforming_entry (raw : list Z) : option LargeBlobEntry :=
  '(pairs, rest) ← result_ok (split_map raw);
  if negb (zlen rest =? 0) then None else
  s ← fold_opt conforming_step (mkSlots None None None) pairs;
  c ← sl_ct s; n ← sl_nonce s; o ← sl_size s;
  Some (mkEntry c n o (Some raw)).

(** ** The array *)

Inductive Item :=
  | Entry (e : LargeBlobEntry)
  | Skipped (raw : list Z).

Record LargeBlobArray := mkArray {
  items : list Item;
  raw_array : list Z;
  trailing : Z
}.

Definition classify_item (raw : list Z) : Item :=
  match conforming_entry raw with Some entry => Entry entry | None => Skipped raw end.

Definition parse_items (array_bytes : list Z) : result CtapError (list Item * Z) :=
  if negb (bool_decide ((fun b => Z.shiftr b 5) <$> head array_bytes = Some 4))
  then Err (InvalidResponseShape (s2b "largeBlobs: not an array")) else
  '(elements, rest) ← map_err ECbor (split_array array_bytes);
  Ok (map classify_item elements, zlen rest).

Definition parse (array_bytes : list Z) : result CtapError LargeBlobArray :=
  '(items, trailing) ← parse_items array_bytes;
  Ok (mkArray items array_bytes trailing).

Definition entry_of (i : Item) : option LargeBlobEntry :=
  match i with Entry e => Some e | Skipped _ => None end.
Definition entries (a : LargeBlobArray) : list LargeBlobEntry := omap entry_of (items a).
Definition entry (a : LargeBlobArray) (idx : nat) : option LargeBlobEntry := entries a !! idx.
Definition len (a : LargeBlobArray) : Z := zlen (entries a).
Definition is_empty (a : LargeBlobArray) : bool := len a =? 0.
Definition is_entry (i : Item) : bool := match i with Entry _ => true | Skipped _ => false end.
Definition skipped_count (a : LargeBlobArray) : Z :=
  zlen (List.filter (fun i => negb (is_entry i)) (items a)).

Definition item_index (a : LargeBlobArray) (idx : nat) : option nat :=
  fst <$> List.filter (fun p => is_entry p.2) (imap pair (items a)) !! idx.

Definition changed (a : LargeBlobArray) (items : list Item) : LargeBlobArray :=
  mkArray items [] (trailing a).

(** The bytes one element is emitted as. *)
Definition item_raw (i : Item) : list Z :=
  match i with
  | Entry e => match original e with Some raw => raw | None => encode_entry e end
  | Skipped raw => raw
  end.

Definition array_bytes (a : LargeBlobArray) : list Z :=
  fold_left (fun array item => array ++ item_raw item) (items a) (array_header (zlen (items a))).

Definition with_text_note (a : LargeBlobArray) (text : list Z) : LargeBlobArray :=
  changed a (items a ++ [Entry (from_text text)]).

Definition with_replaced_note (a : LargeBlobArray) (idx : nat) (text : list Z) : option LargeBlobArray :=
  e ← entry a idx;
  if negb (is_kr_note e) then None else
  pos ← item_index a idx;
  Some (changed a (<[pos := Entry (from_text text)]> (items a))).

Definition without_entry (a : LargeBlobArray) (idx : nat) : option LargeBlobArray :=
  pos ← item_index a idx;
  Some (changed a (delete pos (items a))).

Definition max_fragment_length (info : AuthenticatorInfo) : Z :=
  let max := default DEFAULT_MAX_MSG_SIZE (max_msg_size info) in
  Z.max (Z.max 0 (max - MSG_SIZE_OVERHEAD)) 1.

Definition capacity (a : LargeBlobArray) (info : AuthenticatorInfo) : BlobCapacity :=
  let used := zlen (array_bytes a) + trailing a + CHECKSUM_LEN in
  let max := default SPEC_MIN_SERIALIZED_ARRAY (max_serialized_large_blob_array info) in
  mkCapacity max used (Z.max 0 (max - used)) (len a).

Definition REWRITE_REFUSED : list Z :=
  s2b "largeBlobs: the stored array has extra bytes after its end; refusing to rewrite it, which would drop them".

Section crypto.
Context `{BlobCrypto}.

Definition empty_array_serialized : list Z :=
  let array := encode (Array []) in array ++ left16_sha256 array.

Definition serialize_with_checksum (a : LargeBlobArray) : result CtapError (list Z) :=
  if 0 <? trailing a then Err (InvalidResponseShape REWRITE_REFUSED) else
  let array := array_bytes a in
  Ok (array ++ left16_sha256 array).

Definition is_label_item (item : Item) : bool :=
  match item with Entry e => bool_decide (is_Some (decode_entry e)) | Skipped _ => false end.

Definition label (a : LargeBlobArray) : option (nat * DeviceLabel) :=
  list.last (omap (fun ie => l ← decode_entry ie.2; Some (ie.1, l)) (imap pair (entries a))).

Definition with_label (a : LargeBlobArray) (l : option DeviceLabel) (nonce : list Z) :
    result LabelError LargeBlobArray :=
  let kept := List.filter (fun i => negb (is_label_item i)) (items a) in
  match l with
  | Some l => e ← DeviceLabel.encode_entry l nonce; Ok (changed a (kept ++ [Entry e]))
  | None => Ok (changed a kept)
  end.

Definition only_label (a : LargeBlobArray) : LargeBlobArray :=
  changed a (List.filter is_label_item (items a)).
End crypto.

(** * Reading back what is written *)

Example conforming_minimal :
  conforming_entry (encode_entry (from_text (s2b "hi"))) =
  Some (mkEntry (s2b "KR1" ++ [0] ++ s2b "hi") (replicate 12 0) 2 (Some (encode_entry (from_text (s2b "hi"))))).
Proof. vm_compute. reflexivity. Qed.
(** A duplicate required key, a wrong nonce and trailing bytes do not conform. *)
Example conforming_not :
  conforming_entry [0xA4; 1; 0x40; 1; 0x40; 2; 0x4C; 0;0;0;0;0;0;0;0;0;0;0;0; 3; 0] = None /\
  conforming_entry [0xA3; 1; 0x40; 2; 0x41; 0; 3; 0] = None /\
  conforming_entry (encode_entry (from_text []) ++ [0]) = None.
Proof. vm_compute. auto. Qed.
(** An unknown key whose value the decoder refuses (a tagged float) is kept. *)
Example conforming_unknown :
  is_Some (conforming_entry ([0xA4; 1; 0x40; 2; 0x4C; 0;0;0;0;0;0;0;0;0;0;0;0; 3; 0] ++ [0x18; 99; 0xC1; 0xF9; 0; 0])).
Proof. vm_compute. eauto. Qed.

(** An entry built here: what its fields can hold. *)
Definition entry_wf (e : LargeBlobEntry) : Prop :=
  Bytes (ciphertext e) /\ zlen (ciphertext e) < 2 ^ 32 /\ Bytes (nonce e) /\ zlen (nonce e) = 12 /\
  is_word 64 (orig_size e).

Definition entry_map (e : LargeBlobEntry) : Value :=
  Map [(UInt ENTRY_CIPHERTEXT, VBytes (ciphertext e)); (UInt ENTRY_NONCE, VBytes (nonce e));
       (UInt ENTRY_ORIG_SIZE, UInt (orig_size e))].

Lemma entry_map_wf e : entry_wf e -> wf (entry_map e).
Proof.
  intros (Hc & Hcl & Hn & Hnl & Hs).
  assert (forall n, 0 <= n < 4 -> wf (UInt n)) as Hk by (constructor; unfold is_word; lia).
  assert (forall b, Bytes b -> zlen b < 2 ^ 32 -> wf (VBytes b)) as Hb by (constructor; [done|lia]).
  constructor; [|done].
  repeat (apply Forall_cons_2; [cbn; split|]); try (constructor; done).
  all: first [by apply Hk | apply Hb; [done|lia]].
Qed.

Lemma encoded_measured v l : wf v -> (depth v < l)%nat -> zlen (encode v) < 2 ^ 64 -> measured l (encode v).
Proof. intros Hw Hd Hl. apply (encodes_measured _ _ v); [by apply encode_encodes|done]. Qed.

Lemma encode_entry_length e : entry_wf e -> zlen (encode_entry e) < 2 ^ 33.
Proof.
  intros (Hc & Hcl & Hn & Hnl & Hs). unfold encode_entry. cbn [encode flat_map fst snd app].
  pose proof (header_len MT_BYTES (zlen (ciphertext e)) ltac:(apply zlen_nonneg)).
  pose proof (header_len MT_BYTES (zlen (nonce e)) ltac:(apply zlen_nonneg)).
  pose proof (header_len MT_UINT (orig_size e) ltac:(unfold is_word in *; lia)).
  zlen. change (zlen (encode_header MT_MAP _)) with 1. change (zlen (encode_header MT_UINT ENTRY_CIPHERTEXT)) with 1.
  change (zlen (encode_header MT_UINT ENTRY_NONCE)) with 1. change (zlen (encode_header MT_UINT ENTRY_ORIG_SIZE)) with 1.
  lia.
Qed.

(** The pieces a map is made of. *)
Lemma map_bytes_encoded m :
  map_bytes ((fun kv : Value * Value => (encode kv.1, encode kv.2)) <$> m) =
  flat_map (fun kv => encode kv.1 ++ encode kv.2) m.
Proof. induction m as [|kv m IH]; [done|]. csimpl. by rewrite <- IH. Qed.

Lemma zlen_flat_map_le {A B} (e : A -> list B) l x : x ∈ l -> zlen (e x) <= zlen (flat_map e l).
Proof.
  induction 1 as [x l|x y l _ IH]; simpl; zlen.
  - pose proof (zlen_nonneg (flat_map e l)). lia.
  - pose proof (zlen_nonneg (e y)). lia.
Qed.

Lemma depth_map_le m kv : kv ∈ m -> (Nat.max (depth kv.1) (depth kv.2) < depth (Map m))%nat.
Proof.
  intros Hin. destruct m as [|x m]; [by apply not_elem_of_nil in Hin|].
  remember (x :: m) as l eqn:El.
  replace (depth (Map l)) with (S (fold_right (fun kv d => Nat.max (Nat.max (depth kv.1) (depth kv.2)) d) 0%nat l))
    by (by rewrite El).
  clear El. induction Hin; simpl; lia.
Qed.

Lemma split_map_encode m :
  wf (Map m) -> (depth (Map m) <= DECODE_DEPTH_LIMIT)%nat -> zlen (encode (Map m)) < 2 ^ 64 ->
  split_map (encode (Map m)) = Ok ((fun kv => (encode kv.1, encode kv.2)) <$> m, []).
Proof.
  intros Hw Hd Hl. apply split_map_spec. inversion Hw as [| | | | |? HF Hz| |]; subst.
  destruct (encode_header_hdr MT_MAP (zlen m)) as [a Ha];
    [unfold MT_MAP; lia|pose proof (zlen_nonneg m); unfold is_word; lia|].
  exists (encode_header MT_MAP (zlen m)), a. rewrite zlen_fmap, map_bytes_encoded, app_nil_r.
  split_and!; [done|done|].
  apply Forall_fmap, list.Forall_forall. intros kv Hin. cbn. rewrite list.Forall_forall in HF.
  destruct (HF kv Hin) as [Hk Hv]. pose proof (depth_map_le m kv Hin).
  pose proof (zlen_flat_map_le (fun kv => encode kv.1 ++ encode kv.2) m kv Hin) as Hp.
  cbn [encode] in Hl. pose proof (zlen_nonneg (encode kv.1)). pose proof (zlen_nonneg (encode kv.2)).
  pose proof (zlen_nonneg (encode_header MT_MAP (zlen m))).
  cbv beta in Hp. zlen. split; apply encoded_measured; (done || lia).
Qed.

(** An entry written here conforms, and reads back with its fields. *)
Lemma conforming_encode_entry e :
  entry_wf e ->
  conforming_entry (encode_entry e) =
  Some (mkEntry (ciphertext e) (nonce e) (orig_size e) (Some (encode_entry e))).
Proof.
  intros He. pose proof (entry_map_wf e He) as Hw. pose proof (encode_entry_length e He).
  unfold conforming_entry. change (encode_entry e) with (encode (entry_map e)) in *.
  unfold entry_map in Hw |- *. rewrite split_map_encode; [|done|simpl; unfold DECODE_DEPTH_LIMIT; lia|].
  2:{ unfold entry_map in *. lia. }
  cbn [result_ok mbind option_bind]. change (zlen (@nil Z) =? 0) with true. cbn [negb].
  inversion Hw as [| | | | |? HF Hz| |]; subst.
  assert (forall v, wf v -> depth v = 0%nat -> decode (encode v) = Ok (v, [])) as Hdec.
  { intros v Hv H0. apply decode_encoded; [done|]. lia. }
  destruct He as (Hc & Hcl & Hn & Hnl & Hs).
  repeat (apply list.Forall_cons in HF; destruct HF as [[? ?] HF]).
  set (m := (fun kv => _) <$> _). unfold m. cbn [fmap list_fmap fst snd fold_opt].
  unfold conforming_step. cbn [fst snd]. rewrite !Hdec by done.
  cbn -[zlen encode]. rewrite Hnl. cbn -[zlen encode]. done.
Qed.

(** An element the program can hold: read from a measured element, or built
    here from sound fields. *)
Definition item_valid (i : Item) : Prop :=
  match i with
  | Entry e => match original e with
               | Some raw => conforming_entry raw = Some e /\ measured DECODE_DEPTH_LIMIT raw
               | None => entry_wf e
               end
  | Skipped raw => conforming_entry raw = None /\ measured DECODE_DEPTH_LIMIT raw
  end.

Definition array_valid (a : LargeBlobArray) : Prop := Forall item_valid (items a) /\ zlen (items a) < 2 ^ 64.

(** The same element once it has been written and read again. *)
Definition as_read (i : Item) : Item :=
  match i with
  | Entry e => Entry (mkEntry (ciphertext e) (nonce e) (orig_size e) (Some (item_raw i)))
  | Skipped raw => Skipped raw
  end.

Lemma conforming_original raw e : conforming_entry raw = Some e -> original e = Some raw.
Proof.
  unfold conforming_entry. destruct (result_ok _) as [[ps r]|]; [simpl|done].
  destruct (negb _); [done|]. destruct (fold_opt _ _ _) as [s|]; [simpl|done].
  destruct (sl_ct s), (sl_nonce s), (sl_size s); try done. by intros [= <-].
Qed.

Lemma item_read_back i :
  item_valid i -> measured DECODE_DEPTH_LIMIT (item_raw i) /\ classify_item (item_raw i) = as_read i.
Proof.
  destruct i as [e|raw]; simpl; unfold classify_item.
  - destruct (original e) as [raw|] eqn:Eo.
    + intros [Hc Hm]. split; [done|]. rewrite Hc. destruct e. simpl in *. by subst.
    + intros He. split; [|by rewrite conforming_encode_entry].
      apply (encoded_measured (entry_map e)); [by apply entry_map_wf|simpl; unfold DECODE_DEPTH_LIMIT; lia|].
      change (encode (entry_map e)) with (encode_entry e). pose proof (encode_entry_length e He). lia.
  - intros [Hc Hm]. by rewrite Hc.
Qed.

Lemma classify_valid raw : measured DECODE_DEPTH_LIMIT raw -> item_valid (classify_item raw) /\ item_raw (classify_item raw) = raw.
Proof.
  intros Hm. unfold classify_item. destruct (conforming_entry raw) as [e|] eqn:E; simpl; [|done].
  by rewrite (conforming_original _ _ E).
Qed.

Lemma array_bytes_concat a : array_bytes a = array_header (zlen (items a)) ++ concat (item_raw <$> items a).
Proof.
  unfold array_bytes. generalize (array_header (zlen (items a))). induction (items a) as [|i l IH]; intros h; simpl.
  - by rewrite app_nil_r.
  - by rewrite IH, <- app_assoc.
Qed.

(** What parsing yields, in terms of the bytes. *)
Lemma parse_spec d a :
  parse d = Ok a <->
  exists raws rest, split_array d = Ok (raws, rest) /\ a = mkArray (classify_item <$> raws) d (zlen rest).
Proof.
  unfold parse, parse_items. split.
  - destruct (negb _); [done|]. destruct (split_array d) as [[raws rest]|e]; simpl; [|done].
    intros [= <-]. eauto.
  - intros (raws & rest & Hs & ->).
    assert ((fun b => Z.shiftr b 5) <$> head d = Some 4) as Hh.
    { apply split_array_spec in Hs as (h & x & -> & Hh & _).
      destruct (hdr_parts _ _ _ _ Hh) as (b & u & -> & Hb & _). simpl. by rewrite Hb. }
    rewrite bool_decide_true by done. simpl. by rewrite Hs.
Qed.

Lemma parse_valid d a : zlen d < 2 ^ 64 -> parse d = Ok a -> array_valid a /\ raw_array a = d.
Proof.
  intros Hd (raws & rest & Hs & ->)%parse_spec. split; [|done]. unfold array_valid. simpl.
  apply split_array_spec in Hs as (h & x & -> & Hh & HF). split.
  - apply Forall_fmap. eapply list.Forall_impl; [exact HF|]. intros r Hr. by apply classify_valid.
  - rewrite zlen_fmap. apply hdr_word in Hh as [Hw _]. unfold is_word in Hw. lia.
Qed.

(** Every valid array is read back element for element. *)
Lemma parse_array_bytes a :
  array_valid a -> parse (array_bytes a) = Ok (mkArray (as_read <$> items a) (array_bytes a) 0).
Proof.
  intros [HF Hz]. apply parse_spec. exists (item_raw <$> items a), []. split.
  - rewrite array_bytes_concat. rewrite <- (app_nil_r (concat _)). rewrite <- (zlen_fmap item_raw).
    apply split_array_header; [|by rewrite zlen_fmap].
    apply Forall_fmap. eapply list.Forall_impl; [exact HF|]. intros i Hi. by apply item_read_back.
  - rewrite <- list_fmap_compose. f_equal. apply list_fmap_ext.
    intros k i Hi. symmetry. apply item_read_back. by eapply Forall_lookup_1 in HF.
Qed.

Lemma entries_app l k : omap entry_of (l ++ k) = omap entry_of l ++ omap entry_of k.
Proof. apply omap_app. Qed.

(** ** Finding an entry by its number *)

Lemma enum_filter_spec (l : list Item) o n (idx : nat) :
  List.filter (fun p => is_entry p.2) (imap (fun i x => ((o + i)%nat, x)) l) !! idx = Some n ->
  exists pre e post, l = pre ++ Entry e :: post /\ n = ((o + length pre)%nat, Entry e) /\
    length (omap entry_of pre) = idx.
Proof.
  revert o idx. induction l as [|i l IH]; intros o idx; [done|].
  rewrite imap_cons. cbn [List.filter snd].
  assert (imap ((fun i0 x => ((o + i0)%nat, x)) ∘ S) l = imap (fun i0 (x : Item) => ((S o + i0)%nat, x)) l) as ->.
  { apply imap_ext. intros. simpl. f_equal. lia. }
  destruct i as [e|raw]; cbn [is_entry].
  - destruct idx as [|idx].
    + intros [= <-]. exists [], e, l. simpl. rewrite Nat.add_0_r. done.
    + cbn [lookup list_lookup]. intros H. destruct (IH _ _ H) as (pre & e' & post & -> & -> & <-).
      exists (Entry e :: pre), e', post. csimpl. split_and!; try done. f_equal. lia.
  - intros H. destruct (IH _ _ H) as (pre & e' & post & -> & -> & <-).
    exists (Skipped raw :: pre), e', post. csimpl. split_and!; try done. f_equal. lia.
Qed.

(** A place among the elements: the entry numbered [idx] is [e]. *)
Definition entry_at (a : LargeBlobArray) (idx : nat) pre e post : Prop :=
  items a = pre ++ Entry e :: post /\ length (omap entry_of pre) = idx.

Lemma entry_at_entry a idx pre e post : entry_at a idx pre e post -> entry a idx = Some e.
Proof.
  intros [Hi Hl]. unfold entry, entries. rewrite Hi, omap_app, lookup_app_r by lia.
  rewrite Hl, Nat.sub_diag. done.
Qed.

Lemma item_index_Some a idx pos :
  item_index a idx = Some pos -> exists pre e post, entry_at a idx pre e post /\ pos = length pre.
Proof.
  unfold item_index. intros (n & H & ->)%fmap_Some.
  destruct (enum_filter_spec (items a) 0 n idx H) as (pre & e & post & Hi & -> & Hl).
  by exists pre, e, post.
Qed.

Lemma enum_filter_length (l : list Item) (f : nat -> Item -> nat * Item) :
  (forall i x, (f i x).2 = x) ->
  length (List.filter (fun p => is_entry p.2) (imap f l)) = length (omap entry_of l).
Proof.
  revert f. induction l as [|i l IH]; intros f Hf; [done|]. rewrite imap_cons. cbn [List.filter].
  rewrite Hf. destruct i as [e|raw]; csimpl; rewrite IH by (intros; apply Hf); done.
Qed.

Lemma item_index_None a idx : item_index a idx = None <-> entry a idx = None.
Proof.
  unfold item_index, entry, entries. rewrite fmap_None, !lookup_ge_None, enum_filter_length; done.
Qed.

Lemma entry_at_unique a idx pre e post pre' e' post' :
  entry_at a idx pre e post -> entry_at a idx pre' e' post' -> pre = pre' /\ e = e' /\ post = post'.
Proof.
  unfold entry_at. intros [-> H1] [H2 H3]. revert idx pre' H1 H2 H3.
  induction pre as [|i pre IH]; intros idx [|i' pre'] H1 H2 H3; simpl in H2; injection H2.
  - by intros -> ->.
  - intros _ <-. csimpl in *. lia.
  - intros _ ->. csimpl in *. lia.
  - intros H4 ->. destruct i' as [e0|raw]; csimpl in *.
    + destruct idx; [done|]. destruct (IH idx pre' ltac:(lia) H4 ltac:(lia)) as (-> & -> & ->). done.
    + destruct (IH idx pre' H1 H4 H3) as (-> & -> & ->). done.
Qed.

Lemma changed_valid a l : Forall item_valid l -> zlen l < 2 ^ 64 -> array_valid (changed a l).
Proof. done. Qed.

Lemma as_read_read raw : as_read (classify_item raw) = classify_item raw.
Proof.
  unfold classify_item. destruct (conforming_entry raw) as [e|] eqn:E; [|done].
  apply conforming_original in E. destruct e; simpl in *. by subst.
Qed.

Lemma KR_NOTE_Bytes : Bytes KR_NOTE_MAGIC.
Proof. apply (bool_decide_eq_true_1 _). vm_compute. reflexivity. Qed.

(** A text the program can be asked to store. *)
Definition text_ok (text : list Z) : Prop := Bytes text /\ is_str text /\ zlen text < 2 ^ 31.

Lemma from_text_valid text : text_ok text -> entry_wf (from_text text).
Proof.
  intros (HB & _ & Hl). pose proof (zlen_nonneg text). unfold entry_wf, from_text. cbn [ciphertext nonce orig_size].
  split_and!.
  - apply Forall_app; split; [apply KR_NOTE_Bytes|done].
  - rewrite zlen_app. change (zlen KR_NOTE_MAGIC) with 4. lia.
  - by repeat constructor.
  - done.
  - unfold is_word. lia.
Qed.

Lemma note_text text e : ciphertext e = KR_NOTE_MAGIC ++ text -> is_str text -> as_text_note e = Some text /\ is_kr_note e = true.
Proof.
  intros He Hs. assert (starts_with KR_NOTE_MAGIC (ciphertext e) = true) as Hp by (apply starts_with_spec; eauto).
  unfold as_text_note, is_kr_note, strip_prefix. rewrite Hp, He. split; [|done].
  rewrite drop_app_length. cbn [mbind option_bind]. by apply from_utf8_str.
Qed.

Lemma is_kr_note_spec e : is_kr_note e = true <-> exists body, ciphertext e = KR_NOTE_MAGIC ++ body.
Proof. apply starts_with_spec. Qed.

Lemma with_replaced_spec a idx text a' :
  with_replaced_note a idx text = Some a' <->
  exists pre e post, entry_at a idx pre e post /\ is_kr_note e = true /\
    a' = changed a (pre ++ Entry (from_text text) :: post).
Proof.
  unfold with_replaced_note. split.
  - intros H. apply bind_Some in H as (e & He & H). destruct (is_kr_note e) eqn:Hk; [|done]. simpl in H.
    apply bind_Some in H as (pos & Hp & [= <-]).
    apply item_index_Some in Hp as (pre & e' & post & Hat & ->).
    rewrite (entry_at_entry _ _ _ _ _ Hat) in He. injection He as ->.
    exists pre, e, post. split_and!; [done|done|]. destruct Hat as [-> _].
    f_equal. by rewrite insert_app_r_alt, Nat.sub_diag.
  - intros (pre & e & post & Hat & Hk & ->). rewrite (entry_at_entry _ _ _ _ _ Hat). simpl. rewrite Hk. simpl.
    destruct (item_index a idx) as [pos|] eqn:Hp.
    + apply item_index_Some in Hp as (pre' & e' & post' & Hat' & ->).
      destruct (entry_at_unique _ _ _ _ _ _ _ _ Hat Hat') as (<- & <- & <-). simpl.
      destruct Hat as [-> _]. f_equal. f_equal. rewrite insert_app_r_alt, Nat.sub_diag by done. done.
    + apply item_index_None in Hp. rewrite (entry_at_entry _ _ _ _ _ Hat) in Hp. done.
Qed.

Lemma without_entry_spec a idx a' :
  without_entry a idx = Some a' <->
  exists pre e post, entry_at a idx pre e post /\ a' = changed a (pre ++ post).
Proof.
  unfold without_entry. split.
  - intros H. apply bind_Some in H as (pos & Hp & [= <-]).
    apply item_index_Some in Hp as (pre & e' & post & Hat & ->). exists pre, e', post. split; [done|].
    destruct Hat as [-> _]. f_equal. by rewrite delete_middle.
  - intros (pre & e & post & Hat & ->). destruct (item_index a idx) as [pos|] eqn:Hp.
    + apply item_index_Some in Hp as (pre' & e' & post' & Hat' & ->).
      destruct (entry_at_unique _ _ _ _ _ _ _ _ Hat Hat') as (<- & <- & <-). simpl.
      destruct Hat as [-> _]. by rewrite delete_middle.
    + apply item_index_None in Hp. rewrite (entry_at_entry _ _ _ _ _ Hat) in Hp. done.
Qed.

Section labels.
Context `{BlobCryptoLaws}.

Lemma decode_entry_fields e e' :
  ciphertext e = ciphertext e' -> nonce e = nonce e' -> orig_size e = orig_size e' ->
  decode_entry e = decode_entry e'.
Proof. unfold decode_entry. by intros -> -> ->. Qed.

Lemma is_label_as_read i : is_label_item (as_read i) = is_label_item i.
Proof. by destruct i. Qed.

Lemma with_label_spec a l n a' :
  with_label a l n = Ok a' <->
  exists new, a' = changed a (List.filter (fun i => negb (is_label_item i)) (items a) ++ new) /\
    match l with
    | None => new = []
    | Some l => label_ok l = true /\ exists e, DeviceLabel.encode_entry l n = Ok e /\ new = [Entry e]
    end.
Proof.
  unfold with_label. destruct l as [l|].
  - rewrite encode_entry_spec. destruct (label_ok l) eqn:Hok; simpl.
    + split.
      * intros [= <-]. eexists. split; [done|]. eauto.
      * intros (new & -> & _ & e & [= <-] & ->). done.
    + split; [done|]. by intros (new & _ & ? & _).
  - split.
    + intros [= <-]. exists []. by rewrite app_nil_r.
    + intros (new & -> & ->). by rewrite app_nil_r.
Qed.

Lemma encode_entry_wf l n e :
  label_wf l -> Bytes n -> zlen n = 12 -> DeviceLabel.encode_entry l n = Ok e -> entry_wf e /\ original e = None.
Proof.
  intros Hw Hn Hz. rewrite encode_entry_spec. destruct (label_ok l) eqn:Hok; [|done]. intros <-%Ok_inj.
  pose proof (plaintext_length l Hw Hok) as Hl. set (p := encode (Map (label_map l))) in *.
  pose proof (encode_Bytes _ (label_map_wf l Hw Hok)) as HB. fold p in HB. pose proof (zlen_nonneg p).
  split; [|done]. unfold entry_wf, built. cbn [ciphertext nonce orig_size].
  unfold gcm_encrypt. destruct (gcm_out label_key n (blob_aad (zlen p)) (stored_deflate p)) as [Hg1 Hg2];
    [by apply stored_deflate_Bytes|].
  split_and!; try done.
  - rewrite Hg2. unfold stored_deflate. rewrite !zlen_app, !zlen_to_le. zlen. lia.
  - unfold is_word. lia.
Qed.

Lemma with_label_valid a l n a' :
  array_valid a -> match l with Some l => label_wf l | None => True end -> Bytes n -> zlen n = 12 ->
  zlen (items a) < 2 ^ 63 -> with_label a l n = Ok a' -> array_valid a'.
Proof.
  intros [HF Hz] Hl Hn Hn12 Hz2 (new & -> & Hnew)%with_label_spec.
  assert (Forall item_valid (List.filter (fun i => negb (is_label_item i)) (items a))) as Hkept.
  { clear -HF. induction HF as [|i its Hi _ IH]; [constructor|]. simpl. destruct (negb _); [by constructor|done]. }
  assert (zlen (List.filter (fun i => negb (is_label_item i)) (items a)) <= zlen (items a)) as Hle.
  { clear. induction (items a) as [|i its IH]; [done|]. simpl. destruct (negb _); zlen; lia. }
  destruct l as [l|].
  - destruct Hnew as (Hok & e & He & ->). destruct (encode_entry_wf _ _ _ Hl Hn Hn12 He) as [Hw Ho].
    apply changed_valid; [|zlen; lia]. apply Forall_app; split; [done|]. constructor; [|constructor].
    simpl. by rewrite Ho.
  - subst new. rewrite app_nil_r. apply changed_valid; [done|]. lia.
Qed.

(** The entries holding a name, in order. *)
Definition label_step (ie : nat * LargeBlobEntry) : option (nat * DeviceLabel) :=
  l ← decode_entry ie.2; Some (ie.1, l).

Lemma enum_labels_none (es : list LargeBlobEntry) (f : nat -> LargeBlobEntry -> nat * LargeBlobEntry) :
  (forall i e, (f i e).2 = e) -> Forall (fun e => decode_entry e = None) es -> omap label_step (imap f es) = [].
Proof.
  intros Hf HF. revert f Hf. induction HF as [|e es He _ IH]; intros f Hf; [done|]. rewrite imap_cons. csimpl.
  unfold label_step at 1. rewrite Hf, He. simpl. apply IH. intros. apply Hf.
Qed.

Lemma label_none a : Forall (fun e => decode_entry e = None) (entries a) -> label a = None.
Proof. intros HF. unfold label. change (fun ie => _) with label_step. by rewrite enum_labels_none. Qed.

Lemma label_last a es e l :
  entries a = es ++ [e] -> decode_entry e = Some l -> label a = Some (length es, l).
Proof.
  intros He Hl. unfold label. rewrite He, imap_app. simpl. rewrite omap_app. csimpl. rewrite Hl. simpl.
  rewrite Nat.add_0_r. apply last_snoc.
Qed.

Lemma kept_not_labels its :
  Forall (fun e => decode_entry e = None)
    (omap entry_of (as_read <$> List.filter (fun i => negb (is_label_item i)) its)).
Proof.
  induction its as [|i its IH]; [constructor|]. cbn [List.filter].
  destruct (is_label_item i) eqn:Hi; simpl; [done|]. destruct i as [e|raw]; csimpl; [|done].
  constructor; [|done]. simpl in Hi. apply bool_decide_eq_false in Hi.
  apply eq_None_not_Some. intros [l Hl]. apply Hi. exists l.
  by erewrite (decode_entry_fields e) by done.
Qed.

(** The names an array holds, in order. *)
Definition names (a : LargeBlobArray) : list DeviceLabel := omap decode_entry (entries a).

(** The array a change of name is meant to leave: every element that was not a
    name, in its place, then one entry under the fresh nonce holding the new
    name, or nothing. *)
Definition renamed (a : LargeBlobArray) (l : option DeviceLabel) (n : list Z) (r : LargeBlobArray) : Prop :=
  exists new, items r = (as_read <$> List.filter (fun i => negb (is_label_item i)) (items a)) ++ new /\
    match l with
    | Some l => exists e, new = [Entry e] /\ decode_entry e = Some l /\ nonce e = n
    | None => new = []
    end.

Lemma no_names es : Forall (fun e => decode_entry e = None) es -> omap decode_entry es = [].
Proof. induction 1 as [|e es He _ IH]; [done|]. csimpl. by rewrite He. Qed.

Lemma renamed_names a l n r : renamed a l n r -> names r = option_list l.
Proof.
  intros (new & Hr & Hnew). unfold names, entries. rewrite Hr, omap_app.
  rewrite omap_app, (no_names _ (kept_not_labels _)). destruct l as [l|]; [|by subst].
  destruct Hnew as (e & -> & He & _). csimpl. by rewrite He.
Qed.

(** What a changed name looks like once written and read. *)
Lemma with_label_renamed a l n a' :
  Bytes n -> zlen n = 12 -> match l with Some l => label_wf l | None => True end ->
  with_label a l n = Ok a' -> renamed a l n (mkArray (as_read <$> items a') (array_bytes a') 0).
Proof.
  intros Hn Hn12 Hl (new & -> & Hnew)%with_label_spec. unfold renamed. cbn [items changed]. rewrite fmap_app.
  eexists. split; [done|]. destruct l as [l|]; [|by subst].
  destruct Hnew as (Hok & e & He & ->). csimpl. eexists. split; [done|]. split.
  - rewrite <- (decode_encode_entry l n e Hl Hn12 He). by apply decode_entry_fields.
  - cbn [nonce]. rewrite encode_entry_spec, Hok in He. apply Ok_inj in He as <-. done.
Qed.

Lemma with_label_read_back a l n a' :
  array_valid a -> zlen (items a) < 2 ^ 63 -> Bytes n -> zlen n = 12 ->
  match l with Some l => label_wf l | None => True end -> with_label a l n = Ok a' ->
  let r := mkArray (as_read <$> items a') (array_bytes a') 0 in
  array_valid a' /\
  label r = match l with Some l => Some ((length (entries r) - 1)%nat, l) | None => None end /\
  List.filter (fun i => negb (is_label_item i)) (items r) =
    as_read <$> List.filter (fun i => negb (is_label_item i)) (items a).
Proof.
  intros Hv Hz Hn Hn12 Hl Hw r. unfold r. clear r.
  pose proof (with_label_valid a l n a' Hv Hl Hn Hn12 Hz Hw) as Hv'.
  apply with_label_spec in Hw as (new & -> & Hnew). split; [done|].
  cbn [items changed]. unfold entries. cbn [items]. rewrite fmap_app.
  set (kept := List.filter _ _) in *.
  assert (List.filter (fun i => negb (is_label_item i)) (as_read <$> kept) = as_read <$> kept) as Hk.
  { unfold kept. clear. induction (items a) as [|i its IH]; [done|]. cbn [List.filter].
    destruct (negb (is_label_item i)) eqn:Hi; [|done]. csimpl. rewrite is_label_as_read, Hi. by f_equal. }
  rewrite List.filter_app, Hk. destruct l as [l|].
  - destruct Hnew as (Hok & e & He & ->). pose proof (decode_encode_entry l n e Hl Hn12 He) as Hd.
    assert (decode_entry (mkEntry (ciphertext e) (nonce e) (orig_size e) (Some (item_raw (Entry e)))) = Some l) as Hd'.
    { by rewrite <- Hd. }
    split.
    + erewrite (label_last _ (omap entry_of (as_read <$> kept))); [|unfold entries; cbn [items]; rewrite omap_app; reflexivity|exact Hd'].
      rewrite omap_app, length_app. simpl. do 2 f_equal. lia.
    + cbn [List.filter fmap list_fmap as_read]. cbn [is_label_item]. rewrite Hd'. rewrite bool_decide_true by eauto.
      by rewrite app_nil_r.
  - subst new. rewrite app_nil_r. split; [|apply app_nil_r].
    apply label_none. unfold entries. cbn [items]. apply kept_not_labels.
Qed.
End labels.

(** * Properties *)

Section properties.
Context `{BlobCryptoLaws}.

(** Rewriting an array that was read never loses or alters anything on the
    key. Whatever array the key returned, if it parses, then its elements
    (entries, and elements that are not entries) are emitted again byte for
    byte, in order, under a fresh array header and followed by the checksum of
    exactly those bytes; with bytes after the array's end nothing is emitted at
    all; and the emitted array parses to the same elements. *)
Theorem blob_rewrite_preserves (d : list Z) (a : LargeBlobArray) :
  zlen d < 2 ^ 64 -> parse d = Ok a ->
  exists h x raws rest,
    d = h ++ concat raws ++ rest /\ hdr h MT_ARRAY x (zlen raws) /\ item_raw <$> items a = raws /\
    serialize_with_checksum a = (if decide (rest = []) then
      Ok (array_header (zlen raws) ++ concat raws ++
          left16_sha256 (array_header (zlen raws) ++ concat raws))
    else Err (InvalidResponseShape REWRITE_REFUSED)) /\
    parse (array_bytes a) = Ok (mkArray (items a) (array_bytes a) 0).
Proof.
  intros Hz Hp. destruct (parse_valid d a Hz Hp) as [Hv _]. pose proof (parse_array_bytes a Hv) as Hb.
  apply parse_spec in Hp as (raws & rest & Hs & ->). apply split_array_spec in Hs as (h & x & -> & Hh & HF).
  cbn [items] in *.
  assert (item_raw <$> (classify_item <$> raws) = raws) as Hraw.
  { rewrite <- list_fmap_compose. clear -HF. induction HF as [|r raws Hr _ IH]; [done|]. csimpl. f_equal; [|done].
    by apply classify_valid. }
  exists h, x, raws, rest. split_and!; try done.
  - unfold serialize_with_checksum. rewrite array_bytes_concat. cbn [items trailing]. rewrite Hraw, zlen_fmap.
    destruct rest as [|b rest]; [rewrite decide_True by done; by rewrite <- app_assoc|].
    rewrite decide_False by done. pose proof (zlen_nonneg rest).
    rewrite (proj2 (Z.ltb_lt _ _)); [done|]. zlen. lia.
  - rewrite Hb. f_equal. f_equal. rewrite <- list_fmap_compose. apply list_fmap_ext. intros. apply as_read_read.
Qed.

(** An edit changes the one element it names. Adding a note appends one
    entry, which reads back (through serialization and parsing) with its text;
    replacing succeeds exactly when the entry of that number is a keyroost note
    and puts the new note in its place; removing succeeds exactly when there is
    an entry of that number and takes only it away. All other elements, entries
    or not, stay in place. *)
Theorem blob_edits_are_local (a : LargeBlobArray) (idx : nat) (text : list Z) :
  array_valid a -> zlen (items a) < 2 ^ 63 -> text_ok text ->
  (exists r, parse (array_bytes (with_text_note a text)) = Ok r /\
    exists e, items r = (as_read <$> items a) ++ [Entry e] /\ as_text_note e = Some text) /\
  (forall a', with_replaced_note a idx text = Some a' <->
    exists pre e post, entry_at a idx pre e post /\ is_kr_note e = true /\
      a' = changed a (pre ++ Entry (from_text text) :: post)) /\
  (forall a', without_entry a idx = Some a' <->
    exists pre e post, entry_at a idx pre e post /\ a' = changed a (pre ++ post)).
Proof.
  intros [HF Hz] Hz2 Ht. split; [|split; intros; [apply with_replaced_spec|apply without_entry_spec]].
  assert (array_valid (with_text_note a text)) as Hv.
  { apply changed_valid; [|zlen; lia]. apply Forall_app; split; [done|]. constructor; [|done].
    by apply from_text_valid. }
  rewrite (parse_array_bytes _ Hv). eexists. split; [done|]. cbn [items with_text_note changed].
  rewrite fmap_app. eexists. split; [done|]. apply note_text; [done|]. apply Ht.
Qed.

(** The key's name is what was last set. Setting a name succeeds exactly
    when the label and writer have 1 to 64 characters; the array it builds,
    written out and read again, has that name as its last entry, no other name
    entry, and the other elements as they were; clearing leaves no name. *)
Theorem label_set_then_read (a : LargeBlobArray) (l : option DeviceLabel) (n : list Z) :
  array_valid a -> zlen (items a) < 2 ^ 63 -> Bytes n -> zlen n = 12 ->
  match l with Some l => label_wf l | None => True end ->
  match with_label a l n with
  | Err e => e = InvalidLabel /\ exists l0, l = Some l0 /\ label_ok l0 = false
  | Ok a' => exists r, parse (array_bytes a') = Ok r /\
      label r = match l with
                | Some l => Some ((length (entries r) - 1)%nat, l)
                | None => None
                end /\
      List.filter (fun i => negb (is_label_item i)) (items r) =
        as_read <$> List.filter (fun i => negb (is_label_item i)) (items a)
  end.
Proof.
  intros Hv Hz Hn Hn12 Hl. destruct (with_label a l n) as [a'|e] eqn:Hw.
  2:{ unfold with_label in Hw. destruct l as [l|]; [|done]. rewrite encode_entry_spec in Hw.
      destruct (label_ok l) eqn:Hok; [done|]. injection Hw as <-. eauto. }
  destruct (with_label_read_back a l n a' Hv Hz Hn Hn12 Hl Hw) as (Hv' & Hlab & Hrest).
  rewrite (parse_array_bytes _ Hv'). eauto.
Qed.
End properties.

(** * Instances *)

(** Array on a key: one entry, one element that is not an entry. *)
Definition sample : list Z := [0x82] ++ encode_entry (from_text (s2b "hi")) ++ [0x18; 0x2A].
Definition sample_array : LargeBlobArray := default (mkArray [] [] 0) (result_ok (parse sample)).

Lemma blob_rewrite_preserves_witness :
  exists h x raws rest,
    sample = h ++ concat raws ++ rest /\ hdr h MT_ARRAY x (zlen raws) /\ item_raw <$> items sample_array = raws /\
    serialize_with_checksum (H := model_crypto) sample_array = (if decide (rest = []) then
      Ok (array_header (zlen raws) ++ concat raws ++
          left16_sha256 (H := model_crypto) (array_header (zlen raws) ++ concat raws))
    else Err (InvalidResponseShape REWRITE_REFUSED)) /\
    parse (array_bytes sample_array) = Ok (mkArray (items sample_array) (array_bytes sample_array) 0).
Proof.
  assert (parse sample = Ok sample_array) as Hp by (vm_compute; reflexivity).
  exact (@blob_rewrite_preserves model_crypto sample sample_array eq_refl Hp).
Defined.

Lemma blob_edits_are_local_witness :
  (exists r, parse (array_bytes (with_text_note (mkArray [] [] 0) (s2b "x"))) = Ok r /\
    exists e, items r = [] ++ [Entry e] /\ as_text_note e = Some (s2b "x")) /\
  (forall a', with_replaced_note (mkArray [] [] 0) 0 (s2b "x") = Some a' <->
    exists pre e post, entry_at (mkArray [] [] 0) 0 pre e post /\ is_kr_note e = true /\
      a' = changed (mkArray [] [] 0) (pre ++ Entry (from_text (s2b "x")) :: post)) /\
  (forall a', without_entry (mkArray [] [] 0) 0 = Some a' <->
    exists pre e post, entry_at (mkArray [] [] 0) 0 pre e post /\ a' = changed (mkArray [] [] 0) (pre ++ post)).
Proof.
  apply (blob_edits_are_local (mkArray [] [] 0) 0 (s2b "x")).
  - split; [constructor|done].
  - done.
  - split_and!; [by repeat constructor|by eexists|done].
Defined.

(** A name set on an empty array. *)
Lemma label_set_then_read_witness :
  match with_label (H := model_crypto) (mkArray [] [] 0) (Some (mkLabel (s2b "Work") None)) (replicate 12 7) with
  | Err e => e = InvalidLabel /\ exists l0, Some (mkLabel (s2b "Work") None) = Some l0 /\ label_ok l0 = false
  | Ok a' => exists r, parse (array_bytes a') = Ok r /\
      label (H := model_crypto) r = Some ((length (entries r) - 1)%nat, mkLabel (s2b "Work") None) /\
      List.filter (fun i => negb (is_label_item (H := model_crypto) i)) (items r) =
        as_read <$> List.filter (fun i => negb (is_label_item (H := model_crypto) i)) []
  end.
Proof.
  assert (array_valid (mkArray [] [] 0)) as Hv by (split; [constructor|done]).
  assert (label_wf (mkLabel (s2b "Work") None)) as Hl by (split_and!; [by repeat constructor|by eexists|done]).
  assert (Bytes (replicate 12 7)) as Hn by (by repeat constructor).
  exact (@label_set_then_read model_crypto model_crypto_laws (mkArray [] [] 0) (Some (mkLabel (s2b "Work") None))
    (replicate 12 7) Hv eq_refl Hn eq_refl Hl).
Defined.
