(* ===== verification/BlobStore.v ===== *)
(** Moving the large-blob array to and from a key: large_blobs.rs's fragment
    protocol, and device_label.rs's reading, planning and writing of a name. The
    key is any transport that answers as CTAP 2.1 section 6.10.2 says
    ([BlobDevice]); the end of the file gives one. *)
From S2P Require Export LargeBlobs.
From S2P Require Import CryptoModel.

Definition CTAP2_LARGE_BLOBS : Z := 0x0C.
Definition KEY_GET : Z := 1.
Definition KEY_SET : Z := 2.
Definition KEY_OFFSET : Z := 3.
Definition KEY_LENGTH : Z := 4.
Definition KEY_PIN_UV_AUTH_PARAM : Z := 5.
Definition KEY_PIN_UV_AUTH_PROTOCOL : Z := 6.
Definition RESP_CONFIG : Z := 1.

(** The safety valve of [read]: 64 KiB. *)
Definition READ_LIMIT : Z := 64 * 1024.

(** What a key says about its own name. *)
Inductive LabelState :=
  | Unsupported
  | Absent
  | Present (l : DeviceLabel).

Record LabelPlan := mkPlan {
  before_raw : list Z;
  serialized : list Z;
  previous : option DeviceLabel;
  after : LargeBlobArray
}.

Section store.
Context {D : Type} `{CtapTransport D} `{BlobCrypto}.

Definition dispatch (params : Value) : io D CtapError Value :=
  resp ← transact CTAPHID_CBOR (CTAP2_LARGE_BLOBS :: encode params);
  '(status, body) ← lift (split_status resp);
  if negb (status =? 0) then lift (Err (StatusCode status)) else
  if zlen body =? 0 then mret Null else
  '(value, _) ← lift (map_err ECbor (decode body));
  mret value.

(** The loop over the response map in [read_fragment]. *)
Fixpoint find_config (entries : list (Value * Value)) : result CtapError (list Z) :=
  match entries with
  | [] => Err (InvalidResponseShape (s2b "largeBlobs get: missing config"))
  | (k, v) :: entries =>
      if bool_decide (as_uint k = Some RESP_CONFIG) then
        match v with
        | VBytes b => Ok b
        | _ => Err (InvalidResponseShape (s2b "largeBlobs get: config not a byte string"))
        end
      else find_config entries
  end.

Definition read_fragment (offset count : Z) : io D CtapError (list Z) :=
  let params := Map [(UInt KEY_GET, UInt count); (UInt KEY_OFFSET, UInt offset)] in
  resp ← dispatch params;
  match resp with
  | Map entries => lift (find_config entries)
  | _ => lift (Err (InvalidResponseShape (s2b "largeBlobs get: not a map")))
  end.

Definition array_too_large : CtapError := InvalidResponseShape (s2b "largeBlobs: array too large").

(** The loop of [read]. Every turn that goes on adds [frag >= 1] bytes, so
    [READ_LIMIT + 2] turns always reach the end or the valve
    ([read_loop_fuel]). *)
Fixpoint read_loop (fuel : nat) (frag offset : Z) (data : list Z) : io D CtapError (list Z) :=
  match fuel with
  | O => lift (Err array_too_large)
  | S fuel =>
      chunk ← read_fragment offset frag;
      let got := zlen chunk in
      let data := data ++ chunk in
      if got <? frag then mret data else
      let offset := offset + got in
      if READ_LIMIT <? zlen data then lift (Err array_too_large) else
      read_loop fuel frag offset data
  end.

(** The checks [read] makes on the bytes before it parses them. *)
Definition check_array (data : list Z) : result CtapError (list Z) :=
  if zlen data <? CHECKSUM_LEN then
    Err (InvalidResponseShape (s2b "largeBlobs: array shorter than checksum")) else
  let '(array_bytes, trailer) := split_at (zlen data - CHECKSUM_LEN) data in
  let expected := left16_sha256 array_bytes in
  if negb (bool_decide (trailer = expected)) then
    Err (InvalidResponseShape (s2b "largeBlobs: checksum mismatch")) else
  Ok array_bytes.

Definition read_fuel : nat := Z.to_nat (READ_LIMIT + 2).

Definition read (info : AuthenticatorInfo) : io D CtapError LargeBlobArray :=
  let frag := max_fragment_length info in
  data ← read_loop read_fuel frag 0 [];
  array_bytes ← lift (check_array data);
  lift (parse array_bytes).

Definition write_auth_param (token : PinUvAuthToken) (offset : Z) (fragment : list Z) : list Z :=
  let frag_hash := sha256 fragment in
  authenticate token
    (replicate 32 0xff ++ [CTAP2_LARGE_BLOBS] ++ [0x00] ++ to_le 4 offset ++ frag_hash).

(** The request map of one fragment. *)
Definition write_request (token : PinUvAuthToken) (total offset : Z) (fragment : list Z) : Value :=
  let auth := write_auth_param token (cast 32 offset) fragment in
  let entries := [(UInt KEY_SET, VBytes fragment); (UInt KEY_OFFSET, UInt offset)] in
  let entries := if offset =? 0 then entries ++ [(UInt KEY_LENGTH, UInt total)] else entries in
  Map (entries ++ [(UInt KEY_PIN_UV_AUTH_PARAM, VBytes auth);
                   (UInt KEY_PIN_UV_AUTH_PROTOCOL, UInt (tok_protocol token))]).

(** The loop of [write]: one turn per byte at most. *)
Fixpoint write_loop (fuel : nat) (frag_len : Z) (token : PinUvAuthToken) (serialized : list Z) (offset : Z) :
    io D CtapError unit :=
  match fuel with
  | O => mret tt
  | S fuel =>
      if negb (offset <? zlen serialized) then mret tt else
      let end_ := Z.min (offset + frag_len) (zlen serialized) in
      let fragment := slice serialized (Z.to_nat offset) (Z.to_nat end_) in
      _ ← dispatch (write_request token (zlen serialized) offset fragment);
      write_loop fuel frag_len token serialized end_
  end.

Definition write (info : AuthenticatorInfo) (token : PinUvAuthToken) (serialized : list Z) : io D CtapError unit :=
  write_loop (S (length serialized)) (max_fragment_length info) token serialized 0.

(** ** The key's name *)

Definition read_label (info : AuthenticatorInfo) : io D CtapError LabelState :=
  if negb (bool_decide (option_flag info (s2b "largeBlobs") = Some true)) then mret Unsupported else
  a ← read info;
  mret (match label a with Some (_, l) => Present l | None => Absent end).

Definition plan_label_change (current : LargeBlobArray) (info : AuthenticatorInfo)
    (l : option DeviceLabel) (nonce : list Z) : result LabelError LabelPlan :=
  if negb (bool_decide (option_flag info (s2b "largeBlobs") = Some true)) then Err LUnsupported else
  if negb (bool_decide (option_flag info (s2b "clientPin") = Some true)) then Err NoPin else
  after ← with_label current l nonce;
  serialized ← map_err LCtap (serialize_with_checksum after);
  let size := zlen serialized in
  let max := max_bytes (capacity current info) in
  if max <? size then Err (TooLarge size max) else
  Ok (mkPlan (raw_array current) serialized (snd <$> label current) after).

Definition apply_label_plan (info : AuthenticatorInfo) (token : PinUvAuthToken) (plan : LabelPlan) :
    io D LabelError unit :=
  now ← io_map_err LCtap (read info);
  if negb (bool_decide (raw_array now = before_raw plan)) then lift (Err Changed) else
  io_map_err LCtap (write info token (serialized plan)).
End store.

(** * Whatever the key answers *)

Section any_key.
Context {D : Type} `{CtapTransport D} `{BlobCrypto}.

Lemma io_bind_congr {A B} (m : io D CtapError A) (f g : A -> io D CtapError B) d :
  (forall a d', f a d' = g a d') -> (m ≫= f) d = (m ≫= g) d.
Proof. intros Hfg. unfold mbind, io_bind. destruct (m d) as [[a|e] d']; [apply Hfg|done]. Qed.

Lemma max_fragment_pos info : 1 <= max_fragment_length info.
Proof. unfold max_fragment_length. lia. Qed.

(** Enough fuel is enough: the loop reaches the end or the valve. *)
Lemma read_loop_fuel frag f1 f2 offset data d :
  1 <= frag -> zlen data <= READ_LIMIT ->
  READ_LIMIT + 1 - zlen data < Z.of_nat f1 -> READ_LIMIT + 1 - zlen data < Z.of_nat f2 ->
  read_loop f1 frag offset data d = read_loop f2 frag offset data d.
Proof.
  intros Hfrag. revert f2 offset data d. induction f1 as [|f1 IH]; intros f2 offset data d Hd H1 H2; [lia|].
  destruct f2 as [|f2]; [lia|]. cbn [read_loop]. apply io_bind_congr. intros chunk d'.
  destruct (zlen chunk <? frag) eqn:Hc; [done|]. destruct (READ_LIMIT <? _) eqn:Hl; [done|]. bools. zlen.
  apply IH; zlen; lia.
Qed.

(** ... and never overruns: what it returns is at most a fragment past the valve. *)
Lemma read_loop_bounded fuel frag offset data d out d' :
  zlen data <= READ_LIMIT -> read_loop fuel frag offset data d = (Ok out, d') ->
  exists k, out = data ++ k /\ zlen out < READ_LIMIT + frag.
Proof.
  revert offset data d. induction fuel as [|fuel IH]; intros offset data d Hd; cbn [read_loop]; [done|].
  intros (chunk & d1 & _ & Hr)%io_bind_Ok. destruct (zlen chunk <? frag) eqn:Hc.
  - injection Hr as <- _. exists chunk. split; [done|]. bools. zlen. lia.
  - destruct (READ_LIMIT <? _) eqn:Hl; [done|]. bools. apply IH in Hr as (k & -> & Hb); [|done].
    exists (chunk ++ k). split; [by rewrite app_assoc|done].
Qed.

Lemma check_array_spec data arr :
  check_array data = Ok arr <-> data = arr ++ left16_sha256 arr /\ zlen (left16_sha256 arr) = CHECKSUM_LEN.
Proof.
  unfold check_array. destruct (zlen data <? CHECKSUM_LEN) eqn:Hl.
  - split; [done|]. intros [-> Hs]. bools. zlen. pose proof (zlen_nonneg arr). lia.
  - bools. destruct (split_at (zlen data - CHECKSUM_LEN) data) as [a t] eqn:Hs.
    pose proof (split_at_join (zlen data - CHECKSUM_LEN) data) as Hj. rewrite Hs in Hj. simpl in Hj.
    assert (zlen t = CHECKSUM_LEN) as Ht.
    { injection Hs as _ <-. rewrite zlen_drop. unfold CHECKSUM_LEN in *. lia. }
    destruct (bool_decide_reflect (t = left16_sha256 a)) as [->|Hne]; simpl.
    + split; [by intros [= <-]|]. intros [He Hz]. f_equal.
      rewrite <- Hj in He. apply app_inj_2 in He as [-> _]; [done|]. unfold zlen in *. lia.
    + split; [done|]. intros [He Hz]. subst data. apply app_inj_2 in He as [-> ->]; [done|]. unfold zlen in *. lia.
Qed.

Lemma read_Ok_iff info d a d' :
  read info d = (Ok a, d') <->
  exists data arr, read_loop read_fuel (max_fragment_length info) 0 [] d = (Ok data, d') /\
    check_array data = Ok arr /\ parse arr = Ok a.
Proof.
  unfold read. rewrite io_bind_Ok. split.
  - intros (data & d1 & Hr & (arr & d2 & Hc & Hp)%io_bind_Ok). injection Hc as Hc ->. injection Hp as Hp ->. eauto.
  - intros (data & arr & Hr & Hc & Hp). exists data, d'. split; [done|]. rewrite io_bind_Ok.
    exists arr, d'. unfold lift. by rewrite Hc, Hp.
Qed.
End any_key.

(** * A key that keeps the protocol *)

(** [data] carries its checksum. *)
Definition checksummed `{BlobCrypto} (data : list Z) : Prop := is_Some (result_ok (check_array data)).
#[export] Instance checksummed_dec `{BlobCrypto} data : Decision (checksummed data).
Proof. unfold checksummed. apply _. Defined.

Section protocol.
Context `{BlobCrypto}.

Definition get_payload (offset count : Z) : list Z :=
  CTAP2_LARGE_BLOBS :: encode (Map [(UInt KEY_GET, UInt count); (UInt KEY_OFFSET, UInt offset)]).

Definition get_answer (bytes : list Z) : list Z := 0 :: encode (Map [(UInt RESP_CONFIG, VBytes bytes)]).

(** The one message a fragment is sent in: the map's keys ascending, the total
    with the first fragment only, and the token's proof over the offset and the
    fragment's hash. *)
Definition set_payload (token : PinUvAuthToken) (offset : Z) (fragment : list Z) (total : option Z) : list Z :=
  let proof := authenticate token (replicate 32 0xff ++ [0x0C; 0x00] ++ to_le 4 offset ++ sha256 fragment) in
  CTAP2_LARGE_BLOBS :: encode (Map (
    [(UInt 2, VBytes fragment); (UInt 3, UInt offset)] ++
    match total with Some t => [(UInt 4, UInt t)] | None => [] end ++
    [(UInt 5, VBytes proof); (UInt 6, UInt (tok_protocol token))])).

Definition CTAP2_ERR_INTEGRITY_FAILURE : Z := 0x3D.

(** What the key does once the bytes [received] of [total] have arrived: wait for
    more, store a checksummed array, refuse another. *)
Definition set_result (stored received : list Z) (total : Z) : list Z * list Z * option (list Z * Z) :=
  if zlen received <? total then ([0], stored, Some (received, total))
  else if decide (checksummed received) then ([0], received, None)
  else ([CTAP2_ERR_INTEGRITY_FAILURE], stored, None).
End protocol.

(** CTAP 2.1 section 6.10.2, for a key holding a token's permission: [stored] is
    its array, [pending] an unfinished write, [fragmax] and [cap] its limits. *)
Class BlobDevice {D} `{CtapTransport D} `{BlobCrypto} (token : PinUvAuthToken) (fragmax cap : Z)
    (stored : D -> list Z) (pending : D -> option (list Z * Z)) : Prop := {
  dev_get : forall d offset count,
    zlen (stored d) < 2 ^ 64 -> 0 <= offset <= zlen (stored d) -> 1 <= count <= fragmax ->
    exists d', transact CTAPHID_CBOR (get_payload offset count) d =
        (Ok (get_answer (take (Z.to_nat count) (drop (Z.to_nat offset) (stored d)))), d') /\
      stored d' = stored d;
  dev_set_first : forall d fragment total,
    Bytes fragment -> 1 <= zlen fragment <= fragmax -> zlen fragment <= total -> 17 <= total <= cap ->
    exists d', transact CTAPHID_CBOR (set_payload token 0 fragment (Some total)) d =
        (Ok (set_result (stored d) fragment total).1.1, d') /\
      (stored d', pending d') = ((set_result (stored d) fragment total).1.2, (set_result (stored d) fragment total).2);
  dev_set_next : forall d fragment total received,
    pending d = Some (received, total) -> 0 < zlen received ->
    Bytes fragment -> 1 <= zlen fragment <= fragmax -> zlen received + zlen fragment <= total <= cap ->
    exists d', transact CTAPHID_CBOR (set_payload token (zlen received) fragment None) d =
        (Ok (set_result (stored d) (received ++ fragment) total).1.1, d') /\
      (stored d', pending d') = ((set_result (stored d) (received ++ fragment) total).1.2,
        (set_result (stored d) (received ++ fragment) total).2)
}.

Section device.
Context {D : Type} `{BlobDevice D token fragmax cap stored pending} `{!BlobCryptoLaws}.

Lemma write_request_payload total offset fragment :
  CTAP2_LARGE_BLOBS :: encode (write_request token total offset fragment) =
  set_payload token offset fragment (if offset =? 0 then Some total else None).
Proof.
  unfold write_request, set_payload, write_auth_param.
  replace (to_le 4 (cast 32 offset)) with (to_le 4 offset) by (symmetry; apply (to_le_mod 4)).
  destruct (offset =? 0); done.
Qed.

Lemma dispatch_body params d body v d' :
  transact CTAPHID_CBOR (CTAP2_LARGE_BLOBS :: encode params) d = (Ok (0 :: body), d') ->
  (body = [] /\ v = Null \/ body <> [] /\ decode body = Ok (v, [])) ->
  dispatch params d = (Ok v, d').
Proof.
  intros Ht Hb. unfold dispatch, mbind, io_bind. rewrite Ht. cbn -[decode zlen].
  destruct Hb as [[-> ->]|[Hne Hd]]; [done|].
  destruct (zlen body =? 0) eqn:Hz; bools; [by apply zlen_0 in Hz|]. by rewrite Hd.
Qed.

Lemma dispatch_status params d status body d' :
  status <> 0 -> transact CTAPHID_CBOR (CTAP2_LARGE_BLOBS :: encode params) d = (Ok (status :: body), d') ->
  dispatch params d = (Err (StatusCode status), d').
Proof.
  intros Hs Ht. unfold dispatch, mbind, io_bind. rewrite Ht. cbn -[decode zlen Z.eqb].
  by rewrite (proj2 (Z.eqb_neq _ _)).
Qed.

Lemma get_answer_decodes bytes :
  Bytes bytes -> zlen bytes < 2 ^ 64 ->
  decode (encode (Map [(UInt RESP_CONFIG, VBytes bytes)])) = Ok (Map [(UInt RESP_CONFIG, VBytes bytes)], []).
Proof.
  intros HB Hz. apply decode_encoded; [|simpl; unfold DECODE_DEPTH_LIMIT; lia].
  constructor; [|done]. constructor; [|done]. split; constructor; [unfold is_word, RESP_CONFIG; lia|done|done].
Qed.

Lemma read_fragment_device offset count d :
  Bytes (stored d) -> zlen (stored d) < 2 ^ 64 -> 0 <= offset <= zlen (stored d) -> 1 <= count <= fragmax ->
  exists d', read_fragment offset count d =
    (Ok (take (Z.to_nat count) (drop (Z.to_nat offset) (stored d))), d') /\ stored d' = stored d.
Proof.
  intros HB Hz Ho Hc. destruct (dev_get d offset count Hz Ho Hc) as (d' & Ht & Hs). exists d'. split; [|done].
  unfold read_fragment. set (bytes := take _ _) in *.
  assert (zlen bytes <= zlen (stored d)) by (unfold bytes; rewrite zlen_take, zlen_drop; lia).
  assert (Bytes bytes) as HBb by (by apply Forall_take, Forall_drop).
  erewrite io_bind_Ok_eq; [|eapply dispatch_body; [exact Ht|right; split; [apply encode_nonempty|apply get_answer_decodes; [done|lia]]]].
  done.
Qed.

Lemma read_loop_device fuel frag offset d :
  Bytes (stored d) -> zlen (stored d) <= READ_LIMIT -> 1 <= frag <= fragmax ->
  0 <= offset <= zlen (stored d) -> zlen (stored d) - offset < Z.of_nat fuel ->
  exists d', read_loop fuel frag offset (take (Z.to_nat offset) (stored d)) d = (Ok (stored d), d') /\ stored d' = stored d.
Proof.
  intros HB Hz Hf. revert offset d HB Hz. induction fuel as [|fuel IH]; intros offset d HB Hz Ho Hfu; [lia|].
  destruct (read_fragment_device offset frag d) as (d1 & Hr & Hs1); [done|unfold READ_LIMIT in *; lia|done|done|].
  cbn [read_loop]. rewrite (io_bind_Ok_eq _ _ _ _ _ Hr).
  rewrite zlen_take, zlen_drop. rewrite !Z2Nat.id by lia.
  rewrite take_take_drop, <- Z2Nat.inj_add by lia.
  destruct (Z.min frag _ <? frag) eqn:Hc; bools.
  - exists d1. rewrite take_ge; [done|]. unfold zlen in *. lia.
  - rewrite zlen_take. rewrite Z2Nat.id by lia.
    rewrite (proj2 (Z.ltb_ge _ _)) by (unfold READ_LIMIT in *; lia).
    replace (Z.min frag (Z.max 0 (zlen (stored d) - offset))) with frag by lia.
    rewrite <- Hs1. destruct (IH (offset + frag) d1) as (d2 & Hd2 & Hs2); rewrite ?Hs1; try done; try lia.
    exists d2. rewrite Hs1 in *. done.
Qed.

(** Reading is a function of what the key stores. *)
Lemma read_device info d :
  Bytes (stored d) -> zlen (stored d) <= READ_LIMIT -> max_fragment_length info <= fragmax ->
  exists d', read info d = ((arr ← check_array (stored d); parse arr), d') /\ stored d' = stored d.
Proof.
  intros HB Hz Hf. pose proof (max_fragment_pos info) as Hp. pose proof (zlen_nonneg (stored d)).
  destruct (read_loop_device read_fuel (max_fragment_length info) 0 d) as (d' & Hr & Hs); try done; try lia.
  { unfold read_fuel, READ_LIMIT in *. lia. }
  exists d'. split; [|done]. unfold read. erewrite io_bind_Ok_eq; [|exact Hr].
  unfold lift, mbind, io_bind. by destruct (check_array (stored d)).
Qed.

(** How a fragment's answer ends or continues the loop. *)
Lemma dispatch_set_result tot offset fragment d st received d1 :
  transact CTAPHID_CBOR (set_payload token offset fragment (if offset =? 0 then Some tot else None)) d =
    (Ok (set_result st received tot).1.1, d1) ->
  dispatch (write_request token tot offset fragment) d =
    (if decide (zlen received < tot \/ checksummed received) then Ok Null
     else Err (StatusCode CTAP2_ERR_INTEGRITY_FAILURE), d1).
Proof.
  rewrite <- write_request_payload. unfold set_result. intros Ht.
  destruct (zlen received <? tot) eqn:Hl; bools.
  - rewrite decide_True by tauto. eapply dispatch_body; [exact Ht|]. by left.
  - destruct (decide (checksummed received)).
    + rewrite decide_True by tauto. eapply dispatch_body; [exact Ht|]. by left.
    + rewrite decide_False by (intros [?|?]; [lia|done]). eapply dispatch_status; [|exact Ht]. done.
Qed.

Lemma write_step offset end_ fragment ser d d1 st :
  0 <= offset < end_ -> end_ <= zlen ser ->
  fragment = slice ser (Z.to_nat offset) (Z.to_nat end_) ->
  transact CTAPHID_CBOR (set_payload token offset fragment (if offset =? 0 then Some (zlen ser) else None)) d =
    (Ok (set_result st (take (Z.to_nat end_) ser) (zlen ser)).1.1, d1) ->
  dispatch (write_request token (zlen ser) offset fragment) d =
    (if decide (end_ < zlen ser \/ checksummed ser) then Ok Null
     else Err (StatusCode CTAP2_ERR_INTEGRITY_FAILURE), d1).
Proof.
  intros Ho He _ Ht. rewrite (dispatch_set_result _ _ _ _ _ _ _ Ht). f_equal.
  destruct (decide (end_ < zlen ser)) as [Hl|Hl].
  - rewrite !decide_True; [done|by left|]. left. rewrite zlen_take. lia.
  - rewrite take_ge by (unfold zlen in *; lia). apply decide_ext. split; (intros [?|?]; [lia|by right]).
Qed.

Lemma slice_take (ser : list Z) offset end_ :
  0 <= offset <= end_ -> end_ <= zlen ser ->
  take (Z.to_nat offset) ser ++ slice ser (Z.to_nat offset) (Z.to_nat end_) = take (Z.to_nat end_) ser /\
  zlen (slice ser (Z.to_nat offset) (Z.to_nat end_)) = end_ - offset.
Proof.
  intros Ho He. unfold slice. split.
  - rewrite take_take_drop. f_equal. lia.
  - rewrite zlen_take, zlen_drop. lia.
Qed.

(** One fragment, accepted by the key. *)
Lemma write_fragment_device ser offset end_ d :
  Bytes ser -> 17 <= zlen ser <= cap ->
  0 <= offset < end_ -> end_ - offset <= fragmax -> end_ <= zlen ser ->
  (offset <> 0 -> pending d = Some (take (Z.to_nat offset) ser, zlen ser)) ->
  let received := take (Z.to_nat end_) ser in
  exists d1, dispatch (write_request token (zlen ser) offset (slice ser (Z.to_nat offset) (Z.to_nat end_))) d =
      (if decide (end_ < zlen ser \/ checksummed ser) then Ok Null
       else Err (StatusCode CTAP2_ERR_INTEGRITY_FAILURE), d1) /\
    (stored d1, pending d1) =
      ((set_result (stored d) received (zlen ser)).1.2, (set_result (stored d) received (zlen ser)).2).
Proof.
  intros HB Hz Ho Hf He Hpend received.
  destruct (slice_take ser offset end_) as [Hcat Hlen]; [lia|done|].
  set (fragment := slice ser _ _) in *.
  assert (Bytes fragment) as HBf by (by apply Forall_take, Forall_drop).
  destruct (Z.eq_dec offset 0) as [->|Hne].
  - change (take (Z.to_nat 0) ser) with (@nil Z) in Hcat. simpl in Hcat.
    destruct (dev_set_first d fragment (zlen ser)) as (d1 & Ht & Hs); try done; try lia.
    exists d1. split; [|by rewrite Hs, Hcat]. eapply write_step; try done; try lia.
    simpl. by rewrite <- Hcat.
  - assert (zlen (take (Z.to_nat offset) ser) = offset) as Hzo by (rewrite zlen_take; lia).
    destruct (dev_set_next d fragment (zlen ser) (take (Z.to_nat offset) ser)) as (d1 & Ht & Hs);
      try done; try lia; [by apply Hpend|].
    rewrite Hzo in Ht. rewrite Hcat in Ht, Hs.
    exists d1. split; [|done]. eapply write_step; try done; try lia.
    by rewrite (proj2 (Z.eqb_neq offset 0)).
Qed.

Lemma write_loop_device fuel frag ser offset d :
  Bytes ser -> 17 <= zlen ser <= cap -> 1 <= frag <= fragmax -> 0 <= offset < zlen ser ->
  zlen ser - offset < Z.of_nat fuel ->
  (offset <> 0 -> pending d = Some (take (Z.to_nat offset) ser, zlen ser)) ->
  exists d', write_loop fuel frag token ser offset d =
      (if decide (checksummed ser) then Ok tt else Err (StatusCode CTAP2_ERR_INTEGRITY_FAILURE), d') /\
    stored d' = (if decide (checksummed ser) then ser else stored d).
Proof.
  intros HB Hz Hfrag. revert offset d. induction fuel as [|fuel IH]; intros offset d Ho Hfu Hpend; [lia|].
  cbn [write_loop]. rewrite (proj2 (Z.ltb_lt offset _)) by lia. cbn [negb].
  set (end_ := Z.min (offset + frag) (zlen ser)).
  destruct (write_fragment_device ser offset end_ d) as (d1 & Hd & Hs); try done; try (unfold end_; lia).
  destruct (decide (end_ < zlen ser)) as [Hl|Hl].
  - rewrite decide_True in Hd by tauto. rewrite (io_bind_Ok_eq _ _ _ _ _ Hd).
    unfold set_result in Hs. rewrite zlen_take in Hs. rewrite (proj2 (Z.ltb_lt _ _)) in Hs by lia.
    simpl in Hs. injection Hs as Hs1 Hp1.
    destruct (IH end_ d1) as (d' & Hw & Hs'); [unfold end_; lia|unfold end_; lia|done|].
    exists d'. split; [done|]. by rewrite Hs', Hs1.
  - assert (end_ = zlen ser) as Hend by lia. unfold set_result in Hs.
    rewrite take_ge in Hs by (unfold zlen in *; lia). rewrite Z.ltb_irrefl in Hs.
    destruct (decide (checksummed ser)) as [Hc|Hc].
    + rewrite decide_True in Hd by tauto. rewrite (io_bind_Ok_eq _ _ _ _ _ Hd).
      injection Hs as Hs1 _. exists d1. split; [|done]. rewrite Hend.
      destruct fuel; [done|]. cbn [write_loop]. by rewrite Z.ltb_irrefl.
    + rewrite decide_False in Hd by (intros [?|?]; [lia|done]). rewrite (io_bind_Err_eq _ _ _ _ _ Hd).
      injection Hs as Hs1 _. by exists d1.
Qed.

Lemma write_device info ser d :
  Bytes ser -> 17 <= zlen ser <= cap -> max_fragment_length info <= fragmax ->
  exists d', write info token ser d =
      (if decide (checksummed ser) then Ok tt else Err (StatusCode CTAP2_ERR_INTEGRITY_FAILURE), d') /\
    stored d' = (if decide (checksummed ser) then ser else stored d).
Proof.
  intros HB Hz Hf. pose proof (max_fragment_pos info). unfold write.
  apply write_loop_device; try done; try lia. unfold zlen. lia.
Qed.

Lemma checksum_of_array arr : check_array (arr ++ left16_sha256 arr) = Ok arr.
Proof. apply check_array_spec. split; [done|]. apply left16_out. Qed.

Lemma serialized_checksummed arr : checksummed (arr ++ left16_sha256 arr).
Proof. unfold checksummed. rewrite checksum_of_array. by eexists. Qed.
End device.

(** ** Arrays of bytes *)

Definition items_bytes (its : list Item) : Prop := Forall (fun i => Bytes (item_raw i)) its.

Lemma parse_bytes d a : Bytes d -> parse d = Ok a -> items_bytes (items a).
Proof.
  intros HB (raws & rest & Hs & ->)%parse_spec. apply split_array_spec in Hs as (h & x & -> & _ & HF).
  apply Forall_app in HB as [_ HB]. apply Forall_app in HB as [HB _]. unfold items_bytes. cbn [items].
  induction HF as [|r raws Hr _ IH]; [constructor|]. simpl in HB. apply Forall_app in HB as [H1 H2].
  constructor; [|by apply IH]. by rewrite (proj2 (classify_valid r Hr)).
Qed.

Lemma array_bytes_bytes a : items_bytes (items a) -> Bytes (array_bytes a).
Proof.
  intros HF. rewrite array_bytes_concat. apply Forall_app; split.
  - apply encode_header_Bytes; [unfold MT_ARRAY; lia|apply zlen_nonneg].
  - induction HF; simpl; [constructor|]. by apply Forall_app.
Qed.

Lemma array_bytes_pos a : 1 <= zlen (array_bytes a).
Proof.
  rewrite array_bytes_concat, zlen_app. pose proof (zlen_nonneg (concat (item_raw <$> items a))).
  unfold array_header, encode_header. repeat case_match; zlen; pose proof (zlen_nonneg (items a)); lia.
Qed.

Section plans.
Context {D : Type} `{BlobDevice D token fragmax cap stored pending} `{!BlobCryptoLaws}.

Lemma with_label_bytes a l n a' :
  items_bytes (items a) -> match l with Some l => label_wf l | None => True end -> Bytes n -> zlen n = 12 ->
  with_label a l n = Ok a' -> items_bytes (items a').
Proof.
  intros HF Hl Hn Hn12 (new & -> & Hnew)%with_label_spec. apply Forall_app; split.
  - cbn [items changed]. clear -HF. induction HF as [|i its Hi _ IH]; [constructor|]. simpl.
    destruct (negb _); [by constructor|done].
  - destruct l as [l|]; [|by subst]. destruct Hnew as (_ & e & He & ->).
    destruct (encode_entry_wf _ _ _ Hl Hn Hn12 He) as [Hw Ho]. constructor; [|constructor].
    simpl. rewrite Ho. apply (encode_Bytes (entry_map e)). by apply entry_map_wf.
Qed.

Lemma serialize_Ok a ser :
  serialize_with_checksum a = Ok ser -> trailing a <= 0 /\ ser = array_bytes a ++ left16_sha256 (array_bytes a).
Proof.
  unfold serialize_with_checksum. destruct (0 <? trailing a) eqn:Ht; [done|]. bools. by intros <-%Ok_inj.
Qed.

Lemma serialized_length arr : zlen (arr ++ left16_sha256 arr) = zlen arr + 16.
Proof. rewrite zlen_app, (proj2 (left16_out arr)). done. Qed.

Lemma serialized_bytes arr : Bytes arr -> Bytes (arr ++ left16_sha256 arr).
Proof. intros HB. apply Forall_app; split; [done|]. apply left16_out. Qed.

(** Writing an array and reading it again. *)
Lemma write_read_device info a d :
  array_valid a -> Bytes (array_bytes a) -> zlen (array_bytes a) + 16 <= cap -> cap <= READ_LIMIT ->
  max_fragment_length info <= fragmax ->
  let ser := array_bytes a ++ left16_sha256 (array_bytes a) in
  exists d1 d2, write info token ser d = (Ok tt, d1) /\ stored d1 = ser /\
    read info d1 = (Ok (mkArray (as_read <$> items a) (array_bytes a) 0), d2) /\ stored d2 = ser.
Proof.
  intros Hv HB Hcap Hlim Hf ser. pose proof (serialized_bytes _ HB) as HBs. pose proof (serialized_length (array_bytes a)) as Hl.
  fold ser in HBs, Hl. pose proof (array_bytes_pos a).
  destruct (write_device info ser d) as (d1 & Hw & Hs1); [done|lia|done|].
  rewrite decide_True in Hw by apply serialized_checksummed.
  rewrite decide_True in Hs1 by apply serialized_checksummed.
  destruct (read_device info d1) as (d2 & Hr & Hs2); rewrite ?Hs1; try done; [lia|].
  exists d1, d2. split_and!; try done; [|by rewrite Hs2].
  rewrite Hr, Hs1. unfold ser. rewrite checksum_of_array. simpl. by rewrite parse_array_bytes.
Qed.

Lemma read_stored info arr a d :
  stored d = arr ++ left16_sha256 arr -> Bytes arr -> zlen arr + 16 <= READ_LIMIT ->
  max_fragment_length info <= fragmax -> parse arr = Ok a ->
  exists d', read info d = (Ok a, d') /\ stored d' = stored d.
Proof.
  intros Hs HB Hz Hf Hp. destruct (read_device info d) as (d' & Hr & Hs'); rewrite ?Hs in *.
  - by apply serialized_bytes.
  - by rewrite serialized_length.
  - done.
  - exists d'. rewrite Hr, checksum_of_array. simpl. by rewrite Hp.
Qed.

Lemma plan_Ok current info l n plan :
  plan_label_change current info l n = Ok plan ->
  option_flag info (s2b "largeBlobs") = Some true /\ option_flag info (s2b "clientPin") = Some true /\
  with_label current l n = Ok (after plan) /\ serialize_with_checksum (after plan) = Ok (serialized plan) /\
  before_raw plan = raw_array current /\
  zlen (serialized plan) <= default SPEC_MIN_SERIALIZED_ARRAY (max_serialized_large_blob_array info).
Proof.
  unfold plan_label_change.
  destruct (bool_decide_reflect (option_flag info (s2b "largeBlobs") = Some true)) as [Hl|]; [|done].
  destruct (bool_decide_reflect (option_flag info (s2b "clientPin") = Some true)) as [Hp|]; [|done].
  cbn [negb]. intros Hplan. inv_bind Hplan. inv_bind Hplan.
  destruct (max_bytes _ <? _) eqn:Hm; [done|]. apply Ok_inj in Hplan as <-. bools. cbn [after serialized before_raw].
  destruct (serialize_with_checksum a) eqn:Hs; [|done]. injection Hb0 as <-. split_and!; done.
Qed.
End plans.

(** * Properties *)

Section store_properties.
Context {D : Type} `{BlobDevice D token fragmax cap stored pending} `{!BlobCryptoLaws}.

(** Reading trusts nothing the key says. For any transport at all, the
    read loop ends (more fuel changes nothing); and when [read] returns an array,
    the bytes it was assembled from are its bytes followed by their own
    truncated SHA-256, no more than one fragment past the 64 KiB valve, and the
    array is what those bytes parse to. *)
Theorem blob_read_verified {T : Type} `{!CtapTransport T} (info : AuthenticatorInfo) (d d' : T)
    (a : LargeBlobArray) (fuel : nat) :
  (read_fuel <= fuel)%nat -> read info d = (Ok a, d') ->
  exists data, read_loop fuel (max_fragment_length info) 0 [] d = (Ok data, d') /\
    data = raw_array a ++ left16_sha256 (raw_array a) /\
    zlen data < READ_LIMIT + max_fragment_length info /\ parse (raw_array a) = Ok a.
Proof.
  intros Hfu (data & arr & Hr & Hc & Hp)%read_Ok_iff. exists data.
  pose proof (max_fragment_pos info).
  assert (raw_array a = arr) as -> by (by apply parse_spec in Hp as (raws & rest & _ & ->)).
  split_and!; [|by apply check_array_spec in Hc as [-> _]| |done].
  - rewrite <- Hr. apply read_loop_fuel; [done|done| |]; zlen; unfold read_fuel, READ_LIMIT in *; lia.
  - apply read_loop_bounded in Hr as (k & _ & Hb); [done|]. unfold READ_LIMIT. zlen. lia.
Qed.

(** C32: an array written is the array read. On every key that keeps the
    fragment protocol and has room, writing a sound array succeeds, whatever the
    fragment size; the key then stores exactly its bytes and checksum; and
    reading gives its elements back in order. Bytes without their checksum are
    refused by the key and leave what it stored. The key's room is at most the
    64 KiB the reader stops at. *)
Theorem blob_write_then_read (info : AuthenticatorInfo) (a : LargeBlobArray) (junk : list Z) (d : D) :
  array_valid a -> Bytes (array_bytes a) -> zlen (array_bytes a) + 16 <= cap -> cap <= READ_LIMIT ->
  max_fragment_length info <= fragmax ->
  Bytes junk -> 17 <= zlen junk <= cap -> ~ checksummed junk ->
  (let ser := array_bytes a ++ left16_sha256 (array_bytes a) in
   exists d1 d2, write info token ser d = (Ok tt, d1) /\ stored d1 = ser /\
     read info d1 = (Ok (mkArray (as_read <$> items a) (array_bytes a) 0), d2) /\ stored d2 = ser) /\
  (exists d1, write info token junk d = (Err (StatusCode CTAP2_ERR_INTEGRITY_FAILURE), d1) /\ stored d1 = stored d).
Proof.
  intros Hv HB Hcap Hlim Hf HBj Hj Hc. split; [by apply write_read_device|].
  destruct (write_device info junk d) as (d1 & Hw & Hs); try done. rewrite !decide_False in * by done. eauto.
Qed.

(** C33: a planned name change, applied. On a key that honours its advertised
    storage and stores the array the plan was made from, applying the plan
    succeeds. The key then says exactly the new name (or none, when it was
    cleared), and its array is what was asked for: every element that is not a
    name, as it was and in order, followed by one entry under the fresh nonce
    with the new name. No old name is left behind, however many there were.
    On a key whose array has changed since, applying refuses with Changed and
    the key's storage is untouched. The key holds arrays of at most 64 KiB, the
    length the reader stops at. *)
Theorem label_plan_applied (info : AuthenticatorInfo) (current now : LargeBlobArray) (arr arr' n : list Z)
    (l : option DeviceLabel) (plan : LabelPlan) (d : D) :
  default SPEC_MIN_SERIALIZED_ARRAY (max_serialized_large_blob_array info) <= cap -> cap <= READ_LIMIT ->
  max_fragment_length info <= fragmax ->
  Bytes arr' -> zlen arr' + 16 <= READ_LIMIT -> stored d = arr' ++ left16_sha256 arr' -> parse arr' = Ok now ->
  Bytes arr -> zlen arr + 16 <= READ_LIMIT -> parse arr = Ok current ->
  Bytes n -> zlen n = 12 -> match l with Some l => label_wf l | None => True end ->
  plan_label_change current info l n = Ok plan ->
  (arr' = arr -> exists d1 d2,
    apply_label_plan info token plan d = (Ok tt, d1) /\ stored d1 = serialized plan /\
    read_label info d1 = (Ok match l with Some l => Present l | None => Absent end, d2) /\
    exists a, fst (read info d1) = Ok a /\ names a = option_list l /\ renamed current l n a) /\
  (arr' <> arr -> exists d1,
    apply_label_plan info token plan d = (Err Changed, d1) /\ stored d1 = stored d).
Proof.
  intros Hcap Hlim Hf HB' Hz' Hs' Hp' HB Hz Hp Hn Hn12 Hl Hplan.
  destruct (plan_Ok _ _ _ _ _ Hplan) as (Hlb & _ & Hw & Hser & Hbefore & Hsize).
  destruct (read_stored info arr' now d Hs' HB' Hz' Hf Hp') as (dr & Hr & Hsr).
  assert (raw_array current = arr) as Hcur by (by apply parse_spec in Hp as (raws & rest & _ & ->)).
  assert (raw_array now = arr') as Hnow by (by apply parse_spec in Hp' as (raws & rest & _ & ->)).
  unfold apply_label_plan. rewrite Hbefore, Hcur.
  split; intros He.
  - rewrite He in Hp', Hnow. rewrite Hp in Hp'. injection Hp' as <-.
    destruct (parse_valid arr current) as [Hv _]; [unfold READ_LIMIT in *; lia|done|].
    assert (zlen (items current) < 2 ^ 63) as Hn63.
    { apply parse_spec in Hp as (raws & rest & Hsp & ->). apply split_array_spec in Hsp as (h & x & -> & _ & HF).
      cbn [items]. rewrite zlen_fmap. assert (zlen raws <= zlen (concat raws)).
      { apply zlen_concat_pieces. eapply list.Forall_impl; [exact HF|]. by intros ? [? _]. }
      pose proof (zlen_nonneg h). pose proof (zlen_nonneg rest). unfold READ_LIMIT in *. zlen. lia. }
    destruct (with_label_read_back current l n (after plan)) as (Hva & Hlab & _); try done.
    apply serialize_Ok in Hser as [_ Hser]. pose proof (serialized_length (array_bytes (after plan))) as Hsl.
    assert (Bytes (array_bytes (after plan))) as HBa.
    { apply array_bytes_bytes. apply (with_label_bytes current l n); [by apply (parse_bytes arr)|done|done|done|done]. }
    rewrite <- Hser in Hsl.
    destruct (write_read_device info (after plan) dr) as (d1 & d2 & Hwr & Hs1 & Hr1 & _); try done; [lia|].
    exists d1, d2. split_and!.
    + unfold io_map_err. unfold mbind, io_bind. rewrite Hr. cbn [map_err]. rewrite Hnow, bool_decide_true by done.
      cbn [negb]. by rewrite Hser, Hwr.
    + by rewrite Hs1, Hser.
    + unfold read_label. rewrite bool_decide_true by done. cbn [negb]. rewrite (io_bind_Ok_eq _ _ _ _ _ Hr1).
      rewrite Hlab. by destruct l.
    + eexists. rewrite Hr1. split; [done|].
      pose proof (with_label_renamed current l n (after plan) Hn Hn12 Hl Hw) as Hren.
      split; [by eapply renamed_names|done].
  - exists dr. unfold io_map_err, mbind, io_bind. rewrite Hr. cbn [map_err]. rewrite Hnow, bool_decide_false by done. done.
Qed.
End store_properties.

(** A reference key: the large-blob store of CTAP 2.1 section 6.10.2 as an executable transport.
    It satisfies BlobStore's [BlobDevice], so the theorems there apply to it, and runs are
    evaluated against it. *)

Record Key := mkKey { k_stored : list Z; k_pending : option (list Z * Z) }.

Section key.
Context `{BlobCrypto} (token : PinUvAuthToken) (fragmax cap : Z).

(** Any other request: CTAP1_ERR_INVALID_PARAMETER. *)
Definition refuse (k : Key) : result CtapError (list Z) * Key := (Ok [0x02], k).

Definition key_get (count offset : Z) (k : Key) : result CtapError (list Z) * Key :=
  if (offset <=? zlen (k_stored k)) && (count <=? fragmax) then
    (Ok (get_answer (take (Z.to_nat count) (drop (Z.to_nat offset) (k_stored k)))), k)
  else refuse k.

Definition key_receive (received : list Z) (total : Z) (k : Key) : result CtapError (list Z) * Key :=
  let '(answer, st, pend) := set_result (k_stored k) received total in (Ok answer, mkKey st pend).

Definition key_set (fragment : list Z) (offset : Z) (total : option Z) (k : Key) : result CtapError (list Z) * Key :=
  match total with
  | Some total =>
      if (offset =? 0) && (zlen fragment <=? total) && (17 <=? total) && (total <=? cap)
      then key_receive fragment total k else refuse k
  | None =>
      match k_pending k with
      | Some (received, total) =>
          if (offset =? zlen received) && (offset + zlen fragment <=? total)
          then key_receive (received ++ fragment) total k else refuse k
      | None => refuse k
      end
  end.

(** The proof the key expects over a fragment. *)
Definition proof_for (fragment : list Z) (offset : Z) : list Z :=
  authenticate token (replicate 32 0xff ++ [0x0C; 0x00] ++ to_le 4 offset ++ sha256 fragment).

Definition key_request (v : Value) (k : Key) : result CtapError (list Z) * Key :=
  match get_uint_key v 1, get_uint_key v 2, get_uint_key v 3 with
  | Some (UInt count), None, Some (UInt offset) => key_get count offset k
  | None, Some (VBytes fragment), Some (UInt offset) =>
      if bool_decide (get_uint_key v 5 ≫= as_bytes = Some (proof_for fragment offset)) &&
         bool_decide (get_uint_key v 6 ≫= as_uint = Some (tok_protocol token)) && (zlen fragment <=? fragmax)
      then match get_uint_key v 4 with
           | Some (UInt total) => key_set fragment offset (Some total) k
           | Some _ => refuse k
           | None => key_set fragment offset None k
           end
      else (Ok [0x33], k)
  | _, _, _ => refuse k
  end.

Definition key_transact (cmd : Z) (payload : list Z) (k : Key) : result CtapError (list Z) * Key :=
  match payload with
  | c :: body =>
      if c =? 0x0C then
        match decode body with
        | Ok (v, []) => key_request v k
        | _ => refuse k
        end
      else refuse k
  | [] => refuse k
  end.

Definition key_transport : CtapTransport Key := {|
  transact := key_transact;
  set_timeout _ k := k;
  read_timeout _ := DEFAULT_READ_TIMEOUT;
  set_cancel_flag k := k
|}.

Context `{!BlobCryptoLaws}.
Hypothesis Hfrag : fragmax < 2 ^ 32.
Hypothesis Hcap : cap < 2 ^ 32.
Hypothesis Hproto : is_word 64 (tok_protocol token).

Lemma decode_flat_map m :
  Forall (fun kv => wf kv.1 /\ wf kv.2 /\ depth kv.1 = 0%nat /\ depth kv.2 = 0%nat) m -> zlen m < 2 ^ 64 ->
  decode (encode (Map m)) = Ok (Map m, []).
Proof.
  intros HF Hz. apply decode_encoded.
  - constructor; [|done]. eapply list.Forall_impl; [exact HF|]. intros kv (? & ? & _); done.
  - destruct m as [|x m]; [simpl; lia|]. remember (x :: m) as l eqn:El.
    replace (depth (Map l)) with (S (fold_right (fun kv d => Nat.max (Nat.max (depth kv.1) (depth kv.2)) d) 0%nat l))
      by (by rewrite El).
    assert (fold_right (fun kv d => Nat.max (Nat.max (depth kv.1) (depth kv.2)) d) 0%nat l = 0%nat) as ->.
    { clear -HF. induction HF as [|kv l (_ & _ & Hk1 & Hk2) _ IH]; [done|]. simpl. by rewrite Hk1, Hk2, IH. }
    unfold DECODE_DEPTH_LIMIT. lia.
Qed.

Lemma key_field n v : 0 <= n < 2 ^ 64 -> wf v -> depth v = 0%nat ->
  wf (UInt n) /\ wf v /\ depth (UInt n) = 0%nat /\ depth v = 0%nat.
Proof. intros. split_and!; [by constructor|done|done|done]. Qed.

Lemma set_payload_request offset fragment total :
  Bytes fragment -> zlen fragment < 2 ^ 64 -> 0 <= offset < 2 ^ 64 ->
  match total with Some t => is_word 64 t | None => True end ->
  forall cmd k, zlen fragment <= fragmax ->
    key_transact cmd (set_payload token offset fragment total) k = key_set fragment offset total k.
Proof.
  intros HB Hz Ho Ht cmd k Hf. unfold key_transact, set_payload. change (CTAP2_LARGE_BLOBS =? 0x0C) with true. cbv iota.
  destruct (authenticate_out token (replicate 32 0xff ++ [0x0C; 0x00] ++ to_le 4 offset ++ sha256 fragment)) as [Ha1 Ha2].
  fold (proof_for fragment offset) in *.
  assert (wf (VBytes fragment)) by (by constructor). assert (wf (UInt offset)) by (by constructor).
  assert (wf (VBytes (proof_for fragment offset))) by (constructor; [done|lia]).
  assert (wf (UInt (tok_protocol token))) by (by constructor).
  rewrite decode_flat_map.
  - unfold key_request.
    set (v := Map _).
    replace (get_uint_key v 1) with (@None Value) by (by destruct total).
    replace (get_uint_key v 2) with (Some (VBytes fragment)) by (by destruct total).
    replace (get_uint_key v 3) with (Some (UInt offset)) by (by destruct total).
    replace (get_uint_key v 5) with (Some (VBytes (proof_for fragment offset))) by (by destruct total).
    replace (get_uint_key v 6) with (Some (UInt (tok_protocol token))) by (by destruct total).
    replace (get_uint_key v 4) with (UInt <$> total) by (by destruct total).
    rewrite !bool_decide_true by done. rewrite (proj2 (Z.leb_le _ _)) by done. by destruct total.
  - destruct total as [t|]; cbn [app];
      repeat (apply Forall_cons_2; [apply key_field; [lia|first [done|by constructor]|done]|]); constructor.
  - destruct total; zlen; lia.
Qed.

Lemma get_payload_request offset count cmd k :
  0 <= offset < 2 ^ 64 -> 0 <= count < 2 ^ 64 ->
  key_transact cmd (get_payload offset count) k = key_get count offset k.
Proof.
  intros Ho Hc. unfold key_transact, get_payload. change (CTAP2_LARGE_BLOBS =? 0x0C) with true. cbv iota.
  rewrite decode_flat_map; [done| |done].
  repeat apply Forall_cons_2; try (constructor; done); split_and!; try done; constructor; try done;
    unfold is_word, KEY_GET, KEY_OFFSET; lia.
Qed.

Lemma key_receive_spec received total k :
  exists d', key_receive received total k = (Ok (set_result (k_stored k) received total).1.1, d') /\
    (k_stored d', k_pending d') =
    ((set_result (k_stored k) received total).1.2, (set_result (k_stored k) received total).2).
Proof. unfold key_receive. destruct (set_result _ _ _) as [[a s] p]. by eexists. Qed.

Lemma key_device : @BlobDevice Key key_transport _ token fragmax cap k_stored k_pending.
Proof.
  split; cbn [transact key_transport].
  - intros k offset count Hs Ho Hc. exists k. split; [|done]. rewrite get_payload_request by lia.
    unfold key_get. by rewrite !(proj2 (Z.leb_le _ _)) by lia.
  - intros k fragment total HB Hf Hft Ht. rewrite set_payload_request; [|done|lia|done|unfold is_word; lia|lia].
    unfold key_set. rewrite !(proj2 (Z.leb_le _ _)) by lia. apply key_receive_spec.
  - intros k fragment total received Hp Hr HB Hf Ht.
    rewrite set_payload_request; [|done|lia|lia|done|lia].
    unfold key_set. rewrite Hp, Z.eqb_refl, (proj2 (Z.leb_le _ _)) by lia. apply key_receive_spec.
Qed.
End key.

(** * Runs on the reference key *)

Definition run_token : PinUvAuthToken := mkToken 2 (replicate 32 5).
Definition run_info : AuthenticatorInfo :=
  mkInfo [] [] [] [(s2b "largeBlobs", true); (s2b "clientPin", true)] (Some 80) [] None None [] None None None (Some 1024).
#[local] Existing Instance model_crypto.
#[local] Existing Instance model_crypto_laws.
#[local] Instance run_key : CtapTransport Key := key_transport run_token 960 1024.
Lemma run_device : BlobDevice run_token 960 1024 k_stored k_pending.
Proof. exact (key_device run_token 960 1024 eq_refl eq_refl (conj (Z.le_0_2) eq_refl)). Defined.
#[local] Existing Instance run_device.

Definition run_start : Key := mkKey empty_array_serialized None.
Definition run_array : LargeBlobArray := mkArray [] [0x80] 0.
Definition run_name : DeviceLabel := mkLabel (s2b "Work") (Some WRITER_KEYROOST).
Definition run_plan : LabelPlan :=
  match plan_label_change run_array run_info (Some run_name) (replicate 12 7) with
  | Ok p => p
  | Err _ => mkPlan [] [] None run_array
  end.

(** Five 16-byte fragments of a named array, and back. *)
Example run_set_name :
  let '(r, k) := apply_label_plan run_info run_token run_plan run_start in
  r = Ok tt /\ zlen (k_stored k) = 77 /\ fst (read_label run_info k) = Ok (Present run_name).
Proof. vm_compute. auto. Qed.

Lemma blob_read_verified_witness :
  exists data, read_loop read_fuel (max_fragment_length run_info) 0 [] run_start = (Ok data, run_start) /\
    data = raw_array run_array ++ left16_sha256 (raw_array run_array) /\
    zlen data < READ_LIMIT + max_fragment_length run_info /\ parse (raw_array run_array) = Ok run_array.
Proof.
  assert (read run_info run_start = (Ok run_array, run_start)) as Hr by (vm_compute; reflexivity).
  exact (blob_read_verified run_info run_start run_start run_array read_fuel (le_n _) Hr).
Defined.

Lemma blob_write_then_read_witness :
  (let ser := array_bytes run_array ++ left16_sha256 (array_bytes run_array) in
   exists d1 d2, write run_info run_token ser run_start = (Ok tt, d1) /\ k_stored d1 = ser /\
     read run_info d1 = (Ok (mkArray (as_read <$> items run_array) (array_bytes run_array) 0), d2) /\ k_stored d2 = ser) /\
  (exists d1, write run_info run_token (replicate 17 0) run_start = (Err (StatusCode CTAP2_ERR_INTEGRITY_FAILURE), d1) /\
     k_stored d1 = k_stored run_start).
Proof.
  apply (blob_write_then_read run_info run_array (replicate 17 0) run_start).
  - split; [constructor|done].
  - by repeat constructor.
  - done.
  - done.
  - done.
  - by repeat constructor.
  - done.
  - apply (bool_decide_eq_true_1 _). vm_compute. reflexivity.
Defined.

(** A key another tool named twice, around an element that is not an entry. *)
Definition old_name (text : list Z) (n : Z) : list Z :=
  match DeviceLabel.encode_entry (mkLabel text None) (replicate 12 n) with
  | Ok e => item_raw (Entry e)
  | Err _ => []
  end.
Definition twice_named : list Z :=
  Eval vm_compute in [0x83] ++ old_name (s2b "Old") 1 ++ [0x18; 0x2A] ++ old_name (s2b "Older") 2.
Definition twice_array : LargeBlobArray :=
  Eval vm_compute in match parse twice_named with Ok a => a | Err _ => run_array end.
Definition twice_start : Key := mkKey (twice_named ++ left16_sha256 twice_named) None.
Definition twice_plan : LabelPlan :=
  Eval vm_compute in match plan_label_change twice_array run_info (Some run_name) (replicate 12 7) with
  | Ok p => p
  | Err _ => run_plan
  end.

(** The plan leaves one name, and is refused on a key that was rewritten meanwhile. *)
Lemma label_plan_applied_witness :
  names twice_array = [mkLabel (s2b "Old") None; mkLabel (s2b "Older") None] /\
  (exists d1 d2,
    apply_label_plan run_info run_token twice_plan twice_start = (Ok tt, d1) /\ k_stored d1 = serialized twice_plan /\
    read_label run_info d1 = (Ok (Present run_name), d2) /\
    exists a, fst (read run_info d1) = Ok a /\ names a = [run_name] /\
      renamed twice_array (Some run_name) (replicate 12 7) a) /\
  (exists d1, apply_label_plan run_info run_token twice_plan run_start = (Err Changed, d1) /\
    k_stored d1 = k_stored run_start).
Proof.
  assert (plan_label_change twice_array run_info (Some run_name) (replicate 12 7) = Ok twice_plan) as Hp
    by (vm_compute; reflexivity).
  assert (parse twice_named = Ok twice_array) as Ht by (vm_compute; reflexivity).
  assert (label_wf run_name) as Hl by (split_and!; [by repeat constructor|by eexists|split; [by repeat constructor|by eexists]]).
  assert (Bytes twice_named) as HB by (unfold twice_named; by repeat constructor).
  assert (Bytes [0x80]) as HB0 by (by repeat constructor). assert (Bytes (replicate 12 7)) as Hn by (by repeat constructor).
  split; [vm_compute; reflexivity|]. split.
  - refine (proj1 (label_plan_applied run_info twice_array twice_array twice_named twice_named (replicate 12 7)
      (Some run_name) twice_plan twice_start _ _ _ HB _ _ Ht HB _ Ht Hn _ Hl Hp) eq_refl); done.
  - refine (proj2 (label_plan_applied run_info twice_array run_array twice_named [0x80] (replicate 12 7)
      (Some run_name) twice_plan run_start _ _ _ HB0 _ _ _ HB _ Ht Hn _ Hl Hp) _); done.
Defined.
