(* ===== verification/Trace.v ===== *)
(** keyroost-proto/src/trace.rs: the trace line format and the per-thread
    capture, as operations on the capture's state. *)
From S2P Require Export Text.

(** ** The capture *)

(** [CAPTURE]: the lines of the open capture, if one is open. *)
Definition Capture : Type := option (list (list Z)).

Definition begin (_ : Capture) : Capture := Some [].
Definition take_capture (c : Capture) : option (list (list Z)) * Capture := (c, None).
Definition capturing (c : Capture) : bool := bool_decide (is_Some c).

(** [emit(print, line)]: the lines printed to stderr and the capture after. *)
Definition emit (print : bool) (line : list Z) (c : Capture) : list (list Z) * Capture :=
  if negb print && negb (capturing c) then ([], c)
  else (if print then [line] else [],
        match c with Some buf => Some (buf ++ [line]) | None => None end).

(** ** Lines *)

Definition LABEL_WIDTH : Z := 20.

Inductive Dir := Sent | Received | Note.
Definition symbol (d : Dir) : Z := match d with Sent => 62 | Received => 60 | Note => 33 end.

(** U+2026. *)
Definition ELLIPSIS : list Z := [0xE2; 0x80; 0xA6].

Definition abbreviate (value : list Z) : list Z :=
  let cs := chars value in
  if zlen cs <=? 4 then value
  else
    let head := utf8_encode (take 2 cs) in
    let tail := utf8_encode (drop (length cs - 2) cs) in
    head ++ ELLIPSIS ++ tail ++ s2b " (len " ++ dec (zlen cs) ++ s2b ")".

Definition reader_name (name : list Z) : list Z :=
  match find_byte 40 name, rfind_byte 41 name with
  | Some open, Some close =>
      match get_range name (Z.of_nat open + 1) (Z.of_nat close) with
      | None => name
      | Some inner =>
          if (zlen inner <=? 4) || negb (forallb is_ascii_alphanumeric (chars inner)) then name
          else take open name ++ s2b "(" ++ abbreviate inner ++ s2b ")" ++ drop (close + 1) name
      end
  | _, _ => name
  end.

(** ["{:<20}"]: padded with spaces to 20 characters. *)
Definition pad_label (label : list Z) : list Z :=
  label ++ replicate (Z.to_nat (LABEL_WIDTH - zlen (chars label))) 32.

Definition format_line (dir : Dir) (label body : list Z) : list Z :=
  trim_end ([symbol dir; 32] ++ pad_label label ++ [32; 32] ++ body).

Example abbreviate_ex : abbreviate (s2b "12345678") = s2b "12" ++ ELLIPSIS ++ s2b "78 (len 8)".
Proof. reflexivity. Qed.
Example reader_name_ex :
  reader_name (s2b "Solo 2 [CCID/ICCD Interface] (07A95C31) 01 00") =
  s2b "Solo 2 [CCID/ICCD Interface] (07" ++ ELLIPSIS ++ s2b "31 (len 8)) 01 00".
Proof. reflexivity. Qed.
Example format_line_ex : format_line Sent (s2b "select") (s2b "00A4") = s2b "> select                00A4".
Proof. reflexivity. Qed.

(** * Lemmas *)

(** The lines of a run of [emit]s, whatever their print flags. *)
Lemma emit_captured (ls : list (bool * list Z)) (c : Capture) (buf : list (list Z)) :
  c = Some buf ->
  fold_left (fun c pl => (emit pl.1 pl.2 c).2) ls c = Some (buf ++ ls.*2).
Proof.
  revert c buf. induction ls as [|[p l] ls IH]; intros c buf ->; simpl; [by rewrite app_nil_r|].
  rewrite (IH _ (buf ++ [l])).
  - by rewrite <- (assoc_L (++)).
  - unfold emit, capturing. rewrite bool_decide_eq_true_2 by eauto. by rewrite andb_false_r.
Qed.

(** * Properties *)

(** A capture collects exactly the lines emitted on its thread between
    [begin] and [take], in order and whatever each call's print flag, a later
    [begin] discarding what an abandoned capture held; after [take] no capture
    is open, and with none open nothing is kept and only printing calls print. *)
Theorem capture_collects (c : Capture) (ls : list (bool * list Z)) :
  take_capture (fold_left (fun c pl => (emit pl.1 pl.2 c).2) ls (begin c)) = (Some ls.*2, None) /\
  fold_left (fun c pl => (emit pl.1 pl.2 c).2) ls None = None /\
  (forall p l, (emit p l None).1 = if p then [l] else []).
Proof.
  split_and!.
  - unfold begin, take_capture. by rewrite (emit_captured ls _ []).
  - induction ls as [|[p l] ls IH]; [done|]. simpl. unfold emit at 2. by destruct p.
  - by intros [].
Qed.
