(* ===== verification/ClientPin.v ===== *)
(** keyroost-ctap/src/pin.rs: the two PIN/UV auth protocols; then the clientPin
    commands of client_pin.rs. The curve and
    AES-256-CBC are those of the p256, aes and cbc crates, a class with their
    documented behaviour; hashing is BlobCrypto's. Random values are arguments
    and a failed assertion is [None]. *)
From S2P Require Export BlobCrypto Ctap.

Class PinCipher := {
  (** Private keys, their public point, and the X coordinate of the shared
      point if the other side's coordinates are on the curve. *)
  EphemeralSecret : Type;
  eph_x : EphemeralSecret -> list Z;
  eph_y : EphemeralSecret -> list Z;
  eph_ecdh : EphemeralSecret -> list Z -> list Z -> option (list Z);
  (** Key, IV, whole blocks. *)
  aes_cbc_enc : list Z -> list Z -> list Z -> list Z;
  aes_cbc_dec : list Z -> list Z -> list Z -> list Z
}.

Class PinCipherLaws `{PinCipher} := {
  eph_x_out : forall s, Bytes (eph_x s) /\ length (eph_x s) = 32%nat;
  eph_y_out : forall s, Bytes (eph_y s) /\ length (eph_y s) = 32%nat;
  eph_agree : forall a b, eph_ecdh a (eph_x b) (eph_y b) = eph_ecdh b (eph_x a) (eph_y a);
  eph_point : forall a b, is_Some (eph_ecdh a (eph_x b) (eph_y b));
  cbc_out : forall k iv d, Bytes d -> zlen d mod 16 = 0 -> Bytes (aes_cbc_enc k iv d) /\ zlen (aes_cbc_enc k iv d) = zlen d;
  cbc_back : forall k iv d, Bytes d -> zlen d mod 16 = 0 -> aes_cbc_dec k iv (aes_cbc_enc k iv d) = d
}.

Definition PIN_PROTOCOL_V2 : Z := 2.

Inductive PinError := InvalidPublicKey | InvalidCiphertextLength | AesError.
Definition pin_error_text (e : PinError) : list Z :=
  match e with
  | InvalidPublicKey => s2b "authenticator returned an invalid P-256 point"
  | InvalidCiphertextLength => s2b "PIN protocol ciphertext was not block-aligned"
  | AesError => s2b "AES-CBC operation failed"
  end.

Section pin.
Context `{BlobCrypto} `{PinCipher}.

(** The shared secret of one session. *)
Inductive PinProtocol := ProtocolV1 (secret : list Z) | ProtocolV2 (hmac_key aes_key : list Z).

Definition aes256_cbc_encrypt (key iv plaintext : list Z) : option (list Z) :=
  if zlen plaintext mod 16 =? 0 then Some (aes_cbc_enc key iv plaintext) else None.
Definition aes256_cbc_decrypt (key iv ciphertext : list Z) : result PinError (list Z) :=
  if bool_decide (ciphertext = []) || negb (zlen ciphertext mod 16 =? 0) then Err InvalidCiphertextLength
  else Ok (aes_cbc_dec key iv ciphertext).

Definition hkdf_sha256_l32 (salt ikm info : list Z) : list Z :=
  let prk := hmac_sha256 salt ikm in hmac_sha256 prk (info ++ [0x01]).

Definition raw_ecdh (our : EphemeralSecret) (peer_x peer_y : list Z) : result PinError (list Z) :=
  ok_or InvalidPublicKey (eph_ecdh our peer_x peer_y).
Definition shared_secret_v1 (our : EphemeralSecret) (peer_x peer_y : list Z) : result PinError PinProtocol :=
  z ← raw_ecdh our peer_x peer_y;
  Ok (ProtocolV1 (sha256 z)).
Definition shared_secret_v2 (our : EphemeralSecret) (peer_x peer_y : list Z) : result PinError PinProtocol :=
  z ← raw_ecdh our peer_x peer_y;
  Ok (ProtocolV2 (hkdf_sha256_l32 (replicate 32 0) z (s2b "CTAP2 HMAC key")) (hkdf_sha256_l32 (replicate 32 0) z (s2b "CTAP2 AES key"))).

Definition proto_version (p : PinProtocol) : Z :=
  match p with ProtocolV1 _ => PIN_PROTOCOL_V1 | ProtocolV2 _ _ => PIN_PROTOCOL_V2 end.
(** [iv]: what the system's generator gives for this message, under v2. *)
Definition proto_encrypt (p : PinProtocol) (iv plaintext : list Z) : option (list Z) :=
  match p with
  | ProtocolV1 k => aes256_cbc_encrypt k (replicate 16 0) plaintext
  | ProtocolV2 _ k => body ← aes256_cbc_encrypt k iv plaintext; Some (iv ++ body)
  end.
Definition proto_decrypt (p : PinProtocol) (ciphertext : list Z) : result PinError (list Z) :=
  match p with
  | ProtocolV1 k => aes256_cbc_decrypt k (replicate 16 0) ciphertext
  | ProtocolV2 _ k =>
      if zlen ciphertext <? 16 then Err InvalidCiphertextLength
      else let '(iv, body) := split_at 16 ciphertext in aes256_cbc_decrypt k iv body
  end.
Definition proto_authenticate (p : PinProtocol) (data : list Z) : list Z :=
  match p with
  | ProtocolV1 k => take 16 (hmac_sha256 k data)
  | ProtocolV2 k _ => hmac_sha256 k data
  end.

Definition pad_pin_to_64 (pin : list Z) : option (list Z) :=
  if zlen pin <? 64 then Some (pin ++ replicate (64 - length pin) 0) else None.

(** * Lemmas *)

Context `{!BlobCryptoLaws} `{!PinCipherLaws}.

(** Both sides of an exchange hold the same secret. *)
Definition agreed_on (v2 : bool) (a b : EphemeralSecret) : result PinError PinProtocol :=
  (if v2 then shared_secret_v2 else shared_secret_v1) a (eph_x b) (eph_y b).
Lemma agreed_both v2 a b : exists p, agreed_on v2 a b = Ok p /\ agreed_on v2 b a = Ok p /\
  proto_version p = (if v2 then PIN_PROTOCOL_V2 else PIN_PROTOCOL_V1).
Proof.
  unfold agreed_on. destruct v2; unfold shared_secret_v1, shared_secret_v2, raw_ecdh; rewrite (eph_agree a b);
    destruct (eph_point b a) as [z ->]; cbn [ok_or mbind result_bind]; eauto.
Qed.

Definition iv_ok (iv : list Z) : Prop := Bytes iv /\ zlen iv = 16.

Lemma encrypt_back p iv d : iv_ok iv -> Bytes d -> zlen d mod 16 = 0 -> d <> [] ->
  exists c, proto_encrypt p iv d = Some c /\ proto_decrypt p c = Ok d /\ Bytes c /\ zlen c <= zlen d + 16.
Proof.
  intros [Hb Hz] Hd Ha Hne. unfold proto_encrypt, proto_decrypt, aes256_cbc_encrypt, aes256_cbc_decrypt. rewrite Ha. cbn [Z.eqb].
  assert (forall k iv', bool_decide (aes_cbc_enc k iv' d = []) || negb (zlen (aes_cbc_enc k iv' d) mod 16 =? 0) = false) as Hok.
  { intros k iv'. destruct (cbc_out k iv' d Hd Ha) as [_ Hl]. rewrite Hl, Ha, bool_decide_eq_false_2; [done|]. intros E.
    rewrite E in Hl. destruct d; [done|]. unfold zlen in Hl. cbn in Hl. lia. }
  destruct p as [k|h k].
  - destruct (cbc_out k (replicate 16 0) d Hd Ha) as [Hcb Hcl]. eexists. split; [done|]. rewrite Hok. split; [by rewrite cbc_back|]. split; [done|lia].
  - destruct (cbc_out k iv d Hd Ha) as [Hcb Hcl]. cbn [mbind option_bind]. eexists. split; [done|]. pose proof (zlen_nonneg (aes_cbc_enc k iv d)).
    rewrite (proj2 (Z.ltb_ge _ _)) by (zlen; lia).
    unfold split_at. change (Z.to_nat 16) with 16%nat. assert (length iv = 16%nat) as Hl by (unfold zlen in Hz; lia).
    rewrite take_app_length', drop_app_length', Hok, cbc_back by done. split; [done|]. split; [by apply Forall_app|zlen; lia].
Qed.

Lemma authenticate_len p d : Bytes (proto_authenticate p d) /\ zlen (proto_authenticate p d) <= 32.
Proof.
  destruct p as [k|k ?]; cbn; destruct (hmac_out k d) as [Hb Hl]; (split; [|try rewrite zlen_take; unfold zlen; lia]); [by apply Forall_take|done].
Qed.
End pin.

(** Keyroost-ctap/src/client_pin.rs: the clientPin commands over any CTAP transport. What a call
    draws from the system's generator is an argument; a failed assertion is the error [None]. *)

Definition CTAP2_CLIENT_PIN : Z := 0x06.
Definition KEY_PIN_PROTOCOL : Z := 0x01.
Definition KEY_SUB_COMMAND : Z := 0x02.
Definition KEY_KEY_AGREEMENT : Z := 0x03.
Definition KEY_PIN_UV_AUTH_PARAM : Z := 0x04.
Definition KEY_NEW_PIN_ENC : Z := 0x05.
Definition KEY_PIN_HASH_ENC : Z := 0x06.
Definition KEY_PERMISSIONS : Z := 0x09.
Definition KEY_RP_ID : Z := 0x0A.
Definition SUB_GET_PIN_RETRIES : Z := 0x01.
Definition SUB_GET_KEY_AGREEMENT : Z := 0x02.
Definition SUB_SET_PIN : Z := 0x03.
Definition SUB_CHANGE_PIN : Z := 0x04.
Definition SUB_GET_PIN_TOKEN : Z := 0x05.
Definition SUB_GET_PIN_UV_AUTH_TOKEN_USING_PIN : Z := 0x09.
Definition COSE_KTY : Z := 1.
Definition COSE_ALG : Z := 3.
Definition COSE_CRV : Z := -1.
Definition COSE_X : Z := -2.
Definition COSE_Y : Z := -3.
Definition COSE_KTY_EC2 : Z := 2.
Definition COSE_ALG_ECDH_ES_HKDF_256 : Z := -25.
Definition COSE_CRV_P256 : Z := 1.

(** The permission bits of a token. *)
Definition MAKE_CREDENTIAL : Z := 0x01.
Definition GET_ASSERTION : Z := 0x02.
Definition CREDENTIAL_MANAGEMENT : Z := 0x04.
Definition BIO_ENROLLMENT : Z := 0x08.
Definition LARGE_BLOB_WRITE : Z := 0x10.
Definition AUTHENTICATOR_CONFIGURATION : Z := 0x20.

Inductive SelectedPinProtocol := V1 | V2.
#[export] Instance SelectedPinProtocol_eq_dec : EqDecision SelectedPinProtocol.
Proof. solve_decision. Defined.
Definition version (p : SelectedPinProtocol) : Z := match p with V1 => PIN_PROTOCOL_V1 | V2 => PIN_PROTOCOL_V2 end.

Fixpoint select_pin_protocol (supported : list Z) : SelectedPinProtocol :=
  match supported with
  | [] => V1
  | p :: supported =>
      if p =? PIN_PROTOCOL_V2 then V2 else if p =? PIN_PROTOCOL_V1 then V1 else select_pin_protocol supported
  end.

(** * Answers *)

Record PinResponse := mkPinResponse {
  pr_retries : option Z; pr_key_agreement : option (list Z * list Z); pr_pin_token_enc : option (list Z)
}.

(** A COSE map key as the signed number it stands for. *)
Definition cose_label (k : Value) : option Z :=
  match k with UInt u => Some (as_i64 u) | NInt u => Some (-1 - as_i64 u) | _ => None end.
Definition coordinate (v : Value) : option (list Z) :=
  b ← as_bytes v; if zlen b =? 32 then Some b else None.
Definition cose_entry (xy : option (list Z) * option (list Z)) (kv : Value * Value) : option (list Z) * option (list Z) :=
  match cose_label kv.1, coordinate kv.2 with
  | Some l, Some b => if l =? COSE_X then (Some b, xy.2) else if l =? COSE_Y then (xy.1, Some b) else xy
  | _, _ => xy
  end.

Definition pin_response_entry (out : PinResponse) (kv : Value * Value) : PinResponse :=
  let '(mkPinResponse r ka tok) := out in
  match as_uint kv.1 with
  | None => out
  | Some key =>
      if key =? 0x01 then
        match as_map kv.2 with
        | Some m => match fold_left cose_entry m (None, None) with
                    | (Some x, Some y) => mkPinResponse r (Some (x, y)) tok
                    | _ => out
                    end
        | None => out
        end
      else if key =? 0x02 then match as_bytes kv.2 with Some b => mkPinResponse r ka (Some b) | None => out end
      else if key =? 0x03 then mkPinResponse (cast 32 <$> as_uint kv.2) ka tok
      else out
  end.
Definition default_response : PinResponse := mkPinResponse None None None.
Definition parse_pin_response (v : Value) : result CtapError PinResponse :=
  map ← ok_or (InvalidResponseShape (s2b "expected map")) (as_map v);
  Ok (fold_left pin_response_entry map default_response).

(** * Requests *)

(** [n(v)]: a signed number. *)
Definition cbor_int (v : Z) : Value := if 0 <=? v then UInt v else NInt (-1 - v).
Definition cose_p256_public (x y : list Z) : Value :=
  Map [(cbor_int COSE_KTY, UInt COSE_KTY_EC2); (cbor_int COSE_ALG, cbor_int COSE_ALG_ECDH_ES_HKDF_256);
       (cbor_int COSE_CRV, UInt COSE_CRV_P256); (cbor_int COSE_X, VBytes x); (cbor_int COSE_Y, VBytes y)].
Definition build_request_extra (protocol sub : Z) (extra : list (Value * Value)) : list Z :=
  encode (Map ([(UInt KEY_PIN_PROTOCOL, UInt protocol); (UInt KEY_SUB_COMMAND, UInt sub)] ++ extra)).
Definition pin_uv_auth_token_extra (our_pub : Value) (pin_hash_enc : list Z) (permissions : Z) (rp_id : option (list Z)) :
    list (Value * Value) :=
  [(UInt KEY_KEY_AGREEMENT, our_pub); (UInt KEY_PIN_HASH_ENC, VBytes pin_hash_enc); (UInt KEY_PERMISSIONS, UInt permissions)] ++
  match rp_id with Some rp => [(UInt KEY_RP_ID, Text rp)] | None => [] end.

Definition validate_pin (pin : list Z) : result CtapError unit :=
  if negb (between 4 63 (zlen pin)) then Err (InvalidArgument (s2b "PIN must be 4..=63 UTF-8 bytes")) else Ok tt.
Definition check_token_len (token : list Z) : result CtapError (list Z) :=
  if (zlen token =? 16) || (zlen token =? 32) then Ok token
  else Err (InvalidResponseShape (s2b "pinUvAuthToken is not 16 or 32 bytes")).

(** * Commands *)

(** What one call draws: a key pair, and an IV for each message it encrypts. *)
Record PinRandom `{PinCipher} := mkPinRandom { pr_secret : EphemeralSecret; pr_iv : nat -> list Z }.

Section commands.
Context {D : Type} `{CtapTransport D} `{BlobCrypto} `{PinCipher}.
Local Notation pin_io := (io D (option CtapError)).

(** A call that returns its own errors, and a step that panics on [None]. *)
Definition calls {A} (m : io D CtapError A) : pin_io A := io_map_err Some m.
Definition fallible {A} (r : result CtapError A) : pin_io A := calls (lift r).
Definition asserted {A} (o : option A) : pin_io A := lift (ok_or None o).

(** The name in the source is [dispatch]. *)
Definition pin_dispatch (req : list Z) : io D CtapError PinResponse :=
  resp ← transact CTAPHID_CBOR (CTAP2_CLIENT_PIN :: req);
  '(status, body) ← lift (split_status resp);
  if negb (status =? 0) then lift (Err (StatusCode status)) else
  if bool_decide (body = []) then mret default_response else
  '(value, _) ← lift (map_err ECbor (decode body));
  lift (parse_pin_response value).
Definition dispatch_token_request (req : list Z) : io D CtapError PinResponse :=
  io_map_err (fun e => match e with StatusCode c => if c =? 0x37 then PinChangeRequired else e | _ => e end) (pin_dispatch req).

Definition get_pin_retries : io D CtapError Z :=
  resp ← pin_dispatch (build_request_extra PIN_PROTOCOL_V1 SUB_GET_PIN_RETRIES []);
  lift (ok_or (InvalidResponseShape (s2b "missing retries")) (pr_retries resp)).
Definition get_key_agreement (protocol : Z) : io D CtapError (list Z * list Z) :=
  resp ← pin_dispatch (build_request_extra protocol SUB_GET_KEY_AGREEMENT []);
  lift (ok_or (InvalidResponseShape (s2b "missing keyAgreement")) (pr_key_agreement resp)).

Definition negotiate_protocol : io D CtapError SelectedPinProtocol :=
  info ← get_info;
  mret (select_pin_protocol (pin_uv_auth_protocols info)).

(** The protocol and our public key, as sent. *)
Definition key_agreement (chosen : SelectedPinProtocol) (our : EphemeralSecret) : io D CtapError (PinProtocol * Value) :=
  '(peer_x, peer_y) ← get_key_agreement (version chosen);
  proto ← lift (map_err (fun _ => InvalidResponseShape (s2b "invalid peer keyAgreement point"))
    (match chosen with V1 => shared_secret_v1 | V2 => shared_secret_v2 end our peer_x peer_y));
  mret (proto, cose_p256_public (eph_x our) (eph_y our)).

Definition set_pin (r : PinRandom) (new_pin : list Z) : pin_io unit :=
  _ ← fallible (validate_pin new_pin);
  chosen ← calls negotiate_protocol;
  '(proto, our_pub) ← calls (key_agreement chosen (pr_secret r));
  padded ← asserted (pad_pin_to_64 new_pin);
  new_pin_enc ← asserted (proto_encrypt proto (pr_iv r 0) padded);
  let pin_auth := proto_authenticate proto new_pin_enc in
  let extra := [(UInt KEY_KEY_AGREEMENT, our_pub); (UInt KEY_PIN_UV_AUTH_PARAM, VBytes pin_auth); (UInt KEY_NEW_PIN_ENC, VBytes new_pin_enc)] in
  _ ← calls (pin_dispatch (build_request_extra (version chosen) SUB_SET_PIN extra));
  mret tt.

Definition change_pin (r : PinRandom) (old_pin new_pin : list Z) : pin_io unit :=
  _ ← fallible (validate_pin new_pin);
  chosen ← calls negotiate_protocol;
  '(proto, our_pub) ← calls (key_agreement chosen (pr_secret r));
  padded ← asserted (pad_pin_to_64 new_pin);
  new_pin_enc ← asserted (proto_encrypt proto (pr_iv r 0) padded);
  pin_hash_enc ← asserted (proto_encrypt proto (pr_iv r 1) (left16_sha256 old_pin));
  let pin_auth := proto_authenticate proto (new_pin_enc ++ pin_hash_enc) in
  let extra := [(UInt KEY_KEY_AGREEMENT, our_pub); (UInt KEY_PIN_UV_AUTH_PARAM, VBytes pin_auth);
                (UInt KEY_NEW_PIN_ENC, VBytes new_pin_enc); (UInt KEY_PIN_HASH_ENC, VBytes pin_hash_enc)] in
  _ ← calls (pin_dispatch (build_request_extra (version chosen) SUB_CHANGE_PIN extra));
  mret tt.

(** The token of an answer, named [what] in the errors. *)
Definition received_token (what : list Z) (proto : PinProtocol) (chosen : SelectedPinProtocol) (resp : PinResponse) : result CtapError PinUvAuthToken :=
  enc_token ← ok_or (InvalidResponseShape (s2b "missing " ++ what)) (pr_pin_token_enc resp);
  token ← map_err (fun _ => InvalidResponseShape (what ++ s2b " decrypt failed")) (proto_decrypt proto enc_token);
  token ← check_token_len token;
  Ok (mkToken (version chosen) token).

Definition token_legacy (r : PinRandom) (pin : list Z) (chosen : SelectedPinProtocol) : pin_io PinUvAuthToken :=
  '(proto, our_pub) ← calls (key_agreement chosen (pr_secret r));
  pin_hash_enc ← asserted (proto_encrypt proto (pr_iv r 0) (left16_sha256 pin));
  let extra := [(UInt KEY_KEY_AGREEMENT, our_pub); (UInt KEY_PIN_HASH_ENC, VBytes pin_hash_enc)] in
  resp ← calls (dispatch_token_request (build_request_extra (version chosen) SUB_GET_PIN_TOKEN extra));
  fallible (received_token (s2b "pinToken") proto chosen resp).

Definition token_with_permissions (r : PinRandom) (pin : list Z) (permissions : Z) (rp_id : option (list Z)) (chosen : SelectedPinProtocol) :
    pin_io PinUvAuthToken :=
  '(proto, our_pub) ← calls (key_agreement chosen (pr_secret r));
  pin_hash_enc ← asserted (proto_encrypt proto (pr_iv r 0) (left16_sha256 pin));
  let extra := pin_uv_auth_token_extra our_pub pin_hash_enc permissions rp_id in
  resp ← calls (dispatch_token_request (build_request_extra (version chosen) SUB_GET_PIN_UV_AUTH_TOKEN_USING_PIN extra));
  fallible (received_token (s2b "pinUvAuthToken") proto chosen resp).

Definition get_pin_token (r : PinRandom) (pin : list Z) : pin_io PinUvAuthToken :=
  chosen ← calls negotiate_protocol;
  token_legacy r pin chosen.
Definition get_pin_uv_auth_token_with_permissions (r : PinRandom) (pin : list Z) (permissions : Z) (rp_id : option (list Z)) : pin_io PinUvAuthToken :=
  chosen ← calls negotiate_protocol;
  token_with_permissions r pin permissions rp_id chosen.
Definition get_pin_uv_auth_token (r : PinRandom) (pin : list Z) (info : AuthenticatorInfo) (permissions : Z) : pin_io PinUvAuthToken :=
  if bool_decide (force_pin_change info = Some true) then fallible (Err PinChangeRequired) else
  let chosen := select_pin_protocol (pin_uv_auth_protocols info) in
  if bool_decide (option_flag info (s2b "pinUvAuthToken") = Some true) then token_with_permissions r pin permissions None chosen
  else token_legacy r pin chosen.
End commands.
