(* ===== verification/CredMgmt.v ===== *)
(** keyroost-ctap/src/cred_mgmt.rs: listing and deleting the passkeys of an
    authenticator, over any CTAP transport. [usize] is 64 bits wide; the wiping
    of key material is left out. *)
From S2P Require Export BlobCrypto Ctap.

Definition CTAP2_CREDENTIAL_MANAGEMENT : Z := 0x0A.
Definition CTAP2_CREDENTIAL_MANAGEMENT_PREVIEW : Z := 0x41.
Definition KEY_SUB_COMMAND : Z := 0x01.
Definition KEY_SUB_COMMAND_PARAMS : Z := 0x02.
Definition KEY_PIN_UV_AUTH_PROTOCOL : Z := 0x03.
Definition KEY_PIN_UV_AUTH_PARAM : Z := 0x04.
Definition SUB_GET_CREDS_METADATA : Z := 0x01.
Definition SUB_ENUMERATE_RPS_BEGIN : Z := 0x02.
Definition SUB_ENUMERATE_RPS_NEXT : Z := 0x03.
Definition SUB_ENUMERATE_CREDS_BEGIN : Z := 0x04.
Definition SUB_ENUMERATE_CREDS_NEXT : Z := 0x05.
Definition SUB_DELETE_CREDENTIAL : Z := 0x06.
Definition CTAP2_ERR_NO_CREDENTIALS : Z := 0x2E.
Definition PARAM_RP_ID_HASH : Z := 0x01.
Definition PARAM_CREDENTIAL_ID : Z := 0x02.
Definition RESP_EXISTING_COUNT : Z := 0x01.
Definition RESP_MAX_REMAINING : Z := 0x02.
Definition RESP_RP : Z := 0x03.
Definition RESP_RP_ID_HASH : Z := 0x04.
Definition RESP_TOTAL_RPS : Z := 0x05.
Definition RESP_USER : Z := 0x06.
Definition RESP_CREDENTIAL_ID : Z := 0x07.
Definition RESP_PUBLIC_KEY : Z := 0x08.
Definition RESP_TOTAL_CREDS : Z := 0x09.
Definition RESP_LARGE_BLOB_KEY : Z := 0x0B.
Definition MAX_ENUMERATED : Z := 4096.

Definition checked_total (total : Z) : result CtapError Z :=
  if MAX_ENUMERATED <? total then Err (InvalidResponseShape (s2b "authenticator claimed an implausible enumeration count")) else Ok total.

Record CredsMetadata := mkMetadata { existing_count : Z; max_remaining : Z }.
Record RelyingParty := mkRp { rp_id : list Z; rp_name : option (list Z); rp_id_hash : option (list Z) }.
Record CredentialUser := mkUser { u_id : list Z; u_name : option (list Z); u_display_name : option (list Z) }.
Record Credential := mkCredential {
  credential_id : list Z; cred_user : CredentialUser; cred_algorithm : option Z; large_blob_key : option (list Z)
}.

(** * Answers *)

Definition field_uint (v : Value) (key : Z) : option Z := x ← get_uint_key v key; as_uint x.
(** 32 bytes, or nothing. *)
Definition bytes32 (v : option Value) : option (list Z) := x ← v; b ← as_bytes x; if zlen b =? 32 then Some b else None.
(** The entries of a map, none for anything else. *)
Definition entries_of (v : Value) : list (Value * Value) := default [] (as_map v).

Definition metadata_entry (m : CredsMetadata) (kv : Value * Value) : CredsMetadata :=
  match as_uint kv.1 with
  | Some key =>
      if key =? RESP_EXISTING_COUNT then mkMetadata (default 0 (as_uint kv.2)) (max_remaining m)
      else if key =? RESP_MAX_REMAINING then mkMetadata (existing_count m) (default 0 (as_uint kv.2))
      else m
  | None => m
  end.

Definition rp_entry (r : list Z * option (list Z)) (kv : Value * Value) : list Z * option (list Z) :=
  match as_text kv.1 with
  | Some k =>
      if bool_decide (k = s2b "id") then (default [] (as_text kv.2), r.2)
      else if bool_decide (k = s2b "name") then (r.1, as_text kv.2)
      else r
  | None => r
  end.
Definition parse_rp (v : Value) : result CtapError RelyingParty :=
  rp_entity ← ok_or (InvalidResponseShape (s2b "missing RP entity")) (get_uint_key v RESP_RP);
  let hash := bytes32 (get_uint_key v RESP_RP_ID_HASH) in
  let '(id, name) := fold_left rp_entry (entries_of rp_entity) ([], None) in
  Ok (mkRp id name hash).

Definition user_entry (u : CredentialUser) (kv : Value * Value) : CredentialUser :=
  match as_text kv.1 with
  | Some k =>
      if bool_decide (k = s2b "id") then mkUser (default [] (as_bytes kv.2)) (u_name u) (u_display_name u)
      else if bool_decide (k = s2b "name") then mkUser (u_id u) (as_text kv.2) (u_display_name u)
      else if bool_decide (k = s2b "displayName") then mkUser (u_id u) (u_name u) (as_text kv.2)
      else u
  | None => u
  end.
Definition id_entry (id : list Z) (kv : Value * Value) : list Z :=
  if bool_decide (as_text kv.1 = Some (s2b "id")) then default [] (as_bytes kv.2) else id.

Definition cose_number (v : Value) : option Z :=
  match v with UInt n => Some (as_i64 n) | NInt n => Some (-1 - as_i64 n) | _ => None end.
(** The value under label 3 that comes first, if it is a number. *)
Definition public_key_algorithm (pubkey : Value) : option Z :=
  v ← find_map (fun kv => if bool_decide (cose_number kv.1 = Some 3) then Some kv.2 else None) (entries_of pubkey);
  cose_number v.

Definition parse_credential (v : Value) : result CtapError Credential :=
  user ← ok_or (InvalidResponseShape (s2b "missing user entity")) (get_uint_key v RESP_USER);
  cred_desc ← ok_or (InvalidResponseShape (s2b "missing credentialId")) (get_uint_key v RESP_CREDENTIAL_ID);
  Ok (mkCredential (fold_left id_entry (entries_of cred_desc) []) (fold_left user_entry (entries_of user) (mkUser [] None None))
        (get_uint_key v RESP_PUBLIC_KEY ≫= public_key_algorithm) (bytes32 (get_uint_key v RESP_LARGE_BLOB_KEY))).

Definition decode_response (resp : list Z) : result CtapError Value :=
  '(status, body) ← split_status resp;
  if negb (status =? 0) then Err (StatusCode status) else
  if bool_decide (body = []) then Ok (Map []) else
  '(value, _) ← map_err ECbor (decode body);
  Ok value.

(** * Commands *)

(** The session on a transport, which is the state of its operations. *)
Record CredentialManager := mkManager { cm_token : PinUvAuthToken; cm_code : Z }.

Definition credential_manager_new (token : PinUvAuthToken) (info : AuthenticatorInfo) : result CtapError CredentialManager :=
  if bool_decide (option_flag info (s2b "credMgmt") = Some true) then Ok (mkManager token CTAP2_CREDENTIAL_MANAGEMENT)
  else if bool_decide (option_flag info (s2b "credentialMgmtPreview") = Some true) then Ok (mkManager token CTAP2_CREDENTIAL_MANAGEMENT_PREVIEW)
  else Err (InvalidResponseShape (s2b "authenticator does not support credentialManagement")).

Section commands.
Context {D : Type} `{CtapTransport D} `{BlobCrypto}.
Context (cm : CredentialManager).

Definition build_request (sub : Z) (params : option Value) : list Z :=
  let auth_input := [sub] ++ match params with Some p => encode p | None => [] end in
  let pin_uv_auth_param := authenticate (cm_token cm) auth_input in
  encode (Map ([(UInt KEY_SUB_COMMAND, UInt sub)] ++
    match params with Some p => [(UInt KEY_SUB_COMMAND_PARAMS, p)] | None => [] end ++
    [(UInt KEY_PIN_UV_AUTH_PROTOCOL, UInt (tok_protocol (cm_token cm))); (UInt KEY_PIN_UV_AUTH_PARAM, VBytes pin_uv_auth_param)])).

Definition cm_dispatch (sub : Z) (params : option Value) : io D CtapError Value :=
  resp ← transact CTAPHID_CBOR (cm_code cm :: build_request sub params);
  lift (decode_response resp).

Definition metadata : io D CtapError CredsMetadata :=
  resp ← cm_dispatch SUB_GET_CREDS_METADATA None;
  mret (fold_left metadata_entry (entries_of resp) (mkMetadata 0 0)).

(** The first answer of an enumeration; a key with nothing to list says so with
    a status. *)
Definition enumerate_begin (sub : Z) (params : option Value) : io D CtapError (option Value) := fun d =>
  match cm_dispatch sub params d with
  | (Ok v, d) => (Ok (Some v), d)
  | (Err (StatusCode c), d) => (if c =? CTAP2_ERR_NO_CREDENTIALS then Ok None else Err (StatusCode c), d)
  | (Err e, d) => (Err e, d)
  end.

(** [while out.len() < total]: the answers still to come. *)
Fixpoint enumerate_next {A} (sub : Z) (parse : Value -> result CtapError A) (n : nat) : io D CtapError (list A) :=
  match n with
  | O => mret []
  | S n =>
      v ← cm_dispatch sub None;
      x ← lift (parse v);
      rest ← enumerate_next sub parse n;
      mret (x :: rest)
  end.
Definition enumerate {A} (begin_sub next_sub : Z) (params : option Value) (total_key : Z) (parse : Value -> result CtapError A) : io D CtapError (list A) :=
  first ← enumerate_begin begin_sub params;
  match first with
  | None => mret []
  | Some first =>
      total ← lift (checked_total (default 0 (field_uint first total_key)));
      if total =? 0 then mret [] else
      x ← lift (parse first);
      rest ← enumerate_next next_sub parse (Z.to_nat (total - 1));
      mret (x :: rest)
  end.

Definition list_relying_parties : io D CtapError (list RelyingParty) :=
  enumerate SUB_ENUMERATE_RPS_BEGIN SUB_ENUMERATE_RPS_NEXT None RESP_TOTAL_RPS parse_rp.
Definition list_credentials (hash : list Z) : io D CtapError (list Credential) :=
  enumerate SUB_ENUMERATE_CREDS_BEGIN SUB_ENUMERATE_CREDS_NEXT (Some (Map [(UInt PARAM_RP_ID_HASH, VBytes hash)])) RESP_TOTAL_CREDS parse_credential.

Definition delete (id : list Z) : io D CtapError unit :=
  let cred_desc := Map [(Text (s2b "id"), VBytes id); (Text (s2b "type"), Text (s2b "public-key"))] in
  _ ← cm_dispatch SUB_DELETE_CREDENTIAL (Some (Map [(UInt PARAM_CREDENTIAL_ID, cred_desc)]));
  mret tt.
End commands.
