(* ===== verification/BioEnroll.v ===== *)
(** keyroost-ctap/src/bio_enroll.rs: fingerprints on an authenticator, over any
    CTAP transport. Durations are milliseconds. *)
From S2P Require Export BlobCrypto Ctap.

Definition CTAP2_BIO_ENROLLMENT : Z := 0x09.
Definition CTAP2_BIO_ENROLLMENT_PREVIEW : Z := 0x40.
Definition MODALITY_FINGERPRINT : Z := 0x01.
Definition CAPTURE_TIMEOUT : Z := 30000.
Definition MAX_CAPTURE_ITERATIONS : Z := 64.
Definition KEY_MODALITY : Z := 0x01.
Definition KEY_SUB_COMMAND : Z := 0x02.
Definition KEY_SUB_COMMAND_PARAMS : Z := 0x03.
Definition KEY_PIN_UV_AUTH_PROTOCOL : Z := 0x04.
Definition KEY_PIN_UV_AUTH_PARAM : Z := 0x05.
Definition SUB_ENROLL_BEGIN : Z := 0x01.
Definition SUB_ENROLL_CAPTURE_NEXT : Z := 0x02.
Definition SUB_CANCEL_ENROLLMENT : Z := 0x03.
Definition SUB_ENUMERATE_ENROLLMENTS : Z := 0x04.
Definition SUB_SET_FRIENDLY_NAME : Z := 0x05.
Definition SUB_REMOVE_ENROLLMENT : Z := 0x06.
Definition SUB_GET_SENSOR_INFO : Z := 0x07.
Definition PARAM_TEMPLATE_ID : Z := 0x01.
Definition PARAM_TEMPLATE_FRIENDLY_NAME : Z := 0x02.
Definition PARAM_TIMEOUT_MS : Z := 0x03.
Definition RESP_FINGERPRINT_KIND : Z := 0x02.
Definition RESP_MAX_CAPTURE_SAMPLES : Z := 0x03.
Definition RESP_TEMPLATE_ID : Z := 0x04.
Definition RESP_LAST_ENROLL_SAMPLE_STATUS : Z := 0x05.
Definition RESP_REMAINING_SAMPLES : Z := 0x06.
Definition RESP_TEMPLATE_INFOS : Z := 0x07.
Definition RESP_MAX_FRIENDLY_NAME_BYTES : Z := 0x08.
Definition TI_TEMPLATE_ID : Z := 0x01.
Definition TI_FRIENDLY_NAME : Z := 0x02.

Record Enrollment := mkEnrollment { template_id : list Z; friendly_name : option (list Z) }.
Record SensorInfo := mkSensor { fingerprint_kind : Z; max_capture_samples : Z; max_friendly_name_bytes : option Z }.
Record CaptureStatus := mkCapture { last_sample_status : Z; remaining_samples : Z }.

Definition sample_status_message (status : Z) : list Z :=
  if status =? 0x00 then s2b "good sample captured"
  else if status =? 0x01 then s2b "sample too high or partial " ++ EM_DASH ++ s2b " try again"
  else if status =? 0x02 then s2b "sample too low or partial " ++ EM_DASH ++ s2b " try again"
  else if status =? 0x03 then s2b "sample partial " ++ EM_DASH ++ s2b " center your finger on the sensor"
  else if status =? 0x04 then s2b "too many samples failed " ++ EM_DASH ++ s2b " enrollment may need restarting"
  else if status =? 0x05 then s2b "low quality " ++ EM_DASH ++ s2b " clean the sensor and your finger and retry"
  else if status =? 0x06 then s2b "too close to a previous sample " ++ EM_DASH ++ s2b " adjust finger position"
  else if status =? 0x07 then s2b "sensor timeout " ++ EM_DASH ++ s2b " touch the sensor"
  else s2b "retry the sample".

(** * Answers *)

Definition field_uint (v : Value) (key : Z) : option Z := x ← get_uint_key v key; as_uint x.
Definition field_template (v : Value) (key : Z) : result CtapError (list Z) :=
  ok_or (InvalidResponseShape (s2b "missing template id")) (x ← get_uint_key v key; as_bytes x).
Definition capture_status (resp : Value) : CaptureStatus :=
  mkCapture (default 0 (field_uint resp RESP_LAST_ENROLL_SAMPLE_STATUS)) (default 0 (field_uint resp RESP_REMAINING_SAMPLES)).
Fixpoint read_enrollments (arr : list Value) : result CtapError (list Enrollment) :=
  match arr with
  | [] => Ok []
  | ti :: arr =>
      id ← field_template ti TI_TEMPLATE_ID;
      let name := x ← get_uint_key ti TI_FRIENDLY_NAME; as_text x in
      rest ← read_enrollments arr;
      Ok (mkEnrollment id name :: rest)
  end.

(** * Commands *)

Section commands.
Context {D : Type} `{CtapTransport D} `{BlobCrypto}.

(** [transact_cbor]. *)
Definition transact_cbor (cmd_code : Z) (request : Value) : io D CtapError Value :=
  resp ← transact CTAPHID_CBOR (cmd_code :: encode request);
  '(status, body) ← lift (split_status resp);
  if negb (status =? 0) then lift (Err (StatusCode status)) else
  if bool_decide (body = []) then mret (Map []) else
  '(value, _) ← lift (map_err ECbor (decode body));
  mret value.

Record BioEnrollment := mkBio { be_dev : D; be_token : PinUvAuthToken; be_code : Z; be_captures : Z }.
Local Notation bio := (io BioEnrollment CtapError).

(** The name in the source is [new]. *)
Definition bio_new (dev : D) (token : PinUvAuthToken) (cmd_code : Z) : BioEnrollment := mkBio dev token cmd_code 0.
(** A command of the transport, in the session. *)
Definition on_dev {A} (f : PinUvAuthToken -> Z -> io D CtapError A) : bio A := fun b =>
  let '(r, d) := f (be_token b) (be_code b) (be_dev b) in (r, mkBio d (be_token b) (be_code b) (be_captures b)).
Definition set_captures (n : Z) : bio unit := io_modify (fun b => mkBio (be_dev b) (be_token b) (be_code b) n).

Definition build_request (token : PinUvAuthToken) (sub : Z) (params : option Value) : Value :=
  let auth_input := [cast 8 MODALITY_FINGERPRINT; sub] ++ match params with Some p => encode p | None => [] end in
  let pin_uv_auth_param := authenticate token auth_input in
  Map ([(UInt KEY_MODALITY, UInt MODALITY_FINGERPRINT); (UInt KEY_SUB_COMMAND, UInt sub)] ++
    match params with Some p => [(UInt KEY_SUB_COMMAND_PARAMS, p)] | None => [] end ++
    [(UInt KEY_PIN_UV_AUTH_PROTOCOL, UInt (tok_protocol token)); (UInt KEY_PIN_UV_AUTH_PARAM, VBytes pin_uv_auth_param)]).

Definition unauthenticated (sub : Z) : bio Value :=
  on_dev (fun _ code => transact_cbor code (Map [(UInt KEY_MODALITY, UInt MODALITY_FINGERPRINT); (UInt KEY_SUB_COMMAND, UInt sub)])).
(** The name in the source is [dispatch]. *)
Definition bio_dispatch (sub : Z) (params : option Value) : bio Value :=
  on_dev (fun token code => transact_cbor code (build_request token sub params)).
(** A step that waits for the finger. *)
Definition capture (sub : Z) (params : option Value) : bio Value :=
  on_dev (fun token code => with_timeout CAPTURE_TIMEOUT (transact_cbor code (build_request token sub params))).

Definition sensor_info : bio SensorInfo :=
  resp ← unauthenticated SUB_GET_SENSOR_INFO;
  mret (mkSensor (default 1 (field_uint resp RESP_FINGERPRINT_KIND)) (default 0 (field_uint resp RESP_MAX_CAPTURE_SAMPLES))
          (field_uint resp RESP_MAX_FRIENDLY_NAME_BYTES)).

Definition enumerate : bio (list Enrollment) := fun b =>
  match bio_dispatch SUB_ENUMERATE_ENROLLMENTS None b with
  | (Ok resp, b) =>
      (match (x ← get_uint_key resp RESP_TEMPLATE_INFOS; as_array x) with Some arr => read_enrollments arr | None => Ok [] end, b)
  | (Err (StatusCode c), b) => (if c =? 0x2C then Ok [] else Err (StatusCode c), b)
  | (Err e, b) => (Err e, b)
  end.

Definition enroll_begin (timeout_ms : option Z) : bio (list Z * CaptureStatus) :=
  _ ← set_captures 0;
  let params := (fun t => Map [(UInt PARAM_TIMEOUT_MS, UInt t)]) <$> timeout_ms in
  resp ← capture SUB_ENROLL_BEGIN params;
  id ← lift (field_template resp RESP_TEMPLATE_ID);
  mret (id, capture_status resp).

Definition enroll_capture_next (id : list Z) (timeout_ms : option Z) : bio CaptureStatus :=
  n ← io_gets be_captures;
  let n := cast 32 (n + 1) in
  _ ← set_captures n;
  if MAX_CAPTURE_ITERATIONS <? n then
    lift (Err (InvalidResponseShape (s2b "authenticator kept requesting more fingerprint samples past the host cap")))
  else
    let p := [(UInt PARAM_TEMPLATE_ID, VBytes id)] ++ match timeout_ms with Some t => [(UInt PARAM_TIMEOUT_MS, UInt t)] | None => [] end in
    resp ← capture SUB_ENROLL_CAPTURE_NEXT (Some (Map p));
    mret (capture_status resp).

Definition cancel_enrollment : bio unit := _ ← unauthenticated SUB_CANCEL_ENROLLMENT; mret tt.
Definition set_friendly_name (id name : list Z) : bio unit :=
  _ ← bio_dispatch SUB_SET_FRIENDLY_NAME (Some (Map [(UInt PARAM_TEMPLATE_ID, VBytes id); (UInt PARAM_TEMPLATE_FRIENDLY_NAME, Text name)]));
  mret tt.
Definition remove_enrollment (id : list Z) : bio unit :=
  _ ← bio_dispatch SUB_REMOVE_ENROLLMENT (Some (Map [(UInt PARAM_TEMPLATE_ID, VBytes id)]));
  mret tt.
End commands.
