(* ===== verification/CtapConfig.v ===== *)
(** keyroost-ctap/src/config.rs: the settings of an authenticator, over any CTAP
    transport. *)
From S2P Require Export BlobCrypto Ctap.

Definition CTAP2_CONFIG : Z := 0x0D.
Definition KEY_SUB_COMMAND : Z := 0x01.
Definition KEY_SUB_COMMAND_PARAMS : Z := 0x02.
Definition KEY_PIN_UV_AUTH_PROTOCOL : Z := 0x03.
Definition KEY_PIN_UV_AUTH_PARAM : Z := 0x04.
Definition SUB_ENABLE_ENTERPRISE_ATTESTATION : Z := 0x01.
Definition SUB_TOGGLE_ALWAYS_UV : Z := 0x02.
Definition SUB_SET_MIN_PIN_LENGTH : Z := 0x03.
Definition PARAM_NEW_MIN_PIN_LENGTH : Z := 0x01.
Definition PARAM_MIN_PIN_LENGTH_RP_IDS : Z := 0x02.
Definition PARAM_FORCE_CHANGE_PIN : Z := 0x03.

(** The session on a transport, which is the state of its operations. *)
Record Configurator := mkConfigurator {
  cf_token : PinUvAuthToken; always_uv_supported : bool; ep_supported : bool; min_pin_supported : bool
}.

Definition configurator_new (token : PinUvAuthToken) (info : AuthenticatorInfo) : result CtapError Configurator :=
  if negb (bool_decide (option_flag info (s2b "authnrCfg") = Some true)) then Err (EUnsupported (s2b "authenticatorConfig")) else
  Ok (mkConfigurator token (negb (bool_decide (option_flag info (s2b "alwaysUv") = None))) (negb (bool_decide (option_flag info (s2b "ep") = None)))
        (bool_decide (option_flag info (s2b "setMinPINLength") = Some true))).

Definition config_auth_input (sub : Z) (params : option Value) : list Z :=
  replicate 32 0xff ++ [CTAP2_CONFIG; sub] ++ match params with Some p => encode p | None => [] end.

Section commands.
Context {D : Type} `{CtapTransport D} `{BlobCrypto}.
Context (cf : Configurator).

Definition build_request (sub : Z) (params : option Value) : list Z :=
  let pin_uv_auth_param := authenticate (cf_token cf) (config_auth_input sub params) in
  encode (Map ([(UInt KEY_SUB_COMMAND, UInt sub)] ++
    match params with Some p => [(UInt KEY_SUB_COMMAND_PARAMS, p)] | None => [] end ++
    [(UInt KEY_PIN_UV_AUTH_PROTOCOL, UInt (tok_protocol (cf_token cf))); (UInt KEY_PIN_UV_AUTH_PARAM, VBytes pin_uv_auth_param)])).

(** The name in the source is [dispatch]. *)
Definition config_dispatch (sub : Z) (params : option Value) : io D CtapError unit :=
  resp ← transact CTAPHID_CBOR (CTAP2_CONFIG :: build_request sub params);
  lift (match resp with
        | [] => Err EmptyResponse
        | status :: _ => if negb (status =? 0) then Err (StatusCode status) else Ok tt
        end).

Definition enable_enterprise_attestation : io D CtapError unit :=
  if negb (ep_supported cf) then lift (Err (EUnsupported (s2b "enableEnterpriseAttestation")))
  else config_dispatch SUB_ENABLE_ENTERPRISE_ATTESTATION None.
Definition toggle_always_uv : io D CtapError unit :=
  if negb (always_uv_supported cf) then lift (Err (EUnsupported (s2b "toggleAlwaysUv")))
  else config_dispatch SUB_TOGGLE_ALWAYS_UV None.
Definition set_min_pin_length (new_min : option Z) (rp_ids : list (list Z)) (force_change : bool) : io D CtapError unit :=
  if negb (min_pin_supported cf) then lift (Err (EUnsupported (s2b "setMinPINLength"))) else
  let entries := match new_min with Some n => [(UInt PARAM_NEW_MIN_PIN_LENGTH, UInt n)] | None => [] end ++
                 (if bool_decide (rp_ids = []) then [] else [(UInt PARAM_MIN_PIN_LENGTH_RP_IDS, Array (map Text rp_ids))]) ++
                 (if force_change then [(UInt PARAM_FORCE_CHANGE_PIN, VBool true)] else []) in
  config_dispatch SUB_SET_MIN_PIN_LENGTH (if bool_decide (length entries = 0%nat) then None else Some (Map entries)).
Definition force_pin_change : io D CtapError unit := set_min_pin_length None [] true.
End commands.
