(* ===== verification/FidoKey.v ===== *)
(** A reference authenticator, as CTAP 2.1 describes one, for the theorems about
    the clientPin and credentialManagement commands: its PIN, its tokens and
    their permissions, its passkeys and the enumeration it is in the middle of. *)
From S2P Require Export CredMgmt ClientPin.

Section key.
Context `{BlobCrypto} `{PinCipher}.

(** * What it holds *)

(** A relying party and its passkeys. *)
Record Party := mkParty { pt_id : list Z; pt_name : option (list Z); pt_hash : list Z; pt_keys : list Credential }.

Record FidoKey := mkFido {
  fk_protocols : list Z;                (* in its order of preference *)
  fk_strict : bool;                     (* CTAP 2.1: tokens with permissions *)
  fk_preview : bool;                    (* credentialManagement under its older name *)
  fk_secret : nat -> EphemeralSecret;   (* its key pairs, *)
  fk_token : nat -> list Z;             (* tokens *)
  fk_iv : nat -> list Z;                (* and IVs, in the order it draws them *)
  fk_accepts : list Z -> bool;          (* the PINs its policy accepts *)
  fk_pin : option (list Z);             (* LEFT(SHA-256(PIN), 16) *)
  fk_tries : Z;                         (* attempts left, *)
  fk_streak : Z;                        (* and wrong PINs in a row since it was plugged in *)
  fk_force : bool;                      (* the PIN must be changed first *)
  fk_pair : nat;                        (* which key pair is in use, *)
  fk_agreed : option Z;                 (* and the protocol it was asked for with *)
  fk_issued : nat;                      (* how many tokens were issued, *)
  fk_grant : option (Z * Z);            (* the protocol and permissions of the last *)
  fk_parties : list Party;
  fk_room : Z;
  fk_pending : list Value               (* the answers of an enumeration still to come *)
}.

(** The PIN stored or proven: no wrong one since. *)
Definition put_pin pin tries force (k : FidoKey) : FidoKey :=
  mkFido (fk_protocols k) (fk_strict k) (fk_preview k) (fk_secret k) (fk_token k) (fk_iv k) (fk_accepts k) pin tries 0 force
    (fk_pair k) (fk_agreed k) (fk_issued k) (fk_grant k) (fk_parties k) (fk_room k) (fk_pending k).
Definition put_tries tries streak (k : FidoKey) : FidoKey :=
  mkFido (fk_protocols k) (fk_strict k) (fk_preview k) (fk_secret k) (fk_token k) (fk_iv k) (fk_accepts k) (fk_pin k) tries streak (fk_force k)
    (fk_pair k) (fk_agreed k) (fk_issued k) (fk_grant k) (fk_parties k) (fk_room k) (fk_pending k).
Definition put_pair pair agreed (k : FidoKey) : FidoKey :=
  mkFido (fk_protocols k) (fk_strict k) (fk_preview k) (fk_secret k) (fk_token k) (fk_iv k) (fk_accepts k) (fk_pin k) (fk_tries k) (fk_streak k) (fk_force k)
    pair agreed (fk_issued k) (fk_grant k) (fk_parties k) (fk_room k) (fk_pending k).
Definition put_grant issued grant (k : FidoKey) : FidoKey :=
  mkFido (fk_protocols k) (fk_strict k) (fk_preview k) (fk_secret k) (fk_token k) (fk_iv k) (fk_accepts k) (fk_pin k) (fk_tries k) (fk_streak k) (fk_force k)
    (fk_pair k) (fk_agreed k) issued grant (fk_parties k) (fk_room k) (fk_pending k).
Definition put_parties parties room (k : FidoKey) : FidoKey :=
  mkFido (fk_protocols k) (fk_strict k) (fk_preview k) (fk_secret k) (fk_token k) (fk_iv k) (fk_accepts k) (fk_pin k) (fk_tries k) (fk_streak k) (fk_force k)
    (fk_pair k) (fk_agreed k) (fk_issued k) (fk_grant k) parties room (fk_pending k).
Definition put_pending pending (k : FidoKey) : FidoKey :=
  mkFido (fk_protocols k) (fk_strict k) (fk_preview k) (fk_secret k) (fk_token k) (fk_iv k) (fk_accepts k) (fk_pin k) (fk_tries k) (fk_streak k) (fk_force k)
    (fk_pair k) (fk_agreed k) (fk_issued k) (fk_grant k) (fk_parties k) (fk_room k) pending.
(** Unplugged and plugged in again. *)
Definition power_cycle (k : FidoKey) : FidoKey :=
  put_pending [] (put_grant (fk_issued k) None (put_pair (S (fk_pair k)) None (put_tries (fk_tries k) 0 k))).

Definition answer : Type := list Z * FidoKey.
Definition refuse (status : Z) (k : FidoKey) : answer := ([status], k).
Definition done_ok (k : FidoKey) : answer := ([0], k).
Definition reply (m : list (Value * Value)) (k : FidoKey) : answer := (0 :: encode (Map m), k).

(** * GetInfo *)

Definition key_info (k : FidoKey) : list (Value * Value) :=
  [(UInt 1, Array [Text (s2b "FIDO_2_1")]);
   (UInt 4, Map [(Text (s2b "rk"), VBool true); (Text (s2b "pinUvAuthToken"), VBool (fk_strict k));
                 (Text (if fk_preview k then s2b "credentialMgmtPreview" else s2b "credMgmt"), VBool true)]);
   (UInt 6, Array (map UInt (fk_protocols k))); (UInt 0x0C, VBool (fk_force k))].

(** * ClientPin *)

Definition fld (m : list (Value * Value)) (n : Z) : option Value := get_uint_key (Map m) n.
(** The value under a negative label: [NInt n] stands for -1 - n. *)
Definition nint_fld (m : list (Value * Value)) (n : Z) : option (list Z) :=
  find_map (fun kv => match kv.1, kv.2 with NInt l, VBytes b => if l =? n then Some b else None | _, _ => None end) m.
Definition is_v2 (protocol : Z) : bool := protocol =? 2.

(** The session a request's public key makes, if the protocol is the one the key
    pair was handed out for. *)
Definition key_session (protocol : Z) (m : list (Value * Value)) (k : FidoKey) : option PinProtocol :=
  if negb (bool_decide (fk_agreed k = Some protocol)) then None else
  match fld m KEY_KEY_AGREEMENT with
  | Some (Map cose) =>
      x ← nint_fld cose 1; y ← nint_fld cose 2;
      result_ok ((if is_v2 protocol then shared_secret_v2 else shared_secret_v1) (fk_secret k (fk_pair k)) x y)
  | _ => None
  end.
Definition fld_bytes (m : list (Value * Value)) (n : Z) : option (list Z) := v ← fld m n; as_bytes v.

Fixpoint strip_zeros (l : list Z) : list Z :=
  match l with [] => [] | b :: l => match strip_zeros l with [] => if b =? 0 then [] else [b] | r => b :: r end end.

(** A new PIN, opened: its stored hash, or the status that refuses it. *)
Definition new_pin_hash (accepts : list Z -> bool) (proto : PinProtocol) (enc : list Z) : Z + list Z :=
  match proto_decrypt proto enc with
  | Ok padded =>
      if negb (zlen padded =? 64) then inl 0x02
      else let pin := strip_zeros padded in if negb (accepts pin) then inl 0x37 else inr (left16_sha256 pin)
  | Err _ => inl 0x02
  end.

(** Runs [f] if the PIN proof is right; a wrong one costs an attempt and the key
    pair. With no attempt left the PIN is blocked, and after three wrong ones in a
    row the key wants to be plugged in again before it looks at another. *)
Definition with_proof (proto : PinProtocol) (enc : list Z) (k : FidoKey) (f : FidoKey -> answer) : answer :=
  match fk_pin k with
  | None => refuse 0x35 k
  | Some pin =>
      if fk_tries k =? 0 then refuse 0x32 k
      else if 3 <=? fk_streak k then refuse 0x34 k
      else if bool_decide (result_ok (proto_decrypt proto enc) = Some pin) then f (put_pin (Some pin) 8 (fk_force k) k)
      else
        let k := put_pair (S (fk_pair k)) None (put_tries (fk_tries k - 1) (fk_streak k + 1) k) in
        refuse (if fk_tries k =? 0 then 0x32 else if 3 <=? fk_streak k then 0x34 else 0x31) k
  end.

Definition key_set_pin (proto : PinProtocol) (m : list (Value * Value)) (k : FidoKey) : answer :=
  match fld_bytes m KEY_PIN_UV_AUTH_PARAM, fld_bytes m KEY_NEW_PIN_ENC with
  | Some auth, Some enc =>
      if negb (bool_decide (fk_pin k = None)) || negb (bool_decide (proto_authenticate proto enc = auth)) then refuse 0x33 k
      else match new_pin_hash (fk_accepts k) proto enc with inl s => refuse s k | inr h => done_ok (put_pin (Some h) 8 false k) end
  | _, _ => refuse 0x14 k
  end.
Definition key_change_pin (proto : PinProtocol) (m : list (Value * Value)) (k : FidoKey) : answer :=
  match fld_bytes m KEY_PIN_UV_AUTH_PARAM, fld_bytes m KEY_NEW_PIN_ENC, fld_bytes m KEY_PIN_HASH_ENC with
  | Some auth, Some enc, Some hash =>
      if negb (bool_decide (proto_authenticate proto (enc ++ hash) = auth)) then refuse 0x33 k
      else with_proof proto hash k (fun k =>
        match new_pin_hash (fk_accepts k) proto enc with inl s => refuse s k | inr h => done_ok (put_pin (Some h) 8 false k) end)
  | _, _, _ => refuse 0x14 k
  end.
Definition key_issue (protocol : Z) (proto : PinProtocol) (permissions : Z) (m : list (Value * Value)) (k : FidoKey) : answer :=
  match fld_bytes m KEY_PIN_HASH_ENC with
  | Some hash =>
      with_proof proto hash k (fun k =>
        if fk_force k then refuse 0x37 k else
        match proto_encrypt proto (fk_iv k (fk_issued k)) (fk_token k (fk_issued k)) with
        | Some enc => reply [(UInt 2, VBytes enc)] (put_grant (S (fk_issued k)) (Some (protocol, permissions)) k)
        | None => refuse 0x7F k
        end)
  | None => refuse 0x14 k
  end.

Definition key_client_pin (m : list (Value * Value)) (k : FidoKey) : answer :=
  match fld m KEY_PIN_PROTOCOL, fld m KEY_SUB_COMMAND with
  | Some (UInt protocol), Some (UInt sub) =>
      if sub =? 1 then reply [(UInt 3, UInt (fk_tries k))] k
      else if negb (bool_decide (protocol ∈ fk_protocols k)) then refuse 0x02 k
      else if sub =? 2 then
        let s := fk_secret k (fk_pair k) in
        reply [(UInt 1, Map [(UInt 1, UInt 2); (UInt 3, NInt 24); (NInt 0, UInt 1); (NInt 1, VBytes (eph_x s)); (NInt 2, VBytes (eph_y s))])]
          (put_pair (fk_pair k) (Some protocol) k)
      else match key_session protocol m k with
           | None => refuse 0x33 k
           | Some proto =>
               if sub =? 3 then key_set_pin proto m k
               else if sub =? 4 then key_change_pin proto m k
               else if sub =? 5 then key_issue protocol proto (if fk_strict k then 0x03 else 0xFF) m k
               else if (sub =? 9) && fk_strict k then
                 match fld m KEY_PERMISSIONS with Some (UInt p) => if p =? 0 then refuse 0x02 k else key_issue protocol proto p m k | _ => refuse 0x14 k end
               else refuse 0x3E k
           end
  | _, _ => refuse 0x14 k
  end.

(** * CredentialManagement *)

(** The permission bit, and the proof over what is signed. *)
Definition permitted (bit : Z) (protocol : Z) (signed auth : list Z) (k : FidoKey) : bool :=
  match fk_grant k, fk_issued k with
  | Some (p, permissions), S n =>
      (p =? protocol) && Z.testbit permissions bit && bool_decide (authenticate (mkToken p (fk_token k n)) signed = auth)
  | _, _ => false
  end.

Definition text_field (name : list Z) (v : option (list Z)) : list (Value * Value) :=
  match v with Some s => [(Text name, Text s)] | None => [] end.
Definition party_answer (p : Party) : list (Value * Value) :=
  [(UInt 3, Map ([(Text (s2b "id"), Text (pt_id p))] ++ text_field (s2b "name") (pt_name p))); (UInt 4, VBytes (pt_hash p))].
Definition passkey_answer (c : Credential) : list (Value * Value) :=
  [(UInt 6, Map ([(Text (s2b "id"), VBytes (u_id (cred_user c)))] ++ text_field (s2b "name") (u_name (cred_user c)) ++
                 text_field (s2b "displayName") (u_display_name (cred_user c))));
   (UInt 7, Map [(Text (s2b "id"), VBytes (credential_id c)); (Text (s2b "type"), Text (s2b "public-key"))])] ++
  match cred_algorithm c with Some a => [(UInt 8, Map [(UInt 1, UInt 2); (UInt 3, cbor_int a)])] | None => [] end ++
  match large_blob_key c with Some b => [(UInt 0x0B, VBytes b)] | None => [] end.

(** The first answer of an enumeration has the total; the others wait. *)
Definition key_begin (total_key : Z) (answers : list (list (Value * Value))) (k : FidoKey) : answer :=
  match answers with
  | [] => refuse 0x2E k
  | first :: rest => reply (first ++ [(UInt total_key, UInt (zlen answers))]) (put_pending (map Map rest) k)
  end.
Definition key_next (k : FidoKey) : answer :=
  match fk_pending k with Map m :: rest => reply m (put_pending rest k) | _ => refuse 0x30 k end.

Definition all_passkeys (k : FidoKey) : list Credential := flat_map pt_keys (fk_parties k).
Definition passkeys_of (hash : list Z) (parties : list Party) : list Credential :=
  flat_map pt_keys (List.filter (fun p => bool_decide (pt_hash p = hash)) parties).
(** Parties without the passkeys of an id; one left with none is gone. *)
Definition without_passkey (id : list Z) (parties : list Party) : list Party :=
  List.filter (fun p => negb (bool_decide (pt_keys p = [])))
    (map (fun p => mkParty (pt_id p) (pt_name p) (pt_hash p) (List.filter (fun c => negb (bool_decide (credential_id c = id))) (pt_keys p))) parties).
Definition has_passkey (id : list Z) (parties : list Party) : bool :=
  existsb (fun c => bool_decide (credential_id c = id)) (flat_map pt_keys parties).

Definition key_delete (params : option Value) (k : FidoKey) : answer :=
  match (v ← params; d ← get_uint_key v 2; m ← as_map d;
         find_map (fun kv => if bool_decide (as_text kv.1 = Some (s2b "id")) then as_bytes kv.2 else None) m) with
  | Some id => if has_passkey id (fk_parties k) then done_ok (put_parties (without_passkey id (fk_parties k)) (fk_room k + 1) k) else refuse 0x2E k
  | None => refuse 0x14 k
  end.

Definition key_cred_mgmt (m : list (Value * Value)) (k : FidoKey) : answer :=
  match fld m 1 with
  | Some (UInt sub) =>
      if (sub =? 3) || (sub =? 5) then key_next k else
      let signed := [sub] ++ match fld m 2 with Some p => encode p | None => [] end in
      match fld m 3, fld_bytes m 4 with
      | Some (UInt protocol), Some auth =>
          if negb (permitted 2 protocol signed auth k) then refuse 0x33 k
          else if sub =? 1 then reply [(UInt 1, UInt (zlen (all_passkeys k))); (UInt 2, UInt (fk_room k))] k
          else if sub =? 2 then key_begin 5 (map party_answer (fk_parties k)) k
          else if sub =? 4 then
            match (v ← fld m 2; b ← get_uint_key v 1; as_bytes b) with
            | Some hash => key_begin 9 (map passkey_answer (passkeys_of hash (fk_parties k))) k
            | None => refuse 0x14 k
            end
          else if sub =? 6 then key_delete (fld m 2) k
          else refuse 0x3E k
      | _, _ => refuse 0x36 k
      end
  | _ => refuse 0x14 k
  end.

(** * The transport *)

Definition key_command (code : Z) (body : list Z) (k : FidoKey) : answer :=
  if code =? CTAP2_GET_INFO then reply (key_info k) k else
  match decode body with
  | Ok (Map m, []) =>
      if code =? CTAP2_CLIENT_PIN then key_client_pin m k
      else if code =? (if fk_preview k then CTAP2_CREDENTIAL_MANAGEMENT_PREVIEW else CTAP2_CREDENTIAL_MANAGEMENT) then key_cred_mgmt m k
      else refuse 0x01 k
  | _ => refuse 0x12 k
  end.
Definition key_transact (payload : list Z) (k : FidoKey) : answer :=
  match payload with code :: body => key_command code body k | [] => refuse 0x03 k end.

#[export] Instance fido_transport : CtapTransport FidoKey := {
  transact _ payload k := let '(resp, k) := key_transact payload k in (Ok resp, k);
  set_timeout _ k := k;
  read_timeout _ := DEFAULT_READ_TIMEOUT;
  set_cancel_flag k := k
}.
End key.
