(* ===== verification/FidoPin.v ===== *)
(** The clientPin commands against the reference authenticator: setting,
    changing and using its PIN does what a plain record of a PIN, its attempts
    and the tokens given out does. *)
From S2P Require Export FidoKey.

(** Breaks the well-formedness of a CBOR value down to its leaves. *)
Ltac wf_leaves := repeat match goal with
  | |- wf (Map (_ :: _)) => apply wf_map; [|unfold zlen; cbn; lia]
  | |- wf (Array (_ :: _)) => apply wf_array; [|unfold zlen; cbn; lia]
  | |- wf (Array _) => apply wf_array
  | |- Forall _ (_ :: _) => apply Forall_cons_2
  | |- Forall _ [] => apply Forall_nil_2
  | |- wf (_, _).1 /\ wf (_, _).2 => split; cbn [fst snd]
  | |- wf (UInt _) => apply wf_uint
  | |- wf (NInt _) => apply wf_nint
  | |- wf (VBool _) => apply wf_bool
  end.

Section pins.
Context `{BlobCryptoLaws} `{PinCipherLaws}.
Local Notation kio := (io FidoKey (option CtapError)).

(** * What the commands promise *)

(** A PIN is known by its stored hash. *)
Record PinState := mkPinState {
  ps_pin : option (list Z); ps_tries : Z; ps_streak : Z; ps_force : bool;
  ps_issued : nat; ps_grant : option (Z * Z)
}.

Definition refused {A} (status : Z) : io PinState (option CtapError) A := lift (Err (Some (StatusCode status))).
(** The PIN's check: a wrong one costs an attempt, the right one restores them.
    The last attempt lost blocks the PIN; the third wrong one in a row has the key
    plugged in again before it takes another, and until then costs nothing. *)
Definition spec_proof (pin : list Z) : io PinState (option CtapError) unit := fun s =>
  match ps_pin s with
  | None => refused 0x35 s
  | Some h =>
      if ps_tries s =? 0 then refused 0x32 s
      else if 3 <=? ps_streak s then refused 0x34 s
      else if bool_decide (left16_sha256 pin = h) then (Ok tt, mkPinState (Some h) 8 0 (ps_force s) (ps_issued s) (ps_grant s))
      else refused (if ps_tries s =? 1 then 0x32 else if ps_streak s =? 2 then 0x34 else 0x31)
             (mkPinState (Some h) (ps_tries s - 1) (ps_streak s + 1) (ps_force s) (ps_issued s) (ps_grant s))
  end.
(** The key takes the new PIN if its policy does. *)
Definition spec_store_pin (accepts : list Z -> bool) (pin : list Z) : io PinState (option CtapError) unit :=
  if accepts pin then io_modify (fun s => mkPinState (Some (left16_sha256 pin)) 8 0 false (ps_issued s) (ps_grant s)) else refused 0x37.
Definition spec_valid (pin : list Z) : io PinState (option CtapError) unit := lift (map_err Some (validate_pin pin)).

Definition spec_set_pin (accepts : list Z -> bool) (pin : list Z) : io PinState (option CtapError) unit :=
  _ ← spec_valid pin;
  s ← io_gets ps_pin;
  if negb (bool_decide (s = None)) then refused 0x33 else spec_store_pin accepts pin.
Definition spec_change_pin (accepts : list Z -> bool) (old new : list Z) : io PinState (option CtapError) unit :=
  _ ← spec_valid new; _ ← spec_proof old; spec_store_pin accepts new.
(** [protocol], [token]: the protocol agreed on and the tokens of the key. *)
Definition spec_token (protocol : Z) (token : nat -> list Z) (pin : list Z) (permissions : Z) : io PinState (option CtapError) PinUvAuthToken :=
  _ ← spec_proof pin;
  force ← io_gets ps_force;
  if force : bool then lift (Err (Some PinChangeRequired)) else
  n ← io_gets ps_issued;
  _ ← io_modify (fun s => mkPinState (ps_pin s) (ps_tries s) (ps_streak s) (ps_force s) (S n) (Some (protocol, permissions)));
  mret (mkToken protocol (token n)).

(** * The key in order *)

Definition abs (k : FidoKey) : PinState := mkPinState (fk_pin k) (fk_tries k) (fk_streak k) (fk_force k) (fk_issued k) (fk_grant k).
Definition protocol_of (k : FidoKey) : SelectedPinProtocol := select_pin_protocol (fk_protocols k).

Record fido_ok (k : FidoKey) : Prop := {
  fo_protocols : version (protocol_of k) ∈ fk_protocols k;
  fo_protocol_words : Forall (is_word 64) (fk_protocols k) /\ zlen (fk_protocols k) < 2 ^ 64;
  fo_tokens : forall n, Bytes (fk_token k n) /\ (zlen (fk_token k n) = 16 \/ zlen (fk_token k n) = 32);
  fo_ivs : forall n, iv_ok (fk_iv k n);
  fo_tries : 0 <= fk_tries k <= 8 /\ 0 <= fk_streak k <= 3
}.
Definition random_ok (r : PinRandom) : Prop := forall n, iv_ok (pr_iv r n).

(** What stays as the key was made. *)
Definition same_key (k k' : FidoKey) : Prop :=
  fk_protocols k' = fk_protocols k /\ fk_strict k' = fk_strict k /\ fk_preview k' = fk_preview k /\ fk_token k' = fk_token k /\
  fk_accepts k' = fk_accepts k /\ fk_parties k' = fk_parties k /\ fk_room k' = fk_room k.

Definition simulates {A} (m : kio A) (sp : io PinState (option CtapError) A) (k : FidoKey) : Prop :=
  (m k).1 = (sp (abs k)).1 /\ abs (m k).2 = (sp (abs k)).2 /\ fido_ok (m k).2 /\ same_key k (m k).2.

(** What is left of a simulation once both sides are computed: the key in order. *)
#[local] Ltac simulated := split; [done|split; [done|split; [try done|first [by repeat split|match goal with H : same_key _ _ |- _ => exact H end]]]].

(** * Exchanges *)

Definition read_pin_answer (resp : list Z) : result CtapError PinResponse :=
  '(status, body) ← split_status resp;
  if negb (status =? 0) then Err (StatusCode status) else
  if bool_decide (body = []) then Ok default_response else
  '(value, _) ← map_err ECbor (decode body); parse_pin_response value.

Definition shallow (m : list (Value * Value)) : Prop := wf (Map m) /\ (depth (Map m) <= DECODE_DEPTH_LIMIT)%nat.

Lemma pin_dispatch_run m k : shallow m ->
  pin_dispatch (encode (Map m)) k = (read_pin_answer (key_client_pin m k).1, (key_client_pin m k).2).
Proof.
  intros [Hw Hd]. unfold pin_dispatch, mbind at 1, io_bind at 1. cbn [transact fido_transport]. unfold key_transact, key_command.
  change (CTAP2_CLIENT_PIN =? CTAP2_GET_INFO) with false. change (CTAP2_CLIENT_PIN =? CTAP2_CLIENT_PIN) with true. cbv iota.
  rewrite decode_encoded by done. destruct (key_client_pin m k) as [resp k']. cbn [fst snd]. unfold read_pin_answer.
  destruct (split_status resp) as [[status body]|e]; [|done]. rewrite io_lift_bind. cbn [mbind result_bind].
  destruct (negb _); [done|]. case_bool_decide; [done|]. by destruct (decode body) as [[v rest]|e].
Qed.

Lemma read_refused status k : status <> 0 -> read_pin_answer (refuse status k).1 = Err (StatusCode status).
Proof. intros Hs. unfold read_pin_answer. cbn. by rewrite (proj2 (Z.eqb_neq _ _) Hs). Qed.
Lemma read_done k : read_pin_answer (done_ok k).1 = Ok default_response.
Proof. done. Qed.
Lemma read_reply m k : shallow m -> read_pin_answer (reply m k).1 = parse_pin_response (Map m).
Proof.
  intros [Hw Hd]. unfold read_pin_answer. cbn [reply fst split_status mbind result_bind].
  change (negb (0 =? 0)) with false. cbv iota. rewrite bool_decide_eq_false_2 by apply encode_nonempty.
  by rewrite decode_encoded.
Qed.

Lemma ascii_text_wf s : Forall (fun b => 0 <= b < 0x80) s -> zlen s < 2 ^ 64 -> wf (Text s).
Proof. intros Hs Hl. constructor; [eapply list.Forall_impl; [exact Hs|]; unfold is_byte; intros; lia|by apply ascii_is_str|done]. Qed.

Lemma get_info_run k : fido_ok k -> get_info k = (Ok (info_of_map (key_info k)), k).
Proof.
  intros Hk. unfold get_info, mbind at 1, io_bind at 1. cbn [transact fido_transport]. unfold key_transact, key_command.
  change (CTAP2_GET_INFO =? CTAP2_GET_INFO) with true. cbv iota. cbn [reply split_status]. rewrite io_lift_bind.
  change (negb (0 =? 0)) with false. cbv iota. rewrite decode_encoded.
  - cbn [map_err]. rewrite io_lift_bind. unfold parse_authenticator_info. cbn [as_map ok_or mbind result_bind]. by rewrite info_entries.
  - destruct (fo_protocol_words k Hk) as [Hp Hl]. unfold key_info. wf_leaves;
    lazymatch goal with |- wf (Text (s2b _)) => apply ascii_text_wf; by_decision | |- is_word 64 _ => by_decision | |- _ => idtac end.
    + destruct (fk_preview k); apply ascii_text_wf; by_decision.
    + apply Forall_map. eapply list.Forall_impl; [exact Hp|]. intros. by constructor.
    + unfold zlen in *. by rewrite length_map.
  - assert (forall l, fold_right (fun v d => Nat.max (depth v) d) 0%nat (map UInt l) = 0%nat) as Hz by (induction l as [|x l IH]; [done|exact IH]).
    unfold key_info. cbn. rewrite Hz. destruct (map UInt (fk_protocols k)), (fk_preview k); cbn; unfold DECODE_DEPTH_LIMIT; lia.
Qed.

Lemma uints_back l : omap as_uint (map UInt l) = l.
Proof. induction l as [|x l IH]; [done|]. cbn in *. by rewrite IH. Qed.
Lemma negotiate_run k : fido_ok k -> negotiate_protocol k = (Ok (protocol_of k), k).
Proof.
  intros Hk. unfold negotiate_protocol. rewrite (io_bind_Ok_eq _ _ _ _ _ (get_info_run k Hk)).
  assert (pin_uv_auth_protocols (info_of_map (key_info k)) = fk_protocols k) as Hp by (exact (uints_back (fk_protocols k))).
  by rewrite Hp.
Qed.

(** The key after a key agreement under the protocol in use. *)
Definition agreed_key (k : FidoKey) : FidoKey := put_pair (fk_pair k) (Some (version (protocol_of k))) k.
Definition session_of (k : FidoKey) (our : EphemeralSecret) (proto : PinProtocol) : Prop :=
  agreed_on (is_v2 (version (protocol_of k))) (fk_secret k (fk_pair k)) our = Ok proto.

Lemma coordinate_32 l : length l = 32%nat -> coordinate (VBytes l) = Some l.
Proof. intros Hl. unfold coordinate. cbn. unfold zlen. by rewrite Hl. Qed.

Definition cose_of (s : EphemeralSecret) : Value :=
  Map [(UInt 1, UInt 2); (UInt 3, NInt 24); (NInt 0, UInt 1); (NInt 1, VBytes (eph_x s)); (NInt 2, VBytes (eph_y s))].
Lemma cose_sent s : cose_p256_public (eph_x s) (eph_y s) = cose_of s.
Proof. done. Qed.
Lemma point_bytes_wf l : Bytes l -> length l = 32%nat -> wf (VBytes l).
Proof. intros Hb Hl. constructor; [done|unfold zlen; rewrite Hl; by_decision]. Qed.
Lemma cose_wf s : wf (cose_of s).
Proof.
  destruct (eph_x_out s) as [Hx Hxl], (eph_y_out s) as [Hy Hyl]. unfold cose_of.
  wf_leaves; lazymatch goal with |- is_word 64 _ => by_decision | |- _ => by apply point_bytes_wf end.
Qed.

Lemma protocol_word k : is_word 64 (version (protocol_of k)).
Proof. by destruct (protocol_of k). Qed.

Lemma cose_read s : parse_pin_response (Map [(UInt 1, cose_of s)]) = Ok (mkPinResponse None (Some (eph_x s, eph_y s)) None).
Proof.
  destruct (eph_x_out s) as [_ Hx], (eph_y_out s) as [_ Hy]. unfold parse_pin_response. cbn [as_map ok_or mbind result_bind fold_left].
  unfold pin_response_entry. cbn [default_response as_uint fst snd]. change (1 =? 0x01) with true. cbv iota. unfold cose_of. cbn [as_map fold_left].
  unfold cose_entry. cbn [cose_label fst snd]. by rewrite !coordinate_32.
Qed.

(** The commands' fields, looked up in a request. *)
Lemma client_pin_fields v sub extra :
  let m := [(UInt KEY_PIN_PROTOCOL, UInt v); (UInt KEY_SUB_COMMAND, UInt sub)] ++ extra in
  fld m KEY_PIN_PROTOCOL = Some (UInt v) /\ fld m KEY_SUB_COMMAND = Some (UInt sub).
Proof. done. Qed.

Lemma get_key_agreement_run k : fido_ok k ->
  get_key_agreement (version (protocol_of k)) k =
  (Ok (eph_x (fk_secret k (fk_pair k)), eph_y (fk_secret k (fk_pair k))), agreed_key k).
Proof.
  intros Hk. set (s := fk_secret k (fk_pair k)). unfold get_key_agreement, build_request_extra. rewrite (io_bind_Ok_eq _ _ _ (mkPinResponse None (Some (eph_x s, eph_y s)) None) (agreed_key k)); [done|].
  rewrite pin_dispatch_run.
  2:{ split; [|cbn; unfold DECODE_DEPTH_LIMIT; lia]. cbn [app]. wf_leaves; first [apply protocol_word|by_decision]. }
  unfold key_client_pin. destruct (client_pin_fields (version (protocol_of k)) SUB_GET_KEY_AGREEMENT []) as [-> ->].
  change (SUB_GET_KEY_AGREEMENT =? 1) with false. change (SUB_GET_KEY_AGREEMENT =? 2) with true. cbv iota.
  rewrite bool_decide_eq_true_2 by apply (fo_protocols k Hk). cbn [negb]. cbv zeta. fold s. fold (cose_of s). rewrite read_reply.
  - by rewrite cose_read.
  - split; [|cbn; unfold DECODE_DEPTH_LIMIT; lia]. apply wf_map; [|by_decision]. apply Forall_cons_2; [|apply Forall_nil_2].
    split; [by constructor|apply cose_wf].
Qed.

Lemma key_agreement_run k our : fido_ok k -> exists proto,
  key_agreement (protocol_of k) our k = (Ok (proto, cose_of our), agreed_key k) /\ session_of k our proto.
Proof.
  intros Hk. destruct (agreed_both (is_v2 (version (protocol_of k))) our (fk_secret k (fk_pair k))) as (proto & Ho & Hs & _).
  exists proto. split; [|exact Hs]. unfold key_agreement. rewrite (io_bind_Ok_eq _ _ _ _ _ (get_key_agreement_run k Hk)).
  unfold agreed_on in Ho. rewrite <- cose_sent.
  assert ((match protocol_of k with V1 => shared_secret_v1 | V2 => shared_secret_v2 end) = (if is_v2 (version (protocol_of k)) then shared_secret_v2 else shared_secret_v1)) as Hp
    by (by destruct (protocol_of k)).
  rewrite Hp, Ho. done.
Qed.

(** A request with our public key, as the key sees it. *)
Lemma key_session_run k our proto extra sub : session_of k our proto ->
  key_session (version (protocol_of k))
    ([(UInt KEY_PIN_PROTOCOL, UInt (version (protocol_of k))); (UInt KEY_SUB_COMMAND, UInt sub)] ++ (UInt KEY_KEY_AGREEMENT, cose_of our) :: extra) (agreed_key k) = Some proto.
Proof.
  intros Hs. unfold key_session. cbn [agreed_key put_pair fk_agreed]. rewrite bool_decide_eq_true_2 by done. cbn [negb].
  change (fld _ KEY_KEY_AGREEMENT) with (Some (cose_of our)). cbv iota. unfold cose_of.
  change (nint_fld _ 1) with (Some (eph_x our)). change (nint_fld _ 2) with (Some (eph_y our)). cbn [mbind option_bind].
  change (fk_secret (agreed_key k) (fk_pair (agreed_key k))) with (fk_secret k (fk_pair k)). unfold session_of, agreed_on in Hs. by rewrite Hs.
Qed.

(** * Setting and changing the PIN *)

Lemma strip_pad pin n : 0 ∉ pin -> strip_zeros (pin ++ replicate n 0) = pin.
Proof.
  intros Hp. assert (strip_zeros (replicate n 0) = []) as Hz by (induction n as [|n IH]; [done|]; cbn; by rewrite IH).
  induction pin as [|b pin IH]; [done|]. apply not_elem_of_cons in Hp as [Hb Hp]. cbn [app strip_zeros]. rewrite IH by done.
  destruct pin; [|done]. by rewrite (proj2 (Z.eqb_neq b 0)) by done.
Qed.

Definition pin_ok (pin : list Z) : Prop := Bytes pin /\ 0 ∉ pin.

Lemma validate_pin_ok pin : validate_pin pin = Ok tt -> 4 <= zlen pin <= 63.
Proof. unfold validate_pin, between. destruct (negb _) eqn:E; [done|]. bools. lia. Qed.

(** A new PIN, padded and sealed, is opened as its hash. *)
Lemma new_pin_sealed proto iv pin : iv_ok iv -> pin_ok pin -> 4 <= zlen pin <= 63 ->
  exists padded enc, pad_pin_to_64 pin = Some padded /\ proto_encrypt proto iv padded = Some enc /\
    (forall accepts, new_pin_hash accepts proto enc = if accepts pin then inr (left16_sha256 pin) else inl 0x37) /\ Bytes enc /\ zlen enc <= 80.
Proof.
  intros Hiv [Hb Hz] Hl. unfold pad_pin_to_64. rewrite (proj2 (Z.ltb_lt _ _)) by lia.
  set (padded := pin ++ replicate (64 - length pin) 0). assert (zlen padded = 64) as Hp by (subst padded; unfold zlen in *; rewrite length_app, length_replicate; lia).
  destruct (encrypt_back proto iv padded Hiv) as (enc & He & Hd & Hbe & Hle).
  - apply Forall_app. split; [done|]. apply Forall_replicate. by_decision.
  - by rewrite Hp.
  - intros E. rewrite E in Hp. by change (zlen (@nil Z)) with 0 in Hp.
  - exists padded, enc. split; [done|]. split; [done|]. split; [|split; [done|lia]]. intros accepts. unfold new_pin_hash. rewrite Hd, Hp.
    change (negb (64 =? 64)) with false. cbv iota zeta. subst padded. rewrite strip_pad by done. by destruct (accepts pin).
Qed.

Lemma hash_sealed proto iv pin : iv_ok iv ->
  exists enc, proto_encrypt proto iv (left16_sha256 pin) = Some enc /\ proto_decrypt proto enc = Ok (left16_sha256 pin) /\ Bytes enc /\ zlen enc <= 32.
Proof.
  intros Hiv. destruct (left16_out pin) as [Hb Hl]. destruct (encrypt_back proto iv (left16_sha256 pin) Hiv Hb) as (enc & He & Hd & Hbe & Hle).
  - by rewrite Hl.
  - intros E. rewrite E in Hl. by change (zlen (@nil Z)) with 0 in Hl.
  - exists enc. rewrite Hl in Hle. by repeat split.
Qed.

Lemma short_bytes_wf b : Bytes b -> zlen b <= 100 -> wf (VBytes b).
Proof. intros Hb Hl. constructor; [done|lia]. Qed.

Lemma agreed_ok k : fido_ok k -> fido_ok (agreed_key k).
Proof. intros []. by split. Qed.
Lemma put_pin_ok pin tries force k : fido_ok k -> 0 <= tries <= 8 -> fido_ok (put_pin pin tries force k).
Proof. intros [] Ht. by split. Qed.
Lemma put_tries_ok tries streak k : fido_ok k -> 0 <= tries <= 8 -> 0 <= streak <= 3 -> fido_ok (put_tries tries streak k).
Proof. intros [] Ht Hs. by split. Qed.

(** An entry of a request other than the public key. *)
Definition plain_field (kv : Value * Value) : Prop := (exists n, kv.1 = UInt n /\ is_word 64 n) /\ wf kv.2 /\ depth kv.2 = 0%nat.
Lemma bytes_field n b : is_word 64 n -> Bytes b -> zlen b <= 100 -> plain_field (UInt n, VBytes b).
Proof. intros. split; [by exists n|]. split; [by apply short_bytes_wf|done]. Qed.

Lemma pin_request_shallow k our sub extra : is_word 64 sub -> Forall plain_field extra -> (length extra <= 10)%nat ->
  shallow ([(UInt KEY_PIN_PROTOCOL, UInt (version (protocol_of k))); (UInt KEY_SUB_COMMAND, UInt sub)] ++ (UInt KEY_KEY_AGREEMENT, cose_of our) :: extra).
Proof.
  intros Hs Hf Hl. assert (fold_right (fun kv d => Nat.max (Nat.max (depth kv.1) (depth kv.2)) d) 0%nat extra = 0%nat) as Hd.
  { clear Hl. induction Hf as [|[k1 v1] extra ((n & Hn & _) & _ & Hb) Hf IH]; [done|]. cbn in *. by rewrite Hn, Hb, IH. }
  split.
  - cbn [app]. apply wf_map; [|unfold zlen; cbn; lia]. apply Forall_cons_2; [split; apply wf_uint; [by_decision|apply protocol_word]|].
    apply Forall_cons_2; [split; apply wf_uint; [by_decision|done]|]. apply Forall_cons_2; [split; [apply wf_uint; by_decision|apply cose_wf]|].
    eapply list.Forall_impl; [exact Hf|]. intros [k1 v1] ((n & Hn & Hw) & Hv & _). cbn [fst snd] in *. subst k1. split; [by constructor|done].
  - cbn [app]. cbn -[cose_of]. rewrite Hd. cbn. unfold DECODE_DEPTH_LIMIT. lia.
Qed.

(** A request under the key pair that was handed out. *)
Definition pin_request (k : FidoKey) (our : EphemeralSecret) (sub : Z) (extra : list (Value * Value)) : list (Value * Value) :=
  [(UInt KEY_PIN_PROTOCOL, UInt (version (protocol_of k))); (UInt KEY_SUB_COMMAND, UInt sub)] ++ (UInt KEY_KEY_AGREEMENT, cose_of our) :: extra.

Lemma key_client_pin_run k our proto sub extra : fido_ok k -> session_of k our proto -> sub <> 1 -> sub <> 2 ->
  let m := pin_request k our sub extra in
  key_client_pin m (agreed_key k) =
  if sub =? 3 then key_set_pin proto m (agreed_key k)
  else if sub =? 4 then key_change_pin proto m (agreed_key k)
  else if sub =? 5 then key_issue (version (protocol_of k)) proto (if fk_strict k then 0x03 else 0xFF) m (agreed_key k)
  else if (sub =? 9) && fk_strict k then
    match fld m KEY_PERMISSIONS with Some (UInt p) => if p =? 0 then refuse 0x02 (agreed_key k) else key_issue (version (protocol_of k)) proto p m (agreed_key k) | _ => refuse 0x14 (agreed_key k) end
  else refuse 0x3E (agreed_key k).
Proof.
  intros Hk Hs Hne1 Hne2 m. unfold key_client_pin. destruct (client_pin_fields (version (protocol_of k)) sub ((UInt KEY_KEY_AGREEMENT, cose_of our) :: extra)) as [Hf1 Hf2].
  fold (pin_request k our sub extra) in Hf1, Hf2. subst m. rewrite Hf1, Hf2. rewrite (proj2 (Z.eqb_neq _ _) Hne1), (proj2 (Z.eqb_neq _ _) Hne2).
  rewrite bool_decide_eq_true_2 by apply (fo_protocols k Hk). cbn [negb]. unfold pin_request at 1. by rewrite (key_session_run k our proto extra sub Hs).
Qed.

Lemma calls_run {A} (m : io FidoKey CtapError A) k r k' : m k = (r, k') -> calls m k = (map_err Some r, k').
Proof. unfold calls, io_map_err. by intros ->. Qed.

(** What a command that only looks at the status returns. *)
Definition status_result (a : answer) : result (option CtapError) unit * FidoKey :=
  (map_err Some (_ ← read_pin_answer a.1; Ok tt), a.2).

(** The steps every command starts with, and a request that ends it. *)
Lemma agree_bind r k : fido_ok k -> exists proto, session_of k (pr_secret r) proto /\
  forall B (f : PinProtocol * Value -> kio B), (x ← calls (key_agreement (protocol_of k) (pr_secret r)); f x) k = f (proto, cose_of (pr_secret r)) (agreed_key k).
Proof.
  intros Hk. destruct (key_agreement_run k (pr_secret r) Hk) as (proto & Ha & Hs). exists proto. split; [done|].
  intros B f. apply (io_bind_Ok_eq (calls _) _ _ _ _ (calls_run _ _ _ _ Ha)).
Qed.
Lemma negotiate_bind {B} (f : SelectedPinProtocol -> kio B) k : fido_ok k -> (x ← calls negotiate_protocol; f x) k = f (protocol_of k) k.
Proof. intros Hk. apply (io_bind_Ok_eq (calls _) _ _ _ _ (calls_run _ _ _ _ (negotiate_run k Hk))). Qed.
Lemma asserted_bind {A B} (a : A) (f : A -> kio B) k o : o = Some a -> (x ← asserted o; f x) k = f a k.
Proof. by intros ->. Qed.

Lemma status_bind k our sub extra : is_word 64 sub -> Forall plain_field extra -> (length extra <= 10)%nat ->
  (_ ← calls (pin_dispatch (build_request_extra (version (protocol_of k)) sub ((UInt KEY_KEY_AGREEMENT, cose_of our) :: extra))); mret (M := kio) tt) (agreed_key k) =
  status_result (key_client_pin (pin_request k our sub extra) (agreed_key k)).
Proof.
  intros Hs Hf Hl. unfold build_request_extra, calls, mbind, io_bind, io_map_err. fold (pin_request k our sub extra).
  rewrite pin_dispatch_run by (by apply pin_request_shallow). unfold status_result. by destruct (read_pin_answer _).
Qed.

Lemma status_refused n k : n <> 0 -> status_result (refuse n k) = (Err (Some (StatusCode n)), k).
Proof. intros Hn. unfold status_result. by rewrite read_refused. Qed.

Lemma fields_set k our auth enc :
  let m := pin_request k our SUB_SET_PIN [(UInt KEY_PIN_UV_AUTH_PARAM, VBytes auth); (UInt KEY_NEW_PIN_ENC, VBytes enc)] in
  fld_bytes m KEY_PIN_UV_AUTH_PARAM = Some auth /\ fld_bytes m KEY_NEW_PIN_ENC = Some enc.
Proof. done. Qed.

Lemma store_pin_sim r pin k : random_ok r -> pin_ok pin -> fido_ok k -> simulates (set_pin r pin) (spec_set_pin (fk_accepts k) pin) k.
Proof.
  intros Hr Hp Hk. unfold simulates, set_pin, spec_set_pin, spec_valid, fallible.
  destruct (validate_pin pin) as [[]|e] eqn:Hv; [|by simulated].
  rewrite (io_bind_Ok_eq (calls (lift (Ok tt))) _ _ tt k) by done. rewrite (negotiate_bind _ k Hk).
  destruct (agree_bind r k Hk) as (proto & Hs & Hagree). rewrite Hagree.
  destruct (new_pin_sealed proto (pr_iv r 0) pin (Hr 0%nat) Hp (validate_pin_ok _ Hv)) as (padded & enc & Hpad & Henc & Hopen & Hbe & Hle).
  cbv beta iota. rewrite (asserted_bind padded) by done. rewrite (asserted_bind enc) by done. cbv zeta.
  destruct (authenticate_len proto enc) as [Hab Hal].
  rewrite status_bind; [|by_decision|repeat (apply Forall_cons_2; [apply bytes_field; [by_decision|done|lia]|]); apply Forall_nil_2|cbn; lia].
  rewrite key_client_pin_run with (proto := proto) by done. change (SUB_SET_PIN =? 3) with true. cbv iota. unfold key_set_pin.
  destruct (fields_set k (pr_secret r) (proto_authenticate proto enc) enc) as [-> ->].
  cbn [lift map_err]. rewrite io_lift_bind, io_gets_bind. cbn [abs ps_pin]. change (fk_pin (agreed_key k)) with (fk_pin k).
  rewrite (bool_decide_eq_true_2 (proto_authenticate proto enc = _)) by done. cbn [negb]. rewrite orb_false_r. destruct (negb (bool_decide (fk_pin k = None))) eqn:Hset.
  - rewrite status_refused by done. simulated. by apply agreed_ok.
  - rewrite Hopen. unfold spec_store_pin. change (fk_accepts (agreed_key k)) with (fk_accepts k). destruct (fk_accepts k pin).
    + simulated. apply put_pin_ok; [by apply agreed_ok|done].
    + rewrite status_refused by done. simulated. by apply agreed_ok.
Qed.

(** The PIN proof, as the key checks it. *)
Lemma with_proof_run proto enc pin k (f : FidoKey -> answer) : fido_ok k -> proto_decrypt proto enc = Ok (left16_sha256 pin) ->
  match spec_proof pin (abs k) with
  | (Ok _, s) => exists k', with_proof proto enc k f = f k' /\ abs k' = s /\ fido_ok k' /\ same_key k k'
  | (Err e, s) => exists status k', e = Some (StatusCode status) /\ status <> 0 /\ status <> 0x37 /\
      with_proof proto enc k f = refuse status k' /\ abs k' = s /\ fido_ok k' /\ same_key k k'
  end.
Proof.
  intros Hk Hd. unfold with_proof, spec_proof. cbn [abs ps_pin ps_tries ps_streak ps_force ps_issued ps_grant]. rewrite Hd. cbn [result_ok].
  pose proof (fo_tries k Hk) as [Ht Hst].
  assert (forall a b : list Z, bool_decide (Some a = Some b) = bool_decide (a = b)) as Hb by (intros a b; apply bool_decide_ext; split; congruence).
  destruct (fk_pin k) as [h|] eqn:Hpin; [|by exists 0x35, k].
  destruct (fk_tries k =? 0) eqn:Hz; [by exists 0x32, k|]. destruct (3 <=? fk_streak k) eqn:Hstreak; [by exists 0x34, k|].
  rewrite Hb. bools. case_bool_decide; cbn [refused lift].
  - exists (put_pin (Some h) 8 (fk_force k) k). split; [done|]. split; [done|]. by split; [apply put_pin_ok|].
  - cbn zeta. change (fk_tries (put_pair _ _ (put_tries ?t ?s k))) with t. change (fk_streak (put_pair _ _ (put_tries ?t ?s k))) with s.
    assert ((fk_tries k - 1 =? 0) = (fk_tries k =? 1)) as -> by lia. assert ((3 <=? fk_streak k + 1) = (fk_streak k =? 2)) as -> by lia.
    eexists _, _. split; [done|]. assert (forall a b : bool, (if a then 50 else if b then 52 else 49) <> 0 /\ (if a then 50 else if b then 52 else 49) <> 0x37) as Hne by (by intros [] []).
    split; [apply Hne|]. split; [apply Hne|]. split; [done|]. unfold abs. cbn. rewrite Hpin. split; [done|]. split; [|done].
    assert (fido_ok (put_tries (fk_tries k - 1) (fk_streak k + 1) k)) as []; [|by split]. apply put_tries_ok; [done|lia..].
Qed.

Lemma fields_change k our auth enc hash :
  let m := pin_request k our SUB_CHANGE_PIN [(UInt KEY_PIN_UV_AUTH_PARAM, VBytes auth); (UInt KEY_NEW_PIN_ENC, VBytes enc); (UInt KEY_PIN_HASH_ENC, VBytes hash)] in
  fld_bytes m KEY_PIN_UV_AUTH_PARAM = Some auth /\ fld_bytes m KEY_NEW_PIN_ENC = Some enc /\ fld_bytes m KEY_PIN_HASH_ENC = Some hash.
Proof. done. Qed.

Lemma same_agreed k k' : same_key (agreed_key k) k' -> same_key k k'.
Proof. done. Qed.

Lemma replace_pin_sim r old new k : random_ok r -> pin_ok new -> fido_ok k -> simulates (change_pin r old new) (spec_change_pin (fk_accepts k) old new) k.
Proof.
  intros Hr Hp Hk. unfold simulates, change_pin, spec_change_pin, spec_valid, fallible.
  destruct (validate_pin new) as [[]|e] eqn:Hv; [|by simulated].
  rewrite (io_bind_Ok_eq (calls (lift (Ok tt))) _ _ tt k) by done. rewrite (negotiate_bind _ k Hk).
  destruct (agree_bind r k Hk) as (proto & Hs & Hagree). rewrite Hagree.
  destruct (new_pin_sealed proto (pr_iv r 0) new (Hr 0%nat) Hp (validate_pin_ok _ Hv)) as (padded & enc & Hpad & Henc & Hopen & Hbe & Hle).
  destruct (hash_sealed proto (pr_iv r 1) old (Hr 1%nat)) as (hash & Hhash & Hdec & Hbh & Hlh).
  cbv beta iota. rewrite (asserted_bind padded) by done. rewrite (asserted_bind enc) by done. rewrite (asserted_bind hash) by done. cbv zeta.
  destruct (authenticate_len proto (enc ++ hash)) as [Hab Hal].
  rewrite status_bind; [|by_decision|repeat (apply Forall_cons_2; [apply bytes_field; [by_decision|done|lia]|]); apply Forall_nil_2|cbn; lia].
  rewrite key_client_pin_run with (proto := proto) by done. change (SUB_CHANGE_PIN =? 3) with false. change (SUB_CHANGE_PIN =? 4) with true.
  cbv iota. unfold key_change_pin. destruct (fields_change k (pr_secret r) (proto_authenticate proto (enc ++ hash)) enc hash) as (-> & -> & ->).
  rewrite bool_decide_eq_true_2 by done. cbn [negb lift map_err]. rewrite io_lift_bind. unfold mbind, io_bind.
  pose proof (with_proof_run proto hash old (agreed_key k) (fun k => match new_pin_hash (fk_accepts k) proto enc with inl s => refuse s k | inr h => done_ok (put_pin (Some h) 8 false k) end)
    (agreed_ok k Hk) Hdec) as Hproof. change (abs (agreed_key k)) with (abs k) in Hproof.
  destruct (spec_proof old (abs k)) as [[[]|e] st].
  - destruct Hproof as (k' & -> & <- & Hok & Hsame). rewrite Hopen. unfold spec_store_pin.
    assert (fk_accepts k' = fk_accepts k) as -> by (by destruct Hsame as (_ & _ & _ & _ & Ha & _)). destruct (fk_accepts k new).
    + simulated. by apply put_pin_ok.
    + rewrite status_refused by done. by simulated.
  - destruct Hproof as (status & k' & -> & Hne & _ & -> & <- & Hok & Hsame). rewrite status_refused by done. by simulated.
Qed.

(** * Tokens *)

Lemma token_shallow b : Bytes b -> zlen b <= 100 -> shallow [(UInt 2, VBytes b)].
Proof.
  intros Hb Hl. split; [|cbn; unfold DECODE_DEPTH_LIMIT; lia]. wf_leaves; [by_decision|by apply short_bytes_wf].
Qed.

Lemma issued_token k proto n iv : fido_ok k -> iv_ok iv ->
  exists enc, proto_encrypt proto iv (fk_token k n) = Some enc /\ Bytes enc /\ zlen enc <= 100 /\
    forall what, received_token what proto (protocol_of k) (mkPinResponse None None (Some enc)) = Ok (mkToken (version (protocol_of k)) (fk_token k n)).
Proof.
  intros Hk Hiv. destruct (fo_tokens k Hk n) as [Hb Hl]. destruct (encrypt_back proto iv (fk_token k n) Hiv Hb) as (enc & He & Hd & Hbe & Hle).
  - destruct Hl as [-> | ->]; done.
  - intros E. rewrite E in Hl. change (zlen (@nil Z)) with 0 in Hl. lia.
  - exists enc. split; [done|]. split; [done|]. split; [lia|]. intros what. unfold received_token. cbn [pr_pin_token_enc ok_or mbind result_bind].
    rewrite Hd. cbn [map_err mbind result_bind]. unfold check_token_len. destruct Hl as [-> | ->]; done.
Qed.

(** The answer to a token request, and what the client makes of it. *)
Definition token_result (what : list Z) (proto : PinProtocol) (chosen : SelectedPinProtocol) (a : answer) : result (option CtapError) PinUvAuthToken * FidoKey :=
  (map_err Some (resp ← map_err (fun e => match e with StatusCode c => if c =? 0x37 then PinChangeRequired else e | _ => e end) (read_pin_answer a.1);
     received_token what proto chosen resp), a.2).

Lemma token_bind what k our proto sub extra : shallow (pin_request k our sub extra) ->
  (resp ← calls (dispatch_token_request (build_request_extra (version (protocol_of k)) sub ((UInt KEY_KEY_AGREEMENT, cose_of our) :: extra)));
   fallible (received_token what proto (protocol_of k) resp)) (agreed_key k) =
  token_result what proto (protocol_of k) (key_client_pin (pin_request k our sub extra) (agreed_key k)).
Proof.
  intros Hsh. unfold build_request_extra, calls, mbind, io_bind, dispatch_token_request, io_map_err. fold (pin_request k our sub extra).
  rewrite pin_dispatch_run by done. unfold token_result. by destruct (read_pin_answer _).
Qed.

Lemma issue_run what k proto permissions m pin hash : fido_ok k -> fld_bytes m KEY_PIN_HASH_ENC = Some hash -> proto_decrypt proto hash = Ok (left16_sha256 pin) ->
  let '(r, k') := token_result what proto (protocol_of k) (key_issue (version (protocol_of k)) proto permissions m (agreed_key k)) in
  let '(r', s) := spec_token (version (protocol_of k)) (fk_token k) pin permissions (abs k) in
  r = r' /\ abs k' = s /\ fido_ok k' /\ same_key k k'.
Proof.
  intros Hk Hf Hd. unfold key_issue. rewrite Hf.
  pose proof (with_proof_run proto hash pin (agreed_key k) (fun k0 => if fk_force k0 then refuse 0x37 k0 else
        match proto_encrypt proto (fk_iv k0 (fk_issued k0)) (fk_token k0 (fk_issued k0)) with
        | Some enc => reply [(UInt 2, VBytes enc)] (put_grant (S (fk_issued k0)) (Some (version (protocol_of k), permissions)) k0)
        | None => refuse 0x7F k0
        end) (agreed_ok k Hk) Hd) as Hproof. change (abs (agreed_key k)) with (abs k) in Hproof.
  unfold spec_token, mbind, io_bind. destruct (spec_proof pin (abs k)) as [[[]|e] st].
  - destruct Hproof as (k' & -> & <- & Hok & Hsame). cbn [io_gets abs ps_force ps_issued]. destruct (fk_force k') eqn:Hforce; [by simulated|].
    pose proof Hsame as (Hpr & _ & _ & Htok & _).
    destruct (issued_token k' proto (fk_issued k') (fk_iv k' (fk_issued k')) Hok (fo_ivs k' Hok _)) as (enc & -> & Hbe & Hle & Hrec).
    unfold token_result. rewrite read_reply by (by apply token_shallow). cbn [map_err]. unfold protocol_of in Hrec. rewrite Hpr, Htok in Hrec.
    change (fk_protocols (agreed_key k)) with (fk_protocols k) in Hrec. fold (protocol_of k) in Hrec. change (fk_token (agreed_key k)) with (fk_token k) in Hrec.
    cbn [parse_pin_response as_map ok_or mbind result_bind fold_left pin_response_entry default_response as_uint fst snd as_bytes].
    change (2 =? 0x01) with false. change (2 =? 0x02) with true. cbv iota. cbn [map_err mbind result_bind]. rewrite Hrec. simulated. destruct Hok. by split.
  - destruct Hproof as (status & k' & -> & Hne & Hne2 & -> & <- & Hok & Hsame). unfold token_result. rewrite read_refused by done. cbn [map_err].
    rewrite (proj2 (Z.eqb_neq _ _) Hne2). by simulated.
Qed.

Lemma legacy_sim r pin k : random_ok r -> fido_ok k ->
  simulates (token_legacy r pin (protocol_of k)) (spec_token (version (protocol_of k)) (fk_token k) pin (if fk_strict k then 0x03 else 0xFF)) k.
Proof.
  intros Hr Hk. unfold simulates, token_legacy. destruct (agree_bind r k Hk) as (proto & Hs & Hagree). rewrite Hagree.
  destruct (hash_sealed proto (pr_iv r 0) pin (Hr 0%nat)) as (hash & Hhash & Hdec & Hbh & Hlh).
  cbv beta iota. rewrite (asserted_bind hash) by done. cbv zeta.
  rewrite token_bind by (apply pin_request_shallow; [by_decision|apply Forall_cons_2; [apply bytes_field; [by_decision|done|lia]|apply Forall_nil_2]|cbn; lia]).
  rewrite key_client_pin_run with (proto := proto) by done. change (SUB_GET_PIN_TOKEN =? 3) with false. change (SUB_GET_PIN_TOKEN =? 4) with false.
  change (SUB_GET_PIN_TOKEN =? 5) with true. cbv iota.
  pose proof (issue_run (s2b "pinToken") k proto (if fk_strict k then 0x03 else 0xFF) (pin_request k (pr_secret r) SUB_GET_PIN_TOKEN [(UInt KEY_PIN_HASH_ENC, VBytes hash)])
    pin hash Hk eq_refl Hdec) as Hrun.
  destruct (token_result _ _ _ _) as [res k'], (spec_token _ _ _ _ _) as [res' st]. exact Hrun.
Qed.

Lemma permissions_sim r pin permissions k : random_ok r -> fido_ok k -> fk_strict k = true -> is_word 64 permissions ->
  simulates (token_with_permissions r pin permissions None (protocol_of k))
    (if permissions =? 0 then refused 0x02 else spec_token (version (protocol_of k)) (fk_token k) pin permissions) k.
Proof.
  intros Hr Hk Hstrict Hp. unfold simulates, token_with_permissions. destruct (agree_bind r k Hk) as (proto & Hs & Hagree). rewrite Hagree.
  destruct (hash_sealed proto (pr_iv r 0) pin (Hr 0%nat)) as (hash & Hhash & Hdec & Hbh & Hlh).
  cbv beta iota. rewrite (asserted_bind hash) by done. cbv zeta. unfold pin_uv_auth_token_extra. cbn [app].
  rewrite token_bind.
  2:{ apply pin_request_shallow; [by_decision| |cbn; lia]. apply Forall_cons_2; [apply bytes_field; [by_decision|done|lia]|].
      apply Forall_cons_2; [|apply Forall_nil_2]. split; [exists KEY_PERMISSIONS; split; [done|by_decision]|]. split; [by constructor|done]. }
  rewrite key_client_pin_run with (proto := proto) by done. change (SUB_GET_PIN_UV_AUTH_TOKEN_USING_PIN =? 3) with false.
  change (SUB_GET_PIN_UV_AUTH_TOKEN_USING_PIN =? 4) with false. change (SUB_GET_PIN_UV_AUTH_TOKEN_USING_PIN =? 5) with false.
  rewrite Hstrict. change ((SUB_GET_PIN_UV_AUTH_TOKEN_USING_PIN =? 9) && true) with true. cbv iota.
  set (m := pin_request k (pr_secret r) _ _). change (fld m KEY_PERMISSIONS) with (Some (UInt permissions)). cbv iota.
  destruct (permissions =? 0); [unfold token_result; rewrite read_refused by done; simulated; by apply agreed_ok|].
  pose proof (issue_run (s2b "pinUvAuthToken") k proto permissions m pin hash Hk eq_refl Hdec) as Hrun.
  destruct (token_result _ _ _ _) as [res k'], (spec_token _ _ _ _ _) as [res' st]. exact Hrun.
Qed.

(** What unlocking with getInfo first promises. *)
Definition spec_unlock (strict : bool) (protocol : Z) (token : nat -> list Z) (pin : list Z) (permissions : Z) : io PinState (option CtapError) PinUvAuthToken :=
  force ← io_gets ps_force;
  if force : bool then lift (Err (Some PinChangeRequired)) else
  if strict && (permissions =? 0) then refused 0x02 else spec_token protocol token pin (if strict then permissions else 0xFF).
Definition unlock_with_info (r : PinRandom) (pin : list Z) (permissions : Z) : kio PinUvAuthToken :=
  info ← calls get_info; get_pin_uv_auth_token r pin info permissions.

Lemma unlock_info_sim r pin permissions k : random_ok r -> fido_ok k -> is_word 64 permissions ->
  simulates (unlock_with_info r pin permissions) (spec_unlock (fk_strict k) (version (protocol_of k)) (fk_token k) pin permissions) k.
Proof.
  intros Hr Hk Hp. unfold simulates, unlock_with_info, spec_unlock. rewrite (io_bind_Ok_eq (calls get_info) _ _ _ _ (calls_run _ _ _ _ (get_info_run k Hk))).
  rewrite io_gets_bind. unfold get_pin_uv_auth_token. change (force_pin_change (info_of_map (key_info k))) with (Some (fk_force k)). cbn [abs ps_force].
  destruct (fk_force k) eqn:Hf; [rewrite bool_decide_eq_true_2 by done; by simulated|]. rewrite bool_decide_eq_false_2 by done.
  change (pin_uv_auth_protocols (info_of_map (key_info k))) with (omap as_uint (map UInt (fk_protocols k))). rewrite uints_back. fold (protocol_of k).
  change (option_flag (info_of_map (key_info k)) (s2b "pinUvAuthToken")) with (Some (fk_strict k)).
  destruct (fk_strict k) eqn:Hstrict; cbv iota.
  - rewrite bool_decide_eq_true_2 by done. by apply permissions_sim.
  - rewrite bool_decide_eq_false_2 by done. pose proof (legacy_sim r pin k Hr Hk) as Hl. by rewrite Hstrict in Hl.
Qed.

Lemma retries_run k : fido_ok k -> get_pin_retries k = (Ok (fk_tries k), k).
Proof.
  intros Hk. pose proof (fo_tries k Hk) as [Ht _]. unfold get_pin_retries, build_request_extra.
  rewrite (io_bind_Ok_eq _ _ _ (mkPinResponse (Some (fk_tries k)) None None) k); [done|]. rewrite pin_dispatch_run.
  2:{ split; [|cbn; unfold DECODE_DEPTH_LIMIT; lia]. cbn [app]. wf_leaves; by_decision. }
  unfold key_client_pin. destruct (client_pin_fields PIN_PROTOCOL_V1 SUB_GET_PIN_RETRIES []) as [-> ->]. change (SUB_GET_PIN_RETRIES =? 1) with true. cbv iota.
  rewrite read_reply.
  - unfold parse_pin_response. cbn [as_map ok_or mbind result_bind fold_left pin_response_entry default_response as_uint fst snd].
    change (3 =? 0x01) with false. change (3 =? 0x02) with false. change (3 =? 0x03) with true. cbn [fmap option_fmap option_map reply fst snd].
    by rewrite cast_small by (unfold is_word; lia).
  - split; [|cbn; unfold DECODE_DEPTH_LIMIT; lia]. wf_leaves; [by_decision|unfold is_word; lia].
Qed.

(** * Sequences *)

Inductive PinOp :=
  | PRetries
  | PSet (pin : list Z)
  | PChange (old new : list Z)
  | PToken (pin : list Z)                          (* without reading getInfo's options *)
  | PUnlock (pin : list Z) (permissions : Z)       (* as getInfo says *)
  | PReplug.                                       (* the key is unplugged and plugged in again *)
Inductive PinAnswer := PDone | PTries (n : Z) | PGranted (token : PinUvAuthToken).

Definition answers {S A} (f : A -> PinAnswer) (m : io S (option CtapError) A) : io S (option CtapError) PinAnswer := a ← m; mret (f a).
Definition pin_op (r : PinRandom) (op : PinOp) : kio PinAnswer :=
  match op with
  | PRetries => answers PTries (calls get_pin_retries)
  | PSet pin => answers (fun _ => PDone) (set_pin r pin)
  | PChange old new => answers (fun _ => PDone) (change_pin r old new)
  | PToken pin => answers PGranted (get_pin_token r pin)
  | PUnlock pin permissions => answers PGranted (unlock_with_info r pin permissions)
  | PReplug => answers (fun _ => PDone) (io_modify power_cycle)
  end.
Definition spec_replug (s : PinState) : PinState := mkPinState (ps_pin s) (ps_tries s) 0 (ps_force s) (ps_issued s) None.
Definition spec_pin_op (strict : bool) (protocol : Z) (token : nat -> list Z) (accepts : list Z -> bool) (op : PinOp) : io PinState (option CtapError) PinAnswer :=
  match op with
  | PRetries => answers PTries (io_gets ps_tries)
  | PSet pin => answers (fun _ => PDone) (spec_set_pin accepts pin)
  | PChange old new => answers (fun _ => PDone) (spec_change_pin accepts old new)
  | PToken pin => answers PGranted (spec_token protocol token pin (if strict then 0x03 else 0xFF))
  | PUnlock pin permissions => answers PGranted (spec_unlock strict protocol token pin permissions)
  | PReplug => answers (fun _ => PDone) (io_modify spec_replug)
  end.
Definition pin_op_ok (op : PinOp) : Prop :=
  match op with
  | PSet pin | PChange _ pin => pin_ok pin
  | PUnlock _ permissions => is_word 64 permissions
  | PRetries | PToken _ | PReplug => True
  end.

(** Every operation in turn, whatever the others gave; the [n]th draws [rs n]. *)
Fixpoint run_pin_ops {S E A} (step : nat -> PinOp -> io S E A) (n : nat) (ops : list PinOp) (s : S) : list (result E A) * S :=
  match ops with
  | [] => ([], s)
  | op :: ops => let '(r, s) := step n op s in let '(rs, s) := run_pin_ops step (Datatypes.S n) ops s in (r :: rs, s)
  end.

Lemma answers_sim {A} (f : A -> PinAnswer) m sp k : simulates m sp k -> simulates (answers f m) (answers f sp) k.
Proof.
  unfold simulates, answers, mbind, io_bind. intros (Hr & Ha & Hok). destruct (m k) as [r k'], (sp (abs k)) as [r' s]. cbn [fst snd] in *. subst r' s.
  by destruct r.
Qed.
Lemma pin_op_sim r op k : random_ok r -> pin_op_ok op -> fido_ok k ->
  simulates (pin_op r op) (spec_pin_op (fk_strict k) (version (protocol_of k)) (fk_token k) (fk_accepts k) op) k.
Proof.
  intros Hr Hop Hk. destruct op as [|pin|old new|pin|pin permissions|]; cbn [pin_op spec_pin_op]; apply answers_sim.
  - unfold simulates. rewrite (calls_run _ _ _ _ (retries_run k Hk)). by simulated.
  - by apply store_pin_sim.
  - by apply replace_pin_sim.
  - unfold get_pin_token, simulates. rewrite (negotiate_bind _ k Hk). by apply legacy_sim.
  - by apply unlock_info_sim.
  - simulated. destruct Hk as [? ? ? ? []]. by split.
Qed.

Lemma run_pin_ops_sim rs ops : (forall n, random_ok (rs n)) -> Forall pin_op_ok ops -> forall n k0 k, fido_ok k -> same_key k0 k ->
  let spec := spec_pin_op (fk_strict k0) (version (protocol_of k0)) (fk_token k0) (fk_accepts k0) in
  (run_pin_ops (fun n => pin_op (rs n)) n ops k).1 = (run_pin_ops (fun _ => spec) n ops (abs k)).1 /\
  abs (run_pin_ops (fun n => pin_op (rs n)) n ops k).2 = (run_pin_ops (fun _ => spec) n ops (abs k)).2.
Proof.
  intros Hrs Hops. induction Hops as [|op ops Hop Hops IH]; intros n k0 k Hk Hsame; [done|]. cbn [run_pin_ops].
  destruct (pin_op_sim (rs n) op k (Hrs n) Hop Hk) as (Hr & Ha & Hok & Hs).
  destruct Hsame as (Hp & Hst & Hpre & Ht & Hac & Hpa & Hro). unfold protocol_of in *. rewrite Hp, Hst, Ht, Hac in *.
  destruct (pin_op (rs n) op k) as [r k'], (spec_pin_op _ _ _ _ op (abs k)) as [r' st]. cbn [fst snd] in *. subst r' st.
  destruct (IH (S n) k0 k') as [IHr IHa]; [done| |].
  { destruct Hs as (Hp' & Hst' & Hpre' & Ht' & Hac' & Hpa' & Hro'). repeat split; congruence. }
  destruct (run_pin_ops (fun n => pin_op (rs n)) (S n) ops k') as [rs1 k1], (run_pin_ops _ (S n) ops (abs k')) as [rs2 s2]. cbn [fst snd] in *. by subst.
Qed.

(** * Properties *)

(** C24: the PIN commands do to an authenticator what they say. Take the reference
    authenticator of FidoKey, which answers as CTAP 2.1 lays down: whichever of the
    two PIN protocols it prefers, whether or not its tokens carry permissions,
    whatever new PINs its policy accepts, and whatever attempts it has left. For
    every sequence of reading the attempts left, setting and changing the PIN,
    asking for tokens and plugging the key in again, with right PINs, wrong ones and
    PINs of a wrong length, the host's commands give result by result what a plain
    record of the PIN gives. The PIN set is the PIN that then opens the key, and one
    the policy refuses is said so (0x37). A wrong one costs one attempt and changes
    nothing else: it is answered 0x31, or 0x34 when it is the third in a row and
    0x32 when it was the last attempt. Then 0x34 answers every PIN until the key is
    plugged in again and 0x32 every PIN for good, at no attempt. A missing PIN is
    said so, a token is the one the key issued, with the permissions asked for
    (none at all are refused where tokens carry them), and a key that wants its PIN
    changed gives none and says why, by whichever command. *)
Theorem ctap_pin_refines (k : FidoKey) (rs : nat -> PinRandom) (ops : list PinOp) :
  fido_ok k -> (forall n, random_ok (rs n)) -> Forall pin_op_ok ops ->
  let spec := spec_pin_op (fk_strict k) (version (protocol_of k)) (fk_token k) (fk_accepts k) in
  (run_pin_ops (fun n => pin_op (rs n)) 0 ops k).1 = (run_pin_ops (fun _ => spec) 0 ops (abs k)).1 /\
  abs (run_pin_ops (fun n => pin_op (rs n)) 0 ops k).2 = (run_pin_ops (fun _ => spec) 0 ops (abs k)).2.
Proof. intros Hk Hrs Hops. by apply run_pin_ops_sim. Qed.
End pins.
