(* ===== verification/FidoCreds.v ===== *)
(** Credential management against the reference authenticator: with a token of
    its PIN, the host lists and deletes exactly the passkeys the key holds. *)
From S2P Require Export FidoPin.

Section creds.
Context `{BlobCryptoLaws} `{PinCipherLaws}.
Local Notation kio := (io FidoKey CtapError).

(** * What the commands promise *)

Record Vault := mkVault { va_parties : list Party; va_room : Z }.
Definition vault_of (k : FidoKey) : Vault := mkVault (fk_parties k) (fk_room k).

Inductive CredOp :=
  | CMeta
  | CParties
  | CKeys (hash : list Z)
  | CDelete (id : list Z).
Inductive CredAnswer :=
  | AMeta (m : CredsMetadata)
  | AParties (l : list RelyingParty)
  | AKeys (l : list Credential)
  | ADeleted.

Definition listed_party (p : Party) : RelyingParty := mkRp (pt_id p) (pt_name p) (Some (pt_hash p)).
(** [allowed]: whether the token has the credential-management permission. *)
Definition spec_cred_op (allowed : bool) (op : CredOp) : io Vault CtapError CredAnswer := fun s =>
  if negb allowed then (Err (StatusCode 0x33), s) else
  match op with
  | CMeta => (Ok (AMeta (mkMetadata (zlen (flat_map pt_keys (va_parties s))) (va_room s))), s)
  | CParties => (Ok (AParties (map listed_party (va_parties s))), s)
  | CKeys hash => (Ok (AKeys (passkeys_of hash (va_parties s))), s)
  | CDelete id =>
      if has_passkey id (va_parties s) then (Ok ADeleted, mkVault (without_passkey id (va_parties s)) (va_room s + 1))
      else (Err (StatusCode CTAP2_ERR_NO_CREDENTIALS), s)
  end.
Definition cred_op (cm : CredentialManager) (op : CredOp) : kio CredAnswer :=
  match op with
  | CMeta => m ← metadata cm; mret (AMeta m)
  | CParties => l ← list_relying_parties cm; mret (AParties l)
  | CKeys hash => l ← list_credentials cm hash; mret (AKeys l)
  | CDelete id => _ ← CredMgmt.delete cm id; mret ADeleted
  end.
Definition cred_op_ok (op : CredOp) : Prop :=
  match op with
  | CKeys hash => Bytes hash /\ zlen hash = 32
  | CDelete id => Bytes id /\ zlen id < 2 ^ 64
  | _ => True
  end.

(** * The passkeys in order *)

Definition opt_text_ok (o : option (list Z)) : Prop := match o with Some s => wf (Text s) | None => True end.
Definition passkey_ok (c : Credential) : Prop :=
  wf (VBytes (credential_id c)) /\ wf (VBytes (u_id (cred_user c))) /\ opt_text_ok (u_name (cred_user c)) /\ opt_text_ok (u_display_name (cred_user c)) /\
  match cred_algorithm c with Some a => - 2 ^ 63 <= a < 2 ^ 63 | None => True end /\
  match large_blob_key c with Some b => Bytes b /\ zlen b = 32 | None => True end.
Definition party_ok (p : Party) : Prop :=
  wf (Text (pt_id p)) /\ opt_text_ok (pt_name p) /\ Bytes (pt_hash p) /\ zlen (pt_hash p) = 32 /\ Forall passkey_ok (pt_keys p).
Record vault_ok (s : Vault) : Prop := {
  vo_parties : Forall party_ok (va_parties s) /\ zlen (va_parties s) <= MAX_ENUMERATED;
  vo_keys : zlen (flat_map pt_keys (va_parties s)) <= MAX_ENUMERATED;
  vo_room : 0 <= va_room s /\ va_room s + zlen (flat_map pt_keys (va_parties s)) < 2 ^ 64
}.

(** An answer the host can decode: few entries, none deep. *)
Definition answer_ok (m : list (Value * Value)) : Prop :=
  Forall (fun kv => (wf kv.1 /\ wf kv.2) /\ (depth kv.1 <= 3 /\ depth kv.2 <= 3)%nat) m /\ (length m <= 8)%nat.
Lemma answer_shallow m : answer_ok m -> shallow m.
Proof.
  intros [Hm Hl]. split.
  - apply wf_map; [|unfold zlen; lia]. eapply list.Forall_impl; [exact Hm|]. by intros kv [? _].
  - assert (fold_right (fun kv d => Nat.max (Nat.max (depth kv.1) (depth kv.2)) d) 0%nat m <= 3)%nat as Hd.
    { clear Hl. induction Hm as [|kv m (_ & Hk & Hv) Hm IH]; cbn [fold_right]; lia. }
    destruct m as [|kv m]; [cbn; unfold DECODE_DEPTH_LIMIT; lia|]. cbn [depth]. unfold DECODE_DEPTH_LIMIT. cbn [fold_right] in *. lia.
Qed.
Lemma answer_total m key total : answer_ok m -> (length m <= 7)%nat -> is_word 64 key -> is_word 64 total -> answer_ok (m ++ [(UInt key, UInt total)]).
Proof.
  intros [Hm _] Hl Hk Ht. split; [|rewrite length_app; cbn; lia]. apply Forall_app. split; [done|]. apply Forall_cons_2; [|constructor].
  split; [split; by constructor|cbn; lia].
Qed.

Lemma read_ok m : answer_ok m -> decode_response (0 :: encode (Map m)) = Ok (Map m).
Proof.
  intros [Hw Hd]%answer_shallow. unfold decode_response. cbn [split_status mbind result_bind].
  change (negb (0 =? 0)) with false. cbv iota. rewrite bool_decide_eq_false_2 by apply encode_nonempty. by rewrite decode_encoded.
Qed.
Lemma read_err n : n <> 0 -> decode_response [n] = Err (StatusCode n).
Proof. intros Hn. unfold decode_response. cbn. by rewrite (proj2 (Z.eqb_neq _ _) Hn). Qed.
Lemma read_reply_map m k : answer_ok m -> decode_response (reply m k).1 = Ok (Map m).
Proof. apply read_ok. Qed.
Lemma read_status n k : n <> 0 -> decode_response (refuse n k).1 = Err (StatusCode n).
Proof. apply read_err. Qed.

(** * The requests *)

Definition cm_params (sub : Z) (params : option Value) : list (Value * Value) :=
  (UInt 1, UInt sub) :: match params with Some p => [(UInt 2, p)] | None => [] end.
Definition cm_signed (sub : Z) (params : option Value) : list Z := [sub] ++ match params with Some p => encode p | None => [] end.
Definition cm_request (cm : CredentialManager) (sub : Z) (params : option Value) : list (Value * Value) :=
  cm_params sub params ++ [(UInt 3, UInt (tok_protocol (cm_token cm)));
                           (UInt 4, VBytes (authenticate (cm_token cm) (cm_signed sub params)))].
Lemma build_request_eq cm sub params : build_request cm sub params = encode (Map (cm_request cm sub params)).
Proof. by destruct params. Qed.

Definition params_ok (params : option Value) : Prop := match params with Some p => wf p /\ (depth p <= 3)%nat | None => True end.

(** A session on the key: its token is the last one issued, under a name of the
    command the key knows. *)
Record live (cm : CredentialManager) (k : FidoKey) : Prop := {
  lv_code : cm_code cm = (if fk_preview k then CTAP2_CREDENTIAL_MANAGEMENT_PREVIEW else CTAP2_CREDENTIAL_MANAGEMENT);
  lv_protocol : is_word 64 (tok_protocol (cm_token cm));
  lv_token : exists n permissions, fk_issued k = S n /\ fk_grant k = Some (tok_protocol (cm_token cm), permissions) /\
    cm_token cm = mkToken (tok_protocol (cm_token cm)) (fk_token k n)
}.
Definition allowed (k : FidoKey) : bool := match fk_grant k with Some (_, permissions) => Z.testbit permissions 2 | None => false end.

Lemma request_shallow cm sub params : is_word 64 sub -> is_word 64 (tok_protocol (cm_token cm)) -> params_ok params -> shallow (cm_request cm sub params).
Proof.
  intros Hs Hp Hparams. destruct (authenticate_out (cm_token cm) (cm_signed sub params)) as [Hb Hl].
  apply answer_shallow. unfold cm_request, cm_params. split.
  - apply Forall_app. split; [apply Forall_cons_2; [|destruct params; [|constructor]; destruct Hparams; apply Forall_cons_2; [|constructor]]|
      apply Forall_cons_2; [|apply Forall_cons_2; [|constructor]]]; (split; [split|cbn; lia]); cbn [fst snd]; try done; try (apply wf_uint; first [done|by_decision]).
    constructor; [done|lia].
  - destruct params; cbn; lia.
Qed.

Lemma cm_dispatch_run cm sub params k : live cm k -> is_word 64 sub -> params_ok params ->
  cm_dispatch cm sub params k = (decode_response (key_cred_mgmt (cm_request cm sub params) k).1, (key_cred_mgmt (cm_request cm sub params) k).2).
Proof.
  intros [Hc Hp _] Hs Hparams. destruct (request_shallow cm sub params Hs Hp Hparams) as [Hw Hd].
  unfold cm_dispatch, mbind, io_bind. cbn [transact fido_transport]. unfold key_transact, key_command. rewrite Hc, build_request_eq, decode_encoded by done.
  assert (forall b : bool, let code := if b then CTAP2_CREDENTIAL_MANAGEMENT_PREVIEW else CTAP2_CREDENTIAL_MANAGEMENT in
    (code =? CTAP2_GET_INFO) = false /\ (code =? CTAP2_CLIENT_PIN) = false /\ (code =? code) = true) as Hcode by (by intros []).
  destruct (Hcode (fk_preview k)) as (-> & -> & ->). by destruct (key_cred_mgmt _ k).
Qed.

(** The fields of a request, and the permission it finds. *)
Lemma request_fields cm sub params : let m := cm_request cm sub params in
  fld m 1 = Some (UInt sub) /\ fld m 2 = params /\ fld m 3 = Some (UInt (tok_protocol (cm_token cm))) /\
  fld_bytes m 4 = Some (authenticate (cm_token cm) (cm_signed sub params)).
Proof. by destruct params. Qed.
Lemma permitted_live cm k sub params : live cm k ->
  permitted 2 (tok_protocol (cm_token cm)) (cm_signed sub params) (authenticate (cm_token cm) (cm_signed sub params)) k = allowed k.
Proof.
  intros [_ _ (n & permissions & Hn & Hg & Ht)]. unfold permitted, allowed. rewrite Hg, Hn, Z.eqb_refl. cbn [andb].
  rewrite <- Ht, bool_decide_eq_true_2 by done. by rewrite andb_true_r.
Qed.

Lemma key_cred_mgmt_run cm sub params k : live cm k -> sub <> 3 -> sub <> 5 ->
  key_cred_mgmt (cm_request cm sub params) k =
  if negb (allowed k) then refuse 0x33 k
  else if sub =? 1 then reply [(UInt 1, UInt (zlen (all_passkeys k))); (UInt 2, UInt (fk_room k))] k
  else if sub =? 2 then key_begin 5 (map party_answer (fk_parties k)) k
  else if sub =? 4 then
    match (v ← params; b ← get_uint_key v 1; as_bytes b) with
    | Some hash => key_begin 9 (map passkey_answer (passkeys_of hash (fk_parties k))) k
    | None => refuse 0x14 k
    end
  else if sub =? 6 then key_delete params k
  else refuse 0x3E k.
Proof.
  intros Hl H3 H5. unfold key_cred_mgmt. destruct (request_fields cm sub params) as (-> & -> & -> & ->).
  rewrite (proj2 (Z.eqb_neq _ _) H3), (proj2 (Z.eqb_neq _ _) H5). cbn [orb]. cbv zeta.
  fold (cm_signed sub params). by rewrite permitted_live.
Qed.

(** * The answers, read back *)

Lemma party_answer_ok p : party_ok p -> answer_ok (party_answer p).
Proof.
  destruct p as [id name hash keys]. intros (Hi & Hn & Hb & Hl & _). split; [|cbn; lia]. unfold party_answer. cbn [pt_id pt_name pt_hash pt_keys] in *.
  apply Forall_cons_2; [|apply Forall_cons_2; [|constructor]]; (split; [split; [apply wf_uint; by_decision|cbn [fst snd]]|]).
  - destruct name as [n|]; cbn [opt_text_ok text_field app]; wf_leaves; cbn [fst snd]; first [done|apply ascii_text_wf; by_decision].
  - destruct name as [n|]; cbn; lia.
  - constructor; [done|by rewrite Hl].
  - cbn. lia.
Qed.
Lemma party_read p extra : party_ok p -> parse_rp (Map (party_answer p ++ extra)) = Ok (listed_party p).
Proof.
  intros (_ & _ & _ & Hl & _). unfold parse_rp, party_answer, listed_party.
  change (get_uint_key _ RESP_RP) with (Some (Map ([(Text (s2b "id"), Text (pt_id p))] ++ text_field (s2b "name") (pt_name p)))).
  change (get_uint_key _ RESP_RP_ID_HASH) with (Some (VBytes (pt_hash p))). unfold bytes32. cbn [mbind option_bind as_bytes]. rewrite Hl.
  change (32 =? 32) with true. by destruct (pt_name p).
Qed.

Lemma passkey_answer_ok c : passkey_ok c -> answer_ok (passkey_answer c).
Proof.
  destruct c as [id [uid un ud] alg blob]. intros (Hc & Hi & Hn & Hd & Ha & Hb). cbn [cred_user credential_id cred_algorithm large_blob_key u_id u_name u_display_name] in *.
  split; [|unfold passkey_answer; cbn [cred_algorithm large_blob_key]; destruct alg, blob; cbn; lia].
  unfold passkey_answer. cbn [cred_user credential_id cred_algorithm large_blob_key u_id u_name u_display_name].
  apply Forall_app. split; [|apply Forall_app; split].
  - apply Forall_cons_2; [|apply Forall_cons_2; [|constructor]]; (split; [split; [apply wf_uint; by_decision|cbn [fst snd]]|]).
    + destruct un, ud; cbn [text_field app]; wf_leaves; cbn [fst snd]; first [done|apply ascii_text_wf; by_decision].
    + destruct un, ud; cbn; lia.
    + wf_leaves; cbn [fst snd]; first [done|apply ascii_text_wf; by_decision].
    + cbn. lia.
  - destruct alg as [a|]; [|constructor]. apply Forall_cons_2; [|constructor]. unfold cbor_int.
    split; [|destruct (0 <=? a); cbn; lia]. split; [apply wf_uint; by_decision|]. cbn [fst snd]. destruct (0 <=? a) eqn:E; bools; wf_leaves;
    lazymatch goal with |- is_word 64 _ => unfold is_word; lia | |- _ => idtac end.
  - destruct blob as [b|]; [|constructor]. destruct Hb as [Hb Hl]. apply Forall_cons_2; [|constructor].
    split; [|cbn; lia]. split; [apply wf_uint; by_decision|]. constructor; [done|by rewrite Hl].
Qed.
Lemma algorithm_read a : - 2 ^ 63 <= a < 2 ^ 63 -> cose_number (cbor_int a) = Some a.
Proof. intros Ha. unfold cbor_int. destruct (0 <=? a) eqn:E; bools; cbn [cose_number]; rewrite as_i64_small by lia; f_equal; lia. Qed.
(** Nothing, or the total of an enumeration. *)
Definition tail_ok (key : Z) (extra : list (Value * Value)) : Prop := extra = [] \/ exists n, extra = [(UInt key, UInt n)].
Lemma passkey_fields c extra : tail_ok 9 extra -> let m := Map (passkey_answer c ++ extra) in
  get_uint_key m RESP_USER = Some (Map ([(Text (s2b "id"), VBytes (u_id (cred_user c)))] ++ text_field (s2b "name") (u_name (cred_user c)) ++
    text_field (s2b "displayName") (u_display_name (cred_user c)))) /\
  get_uint_key m RESP_CREDENTIAL_ID = Some (Map [(Text (s2b "id"), VBytes (credential_id c)); (Text (s2b "type"), Text (s2b "public-key"))]) /\
  get_uint_key m RESP_PUBLIC_KEY = (a ← cred_algorithm c; Some (Map [(UInt 1, UInt 2); (UInt 3, cbor_int a)])) /\
  get_uint_key m RESP_LARGE_BLOB_KEY = (b ← large_blob_key c; Some (VBytes b)).
Proof.
  destruct c as [id [uid un ud] alg blob]. unfold passkey_answer. cbn [cred_user credential_id cred_algorithm large_blob_key u_id u_name u_display_name].
  intros [-> | [n ->]]; by destruct alg, blob.
Qed.
Lemma user_read uid un ud :
  fold_left user_entry ([(Text (s2b "id"), VBytes uid)] ++ text_field (s2b "name") un ++ text_field (s2b "displayName") ud) (mkUser [] None None) = mkUser uid un ud.
Proof. by destruct un, ud. Qed.
Lemma entries_map m : entries_of (Map m) = m.
Proof. done. Qed.
Lemma id_read id : fold_left id_entry [(Text (s2b "id"), VBytes id); (Text (s2b "type"), Text (s2b "public-key"))] [] = id.
Proof. done. Qed.
Lemma passkey_read c extra : passkey_ok c -> tail_ok 9 extra -> parse_credential (Map (passkey_answer c ++ extra)) = Ok c.
Proof.
  intros (_ & _ & _ & _ & Ha & Hb) Ht. destruct (passkey_fields c extra Ht) as (Hu & Hi & Hk & Hlb).
  unfold parse_credential. rewrite Hu, Hi, Hk, Hlb. cbn [ok_or mbind result_bind].
  rewrite !entries_map, user_read, id_read.
  destruct c as [id [uid un ud] alg blob]. cbn [cred_user credential_id cred_algorithm large_blob_key u_id u_name u_display_name] in *.
  f_equal. f_equal.
  - destruct alg as [a|]; [|done]. transitivity (cose_number (cbor_int a)); [done|by apply algorithm_read].
  - destruct blob as [b|]; [|done]. destruct Hb as [_ Hl]. unfold bytes32. cbn [mbind option_bind as_bytes]. by rewrite Hl.
Qed.

(** * Enumerations *)

Lemma put_pending_same k : put_pending (fk_pending k) k = k.
Proof. by destruct k. Qed.
Lemma live_pending cm pending k : live cm k -> live cm (put_pending pending k).
Proof. intros []. by split. Qed.

Section enumerations.
Context {A B : Type} (cm : CredentialManager) (parse : Value -> result CtapError A) (answer_of : B -> list (Value * Value)) (back : B -> A).
Context (next_sub total_key : Z).
Hypothesis Hnext : next_sub = 3 \/ next_sub = 5.
Hypothesis Hkey : is_word 64 total_key.
(** An item the key may list: its answer is decoded and read back. *)
Definition item_ok (b : B) : Prop :=
  answer_ok (answer_of b) /\ (length (answer_of b) <= 7)%nat /\ (forall extra, tail_ok total_key extra -> parse (Map (answer_of b ++ extra)) = Ok (back b)) /\
  forall n, get_uint_key (Map (answer_of b ++ [(UInt total_key, UInt n)])) total_key = Some (UInt n).

Lemma next_run k m rest : live cm k -> fk_pending k = Map m :: rest -> answer_ok m ->
  cm_dispatch cm next_sub None k = (Ok (Map m), put_pending rest k).
Proof.
  intros Hl Hp Hm. rewrite cm_dispatch_run; [|done|by destruct Hnext as [-> | ->]; by_decision|done].
  assert (key_cred_mgmt (cm_request cm next_sub None) k = key_next k) as ->.
  { unfold key_cred_mgmt. destruct (request_fields cm next_sub None) as (-> & _). by destruct Hnext as [-> | ->]. }
  unfold key_next. rewrite Hp. by rewrite read_reply_map.
Qed.
Lemma enumerate_next_run items k : live cm k -> fk_pending k = map (fun b => Map (answer_of b)) items -> Forall item_ok items ->
  enumerate_next cm next_sub parse (length items) k = (Ok (map back items), put_pending [] k).
Proof.
  intros Hl Hp Hi. revert k Hl Hp. induction Hi as [|b items (Ha & _ & Hparse & _) Hi IH]; intros k Hl Hp; cbn [length enumerate_next map].
  - rewrite <- (put_pending_same k) at 1. by rewrite Hp.
  - rewrite (io_bind_Ok_eq _ _ _ _ _ (next_run k _ _ Hl Hp Ha)). pose proof (Hparse [] (or_introl eq_refl)) as Hb. rewrite app_nil_r in Hb.
    rewrite Hb, io_lift_bind. rewrite (io_bind_Ok_eq _ _ _ _ _ (IH _ (live_pending cm _ k Hl) eq_refl)). done.
Qed.

Lemma enumeration_run begin_sub params items k : live cm k -> is_word 64 begin_sub -> params_ok params -> Forall item_ok items -> zlen items <= MAX_ENUMERATED ->
  key_cred_mgmt (cm_request cm begin_sub params) k = key_begin total_key (map answer_of items) k ->
  exists pending, enumerate cm begin_sub next_sub params total_key parse k = (Ok (map back items), put_pending pending k).
Proof.
  intros Hl Hs Hparams Hi Hlen Hbegin. unfold enumerate.
  pose proof (cm_dispatch_run cm begin_sub params k Hl Hs Hparams) as Hd. rewrite Hbegin in Hd. destruct items as [|b items].
  - exists (fk_pending k). rewrite put_pending_same. cbn [map key_begin] in Hd. rewrite read_status in Hd by done. cbn [refuse snd] in Hd.
    unfold mbind, io_bind, enumerate_begin. by rewrite Hd.
  - exists []. apply list.Forall_cons in Hi as [(Ha & Hal & Hparse & Htotal) Hi]. cbn [map key_begin] in Hd.
    set (n := zlen (answer_of b :: map answer_of items)) in Hd. assert (n = zlen (b :: items)) as Hn by (subst n; unfold zlen; cbn; by rewrite length_map).
    assert (is_word 64 n) as Hnw by (unfold is_word, MAX_ENUMERATED in *; unfold zlen in *; lia).
    rewrite read_reply_map in Hd by (by apply answer_total). cbn [reply snd] in Hd.
    assert (enumerate_begin cm begin_sub params k = (Ok (Some (Map (answer_of b ++ [(UInt total_key, UInt n)]))), put_pending (map Map (map answer_of items)) k)) as He
      by (unfold enumerate_begin; by rewrite Hd).
    rewrite (io_bind_Ok_eq _ _ _ _ _ He). unfold field_uint. rewrite Htotal. cbn [mbind option_bind as_uint default]. change (id n) with n.
    unfold checked_total. rewrite (proj2 (Z.ltb_ge MAX_ENUMERATED n)) by lia. rewrite io_lift_bind.
    rewrite (proj2 (Z.eqb_neq n 0)) by (rewrite Hn; unfold zlen; cbn; lia). rewrite Hparse by (right; by eexists). rewrite io_lift_bind.
    replace (Z.to_nat (n - 1)) with (length items) by (rewrite Hn; unfold zlen; cbn; lia).
    rewrite (io_bind_Ok_eq _ _ _ _ _ (enumerate_next_run items _ (live_pending cm _ k Hl) (map_map _ _ _) Hi)). done.
Qed.
End enumerations.

(** * Operations *)

Lemma party_item p : party_ok p -> item_ok parse_rp party_answer listed_party 5 p.
Proof.
  intros Hp. split; [by apply party_answer_ok|]. split; [by unfold party_answer; cbn; lia|]. split; [intros extra _; by apply party_read|done].
Qed.
Lemma passkey_item c : passkey_ok c -> item_ok parse_credential passkey_answer id 9 c.
Proof.
  intros Hc. split; [by apply passkey_answer_ok|]. split; [by unfold passkey_answer; destruct (cred_algorithm c), (large_blob_key c); cbn; lia|].
  split; [intros extra Ht; by apply passkey_read|]. intros n. unfold passkey_answer. by destruct (cred_algorithm c), (large_blob_key c).
Qed.

Lemma zlen_filter {A} (f : A -> bool) l : zlen (List.filter f l) <= zlen l.
Proof. unfold zlen. pose proof (List.filter_length_le f l). lia. Qed.
Lemma keys_without id parties : flat_map pt_keys (without_passkey id parties) = List.filter (fun c => negb (bool_decide (credential_id c = id))) (flat_map pt_keys parties).
Proof.
  unfold without_passkey. induction parties as [|p parties IH]; [done|]. cbn [map List.filter flat_map pt_keys]. rewrite List.filter_app, <- IH.
  destruct (negb _) eqn:E; [done|]. apply negb_false_iff, bool_decide_eq_true in E. by rewrite E.
Qed.
Lemma has_passkey_filter id parties : has_passkey id parties = true ->
  zlen (flat_map pt_keys (without_passkey id parties)) + 1 <= zlen (flat_map pt_keys parties).
Proof.
  rewrite keys_without. unfold has_passkey. generalize (flat_map pt_keys parties) as l. intros l Hl. induction l as [|c l IH]; [done|].
  cbn [existsb List.filter] in *. pose proof (zlen_filter (fun c => negb (bool_decide (credential_id c = id))) l) as Hle.
  destruct (bool_decide _); cbn [negb orb] in *; [|specialize (IH Hl)]; unfold zlen in *; cbn [length]; lia.
Qed.
Lemma without_party_ok id parties : Forall party_ok parties -> Forall party_ok (without_passkey id parties).
Proof.
  intros Hp. unfold without_passkey. apply list.Forall_forall. intros p Hin%list_elem_of_In%List.filter_In. destruct Hin as [Hin _].
  apply List.in_map_iff in Hin as (p' & <- & Hin). rewrite list.Forall_forall in Hp. destruct (Hp p') as (Hi & Hn & Hb & Hl & Hk); [by apply list_elem_of_In|].
  do 4 (split; [done|]). cbn [pt_keys]. apply list.Forall_forall. intros c Hc%list_elem_of_In%List.filter_In. rewrite list.Forall_forall in Hk.
  apply Hk, list_elem_of_In, Hc.
Qed.
Lemma without_ok id s : vault_ok s -> has_passkey id (va_parties s) = true -> vault_ok (mkVault (without_passkey id (va_parties s)) (va_room s + 1)).
Proof.
  intros [[Hp Hn] Hk [Hr Hrk]] Hh%has_passkey_filter. split; cbn [va_parties va_room]; [split|lia|lia].
  - by apply without_party_ok.
  - unfold without_passkey. etrans; [apply zlen_filter|]. unfold zlen in *. by rewrite length_map.
Qed.

Lemma spec_vault_ok is_allowed op s : vault_ok s -> vault_ok (spec_cred_op is_allowed op s).2.
Proof.
  intros Hs. unfold spec_cred_op. destruct (negb is_allowed); [done|]. destruct op as [| |hash|id]; [done..|].
  destruct (has_passkey id (va_parties s)) eqn:Hh; [by apply without_ok|done].
Qed.

(** What an operation gives, and what it leaves of the session. *)
Definition op_agrees (cm : CredentialManager) (op : CredOp) (k : FidoKey) : Prop :=
  (cred_op cm op k).1 = (spec_cred_op (allowed k) op (vault_of k)).1 /\ vault_of (cred_op cm op k).2 = (spec_cred_op (allowed k) op (vault_of k)).2 /\
  live cm (cred_op cm op k).2 /\ allowed (cred_op cm op k).2 = allowed k.

Definition delete_params (id : list Z) : option Value := Some (Map [(UInt 2, Map [(Text (s2b "id"), VBytes id); (Text (s2b "type"), Text (s2b "public-key"))])]).
Lemma delete_params_ok id : wf (VBytes id) -> params_ok (delete_params id).
Proof. intros Hi. split; [|cbn; lia]. wf_leaves; cbn [fst snd]; first [done|by_decision|apply ascii_text_wf; by_decision]. Qed.
Definition hash_params (hash : list Z) : option Value := Some (Map [(UInt 1, VBytes hash)]).
Lemma hash_params_ok hash : wf (VBytes hash) -> params_ok (hash_params hash).
Proof. intros Hi. split; [|cbn; lia]. wf_leaves; cbn [fst snd]; first [done|by_decision]. Qed.

(** A token without the permission is refused by every command. *)
Lemma not_allowed_run cm sub params k : live cm k -> is_word 64 sub -> sub <> 3 -> sub <> 5 -> params_ok params -> allowed k = false ->
  cm_dispatch cm sub params k = (Err (StatusCode 0x33), k).
Proof.
  intros Hl Hs H3 H5 Hp Ha. rewrite cm_dispatch_run by done. rewrite key_cred_mgmt_run, Ha by done. cbn [negb]. by rewrite read_status.
Qed.

(** An operation is its answer [x], if its command gives it. *)
Lemma op_done {X} cm op k (m : kio X) (f : X -> CredAnswer) x k' : cred_op cm op = (a ← m; mret (f a)) -> m k = (Ok x, k') ->
  live cm k' -> allowed k' = allowed k -> spec_cred_op (allowed k) op (vault_of k) = (Ok (f x), vault_of k') -> op_agrees cm op k.
Proof. intros Hop Hm Hl Ha Hs. unfold op_agrees. rewrite Hop, (io_bind_Ok_eq _ _ _ _ _ Hm), Hs. done. Qed.
Lemma op_failed {X} cm op k (m : kio X) (f : X -> CredAnswer) e k' : cred_op cm op = (a ← m; mret (f a)) -> m k = (Err e, k') ->
  live cm k' -> allowed k' = allowed k -> spec_cred_op (allowed k) op (vault_of k) = (Err e, vault_of k') -> op_agrees cm op k.
Proof. intros Hop Hm Hl Ha Hs. unfold op_agrees. rewrite Hop, Hs. unfold mbind, io_bind. by rewrite Hm. Qed.

Lemma enumerate_not_allowed {A} cm sub next_sub params key (parse : Value -> result CtapError A) (k : FidoKey) :
  cm_dispatch cm sub params k = (Err (StatusCode 0x33), k) -> enumerate cm sub next_sub params key parse k = (Err (StatusCode 0x33), k).
Proof. intros Hd. unfold enumerate, mbind, io_bind, enumerate_begin. by rewrite Hd. Qed.

Lemma refused_run cm op k : live cm k -> cred_op_ok op -> allowed k = false -> op_agrees cm op k.
Proof.
  intros Hl Hop Ha. assert (spec_cred_op (allowed k) op (vault_of k) = (Err (StatusCode 0x33), vault_of k)) as Hspec by (by rewrite Ha).
  assert (forall sub params, is_word 64 sub -> sub <> 3 -> sub <> 5 -> params_ok params -> cm_dispatch cm sub params k = (Err (StatusCode 0x33), k)) as Hrun
    by (intros; by apply not_allowed_run).
  destruct op as [| |hash|id]; (eapply op_failed; [reflexivity| |exact Hl|done|exact Hspec]).
  - unfold metadata, mbind, io_bind. by rewrite Hrun.
  - unfold list_relying_parties. apply enumerate_not_allowed, Hrun; [by_decision|done|done|done].
  - destruct Hop as [Hb Hn]. unfold list_credentials. apply enumerate_not_allowed, Hrun; [by_decision|done|done|]. apply hash_params_ok. constructor; [done|lia].
  - destruct Hop as [Hb Hn]. unfold CredMgmt.delete, mbind, io_bind. rewrite Hrun; [done|by_decision|done|done|]. apply delete_params_ok. by constructor.
Qed.

Lemma meta_run cm k : live cm k -> vault_ok (vault_of k) -> allowed k = true -> op_agrees cm CMeta k.
Proof.
  intros Hl [_ Hk [Hr Hrk]] Ha. apply (op_done cm CMeta k (metadata cm) AMeta (mkMetadata (zlen (flat_map pt_keys (fk_parties k))) (fk_room k)) k); [done| |done..|by rewrite Ha].
  pose proof (cm_dispatch_run cm SUB_GET_CREDS_METADATA None k Hl ltac:(by_decision) I) as Hd. rewrite key_cred_mgmt_run, Ha in Hd by done.
  change (SUB_GET_CREDS_METADATA =? 1) with true in Hd. cbn [negb] in Hd. rewrite read_reply_map in Hd.
  - unfold metadata. rewrite (io_bind_Ok_eq _ _ _ _ _ Hd). done.
  - cbn [vault_of va_parties va_room] in *. split; [|cbn; lia]. unfold all_passkeys. pose proof (zlen_nonneg (flat_map pt_keys (fk_parties k))).
    repeat (apply Forall_cons_2; [split; [split; apply wf_uint; unfold is_word; lia|cbn; lia]|]). constructor.
Qed.
Lemma parties_run cm k : live cm k -> vault_ok (vault_of k) -> allowed k = true -> op_agrees cm CParties k.
Proof.
  intros Hl [[Hp Hn] _ _] Ha.
  destruct (enumeration_run cm parse_rp party_answer listed_party SUB_ENUMERATE_RPS_NEXT RESP_TOTAL_RPS ltac:(by left) ltac:(by_decision)
    SUB_ENUMERATE_RPS_BEGIN None (fk_parties k) k Hl ltac:(by_decision) I) as [pending He].
  - eapply list.Forall_impl; [exact Hp|]. apply party_item.
  - done.
  - rewrite key_cred_mgmt_run, Ha by done. done.
  - apply (op_done cm CParties k (list_relying_parties cm) AParties (map listed_party (fk_parties k)) (put_pending pending k)); [done|done|by apply live_pending|done|by rewrite Ha].
Qed.
Lemma zlen_passkeys_of hash parties : zlen (passkeys_of hash parties) <= zlen (flat_map pt_keys parties).
Proof.
  unfold passkeys_of, zlen. induction parties as [|p parties IH]; [done|]. cbn [List.filter flat_map].
  destruct (bool_decide _); cbn [flat_map]; rewrite ?length_app; lia.
Qed.
Lemma keys_run cm hash k : live cm k -> vault_ok (vault_of k) -> Bytes hash -> zlen hash = 32 -> allowed k = true -> op_agrees cm (CKeys hash) k.
Proof.
  intros Hl [[Hp _] Hn _] Hb Hh Ha. cbn [vault_of va_parties] in *.
  destruct (enumeration_run cm parse_credential passkey_answer id SUB_ENUMERATE_CREDS_NEXT RESP_TOTAL_CREDS ltac:(by right) ltac:(by_decision)
    SUB_ENUMERATE_CREDS_BEGIN (hash_params hash) (passkeys_of hash (fk_parties k)) k Hl ltac:(by_decision)) as [pending He].
  - apply hash_params_ok. constructor; [done|lia].
  - apply list.Forall_forall. intros c Hc%list_elem_of_In%in_flat_map. destruct Hc as (p & Hin%List.filter_In & Hc). rewrite list.Forall_forall in Hp.
    destruct (Hp p) as (_ & _ & _ & _ & Hk); [apply list_elem_of_In, Hin|]. rewrite list.Forall_forall in Hk. by apply passkey_item, Hk, list_elem_of_In.
  - pose proof (zlen_passkeys_of hash (fk_parties k)). lia.
  - rewrite key_cred_mgmt_run, Ha by done. done.
  - rewrite map_id in He.
    apply (op_done cm (CKeys hash) k (list_credentials cm hash) AKeys (passkeys_of hash (fk_parties k)) (put_pending pending k)); [done|done|by apply live_pending|done|by rewrite Ha].
Qed.
Lemma delete_run cm id k : live cm k -> Bytes id -> zlen id < 2 ^ 64 -> allowed k = true -> op_agrees cm (CDelete id) k.
Proof.
  intros Hl Hb Hn Ha. pose proof (cm_dispatch_run cm SUB_DELETE_CREDENTIAL (delete_params id) k Hl ltac:(by_decision) (delete_params_ok id ltac:(by constructor))) as Hd.
  rewrite key_cred_mgmt_run, Ha in Hd by done. change (key_delete (delete_params id) k) with
    (if has_passkey id (fk_parties k) then done_ok (put_parties (without_passkey id (fk_parties k)) (fk_room k + 1) k) else refuse 0x2E k) in Hd.
  change (SUB_DELETE_CREDENTIAL =? 1) with false in Hd. change (SUB_DELETE_CREDENTIAL =? 2) with false in Hd. change (SUB_DELETE_CREDENTIAL =? 4) with false in Hd.
  change (SUB_DELETE_CREDENTIAL =? 6) with true in Hd. cbn [negb] in Hd.
  assert (spec_cred_op (allowed k) (CDelete id) (vault_of k) = if has_passkey id (fk_parties k) then
    (Ok ADeleted, mkVault (without_passkey id (fk_parties k)) (fk_room k + 1)) else (Err (StatusCode CTAP2_ERR_NO_CREDENTIALS), vault_of k)) as Hs by (by rewrite Ha).
  destruct (has_passkey id (fk_parties k)).
  - eapply (op_done cm (CDelete id) k (CredMgmt.delete cm id) (fun _ => ADeleted) tt); [done|unfold CredMgmt.delete; by rewrite (io_bind_Ok_eq _ _ _ _ _ Hd)| |done|done]. by destruct Hl.
  - eapply (op_failed cm (CDelete id) k (CredMgmt.delete cm id) (fun _ => ADeleted)); [done|unfold CredMgmt.delete; apply (io_bind_Err_eq _ _ _ _ _ Hd)|done|done|done].
Qed.
Lemma cred_op_run cm op k : live cm k -> vault_ok (vault_of k) -> cred_op_ok op -> op_agrees cm op k.
Proof.
  intros Hl Hv Hop. destruct (allowed k) eqn:Ha; [|by apply refused_run]. destruct op as [| |hash|id].
  - by apply meta_run.
  - by apply parties_run.
  - destruct Hop. by apply keys_run.
  - destruct Hop. by apply delete_run.
Qed.

(** * Sessions *)

(** Every operation in turn, whatever the others gave. *)
Fixpoint run_all {S E Op A} (step : Op -> io S E A) (ops : list Op) (s : S) : list (result E A) * S :=
  match ops with
  | [] => ([], s)
  | op :: ops => let '(r, s) := step op s in let '(rs, s) := run_all step ops s in (r :: rs, s)
  end.
Lemma cred_ops_run cm ops k : live cm k -> vault_ok (vault_of k) -> Forall cred_op_ok ops ->
  (run_all (cred_op cm) ops k).1 = (run_all (spec_cred_op (allowed k)) ops (vault_of k)).1 /\
  vault_of (run_all (cred_op cm) ops k).2 = (run_all (spec_cred_op (allowed k)) ops (vault_of k)).2.
Proof.
  intros Hl Hv Hops. revert k Hl Hv. induction Hops as [|op ops Hop Hops IH]; intros k Hl Hv; [done|]. cbn [run_all].
  destruct (cred_op_run cm op k Hl Hv Hop) as (Hr & Hs & Hl' & Ha). pose proof (spec_vault_ok (allowed k) op (vault_of k) Hv) as Hv'.
  destruct (cred_op cm op k) as [r k'], (spec_cred_op (allowed k) op (vault_of k)) as [r' s']. cbn [fst snd] in *. subst r' s'.
  destruct (IH k' Hl' Hv') as [IHr IHs]. rewrite Ha in IHr, IHs.
  destruct (run_all (cred_op cm) ops k') as [rs1 k1], (run_all (spec_cred_op (allowed k)) ops (vault_of k')) as [rs2 s2]. cbn [fst snd] in *. by subst.
Qed.

Definition every_op (cm : CredentialManager) (ops : list CredOp) : io FidoKey (option CtapError) (list (result CtapError CredAnswer)) :=
  fun k => let '(rs, k) := run_all (cred_op cm) ops k in (Ok rs, k).
(** A session: the key's description, a token of its PIN, and the operations. *)
Definition manage (r : PinRandom) (pin : list Z) (permissions : Z) (ops : list CredOp) : io FidoKey (option CtapError) (list (result CtapError CredAnswer)) :=
  info ← calls get_info;
  token ← get_pin_uv_auth_token r pin info permissions;
  cm ← fallible (credential_manager_new token info);
  every_op cm ops.

(** What the right PIN gives: the next token, with the permissions asked for on
    a key that knows them, with all of them on one that does not. *)
Lemma right_pin_run r pin permissions k : fido_ok k -> random_ok r -> is_word 64 permissions ->
  fk_pin k = Some (left16_sha256 pin) -> fk_tries k <> 0 -> fk_streak k < 3 -> fk_force k = false ->
  if fk_strict k && (permissions =? 0) then exists k',
    get_pin_uv_auth_token r pin (info_of_map (key_info k)) permissions k = (Err (Some (StatusCode 0x02)), k') /\ same_key k k'
  else exists k', get_pin_uv_auth_token r pin (info_of_map (key_info k)) permissions k = (Ok (mkToken (version (protocol_of k)) (fk_token k (fk_issued k))), k') /\
    fk_issued k' = S (fk_issued k) /\ fk_grant k' = Some (version (protocol_of k), if fk_strict k then permissions else 0xFF) /\ same_key k k'.
Proof.
  intros Hk Hr Hp Hpin Ht Hstr Hf. pose proof (unlock_info_sim r pin permissions k Hr Hk Hp) as Hsim. unfold simulates, unlock_with_info in Hsim.
  rewrite (io_bind_Ok_eq (calls get_info) _ _ _ _ (calls_run _ _ _ _ (get_info_run k Hk))) in Hsim.
  assert (spec_unlock (fk_strict k) (version (protocol_of k)) (fk_token k) pin permissions (abs k) =
    if fk_strict k && (permissions =? 0) then (Err (Some (StatusCode 0x02)), abs k) else
    (Ok (mkToken (version (protocol_of k)) (fk_token k (fk_issued k))),
     mkPinState (Some (left16_sha256 pin)) 8 0 false (S (fk_issued k)) (Some (version (protocol_of k), if fk_strict k then permissions else 0xFF)))) as Hspec.
  { unfold spec_unlock. rewrite io_gets_bind. cbn [abs ps_force]. rewrite Hf. destruct (_ && _); [done|].
    unfold spec_token, mbind, io_bind, spec_proof. cbn [abs ps_pin ps_tries ps_streak ps_force ps_issued].
    rewrite Hpin, (proj2 (Z.eqb_neq _ _) Ht), (proj2 (Z.leb_gt _ _) Hstr), bool_decide_eq_true_2 by done. rewrite Hf. done. }
  rewrite Hspec in Hsim. destruct (get_pin_uv_auth_token _ _ _ _ k) as [res k']. cbn [fst snd] in Hsim. destruct Hsim as (Hres & Habs & _ & Hsame).
  destruct (_ && _); cbn [fst snd] in *; subst res; exists k'; split; [done|done|done|]. injection Habs as _ _ _ _ Hn Hg. by split.
Qed.

Lemma manager_of token k : credential_manager_new token (info_of_map (key_info k)) =
  Ok (mkManager token (if fk_preview k then CTAP2_CREDENTIAL_MANAGEMENT_PREVIEW else CTAP2_CREDENTIAL_MANAGEMENT)).
Proof.
  unfold credential_manager_new. destruct (fk_preview k) eqn:Hp.
  - assert (option_flag (info_of_map (key_info k)) (s2b "credMgmt") = None /\ option_flag (info_of_map (key_info k)) (s2b "credentialMgmtPreview") = Some true) as [-> ->]
      by (unfold key_info; rewrite Hp; done). done.
  - assert (option_flag (info_of_map (key_info k)) (s2b "credMgmt") = Some true) as -> by (unfold key_info; rewrite Hp; done). done.
Qed.

(** * Properties *)

(** C25: the passkeys a host lists are the ones the authenticator holds, and deleting
    one deletes just that. For every authenticator that follows CTAP 2.1, with
    whichever PIN protocol it prefers, under either name of the command, and
    whatever relying parties and passkeys it stores up to the 4096 the host
    accepts: unlocking it with the right PIN (when that is not blocked and need not
    be changed) and any permissions succeeds, and every sequence of reading the
    counts, listing the relying parties, listing a party's passkeys and deleting a
    passkey by its id gives what a plain table of parties gives, entry by entry and
    field by field (names, user ids, algorithms and large-blob keys as stored, a
    party whose last passkey goes is gone, an unknown id is refused with 0x2E, an
    empty key lists nothing), and leaves the table as that does; with a token that
    lacks the credential-management permission every command is refused with 0x33
    and nothing changes, unless the key's tokens carry no permissions. Asking for no
    permission at all of a key whose tokens carry them is refused with 0x02, and
    nothing changes. *)
Theorem ctap_passkeys_managed (r : PinRandom) (pin : list Z) (permissions : Z) (ops : list CredOp) (k : FidoKey) :
  fido_ok k -> vault_ok (vault_of k) -> random_ok r -> is_word 64 permissions -> Forall cred_op_ok ops ->
  fk_pin k = Some (left16_sha256 pin) -> fk_tries k <> 0 -> fk_streak k < 3 -> fk_force k = false ->
  let spec := spec_cred_op (negb (fk_strict k) || Z.testbit permissions 2) in
  if fk_strict k && (permissions =? 0) then
    (manage r pin permissions ops k).1 = Err (Some (StatusCode 0x02)) /\ vault_of (manage r pin permissions ops k).2 = vault_of k
  else
    (manage r pin permissions ops k).1 = Ok (run_all spec ops (vault_of k)).1 /\
    vault_of (manage r pin permissions ops k).2 = (run_all spec ops (vault_of k)).2.
Proof.
  intros Hk Hv Hr Hp Hops Hpin Ht Hstr Hf spec. pose proof (right_pin_run r pin permissions k Hk Hr Hp Hpin Ht Hstr Hf) as Hright.
  unfold manage. rewrite (io_bind_Ok_eq (calls get_info) _ _ _ _ (calls_run _ _ _ _ (get_info_run k Hk))). destruct (_ && _).
  { destruct Hright as (k' & Hrun & (_ & _ & _ & _ & _ & Hpa & Hro)). unfold mbind, io_bind. rewrite Hrun. split; [done|].
    unfold vault_of. cbn [snd]. by rewrite Hpa, Hro. }
  destruct Hright as (k' & Hrun & Hn & Hg & (_ & Hst & Hpre & Htok & _ & Hpa & Hro)). rewrite (io_bind_Ok_eq _ _ _ _ _ Hrun).
  rewrite manager_of. unfold fallible. rewrite (io_bind_Ok_eq (calls (lift (Ok _))) _ _ _ k' eq_refl). unfold every_op. set (cm := mkManager _ _).
  assert (live cm k') as Hl.
  { split; [by rewrite Hpre|apply protocol_word|]. exists (fk_issued k). eexists. split; [exact Hn|]. split; [exact Hg|]. by rewrite Htok. }
  assert (vault_of k' = vault_of k) as Hvk by (unfold vault_of; by rewrite Hpa, Hro).
  assert (allowed k' = negb (fk_strict k) || Z.testbit permissions 2) as Ha by (unfold allowed; rewrite Hg; by destruct (fk_strict k)).
  destruct (cred_ops_run cm ops k' Hl ltac:(by rewrite Hvk) Hops) as [Hres Hleft]. rewrite Ha, Hvk in Hres, Hleft. fold spec in Hres, Hleft.
  destruct (run_all (cred_op cm) ops k') as [rs k2]. cbn [fst snd] in *. by subst.
Qed.
End creds.
