(* ===== verification/FidoAdmin.v ===== *)
(** Fingerprints and settings against a reference authenticator: with a token
    that has their permissions, the host's enrollment and configuration commands
    do what a plain record of templates and settings does. *)
From S2P Require Export FidoCreds.
From S2P Require BioEnroll CtapConfig.
Import BioEnroll CtapConfig.

Section admin.
Context `{BlobCryptoLaws}.

(** * The authenticator *)

Record AdminState := mkAdmin {
  am_templates : list Enrollment;
  am_pending : option (list Z * Z);     (* the template being enrolled, the samples it still needs *)
  am_seen : nat;                        (* samples taken so far *)
  am_made : nat;                        (* templates begun so far *)
  am_ep : bool; am_always_uv : bool;    (* settings *)
  am_min_pin : Z; am_rp_ids : list (list Z); am_force : bool;
  am_pin : option Z                     (* the length of the PIN, if one is set *)
}.
(** What it was built with, and the token it issued. *)
Record AdminParts := mkParts {
  ap_code : Z;                          (* bioEnrollment, or its older name *)
  ap_samples : Z;                       (* good samples a template needs, *)
  ap_capacity : Z;                      (* templates it has room for, *)
  ap_max_name : option Z;
  ap_finger : nat -> Z;                 (* the status of each sample, *)
  ap_fresh : nat -> list Z;             (* and the id of each new template *)
  ap_token : PinUvAuthToken;
  ap_permissions : Z;
  ap_options : list (list Z * bool);    (* what it announces, *)
  ap_max_rp_ids : Z;                    (* how many parties it tells the minimum length, *)
  ap_denies : AdminState -> Z -> option Z (* and the status of a setting it denies for a reason of its own *)
}.
Record AdminKey := mkAdminKey { ak_parts : AdminParts; ak_state : AdminState }.

Definition change_templates ts s := mkAdmin ts (am_pending s) (am_seen s) (am_made s) (am_ep s) (am_always_uv s) (am_min_pin s) (am_rp_ids s) (am_force s) (am_pin s).
Definition change_pending pending seen made s := mkAdmin (am_templates s) pending seen made (am_ep s) (am_always_uv s) (am_min_pin s) (am_rp_ids s) (am_force s) (am_pin s).
Definition change_settings ep uv min ids force s := mkAdmin (am_templates s) (am_pending s) (am_seen s) (am_made s) ep uv min ids force (am_pin s).

(** A sample: a good one counts, the last one makes the template. *)
Definition take_sample (p : AdminParts) (id : list Z) (remaining : Z) (s : AdminState) : Z * Z * AdminState :=
  let status := ap_finger p (am_seen s) in
  let remaining := if status =? 0 then remaining - 1 else remaining in
  let s := change_pending (if remaining =? 0 then None else Some (id, remaining)) (S (am_seen s)) (am_made s) s in
  (status, remaining, if remaining =? 0 then change_templates (am_templates s ++ [mkEnrollment id None]) s else s).
Definition begin_enrollment (p : AdminParts) (s : AdminState) : list Z * Z * Z * AdminState :=
  let id := ap_fresh p (am_made s) in
  let '(status, remaining, s) := take_sample p id (ap_samples p) (change_pending None (am_seen s) (S (am_made s)) s) in
  (id, status, remaining, s).

Definition has_template (id : list Z) (ts : list Enrollment) : bool := existsb (fun t => bool_decide (template_id t = id)) ts.
Definition rename_template (id name : list Z) (ts : list Enrollment) : list Enrollment :=
  map (fun t => if bool_decide (template_id t = id) then mkEnrollment id (Some name) else t) ts.
Definition drop_template (id : list Z) (ts : list Enrollment) : list Enrollment :=
  List.filter (fun t => negb (bool_decide (template_id t = id))) ts.

Definition FP_DATABASE_FULL : Z := 0x17.
Definition a_answer : Type := list Z * AdminState.
Definition a_refuse (status : Z) (s : AdminState) : a_answer := ([status], s).
Definition a_reply (m : list (Value * Value)) (s : AdminState) : a_answer := (0 :: encode (Map m), s).

Definition granted (p : AdminParts) (bit : Z) (protocol auth : option Value) (signed : list Z) : bool :=
  bool_decide (protocol ≫= as_uint = Some (tok_protocol (ap_token p))) && Z.testbit (ap_permissions p) bit &&
  bool_decide (auth ≫= as_bytes = Some (authenticate (ap_token p) signed)).
Definition signed_params (params : option Value) : list Z := match params with Some p => encode p | None => [] end.
Definition param_bytes (params : option Value) (n : Z) : option (list Z) := v ← params; b ← get_uint_key v n; as_bytes b.

Definition template_info (t : Enrollment) : Value :=
  Map ([(UInt 1, VBytes (template_id t))] ++ match friendly_name t with Some n => [(UInt 2, Text n)] | None => [] end).
Definition sensor_answer (p : AdminParts) : list (Value * Value) :=
  [(UInt 2, UInt 1); (UInt 3, UInt (ap_samples p))] ++ match ap_max_name p with Some n => [(UInt 8, UInt n)] | None => [] end.

Definition key_bio (p : AdminParts) (m : list (Value * Value)) (s : AdminState) : a_answer :=
  let params := fld m 3 in
  match fld m 1, fld m 2 with
  | Some (UInt 1), Some (UInt sub) =>
      if sub =? 3 then ([0], change_pending None (am_seen s) (am_made s) s)
      else if sub =? 7 then a_reply (sensor_answer p) s
      else if negb (granted p 3 (fld m 4) (fld m 5) ([1; sub] ++ signed_params params)) then a_refuse 0x33 s
      else if sub =? 1 then
        if ap_capacity p <=? zlen (am_templates s) then a_refuse FP_DATABASE_FULL (change_pending None (am_seen s) (am_made s) s) else
        let '(id, status, remaining, s) := begin_enrollment p s in
        a_reply [(UInt 4, VBytes id); (UInt 5, UInt status); (UInt 6, UInt remaining)] s
      else if sub =? 2 then
        match am_pending s, param_bytes params 1 with
        | Some (id, remaining), Some id' =>
            if negb (bool_decide (id = id')) then a_refuse 0x2C s else
            let '(status, remaining, s) := take_sample p id remaining s in
            a_reply [(UInt 5, UInt status); (UInt 6, UInt remaining)] s
        | _, _ => a_refuse 0x2C s
        end
      else if sub =? 4 then
        match am_templates s with [] => a_refuse 0x2C s | ts => a_reply [(UInt 7, Array (map template_info ts))] s end
      else if sub =? 5 then
        match param_bytes params 1, (v ← params; n ← get_uint_key v 2; as_text n) with
        | Some id, Some name =>
            if has_template id (am_templates s) then ([0], change_templates (rename_template id name (am_templates s)) s) else a_refuse 0x2C s
        | _, _ => a_refuse 0x14 s
        end
      else if sub =? 6 then
        match param_bytes params 1 with
        | Some id => if has_template id (am_templates s) then ([0], change_templates (drop_template id (am_templates s)) s) else a_refuse 0x2C s
        | None => a_refuse 0x14 s
        end
      else a_refuse 0x3E s
  | _, _ => a_refuse 0x14 s
  end.

(** A new minimum, which only grows, the parties told it, and a forced change,
    which needs a PIN; a PIN shorter than the new minimum must be changed too. *)
Definition store_min_pin (max_ids : Z) (new : option Z) (ids : list (list Z)) (force : bool) (s : AdminState) : Z + AdminState :=
  if match new with Some n => n <? am_min_pin s | None => false end then inl 0x37
  else if force && bool_decide (am_pin s = None) then inl 0x35
  else if max_ids <? zlen ids then inl 0x28
  else
    let short := match new, am_pin s with Some n, Some l => l <? n | _, _ => false end in
    inr (change_settings (am_ep s) (am_always_uv s) (default (am_min_pin s) new) (if bool_decide (ids = []) then am_rp_ids s else ids)
           (force || short || am_force s) s).
(** A setting, unless the key denies it. *)
Definition settled (p : AdminParts) (sub : Z) (f : AdminState -> Z + AdminState) (s : AdminState) : Z + AdminState :=
  match ap_denies p s sub with Some status => inl status | None => f s end.
Definition setting_answer (r : Z + AdminState) (s : AdminState) : a_answer := match r with inl status => a_refuse status s | inr s => ([0], s) end.
Definition key_config (p : AdminParts) (m : list (Value * Value)) (s : AdminState) : a_answer :=
  let params := fld m 2 in
  match fld m 1 with
  | Some (UInt sub) =>
      if negb (granted p 5 (fld m 3) (fld m 4) (replicate 32 0xff ++ [0x0d; sub] ++ signed_params params)) then a_refuse 0x33 s
      else if sub =? 1 then
        setting_answer (settled p sub (fun s => inr (change_settings true (am_always_uv s) (am_min_pin s) (am_rp_ids s) (am_force s) s)) s) s
      else if sub =? 2 then
        setting_answer (settled p sub (fun s => inr (change_settings (am_ep s) (negb (am_always_uv s)) (am_min_pin s) (am_rp_ids s) (am_force s) s)) s) s
      else if sub =? 3 then
        let v := default (Map []) params in
        setting_answer (settled p sub (store_min_pin (ap_max_rp_ids p) (n ← get_uint_key v 1; as_uint n)
          (omap as_text (default [] (a ← get_uint_key v 2; as_array a))) (default false (b ← get_uint_key v 3; as_bool b))) s) s
      else a_refuse 0x3E s
  | _ => a_refuse 0x14 s
  end.

(** * GetInfo *)

Definition admin_info (p : AdminParts) : list (Value * Value) :=
  [(UInt 1, Array [Text (s2b "FIDO_2_1")]); (UInt 4, Map (map (fun o => (Text o.1, VBool o.2)) (ap_options p)))].

Definition admin_answer (p : AdminParts) (payload : list Z) (s : AdminState) : a_answer :=
  match payload with
  | [code] => if code =? CTAP2_GET_INFO then a_reply (admin_info p) s else a_refuse 0x12 s
  | code :: body =>
      match decode body with
      | Ok (Map m, []) => if code =? ap_code p then key_bio p m s else if code =? CTAP2_CONFIG then key_config p m s else a_refuse 0x01 s
      | _ => a_refuse 0x12 s
      end
  | [] => a_refuse 0x03 s
  end.
#[export] Instance admin_transport : CtapTransport AdminKey := {
  transact _ payload k := let '(resp, s) := admin_answer (ak_parts k) payload (ak_state k) in (Ok resp, mkAdminKey (ak_parts k) s);
  set_timeout _ k := k;
  read_timeout _ := DEFAULT_READ_TIMEOUT;
  set_cancel_flag k := k
}.

(** * What the commands promise *)

Inductive AdminOp :=
  | BSensor | BList | BBegin (timeout : option Z) | BNext (id : list Z) (timeout : option Z) | BCancel
  | BRename (id name : list Z) | BRemove (id : list Z)
  | GEnterprise | GAlwaysUv | GMinPin (new : option Z) (ids : list (list Z)) (force : bool) | GForce.
Inductive AdminAnswer :=
  | RSensor (i : SensorInfo) | RList (l : list Enrollment) | RBegin (id : list Z) (c : CaptureStatus) | RNext (c : CaptureStatus) | RDone.

(** The host's count of captures, beside the key. *)
Record AdminView := mkView { vw_state : AdminState; vw_captures : Z }.

Definition no_such {A} : io AdminView CtapError A := lift (Err (StatusCode 0x2C)).
Definition on_state {A} (f : AdminState -> result CtapError A * AdminState) : io AdminView CtapError A := fun v =>
  let '(r, s) := f (vw_state v) in (r, mkView s (vw_captures v)).
Definition guarded {S A} (ok : bool) (e : CtapError) (f : io S CtapError A) : io S CtapError A := if ok then f else lift (Err e).

Definition spec_templates (id : list Z) (f : list Enrollment -> list Enrollment) : io AdminView CtapError AdminAnswer := on_state (fun s =>
  if has_template id (am_templates s) then (Ok RDone, change_templates (f (am_templates s)) s) else (Err (StatusCode 0x2C), s)).
Definition spec_admin_op (p : AdminParts) (cf : Configurator) (op : AdminOp) : io AdminView CtapError AdminAnswer :=
  let bio := guarded (Z.testbit (ap_permissions p) 3) (StatusCode 0x33) in
  let setting flag name m := guarded flag (EUnsupported name) (guarded (Z.testbit (ap_permissions p) 5) (StatusCode 0x33) m) in
  let stores sub f := on_state (fun s => match settled p sub f s with inr s => (Ok RDone, s) | inl status => (Err (StatusCode status), s) end) in
  let min_pin new ids force := setting (min_pin_supported cf) (s2b "setMinPINLength") (stores 3 (store_min_pin (ap_max_rp_ids p) new ids force)) in
  match op with
  | BSensor => mret (RSensor (mkSensor 1 (ap_samples p) (ap_max_name p)))
  | BCancel => on_state (fun s => (Ok RDone, change_pending None (am_seen s) (am_made s) s))
  | BList => bio (on_state (fun s => (Ok (RList (am_templates s)), s)))
  | BBegin _ => fun v =>
      bio (on_state (fun s =>
          if ap_capacity p <=? zlen (am_templates s) then (Err (StatusCode FP_DATABASE_FULL), change_pending None (am_seen s) (am_made s) s) else
          let '(id, status, remaining, s) := begin_enrollment p s in (Ok (RBegin id (mkCapture status remaining)), s)))
          (mkView (vw_state v) 0)
  | BNext id _ => fun v =>
      let v := mkView (vw_state v) (cast 32 (vw_captures v + 1)) in
      guarded (vw_captures v <=? MAX_CAPTURE_ITERATIONS)
        (InvalidResponseShape (s2b "authenticator kept requesting more fingerprint samples past the host cap")) (bio (on_state (fun s =>
          match am_pending s with
          | Some (id', remaining) =>
              if negb (bool_decide (id' = id)) then (Err (StatusCode 0x2C), s) else
              let '(status, remaining, s) := take_sample p id' remaining s in (Ok (RNext (mkCapture status remaining)), s)
          | None => (Err (StatusCode 0x2C), s)
          end))) v
  | BRename id name => bio (spec_templates id (rename_template id name))
  | BRemove id => bio (spec_templates id (drop_template id))
  | GEnterprise => setting (ep_supported cf) (s2b "enableEnterpriseAttestation") (stores 1 (fun s =>
      inr (change_settings true (am_always_uv s) (am_min_pin s) (am_rp_ids s) (am_force s) s)))
  | GAlwaysUv => setting (always_uv_supported cf) (s2b "toggleAlwaysUv") (stores 2 (fun s =>
      inr (change_settings (am_ep s) (negb (am_always_uv s)) (am_min_pin s) (am_rp_ids s) (am_force s) s)))
  | GMinPin new ids force => min_pin new ids force
  | GForce => min_pin None [] true
  end.

Local Notation bio := (io (BioEnrollment (D := AdminKey)) CtapError).
Definition on_key {A} (f : io AdminKey CtapError A) : bio A := on_dev (fun _ _ => f).
Definition gives {A} (f : A -> AdminAnswer) (m : bio A) : bio AdminAnswer := a ← m; mret (f a).
Definition admin_op (cf : Configurator) (op : AdminOp) : bio AdminAnswer :=
  match op with
  | BSensor => gives RSensor sensor_info
  | BList => gives RList BioEnroll.enumerate
  | BBegin t => gives (fun '(id, c) => RBegin id c) (enroll_begin t)
  | BNext id t => gives RNext (enroll_capture_next id t)
  | BCancel => gives (fun _ => RDone) cancel_enrollment
  | BRename id name => gives (fun _ => RDone) (set_friendly_name id name)
  | BRemove id => gives (fun _ => RDone) (remove_enrollment id)
  | GEnterprise => gives (fun _ => RDone) (on_key (enable_enterprise_attestation cf))
  | GAlwaysUv => gives (fun _ => RDone) (on_key (toggle_always_uv cf))
  | GMinPin new ids force => gives (fun _ => RDone) (on_key (set_min_pin_length cf new ids force))
  | GForce => gives (fun _ => RDone) (on_key (CtapConfig.force_pin_change cf))
  end.

#[local] Ltac word := unfold is_word in *; lia.

(** * The key in order *)

Record parts_ok (p : AdminParts) : Prop := {
  po_code : ap_code p = CTAP2_BIO_ENROLLMENT \/ ap_code p = CTAP2_BIO_ENROLLMENT_PREVIEW;
  po_protocol : is_word 64 (tok_protocol (ap_token p));
  po_samples : 1 <= ap_samples p < 2 ^ 64 /\ ap_capacity p < 2 ^ 64 /\ (forall n, ap_max_name p = Some n -> is_word 64 n);
  po_finger : forall n, is_word 64 (ap_finger p n);
  po_fresh : forall n, wf (VBytes (ap_fresh p n));
  po_options : Forall (fun o => wf (Text o.1)) (ap_options p) /\ zlen (ap_options p) < 2 ^ 64;
  po_denies : forall s sub status, ap_denies p s sub = Some status -> status <> 0
}.
Definition template_ok (t : Enrollment) : Prop := wf (VBytes (template_id t)) /\ opt_text_ok (friendly_name t).
Record state_ok (p : AdminParts) (s : AdminState) : Prop := {
  so_templates : Forall template_ok (am_templates s) /\ zlen (am_templates s) <= Z.max 0 (ap_capacity p);
  so_pending : match am_pending s with
    | Some (id, remaining) => wf (VBytes id) /\ 1 <= remaining < 2 ^ 64 /\ zlen (am_templates s) < ap_capacity p
    | None => True
    end
}.
Definition admin_op_ok (op : AdminOp) : Prop :=
  match op with
  | BBegin t => match t with Some t => is_word 64 t | None => True end
  | BNext id t => wf (VBytes id) /\ match t with Some t => is_word 64 t | None => True end
  | BRename id name => wf (VBytes id) /\ wf (Text name)
  | BRemove id => wf (VBytes id)
  | GMinPin new ids _ => match new with Some n => is_word 64 n | None => True end /\ Forall (fun i => wf (Text i)) ids /\ zlen ids < 2 ^ 64
  | _ => True
  end.

Definition bio_of (p : AdminParts) (v : AdminView) : BioEnrollment := mkBio (mkAdminKey p (vw_state v)) (ap_token p) (ap_code p) (vw_captures v).
Definition agrees {A} (p : AdminParts) (m : bio A) (sp : io AdminView CtapError A) (v : AdminView) : Prop :=
  m (bio_of p v) = ((sp v).1, bio_of p (sp v).2).

(** * Exchanges *)

Lemma cbor_run (p : AdminParts) code m s : shallow m ->
  transact_cbor code (Map m) (mkAdminKey p s) =
  let '(resp, s) := (if code =? ap_code p then key_bio p m s else if code =? CTAP2_CONFIG then key_config p m s else a_refuse 0x01 s) in
  (decode_response resp, mkAdminKey p s).
Proof.
  intros [Hw Hd]. unfold transact_cbor, mbind at 1, io_bind at 1. cbn [transact admin_transport ak_parts ak_state]. unfold admin_answer.
  pose proof (decode_encoded (Map m) Hw Hd) as He. pose proof (encode_nonempty (Map m)) as Hne. destruct (encode (Map m)) as [|b0 rest0]; [done|]. cbv iota. rewrite He.
  set (a := if _ =? _ then _ else _). destruct a as [resp s']. unfold decode_response. destruct (split_status resp) as [[status body]|e]; [|done].
  rewrite io_lift_bind. cbn [mbind result_bind]. destruct (negb _); [done|]. case_bool_decide; [done|]. by destruct (decode body) as [[v rest]|e].
Qed.

Definition params_field (n : Z) (params : option Value) : list (Value * Value) := match params with Some p => [(UInt n, p)] | None => [] end.
Definition bio_request (token : PinUvAuthToken) (sub : Z) (params : option Value) : list (Value * Value) :=
  [(UInt 1, UInt 1); (UInt 2, UInt sub)] ++ params_field 3 params ++
  [(UInt 4, UInt (tok_protocol token)); (UInt 5, VBytes (authenticate token ([1; sub] ++ signed_params params)))].
Lemma bio_request_eq token sub params : BioEnroll.build_request token sub params = Map (bio_request token sub params).
Proof. by destruct params. Qed.
Definition config_request (token : PinUvAuthToken) (sub : Z) (params : option Value) : list (Value * Value) :=
  [(UInt 1, UInt sub)] ++ params_field 2 params ++
  [(UInt 3, UInt (tok_protocol token)); (UInt 4, VBytes (authenticate token (config_auth_input sub params)))].

Lemma params_field_ok n params : is_word 64 n -> params_ok params -> answer_ok (params_field n params).
Proof.
  intros Hn Hp. destruct params as [v|]; [|split; [constructor|cbn; lia]]. destruct Hp as [Hw Hd]. split; [|cbn; lia].
  apply Forall_cons_2; [|constructor]. split; [split; [by constructor|done]|]. cbn [fst snd depth]. lia.
Qed.
Lemma auth_fields_ok n protocol token signed : is_word 64 n -> is_word 64 (n + 1) -> is_word 64 protocol ->
  answer_ok [(UInt n, UInt protocol); (UInt (n + 1), VBytes (authenticate token signed))].
Proof.
  intros Hn Hn1 Hp. destruct (authenticate_out token signed) as [Hb Hl]. split; [|cbn; lia].
  repeat (apply Forall_cons_2; [split; [split; cbn [fst snd]; first [by constructor|constructor; [done|lia]]|cbn; lia]|]). constructor.
Qed.
Lemma fields_app m1 m2 : answer_ok m1 -> answer_ok m2 -> (length m1 + length m2 <= 8)%nat -> answer_ok (m1 ++ m2).
Proof. intros [H1 _] [H2 _] Hl. split; [by apply Forall_app|by rewrite length_app]. Qed.
Lemma uint_field_ok n w : is_word 64 n -> is_word 64 w -> answer_ok [(UInt n, UInt w)].
Proof. intros Hn Hw. split; [|cbn; lia]. apply Forall_cons_2; [|constructor]. split; [split; by constructor|cbn; lia]. Qed.

Lemma bio_request_ok token sub params : is_word 64 (tok_protocol token) -> is_word 64 sub -> params_ok params -> shallow (bio_request token sub params).
Proof.
  intros Ht Hs Hp. apply answer_shallow. unfold bio_request. apply (fields_app [(UInt 1, UInt 1); (UInt 2, UInt sub)]);
  [apply (fields_app [_] [_]); [by apply uint_field_ok; by_decision|by apply uint_field_ok; [by_decision|]|cbn; lia]| |destruct params; cbn; lia].
  apply fields_app; [apply params_field_ok; [by_decision|done]|by apply (auth_fields_ok 4); [by_decision..|]|destruct params; cbn; lia].
Qed.
Lemma config_request_ok token sub params : is_word 64 (tok_protocol token) -> is_word 64 sub -> params_ok params -> shallow (config_request token sub params).
Proof.
  intros Ht Hs Hp. apply answer_shallow. unfold config_request. apply (fields_app [(UInt 1, UInt sub)]);
  [by apply uint_field_ok; [by_decision|]| |destruct params; cbn; lia].
  apply fields_app; [apply params_field_ok; [by_decision|done]|by apply (auth_fields_ok 3); [by_decision..|]|destruct params; cbn; lia].
Qed.

(** The fields of a request, as the key reads them. *)
Lemma bio_fields token sub params : let m := bio_request token sub params in
  fld m 1 = Some (UInt 1) /\ fld m 2 = Some (UInt sub) /\ fld m 3 = params /\ fld m 4 = Some (UInt (tok_protocol token)) /\
  fld m 5 = Some (VBytes (authenticate token ([1; sub] ++ signed_params params))).
Proof. by destruct params. Qed.
Lemma config_fields token sub params : let m := config_request token sub params in
  fld m 1 = Some (UInt sub) /\ fld m 2 = params /\ fld m 3 = Some (UInt (tok_protocol token)) /\
  fld m 4 = Some (VBytes (authenticate token (config_auth_input sub params))).
Proof. by destruct params. Qed.
Lemma granted_own p bit signed : granted p bit (Some (UInt (tok_protocol (ap_token p)))) (Some (VBytes (authenticate (ap_token p) signed))) signed = Z.testbit (ap_permissions p) bit.
Proof.
  unfold granted. cbn [mbind option_bind as_uint as_bytes]. rewrite (bool_decide_eq_true_2 (Some (tok_protocol _) = _)) by done.
  rewrite (bool_decide_eq_true_2 (Some (authenticate _ _) = _)) by done. by rewrite andb_true_r.
Qed.

(** What the key does once a token is accepted. *)
Definition bio_body (p : AdminParts) (sub : Z) (params : option Value) (s : AdminState) : a_answer := key_bio p (bio_request (ap_token p) sub params) s.

Lemma bio_run p sub params v : parts_ok p -> is_word 64 sub -> params_ok params ->
  bio_dispatch sub params (bio_of p v) =
  let '(resp, s) := bio_body p sub params (vw_state v) in (decode_response resp, bio_of p (mkView s (vw_captures v))).
Proof.
  intros Hp Hs Hparams. unfold bio_dispatch, on_dev, bio_of. cbn [be_token be_code be_dev be_captures]. rewrite bio_request_eq, cbor_run by (apply bio_request_ok; [apply (po_protocol p Hp)|done|done]).
  rewrite Z.eqb_refl. unfold bio_body. by destruct (key_bio _ _ _).
Qed.
Lemma capture_run p sub params v : parts_ok p -> is_word 64 sub -> params_ok params ->
  capture sub params (bio_of p v) =
  let '(resp, s) := bio_body p sub params (vw_state v) in (decode_response resp, bio_of p (mkView s (vw_captures v))).
Proof. intros Hp Hs Hparams. rewrite <- bio_run by done. unfold capture, bio_dispatch, on_dev, with_timeout. cbn [set_timeout read_timeout admin_transport]. by destruct (transact_cbor _ _ _). Qed.

Lemma bio_body_run p sub params s : sub <> 3 -> sub <> 7 ->
  bio_body p sub params s =
  if negb (Z.testbit (ap_permissions p) 3) then a_refuse 0x33 s
  else if sub =? 1 then
    if ap_capacity p <=? zlen (am_templates s) then a_refuse FP_DATABASE_FULL (change_pending None (am_seen s) (am_made s) s) else
    let '(id, status, remaining, s) := begin_enrollment p s in
    a_reply [(UInt 4, VBytes id); (UInt 5, UInt status); (UInt 6, UInt remaining)] s
  else if sub =? 2 then
    match am_pending s, param_bytes params 1 with
    | Some (id, remaining), Some id' =>
        if negb (bool_decide (id = id')) then a_refuse 0x2C s else
        let '(status, remaining, s) := take_sample p id remaining s in
        a_reply [(UInt 5, UInt status); (UInt 6, UInt remaining)] s
    | _, _ => a_refuse 0x2C s
    end
  else if sub =? 4 then
    match am_templates s with [] => a_refuse 0x2C s | ts => a_reply [(UInt 7, Array (map template_info ts))] s end
  else if sub =? 5 then
    match param_bytes params 1, (v ← params; n ← get_uint_key v 2; as_text n) with
    | Some id, Some name =>
        if has_template id (am_templates s) then ([0], change_templates (rename_template id name (am_templates s)) s) else a_refuse 0x2C s
    | _, _ => a_refuse 0x14 s
    end
  else if sub =? 6 then
    match param_bytes params 1 with
    | Some id => if has_template id (am_templates s) then ([0], change_templates (drop_template id (am_templates s)) s) else a_refuse 0x2C s
    | None => a_refuse 0x14 s
    end
  else a_refuse 0x3E s.
Proof.
  intros H3 H7. unfold bio_body, key_bio. destruct (bio_fields (ap_token p) sub params) as (-> & -> & -> & -> & ->).
  by rewrite (proj2 (Z.eqb_neq _ _) H3), (proj2 (Z.eqb_neq _ _) H7), granted_own.
Qed.

(** * Well-formed answers *)

Lemma sample_ok p id remaining s : parts_ok p -> state_ok p (change_pending (Some (id, remaining)) (am_seen s) (am_made s) s) ->
  let '(status, remaining, s) := take_sample p id remaining s in is_word 64 status /\ is_word 64 remaining /\ state_ok p s.
Proof.
  intros Hp [[Ht Hn] (Hid & Hr & Hroom)]. cbn in Ht, Hn, Hid, Hr, Hroom. unfold take_sample. cbv zeta. split; [apply (po_finger p Hp)|].
  set (rem := if _ =? 0 then remaining - 1 else remaining). assert (0 <= rem < 2 ^ 64) as Hrem by (subst rem; destruct (_ =? 0); lia).
  split; [done|]. destruct (rem =? 0) eqn:Hz; bools; split; cbn [change_templates change_pending am_templates am_pending]; try done.
  - split; [apply Forall_app; split; [done|apply Forall_cons_2; [by split|constructor]]|]. unfold zlen in *. rewrite length_app. cbn. lia.
  - split; [done|]. split; [lia|done].
Qed.
Lemma begin_ok p s : parts_ok p -> state_ok p s -> zlen (am_templates s) < ap_capacity p ->
  let '(id, status, remaining, s) := begin_enrollment p s in wf (VBytes id) /\ is_word 64 status /\ is_word 64 remaining /\ state_ok p s.
Proof.
  intros Hp [Ht _] Hroom. unfold begin_enrollment.
  pose proof (sample_ok p (ap_fresh p (am_made s)) (ap_samples p) (change_pending None (am_seen s) (S (am_made s)) s) Hp) as Hs.
  destruct (take_sample _ _ _ _) as [[status remaining] s']. split; [apply (po_fresh p Hp)|]. apply Hs. split; [done|]. cbn.
  destruct (po_samples p Hp) as (Hn & _). split; [apply (po_fresh p Hp)|]. split; [lia|done].
Qed.

Lemma template_info_ok t : template_ok t -> wf (template_info t) /\ (depth (template_info t) <= 1)%nat.
Proof. destruct t as [id name]. intros [Hi Hn]. cbn [template_id friendly_name] in *. unfold template_info. cbn [template_id friendly_name]. destruct name; (split; [cbn [app]; wf_leaves; cbn [fst snd]; first [done|by_decision]|cbn; lia]). Qed.
Lemma templates_answer_ok ts : Forall template_ok ts -> zlen ts < 2 ^ 64 -> answer_ok [(UInt 7, Array (map template_info ts))].
Proof.
  intros Ht Hn. split; [|cbn; lia]. apply Forall_cons_2; [|constructor]. split; [split; cbn [fst snd]|].
  - apply wf_uint. by_decision.
  - apply wf_array; [|unfold zlen in *; by rewrite length_map]. apply Forall_map. eapply list.Forall_impl; [exact Ht|]. intros t. apply template_info_ok.
  - cbn [fst snd]. assert (fold_right (fun v d => Nat.max (depth v) d) 0%nat (map template_info ts) <= 1)%nat as Hd.
    { clear Hn. induction Ht as [|t ts Hok Ht IH]; [cbn; lia|]. destruct (template_info_ok t Hok). cbn [map fold_right]. lia. }
    split; [cbn; lia|]. destruct (map template_info ts); cbn [depth] in *; lia.
Qed.
Lemma templates_read ts : read_enrollments (map template_info ts) = Ok ts.
Proof.
  induction ts as [|[id name] ts IH]; [done|]. cbn [map read_enrollments].
  assert (field_template (template_info (mkEnrollment id name)) TI_TEMPLATE_ID = Ok id) as -> by done. cbn [mbind result_bind]. rewrite IH.
  by destruct name.
Qed.

Lemma rename_ok id name ts : wf (VBytes id) -> wf (Text name) -> Forall template_ok ts -> Forall template_ok (rename_template id name ts).
Proof. intros Hi Hn Ht. unfold rename_template. apply Forall_map. eapply list.Forall_impl; [exact Ht|]. intros t Htok. by case_bool_decide. Qed.
Lemma drop_ok id ts : Forall template_ok ts -> Forall template_ok (drop_template id ts) /\ zlen (drop_template id ts) <= zlen ts.
Proof.
  intros Ht. split; [|apply zlen_filter]. unfold drop_template. apply list.Forall_forall. intros t Hin%list_elem_of_In%List.filter_In.
  rewrite list.Forall_forall in Ht. apply Ht, list_elem_of_In, Hin.
Qed.

(** * Fingerprints *)

Lemma view_eta v : mkView (vw_state v) (vw_captures v) = v.
Proof. by destruct v. Qed.

(** A bind on a computed command. *)
Lemma gives_run {A B} (f : B -> AdminAnswer) (m : bio A) (g : A -> bio B) b r b' : m b = (r, b') ->
  gives f (x ← m; g x) b = match r with Ok x => gives f (g x) b' | Err e => (Err e, b') end.
Proof. intros Hm. unfold gives, mbind, io_bind. rewrite Hm. by destruct r. Qed.

Lemma denied_run p sub params v : parts_ok p -> is_word 64 sub -> params_ok params -> sub <> 3 -> sub <> 7 -> Z.testbit (ap_permissions p) 3 = false ->
  bio_dispatch sub params (bio_of p v) = (Err (StatusCode 0x33), bio_of p v) /\ capture sub params (bio_of p v) = (Err (StatusCode 0x33), bio_of p v).
Proof.
  intros Hp Hs Hparams H3 H7 Hd. rewrite bio_run, capture_run by done. rewrite bio_body_run, Hd by done. cbn [negb a_refuse]. by rewrite read_err, view_eta.
Qed.

Lemma sensor_sim p cf v : parts_ok p -> agrees p (admin_op cf BSensor) (spec_admin_op p cf BSensor) v.
Proof.
  intros Hp. destruct (po_samples p Hp) as (Hs & _ & Hm). unfold agrees. cbn [admin_op spec_admin_op]. unfold sensor_info, unauthenticated.
  erewrite (gives_run RSensor (on_dev _)); [|unfold on_dev, bio_of; cbn [be_token be_code be_dev be_captures]; rewrite cbor_run by
    (split; [wf_leaves; by_decision|cbn; unfold DECODE_DEPTH_LIMIT; lia]); rewrite Z.eqb_refl; cbn [key_bio fld]; reflexivity].
  change (key_bio p _ (vw_state v)) with (a_reply (sensor_answer p) (vw_state v)). cbn [a_reply]. unfold sensor_answer. destruct (ap_max_name p) as [n|]; rewrite read_ok.
  - done.
  - apply (fields_app [_] [_; _]); [apply uint_field_ok; word| |cbn; lia]. apply (fields_app [_] [_]); [| |cbn; lia]; (apply uint_field_ok; [word|]); [word|by apply Hm].
  - done.
  - apply (fields_app [_] [_]); [apply uint_field_ok; word| |cbn; lia]. apply uint_field_ok; word.
Qed.

(** A permitted command, and what the host makes of its answer. *)
Lemma permitted_run p sub params v : parts_ok p -> is_word 64 sub -> params_ok params -> sub <> 3 -> sub <> 7 -> Z.testbit (ap_permissions p) 3 = true ->
  forall resp s, bio_body p sub params (vw_state v) = (resp, s) ->
  bio_dispatch sub params (bio_of p v) = (decode_response resp, bio_of p (mkView s (vw_captures v))) /\
  capture sub params (bio_of p v) = (decode_response resp, bio_of p (mkView s (vw_captures v))).
Proof. intros Hp Hs Hparams H3 H7 Ht resp s Hb. rewrite bio_run, capture_run, Hb by done. done. Qed.

Lemma bio_list_sim p cf v : parts_ok p -> state_ok p (vw_state v) -> agrees p (admin_op cf BList) (spec_admin_op p cf BList) v.
Proof.
  intros Hp [[Ht Hn] _]. destruct (po_samples p Hp) as (_ & Hc & _). unfold agrees, admin_op, spec_admin_op, gives, mbind, io_bind, BioEnroll.enumerate.
  destruct (Z.testbit (ap_permissions p) 3) eqn:Hperm; cbn [guarded]; [|by rewrite (proj1 (denied_run p SUB_ENUMERATE_ENROLLMENTS None v Hp ltac:(by_decision) I ltac:(done) ltac:(done) Hperm))].
  pose proof (bio_body_run p SUB_ENUMERATE_ENROLLMENTS None (vw_state v) ltac:(done) ltac:(done)) as Hb. rewrite Hperm in Hb.
  change (SUB_ENUMERATE_ENROLLMENTS =? 1) with false in Hb. change (SUB_ENUMERATE_ENROLLMENTS =? 2) with false in Hb. change (SUB_ENUMERATE_ENROLLMENTS =? 4) with true in Hb.
  cbn [negb] in Hb. pose proof (permitted_run p SUB_ENUMERATE_ENROLLMENTS None v Hp ltac:(by_decision) I ltac:(done) ltac:(done) Hperm) as Hrun.
  destruct (am_templates (vw_state v)) as [|t ts] eqn:E; destruct (Hrun _ _ Hb) as [-> _]; rewrite view_eta.
  - rewrite read_err by done. unfold on_state. rewrite E. change (0x2C =? 0x2C) with true. cbv iota. by destruct v.
  - rewrite read_ok by (apply templates_answer_ok; [done|word]). change (get_uint_key _ RESP_TEMPLATE_INFOS) with (Some (Array (map template_info (t :: ts)))).
    cbn [mbind option_bind as_array]. rewrite templates_read. unfold on_state. rewrite E. by destruct v.
Qed.

Definition timeout_params (t : option Z) : option Value := (fun t => Map [(UInt 3, UInt t)]) <$> t.
Lemma timeout_params_ok t : match t with Some t => is_word 64 t | None => True end -> params_ok (timeout_params t).
Proof. destruct t as [t|]; [|done]. intros Ht. split; [wf_leaves; [word|done]|cbn; lia]. Qed.

Lemma begin_sim p cf t v : parts_ok p -> state_ok p (vw_state v) -> match t with Some t => is_word 64 t | None => True end ->
  agrees p (admin_op cf (BBegin t)) (spec_admin_op p cf (BBegin t)) v.
Proof.
  intros Hp Hs Ht. set (v0 := mkView (vw_state v) 0). unfold agrees, admin_op, spec_admin_op. fold v0.
  change (gives _ (enroll_begin t) (bio_of p v)) with (gives (fun '(id, c) => RBegin id c)
    (resp ← capture SUB_ENROLL_BEGIN (timeout_params t); id ← lift (field_template resp RESP_TEMPLATE_ID); mret (id, capture_status resp)) (bio_of p v0)).
  destruct (Z.testbit (ap_permissions p) 3) eqn:Hperm; cbn [guarded].
  2:{ erewrite gives_run by (apply (proj2 (denied_run p SUB_ENROLL_BEGIN (timeout_params t) v0 Hp ltac:(by_decision) (timeout_params_ok t Ht) ltac:(done) ltac:(done) Hperm))). done. }
  pose proof (bio_body_run p SUB_ENROLL_BEGIN (timeout_params t) (vw_state v0) ltac:(done) ltac:(done)) as Hb. rewrite Hperm in Hb.
  change (SUB_ENROLL_BEGIN =? 1) with true in Hb. cbn [negb] in Hb.
  pose proof (permitted_run p SUB_ENROLL_BEGIN (timeout_params t) v0 Hp ltac:(by_decision) (timeout_params_ok t Ht) ltac:(done) ltac:(done) Hperm) as Hrun.
  unfold on_state. destruct (ap_capacity p <=? zlen (am_templates (vw_state v0))) eqn:Hfull.
  - erewrite gives_run by (apply (proj2 (Hrun _ _ Hb))). by rewrite read_err.
  - bools. pose proof (begin_ok p (vw_state v0) Hp Hs Hfull) as Hok. destruct (begin_enrollment p (vw_state v0)) as [[[id status] remaining] s'].
    destruct Hok as (Hid & Hst & Hrem & _). erewrite gives_run by (apply (proj2 (Hrun _ _ Hb))). rewrite read_ok; [done|].
    apply (fields_app [_] [_; _]); [|apply (fields_app [_] [_]); [apply uint_field_ok; word..|cbn; lia]|cbn; lia].
    split; [|cbn; lia]. apply Forall_cons_2; [|constructor]. split; [split; [apply wf_uint; word|done]|cbn; lia].
Qed.

Definition next_params (id : list Z) (t : option Z) : option Value :=
  Some (Map ([(UInt 1, VBytes id)] ++ match t with Some t => [(UInt 3, UInt t)] | None => [] end)).
Lemma next_params_ok id t : wf (VBytes id) -> match t with Some t => is_word 64 t | None => True end -> params_ok (next_params id t).
Proof. intros Hid Ht. destruct t as [t|]; (split; [cbn [app]; wf_leaves; cbn [fst snd]; first [done|word]|cbn; lia]). Qed.

Lemma next_sim p cf id t v : parts_ok p -> state_ok p (vw_state v) -> wf (VBytes id) -> match t with Some t => is_word 64 t | None => True end ->
  agrees p (admin_op cf (BNext id t)) (spec_admin_op p cf (BNext id t)) v.
Proof.
  intros Hp Hs Hid Ht. set (v1 := mkView (vw_state v) (cast 32 (vw_captures v + 1))). unfold agrees, admin_op, spec_admin_op. fold v1.
  assert (gives RNext (enroll_capture_next id t) (bio_of p v) =
    if vw_captures v1 <=? MAX_CAPTURE_ITERATIONS then gives RNext (resp ← capture SUB_ENROLL_CAPTURE_NEXT (next_params id t); mret (capture_status resp)) (bio_of p v1)
    else (Err (InvalidResponseShape (s2b "authenticator kept requesting more fingerprint samples past the host cap")), bio_of p v1)) as ->.
  { unfold gives, enroll_capture_next, mbind, io_bind. cbn [io_gets set_captures io_modify bio_of be_captures]. change (vw_captures v1) with (cast 32 (vw_captures v + 1)).
    rewrite Z.leb_antisym. by destruct (MAX_CAPTURE_ITERATIONS <? cast 32 (vw_captures v + 1)). }
  destruct (vw_captures v1 <=? MAX_CAPTURE_ITERATIONS); cbn [guarded]; [|done]. destruct (Z.testbit (ap_permissions p) 3) eqn:Hperm; cbn [guarded].
  2:{ erewrite gives_run by (apply (proj2 (denied_run p SUB_ENROLL_CAPTURE_NEXT (next_params id t) v1 Hp ltac:(by_decision) (next_params_ok id t Hid Ht) ltac:(done) ltac:(done) Hperm))). done. }
  pose proof (bio_body_run p SUB_ENROLL_CAPTURE_NEXT (next_params id t) (vw_state v1) ltac:(done) ltac:(done)) as Hb. rewrite Hperm in Hb.
  change (SUB_ENROLL_CAPTURE_NEXT =? 1) with false in Hb. change (SUB_ENROLL_CAPTURE_NEXT =? 2) with true in Hb. cbn [negb] in Hb.
  change (param_bytes (next_params id t) 1) with (Some id) in Hb.
  pose proof (permitted_run p SUB_ENROLL_CAPTURE_NEXT (next_params id t) v1 Hp ltac:(by_decision) (next_params_ok id t Hid Ht) ltac:(done) ltac:(done) Hperm) as Hrun.
  unfold on_state. destruct (am_pending (vw_state v1)) as [[id' remaining]|] eqn:Hpend.
  - destruct (negb (bool_decide (id' = id))); [erewrite gives_run by (apply (proj2 (Hrun _ _ Hb))); by rewrite read_err|].
    pose proof (sample_ok p id' remaining (vw_state v1) Hp) as Hok. destruct Hs as [Hst Hpd]. change (vw_state v1) with (vw_state v) in *. rewrite Hpend in Hpd.
    destruct (take_sample p id' remaining (vw_state v)) as [[status rem] s']. destruct Hok as (Hw & Hr & _); [by split|].
    erewrite gives_run by (apply (proj2 (Hrun _ _ Hb))). rewrite read_ok; [done|]. apply (fields_app [_] [_]); [apply uint_field_ok; word..|cbn; lia].
  - erewrite gives_run by (apply (proj2 (Hrun _ _ Hb))). by rewrite read_err.
Qed.

Lemma cancel_sim p cf v : parts_ok p -> agrees p (admin_op cf BCancel) (spec_admin_op p cf BCancel) v.
Proof.
  intros Hp. unfold agrees. cbn [admin_op spec_admin_op]. unfold cancel_enrollment, unauthenticated.
  erewrite (gives_run _ (on_dev _)); [|unfold on_dev, bio_of; cbn [be_token be_code be_dev be_captures]; rewrite cbor_run by
    (split; [wf_leaves; by_decision|cbn; unfold DECODE_DEPTH_LIMIT; lia]); rewrite Z.eqb_refl; reflexivity].
  done.
Qed.

(** A command about one template. *)
Lemma template_sim p (m : bio unit) sub params id f v : parts_ok p -> sub = 5 \/ sub = 6 -> params_ok params ->
  m = (_ ← bio_dispatch sub params; mret tt) ->
  (forall s, Z.testbit (ap_permissions p) 3 = true -> bio_body p sub params s =
    if has_template id (am_templates s) then ([0], change_templates (f (am_templates s)) s) else a_refuse 0x2C s) ->
  agrees p (gives (fun _ => RDone) m) (guarded (Z.testbit (ap_permissions p) 3) (StatusCode 0x33) (spec_templates id f)) v.
Proof.
  intros Hp Hsub Hparams -> Hbody. assert (is_word 64 sub /\ sub <> 3 /\ sub <> 7) as (Hs & H3 & H7) by (split; [word|lia]). unfold agrees.
  destruct (Z.testbit (ap_permissions p) 3) eqn:Hperm; cbn [guarded].
  2:{ erewrite gives_run by (apply (proj1 (denied_run p sub params v Hp Hs Hparams H3 H7 Hperm))). done. }
  specialize (Hbody (vw_state v) eq_refl). unfold spec_templates, on_state.
  pose proof (permitted_run p sub params v Hp Hs Hparams H3 H7 Hperm) as Hrun. destruct (has_template id (am_templates (vw_state v)));
  (erewrite gives_run by (apply (proj1 (Hrun _ _ Hbody)))); [done|by rewrite read_err].
Qed.
Definition rename_params (id name : list Z) : option Value := Some (Map [(UInt 1, VBytes id); (UInt 2, Text name)]).
Lemma rename_sim p cf id name v : parts_ok p -> wf (VBytes id) -> wf (Text name) ->
  agrees p (admin_op cf (BRename id name)) (spec_admin_op p cf (BRename id name)) v.
Proof.
  intros Hp Hi Hn. apply (template_sim p _ SUB_SET_FRIENDLY_NAME (rename_params id name)); [done|by left| |done|].
  - split; [wf_leaves; cbn [fst snd]; first [done|word]|cbn; lia].
  - intros s Hperm. rewrite bio_body_run, Hperm by done. done.
Qed.
Lemma bio_remove_sim p cf id v : parts_ok p -> wf (VBytes id) -> agrees p (admin_op cf (BRemove id)) (spec_admin_op p cf (BRemove id)) v.
Proof.
  intros Hp Hi. apply (template_sim p _ SUB_REMOVE_ENROLLMENT (Some (Map [(UInt 1, VBytes id)]))); [done|by right| |done|].
  - split; [wf_leaves; cbn [fst snd]; first [done|word]|cbn; lia].
  - intros s Hperm. rewrite bio_body_run, Hperm by done. done.
Qed.

(** * Settings *)

Lemma config_run p cf sub params v : parts_ok p -> cf_token cf = ap_token p -> is_word 64 sub -> params_ok params ->
  on_key (config_dispatch cf sub params) (bio_of p v) =
  let '(resp, s) := key_config p (config_request (ap_token p) sub params) (vw_state v) in
  (match resp with [] => Err EmptyResponse | status :: _ => if negb (status =? 0) then Err (StatusCode status) else Ok tt end, bio_of p (mkView s (vw_captures v))).
Proof.
  intros Hp Hcf Hs Hparams. destruct (config_request_ok (ap_token p) sub params (po_protocol p Hp) Hs Hparams) as [Hw Hd].
  unfold on_key, on_dev, config_dispatch, bio_of, mbind, io_bind. cbn [be_token be_code be_dev be_captures transact admin_transport ak_parts ak_state].
  unfold admin_answer. assert (CtapConfig.build_request cf sub params = encode (Map (config_request (ap_token p) sub params))) as ->.
  { unfold CtapConfig.build_request, config_request. rewrite Hcf. by destruct params. }
  pose proof (decode_encoded _ Hw Hd) as He. pose proof (encode_nonempty (Map (config_request (ap_token p) sub params))) as Hne.
  destruct (encode (Map _)) as [|b0 rest0]; [done|]. cbv iota. rewrite He. assert ((CTAP2_CONFIG =? ap_code p) = false) as -> by (by destruct (po_code p Hp) as [-> | ->]).
  rewrite Z.eqb_refl. by destruct (key_config p _ _).
Qed.
Lemma setting_sim p (flag : bool) name (m : io AdminKey CtapError unit) cf sub params (f : AdminState -> Z + AdminState) v :
  parts_ok p -> cf_token cf = ap_token p -> is_word 64 sub -> params_ok params ->
  (forall s status, f s = inl status -> status <> 0) ->
  m = (if negb flag then lift (Err (EUnsupported name)) else config_dispatch cf sub params) ->
  (Z.testbit (ap_permissions p) 5 = true -> forall s, key_config p (config_request (ap_token p) sub params) s = setting_answer (settled p sub f s) s) ->
  agrees p (gives (fun _ => RDone) (on_key m))
    (guarded flag (EUnsupported name) (guarded (Z.testbit (ap_permissions p) 5) (StatusCode 0x33) (on_state (fun s =>
      match settled p sub f s with inr s => (Ok RDone, s) | inl status => (Err (StatusCode status), s) end)))) v.
Proof.
  intros Hp Hcf Hs Hparams Hf -> Hkey. unfold agrees. destruct flag; cbn [guarded negb]; [|done]. unfold gives, mbind, io_bind. rewrite config_run by done.
  destruct (Z.testbit (ap_permissions p) 5) eqn:Hperm; cbn [guarded].
  - rewrite Hkey by done. unfold on_state. assert (forall status, settled p sub f (vw_state v) = inl status -> status <> 0) as Hne.
    { intros status. unfold settled. destruct (ap_denies p _ sub) eqn:Hd; [intros [= ->]; by eapply po_denies|apply Hf]. }
    destruct (settled p sub f (vw_state v)) as [status|s]; [|done]. cbn [setting_answer a_refuse].
    rewrite (proj2 (Z.eqb_neq status 0)) by auto. cbn [negb]. by rewrite view_eta.
  - unfold key_config. destruct (config_fields (ap_token p) sub params) as (-> & -> & -> & ->). rewrite granted_own, Hperm. cbn [negb a_refuse].
    by rewrite view_eta.
Qed.

Definition min_pin_entries (new : option Z) (ids : list (list Z)) (force : bool) : list (Value * Value) :=
  match new with Some n => [(UInt 1, UInt n)] | None => [] end ++ (if bool_decide (ids = []) then [] else [(UInt 2, Array (map Text ids))]) ++
  (if force then [(UInt 3, VBool true)] else []).
Definition min_pin_params (new : option Z) (ids : list (list Z)) (force : bool) : option Value :=
  if bool_decide (length (min_pin_entries new ids force) = 0%nat) then None else Some (Map (min_pin_entries new ids force)).
Lemma texts_back ids : omap as_text (map Text ids) = ids.
Proof. induction ids as [|i ids IH]; [done|]. cbn in *. by rewrite IH. Qed.
Lemma min_pin_read new ids force : let v := default (Map []) (min_pin_params new ids force) in
  (n ← get_uint_key v 1; as_uint n) = new /\ omap as_text (default [] (a ← get_uint_key v 2; as_array a)) = ids /\
  default false (b ← get_uint_key v 3; as_bool b) = force.
Proof.
  unfold min_pin_params, min_pin_entries. destruct (bool_decide (ids = [])) eqn:E.
  - apply bool_decide_eq_true in E. subst ids. by destruct new, force.
  - assert (forall l, omap as_text (default [] (Some (map Text l))) = l) as Hb by apply texts_back.
    destruct new, force; (split; [done|]; split; [apply Hb|done]).
Qed.
Lemma min_pin_params_ok new ids force : match new with Some n => is_word 64 n | None => True end -> Forall (fun i => wf (Text i)) ids -> zlen ids < 2 ^ 64 ->
  params_ok (min_pin_params new ids force).
Proof.
  intros Hn Hi Hl. unfold min_pin_params. case_bool_decide as E; [done|]. assert (answer_ok (min_pin_entries new ids force)) as [Hok Hlen].
  { unfold min_pin_entries. apply fields_app; [destruct new; [by apply uint_field_ok; [word|]|split; [constructor|cbn; lia]]|apply fields_app|].
    - case_bool_decide; [split; [constructor|cbn; lia]|]. split; [|cbn; lia]. apply Forall_cons_2; [|constructor].
      assert (fold_right (fun v d => Nat.max (depth v) d) 0%nat (map Text ids) = 0)%nat as Hz by (clear; induction ids as [|i ids IH]; [done|exact IH]).
      split; [split; [apply wf_uint; word|apply wf_array; [by apply Forall_map|unfold zlen in *; by rewrite length_map]]|]. cbn [fst snd depth].
      rewrite Hz. destruct (map Text ids); cbn; lia.
    - destruct force; (split; [|cbn; lia]); [|constructor]. apply Forall_cons_2; [|constructor]. split; [split; [apply wf_uint; word|constructor]|cbn; lia].
    - case_bool_decide; destruct force; cbn; lia.
    - destruct new, force; case_bool_decide; cbn; lia. }
  assert (Forall (fun kv => (depth kv.1 <= 1 /\ depth kv.2 <= 1)%nat) (min_pin_entries new ids force)) as Hd.
  { unfold min_pin_entries. repeat (apply Forall_app; split); [destruct new|case_bool_decide|destruct force]; try constructor; try constructor; cbn [fst snd]; try (cbn; lia).
    assert (fold_right (fun v d => Nat.max (depth v) d) 0%nat (map Text ids) = 0)%nat as Hz by (clear; induction ids as [|i ids IH]; [done|exact IH]).
    cbn [depth]. rewrite Hz. destruct (map Text ids); cbn; lia. }
  split; [apply wf_map; [eapply list.Forall_impl; [exact Hok|]; by intros kv [? _]|unfold zlen; lia]|].
  assert (fold_right (fun kv d => Nat.max (Nat.max (depth kv.1) (depth kv.2)) d) 0%nat (min_pin_entries new ids force) <= 1)%nat as Hf.
  { clear Hok Hlen E. induction Hd as [|kv m [Hk Hv] Hd IH]; cbn [fold_right]; lia. }
  cbn [depth]. destruct (min_pin_entries new ids force); lia.
Qed.

Lemma store_min_pin_status max new ids force s status : store_min_pin max new ids force s = inl status -> status <> 0.
Proof. unfold store_min_pin. repeat match goal with |- context [if ?c then _ else _] => destruct c end; by intros [= <-]. Qed.

Lemma min_pin_sim p cf new ids force v : parts_ok p -> cf_token cf = ap_token p ->
  match new with Some n => is_word 64 n | None => True end -> Forall (fun i => wf (Text i)) ids -> zlen ids < 2 ^ 64 ->
  agrees p (admin_op cf (GMinPin new ids force)) (spec_admin_op p cf (GMinPin new ids force)) v.
Proof.
  intros Hp Hcf Hn Hi Hl. cbn [admin_op spec_admin_op].
  apply (setting_sim p _ (s2b "setMinPINLength") _ cf SUB_SET_MIN_PIN_LENGTH (min_pin_params new ids force) (store_min_pin (ap_max_rp_ids p) new ids force));
    [done|done|by_decision|by apply min_pin_params_ok|by apply store_min_pin_status|done|].
  intros Hperm s. unfold key_config. destruct (config_fields (ap_token p) SUB_SET_MIN_PIN_LENGTH (min_pin_params new ids force)) as (-> & -> & -> & ->).
  rewrite granted_own, Hperm. destruct (min_pin_read new ids force) as (Hr1 & Hr2 & Hr3). cbv zeta in Hr1, Hr2, Hr3 |- *. rewrite Hr1, Hr2, Hr3. done.
Qed.
Lemma switch_sim p (flag : bool) name (m : io AdminKey CtapError unit) cf sub f v : parts_ok p -> cf_token cf = ap_token p -> is_word 64 sub ->
  m = (if negb flag then lift (Err (EUnsupported name)) else config_dispatch cf sub None) ->
  (Z.testbit (ap_permissions p) 5 = true -> forall s, key_config p (config_request (ap_token p) sub None) s = setting_answer (settled p sub (fun s => inr (f s)) s) s) ->
  agrees p (gives (fun _ => RDone) (on_key m))
    (guarded flag (EUnsupported name) (guarded (Z.testbit (ap_permissions p) 5) (StatusCode 0x33) (on_state (fun s =>
      match settled p sub (fun s => inr (f s)) s with inr s => (Ok RDone, s) | inl status => (Err (StatusCode status), s) end)))) v.
Proof. intros Hp Hcf Hs Hm Hkey. by apply (setting_sim p flag name m cf sub None (fun s => inr (f s))). Qed.

Lemma admin_op_sim p cf op v : parts_ok p -> state_ok p (vw_state v) -> cf_token cf = ap_token p -> admin_op_ok op ->
  agrees p (admin_op cf op) (spec_admin_op p cf op) v.
Proof.
  intros Hp Hs Hcf Hop. destruct op as [| |t|id t| |id name|id| | |new ids force|].
  - by apply sensor_sim.
  - by apply bio_list_sim.
  - by apply begin_sim.
  - destruct Hop. by apply next_sim.
  - by apply cancel_sim.
  - destruct Hop. by apply rename_sim.
  - by apply bio_remove_sim.
  - apply (switch_sim p _ _ _ cf SUB_ENABLE_ENTERPRISE_ATTESTATION); [done|done|by_decision|done|]. intros Hperm s. unfold key_config.
    destruct (config_fields (ap_token p) SUB_ENABLE_ENTERPRISE_ATTESTATION None) as (-> & -> & -> & ->). by rewrite granted_own, Hperm.
  - apply (switch_sim p _ _ _ cf SUB_TOGGLE_ALWAYS_UV); [done|done|by_decision|done|]. intros Hperm s. unfold key_config.
    destruct (config_fields (ap_token p) SUB_TOGGLE_ALWAYS_UV None) as (-> & -> & -> & ->). by rewrite granted_own, Hperm.
  - destruct Hop as (Hn & Hi & Hl). by apply min_pin_sim.
  - apply (min_pin_sim p cf None [] true v); [done|done|done|constructor|by_decision].
Qed.

(** * Sequences *)

(** The settings are not part of the key's order. *)
Lemma settings_ok p s ep uv min ids force : state_ok p s -> state_ok p (change_settings ep uv min ids force s).
Proof. intros []. by split. Qed.
Lemma no_pending_ok p s seen made : state_ok p s -> state_ok p (change_pending None seen made s).
Proof. intros []. by split. Qed.
Lemma templates_ok p s ts : state_ok p s -> Forall template_ok ts -> zlen ts <= zlen (am_templates s) -> state_ok p (change_templates ts s).
Proof.
  intros [[Ht Hn] Hp] Hts Hl. split; [split; [done|cbn; lia]|]. cbn. destruct (am_pending s) as [[id remaining]|]; [|done].
  destruct Hp as (Hi & Hr & Hroom). split; [done|]. split; [done|lia].
Qed.
Lemma guarded_ok {A} (P : AdminState -> Prop) ok e (f : io AdminView CtapError A) v : P (vw_state v) -> P (vw_state (f v).2) -> P (vw_state (guarded ok e f v).2).
Proof. by destruct ok. Qed.
Lemma on_state_ok {A} (P : AdminState -> Prop) (f : AdminState -> result CtapError A * AdminState) v : P (f (vw_state v)).2 -> P (vw_state (on_state f v).2).
Proof. unfold on_state. by destruct (f (vw_state v)). Qed.

Lemma min_pin_ok p new ids force s : state_ok p s ->
  state_ok p (match settled p 3 (store_min_pin (ap_max_rp_ids p) new ids force) s with inr s => (@Ok CtapError _ RDone, s) | inl status => (Err (StatusCode status), s) end).2.
Proof.
  intros Hs. unfold settled. destruct (ap_denies _ _ _); [done|]. unfold store_min_pin.
  do 3 (match goal with |- context [if ?c then inl _ else _] => destruct c end; [done|]). by apply settings_ok.
Qed.
Lemma spec_admin_ok p cf op v : parts_ok p -> admin_op_ok op -> state_ok p (vw_state v) -> state_ok p (vw_state (spec_admin_op p cf op v).2).
Proof.
  intros Hp Hop Hs. destruct op as [| |t|id t| |id name|id| | |new ids force|]; cbn [spec_admin_op]; repeat (apply guarded_ok; [done|]); unfold spec_templates; try apply on_state_ok; cbn [fst snd].
  - done.
  - done.
  - destruct (ap_capacity p <=? _) eqn:Hfull; [by apply no_pending_ok|]. bools.
    pose proof (begin_ok p (vw_state v) Hp Hs Hfull) as Hok. cbn [vw_state]. destruct (begin_enrollment _ _) as [[[id status] remaining] s']. apply Hok.
  - cbn [vw_state]. destruct (am_pending (vw_state v)) as [[id' remaining]|] eqn:Hpend; [|done]. destruct (negb _); [done|].
    pose proof (sample_ok p id' remaining (vw_state v) Hp) as Hok. destruct Hs as [Hst Hpd]. rewrite Hpend in Hpd.
    destruct (take_sample _ _ _ _) as [[status rem] s']. apply Hok. by split.
  - by apply no_pending_ok.
  - destruct Hop as [Hi Hn]. destruct (has_template _ _); [|done]. pose proof Hs as [[Ht Hl] Hpd]. apply templates_ok; [done|by apply rename_ok|].
    unfold rename_template, zlen. by rewrite length_map.
  - destruct (has_template _ _); [|done]. pose proof Hs as [[Ht Hl] Hpd]. destruct (drop_ok id (am_templates (vw_state v)) Ht). by apply templates_ok.
  - unfold settled. destruct (ap_denies _ _ _); [done|]. by apply settings_ok.
  - unfold settled. destruct (ap_denies _ _ _); [done|]. by apply settings_ok.
  - by apply min_pin_ok.
  - by apply min_pin_ok.
Qed.

Lemma admin_ops_run p cf ops v : parts_ok p -> state_ok p (vw_state v) -> cf_token cf = ap_token p -> Forall admin_op_ok ops ->
  run_all (admin_op cf) ops (bio_of p v) = ((run_all (spec_admin_op p cf) ops v).1, bio_of p (run_all (spec_admin_op p cf) ops v).2).
Proof.
  intros Hp Hs Hcf Hops. revert v Hs. induction Hops as [|op ops Hop Hops IH]; intros v Hs; [done|]. cbn [run_all].
  rewrite (admin_op_sim p cf op v Hp Hs Hcf Hop). pose proof (spec_admin_ok p cf op v Hp Hop Hs) as Hs'.
  destruct (spec_admin_op p cf op v) as [r v']. cbn [fst snd] in *. rewrite (IH v' Hs'). by destruct (run_all (spec_admin_op p cf) ops v').
Qed.

(** * Opening the settings *)

Definition announces (p : AdminParts) (name : list Z) : option bool :=
  find_map (fun o => if bool_decide (o.1 = name) then Some o.2 else None) (ap_options p).
(** The settings the key announced. *)
Definition announced (p : AdminParts) : Configurator :=
  mkConfigurator (ap_token p) (bool_decide (is_Some (announces p (s2b "alwaysUv")))) (bool_decide (is_Some (announces p (s2b "ep"))))
    (bool_decide (announces p (s2b "setMinPINLength") = Some true)).
(** The session's start: what the key announces, then the settings opened by it. *)
Definition open_settings (token : PinUvAuthToken) : io AdminKey CtapError Configurator :=
  info ← get_info; lift (configurator_new token info).

Lemma options_back (l : list (list Z * bool)) : collect_named_bools (Map (map (fun o => (Text o.1, VBool o.2)) l)) = l.
Proof. unfold collect_named_bools. cbn [as_map]. induction l as [|[n b] l IH]; [done|]. cbn in *. by rewrite IH. Qed.

Lemma admin_info_run p s : parts_ok p -> exists info, get_info (mkAdminKey p s) = (Ok info, mkAdminKey p s) /\ options info = ap_options p.
Proof.
  intros Hp. exists (info_of_map (admin_info p)). split; [|exact (options_back (ap_options p))].
  unfold get_info, mbind at 1, io_bind at 1. cbn [transact admin_transport ak_parts ak_state]. unfold admin_answer.
  change (CTAP2_GET_INFO =? CTAP2_GET_INFO) with true. cbv iota. cbn [a_reply split_status]. rewrite io_lift_bind.
  change (negb (0 =? 0)) with false. cbv iota. rewrite decode_encoded.
  - cbn [map_err]. rewrite io_lift_bind. unfold parse_authenticator_info. cbn [as_map ok_or mbind result_bind]. by rewrite info_entries.
  - destruct (po_options p Hp) as [Ho Hl]. unfold admin_info. wf_leaves;
      lazymatch goal with |- wf (Text (s2b _)) => apply ascii_text_wf; by_decision | |- is_word 64 _ => by_decision | |- _ => idtac end.
    apply wf_map; [|unfold zlen in *; by rewrite length_map]. apply Forall_map. eapply list.Forall_impl; [exact Ho|].
    intros [n b] Hn. split; [exact Hn|constructor].
  - assert (forall l : list (list Z * bool), fold_right (fun kv d => Nat.max (Nat.max (depth kv.1) (depth kv.2)) d) 0%nat (map (fun o => (Text o.1, VBool o.2)) l) = 0%nat) as Hz
      by (induction l as [|x l IH]; [done|exact IH]).
    unfold admin_info. cbn. rewrite Hz. destruct (map _ (ap_options p)); cbn; unfold DECODE_DEPTH_LIMIT; lia.
Qed.

Lemma open_settings_run p s : parts_ok p ->
  open_settings (ap_token p) (mkAdminKey p s) =
  (if bool_decide (announces p (s2b "authnrCfg") = Some true) then Ok (announced p) else Err (EUnsupported (s2b "authenticatorConfig")), mkAdminKey p s).
Proof.
  intros Hp. destruct (admin_info_run p s Hp) as (info & Hi & Ho). unfold open_settings. rewrite (io_bind_Ok_eq _ _ _ _ _ Hi).
  assert (forall name, option_flag info name = announces p name) as Hflag by (intros name; unfold option_flag, announces; by rewrite Ho).
  assert (forall x : option bool, negb (bool_decide (x = None)) = bool_decide (is_Some x)) as Hsome.
  { intros [b|]; [by rewrite bool_decide_eq_false_2, bool_decide_eq_true_2|by rewrite bool_decide_eq_true_2, bool_decide_eq_false_2 by (try done; by intros [])]. }
  unfold configurator_new, announced. rewrite !Hflag, !Hsome. by case_bool_decide.
Qed.

Definition is_setting (op : AdminOp) : bool := match op with GEnterprise | GAlwaysUv | GMinPin _ _ _ | GForce => true | _ => false end.
Lemma run_all_ext {S E Op A} (f g : Op -> io S E A) ops s : (forall op, op ∈ ops -> f op = g op) -> run_all f ops s = run_all g ops s.
Proof.
  revert s. induction ops as [|op ops IH]; intros s Hfg; [done|]. cbn [run_all]. rewrite (Hfg op) by constructor.
  destruct (g op s) as [r s']. rewrite IH; [done|]. intros op' Hin. apply Hfg. by constructor.
Qed.

(** * Properties *)

(** C26: enrolling fingerprints and configuring an authenticator do what they say.
    Take the reference authenticator above, which answers as CTAP 2.1 lays down:
    either name of the command, any number of samples for a template, good ones and
    bad ones in any order, any storage, any options announced, with or without a
    PIN, and settings it may also deny for reasons of its own; any token and
    permissions; and any sequence of operations of the two sessions, in any order
    and with any ids. Each gives what a plain record of templates and settings
    gives, and leaves the key so. A template is stored by its last good sample,
    under the key's id, and not before; listing gives the templates with their
    names, none from an empty key; renaming and removing change the one with the
    id; cancelling forgets the one begun; the 65th capture of an enrollment is
    refused by the host without asking the key, and the count starts again with the
    next one. The settings open exactly when the key announces authnrCfg; a setting
    it did not announce is refused without asking. One it announced is stored with
    exactly the minimum length, parties and forced change asked for, and a change is
    forced too when the PIN is shorter than the new minimum; a smaller minimum
    (0x37), a forced change without a PIN (0x35), more parties than it can tell
    (0x28) and what it denies are reported with the key's status and change nothing;
    so is a command whose permission the token lacks (0x33). *)
Theorem ctap_admin_refines (p : AdminParts) (s : AdminState) (ops : list AdminOp) :
  parts_ok p -> state_ok p s -> Forall admin_op_ok ops ->
  let b := bio_new (mkAdminKey p s) (ap_token p) (ap_code p) in
  let '(results, v) := run_all (spec_admin_op p (announced p)) ops (mkView s 0) in
  let after := mkBio (mkAdminKey p (vw_state v)) (ap_token p) (ap_code p) (vw_captures v) in
  open_settings (ap_token p) (mkAdminKey p s) =
    (if bool_decide (announces p (s2b "authnrCfg") = Some true) then Ok (announced p) else Err (EUnsupported (s2b "authenticatorConfig")), mkAdminKey p s) /\
  (forall cf, (open_settings (ap_token p) (mkAdminKey p s)).1 = Ok cf -> run_all (admin_op cf) ops b = (results, after)) /\
  (forall cf, Forall (fun op => is_setting op = false) ops -> run_all (admin_op cf) ops b = (results, after)).
Proof.
  intros Hp Hs Hops b. pose proof (admin_ops_run p (announced p) ops (mkView s 0) Hp Hs eq_refl Hops) as Hrun.
  destruct (run_all (spec_admin_op p (announced p)) ops (mkView s 0)) as [results v]. pose proof (open_settings_run p s Hp) as Ho.
  split; [exact Ho|]. split.
  - intros cf. rewrite Ho. case_bool_decide; [|done]. cbn [fst]. intros [= <-]. exact Hrun.
  - intros cf Hbio. etransitivity; [|exact Hrun]. apply run_all_ext. intros op Hin. rewrite list.Forall_forall in Hbio. specialize (Hbio op Hin). by destruct op.
Qed.
End admin.
