(* ===== verification/FidoModel.v ===== *)
(** A concrete instance of ClientPin's interface to the curve and the cipher, and
    an authenticator over it, to evaluate the theorems that assume their laws. *)
From S2P Require Export FidoCreds FidoAdmin.
From S2P Require Export CryptoModel.

Definition model_cipher : PinCipher := {|
  EphemeralSecret := Z;
  eph_x s := replicate 32 (s mod 256);
  eph_y s := replicate 32 (s mod 256);
  eph_ecdh a x _ := Some (replicate 32 ((a * hd 0 x) mod 256));
  aes_cbc_enc k iv d := rev d;
  aes_cbc_dec k iv d := rev d
|}.
#[local] Existing Instance model_crypto.
#[local] Existing Instance model_cipher.

Lemma model_cipher_laws : PinCipherLaws.
Proof.
  assert (forall s : Z, Bytes (replicate 32 (s mod 256)) /\ length (replicate 32 (s mod 256)) = 32%nat) as Ho.
  { intros s. split; [|done]. apply Forall_replicate. unfold is_byte. pose proof (Z.mod_pos_bound s 256). lia. }
  split; cbn.
  - apply Ho.
  - apply Ho.
  - intros a b. by rewrite !Z.mul_mod_idemp_r, Z.mul_comm by done.
  - intros a b. by eexists.
  - intros _ _ d Hd _. split; [by apply Forall_rev|]. unfold zlen. by rewrite length_rev.
  - intros _ _ d _ _. by rewrite rev_involutive.
Qed.

Definition model_random (n : nat) : PinRandom := mkPinRandom _ (Z.of_nat n + 3) (fun i => replicate 16 (Z.of_nat i mod 256)).
Definition fido_key (strict force : bool) (protocols : list Z) (parties : list Party) : FidoKey :=
  mkFido protocols strict false (fun n => Z.of_nat n + 40) (fun n => replicate 32 (Z.of_nat n mod 256)) (fun n => replicate 16 (Z.of_nat n mod 256))
    (fun pin => 4 <=? zlen pin) None 8 0 force 0 None 0 None parties 20 [].

Lemma repeated_byte k (n : nat) : Bytes (replicate k (Z.of_nat n mod 256)).
Proof. apply Forall_replicate. unfold is_byte. pose proof (Z.mod_pos_bound (Z.of_nat n) 256). lia. Qed.

Lemma model_random_ok n : random_ok (model_random n).
Proof. intros i. split; [apply repeated_byte|done]. Qed.
Lemma fido_key_ok strict force parties : fido_ok (fido_key strict force [2; 1] parties).
Proof.
  split.
  - by_decision.
  - split; by_decision.
  - intros n. split; [apply (repeated_byte 32)|by right].
  - intros n. split; [apply (repeated_byte 16)|done].
  - by_decision.
Qed.

Definition some_pin_ops : list PinOp :=
  [PToken (s2b "1234"); PSet (s2b "123"); PSet (s2b "1234"); PSet (s2b "2345"); PUnlock (s2b "9999") 4; PRetries; PUnlock (s2b "1234") 4;
   PChange (s2b "1234") (s2b "longer"); PToken (s2b "longer"); PRetries; PToken (s2b "1111"); PToken (s2b "2222"); PToken (s2b "3333");
   PToken (s2b "longer"); PRetries; PReplug; PUnlock (s2b "longer") 0; PToken (s2b "longer"); PRetries].

Lemma ctap_pin_refines_witness :
  let k := fido_key true false [2; 1] [] in
  (run_pin_ops (fun n => pin_op (model_random n)) 0 some_pin_ops k).1 =
  [Err (Some (StatusCode 0x35)); Err (Some (InvalidArgument (s2b "PIN must be 4..=63 UTF-8 bytes"))); Ok PDone; Err (Some (StatusCode 0x33));
   Err (Some (StatusCode 0x31)); Ok (PTries 7); Ok (PGranted (mkToken 2 (replicate 32 0))); Ok PDone; Ok (PGranted (mkToken 2 (replicate 32 1))); Ok (PTries 8);
   Err (Some (StatusCode 0x31)); Err (Some (StatusCode 0x31)); Err (Some (StatusCode 0x34)); Err (Some (StatusCode 0x34)); Ok (PTries 5); Ok PDone;
   Err (Some (StatusCode 0x02)); Ok (PGranted (mkToken 2 (replicate 32 2))); Ok (PTries 8)].
Proof.
  cbv zeta. rewrite (proj1 (@ctap_pin_refines _ model_crypto_laws _ model_cipher_laws (fido_key true false [2; 1] []) model_random some_pin_ops
    (fido_key_ok true false []) model_random_ok ltac:(repeat (apply list.Forall_cons; split); first [exact I|split; by_decision|by_decision|constructor]))).
  vm_compute. reflexivity.
Defined.

Definition some_passkey (id : Z) : Credential := mkCredential [id; 7] (mkUser [id] (Some (s2b "ann")) None) (Some (-7)) (Some (replicate 32 id)).
Definition some_parties : list Party :=
  [mkParty (s2b "a.example") (Some (s2b "A")) (replicate 32 1) [some_passkey 1; some_passkey 2];
   mkParty (s2b "b.example") None (replicate 32 2) [mkCredential [9] (mkUser [3] None (Some (s2b "Bo"))) None None]].
Definition managed_key (strict : bool) : FidoKey := put_pin (Some (left16_sha256 (s2b "1234"))) 8 false (fido_key strict false [2; 1] some_parties).

Lemma some_text (s : list Z) : bool_decide (is_str s) && forallb (fun b => (0 <=? b) && (b <? 256)) s = true -> zlen s < 2 ^ 64 -> wf (Text s).
Proof.
  intros [Hs Hb]%andb_true_iff Hl. constructor; [|by apply bool_decide_eq_true in Hs|done]. apply list.Forall_forall. intros x Hx%list_elem_of_In.
  rewrite forallb_forall in Hb. specialize (Hb x Hx). bools. unfold is_byte. lia.
Qed.
Lemma some_parties_ok : vault_ok (mkVault some_parties 20).
Proof.
  split; [split| |]; [|by_decision..].
  assert (forall b, Forall is_byte b -> zlen b < 2 ^ 64 -> wf (VBytes b)) as Hb by (intros; by constructor).
  repeat apply Forall_cons_2; try apply Forall_nil_2; repeat split; cbn [pt_id pt_name pt_hash pt_keys cred_user u_name u_display_name opt_text_ok some_passkey];
    first [done|by_decision|apply Hb; by_decision|apply some_text; by_decision|idtac].
  all: repeat (apply Forall_cons_2; [repeat split|]); try apply Forall_nil_2; first [done|by_decision|apply Hb; by_decision|apply some_text; by_decision].
Qed.
Definition some_cred_ops : list CredOp := [CMeta; CParties; CKeys (replicate 32 1); CDelete [1; 7]; CDelete [1; 7]; CDelete [9]; CParties; CMeta].

Lemma ctap_passkeys_managed_witness :
  (manage (model_random 5) (s2b "1234") 4 some_cred_ops (managed_key true)).1 =
  Ok [Ok (AMeta (mkMetadata 3 20)); Ok (AParties (map listed_party some_parties)); Ok (AKeys [some_passkey 1; some_passkey 2]); Ok ADeleted;
      Err (StatusCode 0x2E); Ok ADeleted; Ok (AParties [mkRp (s2b "a.example") (Some (s2b "A")) (Some (replicate 32 1))]); Ok (AMeta (mkMetadata 1 22))].
Proof.
  rewrite (proj1 (@ctap_passkeys_managed _ model_crypto_laws _ model_cipher_laws (model_random 5) (s2b "1234") 4 some_cred_ops (managed_key true)
    (put_pin_ok _ 8 false _ (fido_key_ok true false some_parties) ltac:(done)) some_parties_ok (model_random_ok 5) ltac:(by_decision)
    ltac:(repeat (apply list.Forall_cons; split); first [exact I|split; by_decision|constructor]) eq_refl ltac:(done) eq_refl eq_refl)).
  vm_compute. reflexivity.
Defined.

(** It announces everything but enterprise attestation, and denies to toggle
    alwaysUv while a change of PIN is due. *)
Definition some_parts : AdminParts :=
  mkParts BioEnroll.CTAP2_BIO_ENROLLMENT 2 5 (Some 64) (fun n => if bool_decide (n = 1%nat) then 3 else 0) (fun n => [Z.of_nat n mod 256]) (mkToken 2 (replicate 32 5)) 0x28
    [(s2b "authnrCfg", true); (s2b "alwaysUv", false); (s2b "setMinPINLength", true)] 2
    (fun s sub => if am_force s && (sub =? 2) then Some 0x27 else None).
Definition some_settings : AdminState := mkAdmin [] None 0 0 false false 4 [] false (Some 5).
Definition some_admin_ops : list AdminOp :=
  [BList; BBegin None; BNext [0] (Some 1000); BList; BNext [0] None; BNext [0] None; BRename [0] (s2b "thumb"); BRename [9] (s2b "x"); BList;
   GEnterprise; GAlwaysUv; GMinPin (Some 6) [s2b "a.example"] false; GAlwaysUv; GMinPin (Some 5) [] false;
   GMinPin None [s2b "a.example"; s2b "b.example"; s2b "c.example"] false; GForce; BRemove [0]; BList].

Lemma some_parts_ok : parts_ok some_parts.
Proof.
  split; cbn.
  - by left.
  - by_decision.
  - split; [done|]. split; [done|]. intros n [= <-]. by_decision.
  - intros n. by case_bool_decide.
  - intros n. constructor; [|done]. apply Forall_cons_2; [|constructor]. unfold is_byte. pose proof (Z.mod_pos_bound (Z.of_nat n) 256). lia.
  - split; [|by_decision]. repeat (apply Forall_cons_2; [apply some_text; by_decision|]). constructor.
  - intros s sub status. cbn. destruct (_ && _); by intros [= <-].
Qed.

Definition some_admin_results : list (result CtapError AdminAnswer) :=
  [Ok (RList []); Ok (RBegin [0] (BioEnroll.mkCapture 0 1)); Ok (RNext (BioEnroll.mkCapture 3 1)); Ok (RList []); Ok (RNext (BioEnroll.mkCapture 0 0));
    Err (StatusCode 0x2C); Ok RDone; Err (StatusCode 0x2C); Ok (RList [BioEnroll.mkEnrollment [0] (Some (s2b "thumb"))]);
    Err (EUnsupported (s2b "enableEnterpriseAttestation")); Ok RDone; Ok RDone; Err (StatusCode 0x27); Err (StatusCode 0x37); Err (StatusCode 0x28);
    Ok RDone; Ok RDone; Ok (RList [])].
Definition some_settings_after : AdminState := mkAdmin [] None 3 1 false true 6 [s2b "a.example"] true (Some 5).

Lemma ctap_admin_refines_witness :
  let k := mkAdminKey some_parts some_settings in
  open_settings (ap_token some_parts) k = (Ok (announced some_parts), k) /\
  run_all (admin_op (announced some_parts)) some_admin_ops (BioEnroll.bio_new k (ap_token some_parts) (ap_code some_parts)) =
    (some_admin_results, BioEnroll.mkBio (mkAdminKey some_parts some_settings_after) (ap_token some_parts) (ap_code some_parts) 3).
Proof.
  assert (forall b, Forall is_byte b -> zlen b < 2 ^ 64 -> wf (VBytes b)) as Hb by (intros; by constructor).
  pose proof (@ctap_admin_refines _ model_crypto_laws some_parts some_settings some_admin_ops some_parts_ok
    ltac:(split; [split; [constructor|by_decision]|exact I])
    ltac:(repeat (apply Forall_cons_2; [cbn [admin_op_ok]; repeat split; first [done|by_decision|apply Hb; by_decision|apply some_text; by_decision|
      (repeat (apply Forall_cons_2; [apply some_text; by_decision|]); constructor)]|]); constructor)) as Hrun.
  assert (run_all (spec_admin_op some_parts (announced some_parts)) some_admin_ops (mkView some_settings 0) =
    (some_admin_results, mkView some_settings_after 3)) as E by (vm_compute; reflexivity).
  assert (bool_decide (announces some_parts (s2b "authnrCfg") = Some true) = true) as Ha by (vm_compute; reflexivity).
  cbv zeta in Hrun |- *. rewrite E, Ha in Hrun. destruct Hrun as (Ho & Hrun & _). split; [exact Ho|]. apply Hrun. by rewrite Ho.
Defined.
