(* ===== verification/CtapHid.v ===== *)
(** keyroost-ctap/src/hid.rs: CTAP messages over 64-byte HID reports. The
    device's channel is a state whose environment is a script: what each read,
    write, clock read and cancel check will give. A script that ends before the
    call returns gives [None]: the call is still waiting. *)
From S2P Require Export Ctap Trace.

(** * Constants *)

Definition CTAPHID_BROADCAST_CID : Z := 0xFFFFFFFF.
Definition CTAPHID_REPORT_SIZE : Z := 64.
Definition CTAPHID_MAX_PAYLOAD : Z := 7609.
Definition INIT_FRAME_HEADER : Z := 7.
Definition CONT_FRAME_HEADER : Z := 5.
Definition INIT_FRAME_DATA : Z := CTAPHID_REPORT_SIZE - INIT_FRAME_HEADER.
Definition CONT_FRAME_DATA : Z := CTAPHID_REPORT_SIZE - CONT_FRAME_HEADER.
Definition CTAPHID_INIT : Z := 0x86.
Definition CTAPHID_KEEPALIVE : Z := 0xBB.
Definition CTAPHID_ERROR : Z := 0xBF.
Definition CTAPHID_ERR_INVALID_CMD : Z := 0x01.
Definition CTAPHID_ERR_INVALID_PAR : Z := 0x02.
Definition CTAPHID_ERR_INVALID_LEN : Z := 0x03.
Definition CTAPHID_ERR_INVALID_SEQ : Z := 0x04.
Definition CTAPHID_ERR_MSG_TIMEOUT : Z := 0x05.
Definition CTAPHID_ERR_CHANNEL_BUSY : Z := 0x06.
Definition CTAPHID_ERR_LOCK_REQUIRED : Z := 0x0A.
Definition CTAPHID_ERR_INVALID_CHANNEL : Z := 0x0B.
Definition CTAPHID_ERR_OTHER : Z := 0x7F.
Definition CHANNEL_BUSY_MAX_ATTEMPTS : Z := 4.
(** Milliseconds. *)
Definition CHANNEL_BUSY_RETRY_DELAY : Z := 200.
Definition CHANNEL_BUSY_TOTAL_BUDGET : Z := 1500.
Definition CAPABILITY_WINK : Z := 0x01.
Definition CAPABILITY_CBOR : Z := 0x04.
Definition CAPABILITY_NMSG : Z := 0x08.

(** * Error texts *)

Definition ctaphid_error_meaning (code : Z) : option (list Z * list Z) :=
  if code =? CTAPHID_ERR_INVALID_CMD then Some (s2b "ERR_INVALID_CMD",
    s2b "the key did not recognise the command " ++ EM_DASH ++ s2b " its firmware may not support this feature")
  else if code =? CTAPHID_ERR_INVALID_PAR then Some (s2b "ERR_INVALID_PAR",
    s2b "the key rejected a parameter in the request as invalid")
  else if code =? CTAPHID_ERR_INVALID_LEN then Some (s2b "ERR_INVALID_LEN",
    s2b "the key rejected the request's declared message length")
  else if code =? CTAPHID_ERR_INVALID_SEQ then Some (s2b "ERR_INVALID_SEQ",
    s2b "the key saw the message's frames arrive out of order")
  else if code =? CTAPHID_ERR_MSG_TIMEOUT then Some (s2b "ERR_MSG_TIMEOUT",
    s2b "the key gave up waiting for the rest of the message")
  else if code =? CTAPHID_ERR_CHANNEL_BUSY then Some (s2b "ERR_CHANNEL_BUSY",
    s2b "the key's HID channel was busy and stayed busy after retrying " ++ EM_DASH ++
    s2b " close anything else using the key (a browser sign-in prompt, an agent) and try again")
  else if code =? CTAPHID_ERR_LOCK_REQUIRED then Some (s2b "ERR_LOCK_REQUIRED",
    s2b "the command needs an exclusive channel lock this client does not hold")
  else if code =? CTAPHID_ERR_INVALID_CHANNEL then Some (s2b "ERR_INVALID_CHANNEL",
    s2b "the key no longer recognises this channel " ++ EM_DASH ++ s2b " remove and re-insert the key")
  else if code =? CTAPHID_ERR_OTHER then Some (s2b "ERR_OTHER",
    s2b "the key reported an unspecified internal error")
  else None.

(** [Display for HidTransportError]. *)
Definition hid_error_text (e : HidTransportError) : list Z :=
  match e with
  | Io e => s2b "HID I/O error: " ++ e
  | Timeout => s2b "CTAP transaction timed out"
  | UnexpectedCommand expected got =>
      s2b "expected CTAPHID command 0x" ++ hex_upper expected ++ s2b ", got 0x" ++ hex_upper got
  | InitResponseTooShort => s2b "CTAPHID_INIT response was shorter than 17 bytes"
  | PayloadTooLarge n => s2b "payload too large: " ++ dec n ++ s2b " bytes"
  | OutOfSequence expected got =>
      s2b "continuation frame out of sequence: expected SEQ=" ++ dec expected ++ s2b ", got SEQ=" ++ dec got
  | DeviceError c =>
      match ctaphid_error_meaning c with
      | Some (name, hint) => hint ++ s2b " (CTAPHID error 0x" ++ hex_upper c ++ s2b " " ++ name ++ s2b ")"
      | None => s2b "device reported CTAPHID_ERROR code 0x" ++ hex_upper c
      end
  | Cancelled => s2b "operation cancelled"
  | Backend s => s2b "HID backend error: " ++ s
  end.

Definition busy_retry_delay (code attempt elapsed : Z) : option Z :=
  if negb (code =? CTAPHID_ERR_CHANNEL_BUSY) || (CHANNEL_BUSY_MAX_ATTEMPTS <=? attempt) then None
  else if CHANNEL_BUSY_TOTAL_BUDGET <=? elapsed + CHANNEL_BUSY_RETRY_DELAY then None
  else Some CHANNEL_BUSY_RETRY_DELAY.

Record InitResponse := mkInit {
  init_channel : Z; protocol_version : Z; device_major : Z; device_minor : Z;
  device_build : Z; capabilities : Z
}.

Definition supports_cbor (r : InitResponse) : bool := negb (Z.land (capabilities r) CAPABILITY_CBOR =? 0).
Definition supports_u2f (r : InitResponse) : bool := Z.land (capabilities r) CAPABILITY_NMSG =? 0.
Definition supports_wink (r : InitResponse) : bool := negb (Z.land (capabilities r) CAPABILITY_WINK =? 0).

(** * The trace *)

(** ["{:02x}"]. *)
Definition hex_lower (n : Z) : list Z :=
  let digit d := if d <? 10 then 48 + d else 87 + d in [digit (n / 16); digit (n mod 16)].

Definition hexline (bytes : list Z) : list Z := flat_map hex_lower bytes.

Definition ctap_cmd_name (cmd : Z) : list Z :=
  let c := Z.land cmd 0x7F in
  if c =? 0x01 then s2b "ping" else if c =? 0x03 then s2b "msg" else if c =? 0x06 then s2b "init"
  else if c =? 0x08 then s2b "wink" else if c =? 0x10 then s2b "cbor" else if c =? 0x11 then s2b "cancel"
  else if c =? 0x3B then s2b "keepalive" else if c =? 0x3F then s2b "error"
  else s2b "0x" ++ hex_lower cmd.

Definition ctap_line (dir : Dir) (cmd len : Z) (payload : list Z) : list Z :=
  format_line dir (s2b "ctaphid " ++ ctap_cmd_name cmd) (s2b "len=" ++ dec len ++ s2b " " ++ payload).

Definition client_pin_subcommand (body : list Z) : option Z :=
  '(value, _) ← result_ok (decode body);
  m ← as_map value;
  kv ← find_map (fun kv => if bool_decide (as_uint kv.1 = Some 0x02) then Some kv else None) m;
  as_uint kv.2.

Definition exchange_is_sensitive (cmd : Z) (payload : list Z) : bool :=
  if 0xC0 <=? cmd then true
  else if negb (cmd =? CTAPHID_CBOR) then false
  else match payload with
       | b :: body =>
           if bool_decide (b ∈ [0x0A; 0x41; 0x09; 0x40; 0x0C; 0x0D]) then true
           else if b =? 0x06 then
             negb (bool_decide (client_pin_subcommand body = Some 0x01) ||
                   bool_decide (client_pin_subcommand body = Some 0x02))
           else false
       | [] => false
       end.

Definition REDACTED : list Z := s2b "<redacted: personal-data payload>".

Definition trace_payload (payload : list Z) (sensitive : bool) : list Z :=
  if sensitive then REDACTED else hexline payload.

(** The note between two attempts. *)
Definition busy_line (cmd code attempt delay : Z) : list Z :=
  format_line Note (s2b "ctaphid " ++ ctap_cmd_name cmd)
    (s2b "busy (error 0x" ++ hex_lower code ++ s2b "), retry " ++ dec attempt ++ s2b " in " ++ dec delay ++ s2b "ms").

(** * The device *)

(** What the rest of the run will observe. *)
Record Script := mkScript {
  clock : list Z;                                   (* Instant::now(), milliseconds *)
  cancels : list bool;                              (* the cancel flag; not set once the list ends *)
  reads : list (result HidTransportError (list Z)); (* one bounded read each, empty when it timed out *)
  writes : list (option HidTransportError)          (* one write each; succeeding once the list ends *)
}.

Record CtapHidDevice := mkDev {
  script : Script;
  channel_id : Z;
  timeout : Z;
  hooked : option (list Z);  (* statuses the keepalive hook was called with, if one is installed *)
  written : list (list Z);   (* the reports written *)
  trace_on : bool;
  printed : list (list Z);
  capture : Capture
}.

Definition hid (A : Type) : Type := CtapHidDevice -> option (result HidTransportError A) * CtapHidDevice.

#[export] Instance hid_ret : MRet hid := fun A a d => (Some (Ok a), d).
#[export] Instance hid_bind : MBind hid := fun A B f m d =>
  match m d with
  | (Some (Ok a), d') => f a d'
  | (Some (Err e), d') => (Some (Err e), d')
  | (None, d') => (None, d')
  end.

Definition fail {A} (e : HidTransportError) : hid A := fun d => (Some (Err e), d).
Definition waiting {A} : hid A := fun d => (None, d).

Definition set_script (d : CtapHidDevice) (s : Script) : CtapHidDevice :=
  mkDev s (channel_id d) (timeout d) (hooked d) (written d) (trace_on d) (printed d) (capture d).

(** [Instant::now()]. *)
Definition now : hid Z := fun d =>
  let '(mkScript c k r w) := script d in
  match c with t :: c => (Some (Ok t), set_script d (mkScript c k r w)) | [] => (None, d) end.

Definition cancel_requested : hid bool := fun d =>
  let '(mkScript c k r w) := script d in
  match k with b :: k => (Some (Ok b), set_script d (mkScript c k r w)) | [] => (Some (Ok false), d) end.

(** One [read_nonblocking_bounded]. *)
Definition raw_read : hid (list Z) := fun d =>
  let '(mkScript c k r w) := script d in
  match r with x :: r => (Some x, set_script d (mkScript c k r w)) | [] => (None, d) end.

Definition write_report (frame : list Z) : hid unit := fun d =>
  let '(mkScript c k r w) := script d in
  let d' := mkDev (mkScript c k r (tail w)) (channel_id d) (timeout d) (hooked d) (written d ++ [frame])
    (trace_on d) (printed d) (capture d) in
  match w with Some e :: _ => (Some (Err e), set_script d (mkScript c k r (tail w))) | _ => (Some (Ok tt), d') end.

(** [hook(status)], when a hook is installed. *)
Definition call_hook (status : Z) : hid unit := fun d =>
  (Some (Ok tt), mkDev (script d) (channel_id d) (timeout d)
    (option_map (fun l => l ++ [status]) (hooked d)) (written d) (trace_on d) (printed d) (capture d)).

(** [emit(ctap_trace_enabled(), line)]. *)
Definition trace (line : list Z) : hid unit := fun d =>
  let '(out, cap) := emit (trace_on d) line (capture d) in
  (Some (Ok tt), mkDev (script d) (channel_id d) (timeout d) (hooked d) (written d) (trace_on d) (printed d ++ out) cap).

Definition get_timeout : hid Z := fun d => (Some (Ok (timeout d)), d).
Definition get_channel : hid Z := fun d => (Some (Ok (channel_id d)), d).

(** [None]: no report within the read's own bound. *)
Definition read_report : hid (option (list Z)) :=
  buf ← raw_read;
  if zlen buf =? 0 then mret None
  else if negb (zlen buf =? CTAPHID_REPORT_SIZE) then
    fail (Io (s2b "short HID read: " ++ dec (zlen buf) ++ s2b " of " ++ dec CTAPHID_REPORT_SIZE ++ s2b " bytes"))
  else mret (Some buf).

Definition wait_report (deadline : Z) : hid (option (list Z)) :=
  t ← now;
  if deadline <=? t then fail Timeout else
  cancelled ← cancel_requested;
  if (cancelled : bool) then fail Cancelled else
  read_report.

(** ** Sending *)

(** One 65-byte output report: the report ID, then a frame padded with zeros. *)
Definition report (cid b4 : Z) (rest : list Z) : list Z :=
  let frame := [0x00] ++ to_be 4 cid ++ [b4] ++ rest in
  frame ++ replicate (Z.to_nat (CTAPHID_REPORT_SIZE + 1 - zlen frame)) 0.

(** The continuation frames: [fuel] at least the bytes left. *)
Fixpoint send_cont (fuel : nat) (cid : Z) (payload : list Z) (offset seq : Z) : hid unit :=
  match fuel with
  | O => mret tt
  | S fuel =>
      if negb (offset <? zlen payload) then mret tt else
      let chunk := Z.min (zlen payload - offset) CONT_FRAME_DATA in
      _ ← write_report (report cid (Z.land seq 0x7F)
             (slice payload (Z.to_nat offset) (Z.to_nat (offset + chunk))));
      send_cont fuel cid payload (offset + chunk) (wadd 8 seq 1)
  end.

Definition send (cid cmd : Z) (payload : list Z) : hid unit :=
  if CTAPHID_MAX_PAYLOAD <? zlen payload then fail (PayloadTooLarge (zlen payload)) else
  let first_chunk := Z.min (zlen payload) INIT_FRAME_DATA in
  _ ← write_report (report cid cmd
         ([cast 8 (Z.shiftr (zlen payload) 8); cast 8 (Z.land (zlen payload) 0xFF)] ++ take (Z.to_nat first_chunk) payload));
  send_cont (length payload) cid payload first_chunk 0.

(** ** Receiving *)

Definition frame_cid (buf : list Z) : Z := from_be (take 4 buf).

(** The continuation loop of [recv_by]; every turn reads once or stops. *)
Fixpoint recv_cont (fuel : nat) (expected_cid deadline bcnt : Z) (payload : list Z) (seq : Z) : hid (list Z) :=
  match fuel with
  | O => waiting
  | S fuel =>
      if negb (zlen payload <? bcnt) then mret payload else
      r ← wait_report deadline;
      match r with
      | None => recv_cont fuel expected_cid deadline bcnt payload seq
      | Some buf =>
          if negb (frame_cid buf =? expected_cid) then recv_cont fuel expected_cid deadline bcnt payload seq else
          let s := buf !!! 4%nat in
          if negb (Z.land s 0x80 =? 0) then fail (UnexpectedCommand 0x00 s) else
          if negb (s =? seq) then fail (OutOfSequence seq s) else
          let rem := bcnt - zlen payload in
          let chunk := Z.min rem CONT_FRAME_DATA in
          let payload := payload ++ slice buf (Z.to_nat CONT_FRAME_HEADER) (Z.to_nat (CONT_FRAME_HEADER + chunk)) in
          recv_cont fuel expected_cid deadline bcnt payload (wadd 8 seq 1)
      end
  end.

Fixpoint recv_loop (fuel : nat) (expected_cid expected_cmd deadline : Z) : hid (list Z) :=
  match fuel with
  | O => waiting
  | S fuel =>
      r ← wait_report deadline;
      match r with
      | None => recv_loop fuel expected_cid expected_cmd deadline
      | Some buf =>
          let cid := frame_cid buf in
          let cmd := buf !!! 4%nat in
          if negb (cid =? expected_cid) then recv_loop fuel expected_cid expected_cmd deadline
          else if cmd =? CTAPHID_KEEPALIVE then
            cancelled ← cancel_requested;
            if (cancelled : bool) then fail Cancelled else
            _ ← call_hook (buf !!! 7%nat);
            t ← now;
            timeout ← get_timeout;
            recv_loop fuel expected_cid expected_cmd (t + timeout)
          else if cmd =? CTAPHID_ERROR then fail (DeviceError (buf !!! 7%nat))
          else if negb (cmd =? expected_cmd) then fail (UnexpectedCommand expected_cmd cmd)
          else
            let bcnt := from_be (slice buf 5 7) in
            if CTAPHID_MAX_PAYLOAD <? bcnt then fail (PayloadTooLarge bcnt) else
            let take_ := Z.min bcnt INIT_FRAME_DATA in
            let payload := slice buf (Z.to_nat INIT_FRAME_HEADER) (Z.to_nat (INIT_FRAME_HEADER + take_)) in
            recv_cont (S fuel) expected_cid deadline bcnt payload 0
      end
  end.

(** Fuel: one turn per scripted read, and one to find the script ended. *)
Definition recv_by (expected_cid expected_cmd deadline : Z) : hid (list Z) := fun d =>
  recv_loop (S (length (reads (script d)))) expected_cid expected_cmd deadline d.

Definition recv (expected_cid expected_cmd : Z) : hid (list Z) :=
  t ← now; timeout ← get_timeout; recv_by expected_cid expected_cmd (t + timeout).

(** ** Opening and transacting *)

(** The answer loop of [do_init]. *)
Fixpoint init_loop (fuel : nat) (nonce : list Z) (deadline : Z) : hid InitResponse :=
  match fuel with
  | O => waiting
  | S fuel =>
      resp ← recv_by CTAPHID_BROADCAST_CID CTAPHID_INIT deadline;
      _ ← trace (ctap_line Received CTAPHID_INIT (zlen resp) (hexline resp));
      if zlen resp <? 17 then fail InitResponseTooShort else
      if negb (bool_decide (take 8 resp = nonce)) then init_loop fuel nonce deadline else
      mret (mkInit (from_be (slice resp 8 12)) (resp !!! 12%nat) (resp !!! 13%nat) (resp !!! 14%nat)
              (resp !!! 15%nat) (resp !!! 16%nat))
  end.

Definition init_answers (nonce : list Z) (deadline : Z) : hid InitResponse := fun d =>
  init_loop (S (length (reads (script d)))) nonce deadline d.

Definition do_init (nonce : list Z) : hid InitResponse :=
  _ ← trace (ctap_line Sent CTAPHID_INIT (zlen nonce) (hexline nonce));
  _ ← send CTAPHID_BROADCAST_CID CTAPHID_INIT nonce;
  t ← now; timeout ← get_timeout;
  init_answers nonce (t + timeout).

Definition set_channel (cid : Z) : hid unit := fun d =>
  (Some (Ok tt), mkDev (script d) cid (timeout d) (hooked d) (written d) (trace_on d) (printed d) (capture d)).

(** [open], once the node is open: the device with its channel. *)
Definition open (nonce : list Z) : hid InitResponse :=
  init ← do_init nonce; _ ← set_channel (init_channel init); mret init.

Definition sleep_between_attempts (delay : Z) : hid unit :=
  c1 ← cancel_requested;
  if (c1 : bool) then fail Cancelled else
  c2 ← cancel_requested;
  if (c2 : bool) then fail Cancelled else mret tt.

(** One attempt: its error is a value here. *)
Definition attempt_once (cmd : Z) (payload : list Z) : hid (result HidTransportError (list Z)) := fun d =>
  match (cid ← get_channel; _ ← send cid cmd payload; recv cid cmd) d with
  | (Some r, d') => (Some (Ok r), d')
  | (None, d') => (None, d')
  end.

(** [fuel]: the attempts left ([CHANNEL_BUSY_MAX_ATTEMPTS] to begin with). *)
Fixpoint transact_loop (fuel : nat) (cmd : Z) (payload : list Z) (sensitive : bool) (started attempt : Z) :
    hid (list Z) :=
  _ ← trace (ctap_line Sent cmd (zlen payload) (trace_payload payload sensitive));
  outcome ← attempt_once cmd payload;
  match outcome with
  | Ok resp =>
      _ ← trace (ctap_line Received cmd (zlen resp) (trace_payload resp sensitive));
      mret resp
  | Err (DeviceError code) =>
      t ← now;
      match busy_retry_delay code attempt (t - started) with
      | None => fail (DeviceError code)
      | Some delay =>
          _ ← trace (busy_line cmd code attempt delay);
          _ ← sleep_between_attempts delay;
          match fuel with
          | O => waiting
          | S fuel => transact_loop fuel cmd payload sensitive started (attempt + 1)
          end
      end
  | Err e => fail e
  end.

Definition transact (cmd : Z) (payload : list Z) : hid (list Z) :=
  let sensitive := exchange_is_sensitive cmd payload in
  started ← now;
  transact_loop 3 cmd payload sensitive started 1.

(** * Lemmas *)

Lemma hid_bind_Ok {A B} (m : hid A) (f : A -> hid B) d a d1 :
  m d = (Some (Ok a), d1) -> (m ≫= f) d = f a d1.
Proof. unfold mbind, hid_bind. by intros ->. Qed.

Lemma hid_bind_inv {A B} (m : hid A) (f : A -> hid B) d b d' :
  (m ≫= f) d = (Some (Ok b), d') <-> exists a d1, m d = (Some (Ok a), d1) /\ f a d1 = (Some (Ok b), d').
Proof.
  unfold mbind, hid_bind. destruct (m d) as [[[a|e]|] d1]; split; try done.
  - eauto.
  - by intros (a' & d1' & [= <- <-] & ?).
  - by intros (a' & d1' & ? & _).
  - by intros (a' & d1' & ? & _).
Qed.

(** ** What an operation does to the device, whatever it returns *)

Section respects.
Context (R : CtapHidDevice -> CtapHidDevice -> Prop) `{!PreOrder R}.

Definition respects {A} (m : hid A) : Prop := forall d, R d (m d).2.

Lemma respects_ret {A} (a : A) : respects (mret a).
Proof. intros d. simpl. reflexivity. Qed.
Lemma respects_fail {A} e : respects (@fail A e).
Proof. intros d. simpl. reflexivity. Qed.
Lemma respects_waiting {A} : respects (@waiting A).
Proof. intros d. simpl. reflexivity. Qed.
Lemma respects_bind {A B} (m : hid A) (f : A -> hid B) :
  respects m -> (forall a, respects (f a)) -> respects (m ≫= f).
Proof.
  intros Hm Hf d. unfold mbind, hid_bind. specialize (Hm d).
  destruct (m d) as [[[a|e]|] d1]; simpl in *; [|done|done]. etransitivity; [exact Hm|]. apply Hf.
Qed.
Lemma respects_if {A} (b : bool) (m1 m2 : hid A) : respects m1 -> respects m2 -> respects (if b then m1 else m2).
Proof. by destruct b. Qed.
Lemma respects_opt {A B} (o : option A) (m1 : hid B) (m2 : A -> hid B) :
  respects m1 -> (forall a, respects (m2 a)) -> respects (match o with None => m1 | Some a => m2 a end).
Proof. by destruct o. Qed.
End respects.

#[export] Hint Resolve respects_ret respects_fail respects_waiting respects_bind respects_if respects_opt : kr.

(** Receiving only consumes the script and calls the hook. *)
Section receiving.
Context (R : CtapHidDevice -> CtapHidDevice -> Prop) `{!PreOrder R}.
Hypothesis R_script : forall d s, R d (set_script d s).
Hypothesis R_hook : forall st, respects R (call_hook st).

Lemma now_respects : respects R now.
Proof. intros d. unfold now. destruct (script d) as [[|t c] k r w]; simpl; [reflexivity|apply R_script]. Qed.
Lemma cancel_respects : respects R cancel_requested.
Proof. intros d. unfold cancel_requested. destruct (script d) as [c [|b k] r w]; simpl; [reflexivity|apply R_script]. Qed.
Lemma raw_read_respects : respects R raw_read.
Proof. intros d. unfold raw_read. destruct (script d) as [c k [|x r] w]; simpl; [reflexivity|apply R_script]. Qed.
Lemma get_timeout_respects : respects R get_timeout.
Proof. intros d. simpl. reflexivity. Qed.
Lemma get_channel_respects : respects R get_channel.
Proof. intros d. simpl. reflexivity. Qed.
Lemma read_report_respects : respects R read_report.
Proof.
  apply respects_bind; [done|apply raw_read_respects|]. intros buf. repeat apply respects_if; eauto with kr.
Qed.
Lemma wait_report_respects deadline : respects R (wait_report deadline).
Proof.
  apply respects_bind; [done|apply now_respects|]. intros t. apply respects_if; [by apply respects_fail|].
  apply respects_bind; [done|apply cancel_respects|]. intros [|]; [by apply respects_fail|]. apply read_report_respects.
Qed.
Lemma recv_cont_respects fuel cid deadline bcnt payload seq : respects R (recv_cont fuel cid deadline bcnt payload seq).
Proof.
  revert payload seq. induction fuel as [|fuel IH]; intros payload seq; [by apply respects_waiting|]. cbn [recv_cont].
  apply respects_if; [by apply respects_ret|]. apply respects_bind; [done|apply wait_report_respects|].
  intros [buf|]; [|apply IH]. cbv zeta. repeat apply respects_if; try by apply respects_fail. all: apply IH.
Qed.
Lemma recv_loop_respects fuel cid cmd deadline : respects R (recv_loop fuel cid cmd deadline).
Proof.
  revert deadline. induction fuel as [|fuel IH]; intros deadline; [by apply respects_waiting|]. cbn [recv_loop].
  apply respects_bind; [done|apply wait_report_respects|]. intros [buf|]; [|apply IH]. cbv zeta.
  repeat first [apply recv_cont_respects | by apply respects_fail | apply IH | apply respects_if].
  - apply respects_bind; [done|apply cancel_respects|]. intros [|]; [by apply respects_fail|].
    apply respects_bind; [done|apply R_hook|]. intros _.
    apply respects_bind; [done|apply now_respects|]. intros t.
    apply respects_bind; [done|apply get_timeout_respects|]. intros tm. apply IH.
Qed.
Lemma recv_respects cid cmd : respects R (recv cid cmd).
Proof.
  apply respects_bind; [done|apply now_respects|]. intros t.
  apply respects_bind; [done|apply get_timeout_respects|]. intros tm d. apply recv_loop_respects.
Qed.
End receiving.

(** ** Sending *)

Fixpoint cont_frames (cid seq : Z) (cs : list (list Z)) : list (list Z) :=
  match cs with [] => [] | c :: cs => report cid seq c :: cont_frames cid (seq + 1) cs end.

(** The reports a message is carried in. *)
Definition frames (cid cmd : Z) (payload : list Z) : list (list Z) :=
  report cid cmd (to_be 2 (zlen payload) ++ take 57 payload) :: cont_frames cid 0 (chunks 59 (drop 57 payload)).

Lemma length_cont_frames cid seq cs : length (cont_frames cid seq cs) = length cs.
Proof. revert seq. induction cs; intros; simpl; auto. Qed.

Lemma report_length cid b4 rest : zlen rest <= 59 -> zlen (report cid b4 rest) = 65.
Proof.
  intros Hr. pose proof (zlen_nonneg rest). unfold report. cbv zeta. zlen. unfold CTAPHID_REPORT_SIZE. lia.
Qed.

Lemma to_be_2 n : to_be 2 n = [cast 8 (Z.shiftr n 8); cast 8 n].
Proof. unfold to_be. simpl. unfold cast. rewrite Z.shiftr_div_pow2 by lia. done. Qed.

Lemma cast_land_ff n : cast 8 (Z.land n 0xFF) = cast 8 n.
Proof. unfold cast. change 0xFF with (2 ^ 8 - 1). rewrite land_ones_mod by lia. by rewrite Zmod_mod. Qed.

Definition writes_succeed (d : CtapHidDevice) : Prop := Forall (eq None) (writes (script d)).

Definition after_writing (d : CtapHidDevice) (out : list (list Z)) : CtapHidDevice :=
  mkDev (mkScript (clock (script d)) (cancels (script d)) (reads (script d)) (drop (length out) (writes (script d))))
    (channel_id d) (timeout d) (hooked d) (written d ++ out) (trace_on d) (printed d) (capture d).

Lemma after_writing_ok d out : writes_succeed d -> writes_succeed (after_writing d out).
Proof. unfold writes_succeed. simpl. apply Forall_drop. Qed.

Lemma after_writing_app d o1 o2 : after_writing (after_writing d o1) o2 = after_writing d (o1 ++ o2).
Proof. unfold after_writing. simpl. by rewrite drop_drop, length_app, app_assoc. Qed.

Lemma after_writing_nil d : after_writing d [] = d.
Proof. destruct d as [[c k r w] ? ? ? ? ? ? ?]. unfold after_writing. simpl. by rewrite drop_0, app_nil_r. Qed.

Lemma write_report_ok frame d :
  writes_succeed d -> write_report frame d = (Some (Ok tt), after_writing d [frame]).
Proof.
  unfold writes_succeed, write_report, after_writing. destruct d as [[c k r w] ? ? ? ? ? ? ?]. simpl. intros Hw.
  destruct w as [|x w]; [done|]. inversion Hw; subst. done.
Qed.

(** Writing reports one after the other, stopping at the first error. *)
Fixpoint write_all (fs : list (list Z)) : hid unit :=
  match fs with [] => mret tt | f :: fs => _ ← write_report f; write_all fs end.

Lemma hid_bind_ext {A B} (m : hid A) (f g : A -> hid B) d : (forall a d', f a d' = g a d') -> (m ≫= f) d = (m ≫= g) d.
Proof. intros Hfg. unfold mbind, hid_bind. by destruct (m d) as [[[a|e]|] d1]. Qed.

Lemma write_all_ok fs d : writes_succeed d -> write_all fs d = (Some (Ok tt), after_writing d fs).
Proof.
  revert d. induction fs as [|f fs IH]; intros d Hw; [by rewrite after_writing_nil|]. cbn [write_all].
  rewrite (hid_bind_Ok _ _ _ _ _ (write_report_ok f d Hw)). rewrite IH by (by apply after_writing_ok).
  by rewrite after_writing_app.
Qed.

Lemma write_all_prefix fs d :
  exists p, p `prefix_of` fs /\ written (write_all fs d).2 = written d ++ p /\
    channel_id (write_all fs d).2 = channel_id d.
Proof.
  revert d. induction fs as [|f fs IH]; intros d; [exists []; by rewrite app_nil_r|]. cbn [write_all].
  unfold mbind, hid_bind, write_report. destruct d as [[c k r w] ch tm hk wr tr pr cp].
  destruct w as [|[e|] w]; simpl.
  - destruct (IH (mkDev (mkScript c k r []) ch tm hk (wr ++ [f]) tr pr cp)) as (p & Hp & -> & Hc).
    exists (f :: p). split; [by apply prefix_cons|]. simpl. by rewrite <- app_assoc.
  - exists []. split; [apply prefix_nil|]. by rewrite app_nil_r.
  - destruct (IH (mkDev (mkScript c k r w) ch tm hk (wr ++ [f]) tr pr cp)) as (p & Hp & -> & Hc).
    exists (f :: p). split; [by apply prefix_cons|]. simpl. by rewrite <- app_assoc.
Qed.

Lemma send_cont_frames fuel cid payload offset seq d :
  0 <= offset <= zlen payload -> zlen payload - offset <= Z.of_nat fuel ->
  0 <= seq -> seq + (zlen payload - offset + 58) / 59 <= 128 ->
  send_cont fuel cid payload offset seq d =
    write_all (cont_frames cid seq (chunks 59 (drop (Z.to_nat offset) payload))) d.
Proof.
  revert offset seq d. induction fuel as [|fuel IH]; intros offset seq d Ho Hf Hs Hq; cbn [send_cont].
  - by rewrite drop_ge by (unfold zlen in *; lia).
  - destruct (offset <? zlen payload) eqn:Hl; cbn [negb]; bools.
    2:{ by rewrite drop_ge by (unfold zlen in *; lia). }
    unfold CONT_FRAME_DATA, CTAPHID_REPORT_SIZE, CONT_FRAME_HEADER. change (64 - 5) with 59.
    rewrite chunks_unfold; [|lia|].
    2:{ intros Hn. apply (f_equal zlen) in Hn. rewrite zlen_drop in Hn. zlen. lia. }
    cbn [cont_frames write_all]. change 0x7F with (2 ^ 7 - 1). rewrite land_ones_mod by lia.
    assert (1 <= (zlen payload - offset + 58) / 59) by lia_div.
    rewrite Z.mod_small by lia.
    assert (slice payload (Z.to_nat offset) (Z.to_nat (offset + Z.min (zlen payload - offset) 59)) =
            take 59 (drop (Z.to_nat offset) payload)) as ->.
    { unfold slice. destruct (Z.min_spec (zlen payload - offset) 59) as [[Hm ->]|[Hm ->]].
      - rewrite !take_ge; [done| |]; rewrite length_drop; unfold zlen in *; lia.
      - f_equal. lia. }
    apply hid_bind_ext. intros _ d'. unfold wadd. rewrite Z.mod_small by lia. rewrite drop_drop.
    destruct (Z.min_spec (zlen payload - offset) 59) as [[Hm ->]|[Hm ->]].
    + replace (offset + (zlen payload - offset)) with (zlen payload) by lia.
      rewrite IH; [|lia|lia|lia|].
      2:{ rewrite Z.sub_diag. change ((0 + 58) / 59) with 0. lia. }
      rewrite (drop_ge _ (Z.to_nat (zlen payload))) by (unfold zlen; lia).
      by rewrite (drop_ge _ (Z.to_nat offset + 59)) by (unfold zlen in *; lia).
    + rewrite IH; [|lia|lia|lia|].
      2:{ replace (zlen payload - (offset + 59) + 58) with (zlen payload - offset + 58 + (-1) * 59) by lia.
          rewrite Z.div_add by lia. lia. }
      by replace (Z.to_nat (offset + 59)) with (Z.to_nat offset + 59)%nat by lia.
Qed.

(** Sending is writing the frames, or refusing. *)
Lemma send_frames cid cmd payload d :
  send cid cmd payload d = if zlen payload <=? CTAPHID_MAX_PAYLOAD then write_all (frames cid cmd payload) d
    else (Some (Err (PayloadTooLarge (zlen payload))), d).
Proof.
  unfold send. pose proof (zlen_nonneg payload). rewrite Z.ltb_antisym.
  destruct (zlen payload <=? CTAPHID_MAX_PAYLOAD) eqn:Hz; [|done]. bools. cbn [negb].
  unfold CTAPHID_MAX_PAYLOAD in *. unfold INIT_FRAME_DATA, CTAPHID_REPORT_SIZE, INIT_FRAME_HEADER. change (64 - 7) with 57.
  unfold frames. rewrite to_be_2, cast_land_ff. cbn [write_all].
  assert (take (Z.to_nat (Z.min (zlen payload) 57)) payload = take 57 payload) as ->.
  { destruct (Z.min_spec (zlen payload) 57) as [[Hm ->]|[Hm ->]]; [|done].
    rewrite !take_ge; [done| |]; unfold zlen in *; lia. }
  apply hid_bind_ext. intros _ d'.
  rewrite send_cont_frames; [|lia|unfold zlen; lia|lia|].
  2:{ assert ((zlen payload - Z.min (zlen payload) 57 + 58) / 59 < 129); [|lia].
      apply Z.div_lt_upper_bound; lia. }
  destruct (Z.min_spec (zlen payload) 57) as [[Hm ->]|[Hm ->]]; [|done].
  rewrite !drop_ge; [done| |]; unfold zlen in *; lia.
Qed.

Lemma send_ok cid cmd payload d :
  writes_succeed d -> zlen payload <= CTAPHID_MAX_PAYLOAD ->
  send cid cmd payload d = (Some (Ok tt), after_writing d (frames cid cmd payload)).
Proof. intros Hw Hz. rewrite send_frames, (proj2 (Z.leb_le _ _)) by done. by apply write_all_ok. Qed.

Lemma send_prefix cid cmd payload d :
  exists p, p `prefix_of` frames cid cmd payload /\ written (send cid cmd payload d).2 = written d ++ p /\
    channel_id (send cid cmd payload d).2 = channel_id d.
Proof.
  rewrite send_frames. destruct (_ <=? _); [apply write_all_prefix|].
  exists []. split; [apply prefix_nil|]. by rewrite app_nil_r.
Qed.

(** ** Receiving *)

(** A device's report: a host's without the report ID. *)
Definition input (cid b4 : Z) (rest : list Z) : list Z := tail (report cid b4 rest).

Lemma input_eq cid b4 rest : exists pad, input cid b4 rest = to_be 4 cid ++ b4 :: rest ++ pad.
Proof. unfold input, report. cbv zeta. eexists. cbn [app tail]. by rewrite <- !app_assoc. Qed.

Lemma input_length cid b4 rest : zlen rest <= 59 -> zlen (input cid b4 rest) = 64.
Proof.
  intros Hr. pose proof (report_length cid b4 rest Hr) as Hl. unfold input.
  destruct (report cid b4 rest); [done|]. simpl. zlen. lia.
Qed.

Lemma input_cid cid b4 rest : is_word 32 cid -> frame_cid (input cid b4 rest) = cid.
Proof.
  intros Hc. destruct (input_eq cid b4 rest) as [pad ->]. unfold frame_cid.
  rewrite take_app_length' by (by rewrite length_to_be). by apply from_be_to_be_small.
Qed.

Lemma input_cmd cid b4 rest : input cid b4 rest !!! 4%nat = b4.
Proof.
  destruct (input_eq cid b4 rest) as [pad ->]. rewrite lookup_total_app_r by (by rewrite length_to_be).
  by rewrite length_to_be.
Qed.

Lemma input_data cid b4 rest n :
  (n <= length rest)%nat -> slice (input cid b4 rest) 5 (5 + n) = take n rest.
Proof.
  intros Hn. destruct (input_eq cid b4 rest) as [pad ->]. unfold slice. replace (5 + n - 5)%nat with n by lia.
  change (to_be 4 cid ++ b4 :: rest ++ pad) with (to_be 4 cid ++ [b4] ++ rest ++ pad).
  rewrite app_assoc, drop_app_length' by (by rewrite length_app, length_to_be).
  by rewrite take_app_le.
Qed.

Lemma slice_drop {A} (l : list A) i j m : slice l (i + j) m = drop j (slice l i m).
Proof.
  unfold slice. rewrite skipn_firstn_comm, drop_drop. f_equal. lia.
Qed.

(** A read that brings nothing for the channel: no report in time, or one for
    another channel. *)
Definition quiet (cid : Z) (x : result HidTransportError (list Z)) : Prop :=
  x = Ok [] \/ exists buf, x = Ok buf /\ zlen buf = 64 /\ frame_cid buf <> cid.

Definition keepalive (cid : Z) (x : result HidTransportError (list Z)) : Prop :=
  exists buf, x = Ok buf /\ zlen buf = 64 /\ frame_cid buf = cid /\ buf !!! 4%nat = CTAPHID_KEEPALIVE.

(** The reports [fs] arrive among the reads, with quiet reads between them. *)
Inductive conts_arrive (cid : Z) : list (list Z) -> list (result HidTransportError (list Z)) -> Prop :=
  | ca_done rs : conts_arrive cid [] rs
  | ca_quiet fs x rs : quiet cid x -> conts_arrive cid fs rs -> conts_arrive cid fs (x :: rs)
  | ca_next f fs rs : conts_arrive cid fs rs -> conts_arrive cid (f :: fs) (Ok f :: rs).

(** ... a first report, with quiet reads and keep-alives before it. *)
Inductive answer_arrives (cid : Z) (f : list Z) (fs : list (list Z)) :
    list (result HidTransportError (list Z)) -> Prop :=
  | aa_quiet x rs : quiet cid x -> answer_arrives cid f fs rs -> answer_arrives cid f fs (x :: rs)
  | aa_keepalive x rs : keepalive cid x -> answer_arrives cid f fs rs -> answer_arrives cid f fs (x :: rs)
  | aa_first rs : conts_arrive cid fs rs -> answer_arrives cid f fs (Ok f :: rs).

(** The environment lets a call go on until [until]: nothing cancelled, clock
    readings enough and in time. *)
Definition patient (until lo : Z) (n : nat) (d : CtapHidDevice) : Prop :=
  Forall (eq false) (cancels (script d)) /\ Forall (fun t => lo <= t < until) (clock (script d)) /\
  (n <= length (clock (script d)))%nat.

(** One wait, when the clock allows it. *)
Lemma wait_report_ok deadline until lo n d x rs :
  until <= deadline -> patient until lo (S n) d -> reads (script d) = x :: rs ->
  exists d1, patient until lo n d1 /\ reads (script d1) = rs /\ timeout d1 = timeout d /\
    wait_report deadline d = match x with
      | Ok buf => if zlen buf =? 0 then (Some (Ok None), d1)
                  else if zlen buf =? 64 then (Some (Ok (Some buf)), d1)
                  else (Some (Err (Io (s2b "short HID read: " ++ dec (zlen buf) ++ s2b " of 64 bytes"))), d1)
      | Err e => (Some (Err e), d1)
      end.
Proof.
  destruct d as [[c k r w] ch tm hk wr tr pr cp]. unfold patient. simpl. intros Hu (Hk & Hc & Hn) ->.
  destruct c as [|t c]; [simpl in Hn; lia|]. inversion Hc as [|? ? [Hlo Ht] Hc']; subst. simpl in Hn.
  unfold wait_report, read_report, raw_read, cancel_requested, now, mbind, hid_bind, CTAPHID_REPORT_SIZE. simpl.
  rewrite (proj2 (Z.leb_gt _ _)) by lia.
  assert (exists k', Forall (eq false) k' /\ match k with [] => k' = [] | b :: k0 => b = false /\ k' = k0 end)
    as (k' & Hk' & He) by (destruct k; [by exists []|inversion Hk; subst; eauto]).
  exists (mkDev (mkScript c k' rs w) ch tm hk wr tr pr cp). simpl. split_and!; try done; [lia|].
  destruct k as [|b k0]; [subst k'|destruct He as [-> ->]]; unfold set_script; simpl;
    (destruct x as [buf|e]; [|done]; destruct (zlen buf =? 0); [done|]; destruct (zlen buf =? 64); done).
Qed.

Lemma wait_quiet deadline until lo n d x rs cid :
  quiet cid x -> until <= deadline -> patient until lo (S n) d -> reads (script d) = x :: rs ->
  exists d1 r, patient until lo n d1 /\ reads (script d1) = rs /\ timeout d1 = timeout d /\
    wait_report deadline d = (Some (Ok r), d1) /\ match r with Some buf => frame_cid buf <> cid | None => True end.
Proof.
  intros Hq Hu Hp Hr. destruct (wait_report_ok deadline until lo n d x rs Hu Hp Hr) as (d1 & Hp1 & Hr1 & Ht1 & He).
  destruct Hq as [->|(buf & -> & Hb & Hc)].
  - exists d1, None. done.
  - exists d1, (Some buf). rewrite Hb in He. done.
Qed.

Lemma wait_frame deadline until lo n d f rs :
  zlen f = 64 -> until <= deadline -> patient until lo (S n) d -> reads (script d) = Ok f :: rs ->
  exists d1, patient until lo n d1 /\ reads (script d1) = rs /\ timeout d1 = timeout d /\
    wait_report deadline d = (Some (Ok (Some f)), d1).
Proof.
  intros Hf Hu Hp Hr. destruct (wait_report_ok deadline until lo n d (Ok f) rs Hu Hp Hr) as (d1 & Hp1 & Hr1 & Ht1 & He).
  exists d1. rewrite Hf in He. done.
Qed.

Definition cont_inputs (cid seq : Z) (rest : list Z) : list (list Z) :=
  tail <$> cont_frames cid seq (chunks 59 rest).

Lemma cont_inputs_cons cid seq rest :
  rest <> [] -> cont_inputs cid seq rest = input cid seq (take 59 rest) :: cont_inputs cid (seq + 1) (drop 59 rest).
Proof. intros Hr. unfold cont_inputs. by rewrite chunks_unfold by (done || lia). Qed.

Lemma recv_cont_ok cid deadline until lo fs rs :
  conts_arrive cid fs rs -> until <= deadline -> is_word 32 cid ->
  forall fuel rest payload seq bcnt d,
  fs = cont_inputs cid seq rest -> reads (script d) = rs -> patient until lo (length rs) d ->
  0 <= seq -> seq + (zlen rest + 58) / 59 <= 128 -> bcnt = zlen payload + zlen rest -> (length rs < fuel)%nat ->
  (recv_cont fuel cid deadline bcnt payload seq d).1 = Some (Ok (payload ++ rest)).
Proof.
  intros Harr Hu Hcid. induction Harr as [rs|fs x rs Hq Harr IH|f fs rs Harr IH];
    intros fuel rest payload seq bcnt d Hfs Hr Hp Hs Hq' Hb Hfu.
  all: destruct fuel as [|fuel]; [simpl in Hfu; lia|].
  all: destruct (decide (rest = [])) as [->|Hne];
    [cbn [recv_cont]; rewrite Hb, app_nil_r; zlen; rewrite (proj2 (Z.ltb_ge _ _)) by lia; done|].
  all: assert (1 <= zlen rest) as Hpos by (destruct rest; [done|]; zlen; pose proof (zlen_nonneg rest); lia).
  all: rewrite cont_inputs_cons in Hfs by done; try done.
  all: assert (seq < 128) as Hs128 by (assert (1 <= (zlen rest + 58) / 59) by lia_div; lia).
  all: cbn [recv_cont]; rewrite (proj2 (Z.ltb_lt _ _)) by lia; cbn [negb].
  - destruct (wait_quiet deadline until lo (length rs) d x rs cid Hq Hu Hp Hr) as (d1 & r & Hp1 & Hr1 & _ & Hw & Hc).
    rewrite (hid_bind_Ok _ _ _ _ _ Hw). simpl in Hfu.
    assert ((recv_cont fuel cid deadline bcnt payload seq d1).1 = Some (Ok (payload ++ rest))) as Hrec
      by (apply IH; try done; [by rewrite cont_inputs_cons|lia]).
    destruct r as [buf|]; [|done]. by rewrite (proj2 (Z.eqb_neq _ _) Hc).
  - injection Hfs as -> Hfs. simpl in Hfu.
    destruct (wait_frame deadline until lo (length rs) d (input cid seq (take 59 rest)) rs) as (d1 & Hp1 & Hr1 & _ & Hw);
      [apply input_length; rewrite zlen_take; lia|done|done|done|].
    rewrite (hid_bind_Ok _ _ _ _ _ Hw). rewrite input_cid, input_cmd, Z.eqb_refl by done. cbn [negb].
    assert (Z.land seq 0x80 = 0) as ->.
    { apply Z.bits_inj'. intros i Hi. rewrite Z.land_spec, Z.bits_0. change 0x80 with (2 ^ 7). rewrite Z.pow2_bits_eqb by lia.
      destruct (Z.eqb_spec 7 i) as [<-|]; [|apply andb_false_r]. rewrite andb_true_r.
      rewrite Z.testbit_false, Z.div_small by lia. done. }
    rewrite !Z.eqb_refl. cbn [negb]. cbv zeta. unfold CONT_FRAME_DATA, CONT_FRAME_HEADER, CTAPHID_REPORT_SIZE. change (64 - 5) with 59.
    assert (slice (input cid seq (take 59 rest)) (Z.to_nat 5) (Z.to_nat (5 + Z.min (bcnt - zlen payload) 59)) = take 59 rest) as ->.
    { replace (Z.to_nat (5 + Z.min (bcnt - zlen payload) 59)) with (5 + length (take 59 rest))%nat
        by (rewrite length_take; unfold zlen in *; lia).
      rewrite input_data by done. by rewrite take_ge. }
    unfold wadd. rewrite Z.mod_small by lia.
    rewrite <- (take_drop 59 rest) at 2. rewrite app_assoc. apply IH; try done; [lia| | |lia].
    + rewrite zlen_drop. destruct (Z.le_gt_cases (zlen rest) 59).
      * rewrite Z.max_l by lia. assert (1 <= (zlen rest + 58) / 59) by lia_div. change ((0 + 58) / 59) with 0. lia.
      * rewrite Z.max_r by lia. replace (zlen rest - Z.of_nat 59 + 58) with (zlen rest + 58 + (-1) * 59) by lia.
        rewrite Z.div_add by lia. lia.
    + rewrite Hb. zlen. lia.
Qed.

Lemma patient_fewer until lo n n' d : (n' <= n)%nat -> patient until lo n d -> patient until lo n' d.
Proof. intros Hn (Hk & Hc & Hl). split_and!; [done|done|lia]. Qed.

(** The wait after a keep-alive: one more clock reading, a new deadline. *)
Lemma keepalive_step until lo n d (buf : list Z) {A} (k : Z -> hid A) :
  patient until lo (S n) d ->
  exists d1 t, lo <= t < until /\ patient until lo n d1 /\ reads (script d1) = reads (script d) /\ timeout d1 = timeout d /\
    (cancelled ← cancel_requested;
     if (cancelled : bool) then fail Cancelled else
     _ ← call_hook (buf !!! 7%nat); t ← now; timeout ← get_timeout; k (t + timeout)) d = k (t + timeout d) d1.
Proof.
  destruct d as [[c k0 r w] ch tm hk wr tr pr cp]. unfold patient. simpl. intros (Hk & Hc & Hn).
  destruct c as [|t c]; [simpl in Hn; lia|]. inversion Hc as [|? ? Ht Hc']; subst. simpl in Hn.
  exists (mkDev (mkScript c (tail k0) r w) ch tm (option_map (fun l => l ++ [buf !!! 7%nat]) hk) wr tr pr cp), t.
  simpl. split_and!; try done; try lia.
  - destruct Hk; simpl; done.
  - unfold mbind, hid_bind, cancel_requested, call_hook, now, get_timeout, set_script. simpl.
    destruct k0 as [|b k0]; [done|]. inversion Hk; subst. done.
Qed.

Lemma recv_loop_ok cid cmd lo payload fs rs :
  let f := input cid cmd (to_be 2 (zlen payload) ++ take 57 payload) in
  fs = cont_inputs cid 0 (drop 57 payload) -> answer_arrives cid f fs rs ->
  is_word 32 cid -> zlen payload <= CTAPHID_MAX_PAYLOAD -> cmd <> CTAPHID_KEEPALIVE -> cmd <> CTAPHID_ERROR ->
  forall fuel deadline d,
  reads (script d) = rs -> lo + timeout d <= deadline -> patient (lo + timeout d) lo (2 * length rs) d ->
  (length rs < fuel)%nat ->
  (recv_loop fuel cid cmd deadline d).1 = Some (Ok payload).
Proof.
  intros f Hfs Harr Hcid Hz Hka Herr. pose proof (zlen_nonneg payload).
  assert (zlen f = 64) as Hf64.
  { apply input_length. zlen. lia. }
  induction Harr as [x rs Hq Harr IH|x rs (buf & -> & Hb & Hc & Hk) Harr IH|rs Harr];
    intros fuel deadline d Hr Hd Hp Hfu; (destruct fuel as [|fuel]; [simpl in Hfu; lia|]); cbn [recv_loop];
    simpl in Hfu; cbn [length] in Hp.
  - apply (patient_fewer _ _ _ (S (2 * length rs))) in Hp; [|lia].
    destruct (wait_quiet deadline _ lo _ d x rs cid Hq Hd Hp Hr) as (d1 & r & Hp1 & Hr1 & Ht1 & Hw & Hcq).
    rewrite (hid_bind_Ok _ _ _ _ _ Hw). rewrite <- Ht1 in *.
    assert ((recv_loop fuel cid cmd deadline d1).1 = Some (Ok payload)) as Hrec by (apply IH; (done || lia)).
    destruct r as [b|]; [|done]. cbv zeta. by rewrite (proj2 (Z.eqb_neq _ _) Hcq).
  - apply (patient_fewer _ _ _ (S (S (2 * length rs)))) in Hp; [|lia].
    destruct (wait_frame deadline _ lo _ d buf rs Hb Hd Hp Hr) as (d1 & Hp1 & Hr1 & Ht1 & Hw).
    rewrite (hid_bind_Ok _ _ _ _ _ Hw). rewrite <- Ht1 in *. cbv zeta. rewrite Hc, Z.eqb_refl, Hk. cbn [negb].
    rewrite Z.eqb_refl.
    destruct (keepalive_step _ lo _ d1 buf (recv_loop fuel cid cmd) Hp1) as (d2 & t & Htl & Hp2 & Hr2 & Ht2 & He).
    rewrite He. apply IH; rewrite ?Ht2, ?Hr2; (done || lia).
  - apply (patient_fewer _ _ _ (S (length rs))) in Hp; [|lia].
    destruct (wait_frame deadline _ lo _ d f rs Hf64 Hd Hp Hr) as (d1 & Hp1 & Hr1 & Ht1 & Hw).
    rewrite (hid_bind_Ok _ _ _ _ _ Hw). cbv zeta. unfold f at 1 2. rewrite input_cid, input_cmd, Z.eqb_refl by done. cbn [negb].
    rewrite !(proj2 (Z.eqb_neq _ _)) by done. unfold f. rewrite input_cmd.
    rewrite Z.eqb_refl. cbn [negb].
    assert (from_be (slice (input cid cmd (to_be 2 (zlen payload) ++ take 57 payload)) 5 7) = zlen payload) as ->.
    { change 7%nat with (5 + 2)%nat. rewrite input_data by (rewrite length_app, length_to_be; lia).
      rewrite take_app_length' by (by rewrite length_to_be). apply from_be_to_be_small.
      unfold is_word, CTAPHID_MAX_PAYLOAD in *. lia. }
    rewrite (proj2 (Z.ltb_ge _ _)) by lia.
    unfold INIT_FRAME_DATA, INIT_FRAME_HEADER, CTAPHID_REPORT_SIZE. change (64 - 7) with 57.
    assert (slice (input cid cmd (to_be 2 (zlen payload) ++ take 57 payload)) (Z.to_nat 7)
      (Z.to_nat (7 + Z.min (zlen payload) 57)) = take 57 payload) as ->.
    { replace (Z.to_nat (7 + Z.min (zlen payload) 57)) with (5 + length (to_be 2 (zlen payload) ++ take 57 payload))%nat
        by (rewrite length_app, length_to_be, length_take; unfold zlen; lia).
      change (Z.to_nat 7) with (5 + 2)%nat. rewrite slice_drop, input_data by done.
      rewrite take_ge by done. by rewrite drop_app_length' by (by rewrite length_to_be). }
    rewrite <- (take_drop 57 payload) at 3.
    eapply (recv_cont_ok cid deadline _ lo fs rs Harr Hd Hcid); try done; try (simpl; lia).
    + zlen. unfold CTAPHID_MAX_PAYLOAD in *. assert ((Z.max 0 (zlen payload - Z.of_nat 57) + 58) / 59 < 129); [|lia].
      apply Z.div_lt_upper_bound; lia.
    + zlen. lia.
Qed.

(** ** Transacting *)

(** Nothing written, the channel kept. *)
Definition quietly (d d' : CtapHidDevice) : Prop := written d' = written d /\ channel_id d' = channel_id d.
#[export] Instance quietly_preorder : PreOrder quietly.
Proof. split; [by intros d|]. intros d1 d2 d3 [H1 H2] [H3 H4]. split; congruence. Qed.

Lemma trace_quietly line : respects quietly (trace line).
Proof. intros d. unfold trace. by destruct (emit _ _ _). Qed.

Lemma recv_quietly cid cmd : respects quietly (recv cid cmd).
Proof. apply recv_respects; [apply _|done..]. Qed.

Lemma sleep_quietly delay : respects quietly (sleep_between_attempts delay).
Proof.
  unfold sleep_between_attempts.
  apply respects_bind; [apply _|apply cancel_respects; [apply _|done]|]. intros [|]; [apply respects_fail; apply _|].
  apply respects_bind; [apply _|apply cancel_respects; [apply _|done]|]. intros [|]; [apply respects_fail|apply respects_ret]; apply _.
Qed.

(** What has been written after [k] attempts at most. *)
Definition attempts (k : nat) (cmd : Z) (payload : list Z) (d d' : CtapHidDevice) : Prop :=
  channel_id d' = channel_id d /\ exists ps, written d' = written d ++ concat ps /\ (length ps <= k)%nat /\
    Forall (fun p => p `prefix_of` frames (channel_id d) cmd payload) ps.

Lemma attempts_quiet k cmd payload d d' : quietly d d' -> attempts k cmd payload d d'.
Proof. intros [H1 H2]. split; [done|]. exists []. simpl. rewrite app_nil_r. split_and!; [done|lia|constructor]. Qed.

Lemma attempts_trans j k cmd payload d1 d2 d3 :
  attempts j cmd payload d1 d2 -> attempts k cmd payload d2 d3 -> attempts (j + k) cmd payload d1 d3.
Proof.
  intros [Hc1 (ps1 & Hw1 & Hl1 & HF1)] [Hc2 (ps2 & Hw2 & Hl2 & HF2)]. split; [congruence|]. exists (ps1 ++ ps2).
  rewrite concat_app, app_assoc, <- Hw1. rewrite Hc1 in HF2. split_and!; [done|rewrite length_app; lia|by apply Forall_app].
Qed.

Lemma attempts_more j k cmd payload d d' : (j <= k)%nat -> attempts j cmd payload d d' -> attempts k cmd payload d d'.
Proof. intros Hjk [Hc (ps & Hw & Hl & HF)]. split; [done|]. exists ps. split_and!; [done|lia|done]. Qed.

Lemma attempts_bind j k cmd payload {A B} (m : hid A) (f : A -> hid B) :
  (forall d, attempts j cmd payload d (m d).2) -> (forall a d, attempts k cmd payload d (f a d).2) ->
  forall d, attempts (j + k) cmd payload d ((m ≫= f) d).2.
Proof.
  intros Hm Hf d. unfold mbind, hid_bind. specialize (Hm d). destruct (m d) as [[[a|e]|] d1]; simpl in *.
  - by apply (attempts_trans j k _ _ _ d1).
  - apply (attempts_more j); [lia|done].
  - apply (attempts_more j); [lia|done].
Qed.

Lemma quiet_attempts {A} (m : hid A) k cmd payload :
  respects quietly m -> forall d, attempts k cmd payload d (m d).2.
Proof. intros Hm d. apply attempts_quiet, Hm. Qed.

Lemma send_attempts cmd payload d : attempts 1 cmd payload d (send (channel_id d) cmd payload d).2.
Proof.
  destruct (send_prefix (channel_id d) cmd payload d) as (p & Hp & Hw & Hc). split; [done|].
  exists [p]. simpl. rewrite app_nil_r. split_and!; [done|lia|by repeat constructor].
Qed.

Lemma attempt_once_attempts cmd payload d : attempts 1 cmd payload d (attempt_once cmd payload d).2.
Proof.
  assert (attempts 1 cmd payload d ((cid ← get_channel; _ ← send cid cmd payload; recv cid cmd) d).2) as Hm.
  { unfold mbind, hid_bind. simpl. pose proof (send_attempts cmd payload d) as Hs.
    destruct (send (channel_id d) cmd payload d) as [[[u|e]|] d1]; [|done|done].
    apply (attempts_trans 1 0 _ _ _ d1); [done|]. apply attempts_quiet, recv_quietly. }
  unfold attempt_once. by destruct ((cid ← get_channel; _) d) as [[r|] d1].
Qed.

Lemma transact_loop_attempts fuel cmd payload s started attempt d :
  attempts (S fuel) cmd payload d (transact_loop fuel cmd payload s started attempt d).2.
Proof.
  revert attempt d. induction fuel as [|fuel IH]; intros attempt d; cbn [transact_loop].
  - apply (attempts_bind 0 1); [apply quiet_attempts, trace_quietly|]. intros _.
    apply (attempts_bind 1 0); [apply attempt_once_attempts|]. intros outcome. apply quiet_attempts.
    destruct outcome as [resp|[]]; try (apply respects_fail; apply _).
    + apply respects_bind; [apply _|apply trace_quietly|]. intros. apply respects_ret, _.
    + apply respects_bind; [apply _|apply now_respects; [apply _|done]|]. intros t.
      destruct (busy_retry_delay _ _ _); [|apply respects_fail, _].
      apply respects_bind; [apply _|apply trace_quietly|]. intros _.
      apply respects_bind; [apply _|apply sleep_quietly|]. intros _. apply respects_waiting, _.
  - apply (attempts_bind 0 (S (S fuel))); [apply quiet_attempts, trace_quietly|]. intros _.
    apply (attempts_bind 1 (S fuel)); [apply attempt_once_attempts|]. intros outcome.
    destruct outcome as [resp|[]]; try (apply quiet_attempts, respects_fail; apply _).
    + apply quiet_attempts, respects_bind; [apply _|apply trace_quietly|]. intros. apply respects_ret, _.
    + apply (attempts_bind 0 (S fuel)); [apply quiet_attempts, now_respects; [apply _|done]|]. intros t.
      destruct (busy_retry_delay _ _ _); [|apply quiet_attempts, respects_fail, _].
      apply (attempts_bind 0 (S fuel)); [apply quiet_attempts, trace_quietly|]. intros _.
      apply (attempts_bind 0 (S fuel)); [apply quiet_attempts, sleep_quietly|]. intros _. apply IH.
Qed.

(** Four attempts are all the policy allows: the loop never runs out of fuel. *)
Lemma transact_loop_fuel extra fuel cmd payload s started attempt d :
  CHANNEL_BUSY_MAX_ATTEMPTS <= attempt + Z.of_nat fuel ->
  transact_loop (fuel + extra) cmd payload s started attempt d = transact_loop fuel cmd payload s started attempt d.
Proof.
  revert attempt d. induction fuel as [|fuel IH]; intros attempt d Ha.
  - assert (forall code e, busy_retry_delay code attempt e = None) as Hb.
    { intros code e. unfold busy_retry_delay. rewrite (proj2 (Z.leb_le _ _)) by lia. by rewrite orb_true_r. }
    simpl. destruct extra; [done|]. cbn [transact_loop]. apply hid_bind_ext. intros _ d1. apply hid_bind_ext.
    intros outcome d2. destruct outcome as [resp|[]]; try done. apply hid_bind_ext. intros t d3. by rewrite Hb.
  - cbn [transact_loop Nat.add]. apply hid_bind_ext. intros _ d1. apply hid_bind_ext.
    intros outcome d2. destruct outcome as [resp|[]]; try done. apply hid_bind_ext. intros t d3.
    destruct (busy_retry_delay _ _ _); [|done]. apply hid_bind_ext. intros _ d4. apply hid_bind_ext. intros _ d5.
    apply IH. lia.
Qed.

(** ** The trace *)

(** Every line traced so far. *)
Definition lines (d : CtapHidDevice) : list (list Z) := printed d ++ default [] (capture d).

Definition lines_are (P : list Z -> Prop) (d d' : CtapHidDevice) : Prop := Forall P (lines d) -> Forall P (lines d').
#[export] Instance lines_are_preorder P : PreOrder (lines_are P).
Proof. split; [by intros d H|]. intros d1 d2 d3 H1 H2 H. by apply H2, H1. Qed.

Lemma trace_lines P line : P line -> respects (lines_are P) (trace line).
Proof.
  intros Hl d. unfold lines_are, lines, trace, emit. destruct (trace_on d), (capture d) as [buf|]; simpl;
    rewrite ?app_nil_r, ?Forall_app, ?Forall_singleton; tauto.
Qed.

Lemma send_lines P cid cmd payload : respects (lines_are P) (send cid cmd payload).
Proof.
  intros d. rewrite send_frames. destruct (_ <=? _); [|by unfold lines_are].
  revert d. induction (frames cid cmd payload) as [|f fs IH]; [by unfold lines_are|]. cbn [write_all].
  apply respects_bind; [apply _| |intros _; exact IH]. intros d. unfold write_report.
  destruct (script d) as [c k r w]. destruct w as [|[e|] w]; by unfold lines_are.
Qed.

Lemma recv_lines P cid cmd : respects (lines_are P) (recv cid cmd).
Proof. apply recv_respects; [apply _|by intros ? ? HF|by intros ? ? HF]. Qed.

Lemma attempt_once_lines P cmd payload : respects (lines_are P) (attempt_once cmd payload).
Proof.
  intros d. unfold attempt_once.
  assert (respects (lines_are P) (cid ← get_channel; _ ← send cid cmd payload; recv cid cmd)) as Hm.
  { apply respects_bind; [apply _|by intros ? HF|]. intros cid.
    apply respects_bind; [apply _|apply send_lines|]. intros _. apply recv_lines. }
  specialize (Hm d). by destruct ((cid ← get_channel; _) d) as [[r|] d1].
Qed.

(** Finding a pair, then its value. *)
Lemma find_map_pair (b : Value * Value -> bool) (g : Value -> option Z) m :
  (kv ← find_map (fun kv => if b kv then Some kv else None) m; g kv.2) =
  (v ← find_map (fun kv => if b kv then Some kv.2 else None) m; g v).
Proof. induction m as [|kv m IH]; [done|]. cbn [find_map]. by destruct (b kv). Qed.

(** The lines of a redacted exchange: its framing and nothing of its bytes. *)
Definition redacted_line (cmd len : Z) (line : list Z) : Prop :=
  line = ctap_line Sent cmd len REDACTED \/ (exists n, line = ctap_line Received cmd n REDACTED) \/
  exists code attempt delay, line = busy_line cmd code attempt delay.

Lemma transact_loop_lines (P : list Z -> Prop) fuel cmd payload started attempt :
  (forall line, redacted_line cmd (zlen payload) line -> P line) ->
  respects (lines_are P) (transact_loop fuel cmd payload true started attempt).
Proof.
  intros HP. assert (forall d, respects (lines_are P) (sleep_between_attempts d)) as Hsleep.
  { intros delay. unfold sleep_between_attempts.
    apply respects_bind; [apply _|apply cancel_respects; [apply _|by intros ? ? HF]|]. intros [|]; [apply respects_fail, _|].
    apply respects_bind; [apply _|apply cancel_respects; [apply _|by intros ? ? HF]|]. intros [|];
      [apply respects_fail, _|apply respects_ret, _]. }
  revert attempt. induction fuel as [|fuel IH]; intros attempt; cbn [transact_loop].
  all: apply respects_bind; [apply _|apply trace_lines, HP; by left|]; intros _.
  all: apply respects_bind; [apply _|apply attempt_once_lines|]; intros outcome.
  all: destruct outcome as [resp|[]]; try (apply respects_fail; apply _).
  all: apply respects_bind; [apply _|first [apply trace_lines, HP; right; left; by eexists|apply now_respects; [apply _|by intros ? ? HF]]|];
    intros t; try (apply respects_ret, _).
  all: destruct (busy_retry_delay _ _ _); [|apply respects_fail, _].
  all: apply respects_bind; [apply _|apply trace_lines, HP; right; right; by do 3 eexists|]; intros _.
  all: apply respects_bind; [apply _|apply Hsleep|]; intros _.
  - apply respects_waiting, _.
  - apply IH.
Qed.

Lemma frames_sizes cid cmd payload :
  zlen payload <= CTAPHID_MAX_PAYLOAD ->
  Forall (fun f => zlen f = 65) (frames cid cmd payload) /\ zlen (frames cid cmd payload) <= 129.
Proof.
  intros Hz. unfold frames. split.
  - constructor; [apply report_length; zlen; lia|].
    generalize 0 as seq. pose proof (chunks_bounded 59 (drop 57 payload) ltac:(lia)) as HF.
    induction HF as [|x cs [_ Hx] _ IH]; intros seq; simpl; [constructor|].
    constructor; [apply report_length; unfold zlen; lia|apply IH].
  - rewrite zlen_cons. unfold zlen at 1. rewrite length_cont_frames, length_chunks by lia. zlen.
    unfold CTAPHID_MAX_PAYLOAD in *. pose proof (zlen_nonneg payload).
    assert ((Z.max 0 (zlen payload - Z.of_nat 57) + Z.of_nat 59 - 1) / Z.of_nat 59 < 129); [|lia].
    apply Z.div_lt_upper_bound; lia.
Qed.

Definition with_clock (d : CtapHidDevice) (c : list Z) : CtapHidDevice :=
  set_script d (mkScript c (cancels (script d)) (reads (script d)) (writes (script d))).

Lemma now_ok d t c : clock (script d) = t :: c -> now d = (Some (Ok t), with_clock d c).
Proof. unfold now, with_clock. destruct (script d) as [c0 k r w]. simpl. by intros ->. Qed.

(** Receiving the answer once the request is out. *)
Lemma recv_answer cid cmd resp t0 c rs d :
  is_word 32 cid -> cmd <> CTAPHID_KEEPALIVE -> cmd <> CTAPHID_ERROR -> Forall (eq false) (cancels (script d)) ->
  clock (script d) = t0 :: c -> Forall (fun t => t0 <= t < t0 + timeout d) c ->
  reads (script d) = rs -> (2 * length rs <= length c)%nat -> zlen resp <= CTAPHID_MAX_PAYLOAD ->
  answer_arrives cid (input cid cmd (to_be 2 (zlen resp) ++ take 57 resp)) (cont_inputs cid 0 (drop 57 resp)) rs ->
  (recv cid cmd d).1 = Some (Ok resp).
Proof.
  intros Hcid Hka Herr Hk Hc Ht0 Hr Hlen Hresp Harr.
  unfold recv. rewrite (hid_bind_Ok _ _ _ _ _ (now_ok _ _ _ Hc)).
  rewrite (hid_bind_Ok get_timeout _ (with_clock d c) (timeout d) (with_clock d c) eq_refl). unfold recv_by.
  eapply (recv_loop_ok cid cmd t0 resp _ rs); try done; cbn [with_clock set_script script reads timeout cancels clock].
  rewrite Hr. lia.
Qed.

(** One attempt that is answered. *)
Lemma attempt_once_answered cmd payload resp t0 c rs d :
  is_word 32 (channel_id d) -> cmd <> CTAPHID_KEEPALIVE -> cmd <> CTAPHID_ERROR -> writes_succeed d ->
  Forall (eq false) (cancels (script d)) -> clock (script d) = t0 :: c ->
  Forall (fun t => t0 <= t < t0 + timeout d) c -> reads (script d) = rs -> (2 * length rs <= length c)%nat ->
  zlen resp <= CTAPHID_MAX_PAYLOAD -> zlen payload <= CTAPHID_MAX_PAYLOAD ->
  answer_arrives (channel_id d) (input (channel_id d) cmd (to_be 2 (zlen resp) ++ take 57 resp))
    (cont_inputs (channel_id d) 0 (drop 57 resp)) rs ->
  exists d', attempt_once cmd payload d = (Some (Ok (Ok resp)), d') /\
    written d' = written d ++ frames (channel_id d) cmd payload.
Proof.
  intros Hch Hka Herr Hw Hk Hc Ht0 Hr Hlen Hresp Hz Harr.
  unfold attempt_once, mbind, hid_bind. simpl. rewrite send_ok by done.
  set (d2 := after_writing d _).
  pose proof (recv_answer (channel_id d) cmd resp t0 c rs d2 Hch Hka Herr Hk Hc Ht0 Hr Hlen Hresp Harr) as Hrec.
  pose proof (recv_quietly (channel_id d) cmd d2) as [Hwr _].
  destruct (recv (channel_id d) cmd d2) as [r d3]. simpl in *. subst r. exists d3. by rewrite Hwr.
Qed.

Lemma trace_step line d :
  exists pr cp, trace line d = (Some (Ok tt), mkDev (script d) (channel_id d) (timeout d) (hooked d) (written d)
    (trace_on d) pr cp).
Proof. unfold trace. destruct (emit _ _ _) as [o cp]. by eexists _, _. Qed.

(** * Properties *)

(** C29: an exchange works. A command of up to 7609 bytes is written as its
    init frame and continuation frames, each 65 bytes with the report ID, at most
    129 of them; and whatever the key answers within that size, framed the same
    way, comes back as sent, however many reports for other channels, empty
    reads and keep-alives are interleaved, as long as the clock stays within the
    read timeout (from the start of the read: that a keep-alive extends it is not
    used) and nobody cancels. A longer command is refused and nothing is
    written. *)
Theorem hid_exchange (cmd : Z) (payload resp : list Z) (d : CtapHidDevice) (started t0 : Z) (c : list Z)
    (rs : list (result HidTransportError (list Z))) :
  is_word 32 (channel_id d) -> cmd <> CTAPHID_KEEPALIVE -> cmd <> CTAPHID_ERROR ->
  writes_succeed d -> Forall (eq false) (cancels (script d)) ->
  clock (script d) = started :: t0 :: c -> Forall (fun t => t0 <= t < t0 + timeout d) c ->
  reads (script d) = rs -> (2 * length rs <= length c)%nat ->
  zlen resp <= CTAPHID_MAX_PAYLOAD ->
  answer_arrives (channel_id d) (input (channel_id d) cmd (to_be 2 (zlen resp) ++ take 57 resp))
    (cont_inputs (channel_id d) 0 (drop 57 resp)) rs ->
  (zlen payload <= CTAPHID_MAX_PAYLOAD ->
    (transact cmd payload d).1 = Some (Ok resp) /\
    written (transact cmd payload d).2 = written d ++ frames (channel_id d) cmd payload /\
    Forall (fun f => zlen f = 65) (frames (channel_id d) cmd payload) /\
    zlen (frames (channel_id d) cmd payload) <= 129) /\
  (CTAPHID_MAX_PAYLOAD < zlen payload ->
    (transact cmd payload d).1 = Some (Err (PayloadTooLarge (zlen payload))) /\
    written (transact cmd payload d).2 = written d).
Proof.
  intros Hch Hka Herr Hw Hk Hc Ht0 Hr Hlen Hresp Harr.
  unfold transact. rewrite (hid_bind_Ok _ _ _ _ _ (now_ok _ _ _ Hc)). cbn [transact_loop].
  destruct (trace_step (ctap_line Sent cmd (zlen payload)
    (trace_payload payload (exchange_is_sensitive cmd payload))) (with_clock d (t0 :: c))) as (pr & cp & Htr).
  rewrite (hid_bind_Ok _ _ _ _ _ Htr). cbn [with_clock set_script script channel_id timeout hooked written trace_on] in *.
  set (d1 := mkDev _ _ _ _ _ _ _ _) in *. split; intros Hz.
  - destruct (attempt_once_answered cmd payload resp t0 c rs d1) as (d2 & Ha & Hw2); try done.
    rewrite (hid_bind_Ok _ _ _ _ _ Ha).
    destruct (trace_step (ctap_line Received cmd (zlen resp)
      (trace_payload resp (exchange_is_sensitive cmd payload))) d2) as (pr2 & cp2 & Htr2).
    rewrite (hid_bind_Ok _ _ _ _ _ Htr2). split_and!; [done|done|by apply frames_sizes..].
  - assert (attempt_once cmd payload d1 = (Some (Ok (Err (PayloadTooLarge (zlen payload)))), d1)) as Ha.
    { unfold attempt_once, mbind, hid_bind. simpl. rewrite send_frames, (proj2 (Z.leb_gt _ _)) by done. done. }
    by rewrite (hid_bind_Ok _ _ _ _ _ Ha).
Qed.

(** Retrying is bounded and complete. Whatever the device and the clock do,
    a transaction writes at most four attempts, each the command's own frames
    from the start (a prefix of them when a write failed), on the device's own
    channel; and the retry loop always reaches an end: no further attempt would
    ever be made with more fuel. *)
Theorem hid_transact_bounded (cmd : Z) (payload : list Z) (d : CtapHidDevice) (extra : nat) (s : bool) (started : Z) :
  channel_id (transact cmd payload d).2 = channel_id d /\
  (exists ps, written (transact cmd payload d).2 = written d ++ concat ps /\ (length ps <= 4)%nat /\
    Forall (fun p => p `prefix_of` frames (channel_id d) cmd payload) ps) /\
  transact_loop (3 + extra) cmd payload s started 1 d = transact_loop 3 cmd payload s started 1 d.
Proof.
  assert (attempts 4 cmd payload d (transact cmd payload d).2) as [Hc Hps].
  { unfold transact. apply (attempts_bind 0 4); [apply quiet_attempts, now_respects; [apply _|done]|].
    intros t. apply (transact_loop_attempts 3). }
  split_and!; [done|done|]. apply transact_loop_fuel. unfold CHANNEL_BUSY_MAX_ATTEMPTS. lia.
Qed.

(** The subcommand of a clientPIN request, as its map says it: the number under
    the first key 2. *)
Definition subcommand_is (m : list (Value * Value)) (n : Z) : Prop :=
  exists pre post, m = pre ++ (UInt 2, UInt n) :: post /\ Forall (fun kv => kv.1 <> UInt 2) pre.
Lemma subcommand_iff m n :
  (kv ← find_map (fun kv => if bool_decide (as_uint kv.1 = Some 2) then Some kv else None) m; as_uint kv.2) = Some n <-> subcommand_is m n.
Proof.
  assert (forall v x, as_uint v = Some x <-> v = UInt x) as Hu by (intros [] x; cbn; split; congruence).
  induction m as [|[k v] m IH]; cbn [find_map].
  - split; [done|]. intros ([|] & post & Hm & _); done.
  - cbn [fst snd]. case_bool_decide as Hk; rewrite Hu in Hk.
    + subst k. cbn [mbind option_bind snd]. rewrite Hu. split.
      * intros ->. by exists [], m.
      * intros ([|[k' v'] pre] & post & Hm & Hpre); [by injection Hm as -> _|].
        injection Hm as <- <- _. by apply list.Forall_cons in Hpre as [[] _].
    + rewrite IH. split.
      * intros (pre & post & -> & Hpre). exists ((k, v) :: pre), post. split; [done|by constructor].
      * intros ([|[k' v'] pre] & post & Hm & Hpre); [by injection Hm as -> _ _|].
        injection Hm as <- <- ->. apply list.Forall_cons in Hpre as [_ Hpre]. by exists pre, post.
Qed.

Lemma client_pin_subcommand_iff body n :
  client_pin_subcommand body = Some n <->
  exists it rest m, body = it ++ rest /\ encodes (DECODE_DEPTH_LIMIT + 1) it (Map m) /\ subcommand_is m n.
Proof.
  unfold client_pin_subcommand. split.
  - destruct (decode body) as [[v rest]|e] eqn:Hd; [|done]. cbn [result_ok mbind option_bind].
    destruct v as [| | | | |m| |]; try done. cbn [as_map mbind option_bind]. intros Hn%subcommand_iff.
    apply decode_sound in Hd as (it & -> & Hit). by exists it, rest, m.
  - intros (it & rest & m & -> & Hit & Hn). apply decode_complete in Hit as [_ Hit].
    unfold decode. rewrite Hit. cbn [result_ok mbind option_bind as_map]. by apply subcommand_iff.
Qed.

(** C30: personal data and PIN material never reach the trace. Credential
    management, fingerprint enrolment, large blobs, authenticator configuration
    and every vendor command are sensitive, and so is every clientPIN request,
    whatever its bytes, but the ones that ask for getRetries or getKeyAgreement:
    those whose body starts with a CBOR map, in any encoding of at most 16 nested
    containers, whose first entry under key 2 is the number 1 or 2. A body that is
    no CBOR, no map or has no such entry is sensitive. A transaction with a
    sensitive request, however it goes, adds only lines that show the direction,
    the command and the lengths. *)
Theorem sensitive_exchange_redacted (cmd : Z) (payload body : list Z) (d : CtapHidDevice) :
  (0xC0 <= cmd -> exchange_is_sensitive cmd payload = true) /\
  Forall (fun b => exchange_is_sensitive CTAPHID_CBOR (b :: body) = true) [0x0A; 0x41; 0x09; 0x40; 0x0C; 0x0D] /\
  (exchange_is_sensitive CTAPHID_CBOR (0x06 :: body) = false <->
    exists it rest m n, body = it ++ rest /\ encodes (DECODE_DEPTH_LIMIT + 1) it (Map m) /\ subcommand_is m n /\ (n = 1 \/ n = 2)) /\
  (exchange_is_sensitive cmd payload = true ->
    Forall (fun line => line ∈ lines d \/ redacted_line cmd (zlen payload) line) (lines (transact cmd payload d).2)).
Proof.
  split_and!.
  - intros Hc. unfold exchange_is_sensitive. by rewrite (proj2 (Z.leb_le _ _)).
  - repeat constructor.
  - unfold exchange_is_sensitive. change (192 <=? CTAPHID_CBOR) with false. rewrite Z.eqb_refl.
    cbn [negb]. rewrite bool_decide_false by (rewrite !elem_of_cons, elem_of_nil; lia). rewrite Z.eqb_refl.
    rewrite negb_false_iff, orb_true_iff, !bool_decide_eq_true, !client_pin_subcommand_iff. split.
    + intros [(it & rest & m & ? & ? & ?)|(it & rest & m & ? & ? & ?)]; [exists it, rest, m, 1|exists it, rest, m, 2]; auto.
    + intros (it & rest & m & n & ? & ? & ? & [-> | ->]); [left|right]; by exists it, rest, m.
  - intros Hs. unfold transact. rewrite Hs.
    set (P := fun line => line ∈ lines d \/ redacted_line cmd (zlen payload) line).
    assert (respects (lines_are P) (started ← now; transact_loop 3 cmd payload true started 1)) as Hr.
    { apply respects_bind; [apply _|apply now_respects; [apply _|by intros ? ? HF]|]. intros t.
      apply transact_loop_lines. by right. }
    apply Hr. apply list.Forall_forall. by left.
Qed.

(** ** What was heard *)

(** The rest of a message of [n] bytes, [got] of them so far: continuation frames
    in order, with nothing for the channel between them. *)
Inductive rest_heard (cid n : Z) : Z -> list Z -> list Z -> list (result HidTransportError (list Z)) -> Prop :=
  | rh_done seq got : n <= zlen got -> rest_heard cid n seq got got []
  | rh_quiet seq got msg x rs : quiet cid x -> rest_heard cid n seq got msg rs -> rest_heard cid n seq got msg (x :: rs)
  | rh_next seq got msg buf rs : zlen got < n -> zlen buf = 64 -> frame_cid buf = cid -> buf !!! 4%nat = seq ->
      rest_heard cid n (wadd 8 seq 1) (got ++ slice buf 5 (Z.to_nat (5 + Z.min (n - zlen got) 59))) msg rs ->
      rest_heard cid n seq got msg (Ok buf :: rs).
(** A message on a channel: its first frame, which says the length, and the rest,
    after any keep-alives and frames of other channels. *)
Inductive heard (cid cmd : Z) : list Z -> list (result HidTransportError (list Z)) -> Prop :=
  | hd_quiet msg x rs : quiet cid x -> heard cid cmd msg rs -> heard cid cmd msg (x :: rs)
  | hd_keepalive msg x rs : keepalive cid x -> heard cid cmd msg rs -> heard cid cmd msg (x :: rs)
  | hd_first msg buf n rs : zlen buf = 64 -> frame_cid buf = cid -> buf !!! 4%nat = cmd ->
      n = from_be (slice buf 5 7) -> n <= CTAPHID_MAX_PAYLOAD ->
      rest_heard cid n 0 (slice buf 7 (Z.to_nat (7 + Z.min n 57))) msg rs -> heard cid cmd msg (Ok buf :: rs).
(** The answers to INIT up to the one with our nonce; those before it have
    another program's. *)
Inductive answers_heard (nonce : list Z) : list Z -> list (result HidTransportError (list Z)) -> Prop :=
  | ah_own resp rs : heard CTAPHID_BROADCAST_CID CTAPHID_INIT resp rs -> 17 <= zlen resp -> take 8 resp = nonce ->
      answers_heard nonce resp rs
  | ah_other other resp rs rs' : heard CTAPHID_BROADCAST_CID CTAPHID_INIT other rs -> 17 <= zlen other -> take 8 other <> nonce ->
      answers_heard nonce resp rs' -> answers_heard nonce resp (rs ++ rs').

(** What only looks at the clock, the cancel flag or the trace reads nothing. *)
Definition unread (d d' : CtapHidDevice) : Prop := reads (script d') = reads (script d).
Lemma now_unread d : unread d (now d).2.
Proof. unfold unread, now. by destruct (script d) as [[|t c] k r w] eqn:E; cbn; rewrite ?E. Qed.
Lemma cancel_unread d : unread d (cancel_requested d).2.
Proof. unfold unread, cancel_requested. by destruct (script d) as [c [|b k] r w] eqn:E; cbn; rewrite ?E. Qed.
Lemma trace_unread line d : unread d (trace line d).2.
Proof. unfold unread, trace. by destruct (emit _ _ _). Qed.

Lemma wait_report_heard deadline d r d1 : wait_report deadline d = (Some (Ok r), d1) ->
  exists x, reads (script d) = x :: reads (script d1) /\ match r with Some buf => x = Ok buf /\ zlen buf = 64 | None => x = Ok [] end.
Proof.
  unfold wait_report. intros (t & e1 & H1 & H)%hid_bind_inv. pose proof (now_unread d) as U1. rewrite H1 in U1. cbn [snd] in U1.
  destruct (deadline <=? t); [done|]. apply hid_bind_inv in H as (c & e2 & H2 & H). pose proof (cancel_unread e1) as U2. rewrite H2 in U2.
  cbn [snd] in U2. destruct c; [done|]. unfold read_report in H. apply hid_bind_inv in H as (buf & e3 & H3 & H).
  unfold unread in *. rewrite <- U1, <- U2. unfold raw_read in H3. destruct (script e2) as [c k [|x rs] w] eqn:E; [done|]. injection H3 as -> <-.
  exists (Ok buf). destruct (zlen buf =? 0) eqn:Ez; [|destruct (negb (zlen buf =? CTAPHID_REPORT_SIZE)) eqn:E64; [done|]];
    injection H as <- <-; bools; (split; [done|]).
  - by apply zlen_0 in Ez as ->.
  - by split.
Qed.

Lemma recv_cont_heard fuel cid deadline n got seq d msg d' :
  recv_cont fuel cid deadline n got seq d = (Some (Ok msg), d') ->
  exists used, reads (script d) = used ++ reads (script d') /\ rest_heard cid n seq got msg used.
Proof.
  revert got seq d. induction fuel as [|fuel IH]; intros got seq d; [done|]. cbn [recv_cont].
  destruct (negb (zlen got <? n)) eqn:Hl; bools; [intros [= <- <-]; exists []; split; [done|]; by constructor|].
  intros (r & d1 & (x & Hx & Hr)%wait_report_heard & H)%hid_bind_inv. rewrite Hx. destruct r as [buf|].
  2:{ apply IH in H as (used & -> & Hh). exists (x :: used). split; [done|]. apply rh_quiet; [by left|done]. }
  destruct Hr as [-> Hb]. destruct (negb (frame_cid buf =? cid)) eqn:Hc; bools.
  { apply IH in H as (used & -> & Hh). exists (Ok buf :: used). split; [done|]. apply rh_quiet; [right; by exists buf|done]. }
  cbv zeta in H. destruct (negb (Z.land _ _ =? 0)); [done|]. destruct (negb (_ =? seq)) eqn:Hs; bools; [done|].
  apply IH in H as (used & -> & Hh). exists (Ok buf :: used). split; [done|]. by apply rh_next.
Qed.

Lemma recv_loop_heard fuel cid cmd deadline d msg d' : cmd <> CTAPHID_KEEPALIVE ->
  recv_loop fuel cid cmd deadline d = (Some (Ok msg), d') ->
  exists used, reads (script d) = used ++ reads (script d') /\ heard cid cmd msg used.
Proof.
  intros Hcmd. revert deadline d. induction fuel as [|fuel IH]; intros deadline d; [done|]. cbn [recv_loop].
  intros (r & d1 & (x & Hx & Hr)%wait_report_heard & H)%hid_bind_inv. rewrite Hx. destruct r as [buf|].
  2:{ apply IH in H as (used & -> & Hh). exists (x :: used). split; [done|]. apply hd_quiet; [by left|done]. }
  destruct Hr as [-> Hb]. cbv zeta in H. destruct (negb (frame_cid buf =? cid)) eqn:Hc; bools.
  { apply IH in H as (used & -> & Hh). exists (Ok buf :: used). split; [done|]. apply hd_quiet; [right; by exists buf|done]. }
  destruct (buf !!! 4%nat =? CTAPHID_KEEPALIVE) eqn:Hk; bools.
  { apply hid_bind_inv in H as (c & d2 & H2 & H). pose proof (cancel_unread d1) as U2. rewrite H2 in U2. cbn [snd] in U2. destruct c; [done|].
    apply hid_bind_inv in H as (u & d3 & H3 & H). injection H3 as <- <-. apply hid_bind_inv in H as (t & d4 & H4 & H).
    pose proof (now_unread (call_hook (buf !!! 7%nat) d2).2) as U4. cbn [call_hook snd] in U4. rewrite H4 in U4. cbn [snd] in U4.
    apply hid_bind_inv in H as (tm & d5 & H5 & H). injection H5 as <- <-. apply IH in H as (used & Hu & Hh).
    unfold unread in *. cbn [script] in U4. rewrite U4, U2 in Hu. rewrite Hu. exists (Ok buf :: used). split; [done|].
    apply hd_keepalive; [by exists buf|done]. }
  destruct (_ =? CTAPHID_ERROR); [done|]. destruct (negb (buf !!! 4%nat =? cmd)) eqn:Hm; [done|]. bools.
  destruct (CTAPHID_MAX_PAYLOAD <? _) eqn:Hn; [done|]. bools. apply recv_cont_heard in H as (used & -> & Hh).
  exists (Ok buf :: used). split; [done|]. by eapply hd_first.
Qed.

Lemma init_loop_heard fuel nonce deadline d init d' :
  init_loop fuel nonce deadline d = (Some (Ok init), d') ->
  exists resp used, reads (script d) = used ++ reads (script d') /\ answers_heard nonce resp used /\
    init_channel init = from_be (slice resp 8 12) /\ capabilities init = resp !!! 16%nat.
Proof.
  revert d. induction fuel as [|fuel IH]; intros d; [done|]. cbn [init_loop].
  intros (resp & d1 & Hr & H)%hid_bind_inv. apply hid_bind_inv in H as (u & d2 & Ht & H).
  pose proof (trace_unread (ctap_line Received CTAPHID_INIT (zlen resp) (hexline resp)) d1) as U. rewrite Ht in U. cbn [snd] in U.
  apply recv_loop_heard in Hr as (used & Hu & Hh); [|done]. unfold unread in U. rewrite Hu, <- U.
  destruct (zlen resp <? 17) eqn:Hl; [done|]. bools.
  destruct (bool_decide_reflect (take 8 resp = nonce)) as [Hn|Hn]; cbn [negb] in H.
  - injection H as <- <-. exists resp, used. split; [done|]. split; [by apply ah_own|done].
  - apply IH in H as (own & used' & -> & Hown & Hi). exists own, (used ++ used'). split; [by rewrite app_assoc|]. split; [|done].
    by eapply ah_other.
Qed.

Lemma recv_by_quietly cid cmd deadline : respects quietly (recv_by cid cmd deadline).
Proof.
  intros d. unfold recv_by. generalize (S (length (reads (script d)))) as fuel. intros fuel.
  exact (recv_loop_respects quietly ltac:(done) ltac:(done) fuel cid cmd deadline d).
Qed.

Lemma init_answers_quietly nonce deadline : respects quietly (init_answers nonce deadline).
Proof.
  intros d. unfold init_answers. generalize (S (length (reads (script d)))) as fuel. intros fuel. revert d.
  induction fuel as [|fuel IH]; [apply respects_waiting, _|]. cbn [init_loop].
  apply respects_bind; [apply _|apply recv_by_quietly|]. intros resp.
  apply respects_bind; [apply _|apply trace_quietly|]. intros _.
  apply respects_if; [apply respects_fail, _|]. apply respects_if; [exact IH|apply respects_ret, _].
Qed.

(** C31: opening takes one's own channel. When [open] succeeds, one INIT message
    with the nonce was written on the broadcast channel and nothing else, and
    what was read meanwhile is a run of INIT messages on the broadcast channel,
    each assembled from its frames in order (frames of other channels and
    keep-alives aside), all but the last with another program's nonce; the last
    echoes ours, is of at least 17 bytes, and its channel and capabilities are the
    ones taken. *)
Theorem hid_open_own_channel (nonce : list Z) (d d' : CtapHidDevice) (init : InitResponse) :
  writes_succeed d -> zlen nonce = 8 -> open nonce d = (Some (Ok init), d') ->
  channel_id d' = init_channel init /\ written d' = written d ++ frames CTAPHID_BROADCAST_CID CTAPHID_INIT nonce /\
  exists resp used, reads (script d) = used ++ reads (script d') /\ answers_heard nonce resp used /\
    init_channel init = from_be (slice resp 8 12) /\ capabilities init = resp !!! 16%nat.
Proof.
  intros Hw Hn H. unfold open in H. apply hid_bind_inv in H as (i & d3 & Hi & H).
  assert (init = i /\ d' = (set_channel (init_channel i) d3).2) as [-> ->] by (simpl in H; by injection H as <- <-).
  unfold do_init in Hi.
  destruct (trace_step (ctap_line Sent CTAPHID_INIT (zlen nonce) (hexline nonce)) d) as (pr & cp & Htr).
  rewrite (hid_bind_Ok _ _ _ _ _ Htr) in Hi. clear Htr H. set (d0 := mkDev _ _ _ _ _ _ _ _) in *.
  assert (writes_succeed d0) as Hw0 by done.
  rewrite (hid_bind_Ok _ _ _ _ _ (send_ok CTAPHID_BROADCAST_CID CTAPHID_INIT nonce d0 Hw0 ltac:(unfold CTAPHID_MAX_PAYLOAD; lia))) in Hi.
  set (d1 := after_writing d0 _) in *.
  apply hid_bind_inv in Hi as (t & d2 & Ht & Hi). pose proof (now_respects quietly ltac:(done) d1) as [Hq1 _].
  pose proof (now_unread d1) as U. rewrite Ht in Hq1, U. rewrite (hid_bind_Ok get_timeout _ d2 (timeout d2) d2 eq_refl) in Hi.
  pose proof (init_answers_quietly nonce (t + timeout d2) d2) as [Hq2 _]. rewrite Hi in Hq2. simpl in Hq1, Hq2.
  split_and!; [done|by simpl; rewrite Hq2, Hq1|].
  unfold init_answers in Hi. apply init_loop_heard in Hi as (resp & used & Hu & Hh & Hc). exists resp, used.
  unfold unread in U. cbn [snd] in U. rewrite U in Hu. by split.
Qed.

(** * Instances *)

Definition run_cid : Z := 0x01020304.
Definition run_resp : list Z := 0 :: replicate 59 7.
Definition run_reads : list (result HidTransportError (list Z)) :=
  [Ok []; Ok (input run_cid CTAPHID_KEEPALIVE [0; 1; 2]); Ok (input 5 CTAPHID_CBOR [0; 1; 0]);
   Ok (input run_cid CTAPHID_CBOR (to_be 2 60 ++ take 57 run_resp)); Ok []; Ok (input run_cid 0 (drop 57 run_resp))].
Definition run_dev : CtapHidDevice :=
  mkDev (mkScript (0 :: 10 :: replicate 12 500) [] run_reads []) run_cid 2000 (Some []) [] true [] None.

(** The keep-alive's status reaches the hook; the exchange is traced. *)
Example run_transact :
  let '(r, d) := transact CTAPHID_CBOR [4] run_dev in
  r = Some (Ok run_resp) /\ hooked d = Some [2] /\ length (printed d) = 2%nat /\ zlen (concat (written d)) = 65.
Proof. vm_compute. auto. Qed.

Lemma hid_exchange_witness :
  (zlen [4] <= CTAPHID_MAX_PAYLOAD ->
    (transact CTAPHID_CBOR [4] run_dev).1 = Some (Ok run_resp) /\
    written (transact CTAPHID_CBOR [4] run_dev).2 = written run_dev ++ frames (channel_id run_dev) CTAPHID_CBOR [4] /\
    Forall (fun f => zlen f = 65) (frames (channel_id run_dev) CTAPHID_CBOR [4]) /\
    zlen (frames (channel_id run_dev) CTAPHID_CBOR [4]) <= 129) /\
  (CTAPHID_MAX_PAYLOAD < zlen [4] ->
    (transact CTAPHID_CBOR [4] run_dev).1 = Some (Err (PayloadTooLarge (zlen [4]))) /\
    written (transact CTAPHID_CBOR [4] run_dev).2 = written run_dev).
Proof.
  apply (hid_exchange CTAPHID_CBOR [4] run_resp run_dev 0 10 (replicate 12 500) run_reads); try done.
  - constructor.
  - apply Forall_replicate. simpl. lia.
  - apply aa_quiet; [by left|].
    apply aa_keepalive; [by eexists|].
    apply aa_quiet; [right; by eexists|].
    apply aa_first. apply ca_quiet; [by left|]. change (cont_inputs _ _ _) with [input run_cid 0 (drop 57 run_resp)].
    apply ca_next, ca_done.
Defined.

(** Another program's INIT answer first, then one's own. *)
Definition run_init (nonce : list Z) : list Z := nonce ++ to_be 4 run_cid ++ [2; 5; 7; 1; 4].
Definition run_open : CtapHidDevice :=
  mkDev (mkScript (replicate 8 10) []
    [Ok (input CTAPHID_BROADCAST_CID CTAPHID_INIT (to_be 2 17 ++ run_init (replicate 8 1)));
     Ok (input CTAPHID_BROADCAST_CID CTAPHID_INIT (to_be 2 17 ++ run_init (replicate 8 9)))] [])
    CTAPHID_BROADCAST_CID 2000 None [] false [] None.
Definition run_opened : CtapHidDevice := (open (replicate 8 9) run_open).2.

Lemma hid_open_own_channel_witness :
  channel_id run_opened = run_cid /\
  written run_opened = written run_open ++ frames CTAPHID_BROADCAST_CID CTAPHID_INIT (replicate 8 9) /\
  exists resp used, reads (script run_open) = used ++ reads (script run_opened) /\ answers_heard (replicate 8 9) resp used /\
    run_cid = from_be (slice resp 8 12) /\ 4 = resp !!! 16%nat.
Proof.
  assert (open (replicate 8 9) run_open = (Some (Ok (mkInit run_cid 2 5 7 1 4)), run_opened)) as Ho by (vm_compute; reflexivity).
  exact (hid_open_own_channel (replicate 8 9) run_open run_opened (mkInit run_cid 2 5 7 1 4) (Forall_nil_2 _) eq_refl Ho).
Defined.
