(* ===== verification/Token2Ids.v ===== *)
(** keyroost-proto/src/lib.rs: the Token2 USB ids, the product table and the
    questions asked of it. *)
From S2P Require Export Text.

Definition USB_VID : Z := 0x349E.
Definition USB_PID : Z := 0x0300.
Definition READER_NAME_HINT : list Z := s2b "TOKEN2".

Definition is_molto2_reader (reader_name : list Z) : bool :=
  contains (s2b "molto") (to_ascii_lowercase reader_name).

Inductive Token2Product := Molto2 | Fido | NfcReader.
#[export] Instance Token2Product_eq_dec : EqDecision Token2Product.
Proof. solve_decision. Defined.

Record Token2Functions := mkFunctions { fn_fido : bool; fn_otp : bool; fn_pgp : bool }.

Definition NONE : Token2Functions := mkFunctions false false false.
Definition FIDO : Token2Functions := mkFunctions true false false.
Definition OTP : Token2Functions := mkFunctions false true false.
Definition PGP : Token2Functions := mkFunctions false false true.
Definition FIDO_OTP : Token2Functions := mkFunctions true true false.
Definition FIDO_PGP : Token2Functions := mkFunctions true false true.
Definition OTP_PGP : Token2Functions := mkFunctions false true true.
Definition OTP_PGP_FIDO : Token2Functions := mkFunctions true true true.

Definition TOKEN2_PRODUCTS : list (Z * Token2Product * Token2Functions * list Z) :=
  [ (0x0010, Fido, FIDO, s2b "PIN+ Mini (FIDO)");
    (0x0011, Fido, OTP, s2b "PIN+ Mini (OTP)");
    (0x0012, Fido, FIDO_OTP, s2b "PIN+ Mini (FIDO + OTP)");
    (0x0013, Fido, OTP_PGP, s2b "PIN+ Mini (OTP + PGP)");
    (0x0014, Fido, FIDO_PGP, s2b "PIN+ Mini (FIDO + PGP)");
    (0x0015, Fido, PGP, s2b "PIN+ Mini (PGP)");
    (0x0016, Fido, OTP_PGP_FIDO, s2b "PIN+ Mini (OTP + PGP + FIDO)");
    (0x0020, Fido, FIDO, s2b "PIN+ Series (FIDO)");
    (0x0021, Fido, OTP, s2b "PIN+ Series (OTP)");
    (0x0022, Fido, FIDO_OTP, s2b "PIN+ Series (FIDO + OTP)");
    (0x0023, Fido, OTP_PGP, s2b "PIN+ Series (OTP + PGP)");
    (0x0024, Fido, FIDO_PGP, s2b "PIN+ Series (FIDO + PGP)");
    (0x0025, Fido, PGP, s2b "PIN+ Series (PGP)");
    (0x0026, Fido, OTP_PGP_FIDO, s2b "PIN+ Series (OTP + PGP + FIDO)");
    (0x0200, Fido, FIDO, s2b "Bio3 Dual (FIDO)");
    (0x0201, Fido, OTP, s2b "Bio3 Dual (OTP)");
    (0x0202, Fido, FIDO_OTP, s2b "Bio3 Dual (FIDO + OTP)");
    (0x0203, Fido, OTP_PGP, s2b "Bio3 Dual (OTP + PGP)");
    (0x0204, Fido, FIDO_PGP, s2b "Bio3 Dual (FIDO + PGP)");
    (0x0205, Fido, PGP, s2b "Bio3 Dual (PGP)");
    (0x0206, Fido, OTP_PGP_FIDO, s2b "Bio3 Dual (OTP + PGP + FIDO)");
    (0x0300, Molto2, NONE, s2b "Molto2");
    (0x0430, NfcReader, NONE, s2b "TOKEN2 MFA NFC Reader") ].

(** [iter().find_map(|row| (row.pid == pid).then_some(get(row)))]. *)
Definition product_row (pid : Z) : option (Z * Token2Product * Token2Functions * list Z) :=
  find (fun r => r.1.1.1 =? pid) TOKEN2_PRODUCTS.

Definition token2_product (pid : Z) : option Token2Product := (fun r => r.1.1.2) <$> product_row pid.
Definition token2_pid_label (pid : Z) : option (list Z) := snd <$> product_row pid.
Definition token2_functions (pid : Z) : option Token2Functions := (fun r => r.1.2) <$> product_row pid.

Definition token2_pid_may_have_otp (pid : Z) : bool :=
  match token2_functions pid with None => true | Some f => fn_otp f end.

Definition is_molto2_usb (vid pid : Z) : bool :=
  (vid =? USB_VID) && bool_decide (token2_product pid = Some Molto2).

(** * Lemmas *)

(** What the table's rows must agree on. *)
Definition row_consistent (r : Z * Token2Product * Token2Functions * list Z) : bool :=
  let '(pid, kind, f, lbl) := r in
  bool_decide (kind = Molto2 <-> pid = USB_PID) &&
  (negb (bool_decide (kind = Fido)) ||
   (eqb (fn_fido f) (contains (s2b "FIDO") lbl) && eqb (fn_otp f) (contains (s2b "OTP") lbl) &&
    eqb (fn_pgp f) (contains (s2b "PGP") lbl))) &&
  (bool_decide (kind = Fido) || negb (fn_fido f || fn_otp f || fn_pgp f)).

Lemma table_consistent : forallb row_consistent TOKEN2_PRODUCTS = true.
Proof. vm_compute. reflexivity. Qed.

Lemma product_row_In pid r : product_row pid = Some r -> r.1.1.1 = pid /\ row_consistent r = true.
Proof.
  intros H. apply find_some in H as [Hin Hp]. split; [by apply Z.eqb_eq|].
  pose proof table_consistent as Ht. rewrite forallb_forall in Ht. by apply Ht.
Qed.

Lemma table_pids_distinct : NoDup ((fun r => r.1.1.1) <$> TOKEN2_PRODUCTS).
Proof. apply (bool_decide_eq_true_1 _). vm_compute. reflexivity. Qed.

(** * Properties *)

(** A Molto2 is exactly the device 349E:0300, and what the table says of
    every other known PID is consistent: the three lookups agree on one row per
    PID, a FIDO-line row's function set is the one its vendor description
    spells, any other row has none, and a PID is denied OTP only when a known
    row of the FIDO line, Molto2 or reader lacks it. *)
Theorem token2_ids_consistent (vid pid : Z) :
  (is_molto2_usb vid pid = true <-> vid = USB_VID /\ pid = USB_PID) /\
  (token2_product pid = Some Fido -> exists f lbl,
     token2_functions pid = Some f /\ token2_pid_label pid = Some lbl /\
     fn_fido f = contains (s2b "FIDO") lbl /\ fn_otp f = contains (s2b "OTP") lbl /\
     fn_pgp f = contains (s2b "PGP") lbl) /\
  (token2_pid_may_have_otp pid = false <-> exists f, token2_functions pid = Some f /\ fn_otp f = false).
Proof.
  unfold is_molto2_usb, token2_product, token2_functions, token2_pid_label, token2_pid_may_have_otp, token2_functions.
  split_and!.
  - rewrite andb_true_iff, Z.eqb_eq, bool_decide_eq_true. apply and_iff_compat_l. split.
    + destruct (product_row pid) as [[[[p k] f] l]|] eqn:E; [|done]. intros [= ->].
      destruct (product_row_In _ _ E) as [<- Hc]. unfold row_consistent in Hc. bools.
      match goal with H : bool_decide _ = true |- _ => apply bool_decide_eq_true in H; by apply H end.
    + intros ->. reflexivity.
  - destruct (product_row pid) as [[[[p k] f] l]|] eqn:E; [|done]. intros [= ->].
    destruct (product_row_In _ _ E) as [_ Hc]. exists f, l. unfold row_consistent in Hc.
    rewrite (bool_decide_eq_true_2 (Fido = Fido)) in Hc by done. cbn [negb orb] in Hc. bools.
    repeat match goal with H : eqb _ _ = true |- _ => apply eqb_prop in H end.
    done.
  - destruct (product_row pid) as [r|]; simpl; [|split; [done|by intros (? & ? & _)]].
    split; [by eexists|]. by intros (f & [= <-] & H).
Qed.
