(* ===== verification/Codec.v ===== *)
(** keyroost-proto/src/codec.rs: hex, RFC 4648 base32 and base64. Strings are
    their UTF-8 bytes (see Utf8); decoders that walk [s.chars()] walk the
    scalar values here too. *)
From S2P Require Export Words Utf8.

Inductive DecodeError := InvalidLength | InvalidChar.
#[export] Instance DecodeError_eq_dec : EqDecision DecodeError.
Proof. solve_decision. Defined.

(** * Definitions *)

Definition NIBBLES : list Z := s2b "0123456789abcdef".

Definition hex_nibble (c : Z) : result DecodeError Z :=
  if (48 <=? c) && (c <=? 57) then Ok (c - 48)
  else if (97 <=? c) && (c <=? 102) then Ok (c - 97 + 10)
  else if (65 <=? c) && (c <=? 70) then Ok (c - 65 + 10)
  else Err InvalidChar.

(** The loop over [bytes.chunks(2)]. *)
Fixpoint hex_chunks (l : list Z) : result DecodeError (list Z) :=
  match l with
  | c0 :: c1 :: r =>
      hi ← hex_nibble c0; lo ← hex_nibble c1;
      rest ← hex_chunks r;
      Ok (Z.lor (wshl 8 hi 4) lo :: rest)
  | _ => Ok []
  end.

Definition hex_decode (s : list Z) : result DecodeError (list Z) :=
  if negb (zlen s mod 2 =? 0) then Err InvalidLength else hex_chunks s.

Definition hex_encode (bs : list Z) : list Z :=
  flat_map (fun b => [NIBBLES !!! Z.to_nat (Z.shiftr b 4); NIBBLES !!! Z.to_nat (Z.land b 0x0f)]) bs.

(** The state of a base32/base64 decoding loop. *)
Record radix := mkRadix { rx_buf : Z; rx_bits : Z; rx_out : list Z; rx_padded : bool }.
Definition radix0 : radix := mkRadix 0 0 [] false.

(** [buf = (buf << k) | v; bits += k; if bits >= 8 { ... }] on a w-bit [buf]. *)
Definition push_bits (w k : Z) (st : radix) (v : Z) : radix :=
  let buf := Z.lor (wshl w (rx_buf st) k) v in
  let bits := rx_bits st + k in
  if 8 <=? bits then
    mkRadix buf (bits - 8) (rx_out st ++ [Z.land (Z.shiftr buf (bits - 8)) 0xff]) (rx_padded st)
  else mkRadix buf bits (rx_out st) (rx_padded st).

(** The residual-bits check after the loop. *)
Definition radix_finish (st : radix) : result DecodeError (list Z) :=
  if (0 <? rx_bits st) && negb (Z.land (rx_buf st) (Z.shiftl 1 (rx_bits st) - 1) =? 0)
  then Err InvalidLength else Ok (rx_out st).

Definition in_range (lo hi c : Z) : bool := (lo <=? c) && (c <=? hi).

(** One character of [base32_decode]'s loop; the [u64] buffer. *)
Definition base32_step (st : radix) (c : Z) : result DecodeError radix :=
  if (c =? 32) || (c =? 45) || (c =? 9) || (c =? 10) || (c =? 13) then Ok st
  else if c =? 61 then Ok (mkRadix (rx_buf st) (rx_bits st) (rx_out st) true)
  else if rx_padded st then Err InvalidChar
  else if in_range 65 90 c then Ok (push_bits 64 5 st (c - 65))
  else if in_range 97 122 c then Ok (push_bits 64 5 st (c - 97))
  else if in_range 50 55 c then Ok (push_bits 64 5 st (c - 50 + 26))
  else Err InvalidChar.

(** One character of [base64_decode]'s loop; the [u32] buffer. *)
Definition base64_step (st : radix) (c : Z) : result DecodeError radix :=
  if (c =? 32) || (c =? 9) || (c =? 10) || (c =? 13) then Ok st
  else if c =? 61 then Ok (mkRadix (rx_buf st) (rx_bits st) (rx_out st) true)
  else if rx_padded st then Err InvalidChar
  else if in_range 65 90 c then Ok (push_bits 32 6 st (c - 65))
  else if in_range 97 122 c then Ok (push_bits 32 6 st (c - 97 + 26))
  else if in_range 48 57 c then Ok (push_bits 32 6 st (c - 48 + 52))
  else if (c =? 43) || (c =? 45) then Ok (push_bits 32 6 st 62)
  else if (c =? 47) || (c =? 95) then Ok (push_bits 32 6 st 63)
  else Err InvalidChar.

(** [for x in l { st = step(st, x)?; }]. *)
Fixpoint try_fold {E S X} (step : S -> X -> result E S) (st : S) (l : list X) : result E S :=
  match l with
  | [] => Ok st
  | x :: l => st' ← step st x; try_fold step st' l
  end.

Definition base32_decode (s : list Z) : result DecodeError (list Z) :=
  st ← try_fold base32_step radix0 (chars s); radix_finish st.

Definition base64_decode (s : list Z) : result DecodeError (list Z) :=
  st ← try_fold base64_step radix0 (chars s); radix_finish st.

Definition BASE64_ALPHABET : list Z :=
  s2b "ABCDEFGHIJKLMNOPQRSTUVWXYZabcdefghijklmnopqrstuvwxyz0123456789+/".

(** The characters for one chunk of one to three bytes. *)
Definition base64_chunk (chunk : list Z) : list Z :=
  let b0 := chunk !!! 0%nat in
  let b1 := default 0 (chunk !! 1%nat) in
  let b2 := default 0 (chunk !! 2%nat) in
  let n := Z.lor (Z.lor (Z.shiftl b0 16) (Z.shiftl b1 8)) b2 in
  [BASE64_ALPHABET !!! Z.to_nat (Z.land (Z.shiftr n 18) 0x3F);
   BASE64_ALPHABET !!! Z.to_nat (Z.land (Z.shiftr n 12) 0x3F);
   if 1 <? zlen chunk then BASE64_ALPHABET !!! Z.to_nat (Z.land (Z.shiftr n 6) 0x3F) else 61;
   if 2 <? zlen chunk then BASE64_ALPHABET !!! Z.to_nat (Z.land n 0x3F) else 61].

Definition base64_encode (bs : list Z) : list Z := flat_map base64_chunk (chunks 3 bs).

Example hex_ex : hex_decode (hex_encode [0; 1; 16; 255; 171]) = Ok [0; 1; 16; 255; 171].
Proof. reflexivity. Qed.
Example hex_odd : hex_decode (s2b "abc") = Err InvalidLength.
Proof. reflexivity. Qed.
Example b32_foobar : base32_decode (s2b "MZXW6YTBOI======") = Ok (s2b "foobar").
Proof. reflexivity. Qed.
Example b32_after_pad : base32_decode (s2b "MY==MZ") = Err InvalidChar.
Proof. reflexivity. Qed.
Example b32_residual : base32_decode (s2b "MZ") = Err InvalidLength.
Proof. reflexivity. Qed.
Example b64_enc : base64_encode (s2b "foob") = s2b "Zm9vYg==".
Proof. reflexivity. Qed.
Example b64_url : base64_decode (s2b "-_-_") = base64_decode (s2b "+/+/").
Proof. reflexivity. Qed.

(** * Hex *)

Lemma hex_byte_roundtrip b :
  is_byte b ->
  (hi ← hex_nibble (NIBBLES !!! Z.to_nat (Z.shiftr b 4));
   lo ← hex_nibble (NIBBLES !!! Z.to_nat (Z.land b 0x0f));
   Ok (Z.lor (wshl 8 hi 4) lo)) = Ok b.
Proof.
  intros Hb. apply (bool_decide_eq_true_1 _).
  revert b Hb. apply byte_forall. vm_compute. reflexivity.
Qed.

Lemma hex_encode_cons b bs :
  hex_encode (b :: bs) =
  NIBBLES !!! Z.to_nat (Z.shiftr b 4) :: NIBBLES !!! Z.to_nat (Z.land b 0x0f) :: hex_encode bs.
Proof. done. Qed.

Lemma zlen_hex_encode bs : zlen (hex_encode bs) = 2 * zlen bs.
Proof. induction bs as [|b bs IH]; [done|]. rewrite hex_encode_cons. zlen. lia. Qed.

Lemma hex_chunks_encode bs : Bytes bs -> hex_chunks (hex_encode bs) = Ok bs.
Proof.
  induction 1 as [|b bs Hb _ IH]; [done|].
  rewrite hex_encode_cons. cbn [hex_chunks]. rewrite IH.
  pose proof (hex_byte_roundtrip b Hb) as H.
  apply bind_Ok_iff in H as (hi & -> & H). apply bind_Ok_iff in H as (lo & -> & H).
  injection H as <-. done.
Qed.

Lemma hex_decode_encode bs : Bytes bs -> hex_decode (hex_encode bs) = Ok bs.
Proof.
  intros H. unfold hex_decode. rewrite zlen_hex_encode, Z.mul_comm, Z.mod_mul by lia.
  by apply hex_chunks_encode.
Qed.

(** * The radix decoding loop against its numeric meaning *)

Section radix_loop.
Context (w k : Z).
Hypothesis Hk : 0 < k <= 8.
Hypothesis Hw : k + 15 <= w.

(** After pushing the digits [vs]: the output is the leading whole bytes of
    the number they spell and the buffer's low bits are the rest. *)
Record radix_inv (vs : list Z) (st : radix) : Prop := {
  ri_bits : 0 <= rx_bits st < 8;
  ri_len : 8 * zlen (rx_out st) + rx_bits st = k * zlen vs;
  ri_buf : rx_buf st = digits k vs mod 2 ^ w;
  ri_out : from_be (rx_out st) = digits k vs / 2 ^ rx_bits st;
  ri_bytes : Bytes (rx_out st)
}.

Lemma radix_inv0 : radix_inv [] radix0.
Proof.
  constructor; cbn [rx_bits rx_out rx_buf radix0]; try lia; try done. zlen. lia.
Qed.

Lemma shl_lor_digit N v :
  0 <= N -> 0 <= v < 2 ^ k ->
  Z.lor (wshl w (N mod 2 ^ w) k) v = (N * 2 ^ k + v) mod 2 ^ w.
Proof.
  intros HN Hv. unfold wshl.
  rewrite Z.shiftl_mul_pow2 by lia.
  assert (2 ^ w = 2 ^ (w - k) * 2 ^ k) as HW by (rewrite <- Z.pow_add_r by lia; f_equal; lia).
  rewrite HW at 2. rewrite Z.mul_mod_distr_r by lia.
  rewrite lor_disjoint_add by lia.
  rewrite Z.mod_mod_divide by (exists (2 ^ k); lia).
  pose proof (Z.mod_pos_bound N (2 ^ (w - k)) ltac:(lia)).
  pose proof (Z.div_mod N (2 ^ (w - k)) ltac:(lia)).
  apply Z.mod_unique with (N / 2 ^ (w - k)); rewrite HW; [left|]; nia.
Qed.

Lemma take_low_byte N b :
  0 <= N -> 0 <= b -> b + 8 <= w ->
  Z.land (Z.shiftr (N mod 2 ^ w) b) 0xff = (N / 2 ^ b) mod 256.
Proof.
  intros HN Hb Hw'. change 0xff with (2 ^ 8 - 1). rewrite land_ones_mod by lia.
  rewrite <- !Z.land_ones, <- !Z.shiftr_div_pow2 by lia.
  change 256 with (2 ^ 8). rewrite <- !Z.land_ones by lia.
  apply Z.bits_inj'. intros i Hi.
  rewrite !Z.land_spec, !Z.shiftr_spec, Z.land_spec by lia.
  destruct (Z.lt_ge_cases i 8).
  - rewrite (Z.ones_spec_low w) by lia. by rewrite andb_true_r.
  - rewrite !(Z.ones_spec_high 8) by lia. by rewrite !andb_false_r.
Qed.

Lemma radix_inv_push vs st v :
  Forall (fun v => 0 <= v) vs -> 0 <= v < 2 ^ k ->
  radix_inv vs st -> radix_inv (vs ++ [v]) (push_bits w k st v).
Proof.
  intros Hvs Hv [Hb Hl Hbuf Ho HB].
  pose proof (digits_nonneg k vs ltac:(lia) Hvs) as HN.
  assert (digits k (vs ++ [v]) = digits k vs * 2 ^ k + v) as HN' by apply digits_snoc.
  assert (forall b, 0 <= b -> digits k (vs ++ [v]) / 2 ^ (b + k) = digits k vs / 2 ^ b) as Hdiv.
  { intros b Hb'. rewrite HN', Z.pow_add_r, (Z.mul_comm (2 ^ b)), <- Z.div_div by lia.
    rewrite Z.div_add_l, (Z.div_small v) by lia. by rewrite Z.add_0_r. }
  unfold push_bits. rewrite Hbuf, shl_lor_digit, <- HN' by lia.
  destruct (8 <=? rx_bits st + k) eqn:E; bools.
  - constructor; cbn [rx_bits rx_out rx_buf]; try lia.
    + zlen. lia.
    + rewrite from_be_snoc, take_low_byte, Ho by lia. rewrite <- Hdiv by lia.
      replace (rx_bits st + k) with ((rx_bits st + k - 8) + 8) at 1 by lia.
      rewrite Z.pow_add_r, <- Z.div_div by lia. change (2 ^ 8) with 256.
      pose proof (Z.div_mod (digits k (vs ++ [v]) / 2 ^ (rx_bits st + k - 8)) 256). lia.
    + apply Forall_app; split; [done|]. apply Forall_singleton.
      rewrite take_low_byte by lia. apply Z.mod_pos_bound. lia.
  - constructor; cbn [rx_bits rx_out rx_buf]; try lia; [zlen; lia| |done].
    rewrite Ho. by rewrite Hdiv by lia.
Qed.

Lemma push_bits_padded st v : rx_padded (push_bits w k st v) = rx_padded st.
Proof. unfold push_bits. by case_match. Qed.
End radix_loop.

(** * Reference decoders *)

(** What a character is to a radix decoder. *)
Inductive sym := Sep | PadC | Dig (v : Z) | BadC.

(** The digit values of an accepted text: separators anywhere, [=] and
    separators only at the end. *)
Fixpoint text_digits (cls : Z -> sym) (padded : bool) (cs : list Z) : option (list Z) :=
  match cs with
  | [] => Some []
  | c :: cs =>
    match cls c with
    | Sep => text_digits cls padded cs
    | PadC => text_digits cls true cs
    | Dig v => if padded then None else cons v <$> text_digits cls false cs
    | BadC => None
    end
  end.

(** The bytes of a digit string: its number, without the leftover low bits,
    which must be zero. *)
Definition radix_spec (k : Z) (vs : list Z) : result DecodeError (list Z) :=
  let total := k * zlen vs in
  let rest := total mod 8 in
  if digits k vs mod 2 ^ rest =? 0
  then Ok (to_be (Z.to_nat (total / 8)) (digits k vs / 2 ^ rest))
  else Err InvalidLength.

Definition base32_sym (c : Z) : sym :=
  if (c =? 32) || (c =? 45) || (c =? 9) || (c =? 10) || (c =? 13) then Sep
  else if c =? 61 then PadC
  else if in_range 65 90 c then Dig (c - 65)
  else if in_range 97 122 c then Dig (c - 97)
  else if in_range 50 55 c then Dig (c - 24)
  else BadC.

Definition base64_sym (c : Z) : sym :=
  if (c =? 32) || (c =? 9) || (c =? 10) || (c =? 13) then Sep
  else if c =? 61 then PadC
  else if in_range 65 90 c then Dig (c - 65)
  else if in_range 97 122 c then Dig (c - 71)
  else if in_range 48 57 c then Dig (c + 4)
  else if (c =? 43) || (c =? 45) then Dig 62
  else if (c =? 47) || (c =? 95) then Dig 63
  else BadC.

Section radix_refines.
Context (w k : Z) (step : radix -> Z -> result DecodeError radix) (cls : Z -> sym).
Hypothesis Hk : 0 < k <= 8.
Hypothesis Hw : k + 15 <= w.
Hypothesis Hcls : forall c v, cls c = Dig v -> 0 <= v < 2 ^ k.
Hypothesis Hstep : forall st c, step st c =
  match cls c with
  | Sep => Ok st
  | PadC => Ok (mkRadix (rx_buf st) (rx_bits st) (rx_out st) true)
  | Dig v => if rx_padded st then Err InvalidChar else Ok (push_bits w k st v)
  | BadC => Err InvalidChar
  end.

Lemma text_digits_range p cs ws :
  text_digits cls p cs = Some ws -> Forall (fun v => 0 <= v < 2 ^ k) ws.
Proof.
  revert p ws. induction cs as [|c cs IH]; intros p ws H; simpl in H.
  - injection H as <-. constructor.
  - destruct (cls c) eqn:Ec; [by eauto..| |done]. destruct p; [done|].
    apply fmap_Some in H as (ws' & H & ->). constructor; eauto.
Qed.

Lemma try_fold_radix vs st cs :
  Forall (fun v => 0 <= v) vs -> radix_inv w k vs st ->
  match text_digits cls (rx_padded st) cs with
  | None => try_fold step st cs = Err InvalidChar
  | Some ws => exists st', try_fold step st cs = Ok st' /\ radix_inv w k (vs ++ ws) st'
  end.
Proof.
  revert vs st. induction cs as [|c cs IH]; intros vs st Hvs HI; simpl.
  - exists st. by rewrite app_nil_r.
  - rewrite Hstep. destruct (cls c) as [| |v|] eqn:Ec; simpl; [by apply IH| | |done].
    + apply (IH vs (mkRadix (rx_buf st) (rx_bits st) (rx_out st) true)); [done|].
      by destruct HI; constructor.
    + destruct (rx_padded st) eqn:Ep; [done|]. specialize (Hcls c v Ec). simpl.
      pose proof (IH (vs ++ [v]) (push_bits w k st v)) as H.
      rewrite push_bits_padded, Ep in H.
      destruct (text_digits cls false cs) as [ws|]; simpl.
      * destruct H as (st' & Hf & HI'); [|by apply radix_inv_push|].
        { apply Forall_app; split; [done|]. apply Forall_singleton. lia. }
        exists st'. split; [done|]. by rewrite <- (assoc_L (++)) in HI'.
      * apply H; [|by apply radix_inv_push].
        apply Forall_app; split; [done|]. apply Forall_singleton. lia.
Qed.

Lemma radix_finish_spec vs st : radix_inv w k vs st -> radix_finish st = radix_spec k vs.
Proof.
  intros [Hb Hl Hbuf Ho HB]. unfold radix_finish, radix_spec.
  assert (k * zlen vs mod 8 = rx_bits st) as ->
    by (symmetry; apply Z.mod_unique with (zlen (rx_out st)); lia).
  assert (k * zlen vs / 8 = zlen (rx_out st)) as ->
    by (symmetry; apply Z.div_unique with (rx_bits st); lia).
  rewrite Z.shiftl_1_l, land_ones_mod, Hbuf by lia.
  rewrite Z.mod_mod_divide by (exists (2 ^ (w - rx_bits st)); rewrite <- Z.pow_add_r; [f_equal|..]; lia).
  assert (Ok (rx_out st) = Ok (to_be (Z.to_nat (zlen (rx_out st))) (digits k vs / 2 ^ rx_bits st))
          :> result DecodeError _) as Heq.
  { f_equal. rewrite <- Ho. unfold zlen. rewrite Nat2Z.id. by rewrite to_be_from_be. }
  rewrite <- Heq. destruct (0 <? rx_bits st) eqn:E; bools; simpl.
  - by destruct (_ =? 0).
  - replace (rx_bits st) with 0 by lia. by rewrite Z.mod_1_r.
Qed.

Lemma radix_decode_spec cs :
  (st ← try_fold step radix0 cs; radix_finish st) =
  match text_digits cls false cs with
  | None => Err InvalidChar
  | Some vs => radix_spec k vs
  end.
Proof.
  pose proof (try_fold_radix [] radix0 cs (Forall_nil_2 _) (radix_inv0 w k)) as H.
  simpl in H. destruct (text_digits cls false cs) as [ws|].
  - destruct H as (st & -> & HI). simpl. by apply radix_finish_spec.
  - by rewrite H.
Qed.
End radix_refines.

Lemma base32_sym_range c v : base32_sym c = Dig v -> 0 <= v < 2 ^ 5.
Proof.
  unfold base32_sym, in_range. intros H. repeat case_in H; try done; bools; injection H as <-; lia.
Qed.
Lemma base64_sym_range c v : base64_sym c = Dig v -> 0 <= v < 2 ^ 6.
Proof.
  unfold base64_sym, in_range. intros H. repeat case_in H; try done; bools; injection H as <-; lia.
Qed.

Lemma base32_decode_radix s :
  base32_decode s =
  match text_digits base32_sym false (chars s) with
  | None => Err InvalidChar
  | Some vs => radix_spec 5 vs
  end.
Proof.
  apply (radix_decode_spec 64 5 base32_step base32_sym); [lia..|apply base32_sym_range|].
  intros st c. unfold base32_step, base32_sym.
  repeat case_match; try done; try (f_equal; f_equal; lia).
Qed.

Lemma base64_decode_radix s :
  base64_decode s =
  match text_digits base64_sym false (chars s) with
  | None => Err InvalidChar
  | Some vs => radix_spec 6 vs
  end.
Proof.
  apply (radix_decode_spec 32 6 base64_step base64_sym); [lia..|apply base64_sym_range|].
  intros st c. unfold base64_step, base64_sym.
  repeat case_match; try done; try (f_equal; f_equal; lia).
Qed.

(** * base64 encoding *)

Definition is_ascii (b : Z) : Prop := 0 <= b < 0x80.

Lemma base64_alphabet_ascii i : is_ascii (BASE64_ALPHABET !!! i).
Proof.
  apply lookup_total_forall; [done|]. apply (bool_decide_eq_true_1 _). vm_compute. reflexivity.
Qed.

Lemma base64_alphabet_sym v :
  0 <= v < 64 -> base64_sym (BASE64_ALPHABET !!! Z.to_nat v) = Dig v.
Proof.
  intros Hv.
  assert (forallb (fun v => match base64_sym (BASE64_ALPHABET !!! Z.to_nat v) with
                            | Dig u => u =? v | _ => false end) (seqZ 0 64) = true) as H
    by (vm_compute; reflexivity).
  rewrite forallb_forall in H. specialize (H v).
  rewrite <- list_elem_of_In, elem_of_seqZ in H.
  destruct (base64_sym _); try (by discriminate H; lia).
  apply Z.eqb_eq in H; [by subst|lia].
Qed.

Lemma base64_chunk_ascii c : Forall is_ascii (base64_chunk c).
Proof.
  unfold base64_chunk. repeat constructor; repeat case_match;
    first [apply base64_alphabet_ascii|unfold is_ascii; lia].
Qed.

Lemma base64_encode_ascii bs : Forall is_ascii (base64_encode bs).
Proof.
  unfold base64_encode. induction (chunks 3 bs) as [|c cs IH]; [constructor|].
  cbn [flat_map]. apply Forall_app; split; [apply base64_chunk_ascii|done].
Qed.

Definition chunk3 (a b c : Z) : Z := Z.lor (Z.lor (Z.shiftl a 16) (Z.shiftl b 8)) c.

Lemma chunk3_num a b c :
  is_byte a -> is_byte b -> is_byte c -> chunk3 a b c = a * 65536 + b * 256 + c.
Proof.
  unfold is_byte, chunk3. intros Ha Hb Hc.
  rewrite (lor_shiftl_add a (Z.shiftl b 8) 16);
    [|lia|rewrite Z.shiftl_mul_pow2 by lia; lia].
  rewrite Z.shiftl_mul_pow2 by lia.
  replace (a * 2 ^ 16 + b * 2 ^ 8) with ((a * 256 + b) * 2 ^ 8) by lia.
  rewrite lor_disjoint_add by lia. lia.
Qed.

Lemma sextet_range n i : 0 <= Z.land (Z.shiftr n i) 0x3F < 64.
Proof. change 0x3F with (2 ^ 6 - 1). rewrite land_ones_mod by lia. apply Z.mod_pos_bound. lia. Qed.

Lemma sextet n i : 0 <= i -> Z.land (Z.shiftr n i) 0x3F = (n / 2 ^ i) mod 64.
Proof.
  intros Hi. change 0x3F with (2 ^ 6 - 1).
  by rewrite land_ones_mod, Z.shiftr_div_pow2 by lia.
Qed.

(** What the base64 loop reads from one chunk's characters. *)
Definition chunk_digits (chunk : list Z) : list Z :=
  let n := chunk3 (chunk !!! 0%nat) (default 0 (chunk !! 1%nat)) (default 0 (chunk !! 2%nat)) in
  [Z.land (Z.shiftr n 18) 0x3F; Z.land (Z.shiftr n 12) 0x3F] ++
  (if 1 <? zlen chunk then [Z.land (Z.shiftr n 6) 0x3F] else []) ++
  (if 2 <? zlen chunk then [Z.land n 0x3F] else []).

(** A chunk's characters read back as its digits, in front of any text. *)
Lemma text_digits_chunk3 a b c r :
  text_digits base64_sym false (base64_chunk [a; b; c] ++ r) =
  (chunk_digits [a; b; c] ++.) <$> text_digits base64_sym false r.
Proof.
  change (base64_chunk [a; b; c]) with
    ((fun i => BASE64_ALPHABET !!! Z.to_nat (Z.land (Z.shiftr (chunk3 a b c) i) 0x3F)) <$> [18; 12; 6; 0]).
  change (chunk_digits [a; b; c]) with
    ((fun i => Z.land (Z.shiftr (chunk3 a b c) i) 0x3F) <$> [18; 12; 6; 0]).
  cbn [fmap list_fmap app text_digits]. rewrite !base64_alphabet_sym by apply sextet_range.
  by destruct (text_digits base64_sym false r).
Qed.

Lemma text_digits_last chunk :
  (length chunk = 1 \/ length chunk = 2)%nat ->
  text_digits base64_sym false (base64_chunk chunk) = Some (chunk_digits chunk).
Proof.
  intros H. destruct chunk as [|a [|b [|c r]]]; simpl in H; try lia.
  - change (base64_chunk [a]) with
      (((fun i => BASE64_ALPHABET !!! Z.to_nat (Z.land (Z.shiftr (chunk3 a 0 0) i) 0x3F)) <$> [18; 12])
       ++ [61; 61]).
    cbn [fmap list_fmap app text_digits]. by rewrite !base64_alphabet_sym by apply sextet_range.
  - change (base64_chunk [a; b]) with
      (((fun i => BASE64_ALPHABET !!! Z.to_nat (Z.land (Z.shiftr (chunk3 a b 0) i) 0x3F)) <$> [18; 12; 6])
       ++ [61]).
    cbn [fmap list_fmap app text_digits]. by rewrite !base64_alphabet_sym by apply sextet_range.
Qed.

Lemma text_digits_encode bs :
  text_digits base64_sym false (base64_encode bs) = Some (flat_map chunk_digits (chunks 3 bs)).
Proof.
  unfold base64_encode.
  induction bs as [|bs Hbs IH] using (drop_ind 3 ltac:(lia)); [done|].
  rewrite chunks_unfold by (done || lia). cbn [flat_map].
  destruct bs as [|a [|b [|c r]]]; [done|..].
  - cbn [take drop]. rewrite chunks_nil. cbn [flat_map]. rewrite !app_nil_r.
    apply text_digits_last. simpl. lia.
  - cbn [take drop]. rewrite chunks_nil. cbn [flat_map]. rewrite !app_nil_r.
    apply text_digits_last. simpl. lia.
  - cbn [take drop] in *. by rewrite text_digits_chunk3, IH.
Qed.

(** The number a chunk's digits spell. *)
Lemma chunk_digits_num chunk :
  Bytes chunk -> (1 <= length chunk <= 3)%nat ->
  exists r, 0 <= r < 8 /\ 6 * zlen (chunk_digits chunk) = 8 * zlen chunk + r /\
    digits 6 (chunk_digits chunk) = from_be chunk * 2 ^ r /\ (length chunk = 3%nat -> r = 0).
Proof.
  intros HB Hl. destruct chunk as [|a [|b [|c [|d r]]]]; simpl in Hl; try lia.
  - exists 4. rewrite Forall_singleton in HB. split_and!; [lia..|done| |done].
    change (chunk_digits [a]) with ((fun i => Z.land (Z.shiftr (chunk3 a 0 0) i) 0x3F) <$> [18; 12]).
    cbn [fmap list_fmap]. rewrite !sextet, chunk3_num by (done || lia).
    unfold digits, from_be, is_byte in *. cbn [fold_left rev app from_le].
    change (2 ^ 18) with 262144. change (2 ^ 12) with 4096. change (2 ^ 6) with 64.
    change (2 ^ 4) with 16. lia_div.
  - exists 2. rewrite list.Forall_cons in HB; destruct HB as [Ha HB]. rewrite Forall_singleton in HB.
    split_and!; [lia..|done| |done].
    change (chunk_digits [a; b]) with
      ((fun i => Z.land (Z.shiftr (chunk3 a b 0) i) 0x3F) <$> [18; 12; 6]).
    cbn [fmap list_fmap]. rewrite !sextet, chunk3_num by (done || lia).
    unfold digits, from_be, is_byte in *. cbn [fold_left rev app from_le].
    change (2 ^ 18) with 262144. change (2 ^ 12) with 4096. change (2 ^ 6) with 64.
    change (2 ^ 2) with 4. lia_div.
  - exists 0. rewrite list.Forall_cons in HB; destruct HB as [Ha HB]. rewrite list.Forall_cons in HB; destruct HB as [Hb HB].
    rewrite Forall_singleton in HB.
    split_and!; [lia..|done| |done].
    change (chunk_digits [a; b; c]) with
      ((fun i => Z.land (Z.shiftr (chunk3 a b c) i) 0x3F) <$> [18; 12; 6; 0]).
    cbn [fmap list_fmap]. rewrite !sextet, chunk3_num by (done || lia).
    unfold digits, from_be, is_byte in *. cbn [fold_left rev app from_le].
    change (2 ^ 18) with 262144. change (2 ^ 12) with 4096. change (2 ^ 6) with 64.
    change (2 ^ 0) with 1. lia_div.
Qed.

Lemma encode_digits_num bs :
  Bytes bs ->
  exists r, 0 <= r < 8 /\ 6 * zlen (flat_map chunk_digits (chunks 3 bs)) = 8 * zlen bs + r /\
    digits 6 (flat_map chunk_digits (chunks 3 bs)) = from_be bs * 2 ^ r.
Proof.
  induction bs as [|bs Hbs IH] using (drop_ind 3 ltac:(lia)); intros HB.
  { exists 0. split_and!; done || lia. }
  rewrite chunks_unfold by (done || lia). cbn [flat_map].
  destruct (chunk_digits_num (take 3 bs)) as (r & Hr & Hlen & Hnum & Hfull).
  { by apply Forall_take. }
  { rewrite length_take. destruct bs; [done|cbn [length]; lia]. }
  destruct (decide (length (take 3 bs) = 3%nat)) as [H3|H3].
  - rewrite (Hfull H3) in *. destruct IH as (r' & Hr' & Hlen' & Hnum'); [by apply Forall_drop|].
    assert (zlen bs = zlen (take 3 bs) + zlen (drop 3 bs)) as Hl
      by (rewrite <- zlen_app, take_drop; done).
    assert (from_be bs = from_be (take 3 bs) * 2 ^ (8 * zlen (drop 3 bs)) + from_be (drop 3 bs)) as Hb
      by (rewrite <- from_be_app, take_drop; done).
    exists r'. split; [done|]. split; [rewrite zlen_app; lia|].
    rewrite digits_app, Hnum, Hnum', Hlen', Hb by lia.
    pose proof (zlen_nonneg (drop 3 bs)). rewrite (Z.pow_add_r 2 (8 * _)) by lia. lia.
  - assert (length bs < 3)%nat by (rewrite length_take in H3; lia).
    rewrite drop_ge, chunks_nil by lia. rewrite take_ge in * by lia. cbn [flat_map].
    rewrite app_nil_r. eauto.
Qed.

Lemma base64_decode_encode bs : Bytes bs -> base64_decode (base64_encode bs) = Ok bs.
Proof.
  intros HB. rewrite base64_decode_radix. unfold chars.
  rewrite utf8_decode_ascii by apply base64_encode_ascii. cbn [default from_option id].
  rewrite text_digits_encode. destruct (encode_digits_num bs HB) as (r & Hr & Hlen & Hnum).
  unfold radix_spec. rewrite Hlen.
  assert ((8 * zlen bs + r) mod 8 = r) as -> by (symmetry; apply Z.mod_unique with (zlen bs); lia).
  assert ((8 * zlen bs + r) / 8 = zlen bs) as -> by (symmetry; apply Z.div_unique with r; lia).
  rewrite Hnum, Z.mod_mul, Z.div_mul by lia. cbn. unfold zlen. rewrite Nat2Z.id.
  by rewrite to_be_from_be.
Qed.

(** * Properties *)

(** Hex encoding doubles the length and decoding it gives the bytes back,
    for every byte string. *)
Theorem hex_roundtrip (bs : list Z) :
  Bytes bs -> hex_decode (hex_encode bs) = Ok bs /\ zlen (hex_encode bs) = 2 * zlen bs.
Proof. intros HB. split; [by apply hex_decode_encode|apply zlen_hex_encode]. Qed.

Lemma hex_roundtrip_witness :
  hex_decode (hex_encode [0; 16; 255]) = Ok [0; 16; 255] /\
  zlen (hex_encode [0; 16; 255]) = 2 * zlen [0; 16; 255].
Proof.
  apply (hex_roundtrip [0; 16; 255]). apply (bool_decide_eq_true_1 _). vm_compute. reflexivity.
Defined.

(** Base64 decoding inverts base64 encoding on every byte string. *)
Theorem base64_roundtrip (bs : list Z) :
  Bytes bs -> base64_decode (base64_encode bs) = Ok bs.
Proof. apply base64_decode_encode. Qed.

Lemma base64_roundtrip_witness :
  base64_decode (base64_encode [1; 2; 3; 255]) = Ok [1; 2; 3; 255].
Proof.
  apply (base64_roundtrip [1; 2; 3; 255]). apply (bool_decide_eq_true_1 _).
  vm_compute. reflexivity.
Defined.

(** The shift-register decoders compute the numeric meaning of their text
    on every input: base32 and base64 reject exactly the texts with a foreign
    character or data after padding (InvalidChar), then exactly those whose
    leftover low bits are not zero (InvalidLength), and otherwise return the
    whole bytes of the number the digits spell; the 64- and 32-bit registers
    never lose a bit. *)
Theorem radix_decode_correct (s : list Z) :
  base32_decode s =
    match text_digits base32_sym false (chars s) with
    | None => Err InvalidChar
    | Some vs => radix_spec 5 vs
    end /\
  base64_decode s =
    match text_digits base64_sym false (chars s) with
    | None => Err InvalidChar
    | Some vs => radix_spec 6 vs
    end.
Proof. split; [apply base32_decode_radix|apply base64_decode_radix]. Qed.
