(* ===== verification/Sm4.v ===== *)
(** keyroost-proto/src/sm4.rs: the SM4 block cipher (GB/T 32907-2016). A [u32]
    is a [Z] in [0, 2^32); [&mut [u8; 16]] blocks are byte lists returned
    changed; the [x]/[k] scratch arrays are lists updated by index, as in the
    code. *)
From S2P Require Export Words.

Definition BLOCK_SIZE : nat := 16.

Definition SBOX : list Z :=
  [ 0xd6; 0x90; 0xe9; 0xfe; 0xcc; 0xe1; 0x3d; 0xb7; 0x16; 0xb6; 0x14; 0xc2; 0x28; 0xfb; 0x2c; 0x05;
    0x2b; 0x67; 0x9a; 0x76; 0x2a; 0xbe; 0x04; 0xc3; 0xaa; 0x44; 0x13; 0x26; 0x49; 0x86; 0x06; 0x99;
    0x9c; 0x42; 0x50; 0xf4; 0x91; 0xef; 0x98; 0x7a; 0x33; 0x54; 0x0b; 0x43; 0xed; 0xcf; 0xac; 0x62;
    0xe4; 0xb3; 0x1c; 0xa9; 0xc9; 0x08; 0xe8; 0x95; 0x80; 0xdf; 0x94; 0xfa; 0x75; 0x8f; 0x3f; 0xa6;
    0x47; 0x07; 0xa7; 0xfc; 0xf3; 0x73; 0x17; 0xba; 0x83; 0x59; 0x3c; 0x19; 0xe6; 0x85; 0x4f; 0xa8;
    0x68; 0x6b; 0x81; 0xb2; 0x71; 0x64; 0xda; 0x8b; 0xf8; 0xeb; 0x0f; 0x4b; 0x70; 0x56; 0x9d; 0x35;
    0x1e; 0x24; 0x0e; 0x5e; 0x63; 0x58; 0xd1; 0xa2; 0x25; 0x22; 0x7c; 0x3b; 0x01; 0x21; 0x78; 0x87;
    0xd4; 0x00; 0x46; 0x57; 0x9f; 0xd3; 0x27; 0x52; 0x4c; 0x36; 0x02; 0xe7; 0xa0; 0xc4; 0xc8; 0x9e;
    0xea; 0xbf; 0x8a; 0xd2; 0x40; 0xc7; 0x38; 0xb5; 0xa3; 0xf7; 0xf2; 0xce; 0xf9; 0x61; 0x15; 0xa1;
    0xe0; 0xae; 0x5d; 0xa4; 0x9b; 0x34; 0x1a; 0x55; 0xad; 0x93; 0x32; 0x30; 0xf5; 0x8c; 0xb1; 0xe3;
    0x1d; 0xf6; 0xe2; 0x2e; 0x82; 0x66; 0xca; 0x60; 0xc0; 0x29; 0x23; 0xab; 0x0d; 0x53; 0x4e; 0x6f;
    0xd5; 0xdb; 0x37; 0x45; 0xde; 0xfd; 0x8e; 0x2f; 0x03; 0xff; 0x6a; 0x72; 0x6d; 0x6c; 0x5b; 0x51;
    0x8d; 0x1b; 0xaf; 0x92; 0xbb; 0xdd; 0xbc; 0x7f; 0x11; 0xd9; 0x5c; 0x41; 0x1f; 0x10; 0x5a; 0xd8;
    0x0a; 0xc1; 0x31; 0x88; 0xa5; 0xcd; 0x7b; 0xbd; 0x2d; 0x74; 0xd0; 0x12; 0xb8; 0xe5; 0xb4; 0xb0;
    0x89; 0x69; 0x97; 0x4a; 0x0c; 0x96; 0x77; 0x7e; 0x65; 0xb9; 0xf1; 0x09; 0xc5; 0x6e; 0xc6; 0x84;
    0x18; 0xf0; 0x7d; 0xec; 0x3a; 0xdc; 0x4d; 0x20; 0x79; 0xee; 0x5f; 0x3e; 0xd7; 0xcb; 0x39; 0x48 ].

Definition FK : list Z := [0xa3b1bac6; 0x56aa3350; 0x677d9197; 0xb27022dc].

(** The compile-time table: [ck[i]] packs bytes [(4*i + j) * 7 mod 256]. *)
Definition CK_entry (i : nat) : Z :=
  let b j := Z.land ((4 * Z.of_nat i + j) * 7) 0xff in
  Z.lor (Z.lor (Z.lor (Z.shiftl (b 0) 24) (Z.shiftl (b 1) 16)) (Z.shiftl (b 2) 8)) (b 3).
Definition CK : list Z := CK_entry <$> seq 0 32.

Definition tau (a : Z) : Z :=
  let b0 := SBOX !!! Z.to_nat (Z.land (Z.shiftr a 24) 0xff) in
  let b1 := SBOX !!! Z.to_nat (Z.land (Z.shiftr a 16) 0xff) in
  let b2 := SBOX !!! Z.to_nat (Z.land (Z.shiftr a 8) 0xff) in
  let b3 := SBOX !!! Z.to_nat (Z.land a 0xff) in
  Z.lor (Z.lor (Z.lor (Z.shiftl b0 24) (Z.shiftl b1 16)) (Z.shiftl b2 8)) b3.

Definition l_round (b : Z) : Z :=
  Z.lxor (Z.lxor (Z.lxor (Z.lxor b (rotl 32 b 2)) (rotl 32 b 10)) (rotl 32 b 18)) (rotl 32 b 24).

Definition l_key (b : Z) : Z := Z.lxor (Z.lxor b (rotl 32 b 13)) (rotl 32 b 23).

Definition t_round (x : Z) : Z := l_round (tau x).
Definition t_key (x : Z) : Z := l_key (tau x).

(** [u32::from_be_bytes(bs[i*4..i*4+4])]. *)
Definition be_word (bs : list Z) (i : nat) : Z := from_be (slice bs (i * 4) (i * 4 + 4)).

(** [x[i + 4] = x[i] ^ t(x[i+1] ^ x[i+2] ^ x[i+3] ^ rk)]. *)
Definition sm4_step (t : Z -> Z) (rk : nat -> Z) (i : nat) (x : list Z) : list Z :=
  <[ (i + 4)%nat :=
      Z.lxor (x !!! i)
        (t (Z.lxor (Z.lxor (Z.lxor (x !!! (i + 1)%nat) (x !!! (i + 2)%nat)) (x !!! (i + 3)%nat))
              (rk i))) ]> x.

Record Sm4 := mkSm4 { rk : list Z }.

Definition Sm4_new (key : list Z) : Sm4 :=
  let k := replicate 36 0 in
  let k := for_range 0 4 (fun i k => <[i := Z.lxor (be_word key i) (FK !!! i)]> k) k in
  let k := for_range 0 32 (sm4_step t_key (fun i => CK !!! i)) k in
  mkSm4 (slice k 4 36).

(** Both directions run the same 32 rounds; [rki] picks the round key. *)
Definition sm4_rounds (rki : nat -> Z) (block : list Z) : list Z :=
  let x := replicate 36 0 in
  let x := for_range 0 4 (fun i x => <[i := be_word block i]> x) x in
  let x := for_range 0 32 (sm4_step t_round rki) x in
  to_be 4 (x !!! 35%nat) ++ to_be 4 (x !!! 34%nat) ++ to_be 4 (x !!! 33%nat) ++ to_be 4 (x !!! 32%nat).

Definition encrypt_block (c : Sm4) (block : list Z) : list Z :=
  sm4_rounds (fun i => rk c !!! i) block.

Definition decrypt_block (c : Sm4) (block : list Z) : list Z :=
  sm4_rounds (fun i => rk c !!! (31 - i)%nat) block.

(** [None]: the assertion on block alignment panics. *)
Definition encrypt_ecb (c : Sm4) (data : list Z) : option (list Z) :=
  if zlen data mod 16 =? 0 then Some (flat_map (encrypt_block c) (chunks BLOCK_SIZE data)) else None.

Definition xor_bytes (a b : list Z) : list Z := zip_with Z.lxor a b.

(** The chaining loop of [encrypt_cbc]: [prev] is the last ciphertext block. *)
Fixpoint cbc_blocks (c : Sm4) (prev : list Z) (blocks : list (list Z)) : list Z :=
  match blocks with
  | [] => []
  | b :: bs => let e := encrypt_block c (xor_bytes b prev) in e ++ cbc_blocks c e bs
  end.

Definition encrypt_cbc (c : Sm4) (iv data : list Z) : option (list Z) :=
  if zlen data mod 16 =? 0 then Some (cbc_blocks c iv (chunks BLOCK_SIZE data)) else None.

(** The standard's test vector. *)
Definition sm4_vector : list Z :=
  [0x01; 0x23; 0x45; 0x67; 0x89; 0xab; 0xcd; 0xef; 0xfe; 0xdc; 0xba; 0x98; 0x76; 0x54; 0x32; 0x10].
Example sm4_standard_vector :
  encrypt_block (Sm4_new sm4_vector) sm4_vector =
  [0x68; 0x1e; 0xdf; 0x34; 0xd2; 0x06; 0x96; 0x5e; 0x86; 0xb3; 0xe9; 0x4f; 0x53; 0x6e; 0x42; 0x46].
Proof. vm_compute. reflexivity. Qed.

(** * The round loops fill their array by a recurrence *)

Section rounds.
Context (t : Z -> Z) (rki : nat -> Z).

(** After [n] rounds: the first four words are the input's and every filled
    word obeys the recurrence. *)
Definition rounds_filled (x0 : list Z) (n : nat) (x : list Z) : Prop :=
  length x = 36%nat /\ (forall i, (i < 4)%nat -> x !!! i = x0 !!! i) /\
  forall i, (i < n)%nat ->
    x !!! (i + 4)%nat = Z.lxor (x !!! i)
      (t (Z.lxor (Z.lxor (Z.lxor (x !!! (i + 1)%nat) (x !!! (i + 2)%nat)) (x !!! (i + 3)%nat)) (rki i))).

Lemma rounds_fill x0 n :
  length x0 = 36%nat -> (n <= 32)%nat ->
  rounds_filled x0 n (for_range 0 n (sm4_step t rki) x0).
Proof.
  intros Hl Hn. change n with (0 + n)%nat at 1.
  apply (for_range_inv (rounds_filled x0)); [split_and!; [done..|lia]|].
  intros i x Hi (Hx & H4 & Hr). unfold sm4_step. split_and!.
  - by rewrite length_insert.
  - intros j Hj. rewrite list_lookup_total_insert_ne by lia. by apply H4.
  - intros j Hj. destruct (decide (j = i)) as [->|Hne].
    + rewrite list_lookup_total_insert_eq by lia. by rewrite !list_lookup_total_insert_ne by lia.
    + rewrite !list_lookup_total_insert_ne by lia. apply Hr. lia.
Qed.
End rounds.

Lemma tau_word a : is_word 32 (tau a).
Proof.
  assert (forall i, is_word 8 (SBOX !!! i)) as HS.
  { intros i. apply lookup_total_forall; [done|]. apply (bool_decide_eq_true_1 _).
    vm_compute. reflexivity. }
  unfold tau. cbv zeta.
  repeat apply lor_word; try lia; rewrite ?Z.shiftl_mul_pow2 by lia;
    match goal with |- context [SBOX !!! ?i] => generalize (HS i); generalize (SBOX !!! i) end;
    unfold is_word; intros; lia.
Qed.

Lemma t_round_word x : is_word 32 (t_round x).
Proof. unfold t_round, l_round. pose proof (tau_word x). words. Qed.

(** * Blocks and their words *)

Lemma be_word_word bs i : Bytes bs -> is_word 32 (be_word bs i).
Proof.
  intros H. unfold be_word, slice. pose proof (from_be_bound (take (i * 4 + 4 - i * 4) (drop (i * 4) bs))) as Hb.
  destruct Hb; [by apply Forall_take, Forall_drop|]. split; [done|].
  eapply Z.lt_le_trans; [done|]. apply Z.pow_le_mono_r; [lia|]. zlen. lia.
Qed.

Definition block_of (w : nat -> Z) : list Z :=
  to_be 4 (w 0%nat) ++ to_be 4 (w 1%nat) ++ to_be 4 (w 2%nat) ++ to_be 4 (w 3%nat).

Lemma be_word_block_of w i :
  (i < 4)%nat -> is_word 32 (w i) -> be_word (block_of w) i = w i.
Proof.
  intros Hi Hw. rewrite <- (from_be_to_be_small 4 (w i)) by done. unfold be_word, slice, block_of.
  do 4 (destruct i as [|i]; [done|]). lia.
Qed.

Lemma block_of_be_word b :
  Bytes b -> length b = 16%nat -> block_of (be_word b) = b.
Proof.
  intros HB Hl. do 16 (destruct b as [|? b]; [discriminate|]). destruct b; [|discriminate].
  decompose_Forall_hyps. unfold block_of, be_word, slice. cbn [Nat.mul Nat.add Nat.sub drop take].
  assert (forall l : list Z, Bytes l -> length l = 4%nat -> to_be 4 (from_be l) = l) as Hbe
    by (intros l Hlb <-; by apply to_be_from_be).
  rewrite !Hbe by (done || (repeat (constructor; [assumption|]); constructor)). done.
Qed.

Lemma load_block b :
  for_range 0 4 (fun i x => <[i := be_word b i]> x) (replicate 36 0) =
  [be_word b 0; be_word b 1; be_word b 2; be_word b 3] ++ replicate 32 0.
Proof. done. Qed.

(** [sm4_rounds] as the sequence of words its array holds. *)
Lemma sm4_rounds_spec rki b :
  Bytes b ->
  exists x : nat -> Z,
    (forall i, (i < 36)%nat -> is_word 32 (x i)) /\
    (forall i, (i < 4)%nat -> x i = be_word b i) /\
    (forall i, (i < 32)%nat -> x (i + 4)%nat =
      Z.lxor (x i) (t_round (Z.lxor (Z.lxor (Z.lxor (x (i + 1)%nat) (x (i + 2)%nat)) (x (i + 3)%nat)) (rki i)))) /\
    sm4_rounds rki b = block_of (fun i => x (35 - i)%nat).
Proof.
  intros HB. unfold sm4_rounds. cbv zeta. rewrite load_block.
  destruct (rounds_fill t_round rki ([be_word b 0; be_word b 1; be_word b 2; be_word b 3] ++ replicate 32 0) 32)
    as (Hl & H4 & Hr); [done|lia|].
  set (x := for_range _ _ _ _) in *. exists (fun i => x !!! i).
  assert (forall i, (i < 4)%nat -> x !!! i = be_word b i) as H4'.
  { intros i Hi. rewrite H4 by done. do 4 (destruct i as [|i]; [done|]). lia. }
  split_and!; [|done..].
  intros i. induction (lt_wf i) as [i _ IH]. intros Hi. destruct (decide (i < 4)%nat) as [H|H].
  - rewrite H4' by done. by apply be_word_word.
  - replace i with ((i - 4) + 4)%nat by lia. rewrite Hr by lia.
    apply lxor_word; [lia|apply IH; lia|apply t_round_word].
Qed.

Lemma sm4_rounds_block rki b : Bytes (sm4_rounds rki b) /\ length (sm4_rounds rki b) = 16%nat.
Proof.
  unfold sm4_rounds. cbv zeta. rewrite !length_app, !length_to_be. split; [|done].
  by rewrite !Forall_app; split_and!; apply to_be_bytes.
Qed.

(** The Feistel argument: running the rounds with the keys reversed walks the
    word sequence backwards. *)
Lemma sm4_rounds_reverse rki b :
  Bytes b -> length b = 16%nat ->
  sm4_rounds (fun i => rki (31 - i)%nat) (sm4_rounds rki b) = b.
Proof.
  intros HB Hl. destruct (sm4_rounds_spec rki b HB) as (x & Hw & H4 & Hr & He). rewrite He.
  destruct (sm4_rounds_spec (fun i => rki (31 - i)%nat) (block_of (fun i => x (35 - i)%nat)))
    as (y & _ & Hy4 & Hyr & ->).
  { unfold block_of. rewrite !Forall_app; split_and!; apply to_be_bytes. }
  assert (forall j, (j < 36)%nat -> y j = x (35 - j)%nat) as Hxy.
  { intros j. induction (lt_wf j) as [j _ IH]. intros Hj. destruct (decide (j < 4)%nat) as [H|H].
    - rewrite Hy4 by done. apply (be_word_block_of (fun i => x (35 - i)%nat)); [done|]. apply Hw. lia.
    - replace j with ((j - 4) + 4)%nat by lia. set (k := (j - 4)%nat).
      assert (k < 32)%nat by lia. rewrite Hyr by done. rewrite !IH by lia.
      replace (35 - k)%nat with ((31 - k) + 4)%nat by lia.
      rewrite Hr by lia.
      replace (35 - (k + 1))%nat with (31 - k + 3)%nat by lia.
      replace (35 - (k + 2))%nat with (31 - k + 2)%nat by lia.
      replace (35 - (k + 3))%nat with (31 - k + 1)%nat by lia.
      replace (35 - (k + 4))%nat with (31 - k)%nat by lia.
      match goal with |- Z.lxor (Z.lxor _ (t_round ?a)) (t_round ?b) = _ =>
        replace b with a; [apply lxor_cancel|] end.
      f_equal. apply Z.bits_inj'. intros i _. rewrite !Z.lxor_spec.
      by destruct (Z.testbit _ _), (Z.testbit _ _), (Z.testbit _ _). }
  transitivity (block_of (be_word b)); [|by apply block_of_be_word]. unfold block_of.
  rewrite !Hxy by lia. rewrite <- !H4 by lia. done.
Qed.

(** The reference CBC decryption a receiver runs. *)
Fixpoint cbc_decrypt_blocks (c : Sm4) (prev : list Z) (blocks : list (list Z)) : list Z :=
  match blocks with
  | [] => []
  | b :: bs => xor_bytes (decrypt_block c b) prev ++ cbc_decrypt_blocks c b bs
  end.

Definition cbc_decrypt (c : Sm4) (iv data : list Z) : list Z :=
  cbc_decrypt_blocks c iv (chunks BLOCK_SIZE data).

Lemma xor_bytes_cancel a b : length a = length b -> xor_bytes (xor_bytes a b) b = a.
Proof.
  revert b. induction a as [|x a IH]; intros [|y b] H; try done. simpl in *.
  unfold xor_bytes in *. cbn [zip_with]. rewrite lxor_cancel, IH by lia. done.
Qed.

Lemma xor_bytes_Bytes a b : Bytes a -> Bytes b -> Bytes (xor_bytes a b).
Proof.
  intros Ha Hb. revert b Hb. induction Ha as [|x a Hx Ha IH]; intros b Hb; [constructor|].
  destruct Hb as [|y b Hy Hb]; constructor; [|by apply IH].
  apply (lxor_word 8); done.
Qed.

Lemma length_xor_bytes a b : length (xor_bytes a b) = Nat.min (length a) (length b).
Proof. apply length_zip_with. Qed.

Lemma cbc_blocks_invert c prev blocks :
  Bytes prev -> length prev = 16%nat ->
  Forall (fun b => Bytes b /\ length b = 16%nat) blocks ->
  cbc_decrypt_blocks c prev (chunks BLOCK_SIZE (cbc_blocks c prev blocks)) = concat blocks.
Proof.
  intros Hp Hpl Hb. revert prev Hp Hpl.
  induction Hb as [|b bs [HB Hl] _ IH]; intros prev Hp Hpl; [done|].
  cbn [cbc_blocks concat].
  pose proof (sm4_rounds_block (fun i => rk c !!! i) (xor_bytes b prev)) as [HeB Hel].
  change (sm4_rounds _ _) with (encrypt_block c (xor_bytes b prev)) in *.
  rewrite chunks_app_full by (done || unfold BLOCK_SIZE; lia). cbn [cbc_decrypt_blocks].
  rewrite IH by done. f_equal. unfold decrypt_block, encrypt_block.
  rewrite (sm4_rounds_reverse (fun i => rk c !!! i)).
  - apply xor_bytes_cancel. lia.
  - by apply xor_bytes_Bytes.
  - rewrite length_xor_bytes. lia.
Qed.

Lemma chunks_blocks data :
  Bytes data -> zlen data mod 16 = 0 ->
  Forall (fun b => Bytes b /\ length b = 16%nat) (chunks BLOCK_SIZE data).
Proof.
  intros HB Hm. apply list.Forall_and. split.
  - rewrite <- (concat_chunks BLOCK_SIZE data) in HB by (unfold BLOCK_SIZE; lia).
    by apply Forall_concat in HB.
  - apply chunks_full; [unfold BLOCK_SIZE; lia|]. apply Nat2Z.inj.
    rewrite Nat2Z.inj_mod. exact Hm.
Qed.

(** * Properties *)

(** For every expanded key schedule and every 16-byte block, decrypting an
    encrypted block gives the block back, and the ciphertext is again a
    16-byte block. *)
Theorem sm4_decrypt_encrypt (c : Sm4) (b : list Z) :
  Bytes b -> length b = 16%nat ->
  decrypt_block c (encrypt_block c b) = b /\
  Bytes (encrypt_block c b) /\ length (encrypt_block c b) = 16%nat.
Proof.
  intros HB Hl. unfold decrypt_block, encrypt_block.
  split; [by apply (sm4_rounds_reverse (fun i => rk c !!! i))|apply sm4_rounds_block].
Qed.

Lemma sm4_decrypt_encrypt_witness :
  decrypt_block (Sm4_new sm4_vector) (encrypt_block (Sm4_new sm4_vector) sm4_vector) = sm4_vector.
Proof.
  apply (sm4_decrypt_encrypt (Sm4_new sm4_vector) sm4_vector); [|reflexivity].
  apply (bool_decide_eq_true_1 _). vm_compute. reflexivity.
Defined.

(** CBC encryption of block-aligned data under a 16-byte IV succeeds, keeps
    the length, and is inverted by the textbook CBC decryption; unaligned data
    hits the assertion. *)
Theorem sm4_cbc_roundtrip (c : Sm4) (iv data : list Z) :
  Bytes iv -> length iv = 16%nat -> Bytes data ->
  match encrypt_cbc c iv data with
  | Some ct => zlen data mod 16 = 0 /\ cbc_decrypt c iv ct = data
  | None => zlen data mod 16 <> 0
  end.
Proof.
  intros Hiv Hl Hd. unfold encrypt_cbc. destruct (zlen data mod 16 =? 0) eqn:E; bools; [|done].
  split; [done|]. unfold cbc_decrypt. rewrite cbc_blocks_invert by (try done; by apply chunks_blocks).
  apply concat_chunks. unfold BLOCK_SIZE. lia.
Qed.

Lemma sm4_cbc_roundtrip_witness :
  match encrypt_cbc (Sm4_new sm4_vector) sm4_vector (sm4_vector ++ sm4_vector) with
  | Some ct => zlen (sm4_vector ++ sm4_vector) mod 16 = 0 /\
               cbc_decrypt (Sm4_new sm4_vector) sm4_vector ct = sm4_vector ++ sm4_vector
  | None => zlen (sm4_vector ++ sm4_vector) mod 16 <> 0
  end.
Proof.
  apply (sm4_cbc_roundtrip (Sm4_new sm4_vector) sm4_vector (sm4_vector ++ sm4_vector));
    [|reflexivity|]; apply (bool_decide_eq_true_1 _); vm_compute; reflexivity.
Defined.
