(* ===== verification/Apdu.v ===== *)
(** keyroost-proto/src/apdu.rs: ISO 7816-4 short APDUs, the two paddings and
    the Molto2 MAC. A panic is [None]. *)
From S2P Require Export Sm4.

Definition CLA_PLAIN : Z := 0x80.
Definition CLA_SECURE : Z := 0x84.

(** [while out.len() % 16 != 0 { out.push(0) }]: at most 15 turns. *)
Fixpoint pad_zeros (fuel : nat) (out : list Z) : list Z :=
  match fuel with
  | O => out
  | S fuel => if zlen out mod 16 =? 0 then out else pad_zeros fuel (out ++ [0])
  end.

Definition pad_iso7816 (data : list Z) : list Z := pad_zeros 15 (data ++ [0x80]).

Definition pad_iso7816_minimal (data : list Z) : list Z :=
  if zlen data mod 16 =? 0 then data else pad_zeros 15 (data ++ [0x80]).

(** [None]: the slice [buf.len() - 16] would underflow (an empty message). *)
Definition mac (sm4_key header payload : list Z) : option (list Z) :=
  let padded := pad_iso7816_minimal (header ++ payload) in
  buf ← encrypt_cbc (Sm4_new sm4_key) (replicate 16 0) padded;
  if zlen buf <? 16 then None else Some (take 4 (drop (length buf - 16) buf)).

Record ApduBodyTooLong := mkTooLong { tl_len : Z }.

Definition try_build_apdu (cla ins p1 p2 : Z) (data : list Z) : result ApduBodyTooLong (list Z) :=
  if 255 <? zlen data then Err (mkTooLong (zlen data))
  else Ok ([cla; ins; p1; p2; cast 8 (zlen data)] ++ data).

Definition build_apdu (cla ins p1 p2 : Z) (data : list Z) : option (list Z) :=
  result_ok (try_build_apdu cla ins p1 p2 data).

Definition build_apdu_get (cla ins p1 p2 le : Z) : list Z := [cla; ins; p1; p2; le].

Definition ends_in_le (out : list Z) : bool :=
  let n := zlen out in
  if n <=? 4 then false
  else if n =? 5 then true
  else n =? 5 + (out !!! 4%nat) + 1.

Definition resend_with_le (original : list Z) (le : Z) : list Z :=
  if ends_in_le original then take (length original - 1) original ++ [le]
  else original ++ [le].

(** * The four cases of a short APDU *)

Inductive short_apdu :=
  | Case1 (cla ins p1 p2 : Z)
  | Case2 (cla ins p1 p2 le : Z)
  | Case3 (cla ins p1 p2 : Z) (data : list Z)
  | Case4 (cla ins p1 p2 : Z) (data : list Z) (le : Z).

Definition apdu_bytes (a : short_apdu) : list Z :=
  match a with
  | Case1 cla ins p1 p2 => [cla; ins; p1; p2]
  | Case2 cla ins p1 p2 le => [cla; ins; p1; p2; le]
  | Case3 cla ins p1 p2 data => [cla; ins; p1; p2; zlen data] ++ data
  | Case4 cla ins p1 p2 data le => [cla; ins; p1; p2; zlen data] ++ data ++ [le]
  end.

(** A body APDU of these cases has 1 to 255 data bytes. *)
Definition apdu_ok (a : short_apdu) : Prop :=
  match a with
  | Case3 _ _ _ _ data | Case4 _ _ _ _ data _ => 1 <= zlen data <= 255
  | _ => True
  end.

(** The same command asking for [le] bytes. *)
Definition with_le (a : short_apdu) (le : Z) : short_apdu :=
  match a with
  | Case1 cla ins p1 p2 | Case2 cla ins p1 p2 _ => Case2 cla ins p1 p2 le
  | Case3 cla ins p1 p2 data | Case4 cla ins p1 p2 data _ => Case4 cla ins p1 p2 data le
  end.

(** * Lemmas *)

Lemma pad_zeros_spec fuel out :
  (-(zlen out)) mod 16 <= Z.of_nat fuel ->
  pad_zeros fuel out = out ++ replicate (Z.to_nat ((-(zlen out)) mod 16)) 0.
Proof.
  revert out. induction fuel as [|fuel IH]; intros out Hf; cbn [pad_zeros].
  - assert ((-(zlen out)) mod 16 = 0) as -> by lia_div. simpl. by rewrite app_nil_r.
  - destruct (zlen out mod 16 =? 0) eqn:E; bools.
    + assert ((-(zlen out)) mod 16 = 0) as -> by lia_div. simpl. by rewrite app_nil_r.
    + assert ((-(zlen (out ++ [0]))) mod 16 = (-(zlen out)) mod 16 - 1) as Hm
        by (rewrite zlen_app, zlen_cons; change (zlen (@nil Z)) with 0; lia_div).
      rewrite IH by lia. rewrite Hm, <- (assoc_L (++)). f_equal.
      assert (0 < (-(zlen out)) mod 16) by lia_div.
      replace (Z.to_nat ((-(zlen out)) mod 16)) with (S (Z.to_nat ((-(zlen out)) mod 16 - 1))) by lia.
      done.
Qed.

Lemma pad_zeros_15 out :
  pad_zeros 15 out = out ++ replicate (Z.to_nat ((-(zlen out)) mod 16)) 0.
Proof. apply pad_zeros_spec. lia_div. Qed.

Lemma pad_aligned out :
  zlen (out ++ replicate (Z.to_nat ((-(zlen out)) mod 16)) 0) mod 16 = 0.
Proof. zlen. lia_div. Qed.

Lemma pad_minimal_aligned data : zlen (pad_iso7816_minimal data) mod 16 = 0.
Proof.
  unfold pad_iso7816_minimal. destruct (_ =? 0) eqn:E; bools; [done|].
  rewrite pad_zeros_15. apply pad_aligned.
Qed.

Lemma pad_minimal_len data :
  zlen data <= zlen (pad_iso7816_minimal data) <= zlen data + 15.
Proof.
  unfold pad_iso7816_minimal. destruct (_ =? 0) eqn:E; bools; [lia|].
  rewrite pad_zeros_15. zlen. lia_div.
Qed.

Lemma pad_bytes data : Bytes data -> Bytes (pad_iso7816_minimal data).
Proof.
  intros H. unfold pad_iso7816_minimal. destruct (_ =? 0); [done|].
  rewrite pad_zeros_15, !Forall_app. split_and!; [done|by constructor|].
  by apply Forall_replicate.
Qed.

Lemma cbc_blocks_length c prev blocks : length (cbc_blocks c prev blocks) = (16 * length blocks)%nat.
Proof.
  revert prev. induction blocks as [|b bs IH]; intros prev; [done|]. cbn [cbc_blocks length].
  rewrite length_app, IH. unfold encrypt_block. rewrite (proj2 (sm4_rounds_block _ _)). lia.
Qed.

Lemma encrypt_cbc_length c iv data ct : encrypt_cbc c iv data = Some ct -> length ct = length data.
Proof.
  unfold encrypt_cbc. destruct (_ =? 0) eqn:E; [|done]. intros [= <-]. bools.
  rewrite cbc_blocks_length. pose proof (length_chunks 16 data ltac:(lia)) as H.
  apply Nat2Z.inj. rewrite Nat2Z.inj_mul. unfold BLOCK_SIZE. rewrite H.
  fold (zlen data). lia_div.
Qed.

Lemma cbc_blocks_Bytes c prev blocks : Bytes (cbc_blocks c prev blocks).
Proof.
  revert prev. induction blocks as [|b bs IH]; intros prev; [constructor|]. cbn [cbc_blocks].
  apply Forall_app; split; [apply sm4_rounds_block|apply IH].
Qed.

Lemma encrypt_ecb_spec c data :
  zlen data mod 16 = 0 ->
  exists ct, encrypt_ecb c data = Some ct /\ length ct = length data /\ Bytes ct.
Proof.
  intros Hm. unfold encrypt_ecb. rewrite Hm. eexists. split; [done|].
  assert (forall bs, length (flat_map (encrypt_block c) bs) = (16 * length bs)%nat /\
    Bytes (flat_map (encrypt_block c) bs)) as H.
  { induction bs as [|b bs [IHl IHb]]; [split; [done|constructor]|]. cbn [flat_map length].
    destruct (sm4_rounds_block (fun i => rk c !!! i) b) as [HB HL]. split.
    - rewrite length_app, IHl. unfold encrypt_block. lia.
    - by apply Forall_app. }
  destruct (H (chunks BLOCK_SIZE data)) as [Hl HB]. split; [|done]. rewrite Hl.
  pose proof (length_chunks 16 data ltac:(lia)) as H'.
  apply Nat2Z.inj. rewrite Nat2Z.inj_mul. unfold BLOCK_SIZE. rewrite H'.
  fold (zlen data). lia_div.
Qed.

(** The MAC of a command is four bytes. *)
Lemma mac_spec key header payload :
  zlen header = 5 ->
  exists m, mac key header payload = Some m /\ zlen m = 4 /\ Bytes m.
Proof.
  intros Hh. unfold mac.
  set (p := pad_iso7816_minimal (header ++ payload)).
  assert (zlen p mod 16 = 0) as Ha by apply pad_minimal_aligned.
  assert (5 <= zlen p) as Hp.
  { pose proof (pad_minimal_len (header ++ payload)) as Hpl. pose proof (zlen_nonneg payload).
    rewrite zlen_app in Hpl. fold p in Hpl. lia. }
  destruct (encrypt_cbc _ _ p) as [ct|] eqn:E.
  2:{ unfold encrypt_cbc in E. rewrite Ha in E. done. }
  simpl. pose proof (encrypt_cbc_length _ _ _ _ E) as Hl.
  assert (zlen ct = zlen p) as Hz by (unfold zlen; lia).
  assert (16 <= zlen ct) by lia_div. decide_cmp. eexists. split; [done|].
  split; [rewrite zlen_take, zlen_drop; unfold zlen in *; lia|].
  apply Forall_take, Forall_drop. unfold encrypt_cbc in E. rewrite Ha in E.
  injection E as <-. apply cbc_blocks_Bytes.
Qed.

Lemma build_apdu_spec cla ins p1 p2 data :
  zlen data <= 255 ->
  build_apdu cla ins p1 p2 data = Some ([cla; ins; p1; p2; zlen data] ++ data).
Proof.
  intros H. unfold build_apdu, try_build_apdu. decide_cmp. simpl.
  rewrite cast_small; [done|]. pose proof (zlen_nonneg data). unfold is_word. lia.
Qed.

Lemma build_apdu_None cla ins p1 p2 data :
  build_apdu cla ins p1 p2 data = None <-> 255 < zlen data.
Proof.
  unfold build_apdu, try_build_apdu. destruct (255 <? zlen data) eqn:E; bools; simpl;
    split; intros; try done; lia.
Qed.

Lemma ends_in_le_short cla ins p1 p2 data tail :
  1 <= zlen data -> zlen tail <= 1 ->
  ends_in_le ([cla; ins; p1; p2; zlen data] ++ data ++ tail) = (zlen tail =? 1).
Proof.
  intros Hd Ht. pose proof (zlen_nonneg tail). unfold ends_in_le.
  change (([cla; ins; p1; p2; zlen data] ++ data ++ tail) !!! 4%nat) with (zlen data).
  zlen. decide_cmp. rewrite (proj2 (Z.eqb_neq _ 5)) by lia.
  destruct (Z.eqb_spec (zlen tail) 1); [apply Z.eqb_eq; lia|apply Z.eqb_neq; lia].
Qed.

Lemma with_le_ok a le : apdu_ok a -> apdu_ok (with_le a le).
Proof. destruct a; simpl; auto. Qed.

Lemma resend_apdu a le : apdu_ok a -> resend_with_le (apdu_bytes a) le = apdu_bytes (with_le a le).
Proof.
  destruct a as [cla ins p1 p2|cla ins p1 p2 le0|cla ins p1 p2 data|cla ins p1 p2 data le0];
    intros Hok; [done..| |]; cbn [apdu_ok] in Hok; unfold resend_with_le; cbn [apdu_bytes with_le].
  - pose proof (ends_in_le_short cla ins p1 p2 data [] ltac:(lia) ltac:(done)) as H.
    rewrite app_nil_r in H. rewrite H. cbn [app]. done.
  - rewrite ends_in_le_short by (done || lia). cbn -[zlen take length app].
    rewrite !(assoc_L (++)). f_equal. apply take_app_length'.
    rewrite !length_app. cbn [length]. lia.
Qed.

(** * Properties *)

(** After a "wrong Le" status the command is reissued unchanged except for
    its Le. For each of the four ISO 7816-4 short cases, [resend_with_le]
    produces the same header and body with the given Le appended (cases 1 and
    3) or in place of the old one (cases 2 and 4), never touching a data byte;
    and asking again with another Le only changes that Le. *)
Theorem resend_with_le_case (a : short_apdu) (le le' : Z) :
  apdu_ok a ->
  resend_with_le (apdu_bytes a) le = apdu_bytes (with_le a le) /\
  resend_with_le (resend_with_le (apdu_bytes a) le) le' = resend_with_le (apdu_bytes a) le'.
Proof.
  intros Hok. rewrite !resend_apdu by done. split; [done|].
  rewrite !resend_apdu by (done || by apply with_le_ok). by destruct a.
Qed.

Lemma resend_with_le_case_witness :
  resend_with_le [0x00; 0xA4; 0x04; 0x00; 2; 0xA0; 0x00] 0x10 =
    [0x00; 0xA4; 0x04; 0x00; 2; 0xA0; 0x00; 0x10] /\
  resend_with_le (resend_with_le [0x00; 0xA4; 0x04; 0x00; 2; 0xA0; 0x00] 0x10) 7 =
    resend_with_le [0x00; 0xA4; 0x04; 0x00; 2; 0xA0; 0x00] 7.
Proof.
  apply (resend_with_le_case (Case3 0x00 0xA4 0x04 0x00 [0xA0; 0x00]) 0x10 7).
  vm_compute. split; discriminate.
Defined.
