(* ===== verification/IsoRead.v ===== *)
(** What a card reads of the commands it is sent (ISO 7816-3 and 7816-4), short,
    extended and chained: reference definitions the applet files share, with
    their lemmas. *)
From S2P Require Export Apdu.

(** * What a card reads *)

(** A command as the card acts on it; an [Le] of zero asks for the most. *)
Record Command := mkCommand { c_cla : Z; c_ins : Z; c_p1 : Z; c_p2 : Z; c_data : list Z; c_le : option Z }.

Definition short_le (le : Z) : Z := if le =? 0 then 256 else le.
Definition long_le (hi lo : Z) : Z := if (hi =? 0) && (lo =? 0) then 65536 else hi * 256 + lo.

(** The seven cases of ISO 7816-3, short and extended. *)
Definition parse_command (apdu : list Z) : option Command :=
  match apdu with
  | cla :: ins :: p1 :: p2 :: body =>
      let command := mkCommand cla ins p1 p2 in
      match body with
      | [] => Some (command [] None)
      | [le] => Some (command [] (Some (short_le le)))
      | [0; hi; lo] => Some (command [] (Some (long_le hi lo)))
      | 0 :: hi :: lo :: rest =>
          let lc := hi * 256 + lo in
          let data := take (Z.to_nat lc) rest in
          match drop (Z.to_nat lc) rest with
          | [] => if zlen rest =? lc then Some (command data None) else None
          | [h; l] => Some (command data (Some (long_le h l)))
          | _ => None
          end
      | lc :: rest =>
          let data := take (Z.to_nat lc) rest in
          match drop (Z.to_nat lc) rest with
          | [] => if zlen rest =? lc then Some (command data None) else None
          | [le] => Some (command data (Some (short_le le)))
          | _ => None
          end
      end
  | _ => None
  end.

(** A chain: every link but the last one has the chaining bit, and all have
    the same header. *)
Fixpoint reassemble (links : list (list Z)) : option Command :=
  match links with
  | [] => None
  | [link] => parse_command link
  | link :: links =>
      c ← parse_command link;
      whole ← reassemble links;
      if bool_decide (c_cla c = Z.lor (c_cla whole) 0x10 /\ c_ins c = c_ins whole /\ c_p1 c = c_p1 whole /\ c_p2 c = c_p2 whole /\ c_le c = None)
      then Some (mkCommand (c_cla whole) (c_ins whole) (c_p1 whole) (c_p2 whole) (c_data c ++ c_data whole) (c_le whole))
      else None
  end.

(** A chain of short commands: only the last link clears the chaining bit. *)
Fixpoint iso_links (cla ins p1 p2 : Z) (final_le : option Z) (chunks : list (list Z)) : list (list Z) :=
  match chunks with
  | [] => []
  | [chunk] => [[cla; ins; p1; p2; cast 8 (zlen chunk)] ++ chunk ++ match final_le with Some le => [le] | None => [] end]
  | chunk :: chunks => ([Z.lor cla 0x10; ins; p1; p2; cast 8 (zlen chunk)] ++ chunk) :: iso_links cla ins p1 p2 final_le chunks
  end.

(** * Lemmas *)

Lemma take_drop_app {A} (a b : list A) : take (Z.to_nat (zlen a)) (a ++ b) = a /\ drop (Z.to_nat (zlen a)) (a ++ b) = b.
Proof. by rewrite take_zlen, drop_zlen. Qed.

Lemma parse_short cla ins p1 p2 data le : 1 <= zlen data <= 255 ->
  parse_command ([cla; ins; p1; p2; zlen data] ++ data ++ match le with Some v => [v] | None => [] end) =
    Some (mkCommand cla ins p1 p2 data (short_le <$> le)).
Proof.
  intros Hd. cbn [app parse_command]. destruct (take_drop_app data (match le with Some v => [v] | None => [] end)) as [Ht Hr].
  destruct data as [|x data]; [rewrite zlen_nil in Hd; lia|]. destruct (zlen (x :: data)) as [|p|p] eqn:E; [lia| |lia]. rewrite <- E in *.
  cbn [app] in *. rewrite Ht, Hr. destruct le; [done|]. by rewrite app_nil_r, Z.eqb_refl.
Qed.

Lemma parse_extended cla ins p1 p2 data le : 1 <= zlen data <= 0xFFFF -> (forall v, le = Some v -> is_word 16 v) ->
  parse_command ([cla; ins; p1; p2; 0; zlen data / 256; zlen data mod 256] ++ data ++
      match le with Some v => [v / 256; v mod 256] | None => [] end) =
    Some (mkCommand cla ins p1 p2 data ((fun v => if v =? 0 then 65536 else v) <$> le)).
Proof.
  intros Hd Hle. cbn [app parse_command]. replace (zlen data / 256 * 256 + zlen data mod 256) with (zlen data) by lia_div.
  destruct (take_drop_app data (match le with Some v => [v / 256; v mod 256] | None => [] end)) as [Ht Hr].
  destruct data as [|x data]; [rewrite zlen_nil in Hd; lia|]. cbn [app] in *. rewrite Ht, Hr. destruct le as [v|].
  - cbn. f_equal. f_equal. f_equal. unfold long_le. specialize (Hle v eq_refl). unfold is_word in Hle.
    destruct (v =? 0) eqn:E; bools; [by subst v|]. destruct (_ && _) eqn:E2; bools; lia_div.
  - by rewrite app_nil_r, Z.eqb_refl.
Qed.

Lemma build_apdu_read cla ins p1 p2 data : 1 <= zlen data <= 255 ->
  build_apdu cla ins p1 p2 data = Some ([cla; ins; p1; p2; zlen data] ++ data) /\
  parse_command ([cla; ins; p1; p2; zlen data] ++ data) = Some (mkCommand cla ins p1 p2 data None).
Proof.
  intros Hd. pose proof (parse_short cla ins p1 p2 data None Hd) as Hp. rewrite app_nil_r in Hp. split; [|done].
  unfold build_apdu, try_build_apdu. rewrite (proj2 (Z.ltb_ge _ _)) by lia. by rewrite cast_small by (unfold is_word; lia).
Qed.

Lemma iso_links_read cla ins p1 p2 le cs : cs <> [] -> Forall (fun c => 1 <= zlen c <= 255) cs ->
  reassemble (iso_links cla ins p1 p2 le cs) = Some (mkCommand cla ins p1 p2 (concat cs) (short_le <$> le)).
Proof.
  intros Hn Hf. induction Hf as [|c cs Hc Hf IH]; [done|]. assert (cast 8 (zlen c) = zlen c) as Hz by (apply cast_small; unfold is_word; lia).
  destruct cs as [|c2 cs].
  - cbn [iso_links reassemble concat]. rewrite Hz, app_nil_r. by apply parse_short.
  - specialize (IH ltac:(done)). set (rest := c2 :: cs) in *. change (iso_links cla ins p1 p2 le (c :: rest)) with
      (([Z.lor cla 0x10; ins; p1; p2; cast 8 (zlen c)] ++ c) :: iso_links cla ins p1 p2 le rest). rewrite Hz.
    assert (exists l ls, iso_links cla ins p1 p2 le rest = l :: ls) as (l & ls & El) by (subst rest; destruct cs; by eexists _, _).
    rewrite El in *. change (reassemble (?x :: l :: ls)) with (c0 ← parse_command x; whole ← reassemble (l :: ls);
      if bool_decide (c_cla c0 = Z.lor (c_cla whole) 0x10 /\ c_ins c0 = c_ins whole /\ c_p1 c0 = c_p1 whole /\ c_p2 c0 = c_p2 whole /\ c_le c0 = None)
      then Some (mkCommand (c_cla whole) (c_ins whole) (c_p1 whole) (c_p2 whole) (c_data c0 ++ c_data whole) (c_le whole)) else None).
    pose proof (parse_short (Z.lor cla 0x10) ins p1 p2 c None Hc) as Hp. rewrite app_nil_r in Hp. rewrite Hp.
    cbn [mbind option_bind]. rewrite IH. cbn [mbind option_bind c_cla c_ins c_p1 c_p2 c_le c_data]. by rewrite bool_decide_eq_true_2.
Qed.

Lemma length_iso_links cla ins p1 p2 le cs : length (iso_links cla ins p1 p2 le cs) = length cs.
Proof. induction cs as [|c [|c2 cs] IH]; [done|done|]. cbn in *. by rewrite IH. Qed.
Lemma iso_links_size cla ins p1 p2 le n cs : Forall (fun c => zlen c <= n) cs -> Forall (fun l => zlen l <= n + 6) (iso_links cla ins p1 p2 le cs).
Proof.
  induction 1 as [|c cs Hc Hf IH]; [constructor|]. destruct cs as [|c2 cs].
  - repeat constructor. destruct le; zlen; lia.
  - change (iso_links _ _ _ _ _ (c :: c2 :: cs)) with (([Z.lor cla 0x10; ins; p1; p2; cast 8 (zlen c)] ++ c) :: iso_links cla ins p1 p2 le (c2 :: cs)).
    constructor; [zlen; lia|done].
Qed.
