(* ===== verification/Molto.v ===== *)
(** keyroost-proto/src/commands.rs: the Molto2 command builders and response
    parsers. An assertion that fails is [None]. The device's side of a secure
    command (MAC check, decryption) and of the two responses is given as
    reference definitions the theorems are stated against. *)
From S2P Require Export Apdu Sha Text.

Definition DEFAULT_CUSTOMER_KEY : list Z := s2b "TOKEN2MOLTO1-KEY".

Definition derive_sm4_key (customer_key : list Z) : list Z := take 16 (Sha1.sha1 customer_key).

Inductive HmacAlgo := HmacSha1 | HmacSha256.
Definition hmac_byte (a : HmacAlgo) : Z := match a with HmacSha1 => 1 | HmacSha256 => 2 end.

Inductive TimeStep := Seconds30 | Seconds60.
Definition step_byte (t : TimeStep) : Z := match t with Seconds30 => 0x1E | Seconds60 => 0x3C end.

Inductive DisplayTimeout := Sec15 | Sec30 | Sec60 | Sec120.
Definition timeout_byte (t : DisplayTimeout) : Z :=
  match t with Sec15 => 0 | Sec30 => 1 | Sec60 => 2 | Sec120 => 3 end.

Inductive OtpDigits := Four | Six | Eight | Ten.
Definition digits_byte (d : OtpDigits) : Z :=
  match d with Four => 4 | Six => 6 | Eight => 8 | Ten => 10 end.

Record ProfileConfig := mkConfig {
  display_timeout : DisplayTimeout;
  algorithm : HmacAlgo;
  digits : OtpDigits;
  time_step : TimeStep;
  utc_time : Z  (* u32 *)
}.

Record Command := mkCommand { label : list Z; apdu : list Z }.

(** [Command { label, apdu: build_apdu(..) }], which may panic. *)
Definition command (label : list Z) (apdu : option (list Z)) : option Command :=
  mkCommand label <$> apdu.

Definition get_info : Command :=
  mkCommand (s2b "get info (serial + time)") (build_apdu_get CLA_PLAIN 0x41 0x00 0x00 0x00).

Definition read_public_data (profile : Z) : option Command :=
  command (s2b "read public data") (build_apdu CLA_PLAIN 0x41 0x00 profile [0x70]).

Definition delete_seed (profile : Z) : Command :=
  mkCommand (s2b "delete seed") (build_apdu_get CLA_PLAIN 0xE6 0x00 profile 0x00).

Definition get_challenge : Command :=
  mkCommand (s2b "get challenge") (build_apdu_get CLA_PLAIN 0x4B 0x08 0x00 0x00).

Definition factory_reset : Command :=
  mkCommand (s2b "factory reset") (build_apdu_get CLA_PLAIN 0x56 0x00 0x00 0x00).

Definition answer_challenge (sm4_key challenge : list Z) : option Command :=
  let block := challenge ++ replicate 8 0 in
  let block := encrypt_block (Sm4_new sm4_key) block in
  command (s2b "answer challenge") (build_apdu CLA_PLAIN 0xCE 0x00 0x00 block).

Definition set_seed (sm4_key : list Z) (profile : Z) (seed : list Z) : option Command :=
  if negb ((0 <? zlen seed) && (zlen seed <=? 63)) then None else
  enc ← encrypt_ecb (Sm4_new sm4_key) (pad_iso7816_minimal seed);
  mac_bytes ← mac sm4_key [CLA_PLAIN; 0xC5; 0x01; profile; cast 8 (zlen enc)] enc;
  command (s2b "set seed") (build_apdu CLA_SECURE 0xC5 0x01 profile (enc ++ mac_bytes)).

Definition set_title (sm4_key : list Z) (profile : Z) (title : list Z) : option Command :=
  if negb ((0 <? zlen title) && (zlen title <=? 12)) then None else
  enc ← encrypt_ecb (Sm4_new sm4_key) (pad_iso7816_minimal title);
  mac_bytes ← mac sm4_key [CLA_PLAIN; 0xD5; 0x00; profile; 0x10] enc;
  command (s2b "set title") (build_apdu CLA_SECURE 0xD5 0x00 profile (enc ++ mac_bytes)).

Definition config_tlv (cfg : ProfileConfig) : list Z :=
  [0x81; 0x14; 0x1F; 0x01; timeout_byte (display_timeout cfg); 0x0F; 0x04]
  ++ to_be 4 (utc_time cfg)
  ++ [0x86; 0x09; 0x0A; 0x01; hmac_byte (algorithm cfg);
      0x0B; 0x01; digits_byte (digits cfg); 0x0D; 0x01; step_byte (time_step cfg)].

Definition set_config (sm4_key : list Z) (profile : Z) (cfg : ProfileConfig) : option Command :=
  let tlv := config_tlv cfg in
  mac_bytes ← mac sm4_key [CLA_PLAIN; 0xD4; 0x01; profile; cast 8 (zlen tlv)] tlv;
  command (s2b "set config") (build_apdu CLA_SECURE 0xD4 0x01 profile (tlv ++ mac_bytes)).

Definition sync_time (sm4_key : list Z) (profile utc_time : Z) : option Command :=
  let tlv := [0x81; 0x06; 0x0F; 0x04] ++ to_be 4 utc_time in
  mac_bytes ← mac sm4_key [CLA_PLAIN; 0xD4; 0x01; profile; cast 8 (zlen tlv)] tlv;
  command (s2b "sync time") (build_apdu CLA_SECURE 0xD4 0x01 profile (tlv ++ mac_bytes)).

Definition customer_key_plaintext (new_key : list Z) : list Z :=
  [0x00] ++ derive_sm4_key new_key ++ [0x80] ++ replicate 14 0.

Definition set_customer_key (sm4_key new_key : list Z) : option Command :=
  enc ← encrypt_ecb (Sm4_new sm4_key) (customer_key_plaintext new_key);
  mac_bytes ← mac sm4_key [CLA_PLAIN; 0xD7; 0x00; 0x00; 0x20] enc;
  command (s2b "set customer key") (build_apdu CLA_SECURE 0xD7 0x00 0x00 (enc ++ mac_bytes)).

(** ** Responses *)

Record ProfilePublicData := mkPublic {
  pd_flag : Z;
  pd_title : option (list Z);
  pd_time_a : Z;
  pd_time_b : Z;
  pd_algorithm : Z;
  pd_time_step : Z;
  pd_digits : Z;
  pd_seed_present : bool
}.

Inductive PublicDataError :=
  Truncated | BadOuterTag | BadOuterLength | BadInnerTag | BadInnerLength.

(** [iter().rposition(|&b| b != 0).map_or(0, |i| i + 1)]. *)
Fixpoint rposition_nonzero (l : list Z) : nat :=
  match l with
  | [] => 0
  | x :: l =>
      match rposition_nonzero l with
      | O => if x =? 0 then 0 else 1
      | S n => S (S n)
      end
  end.

Definition parse_public_data (resp : list Z) : result PublicDataError ProfilePublicData :=
  if zlen resp <? 4 then Err Truncated
  else if negb (resp !!! 0%nat =? 0x95) then Err BadOuterTag
  else if negb (resp !!! 1%nat =? 0x1F) then Err BadOuterLength
  else if negb (resp !!! 2%nat =? 0x70) then Err BadInnerTag
  else if negb (resp !!! 3%nat =? 0x1D) then Err BadInnerLength
  else if negb (zlen resp =? 33) then Err BadOuterLength
  else
    let body := drop 4 resp in
    let raw_title := slice body 1 17 in
    let title_len := rposition_nonzero raw_title in
    let title := if Nat.eqb title_len 0 then None
                 else Some (from_utf8_lossy (take title_len raw_title)) in
    Ok (mkPublic (body !!! 0%nat) title (from_be (slice body 17 21)) (from_be (slice body 21 25))
          (body !!! 25%nat) (body !!! 26%nat) (body !!! 27%nat) (negb (body !!! 28%nat =? 0))).

Inductive InfoError := TooShort (got need : Z).

Definition parse_info (data : list Z) : result InfoError (list Z * Z) :=
  if zlen data <? 4 then Err (TooShort (zlen data) 4) else
  let serial_len := data !!! 3%nat in
  let serial_end := 4 + serial_len in
  let need := serial_end + 6 in
  if zlen data <? need then Err (TooShort (zlen data) need) else
  let serial := from_utf8_lossy (slice data 4 (Z.to_nat serial_end)) in
  let time_offset := Z.to_nat (serial_end + 2) in
  Ok (serial, from_be (slice data time_offset (time_offset + 4))).

Definition sw_ok (sw1 sw2 : Z) : bool := (sw1 =? 0x90) && ((sw2 =? 0x00) || (sw2 =? 0x60)).
Definition sw_completed (sw1 sw2 : Z) : bool := (sw1 =? 0x90) && (sw2 =? 0x00).
Definition sw_awaiting_button (sw1 sw2 : Z) : bool := (sw1 =? 0x90) && (sw2 =? 0x60).
Definition sw_auth_failed (sw1 : Z) : bool := sw1 =? 0x63.

(** * The device's side *)

(** What a Molto2 with key [key] accepts as a secure command: the class byte,
    an Lc that covers the body exactly, and a MAC over the plain-class header
    with the payload's own length. It sees [(ins, p1, p2, payload)]. *)
Definition device_accept (key apdu : list Z) : option (Z * Z * Z * list Z) :=
  match apdu with
  | cla :: ins :: p1 :: p2 :: lc :: body =>
      if (cla =? CLA_SECURE) && (lc =? zlen body) && (4 <=? lc) then
        let n := Z.to_nat (lc - 4) in
        m ← mac key [CLA_PLAIN; ins; p1; p2; lc - 4] (take n body);
        if decide (m = drop n body) then Some (ins, p1, p2, take n body) else None
      else None
  | _ => None
  end.

Definition ecb_decrypt (c : Sm4) (data : list Z) : list Z :=
  flat_map (decrypt_block c) (chunks BLOCK_SIZE data).

(** Tag-length-value items with one-byte tags and lengths. *)
Fixpoint tlv_items (fuel : nat) (bs : list Z) : option (list (Z * list Z)) :=
  match fuel, bs with
  | _, [] => Some []
  | S fuel, t :: n :: r =>
      if n <=? zlen r then cons (t, take (Z.to_nat n) r) <$> tlv_items fuel (drop (Z.to_nat n) r)
      else None
  | _, _ => None
  end.

(** The public block a device with these contents answers. *)
Definition encode_public (flag : Z) (title : list Z) (ta tb alg step digits : Z) (seed : bool) : list Z :=
  [0x95; 0x1F; 0x70; 0x1D; flag] ++ title ++ replicate (16 - length title) 0
  ++ to_be 4 ta ++ to_be 4 tb ++ [alg; step; digits; if seed then 1 else 0].

Definition encode_info (header serial sep : list Z) (time : Z) : list Z :=
  header ++ [zlen serial] ++ serial ++ sep ++ to_be 4 time.

Example read_public_99 : read_public_data 99 =
  Some (mkCommand (s2b "read public data") [0x80; 0x41; 0x00; 0x63; 0x01; 0x70]).
Proof. reflexivity. Qed.
Example default_sm4_key : derive_sm4_key DEFAULT_CUSTOMER_KEY =
  [0x09; 0x92; 0x50; 0xfd; 0xb0; 0x17; 0xf4; 0x42; 0xda; 0x42; 0x9e; 0xcb; 0xbe; 0xe1; 0x7f; 0x79].
Proof. vm_compute. reflexivity. Qed.

(** The minimal padding cannot tell a 16-byte seed ending in 0x80 from the
    15-byte seed without it. *)
Example pad_minimal_ambiguous :
  pad_iso7816_minimal (replicate 15 1) = pad_iso7816_minimal (replicate 15 1 ++ [0x80]).
Proof. reflexivity. Qed.

(** * Lemmas *)

Lemma ecb_roundtrip c data ct :
  Bytes data -> encrypt_ecb c data = Some ct -> ecb_decrypt c ct = data.
Proof.
  unfold encrypt_ecb. destruct (_ =? 0) eqn:E; [|done]. bools. intros HB [= <-].
  pose proof (chunks_blocks data HB E) as Hb. unfold ecb_decrypt.
  rewrite <- (concat_chunks BLOCK_SIZE data) at 2 by (unfold BLOCK_SIZE; lia).
  induction Hb as [|b bs [HbB Hbl] _ IH]; [done|]. cbn [flat_map concat].
  rewrite chunks_app_full; [|unfold BLOCK_SIZE; lia|apply sm4_rounds_block].
  cbn [flat_map]. rewrite IH. f_equal. unfold decrypt_block, encrypt_block.
  by apply (sm4_rounds_reverse (fun i => rk c !!! i)).
Qed.

(** A builder's MACed body is what the device accepts. *)
Lemma device_accept_built key ins p1 p2 payload m :
  zlen payload <= 251 -> zlen m = 4 ->
  mac key [CLA_PLAIN; ins; p1; p2; zlen payload] payload = Some m ->
  exists a, build_apdu CLA_SECURE ins p1 p2 (payload ++ m) = Some a /\
    device_accept key a = Some (ins, p1, p2, payload) /\ zlen a = 9 + zlen payload.
Proof.
  intros Hp Hm Hmac. pose proof (zlen_nonneg payload).
  rewrite build_apdu_spec by (rewrite zlen_app; lia). eexists. split; [done|].
  split; [|zlen; lia]. cbn [app device_accept]. rewrite !Z.eqb_refl, zlen_app, Hm. decide_cmp.
  cbn [andb]. replace (zlen payload + 4 - 4) with (zlen payload) by lia.
  assert (Z.to_nat (zlen payload) = length payload) as -> by (unfold zlen; lia).
  rewrite take_app_length, drop_app_length, Hmac. simpl. by rewrite decide_True.
Qed.

Lemma secure_command key ins p1 p2 payload lc lbl :
  zlen payload <= 251 -> lc = zlen payload ->
  exists c, (m ← mac key [CLA_PLAIN; ins; p1; p2; lc] payload;
             command lbl (build_apdu CLA_SECURE ins p1 p2 (payload ++ m))) = Some c /\
    device_accept key (apdu c) = Some (ins, p1, p2, payload).
Proof.
  intros Hp ->. destruct (mac_spec key [CLA_PLAIN; ins; p1; p2; zlen payload] payload)
    as (m & Hm & Hl & _); [done|]. rewrite Hm. simpl.
  destruct (device_accept_built key ins p1 p2 payload m Hp Hl Hm) as (a & Ha & Hd & _).
  rewrite Ha. by eexists.
Qed.

Lemma secure_encrypted key ins p1 p2 data lc lbl :
  Bytes data -> zlen data mod 16 = 0 -> zlen data <= 251 -> lc = zlen data ->
  exists enc c, encrypt_ecb (Sm4_new key) data = Some enc /\ length enc = length data /\
    (m ← mac key [CLA_PLAIN; ins; p1; p2; lc] enc;
     command lbl (build_apdu CLA_SECURE ins p1 p2 (enc ++ m))) = Some c /\
    device_accept key (apdu c) = Some (ins, p1, p2, enc) /\
    ecb_decrypt (Sm4_new key) enc = data.
Proof.
  intros HB Hm Hl ->. destruct (encrypt_ecb_spec (Sm4_new key) data Hm) as (enc & He & Hel & _).
  assert (zlen enc = zlen data) as Hz by (unfold zlen; lia).
  destruct (secure_command key ins p1 p2 enc (zlen data) lbl) as (c & Hc & Hd); [lia|done|].
  exists enc, c. split_and!; [done..|]. by apply ecb_roundtrip.
Qed.

Lemma derive_sm4_key_out k : Bytes (derive_sm4_key k) /\ zlen (derive_sm4_key k) = 16.
Proof.
  unfold derive_sm4_key. destruct (sha1_out k) as [HB HL]. split; [by apply Forall_take|].
  rewrite zlen_take. unfold zlen. rewrite HL. done.
Qed.

Lemma customer_key_plaintext_out k :
  Bytes (customer_key_plaintext k) /\ zlen (customer_key_plaintext k) = 32.
Proof.
  destruct (derive_sm4_key_out k) as [HB HL]. unfold customer_key_plaintext. split.
  - rewrite !Forall_app. split_and!; [by constructor|done|by constructor|by apply Forall_replicate].
  - rewrite !zlen_app, HL. done.
Qed.

Lemma rposition_pad (t : list Z) (n : nat) :
  list.last t <> Some 0 -> rposition_nonzero (t ++ replicate n 0) = length t.
Proof.
  assert (rposition_nonzero (replicate n 0) = 0%nat) as Hz.
  { induction n as [|n IH]; [done|]. simpl. by rewrite IH. }
  induction t as [|x t IH]; intros Hl; [done|]. cbn [app rposition_nonzero length].
  destruct t as [|y t].
  - cbn [app]. rewrite Hz. simpl in Hl. destruct (x =? 0) eqn:E; bools; [congruence|done].
  - rewrite IH by done. done.
Qed.

Lemma parse_public_envelope resp d :
  parse_public_data resp = Ok d ->
  zlen resp = 33 /\ exists body, resp = [0x95; 0x1F; 0x70; 0x1D] ++ body.
Proof.
  unfold parse_public_data. intros H. repeat case_in H; try done; bools.
  all: split; [done|]; destruct resp as [|a [|b [|c [|e r]]]]; try (zlen; lia).
  all: cbn in *; subst; by exists r.
Qed.

Lemma parse_public_encode flag title ta tb alg step digits seed :
  (length title <= 16)%nat -> Bytes title -> is_str title -> list.last title <> Some 0 ->
  is_word 32 ta -> is_word 32 tb ->
  parse_public_data (encode_public flag title ta tb alg step digits seed) =
  Ok (mkPublic flag (if Nat.eqb (length title) 0 then None else Some title) ta tb alg step digits seed).
Proof.
  intros Hl HB Hs Hlast Ha Hb. unfold parse_public_data.
  set (pad := title ++ replicate (16 - length title) 0).
  assert (length pad = 16%nat) as Hpad by (unfold pad; rewrite length_app, length_replicate; lia).
  assert (encode_public flag title ta tb alg step digits seed =
    [0x95; 0x1F; 0x70; 0x1D] ++ [flag] ++ pad ++ to_be 4 ta ++ to_be 4 tb ++
    [alg; step; digits; if seed then 1 else 0]) as ->
    by (unfold encode_public, pad; by rewrite <- !(assoc_L (++))).
  set (tail := to_be 4 ta ++ _).
  set (resp := [0x95; 0x1F; 0x70; 0x1D] ++ [flag] ++ pad ++ tail).
  assert (zlen resp = 33) as Hr.
  { unfold resp, tail. rewrite !zlen_app. unfold zlen at 3. rewrite Hpad, !zlen_to_be. done. }
  rewrite Hr. change (drop 4 resp) with ([flag] ++ pad ++ tail).
  assert (slice ([flag] ++ pad ++ tail) 1 17 = pad) as ->.
  { replace 17%nat with (length [flag] + length pad)%nat by (rewrite Hpad; done). apply slice_app. }
  assert (rposition_nonzero pad = length title) as -> by (by apply rposition_pad).
  assert (take (length title) pad = title) as -> by apply take_app_length.
  rewrite from_utf8_lossy_str by done.
  assert (forall i j, (17 <= i)%nat -> slice ([flag] ++ pad ++ tail) i j = slice tail (i - 17) (j - 17)) as Hsl.
  { intros i j Hi. unfold slice. rewrite drop_app_ge by (simpl; lia). rewrite drop_app_ge by (rewrite Hpad; simpl; lia).
    rewrite Hpad. simpl length. f_equal; [lia|]. f_equal. lia. }
  rewrite (Hsl 17%nat 21%nat), (Hsl 21%nat 25%nat) by lia.
  assert (forall i, (17 <= i)%nat -> ([flag] ++ pad ++ tail) !!! i = tail !!! (i - 17)%nat) as Hlk.
  { intros i Hi. rewrite !list_lookup_total_alt, !lookup_app_r by (rewrite ?Hpad; simpl; lia).
    rewrite Hpad. simpl length. do 2 f_equal. lia. }
  rewrite (Hlk 25%nat), (Hlk 26%nat), (Hlk 27%nat), (Hlk 28%nat) by lia. cbn -[slice tail lookup_total Nat.eqb].
  rewrite <- (from_be_to_be_small 4 ta), <- (from_be_to_be_small 4 tb) by done.
  destruct seed; reflexivity.
Qed.

Lemma parse_info_encode header serial sep time :
  length header = 3%nat -> length sep = 2%nat -> Bytes serial -> is_str serial ->
  zlen serial <= 255 -> is_word 32 time ->
  parse_info (encode_info header serial sep time) = Ok (serial, time).
Proof.
  intros Hh Hsep HB Hs Hl Ht. unfold parse_info.
  set (data := encode_info header serial sep time). pose proof (zlen_nonneg serial).
  assert (zlen data = zlen serial + 10) as Hd.
  { assert (zlen header = 3 /\ zlen sep = 2) as [Hzh Hzs] by (unfold zlen; lia).
    unfold data, encode_info. rewrite !zlen_app, zlen_to_be, Hzh, Hzs, zlen_cons, zlen_nil. lia. }
  assert (data = (header ++ [zlen serial]) ++ serial ++ (sep ++ to_be 4 time)) as He
    by (unfold data, encode_info; by rewrite <- !(assoc_L (++))).
  assert (data !!! 3%nat = zlen serial) as ->.
  { rewrite He, list_lookup_total_alt, lookup_app_l by (rewrite length_app, Hh; simpl; lia).
    rewrite lookup_app_r by lia. by rewrite Hh. }
  rewrite Hd. decide_cmp.
  replace (Z.to_nat (4 + zlen serial)) with (length (header ++ [zlen serial]) + length serial)%nat
    by (rewrite length_app, Hh; unfold zlen; simpl; lia).
  replace 4%nat with (length (header ++ [zlen serial])) at 1 by (rewrite length_app, Hh; done).
  rewrite He at 1. rewrite slice_app, from_utf8_lossy_str by done.
  assert (data = ((header ++ [zlen serial]) ++ serial ++ sep) ++ to_be 4 time ++ []) as ->
    by (rewrite He, app_nil_r, <- !(assoc_L (++)); done).
  replace (Z.to_nat (4 + zlen serial + 2)) with (length ((header ++ [zlen serial]) ++ serial ++ sep))
    by (rewrite !length_app, Hh, Hsep; unfold zlen; simpl; lia).
  replace 4%nat with (length (to_be 4 time)) at 1 by apply length_to_be.
  rewrite slice_app, from_be_to_be_small by done. done.
Qed.

Lemma zlen_empty {A} (l : list A) : l = [] <-> zlen l = 0.
Proof. split; [by intros ->|apply zlen_0]. Qed.

Lemma set_seed_spec key profile seed :
  Bytes seed ->
  if decide (0 < zlen seed <= 63) then
    exists c payload, set_seed key profile seed = Some c /\
      device_accept key (apdu c) = Some (0xC5, 0x01, profile, payload) /\
      ecb_decrypt (Sm4_new key) payload = pad_iso7816_minimal seed
  else set_seed key profile seed = None.
Proof.
  intros HB. unfold set_seed. case_decide as Hs.
  - decide_cmp. cbn [negb andb]. pose proof (pad_minimal_aligned seed) as Ha.
    pose proof (pad_minimal_len seed).
    destruct (encrypt_ecb_spec (Sm4_new key) (pad_iso7816_minimal seed) Ha) as (enc & He & Hel & _).
    assert (zlen enc = zlen (pad_iso7816_minimal seed)) as Hz by (unfold zlen; lia).
    rewrite He. cbn [mbind option_bind]. rewrite (cast_small 8) by (unfold is_word; lia).
    destruct (secure_command key 0xC5 1 profile enc (zlen enc) (s2b "set seed")) as (c & -> & Hd); [lia|done|].
    exists c, enc. split_and!; [done..|]. apply ecb_roundtrip; [by apply pad_bytes|done].
  - destruct (0 <? zlen seed) eqn:E1, (zlen seed <=? 63) eqn:E2; bools; done || lia.
Qed.

Lemma set_title_spec key profile title :
  Bytes title ->
  if decide (0 < zlen title <= 12) then
    exists c payload, set_title key profile title = Some c /\
      device_accept key (apdu c) = Some (0xD5, 0x00, profile, payload) /\
      ecb_decrypt (Sm4_new key) payload = title ++ 0x80 :: replicate (15 - length title) 0
  else set_title key profile title = None.
Proof.
  intros HB. unfold set_title. case_decide as Hs.
  - decide_cmp. cbn [negb andb].
    assert (pad_iso7816_minimal title = title ++ 0x80 :: replicate (15 - length title) 0) as Hp.
    { unfold pad_iso7816_minimal. rewrite (proj2 (Z.eqb_neq _ 0)) by lia_div.
      rewrite pad_zeros_15, <- (assoc_L (++)). cbn [app]. do 3 f_equal. zlen. unfold zlen in *. lia_div. }
    destruct (secure_encrypted key 0xD5 0 profile (pad_iso7816_minimal title) 0x10 (s2b "set title"))
      as (enc & c & -> & _ & Hc & Hd & Hdec).
    { by apply pad_bytes. } { apply pad_minimal_aligned. }
    { pose proof (pad_minimal_len title). lia. }
    { rewrite Hp. zlen. unfold zlen in *. lia. }
    cbn [mbind option_bind]. exists c, enc. split_and!; [exact Hc|done|]. by rewrite Hdec.
  - destruct (0 <? zlen title) eqn:E1, (zlen title <=? 12) eqn:E2; bools; done || lia.
Qed.

Lemma set_customer_key_spec key new_key :
  exists c payload, set_customer_key key new_key = Some c /\
    device_accept key (apdu c) = Some (0xD7, 0x00, 0x00, payload) /\
    ecb_decrypt (Sm4_new key) payload = 0x00 :: derive_sm4_key new_key ++ 0x80 :: replicate 14 0.
Proof.
  destruct (customer_key_plaintext_out new_key) as [HB HL].
  destruct (secure_encrypted key 0xD7 0 0 (customer_key_plaintext new_key) 0x20 (s2b "set customer key"))
    as (enc & c & He & _ & Hc & Hd & Hdec); [done|by rewrite HL|lia|done|].
  exists c, enc. split; [|split; [done|]].
  - unfold set_customer_key. rewrite He. exact Hc.
  - rewrite Hdec. done.
Qed.

(** * Properties *)

(** Secrets and titles reach the device. For every key, profile and input:
    [set_seed] panics exactly outside 1..=63 bytes and [set_title] outside
    1..=12; otherwise the APDU passes the device's length and MAC checks, and
    decrypting its payload with the same key gives the padded seed (title).
    [set_customer_key] never panics and delivers 00, the SM4 key derived from
    the new customer key and the padding. *)
Theorem molto_secrets_delivered (key : list Z) (profile : Z) (seed title new_key : list Z) :
  Bytes seed -> Bytes title ->
  (set_seed key profile seed = None <-> seed = [] \/ 63 < zlen seed) /\
  (forall c, set_seed key profile seed = Some c -> exists payload,
      device_accept key (apdu c) = Some (0xC5, 0x01, profile, payload) /\
      ecb_decrypt (Sm4_new key) payload = pad_iso7816_minimal seed) /\
  (set_title key profile title = None <-> title = [] \/ 12 < zlen title) /\
  (forall c, set_title key profile title = Some c -> exists payload,
      device_accept key (apdu c) = Some (0xD5, 0x00, profile, payload) /\
      ecb_decrypt (Sm4_new key) payload = title ++ 0x80 :: replicate (15 - length title) 0) /\
  exists c payload, set_customer_key key new_key = Some c /\
    device_accept key (apdu c) = Some (0xD7, 0x00, 0x00, payload) /\
    ecb_decrypt (Sm4_new key) payload = 0x00 :: derive_sm4_key new_key ++ 0x80 :: replicate 14 0.
Proof.
  intros HBs HBt.
  pose proof (set_seed_spec key profile seed HBs) as H1.
  pose proof (set_title_spec key profile title HBt) as H2.
  destruct (decide (0 < zlen seed <= 63)) as [Hs|Hs], (decide (0 < zlen title <= 12)) as [Ht|Ht].
  all: rewrite ?(zlen_empty seed), ?(zlen_empty title).
  all: split_and!; try apply set_customer_key_spec.
  all: try (destruct H1 as (c1 & p1 & -> & Hd1); split; [done|lia]).
  all: try (destruct H2 as (c2 & p2 & -> & Hd2); split; [done|lia]).
  all: try (rewrite H1; split; [pose proof (zlen_nonneg seed); lia|done]).
  all: try (rewrite H2; split; [pose proof (zlen_nonneg title); lia|done]).
  all: intros c Hc.
  all: try (destruct H1 as (c1 & p1 & E & Hd1); rewrite E in Hc; injection Hc as <-; by exists p1).
  all: try (destruct H2 as (c2 & p2 & E & Hd2); rewrite E in Hc; injection Hc as <-; by exists p2).
  all: congruence.
Qed.

Lemma molto_secrets_delivered_witness :
  set_seed sm4_vector 3 [1; 2; 3] = None <-> [1; 2; 3] = [] \/ 63 < zlen [1; 2; 3].
Proof.
  apply (molto_secrets_delivered sm4_vector 3 [1; 2; 3] [0x41] []);
    apply (bool_decide_eq_true_1 _); vm_compute; reflexivity.
Defined.

(** Configuration and time updates reach the device intact. For every key,
    profile and configuration, [set_config] and [sync_time] never panic, the
    device accepts their MAC, and a tag-length-value reader finds in the
    payload exactly the display timeout, the clock and the TOTP parameters. *)
Theorem molto_config_delivered (key : list Z) (profile : Z) (cfg : ProfileConfig) :
  (exists c payload, set_config key profile cfg = Some c /\
    device_accept key (apdu c) = Some (0xD4, 0x01, profile, payload) /\
    exists inner, tlv_items 4 payload = Some [(0x81, inner)] /\
    exists totp, tlv_items 4 inner =
      Some [(0x1F, [timeout_byte (display_timeout cfg)]); (0x0F, to_be 4 (utc_time cfg)); (0x86, totp)] /\
    tlv_items 4 totp = Some [(0x0A, [hmac_byte (algorithm cfg)]); (0x0B, [digits_byte (digits cfg)]);
                             (0x0D, [step_byte (time_step cfg)])]) /\
  (exists c payload, sync_time key profile (utc_time cfg) = Some c /\
    device_accept key (apdu c) = Some (0xD4, 0x01, profile, payload) /\
    exists inner, tlv_items 4 payload = Some [(0x81, inner)] /\
      tlv_items 4 inner = Some [(0x0F, to_be 4 (utc_time cfg))]).
Proof.
  split.
  - destruct (secure_command key 0xD4 1 profile (config_tlv cfg) (cast 8 (zlen (config_tlv cfg)))
      (s2b "set config")) as (c & Hc & Hd).
    { unfold config_tlv. rewrite !zlen_app, zlen_to_be. unfold zlen. simpl. lia. }
    { unfold config_tlv. rewrite !zlen_app, zlen_to_be. done. }
    exists c, (config_tlv cfg). split; [done|]. split; [done|].
    eexists. split; [reflexivity|]. eexists. split; reflexivity.
  - destruct (secure_command key 0xD4 1 profile ([0x81; 0x06; 0x0F; 0x04] ++ to_be 4 (utc_time cfg))
      (cast 8 (zlen ([0x81; 0x06; 0x0F; 0x04] ++ to_be 4 (utc_time cfg)))) (s2b "sync time"))
      as (c & Hc & Hd).
    { rewrite !zlen_app, zlen_to_be. unfold zlen. simpl. lia. }
    { rewrite !zlen_app, zlen_to_be. done. }
    eexists c, _. split; [done|]. split; [done|]. eexists. split; reflexivity.
Qed.

(** The public block parser is strict and exact. A response is accepted
    only when it is 33 bytes long and starts 95 1F 70 1D; and whatever a device
    encodes in that layout (a title of up to 16 UTF-8 bytes without a trailing
    zero, two clocks, the TOTP parameters) is read back unchanged, an empty
    title as no title. *)
Theorem public_data_roundtrip (resp : list Z) (flag : Z) (title : list Z) (ta tb alg step digits : Z)
    (seed : bool) :
  (length title <= 16)%nat -> Bytes title -> is_str title -> list.last title <> Some 0 ->
  is_word 32 ta -> is_word 32 tb ->
  (forall d, parse_public_data resp = Ok d ->
     zlen resp = 33 /\ exists body, resp = [0x95; 0x1F; 0x70; 0x1D] ++ body) /\
  parse_public_data (encode_public flag title ta tb alg step digits seed) =
  Ok (mkPublic flag (if Nat.eqb (length title) 0 then None else Some title) ta tb alg step digits seed).
Proof.
  intros. split; [apply parse_public_envelope|by apply parse_public_encode].
Qed.

Lemma public_data_roundtrip_witness :
  (forall d, parse_public_data [0x95] = Ok d ->
     zlen [0x95] = 33 /\ exists body, [0x95] = [0x95; 0x1F; 0x70; 0x1D] ++ body) /\
  parse_public_data (encode_public 0x20 (s2b "KRPROBE99") 3600 86400 1 0x1E 6 true) =
  Ok (mkPublic 0x20 (Some (s2b "KRPROBE99")) 3600 86400 1 0x1E 6 true).
Proof.
  apply (public_data_roundtrip [0x95] 0x20 (s2b "KRPROBE99") 3600 86400 1 0x1E 6 true).
  all: try (apply (bool_decide_eq_true_1 _); vm_compute; reflexivity).
Defined.

(** The get-info parser returns the serial and clock of every well-formed
    response and refuses a short one with the exact length it needed. *)
Theorem info_roundtrip (header serial sep : list Z) (time : Z) (data : list Z) :
  length header = 3%nat -> length sep = 2%nat -> Bytes serial -> is_str serial ->
  zlen serial <= 255 -> is_word 32 time -> Bytes data ->
  parse_info (encode_info header serial sep time) = Ok (serial, time) /\
  parse_info data = match parse_info data with
    | Ok r => Ok r
    | Err _ => Err (TooShort (zlen data) (if zlen data <? 4 then 4 else 10 + data !!! 3%nat))
    end /\
  (is_ok (parse_info data) = true <-> 4 <= zlen data /\ 10 + data !!! 3%nat <= zlen data).
Proof.
  intros. split; [by apply parse_info_encode|].
  unfold parse_info. destruct (zlen data <? 4) eqn:E1; bools; [split; [done|simpl; split; [done|lia]]|].
  destruct (_ <? _) eqn:E2; bools; simpl.
  - split; [do 2 f_equal; lia|split; [done|lia]].
  - split; [done|split; [lia|done]].
Qed.

Lemma info_roundtrip_witness :
  parse_info (encode_info [0; 0; 0] (s2b "12345678") [2; 4] 1700000000) = Ok (s2b "12345678", 1700000000) /\
  parse_info [1; 2; 3; 4] = match parse_info [1; 2; 3; 4] with
    | Ok r => Ok r
    | Err _ => Err (TooShort (zlen [1; 2; 3; 4])
        (if zlen [1; 2; 3; 4] <? 4 then 4 else 10 + [1; 2; 3; 4] !!! 3%nat))
    end /\
  (is_ok (parse_info [1; 2; 3; 4]) = true <->
    4 <= zlen [1; 2; 3; 4] /\ 10 + [1; 2; 3; 4] !!! 3%nat <= zlen [1; 2; 3; 4]).
Proof.
  apply (info_roundtrip [0; 0; 0] (s2b "12345678") [2; 4] 1700000000 [1; 2; 3; 4]).
  all: try (apply (bool_decide_eq_true_1 _); vm_compute; reflexivity).
Defined.
