(* ===== verification/Pcsc.v ===== *)
(** The card a PC/SC reader holds, as both reader transports use it (the pcsc
    crate is a class), the trace of a session, and a reference T=0 card for
    their theorems. *)
From S2P Require Export Apdu Trace Ctap.

(** * The reader's card *)

(** The variants of pcsc's error the source tells apart. *)
Inductive PcscKind := ResetCard | RemovedCard | NoSmartcard | NotTransacted | NoAccess | CommError | OtherPcsc.

Class PcscCard (C : Type) := {
  PcscError : Type;
  pcsc_kind : PcscError -> PcscKind;
  pcsc_text : PcscError -> list Z;
  card_transmit : list Z -> io C PcscError (list Z)
}.
Arguments PcscError C {_}.

(** A card and where the trace of the thread goes. *)
Record World (C : Type) := mkWorld { card : C; capture : Capture; stderr : list (list Z) }.
Arguments mkWorld {C} _ _ _.
Arguments card {C} _.
Arguments capture {C} _.
Arguments stderr {C} _.

Section world.
Context {C : Type}.

(** [trace::emit] on the thread's capture. *)
Definition trace_line {E} (print : bool) (line : list Z) : io (World C) E unit := fun w =>
  let '(printed, cap) := emit print line (capture w) in
  (Ok tt, mkWorld (card w) cap (stderr w ++ printed)).

Context `{PcscCard C}.

(** [card.transmit]. *)
Definition transmit (apdu : list Z) : io (World C) (PcscError C) (list Z) := fun w =>
  let '(r, c) := card_transmit apdu (card w) in (r, mkWorld c (capture w) (stderr w)).
End world.

(** * A reference T=0 card *)

(** The applet behind the card: [run] is its whole answer to a command (data,
    status word) and how many times it asks to be polled first. *)
Record Answer := mkAnswer { a_data : list Z; a_sw1 : Z; a_sw2 : Z; a_polls : nat }.

Record T0 (App : Type) := mkT0 {
  t0_app : App; pending : list Z; pending_sw : Z * Z; polls : nat
}.
Arguments mkT0 {App} _ _ _ _.
Arguments t0_app {App} _.
Arguments pending {App} _.
Arguments pending_sw {App} _.
Arguments polls {App} _.

(** How the card delivers: pieces of at most [piece] bytes on GET RESPONSE
    ([continue], whose header it goes by); an answer of at most [inline] bytes
    at once, else [first] bytes and 61xx; when [exact_le], a command or GET
    RESPONSE with another Le than what is there gets 6Cxx, nothing done. *)
Record T0Style := mkStyle { continue : list Z; piece : Z; inline : Z; first : Z; exact_le : bool }.
Definition style_ok (s : T0Style) : Prop :=
  length (continue s) = 5%nat /\ 1 <= piece s <= 256 /\ 0 <= first s <= inline s /\ inline s <= 256.

Section t0.
Context {App : Type} (run : App -> list Z -> Answer * App) (s : T0Style).

Definition le_of (apdu : list Z) : Z := let l := List.last apdu 0 in if l =? 0 then 256 else l.

Definition t0_available (c : T0 App) : Z := Z.min (piece s) (zlen (pending c)).

Definition t0_deliver (le : Z) (c : T0 App) : list Z * T0 App :=
  let n := Z.to_nat (Z.min le (t0_available c)) in
  let rest := drop n (pending c) in
  let sw := match rest with
            | [] => [(pending_sw c).1; (pending_sw c).2]
            | _ => [0x61; cast 8 (Z.min (piece s) (zlen rest))]
            end in
  (take n (pending c) ++ sw, mkT0 (t0_app c) rest (pending_sw c) 0).

Definition is_continue (apdu : list Z) : bool := bool_decide (take 4 apdu = take 4 (continue s)).

Definition t0_transmit (apdu : list Z) (c : T0 App) : list Z * T0 App :=
  if is_continue apdu then
    match polls c with
    | S k => ([0x91; 0x00], mkT0 (t0_app c) (pending c) (pending_sw c) k)
    | O => if exact_le s && negb (le_of apdu =? t0_available c) then ([0x6C; cast 8 (t0_available c)], c)
           else t0_deliver (le_of apdu) c
    end
  else
    let '(a, app') := run (t0_app c) apdu in
    let d := a_data a in
    match a_polls a with
    | S k => ([0x91; 0x00], mkT0 app' d (a_sw1 a, a_sw2 a) k)
    | O =>
        if zlen d <=? inline s then
          if exact_le s && ends_in_le apdu && (0 <? zlen d) && negb (le_of apdu =? zlen d) then ([0x6C; cast 8 (zlen d)], c)
          else (d ++ [a_sw1 a; a_sw2 a], mkT0 app' [] (a_sw1 a, a_sw2 a) 0)
        else (take (Z.to_nat (first s)) d ++ [0x61; cast 8 (Z.min (piece s) (zlen d - first s))],
              mkT0 app' (drop (Z.to_nat (first s)) d) (a_sw1 a, a_sw2 a) 0)
    end.

Definition t0_card : PcscCard (T0 App) := {|
  PcscError := PcscKind;
  pcsc_kind := id;
  pcsc_text := fun _ => s2b "card error";
  card_transmit := fun apdu c => let '(r, c') := t0_transmit apdu c in (Ok r, c')
|}.

(** The number of GET RESPONSE exchanges for [n] pending bytes. *)
Definition pieces (n : Z) : Z := (n + piece s - 1) / piece s.

(** The applet takes the command for the same whatever Le it carries. *)
Definition le_blind (cmd : list Z) : Prop := forall a le, run a (resend_with_le cmd le) = run a cmd.
End t0.

(** The command without its Le. *)
Definition strip_le (cmd : list Z) : list Z := if ends_in_le cmd then take (length cmd - 1) cmd else cmd.

Definition answer_ok (d : list Z) : Answer := mkAnswer d 0x90 0x00 0.
Definition answer_sw (sw1 sw2 : Z) : Answer := mkAnswer [] sw1 sw2 0.

(** * Lemmas *)

Lemma strip_le_bytes b :
  apdu_ok b ->
  strip_le (apdu_bytes b) = match b with
    | Case1 cla ins p1 p2 | Case2 cla ins p1 p2 _ => [cla; ins; p1; p2]
    | Case3 cla ins p1 p2 data | Case4 cla ins p1 p2 data _ => [cla; ins; p1; p2; zlen data] ++ data
    end.
Proof.
  destruct b as [cla ins p1 p2|cla ins p1 p2 le|cla ins p1 p2 data|cla ins p1 p2 data le]; intros Hok; try done;
    cbn [apdu_ok apdu_bytes] in *; unfold strip_le, ends_in_le.
  - assert (zlen ([cla; ins; p1; p2; zlen data] ++ data) = 5 + zlen data) as -> by (zlen; lia).
    rewrite (proj2 (Z.leb_gt _ _)) by lia. rewrite (proj2 (Z.eqb_neq _ 5)) by lia. cbn [app].
    change ((cla :: ins :: p1 :: p2 :: zlen data :: data) !!! 4%nat) with (zlen data).
    by rewrite (proj2 (Z.eqb_neq _ _)) by lia.
  - assert (zlen ([cla; ins; p1; p2; zlen data] ++ data ++ [le]) = 6 + zlen data) as -> by (zlen; lia).
    rewrite (proj2 (Z.leb_gt _ _)) by lia. rewrite (proj2 (Z.eqb_neq _ 5)) by lia. cbn [app].
    change ((cla :: ins :: p1 :: p2 :: zlen data :: data ++ [le]) !!! 4%nat) with (zlen data).
    rewrite (proj2 (Z.eqb_eq _ _)) by lia.
    change (cla :: ins :: p1 :: p2 :: zlen data :: data ++ [le]) with ([cla; ins; p1; p2; zlen data] ++ data ++ [le]).
    rewrite app_assoc, length_app. replace (_ + length [le] - 1)%nat with (length ([cla; ins; p1; p2; zlen data] ++ data)) by (simpl; lia).
    by rewrite take_app_length.
Qed.

(** ** The T=0 card *)

Section t0_lemmas.
Context {App : Type} (run : App -> list Z -> Answer * App) (s : T0Style) (Hs : style_ok s).

Lemma t0_resend_le original le :
  is_word 8 le -> le_of (resend_with_le original le) = if le =? 0 then 256 else le.
Proof.
  intros _. unfold le_of, resend_with_le. destruct (ends_in_le original); by rewrite last_last.
Qed.

Lemma is_continue_resend le : is_continue s (resend_with_le (continue s) le) = true.
Proof.
  destruct Hs as (Hl & _). unfold is_continue. apply bool_decide_eq_true. unfold resend_with_le, ends_in_le, zlen. rewrite Hl.
  change (Z.of_nat 5 <=? 4) with false. change (Z.of_nat 5 =? 5) with true. cbv iota.
  destruct (continue s) as [|a [|b [|c [|d [|e [|]]]]]]; simpl in Hl; try lia. done.
Qed.

Lemma is_continue_command cmd le : (4 <= length cmd)%nat -> is_continue s cmd = false -> is_continue s (resend_with_le cmd le) = false.
Proof.
  intros Hl. unfold is_continue. rewrite !bool_decide_eq_false. intros Hn Hc. apply Hn. rewrite <- Hc.
  unfold resend_with_le. destruct (ends_in_le cmd) eqn:He.
  - unfold ends_in_le in He. destruct (zlen cmd <=? 4) eqn:E; [done|]. bools. unfold zlen in E.
    rewrite take_app_le by (rewrite length_take; lia). rewrite take_take. f_equal. lia.
  - by rewrite take_app_le by lia.
Qed.

(** What GET RESPONSE with the Le the card named brings. *)
Lemma t0_piece (c : T0 App) :
  polls c = 0%nat -> pending c <> [] ->
  let n := Z.min (piece s) (zlen (pending c)) in
  t0_transmit run s (resend_with_le (continue s) (cast 8 n)) c =
  ((take (Z.to_nat n) (pending c) ++
       match drop (Z.to_nat n) (pending c) with
       | [] => [(pending_sw c).1; (pending_sw c).2]
       | rest => [0x61; cast 8 (Z.min (piece s) (zlen rest))]
       end),
   mkT0 (t0_app c) (drop (Z.to_nat n) (pending c)) (pending_sw c) 0).
Proof.
  intros Hp Hne n. destruct Hs as (_ & Hpc & _).
  assert (0 < zlen (pending c)) by (destruct (pending c); [done|]; zlen; pose proof (zlen_nonneg l); lia).
  assert (1 <= n <= 256) by lia.
  assert (le_of (resend_with_le (continue s) (cast 8 n)) = n) as Hle.
  { rewrite t0_resend_le by (apply cast_word; lia). unfold cast. destruct (decide (n = 256)) as [->|].
    - done.
    - rewrite Z.mod_small by lia. by rewrite (proj2 (Z.eqb_neq _ _)) by lia. }
  unfold t0_transmit. rewrite is_continue_resend, Hp, Hle. unfold t0_available.
  fold n. rewrite Z.eqb_refl, andb_false_r. unfold t0_deliver, t0_available. fold n. rewrite Z.min_id.
  by destruct (drop (Z.to_nat n) (pending c)).
Qed.

(** What a poll with Le 0 brings once the answer is ready. *)
Lemma t0_poll (c : T0 App) :
  polls c = 0%nat -> exact_le s = false ->
  let m := Z.to_nat (Z.min (piece s) (zlen (pending c))) in
  exists x y, t0_transmit run s (resend_with_le (continue s) 0) c =
    (take m (pending c) ++ [x; y], mkT0 (t0_app c) (drop m (pending c)) (pending_sw c) 0) /\
    match drop m (pending c) with
    | [] => x = (pending_sw c).1 /\ y = (pending_sw c).2
    | rest => x = 0x61 /\ y = cast 8 (Z.min (piece s) (zlen rest))
    end.
Proof.
  intros Hp He m. destruct Hs as (_ & Hpc & _). unfold t0_transmit.
  rewrite is_continue_resend, Hp, He, t0_resend_le by (split; lia). cbn [andb]. change (0 =? 0) with true. cbv iota.
  unfold t0_deliver, t0_available. rewrite Z.min_r by lia. fold m.
  destruct (drop m (pending c)); by eexists _, _.
Qed.
End t0_lemmas.

(** ** What reaches the trace *)

Section lines.
Context {C : Type} (P : list Z -> Prop).

(** [w'] has what [w] has and new lines, all of them [P]. *)
Definition adds (w w' : World C) : Prop :=
  (exists ls, stderr w' = stderr w ++ ls /\ Forall P ls) /\
  match capture w, capture w' with
  | Some b, Some b' => exists ls, b' = b ++ ls /\ Forall P ls
  | None, None => True
  | _, _ => False
  end.
Definition adds_only {E A} (m : io (World C) E A) : Prop := forall w, adds w (m w).2.

Lemma adds_refl (w w' : World C) : capture w' = capture w -> stderr w' = stderr w -> adds w w'.
Proof.
  intros Hc Hs. split; [exists []; by rewrite app_nil_r|]. rewrite Hc. destruct (capture w); [|done].
  exists []. by rewrite app_nil_r.
Qed.

Lemma adds_trans w1 w2 w3 : adds w1 w2 -> adds w2 w3 -> adds w1 w3.
Proof.
  intros [(l1 & E1 & F1) C1] [(l2 & E2 & F2) C2]. split.
  - exists (l1 ++ l2). rewrite E2, E1, <- app_assoc. split; [done|by apply Forall_app].
  - destruct (capture w1), (capture w2), (capture w3); try done.
    destruct C1 as (k1 & -> & G1), C2 as (k2 & -> & G2). exists (k1 ++ k2). rewrite <- app_assoc. split; [done|by apply Forall_app].
Qed.

Lemma adds_bind {E A B} (m : io (World C) E A) (f : A -> io (World C) E B) :
  adds_only m -> (forall a, adds_only (f a)) -> adds_only (m ≫= f).
Proof.
  intros Hm Hf w. pose proof (Hm w) as Hw. unfold mbind, io_bind. destruct (m w) as [[a|e] w']; [|done].
  eapply adds_trans; [exact Hw|apply Hf].
Qed.

Lemma adds_lift {E A} (r : result E A) : adds_only (lift r).
Proof. intros w. by apply adds_refl. Qed.
Lemma adds_ret {E A} (a : A) : adds_only (mret (M := io (World C) E) a).
Proof. intros w. by apply adds_refl. Qed.

Lemma adds_trace {E} (p : bool) (l : list Z) : P l -> adds_only (trace_line (E := E) p l).
Proof.
  intros Hl w. unfold trace_line, emit, capturing. destruct (capture w) as [b|] eqn:Ec, p; cbn;
    (split; [first [exists [l]; by split; [|constructor] | exists []; by rewrite app_nil_r] | rewrite ?Ec; cbn]); try done;
    exists [l]; (split; [done|by constructor]).
Qed.
End lines.

#[export] Hint Resolve adds_bind adds_lift adds_ret adds_trace : kr.
