(* ===== verification/CtapPcsc.v ===== *)
(** keyroost-transport/src/ctap_pcsc.rs: CTAP over a smart-card reader: applet
    selection, command chaining, and draining an answer over GET RESPONSE, wrong
    Le and keep-alives; the reader as an instance of the CTAP transport. *)
From S2P Require Import CtapHid.
From S2P Require Export Pcsc.

Definition FIDO_AID : list Z := [0xA0; 0x00; 0x00; 0x06; 0x47; 0x2F; 0x00; 0x01].
Definition NFCCTAP_CLA : Z := 0x80.
Definition NFCCTAP_INS : Z := 0x10.
Definition CLA_CHAIN : Z := 0x10.
Definition GET_RESPONSE_CLA : Z := 0x00.
Definition GET_RESPONSE_INS : Z := 0xC0.
Definition TRACE_LABEL : list Z := s2b "ctap reader".
Definition SELECT_LABEL : list Z := s2b "ctap reader select".
Definition MAX_SHORT_DATA : nat := 255.
Definition MAX_DATA : Z := 65536.
Definition MAX_ITERS : Z := 4096.

(** [CborError] and [CtapError] as shown to the person. *)
Definition cbor_error_text (e : CborError) : list Z :=
  match e with
  | UnexpectedEnd => s2b "CBOR input ended mid-item"
  | InvalidUtf8 => s2b "CBOR text string was not valid UTF-8"
  | UnsupportedType t => s2b "unsupported CBOR major type " ++ dec t
  | UnsupportedAdditional a => s2b "unsupported CBOR additional info " ++ dec a
  | DepthLimit => s2b "CBOR nesting exceeded depth limit"
  end.
Definition ctap_error_text (e : CtapError) : list Z :=
  match e with
  | EHid e => hid_error_text e
  | ECbor e => cbor_error_text e
  | StatusCode c => status_text c
  | PinChangeRequired => s2b "the key requires a PIN change before this operation"
  | EmptyResponse => s2b "authenticator returned an empty CBOR response"
  | InvalidResponseShape s => s2b "authenticator response had wrong shape: " ++ s
  | InvalidArgument s => s2b "invalid argument: " ++ s
  | EUnsupported s => s2b "the key does not support " ++ s
  | Transport s => s2b "reader transport error: " ++ s
  | EApdu sw1 sw2 => s2b "the card refused the FIDO request (" ++ hex_upper sw1 ++ hex_upper sw2 ++ s2b ")"
  end.

(** [print] is [ctap_trace_enabled()], [world] the card and the trace. *)
Record CtapPcscDevice (C : Type) := mkReader {
  r_world : World (option C); selected_version : list Z; r_print : bool
}.
Arguments mkReader {C} _ _ _.
Arguments r_world {C} _.
Arguments selected_version {C} _.
Arguments r_print {C} _.

Section reader.
Context {C : Type} `{PcscCard C} (windows : bool).
Local Notation device A := (io (CtapPcscDevice C) CtapError A).

Definition on_world (w : World (option C)) (d : CtapPcscDevice C) : CtapPcscDevice C :=
  mkReader w (selected_version d) (r_print d).

(** hid.rs's [trace_line] and [trace_message]. *)
Definition reader_line (line : list Z) : device unit := fun d =>
  let '(r, w) := trace_line (r_print d) line (r_world d) in (r, on_world w d).
Definition trace_message (dir : Dir) (label request body : list Z) : device unit :=
  let sensitive := exchange_is_sensitive CTAPHID_CBOR request in
  reader_line (format_line dir label (s2b "len=" ++ dec (zlen body) ++ [32] ++ trace_payload body sensitive)).

Definition transmit_error (e : PcscError C) : CtapError :=
  if windows && (match pcsc_kind e with NoAccess => true | _ => false end) then
    Transport (s2b "Windows lets only a program running as administrator reach a key's FIDO2 side, through its smart-card reader too")
  else Transport (s2b "APDU transmit failed: " ++ pcsc_text e).

(** [card.transmit] on a connected card. *)
Definition reader_transmit (apdu : list Z) : device (list Z) := fun d =>
  match card (r_world d) with
  | None => (Err (Transport (s2b "card already disconnected")), d)
  | Some c =>
      let '(r, c) := card_transmit apdu c in
      let d := on_world (mkWorld (Some c) (capture (r_world d)) (stderr (r_world d))) d in
      match r with
      | Ok resp => (Ok resp, d)
      | Err e => (_ ← reader_line (format_line Received TRACE_LABEL (s2b "PC/SC error: " ++ pcsc_text e));
                  lift (Err (transmit_error e))) d
      end
  end.

Definition exchange (apdu : list Z) : device (list Z * Z * Z) :=
  resp ← reader_transmit apdu;
  if zlen resp <? 2 then
    lift (Err (Transport (s2b "APDU response too short (" ++ dec (zlen resp) ++ s2b " bytes)")))
  else mret (take (length resp - 2) resp, resp !!! (length resp - 2)%nat, resp !!! (length resp - 1)%nat).

Definition DRAIN_LIMIT : list Z := s2b "APDU continuation exceeded reassembly limits".

(** The loop of [exchange_full]; [fuel] turns at most. *)
Fixpoint drain_loop (fuel : nat) (apdu data : list Z) (sw1 sw2 iterations : Z) : device (list Z * Z * Z) :=
  let again := fun '(data, sw1, sw2) =>
    let iterations := iterations + 1 in
    if (MAX_ITERS <? iterations) || (MAX_DATA <? zlen data) then lift (Err (Transport DRAIN_LIMIT))
    else match fuel with
         | O => lift (Err (Transport DRAIN_LIMIT))
         | S fuel => drain_loop fuel apdu data sw1 sw2 iterations
         end in
  if (sw1 =? 0x90) && (sw2 =? 0x00) then mret (data, sw1, sw2)
  else if sw1 =? 0x61 then
    '(more, s1, s2) ← exchange [GET_RESPONSE_CLA; GET_RESPONSE_INS; 0x00; 0x00; sw2];
    again (data ++ more, s1, s2)
  else if sw1 =? 0x6C then
    let retry := match apdu with [] => [] | _ => take (length apdu - 1) apdu ++ [sw2] end in
    '(data, s1, s2) ← exchange retry;
    again (data, s1, s2)
  else if sw1 =? 0x91 then
    '(more, s1, s2) ← exchange [GET_RESPONSE_CLA; GET_RESPONSE_INS; 0x00; 0x00; 0x00];
    again (data ++ more, s1, s2)
  else mret (data, sw1, sw2).

Definition drain_fuel : nat := Z.to_nat MAX_ITERS.

Definition exchange_full (apdu : list Z) : device (list Z * Z * Z) :=
  '(data, sw1, sw2) ← exchange apdu;
  drain_loop drain_fuel apdu data sw1 sw2 0.

(** The APDU of one piece of a message. *)
Definition piece_apdu (is_last : bool) (chunk : list Z) : list Z :=
  [if is_last then NFCCTAP_CLA else Z.lor NFCCTAP_CLA CLA_CHAIN; NFCCTAP_INS; 0x00; 0x00; cast 8 (zlen chunk)] ++ chunk ++ [0x00].

(** The loop over the pieces; [last] is what is returned when there are none. *)
Fixpoint send_pieces (chunks : list (list Z)) (last : list Z * Z * Z) : device (list Z * Z * Z) :=
  match chunks with
  | [] => mret last
  | [chunk] => exchange_full (piece_apdu true chunk)
  | chunk :: rest =>
      '(_, sw1, sw2) ← exchange (piece_apdu false chunk);
      if negb ((sw1 =? 0x90) && (sw2 =? 0x00)) then
        lift (Err (Transport (s2b "command chaining rejected (SW " ++ hex_upper sw1 ++ hex_upper sw2 ++ s2b ")")))
      else send_pieces rest last
  end.

Definition message_chunks (message : list Z) : list (list Z) :=
  match message with [] => [[]] | _ => chunks MAX_SHORT_DATA message end.

Definition send_ctap_message (message : list Z) : device (list Z) :=
  '(data, sw1, sw2) ← send_pieces (message_chunks message) ([], 0, 0);
  if negb ((sw1 =? 0x90) && (sw2 =? 0x00)) then lift (Err (EApdu sw1 sw2)) else mret data.

Definition select_apdu : list Z := [0x00; 0xA4; 0x04; 0x00; cast 8 (zlen FIDO_AID)] ++ FIDO_AID ++ [0x00].

(** [exchange_full] with its error traced. *)
Definition select_exchange : device (list Z * Z * Z) := fun d =>
  match exchange_full select_apdu d with
  | (Ok r, d) => (Ok r, d)
  | (Err e, d) => (_ ← reader_line (format_line Note SELECT_LABEL (ctap_error_text e)); lift (Err e)) d
  end.

Definition select_fido_applet : device unit :=
  _ ← reader_line (format_line Sent SELECT_LABEL (hexline select_apdu));
  '(data, sw1, sw2) ← select_exchange;
  _ ← reader_line (format_line Received SELECT_LABEL (hexline data ++ [32] ++ hexline [sw1; sw2]));
  if negb ((sw1 =? 0x90) && (sw2 =? 0x00)) then
    lift (Err (Transport (s2b "FIDO applet not present on this card (SELECT -> " ++ hex_upper sw1 ++ hex_upper sw2 ++ s2b ")")))
  else io_modify (fun d => mkReader (r_world d) data (r_print d)).

(** The message sent and its outcome traced. *)
Definition traced_message (payload : list Z) : device (list Z) := fun d =>
  match send_ctap_message payload d with
  | (Ok resp, d) => (_ ← trace_message Received TRACE_LABEL payload resp; mret resp) d
  | (Err e, d) => (_ ← reader_line (format_line Note TRACE_LABEL (ctap_error_text e)); lift (Err e)) d
  end.

(** [CtapTransport::transact]. *)
Definition reader_transact (cmd : Z) (payload : list Z) : device (list Z) :=
  if cmd =? CTAPHID_INIT then mret [] else
  if negb (cmd =? CTAPHID_CBOR) then
    lift (Err (Transport (s2b "CTAP command 0x" ++ hex_upper cmd ++ s2b " is not supported over a smart-card reader")))
  else _ ← trace_message Sent TRACE_LABEL payload payload; traced_message payload.

(** The trait's defaults for the timeout and the cancel flag. *)
#[export] Instance reader_transport : CtapTransport (CtapPcscDevice C) := {|
  Ctap.transact := reader_transact;
  set_timeout := fun _ d => d;
  read_timeout := fun _ => DEFAULT_READ_TIMEOUT;
  set_cancel_flag := fun d => d
|}.

(** [drop]: the card is released. *)
Definition drop_reader (d : CtapPcscDevice C) : CtapPcscDevice C :=
  on_world (mkWorld None (capture (r_world d)) (stderr (r_world d))) d.

Definition selected_u2f (version : list Z) : bool := bool_decide (take 6 version = s2b "U2F_V2").
End reader.

(** [get_info_unless_u2f_only], over any transport. *)
Section info.
Context {D : Type} `{CtapTransport D}.

Definition u2f_refusal (e : CtapError) : bool :=
  match e with
  | EApdu sw1 sw2 => ((sw1 =? 0x6D) || (sw1 =? 0x6E)) && (sw2 =? 0x00)
  | StatusCode c => c =? 0x01
  | _ => false
  end.

Definition info_unless_u2f_only (u2f_selected : bool) : io D CtapError (option AuthenticatorInfo) := fun d =>
  match get_info d with
  | (Ok info, d) => (Ok (Some info), d)
  | (Err e, d) => if u2f_refusal e && u2f_selected then (Ok None, d) else (Err e, d)
  end.
End info.

Definition get_info_unless_u2f_only {C} `{PcscCard C} (windows : bool) :
    io (CtapPcscDevice C) CtapError (option AuthenticatorInfo) := fun d =>
  info_unless_u2f_only (H := reader_transport windows) (selected_u2f (selected_version d)) d.

(** * A reference FIDO card *)

(** An authenticator behind command chaining: what has been chained so far. [handle]
    answers a whole message, asking to be polled some times first. *)
Record FidoApp (A : Type) := mkFido { fido : A; chained : list Z }.
Arguments mkFido {A} _ _.
Arguments fido {A} _.
Arguments chained {A} _.

Definition FIDO_2_0 : list Z := s2b "FIDO_2_0".

Definition fido_run {A} (handle : A -> list Z -> list Z * nat * A) (f : FidoApp A) (cmd : list Z) : Answer * FidoApp A :=
  match strip_le cmd with
  | cla :: ins :: 0 :: 0 :: lc :: data =>
      if bool_decide (cla = 0x90 /\ ins = 0x10) then (answer_ok [], mkFido (fido f) (chained f ++ data))
      else if bool_decide (cla = 0x80 /\ ins = 0x10) then
        let '(resp, k, a) := handle (fido f) (chained f ++ data) in (mkAnswer resp 0x90 0x00 k, mkFido a [])
      else (answer_sw 0x6D 0x00, f)
  | cla :: ins :: 0x04 :: 0 :: lc :: aid =>
      if bool_decide (ins = 0xA4 /\ aid = FIDO_AID) then (answer_ok FIDO_2_0, mkFido (fido f) [])
      else (answer_sw 0x6A 0x82, f)
  | _ => (answer_sw 0x6D 0x00, f)
  end.

(** * Lemmas *)

(** The device with another card. *)
Definition with_card {C} (c : C) (d : CtapPcscDevice C) : CtapPcscDevice C :=
  on_world (mkWorld (Some c) (capture (r_world d)) (stderr (r_world d))) d.

Section steps.
Context {C : Type} `{PcscCard C}.

Lemma exchange_step apdu d c c' data x y :
  forall windows, card (r_world d) = Some c -> card_transmit apdu c = (Ok (data ++ [x; y]), c') ->
  exchange windows apdu d = (Ok (data, x, y), with_card c' d).
Proof.
  intros windows Hc Ht. unfold exchange.
  assert (reader_transmit windows apdu d = (Ok (data ++ [x; y]), with_card c' d)) as E by (unfold reader_transmit; by rewrite Hc, Ht).
  rewrite (io_bind_Ok_eq _ _ _ _ _ E). rewrite (proj2 (Z.ltb_ge _ _)) by (zlen; pose proof (zlen_nonneg data); lia).
  assert (length (data ++ [x; y]) - 2 = length data)%nat as -> by (rewrite length_app; simpl; lia).
  assert (length (data ++ [x; y]) - 1 = S (length data))%nat as -> by (rewrite length_app; simpl; lia).
  rewrite take_app_length, !list_lookup_total_alt, !lookup_app_r, Nat.sub_diag by lia.
  by replace (S (length data) - length data)%nat with 1%nat by lia.
Qed.

Lemma with_card_twice (c c' : C) d : with_card c (with_card c' d) = with_card c d.
Proof. done. Qed.

Lemma reader_line_eq line (d : CtapPcscDevice C) c :
  card (r_world d) = Some c -> exists d', reader_line line d = (Ok tt, d') /\ card (r_world d') = Some c /\ selected_version d' = selected_version d.
Proof. intros Hc. unfold reader_line, trace_line. destruct (emit _ _ _) as [p cap]. eexists. by split. Qed.
End steps.

Section fido.
Context {A : Type} (handle : A -> list Z -> list Z * nat * A) (s : T0Style) (Hs : style_ok s) (windows : bool).
Context (Hcont : continue s = [GET_RESPONSE_CLA; GET_RESPONSE_INS; 0; 0; 0]).
#[local] Instance fido_inst : PcscCard (T0 (FidoApp A)) := t0_card (fido_run handle) s.
Local Notation device := (CtapPcscDevice (T0 (FidoApp A))).

Lemma fido_transmit cmd (c c' : T0 (FidoApp A)) r :
  t0_transmit (fido_run handle) s cmd c = (r, c') -> card_transmit cmd c = (Ok r, c').
Proof. intros Ht. cbn [card_transmit fido_inst t0_card]. by rewrite Ht. Qed.

Lemma get_response_le n : resend_with_le (continue s) n = [GET_RESPONSE_CLA; GET_RESPONSE_INS; 0; 0; n].
Proof. by rewrite Hcont. Qed.

(** Draining what the card holds after 61xx, at most [k] pieces of it. *)
Lemma drain_pending k fuel apdu data it (d : device) c :
  card (r_world d) = Some c -> polls c = 0%nat -> pending c <> [] -> pending_sw c = (0x90, 0x00) ->
  zlen (pending c) <= Z.of_nat k * piece s -> (k <= fuel)%nat -> it + Z.of_nat k <= MAX_ITERS ->
  zlen data + zlen (pending c) <= MAX_DATA ->
  drain_loop windows fuel apdu data 0x61 (cast 8 (Z.min (piece s) (zlen (pending c)))) it d =
  (Ok (data ++ pending c, 0x90, 0x00), with_card (mkT0 (t0_app c) [] (0x90, 0x00) 0) d).
Proof.
  revert fuel data it d c. induction k as [|k IH]; intros fuel data it d c Hc Hp Hne Hsw Hk Hf Hit Hd.
  { destruct (pending c); [done|]. zlen. pose proof (zlen_nonneg l). lia. }
  destruct fuel as [|fuel]; [lia|].
  pose proof (fido_transmit _ _ _ _ (t0_piece (fido_run handle) s Hs c Hp Hne)) as Ht. rewrite get_response_le in Ht.
  pose proof Hs as (_ & Hpc & _).
  set (m := Z.to_nat (Z.min (piece s) (zlen (pending c)))) in *. pose proof (zlen_nonneg (pending c)).
  assert (zlen (drop m (pending c)) = Z.max 0 (zlen (pending c) - piece s)) as Hdl by (zlen; unfold m; lia).
  pose proof (take_drop m (pending c)) as Htd. rewrite Hsw in Ht. cbn [fst snd] in Ht.
  assert (zlen (take m (pending c)) <= zlen (pending c)) as Htk by (zlen; lia).
  cbn [drain_loop]. change ((0x61 =? 0x90) && (cast 8 (Z.min (piece s) (zlen (pending c))) =? 0x00)) with false.
  change (0x61 =? 0x61) with true. cbv iota.
  destruct (drop m (pending c)) as [|b rest] eqn:Hdr.
  - rewrite (io_bind_Ok_eq _ _ _ _ _ (exchange_step _ d c _ _ _ _ windows Hc Ht)). cbv beta iota zeta.
    rewrite (proj2 (Z.ltb_ge _ _)) by lia. rewrite (proj2 (Z.ltb_ge _ _)) by (rewrite zlen_app; lia). cbn [orb].
    rewrite app_nil_r in Htd. rewrite Htd. by destruct fuel.
  - rewrite (io_bind_Ok_eq _ _ _ _ _ (exchange_step _ d c _ _ _ _ windows Hc Ht)). cbv beta iota zeta.
    rewrite (proj2 (Z.ltb_ge _ _)) by lia. rewrite (proj2 (Z.ltb_ge _ _)) by (rewrite zlen_app; lia). cbn [orb].
    assert (zlen (take m (pending c)) + zlen (b :: rest) = zlen (pending c)) as Hsum by (rewrite <- zlen_app; by rewrite Htd).
    rewrite (IH fuel _ _ _ (mkT0 (t0_app c) (b :: rest) (0x90, 0x00) 0)); cbn [polls pending pending_sw t0_app]; try done; try lia.
    + rewrite <- app_assoc, Htd. done.
    + rewrite zlen_app. lia.
Qed.
(** A piece's worth of GET RESPONSE exchanges is enough for what is pending. *)
Lemma pieces_enough n : 0 <= n -> n <= Z.of_nat (Z.to_nat (pieces s n)) * piece s.
Proof. destruct Hs as (_ & Hp & _). intros Hn. unfold pieces. rewrite Z2Nat.id by (apply Z.div_pos; lia). lia_div. Qed.

Lemma drain_poll apdu data it fuel (d : device) c j :
  card (r_world d) = Some c -> polls c = S j -> it + 1 <= MAX_ITERS -> zlen data <= MAX_DATA ->
  drain_loop windows (S fuel) apdu data 0x91 0x00 it d =
  drain_loop windows fuel apdu data 0x91 0x00 (it + 1) (with_card (mkT0 (t0_app c) (pending c) (pending_sw c) j) d).
Proof.
  intros Hc Hp Hi Hd. cbn [drain_loop]. change ((0x91 =? 0x90) && (0x00 =? 0x00)) with false.
  change (0x91 =? 0x61) with false. change (0x91 =? 0x6C) with false. change (0x91 =? 0x91) with true. cbv iota.
  assert (t0_transmit (fido_run handle) s [GET_RESPONSE_CLA; GET_RESPONSE_INS; 0; 0; 0] c =
    ([] ++ [0x91; 0x00], mkT0 (t0_app c) (pending c) (pending_sw c) j)) as Ht.
  { unfold t0_transmit, is_continue. rewrite Hcont, bool_decide_true by done. by rewrite Hp. }
  rewrite (io_bind_Ok_eq _ _ _ _ _ (exchange_step _ d c _ _ _ _ windows Hc (fido_transmit _ _ _ _ Ht))). cbv beta iota zeta.
  rewrite app_nil_r. rewrite (proj2 (Z.ltb_ge _ _)) by lia. by rewrite (proj2 (Z.ltb_ge _ _)) by lia.
Qed.

(** Waiting out the keep-alives, then draining what was prepared. *)
Lemma drain_polls j fuel apdu it (d : device) c :
  card (r_world d) = Some c -> exact_le s = false -> polls c = j -> pending_sw c = (0x90, 0x00) ->
  (j + 1 + Z.to_nat (pieces s (zlen (pending c))) <= fuel)%nat -> it + Z.of_nat fuel <= MAX_ITERS ->
  zlen (pending c) <= MAX_DATA ->
  drain_loop windows fuel apdu [] 0x91 0x00 it d =
  (Ok (pending c, 0x90, 0x00), with_card (mkT0 (t0_app c) [] (0x90, 0x00) 0) d).
Proof.
  revert fuel it d c. induction j as [|j IH]; intros fuel it d c Hc Hex Hp Hsw Hf Hit Hd; (destruct fuel as [|fuel]; [lia|]).
  2:{ rewrite (drain_poll apdu [] it fuel d c j) by (done || lia).
      by rewrite (IH fuel (it + 1) _ (mkT0 (t0_app c) (pending c) (pending_sw c) j)) by (done || (cbn [pending polls]; lia)). }
  cbn [drain_loop]. change ((0x91 =? 0x90) && (0x00 =? 0x00)) with false.
  change (0x91 =? 0x61) with false. change (0x91 =? 0x6C) with false. change (0x91 =? 0x91) with true. cbv iota.
  destruct (t0_poll (fido_run handle) s Hs c Hp Hex) as (x & y & Ht & Hxy). rewrite get_response_le in Ht.
  rewrite (io_bind_Ok_eq _ _ _ _ _ (exchange_step _ d c _ _ _ _ windows Hc (fido_transmit _ _ _ _ Ht))). cbv beta iota zeta.
  cbn [app]. set (m := Z.to_nat (Z.min (piece s) (zlen (pending c)))) in *.
  assert (zlen (take m (pending c)) <= zlen (pending c)) as Htk by (zlen; lia).
  rewrite (proj2 (Z.ltb_ge _ _)) by lia. rewrite (proj2 (Z.ltb_ge _ _)) by lia. cbn [orb].
  pose proof (take_drop m (pending c)) as Htd. destruct (drop m (pending c)) as [|b rest] eqn:Hdr; destruct Hxy as [-> ->].
  - rewrite app_nil_r in Htd. rewrite Htd, Hsw. by destruct fuel.
  - assert (zlen (take m (pending c)) + zlen (b :: rest) = zlen (pending c)) as Hsum by (rewrite <- zlen_app; by rewrite Htd).
    assert (0 <= zlen (pending c)) as H0 by apply zlen_nonneg. pose proof (pieces_enough _ H0).
    pose proof (zlen_nonneg (take m (pending c))).
    rewrite (drain_pending (Z.to_nat (pieces s (zlen (pending c)))) fuel _ _ _ _
      (mkT0 (t0_app c) (b :: rest) (pending_sw c) 0)); cbn [polls pending pending_sw t0_app]; try done; try lia.
    by rewrite Htd.
Qed.

Definition piece_cla (is_last : bool) : Z := if is_last then NFCCTAP_CLA else Z.lor NFCCTAP_CLA CLA_CHAIN.
Definition piece_case (is_last : bool) (chunk : list Z) (le : Z) : short_apdu :=
  Case4 (piece_cla is_last) NFCCTAP_INS 0 0 chunk le.

Lemma piece_apdu_eq is_last chunk : 1 <= zlen chunk <= 255 -> piece_apdu is_last chunk = apdu_bytes (piece_case is_last chunk 0).
Proof. intros H. unfold piece_apdu, piece_case, cast, NFCCTAP_INS. cbn [apdu_bytes]. by rewrite Z.mod_small by lia. Qed.

(** The applet takes a piece for the same whatever its Le. *)
Lemma fido_piece is_last chunk le f :
  1 <= zlen chunk <= 255 ->
  fido_run handle f (apdu_bytes (piece_case is_last chunk le)) =
  if is_last then
    let '(resp, k, a) := handle (fido f) (chained f ++ chunk) in (mkAnswer resp 0x90 0x00 k, mkFido a [])
  else (answer_ok [], mkFido (fido f) (chained f ++ chunk)).
Proof.
  intros Hl. unfold fido_run. rewrite (strip_le_bytes (piece_case is_last chunk le)) by exact Hl. by destruct is_last.
Qed.

Lemma piece_not_continue is_last chunk le : is_continue s (apdu_bytes (piece_case is_last chunk le)) = false.
Proof. unfold is_continue. rewrite Hcont. by destruct is_last. Qed.

(** A piece before the last: taken, nothing answered. *)
Lemma piece_taken chunk (d : device) c :
  card (r_world d) = Some c -> 1 <= zlen chunk <= 255 ->
  exchange windows (piece_apdu false chunk) d =
  (Ok ([], 0x90, 0x00), with_card (mkT0 (mkFido (fido (t0_app c)) (chained (t0_app c) ++ chunk)) [] (0x90, 0x00) 0) d).
Proof.
  intros Hc Hl. apply exchange_step with (c := c); [done|]. rewrite piece_apdu_eq by done. apply fido_transmit.
  unfold t0_transmit. rewrite piece_not_continue, fido_piece by done. cbn [answer_ok a_polls a_data a_sw1 a_sw2].
  pose proof Hs as (_ & _ & Hi & _). rewrite (proj2 (Z.leb_le _ _)) by (zlen; lia).
  by change (0 <? zlen []) with false; rewrite andb_false_r.
Qed.

(** What the card makes of the last piece. *)
Lemma last_piece chunk le c resp k a :
  1 <= zlen chunk <= 255 -> handle (fido (t0_app c)) (chained (t0_app c) ++ chunk) = (resp, k, a) ->
  t0_transmit (fido_run handle) s (apdu_bytes (piece_case true chunk le)) c =
  match k with
  | S k => ([] ++ [0x91; 0x00], mkT0 (mkFido a []) resp (0x90, 0x00) k)
  | O =>
      if zlen resp <=? inline s then
        if exact_le s && (0 <? zlen resp) && negb ((if le =? 0 then 256 else le) =? zlen resp) then ([] ++ [0x6C; cast 8 (zlen resp)], c)
        else (resp ++ [0x90; 0x00], mkT0 (mkFido a []) [] (0x90, 0x00) 0)
      else (take (Z.to_nat (first s)) resp ++ [0x61; cast 8 (Z.min (piece s) (zlen resp - first s))],
            mkT0 (mkFido a []) (drop (Z.to_nat (first s)) resp) (0x90, 0x00) 0)
  end.
Proof.
  intros Hl Hh. unfold t0_transmit. rewrite piece_not_continue, fido_piece, Hh by done. cbn [a_polls a_data a_sw1 a_sw2].
  assert (ends_in_le (apdu_bytes (piece_case true chunk le)) = true) as ->.
  { apply (ends_in_le_short _ _ _ _ chunk [le]); [lia|by zlen]. }
  assert (le_of (apdu_bytes (piece_case true chunk le)) = if le =? 0 then 256 else le) as ->.
  { unfold le_of, piece_case. cbn [apdu_bytes]. by rewrite app_assoc, last_last. }
  by rewrite andb_true_r.
Qed.

Lemma retry_apdu chunk le n : 1 <= zlen chunk <= 255 ->
  let apdu := apdu_bytes (piece_case true chunk le) in
  match apdu with [] => [] | _ => take (length apdu - 1) apdu ++ [n] end =
  apdu_bytes (piece_case true chunk n).
Proof.
  intros Hl apdu. change (piece_case true chunk n) with (with_le (piece_case true chunk le) n).
  rewrite <- resend_apdu by exact Hl. unfold resend_with_le.
  assert (ends_in_le (apdu_bytes (piece_case true chunk le)) = true) as -> by (apply (ends_in_le_short _ _ _ _ chunk [le]); [lia|by zlen]).
  done.
Qed.

Lemma full_step apdu (d : device) c c' data x y :
  card (r_world d) = Some c -> card_transmit apdu c = (Ok (data ++ [x; y]), c') ->
  exchange_full windows apdu d = drain_loop windows drain_fuel apdu data x y 0 (with_card c' d).
Proof. intros Hc Ht. unfold exchange_full. by rewrite (io_bind_Ok_eq _ _ _ _ _ (exchange_step _ d c _ _ _ _ windows Hc Ht)). Qed.

(** The retry a wrong Le asks for. *)
Lemma wrong_le_retry fuel chunk (d : device) c resp a :
  card (r_world d) = Some c -> 1 <= zlen chunk <= 255 ->
  handle (fido (t0_app c)) (chained (t0_app c) ++ chunk) = (resp, 0%nat, a) -> 0 < zlen resp <= inline s ->
  drain_loop windows (S fuel) (apdu_bytes (piece_case true chunk 0)) [] 0x6C (cast 8 (zlen resp)) 0 d =
  (Ok (resp, 0x90, 0x00), with_card (mkT0 (mkFido a []) [] (0x90, 0x00) 0) d).
Proof.
  intros Hc Hl Hh Hn. pose proof Hs as (_ & _ & _ & Hi). cbn [drain_loop].
  change ((0x6C =? 0x90) && (cast 8 (zlen resp) =? 0x00)) with false.
  change (0x6C =? 0x61) with false. change (0x6C =? 0x6C) with true. cbv iota zeta. rewrite retry_apdu by done.
  pose proof (last_piece chunk (cast 8 (zlen resp)) c resp 0 a Hl Hh) as Ht. rewrite (proj2 (Z.leb_le _ _)) in Ht by lia.
  assert ((if cast 8 (zlen resp) =? 0 then 256 else cast 8 (zlen resp)) = zlen resp) as Hle.
  { unfold cast. destruct (decide (zlen resp = 256)) as [->|]; [done|]. rewrite Z.mod_small by lia.
    by rewrite (proj2 (Z.eqb_neq _ _)) by lia. }
  rewrite Hle, Z.eqb_refl, andb_false_r in Ht.
  rewrite (io_bind_Ok_eq _ _ _ _ _ (exchange_step _ d c _ _ _ _ windows Hc (fido_transmit _ _ _ _ Ht))). cbv beta iota zeta.
  rewrite (proj2 (Z.ltb_ge _ _)) by (unfold MAX_ITERS; lia). rewrite (proj2 (Z.ltb_ge _ _)) by (unfold MAX_DATA; lia).
  by destruct fuel.
Qed.

(** The last piece: the whole answer, however the card delivers it. *)
Lemma piece_answered chunk (d : device) c resp k a :
  card (r_world d) = Some c -> 1 <= zlen chunk <= 255 ->
  handle (fido (t0_app c)) (chained (t0_app c) ++ chunk) = (resp, k, a) ->
  exact_le s = false \/ k = 0%nat -> zlen resp <= MAX_DATA -> Z.of_nat k + pieces s (zlen resp) < MAX_ITERS ->
  exchange_full windows (piece_apdu true chunk) d =
  (Ok (resp, 0x90, 0x00), with_card (mkT0 (mkFido a []) [] (0x90, 0x00) 0) d).
Proof.
  intros Hc Hl Hh Hk Hd Hn. pose proof Hs as (_ & Hp & Hf & Hi). pose proof (zlen_nonneg resp) as H0.
  assert (0 <= pieces s (zlen resp)) by (apply Z.div_pos; lia).
  rewrite piece_apdu_eq by done. pose proof (last_piece chunk 0 c resp k a Hl Hh) as Ht.
  change (if 0 =? 0 then 256 else 0) with 256 in Ht. destruct k as [|k]; [destruct (zlen resp <=? inline s) eqn:Hin|]; bools.
  - destruct (exact_le s && (0 <? zlen resp) && negb (256 =? zlen resp)) eqn:Hx; bools;
      rewrite (full_step _ d c _ _ _ _ Hc (fido_transmit _ _ _ _ Ht)); [|done].
    change drain_fuel with (S (pred drain_fuel)). by rewrite (wrong_le_retry _ chunk _ c resp a) by (done || lia).
  - rewrite (full_step _ d c _ _ _ _ Hc (fido_transmit _ _ _ _ Ht)).
    set (m := Z.to_nat (first s)) in *.
    assert (zlen (drop m resp) = zlen resp - first s) as Hdl by (zlen; unfold m; lia).
    assert (zlen (take m resp) = first s) as Htl by (zlen; unfold m; lia). rewrite <- Hdl.
    pose proof (pieces_enough _ H0).
    rewrite (drain_pending (Z.to_nat (pieces s (zlen resp))) _ _ _ _ _ (mkT0 (mkFido a []) (drop m resp) (0x90, 0x00) 0));
      cbn [polls pending pending_sw t0_app]; try done; unfold drain_fuel; try lia.
    + by rewrite take_drop.
    + intros E. rewrite E in Hdl. change (zlen []) with 0 in Hdl. lia.
  - destruct Hk as [Hex|]; [|done]. rewrite (full_step _ d c _ _ _ _ Hc (fido_transmit _ _ _ _ Ht)).
    rewrite (drain_polls k _ _ 0 _ (mkT0 (mkFido a []) resp (0x90, 0x00) k)); try done; cbn [pending]; unfold drain_fuel; lia.
Qed.

(** The whole message, in any cut into pieces of a short APDU each. *)
Lemma pieces_answered cs l (d : device) c resp k a :
  card (r_world d) = Some c -> cs <> [] -> Forall (fun p => 1 <= zlen p <= 255) cs ->
  handle (fido (t0_app c)) (chained (t0_app c) ++ concat cs) = (resp, k, a) ->
  exact_le s = false \/ k = 0%nat -> zlen resp <= MAX_DATA -> Z.of_nat k + pieces s (zlen resp) < MAX_ITERS ->
  send_pieces windows cs l d = (Ok (resp, 0x90, 0x00), with_card (mkT0 (mkFido a []) [] (0x90, 0x00) 0) d).
Proof.
  intros Hc Hne Hcs. revert d c Hc. induction Hcs as [|p cs Hp Hcs IH]; intros d c Hc Hh Hk Hd Hn; [done|].
  destruct cs as [|q cs].
  - cbn [send_pieces]. cbn [concat] in Hh. rewrite app_nil_r in Hh. by apply (piece_answered p d c) with (k := k).
  - cbn [send_pieces]. rewrite (io_bind_Ok_eq _ _ _ _ _ (piece_taken p d c Hc Hp)). cbv beta iota zeta.
    change (negb ((0x90 =? 0x90) && (0x00 =? 0x00))) with false. cbv iota.
    erewrite IH; try done. cbn [t0_app fido chained]. by rewrite <- app_assoc.
Qed.

Lemma message_answered m (d : device) c resp k a :
  card (r_world d) = Some c -> m <> [] -> chained (t0_app c) = [] -> handle (fido (t0_app c)) m = (resp, k, a) ->
  exact_le s = false \/ k = 0%nat -> zlen resp <= MAX_DATA -> Z.of_nat k + pieces s (zlen resp) < MAX_ITERS ->
  send_ctap_message windows m d = (Ok resp, with_card (mkT0 (mkFido a []) [] (0x90, 0x00) 0) d).
Proof.
  intros Hc Hm Hch Hh Hk Hd Hn. unfold send_ctap_message.
  assert (message_chunks m = chunks MAX_SHORT_DATA m) as -> by (by destruct m).
  assert (chunks MAX_SHORT_DATA m <> []) as Hne by (intros E; rewrite chunks_unfold in E by (done || (unfold MAX_SHORT_DATA; lia)); done).
  assert (Forall (fun p => 1 <= zlen p <= 255) (chunks MAX_SHORT_DATA m)) as Hcs.
  { eapply list.Forall_impl; [apply (chunks_bounded MAX_SHORT_DATA m); unfold MAX_SHORT_DATA; lia|]. intros p [Hp Hl].
    unfold MAX_SHORT_DATA in Hl. unfold zlen. destruct p; [done|]. cbn [length] in *. lia. }
  rewrite <- (concat_chunks MAX_SHORT_DATA m) in Hh by (unfold MAX_SHORT_DATA; lia).
  rewrite <- (app_nil_l (concat _)), <- Hch in Hh.
  by rewrite (io_bind_Ok_eq _ _ _ _ _ (pieces_answered _ ([], 0, 0) d c resp k a Hc Hne Hcs Hh Hk Hd Hn)).
Qed.
End fido.

(** * A card that never stops answering *)

(** Any card, with the number of APDUs it has been sent. *)
Definition counted {C} (H : PcscCard C) : PcscCard (C * nat) := {|
  PcscError := PcscError C;
  pcsc_kind := pcsc_kind;
  pcsc_text := pcsc_text;
  card_transmit := fun apdu '(c, n) => let '(r, c) := card_transmit apdu c in (r, (c, S n))
|}.

Definition calls {C} (d : CtapPcscDevice (C * nat)) : Z :=
  match card (r_world d) with Some (_, n) => Z.of_nat n | None => 0 end.

Section bounded.
Context {C : Type} {H : PcscCard C} (windows : bool).
#[local] Instance counted_inst : PcscCard (C * nat) := counted H.

Lemma reader_line_calls line (d : CtapPcscDevice (C * nat)) : exists d', reader_line line d = (Ok tt, d') /\ calls d' = calls d.
Proof. unfold reader_line, trace_line. destruct (emit _ _ _) as [p cap]. by eexists. Qed.

Lemma exchange_calls apdu (d : CtapPcscDevice (C * nat)) : calls (exchange windows apdu d).2 <= calls d + 1.
Proof.
  assert (calls (reader_transmit windows apdu d).2 <= calls d + 1) as Ht.
  { unfold reader_transmit, calls at 2. destruct (card (r_world d)) as [[c n]|] eqn:Hc; [|unfold calls; cbn; rewrite Hc; lia].
    cbn [card_transmit counted_inst counted]. destruct (card_transmit apdu c) as [[resp|e] c'].
    - unfold calls. cbn. lia.
    - set (d1 := on_world _ d).
      destruct (reader_line_calls (format_line Received TRACE_LABEL (s2b "PC/SC error: " ++ pcsc_text e)) d1) as (d' & El & Ec).
      rewrite (io_bind_Ok_eq _ _ _ _ _ El). cbn [snd lift]. rewrite Ec. unfold d1, calls. cbn. lia. }
  unfold exchange. destruct (reader_transmit windows apdu d) as [[resp|e] d'] eqn:E.
  - rewrite (io_bind_Ok_eq _ _ _ _ _ E). by destruct (zlen resp <? 2).
  - by rewrite (io_bind_Err_eq _ _ _ _ _ E).
Qed.

Definition within (n : Z) (data : list Z) (d : CtapPcscDevice (C * nat))
    (o : result CtapError (list Z * Z * Z) * CtapPcscDevice (C * nat)) : Prop :=
  calls o.2 <= calls d + n /\
  match o.1 with Ok (out, _, _) => out = data \/ zlen out <= MAX_DATA | Err _ => True end.

(** One turn is an exchange; after it the limits are looked at. *)
Lemma turn_bounded a (g : list Z -> list Z) it n next data (d : CtapPcscDevice (C * nat)) :
  0 <= n -> (forall data x y d, within n data d (next data x y d)) ->
  within (n + 1) data d
    (('(more, s1, s2) ← exchange windows a;
      if (MAX_ITERS <? it + 1) || (MAX_DATA <? zlen (g more)) then lift (Err (Transport DRAIN_LIMIT)) else next (g more) s1 s2) d).
Proof.
  intros H0 Hn. pose proof (exchange_calls a d) as He. destruct (exchange windows a d) as [[[[more x] y]|e] d'] eqn:E; cbn [snd] in He.
  - rewrite (io_bind_Ok_eq _ _ _ _ _ E). cbv beta iota zeta. destruct (_ || _) eqn:Hl; [split; [cbn; lia|done]|].
    bools. destruct (Hn (g more) x y d') as [Hc Ho]. split; [lia|].
    destruct (next (g more) x y d') as [[[[out z] w]|e] d'']; [|done]. cbn in *. right. destruct Ho as [->|]; lia.
  - rewrite (io_bind_Err_eq _ _ _ _ _ E). split; [cbn; lia|done].
Qed.

Lemma drain_loop_bounded fuel apdu data x y it (d : CtapPcscDevice (C * nat)) :
  within (Z.of_nat fuel + 1) data d (drain_loop windows fuel apdu data x y it d).
Proof.
  revert data x y it d. induction fuel as [|fuel IH]; intros data x y it d; cbn [drain_loop].
  - assert (forall (a data : list Z) (x y : Z) (d : CtapPcscDevice (C * nat)), within 0 data d (lift (Err (Transport DRAIN_LIMIT)) d)) as Hn
      by (intros; split; [cbn; lia|done]).
    destruct (_ && _); [split; [cbn; lia|by left]|].
    destruct (x =? 0x61); [apply (turn_bounded _ (fun more => data ++ more) it 0 (fun _ _ _ => lift (Err (Transport DRAIN_LIMIT)))); [lia|auto]|].
    destruct (x =? 0x6C); [apply (turn_bounded _ (fun more => more) it 0 (fun _ _ _ => lift (Err (Transport DRAIN_LIMIT)))); [lia|auto]|].
    destruct (x =? 0x91); [apply (turn_bounded _ (fun more => data ++ more) it 0 (fun _ _ _ => lift (Err (Transport DRAIN_LIMIT)))); [lia|auto]|].
    split; [cbn; lia|by left].
  - rewrite Nat2Z.inj_succ. unfold Z.succ. destruct (_ && _); [split; [cbn; lia|by left]|].
    destruct (x =? 0x61); [apply (turn_bounded _ (fun more => data ++ more) it _ (fun data x y => drain_loop windows fuel apdu data x y (it + 1))); [lia|auto]|].
    destruct (x =? 0x6C); [apply (turn_bounded _ (fun more => more) it _ (fun data x y => drain_loop windows fuel apdu data x y (it + 1))); [lia|auto]|].
    destruct (x =? 0x91); [apply (turn_bounded _ (fun more => data ++ more) it _ (fun data x y => drain_loop windows fuel apdu data x y (it + 1))); [lia|auto]|].
    split; [cbn; lia|by left].
Qed.
End bounded.

(** The turns are counted out before the fuel is: more of it changes nothing. *)
Lemma drain_loop_fuel {C} `{PcscCard C} windows f1 f2 apdu data x y it (d : CtapPcscDevice C) :
  MAX_ITERS <= it + Z.of_nat f1 -> MAX_ITERS <= it + Z.of_nat f2 ->
  drain_loop windows f1 apdu data x y it d = drain_loop windows f2 apdu data x y it d.
Proof.
  revert f2 data x y it d. induction f1 as [|f1 IH]; intros [|f2] data x y it d H1 H2; [done|..];
    cbn [drain_loop]; (destruct (_ && _); [done|]); repeat case_match; try done;
    (match goal with |- (exchange _ ?a ≫= _) _ = _ => destruct (exchange windows a d) as [[[[more u] v]|e] d'] eqn:E;
      [rewrite !(io_bind_Ok_eq _ _ _ _ _ E)|by rewrite !(io_bind_Err_eq _ _ _ _ _ E)] end); cbv beta iota zeta;
    (destruct (_ || _) eqn:Hl; [done|]); bools; (lia || apply IH; lia).
Qed.

(** * Properties *)

(** C36: a CTAP message of any length sent to a smart-card reader reaches the
    authenticator once, whole, and its answer comes back whole. The message may
    be cut into any number of chained APDUs. The card may deliver the answer at
    once or in pieces over GET RESPONSE (class 0x00) of any size, with keep-alives first
    (exact Le not asked for), or may ask for the exact Le (no keep-alives). A
    card that does both, keep-alives before this answer and a wrong Le refused
    with 6Cxx, is excluded: its 6Cxx answers a GET RESPONSE, and the code then sends
    the command itself again ([reader_wrong_le_reruns]). The answer is at most
    64 KiB, and keep-alives and pieces together stay under the loop's 4096
    turns; the card starts with no half-sent chain. *)
Theorem ctap_reader_roundtrip {A} (handle : A -> list Z -> list Z * nat * A) s windows m
    (d : CtapPcscDevice (T0 (FidoApp A))) c resp k a :
  style_ok s -> continue s = [GET_RESPONSE_CLA; GET_RESPONSE_INS; 0; 0; 0] ->
  card (r_world d) = Some c -> m <> [] -> chained (t0_app c) = [] -> handle (fido (t0_app c)) m = (resp, k, a) ->
  exact_le s = false \/ k = 0%nat -> zlen resp <= MAX_DATA -> Z.of_nat k + pieces s (zlen resp) < MAX_ITERS ->
  exists d', reader_transact (H := t0_card (fido_run handle) s) windows CTAPHID_CBOR m d = (Ok resp, d') /\
    card (r_world d') = Some (mkT0 (mkFido a []) [] (0x90, 0x00) 0) /\ selected_version d' = selected_version d.
Proof.
  intros Hs Hcont Hc Hm Hch Hh Hk Hd Hn. unfold reader_transact. change (CTAPHID_CBOR =? CTAPHID_INIT) with false.
  change (CTAPHID_CBOR =? CTAPHID_CBOR) with true. cbn [negb].
  unfold trace_message.
  match goal with |- context [reader_line ?l] => destruct (reader_line_eq l d c Hc) as (d1 & E1 & Hc1 & Hv1) end.
  rewrite (io_bind_Ok_eq _ _ _ _ _ E1).
  pose proof (message_answered handle s Hs windows Hcont m d1 c resp k a Hc1 Hm Hch Hh Hk Hd Hn) as Hmsg. unfold fido_inst in Hmsg.
  unfold traced_message. rewrite Hmsg.
  unfold trace_message. set (d2 := with_card _ d1).
  match goal with |- context [reader_line ?l] => destruct (reader_line_eq l d2 _ eq_refl) as (d3 & E3 & Hc3 & Hv3) end.
  rewrite (io_bind_Ok_eq _ _ _ _ _ E3). exists d3. split_and!; [done..|]. by rewrite Hv3.
Qed.

(** An authenticator that answers a message with its length and three copies of
    it after two keep-alives, and counts what it has done. *)
Definition echo_style (exact : bool) : T0Style := mkStyle [0x00; 0xC0; 0; 0; 0] 100 8 0 exact.
Definition echo_handle (k : nat) (n : Z) (m : list Z) : list Z * nat * Z := (zlen m :: m ++ m ++ m, k, n + 1).
Definition echo_reader : CtapPcscDevice (T0 (FidoApp Z)) :=
  mkReader (mkWorld (Some (mkT0 (mkFido 0 []) [] (0x90, 0x00) 0)) None []) FIDO_2_0 false.

Lemma ctap_reader_roundtrip_witness :
  exists d', reader_transact (H := t0_card (fido_run (echo_handle 2)) (echo_style false)) true CTAPHID_CBOR (repeat 7 300) echo_reader =
    (Ok (300 :: repeat 7 900), d') /\
    card (r_world d') = Some (mkT0 (mkFido 1 []) [] (0x90, 0x00) 0) /\ selected_version d' = FIDO_2_0.
Proof.
  apply (ctap_reader_roundtrip (echo_handle 2) (echo_style false) true (repeat 7 300) echo_reader
    (mkT0 (mkFido 0 []) [] (0x90, 0x00) 0) (300 :: repeat 7 900) 2 1);
    first [reflexivity | by left | vm_compute; (reflexivity || congruence) | unfold style_ok; split_and!; simpl; lia | done].
Defined.

(** The same run, evaluated. *)
Example echo_run :
  (reader_transact (H := t0_card (fido_run (echo_handle 2)) (echo_style false)) true CTAPHID_CBOR (repeat 7 300) echo_reader).1 =
  Ok (300 :: repeat 7 900).
Proof. vm_compute. reflexivity. Qed.

(** A card cannot keep the loop turning. Whatever any card answers to a
    request, [exchange_full] sends at most 4098 APDUs, what it hands on is the
    first answer or at most 64 KiB, and the turns are bounded by the code's own
    count: a loop allowed to run longer does exactly the same. *)
Theorem reader_drain_bounded {C} {H : PcscCard C} windows apdu fuel (d : CtapPcscDevice (C * nat)) :
  let dev := counted H in
  let '(r, d') := exchange_full windows apdu d in
  calls d' <= calls d + MAX_ITERS + 2 /\
  match r with
  | Ok (out, _, _) => zlen out <= MAX_DATA \/ exists x y, (exchange windows apdu d).1 = Ok (out, x, y)
  | Err _ => True
  end /\
  ((drain_fuel <= fuel)%nat ->
   ('(data, sw1, sw2) ← exchange windows apdu; drain_loop windows fuel apdu data sw1 sw2 0) d = exchange_full windows apdu d).
Proof.
  intros dev. pose proof (exchange_calls windows apdu d) as He. unfold exchange_full. subst dev.
  destruct (exchange windows apdu d) as [[[[data x] y]|e] d1] eqn:E; cbn [snd] in He.
  - rewrite !(io_bind_Ok_eq _ _ _ _ _ E). pose proof (drain_loop_bounded windows drain_fuel apdu data x y 0 d1) as [Hc Ho].
    destruct (drain_loop _ _ _ _ _ _ _ d1) as [r d2] eqn:Ed. cbn [fst snd] in Hc, Ho. unfold drain_fuel in Hc.
    split_and!; [unfold MAX_ITERS in *; lia| |].
    + destruct r as [[[out u] v]|]; [|done]. destruct Ho as [->|]; [right|by left]. by exists x, y.
    + intros Hf. rewrite <- Ed. apply drain_loop_fuel; unfold drain_fuel, MAX_ITERS in *; lia.
  - rewrite !(io_bind_Err_eq _ _ _ _ _ E). split_and!; [unfold MAX_ITERS; lia|done..].
Qed.

(** [exchange_full] answers a wrong-Le status to GET RESPONSE by sending the
    command again, not GET RESPONSE: a card that prepares its answer first and
    is exact about Le runs the command until the limits stop the loop. *)
Lemma reader_wrong_le_reruns :
  let '(r, d) := reader_transact (H := t0_card (fido_run (echo_handle 1)) (echo_style true)) true CTAPHID_CBOR [4] echo_reader in
  r = Err (Transport DRAIN_LIMIT) /\ (fun c => fido (t0_app c)) <$> card (r_world d) = Some 2049.
Proof. vm_compute. split; reflexivity. Qed.
