(* ===== verification/Oath.v ===== *)
(** keyroost-oath: the OATH applet's byte layer. HMAC and PBKDF2 over this
    repository's SHA-1 (crypto.rs), APDU builders, TLV parsers, code formatting
    and credential names (lib.rs). Secrets being wiped has no functional effect;
    a panic is [None]. *)
From S2P Require Export Apdu Sha Text.

(** * crypto.rs *)

Definition HMAC_BLOCK : nat := 64.
Definition HMAC_OUT : nat := 20.

(** The key in its 64-byte block. *)
Definition hmac_block (key : list Z) : list Z :=
  let k := replicate HMAC_BLOCK 0 in
  if Z.of_nat HMAC_BLOCK <? zlen key then list_inserts 0 (Sha1.sha1 key) k else list_inserts 0 key k.

(** One pass of the xor loop over a pad. *)
Definition xor_pad (pad : Z) (k : list Z) : list Z :=
  zip_with Z.lxor (replicate HMAC_BLOCK pad) k.

Definition hmac_sha1 (key data : list Z) : list Z :=
  let k := hmac_block key in
  let ipad := xor_pad 0x36 k in
  let opad := xor_pad 0x5c k in
  let inner_hash := Sha1.sha1 (ipad ++ data) in
  Sha1.sha1 (opad ++ inner_hash).

(** [T = U1 ^ U2 ^ ... ^ Uc]: the loop over [1..iterations]. *)
Fixpoint pbkdf2_iterate (n : nat) (password u t : list Z) : list Z :=
  match n with
  | O => t
  | S n => let u := hmac_sha1 password u in pbkdf2_iterate n password u (zip_with Z.lxor t u)
  end.

(** The block loop: [fuel] blocks at most. *)
Fixpoint pbkdf2_blocks (fuel : nat) (password salt : list Z) (iterations dk_len block_index : Z) (out : list Z) : list Z :=
  match fuel with
  | O => out
  | S fuel =>
      if negb (zlen out <? dk_len) then out else
      let u := hmac_sha1 password (salt ++ to_be 4 block_index) in
      let t := pbkdf2_iterate (Z.to_nat (iterations - 1)) password u u in
      let need := dk_len - zlen out in
      pbkdf2_blocks fuel password salt iterations dk_len (block_index + 1) (out ++ take (Z.to_nat (Z.min need (zlen t))) t)
  end.

Definition pbkdf2_hmac_sha1 (password salt : list Z) (iterations dk_len : Z) : list Z :=
  pbkdf2_blocks (Z.to_nat dk_len) password salt iterations dk_len 1 [].

(** RFC 2202 case 2; RFC 6070 case 2. *)
Example hmac_rfc2202 : hmac_sha1 (s2b "Jefe") (s2b "what do ya want for nothing?") =
  [0xef;0xfc;0xdf;0x6a;0xe5;0xeb;0x2f;0xa2;0xd2;0x74;0x16;0xd5;0xf1;0x84;0xdf;0x9c;0x25;0x9a;0x7c;0x79].
Proof. vm_compute. reflexivity. Qed.
Example pbkdf2_rfc6070 : pbkdf2_hmac_sha1 (s2b "password") (s2b "salt") 2 20 =
  [0xea;0x6c;0x01;0x4d;0xc7;0x2d;0x6f;0x8c;0xcd;0x1e;0xd9;0x2a;0xce;0x1d;0x41;0xf0;0xd8;0xde;0x89;0x57].
Proof. vm_compute. reflexivity. Qed.

(** * lib.rs: the protocol's constants *)

Definition AID : list Z := [0xA0; 0x00; 0x00; 0x05; 0x27; 0x21; 0x01].
Definition INS_SELECT : Z := 0xA4.
Definition P1_SELECT_BY_NAME : Z := 0x04.
Definition INS_GET_RESPONSE : Z := 0xC0.

Inductive Instruction :=
  | Put | Delete | SetCode | Reset | Rename | IList | Calculate | Validate | CalculateAll | ISendRemaining.
Definition ins_code (i : Instruction) : Z :=
  match i with
  | Put => 0x01 | Delete => 0x02 | SetCode => 0x03 | Reset => 0x04 | Rename => 0x05 | IList => 0xA1
  | Calculate => 0xA2 | Validate => 0xA3 | CalculateAll => 0xA4 | ISendRemaining => 0xA5
  end.

Inductive Tag :=
  | TName | TNameList | TKey | TChallenge | TResponse | TTruncatedResponse | TNoResponse | TProperty
  | TVersion | TImf | TAlgorithm | TTouch | TSerialNumber.
Definition tag_code (t : Tag) : Z :=
  match t with
  | TName => 0x71 | TNameList => 0x72 | TKey => 0x73 | TChallenge => 0x74 | TResponse => 0x75
  | TTruncatedResponse => 0x76 | TNoResponse => 0x77 | TProperty => 0x78 | TVersion => 0x79 | TImf => 0x7A
  | TAlgorithm => 0x7B | TTouch => 0x7C | TSerialNumber => 0x8F
  end.

Definition PROPERTY_REQUIRE_TOUCH : Z := 0x02.
Definition P2_TRUNCATED : Z := 0x01.

Inductive OathType := Hotp | Totp.
#[export] Instance OathType_eq_dec : EqDecision OathType.
Proof. solve_decision. Defined.
Definition type_nibble (t : OathType) : Z := match t with Hotp => 0x10 | Totp => 0x20 end.
Definition type_from_prefix (prefix : Z) : option OathType :=
  let n := Z.land prefix 0xF0 in if n =? 0x10 then Some Hotp else if n =? 0x20 then Some Totp else None.

Inductive Algorithm := Sha1 | Sha256 | Sha512.
#[export] Instance Algorithm_eq_dec : EqDecision Algorithm.
Proof. solve_decision. Defined.
Definition algo_nibble (a : Algorithm) : Z := match a with Sha1 => 0x01 | Sha256 => 0x02 | Sha512 => 0x03 end.
Definition algo_from_prefix (prefix : Z) : option Algorithm :=
  let n := Z.land prefix 0x0F in
  if n =? 0x01 then Some Sha1 else if n =? 0x02 then Some Sha256 else if n =? 0x03 then Some Sha512 else None.

Definition prefix_byte (t : OathType) (a : Algorithm) : Z := Z.lor (type_nibble t) (algo_nibble a).

(** * Building commands *)

Inductive BuildError :=
  | ValueTooLong (what : list Z) (len : Z)
  | BodyTooLong (len : Z).

Definition MAX_SHORT_LEN : Z := 255.
Definition MIN_HMAC_KEY_LEN : Z := 14.

(** The bytes of a TLV of at most 255 bytes. *)
Definition tlv_bytes (tag : Tag) (value : list Z) : list Z := tag_code tag :: cast 8 (zlen value) :: value.

(** Panics past 255 bytes. *)
Definition push_tlv (out : list Z) (tag : Tag) (value : list Z) : option (list Z) :=
  if zlen value <=? 255 then Some (out ++ tlv_bytes tag value) else None.

Definition try_push_tlv (out : list Z) (tag : Tag) (what value : list Z) : result BuildError (list Z) :=
  if MAX_SHORT_LEN <? zlen value then Err (ValueTooLong what (zlen value)) else Ok (out ++ tlv_bytes tag value).

Definition finish_apdu (ins p1 p2 : Z) (data : list Z) : result BuildError (list Z) :=
  map_err (fun e => BodyTooLong (tl_len e)) (try_build_apdu 0x00 ins p1 p2 data).

Definition with_le0 (apdu : list Z) : list Z := apdu ++ [0x00].

Definition select : option (list Z) :=
  with_le0 <$> build_apdu 0x00 INS_SELECT P1_SELECT_BY_NAME 0x00 AID.

Record PutParams := mkPut {
  p_name : list Z; p_secret : list Z; p_type : OathType; p_algorithm : Algorithm;
  p_digits : Z; p_require_touch : bool; p_imf : Z
}.

(** [while key.len() < 2 + MIN_HMAC_KEY_LEN { key.push(0) }]: at most 14 turns. *)
Fixpoint pad_key (fuel : nat) (key : list Z) : list Z :=
  match fuel with
  | O => key
  | S fuel => if zlen key <? 2 + MIN_HMAC_KEY_LEN then pad_key fuel (key ++ [0]) else key
  end.

Definition put (params : PutParams) : result BuildError (list Z) :=
  data ← try_push_tlv [] TName (s2b "name") (p_name params);
  let key := [prefix_byte (p_type params) (p_algorithm params); p_digits params] ++ p_secret params in
  let key := pad_key 14 key in
  data ← try_push_tlv data TKey (s2b "key") key;
  let data := if p_require_touch params then data ++ [tag_code TProperty; PROPERTY_REQUIRE_TOUCH] else data in
  data ← (if negb (p_imf params =? 0) then try_push_tlv data TImf (s2b "imf") (to_be 4 (p_imf params)) else Ok data);
  finish_apdu (ins_code Put) 0x00 0x00 data.

Definition delete (name : list Z) : result BuildError (list Z) :=
  data ← try_push_tlv [] TName (s2b "name") name;
  finish_apdu (ins_code Delete) 0x00 0x00 data.

Definition rename (old new : list Z) : result BuildError (list Z) :=
  data ← try_push_tlv [] TName (s2b "old name") old;
  data ← try_push_tlv data TName (s2b "new name") new;
  finish_apdu (ins_code Rename) 0x00 0x00 data.

Definition list_apdu : list Z := build_apdu_get 0x00 (ins_code IList) 0x00 0x00 0x00.
Definition list_with_properties : option (list Z) :=
  with_le0 <$> build_apdu 0x00 (ins_code IList) 0x00 0x00 [0x01].
Definition LIST_PROPERTY_TOUCH : Z := 0x01.
Definition reset_apdu : list Z := [0x00; ins_code Reset; 0xDE; 0xAD].

(** [challenge] is an 8-byte array (empty for [calculate_hotp]): [push_tlv]
    cannot panic on it. *)
Definition calculate_with (name challenge : list Z) : result BuildError (list Z) :=
  data ← try_push_tlv [] TName (s2b "name") name;
  let data := data ++ tlv_bytes TChallenge challenge in
  with_le0 <$> finish_apdu (ins_code Calculate) 0x00 P2_TRUNCATED data.
Definition calculate (name challenge : list Z) : result BuildError (list Z) := calculate_with name challenge.
Definition calculate_hotp (name : list Z) : result BuildError (list Z) := calculate_with name [].

Definition calculate_all (challenge : list Z) : option (list Z) :=
  data ← push_tlv [] TChallenge challenge;
  with_le0 <$> build_apdu 0x00 (ins_code CalculateAll) 0x00 P2_TRUNCATED data.

Definition send_remaining : list Z := build_apdu_get 0x00 (ins_code ISendRemaining) 0x00 0x00 0x00.
Definition get_response : list Z := build_apdu_get 0x00 INS_GET_RESPONSE 0x00 0x00 0x00.

(** * Parsing responses *)

Inductive ParseError :=
  | Truncated
  | BadPrefix (b : Z)
  | InvalidUtf8
  | BadTruncatedResponse
  | MissingTag (t : Z).

Record Tlv := mkTlv { tlv_tag : Z; tlv_value : list Z }.

(** The loop of [parse_tlvs] on what is left of the buffer: every turn takes two
    bytes at least. *)
Fixpoint parse_tlvs_from (fuel : nat) (buf : list Z) (out : list Tlv) : result ParseError (list Tlv) :=
  match fuel with
  | O => Ok out
  | S fuel =>
      match buf with
      | [] => Ok out
      | [_] => Err Truncated
      | tag :: len :: rest =>
          if zlen rest <? len then Err Truncated
          else parse_tlvs_from fuel (drop (Z.to_nat len) rest) (out ++ [mkTlv tag (take (Z.to_nat len) rest)])
      end
  end.
Definition parse_tlvs (buf : list Z) : result ParseError (list Tlv) := parse_tlvs_from (S (length buf)) buf [].

Definition find_tag (tlvs : list Tlv) (tag : Tag) : option (list Z) :=
  find_map (fun t => if tlv_tag t =? tag_code tag then Some (tlv_value t) else None) tlvs.

(** ** SELECT *)

Record SelectInfo := mkSelect {
  s_version : list Z; s_device_id : list Z; s_challenge : option (list Z); s_serial : option (list Z)
}.
Inductive MoreData := SendRemaining | GetResponse.

Definition password_required (s : SelectInfo) : bool := bool_decide (is_Some (s_challenge s)).
Definition more_data (s : SelectInfo) : MoreData := if s_serial s is Some _ then GetResponse else SendRemaining.
Definition lists_properties (s : SelectInfo) : bool := bool_decide (is_Some (s_serial s)).
Definition asks_touch_to_delete (s : SelectInfo) : bool := bool_decide (is_Some (s_serial s)).
Definition asks_touch_to_save_touch (s : SelectInfo) : bool := bool_decide (is_Some (s_serial s)).
Definition asks_touch_to_reset (s : SelectInfo) : bool := bool_decide (is_Some (s_serial s)).

Definition parse_select (buf : list Z) : result ParseError SelectInfo :=
  tlvs ← parse_tlvs buf;
  Ok (mkSelect (default [] (find_tag tlvs TVersion)) (default [] (find_tag tlvs TName))
        (c ← find_tag tlvs TChallenge; if zlen c =? 0 then None else Some c)
        (find_tag tlvs TSerialNumber)).

(** ** The password handshake *)

Definition ACCESS_KEY_ITERATIONS : Z := 1000.
Definition ACCESS_KEY_LEN : Z := 16.

Definition derive_access_key (password device_id : list Z) : list Z :=
  pbkdf2_hmac_sha1 password device_id ACCESS_KEY_ITERATIONS ACCESS_KEY_LEN.

Definition respond (access_key challenge : list Z) : list Z := hmac_sha1 access_key challenge.

Definition validate (access_key card_challenge host_challenge : list Z) : option (list Z) :=
  let resp := respond access_key card_challenge in
  data ← push_tlv [] TResponse resp;
  data ← push_tlv data TChallenge host_challenge;
  with_le0 <$> build_apdu 0x00 (ins_code Validate) 0x00 0x00 data.

(** [diff |= x ^ y] over the zipped bytes. *)
Definition ct_diff (a b : list Z) : Z :=
  fold_left (fun diff xy => Z.lor diff (Z.lxor xy.1 xy.2)) (combine a b) 0.
Definition ct_eq (a b : list Z) : bool :=
  if negb (zlen a =? zlen b) then false else ct_diff a b =? 0.

Definition verify_validate (access_key host_challenge reply : list Z) : result ParseError bool :=
  tlvs ← parse_tlvs reply;
  card_resp ← ok_or (MissingTag (tag_code TResponse)) (find_tag tlvs TResponse);
  let expected := respond access_key host_challenge in
  Ok (ct_eq card_resp expected).

Definition set_code (access_key challenge : list Z) : option (list Z) :=
  let key_tlv := prefix_byte Totp Sha1 :: access_key in
  let resp := respond access_key challenge in
  data ← push_tlv [] TKey key_tlv;
  data ← push_tlv data TChallenge challenge;
  data ← push_tlv data TResponse resp;
  build_apdu 0x00 (ins_code SetCode) 0x00 0x00 data.

Definition clear_code : option (list Z) :=
  data ← push_tlv [] TKey [];
  build_apdu 0x00 (ins_code SetCode) 0x00 0x00 data.

(** Panics on a zero period. *)
Definition totp_challenge (unix_seconds period : Z) : option (list Z) :=
  if period =? 0 then None else Some (to_be 8 (unix_seconds / period)).

(** ** Credential names *)

Record NameParts := mkParts { n_period : option Z; n_issuer : option (list Z); n_account : list Z }.

(** [head.parse::<u32>()] of a digit string. *)
Definition parse_u32 (head : list Z) : option Z :=
  let n := undec head in if n <? 2 ^ 32 then Some n else None.

Definition split_period (name : list Z) (t : OathType) : option Z * list Z :=
  match t with
  | Totp =>
      match split_once 47 name with
      | Some (head, rest) =>
          if negb (zlen head =? 0) && forallb is_ascii_digit head && negb (zlen rest =? 0) then
            match parse_u32 head with
            | Some p => if negb (p =? 0) then (Some p, rest) else (None, name)
            | None => (None, name)
            end
          else (None, name)
      | None => (None, name)
      end
  | Hotp => (None, name)
  end.

Definition parse_name (name : list Z) (t : OathType) : NameParts :=
  let '(period, rest) := split_period name t in
  match split_once 58 rest with
  | Some (issuer, account) =>
      if negb (zlen issuer =? 0) && negb (zlen account =? 0) then mkParts period (Some issuer) account
      else mkParts period None rest
  | None => mkParts period None rest
  end.

Definition totp_period (name : list Z) : Z := default 30 (n_period (parse_name name Totp)).

(** ** LIST *)

Record CredentialInfo := mkCred { c_name : list Z; c_type : OathType; c_algorithm : Algorithm }.
Record Listing := mkListing { credentials : list CredentialInfo; skipped : Z; touch_required : list (list Z) }.

Definition lacks (l : Listing) (name : list Z) : bool :=
  (skipped l =? 0) && negb (existsb (fun c => bool_decide (c_name c = name)) (credentials l)).

(** A [NAME_LIST] value decoded: the entry and its properties byte. *)
Definition decode_entry (with_properties : bool) (value : list Z) : option (CredentialInfo * Z) :=
  '(value, properties) ← (if with_properties then
      if zlen value <? 2 then None else Some (removelast value, List.last value 0)
    else Some (value, 0));
  match value with
  | [] => None
  | prefix :: name =>
      match type_from_prefix prefix, algo_from_prefix prefix, from_utf8 name with
      | Some t, Some a, Some name => Some (mkCred name t a, properties)
      | _, _, _ => None
      end
  end.

(** One TLV of the loop in [parse_name_list]. *)
Definition list_step (with_properties : bool) (l : Listing) (t : Tlv) : Listing :=
  if negb (tlv_tag t =? tag_code TNameList) then l else
  match decode_entry with_properties (tlv_value t) with
  | None => mkListing (credentials l) (skipped l + 1) (touch_required l)
  | Some (cred, properties) =>
      let touch := if negb (Z.land properties LIST_PROPERTY_TOUCH =? 0)
                   then touch_required l ++ [c_name cred] else touch_required l in
      mkListing (credentials l ++ [cred]) (skipped l) touch
  end.

Definition parse_name_list (buf : list Z) (with_properties : bool) : result ParseError Listing :=
  tlvs ← parse_tlvs buf;
  Ok (fold_left (list_step with_properties) tlvs (mkListing [] 0 [])).
Definition parse_list (buf : list Z) : result ParseError Listing := parse_name_list buf false.
Definition parse_list_with_properties (buf : list Z) : result ParseError Listing := parse_name_list buf true.

(** ** Codes *)

(** ["{code:0width$}"]. *)
Definition zero_padded (code width : Z) : list Z :=
  replicate (Z.to_nat (width - zlen (dec code))) 48 ++ dec code.

(** The body of [format_truncated], whose assertion is on [digits]. *)
Definition format_code (bytes : list Z) (digits : Z) : list Z :=
  let raw := Z.land (from_be bytes) 0x7FFFFFFF in
  zero_padded (raw mod 10 ^ digits) digits.
Definition format_truncated (bytes : list Z) (digits : Z) : option (list Z) :=
  if (1 <=? digits) && (digits <=? 9) then Some (format_code bytes digits) else None.

Record OtpCode := mkCode { o_digits : Z; o_code : list Z }.

Definition parse_truncated_response (value : list Z) : result ParseError OtpCode :=
  match value with
  | [digits; b0; b1; b2; b3] =>
      if negb ((1 <=? digits) && (digits <=? 9)) then Err BadTruncatedResponse
      else Ok (mkCode digits (format_code [b0; b1; b2; b3] digits))
  | _ => Err BadTruncatedResponse
  end.

Definition parse_calculate (buf : list Z) : result ParseError OtpCode :=
  tlvs ← parse_tlvs buf;
  value ← ok_or (MissingTag (tag_code TTruncatedResponse)) (find_tag tlvs TTruncatedResponse);
  parse_truncated_response value.

Inductive CalculateAllResult := RCode (c : OtpCode) | RTouch | RHotp.
Record CalculateAllEntry := mkCalc { ca_name : list Z; ca_result : CalculateAllResult }.
Record CalculateAllOut := mkCalcAll { ca_entries : list CalculateAllEntry; ca_skipped : Z }.

(** What the TLV after a name says. *)
Definition calc_result (next : Tlv) : option CalculateAllResult :=
  let t := tlv_tag next in
  if t =? tag_code TTruncatedResponse then RCode <$> result_ok (parse_truncated_response (tlv_value next))
  else if t =? tag_code TTouch then Some RTouch
  else if t =? tag_code TNoResponse then Some RHotp
  else None.

Fixpoint calc_pairs (tlvs : list Tlv) (entries : list CalculateAllEntry) (skipped : Z) : CalculateAllOut :=
  match tlvs with
  | [] => mkCalcAll entries skipped
  | tlv :: rest =>
      if negb (tlv_tag tlv =? tag_code TName) then calc_pairs rest entries (skipped + 1) else
      match rest with
      | next :: rest' =>
          if tlv_tag next =? tag_code TName then calc_pairs rest entries (skipped + 1) else
          match from_utf8 (tlv_value tlv), calc_result next with
          | Some name, Some result => calc_pairs rest' (entries ++ [mkCalc name result]) skipped
          | _, _ => calc_pairs rest' entries (skipped + 1)
          end
      | [] => calc_pairs rest entries (skipped + 1)
      end
  end.

Definition parse_calculate_all (buf : list Z) : result ParseError CalculateAllOut :=
  tlvs ← parse_tlvs buf; Ok (calc_pairs tlvs [] 0).

(** A listing with a corrupt entry; a code (RFC 4226's first); a mixed CALCULATE ALL. *)
Example parse_list_ex :
  parse_list ([0x72; 3; 0x21; 97; 98] ++ [0x72; 1; 0x55] ++ [0x75; 0] ++ [0x72; 2; 0x12; 99]) =
  Ok (mkListing [mkCred (s2b "ab") Totp Sha1; mkCred (s2b "c") Hotp Sha256] 1 []).
Proof. vm_compute. reflexivity. Qed.
Example format_rfc4226 : format_truncated [0x4c; 0x93; 0xcf; 0x18] 6 = Some (s2b "755224").
Proof. vm_compute. reflexivity. Qed.
Example calc_all_ex :
  parse_calculate_all ([0x71; 1; 97] ++ [0x76; 5; 6; 0x4c; 0x93; 0xcf; 0x18] ++ [0x71; 1; 98] ++ [0x71; 1; 99] ++ [0x7C; 0]) =
  Ok (mkCalcAll [mkCalc (s2b "a") (RCode (mkCode 6 (s2b "755224"))); mkCalc (s2b "c") RTouch] 1).
Proof. vm_compute. reflexivity. Qed.
Example parse_name_ex :
  parse_name (s2b "60/Acme:me") Totp = mkParts (Some 60) (Some (s2b "Acme")) (s2b "me") /\
  parse_name (s2b "60/Acme:me") Hotp = mkParts None (Some (s2b "60/Acme")) (s2b "me") /\
  parse_name (s2b "0/x") Totp = mkParts None None (s2b "0/x").
Proof. vm_compute. auto. Qed.

(** * Lemmas *)

(** ** TLVs *)

Definition tlvs_bytes (ts : list Tlv) : list Z :=
  flat_map (fun t => tlv_tag t :: zlen (tlv_value t) :: tlv_value t) ts.

Lemma parse_tlvs_from_bytes ts fuel out :
  (length (tlvs_bytes ts) < fuel)%nat -> parse_tlvs_from fuel (tlvs_bytes ts) out = Ok (out ++ ts).
Proof.
  revert fuel out. induction ts as [|[tag v] ts IH]; intros fuel out Hf; (destruct fuel as [|fuel]; [lia|]).
  - simpl. by rewrite app_nil_r.
  - cbn [tlvs_bytes flat_map app tlv_tag tlv_value parse_tlvs_from] in *. fold (tlvs_bytes ts) in *.
    rewrite (proj2 (Z.ltb_ge _ _)) by (zlen; pose proof (zlen_nonneg (tlvs_bytes ts)); lia).
    rewrite drop_zlen, take_zlen. rewrite IH.
    + by rewrite <- app_assoc.
    + simpl in Hf. rewrite length_app in Hf. lia.
Qed.

Lemma parse_tlvs_bytes ts : parse_tlvs (tlvs_bytes ts) = Ok ts.
Proof. unfold parse_tlvs. by rewrite parse_tlvs_from_bytes by lia. Qed.

Lemma tlv_bytes_app tag v : zlen v <= 255 -> tlv_bytes tag v = tlvs_bytes [mkTlv (tag_code tag) v].
Proof.
  intros Hv. unfold tlv_bytes, tlvs_bytes. simpl. rewrite app_nil_r. rewrite cast_small; [done|].
  pose proof (zlen_nonneg v). unfold is_word. lia.
Qed.

Lemma tlvs_bytes_app a b : tlvs_bytes (a ++ b) = tlvs_bytes a ++ tlvs_bytes b.
Proof. unfold tlvs_bytes. by rewrite flat_map_app. Qed.

(** ** HMAC *)

Lemma list_inserts_zeros (l : list Z) n :
  (length l <= n)%nat -> list_inserts 0 l (replicate n 0) = l ++ replicate (n - length l) 0.
Proof.
  intros Hl. apply list_eq. intros i. destruct (decide (i < length l)%nat) as [Hi|Hi].
  - rewrite list_lookup_inserts, lookup_app_l by (rewrite ?length_replicate; lia). f_equal. lia.
  - rewrite list_lookup_inserts_ge, lookup_app_r by lia.
    destruct (decide (i < n)%nat).
    + rewrite !lookup_replicate_2 by lia. done.
    + rewrite !lookup_ge_None_2 by (rewrite length_replicate; lia). done.
Qed.

(** A key of at most a block, zero-padded within the block, is the same key. *)
Lemma hmac_zero_padding key n data :
  (length key + n <= HMAC_BLOCK)%nat -> hmac_sha1 (key ++ replicate n 0) data = hmac_sha1 key data.
Proof.
  intros Hn. unfold hmac_sha1. enough (hmac_block (key ++ replicate n 0) = hmac_block key) as -> by done.
  unfold hmac_block. rewrite !(proj2 (Z.ltb_ge _ _)) by (zlen; unfold zlen; lia).
  rewrite !list_inserts_zeros by (rewrite ?length_app, ?length_replicate; lia).
  rewrite <- app_assoc, <- replicate_add. do 2 f_equal. rewrite length_app, length_replicate. lia.
Qed.

Lemma hmac_out key data : Bytes (hmac_sha1 key data) /\ length (hmac_sha1 key data) = 20%nat.
Proof. apply sha1_out. Qed.

Lemma pad_key_spec fuel key :
  2 + MIN_HMAC_KEY_LEN - zlen key <= Z.of_nat fuel ->
  pad_key fuel key = key ++ replicate (Z.to_nat (2 + MIN_HMAC_KEY_LEN - zlen key)) 0.
Proof.
  revert key. induction fuel as [|fuel IH]; intros key Hf; cbn [pad_key].
  - replace (Z.to_nat (2 + MIN_HMAC_KEY_LEN - zlen key)) with 0%nat by lia. simpl. by rewrite app_nil_r.
  - destruct (zlen key <? 2 + MIN_HMAC_KEY_LEN) eqn:E; bools.
    + rewrite IH by (zlen; lia). rewrite <- app_assoc. f_equal. zlen.
      replace (Z.to_nat (2 + MIN_HMAC_KEY_LEN - zlen key))
        with (S (Z.to_nat (2 + MIN_HMAC_KEY_LEN - (zlen key + (1 + 0))))) by lia. done.
    + replace (Z.to_nat (2 + MIN_HMAC_KEY_LEN - zlen key)) with 0%nat by lia. simpl. by rewrite app_nil_r.
Qed.

(** ** Prefix bytes, decimals *)

Lemma prefix_decodes t a :
  type_from_prefix (prefix_byte t a) = Some t /\ algo_from_prefix (prefix_byte t a) = Some a /\ is_byte (prefix_byte t a).
Proof. destruct t, a; repeat split; vm_compute; done. Qed.



Lemma zero_padded_spec n w :
  1 <= w -> 0 <= n < 10 ^ w ->
  zlen (zero_padded n w) = w /\ undec (zero_padded n w) = n /\ Forall (fun d => 48 <= d <= 57) (zero_padded n w).
Proof.
  intros Hw Hn. destruct (dec_spec n) as [Hv Hd]; [lia|]. unfold zero_padded.
  pose proof (dec_aux_length (S (Z.to_nat (Z.log2 n))) n (Z.to_nat w) ltac:(lia) ltac:(rewrite Z2Nat.id by lia; done)) as Hl.
  fold (dec n) in Hl. split_and!.
  - zlen. lia.
  - by rewrite undec_zeros.
  - apply Forall_app; split; [|done]. apply Forall_replicate. lia.
Qed.

(** * The card, for reference *)

(** A credential as the applet stores it, and how it reads a PUT body: NAME, KEY,
    PROPERTY (a tag and a byte, no length), IMF. *)
Record StoredCred := mkStored {
  sc_name : list Z; sc_type : OathType; sc_algorithm : Algorithm; sc_digits : Z; sc_key : list Z;
  sc_touch : bool; sc_imf : Z
}.

Definition read_tlv (tag : Tag) (data : list Z) : option (list Z * list Z) :=
  match data with
  | t :: n :: rest => if (t =? tag_code tag) && (n <=? zlen rest) then Some (split_at n rest) else None
  | _ => None
  end.

Definition read_property (data : list Z) : bool * list Z :=
  match data with
  | t :: p :: rest => if t =? tag_code TProperty then (p =? PROPERTY_REQUIRE_TOUCH, rest) else (false, data)
  | _ => (false, data)
  end.

Definition read_imf (data : list Z) : option Z :=
  match data with
  | [] => Some 0
  | _ => '(v, rest) ← read_tlv TImf data;
         if (zlen v =? 4) && (zlen rest =? 0) then Some (from_be v) else None
  end.

Definition card_put (data : list Z) : option StoredCred :=
  '(name, data) ← read_tlv TName data;
  '(key, data) ← read_tlv TKey data;
  let '(touch, data) := read_property data in
  imf ← read_imf data;
  match key with
  | prefix :: digits :: secret =>
      if zlen secret <? MIN_HMAC_KEY_LEN then None else
      t ← type_from_prefix prefix; a ← algo_from_prefix prefix;
      Some (mkStored name t a digits secret touch imf)
  | _ => None
  end.

(** RFC 4226's dynamic truncation: the four bytes selected. *)
Definition dynamic_truncate (mac : list Z) : list Z :=
  let off := Z.to_nat (Z.land (mac !!! 19%nat) 0x0F) in slice mac off (off + 4).

(** RFC 6238 with HMAC-SHA-1, as a number. *)
Definition totp (secret : list Z) (time period digits : Z) : Z :=
  from_be (dynamic_truncate (hmac_sha1 secret (to_be 8 (time / period)))) mod 2 ^ 31 mod 10 ^ digits.

(** CALCULATE with a truncated answer. *)
Definition card_calculate (c : StoredCred) (apdu : list Z) : option (list Z) :=
  match apdu with
  | 0 :: ins :: 0 :: p2 :: lc :: body =>
      if negb ((ins =? 0xA2) && (p2 =? P2_TRUNCATED) && (zlen body =? lc + 1)) then None else
      '(name, rest) ← read_tlv TName body;
      '(challenge, le) ← read_tlv TChallenge rest;
      if bool_decide (name = sc_name c) && bool_decide (le = [0]) then
        Some (tlv_bytes TTruncatedResponse (sc_digits c :: dynamic_truncate (hmac_sha1 (sc_key c) challenge)))
      else None
  | _ => None
  end.

(** The parameters of a credential the program can hold. *)
Definition put_wf (p : PutParams) : Prop := is_word 32 (p_imf p) /\ Bytes (p_secret p) /\ is_byte (p_digits p).

(** The secret as it is sent, and the body of the command. *)
Definition sent_secret (p : PutParams) : list Z :=
  p_secret p ++ replicate (Z.to_nat (MIN_HMAC_KEY_LEN - zlen (p_secret p))) 0.
Definition put_body (p : PutParams) : list Z :=
  tlv_bytes TName (p_name p) ++
  tlv_bytes TKey ([prefix_byte (p_type p) (p_algorithm p); p_digits p] ++ sent_secret p) ++
  (if p_require_touch p then [tag_code TProperty; PROPERTY_REQUIRE_TOUCH] else []) ++
  (if p_imf p =? 0 then [] else tlv_bytes TImf (to_be 4 (p_imf p))).

Lemma read_tlv_bytes tag v rest : zlen v <= 255 -> read_tlv tag (tlv_bytes tag v ++ rest) = Some (v, rest).
Proof.
  intros Hv. pose proof (zlen_nonneg v). unfold tlv_bytes. rewrite cast_small by (unfold is_word; lia).
  cbn [app read_tlv]. rewrite Z.eqb_refl, (proj2 (Z.leb_le _ _)) by (zlen; pose proof (zlen_nonneg rest); lia).
  cbn [andb]. by rewrite split_at_app.
Qed.

Lemma sent_secret_length p : zlen (sent_secret p) = Z.max MIN_HMAC_KEY_LEN (zlen (p_secret p)).
Proof. unfold sent_secret, MIN_HMAC_KEY_LEN. zlen. lia. Qed.

Lemma sent_secret_hmac p data : hmac_sha1 (sent_secret p) data = hmac_sha1 (p_secret p) data.
Proof.
  unfold sent_secret. destruct (Z.le_gt_cases MIN_HMAC_KEY_LEN (zlen (p_secret p))).
  - replace (Z.to_nat (MIN_HMAC_KEY_LEN - zlen (p_secret p))) with 0%nat by lia. simpl. by rewrite app_nil_r.
  - apply hmac_zero_padding. unfold HMAC_BLOCK, MIN_HMAC_KEY_LEN, zlen in *. lia.
Qed.

Lemma try_push_eq out tag what v :
  try_push_tlv out tag what v =
  if 255 <? zlen v then Err (ValueTooLong what (zlen v)) else Ok (out ++ tlv_bytes tag v).
Proof. done. Qed.

Lemma put_spec p :
  put p = if 255 <? zlen (p_name p) then Err (ValueTooLong (s2b "name") (zlen (p_name p)))
    else if 255 <? 2 + Z.max 14 (zlen (p_secret p))
      then Err (ValueTooLong (s2b "key") (2 + Z.max 14 (zlen (p_secret p))))
    else if 255 <? zlen (put_body p) then Err (BodyTooLong (zlen (put_body p)))
    else Ok ([0x00; 0x01; 0x00; 0x00; zlen (put_body p)] ++ put_body p).
Proof.
  unfold put. rewrite try_push_eq. destruct (255 <? zlen (p_name p)); [done|]. cbn [mbind result_bind].
  assert (pad_key 14 ([prefix_byte (p_type p) (p_algorithm p); p_digits p] ++ p_secret p) =
    [prefix_byte (p_type p) (p_algorithm p); p_digits p] ++ sent_secret p) as ->.
  { pose proof (zlen_nonneg (p_secret p)). rewrite pad_key_spec by (unfold MIN_HMAC_KEY_LEN; zlen; lia).
    rewrite <- app_assoc. unfold sent_secret. do 4 f_equal. zlen. lia. }
  set (key := _ ++ sent_secret p).
  assert (zlen key = 2 + Z.max 14 (zlen (p_secret p))) as Hk.
  { unfold key. rewrite zlen_app, sent_secret_length. unfold MIN_HMAC_KEY_LEN. zlen. lia. }
  rewrite try_push_eq, Hk.
  destruct (255 <? 2 + Z.max 14 (zlen (p_secret p))); [done|]. cbn [mbind result_bind].
  assert (forall d, (if negb (p_imf p =? 0) then try_push_tlv d TImf (s2b "imf") (to_be 4 (p_imf p)) else Ok d) =
    Ok (d ++ if p_imf p =? 0 then [] else tlv_bytes TImf (to_be 4 (p_imf p)))) as Himf.
  { intros d. destruct (p_imf p =? 0); cbn [negb]; [by rewrite app_nil_r|]. unfold try_push_tlv.
    rewrite zlen_to_be. done. }
  rewrite Himf. cbn [mbind result_bind].
  match goal with |- finish_apdu _ _ _ ?d = _ => assert (d = put_body p) as -> end.
  { unfold put_body. fold key. cbn [app]. destruct (p_require_touch p); by rewrite <- ?app_assoc, ?app_nil_l. }
  unfold finish_apdu, try_build_apdu. destruct (255 <? zlen (put_body p)) eqn:Hb; [done|]. bools. simpl.
  rewrite cast_small; [done|]. pose proof (zlen_nonneg (put_body p)). unfold is_word. lia.
Qed.

Lemma card_put_body p :
  put_wf p -> zlen (p_name p) <= 255 -> 2 + Z.max 14 (zlen (p_secret p)) <= 255 ->
  card_put (put_body p) = Some (mkStored (p_name p) (p_type p) (p_algorithm p) (p_digits p) (sent_secret p)
    (p_require_touch p) (p_imf p)).
Proof.
  intros (Hi & _ & _) Hn Hk. unfold card_put, put_body. rewrite read_tlv_bytes by done. cbn [mbind option_bind].
  rewrite read_tlv_bytes by (rewrite zlen_app, sent_secret_length; unfold MIN_HMAC_KEY_LEN; zlen; lia).
  cbn [mbind option_bind].
  set (imf := if p_imf p =? 0 then [] else _).
  assert (read_property ((if p_require_touch p then [tag_code TProperty; PROPERTY_REQUIRE_TOUCH] else []) ++ imf) =
    (p_require_touch p, imf)) as ->.
  { destruct (p_require_touch p); [done|]. unfold imf. by destruct (p_imf p =? 0). }
  assert (read_imf imf = Some (p_imf p)) as ->.
  { unfold imf. destruct (p_imf p =? 0) eqn:E; bools; [by rewrite E|]. unfold read_imf.
    rewrite <- (app_nil_r (tlv_bytes TImf _)). rewrite read_tlv_bytes by (rewrite zlen_to_be; lia).
    cbn [mbind option_bind]. rewrite zlen_to_be. cbn [tlv_bytes app]. simpl negb.
    change (4 =? 4) with true. change (zlen (@nil Z) =? 0) with true. cbn [andb].
    f_equal. by apply from_be_to_be_small. }
  cbn [mbind option_bind app]. rewrite (proj2 (Z.ltb_ge _ _)) by (rewrite sent_secret_length; lia).
  destruct (prefix_decodes (p_type p) (p_algorithm p)) as (-> & -> & _). done.
Qed.

Lemma dynamic_truncate_out mac : Bytes mac -> length mac = 20%nat -> Bytes (dynamic_truncate mac) /\ length (dynamic_truncate mac) = 4%nat.
Proof.
  intros HB Hl. unfold dynamic_truncate, slice. split; [by apply Forall_take, Forall_drop|].
  assert (0 <= Z.land (mac !!! 19%nat) 15 < 16).
  { change 15 with (2 ^ 4 - 1). rewrite land_ones_mod by lia. lia_div. }
  rewrite length_take, length_drop. lia.
Qed.

Lemma format_code_spec bs digits :
  Bytes bs -> length bs = 4%nat -> 1 <= digits <= 9 ->
  zlen (format_code bs digits) = digits /\
  undec (format_code bs digits) = from_be bs mod 2 ^ 31 mod 10 ^ digits /\
  Forall (fun d => 48 <= d <= 57) (format_code bs digits).
Proof.
  intros HB Hl Hd. unfold format_code. change 0x7FFFFFFF with (2 ^ 31 - 1). rewrite land_ones_mod by lia.
  apply zero_padded_spec; [lia|]. apply Z.mod_pos_bound. apply Z.pow_pos_nonneg; lia.
Qed.

Lemma parse_truncated_ok digits bs :
  Bytes bs -> length bs = 4%nat -> 1 <= digits <= 9 ->
  parse_truncated_response (digits :: bs) = Ok (mkCode digits (format_code bs digits)).
Proof.
  intros HB Hl Hd. destruct bs as [|b0 [|b1 [|b2 [|b3 [|b4 bs]]]]]; try (simpl in Hl; lia).
  unfold parse_truncated_response. by rewrite !(proj2 (Z.leb_le _ _)) by lia.
Qed.

Lemma calculate_ok name challenge :
  zlen name <= 240 -> zlen challenge <= 8 ->
  calculate name challenge = Ok ([0x00; 0xA2; 0x00; 0x01; zlen (tlv_bytes TName name ++ tlv_bytes TChallenge challenge)] ++
    tlv_bytes TName name ++ tlv_bytes TChallenge challenge ++ [0]).
Proof.
  intros Hn Hc. unfold calculate, calculate_with. rewrite try_push_eq, (proj2 (Z.ltb_ge _ _)) by lia.
  cbn [mbind result_bind]. cbv zeta. cbn [app]. set (data := _ ++ tlv_bytes TChallenge challenge).
  assert (zlen data <= 255) as Hl by (unfold data, tlv_bytes; zlen; lia). pose proof (zlen_nonneg data).
  unfold finish_apdu, try_build_apdu. rewrite (proj2 (Z.ltb_ge _ _)) by lia.
  cbn [map_err fmap result_fmap]. unfold with_le0. rewrite cast_small by (unfold is_word; lia).
  cbn [app]. unfold data. by rewrite <- app_assoc.
Qed.

Lemma card_calculate_ok cred challenge :
  zlen (sc_name cred) <= 240 -> zlen challenge <= 8 ->
  card_calculate cred ([0x00; 0xA2; 0x00; 0x01; zlen (tlv_bytes TName (sc_name cred) ++ tlv_bytes TChallenge challenge)] ++
    tlv_bytes TName (sc_name cred) ++ tlv_bytes TChallenge challenge ++ [0]) =
  Some (tlv_bytes TTruncatedResponse (sc_digits cred :: dynamic_truncate (hmac_sha1 (sc_key cred) challenge))).
Proof.
  intros Hn Hc. cbn [app card_calculate]. rewrite Z.eqb_refl. change (1 =? P2_TRUNCATED) with true.
  rewrite (proj2 (Z.eqb_eq _ _)) by (zlen; lia). cbn [andb negb].
  rewrite read_tlv_bytes by lia. cbn [mbind option_bind]. rewrite read_tlv_bytes by lia. cbn [mbind option_bind].
  by rewrite !bool_decide_true.
Qed.

Lemma calc_reply_ok digits bs :
  Bytes bs -> length bs = 4%nat -> 1 <= digits <= 9 ->
  parse_calculate (tlv_bytes TTruncatedResponse (digits :: bs)) = Ok (mkCode digits (format_code bs digits)).
Proof.
  intros HB Hl Hd. unfold parse_calculate. rewrite tlv_bytes_app by (zlen; unfold zlen; lia).
  rewrite parse_tlvs_bytes. simpl. by apply parse_truncated_ok.
Qed.

(** ** Listings *)

Definition is_name_list (t : Tlv) : bool := tlv_tag t =? tag_code TNameList.

(** What a listing says, TLV by TLV. *)
Lemma list_steps wp ts l :
  fold_left (list_step wp) ts l =
  let vals := tlv_value <$> List.filter is_name_list ts in
  let ok := omap (decode_entry wp) vals in
  mkListing (credentials l ++ (fst <$> ok))
    (skipped l + zlen (List.filter (fun v => bool_decide (decode_entry wp v = None)) vals))
    (touch_required l ++ (c_name ∘ fst <$> List.filter (fun cp => negb (Z.land cp.2 LIST_PROPERTY_TOUCH =? 0)) ok)).
Proof.
  revert l. induction ts as [|t ts IH]; intros l; cbn [fold_left List.filter].
  - simpl. rewrite !app_nil_r. destruct l. simpl. f_equal. change (zlen (@nil (list Z))) with 0. lia.
  - rewrite IH. unfold list_step, is_name_list. destruct (tlv_tag t =? tag_code TNameList) eqn:Et; cbn [negb]; [|done].
    cbn [fmap list_fmap omap list_omap List.filter]. destruct (decode_entry wp (tlv_value t)) as [[c props]|] eqn:Ed.
    + rewrite bool_decide_false by done. cbn [fmap list_fmap fst List.filter snd credentials skipped touch_required].
      destruct (negb (Z.land props LIST_PROPERTY_TOUCH =? 0)); csimpl; rewrite <- !app_assoc; done.
    + rewrite bool_decide_true by done. cbn [credentials skipped touch_required]. f_equal. zlen. lia.
Qed.

(** The value of a [NAME_LIST] entry, plain and with a properties byte. *)
Definition list_value (c : CredentialInfo) : list Z := prefix_byte (c_type c) (c_algorithm c) :: c_name c.

Lemma decode_entry_plain c : is_str (c_name c) -> decode_entry false (list_value c) = Some (c, 0).
Proof.
  intros Hs. unfold decode_entry, list_value. simpl. destruct (prefix_decodes (c_type c) (c_algorithm c)) as (-> & -> & _).
  rewrite from_utf8_str by done. by destruct c.
Qed.

Lemma decode_entry_props c props : is_str (c_name c) -> decode_entry true (list_value c ++ [props]) = Some (c, props).
Proof.
  intros Hs. unfold decode_entry. rewrite (proj2 (Z.ltb_ge _ _)) by (unfold list_value; zlen; pose proof (zlen_nonneg (c_name c)); lia).
  rewrite removelast_last, last_last. pose proof (decode_entry_plain c Hs) as Hp. unfold decode_entry in Hp. simpl in Hp.
  cbn [mbind option_bind list_value]. destruct (prefix_decodes (c_type c) (c_algorithm c)) as (-> & -> & _).
  rewrite from_utf8_str by done. by destruct c.
Qed.

(** Only the entries that decode matter, when all do. *)
Lemma parse_list_all wp {A} (enc : A -> list Z) (out : A -> CredentialInfo * Z) (cs : list A) :
  Forall (fun c => decode_entry wp (enc c) = Some (out c)) cs ->
  parse_name_list (tlvs_bytes ((fun c => mkTlv (tag_code TNameList) (enc c)) <$> cs)) wp =
  Ok (mkListing (fst ∘ out <$> cs) 0
        (c_name ∘ fst <$> List.filter (fun cp => negb (Z.land cp.2 LIST_PROPERTY_TOUCH =? 0)) (out <$> cs))).
Proof.
  intros HF. unfold parse_name_list. rewrite parse_tlvs_bytes. cbn [mbind result_bind]. rewrite list_steps. cbv zeta.
  assert (tlv_value <$> List.filter is_name_list ((fun c => mkTlv (tag_code TNameList) (enc c)) <$> cs) = enc <$> cs) as ->.
  { clear. induction cs as [|c cs IH]; [done|]. simpl. by f_equal. }
  assert (omap (decode_entry wp) (enc <$> cs) = out <$> cs) as Ho.
  { induction HF as [|c cs Hc _ IH]; [done|]. csimpl. rewrite Hc. csimpl. by rewrite IH. }
  assert (List.filter (fun v => bool_decide (decode_entry wp v = None)) (enc <$> cs) = []) as ->.
  { clear Ho. induction HF as [|c cs Hc _ IH]; [done|]. cbn [fmap list_fmap List.filter]. rewrite Hc.
    by rewrite bool_decide_false. }
  rewrite Ho. simpl. by rewrite <- list_fmap_compose.
Qed.

(** ** CALCULATE ALL *)

Inductive CardResult := CCode (digits : Z) (bs : list Z) | CTouch (b : Z) | CHotp (digits : Z).
Definition card_result_tlv (r : CardResult) : Tlv :=
  match r with
  | CCode digits bs => mkTlv (tag_code TTruncatedResponse) (digits :: bs)
  | CTouch b => mkTlv (tag_code TTouch) [b]
  | CHotp digits => mkTlv (tag_code TNoResponse) [digits]
  end.
Definition card_result_ok (r : CardResult) : Prop :=
  match r with CCode digits bs => Bytes bs /\ length bs = 4%nat /\ 1 <= digits <= 9 | _ => True end.
Definition read_result (r : CardResult) : CalculateAllResult :=
  match r with
  | CCode digits bs => RCode (mkCode digits (format_code bs digits))
  | CTouch _ => RTouch
  | CHotp _ => RHotp
  end.
Definition calc_all_tlvs (cs : list (list Z * CardResult)) : list Tlv :=
  flat_map (fun nr => [mkTlv (tag_code TName) nr.1; card_result_tlv nr.2]) cs.

Lemma calc_pairs_all cs entries skipped :
  Forall (fun nr => is_str nr.1 /\ card_result_ok nr.2) cs ->
  calc_pairs (calc_all_tlvs cs) entries skipped =
  mkCalcAll (entries ++ ((fun nr => mkCalc nr.1 (read_result nr.2)) <$> cs)) skipped.
Proof.
  intros HF. revert entries. induction HF as [|[name r] cs [Hs Hr] _ IH]; intros entries.
  - simpl. by rewrite app_nil_r.
  - cbn [calc_all_tlvs flat_map app calc_pairs tlv_tag fst snd]. rewrite Z.eqb_refl. cbn [negb].
    fold (calc_all_tlvs cs).
    assert ((tlv_tag (card_result_tlv r) =? tag_code TName) = false) as -> by (by destruct r).
    cbn [tlv_value]. simpl in Hs, Hr. rewrite from_utf8_str by done.
    assert (calc_result (card_result_tlv r) = Some (read_result r)) as ->.
    { destruct r as [digits bs|b|d]; [|done|done]. destruct Hr as (HB & Hl & Hd). unfold calc_result.
      cbn [card_result_tlv tlv_tag tlv_value]. rewrite Z.eqb_refl. by rewrite parse_truncated_ok. }
    rewrite IH. rewrite <- app_assoc. done.
Qed.

(** ** The password *)

(** The applet's side: SET CODE proves the key with a challenge; VALIDATE answers
    the applet's challenge and is answered with the host's. *)
Definition card_set_code (apdu : list Z) : option (list Z) :=
  match apdu with
  | 0 :: ins :: 0 :: 0 :: lc :: body =>
      if negb ((ins =? 0x03) && (zlen body =? lc)) then None else
      '(key_tlv, body) ← read_tlv TKey body;
      match key_tlv with
      | [] => if zlen body =? 0 then Some [] else None
      | algo :: key =>
          '(challenge, body) ← read_tlv TChallenge body;
          '(response, body) ← read_tlv TResponse body;
          if (algo =? 0x21) && bool_decide (response = hmac_sha1 key challenge) && (zlen body =? 0) then Some key else None
      end
  | _ => None
  end.

Definition card_validate (key challenge apdu : list Z) : option (list Z) :=
  match apdu with
  | 0 :: ins :: 0 :: 0 :: lc :: body =>
      if negb ((ins =? 0xA3) && (zlen body =? lc + 1)) then None else
      '(response, body) ← read_tlv TResponse body;
      '(host, body) ← read_tlv TChallenge body;
      if bool_decide (response = hmac_sha1 key challenge) && bool_decide (body = [0])
      then Some (tlv_bytes TResponse (hmac_sha1 key host)) else None
  | _ => None
  end.

Lemma hmac_zlen key data : zlen (hmac_sha1 key data) = 20.
Proof. unfold zlen. by rewrite (proj2 (hmac_out key data)). Qed.

Lemma ct_diff_0 d a b :
  length a = length b -> 0 <= d -> Bytes a -> Bytes b ->
  fold_left (fun diff xy => Z.lor diff (Z.lxor xy.1 xy.2)) (combine a b) d = 0 <-> d = 0 /\ a = b.
Proof.
  revert d b. induction a as [|x a IH]; intros d [|y b] Hl Hd HA HB; try done; simpl.
  - by intuition.
  - inversion HA; inversion HB; subst. simpl in Hl.
    assert (0 <= Z.lxor x y) by (apply Z.lxor_nonneg; unfold is_byte in *; lia).
    rewrite IH; [|lia|by apply Z.lor_nonneg|done|done].
    rewrite Z.lor_eq_0_iff, Z.lxor_eq_0_iff. split; [by intros [[-> ->] ->]|by intros [-> [= -> ->]]].
Qed.

Lemma ct_eq_spec a b : Bytes a -> Bytes b -> ct_eq a b = true <-> a = b.
Proof.
  intros HA HB. unfold ct_eq. destruct (zlen a =? zlen b) eqn:Hl; bools; cbn [negb].
  - rewrite Z.eqb_eq. unfold ct_diff. rewrite ct_diff_0; [by intuition|unfold zlen in *; lia|done|done|done].
  - split; [done|]. by intros ->.
Qed.

Lemma validate_ok key cc hc :
  zlen hc <= 64 ->
  validate key cc hc = Some ([0x00; 0xA3; 0x00; 0x00; zlen (tlv_bytes TResponse (hmac_sha1 key cc) ++ tlv_bytes TChallenge hc)] ++
    tlv_bytes TResponse (hmac_sha1 key cc) ++ tlv_bytes TChallenge hc ++ [0]).
Proof.
  intros Hc. unfold validate, push_tlv, respond. rewrite hmac_zlen. cbn [Z.leb Z.compare mbind option_bind app].
  change (20 <=? 255) with true. cbv iota. rewrite (proj2 (Z.leb_le _ _)) by lia. cbn [mbind option_bind app].
  set (data := _ ++ tlv_bytes TChallenge hc).
  assert (zlen data <= 255) as Hl by (unfold data, tlv_bytes; zlen; rewrite hmac_zlen; lia). pose proof (zlen_nonneg data).
  unfold build_apdu, try_build_apdu. rewrite (proj2 (Z.ltb_ge _ _)) by lia. rewrite cast_small by (unfold is_word; lia).
  cbn [result_ok fmap option_fmap option_map]. unfold with_le0. cbn [app]. unfold data. by rewrite <- app_assoc.
Qed.

Lemma set_code_ok key ch :
  zlen key <= 64 -> zlen ch <= 64 ->
  let body := tlv_bytes TKey (0x21 :: key) ++ tlv_bytes TChallenge ch ++ tlv_bytes TResponse (hmac_sha1 key ch) in
  set_code key ch = Some ([0x00; 0x03; 0x00; 0x00; zlen body] ++ body).
Proof.
  intros Hk Hc body. unfold set_code, push_tlv, respond. change (prefix_byte Totp Sha1) with 0x21.
  rewrite (proj2 (Z.leb_le (zlen (0x21 :: key)) _)) by (zlen; lia). cbn [mbind option_bind app].
  rewrite (proj2 (Z.leb_le (zlen ch) _)) by lia. cbn [mbind option_bind]. rewrite hmac_zlen.
  change (20 <=? 255) with true. cbv iota. cbn [mbind option_bind]. rewrite <- app_assoc. fold body.
  assert (zlen body <= 255) as Hl by (unfold body, tlv_bytes; zlen; rewrite hmac_zlen; lia). pose proof (zlen_nonneg body).
  unfold build_apdu, try_build_apdu. rewrite (proj2 (Z.ltb_ge _ _)) by lia. rewrite cast_small by (unfold is_word; lia). done.
Qed.

(** ** Names *)

(** The name ykman gives a credential. *)
Definition stored_name (period : option Z) (issuer : option (list Z)) (account : list Z) : list Z :=
  match period with Some p => dec p ++ [47] | None => [] end ++
  match issuer with Some i => i ++ [58] | None => [] end ++ account.

Lemma dec_nonempty n : 0 <= n -> dec n <> [].
Proof.
  intros Hn. unfold dec. cbn [dec_aux]. destruct (n <? 10); [done|]. by destruct (dec_aux _ _).
Qed.

Lemma split_period_stored p rest :
  1 <= p < 2 ^ 32 -> rest <> [] -> split_period (dec p ++ 47 :: rest) Totp = (Some p, rest).
Proof.
  intros Hp Hr. destruct (dec_spec p) as [Hv Hd]; [lia|]. unfold split_period.
  rewrite split_once_app by (eapply list.Forall_impl; [exact Hd|]; simpl; lia).
  assert (forallb is_ascii_digit (dec p) = true) as ->.
  { apply forallb_forall. intros d Hin. rewrite List.Forall_forall in Hd. apply Hd in Hin. unfold is_ascii_digit, between.
    by rewrite !(proj2 (Z.leb_le _ _)) by lia. }
  assert (zlen (dec p) =? 0 = false) as ->.
  { apply Z.eqb_neq. intros Hz. apply zlen_0 in Hz. by apply (dec_nonempty p); [lia|]. }
  assert (zlen rest =? 0 = false) as -> by (apply Z.eqb_neq; intros Hz; by apply zlen_0 in Hz).
  cbn [negb andb]. unfold parse_u32. rewrite Hv. rewrite (proj2 (Z.ltb_lt _ _)) by lia.
  by rewrite (proj2 (Z.eqb_neq p 0)) by lia.
Qed.

(** ** PBKDF2, as RFC 2898 gives it *)

(** [U_(n+1)] of block [i], and [F] of [n + 1] iterations. *)
Fixpoint rfc_u (password salt : list Z) (i : Z) (n : nat) : list Z :=
  match n with
  | O => hmac_sha1 password (salt ++ to_be 4 i)
  | S n => hmac_sha1 password (rfc_u password salt i n)
  end.
Fixpoint rfc_f (password salt : list Z) (i : Z) (n : nat) : list Z :=
  match n with
  | O => rfc_u password salt i 0
  | S n => zip_with Z.lxor (rfc_f password salt i n) (rfc_u password salt i (S n))
  end.
(** [T_first .. ] for [l] blocks. *)
Fixpoint rfc_blocks (password salt : list Z) (c : nat) (first : Z) (l : nat) : list Z :=
  match l with
  | O => []
  | S l => rfc_f password salt first c ++ rfc_blocks password salt c (first + 1) l
  end.

Lemma pbkdf2_iterate_spec pw salt i k n :
  pbkdf2_iterate n pw (rfc_u pw salt i k) (rfc_f pw salt i k) = rfc_f pw salt i (k + n).
Proof.
  revert k. induction n as [|n IH]; intros k; cbn [pbkdf2_iterate]; [by rewrite Nat.add_0_r|].
  cbv zeta. rewrite <- Nat.add_succ_comm. apply (IH (S k)).
Qed.

Lemma rfc_f_length pw salt i n : length (rfc_f pw salt i n) = 20%nat.
Proof.
  induction n as [|n IH]; [apply hmac_out|]. cbn [rfc_f rfc_u]. rewrite length_zip_with, IH.
  by rewrite (proj2 (hmac_out pw (rfc_u pw salt i n))).
Qed.

Lemma pbkdf2_blocks_spec fuel l pw salt c dk i out :
  dk - zlen out <= Z.of_nat fuel -> dk - zlen out <= 20 * Z.of_nat l ->
  pbkdf2_blocks fuel pw salt c dk i out =
  out ++ take (Z.to_nat (dk - zlen out)) (rfc_blocks pw salt (Z.to_nat (c - 1)) i l).
Proof.
  revert l i out. induction fuel as [|fuel IH]; intros l i out Hf Hl; cbn [pbkdf2_blocks].
  - replace (Z.to_nat (dk - zlen out)) with 0%nat by lia. by rewrite take_0, app_nil_r.
  - destruct (zlen out <? dk) eqn:E; bools; cbn [negb].
    2:{ replace (Z.to_nat (dk - zlen out)) with 0%nat by lia. by rewrite take_0, app_nil_r. }
    destruct l as [|l]; [lia|]. cbv zeta.
    pose proof (pbkdf2_iterate_spec pw salt i 0 (Z.to_nat (c - 1))) as Hit. cbn [rfc_u rfc_f Nat.add] in Hit.
    rewrite Hit. cbn [rfc_blocks]. set (t := rfc_f _ _ _ _).
    assert (length t = 20%nat) as Ht by apply rfc_f_length.
    assert (zlen t = 20) as Hzt by (unfold zlen; lia). rewrite Hzt.
    rewrite (IH l) by (zlen; lia). rewrite <- app_assoc. f_equal.
    rewrite take_app, Ht. f_equal; [|f_equal; zlen; lia].
    destruct (Z.le_gt_cases (dk - zlen out) 20); [f_equal; lia|]. by rewrite !take_ge by lia.
Qed.

Lemma rfc_blocks_length pw salt c i l : length (rfc_blocks pw salt c i l) = (20 * l)%nat.
Proof. revert i. induction l as [|l IH]; intros i; [done|]. cbn [rfc_blocks]. rewrite length_app, rfc_f_length, IH. lia. Qed.

Lemma parse_tlvs_bytes_values buf ts : Bytes buf -> parse_tlvs buf = Ok ts -> Forall (fun t => Bytes (tlv_value t)) ts.
Proof.
  unfold parse_tlvs. generalize (S (length buf)). intros fuel.
  assert (Forall (fun t => Bytes (tlv_value t)) (@nil Tlv)) as Ho by constructor. revert Ho. generalize (@nil Tlv).
  revert buf. induction fuel as [|fuel IH]; intros buf out Ho HB Hp; cbn [parse_tlvs_from] in Hp.
  - by apply Ok_inj in Hp as <-.
  - destruct buf as [|tag [|len rest]]; [by apply Ok_inj in Hp as <-|done|].
    destruct (zlen rest <? len); [done|]. inversion HB as [|? ? _ HB']; subst. inversion HB' as [|? ? _ HBr]; subst.
    apply IH in Hp; [done| |by apply Forall_drop]. apply Forall_app; split; [done|]. constructor; [|done].
    by apply Forall_take.
Qed.

Lemma find_tag_in ts tag v : find_tag ts tag = Some v -> exists t, In t ts /\ tlv_value t = v.
Proof.
  unfold find_tag. induction ts as [|t ts IH]; [done|]. cbn [find_map]. destruct (tlv_tag t =? tag_code tag).
  - intros [= <-]. exists t. split; [by left|done].
  - intros (t' & Hi & <-)%IH. exists t'. split; [by right|done].
Qed.

Lemma card_set_code_ok key ch :
  zlen key <= 64 -> zlen ch <= 64 ->
  let body := tlv_bytes TKey (0x21 :: key) ++ tlv_bytes TChallenge ch ++ tlv_bytes TResponse (hmac_sha1 key ch) in
  card_set_code ([0x00; 0x03; 0x00; 0x00; zlen body] ++ body) = Some key.
Proof.
  intros Hk Hc body. cbn [app card_set_code]. rewrite !Z.eqb_refl. cbn [andb negb]. unfold body.
  rewrite read_tlv_bytes by (zlen; lia). cbn [mbind option_bind]. rewrite read_tlv_bytes by lia. cbn [mbind option_bind].
  rewrite <- (app_nil_r (tlv_bytes TResponse _)). rewrite read_tlv_bytes by (rewrite hmac_zlen; lia).
  cbn [mbind option_bind]. by rewrite Z.eqb_refl, bool_decide_true.
Qed.

Lemma card_validate_other key k cc cc' hc :
  zlen hc <= 64 ->
  card_validate k cc' ([0x00; 0xA3; 0x00; 0x00; zlen (tlv_bytes TResponse (hmac_sha1 key cc) ++ tlv_bytes TChallenge hc)] ++
    tlv_bytes TResponse (hmac_sha1 key cc) ++ tlv_bytes TChallenge hc ++ [0]) =
  if bool_decide (hmac_sha1 key cc = hmac_sha1 k cc') then Some (tlv_bytes TResponse (hmac_sha1 k hc)) else None.
Proof.
  intros Hc. cbn [app card_validate]. rewrite Z.eqb_refl. rewrite (proj2 (Z.eqb_eq _ _)) by (zlen; lia). cbn [andb negb].
  rewrite read_tlv_bytes by (rewrite hmac_zlen; lia). cbn [mbind option_bind].
  rewrite read_tlv_bytes by lia. cbn [mbind option_bind].
  by rewrite (bool_decide_true ([0] = [0])), andb_true_r by done.
Qed.

Lemma card_validate_eq key k cc hc :
  zlen hc <= 64 ->
  card_validate k cc ([0x00; 0xA3; 0x00; 0x00; zlen (tlv_bytes TResponse (hmac_sha1 key cc) ++ tlv_bytes TChallenge hc)] ++
    tlv_bytes TResponse (hmac_sha1 key cc) ++ tlv_bytes TChallenge hc ++ [0]) =
  if bool_decide (hmac_sha1 key cc = hmac_sha1 k cc) then Some (tlv_bytes TResponse (hmac_sha1 k hc)) else None.
Proof. apply card_validate_other. Qed.

Lemma verify_validate_spec key hc reply :
  Bytes reply ->
  verify_validate key hc reply = Ok true <->
  exists ts, parse_tlvs reply = Ok ts /\ find_tag ts TResponse = Some (hmac_sha1 key hc).
Proof.
  intros HB. unfold verify_validate. destruct (parse_tlvs reply) as [ts|e] eqn:Hp; cbn [mbind result_bind].
  2:{ split; [done|]. by intros (? & [=] & _). }
  destruct (find_tag ts TResponse) as [v|] eqn:Hv; cbn [ok_or mbind result_bind].
  2:{ split; [done|]. intros (? & <-%Ok_inj & ?). congruence. }
  assert (Bytes v) as Hvb.
  { destruct (find_tag_in _ _ _ Hv) as (t & Hin & <-). pose proof (parse_tlvs_bytes_values _ _ HB Hp) as HF.
    rewrite List.Forall_forall in HF. by apply HF. }
  pose proof (ct_eq_spec v (hmac_sha1 key hc) Hvb (proj1 (hmac_out key hc))) as Hct. unfold respond. split.
  - intros Ht%Ok_inj. exists ts. split; [done|]. rewrite Hv. f_equal. by apply Hct.
  - intros (? & <-%Ok_inj & Hf). f_equal. apply Hct. congruence.
Qed.

Lemma split_once_issuer issuer account :
  match issuer with Some i => i <> [] /\ Forall (fun c => c <> 58) i | None => Forall (fun c => c <> 58) account end ->
  account <> [] ->
  forall period,
  match split_once 58 (match issuer with Some i => i ++ [58] | None => [] end ++ account) with
  | Some (i, a) => if negb (zlen i =? 0) && negb (zlen a =? 0) then mkParts period (Some i) a
      else mkParts period None (match issuer with Some i => i ++ [58] | None => [] end ++ account)
  | None => mkParts period None (match issuer with Some i => i ++ [58] | None => [] end ++ account)
  end = mkParts period issuer account.
Proof.
  intros Hi Ha period. destruct issuer as [i|].
  - destruct Hi as [Hne Hf]. rewrite <- app_assoc. cbn [app]. rewrite split_once_app by done.
    rewrite !(proj2 (Z.eqb_neq _ 0)) by (intros Hz; by apply zlen_0 in Hz). done.
  - cbn [app]. by rewrite split_once_none.
Qed.

(** * Properties *)

(** Provisioning an account is exact on every input. [put] refuses a name of
    more than 255 bytes, a key whose encoding is too long, and a body too long,
    with that length, in this order, and nothing else; otherwise the applet
    reading the APDU stores the same name, kind, algorithm, digits, touch flag
    and counter, and a key which, although zero-padded to the 14 bytes the
    applet demands, computes the same HMAC as the secret given. *)
Theorem oath_put_delivered (p : PutParams) :
  put_wf p ->
  put p = (if 255 <? zlen (p_name p) then Err (ValueTooLong (s2b "name") (zlen (p_name p)))
    else if 255 <? 2 + Z.max 14 (zlen (p_secret p))
      then Err (ValueTooLong (s2b "key") (2 + Z.max 14 (zlen (p_secret p))))
    else if 255 <? zlen (put_body p) then Err (BodyTooLong (zlen (put_body p)))
    else Ok ([0x00; 0x01; 0x00; 0x00; zlen (put_body p)] ++ put_body p)) /\
  (zlen (p_name p) <= 255 -> 2 + Z.max 14 (zlen (p_secret p)) <= 255 ->
   card_put (put_body p) = Some (mkStored (p_name p) (p_type p) (p_algorithm p) (p_digits p) (sent_secret p)
     (p_require_touch p) (p_imf p)) /\
   zlen (sent_secret p) >= 14 /\ forall data, hmac_sha1 (sent_secret p) data = hmac_sha1 (p_secret p) data).
Proof.
  intros Hw. split; [apply put_spec|]. intros Hn Hk. split; [by apply card_put_body|].
  split; [rewrite sent_secret_length; unfold MIN_HMAC_KEY_LEN; lia|]. apply sent_secret_hmac.
Qed.

(** A provisioned TOTP account shows the right code. When [put] builds a
    command for a SHA-1 TOTP account of 1 to 9 digits, then for any time and
    period, the APDU [calculate] builds from the time's challenge is answered by
    an applet holding what was put with a reply that [parse_calculate] reads as
    exactly as many decimal digits as were asked for, spelling RFC 6238's code of
    the secret given. *)
Theorem oath_totp_end_to_end (p : PutParams) (apdu : list Z) (time period : Z) :
  put_wf p -> put p = Ok apdu -> 1 <= p_digits p <= 9 -> 0 < period ->
  exists cred challenge capdu reply code,
    card_put (drop 5 apdu) = Some cred /\ totp_challenge time period = Some challenge /\
    calculate (p_name p) challenge = Ok capdu /\ card_calculate cred capdu = Some reply /\
    parse_calculate reply = Ok (mkCode (p_digits p) code) /\
    zlen code = p_digits p /\ Forall (fun d => 48 <= d <= 57) code /\
    undec code = totp (p_secret p) time period (p_digits p).
Proof.
  intros Hw Hput Hd Hper. rewrite put_spec in Hput.
  destruct (255 <? zlen (p_name p)) eqn:Hn; [done|]. destruct (255 <? 2 + _) eqn:Hk; [done|].
  destruct (255 <? zlen (put_body p)) eqn:Hb; [done|]. apply Ok_inj in Hput as <-. bools.
  assert (zlen (p_name p) <= 240) as Hname.
  { revert Hb. unfold put_body. rewrite !zlen_app. unfold tlv_bytes at 1 2. rewrite !zlen_cons, !zlen_app, sent_secret_length.
    set (t1 := zlen (if p_require_touch p then _ else _)). set (t2 := zlen (if p_imf p =? 0 then _ else _)).
    assert (0 <= t1) by apply zlen_nonneg. assert (0 <= t2) by apply zlen_nonneg. unfold MIN_HMAC_KEY_LEN. zlen. lia. }
  pose (mac := hmac_sha1 (sent_secret p) (to_be 8 (time / period))).
  destruct (hmac_out (sent_secret p) (to_be 8 (time / period))) as [HB HL]. fold mac in HB, HL.
  destruct (dynamic_truncate_out mac HB HL) as [HBt HLt].
  destruct (format_code_spec (dynamic_truncate mac) (p_digits p) HBt HLt Hd) as (Hz & Hu & HF).
  exists (mkStored (p_name p) (p_type p) (p_algorithm p) (p_digits p) (sent_secret p) (p_require_touch p) (p_imf p)).
  eexists _, _, _, _. split_and!.
  - by apply card_put_body.
  - unfold totp_challenge. by rewrite (proj2 (Z.eqb_neq _ _)) by lia.
  - apply calculate_ok; [done|rewrite zlen_to_be; lia].
  - apply card_calculate_ok; [done|rewrite zlen_to_be; lia].
  - simpl sc_digits. simpl sc_key. fold mac. by apply calc_reply_ok.
  - exact Hz.
  - exact HF.
  - rewrite Hu. unfold totp, mac. by rewrite sent_secret_hmac.
Qed.

Definition run_put : PutParams := mkPut (s2b "Acme:me") (s2b "1234567890") Totp Sha1 6 true 0.
Definition run_put_apdu : list Z := match put run_put with Ok a => a | Err _ => [] end.

Lemma oath_put_delivered_witness :
  put run_put = (if 255 <? zlen (p_name run_put) then Err (ValueTooLong (s2b "name") (zlen (p_name run_put)))
    else if 255 <? 2 + Z.max 14 (zlen (p_secret run_put))
      then Err (ValueTooLong (s2b "key") (2 + Z.max 14 (zlen (p_secret run_put))))
    else if 255 <? zlen (put_body run_put) then Err (BodyTooLong (zlen (put_body run_put)))
    else Ok ([0x00; 0x01; 0x00; 0x00; zlen (put_body run_put)] ++ put_body run_put)) /\
  (zlen (p_name run_put) <= 255 -> 2 + Z.max 14 (zlen (p_secret run_put)) <= 255 ->
   card_put (put_body run_put) = Some (mkStored (p_name run_put) (p_type run_put) (p_algorithm run_put)
     (p_digits run_put) (sent_secret run_put) (p_require_touch run_put) (p_imf run_put)) /\
   zlen (sent_secret run_put) >= 14 /\
   forall data, hmac_sha1 (sent_secret run_put) data = hmac_sha1 (p_secret run_put) data).
Proof.
  assert (put_wf run_put) as Hw by (split_and!; [done|by repeat constructor|done]).
  exact (oath_put_delivered run_put Hw).
Defined.

Lemma oath_totp_end_to_end_witness :
  exists cred challenge capdu reply code,
    card_put (drop 5 run_put_apdu) = Some cred /\ totp_challenge 59 30 = Some challenge /\
    calculate (p_name run_put) challenge = Ok capdu /\ card_calculate cred capdu = Some reply /\
    parse_calculate reply = Ok (mkCode 6 code) /\
    zlen code = 6 /\ Forall (fun d => 48 <= d <= 57) code /\ undec code = totp (p_secret run_put) 59 30 6.
Proof.
  assert (put_wf run_put) as Hw by (split_and!; [done|by repeat constructor|done]).
  assert (put run_put = Ok run_put_apdu) as Hp by (vm_compute; reflexivity).
  assert (1 <= p_digits run_put <= 9) as Hd by (simpl; lia).
  exact (oath_totp_end_to_end run_put run_put_apdu 59 30 Hw Hp Hd eq_refl).
Defined.

(** What the applet lists is what is shown. Every credential with a UTF-8
    name that the applet lists, plainly or with properties, is listed with its
    kind and algorithm, in order, nothing skipped, and the touch flags are the
    ones sent; an entry that does not decode costs only itself and is counted,
    wherever it stands; a name is reported missing exactly when the listing is
    complete and does not have it. A CALCULATE ALL answer gives each name its
    code, touch or counter mark. *)
Theorem oath_listing_shown (cs : list (CredentialInfo * Z)) (wp : bool) (ts1 ts2 : list Tlv) (junk : list Z)
    (l : Listing) (name : list Z) (rs : list (list Z * CardResult)) :
  Forall (fun c => is_str (c_name c.1)) cs -> decode_entry wp junk = None ->
  Forall (fun nr => is_str nr.1 /\ card_result_ok nr.2) rs ->
  parse_list (tlvs_bytes ((fun c => mkTlv (tag_code TNameList) (list_value c.1)) <$> cs)) = Ok (mkListing (fst <$> cs) 0 []) /\
  parse_list_with_properties (tlvs_bytes ((fun c => mkTlv (tag_code TNameList) (list_value c.1 ++ [c.2])) <$> cs)) =
    Ok (mkListing (fst <$> cs) 0
          (c_name ∘ fst <$> List.filter (fun c => negb (Z.land c.2 LIST_PROPERTY_TOUCH =? 0)) cs)) /\
  (exists l1 l2, parse_name_list (tlvs_bytes (ts1 ++ mkTlv (tag_code TNameList) junk :: ts2)) wp = Ok l1 /\
    parse_name_list (tlvs_bytes (ts1 ++ ts2)) wp = Ok l2 /\ credentials l1 = credentials l2 /\
    touch_required l1 = touch_required l2 /\ skipped l1 = skipped l2 + 1) /\
  (lacks l name = true <-> skipped l = 0 /\ name ∉ (c_name <$> credentials l)) /\
  parse_calculate_all (tlvs_bytes (calc_all_tlvs rs)) =
    Ok (mkCalcAll ((fun nr => mkCalc nr.1 (read_result nr.2)) <$> rs) 0).
Proof.
  intros Hcs Hj Hrs. split_and!.
  - unfold parse_list. rewrite (parse_list_all false (fun c => list_value c.1) (fun c => (c.1, 0))).
    + f_equal. f_equal. clear. induction cs; [done|]. simpl. done.
    + eapply list.Forall_impl; [exact Hcs|]. intros c Hc. by apply decode_entry_plain.
  - unfold parse_list_with_properties. rewrite (parse_list_all true (fun c => list_value c.1 ++ [c.2]) id).
    + by rewrite list_fmap_id.
    + eapply list.Forall_impl; [exact Hcs|]. intros [c x] Hc. by apply decode_entry_props.
  - unfold parse_name_list. rewrite !parse_tlvs_bytes. cbn [mbind result_bind]. eexists _, _. split; [done|]. split; [done|].
    rewrite !fold_left_app. cbn [fold_left]. set (l0 := fold_left _ ts1 _).
    assert (list_step wp l0 (mkTlv (tag_code TNameList) junk) = mkListing (credentials l0) (skipped l0 + 1) (touch_required l0)) as ->.
    { unfold list_step. cbn [tlv_tag tlv_value]. rewrite Z.eqb_refl. by rewrite Hj. }
    rewrite !list_steps. cbn [credentials skipped touch_required]. split_and!; try done. lia.
  - unfold lacks. rewrite andb_true_iff, negb_true_iff, Z.eqb_eq. apply and_iff_compat_l.
    rewrite list_elem_of_fmap. split.
    + intros He (c & -> & Hin). assert (existsb (fun c0 => bool_decide (c_name c0 = c_name c)) (credentials l) = true) as Ht; [|congruence].
      apply existsb_exists. exists c. split; [by apply list_elem_of_In|]. by apply bool_decide_eq_true.
    + intros Hn. apply not_true_iff_false. intros (c & Hin & Hc)%existsb_exists. apply bool_decide_eq_true in Hc.
      apply Hn. exists c. split; [done|]. by apply list_elem_of_In.
  - unfold parse_calculate_all. rewrite parse_tlvs_bytes. cbn [mbind result_bind]. by rewrite calc_pairs_all.
Qed.

Lemma oath_listing_shown_witness :
  let cs := [(mkCred (s2b "a") Totp Sha256, 1)] in
  let rs := [(s2b "a", CCode 6 [0; 0; 0; 7])] in
  parse_list (tlvs_bytes ((fun c => mkTlv (tag_code TNameList) (list_value c.1)) <$> cs)) = Ok (mkListing (fst <$> cs) 0 []) /\
  parse_list_with_properties (tlvs_bytes ((fun c => mkTlv (tag_code TNameList) (list_value c.1 ++ [c.2])) <$> cs)) =
    Ok (mkListing (fst <$> cs) 0
          (c_name ∘ fst <$> List.filter (fun c => negb (Z.land c.2 LIST_PROPERTY_TOUCH =? 0)) cs)) /\
  (exists l1 l2, parse_name_list (tlvs_bytes ([] ++ mkTlv (tag_code TNameList) [0x55] :: [])) false = Ok l1 /\
    parse_name_list (tlvs_bytes ([] ++ [])) false = Ok l2 /\ credentials l1 = credentials l2 /\
    touch_required l1 = touch_required l2 /\ skipped l1 = skipped l2 + 1) /\
  (lacks (mkListing [] 0 []) (s2b "b") = true <->
    skipped (mkListing [] 0 []) = 0 /\ s2b "b" ∉ (c_name <$> credentials (mkListing [] 0 []))) /\
  parse_calculate_all (tlvs_bytes (calc_all_tlvs rs)) =
    Ok (mkCalcAll ((fun nr => mkCalc nr.1 (read_result nr.2)) <$> rs) 0).
Proof.
  apply (oath_listing_shown [(mkCred (s2b "a") Totp Sha256, 1)] false [] [] [0x55] (mkListing [] 0 []) (s2b "b")
    [(s2b "a", CCode 6 [0; 0; 0; 7])]).
  - constructor; [by eexists|constructor].
  - reflexivity.
  - constructor; [|constructor]. split; [by eexists|]. simpl. split_and!; [by repeat constructor|done|lia|lia].
Defined.

(** The access password works and nothing else does. The applet accepts the
    SET CODE command and stores exactly the key, and the clearing command drops
    it; the applet that has this key accepts VALIDATE and its answer convinces
    the host, while an applet with a key giving another HMAC refuses the command;
    and, for any reply whatsoever, the host is convinced exactly when the reply
    parses and its first RESPONSE value is the HMAC of the host's challenge. *)
Theorem oath_password_handshake (key cc hc k reply : list Z) :
  zlen key <= 64 -> zlen cc <= 64 -> zlen hc <= 64 -> Bytes reply ->
  (apdu ← set_code key cc; card_set_code apdu) = Some key /\
  (apdu ← clear_code; card_set_code apdu) = Some [] /\
  (apdu ← validate key cc hc; card_validate k cc apdu) =
    (if bool_decide (hmac_sha1 key cc = hmac_sha1 k cc) then Some (tlv_bytes TResponse (hmac_sha1 k hc)) else None) /\
  verify_validate key hc (tlv_bytes TResponse (hmac_sha1 key hc)) = Ok true /\
  (verify_validate key hc reply = Ok true <->
    exists ts, parse_tlvs reply = Ok ts /\ find_tag ts TResponse = Some (hmac_sha1 key hc)).
Proof.
  intros Hk Hc Hh HB. split_and!.
  - rewrite set_code_ok by done. cbn [mbind option_bind]. by apply card_set_code_ok.
  - reflexivity.
  - rewrite validate_ok by done. cbn [mbind option_bind]. by apply card_validate_eq.
  - assert (zlen (hmac_sha1 key hc) <= 255) as Hz by (rewrite hmac_zlen; lia).
    apply verify_validate_spec.
    + unfold tlv_bytes. constructor; [done|]. constructor; [rewrite hmac_zlen; done|]. apply hmac_out.
    + rewrite tlv_bytes_app by done. rewrite parse_tlvs_bytes. by eexists.
  - by apply verify_validate_spec.
Qed.

Lemma oath_password_handshake_witness :
  let key := replicate 16 0x42 in let cc := replicate 8 0xAA in let hc := replicate 8 0xBB in
  (apdu ← set_code key cc; card_set_code apdu) = Some key /\
  (apdu ← clear_code; card_set_code apdu) = Some [] /\
  (apdu ← validate key cc hc; card_validate key cc apdu) =
    (if bool_decide (hmac_sha1 key cc = hmac_sha1 key cc) then Some (tlv_bytes TResponse (hmac_sha1 key hc)) else None) /\
  verify_validate key hc (tlv_bytes TResponse (hmac_sha1 key hc)) = Ok true /\
  (verify_validate key hc [0x75; 1; 0] = Ok true <->
    exists ts, parse_tlvs [0x75; 1; 0] = Ok ts /\ find_tag ts TResponse = Some (hmac_sha1 key hc)).
Proof.
  intros key cc hc. assert (zlen key <= 64) as Ha by (vm_compute; discriminate).
  assert (zlen cc <= 64) as Hb by (vm_compute; discriminate). assert (zlen hc <= 64) as Hc by (vm_compute; discriminate).
  assert (Bytes [0x75; 1; 0]) as Hd by (by repeat constructor).
  exact (oath_password_handshake key cc hc key [0x75; 1; 0] Ha Hb Hc Hd).
Defined.

(** [pbkdf2_hmac_sha1] is RFC 2898's PBKDF2: the first [dk_len] bytes of
    [T_1 T_2 ...], each [T_i] the xor of its [c] iterated HMACs, for any number
    of blocks that is enough; it returns as many bytes as asked for. *)
Theorem pbkdf2_rfc2898 (password salt : list Z) (c dk_len : Z) (l : nat) :
  1 <= c -> 0 <= dk_len <= 20 * Z.of_nat l ->
  pbkdf2_hmac_sha1 password salt c dk_len = take (Z.to_nat dk_len) (rfc_blocks password salt (Z.to_nat (c - 1)) 1 l) /\
  zlen (pbkdf2_hmac_sha1 password salt c dk_len) = dk_len.
Proof.
  intros Hc Hd. assert (pbkdf2_hmac_sha1 password salt c dk_len =
    take (Z.to_nat dk_len) (rfc_blocks password salt (Z.to_nat (c - 1)) 1 l)) as ->.
  { unfold pbkdf2_hmac_sha1. change (zlen (@nil Z)) with 0. rewrite (pbkdf2_blocks_spec _ l); zlen; try lia.
    cbn [app]. by rewrite Z.sub_0_r. }
  split; [done|]. unfold zlen. rewrite length_take, rfc_blocks_length. lia.
Qed.

Lemma pbkdf2_rfc2898_witness :
  pbkdf2_hmac_sha1 (s2b "password") (s2b "salt") 2 25 =
    take (Z.to_nat 25) (rfc_blocks (s2b "password") (s2b "salt") (Z.to_nat (2 - 1)) 1 2) /\
  zlen (pbkdf2_hmac_sha1 (s2b "password") (s2b "salt") 2 25) = 25.
Proof. apply (pbkdf2_rfc2898 (s2b "password") (s2b "salt") 2 25 2); lia. Defined.

(** The names other tools store are read back. The account, the issuer and,
    for TOTP, the period of a stored name [period/issuer:account] are found
    again, whichever parts are present; a counter account's name is never read as
    having a period; and the period of a TOTP account is the stored one, or
    thirty seconds. *)
Theorem oath_names_read (period : option Z) (issuer : option (list Z)) (account : list Z) (t : OathType) :
  match period with
  | Some p => 1 <= p < 2 ^ 32 /\ t = Totp
  | None => t = Hotp \/ Forall (fun c => c <> 47) (stored_name None issuer account)
  end ->
  match issuer with Some i => i <> [] /\ Forall (fun c => c <> 58) i | None => Forall (fun c => c <> 58) account end ->
  account <> [] ->
  parse_name (stored_name period issuer account) t = mkParts period issuer account /\
  (t = Totp -> totp_period (stored_name period issuer account) = default 30 period).
Proof.
  intros Hp Hi Ha. enough (parse_name (stored_name period issuer account) t = mkParts period issuer account) as Hn.
  { split; [done|]. intros ->. unfold totp_period. by rewrite Hn. }
  unfold parse_name. set (rest := match issuer with Some i => i ++ [58] | None => [] end ++ account).
  assert (split_period (stored_name period issuer account) t = (period, rest)) as ->.
  2:{ by apply split_once_issuer. }
  unfold stored_name. fold rest. destruct period as [p|].
  - destruct Hp as [Hp ->]. rewrite <- app_assoc. apply split_period_stored; [done|]. unfold rest. by destruct issuer as [[|]|], account.
  - destruct Hp as [->|Hf]; [done|]. unfold stored_name in Hf. fold rest in Hf. cbn [app] in Hf |- *. unfold split_period. rewrite split_once_none by done. by destruct t.
Qed.

Lemma oath_names_read_witness :
  parse_name (stored_name (Some 60) (Some (s2b "Acme")) (s2b "me")) Totp = mkParts (Some 60) (Some (s2b "Acme")) (s2b "me") /\
  (Totp = Totp -> totp_period (stored_name (Some 60) (Some (s2b "Acme")) (s2b "me")) = default 30 (Some 60)).
Proof.
  apply (oath_names_read (Some 60) (Some (s2b "Acme")) (s2b "me") Totp).
  - split; [lia|done].
  - split; [done|]. repeat constructor; discriminate.
  - discriminate.
Defined.
