(* ===== verification/Applet.v ===== *)
(** keyroost-transport/src/lib.rs: the exchange every smart-card applet session
    goes through (61xx and 6Cxx reassembly, its caps, its trace), and the status
    word readings. The session's own errors are those this code makes. *)
From S2P Require Export Pcsc Oath.

(** * Errors *)

Inductive TransportError (PE : Type) :=
  | TPcscUnavailable (e : PE)
  | TPcsc (e : PE)
  | TApdu (label : list Z) (sw1 sw2 : Z)
  | TShortResponse (label : list Z) (got expected_min : Z)
  | TMalformedResponse (what : list Z)
  | TOathParse (e : ParseError)
  | TOathPasswordRejected
  | THostRngFailed
  | TOathCredentialTooLong
  | TOathNoTouch (action : list Z)
  | TPanic.  (* no value of the source's: the call panicked *)
Arguments TPcscUnavailable {PE} e.
Arguments TPcsc {PE} e.
Arguments TApdu {PE} label sw1 sw2.
Arguments TShortResponse {PE} label got expected_min.
Arguments TMalformedResponse {PE} what.
Arguments TOathParse {PE} e.
Arguments TOathPasswordRejected {PE}.
Arguments THostRngFailed {PE}.
Arguments TOathCredentialTooLong {PE}.
Arguments TOathNoTouch {PE} action.
Arguments TPanic {PE}.

(** * Status words *)

Definition sw_tries_remaining (sw : Z) : option Z :=
  if Z.land sw 0xFFF0 =? 0x63C0 then Some (cast 8 (Z.land sw 0x000F)) else None.

Definition auth_tries_remaining (sw2 : Z) : option Z :=
  match sw_tries_remaining (Z.lor 0x6300 sw2) with
  | Some n => Some n
  | None => if (0x01 <=? sw2) && (sw2 <=? 0x0F) then Some sw2 else None
  end.

Definition iso_sw_description (sw1 sw2 : Z) : option (list Z) :=
  let sw := sw1 * 256 + sw2 in
  if sw =? 0x9000 then Some (s2b "success")
  else if sw1 =? 0x61 then Some (s2b "success " ++ EM_DASH ++ s2b " more response bytes pending, GET RESPONSE needed")
  else if sw =? 0x6300 then Some (s2b "verification failed")
  else if (sw1 =? 0x63) && (Z.land sw2 0xF0 =? 0xC0) then
    Some (s2b "verification failed " ++ EM_DASH ++ s2b " retries remaining in SW2 low nibble")
  else if sw =? 0x6982 then Some (s2b "security status not satisfied " ++ EM_DASH ++ s2b " authenticate first")
  else if sw =? 0x6983 then Some (s2b "authentication method blocked")
  else if sw =? 0x6985 then Some (s2b "conditions of use not satisfied")
  else if sw =? 0x6986 then Some (s2b "command not allowed")
  else if sw =? 0x6A80 then Some (s2b "incorrect parameters in the command data field")
  else if sw =? 0x6A81 then Some (s2b "function not supported")
  else if sw =? 0x6A82 then Some (s2b "file or application not found")
  else if sw =? 0x6A84 then Some (s2b "not enough memory")
  else if sw =? 0x6A86 then Some (s2b "incorrect P1/P2")
  else if sw =? 0x6A88 then Some (s2b "referenced data not found")
  else if sw =? 0x6700 then Some (s2b "wrong length")
  else if sw1 =? 0x6C then Some (s2b "wrong Le " ++ EM_DASH ++ s2b " reissue with the length in SW2")
  else if sw =? 0x6D00 then Some (s2b "instruction not supported or invalid")
  else if sw =? 0x6E00 then Some (s2b "class not supported")
  else if sw =? 0x6882 then Some (s2b "secure messaging not supported")
  else if sw =? 0x6F00 then Some (s2b "no precise diagnosis")
  else None.

Definition iso_sw_summary (sw1 sw2 : Z) : list Z :=
  default (s2b "non-standard status word") (iso_sw_description sw1 sw2).

(** * Dumps *)

(** Pairs of hexadecimal digits, separated by spaces. *)
Fixpoint hex_dump (bytes : list Z) : list Z :=
  match bytes with
  | [] => []
  | [b] => hex_upper b
  | b :: rest => hex_upper b ++ [32] ++ hex_dump rest
  end.

Definition dump_cmd (apdu : list Z) (sensitive : bool) : list Z :=
  if negb sensitive || (zlen apdu <=? 5) then hex_dump apdu
  else hex_dump (take 5 apdu) ++ s2b " [" ++ dec (zlen apdu - 5) ++ s2b " data bytes redacted]".

Definition dump_resp (resp : list Z) (sensitive : bool) : list Z :=
  if negb sensitive || (zlen resp <=? 2) then hex_dump resp
  else s2b "[" ++ dec (zlen resp - 2) ++ s2b " data bytes redacted] " ++ hex_dump (drop (length resp - 2) resp).

Definition molto2_cmd_sensitive (apdu : list Z) : bool :=
  match apdu !! 1%nat with Some i => bool_decide (i ∈ [0xC5; 0xD7; 0xCE]) | None => false end.

(** * The exchange *)

Definition MAX_REASSEMBLED_RESPONSE : Z := 2 ^ 20.
Definition MAX_RESPONSE_CHUNKS : Z := 4096.

Record AppletIo := mkIo {
  label : list Z; more_data_sw : Z; io_get_response : list Z; describe : option (list Z -> list Z)
}.

Inductive SwAction := SwDone | SwMoreData | SwWrongLe (le : Z).
Definition classify_sw (sw1 more_data_sw sw2 : Z) : SwAction :=
  if sw1 =? more_data_sw then SwMoreData else if sw1 =? 0x6C then SwWrongLe sw2 else SwDone.

Inductive Continuation := Done | Send (apdu : list Z).

(** The continuation and [acc] after. *)
Definition advance_exchange (more_data_sw : Z) (get_response to_send data : list Z) (sw1 sw2 : Z) (acc : list Z) :
    Continuation * list Z :=
  match classify_sw sw1 more_data_sw sw2 with
  | SwMoreData => (Send (resend_with_le get_response sw2), acc ++ data)
  | SwWrongLe le => (Send (resend_with_le to_send le), acc)
  | SwDone => (Done, acc ++ data)
  end.

Section exchange.
Context {C : Type} `{PcscCard C}.
Local Notation TE := (TransportError (PcscError C)).

(** [.inspect_err(|e| trace_pcsc_error(..))?] on a transmit. *)
Definition transmit_traced (debug : bool) (label apdu : list Z) : io (World C) TE (list Z) := fun w =>
  match transmit apdu w with
  | (Ok resp, w') => (Ok resp, w')
  | (Err e, w') =>
      (_ ← trace_line debug (format_line Received label (s2b "PC/SC error: " ++ pcsc_text e)); lift (Err (TPcsc e))) w'
  end.

Definition CHUNK_LIMIT : list Z := s2b "applet continuation exceeded the chunk limit".
Definition REASSEMBLY_LIMIT : list Z := s2b "61xx continuation exceeded the reassembly limit".

(** The loop of [transmit_applet]; [fuel] exchanges at most. *)
Fixpoint applet_loop (fuel : nat) (debug : bool) (aio : AppletIo) (cmd_sensitive resp_sensitive : bool)
    (to_send acc : list Z) (chunks : Z) : io (World C) TE (list Z * Z) :=
  match fuel with
  | O => lift (Err (TMalformedResponse CHUNK_LIMIT))
  | S fuel =>
      _ ← (if describe aio is Some d then trace_line debug (format_line Sent (label aio) (d to_send)) else mret tt);
      _ ← trace_line debug (format_line Sent (label aio) (dump_cmd to_send cmd_sensitive));
      resp ← transmit_traced debug (label aio) to_send;
      _ ← trace_line debug (format_line Received (label aio) (dump_resp resp resp_sensitive));
      if zlen resp <? 2 then lift (Err (TShortResponse (label aio) (zlen resp) 2)) else
      let data := take (length resp - 2) resp in
      let sw1 := resp !!! (length resp - 2)%nat in
      let sw2 := resp !!! (length resp - 1)%nat in
      _ ← (if describe aio is Some _ then
             trace_line debug (format_line Received (label aio)
               (s2b "SW = " ++ hex_upper sw1 ++ [32] ++ hex_upper sw2 ++ s2b " (" ++ iso_sw_summary sw1 sw2 ++ s2b ")"))
           else mret tt);
      let chunks := chunks + 1 in
      if MAX_RESPONSE_CHUNKS <? chunks then lift (Err (TMalformedResponse CHUNK_LIMIT)) else
      let '(cont, acc) := advance_exchange (more_data_sw aio) (io_get_response aio) to_send data sw1 sw2 acc in
      match cont with
      | Send next =>
          if MAX_REASSEMBLED_RESPONSE <? zlen acc then lift (Err (TMalformedResponse REASSEMBLY_LIMIT))
          else applet_loop fuel debug aio cmd_sensitive resp_sensitive next acc chunks
      | Done => mret (acc, sw1 * 256 + sw2)
      end
  end.

(** One more exchange than the chunk limit lets continue. *)
Definition applet_fuel : nat := Z.to_nat (MAX_RESPONSE_CHUNKS + 1).

Definition transmit_applet (debug : bool) (aio : AppletIo) (apdu : list Z) (cmd_sensitive resp_sensitive : bool) :
    io (World C) TE (list Z * Z) :=
  applet_loop applet_fuel debug aio cmd_sensitive resp_sensitive apdu [] 0.
End exchange.

(** ** The probe's exchange *)

Section probe.
Context {C : Type} `{PcscCard C}.
Local Notation TE := (TransportError (PcscError C)).

Definition transmit_apdu (apdu : list Z) : io C TE (list Z * Z * Z) :=
  resp ← io_map_err TPcsc (card_transmit apdu);
  if zlen resp <? 2 then lift (Err (TShortResponse (s2b "yubikey apdu") (zlen resp) 2))
  else mret (take (length resp - 2) resp, resp !!! (length resp - 2)%nat, resp !!! (length resp - 1)%nat).

Definition STEP_LIMIT : list Z := s2b "applet exchange exceeded the continuation limit".
Definition PROBE_REASSEMBLY_LIMIT : list Z := s2b "applet exchange exceeded the reassembly limit".

Fixpoint probe_loop (fuel : nat) (more_data_sw : Z) (get_response to_send acc : list Z) (steps : Z) :
    io C TE (list Z * Z) :=
  match fuel with
  | O => lift (Err (TMalformedResponse STEP_LIMIT))
  | S fuel =>
      '(data, s1, s2) ← transmit_apdu to_send;
      let steps := steps + 1 in
      if 32 <? steps then lift (Err (TMalformedResponse STEP_LIMIT)) else
      let '(cont, acc) := advance_exchange more_data_sw get_response to_send data s1 s2 acc in
      match cont with
      | Send next =>
          if MAX_REASSEMBLED_RESPONSE <? zlen acc then lift (Err (TMalformedResponse PROBE_REASSEMBLY_LIMIT))
          else probe_loop fuel more_data_sw get_response next acc steps
      | Done => mret (acc, s1 * 256 + s2)
      end
  end.

Definition exchange_apdu (apdu : list Z) (more_data_sw : Z) (get_response : list Z) : io C TE (list Z * Z) :=
  probe_loop 33 more_data_sw get_response apdu [] 0.
End probe.

(** * Lemmas *)

Section loop.
Context {C : Type} `{PcscCard C}.

Lemma trace_line_eq {E} (p : bool) (l : list Z) (w : World C) :
  exists w', @trace_line C E p l w = (Ok tt, w') /\ card w' = card w.
Proof. unfold trace_line. destruct (emit p l (capture w)) as [pr c]. by eexists. Qed.

(** One trip round the loop. *)
Lemma applet_loop_step fuel debug aio cs rs to_send acc n w data x y c' :
  card_transmit to_send (card w) = (Ok (data ++ [x; y]), c') -> n + 1 <= MAX_RESPONSE_CHUNKS ->
  exists w', card w' = c' /\
    applet_loop (S fuel) debug aio cs rs to_send acc n w =
    match advance_exchange (more_data_sw aio) (io_get_response aio) to_send data x y acc with
    | (Send next, acc) =>
        if MAX_REASSEMBLED_RESPONSE <? zlen acc then (Err (TMalformedResponse REASSEMBLY_LIMIT), w')
        else applet_loop fuel debug aio cs rs next acc (n + 1) w'
    | (Done, acc) => (Ok (acc, x * 256 + y), w')
    end.
Proof.
  intros Ht Hn. cbn [applet_loop].
  assert (exists w1, (if describe aio is Some d then trace_line debug (format_line Sent (label aio) (d to_send)) else mret tt)
    w = (@Ok (TransportError (PcscError C)) _ tt, w1) /\ card w1 = card w) as (w1 & E1 & C1).
  { destruct (describe aio); [apply trace_line_eq|by eexists]. }
  rewrite (io_bind_Ok_eq _ _ _ _ _ E1).
  destruct (@trace_line_eq (TransportError (PcscError C)) debug (format_line Sent (label aio) (dump_cmd to_send cs)) w1) as (w2 & E2 & C2).
  rewrite (io_bind_Ok_eq _ _ _ _ _ E2).
  assert (transmit_traced debug (label aio) to_send w2 = (Ok (data ++ [x; y]), mkWorld c' (capture w2) (stderr w2))) as E3.
  { unfold transmit_traced, transmit. rewrite C2, C1, Ht. done. }
  rewrite (io_bind_Ok_eq _ _ _ _ _ E3).
  destruct (@trace_line_eq (TransportError (PcscError C)) debug (format_line Received (label aio) (dump_resp (data ++ [x; y]) rs))
    (mkWorld c' (capture w2) (stderr w2))) as (w3 & E4 & C3).
  rewrite (io_bind_Ok_eq _ _ _ _ _ E4).
  rewrite (proj2 (Z.ltb_ge _ _)) by (zlen; pose proof (zlen_nonneg data); lia). cbv zeta.
  assert (length (data ++ [x; y]) - 2 = length data)%nat as -> by (rewrite length_app; simpl; lia).
  assert (length (data ++ [x; y]) - 1 = S (length data))%nat as -> by (rewrite length_app; simpl; lia).
  rewrite take_app_length.
  assert ((data ++ [x; y]) !!! length data = x) as -> by (by rewrite list_lookup_total_alt, lookup_app_r, Nat.sub_diag by lia).
  assert ((data ++ [x; y]) !!! S (length data) = y) as ->.
  { rewrite list_lookup_total_alt, lookup_app_r by lia. by replace (S (length data) - length data)%nat with 1%nat by lia. }
  match goal with |- context [match describe aio with Some _ => ?t | None => ?e end ≫= _] =>
    assert (exists w4, match describe aio with Some _ => t | None => e end w3 = (Ok tt, w4) /\ card w4 = card w3)
      as (w4 & E5 & C4) end.
  { destruct (describe aio); [apply trace_line_eq|by eexists]. }
  rewrite (io_bind_Ok_eq _ _ _ _ _ E5). rewrite (proj2 (Z.ltb_ge _ _)) by lia.
  exists w4. split; [by rewrite C4, C3|].
  destruct (advance_exchange _ _ _ _ _ _ _) as [[|next] acc']; [done|].
  by destruct (MAX_REASSEMBLED_RESPONSE <? zlen acc').
Qed.
End loop.

(** ** The T=0 card *)

Section t0.
Context {App : Type} (run : App -> list Z -> Answer * App) (s : T0Style) (Hs : style_ok s).
#[local] Instance t0_inst : PcscCard (T0 App) := t0_card run s.

Lemma t0_card_transmit cmd (c c' : T0 App) r : t0_transmit run s cmd c = (r, c') -> card_transmit cmd c = (Ok r, c').
Proof. intros Ht. cbn [card_transmit t0_inst t0_card]. by rewrite Ht. Qed.

(** Draining what the card holds, at most [k] pieces of it. *)
Lemma applet_drain k fuel debug aio cs rs acc n (w : World (T0 App)) :
  more_data_sw aio = 0x61 -> io_get_response aio = continue s ->
  polls (card w) = 0%nat -> pending (card w) <> [] ->
  (pending_sw (card w)).1 <> 0x61 -> (pending_sw (card w)).1 <> 0x6C ->
  zlen (pending (card w)) <= Z.of_nat k * piece s -> (k <= fuel)%nat -> n + Z.of_nat k <= MAX_RESPONSE_CHUNKS ->
  zlen acc + zlen (pending (card w)) <= MAX_REASSEMBLED_RESPONSE ->
  exists w', applet_loop fuel debug aio cs rs
      (resend_with_le (continue s) (cast 8 (Z.min (piece s) (zlen (pending (card w)))))) acc n w =
      (Ok (acc ++ pending (card w), (pending_sw (card w)).1 * 256 + (pending_sw (card w)).2), w') /\
    card w' = mkT0 (t0_app (card w)) [] (pending_sw (card w)) 0.
Proof.
  intros Hm Hg. revert fuel acc n w. induction k as [|k IH]; intros fuel acc n w Hpo Hne H61 H6C Hk Hf Hn Hacc.
  { destruct (pending (card w)); [done|]. zlen. pose proof (zlen_nonneg l). lia. }
  destruct fuel as [|fuel]; [lia|]. pose proof (t0_card_transmit _ _ _ _ (t0_piece run s Hs (card w) Hpo Hne)) as Ht.
  set (m := Z.to_nat (Z.min (piece s) (zlen (pending (card w))))) in *.
  destruct Hs as (_ & Hpc & _).
  assert (zlen (drop m (pending (card w))) = Z.max 0 (zlen (pending (card w)) - piece s)) as Hdl.
  { zlen. unfold m. pose proof (zlen_nonneg (pending (card w))). lia. }
  pose proof (take_drop m (pending (card w))) as Htd.
  destruct (drop m (pending (card w))) as [|b rest] eqn:Hd.
  - destruct (applet_loop_step fuel debug aio cs rs _ acc n w _ _ _ _ Ht ltac:(lia)) as (w' & Hc & Hstep).
    exists w'. split; [|done]. rewrite Hstep. unfold advance_exchange, classify_sw. rewrite Hm.
    rewrite !(proj2 (Z.eqb_neq _ _)) by done. rewrite app_nil_r in Htd. by rewrite Htd.
  - destruct (applet_loop_step fuel debug aio cs rs _ acc n w _ _ _ _ Ht ltac:(lia)) as (w1 & Hc & Hstep).
    rewrite Hstep. unfold advance_exchange, classify_sw. rewrite Hm, Hg, Z.eqb_refl.
    assert (zlen (take m (pending (card w))) + zlen (b :: rest) = zlen (pending (card w))) as Hsum
      by (rewrite <- zlen_app; by rewrite Htd).
    pose proof (zlen_nonneg (b :: rest)). pose proof (zlen_nonneg (take m (pending (card w)))).
    rewrite (proj2 (Z.ltb_ge _ _)) by (rewrite zlen_app; lia).
    destruct (IH fuel (acc ++ take m (pending (card w))) (n + 1) w1) as (w' & Hl & Hc'); rewrite ?Hc; cbn [polls pending pending_sw t0_app];
      try done; try lia; [rewrite zlen_app; lia|].
    exists w'. rewrite Hc in Hl, Hc'. cbn [polls pending pending_sw t0_app] in Hl, Hc'. split; [|done].
    rewrite Hl. by rewrite <- app_assoc, Htd.
Qed.

(** The first exchange of a command the card takes, then the rest. *)
Lemma applet_taken fuel k debug aio cs rs cmd n (w : World (T0 App)) a app' :
  more_data_sw aio = 0x61 -> io_get_response aio = continue s ->
  is_continue s cmd = false -> run (t0_app (card w)) cmd = (a, app') -> a_polls a = 0%nat ->
  exact_le s && ends_in_le cmd && (0 <? zlen (a_data a)) && negb (le_of cmd =? zlen (a_data a)) = false \/
    inline s < zlen (a_data a) ->
  a_sw1 a <> 0x61 -> a_sw1 a <> 0x6C ->
  zlen (a_data a) <= Z.of_nat k * piece s -> (S k <= fuel)%nat -> n + 1 + Z.of_nat k <= MAX_RESPONSE_CHUNKS ->
  zlen (a_data a) <= MAX_REASSEMBLED_RESPONSE ->
  exists w', applet_loop fuel debug aio cs rs cmd [] n w = (Ok (a_data a, a_sw1 a * 256 + a_sw2 a), w') /\
    card w' = mkT0 app' [] (a_sw1 a, a_sw2 a) 0.
Proof.
  intros Hm Hg Hc Hr Hp Hst H61 H6C Hk Hf Hn Hacc. destruct fuel as [|fuel]; [lia|].
  pose proof (zlen_nonneg (a_data a)) as Hd0. destruct Hs as (_ & Hpc & Hfi & Hi).
  assert (card_transmit cmd (card w) = let '(r, c') := t0_transmit run s cmd (card w) in (Ok r, c')) as Ht by done.
  unfold t0_transmit in Ht. rewrite Hc, Hr, Hp in Ht.
  destruct (zlen (a_data a) <=? inline s) eqn:Ei; bools.
  - destruct Hst as [Hst|]; [|lia]. rewrite Hst in Ht.
    destruct (applet_loop_step fuel debug aio cs rs _ [] n w _ _ _ _ Ht ltac:(lia)) as (w' & Hcd & Hstep).
    exists w'. split; [|done]. rewrite Hstep. unfold advance_exchange, classify_sw. rewrite Hm.
    by rewrite !(proj2 (Z.eqb_neq _ _)) by done.
  - destruct (applet_loop_step fuel debug aio cs rs _ [] n w _ _ _ _ Ht ltac:(lia)) as (w1 & Hcd & Hstep).
    rewrite Hstep. unfold advance_exchange, classify_sw. rewrite Hm, Hg, Z.eqb_refl. cbn [app].
    rewrite (proj2 (Z.ltb_ge _ _)) by (zlen; lia).
    assert (zlen (drop (Z.to_nat (first s)) (a_data a)) = zlen (a_data a) - first s) as Hdl by (zlen; lia).
    assert (pending (card w1) = drop (Z.to_nat (first s)) (a_data a)) as Hpend by by rewrite Hcd.
    destruct (applet_drain k fuel debug aio cs rs (take (Z.to_nat (first s)) (a_data a)) (n + 1) w1) as (w' & Hl & Hc');
      rewrite ?Hpend, ?Hcd; cbn [polls pending_sw fst snd]; try done; try lia.
    + intros He. rewrite He in Hdl. change (zlen (@nil Z)) with 0 in Hdl. lia.
    + zlen. lia.
    + exists w'. rewrite Hpend, Hcd in Hl. rewrite Hcd in Hc'. rewrite Hdl in Hl. cbn [pending_sw fst snd t0_app] in Hl, Hc'.
      rewrite take_drop in Hl. done.
Qed.
End t0.

(** ** Fuel *)

Section fuel.
Context {C : Type} `{PcscCard C}.

Lemma io_bind_cong {S E A B} (m : io S E A) (f g : A -> io S E B) w :
  (forall a w', f a w' = g a w') -> (m ≫= f) w = (m ≫= g) w.
Proof. intros Hfg. unfold mbind, io_bind. destruct (m w) as [[a|e] w']; [apply Hfg|done]. Qed.

Lemma applet_loop_fuel extra fuel debug aio cs rs to_send acc n (w : World C) :
  MAX_RESPONSE_CHUNKS + 1 - n <= Z.of_nat fuel -> n <= MAX_RESPONSE_CHUNKS ->
  applet_loop (fuel + extra) debug aio cs rs to_send acc n w = applet_loop fuel debug aio cs rs to_send acc n w.
Proof.
  revert to_send acc n w. induction fuel as [|fuel IH]; intros to_send acc n w Hf Hn; [lia|]. cbn [applet_loop Nat.add].
  do 2 (apply io_bind_cong; intros _ ?). apply io_bind_cong. intros resp ?. apply io_bind_cong. intros _ ?.
  destruct (zlen resp <? 2); [done|]. apply io_bind_cong. intros _ ?.
  destruct (MAX_RESPONSE_CHUNKS <? n + 1) eqn:E; bools; [done|].
  destruct (advance_exchange _ _ _ _ _ _ _) as [[|next] acc']; [done|].
  destruct (MAX_REASSEMBLED_RESPONSE <? zlen acc'); [done|]. apply IH; lia.
Qed.
End fuel.

(** The whole exchange with a T=0 card. *)
Lemma applet_exchange_t0 {App : Type} (run : App -> list Z -> Answer * App) (s : T0Style) (debug : bool)
    (aio : AppletIo) (cmd : list Z) (cs rs : bool) (w : World (T0 App)) (a : Answer) (app' : App) :
  style_ok s -> (ends_in_le cmd = true -> le_blind run cmd) -> io_get_response aio = continue s -> more_data_sw aio = 0x61 ->
  (4 <= length cmd)%nat -> is_continue s cmd = false ->
  run (t0_app (card w)) cmd = (a, app') -> a_polls a = 0%nat -> a_sw1 a <> 0x61 -> a_sw1 a <> 0x6C ->
  zlen (a_data a) <= MAX_REASSEMBLED_RESPONSE -> zlen (a_data a) <= 4094 * piece s ->
  exists w', transmit_applet (H := t0_card run s) debug aio cmd cs rs w =
      (Ok (a_data a, a_sw1 a * 256 + a_sw2 a), w') /\
    card w' = mkT0 app' [] (a_sw1 a, a_sw2 a) 0.
Proof.
  intros Hs Hle Hg Hm Hl Hc Hr Hp H61 H6C Hmax Hpc.
  pose (t0_inst := t0_card run s). unfold transmit_applet.
  assert (exists f, applet_fuel = S f /\ (4096 <= f)%nat) as (f & -> & Hf) by (exists (pred applet_fuel); unfold applet_fuel, MAX_RESPONSE_CHUNKS; lia).
  destruct (exact_le s && ends_in_le cmd && (0 <? zlen (a_data a)) && negb (le_of cmd =? zlen (a_data a)) &&
    (zlen (a_data a) <=? inline s)) eqn:E.
  - apply andb_true_iff in E as [E1 E2]. bools.
    assert (card_transmit (PcscCard := t0_inst) cmd (card w) = (Ok ([] ++ [0x6C; cast 8 (zlen (a_data a))]), card w)) as Ht.
    { cbn. unfold t0_transmit. rewrite Hc, Hr, Hp. rewrite (proj2 (Z.leb_le _ _)) by lia.
      repeat match goal with Hb : ?b = true |- _ => rewrite Hb; clear Hb end.
      rewrite (proj2 (Z.ltb_lt _ _)), (proj2 (Z.eqb_neq _ _)) by done. done. }
    destruct (applet_loop_step f debug aio cs rs _ [] 0 w _ _ _ _ Ht ltac:(unfold MAX_RESPONSE_CHUNKS; lia)) as (w1 & Hcd & Hstep).
    destruct Hs as (Hs1 & Hs2 & Hs3 & Hs4).
    assert (le_of (resend_with_le cmd (cast 8 (zlen (a_data a)))) = zlen (a_data a)) as Hlo.
    { rewrite t0_resend_le by (apply cast_word; lia). unfold cast. destruct (decide (zlen (a_data a) = 256)) as [->|]; [done|].
      rewrite Z.mod_small by lia. by rewrite (proj2 (Z.eqb_neq _ _)) by lia. }
    destruct (applet_taken run s (conj Hs1 (conj Hs2 (conj Hs3 Hs4))) f (Z.to_nat 4094) debug aio cs rs
      (resend_with_le cmd (cast 8 (zlen (a_data a)))) 1 w1 a app') as (w' & Hl' & Hc'); try done; try (unfold MAX_RESPONSE_CHUNKS; lia).
    + by apply is_continue_command.
    + by rewrite Hcd, (Hle ltac:(done)).
    + exists w'. split; [|done]. fold t0_inst. rewrite Hstep. unfold advance_exchange, classify_sw. rewrite Hm. exact Hl'.
  - destruct (applet_taken run s Hs (S f) (Z.to_nat 4094) debug aio cs rs cmd 0 w a app') as (w' & Hl' & Hc'); try done;
      try (unfold MAX_RESPONSE_CHUNKS; lia).
    + apply andb_false_iff in E as [E|E]; [by left|right; bools; lia].
    + exists w'. split; [|done]. exact Hl'.
Qed.

(** ** What reaches the trace *)

Lemma adds_transmit {C} `{PcscCard C} (P : list Z -> Prop) debug lbl apdu :
  (forall e, P (format_line Received lbl (s2b "PC/SC error: " ++ pcsc_text e))) -> adds_only P (transmit_traced debug lbl apdu).
Proof.
  intros He w. unfold transmit_traced, transmit. destruct (card_transmit apdu (card w)) as [[r|e] c]; [by apply adds_refl|].
  eapply adds_trans; [|apply adds_bind; [by apply adds_trace|intros; apply adds_lift]]. by apply adds_refl.
Qed.

#[export] Hint Resolve adds_transmit : kr.

(** A line that shows of a command at most its five-byte header, of an answer at
    most its status word, and a PC/SC error. *)
Definition redacted_applet_line (errors : list Z -> Prop) (lbl line : list Z) : Prop :=
  (exists h, zlen h <= 5 /\ line = format_line Sent lbl (hex_dump h)) \/
  (exists h n, zlen h = 5 /\ line = format_line Sent lbl (hex_dump h ++ s2b " [" ++ dec n ++ s2b " data bytes redacted]")) \/
  (exists sw, zlen sw <= 2 /\ line = format_line Received lbl (hex_dump sw)) \/
  (exists sw n, zlen sw = 2 /\ line = format_line Received lbl (s2b "[" ++ dec n ++ s2b " data bytes redacted] " ++ hex_dump sw)) \/
  (exists e, errors e /\ line = format_line Received lbl (s2b "PC/SC error: " ++ e)).

Lemma dump_cmd_redacted errors lbl apdu : redacted_applet_line errors lbl (format_line Sent lbl (dump_cmd apdu true)).
Proof.
  unfold dump_cmd. cbn [negb orb]. destruct (zlen apdu <=? 5) eqn:E; bools; [left; eauto|]. right. left.
  exists (take 5 apdu), (zlen apdu - 5). split; [zlen; lia|done].
Qed.

Lemma dump_resp_redacted errors lbl resp : redacted_applet_line errors lbl (format_line Received lbl (dump_resp resp true)).
Proof.
  unfold dump_resp. cbn [negb orb]. do 2 right. destruct (zlen resp <=? 2) eqn:E; bools; [left; eauto|]. right. left.
  exists (drop (length resp - 2) resp), (zlen resp - 2). split; [|done]. zlen. unfold zlen in *. lia.
Qed.

Lemma applet_loop_adds {C} `{PcscCard C} (P : list Z -> Prop) fuel debug aio cs rs to_send acc n :
  describe aio = None ->
  (forall x, P (format_line Sent (label aio) (dump_cmd x cs))) ->
  (forall y, P (format_line Received (label aio) (dump_resp y rs))) ->
  (forall e : PcscError C, P (format_line Received (label aio) (s2b "PC/SC error: " ++ pcsc_text e))) ->
  adds_only P (applet_loop fuel debug aio cs rs to_send acc n).
Proof.
  intros Hd Hc Hr He. revert to_send acc n. induction fuel as [|fuel IH]; intros to_send acc n; cbn [applet_loop]; [auto with kr|].
  rewrite Hd. apply adds_bind; [auto with kr|intros _]. apply adds_bind; [auto with kr|intros _].
  apply adds_bind; [auto with kr|intros resp]. apply adds_bind; [auto with kr|intros _].
  destruct (zlen resp <? 2); [auto with kr|]. apply adds_bind; [auto with kr|intros _].
  destruct (MAX_RESPONSE_CHUNKS <? n + 1); [auto with kr|].
  destruct (advance_exchange _ _ _ _ _ _ _) as [[|next] acc']; [auto with kr|].
  destruct (MAX_REASSEMBLED_RESPONSE <? zlen acc'); [auto with kr|apply IH].
Qed.

(** * Properties *)

(** C35: an applet command is answered in full, and done once. Against any T=0
    card (whatever the size of its pieces, whether it sends a first part along,
    whether it insists on the exact Le), for any applet behind it that takes a
    command for the same whatever its Le: the exchange returns the applet's whole
    answer and status word, and the applet has executed the command exactly
    once, no 61xx or 6Cxx on the way running it again; up to a megabyte or 4094
    pieces. (These cards take any Le in a request to continue; a 6Cxx to one is
    not among their answers.) On any card at all the exchange ends: more fuel changes nothing. *)
Theorem applet_exchange_whole {App : Type} (run : App -> list Z -> Answer * App) (s : T0Style) (debug : bool)
    (aio : AppletIo) (cmd : list Z) (cs rs : bool) (w : World (T0 App)) (a : Answer) (app' : App) :
  style_ok s -> le_blind run cmd -> io_get_response aio = continue s -> more_data_sw aio = 0x61 ->
  (4 <= length cmd)%nat -> is_continue s cmd = false ->
  run (t0_app (card w)) cmd = (a, app') -> a_polls a = 0%nat -> a_sw1 a <> 0x61 -> a_sw1 a <> 0x6C ->
  zlen (a_data a) <= MAX_REASSEMBLED_RESPONSE -> zlen (a_data a) <= 4094 * piece s ->
  (exists w', transmit_applet (H := t0_card run s) debug aio cmd cs rs w =
      (Ok (a_data a, a_sw1 a * 256 + a_sw2 a), w') /\
    card w' = mkT0 app' [] (a_sw1 a, a_sw2 a) 0) /\
  (forall C (H : PcscCard C) (wc : World C) extra,
    applet_loop (applet_fuel + extra) debug aio cs rs cmd [] 0 wc = transmit_applet debug aio cmd cs rs wc).
Proof.
  intros. split; [by apply applet_exchange_t0; auto|].
  intros. apply applet_loop_fuel; unfold applet_fuel, MAX_RESPONSE_CHUNKS; lia.
Qed.

(** An applet counting its runs, answering 300 bytes in pieces of 100 to exact Les. *)
Definition counting : Z -> list Z -> Answer * Z := fun n _ => (mkAnswer (replicate 300 7) 0x90 0x00 0, n + 1).
Definition picky : T0Style := mkStyle get_response 100 256 0 true.
Definition plain_io : AppletIo := mkIo (s2b "oath") 0x61 get_response None.
Definition counting_world : World (T0 Z) := mkWorld (mkT0 0 [] (0, 0) 0) None [].

Lemma applet_exchange_whole_witness :
  (exists w', transmit_applet (H := t0_card counting picky) false plain_io [0; 0xA1; 0; 0; 0] false false counting_world =
      (Ok (replicate 300 7, 0x90 * 256 + 0x00), w') /\
    card w' = mkT0 1 [] (0x90, 0x00) 0) /\
  (forall C (H : PcscCard C) (wc : World C) extra,
    applet_loop (applet_fuel + extra) false plain_io false false [0; 0xA1; 0; 0; 0] [] 0 wc =
    transmit_applet false plain_io [0; 0xA1; 0; 0; 0] false false wc).
Proof.
  apply (applet_exchange_whole counting picky false plain_io [0; 0xA1; 0; 0; 0] false false counting_world
    (mkAnswer (replicate 300 7) 0x90 0x00 0) 1); try done; try (vm_compute; discriminate); try (simpl; lia).
Defined.
