(* ===== verification/OathSession.v ===== *)
(** keyroost-transport/src/oath.rs and recover.rs: the OATH session over a
    reader's card: opening (and its one retry), the password, listing, codes and
    writes. A call takes the session and leaves it; the random source is the list
    of what the operating system will give. *)
From S2P Require Export Applet.

Definition SW_SECURITY_NOT_SATISFIED : Z := 0x6982.
Definition SW_OK : Z := 0x9000.
Definition SW_MORE_DATA : Z := 0x61.

(** Which halves of an exchange a trace hides. *)
Definition trace_sensitivity (apdu : list Z) : bool * bool :=
  let ins := apdu !! 1%nat in
  let is_select := bool_decide (ins = Some 0xA4) && bool_decide (apdu !! 2%nat = Some 0x04) in
  match ins with
  | Some i => (bool_decide (i ∈ [0x01; 0x02; 0x03; 0x05; 0xA2; 0xA3]),
               negb is_select && ((0xA1 <=? i) && (i <=? 0xA4)))
  | None => (false, false)
  end.

Definition version_of (v : list Z) : option (Z * Z * Z) :=
  match v with [a; b; c] => Some (a, b, c) | _ => None end.

Definition ok_or_apdu {PE} (label : list Z) (sw : Z) : result (TransportError PE) unit :=
  if sw =? SW_OK then Ok tt else Err (TApdu label (cast 8 (Z.shiftr sw 8)) (cast 8 sw)).

(** A builder's panic. *)
Definition or_panic {S PE A} (o : option A) : io S (TransportError PE) A :=
  match o with Some a => mret a | None => lift (Err TPanic) end.

(** [SelectInfo::default()]. *)
Definition default_select : SelectInfo := mkSelect [] [] None None.

(** * The session *)

Record OathSession (C : Type) := mkSession {
  s_world : World C; s_debug : bool; s_info : SelectInfo; s_key : option (list Z);
  s_rng : list (option (list Z))
}.
Arguments mkSession {C} _ _ _ _ _.
Arguments s_world {C} _.
Arguments s_debug {C} _.
Arguments s_info {C} _.
Arguments s_key {C} _.
Arguments s_rng {C} _.

Section session.
Context {C : Type} `{PcscCard C}.
Local Notation PE := (PcscError C).
Local Notation TE := (TransportError PE).
Local Notation session := (io (OathSession C) TE).

Definition set_info (i : SelectInfo) (s : OathSession C) : OathSession C :=
  mkSession (s_world s) (s_debug s) i (s_key s) (s_rng s).
Definition set_challenge (c : option (list Z)) (s : OathSession C) : OathSession C :=
  let i := s_info s in set_info (mkSelect (s_version i) (s_device_id i) c (s_serial i)) s.
Definition set_key (k : option (list Z)) (s : OathSession C) : OathSession C :=
  mkSession (s_world s) (s_debug s) (s_info s) k (s_rng s).

Definition oath_io (i : SelectInfo) : AppletIo :=
  mkIo (s2b "oath") SW_MORE_DATA
    (match more_data i with SendRemaining => send_remaining | GetResponse => get_response end) None.

Definition transmit_full (apdu : list Z) : session (list Z * Z) := fun s =>
  let '(cmd_sensitive, resp_sensitive) := trace_sensitivity apdu in
  let '(r, w) := transmit_applet (s_debug s) (oath_io (s_info s)) apdu cmd_sensitive resp_sensitive (s_world s) in
  (r, mkSession w (s_debug s) (s_info s) (s_key s) (s_rng s)).

(** [getrandom::fill] on eight bytes. *)
Definition random_challenge : session (list Z) := fun s =>
  match s_rng s with
  | Some c :: r => (Ok c, mkSession (s_world s) (s_debug s) (s_info s) (s_key s) r)
  | None :: r => (Err THostRngFailed, mkSession (s_world s) (s_debug s) (s_info s) (s_key s) r)
  | [] => (Err THostRngFailed, s)
  end.

Definition version (s : OathSession C) : option (Z * Z * Z) := version_of (s_version (s_info s)).

Definition select_applet : session unit :=
  apdu ← or_panic select;
  '(data, sw) ← transmit_full apdu;
  _ ← lift (ok_or_apdu (s2b "select oath applet") sw);
  info ← lift (map_err TOathParse (parse_select data));
  io_modify (set_info info).

Definition validate_with (key : list Z) : session unit :=
  info ← io_gets s_info;
  match s_challenge info with
  | None => mret tt
  | Some card_challenge =>
      host_challenge ← random_challenge;
      apdu ← or_panic (validate key card_challenge host_challenge);
      '(data, sw) ← transmit_full apdu;
      if (sw =? 0x6A80) || (sw =? 0x6982) then lift (Err TOathPasswordRejected) else
      _ ← lift (ok_or_apdu (s2b "oath validate") sw);
      ok ← lift (map_err TOathParse (verify_validate key host_challenge data));
      if negb ok then lift (Err (TMalformedResponse (s2b "OATH card failed mutual authentication"))) else mret tt
  end.

Definition unlock (password : list Z) : session unit :=
  info ← io_gets s_info;
  match s_challenge info with
  | None => mret tt
  | Some _ =>
      let key := derive_access_key password (s_device_id info) in
      _ ← validate_with key;
      io_modify (set_key (Some key))
  end.

Definition reauthenticate : session bool :=
  key ← io_gets s_key;
  match key with
  | None => mret false
  | Some key =>
      _ ← select_applet;
      info ← io_gets s_info;
      match s_challenge info with
      | None => mret true
      | Some _ => _ ← validate_with key; mret true
      end
  end.

Definition set_password (password : list Z) : session unit :=
  info ← io_gets s_info;
  let key := derive_access_key password (s_device_id info) in
  challenge ← random_challenge;
  apdu ← or_panic (set_code key challenge);
  '(_, sw) ← transmit_full apdu;
  _ ← lift (ok_or_apdu (s2b "oath set code") sw);
  _ ← io_modify (set_challenge (Some challenge));
  io_modify (set_key (Some key)).

Definition clear_password : session unit :=
  apdu ← or_panic clear_code;
  '(_, sw) ← transmit_full apdu;
  _ ← lift (ok_or_apdu (s2b "oath clear code") sw);
  _ ← io_modify (set_challenge None);
  io_modify (set_key None).

Definition write_answer (label action : list Z) (sw : Z) : session unit :=
  info ← io_gets s_info;
  if (sw =? SW_SECURITY_NOT_SATISFIED) && negb (password_required info) then lift (Err (TOathNoTouch action))
  else lift (ok_or_apdu label sw).

Definition factory_reset : session unit :=
  '(_, sw) ← transmit_full reset_apdu;
  _ ← write_answer (s2b "oath reset") (s2b "reset its Authenticator app") sw;
  _ ← io_modify (set_challenge None);
  io_modify (set_key None).

Definition list_plain : session Listing :=
  '(data, sw) ← transmit_full list_apdu;
  _ ← lift (ok_or_apdu (s2b "oath list") sw);
  lift (map_err TOathParse (parse_list data)).

Definition session_list : session Listing :=
  info ← io_gets s_info;
  if lists_properties info then
    apdu ← or_panic list_with_properties;
    '(data, sw) ← transmit_full apdu;
    if sw =? 0x9000 then
      match parse_list_with_properties data with Ok listing => mret listing | Err _ => list_plain end
    else list_plain
  else list_plain.

Definition calculate_totp (name : list Z) (unix_time period : Z) : session OtpCode :=
  challenge ← or_panic (totp_challenge unix_time period);
  apdu ← lift (map_err (fun _ => TOathCredentialTooLong) (calculate name challenge));
  '(data, sw) ← transmit_full apdu;
  _ ← write_answer (s2b "oath calculate") (s2b "compute the code") sw;
  lift (map_err TOathParse (parse_calculate data)).

Definition session_calculate_all (unix_time : Z) : session CalculateAllOut :=
  challenge ← or_panic (totp_challenge unix_time 30);
  apdu ← or_panic (calculate_all challenge);
  '(data, sw) ← transmit_full apdu;
  _ ← lift (ok_or_apdu (s2b "oath calculate all") sw);
  lift (map_err TOathParse (parse_calculate_all data)).

Definition session_calculate_hotp (name : list Z) : session OtpCode :=
  apdu ← lift (map_err (fun _ => TOathCredentialTooLong) (calculate_hotp name));
  '(data, sw) ← transmit_full apdu;
  _ ← write_answer (s2b "oath calculate (hotp)") (s2b "compute the code") sw;
  lift (map_err TOathParse (parse_calculate data)).

Definition put_status (params : PutParams) : session Z :=
  apdu ← lift (map_err (fun _ => TOathCredentialTooLong) (put params));
  '(_, sw) ← transmit_full apdu;
  mret sw.
Definition session_put (params : PutParams) : session unit :=
  sw ← put_status params; write_answer (s2b "oath put") (s2b "save the account") sw.

Definition delete_status (name : list Z) : session Z :=
  apdu ← lift (map_err (fun _ => TOathCredentialTooLong) (delete name));
  '(_, sw) ← transmit_full apdu;
  mret sw.
Definition session_delete (name : list Z) : session unit :=
  sw ← delete_status name; write_answer (s2b "oath delete") (s2b "delete the account") sw.

(** * recover.rs: the opening *)

Definition is_card_reset_or_absent (e : PE) : bool :=
  match pcsc_kind e with ResetCard | RemovedCard | NoSmartcard | NotTransacted => true | _ => false end.

Record FirstContact := mkContact { tries : Z; opened : bool }.

Definition should_retry (tries : Z) (opened : bool) (e : TE) : bool :=
  (tries =? 0) && negb opened && match e with TPcsc pe => is_card_reset_or_absent pe | _ => false end.

(** Where the thread's trace goes, between two cards. *)
Definition Host : Type := Capture * list (list Z).
Definition host_line (debug : bool) (line : list Z) (h : Host) : Host :=
  let '(printed, cap) := emit debug line h.1 in (cap, h.2 ++ printed).

(** The wait itself has no effect on the program's state. *)
Definition retry_or_fail (debug : bool) (label : list Z) (c : FirstContact) (e : TE) (h : Host) :
    result TE FirstContact * Host :=
  if negb (should_retry (tries c) (opened c) e) then (Err e, h) else
  match e with
  | TPcsc pe =>
      (Ok (mkContact (tries c + 1) (opened c)),
       host_line debug (format_line Note label
         (s2b "PC/SC error: " ++ pcsc_text pe ++ s2b "; waiting for the card to reconnect")) h)
  | _ => (Err e, h)
  end.

Definition contact_opened (debug : bool) (label : list Z) (c : FirstContact) (h : Host) : Host :=
  if 0 <? tries c then
    host_line debug (format_line Note label (s2b "reopened after the card was reset or briefly gone")) h
  else h.

(** What the PC/SC service does when the opening asks for the [n]th time. *)
Record Attempt := mkAttempt { a_context : option PE; a_connect : result PE C; a_begin : option PE }.

Fixpoint open_loop (fuel : nat) (attempts : Z -> Attempt) (debug : bool) (rng : list (option (list Z)))
    (contact : FirstContact) (h : Host) : result TE (OathSession C) * Host :=
  let a := attempts (tries contact) in
  let again e h :=
    let '(r, h) := retry_or_fail debug (s2b "oath") contact e h in
    match r with
    | Err e => (Err e, h)
    | Ok contact => match fuel with O => (Err e, h) | S fuel => open_loop fuel attempts debug rng contact h end
    end in
  match a_context a with
  | Some e => (Err (TPcscUnavailable e), h)
  | None =>
      match a_connect a with
      | Err e => again (TPcsc e) h
      | Ok c =>
          match a_begin a with
          | Some e => again (TPcsc e) h
          | None =>
              let '(r, s) := select_applet (mkSession (mkWorld c h.1 h.2) debug default_select None rng) in
              let h := (capture (s_world s), stderr (s_world s)) in
              match r with
              | Ok _ =>
                  let h := contact_opened debug (s2b "oath") contact h in
                  (Ok (mkSession (mkWorld (card (s_world s)) h.1 h.2) debug (s_info s) (s_key s) (s_rng s)), h)
              | Err e => again e h
              end
          end
      end
  end.

Definition open_traced (reader_name : list Z) (attempts : Z -> Attempt) (debug : bool) (rng : list (option (list Z)))
    (h : Host) : result TE (OathSession C) * Host :=
  if bool_decide (0 ∈ reader_name) then (Err (TMalformedResponse (s2b "reader name contained NUL")), h)
  else open_loop 1 attempts debug rng (mkContact 0 false) h.
End session.

(** * A reference authenticator behind the card *)

Record Authenticator := mkAuth {
  au_version : list Z; au_id : list Z; au_key : option (list Z);
  au_challenges : nat -> list Z; au_selects : nat;  (* a fresh challenge each SELECT *)
  au_unlocked : bool; au_creds : list StoredCred
}.
Definition au_challenge (a : Authenticator) : list Z := au_challenges a (au_selects a).

(** Locked: a password is set and not given since the SELECT. *)
Definition locked (a : Authenticator) : bool := bool_decide (is_Some (au_key a)) && negb (au_unlocked a).

Definition select_tlvs (a : Authenticator) : list Tlv :=
  [mkTlv (tag_code TVersion) (au_version a); mkTlv (tag_code TName) (au_id a)] ++
  (if au_key a is Some _ then [mkTlv (tag_code TChallenge) (au_challenge a)] else []).

Definition set_auth (key : option (list Z)) (unlocked : bool) (creds : list StoredCred) (a : Authenticator) :
    Authenticator :=
  mkAuth (au_version a) (au_id a) key (au_challenges a) (au_selects a) unlocked creds.
Definition selected (a : Authenticator) : Authenticator :=
  mkAuth (au_version a) (au_id a) (au_key a) (au_challenges a) (S (au_selects a)) false (au_creds a).

(** A command other than SELECT and RESET, without its Le. *)
Definition auth_command (a : Authenticator) (ins : Z) (body : list Z) : Answer * Authenticator :=
  if ins =? 0xA3 then
    match au_key a with
    | Some k =>
        match card_validate k (au_challenge a) (body ++ [0]) with
        | Some reply => (answer_ok reply, set_auth (au_key a) true (au_creds a) a)
        | None => (answer_sw 0x6A 0x80, a)
        end
    | None => (answer_sw 0x69 0x84, a)
    end
  else if locked a then (answer_sw 0x69 0x82, a)
  else if ins =? 0x03 then
    match card_set_code body with
    | Some [] => (answer_ok [], set_auth None true (au_creds a) a)
    | Some k => (answer_ok [], set_auth (Some k) true (au_creds a) a)
    | None => (answer_sw 0x6A 0x80, a)
    end
  else if ins =? 0x01 then
    match card_put (drop 5 body) with
    | Some c => (answer_ok [], set_auth (au_key a) (au_unlocked a)
        (c :: List.filter (fun c' => negb (bool_decide (sc_name c' = sc_name c))) (au_creds a)) a)
    | None => (answer_sw 0x6A 0x80, a)
    end
  else if ins =? 0xA1 then
    (answer_ok (tlvs_bytes ((fun c => mkTlv (tag_code TNameList)
       (list_value (mkCred (sc_name c) (sc_type c) (sc_algorithm c)))) <$> au_creds a)), a)
  else if ins =? 0xA2 then
    match find_map (fun c => card_calculate c (body ++ [0])) (au_creds a) with
    | Some reply => (answer_ok reply, a)
    | None => (answer_sw 0x69 0x84, a)
    end
  else (answer_sw 0x6D 0x00, a).

(** One command, its Le aside. *)
Definition auth_run (a : Authenticator) (cmd : list Z) : Answer * Authenticator :=
  let body := strip_le cmd in
  if bool_decide (body = [0x00; 0xA4; 0x04; 0x00; 0x07] ++ AID) then
    (answer_ok (tlvs_bytes (select_tlvs (selected a))), selected a)
  else if bool_decide (body = [0x00; 0x04; 0xDE; 0xAD]) then
    (answer_ok [], set_auth None false [] a)
  else auth_command a (body !!! 1%nat) body.

(** * Lemmas *)

Lemma auth_le_blind b : apdu_ok b -> le_blind auth_run (apdu_bytes b).
Proof.
  intros Hok a le. unfold auth_run. enough (strip_le (resend_with_le (apdu_bytes b) le) = strip_le (apdu_bytes b)) as -> by done.
  rewrite resend_apdu by done. rewrite !strip_le_bytes by (done || by apply with_le_ok). by destruct b.
Qed.

(** ** Which commands a trace hides *)

Lemma finish_apdu_ins ins p1 p2 d a : finish_apdu ins p1 p2 d = Ok a -> a !! 1%nat = Some ins.
Proof.
  unfold finish_apdu, try_build_apdu. destruct (255 <? zlen d); [done|]. by intros <-%Ok_inj.
Qed.

Lemma build_apdu_ins cla ins p1 p2 d a : build_apdu cla ins p1 p2 d = Some a -> a !! 1%nat = Some ins.
Proof. unfold build_apdu, try_build_apdu. destruct (255 <? zlen d); [done|]. by intros [= <-]. Qed.

Lemma with_le0_ins a ins : a !! 1%nat = Some ins -> with_le0 a !! 1%nat = Some ins.
Proof. intros Ha. unfold with_le0. by apply lookup_app_l_Some. Qed.

Lemma sensitivity_of a ins :
  a !! 1%nat = Some ins -> ins ∈ [0x01; 0x02; 0x03; 0x05; 0xA2; 0xA3] ->
  trace_sensitivity a = (true, (0xA1 <=? ins) && (ins <=? 0xA4)).
Proof.
  intros Ha Hin. unfold trace_sensitivity. rewrite Ha. rewrite !bool_decide_true by done.
  rewrite bool_decide_false; [done|]. intros [= ->]. rewrite !elem_of_cons, elem_of_nil in Hin. lia.
Qed.

Lemma calculate_with_ins name ch a : calculate_with name ch = Ok a -> a !! 1%nat = Some 0xA2.
Proof.
  unfold calculate_with. intros Ha. inv_bind Ha. unfold fmap, result_fmap in Ha.
  destruct (finish_apdu _ _ _ _) as [b|] eqn:E; [|done]. apply Ok_inj in Ha as <-. by apply finish_apdu_ins, with_le0_ins in E.
Qed.

(** ** One command of a session *)

Section on_card.
Context (st : T0Style) (Hst : style_ok st) (Hcont : continue st = send_remaining).
#[local] Instance card_inst : PcscCard (T0 Authenticator) := t0_card auth_run st.
Local Notation session := (OathSession (T0 Authenticator)).

(** The authenticator behind the session's card. *)
Definition authenticator (s : session) : Authenticator := t0_app (card (s_world s)).

(** Only the world changed, its authenticator now [a]. *)
Definition moved (s s' : session) (a : Authenticator) : Prop :=
  authenticator s' = a /\ s_debug s' = s_debug s /\ s_info s' = s_info s /\ s_key s' = s_key s /\ s_rng s' = s_rng s.

Lemma transmit_full_step (s : session) b ans a' :
  apdu_ok b -> s_serial (s_info s) = None -> (apdu_bytes b !!! 1%nat) <> 0xA5 ->
  auth_run (authenticator s) (apdu_bytes b) = (ans, a') -> a_polls ans = 0%nat ->
  a_sw1 ans <> 0x61 -> a_sw1 ans <> 0x6C -> zlen (a_data ans) <= 4094 ->
  exists s', transmit_full (apdu_bytes b) s = (Ok (a_data ans, a_sw1 ans * 256 + a_sw2 ans), s') /\ moved s s' a'.
Proof.
  intros Hok Hser Hins Hr Hp H61 H6C Hz. unfold transmit_full. destruct (trace_sensitivity (apdu_bytes b)) as [cs rs].
  pose proof Hst as (_ & Hpc & _).
  destruct (applet_exchange_t0 auth_run st (s_debug s) (oath_io (s_info s)) (apdu_bytes b) cs rs (s_world s) ans a')
    as (w' & Ht & Hc); try done.
  - intros _. by apply auth_le_blind.
  - unfold oath_io, more_data. by rewrite Hser.
  - destruct b; simpl; lia.
  - unfold is_continue. rewrite Hcont. apply bool_decide_eq_false. intros He. apply Hins.
    destruct b; injection He; intros; subst; reflexivity.
  - unfold MAX_REASSEMBLED_RESPONSE. lia.
  - nia.
  - unfold card_inst. rewrite Ht. eexists. split; [done|]. unfold moved, authenticator. cbn. by rewrite Hc.
Qed.

(** What the session knows of the authenticator after a SELECT. *)
Definition select_info_of (a : Authenticator) : SelectInfo :=
  mkSelect (au_version a) (au_id a) (if au_key a is Some _ then Some (au_challenge a) else None) None.

Definition auth_wf (a : Authenticator) : Prop :=
  zlen (au_version a) <= 64 /\ zlen (au_id a) <= 64 /\ (forall n, 1 <= zlen (au_challenges a n) <= 64).

Lemma zlen_tlvs_bytes ts : zlen (tlvs_bytes ts) = fold_right (fun t n => 2 + zlen (tlv_value t) + n) 0 ts.
Proof. induction ts as [|t ts IH]; [done|]. cbn [tlvs_bytes flat_map fold_right]. fold (tlvs_bytes ts). zlen. lia. Qed.

Lemma select_step (s : session) :
  auth_wf (authenticator s) -> s_serial (s_info s) = None ->
  exists s', select_applet s = (Ok tt, s') /\ authenticator s' = selected (authenticator s) /\
    s_info s' = select_info_of (selected (authenticator s)) /\
    s_debug s' = s_debug s /\ s_key s' = s_key s /\ s_rng s' = s_rng s.
Proof.
  intros (Hv & Hi & Hc) Hser. set (a := authenticator s) in *. unfold select_applet.
  assert (auth_run a (apdu_bytes (Case4 0x00 0xA4 0x04 0x00 AID 0)) = (answer_ok (tlvs_bytes (select_tlvs (selected a))), selected a)) as Hr by done.
  destruct (transmit_full_step s (Case4 0x00 0xA4 0x04 0x00 AID 0) _ _ ltac:(done) Hser ltac:(done) Hr) as (s1 & Ht & Hm); try done.
  { cbn [a_data answer_ok]. rewrite zlen_tlvs_bytes. unfold select_tlvs. pose proof (Hc (S (au_selects a))).
    destruct (au_key (selected a)); cbn -[Z.add]; unfold au_challenge; cbn -[Z.add]; lia. }
  assert (select = Some (apdu_bytes (Case4 0x00 0xA4 0x04 0x00 AID 0))) as -> by done.
  cbn [or_panic]. unfold mbind at 1, io_bind at 1. cbn [mret io_ret].
  rewrite (io_bind_Ok_eq _ _ _ _ _ Ht). cbn [a_data a_sw1 a_sw2 answer_ok].
  change (ok_or_apdu (PE := PcscKind) (s2b "select oath applet") (0x90 * 256 + 0x00)) with (@Ok (TransportError PcscKind) unit tt).
  assert (parse_select (tlvs_bytes (select_tlvs (selected a))) = Ok (select_info_of (selected a))) as Hp.
  { unfold parse_select. rewrite parse_tlvs_bytes. cbn [mbind result_bind]. unfold select_tlvs, select_info_of.
    destruct (au_key (selected a)); [|done]. unfold find_tag. cbn -[au_challenge].
    assert (1 <= zlen (au_challenge (selected a))) as Hz by apply Hc.
    by rewrite (proj2 (Z.eqb_neq _ _)) by lia. }
  eexists. cbv beta iota. unfold mbind, io_bind, lift, io_modify. cbn [map_err]. rewrite Hp. cbn [map_err].
  destruct Hm as (Ha & Hd & _ & Hk & Hrng). split; [done|]. cbn. auto.
Qed.

Lemma auth_run_command a b :
  apdu_ok b -> strip_le (apdu_bytes b) !!! 1%nat <> 0xA4 -> strip_le (apdu_bytes b) !!! 1%nat <> 0x04 ->
  auth_run a (apdu_bytes b) = auth_command a (strip_le (apdu_bytes b) !!! 1%nat) (strip_le (apdu_bytes b)).
Proof.
  intros Hok H1 H2. unfold auth_run. rewrite !bool_decide_false; [done| |]; intros He; rewrite He in H1, H2; done.
Qed.

(** The bodies and APDUs of the handshake. *)
Definition validate_data (key cc hc : list Z) : list Z := tlv_bytes TResponse (hmac_sha1 key cc) ++ tlv_bytes TChallenge hc.
Definition set_code_data (key ch : list Z) : list Z :=
  tlv_bytes TKey (0x21 :: key) ++ tlv_bytes TChallenge ch ++ tlv_bytes TResponse (hmac_sha1 key ch).

Lemma validate_apdu key cc hc :
  zlen hc <= 64 -> validate key cc hc = Some (apdu_bytes (Case4 0 0xA3 0 0 (validate_data key cc hc) 0)) /\
    apdu_ok (Case4 0 0xA3 0 0 (validate_data key cc hc) 0).
Proof.
  intros Hh. rewrite validate_ok by done. unfold validate_data. split; [cbn [apdu_bytes]; by rewrite <- !app_assoc|].
  cbn. unfold tlv_bytes. pose proof (zlen_nonneg hc). zlen. rewrite hmac_zlen. lia.
Qed.

Lemma set_code_apdu key ch :
  zlen key <= 64 -> zlen ch <= 64 -> set_code key ch = Some (apdu_bytes (Case3 0 0x03 0 0 (set_code_data key ch))) /\
    apdu_ok (Case3 0 0x03 0 0 (set_code_data key ch)).
Proof.
  intros Hk Hh. rewrite set_code_ok by done. split; [done|].
  cbn. unfold set_code_data, tlv_bytes. pose proof (zlen_nonneg ch). pose proof (zlen_nonneg key). zlen. rewrite hmac_zlen. lia.
Qed.

(** The authenticator's part of VALIDATE, whatever challenge was answered. *)
Lemma auth_validate a k key cc hc :
  au_key a = Some k -> zlen hc <= 64 ->
  auth_run a (apdu_bytes (Case4 0 0xA3 0 0 (validate_data key cc hc) 0)) =
  if bool_decide (hmac_sha1 key cc = hmac_sha1 k (au_challenge a))
  then (answer_ok (tlv_bytes TResponse (hmac_sha1 k hc)), set_auth (Some k) true (au_creds a) a)
  else (answer_sw 0x6A 0x80, a).
Proof.
  intros Hk Hh. destruct (validate_apdu key cc hc Hh) as [_ Hok].
  pose proof (strip_le_bytes _ Hok) as Hs. cbv iota in Hs.
  rewrite auth_run_command by (exact Hok || by rewrite Hs). rewrite Hs. cbn [app lookup_total list_lookup_total]. unfold auth_command.
  change (0xA3 =? 0xA3) with true. cbv iota. rewrite Hk.
  pose proof (card_validate_other key k cc (au_challenge a) hc Hh) as Hv. unfold validate_data.
  cbn [app] in Hv |- *. rewrite <- app_assoc. rewrite Hv. by destruct (bool_decide _).
Qed.

(** The session drew [c] and the rest is untouched. *)
Definition drew (s : session) (r : list (option (list Z))) : session :=
  mkSession (s_world s) (s_debug s) (s_info s) (s_key s) r.

Lemma random_step (s : session) c r : s_rng s = Some c :: r -> random_challenge s = (Ok c, drew s r).
Proof. intros E. unfold random_challenge. by rewrite E. Qed.

Lemma verify_own_reply key hc : verify_validate key hc (tlv_bytes TResponse (hmac_sha1 key hc)) = Ok true.
Proof.
  assert (zlen (hmac_sha1 key hc) <= 255) as Hz by (rewrite hmac_zlen; lia). apply verify_validate_spec.
  - unfold tlv_bytes. constructor; [done|]. constructor; [by rewrite hmac_zlen|]. apply hmac_out.
  - rewrite tlv_bytes_app by done. rewrite parse_tlvs_bytes. by eexists.
Qed.

Lemma validate_with_step (s : session) k key cc hc r :
  au_key (authenticator s) = Some k -> s_serial (s_info s) = None ->
  s_challenge (s_info s) = Some cc ->
  s_rng s = Some hc :: r -> zlen hc <= 64 ->
  (key = k -> cc = au_challenge (authenticator s) -> exists s', validate_with key s = (Ok tt, s') /\
    moved (drew s r) s' (set_auth (Some k) true (au_creds (authenticator s)) (authenticator s))) /\
  (hmac_sha1 key cc <> hmac_sha1 k (au_challenge (authenticator s)) ->
    exists s', validate_with key s = (Err TOathPasswordRejected, s') /\ moved (drew s r) s' (authenticator s)).
Proof.
  intros Hk Hser Hch Hr Hz. set (a := authenticator s) in *. destruct (validate_apdu key cc hc Hz) as [Hap Hok].
  pose proof (auth_validate a k key cc hc Hk Hz) as Hv.
  assert (forall ans a', auth_run a (apdu_bytes (Case4 0 0xA3 0 0 (validate_data key cc hc) 0)) = (ans, a') ->
    a_polls ans = 0%nat -> a_sw1 ans <> 0x61 -> a_sw1 ans <> 0x6C -> zlen (a_data ans) <= 4094 ->
    exists s', validate_with key s = (
      if (a_sw1 ans * 256 + a_sw2 ans =? 0x6A80) || (a_sw1 ans * 256 + a_sw2 ans =? 0x6982) then lift (Err TOathPasswordRejected) else
      _ ← lift (ok_or_apdu (s2b "oath validate") (a_sw1 ans * 256 + a_sw2 ans));
      ok ← lift (map_err TOathParse (verify_validate key hc (a_data ans)));
      if negb ok then lift (Err (TMalformedResponse (s2b "OATH card failed mutual authentication"))) else mret tt) s' /\
    moved (drew s r) s' a') as Hgo.
  { intros ans a' Hrun Hp H61 H6C Hd.
    destruct (transmit_full_step (drew s r) _ _ _ Hok Hser ltac:(done) Hrun Hp H61 H6C Hd) as (s' & Ht & Hm).
    exists s'. split; [|done]. unfold validate_with. io_step. rewrite Hch.
    rewrite (io_bind_Ok_eq _ _ _ _ _ (random_step s hc r Hr)). rewrite Hap. cbn [or_panic].
    io_step. by rewrite (io_bind_Ok_eq _ _ _ _ _ Ht). }
  split.
  - intros -> ->. rewrite bool_decide_true in Hv by done. apply Hgo in Hv as (s' & -> & Hm); try done.
    2:{ cbn. unfold tlv_bytes. zlen. rewrite hmac_zlen. lia. }
    exists s'. split; [|done]. cbn [answer_ok a_data a_sw1 a_sw2]. change (0x90 * 256 + 0x00) with 0x9000.
    change ((0x9000 =? 0x6A80) || (0x9000 =? 0x6982)) with false. cbv iota.
    change (ok_or_apdu (s2b "oath validate") 0x9000) with (@Ok (TransportError PcscKind) unit tt).
    rewrite verify_own_reply. done.
  - intros Hne. rewrite bool_decide_false in Hv by done. apply Hgo in Hv as (s' & -> & Hm); try done.
    exists s'. by split.
Qed.

Lemma derive_length password id : zlen (derive_access_key password id) = 16.
Proof.
  unfold derive_access_key, pbkdf2_hmac_sha1. rewrite (pbkdf2_blocks_spec _ 1); unfold ACCESS_KEY_LEN; try (zlen; lia).
  cbn [app]. unfold zlen at 1. rewrite length_take, rfc_blocks_length. done.
Qed.

(** A command the authenticator answers without data. *)
Lemma command_step {A} (s : session) b sw1 sw2 a' (f : list Z * Z -> io session (TransportError (PcscError (T0 Authenticator))) A) :
  apdu_ok b -> s_serial (s_info s) = None -> (apdu_bytes b !!! 1%nat) <> 0xA5 ->
  auth_run (authenticator s) (apdu_bytes b) = (answer_sw sw1 sw2, a') -> sw1 <> 0x61 -> sw1 <> 0x6C ->
  exists s', (transmit_full (apdu_bytes b) ≫= f) s = f ([], sw1 * 256 + sw2) s' /\ moved s s' a'.
Proof.
  intros Hok Hser Hi Hr H1 H2. destruct (transmit_full_step s b _ _ Hok Hser Hi Hr) as (s' & Ht & Hm); try done.
  exists s'. split; [|done]. by rewrite (io_bind_Ok_eq _ _ _ _ _ Ht).
Qed.

Lemma auth_set_code a key ch :
  locked a = false -> key <> [] -> zlen key <= 64 -> zlen ch <= 64 ->
  auth_run a (apdu_bytes (Case3 0 0x03 0 0 (set_code_data key ch))) = (answer_sw 0x90 0x00, set_auth (Some key) true (au_creds a) a).
Proof.
  intros Hl Hne Hk Hc. destruct (set_code_apdu key ch Hk Hc) as [_ Hok]. pose proof (strip_le_bytes _ Hok) as Hs. cbv iota in Hs.
  rewrite auth_run_command by (done || by rewrite Hs). rewrite Hs. cbn [app lookup_total list_lookup_total]. unfold auth_command.
  change (0x03 =? 0xA3) with false. change (0x03 =? 0x03) with true. cbv iota. rewrite Hl.
  pose proof (card_set_code_ok key ch Hk Hc) as Hv. cbv zeta in Hv. fold (set_code_data key ch) in Hv. cbn [app] in Hv. rewrite Hv.
  by destruct key.
Qed.

Lemma set_password_step (s : session) pw c r :
  locked (authenticator s) = false -> s_serial (s_info s) = None -> s_rng s = Some c :: r -> zlen c <= 64 ->
  let key := derive_access_key pw (s_device_id (s_info s)) in
  exists s', set_password pw s = (Ok tt, s') /\
    authenticator s' = set_auth (Some key) true (au_creds (authenticator s)) (authenticator s) /\
    s_info s' = mkSelect (s_version (s_info s)) (s_device_id (s_info s)) (Some c) None /\
    s_key s' = Some key /\ s_rng s' = r.
Proof.
  intros Hl Hser Hr Hc key. assert (zlen key = 16) as Hk by apply derive_length.
  destruct (set_code_apdu key c ltac:(lia) Hc) as [Hap Hok].
  destruct (command_step (drew s r) _ 0x90 0x00 _ (fun '(_, sw) =>
    _ ← lift (ok_or_apdu (s2b "oath set code") sw); _ ← io_modify (set_challenge (Some c)); io_modify (set_key (Some key)))
    Hok Hser ltac:(done) (auth_set_code (authenticator s) key c Hl ltac:(by intros ->) ltac:(lia) Hc) ltac:(done) ltac:(done))
    as (s' & Ht & Hm).
  destruct Hm as (Ha & Hd & Hi & Hkey & Hrng).
  exists (set_key (Some key) (set_challenge (Some c) s')). split.
  - unfold set_password. io_step. fold key. rewrite (io_bind_Ok_eq _ _ _ _ _ (random_step s c r Hr)). rewrite Hap. cbn [or_panic].
    io_step. rewrite Ht. done.
  - cbn. rewrite Hi. cbn. rewrite Hser. split_and!; done.
Qed.

Lemma clear_password_step (s : session) :
  locked (authenticator s) = false -> s_serial (s_info s) = None ->
  exists s', clear_password s = (Ok tt, s') /\
    authenticator s' = set_auth None true (au_creds (authenticator s)) (authenticator s) /\
    password_required (s_info s') = false /\ s_key s' = None.
Proof.
  intros Hl Hser. assert (apdu_ok (Case3 0 0x03 0 0 (tlv_bytes TKey []))) as Hok by (split; by vm_compute).
  assert (auth_run (authenticator s) (apdu_bytes (Case3 0 0x03 0 0 (tlv_bytes TKey []))) =
    (answer_sw 0x90 0x00, set_auth None true (au_creds (authenticator s)) (authenticator s))) as Hr.
  { rewrite auth_run_command by done. unfold auth_command. cbn -[locked]. by rewrite Hl. }
  destruct (command_step s (Case3 0 0x03 0 0 (tlv_bytes TKey [])) _ _ _ (fun '(_, sw) => _ ← lift (ok_or_apdu (s2b "oath clear code") sw);
    _ ← io_modify (set_challenge None); io_modify (set_key None)) Hok Hser ltac:(done) Hr ltac:(done) ltac:(done)) as (s' & Ht & Hm).
  destruct Hm as (Ha & _). exists (set_key None (set_challenge None s')). split; [|done].
  unfold clear_password. assert (clear_code = Some (apdu_bytes (Case3 0 0x03 0 0 (tlv_bytes TKey [])))) as -> by done.
  cbn [or_panic]. io_step. rewrite Ht. done.
Qed.

Lemma factory_reset_step (s : session) :
  s_serial (s_info s) = None ->
  exists s', factory_reset s = (Ok tt, s') /\ authenticator s' = set_auth None false [] (authenticator s) /\
    password_required (s_info s') = false /\ s_key s' = None.
Proof.
  intros Hser.
  destruct (command_step s (Case1 0x00 0x04 0xDE 0xAD) 0x90 0x00 _ (fun '(_, sw) =>
    _ ← write_answer (s2b "oath reset") (s2b "reset its Authenticator app") sw;
    _ ← io_modify (set_challenge None); io_modify (set_key None)) ltac:(done) Hser ltac:(done) eq_refl ltac:(done) ltac:(done)) as (s' & Ht & Hm).
  destruct Hm as (Ha & _). exists (set_key None (set_challenge None s')). split; [|done].
  unfold factory_reset. change reset_apdu with (apdu_bytes (Case1 0x00 0x04 0xDE 0xAD)). rewrite Ht. done.
Qed.

Lemma list_locked_step (s : session) :
  locked (authenticator s) = true -> s_serial (s_info s) = None ->
  exists s', session_list s = (Err (TApdu (s2b "oath list") 0x69 0x82), s') /\ authenticator s' = authenticator s.
Proof.
  intros Hl Hser.
  assert (auth_run (authenticator s) (apdu_bytes (Case2 0 0xA1 0 0 0)) = (answer_sw 0x69 0x82, authenticator s)) as Hr.
  { rewrite auth_run_command by done. unfold auth_command. cbn -[locked]. by rewrite Hl. }
  destruct (command_step s (Case2 0 0xA1 0 0 0) _ _ _ (fun '(data, sw) => _ ← lift (ok_or_apdu (s2b "oath list") sw);
    lift (map_err TOathParse (parse_list data))) ltac:(done) Hser ltac:(done) Hr ltac:(done) ltac:(done)) as (s' & Ht & Hm).
  destruct Hm as (Ha & _). exists s'. split; [|done]. unfold session_list. io_step. unfold lists_properties. rewrite Hser.
  cbn [is_Some bool_decide]. rewrite bool_decide_false by (by intros [? ?]). exact Ht.
Qed.

(** [unlock] on a session whose challenge is [cc]. *)
Lemma unlock_step (s : session) k pw cc hc r :
  let key := derive_access_key pw (s_device_id (s_info s)) in
  au_key (authenticator s) = Some k -> s_serial (s_info s) = None -> s_challenge (s_info s) = Some cc ->
  s_rng s = Some hc :: r -> zlen hc <= 64 ->
  (key = k -> cc = au_challenge (authenticator s) -> exists s', unlock pw s = (Ok tt, s') /\
    authenticator s' = set_auth (Some k) true (au_creds (authenticator s)) (authenticator s) /\ s_key s' = Some k) /\
  (hmac_sha1 key cc <> hmac_sha1 k (au_challenge (authenticator s)) ->
    exists s', unlock pw s = (Err TOathPasswordRejected, s') /\ authenticator s' = authenticator s /\ s_key s' = s_key s).
Proof.
  intros key Hk Hser Hch Hr Hz. destruct (validate_with_step s k key cc hc r Hk Hser Hch Hr Hz) as [Hgood Hbad].
  unfold unlock. io_step. rewrite Hch. fold key. clearbody key. split.
  - intros Hkk Hcc. destruct (Hgood Hkk Hcc) as (s1 & Hv & Ha & _). exists (set_key (Some key) s1).
    rewrite (io_bind_Ok_eq _ _ _ _ _ Hv). split; [done|]. split; [exact Ha|]. cbn. by rewrite Hkk.
  - intros Hne. destruct (Hbad Hne) as (s1 & Hv & Ha & _ & _ & Hkey & _). exists s1.
    by rewrite (io_bind_Err_eq _ _ _ _ _ Hv).
Qed.

Lemma reauthenticate_step (s : session) key hc r :
  auth_wf (authenticator s) -> s_serial (s_info s) = None -> s_key s = Some key ->
  au_key (authenticator s) = Some key -> s_rng s = Some hc :: r -> zlen hc <= 64 ->
  exists s', reauthenticate s = (Ok true, s') /\
    authenticator s' = set_auth (Some key) true (au_creds (authenticator s)) (selected (authenticator s)).
Proof.
  intros Hwf Hser Hk Hak Hr Hz. destruct (select_step s Hwf Hser) as (s2 & Hsel & Ha2 & Hi2 & _ & Hk2 & Hr2).
  assert (au_key (authenticator s2) = Some key) as Hak2 by (rewrite Ha2; exact Hak).
  assert (s_challenge (s_info s2) = Some (au_challenge (authenticator s2))) as Hch2.
  { rewrite Hi2, Ha2. cbn. by rewrite Hak. }
  destruct (validate_with_step s2 key key _ hc r Hak2 ltac:(by rewrite Hi2) Hch2 ltac:(by rewrite Hr2) Hz) as [Hgood _].
  destruct (Hgood eq_refl eq_refl) as (s3 & Hv & Ha3 & _). exists s3. split.
  - unfold reauthenticate. io_step. rewrite Hk. rewrite (io_bind_Ok_eq _ _ _ _ _ Hsel). io_step.
    rewrite Hch2. by rewrite (io_bind_Ok_eq _ _ _ _ _ Hv).
  - by rewrite Ha3, Ha2.
Qed.

(** ** Accounts *)

(** What the authenticator stores for [p]. *)
Definition stored_as (p : PutParams) : StoredCred :=
  mkStored (p_name p) (p_type p) (p_algorithm p) (p_digits p) (sent_secret p) (p_require_touch p) (p_imf p).
Definition with_account (p : PutParams) (a : Authenticator) : Authenticator :=
  set_auth (au_key a) (au_unlocked a)
    (stored_as p :: List.filter (fun c => negb (bool_decide (sc_name c = p_name p))) (au_creds a)) a.

Lemma put_apdu p apdu :
  put p = Ok apdu -> zlen (p_name p) <= 240 /\ 2 + Z.max 14 (zlen (p_secret p)) <= 255 /\
    apdu = apdu_bytes (Case3 0 0x01 0 0 (put_body p)) /\ apdu_ok (Case3 0 0x01 0 0 (put_body p)).
Proof.
  rewrite put_spec. destruct (255 <? zlen (p_name p)) eqn:Hn; [done|]. destruct (255 <? 2 + _) eqn:Hk; [done|].
  destruct (255 <? zlen (put_body p)) eqn:Hb; [done|]. intros <-%Ok_inj. bools.
  assert (zlen (p_name p) + 16 <= zlen (put_body p)) as Hsize.
  { unfold put_body. rewrite !zlen_app. unfold tlv_bytes at 1 2. rewrite !zlen_cons, !zlen_app, sent_secret_length.
    set (t1 := zlen (if p_require_touch p then _ else _)). set (t2 := zlen (if p_imf p =? 0 then _ else _)).
    assert (0 <= t1) by apply zlen_nonneg. assert (0 <= t2) by apply zlen_nonneg. unfold MIN_HMAC_KEY_LEN. zlen. lia. }
  pose proof (zlen_nonneg (p_name p)). split_and!; [lia|lia|done|cbn [apdu_ok]; lia].
Qed.

Lemma auth_put a p :
  locked a = false -> put_wf p -> zlen (p_name p) <= 255 -> 2 + Z.max 14 (zlen (p_secret p)) <= 255 ->
  apdu_ok (Case3 0 0x01 0 0 (put_body p)) ->
  auth_run a (apdu_bytes (Case3 0 0x01 0 0 (put_body p))) = (answer_sw 0x90 0x00, with_account p a).
Proof.
  intros Hl Hw Hn Hk Hok. pose proof (strip_le_bytes _ Hok) as Hs. cbv iota in Hs.
  rewrite auth_run_command by (exact Hok || by rewrite Hs). rewrite Hs. cbn [app lookup_total list_lookup_total drop].
  unfold auth_command. change (0x01 =? 0xA3) with false. change (0x01 =? 0x03) with false. change (0x01 =? 0x01) with true.
  cbv iota. rewrite Hl. change (drop 5 _) with (put_body p). by rewrite card_put_body.
Qed.

Lemma session_put_step (s : session) p apdu :
  locked (authenticator s) = false -> s_serial (s_info s) = None -> put_wf p -> put p = Ok apdu ->
  exists s', session_put p s = (Ok tt, s') /\ moved s s' (with_account p (authenticator s)).
Proof.
  intros Hl Hser Hw Hp. destruct (put_apdu p apdu Hp) as (Hn & Hk & -> & Hok).
  pose proof (auth_put (authenticator s) p Hl Hw ltac:(lia) Hk Hok) as Hr.
  destruct (command_step s _ 0x90 0x00 _ (fun '(_, sw) => mret sw) Hok Hser ltac:(done) Hr ltac:(done) ltac:(done)) as (s' & Ht & Hm).
  exists s'. split; [|done]. unfold session_put, put_status. rewrite Hp. cbn [map_err].
  erewrite io_bind_Ok_eq by (io_step; exact Ht). unfold write_answer. io_step. done.
Qed.

Definition calculate_data (name challenge : list Z) : list Z := tlv_bytes TName name ++ tlv_bytes TChallenge challenge.

Lemma calculate_apdu name challenge :
  zlen name <= 240 -> zlen challenge <= 8 ->
  calculate name challenge = Ok (apdu_bytes (Case4 0 0xA2 0 1 (calculate_data name challenge) 0)) /\
    apdu_ok (Case4 0 0xA2 0 1 (calculate_data name challenge) 0).
Proof.
  intros Hn Hc. rewrite calculate_ok by done. unfold calculate_data. split; [cbn [apdu_bytes]; by rewrite <- !app_assoc|].
  cbn. unfold tlv_bytes. pose proof (zlen_nonneg name). pose proof (zlen_nonneg challenge). zlen. lia.
Qed.

(** The account first in the authenticator's list answers. *)
Lemma auth_calculate a c cs challenge :
  locked a = false -> au_creds a = c :: cs -> zlen (sc_name c) <= 240 -> zlen challenge <= 8 ->
  auth_run a (apdu_bytes (Case4 0 0xA2 0 1 (calculate_data (sc_name c) challenge) 0)) =
  (answer_ok (tlv_bytes TTruncatedResponse (sc_digits c :: dynamic_truncate (hmac_sha1 (sc_key c) challenge))), a).
Proof.
  intros Hl Hcs Hn Hc. destruct (calculate_apdu (sc_name c) challenge Hn Hc) as [_ Hok].
  pose proof (strip_le_bytes _ Hok) as Hs. cbv iota in Hs.
  rewrite auth_run_command by (exact Hok || by rewrite Hs). rewrite Hs. cbn [app lookup_total list_lookup_total].
  unfold auth_command. change (0xA2 =? 0xA3) with false. change (0xA2 =? 0x03) with false. change (0xA2 =? 0x01) with false.
  change (0xA2 =? 0xA1) with false. change (0xA2 =? 0xA2) with true. cbv iota. rewrite Hl, Hcs. cbn [find_map].
  pose proof (card_calculate_ok c challenge Hn Hc) as Hk. unfold calculate_data. cbn [app] in Hk |- *.
  rewrite <- app_assoc. by rewrite Hk.
Qed.

Lemma calculate_totp_step (s : session) c cs time period code :
  locked (authenticator s) = false -> s_serial (s_info s) = None -> au_creds (authenticator s) = c :: cs ->
  zlen (sc_name c) <= 240 -> period <> 0 ->
  let bs := dynamic_truncate (hmac_sha1 (sc_key c) (to_be 8 (time / period))) in
  parse_calculate (tlv_bytes TTruncatedResponse (sc_digits c :: bs)) = Ok code ->
  exists s', calculate_totp (sc_name c) time period s = (Ok code, s') /\ moved s s' (authenticator s).
Proof.
  intros Hl Hser Hcs Hn Hper bs Hcode. assert (zlen (to_be 8 (time / period)) <= 8) as Hc8 by (rewrite zlen_to_be; lia).
  destruct (calculate_apdu (sc_name c) _ Hn Hc8) as [Hap Hok].
  pose proof (auth_calculate _ c cs _ Hl Hcs Hn Hc8) as Hr.
  destruct (transmit_full_step s _ _ _ Hok Hser ltac:(done) Hr) as (s' & Ht & Hm); try done.
  { cbn [a_data answer_ok]. unfold tlv_bytes. rewrite !zlen_cons.
    pose proof (proj2 (dynamic_truncate_out _ (proj1 (hmac_out (sc_key c) (to_be 8 (time / period)))) (proj2 (hmac_out _ _)))) as Hz.
    unfold zlen. rewrite Hz. lia. }
  exists s'. split; [|done]. unfold calculate_totp, totp_challenge. rewrite (proj2 (Z.eqb_neq _ _)) by done. cbn [or_panic].
  io_step. rewrite Hap. cbn [map_err]. io_step. rewrite (io_bind_Ok_eq _ _ _ _ _ Ht). unfold write_answer. cbn [a_data answer_ok].
  fold bs. by rewrite Hcode.
Qed.

#[local] Opaque derive_access_key hmac_sha1.

(** * Properties *)

(** C34: the password of an OATH session. On a session that has just selected an
    authenticator that reports no serial, behind any T=0 card that continues an
    answer with SEND REMAINING: the right password unlocks it and is kept
    for later; a password whose HMAC differs is refused as such, the
    authenticator and the kept key unchanged; a password set on an unlocked one
    is the one it then has, and [reauthenticate] gets back in with it after a new
    SELECT, while [unlock] without a new SELECT answers the wrong challenge and
    is refused; clearing it leaves none; a locked authenticator lists nothing;
    and a factory reset needs no password and leaves neither password nor
    accounts. *)
Theorem oath_session_password (s : session) (k pw pw2 c1 c2 : list Z) (r : list (option (list Z))) :
  let a := authenticator s in
  auth_wf a -> s_info s = select_info_of a -> s_rng s = Some c1 :: Some c2 :: r -> zlen c1 <= 64 -> zlen c2 <= 64 ->
  (au_key a = Some k ->
    (derive_access_key pw (au_id a) = k -> exists s', unlock pw s = (Ok tt, s') /\
      authenticator s' = set_auth (Some k) true (au_creds a) a /\ s_key s' = Some k) /\
    (hmac_sha1 (derive_access_key pw (au_id a)) (au_challenge a) <> hmac_sha1 k (au_challenge a) ->
      exists s', unlock pw s = (Err TOathPasswordRejected, s') /\ authenticator s' = a /\ s_key s' = s_key s)) /\
  (locked a = false ->
    let key := derive_access_key pw2 (au_id a) in
    exists s1, set_password pw2 s = (Ok tt, s1) /\ authenticator s1 = set_auth (Some key) true (au_creds a) a /\
      (exists s2, reauthenticate s1 = (Ok true, s2) /\
        authenticator s2 = set_auth (Some key) true (au_creds a) (selected a)) /\
      (hmac_sha1 key c1 <> hmac_sha1 key (au_challenge a) ->
        exists s2, unlock pw2 s1 = (Err TOathPasswordRejected, s2))) /\
  (locked a = false -> exists s1, clear_password s = (Ok tt, s1) /\
    authenticator s1 = set_auth None true (au_creds a) a /\ password_required (s_info s1) = false /\ s_key s1 = None) /\
  (locked a = true -> exists s1, session_list s = (Err (TApdu (s2b "oath list") 0x69 0x82), s1) /\ authenticator s1 = a) /\
  (exists s1, factory_reset s = (Ok tt, s1) /\ authenticator s1 = set_auth None false [] a /\
    password_required (s_info s1) = false /\ s_key s1 = None).
Proof.
  intros a Hwf Hi Hr H1 H2. assert (s_serial (s_info s) = None) as Hser by by rewrite Hi.
  assert (s_device_id (s_info s) = au_id a) as Hid by by rewrite Hi.
  split_and!; [intros Hk|intros Hl key|by intros; apply clear_password_step|by intros; apply list_locked_step|by apply factory_reset_step].
  - assert (s_challenge (s_info s) = Some (au_challenge a)) as Hch by (rewrite Hi; cbn; by rewrite Hk).
    destruct (unlock_step s k pw _ c1 _ Hk Hser Hch Hr H1) as [Hgood Hbad]. rewrite Hid in Hgood, Hbad.
    split; [by intros Hx; apply Hgood|exact Hbad].
  - destruct (set_password_step s pw2 c1 _ Hl Hser Hr H1) as (s1 & Hsp & Ha1 & Hi1 & Hk1 & Hr1).
    rewrite Hid in Ha1, Hk1. fold key in Ha1, Hk1. fold a in Ha1. exists s1. split; [done|]. split; [done|].
    assert (au_key (authenticator s1) = Some key) as Hak by by rewrite Ha1.
    assert (s_serial (s_info s1) = None) as Hser1 by by rewrite Hi1. split.
    + destruct (reauthenticate_step s1 key c2 r) as (s2 & Hre & Ha2); try done; [by rewrite Ha1|].
      exists s2. split; [done|]. by rewrite Ha2, Ha1.
    + intros Hne. destruct (unlock_step s1 key pw2 c1 c2 r Hak Hser1 ltac:(by rewrite Hi1) Hr1 H2) as [_ Hbad].
      rewrite Hi1 in Hbad. cbn [s_device_id] in Hbad. rewrite Hid in Hbad. destruct Hbad as (s2 & Hu & _); [by rewrite Ha1|eauto].
Qed.

(** An account saved through a session shows the right codes through it. On
    an unlocked authenticator behind any T=0 card, a SHA-1 TOTP account of 1 to 9
    digits that [put] can encode is saved, replacing one of the same name and no
    other, and [calculate_totp] then gives, at any time and period, exactly as
    many digits as asked for, spelling RFC 6238's code of the secret; asking
    changes nothing. *)
Theorem oath_session_code (s : session) (p : PutParams) (apdu : list Z) (time period : Z) :
  let a := authenticator s in
  locked a = false -> s_serial (s_info s) = None -> put_wf p -> put p = Ok apdu -> 1 <= p_digits p <= 9 -> period <> 0 ->
  exists s1 s2 code, session_put p s = (Ok tt, s1) /\ authenticator s1 = with_account p a /\
    calculate_totp (p_name p) time period s1 = (Ok (mkCode (p_digits p) code), s2) /\ authenticator s2 = with_account p a /\
    zlen code = p_digits p /\ Forall (fun d => 48 <= d <= 57) code /\
    undec code = totp (p_secret p) time period (p_digits p).
Proof.
  intros a Hl Hser Hw Hp Hd Hper. destruct (session_put_step s p apdu Hl Hser Hw Hp) as (s1 & Hput & Hm1).
  destruct Hm1 as (Ha1 & _ & Hi1 & _). destruct (put_apdu p apdu Hp) as (Hn & _).
  destruct (hmac_out (sent_secret p) (to_be 8 (time / period))) as [HB HL].
  destruct (dynamic_truncate_out _ HB HL) as [HBt HLt].
  destruct (format_code_spec _ (p_digits p) HBt HLt Hd) as (Hz & Hu & HF).
  destruct (calculate_totp_step s1 (stored_as p)
    (List.filter (fun c => negb (bool_decide (sc_name c = p_name p))) (au_creds a)) time period
    (mkCode (p_digits p) (format_code (dynamic_truncate (hmac_sha1 (sent_secret p) (to_be 8 (time / period)))) (p_digits p))))
    as (s2 & Hc & Hm2); try done; [by rewrite Ha1|by rewrite Hi1|by rewrite Ha1|by apply calc_reply_ok|].
  eexists s1, s2, _. split; [done|]. split; [done|]. split; [exact Hc|]. split; [by rewrite (proj1 Hm2)|].
  split; [done|]. split; [done|]. rewrite Hu. unfold totp. by rewrite sent_secret_hmac.
Qed.

(** Opening a session is safe to repeat and repeated once. Only the first two
    attempts can matter, whatever happens; an error other than a card just reset
    or absent is returned at once, nothing traced; and a card that was away at
    the first attempt and answers at the second is opened, its SELECT answer
    known, and a later command is never retried. *)
Theorem oath_open_retries (name : list Z) (attempts attempts' : Z -> Attempt (C := T0 Authenticator)) (debug : bool)
    (rng : list (option (list Z))) (h : Host) (e : PcscKind) (c : T0 Authenticator) :
  0 ∉ name ->
  (attempts' 0 = attempts 0 -> attempts' 1 = attempts 1 ->
    open_traced name attempts' debug rng h = open_traced name attempts debug rng h) /\
  (attempts 0 = mkAttempt None (Err e) None -> is_card_reset_or_absent e = false ->
    open_traced name attempts debug rng h = (Err (TPcsc e), h)) /\
  (attempts 0 = mkAttempt None (Err e) None -> is_card_reset_or_absent e = true ->
   attempts 1 = mkAttempt None (Ok c) None -> auth_wf (t0_app c) ->
    exists s h', open_traced name attempts debug rng h = (Ok s, h') /\ authenticator s = selected (t0_app c) /\
      s_info s = select_info_of (selected (t0_app c)) /\ s_key s = None) /\
  should_retry 0 true (TPcsc e) = false.
Proof.
  intros Hn. unfold open_traced. rewrite bool_decide_false by done. split_and!.
  - intros E0 E1. cbn [open_loop tries]. rewrite E0.
    assert (forall e h, (let '(r, h) := retry_or_fail debug (s2b "oath") (mkContact 0 false) e h in
      match r with Err e => (Err e, h) | Ok contact => open_loop 0 attempts' debug rng contact h end) =
      (let '(r, h) := retry_or_fail debug (s2b "oath") (mkContact 0 false) e h in
      match r with Err e => (Err e, h) | Ok contact => open_loop 0 attempts debug rng contact h end)) as Hag.
    2:{ destruct (a_context _); [done|]. destruct (a_connect _); [|apply Hag]. destruct (a_begin _); [apply Hag|].
        destruct (select_applet _) as [[]]; [done|apply Hag]. }
    intros e' h'. unfold retry_or_fail. destruct (negb _); [done|]. destruct e'; try done.
    cbn [open_loop tries]. change (0 + 1) with 1. by rewrite E1.
  - intros E0 Hr. cbn [open_loop tries]. rewrite E0. cbn [a_context a_connect]. unfold retry_or_fail, should_retry.
    cbn [tries opened]. by rewrite Hr.
  - intros E0 Hr E1 Hwf. cbn [open_loop tries]. rewrite E0. cbn [a_context a_connect]. unfold retry_or_fail at 1, should_retry at 1.
    cbn [tries opened]. rewrite Hr. change ((0 =? 0) && negb false && true) with true. cbn [negb open_loop tries opened].
    change (0 + 1) with 1. rewrite E1. cbn [a_context a_connect a_begin].
    set (h1 := host_line _ _ _).
    destruct (select_step (mkSession (mkWorld c h1.1 h1.2) debug default_select None rng) Hwf eq_refl)
      as (s' & Hsel & Ha & Hi & _ & Hk & _).
    rewrite Hsel. eexists _, _. split; [done|]. cbn. done.
  - done.
Qed.
End on_card.

(** A trace never shows a secret or an account. Every command that carries a
    seed, an access key or an HMAC of it, or names an account (PUT, SET CODE,
    VALIDATE, DELETE, RENAME, CALCULATE) is sensitive, and so is every answer with
    names, codes or an HMAC (LIST, CALCULATE, CALCULATE ALL, VALIDATE); and
    whatever the card does, a sensitive half of an exchange adds only lines that
    show at most the five-byte header or the status word. *)
Theorem oath_trace_redacted {C} `{PcscCard C} (s : OathSession C) (apdu : list Z) :
  let '(cs, rs) := trace_sensitivity apdu in
  adds (fun line =>
      redacted_applet_line (fun e => exists pe : PcscError C, e = pcsc_text pe) (s2b "oath") line \/
      (cs = false /\ exists x, line = format_line Sent (s2b "oath") (dump_cmd x false)) \/
      (rs = false /\ exists y, line = format_line Received (s2b "oath") (dump_resp y false)))
    (s_world s) (s_world (transmit_full apdu s).2) /\
  (forall p, put p = Ok apdu -> cs = true) /\
  (forall k c, set_code k c = Some apdu -> cs = true) /\
  (forall k c h, validate k c h = Some apdu -> cs = true /\ rs = true) /\
  (forall n, delete n = Ok apdu -> cs = true) /\
  (forall o n, rename o n = Ok apdu -> cs = true) /\
  (forall n c, calculate n c = Ok apdu \/ calculate_hotp n = Ok apdu -> cs = true /\ rs = true) /\
  (forall c, apdu = list_apdu \/ list_with_properties = Some apdu \/ calculate_all c = Some apdu -> rs = true).
Proof.
  destruct (trace_sensitivity apdu) as [cs rs] eqn:Hs.
  assert (forall ins, apdu !! 1%nat = Some ins -> ins ∈ [0x01; 0x02; 0x03; 0x05; 0xA2; 0xA3] ->
    cs = true /\ rs = (0xA1 <=? ins) && (ins <=? 0xA4)) as Hins.
  { intros ins Hi Hin. pose proof (sensitivity_of apdu ins Hi Hin) as He. rewrite Hs in He. by injection He as -> ->. }
  split_and!.
  - unfold transmit_full. rewrite Hs.
    pose proof (applet_loop_adds (fun line =>
      redacted_applet_line (fun e => exists pe : PcscError C, e = pcsc_text pe) (s2b "oath") line \/
      (cs = false /\ exists x, line = format_line Sent (s2b "oath") (dump_cmd x false)) \/
      (rs = false /\ exists y, line = format_line Received (s2b "oath") (dump_resp y false)))
      applet_fuel (s_debug s) (oath_io (s_info s)) cs rs apdu [] 0 eq_refl) as Hl.
    unfold transmit_applet. destruct (applet_loop _ _ _ _ _ _ _ _ (s_world s)) as [r w] eqn:E.
    change w with (r, w).2. rewrite <- E. apply Hl.
    + intros x. destruct cs; [left; apply dump_cmd_redacted|eauto].
    + intros y. destruct rs; [left; apply dump_resp_redacted|eauto].
    + intros e. left. do 4 right. eauto.
  - intros p Hp. unfold put in Hp. do 3 inv_bind Hp. by apply finish_apdu_ins, Hins in Hp as [-> _]; [|by_decision].
  - intros k c Hc. unfold set_code in Hc.
    repeat (apply bind_Some in Hc as (? & _ & Hc)). by apply build_apdu_ins, Hins in Hc as [-> _]; [|by_decision].
  - intros k c h' Hc. unfold validate in Hc. do 2 (apply bind_Some in Hc as (? & _ & Hc)).
    apply fmap_Some in Hc as (b & Hb & ->). by apply build_apdu_ins, with_le0_ins, Hins in Hb; [|by_decision].
  - intros n Hn. unfold delete in Hn. inv_bind Hn. by apply finish_apdu_ins, Hins in Hn as [-> _]; [|by_decision].
  - intros o n Hn. unfold rename in Hn. do 2 inv_bind Hn. by apply finish_apdu_ins, Hins in Hn as [-> _]; [|by_decision].
  - intros n c [Hc|Hc]; by apply calculate_with_ins, Hins in Hc; [|by_decision].
  - intros c Hc. enough (trace_sensitivity apdu = (false, true)) as He by (rewrite Hs in He; by injection He).
    destruct Hc as [->|[[= <-]|Hc]]; [done|done|]. unfold calculate_all in Hc. apply bind_Some in Hc as (d & _ & Hc).
    apply fmap_Some in Hc as (b & Hb & ->). unfold build_apdu, try_build_apdu in Hb.
    destruct (255 <? zlen d); [done|]. by injection Hb as <-.
Qed.

#[local] Opaque derive_access_key hmac_sha1.

(** A YubiKey's delivery, and an authenticator with the password "hunter2". *)
Definition yubikey_style : T0Style := mkStyle send_remaining 255 256 0 false.
Definition protected : Authenticator :=
  mkAuth [5; 7; 4] [1; 2; 3; 4] (Some (derive_access_key (s2b "hunter2") [1; 2; 3; 4]))
    (fun n => replicate 8 (Z.of_nat n)) 1 false [].
Definition protected_session : OathSession (T0 Authenticator) :=
  mkSession (mkWorld (mkT0 protected [] (0, 0) 0) None []) false (select_info_of protected) None
    [Some (replicate 8 9); Some (replicate 8 8)].

Lemma oath_session_password_witness :
  (exists s', unlock (C := T0 Authenticator) (H := card_inst yubikey_style) (s2b "hunter2") protected_session = (Ok tt, s') /\
    authenticator s' = set_auth (au_key protected) true [] protected /\ s_key s' = au_key protected) /\
  (exists s1, factory_reset (H := card_inst yubikey_style) protected_session = (Ok tt, s1) /\
    authenticator s1 = set_auth None false [] protected /\ password_required (s_info s1) = false /\ s_key s1 = None).
Proof.
  assert (style_ok yubikey_style) as Hst by (repeat split; discriminate).
  assert (auth_wf protected) as Hwf.
  { unfold protected. split; [cbn [au_version]; zlen; lia|]. split; [cbn [au_id]; zlen; lia|]. intros n. cbn [au_challenges]. rewrite zlen_replicate. lia. }
  assert (zlen (replicate 8 9) <= 64) as H1 by (vm_compute; discriminate).
  assert (zlen (replicate 8 8) <= 64) as H2 by (vm_compute; discriminate).
  pose proof (oath_session_password yubikey_style Hst eq_refl protected_session
    (derive_access_key (s2b "hunter2") [1; 2; 3; 4]) (s2b "hunter2") [] _ _ [] Hwf eq_refl eq_refl H1 H2)
    as (Hu & _ & _ & _ & Hf).
  split; [exact (proj1 (Hu eq_refl) eq_refl)|exact Hf].
Defined.

Definition empty_session : OathSession (T0 Authenticator) :=
  mkSession (mkWorld (mkT0 (mkAuth [5; 7; 4] [1; 2; 3; 4] None (fun _ => []) 1 false []) [] (0, 0) 0) None []) false
    default_select None [].

Lemma oath_session_code_witness :
  exists s1 s2 code, session_put (H := card_inst yubikey_style) run_put empty_session = (Ok tt, s1) /\
    authenticator s1 = with_account run_put (authenticator empty_session) /\
    calculate_totp (H := card_inst yubikey_style) (p_name run_put) 59 30 s1 = (Ok (mkCode 6 code), s2) /\
    authenticator s2 = with_account run_put (authenticator empty_session) /\
    zlen code = 6 /\ Forall (fun d => 48 <= d <= 57) code /\ undec code = totp (p_secret run_put) 59 30 6.
Proof.
  assert (style_ok yubikey_style) as Hst by (repeat split; discriminate).
  assert (put_wf run_put) as Hw by (split_and!; [done|by repeat constructor|done]).
  assert (put run_put = Ok run_put_apdu) as Hp by (vm_compute; reflexivity).
  assert (1 <= p_digits run_put <= 9) as Hd by (simpl; lia).
  assert (30 <> 0) as H30 by discriminate.
  exact (oath_session_code yubikey_style Hst eq_refl empty_session run_put run_put_apdu 59 30 eq_refl eq_refl Hw Hp Hd H30).
Defined.

Definition one_replug : Z -> Attempt (H := card_inst yubikey_style) := fun n =>
  if n =? 0 then mkAttempt (H := card_inst yubikey_style) None (Err ResetCard) None
  else mkAttempt (H := card_inst yubikey_style) None (Ok (mkT0 protected [] (0, 0) 0)) None.

Lemma oath_open_retries_witness :
  exists s h', open_traced (H := card_inst yubikey_style) (s2b "Yubico") one_replug false [] (None, []) = (Ok s, h') /\
    authenticator s = selected protected /\ s_info s = select_info_of (selected protected) /\ s_key s = None.
Proof.
  assert (style_ok yubikey_style) as Hst by (repeat split; discriminate).
  assert (auth_wf protected) as Hwf.
  { unfold protected. split; [cbn [au_version]; zlen; lia|]. split; [cbn [au_id]; zlen; lia|]. intros n.
    cbn [au_challenges]. rewrite zlen_replicate. lia. }
  assert (0 ∉ s2b "Yubico") as Hn by (apply (bool_decide_eq_true_1 _); vm_compute; reflexivity).
  destruct (oath_open_retries yubikey_style Hst eq_refl (s2b "Yubico") one_replug one_replug false [] (None, [])
    ResetCard (mkT0 protected [] (0, 0) 0) Hn) as (_ & _ & Ho & _).
  exact (Ho eq_refl eq_refl eq_refl Hwf).
Defined.
