(* ===== verification/ImportEntry.v ===== *)
(** keyroost-import/src/text.rs and entry.rs: an import file's text as UTF-8,
    and the format-neutral authenticator entry every reader produces. Wiping
    secrets has no functional effect and is left out. *)
From S2P Require Export Codec Text Molto.

(** * text.rs *)

Definition UTF8_BOM : list Z := [0xEF; 0xBB; 0xBF].
Definition UTF16_LE_BOM : list Z := [0xFF; 0xFE].
Definition UTF16_BE_BOM : list Z := [0xFE; 0xFF].

Inductive Utf8Bytes := Borrowed (b : list Z) | Converted (v : list Z).
Definition utf8_deref (u : Utf8Bytes) : list Z := match u with Borrowed b => b | Converted v => v end.
Inductive Damaged := DamagedUtf16.

(** [char::decode_utf16] as far as its first error. *)
Fixpoint decode_utf16 (units : list Z) : option (list Z) :=
  match units with
  | [] => Some []
  | u :: r =>
      if negb (between 0xD800 0xDFFF u) then cons u <$> decode_utf16 r
      else if 0xDC00 <=? u then None
      else match r with
           | v :: r =>
               if between 0xDC00 0xDFFF v then
                 cons (0x10000 + Z.lor (Z.shiftl (u - 0xD800) 10) (v - 0xDC00)) <$> decode_utf16 r
               else None
           | [] => None
           end
  end.

(** [body.as_chunks::<2>()] read as units. *)
Fixpoint utf16_units (le : bool) (body : list Z) : list Z :=
  match body with
  | a :: b :: r => (if le then from_le [a; b] else from_be [a; b]) :: utf16_units le r
  | _ => []
  end.

Definition to_utf8 (bytes : list Z) : result Damaged Utf8Bytes :=
  match strip_prefix UTF8_BOM bytes with
  | Some rest => Ok (Borrowed rest)
  | None =>
      match (match strip_prefix UTF16_LE_BOM bytes with
             | Some rest => Some (rest, true)
             | None => (fun rest => (rest, false)) <$> strip_prefix UTF16_BE_BOM bytes
             end) with
      | None => Ok (Borrowed bytes)
      | Some (body, le) =>
          if negb (zlen body mod 2 =? 0) then Err DamagedUtf16
          else match decode_utf16 (utf16_units le body) with
               | Some cs => Ok (Converted (utf8_encode cs))
               | None => Err DamagedUtf16
               end
      end
  end.

(** * entry.rs *)

Definition MAX_SECRET_BYTES : Z := 255.
Definition MAX_ENTRIES : Z := 1000.

Inductive HashAlg := Sha1 | Sha256 | Sha512.
#[export] Instance HashAlg_eq_dec : EqDecision HashAlg.
Proof. solve_decision. Defined.
Definition hash_name (h : HashAlg) : list Z :=
  match h with Sha1 => s2b "SHA-1" | Sha256 => s2b "SHA-256" | Sha512 => s2b "SHA-512" end.

Inductive OtpKind := Totp (period : Z) | Hotp (counter : Z).
#[export] Instance OtpKind_eq_dec : EqDecision OtpKind.
Proof. solve_decision. Defined.

Record ImportEntry := mkEntry {
  e_issuer : option (list Z); e_account : option (list Z); e_secret : list Z;
  e_hash : HashAlg; e_digits : Z; e_kind : OtpKind
}.

Inductive Unusable :=
  | BadSecret
  | UType (t : list Z)
  | UHash (h : list Z)
  | UDigits (d : Z)
  | UPeriod (p : Z)
  | UMalformed (what : list Z).

Definition is_plain_name (s : list Z) : bool :=
  negb (bool_decide (s = [])) && (zlen s <=? 16) &&
  forallb (fun b => is_ascii_alphanumeric b || (b =? 45) || (b =? 95) || (b =? 32)) s.

Definition unusable_text (u : Unusable) : list Z :=
  match u with
  | BadSecret => s2b "the secret is missing, too long or isn't valid base32"
  | UType t =>
      let l := to_ascii_lowercase t in
      if bool_decide (l = s2b "steam") then s2b "Steam codes aren't supported"
      else if bool_decide (l = s2b "motp") then s2b "mOTP codes aren't supported"
      else if bool_decide (l = s2b "yandex") then s2b "Yandex codes aren't supported"
      else if is_plain_name t then t ++ s2b " codes aren't supported"
      else s2b "codes of this type aren't supported"
  | UHash h => if is_plain_name h then h ++ s2b " isn't supported" else s2b "this hash algorithm isn't supported"
  | UDigits d => dec d ++ s2b "-digit codes aren't supported"
  | UPeriod p => s2b "a " ++ dec p ++ s2b "-second period isn't supported"
  | UMalformed what => what
  end.

Record ImportItem := mkItem { i_index : Z; i_label : list Z; i_entry : result Unusable ImportEntry }.

Inductive Format := Aegis | AegisEncrypted | TwoFas | OtpauthList | QrImage | GoogleExport.
#[export] Instance Format_eq_dec : EqDecision Format.
Proof. solve_decision. Defined.
Definition format_name (f : Format) : list Z :=
  match f with
  | Aegis => s2b "Aegis"
  | AegisEncrypted => s2b "Aegis, encrypted"
  | TwoFas => s2b "2FAS"
  | OtpauthList => s2b "otpauth:// list"
  | QrImage => s2b "QR screenshot"
  | GoogleExport => s2b "Google Authenticator export"
  end.

Record ImportFile := mkFile { f_format : Format; f_items : list ImportItem; f_batch : option (Z * Z) }.

Definition usable (f : ImportFile) : Z := zlen (filter (fun i => is_ok (i_entry i) = true) (f_items f)).

(** [.filter(|s| !s.is_empty())]. *)
Definition nonempty (o : option (list Z)) : option (list Z) :=
  match o with Some [] => None | _ => o end.

Definition name_label (issuer account : option (list Z)) : option (list Z) :=
  match nonempty issuer, nonempty account with
  | Some i, Some a => Some (i ++ s2b ":" ++ a)
  | Some one, None | None, Some one => Some one
  | None, None => None
  end.

(** [let mut end = max; while end > 0 && !is_char_boundary(end) { end -= 1 }]. *)
Fixpoint boundary_below (s : list Z) (e : nat) : nat :=
  match e with
  | O => O
  | S e' => if is_char_boundary s e then e else boundary_below s e'
  end.

Definition molto_title (issuer account : option (list Z)) : list Z :=
  let candidate := default (default [] account) issuer in
  take (boundary_below candidate (Nat.min (length candidate) 12)) candidate.

Definition hash_from_name (name : list Z) : result Unusable HashAlg :=
  let upper := to_ascii_uppercase name in
  if bool_decide (upper = s2b "SHA1") then Ok Sha1
  else if bool_decide (upper = s2b "SHA256") then Ok Sha256
  else if bool_decide (upper = s2b "SHA512") then Ok Sha512
  else Err (UHash upper).

Inductive TypeName := NTotp | NHotp.
#[export] Instance TypeName_eq_dec : EqDecision TypeName.
Proof. solve_decision. Defined.

Definition type_from_name (name : list Z) : result Unusable TypeName :=
  if eq_ignore_ascii_case name (s2b "totp") then Ok NTotp
  else if eq_ignore_ascii_case name (s2b "hotp") then Ok NHotp
  else Err (UType name).

Definition check_secret (secret : list Z) : result Unusable (list Z) :=
  if bool_decide (secret = []) || (MAX_SECRET_BYTES <? zlen secret) then Err BadSecret else Ok secret.

Definition decode_secret (secret_b32 : list Z) : result Unusable (list Z) :=
  secret ← map_err (fun _ => BadSecret) (base32_decode secret_b32);
  check_secret secret.

Definition finish (issuer account : option (list Z)) (secret : list Z) (hash : HashAlg) (digits : Z) (kind : OtpKind) :
    result Unusable ImportEntry :=
  if negb (between 1 10 digits) then Err (UDigits digits)
  else if bool_decide (kind = Totp 0) then Err (UPeriod 0)
  else Ok (mkEntry (nonempty issuer) (nonempty account) secret hash (cast 8 digits) kind).

(** * bulk.rs's entry and error, for the Molto2 *)

Record BulkEntry := mkBulk {
  b_issuer : option (list Z); b_account : option (list Z); b_secret : list Z;
  b_algorithm : HmacAlgo; b_digits : OtpDigits; b_time_step : TimeStep
}.
Definition suggested_title (e : BulkEntry) : list Z := molto_title (b_issuer e) (b_account e).

(** * The limits every accepted entry keeps *)

Definition kind_ok (k : OtpKind) : Prop := match k with Totp p => p <> 0 | Hotp _ => True end.
Definition entry_ok (e : ImportEntry) : Prop :=
  1 <= zlen (e_secret e) <= 255 /\ 1 <= e_digits e <= 10 /\ kind_ok (e_kind e) /\
  e_issuer e <> Some [] /\ e_account e <> Some [].

Lemma nonempty_not_empty o : nonempty o <> Some [].
Proof. by destruct o as [[|]|]. Qed.

Lemma nonempty_idem o : nonempty (nonempty o) = nonempty o.
Proof. by destruct o as [[|]|]. Qed.

Lemma nonempty_some s : s <> [] -> nonempty (Some s) = Some s.
Proof. by destruct s. Qed.

Lemma check_secret_Ok secret s : check_secret secret = Ok s <-> s = secret /\ 1 <= zlen secret <= 255.
Proof.
  unfold check_secret, MAX_SECRET_BYTES. pose proof (zlen_nonneg secret). case_bool_decide as E.
  - split; [done|]. intros [_ Hl]. rewrite E, zlen_nil in Hl. lia.
  - cbn [orb]. assert (zlen secret <> 0) by (intros ?%zlen_0; done). destruct (255 <? zlen secret) eqn:E2; bools; split; try done; try lia.
    + intros <-%Ok_inj. split; [done|lia].
    + by intros [-> _].
Qed.

Lemma finish_Ok issuer account secret hash digits kind e :
  finish issuer account secret hash digits kind = Ok e <->
  1 <= digits <= 10 /\ kind <> Totp 0 /\ e = mkEntry (nonempty issuer) (nonempty account) secret hash digits kind.
Proof.
  unfold finish, between. destruct ((1 <=? digits) && (digits <=? 10)) eqn:E; cbn [negb].
  - bools. destruct (decide (kind = Totp 0)) as [->|Hk].
    + split; [done|]. by intros (_ & ? & _).
    + rewrite bool_decide_false by done. rewrite cast_small by (unfold is_word; lia). split; [by intros <-%Ok_inj|].
      by intros (_ & _ & ->).
  - split; [done|]. intros (Hd & _). apply andb_false_iff in E as [E|E]; bools; lia.
Qed.

Lemma finish_entry_ok issuer account secret hash digits kind e :
  1 <= zlen secret <= 255 -> finish issuer account secret hash digits kind = Ok e -> entry_ok e.
Proof.
  intros Hs (Hd & Hk & ->)%finish_Ok. unfold entry_ok. cbn. split_and!; try lia; try apply nonempty_not_empty.
  destruct kind; [|done]. intros ->. by apply Hk.
Qed.

Lemma decode_secret_Ok t s : decode_secret t = Ok s <-> base32_decode t = Ok s /\ 1 <= zlen s <= 255.
Proof.
  unfold decode_secret. destruct (base32_decode t) as [s'|] eqn:E; [|by split; [|intros [? _]]].
  cbn [map_err mbind result_bind]. rewrite check_secret_Ok. split; [by intros [-> ?]|]. by intros [->%Ok_inj ?].
Qed.

(** * UTF-16 *)

(** The units of a scalar value, and their bytes in either order. *)
Definition utf16_char (c : Z) : list Z :=
  if c <? 0x10000 then [c] else [0xD800 + (c - 0x10000) / 1024; 0xDC00 + (c - 0x10000) mod 1024].
Definition utf16_encode (cs : list Z) : list Z := flat_map utf16_char cs.
Definition unit_bytes (le : bool) (u : Z) : list Z := if le then to_le 2 u else to_be 2 u.
Definition bom (le : bool) : list Z := if le then UTF16_LE_BOM else UTF16_BE_BOM.

Lemma utf16_units_bytes le us : Forall (is_word 16) us -> utf16_units le (flat_map (unit_bytes le) us) = us.
Proof.
  induction 1 as [|u us Hu _ IH]; [done|]. cbn [flat_map]. unfold is_word in *. unfold unit_bytes at 1. destruct le.
  - change (to_le 2 u) with [u mod 256; (u / 256) mod 256]. cbn [app utf16_units]. rewrite IH. f_equal.
    cbn [from_le]. lia_div.
  - change (to_be 2 u) with [(u / 256) mod 256; u mod 256]. cbn [app utf16_units]. rewrite IH. f_equal.
    unfold from_be. cbn. lia_div.
Qed.

Lemma utf16_units_inv le body : Bytes body -> (zlen body mod 2 = 0) -> 
  Forall (is_word 16) (utf16_units le body) /\ body = flat_map (unit_bytes le) (utf16_units le body).
Proof.
  intros HB. remember (length body) as n eqn:Hn. revert body Hn HB.
  induction (lt_wf n) as [n _ IH]. intros [|a [|b body]] Hn HB Hm; [done|done|].
  rewrite !zlen_cons in Hm. apply list.Forall_cons in HB as [Ha HB]. apply list.Forall_cons in HB as [Hb HB].
  destruct (IH (length body)) with (body := body) as [IH1 IH2]; [simpl in Hn; lia|done..|lia_div|].
  unfold is_byte in *. cbn [utf16_units flat_map]. split.
  - constructor; [|done]. unfold is_word. destruct le; [cbn [from_le]|unfold from_be; cbn]; lia.
  - rewrite <- IH2. unfold unit_bytes. destruct le.
    + pose proof (to_le_from_le [a; b] ltac:(repeat constructor; unfold is_byte; lia)) as E. cbn [length] in E. by rewrite E.
    + pose proof (to_be_from_be [a; b] ltac:(repeat constructor; unfold is_byte; lia)) as E. cbn [length] in E. by rewrite E.
Qed.

Lemma utf16_char_word c : is_scalar c -> Forall (is_word 16) (utf16_char c).
Proof.
  unfold is_scalar, utf16_char, is_word. intros Hc. case_match; bools; repeat constructor; lia_div.
Qed.

Lemma utf16_join h l : 0xD800 <= h < 0xDC00 -> 0xDC00 <= l < 0xE000 ->
  0x10000 + Z.lor (Z.shiftl (h - 0xD800) 10) (l - 0xDC00) = 0x10000 + (h - 0xD800) * 1024 + (l - 0xDC00).
Proof. intros Hh Hl. rewrite lor_shiftl_add by lia. lia. Qed.

Lemma decode_utf16_char c us : is_scalar c -> decode_utf16 (utf16_char c ++ us) = cons c <$> decode_utf16 us.
Proof.
  unfold is_scalar, utf16_char. intros Hc. destruct (c <? 0x10000) eqn:E; bools; cbn [app decode_utf16].
  - assert (between 0xD800 0xDFFF c = false) as ->; [|done].
    unfold between. apply andb_false_iff. rewrite !Z.leb_gt. lia.
  - assert (0 <= (c - 0x10000) / 1024 < 1024 /\ 0 <= (c - 0x10000) mod 1024 < 1024) by lia_div.
    rewrite utf16_join by lia. unfold between. decide_cmp. cbn [andb negb]. do 2 f_equal. lia_div.
Qed.

Lemma decode_utf16_encode cs : Forall is_scalar cs -> decode_utf16 (utf16_encode cs) = Some cs.
Proof.
  induction 1 as [|c cs Hc _ IH]; [done|]. unfold utf16_encode in *. cbn [flat_map]. by rewrite decode_utf16_char, IH.
Qed.

Lemma decode_utf16_inv us cs : Forall (is_word 16) us -> decode_utf16 us = Some cs -> us = utf16_encode cs /\ Forall is_scalar cs.
Proof.
  remember (length us) as n eqn:Hn. revert us cs Hn. induction (lt_wf n) as [n _ IH]. intros [|u us] cs Hn Hw H.
  { injection H as <-. done. }
  apply list.Forall_cons in Hw as [Hu Hw]. unfold is_word in Hu. cbn [decode_utf16] in H. unfold between in H.
  destruct ((0xD800 <=? u) && (u <=? 0xDFFF)) eqn:E; cbn [negb] in H.
  - destruct (0xDC00 <=? u) eqn:E1; [done|]. destruct us as [|v us]; [done|]. destruct (_ && _) eqn:E2 in H; [|done]. bools.
    apply fmap_Some in H as (cs' & Hd & ->). apply list.Forall_cons in Hw as [Hv Hw]. rewrite utf16_join by lia.
    destruct (IH (length us)) with us cs' as [-> Hs]; [simpl in Hn; lia|done..|]. split.
    + unfold utf16_encode. cbn [flat_map]. unfold utf16_char at 2. rewrite (proj2 (Z.ltb_ge _ _)) by lia. cbn [app].
      f_equal; [lia_div|]. f_equal. lia_div.
    + constructor; [|done]. unfold is_scalar. lia.
  - apply fmap_Some in H as (cs' & Hd & ->). destruct (IH (length us)) with us cs' as [-> Hs]; [simpl in Hn; lia|done..|]. split.
    + unfold utf16_encode. cbn [flat_map]. unfold utf16_char at 2. by rewrite (proj2 (Z.ltb_lt _ _)) by lia.
    + constructor; [|done]. unfold is_scalar. apply andb_false_iff in E as [E|E]; bools; lia.
Qed.

Lemma utf16_encode_word cs : Forall is_scalar cs -> Forall (is_word 16) (utf16_encode cs).
Proof. induction 1; [done|]. apply Forall_app. split; [by apply utf16_char_word|done]. Qed.

Lemma zlen_unit_bytes le us : zlen (flat_map (unit_bytes le) us) = 2 * zlen us.
Proof.
  induction us as [|u us IH]; [done|]. cbn [flat_map]. rewrite zlen_app, IH, zlen_cons. unfold unit_bytes.
  destruct le; rewrite ?zlen_to_le, ?zlen_to_be; lia.
Qed.

(** The byte order a mark says, and the text after it. *)
Definition bom_of (bytes : list Z) : option (bool * list Z) :=
  match strip_prefix UTF16_LE_BOM bytes with
  | Some rest => Some (true, rest)
  | None => pair false <$> strip_prefix UTF16_BE_BOM bytes
  end.
Definition utf16_body (le : bool) (body : list Z) : option (list Z) :=
  if zlen body mod 2 =? 0 then decode_utf16 (utf16_units le body) else None.

Lemma to_utf8_cases bytes :
  to_utf8 bytes =
  match strip_prefix UTF8_BOM bytes with
  | Some rest => Ok (Borrowed rest)
  | None =>
      match bom_of bytes with
      | None => Ok (Borrowed bytes)
      | Some (le, body) => match utf16_body le body with Some cs => Ok (Converted (utf8_encode cs)) | None => Err DamagedUtf16 end
      end
  end.
Proof.
  unfold to_utf8, bom_of, utf16_body. destruct (strip_prefix UTF8_BOM bytes); [done|].
  destruct (strip_prefix UTF16_LE_BOM bytes); [|destruct (strip_prefix UTF16_BE_BOM bytes)]; cbn; try done;
    by destruct (zlen _ mod 2 =? 0).
Qed.

Lemma bom_of_Some bytes le body : bom_of bytes = Some (le, body) -> bytes = bom le ++ body.
Proof.
  unfold bom_of. destruct (strip_prefix UTF16_LE_BOM bytes) as [r|] eqn:E; [intros [= <- <-]; by apply strip_prefix_Some in E|].
  intros (r & E2 & [= -> ->])%fmap_Some. by apply strip_prefix_Some in E2.
Qed.

Lemma bom_of_bom le body : bom_of (bom le ++ body) = Some (le, body).
Proof. unfold bom_of. by destruct le. Qed.

Lemma no_bom bytes :
  strip_prefix UTF8_BOM bytes = None -> bom_of bytes = None ->
  forall p, p ∈ [UTF8_BOM; UTF16_LE_BOM; UTF16_BE_BOM] -> starts_with p bytes = false.
Proof.
  unfold bom_of, strip_prefix. intros H8 H16 p Hp. rewrite !elem_of_cons in Hp.
  destruct (starts_with UTF8_BOM bytes) eqn:E8; [done|]. destruct (starts_with UTF16_LE_BOM bytes) eqn:El; [done|].
  destruct (starts_with UTF16_BE_BOM bytes) eqn:Eb; [done|]. by destruct Hp as [->|[->|[->|?%not_elem_of_nil]]].
Qed.

Lemma utf16_body_spec le body v :
  Bytes body ->
  match utf16_body le body with Some cs => Ok (Converted (utf8_encode cs)) | None => Err DamagedUtf16 end = Ok (Converted v) <->
  exists cs, Forall is_scalar cs /\ body = flat_map (unit_bytes le) (utf16_encode cs) /\ v = utf8_encode cs.
Proof.
  intros HB. split.
  - unfold utf16_body. destruct (zlen body mod 2 =? 0) eqn:E; [|done]. bools. destruct (utf16_units_inv le body HB E) as [Hw Hu].
    destruct (decode_utf16 _) as [cs|] eqn:Ed; [|done]. intros [= <-]. apply decode_utf16_inv in Ed as [Hc Hs]; [|done].
    exists cs. split_and!; [done| |done]. by rewrite <- Hc.
  - intros (cs & Hs & -> & ->). unfold utf16_body. rewrite utf16_units_bytes by by apply utf16_encode_word.
    rewrite decode_utf16_encode by done. by rewrite zlen_unit_bytes, Z.mul_comm, Z.mod_mul, Z.eqb_refl by done.
Qed.

(** * Titles *)

Lemma boundary_below_spec s e :
  let b := boundary_below s e in
  (b <= e)%nat /\ is_char_boundary s b = true /\ forall j, (b < j <= e)%nat -> is_char_boundary s j = false.
Proof.
  induction e as [|e (IH1 & IH2 & IH3)]; cbn [boundary_below]; [split_and!; [lia|done|intros j Hj; lia]|].
  destruct (is_char_boundary s (S e)) eqn:E; cbv zeta; [split_and!; [lia|done|intros j Hj; lia]|].
  split_and!; [lia|done|]. intros j Hj. destruct (decide (j = S e)) as [->|]; [done|]. apply IH3. lia.
Qed.

(** The prefix of a text that is a text ends at a boundary. *)
Lemma str_prefix_boundary p q : Bytes p -> is_str p -> is_str (p ++ q) -> is_char_boundary (p ++ q) (length p) = true.
Proof.
  intros HB [cp Hp] [cs Hs]. destruct (utf8_encode_decode p cp HB Hp) as [-> Hcp].
  assert (exists cq, q = q /\ utf8_decode q = Some cq) as (cq & _ & Hq).
  { clear Hp HB. revert cs Hs. induction Hcp as [|c cp Hc _ IH]; intros cs Hs; [by exists cs|].
    rewrite utf8_encode_cons, <- (assoc_L (++)), utf8_decode_char in Hs by done.
    apply fmap_Some in Hs as (cs' & Hs & _). by apply (IH cs'). }
  destruct (decide (q = [])) as [->|Hne].
  - unfold is_char_boundary. destruct (length (utf8_encode cp)) eqn:E; [done|]. rewrite <- E, app_nil_r, lookup_ge_None_2 by lia.
    by rewrite bool_decide_true.
  - unfold is_char_boundary. destruct (length (utf8_encode cp)) eqn:E; [done|]. rewrite <- E, lookup_app_r, Nat.sub_diag by lia.
    destruct q as [|b r]; [done|]. simpl. by rewrite (decode_head b r cq Hq).
Qed.

(** * Properties *)

(** The title a Molto2 slot gets is the longest beginning of the issuer, or of
    the account where there is none, that is whole characters and at most
    12 bytes: never a broken character, never more than the slot holds, and no
    shorter than it need be. *)
Theorem molto_title_longest (issuer account : option (list Z)) :
  let candidate := default (default [] account) issuer in
  Bytes candidate -> is_str candidate ->
  let title := molto_title issuer account in
  is_str title /\ zlen title <= 12 /\ (exists rest, candidate = title ++ rest) /\
  (forall p q, candidate = p ++ q -> is_str p -> zlen p <= 12 -> zlen p <= zlen title).
Proof.
  intros s HB [cs Hs]. unfold molto_title. fold s. set (e := Nat.min (length s) 12).
  destruct (boundary_below_spec s e) as (Hb & Hbound & Hmax). set (b := boundary_below s e) in *. cbv zeta.
  destruct (utf8_encode_decode s cs HB Hs) as [Es Hcs]. assert (zlen (take b s) = Z.of_nat b) as Hl by (zlen; unfold zlen; lia).
  split_and!.
  - rewrite Es in Hbound |- *. destruct (boundary_split cs b Hcs) as (x & y & -> & Ht); [rewrite <- Es; lia|done|]. rewrite Ht.
    apply Forall_app in Hcs as [Hx _]. by apply utf8_encode_str.
  - lia.
  - exists (drop b s). by rewrite take_drop.
  - intros p q Hpq Hp Hl12. rewrite Hl. destruct (decide (zlen p <= Z.of_nat b)) as [|Hgt]; [done|exfalso].
    rewrite Hpq in HB. apply Forall_app in HB as [HBp _].
    pose proof (str_prefix_boundary p q HBp Hp) as Hbp. rewrite <- Hpq in Hbp. specialize (Hbp ltac:(by exists cs)).
    rewrite Hmax in Hbp; [done|]. unfold zlen in *. unfold e. rewrite Hpq, length_app. lia.
Qed.

Lemma molto_title_longest_witness :
  let title := molto_title (Some (s2b "Postgeb" ++ [0xC3; 0xBC; 0xC3; 0xA4; 0xE2; 0x82; 0xAC])) None in
  title = s2b "Postgeb" ++ [0xC3; 0xBC; 0xC3; 0xA4] /\ is_str title /\ zlen title <= 12.
Proof.
  split; [reflexivity|].
  destruct (molto_title_longest (Some (s2b "Postgeb" ++ [0xC3; 0xBC; 0xC3; 0xA4; 0xE2; 0x82; 0xAC])) None) as (H1 & H2 & _);
    [by_decision|by_decision|]. exact (conj H1 H2).
Defined.

(** Which files are taken as UTF-16 and what is made of them. A file is
    converted exactly when it is a byte-order mark followed by the UTF-16 of some
    text in that byte order, and what it is converted to is that text, as
    UTF-8: an odd byte or a broken surrogate pair is refused, never replaced. A
    UTF-8 mark is skipped, and the bytes of any other file are left as they are. *)
Theorem utf16_file_read (bytes : list Z) :
  Bytes bytes ->
  (forall v, to_utf8 bytes = Ok (Converted v) <->
    exists le cs, Forall is_scalar cs /\ bytes = bom le ++ flat_map (unit_bytes le) (utf16_encode cs) /\ v = utf8_encode cs) /\
  (forall b, to_utf8 bytes = Ok (Borrowed b) <->
    bytes = UTF8_BOM ++ b \/ b = bytes /\ forall p, p ∈ [UTF8_BOM; UTF16_LE_BOM; UTF16_BE_BOM] -> starts_with p bytes = false).
Proof.
  intros HB. pose proof (to_utf8_cases bytes) as Hc.
  destruct (strip_prefix UTF8_BOM bytes) as [rest|] eqn:E8.
  { apply strip_prefix_Some in E8. rewrite Hc. split.
    - intros v. split; [done|]. intros (le & cs & _ & Hb & _). rewrite E8 in Hb. by destruct le.
    - intros b. split; [intros [= <-]; by left|]. intros [Hb|[_ Hn]]; [rewrite E8 in Hb; by apply (inj (app UTF8_BOM)) in Hb as ->|].
      specialize (Hn UTF8_BOM ltac:(by_decision)). rewrite (proj2 (starts_with_spec _ _)) in Hn by by exists rest. done. }
  destruct (bom_of bytes) as [[le body]|] eqn:Eb.
  - pose proof (bom_of_Some _ _ _ Eb) as ->. apply Forall_app in HB as [_ HB]. split.
    + intros v. rewrite Hc. rewrite (utf16_body_spec le body v HB). split.
      * intros (cs & Hs & -> & ->). by exists le, cs.
      * intros (le' & cs & Hs & Hb & ->). assert (le' = le) as -> by (by destruct le', le).
        apply (inj (app (bom le))) in Hb as ->. by exists cs.
    + intros b. rewrite Hc. split; [by destruct (utf16_body le body)|]. intros [Hb|[_ Hn]]; [by destruct le|].
      specialize (Hn (bom le) ltac:(destruct le; by_decision)). rewrite (proj2 (starts_with_spec _ _)) in Hn by by exists body. done.
  - rewrite Hc. split.
    + intros v. split; [done|]. intros (le & cs & _ & -> & _). by rewrite bom_of_bom in Eb.
    + intros b. split; [intros [= <-]; right|].
      * split; [done|]. intros p Hp. by apply (no_bom bytes).
      * intros [Hb|[-> _]]; [|done]. by rewrite Hb, strip_prefix_app in E8.
Qed.

Lemma utf16_file_read_witness :
  to_utf8 (bom true ++ flat_map (unit_bytes true) (utf16_encode [0x41; 0x1F511])) = Ok (Converted (utf8_encode [0x41; 0x1F511])) /\
  to_utf8 [0xFF; 0xFE; 0x3D; 0xD8] = Err DamagedUtf16.
Proof.
  split; [|reflexivity].
  apply (proj1 (utf16_file_read (bom true ++ flat_map (unit_bytes true) (utf16_encode [0x41; 0x1F511])) ltac:(by_decision))).
  exists true, [0x41; 0x1F511]. split_and!; [|done|done]. repeat constructor; unfold is_scalar; lia.
Defined.
