(* ===== verification/Otpauth.v ===== *)
(** keyroost-import/src/otpauth.rs: otpauth:// URIs, read for the Molto2
    ([parse]) and in the wide model ([parse_entry]). *)
From S2P Require Export ImportEntry.

Inductive OtpAuthError :=
  | NotOtpAuth
  | UnsupportedType (t : list Z)
  | MissingSecret
  | InvalidSecret
  | UnsupportedAlgorithm (a : list Z)
  | UnsupportedDigits (d : Z)
  | UnsupportedPeriod (p : Z)
  | Malformed (s : list Z).

Record OtpAuth := mkOtpAuth {
  o_issuer : option (list Z); o_account : option (list Z); o_secret : list Z;
  o_algorithm : HmacAlgo; o_digits : OtpDigits; o_time_step : TimeStep
}.

(** * Splitting and percent-decoding *)

Record UriParts := mkParts { typ : list Z; label_raw : list Z; query : list Z }.
Inductive SplitError := SNotOtpAuth | SNoLabel.

Definition split_uri (uri : list Z) : result SplitError UriParts :=
  rest ← ok_or SNotOtpAuth (strip_prefix (s2b "otpauth://") uri);
  let '(typ_label, query) := default (rest, []) (split_once 63 rest) in
  '(typ, label_raw) ← ok_or SNoLabel (split_once 47 typ_label);
  Ok (mkParts typ label_raw query).

Definition hex_digit (c : Z) : option Z :=
  if between 48 57 c then Some (c - 48)
  else if between 97 102 c then Some (c - 97 + 10)
  else if between 65 70 c then Some (c - 65 + 10)
  else None.

Fixpoint percent_bytes (plus_is_space : bool) (bytes : list Z) : option (list Z) :=
  match bytes with
  | [] => Some []
  | c :: r =>
      if (c =? 43) && plus_is_space then cons 32 <$> percent_bytes plus_is_space r
      else if c =? 37 then
        match r with
        | h :: l :: r =>
            hi ← hex_digit h; lo ← hex_digit l;
            cons (Z.lor (wshl 8 hi 4) lo) <$> percent_bytes plus_is_space r
        | _ => None
        end
      else cons c <$> percent_bytes plus_is_space r
  end.
Definition percent_decode_impl (s : list Z) (plus_is_space : bool) : option (list Z) :=
  out ← percent_bytes plus_is_space s; from_utf8 out.
Definition percent_decode (s : list Z) : option (list Z) := percent_decode_impl s true.
Definition percent_decode_keep_plus (s : list Z) : option (list Z) := percent_decode_impl s false.

(** The parameters in order, each value decoded, or [None] for bad encoding. *)
Definition query_param (kv : list Z) : list Z * option (list Z) :=
  let '(k, v) := default (kv, []) (split_once 61 kv) in (k, percent_decode v).
Definition query_params (query : list Z) : list (list Z * option (list Z)) :=
  query_param <$> filter (fun s => s <> []) (split_on 38 query).

Definition split_label (label : list Z) : option (list Z) * option (list Z) :=
  match split_once 58 label with
  | Some (i, a) => (Some (trim i), Some (trim a))
  | None => if bool_decide (label = []) then (None, None) else (None, Some (trim label))
  end.

Definition truncate_bytes (s : list Z) (max : nat) : list Z :=
  if (length s <=? max)%nat then s else take (boundary_below s max) s.

Definition opt_or {A} (a b : option A) : option A := match a with Some _ => a | None => b end.

Definition otpauth_title (o : OtpAuth) : list Z :=
  truncate_bytes (default [] (opt_or (o_issuer o) (o_account o))) 12.

(** * The Molto2's reader *)

(** What the loop over the parameters holds. *)
Record Narrow := mkNarrow {
  n_secret : option (list Z); n_issuer : option (list Z); n_algorithm : HmacAlgo; n_digits : OtpDigits; n_period : Z
}.
Definition narrow0 : Narrow := mkNarrow None None HmacSha1 Six 30.

Definition molto_hash (v : list Z) : result OtpAuthError HmacAlgo :=
  let upper := to_ascii_uppercase v in
  if bool_decide (upper = s2b "SHA1") then Ok HmacSha1
  else if bool_decide (upper = s2b "SHA256") then Ok HmacSha256
  else Err (UnsupportedAlgorithm upper).

Definition molto_digits (n : Z) : result OtpAuthError OtpDigits :=
  if n =? 4 then Ok Four else if n =? 6 then Ok Six else if n =? 8 then Ok Eight else if n =? 10 then Ok Ten
  else Err (UnsupportedDigits n).

Definition narrow_param (st : Narrow) (kv : list Z * option (list Z)) : result OtpAuthError Narrow :=
  let k := fst kv in
  v ← ok_or (Malformed (s2b "query value percent-encoding")) (snd kv);
  if bool_decide (k = s2b "secret") then Ok (mkNarrow (Some v) (n_issuer st) (n_algorithm st) (n_digits st) (n_period st))
  else if bool_decide (k = s2b "issuer") then Ok (mkNarrow (n_secret st) (Some v) (n_algorithm st) (n_digits st) (n_period st))
  else if bool_decide (k = s2b "algorithm") then
    a ← molto_hash v;
    Ok (mkNarrow (n_secret st) (n_issuer st) a (n_digits st) (n_period st))
  else if bool_decide (k = s2b "digits") then
    n ← ok_or (Malformed (s2b "digits")) (parse_uint 32 v);
    d ← molto_digits n;
    Ok (mkNarrow (n_secret st) (n_issuer st) (n_algorithm st) d (n_period st))
  else if bool_decide (k = s2b "period") then
    n ← ok_or (Malformed (s2b "period")) (parse_uint 32 v);
    Ok (mkNarrow (n_secret st) (n_issuer st) (n_algorithm st) (n_digits st) n)
  else Ok st.

Definition molto_step (period : Z) : result OtpAuthError TimeStep :=
  if period =? 30 then Ok Seconds30 else if period =? 60 then Ok Seconds60 else Err (UnsupportedPeriod period).

Definition parse (uri : list Z) : result OtpAuthError OtpAuth :=
  parts ← map_err (fun e => match e with SNotOtpAuth => NotOtpAuth | SNoLabel => Malformed (s2b "missing label") end) (split_uri uri);
  if negb (eq_ignore_ascii_case (typ parts) (s2b "totp")) then Err (UnsupportedType (typ parts)) else
  label ← ok_or (Malformed (s2b "label percent-encoding")) (percent_decode_keep_plus (label_raw parts));
  st ← try_fold narrow_param narrow0 (query_params (query parts));
  time_step ← molto_step (n_period st);
  secret_b32 ← ok_or MissingSecret (n_secret st);
  secret ← map_err (fun _ => InvalidSecret) (base32_decode secret_b32);
  if bool_decide (secret = []) || (63 <? zlen secret) then Err InvalidSecret else
  let '(label_issuer, account) := split_label label in
  Ok (mkOtpAuth (nonempty (opt_or (n_issuer st) label_issuer)) (nonempty account) secret (n_algorithm st) (n_digits st) time_step).

(** [From<OtpAuth> for BulkEntry]. *)
Definition bulk_of (o : OtpAuth) : BulkEntry :=
  mkBulk (o_issuer o) (o_account o) (o_secret o) (o_algorithm o) (o_digits o) (o_time_step o).

(** * The wide reader *)

Record Wide := mkWide {
  w_secret : option (list Z); w_issuer : option (list Z); w_algorithm : option (list Z);
  w_digits : Z; w_period : Z; w_counter : Z; w_counter_malformed : bool; w_malformed : option (list Z)
}.
Definition wide0 : Wide := mkWide None None None 6 30 0 false None.

(** [malformed.get_or_insert(what)]. *)
Definition malformed_once (what : list Z) (st : Wide) : Wide :=
  mkWide (w_secret st) (w_issuer st) (w_algorithm st) (w_digits st) (w_period st) (w_counter st) (w_counter_malformed st)
    (opt_or (w_malformed st) (Some what)).

Definition wide_param (st : Wide) (kv : list Z * option (list Z)) : Wide :=
  let '(k, v) := kv in
  match v with
  | None => malformed_once (s2b "a parameter's percent-encoding is invalid") st
  | Some v =>
      let '(mkWide secret issuer algorithm digits period counter cm m) := st in
      if bool_decide (k = s2b "secret") then mkWide (Some v) issuer algorithm digits period counter cm m
      else if bool_decide (k = s2b "issuer") then mkWide secret (Some v) algorithm digits period counter cm m
      else if bool_decide (k = s2b "algorithm") then mkWide secret issuer (Some v) digits period counter cm m
      else if bool_decide (k = s2b "digits") then
        match parse_uint 32 v with
        | Some n => mkWide secret issuer algorithm n period counter cm m
        | None => malformed_once (s2b "the digits value isn't a number") st
        end
      else if bool_decide (k = s2b "period") then
        match parse_uint 32 v with
        | Some n => mkWide secret issuer algorithm digits n counter cm m
        | None => malformed_once (s2b "the period value isn't a number") st
        end
      else if bool_decide (k = s2b "counter") then
        match parse_uint 64 v with
        | Some n => mkWide secret issuer algorithm digits period n cm m
        | None => mkWide secret issuer algorithm digits period counter true m
        end
      else st
  end.

(** The closure that decides whether the entry is usable. *)
Definition wide_entry (typ : list Z) (st : Wide) (issuer account : option (list Z)) : result Unusable ImportEntry :=
  name ← type_from_name typ;
  match w_malformed st with
  | Some what => Err (UMalformed what)
  | None =>
      if w_counter_malformed st && bool_decide (name = NHotp) then Err (UMalformed (s2b "the counter value isn't a number")) else
      secret ← decode_secret (default [] (w_secret st));
      hash ← hash_from_name (default (s2b "SHA1") (w_algorithm st));
      let kind := match name with NTotp => Totp (w_period st) | NHotp => Hotp (w_counter st) end in
      finish issuer account secret hash (w_digits st) kind
  end.

Definition parse_entry_labeled (uri : list Z) : option (list Z) * result Unusable ImportEntry :=
  match split_uri uri with
  | Err SNotOtpAuth => (None, Err (UMalformed (s2b "not an otpauth:// URI")))
  | Err SNoLabel => (None, Err (UMalformed (s2b "the URI has no label")))
  | Ok parts =>
      match percent_decode_keep_plus (label_raw parts) with
      | None => (None, Err (UMalformed (s2b "the label's percent-encoding is invalid")))
      | Some label =>
          let '(label_issuer, account) := split_label label in
          let st := fold_left wide_param (query_params (query parts)) wide0 in
          let issuer := nonempty (opt_or (w_issuer st) label_issuer) in
          let account := nonempty account in
          (name_label issuer account, wide_entry (typ parts) st issuer account)
      end
  end.
Definition parse_entry (uri : list Z) : result Unusable ImportEntry := snd (parse_entry_labeled uri).

(** The wide entry a Molto2 entry stands for. *)
Definition wide_hash (a : HmacAlgo) : HashAlg := match a with HmacSha1 => Sha1 | HmacSha256 => Sha256 end.
Definition wide_digits (d : OtpDigits) : Z := match d with Four => 4 | Six => 6 | Eight => 8 | Ten => 10 end.
Definition wide_period (t : TimeStep) : Z := match t with Seconds30 => 30 | Seconds60 => 60 end.
Definition widen (b : BulkEntry) : ImportEntry :=
  mkEntry (b_issuer b) (b_account b) (b_secret b) (wide_hash (b_algorithm b)) (wide_digits (b_digits b)) (Totp (wide_period (b_time_step b))).

(** * The two readers agree *)

Lemma map_err_Ok {E F A} (f : E -> F) (r : result E A) a : map_err f r = Ok a <-> r = Ok a.
Proof. destruct r; split; intros H; inversion H; done. Qed.

(** The wide loop's state, where the narrow loop has come as far without an error. *)
Record agrees (n : Narrow) (w : Wide) : Prop := {
  ag_secret : w_secret w = n_secret n;
  ag_issuer : w_issuer w = n_issuer n;
  ag_hash : hash_from_name (default (s2b "SHA1") (w_algorithm w)) = Ok (wide_hash (n_algorithm n));
  ag_digits : w_digits w = wide_digits (n_digits n);
  ag_period : w_period w = n_period n;
  ag_malformed : w_malformed w = None
}.

Lemma agrees0 : agrees narrow0 wide0.
Proof. by constructor. Qed.

Lemma molto_hash_wide v a : molto_hash v = Ok a -> hash_from_name v = Ok (wide_hash a).
Proof.
  unfold molto_hash, hash_from_name. case_bool_decide; [by intros <-%Ok_inj|]. case_bool_decide; [by intros <-%Ok_inj|done].
Qed.

Lemma molto_digits_wide n d : molto_digits n = Ok d -> n = wide_digits d.
Proof. unfold molto_digits. repeat case_match; bools; try done; by intros <-%Ok_inj. Qed.

Lemma molto_step_wide p t : molto_step p = Ok t -> p = wide_period t.
Proof. unfold molto_step. repeat case_match; bools; try done; by intros <-%Ok_inj. Qed.

Lemma agrees_param n w kv n' : agrees n w -> narrow_param n kv = Ok n' -> agrees n' (wide_param w kv).
Proof.
  destruct kv as [k [v|]]; [|done]. unfold narrow_param, wide_param. cbn [fst snd ok_or mbind result_bind].
  destruct w as [secret issuer alg digits period counter cm m]. intros [H1 H2 H3 H4 H5 H6] Hn.
  cbn [w_secret w_issuer w_algorithm w_digits w_period w_malformed] in *.
  case_bool_decide; [apply Ok_inj in Hn as <-; by constructor|].
  case_bool_decide; [apply Ok_inj in Hn as <-; by constructor|].
  case_bool_decide; [inv_bind Hn; apply Ok_inj in Hn as <-; constructor; try done; by apply molto_hash_wide|].
  case_bool_decide.
  { destruct (parse_uint 32 v) as [x|]; [|done]. cbn [ok_or mbind result_bind] in Hn. inv_bind Hn. apply Ok_inj in Hn as <-.
    constructor; try done. by apply molto_digits_wide. }
  case_bool_decide; [destruct (parse_uint 32 v) as [x|]; [|done]; apply Ok_inj in Hn as <-; by constructor|].
  apply Ok_inj in Hn as <-. case_bool_decide; [destruct (parse_uint 64 v)|]; by constructor.
Qed.

Lemma agrees_params kvs n w n' : agrees n w -> try_fold narrow_param n kvs = Ok n' -> agrees n' (fold_left wide_param kvs w).
Proof.
  revert n w. induction kvs as [|kv kvs IH]; intros n w Ha Hf; cbn [try_fold fold_left] in *; [by apply Ok_inj in Hf as <-|].
  destruct (narrow_param n kv) as [n1|] eqn:E; [|done]. apply (IH n1); [|done]. by eapply agrees_param.
Qed.

(** What [parse] accepting says of each step. *)
Lemma parse_Ok uri o :
  parse uri = Ok o ->
  exists parts label st t, split_uri uri = Ok parts /\ eq_ignore_ascii_case (typ parts) (s2b "totp") = true /\
    percent_decode_keep_plus (label_raw parts) = Some label /\ try_fold narrow_param narrow0 (query_params (query parts)) = Ok st /\
    n_secret st = Some t /\ base32_decode t = Ok (o_secret o) /\ 1 <= zlen (o_secret o) <= 63 /\
    molto_step (n_period st) = Ok (o_time_step o) /\ o_algorithm o = n_algorithm st /\ o_digits o = n_digits st /\
    o_issuer o = nonempty (opt_or (n_issuer st) (fst (split_label label))) /\ o_account o = nonempty (snd (split_label label)).
Proof.
  intros H. unfold parse in H. inv_bind H. rename a into parts. destruct (negb _) eqn:Et in H; [done|]. apply negb_false_iff in Et.
  inv_bind H. rename a into label. inv_bind H. rename a into st. inv_bind H. rename a into ts. inv_bind H. rename a into t.
  inv_bind H. rename a into secret. case_bool_decide as Hs; [done|]. destruct (63 <? zlen secret) eqn:El; [done|]. cbn [orb] in H. bools.
  destruct (split_label label) as [li ac] eqn:Es. apply Ok_inj in H as <-.
  exists parts, label, st, t. rewrite Es. cbn. apply map_err_Ok in Hb, Hb4. apply ok_or_Ok in Hb0, Hb3. pose proof (zlen_nonneg secret).
  assert (zlen secret <> 0) by (intros ?%zlen_0; done). by split_and!; try lia.
Qed.

(** * Writing a URI *)

Definition unreserved (c : Z) : bool := is_ascii_alphanumeric c || (c =? 45) || (c =? 46) || (c =? 95) || (c =? 126).
Definition hex_upper_digit (n : Z) : Z := if n <? 10 then 48 + n else 55 + n.
Definition percent_char (b : Z) : list Z := if unreserved b then [b] else [37; hex_upper_digit (b / 16); hex_upper_digit (b mod 16)].
Definition percent_encode (s : list Z) : list Z := flat_map percent_char s.

(** The parameters, each [key=value], with ampersands between. *)
Definition param_text (kv : list Z * list Z) : list Z := fst kv ++ [61] ++ percent_encode (snd kv).
Fixpoint join_params (kvs : list (list Z * list Z)) : list Z :=
  match kvs with
  | [] => []
  | [kv] => param_text kv
  | kv :: kvs => param_text kv ++ [38] ++ join_params kvs
  end.

Definition hash_param (h : HashAlg) : list Z := match h with Sha1 => s2b "SHA1" | Sha256 => s2b "SHA256" | Sha512 => s2b "SHA512" end.
Definition type_text (k : OtpKind) : list Z := match k with Totp _ => s2b "totp" | Hotp _ => s2b "hotp" end.
Definition kind_param (k : OtpKind) : list Z * list Z :=
  match k with Totp p => (s2b "period", dec p) | Hotp c => (s2b "counter", dec c) end.
(** A URI of a label and, where there is one, an issuer parameter. *)
Definition entry_params (e : ImportEntry) (issuer : option (list Z)) (secret_b32 : list Z) : list (list Z * list Z) :=
  [(s2b "secret", secret_b32)] ++ (match issuer with Some i => [(s2b "issuer", i)] | None => [] end) ++
  [(s2b "algorithm", hash_param (e_hash e)); (s2b "digits", dec (e_digits e)); kind_param (e_kind e)].
Definition otpauth_uri (e : ImportEntry) (label : list Z) (issuer : option (list Z)) (secret_b32 : list Z) : list Z :=
  s2b "otpauth://" ++ type_text (e_kind e) ++ [47] ++ percent_encode label ++ [63] ++ join_params (entry_params e issuer secret_b32).

(** A name a label carries as it is: text, not empty, with no space around it. *)
Definition name_ok (s : list Z) : Prop := Bytes s /\ is_str s /\ s <> [] /\ trim s = s.
Definition no_byte (c : Z) (s : list Z) : Prop := Forall (fun x => x <> c) s.

(** How an entry's names are written: the account alone, the label
    [Issuer:account], or a label with a prefix and the issuer besides, which then is
    the one that counts. *)
Inductive names_written (issuer account : option (list Z)) : list Z -> option (list Z) -> Prop :=
  | nw_bare : (forall a, account = Some a -> no_byte 58 a) -> names_written issuer account (default [] account) issuer
  | nw_label i : issuer = Some i -> trim i = i -> no_byte 58 i -> names_written issuer account (i ++ 58 :: default [] account) None
  | nw_both i l : issuer = Some i -> Bytes l -> is_str l -> no_byte 58 l ->
      names_written issuer account (l ++ 58 :: default [] account) (Some i).
Definition issuer_text (i : list Z) : Prop := Bytes i /\ is_str i /\ i <> [].

Lemma hex_upper_digit_inv n : 0 <= n < 16 -> hex_digit (hex_upper_digit n) = Some n.
Proof. intros Hn. unfold hex_digit, hex_upper_digit, between. destruct (n <? 10) eqn:E; bools; decide_cmp; f_equal; lia. Qed.

Lemma percent_bytes_char p b r : is_byte b -> percent_bytes p (percent_char b ++ r) = cons b <$> percent_bytes p r.
Proof.
  intros Hb. unfold is_byte in Hb. unfold percent_char. destruct (unreserved b) eqn:E.
  - cbn [app percent_bytes]. assert (b <> 43 /\ b <> 37) as [H1 H2] by (split; intros ->; done).
    by rewrite !(proj2 (Z.eqb_neq _ _)) by done.
  - cbn [app percent_bytes]. change (37 =? 43) with false. change (37 =? 37) with true. cbn [andb].
    rewrite !hex_upper_digit_inv by lia_div. cbn [mbind option_bind]. do 2 f_equal.
    unfold wshl. rewrite Z.shiftl_mul_pow2 by lia. rewrite Z.mod_small by lia_div.
    rewrite (lor_disjoint_add (b / 16) (b mod 16) 4) by lia_div. lia_div.
Qed.

Lemma percent_bytes_encode p s : Bytes s -> percent_bytes p (percent_encode s) = Some s.
Proof.
  induction 1 as [|b s Hb _ IH]; [done|]. unfold percent_encode in *. cbn [flat_map]. by rewrite percent_bytes_char, IH.
Qed.

Lemma percent_decode_encode p s : Bytes s -> is_str s -> percent_decode_impl (percent_encode s) p = Some s.
Proof. intros HB Hs. unfold percent_decode_impl. rewrite percent_bytes_encode by done. by apply from_utf8_str. Qed.

Lemma percent_char_safe b : is_byte b -> Forall (fun c => unreserved c = true \/ c = 37) (percent_char b).
Proof.
  intros Hb. unfold is_byte, percent_char in *. destruct (unreserved b) eqn:E; [apply Forall_singleton; by left|].
  assert (forall n, 0 <= n < 16 -> unreserved (hex_upper_digit n) = true) as Hn.
  { intros n Hn. unfold unreserved, is_ascii_alphanumeric, between, hex_upper_digit. destruct (n <? 10) eqn:E2; bools; decide_cmp; done. }
  apply Forall_cons_2; [by right|]. apply Forall_cons_2; [left; apply Hn; lia_div|]. apply Forall_singleton. left. apply Hn. lia_div.
Qed.

Lemma percent_encode_no c s : Bytes s -> unreserved c = false -> c <> 37 -> no_byte c (percent_encode s).
Proof.
  intros HB Hc Hn. unfold no_byte, percent_encode. induction HB as [|b s Hb _ IH]; [constructor|]. cbn [flat_map].
  apply Forall_app. split; [|done]. eapply list.Forall_impl; [by apply percent_char_safe|]. intros x [Hx| ->]; [|done].
  intros ->. congruence.
Qed.

Definition param_ok (kv : list Z * list Z) : Prop :=
  no_byte 38 (fst kv) /\ no_byte 61 (fst kv) /\ Bytes (snd kv) /\ is_str (snd kv).

Lemma query_param_text kv : param_ok kv -> query_param (param_text kv) = (fst kv, Some (snd kv)).
Proof.
  intros (_ & H1 & HB & Hs). unfold query_param, param_text. cbn [app]. rewrite split_once_app by done. cbn [default].
  cbn [id]. unfold percent_decode. by rewrite percent_decode_encode.
Qed.

Lemma param_text_no kv : param_ok kv -> no_byte 38 (param_text kv) /\ param_text kv <> [].
Proof.
  intros (H0 & _ & HB & _). unfold param_text. split; [|by destruct (fst kv)].
  apply Forall_app. split; [done|]. constructor; [done|]. by apply percent_encode_no.
Qed.

Lemma query_params_join kvs :
  kvs <> [] -> Forall param_ok kvs -> query_params (join_params kvs) = (fun kv => (fst kv, Some (snd kv))) <$> kvs.
Proof.
  intros Hne Hk. unfold query_params. induction Hk as [|kv kvs Hkv Hk IH]; [done|].
  destruct (param_text_no kv Hkv) as [Hn He]. destruct kvs as [|kv2 kvs].
  - cbn [join_params]. rewrite split_on_none by done. cbn [filter list_filter]. rewrite decide_True by done. cbn.
    by rewrite query_param_text.
  - change (join_params (kv :: kv2 :: kvs)) with (param_text kv ++ 38 :: join_params (kv2 :: kvs)).
    rewrite split_on_app by done. rewrite filter_cons_True by done. cbn [fmap list_fmap]. rewrite query_param_text by done.
    f_equal. by apply IH.
Qed.

(** ** What is read back *)

(** Evaluates the comparisons of a closed key with the keys the readers know. *)
Ltac eval_keys :=
  repeat match goal with
  | |- context [bool_decide (s2b ?a = s2b ?b)] =>
      let r := eval vm_compute in (bool_decide (s2b a = s2b b)) in change (bool_decide (s2b a = s2b b)) with r
  end; cbv beta iota.

Definition kind_wf (k : OtpKind) : Prop := match k with Totp p => 0 <= p < 2 ^ 32 | Hotp c => 0 <= c < 2 ^ 64 end.

Definition wide_of (e : ImportEntry) (issuer : option (list Z)) (t : list Z) : Wide :=
  mkWide (Some t) issuer (Some (hash_param (e_hash e))) (e_digits e)
    (match e_kind e with Totp p => p | Hotp _ => 30 end) (match e_kind e with Hotp c => c | Totp _ => 0 end) false None.

Section wide_keys.
Context (secret issuer algorithm m : option (list Z)) (digits period counter n : Z) (cm : bool) (v : list Z).
Local Notation st := (mkWide secret issuer algorithm digits period counter cm m).

Lemma wide_secret_key : wide_param st (s2b "secret", Some v) = mkWide (Some v) issuer algorithm digits period counter cm m.
Proof. unfold wide_param. by eval_keys. Qed.
Lemma wide_issuer_key : wide_param st (s2b "issuer", Some v) = mkWide secret (Some v) algorithm digits period counter cm m.
Proof. unfold wide_param. by eval_keys. Qed.
Lemma wide_algorithm_key : wide_param st (s2b "algorithm", Some v) = mkWide secret issuer (Some v) digits period counter cm m.
Proof. unfold wide_param. by eval_keys. Qed.
Lemma wide_digits_key : 0 <= n < 2 ^ 32 -> wide_param st (s2b "digits", Some (dec n)) = mkWide secret issuer algorithm n period counter cm m.
Proof. intros Hn. unfold wide_param. eval_keys. by rewrite parse_uint_dec. Qed.
Lemma wide_period_key : 0 <= n < 2 ^ 32 -> wide_param st (s2b "period", Some (dec n)) = mkWide secret issuer algorithm digits n counter cm m.
Proof. intros Hn. unfold wide_param. eval_keys. by rewrite parse_uint_dec. Qed.
Lemma wide_counter_key : 0 <= n < 2 ^ 64 -> wide_param st (s2b "counter", Some (dec n)) = mkWide secret issuer algorithm digits period n cm m.
Proof. intros Hn. unfold wide_param. eval_keys. by rewrite parse_uint_dec. Qed.
End wide_keys.

Lemma wide_params_read e issuer t :
  0 <= e_digits e < 2 ^ 32 -> kind_wf (e_kind e) ->
  fold_left wide_param ((fun kv => (fst kv, Some (snd kv))) <$> entry_params e issuer t) wide0 = wide_of e issuer t.
Proof.
  intros Hd Hk. unfold entry_params, wide_of. destruct e as [ei ea secret hash digits kind]. cbn [e_hash e_digits e_kind] in *.
  destruct issuer as [i|], kind as [p|c]; cbn [app fmap list_fmap fst snd fold_left kind_param kind_wf] in *; unfold wide0;
    rewrite wide_secret_key, ?wide_issuer_key, wide_algorithm_key, wide_digits_key by done;
    first [rewrite wide_period_key by done | rewrite wide_counter_key by done]; reflexivity.
Qed.

Lemma ascii_text s : Forall (fun b => 0 <= b < 0x80) s -> Bytes s /\ is_str s.
Proof. intros H. split; [|by apply ascii_is_str]. eapply list.Forall_impl; [exact H|]. unfold is_byte. cbv beta. lia. Qed.

Lemma dec_text n : 0 <= n -> Bytes (dec n) /\ is_str (dec n).
Proof. intros Hn. apply ascii_text. eapply list.Forall_impl; [by apply dec_spec|]. cbv beta. lia. Qed.

Lemma entry_params_ok e issuer t :
  0 <= e_digits e -> kind_wf (e_kind e) -> (forall i, issuer = Some i -> issuer_text i) -> Bytes t -> is_str t ->
  Forall param_ok (entry_params e issuer t).
Proof.
  intros Hd Hk Hi Ht Hts. unfold entry_params. destruct e as [ei ea secret hash digits kind].
  cbn [e_hash e_digits e_kind] in *. pose proof (dec_text digits Hd) as [? ?].
  assert (forall k, Forall (fun c => c <> 38 /\ c <> 61) (s2b k) -> no_byte 38 (s2b k) /\ no_byte 61 (s2b k)) as Hkey.
  { intros k Hf. split; eapply list.Forall_impl; try exact Hf; cbv beta; tauto. }
  assert (forall k v, bool_decide (Forall (fun c => c <> 38 /\ c <> 61) (s2b k)) = true -> Bytes v /\ is_str v -> param_ok (s2b k, v)) as Hp.
  { intros k v Hb [Hv1 Hv2]. apply bool_decide_eq_true in Hb. destruct (Hkey k Hb). unfold param_ok. cbn [fst snd]. tauto. }
  repeat ((apply Forall_app; split) || apply Forall_cons_2 || apply Forall_nil_2).
  - by apply Hp.
  - destruct issuer as [i|]; [|done]. destruct (Hi i eq_refl) as (? & ? & _). apply Forall_singleton. by apply Hp.
  - apply Hp; [done|]. destruct hash; apply ascii_text; by_decision.
  - by apply Hp.
  - destruct kind; cbn [kind_param kind_wf] in *; (apply Hp; [done|apply dec_text; lia]).
Qed.

Lemma split_uri_text ty l q :
  no_byte 63 ty -> no_byte 47 ty -> no_byte 63 l -> no_byte 47 l ->
  split_uri (s2b "otpauth://" ++ ty ++ [47] ++ l ++ [63] ++ q) = Ok (mkParts ty l q).
Proof.
  intros H1 H2 H3 H4. unfold split_uri. rewrite strip_prefix_app. cbn [ok_or mbind result_bind].
  replace (ty ++ [47] ++ l ++ [63] ++ q) with ((ty ++ [47] ++ l) ++ 63 :: q) by (by rewrite <- !(assoc_L (++))).
  rewrite split_once_app.
  2:{ apply Forall_app. split; [done|]. apply Forall_app. split; [|done]. by apply Forall_singleton. }
  cbn [default id]. cbn [app]. by rewrite split_once_app.
Qed.

(** What a label says, with the issuer written besides it. *)
Lemma names_split issuer account label field :
  (forall i, issuer = Some i -> issuer_text i) -> (forall a, account = Some a -> name_ok a) ->
  names_written issuer account label field ->
  Bytes label /\ is_str label /\ (forall i, field = Some i -> issuer_text i) /\
  nonempty (opt_or field (fst (split_label label))) = issuer /\ nonempty (snd (split_label label)) = account.
Proof.
  intros Hi Ha Hn.
  assert (Bytes (default [] account) /\ is_str (default [] account) /\ trim (default [] account) = default [] account /\
    nonempty (Some (default [] account)) = account) as (HaB & Has & Hat & Hne).
  { destruct account as [a|]; [|by split_and!; [|by_decision|..]]. destruct (Ha a eq_refl) as (? & ? & Hna & ?). split_and!; [done..|].
    by destruct a. }
  assert (nonempty issuer = issuer) as Hni.
  { destruct issuer as [[|x i]|]; [|done..]. by destruct (Hi [] eq_refl) as (_ & _ & ?). }
  assert (Bytes [58] /\ is_str [58]) as [HcB Hcs] by (split; by_decision).
  assert (forall l : list Z, Bytes l -> is_str l -> Bytes (l ++ 58 :: default [] account) /\ is_str (l ++ 58 :: default [] account)) as Htext.
  { intros l HB Hs. change (58 :: default [] account) with ([58] ++ default [] account).
    split; [by repeat (apply Forall_app; split)|]. apply is_str_app; [done..|]. by apply is_str_app. }
  unfold split_label. destruct Hn as [Hc|i Ei Ht Hc|i l Ei HlB Hls Hc].
  - split_and!; [done..| |]; (rewrite split_once_none; [|destruct account as [a|]; [by apply Hc|constructor]]); case_bool_decide as Hd;
      cbn [fst snd opt_or]; try (by destruct issuer); [|by rewrite Hat].
    rewrite <- Hne, Hd. done.
  - destruct (Hi i Ei) as (HiB & His & _). destruct (Htext i HiB His) as [H1 H2].
    rewrite split_once_app by done. cbn [fst snd opt_or]. rewrite Hat, Ht, Hne, <- Ei, Hni. by split_and!.
  - destruct (Htext l HlB Hls) as [H1 H2]. rewrite split_once_app by done. cbn [fst snd opt_or]. rewrite Hat, Hne, <- Ei, Hni.
    by split_and!.
Qed.

Lemma parse_widens uri o : parse uri = Ok o -> parse_entry uri = Ok (widen (bulk_of o)).
Proof.
  intros (parts & label & st & t & Hsplit & Ht & Hl & Hst & Hsec & Hb & Hlen & Hts & Ha & Hd & Hi & Hac)%parse_Ok.
  unfold parse_entry, parse_entry_labeled. rewrite Hsplit, Hl. destruct (split_label label) as [li ac] eqn:Es. cbn [fst snd] in *.
  destruct (agrees_params _ _ _ _ agrees0 Hst) as [H1 H2 H3 H4 H5 H6].
  unfold wide_entry, type_from_name. rewrite Ht. cbn [mbind result_bind]. rewrite H6, bool_decide_false, andb_false_r by done.
  rewrite H1, Hsec. change (default [] (Some t)) with t. rewrite (proj2 (decode_secret_Ok t (o_secret o))) by (split; [done|lia]).
  cbn [mbind result_bind]. rewrite H3. cbn [mbind result_bind]. apply finish_Ok.
  rewrite H2, H4, H5, (molto_step_wide _ _ Hts), <- Ha, <- Hd, <- Hi, <- Hac. split_and!.
  - by destruct (o_digits o).
  - by destruct (o_digits o).
  - by destruct (o_time_step o).
  - unfold widen, bulk_of. cbn. rewrite Hi, Hac, !nonempty_idem. by rewrite <- Hi, <- Hac.
Qed.

Lemma parse_entry_limits uri e : parse_entry uri = Ok e -> entry_ok e.
Proof.
  intros H. unfold parse_entry, parse_entry_labeled in H. destruct (split_uri uri) as [parts|[|]]; [|done..].
  destruct (percent_decode_keep_plus _) as [label|]; [|done]. destruct (split_label label) as [li ac]. cbn [snd] in H.
  unfold wide_entry in H. inv_bind H. destruct (w_malformed _); [done|]. destruct (_ && _); [done|].
  inv_bind H. inv_bind H. apply decode_secret_Ok in Hb0 as [_ Hl]. by eapply finish_entry_ok.
Qed.

(** * Properties *)

(** The Molto2's reader and the wide reader agree. Every URI the Molto2's
    reader accepts is accepted by the wide one, with the same issuer, account
    and secret, and the same hash, digits and period; in particular, what one
    import path shows is what the other programs. *)
Theorem otpauth_narrow_agrees (uri : list Z) (o : OtpAuth) :
  parse uri = Ok o -> parse_entry uri = Ok (widen (bulk_of o)).
Proof. apply parse_widens. Qed.

Definition example_uri : list Z :=
  s2b "otpauth://totp/ACME%20Co:john%40x.org?secret=JBSWY3DPEHPK3PXP&issuer=ACME+Co&algorithm=sha256&digits=8&period=60".

Lemma otpauth_narrow_agrees_witness :
  exists o, parse example_uri = Ok o /\ parse_entry example_uri = Ok (widen (bulk_of o)) /\ o_digits o = Eight.
Proof.
  destruct (parse example_uri) as [o|] eqn:E; [|vm_compute in E; discriminate]. exists o. split; [done|].
  split; [by apply otpauth_narrow_agrees|]. vm_compute in E. by injection E as <-.
Defined.

(** Every entry a URI is accepted as is within the limits the rest of the
    import relies on: a secret of 1 to 255 bytes, 1 to 10 digits, a period that
    is not 0, no empty names; and one the Molto2's reader accepts has a secret of
    at most 63 bytes, the most the command for it can carry. *)
Theorem otpauth_entry_limits (uri : list Z) :
  (forall e, parse_entry uri = Ok e -> entry_ok e) /\
  (forall o, parse uri = Ok o -> 1 <= zlen (o_secret o) <= 63 /\ o_issuer o <> Some [] /\ o_account o <> Some []).
Proof.
  split.
  - apply parse_entry_limits.
  - intros o (parts & label & st & t & H)%parse_Ok. destruct H as (_ & _ & _ & _ & _ & _ & Hlen & _ & _ & _ & -> & ->).
    split_and!; [lia|lia|apply nonempty_not_empty..].
Qed.


Definition example_entry : ImportEntry :=
  mkEntry (Some (s2b "ACME: R&D ")) (Some (s2b "john:doe+1@x.org")) (s2b "Hello!") Sha512 7 (Hotp 42).

