(* ===== verification/Migration.v ===== *)
(** keyroost-import/src/migration.rs: Google Authenticator exports, a protobuf
    message in a URI. The reader's state is the bytes left; the loop over the
    fields takes fuel above their number, which is enough since every field has
    a byte ([fields_fuel]). *)
From S2P Require Export Otpauth.

(** bulk.rs's errors; a JSON error is its text. *)
Inductive BulkError :=
  | Json (e : list Z)
  | Encrypted (msg : list Z)
  | UnsupportedFormat (msg : list Z)
  | EntryRejected (index : Z) (reason : OtpAuthError)
  | EmptyFile
  | TooManyEntries
  | WrongPassword.

Record Skipped := mkSkipped { sk_label : list Z; sk_reason : list Z }.
Record Migration := mkMigration { m_entries : list BulkEntry; m_skipped : list Skipped; m_batch : option (Z * Z) }.

Definition MIGRATION_PREFIX : list Z := s2b "otpauth-migration://".
Definition is_migration_uri (uri : list Z) : bool := starts_with MIGRATION_PREFIX (trim_start uri).

(** * The protobuf reader *)

Definition MALFORMED : BulkError := UnsupportedFormat (s2b "malformed migration protobuf").
Definition reader (A : Type) : Type := io (list Z) BulkError A.

Fixpoint varint_loop (n : nat) (i v : Z) : reader Z := fun buf =>
  match n with
  | O => (Err MALFORMED, buf)
  | S n =>
      match buf with
      | [] => (Err MALFORMED, [])
      | b :: rest =>
          let v := Z.lor v (wshl 64 (Z.land b 0x7F) (7 * i)) in
          if Z.land b 0x80 =? 0 then (Ok v, rest) else varint_loop n (i + 1) v rest
      end
  end.
Definition varint : reader Z := varint_loop 10 0 0.

Definition key : reader (option (Z * Z)) := fun buf =>
  match buf with
  | [] => (Ok None, [])
  | _ => (k ← varint; mret (Some (Z.shiftr k 3, cast 8 (Z.land k 0x7)))) buf
  end.

Definition take_bytes (len : Z) : reader (list Z) := fun buf =>
  if zlen buf <? len then (Err MALFORMED, buf) else (Ok (split_at len buf).1, (split_at len buf).2).
Definition bytes : reader (list Z) := len ← varint; take_bytes len.

Definition skip (wire : Z) : reader unit :=
  if wire =? 0 then _ ← varint; mret tt
  else if wire =? 1 then _ ← take_bytes 8; mret tt
  else if wire =? 2 then _ ← bytes; mret tt
  else if wire =? 5 then _ ← take_bytes 4; mret tt
  else lift (Err MALFORMED).

(** [while let Some((field, wire)) = r.key()? { .. }]. *)
Fixpoint fields_loop {S} (fuel : nat) (handle : S -> Z -> Z -> reader S) (s : S) : reader S :=
  match fuel with
  | O => lift (Err MALFORMED)
  | Datatypes.S fuel =>
      k ← key;
      match k with
      | None => mret s
      | Some (field, wire) => s' ← handle s field wire; fields_loop fuel handle s'
      end
  end.
Definition read_fields {S} (handle : S -> Z -> Z -> reader S) (s : S) (buf : list Z) : result BulkError S :=
  fst (fields_loop (Datatypes.S (length buf)) handle s buf).

(** A message's fields as its loop collects them. *)
Record Params := mkParams {
  p_secret : list Z; p_name : list Z; p_issuer : list Z; p_algorithm : Z; p_digits : Z; p_typ : Z; p_counter : Z
}.
Definition params0 : Params := mkParams [] [] [] 0 0 0 0.

Definition narrow_field (p : Params) (field wire : Z) : reader Params :=
  let '(mkParams secret name issuer algorithm digits typ counter) := p in
  if (field =? 1) && (wire =? 2) then secret ← bytes; mret (mkParams secret name issuer algorithm digits typ counter)
  else if (field =? 2) && (wire =? 2) then b ← bytes; mret (mkParams secret (from_utf8_lossy b) issuer algorithm digits typ counter)
  else if (field =? 3) && (wire =? 2) then b ← bytes; mret (mkParams secret name (from_utf8_lossy b) algorithm digits typ counter)
  else if (field =? 4) && (wire =? 0) then n ← varint; mret (mkParams secret name issuer n digits typ counter)
  else if (field =? 5) && (wire =? 0) then n ← varint; mret (mkParams secret name issuer algorithm n typ counter)
  else if (field =? 6) && (wire =? 0) then n ← varint; mret (mkParams secret name issuer algorithm digits n counter)
  else _ ← skip wire; mret p.

Definition wide_field (p : Params) (field wire : Z) : reader Params :=
  let '(mkParams secret name issuer algorithm digits typ counter) := p in
  if (field =? 1) && (wire =? 2) then secret ← bytes; mret (mkParams secret name issuer algorithm digits typ counter)
  else if (field =? 2) && (wire =? 2) then b ← bytes; mret (mkParams secret (from_utf8_lossy b) issuer algorithm digits typ counter)
  else if (field =? 3) && (wire =? 2) then b ← bytes; mret (mkParams secret name (from_utf8_lossy b) algorithm digits typ counter)
  else if (field =? 4) && (wire =? 0) then n ← varint; mret (mkParams secret name issuer n digits typ counter)
  else if (field =? 5) && (wire =? 0) then n ← varint; mret (mkParams secret name issuer algorithm n typ counter)
  else if (field =? 6) && (wire =? 0) then n ← varint; mret (mkParams secret name issuer algorithm digits n counter)
  else if (field =? 7) && (wire =? 0) then n ← varint; mret (mkParams secret name issuer algorithm digits typ n)
  else _ ← skip wire; mret p.

(** * One account *)

Definition param_names (p : Params) : option (list Z) * option (list Z) :=
  let '(label_issuer, account) := split_label (p_name p) in
  (nonempty (if bool_decide (p_issuer p = []) then label_issuer else Some (p_issuer p)), nonempty account).

Definition wide_params (p : Params) (issuer account : option (list Z)) : result Unusable ImportEntry :=
  kind ← (if (p_typ p =? 0) || (p_typ p =? 2) then Ok (Totp 30)
          else if p_typ p =? 1 then Ok (Hotp (p_counter p))
          else Err (UType (s2b "type " ++ dec (p_typ p))));
  secret ← check_secret (p_secret p);
  hash ← (if (p_algorithm p =? 0) || (p_algorithm p =? 1) then Ok Sha1
          else if p_algorithm p =? 2 then Ok Sha256
          else if p_algorithm p =? 3 then Ok Sha512
          else if p_algorithm p =? 4 then Err (UHash (s2b "MD5"))
          else Err (UHash (s2b "algorithm " ++ dec (p_algorithm p))));
  digits ← (if (p_digits p =? 0) || (p_digits p =? 1) then Ok 6
            else if p_digits p =? 2 then Ok 8
            else Err (UMalformed (s2b "the digit count isn't one keyroost knows")));
  finish issuer account secret hash digits kind.

Definition convert_wide (buf : list Z) : result BulkError (option (list Z) * result Unusable ImportEntry) :=
  p ← read_fields wide_field params0 buf;
  let '(issuer, account) := param_names p in
  Ok (name_label issuer account, wide_params p issuer account).

Definition skipped_label (p : Params) : list Z :=
  if bool_decide (p_issuer p = []) then p_name p
  else if bool_decide (p_name p = []) then p_issuer p
  else p_issuer p ++ s2b ":" ++ p_name p.

Definition skipped_for {A} (p : Params) (reason : list Z) : result Skipped A := Err (mkSkipped (skipped_label p) reason).

Definition narrow_params (p : Params) : result Skipped BulkEntry :=
  if negb (p_typ p =? 0) && negb (p_typ p =? 2) then skipped_for p (s2b "HOTP is not supported by the Molto2") else
  algorithm ← (if (p_algorithm p =? 0) || (p_algorithm p =? 1) then Ok HmacSha1
               else if p_algorithm p =? 2 then Ok HmacSha256
               else skipped_for p (s2b "only SHA-1 / SHA-256 are supported"));
  digits ← (if (p_digits p =? 0) || (p_digits p =? 1) then Ok Six
            else if p_digits p =? 2 then Ok Eight
            else skipped_for p (s2b "unsupported digit count"));
  if bool_decide (p_secret p = []) || (63 <? zlen (p_secret p)) then skipped_for p (s2b "secret must be 1..=63 bytes") else
  let '(issuer, account) := param_names p in
  Ok (mkBulk issuer account (p_secret p) algorithm digits Seconds30).

Definition convert (buf : list Z) : result BulkError (result Skipped BulkEntry) :=
  p ← read_fields narrow_field params0 buf;
  Ok (narrow_params p).

(** * The payload *)

Definition batch_of (index size : option Z) : option (Z * Z) :=
  match index, size with
  | Some i, Some n => if 1 <? n then Some (i, n) else None
  | _, _ => None
  end.

(** What both payload loops hold: the accounts so far, in order, the batch's size
    and index. *)
Record Payload (A : Type) := mkPayload { l_accounts : list A; l_size : option Z; l_index : option Z }.
Arguments mkPayload {A} _ _ _.
Arguments l_accounts {A} _.
Arguments l_size {A} _.
Arguments l_index {A} _.

Definition entry_number (n : Z) : list Z := s2b "entry " ++ dec (n + 1).

Definition wide_payload_field (l : Payload ImportItem) (field wire : Z) : reader (Payload ImportItem) :=
  let '(mkPayload items size index) := l in
  if (field =? 1) && (wire =? 2) then
    let n := zlen items in
    if MAX_ENTRIES <=? n then lift (Err TooManyEntries) else
    b ← bytes;
    '(label, entry) ← lift (convert_wide b);
    mret (mkPayload (items ++ [mkItem n (default (entry_number n) label) entry]) size index)
  else if (field =? 3) && (wire =? 0) then v ← varint; mret (mkPayload items (Some (cast 32 v)) index)
  else if (field =? 4) && (wire =? 0) then v ← varint; mret (mkPayload items size (Some (cast 32 v)))
  else _ ← skip wire; mret l.

Definition NO_ACCOUNTS : BulkError := UnsupportedFormat (s2b "migration payload contains no accounts").

Definition parse_payload_wide (buf : list Z) : result BulkError ImportFile :=
  l ← read_fields wide_payload_field (mkPayload [] None None) buf;
  if bool_decide (l_accounts l = []) then Err NO_ACCOUNTS
  else Ok (mkFile GoogleExport (l_accounts l) (batch_of (l_index l) (l_size l))).

(** The narrow loop pushes to two vectors; [Payload (result ..)] keeps them in one,
    split at the end. *)
Definition narrow_payload_field (l : Payload (result Skipped BulkEntry)) (field wire : Z) :
    reader (Payload (result Skipped BulkEntry)) :=
  let '(mkPayload rs size index) := l in
  if (field =? 1) && (wire =? 2) then
    b ← bytes;
    r ← lift (convert b);
    mret (mkPayload (rs ++ [r]) size index)
  else if (field =? 3) && (wire =? 0) then v ← varint; mret (mkPayload rs (Some (cast 32 v)) index)
  else if (field =? 4) && (wire =? 0) then v ← varint; mret (mkPayload rs size (Some (cast 32 v)))
  else _ ← skip wire; mret l.

Definition oks {E A} (rs : list (result E A)) : list A := omap result_ok rs.
Definition errs {E A} (rs : list (result E A)) : list E := omap (fun r => match r with Err e => Some e | Ok _ => None end) rs.

Definition parse_payload (buf : list Z) : result BulkError Migration :=
  l ← read_fields narrow_payload_field (mkPayload [] None None) buf;
  if bool_decide (oks (l_accounts l) = []) && bool_decide (errs (l_accounts l) = []) then Err NO_ACCOUNTS
  else Ok (mkMigration (oks (l_accounts l)) (errs (l_accounts l)) (batch_of (l_index l) (l_size l))).

(** * The URI *)

Definition decode_uri (uri : list Z) : result BulkError (list Z) :=
  let uri := trim uri in
  rest ← ok_or (UnsupportedFormat (s2b "not an otpauth-migration://offline URI")) (strip_prefix (s2b "otpauth-migration://offline") uri);
  let query := default rest (strip_prefix [63] rest) in
  let data := fold_left (fun d kv => opt_or (strip_prefix (s2b "data=") kv) d) (split_on 38 query) None in
  data ← ok_or (UnsupportedFormat (s2b "migration URI has no data= parameter")) data;
  data ← ok_or (UnsupportedFormat (s2b "bad percent-encoding in data")) (percent_decode_keep_plus data);
  map_err (fun _ => UnsupportedFormat (s2b "migration data is not valid base64")) (base64_decode data).

Definition migration_parse (uri : list Z) : result BulkError Migration := buf ← decode_uri uri; parse_payload buf.
Definition migration_parse_wide (uri : list Z) : result BulkError ImportFile := buf ← decode_uri uri; parse_payload_wide buf.

(** * The loop over the fields *)

(** A reader never gives bytes back. *)
Definition shrinks {A} (m : reader A) : Prop := forall buf, (length (m buf).2 <= length buf)%nat.

Section shrinking.
Context {A B : Type}.

Lemma shrinks_ret (a : A) : shrinks (mret a).
Proof. intros buf. simpl. lia. Qed.
Lemma shrinks_lift (r : result BulkError A) : shrinks (lift r).
Proof. intros buf. simpl. lia. Qed.
Lemma shrinks_bind (m : reader A) (f : A -> reader B) : shrinks m -> (forall a, shrinks (f a)) -> shrinks (m ≫= f).
Proof.
  intros Hm Hf buf. unfold mbind, io_bind. pose proof (Hm buf) as H. destruct (m buf) as [[a|e] buf']; [|done].
  pose proof (Hf a buf') as H2. simpl in *. lia.
Qed.
End shrinking.

Lemma varint_loop_shrinks n i v : shrinks (varint_loop n i v).
Proof.
  revert i v. induction n as [|n IH]; intros i v [|b buf]; cbn [varint_loop]; try (simpl; lia).
  destruct (_ =? 0); [simpl; lia|]. specialize (IH (i + 1) (Z.lor v (wshl 64 (Z.land b 0x7F) (7 * i))) buf). simpl. lia.
Qed.

Lemma take_bytes_shrinks n : shrinks (take_bytes n).
Proof. intros buf. unfold take_bytes, split_at. destruct (_ <? _); simpl; [lia|]. rewrite length_drop. lia. Qed.

Create HintDb shrinks.
#[export] Hint Resolve shrinks_ret shrinks_lift shrinks_bind varint_loop_shrinks take_bytes_shrinks : shrinks.

Lemma bytes_shrinks : shrinks bytes.
Proof. unfold bytes, varint. eauto with shrinks. Qed.
Lemma skip_shrinks wire : shrinks (skip wire).
Proof. unfold skip, varint. pose proof bytes_shrinks. repeat case_match; eauto with shrinks. Qed.
#[export] Hint Resolve bytes_shrinks skip_shrinks : shrinks.

Ltac solve_shrinks :=
  unfold varint; repeat case_match; repeat match goal with
  | |- shrinks (_ ≫= _) => apply shrinks_bind
  | |- forall _, _ => intros ?
  end; auto with shrinks.

Lemma narrow_field_shrinks p f w : shrinks (narrow_field p f w).
Proof. destruct p. unfold narrow_field. solve_shrinks. Qed.
Lemma wide_field_shrinks p f w : shrinks (wide_field p f w).
Proof. destruct p. unfold wide_field. solve_shrinks. Qed.
Lemma wide_payload_shrinks l f w : shrinks (wide_payload_field l f w).
Proof. destruct l. unfold wide_payload_field. solve_shrinks. case_match. apply shrinks_ret. Qed.
Lemma narrow_payload_shrinks l f w : shrinks (narrow_payload_field l f w).
Proof. destruct l. unfold narrow_payload_field. solve_shrinks. Qed.

Lemma key_cases buf :
  (buf = [] /\ key buf = (Ok None, [])) \/
  (exists f w rest, key buf = (Ok (Some (f, w)), rest) /\ (length rest < length buf)%nat) \/
  (exists e rest, key buf = (Err e, rest)).
Proof.
  destruct buf as [|b buf]; [by left|right]. unfold key, varint. cbn [varint_loop].
  assert (forall m : reader Z, shrinks m ->
    (exists f w rest, (k ← m; mret (Some (Z.shiftr k 3, cast 8 (Z.land k 0x7)))) buf = (Ok (Some (f, w)), rest) /\
       (length rest < length (b :: buf))%nat) \/
    (exists e rest, (k ← m; mret (Some (Z.shiftr k 3, cast 8 (Z.land k 0x7)))) buf = (Err e, rest))) as Hgen.
  { intros m Hm. unfold mbind, io_bind. specialize (Hm buf). destruct (m buf) as [[v|e] rest]; [left|right; by eexists _, _].
    eexists _, _, _. split; [reflexivity|]. simpl in *. lia. }
  unfold mbind at 1 2, io_bind. destruct (Z.land b 0x80 =? 0).
  - left. eexists _, _, _. split; [reflexivity|]. simpl. lia.
  - apply (Hgen (varint_loop 9 _ _)). apply varint_loop_shrinks.
Qed.

(** More turns than bytes change nothing. *)
Lemma fields_fuel {S} (handle : S -> Z -> Z -> reader S) f1 f2 s buf :
  (forall s f w, shrinks (handle s f w)) -> (length buf < f1)%nat -> (length buf < f2)%nat ->
  fields_loop f1 handle s buf = fields_loop f2 handle s buf.
Proof.
  intros Hh. revert f2 s buf. induction f1 as [|f1 IH]; intros [|f2] s buf H1 H2; try lia. cbn [fields_loop].
  destruct (key_cases buf) as [[-> E]|[(f & w & rest & E & Hl)|(e & rest & E)]]; [done| |by rewrite !(io_bind_Err_eq _ _ _ _ _ E)].
  rewrite !(io_bind_Ok_eq _ _ _ _ _ E). cbv beta iota. pose proof (Hh s f w rest) as Hr.
  destruct (handle s f w rest) as [[s'|e] rest'] eqn:Eh; [|by rewrite !(io_bind_Err_eq _ _ _ _ _ Eh)].
  rewrite !(io_bind_Ok_eq _ _ _ _ _ Eh). simpl in Hr. apply IH; lia.
Qed.

(** Two loops run side by side; [Q] is what holds all along once it holds at the
    end. *)
Lemma fields_loop_sim {S1 S2} (h1 : S1 -> Z -> Z -> reader S1) (h2 : S2 -> Z -> Z -> reader S2) (R : S1 -> S2 -> Prop) (Q : S1 -> Prop) :
  (forall s f w buf s' buf', h1 s f w buf = (Ok s', buf') -> Q s' -> Q s) ->
  (forall s1 s2 f w buf s1' buf', R s1 s2 -> Q s1' -> h1 s1 f w buf = (Ok s1', buf') -> exists s2', h2 s2 f w buf = (Ok s2', buf') /\ R s1' s2') ->
  forall fuel s1 s2 buf s1' buf', R s1 s2 -> fields_loop fuel h1 s1 buf = (Ok s1', buf') -> Q s1' ->
  Q s1 /\ exists s2', fields_loop fuel h2 s2 buf = (Ok s2', buf') /\ R s1' s2'.
Proof.
  intros HQ Hs fuel. induction fuel as [|fuel IH]; intros s1 s2 buf s1' buf' HR Hl Hq; [done|]. cbn [fields_loop] in *.
  apply io_bind_Ok in Hl as (k & b1 & Hk & Hl). rewrite (io_bind_Ok_eq _ _ _ _ _ Hk).
  destruct k as [[f w]|]; [|injection Hl as <- <-; split; [done|]; by exists s2].
  apply io_bind_Ok in Hl as (s & b2 & Hh & Hl).
  assert (Q s /\ forall s2, R s s2 -> exists s2', fields_loop fuel h2 s2 b2 = (Ok s2', buf') /\ R s1' s2') as [Hqs Hrest].
  { split; [|intros t Ht; by destruct (IH s t b2 s1' buf' Ht Hl Hq) as [_ ?]].
    clear IH HR Hs Hh. revert s b2 Hl. induction fuel as [|fuel IHf]; intros s b2 Hl; [done|]. cbn [fields_loop] in Hl.
    apply io_bind_Ok in Hl as (k & b3 & _ & Hl). destruct k as [[f' w']|]; [|by injection Hl as <- _].
    apply io_bind_Ok in Hl as (s'' & b4 & Hh & Hl). by eapply HQ, IHf. }
  destruct (Hs s1 s2 f w b1 s b2 HR Hqs Hh) as (t & Ht & HRt). rewrite (io_bind_Ok_eq _ _ _ _ _ Ht).
  split; [by eapply HQ|]. by apply Hrest.
Qed.

(** * Writing the message *)

Fixpoint put_varint_aux (fuel : nat) (n : Z) : list Z :=
  match fuel with
  | O => []
  | S fuel => if n <? 128 then [n] else (n mod 128 + 128) :: put_varint_aux fuel (n / 128)
  end.
Definition put_varint (n : Z) : list Z := put_varint_aux 10 n.
Definition put_key (field wire : Z) : list Z := put_varint (field * 8 + wire).
Definition put_bytes (field : Z) (b : list Z) : list Z := put_key field 2 ++ put_varint (zlen b) ++ b.
Definition put_uint (field n : Z) : list Z := put_key field 0 ++ put_varint n.

Lemma land_7f b : Z.land b 0x7F = b mod 128.
Proof. exact (land_ones_mod b 7 ltac:(lia)). Qed.

Lemma land_80 b : is_byte b -> (Z.land b 0x80 =? 0) = (b <? 128).
Proof.
  intros Hb. apply eqb_prop. revert b Hb. apply (byte_forall (fun b => Bool.eqb (Z.land b 0x80 =? 0) (b <? 128))).
  vm_compute. reflexivity.
Qed.

Lemma put_varint_bytes fuel n : 0 <= n -> Bytes (put_varint_aux fuel n).
Proof.
  revert n. induction fuel as [|fuel IH]; intros n Hn; cbn [put_varint_aux]; [constructor|]. destruct (n <? 128) eqn:E; bools.
  - apply Forall_singleton. unfold is_byte. lia.
  - apply Forall_cons_2; [unfold is_byte; lia_div|]. apply IH. lia_div.
Qed.

(** The loop reads the groups of seven bits on top of what it has. *)
Lemma varint_loop_put k n i v r :
  0 <= i -> 0 <= v < 2 ^ (7 * i) -> 0 <= n -> n * 2 ^ (7 * i) < 2 ^ 64 -> n < 2 ^ (7 * Z.of_nat k) -> (0 < k)%nat ->
  varint_loop k i v (put_varint_aux k n ++ r) = (Ok (v + n * 2 ^ (7 * i)), r).
Proof.
  revert n i v. induction k as [|k IH]; intros n i v Hi Hv Hn Hw Hk Hpos; [lia|]. cbn [put_varint_aux].
  assert (forall b, 0 <= b < 128 -> b <= n -> Z.lor v (wshl 64 b (7 * i)) = v + b * 2 ^ (7 * i)) as Hor.
  { intros b Hb Hbn. unfold wshl. rewrite Z.shiftl_mul_pow2 by lia. rewrite Z.mod_small by nia.
    rewrite Z.lor_comm, lor_disjoint_add by lia. lia. }
  destruct (n <? 128) eqn:E; bools.
  - cbn [app varint_loop]. rewrite land_80, land_7f by (unfold is_byte; lia). rewrite (proj2 (Z.ltb_lt _ _)) by lia.
    by rewrite Z.mod_small, Hor by lia.
  - cbn [app varint_loop]. rewrite land_80, land_7f by (unfold is_byte; lia_div). rewrite (proj2 (Z.ltb_ge _ _)) by lia_div.
    replace ((n mod 128 + 128) mod 128) with (n mod 128) by lia_div. rewrite Hor by lia_div.
    assert (2 ^ (7 * (i + 1)) = 128 * 2 ^ (7 * i)) as Hp by (replace (7 * (i + 1)) with (7 + 7 * i) by lia; by rewrite Z.pow_add_r by lia).
    assert (0 < 2 ^ (7 * i)) by (apply Z.pow_pos_nonneg; lia). assert (128 * (n / 128) <= n) by lia_div.
    destruct k as [|k]; [simpl in Hk; lia|]. rewrite IH.
    + rewrite Hp. f_equal. f_equal. pose proof (Z.div_mod n 128 ltac:(lia)). nia.
    + lia.
    + assert (n mod 128 < 128) by lia_div. assert (0 <= n mod 128) by lia_div. rewrite Hp. nia.
    + lia_div.
    + rewrite Hp. nia.
    + replace (7 * Z.of_nat (S (S k))) with (7 + 7 * Z.of_nat (S k)) in Hk by lia. rewrite Z.pow_add_r in Hk by lia.
      apply Z.div_lt_upper_bound; lia.
    + lia.
Qed.

Lemma varint_put n r : 0 <= n < 2 ^ 64 -> varint (put_varint n ++ r) = (Ok n, r).
Proof.
  intros Hn. unfold varint, put_varint. rewrite varint_loop_put; try lia. by rewrite Z.mul_1_r.
Qed.

Lemma put_varint_ne n : put_varint n <> [].
Proof. unfold put_varint. cbn [put_varint_aux]. by destruct (n <? 128). Qed.

Lemma key_put f w r : 0 <= f < 2 ^ 61 -> 0 <= w < 8 -> key (put_key f w ++ r) = (Ok (Some (f, w)), r).
Proof.
  intros Hf Hw. unfold key, put_key. destruct (put_varint (f * 8 + w) ++ r) as [|b buf] eqn:E.
  { apply app_eq_nil in E as [E _]. by apply put_varint_ne in E. }
  rewrite <- E. rewrite (io_bind_Ok_eq _ _ _ _ _ (varint_put (f * 8 + w) r ltac:(lia))). unfold mret, io_ret.
  rewrite Z.shiftr_div_pow2 by lia. rewrite (land_ones_mod _ 3) by lia. change (2 ^ 3) with 8.
  assert ((f * 8 + w) / 8 = f) as -> by lia_div. assert ((f * 8 + w) mod 8 = w) as -> by lia_div.
  by rewrite cast_small by (unfold is_word; lia).
Qed.

Lemma take_bytes_app b r : take_bytes (zlen b) (b ++ r) = (Ok b, r).
Proof.
  unfold take_bytes. rewrite (proj2 (Z.ltb_ge _ _)) by (zlen; pose proof (zlen_nonneg r); lia). by rewrite split_at_app.
Qed.

Lemma bytes_put b r : zlen b < 2 ^ 64 -> bytes (put_varint (zlen b) ++ b ++ r) = (Ok b, r).
Proof.
  intros Hb. unfold bytes. rewrite (io_bind_Ok_eq _ _ _ _ _ (varint_put (zlen b) (b ++ r) ltac:(pose proof (zlen_nonneg b); lia))).
  apply take_bytes_app.
Qed.

(** [reads handle s buf s']: the loop takes all of [buf] and leaves [s']. *)
Definition reads {S} (handle : S -> Z -> Z -> reader S) (s : S) (buf : list Z) (s' : S) : Prop :=
  forall fuel, (length buf < fuel)%nat -> fields_loop fuel handle s buf = (Ok s', []).

Section reads.
Context {S : Type} (handle : S -> Z -> Z -> reader S).

Lemma reads_nil s : reads handle s [] s.
Proof. intros [|fuel] Hf; [simpl in Hf; lia|]. done. Qed.

Lemma reads_field s f w body r s1 s2 :
  0 <= f < 2 ^ 61 -> 0 <= w < 8 -> handle s f w (body ++ r) = (Ok s1, r) -> reads handle s1 r s2 ->
  reads handle s (put_key f w ++ body ++ r) s2.
Proof.
  intros Hf Hw Hh Hr [|fuel] Hl; [lia|]. cbn [fields_loop]. rewrite (io_bind_Ok_eq _ _ _ _ _ (key_put f w _ Hf Hw)).
  rewrite (io_bind_Ok_eq _ _ _ _ _ Hh). apply Hr. rewrite !length_app in Hl.
  assert (0 < length (put_key f w))%nat by (unfold put_key; pose proof (put_varint_ne (f * 8 + w)); destruct (put_varint (f * 8 + w)); [done|simpl; lia]). lia.
Qed.

Lemma reads_bytes s f b r s1 s2 :
  0 <= f < 2 ^ 61 -> zlen b < 2 ^ 64 -> (forall buf rest, bytes buf = (Ok b, rest) -> handle s f 2 buf = (Ok s1, rest)) ->
  reads handle s1 r s2 -> reads handle s (put_bytes f b ++ r) s2.
Proof.
  intros Hf Hb Hh Hr. unfold put_bytes. rewrite <- !(assoc_L (++)).
  rewrite (assoc_L (++) (put_varint _) b r). apply (reads_field s f 2 (put_varint (zlen b) ++ b) r s1 s2); try done.
  apply Hh. rewrite <- (assoc_L (++)). by apply bytes_put.
Qed.

Lemma reads_uint s f n r s1 s2 :
  0 <= f < 2 ^ 61 -> 0 <= n < 2 ^ 64 -> (forall buf rest, varint buf = (Ok n, rest) -> handle s f 0 buf = (Ok s1, rest)) ->
  reads handle s1 r s2 -> reads handle s (put_uint f n ++ r) s2.
Proof.
  intros Hf Hn Hh Hr. unfold put_uint. rewrite <- (assoc_L (++)). apply (reads_field s f 0 (put_varint n) r s1 s2); try done.
  apply Hh. by apply varint_put.
Qed.

Lemma reads_result s buf s' : reads handle s buf s' -> read_fields handle s buf = Ok s'.
Proof. intros Hr. unfold read_fields. by rewrite Hr by lia. Qed.
End reads.

(** ** Fields a reader does not know *)

(** A field of each wire type; groups (3 and 4) are not among them. *)
Inductive Extra := XVarint (n : Z) | XFixed64 (b : list Z) | XBytes (b : list Z) | XFixed32 (b : list Z).
Definition extra_wire (x : Extra) : Z := match x with XVarint _ => 0 | XFixed64 _ => 1 | XBytes _ => 2 | XFixed32 _ => 5 end.
Definition extra_body (x : Extra) : list Z :=
  match x with XVarint n => put_varint n | XFixed64 b | XFixed32 b => b | XBytes b => put_varint (zlen b) ++ b end.
Definition put_extra (f : Z) (x : Extra) : list Z := put_key f (extra_wire x) ++ extra_body x.
Definition extra_ok (x : Extra) : Prop :=
  match x with
  | XVarint n => 0 <= n < 2 ^ 64
  | XFixed64 b => Bytes b /\ zlen b = 8
  | XBytes b => Bytes b /\ zlen b < 2 ^ 32
  | XFixed32 b => Bytes b /\ zlen b = 4
  end.

(** [woven known fs buf]: the fields [fs] in order, with any number of fields of
    other numbers, or of a known number under another wire type, before, between and after. *)
Inductive woven (known : list (Z * Z)) : list (list Z) -> list Z -> Prop :=
  | w_nil : woven known [] []
  | w_known f fs buf : woven known fs buf -> woven known (f :: fs) (f ++ buf)
  | w_extra f x fs buf : 0 <= f < 2 ^ 29 -> (f, extra_wire x) ∉ known -> extra_ok x ->
      woven known fs buf -> woven known fs (put_extra f x ++ buf).

Lemma skip_extra x r : extra_ok x -> skip (extra_wire x) (extra_body x ++ r) = (Ok tt, r).
Proof.
  intros Hx. unfold skip. destruct x as [n|b|b|b]; cbn [extra_wire extra_body extra_ok Z.eqb Pos.eqb] in *.
  - by rewrite (io_bind_Ok_eq _ _ _ _ _ (varint_put n r Hx)).
  - destruct Hx as [_ <-]. by rewrite (io_bind_Ok_eq _ _ _ _ _ (take_bytes_app b r)).
  - rewrite <- (assoc_L (++)). by rewrite (io_bind_Ok_eq _ _ _ _ _ (bytes_put b r ltac:(lia))).
  - destruct Hx as [_ <-]. by rewrite (io_bind_Ok_eq _ _ _ _ _ (take_bytes_app b r)).
Qed.

Section woven.
Context {S : Type} (handle : S -> Z -> Z -> reader S) (known : list (Z * Z)).

(** What one field does to the loop's state, and a list of them. *)
Definition takes (s : S) (f : list Z) (s1 : S) : Prop := forall r s2, reads handle s1 r s2 -> reads handle s (f ++ r) s2.
Inductive takes_all : S -> list (list Z) -> S -> Prop :=
  | ta_nil s : takes_all s [] s
  | ta_cons s f s1 fs s2 : takes s f s1 -> takes_all s1 fs s2 -> takes_all s (f :: fs) s2.

Lemma takes_app s fs s1 fs' s2 : takes_all s fs s1 -> takes_all s1 fs' s2 -> takes_all s (fs ++ fs') s2.
Proof. induction 1 as [s|s f s0 fs s1 Hf _ IH]; [done|]. intros H. cbn. econstructor; [exact Hf|by apply IH]. Qed.

Hypothesis unknown_skipped : forall s f w buf rest,
  (f, w) ∉ known -> skip w buf = (Ok tt, rest) -> handle s f w buf = (Ok s, rest).

Lemma reads_woven s fs buf s2 : woven known fs buf -> takes_all s fs s2 -> reads handle s buf s2.
Proof.
  intros Hw. revert s. induction Hw as [|f fs buf _ IH|f x fs buf Hf Hk Hx _ IH]; intros s Ht.
  - inversion Ht; subst. apply reads_nil.
  - inversion Ht as [|? ? s1 ? ? H1 H2]; subst. apply H1. by apply IH.
  - unfold put_extra. rewrite <- (assoc_L (++)). eapply reads_field; [lia|by destruct x| |by apply IH].
    apply unknown_skipped; [done|]. by apply skip_extra.
Qed.
End woven.

Ltac split_bytes := repeat match goal with |- Bytes (_ ++ _) => apply Forall_app; split end.

Lemma put_uint_bytes f n : 0 <= f -> 0 <= n -> Bytes (put_uint f n).
Proof. intros Hf Hn. unfold put_uint, put_key, put_varint. apply Forall_app; split; apply put_varint_bytes; lia. Qed.
Lemma put_bytes_bytes f b : 0 <= f -> Bytes b -> Bytes (put_bytes f b).
Proof.
  intros Hf Hb. unfold put_bytes, put_key, put_varint. pose proof (zlen_nonneg b).
  repeat (apply Forall_app; split); [apply put_varint_bytes; lia..|done].
Qed.
Lemma woven_bytes known fs buf : Forall Bytes fs -> woven known fs buf -> Bytes buf.
Proof.
  intros HF Hw. induction Hw as [|f fs buf _ IH|f x fs buf Hf _ Hx _ IH]; [constructor| |].
  - apply list.Forall_cons in HF as [Hb HF]. apply Forall_app. by split; [|apply IH].
  - apply Forall_app. split; [|by apply IH]. unfold put_extra, put_key, put_varint. apply Forall_app.
    split; [apply put_varint_bytes; destruct x; cbn; lia|].
    destruct x as [n|b|b|b]; cbn [extra_body extra_ok] in *; unfold put_varint; [apply put_varint_bytes; lia|apply Hx| |apply Hx].
    apply Forall_app. pose proof (zlen_nonneg b). split; [apply put_varint_bytes; lia|apply Hx].
Qed.

(** * An export of entries *)

Definition hash_code (h : HashAlg) : Z := match h with Sha1 => 1 | Sha256 => 2 | Sha512 => 3 end.
Definition digits_code (d : Z) : Z := if d =? 8 then 2 else 1.
Definition kind_fields (k : OtpKind) : list (list Z) :=
  match k with Totp _ => [put_uint 6 2] | Hotp c => [put_uint 6 1; put_uint 7 c] end.

(** An account's fields, in the order of their numbers. *)
Definition account_fields (e : ImportEntry) (name : list Z) (issuer : option (list Z)) : list (list Z) :=
  [put_bytes 1 (e_secret e); put_bytes 2 name] ++ (match issuer with Some i => [put_bytes 3 i] | None => [] end) ++
  [put_uint 4 (hash_code (e_hash e)); put_uint 5 (digits_code (e_digits e))] ++ kind_fields (e_kind e).
Definition account_known : list (Z * Z) := [(1, 2); (2, 2); (3, 2); (4, 0); (5, 0); (6, 0); (7, 0)].

(** An account's message and a payload as some app, of this or a later version, writes them. *)
Definition account_written (e : ImportEntry) (m : list Z) : Prop :=
  zlen m < 2 ^ 32 /\
  exists name issuer, zlen name < 2 ^ 32 /\ names_written (e_issuer e) (e_account e) name issuer /\ woven account_known (account_fields e name issuer) m.
Definition batch_fields (batch : option (Z * Z)) : list (list Z) :=
  match batch with Some (index, size) => [put_uint 3 size; put_uint 4 index] | None => [] end.
Definition payload_known : list (Z * Z) := [(1, 2); (3, 0); (4, 0)].
Definition payload_written (es : list ImportEntry) (batch : option (Z * Z)) (payload : list Z) : Prop :=
  exists ms, Forall2 account_written es ms /\ woven payload_known ((put_bytes 1 <$> ms) ++ batch_fields batch) payload.
Definition export_uri (payload : list Z) : list Z :=
  s2b "otpauth-migration://offline?data=" ++ percent_encode (base64_encode payload).

(** What such an export can hold of an entry. *)
Definition exportable (e : ImportEntry) : Prop :=
  entry_ok e /\ Bytes (e_secret e) /\ (e_digits e = 6 \/ e_digits e = 8) /\
  (match e_kind e with Totp p => p = 30 | Hotp c => 0 <= c < 2 ^ 64 end) /\
  (forall i, e_issuer e = Some i -> Bytes i /\ is_str i /\ zlen i < 2 ^ 32) /\
  (forall a, e_account e = Some a -> name_ok a /\ zlen a < 2 ^ 32).

Definition item_of (i : nat) (e : ImportEntry) : ImportItem :=
  mkItem (Z.of_nat i) (default (entry_number (Z.of_nat i)) (name_label (e_issuer e) (e_account e))) (Ok e).

Definition params_of (e : ImportEntry) (name : list Z) (issuer : option (list Z)) : Params :=
  mkParams (e_secret e) name (default [] issuer) (hash_code (e_hash e)) (digits_code (e_digits e))
    (match e_kind e with Totp _ => 2 | Hotp _ => 1 end) (match e_kind e with Hotp c => c | Totp _ => 0 end).

(** The handlers step over what they do not know. *)
Ltac skipped :=
  repeat match goal with
  | |- (if ?b then _ else _) _ = _ =>
      let E := fresh "E" in destruct b eqn:E; [exfalso; bools; subst; match goal with H : _ ∉ _ |- _ => apply H; by_decision end|clear E]
  end;
  match goal with H : skip _ _ = _ |- _ => by rewrite (io_bind_Ok_eq _ _ _ _ _ H) end.
Lemma account_skips p f w buf rest :
  (f, w) ∉ account_known -> skip w buf = (Ok tt, rest) -> wide_field p f w buf = (Ok p, rest).
Proof. intros Hk Hs. destruct p. unfold wide_field. skipped. Qed.
Lemma payload_skips l f w buf rest :
  (f, w) ∉ payload_known -> skip w buf = (Ok tt, rest) -> wide_payload_field l f w buf = (Ok l, rest).
Proof. intros Hk Hs. destruct l. unfold wide_payload_field. skipped. Qed.

(** The handler's step for a field it knows is to read it. *)
Ltac known_field :=
  intros buf rest Hread; unfold wide_field, wide_payload_field; cbn [Z.eqb Pos.eqb andb]; rewrite (io_bind_Ok_eq _ _ _ _ _ Hread); try reflexivity.
Ltac known_bytes n := eapply ta_cons; [intros r s2 Hr; eapply (reads_bytes _ _ n); [lia|lia|known_field|exact Hr]|].
Ltac known_uint n := eapply ta_cons; [intros r s2 Hr; eapply (reads_uint _ _ n); [lia|try lia|known_field|exact Hr]|].

Lemma names_text e name issuer : exportable e -> names_written (e_issuer e) (e_account e) name issuer ->
  Bytes name /\ is_str name /\ (forall i, issuer = Some i -> Bytes i /\ is_str i /\ zlen i < 2 ^ 32) /\
  param_names (params_of e name issuer) = (e_issuer e, e_account e).
Proof.
  intros ((_ & _ & _ & Hi0 & _) & _ & _ & _ & Hi & Ha) Hn.
  edestruct names_split as (HB & Hs & Hf & El & Ea); [| |exact Hn|].
  { intros i Ei. destruct (Hi i Ei) as (? & ? & _). split_and!; [done..|]. by intros ->. }
  { intros a Ea. by apply Ha. }
  split_and!; [done..| |].
  - intros i ->. apply Hi. destruct (Hf i eq_refl) as (_ & _ & Hne). cbn [opt_or] in El. by destruct i.
  - unfold param_names, params_of. cbn [p_name p_issuer]. destruct (split_label name) as [li ac]. cbn [fst snd] in El, Ea.
    rewrite Ea, <- El. f_equal. f_equal. destruct issuer as [i|]; [|done]. cbn [default id opt_or]. destruct (Hf i eq_refl) as (_ & _ & Hne).
    by rewrite bool_decide_false.
Qed.

Lemma account_message_read e name issuer m :
  exportable e -> zlen name < 2 ^ 32 -> names_written (e_issuer e) (e_account e) name issuer -> woven account_known (account_fields e name issuer) m ->
  read_fields wide_field params0 m = Ok (params_of e name issuer).
Proof.
  intros He Hz Hn Hw. destruct (names_text e name issuer He Hn) as (HnB & Hns & Hi & _). destruct He as ((Hs & Hd & _) & HB & _ & Hk & _).
  apply reads_result. eapply reads_woven; [apply account_skips|exact Hw|]. unfold account_fields, params_of, params0.
  eapply takes_app; [known_bytes 1; known_bytes 2; apply ta_nil|]. rewrite from_utf8_lossy_str by done.
  eapply (takes_app _ _ _ (mkParams (e_secret e) name (default [] issuer) 0 0 0 0)).
  { destruct issuer as [i|]; [|apply ta_nil]. destruct (Hi i eq_refl) as (? & ? & ?). known_bytes 3.
    rewrite from_utf8_lossy_str by done. apply ta_nil. }
  eapply takes_app.
  { known_uint 4; [destruct (e_hash e); simpl; lia|]. known_uint 5; [unfold digits_code; destruct (_ =? _); lia|]. apply ta_nil. }
  destruct (e_kind e) as [p|c]; cbn [kind_fields]; known_uint 6; [apply ta_nil|]. known_uint 7. apply ta_nil.
Qed.

Lemma convert_account e m :
  exportable e -> account_written e m -> convert_wide m = Ok (name_label (e_issuer e) (e_account e), Ok e).
Proof.
  intros He (_ & name & issuer & Hz & Hn & Hw). unfold convert_wide. rewrite (account_message_read e name issuer) by done. cbn [mbind result_bind].
  destruct (names_text e name issuer He Hn) as (_ & _ & _ & ->).
  destruct He as ((Hs & _ & _ & Hi0 & Ha0) & _ & Hd & Hk & _).
  do 2 f_equal. unfold wide_params, params_of. cbn [p_typ p_secret p_algorithm p_digits p_counter]. destruct e as [ei ea secret hash digits kind].
  cbn [e_issuer e_account e_secret e_hash e_digits e_kind] in *. rewrite (proj2 (check_secret_Ok secret secret)) by done.
  assert (finish ei ea secret hash digits kind = Ok (mkEntry ei ea secret hash digits kind)) as Hf.
  { apply finish_Ok. split_and!; [lia|lia|destruct kind; [subst period|]; done|]. f_equal; [by destruct ei as [[|]|]|by destruct ea as [[|]|]]. }
  destruct kind as [p|c], hash, Hd as [-> | ->]; cbn [hash_code digits_code Z.eqb Pos.eqb orb mbind result_bind]; rewrite <- Hf; try subst p; reflexivity.
Qed.

Lemma imap_app_seq {A B} (f : nat -> A -> B) l k : imap f (l ++ k) = imap f l ++ imap (fun i => f (length l + i)%nat) k.
Proof. revert f. induction l as [|x l IH]; intros f; [done|]. cbn. f_equal. rewrite IH. f_equal. Qed.

Lemma accounts_read es ms done0 :
  Forall exportable es -> Forall2 account_written es ms -> Z.of_nat (length done0 + length es) <= MAX_ENTRIES ->
  takes_all wide_payload_field (mkPayload (imap item_of done0) None None) (put_bytes 1 <$> ms)
    (mkPayload (imap item_of (done0 ++ es)) None None).
Proof.
  intros He Hm. revert done0 He. induction Hm as [|e m es ms Hem _ IH]; intros done0 He Hn; [rewrite app_nil_r; apply ta_nil|].
  apply list.Forall_cons in He as [He Hes]. rewrite fmap_cons. eapply ta_cons.
  - intros r s2 Hr. eapply (reads_bytes _ _ 1); [lia|destruct Hem; lia| |exact Hr].
    intros buf rest Hread. unfold wide_payload_field. cbn [Z.eqb Pos.eqb andb].
    assert (zlen (imap item_of done0) = Z.of_nat (length done0)) as Hl by (unfold zlen; by rewrite length_imap).
    rewrite Hl. rewrite (proj2 (Z.leb_gt _ _)) by (cbn [length] in Hn; unfold MAX_ENTRIES in *; lia).
    rewrite (io_bind_Ok_eq _ _ _ _ _ Hread). rewrite (convert_account e m) by done. reflexivity.
  - specialize (IH (done0 ++ [e])). rewrite <- (assoc_L (++)) in IH. cbn [app] in IH.
    assert (imap item_of (done0 ++ [e]) = imap item_of done0 ++ [item_of (length done0) e]) as E.
    { rewrite imap_app_seq. cbn [imap]. by rewrite Nat.add_0_r. }
    rewrite E in IH. apply IH; [done|].
    rewrite length_app. cbn [length] in *. lia.
Qed.

Definition batch_ok (batch : option (Z * Z)) : Prop :=
  match batch with Some (index, size) => is_word 32 index /\ is_word 32 size | None => True end.
(** More than one code, and which this one is. *)
Definition batch_told (batch : option (Z * Z)) : option (Z * Z) :=
  match batch with Some (index, size) => if 1 <? size then Some (index, size) else None | None => None end.

Lemma export_payload_read es batch payload :
  Forall exportable es -> zlen es <= MAX_ENTRIES -> es <> [] -> batch_ok batch -> payload_written es batch payload ->
  parse_payload_wide payload = Ok (mkFile GoogleExport (imap item_of es) (batch_told batch)).
Proof.
  intros He Hn Hne Hb (ms & Hm & Hw). unfold parse_payload_wide.
  rewrite (reads_result _ _ _ (mkPayload (imap item_of es) (snd <$> batch) (fst <$> batch))).
  - cbn [mbind result_bind l_accounts l_index l_size]. rewrite bool_decide_false by (by destruct es). by destruct batch as [[index size]|].
  - eapply reads_woven; [apply payload_skips|exact Hw|]. eapply takes_app.
    { apply (accounts_read es ms [] He Hm). unfold zlen in Hn. simpl. lia. }
    cbn [app]. destruct batch as [[index size]|]; cbn [batch_fields]; [|apply ta_nil]. destruct Hb as [Hi Hz].
    unfold is_word in *. known_uint 3. known_uint 4. rewrite !cast_small by done. apply ta_nil.
Qed.

Lemma account_bytes e m : exportable e -> account_written e m -> Bytes m.
Proof.
  intros He (_ & name & issuer & _ & Hn & Hw). destruct (names_text e name issuer He Hn) as (HB & _ & Hi & _).
  eapply woven_bytes; [|exact Hw]. destruct He as (_ & HsB & _ & Hk & _). unfold account_fields.
  apply Forall_app. split; [apply Forall_cons_2; [|apply Forall_singleton]; (apply put_bytes_bytes; [lia|done])|].
  apply Forall_app. split; [destruct issuer as [i|]; [|constructor]; apply Forall_singleton, put_bytes_bytes; [lia|]; by destruct (Hi i eq_refl)|].
  apply Forall_app. split; [apply Forall_cons_2; [|apply Forall_singleton]; apply put_uint_bytes; try lia|].
  - destruct (e_hash e); simpl; lia.
  - unfold digits_code. destruct (_ =? _); lia.
  - destruct (e_kind e) as [p|c]; cbn [kind_fields]; [apply Forall_singleton|apply Forall_cons_2; [|apply Forall_singleton]]; apply put_uint_bytes; lia.
Qed.
Lemma payload_bytes es batch payload : Forall exportable es -> batch_ok batch -> payload_written es batch payload -> Bytes payload.
Proof.
  intros He Hb (ms & Hm & Hw). eapply woven_bytes; [|exact Hw]. apply Forall_app. split.
  - clear Hw. induction Hm as [|e m es ms Hem _ IH]; [constructor|]. apply list.Forall_cons in He as [He Hes].
    apply Forall_cons_2; [|by apply IH]. apply put_bytes_bytes; [lia|]. by eapply account_bytes.
  - destruct batch as [[index size]|]; [|constructor]. destruct Hb as [[Hi _] [Hz _]].
    apply Forall_cons_2; [|apply Forall_singleton]; apply put_uint_bytes; lia.
Qed.

Lemma percent_encode_plain s : Bytes s -> Forall (fun c => 0 <= c < 0x80 /\ is_whitespace c = false) (percent_encode s).
Proof.
  intros HB. unfold percent_encode. induction HB as [|b s Hb _ IH]; [constructor|]. cbn [flat_map]. apply Forall_app. split; [|done].
  eapply list.Forall_impl; [by apply percent_char_safe|]. intros c [Hc| ->]; [|split; [lia|done]].
  unfold unreserved, is_ascii_alphanumeric, between in Hc. unfold is_whitespace, between.
  repeat (apply orb_true_iff in Hc as [Hc|Hc]); bools; (split; [lia|]); decide_cmp;
    rewrite !(proj2 (Z.eqb_neq _ _)) by lia; done.
Qed.

Lemma decode_uri_export payload :
  Bytes payload -> decode_uri (s2b "otpauth-migration://offline?data=" ++ percent_encode (base64_encode payload)) = Ok payload.
Proof.
  intros HB. destruct (ascii_text _ (base64_encode_ascii payload)) as [HeB Hes]. unfold decode_uri. rewrite trim_ascii.
  2:{ apply Forall_app. split; [by_decision|by apply percent_encode_plain]. }
  change (s2b "otpauth-migration://offline?data=" ++ percent_encode (base64_encode payload)) with
    (s2b "otpauth-migration://offline" ++ [63] ++ s2b "data=" ++ percent_encode (base64_encode payload)).
  rewrite strip_prefix_app. cbn [ok_or mbind result_bind]. rewrite strip_prefix_app.
  change (default _ (Some (s2b "data=" ++ percent_encode (base64_encode payload)))) with (s2b "data=" ++ percent_encode (base64_encode payload)).
  rewrite split_on_none.
  2:{ apply Forall_app. split; [by_decision|by apply percent_encode_no]. }
  cbn [fold_left]. rewrite strip_prefix_app. cbn [opt_or ok_or mbind result_bind].
  unfold percent_decode_keep_plus. rewrite percent_decode_encode by done. cbn [ok_or mbind result_bind].
  by rewrite base64_decode_encode.
Qed.

(** * The two readers agree *)

Record same_params (p q : Params) : Prop := {
  sp_secret : p_secret p = p_secret q; sp_name : p_name p = p_name q; sp_issuer : p_issuer p = p_issuer q;
  sp_algorithm : p_algorithm p = p_algorithm q; sp_digits : p_digits p = p_digits q; sp_typ : p_typ p = p_typ q
}.

Lemma field_agrees p q f w buf p' buf' :
  same_params p q -> narrow_field p f w buf = (Ok p', buf') -> exists q', wide_field q f w buf = (Ok q', buf') /\ same_params p' q'.
Proof.
  destruct p as [s1 n1 i1 a1 d1 t1 c1], q as [s2 n2 i2 a2 d2 t2 c2]. intros [H1 H2 H3 H4 H5 H6]. cbn in H1, H2, H3, H4, H5, H6. subst.
  unfold narrow_field, wide_field.
  assert (forall (m : reader Z) (k1 k2 : Z -> Params), (forall x, same_params (k1 x) (k2 x)) ->
    (x ← m; mret (k1 x)) buf = (Ok p', buf') -> exists q', (x ← m; mret (k2 x)) buf = (Ok q', buf') /\ same_params p' q') as Hv.
  { intros m k1 k2 Hk (x & b & Hx & [= <- <-])%io_bind_Ok. rewrite (io_bind_Ok_eq _ _ _ _ _ Hx). by eexists. }
  assert (forall (m : reader (list Z)) (k1 k2 : list Z -> Params), (forall x, same_params (k1 x) (k2 x)) ->
    (x ← m; mret (k1 x)) buf = (Ok p', buf') -> exists q', (x ← m; mret (k2 x)) buf = (Ok q', buf') /\ same_params p' q') as Hb.
  { intros m k1 k2 Hk (x & b & Hx & [= <- <-])%io_bind_Ok. rewrite (io_bind_Ok_eq _ _ _ _ _ Hx). by eexists. }
  do 3 (destruct (_ && _); [by apply Hb|]). do 3 (destruct (_ && _); [by apply Hv|]).
  destruct ((f =? 7) && (w =? 0)) eqn:E7.
  - bools. subst. unfold skip. cbn [Z.eqb]. intros (x & b & Hx & [= <- <-])%io_bind_Ok. apply io_bind_Ok in Hx as (v & b2 & Hx & [= <-]).
    subst. rewrite (io_bind_Ok_eq _ _ _ _ _ Hx). by eexists.
  - intros (x & b & Hx & [= <- <-])%io_bind_Ok. rewrite (io_bind_Ok_eq _ _ _ _ _ Hx). by eexists.
Qed.

Lemma message_agrees buf p :
  read_fields narrow_field params0 buf = Ok p -> exists q, read_fields wide_field params0 buf = Ok q /\ same_params p q.
Proof.
  unfold read_fields. intros H. destruct (fields_loop _ narrow_field params0 buf) as [r b] eqn:E. cbn [fst] in H. subst r.
  destruct (fields_loop_sim narrow_field wide_field same_params (fun _ => True)) with (fuel := S (length buf)) (s1 := params0)
    (s2 := params0) (buf := buf) (s1' := p) (buf' := b) as (_ & q & -> & Hq); try done.
  - intros s1 s2 f w buf0 s1' buf'. intros HR _ Hn. by eapply field_agrees.
  - by exists q.
Qed.

(** What the narrow reading of an account says of the wide one. *)
Definition agreeing (r : result Skipped BulkEntry) (i : ImportItem) : Prop := forall b, r = Ok b -> i_entry i = Ok (widen b).

Lemma params_agree p q b :
  same_params p q -> narrow_params p = Ok b -> wide_params q (param_names q).1 (param_names q).2 = Ok (widen b).
Proof.
  intros [H1 H2 H3 H4 H5 H6]. unfold narrow_params, wide_params, skipped_for.
  assert (param_names p = param_names q) as -> by (unfold param_names; by rewrite H2, H3).
  rewrite H1, H4, H5, H6. destruct (param_names q) as [issuer account] eqn:En. cbn [fst snd]. intros H.
  assert (nonempty issuer = issuer /\ nonempty account = account) as [Hi Ha].
  { unfold param_names in En. destruct (split_label _). injection En as <- <-. by rewrite !nonempty_idem. }
  destruct (negb (p_typ q =? 0) && negb (p_typ q =? 2)) eqn:Et; [done|].
  assert ((p_typ q =? 0) || (p_typ q =? 2) = true) as -> by (by destruct (p_typ q =? 0), (p_typ q =? 2)).
  inv_bind H. inv_bind H. case_bool_decide as Hs; [done|].
  destruct (63 <? zlen (p_secret q)) eqn:El; [done|]. cbn [orb] in H. apply Ok_inj in H as <-. bools.
  cbn [mbind result_bind].
  pose proof (zlen_nonneg (p_secret q)). assert (zlen (p_secret q) <> 0) by (intros ?%zlen_0; done).
  rewrite (proj2 (check_secret_Ok _ (p_secret q))) by (split; [done|lia]). cbn [mbind result_bind].
  assert (forall k, (if (k =? 0) || (k =? 1) then Ok Six else if k =? 2 then Ok Eight else skipped_for p (s2b "unsupported digit count")) = Ok a0 ->
    (if (k =? 0) || (k =? 1) then Ok 6 else if k =? 2 then Ok 8
     else Err (UMalformed (s2b "the digit count isn't one keyroost knows"))) = Ok (wide_digits a0)) as Hdig.
  { intros k. destruct ((k =? 0) || (k =? 1)); [by intros <-%Ok_inj|]. destruct (k =? 2); [by intros <-%Ok_inj|done]. }
  assert (forall k, (if (k =? 0) || (k =? 1) then Ok HmacSha1 else if k =? 2 then Ok HmacSha256
                     else skipped_for p (s2b "only SHA-1 / SHA-256 are supported")) = Ok a ->
    (if (k =? 0) || (k =? 1) then Ok Sha1 else if k =? 2 then Ok Sha256 else if k =? 3 then Ok Sha512
     else if k =? 4 then Err (UHash (s2b "MD5")) else Err (UHash (s2b "algorithm " ++ dec k))) = Ok (wide_hash a)) as Hal.
  { intros k. destruct ((k =? 0) || (k =? 1)); [by intros <-%Ok_inj|]. destruct (k =? 2); [by intros <-%Ok_inj|done]. }
  rewrite (Hal _ Hb). cbn [mbind result_bind]. rewrite (Hdig _ Hb0). cbn [mbind result_bind].
  apply finish_Ok. rewrite Hi, Ha. split_and!; try done; destruct a0; simpl; lia.
Qed.

Lemma convert_agrees b r :
  convert b = Ok r -> exists label entry, convert_wide b = Ok (label, entry) /\ (forall e, r = Ok e -> entry = Ok (widen e)).
Proof.
  unfold convert, convert_wide. intros H. inv_bind H. apply Ok_inj in H as <-. destruct (message_agrees _ _ Hb) as (q & -> & Hq).
  cbn [mbind result_bind]. pose proof (fun e => params_agree a q e Hq) as Hp. destruct (param_names q) as [issuer account]. cbn [fst snd] in Hp.
  eexists _, _. split; [reflexivity|]. intros e He. by apply Hp.
Qed.

Record same_payload (l : Payload (result Skipped BulkEntry)) (k : Payload ImportItem) : Prop := {
  sl_accounts : Forall2 agreeing (l_accounts l) (l_accounts k);
  sl_size : l_size l = l_size k; sl_index : l_index l = l_index k
}.

Lemma payload_field_agrees l k f w buf l' buf' :
  same_payload l k -> zlen (l_accounts l') <= MAX_ENTRIES -> narrow_payload_field l f w buf = (Ok l', buf') ->
  exists k', wide_payload_field k f w buf = (Ok k', buf') /\ same_payload l' k'.
Proof.
  destruct l as [rs size index], k as [items size2 index2]. intros [H1 H2 H3] Hq. cbn [l_accounts l_size l_index] in H1, H2, H3. subst size2 index2.
  assert (length rs = length items) as Hlen by exact (Forall2_length H1). unfold narrow_payload_field, wide_payload_field. destruct (_ && _).
  - intros (b & b1 & Hx & H)%io_bind_Ok. apply io_bind_Ok in H as (r & b2 & Hr & [= <- <-]). injection Hr as Hr <-. cbn [l_accounts] in Hq.
    assert (zlen items = zlen rs) as Hz by (unfold zlen; by rewrite Hlen). rewrite zlen_app in Hq. change (zlen [r]) with 1 in Hq.
    rewrite (proj2 (Z.leb_gt _ _)) by lia. rewrite (io_bind_Ok_eq _ _ _ _ _ Hx).
    destruct (convert_agrees _ _ Hr) as (label & entry & Hw & Ha). rewrite Hw. eexists. split; [reflexivity|].
    constructor; [|done|done]. cbn [l_accounts]. apply Forall2_app; [done|]. by apply Forall2_cons.
  - do 2 (destruct (_ && _); [intros (v & b1 & Hx & [= <- <-])%io_bind_Ok; rewrite (io_bind_Ok_eq _ _ _ _ _ Hx); by eexists|]).
    intros (v & b1 & Hx & [= <- <-])%io_bind_Ok. rewrite (io_bind_Ok_eq _ _ _ _ _ Hx). by eexists.
Qed.

Lemma payload_field_grows l f w buf l' buf' :
  narrow_payload_field l f w buf = (Ok l', buf') -> zlen (l_accounts l') <= MAX_ENTRIES -> zlen (l_accounts l) <= MAX_ENTRIES.
Proof.
  destruct l as [rs size index]. unfold narrow_payload_field. cbn [l_accounts]. destruct (_ && _).
  - intros (b & b1 & Hx & H)%io_bind_Ok. apply io_bind_Ok in H as (r & b2 & Hr & [= <- <-]). cbn [l_accounts]. rewrite zlen_app.
    pose proof (zlen_nonneg [r]). lia.
  - do 2 (destruct (_ && _); [intros (v & b1 & Hx & [= <- <-])%io_bind_Ok; done|]). by intros (v & b1 & Hx & [= <- <-])%io_bind_Ok.
Qed.

Lemma zlen_oks_errs {E A} (rs : list (result E A)) : zlen (oks rs) + zlen (errs rs) = zlen rs.
Proof. unfold oks, errs. induction rs as [|[a|e] rs IH]; [done|..]; cbn; zlen; lia. Qed.

(** ** Limits *)

Lemma fields_loop_inv {S} (handle : S -> Z -> Z -> reader S) (P : S -> Prop) fuel s buf s' buf' :
  (forall s f w buf s' buf', P s -> handle s f w buf = (Ok s', buf') -> P s') -> P s ->
  fields_loop fuel handle s buf = (Ok s', buf') -> P s'.
Proof.
  intros Hh. revert s buf. induction fuel as [|fuel IH]; intros s buf Hp H; [done|]. cbn [fields_loop] in H.
  apply io_bind_Ok in H as (k & b1 & _ & H). destruct k as [[f w]|]; [|by injection H as <- _].
  apply io_bind_Ok in H as (s1 & b2 & Hs & H). eapply IH; [|exact H]. by eapply Hh.
Qed.

Definition item_ok (i : ImportItem) : Prop := forall e, i_entry i = Ok e -> entry_ok e.

Lemma wide_params_ok p issuer account e : wide_params p issuer account = Ok e -> entry_ok e.
Proof.
  unfold wide_params. intros H. inv_bind H. inv_bind H. inv_bind H. inv_bind H. apply check_secret_Ok in Hb0 as [-> Hl].
  by eapply finish_entry_ok.
Qed.

Lemma payload_field_ok l f w buf l' buf' :
  Forall item_ok (l_accounts l) /\ zlen (l_accounts l) <= MAX_ENTRIES -> wide_payload_field l f w buf = (Ok l', buf') ->
  Forall item_ok (l_accounts l') /\ zlen (l_accounts l') <= MAX_ENTRIES.
Proof.
  destruct l as [items size index]. unfold wide_payload_field. cbn [l_accounts]. intros [Hi Hn]. destruct (_ && _).
  - destruct (MAX_ENTRIES <=? zlen items) eqn:E; [done|]. bools. intros (b & b1 & Hx & H)%io_bind_Ok.
    apply io_bind_Ok in H as ([label entry] & b2 & Hr & [= <- <-]). injection Hr as Hr <-. cbn [l_accounts]. split.
    + apply Forall_app. split; [done|]. apply Forall_singleton. intros e He. cbn in He. subst entry.
      unfold convert_wide in Hr. inv_bind Hr. destruct (param_names a). apply Ok_inj in Hr. injection Hr as _ Hr. by eapply wide_params_ok.
    + rewrite zlen_app. change (zlen [_]) with 1. lia.
  - do 2 (destruct (_ && _); [intros (v & b1 & Hx & [= <- <-])%io_bind_Ok; done|]). by intros (v & b1 & Hx & [= <- <-])%io_bind_Ok.
Qed.

Lemma migration_items_ok uri f :
  migration_parse_wide uri = Ok f -> Forall item_ok (f_items f) /\ zlen (f_items f) <= MAX_ENTRIES /\ f_items f <> [].
Proof.
  unfold migration_parse_wide, parse_payload_wide, read_fields. intros H. inv_bind H.
  destruct (fields_loop _ _ _ a) as [r b] eqn:E. cbn [fst] in H. inv_bind H. subst r. case_bool_decide as Hn; [done|].
  apply Ok_inj in H as <-. cbn [f_items].
  destruct (fields_loop_inv _ (fun l => Forall item_ok (l_accounts l) /\ zlen (l_accounts l) <= MAX_ENTRIES) _ (mkPayload [] None None) _ _ _ payload_field_ok ltac:(split; [constructor|done]) E).
  by split_and!.
Qed.

(** * Properties *)

(** C39: an export read back. A Google Authenticator export of 1 to 1000
    accounts (a protobuf message, base64 and percent-encoding in a URI) is read
    as exactly those accounts, in order and under their names, HOTP counters
    and all, and the batch is told where there is more than one code. The fields
    may be interleaved, in the payload and in every account, with any number of
    fields the reader does not know, of any number and of each wire type but the
    obsolete groups: all are stepped over. A name may be the account alone, the
    documented Issuer:account (with no ':' in the issuer), or that with an issuer
    field besides, which then counts. An account with a ':' of its own needs one of
    the last two forms, since a name is split at its first ':'; accounts have no
    outer spaces, 6 or 8 digits and, unless HOTP, a period of 30 seconds, which is
    all the format can say. *)
Theorem migration_roundtrip (es : list ImportEntry) (batch : option (Z * Z)) (payload : list Z) :
  Forall exportable es -> es <> [] -> zlen es <= MAX_ENTRIES -> batch_ok batch -> payload_written es batch payload ->
  migration_parse_wide (export_uri payload) = Ok (mkFile GoogleExport (imap item_of es) (batch_told batch)).
Proof.
  intros He Hne Hn Hb Hw. unfold migration_parse_wide, export_uri.
  rewrite decode_uri_export by (by eapply payload_bytes). cbn [mbind result_bind].
  by eapply export_payload_read.
Qed.

(** The Molto2's reader and the wide reader agree on an export. Whatever
    bytes the Molto2's reader takes, the wide one takes too (up to its limit of
    1000 accounts): the same batch, one item for each account kept or skipped, in
    order, and each account the Molto2's reader kept is there with the same names,
    secret, hash and digits. *)
Theorem migration_narrow_agrees (buf : list Z) (m : Migration) :
  parse_payload buf = Ok m -> zlen (m_entries m) + zlen (m_skipped m) <= MAX_ENTRIES ->
  exists f rs, parse_payload_wide buf = Ok f /\ f_batch f = m_batch m /\ m_entries m = oks rs /\ m_skipped m = errs rs /\
    Forall2 (fun r i => forall b, r = Ok b -> i_entry i = Ok (widen b)) rs (f_items f).
Proof.
  unfold parse_payload, parse_payload_wide, read_fields. intros H Hn.
  destruct (fields_loop _ narrow_payload_field _ buf) as [r b] eqn:E. cbn [fst] in H. inv_bind H. subst r. rename a into l.
  destruct (_ && _) eqn:Hne in H; [done|]. apply Ok_inj in H as <-. cbn [m_entries m_skipped m_batch] in *.
  assert (zlen (oks (l_accounts l)) + zlen (errs (l_accounts l)) = zlen (l_accounts l)) as Hz by apply zlen_oks_errs.
  destruct (fields_loop_sim narrow_payload_field wide_payload_field same_payload (fun l => zlen (l_accounts l) <= MAX_ENTRIES))
    with (fuel := S (length buf)) (s1 := mkPayload (A := result Skipped BulkEntry) [] None None)
    (s2 := mkPayload (A := ImportItem) [] None None) (buf := buf) (s1' := l) (buf' := b) as (_ & k & Hk & Hs).
  - intros s f w buf0 s' buf' Hh Hq. by eapply payload_field_grows.
  - intros s1 s2 f w buf0 s1' buf' HR Hq Hh. by eapply payload_field_agrees.
  - by constructor.
  - done.
  - lia.
  - rewrite Hk. cbn [fst mbind result_bind]. destruct Hs as [Hs1 Hs2 Hs3].
    assert (l_accounts k <> []) as Hnk.
    { intros Ek. rewrite Ek in Hs1. apply Forall2_nil_inv_r in Hs1. by rewrite Hs1 in Hne. }
    rewrite bool_decide_false by done. eexists _, (l_accounts l). split_and!; [reflexivity| |done..|done]. cbn [f_batch]. by rewrite Hs2, Hs3.
Qed.

(** Every reader of an export comes to an end on every input: the turns
    allowed, one more than there are bytes, are never what stops it, since any
    number more gives the same result. *)
Theorem migration_read_terminates (buf : list Z) (more : nat) :
  let turns := S (length buf) in
  (forall p, fields_loop (turns + more) wide_field p buf = fields_loop turns wide_field p buf) /\
  (forall p, fields_loop (turns + more) narrow_field p buf = fields_loop turns narrow_field p buf) /\
  (forall l, fields_loop (turns + more) wide_payload_field l buf = fields_loop turns wide_payload_field l buf) /\
  (forall l, fields_loop (turns + more) narrow_payload_field l buf = fields_loop turns narrow_payload_field l buf).
Proof.
  intros turns. subst turns.
  split_and!; intros s; apply fields_fuel; try lia; intros; [apply wide_field_shrinks|apply narrow_field_shrinks|
    apply wide_payload_shrinks|apply narrow_payload_shrinks].
Qed.

(** An export of two accounts, the second under Issuer:account, with fields of every wire type between. *)
Definition export_entries : list ImportEntry :=
  [mkEntry (Some (s2b "ACME: Co")) (Some (s2b "john")) (s2b "Hello!") Sha256 8 (Totp 30);
   mkEntry (Some (s2b "Example")) (Some (s2b "bob:2")) [1; 2; 3] Sha512 6 (Hotp 5)].
Definition export_messages : list (list Z) :=
  [put_bytes 1 (s2b "Hello!") ++ put_bytes 2 (s2b "john") ++ put_bytes 3 (s2b "ACME: Co") ++ put_uint 4 2 ++
     put_extra 9 (XBytes (s2b "later")) ++ put_uint 5 2 ++ put_extra 1 (XVarint 300) ++ put_uint 6 2;
   put_extra 12 (XFixed64 [0; 1; 2; 3; 4; 5; 6; 7]) ++ put_bytes 1 [1; 2; 3] ++ put_extra 7 (XFixed32 [8; 9; 10; 11]) ++
     put_bytes 2 (s2b "Example:bob:2") ++ put_uint 4 3 ++ put_uint 5 1 ++ put_uint 6 1 ++ put_uint 7 5].
Definition export_payload : list Z :=
  put_bytes 1 (nth 0 export_messages []) ++ put_extra 2 (XVarint 1) ++ put_bytes 1 (nth 1 export_messages []) ++
  put_uint 3 2 ++ put_uint 4 0 ++ put_extra 1000 (XFixed32 [0; 0; 0; 0]).

Lemma export_entries_ok : Forall exportable export_entries.
Proof.
  unfold export_entries, exportable, entry_ok, name_ok.
  apply Forall_cons_2; [|apply Forall_cons_2; [|constructor]]; split_and!; cbn [e_issuer e_account e_secret e_hash e_digits e_kind kind_ok];
    first [by_decision | (unfold zlen; simpl; lia) | (by left) | (by right) | lia | done
          | (intros x [= <-]; split_and!; first [by_decision | (unfold zlen; simpl; lia)])
          | idtac].
Defined.

Ltac weave :=
  repeat first [apply w_nil
    | match goal with |- woven _ _ (put_extra _ _ ++ _) => apply w_extra; [lia|by_decision|first [cbn; lia | split; by_decision]|] end
    | apply w_known
    | match goal with |- woven _ _ ?b => rewrite <- (app_nil_r b) end].
Lemma export_payload_written : payload_written export_entries (Some (0, 2)) export_payload.
Proof.
  exists export_messages. split.
  - apply Forall2_cons; [|apply Forall2_cons; [|constructor]]; (split; [by_decision|]).
    + exists (s2b "john"), (Some (s2b "ACME: Co")). split; [by_decision|]. split; [|cbn [account_fields app kind_fields e_kind]; weave].
      apply nw_bare. intros a [= <-]. by_decision.
    + exists (s2b "Example:bob:2"), None. split; [by_decision|]. split; [|cbn [account_fields app kind_fields e_kind]; weave].
      exact (nw_label _ (Some (s2b "bob:2")) (s2b "Example") eq_refl eq_refl ltac:(by_decision)).
  - cbn [export_messages fmap list_fmap app batch_fields]. unfold export_payload. cbn [nth export_messages]. weave.
Defined.

Lemma migration_roundtrip_witness :
  migration_parse_wide (export_uri export_payload) =
  Ok (mkFile GoogleExport
       [mkItem 0 (s2b "ACME: Co:john") (Ok (mkEntry (Some (s2b "ACME: Co")) (Some (s2b "john")) (s2b "Hello!") Sha256 8 (Totp 30)));
        mkItem 1 (s2b "Example:bob:2") (Ok (mkEntry (Some (s2b "Example")) (Some (s2b "bob:2")) [1; 2; 3] Sha512 6 (Hotp 5)))] (Some (0, 2))).
Proof.
  apply (migration_roundtrip export_entries (Some (0, 2)) export_payload);
    [apply export_entries_ok|done|by_decision|by_decision|apply export_payload_written].
Defined.

Lemma migration_narrow_agrees_witness :
  exists m, parse_payload export_payload = Ok m /\ length (m_entries m) = 1%nat /\ length (m_skipped m) = 1%nat /\
  exists f rs, parse_payload_wide export_payload = Ok f /\ f_batch f = m_batch m /\ m_entries m = oks rs /\
    m_skipped m = errs rs /\ Forall2 (fun r i => forall b, r = Ok b -> i_entry i = Ok (widen b)) rs (f_items f).
Proof.
  destruct (parse_payload export_payload) as [m|] eqn:E; [|vm_compute in E; discriminate].
  assert (length (m_entries m) = 1%nat /\ length (m_skipped m) = 1%nat) as [H1 H2] by (vm_compute in E; by injection E as <-).
  exists m. split_and!; [done..|]. apply (migration_narrow_agrees _ m E). unfold zlen, MAX_ENTRIES. lia.
Defined.
