(* ===== verification/Bulk.v ===== *)
(** keyroost-import/src/bulk.rs: lists of otpauth:// lines and the two JSON
    exports, for the Molto2 and in the wide model. What serde_json makes of a
    file is a class ([JsonExport]): the deserialized structures, field by field. *)
From S2P Require Export Migration.

(** * What the JSON readers get from serde *)

Record AegisEntry := mkAegis {
  ae_typ : list Z; ae_name : option (list Z); ae_issuer : option (list Z);
  ae_secret : list Z; ae_algo : option (list Z); ae_digits : option Z; ae_period : option Z
}.
Record TwoFasService := mkService {
  ts_name : option (list Z); ts_secret : list Z; ts_account : option (list Z); ts_issuer : option (list Z);
  ts_digits : option Z; ts_period : option Z; ts_algorithm : option (list Z); ts_token_type : option (list Z)
}.

(** Each reader's structures from a text; a counter object is its keys with the
    leniently read values, in order. *)
Class JsonExport := {
  json_aegis : list Z -> result BulkError (option (list AegisEntry));
  json_aegis_counters : list Z -> result BulkError (option (list (list (list Z * option Z))));
  json_aegis_count : list Z -> option Z;
  json_twofas : list Z -> result BulkError (list TwoFasService * option (list Z));
  json_twofas_counters : list Z -> result BulkError (list (list (list Z * option Z)));
  json_twofas_count : list Z -> option Z
}.

Record CounterOnly := mkCounter { c_value : option Z; c_repeated : bool }.

(** The visitor over an object's keys: the last counter, and whether there was
    more than one. *)
Definition counter_step (st : CounterOnly * bool) (kv : list Z * option Z) : CounterOnly * bool :=
  let '(c, seen) := st in
  if bool_decide (fst kv = s2b "counter") then (mkCounter (snd kv) (c_repeated c || seen), true) else st.
Definition counter_only (kvs : list (list Z * option Z)) : CounterOnly :=
  fst (fold_left counter_step kvs (mkCounter None false, false)).

(** * One entry *)

Definition build_entry (index : Z) (issuer account : option (list Z)) (secret_b32 : list Z) (algo : option (list Z))
    (digits period : Z) : result BulkError BulkEntry :=
  let rejected := EntryRejected index in
  secret ← map_err (fun _ => rejected InvalidSecret) (base32_decode secret_b32);
  if bool_decide (secret = []) || (63 <? zlen secret) then Err (rejected InvalidSecret) else
  algorithm ← map_err rejected (molto_hash (default (s2b "SHA1") algo));
  digits ← map_err rejected (molto_digits digits);
  time_step ← map_err rejected (molto_step period);
  Ok (mkBulk (nonempty issuer) (nonempty account) secret algorithm digits time_step).

Definition wide_json_entry (typ : list Z) (issuer account : option (list Z)) (secret_b32 : list Z) (algo : option (list Z))
    (digits period : Z) (counter : CounterOnly) : result Unusable ImportEntry :=
  name ← type_from_name typ;
  secret ← decode_secret secret_b32;
  hash ← hash_from_name (default (s2b "SHA1") algo);
  kind ← match name with
         | NTotp => Ok (Totp period)
         | NHotp => if c_repeated counter then Err (UMalformed (s2b "the counter is given more than once"))
                    else Ok (Hotp (default 0 (c_value counter)))
         end;
  finish issuer account secret hash digits kind.

(** * Lists of lines *)

(** [for (i, line) in ..enumerate()] with an early return. *)
Fixpoint try_enumerate {E S X} (step : S -> Z -> X -> result E S) (i : Z) (st : S) (l : list X) : result E S :=
  match l with
  | [] => Ok st
  | x :: l => st ← step st i x; try_enumerate step (i + 1) st l
  end.

Definition skip_line (line : list Z) : bool := bool_decide (line = []) || starts_with [35] line.

Definition list_line (out : list BulkEntry) (i : Z) (raw : list Z) : result BulkError (list BulkEntry) :=
  let line := trim raw in
  if skip_line line then Ok out
  else o ← map_err (EntryRejected i) (parse line); Ok (out ++ [bulk_of o]).

Definition parse_otpauth_list (text : list Z) : result BulkError (list BulkEntry) :=
  out ← try_enumerate list_line 0 [] (str_lines text);
  if bool_decide (out = []) then Err EmptyFile else Ok out.

Definition line_number (i : Z) : list Z := s2b "line " ++ dec (i + 1).

Definition list_line_wide (st : list ImportItem * option (Z * Z)) (i : Z) (raw : list Z) :
    result BulkError (list ImportItem * option (Z * Z)) :=
  let '(items, batch) := st in
  let line := trim raw in
  if skip_line line then Ok st
  else if MAX_ENTRIES <=? zlen items then Err TooManyEntries
  else if is_migration_uri line then
    match migration_parse_wide line with
    | Err TooManyEntries => Err TooManyEntries
    | Ok file =>
        if MAX_ENTRIES <? zlen items + zlen (f_items file) then Err TooManyEntries
        else Ok (items ++ ((fun item => mkItem i (i_label item) (i_entry item)) <$> f_items file), opt_or batch (f_batch file))
    | Err _ => Ok (items ++ [mkItem i (line_number i) (Err (UMalformed (s2b "the Google Authenticator export couldn't be read")))], batch)
    end
  else
    let '(name, entry) := parse_entry_labeled line in
    Ok (items ++ [mkItem i (default (line_number i) name) entry], batch).

Definition parse_list_wide (text : list Z) : result BulkError ImportFile :=
  '(items, batch) ← try_enumerate list_line_wide 0 ([], None) (str_lines text);
  if bool_decide (items = []) then Err EmptyFile else Ok (mkFile OtpauthList items batch).

(** * JSON exports *)

Section json.
Context `{JsonExport} (encrypted : list Z).

(** [encrypted] is the message of the build's feature. *)
Definition read_db {A} (db : result BulkError (option (list A))) : result BulkError (list A) :=
  d ← db; match d with Some l => Ok l | None => Err (Encrypted encrypted) end.

Definition aegis_step (out : list BulkEntry) (i : Z) (e : AegisEntry) : result BulkError (list BulkEntry) :=
  if negb (eq_ignore_ascii_case (ae_typ e) (s2b "totp")) then Ok out
  else b ← build_entry i (ae_issuer e) (ae_name e) (ae_secret e) (ae_algo e) (default 6 (ae_digits e)) (default 30 (ae_period e));
       Ok (out ++ [b]).
Definition aegis_parse (json : list Z) : result BulkError (list BulkEntry) :=
  db ← read_db (json_aegis json);
  out ← try_enumerate aegis_step 0 [] db;
  if bool_decide (out = []) then Err EmptyFile else Ok out.

Definition aegis_item (i : nat) (ec : AegisEntry * list (list Z * option Z)) : ImportItem :=
  let '(e, c) := ec in
  mkItem (Z.of_nat i) (default (entry_number (Z.of_nat i)) (name_label (ae_issuer e) (ae_name e)))
    (wide_json_entry (ae_typ e) (ae_issuer e) (ae_name e) (ae_secret e) (ae_algo e) (default 6 (ae_digits e))
       (default 30 (ae_period e)) (counter_only c)).
Definition too_many (count : option Z) : bool := match count with Some n => MAX_ENTRIES <? n | None => false end.
Definition aegis_parse_wide (json : list Z) : result BulkError ImportFile :=
  if too_many (json_aegis_count json) then Err TooManyEntries else
  db ← read_db (json_aegis json);
  counters ← read_db (json_aegis_counters json);
  let items := imap aegis_item (combine db counters) in
  if bool_decide (items = []) then Err EmptyFile else Ok (mkFile Aegis items None).

Definition TWOFAS_ENCRYPTED : list Z := s2b "2FAS export is encrypted; re-export without a password".
Definition read_root (json : list Z) : result BulkError (list TwoFasService) :=
  '(services, enc) ← json_twofas json;
  if (match enc with Some _ => true | None => false end) && bool_decide (services = []) then Err (Encrypted TWOFAS_ENCRYPTED)
  else Ok services.

Definition twofas_step (out : list BulkEntry) (i : Z) (s : TwoFasService) : result BulkError (list BulkEntry) :=
  if match ts_token_type s with Some t => negb (eq_ignore_ascii_case t (s2b "TOTP")) | None => false end then Ok out
  else b ← build_entry i (opt_or (ts_issuer s) (ts_name s)) (ts_account s) (ts_secret s) (ts_algorithm s)
             (default 6 (ts_digits s)) (default 30 (ts_period s));
       Ok (out ++ [b]).
Definition twofas_parse (json : list Z) : result BulkError (list BulkEntry) :=
  services ← read_root json;
  out ← try_enumerate twofas_step 0 [] services;
  if bool_decide (out = []) then Err EmptyFile else Ok out.

Definition twofas_item (i : nat) (sc : TwoFasService * list (list Z * option Z)) : ImportItem :=
  let '(s, c) := sc in
  let issuer := opt_or (ts_issuer s) (ts_name s) in
  mkItem (Z.of_nat i) (default (entry_number (Z.of_nat i)) (name_label issuer (ts_account s)))
    (wide_json_entry (default (s2b "TOTP") (ts_token_type s)) issuer (ts_account s) (ts_secret s) (ts_algorithm s)
       (default 6 (ts_digits s)) (default 30 (ts_period s)) (counter_only c)).
Definition twofas_parse_wide (json : list Z) : result BulkError ImportFile :=
  if too_many (json_twofas_count json) then Err TooManyEntries else
  services ← read_root json;
  counters ← json_twofas_counters json;
  let items := imap twofas_item (combine services counters) in
  if bool_decide (items = []) then Err EmptyFile else Ok (mkFile TwoFas items None).

Definition is_json (text : list Z) : bool := starts_with [123] (trim_start text).

Definition parse_any (text : list Z) : result BulkError (list BulkEntry) :=
  if is_json text then
    match aegis_parse text with
    | Ok v => Ok v
    | Err (Encrypted m) => Err (Encrypted m)
    | Err _ => twofas_parse text
    end
  else parse_otpauth_list text.

Definition parse_any_wide (text : list Z) : result BulkError ImportFile :=
  if is_json text then
    match aegis_parse_wide text with
    | Ok f => Ok f
    | Err (Encrypted m) => Err (Encrypted m)
    | Err _ => twofas_parse_wide text
    end
  else parse_list_wide text.
End json.

(** * Lemmas *)

Lemma build_entry_agrees index typ issuer account secret_b32 algo digits period counter b :
  eq_ignore_ascii_case typ (s2b "totp") = true -> build_entry index issuer account secret_b32 algo digits period = Ok b ->
  wide_json_entry typ issuer account secret_b32 algo digits period counter = Ok (widen b).
Proof.
  intros Ht H. unfold build_entry in H. inv_bind H. case_bool_decide as Hs; [done|]. destruct (63 <? zlen a) eqn:El; [done|].
  cbn [orb] in H. inv_bind H. inv_bind H. inv_bind H. apply Ok_inj in H as <-. apply map_err_Ok in Hb, Hb0, Hb1, Hb2. bools.
  unfold wide_json_entry, type_from_name. rewrite Ht. cbn [mbind result_bind]. pose proof (zlen_nonneg a).
  assert (zlen a <> 0) by (intros ?%zlen_0; done). rewrite (proj2 (decode_secret_Ok secret_b32 a)) by (split; [done|lia]).
  cbn [mbind result_bind]. rewrite (molto_hash_wide _ _ Hb0). cbn [mbind result_bind]. apply finish_Ok.
  rewrite (molto_digits_wide _ _ Hb1), (molto_step_wide _ _ Hb2). unfold widen. cbn.
  split_and!; [by destruct a1|by destruct a1|by destruct a2|done].
Qed.

Lemma trim_start_prefix p s : Forall (fun c => 0 <= c < 0x80 /\ is_whitespace c = false) p -> p <> [] ->
  trim_start (p ++ s) = [] \/ exists r, trim_start (p ++ s) = p ++ r.
Proof.
  intros Hp Hne. unfold trim_start, chars.
  assert (utf8_decode (p ++ s) = app p <$> utf8_decode s) as Hd.
  { clear Hne. induction Hp as [|c p [Hc _] _ IH]; [cbn [app]; by destruct (utf8_decode s)|]. cbn [app utf8_decode]. rewrite IH. decide_cmp.
    by destruct (utf8_decode s). }
  rewrite Hd. destruct (utf8_decode s) as [cs|]; [right|by left]. cbn [fmap option_fmap option_map default]. unfold id.
  destruct Hp as [|c p [Hc Hw] Hp]; [done|]. cbn [app drop_while]. rewrite Hw. exists (utf8_encode cs).
  rewrite utf8_encode_cons, utf8_encode_app. unfold encode_char. decide_cmp. cbn [app]. do 2 f_equal.
  clear -Hp. induction Hp as [|c p [Hc _] _ IH]; [done|]. rewrite utf8_encode_cons, IH. unfold encode_char. by decide_cmp.
Qed.

Lemma parse_not_migration line o : parse line = Ok o -> is_migration_uri line = false.
Proof.
  intros (parts & _ & _ & _ & Hs & _)%parse_Ok. unfold split_uri in Hs. inv_bind Hs. apply ok_or_Ok, strip_prefix_Some in Hb as ->.
  unfold is_migration_uri. destruct (trim_start_prefix (s2b "otpauth://") a) as [-> |[r ->]]; [by_decision|done|done|]. done.
Qed.

Lemma try_enumerate_inv {E S X} (step : S -> Z -> X -> result E S) (P : S -> Prop) i st l st' :
  (forall st i x st', P st -> step st i x = Ok st' -> P st') -> P st -> try_enumerate step i st l = Ok st' -> P st'.
Proof.
  intros Hs. revert i st. induction l as [|x l IH]; intros i st Hp H; cbn [try_enumerate] in H; [by apply Ok_inj in H as <-|].
  inv_bind H. eapply IH; [|exact H]. by eapply Hs.
Qed.

(** Two such loops over the same list; [Q] is what holds all along once it holds
    at the end. *)
Lemma try_enumerate_sim {E1 E2 S1 S2 X} (step1 : S1 -> Z -> X -> result E1 S1) (step2 : S2 -> Z -> X -> result E2 S2)
    (R : S1 -> S2 -> Prop) (Q : S1 -> Prop) l :
  (forall s i x s', step1 s i x = Ok s' -> Q s' -> Q s) ->
  (forall s1 s2 i x s1', R s1 s2 -> Q s1' -> step1 s1 i x = Ok s1' -> exists s2', step2 s2 i x = Ok s2' /\ R s1' s2') ->
  forall i s1 s2 s1', R s1 s2 -> try_enumerate step1 i s1 l = Ok s1' -> Q s1' ->
  Q s1 /\ exists s2', try_enumerate step2 i s2 l = Ok s2' /\ R s1' s2'.
Proof.
  intros HQ Hs. induction l as [|x l IH]; intros i s1 s2 s1' HR H Hq; cbn [try_enumerate] in *.
  { apply Ok_inj in H as <-. split; [done|by exists s2]. }
  inv_bind H. assert (Q a) as Ha.
  { clear IH HR Hb. revert H. generalize (i + 1). intros j H. revert j a H. induction l as [|y l IHl]; intros j a H; cbn [try_enumerate] in H.
    - by apply Ok_inj in H as <-.
    - inv_bind H. by eapply HQ, IHl. }
  split; [by eapply HQ|]. destruct (Hs _ _ _ _ _ HR Ha Hb) as (t & -> & Ht). cbn [mbind result_bind]. by apply (IH (i + 1) a t).
Qed.

Definition list_ok (st : list ImportItem * option (Z * Z)) : Prop := Forall item_ok (fst st) /\ zlen (fst st) <= MAX_ENTRIES.

Lemma labeled_entry_ok line name entry e : parse_entry_labeled line = (name, entry) -> entry = Ok e -> entry_ok e.
Proof. intros H ->. apply (parse_entry_limits line). unfold parse_entry. by rewrite H. Qed.

(** One line of a wide list: passed over, or something is added, or the file is
    too large. *)
Lemma list_line_wide_cases st i raw :
  list_ok st ->
  (skip_line (trim raw) = true /\ list_line_wide st i raw = Ok st) \/
  (skip_line (trim raw) = false /\
   (list_line_wide st i raw = Err TooManyEntries \/
    exists items batch, list_line_wide st i raw = Ok (fst st ++ items, batch) /\ items <> [] /\ list_ok (fst st ++ items, batch))).
Proof.
  destruct st as [items batch]. intros [Hi Hn]. cbn [fst] in *. unfold list_line_wide.
  destruct (skip_line (trim raw)); [by left|right]. split; [done|]. destruct (MAX_ENTRIES <=? zlen items) eqn:E; [by left|]. bools.
  assert (forall item b, item_ok item -> list_ok (items ++ [item], b)) as H1.
  { intros item b Hok. split; cbn [fst]; [apply Forall_app; split; [done|by apply Forall_singleton]|]. rewrite zlen_app. change (zlen [item]) with 1. lia. }
  destruct (is_migration_uri _).
  - destruct (migration_parse_wide _) as [f|e] eqn:Em.
    + destruct (migration_items_ok _ _ Em) as (Hf & _ & Hne). destruct (MAX_ENTRIES <? _) eqn:E2; [by left|right]. bools.
      eexists _, _. split; [reflexivity|]. split; [by destruct (f_items f)|]. split; cbn [fst].
      * apply Forall_app. split; [done|]. by apply Forall_fmap.
      * zlen. lia.
    + destruct e; try (right; eexists _, _; split; [reflexivity|]; split; [done|]; apply H1; done). by left.
  - right. destruct (parse_entry_labeled (trim raw)) as [name entry] eqn:Ep. eexists _, _. split; [reflexivity|]. split; [done|].
    apply H1. intros e He. cbn in He. by eapply labeled_entry_ok.
Qed.

Lemma list_loop_cases l i st :
  list_ok st ->
  (try_enumerate list_line_wide i st l = Err TooManyEntries /\ ~ Forall (fun raw => skip_line (trim raw) = true) l) \/
  exists items batch, try_enumerate list_line_wide i st l = Ok (fst st ++ items, batch) /\ list_ok (fst st ++ items, batch) /\
    (items = [] <-> Forall (fun raw => skip_line (trim raw) = true) l).
Proof.
  revert i st. induction l as [|raw l IH]; intros i st Hst; cbn [try_enumerate].
  { right. exists [], (snd st). rewrite app_nil_r. destruct st as [items batch]. cbn [fst snd] in *. split_and!; [done|done|]. by split. }
  destruct (list_line_wide_cases st i raw Hst) as [[Hk ->]|[Hk [->|(items & batch & -> & Hne & Hok)]]]; cbn [mbind result_bind].
  - destruct (IH (i + 1) st Hst) as [[-> Hn]|(items & batch & -> & Hok & Hsk)]; [left|right].
    + split; [done|]. rewrite list.Forall_cons. tauto.
    + exists items, batch. split_and!; [done..|]. rewrite list.Forall_cons. tauto.
  - left. split; [done|]. rewrite list.Forall_cons. intros [E _]. congruence.
  - destruct (IH (i + 1) (fst st ++ items, batch) Hok) as [[-> Hn]|(items2 & batch2 & -> & Hok2 & _)]; [left|right]; cbn [fst] in *.
    { split; [done|]. rewrite list.Forall_cons. intros [E _]. congruence. }
    exists (items ++ items2), batch2. rewrite <- (assoc_L (++)) in *. split_and!; [done..|]. rewrite list.Forall_cons. split.
    + intros E. by destruct items.
    + intros [E _]. congruence.
Qed.

Lemma line_agrees out st i raw out' :
  Forall2 (fun b item => i_entry item = Ok (widen b)) out (fst st) /\ snd st = None -> zlen out' <= MAX_ENTRIES ->
  list_line out i raw = Ok out' ->
  exists st', list_line_wide st i raw = Ok st' /\ Forall2 (fun b item => i_entry item = Ok (widen b)) out' (fst st') /\ snd st' = None.
Proof.
  destruct st as [items batch]. cbn [fst snd]. intros [H1 ->] Hn H. unfold list_line in H. unfold list_line_wide.
  destruct (skip_line (trim raw)); [apply Ok_inj in H as <-; by eexists|]. inv_bind H. apply Ok_inj in H as <-. apply map_err_Ok in Hb.
  rewrite zlen_app in Hn. change (zlen [bulk_of a]) with 1 in Hn.
  assert (zlen items = zlen out) as Hz by (unfold zlen; by rewrite (Forall2_length H1)).
  rewrite (proj2 (Z.leb_gt _ _)) by lia. rewrite (parse_not_migration _ _ Hb). pose proof (parse_widens _ _ Hb) as Hw. unfold parse_entry in Hw.
  destruct (parse_entry_labeled (trim raw)) as [name entry]. cbn [snd] in Hw. subst entry. eexists. split; [reflexivity|]. cbn [fst snd].
  split; [|done]. apply Forall2_app; [done|]. by apply Forall2_cons.
Qed.

Lemma list_line_grows out i raw out' :
  list_line out i raw = Ok out' -> zlen out' <= MAX_ENTRIES -> zlen out <= MAX_ENTRIES.
Proof.
  unfold list_line. destruct (skip_line _); [by intros <-%Ok_inj|]. intros H. inv_bind H. apply Ok_inj in H as <-. rewrite zlen_app.
  pose proof (zlen_nonneg [bulk_of a]). lia.
Qed.

(** * Properties *)

(** Nothing a line of a list holds fails the file. A list is refused only
    when it has no line but blank ones and comments, or as too large; otherwise
    each other line gives at least one item, at most 1000 in all, and each item
    that can be used is within the limits of an entry. *)
Theorem bulk_list_total (text : list Z) :
  match parse_list_wide text with
  | Ok f => f_format f = OtpauthList /\ 1 <= zlen (f_items f) <= MAX_ENTRIES /\
      Forall (fun i => forall e, i_entry i = Ok e -> entry_ok e) (f_items f)
  | Err e => e = TooManyEntries \/ e = EmptyFile
  end /\
  (parse_list_wide text = Err EmptyFile <-> Forall (fun raw => skip_line (trim raw) = true) (str_lines text)).
Proof.
  unfold parse_list_wide.
  destruct (list_loop_cases (str_lines text) 0 ([], None)) as [[-> Hns]|(items & batch & -> & [Hok Hn] & Hsk)]; [by split|..];
    cbn [fst app mbind result_bind] in *.
  - split; [by left|]. by split.
  - case_bool_decide as He.
    + split; [by right|]. split; [by intros; apply Hsk|done].
    + split; [|split; [done|by intros ?%Hsk]]. cbn [f_format f_items]. split_and!; [done| |done|done].
      pose proof (zlen_nonneg items). assert (zlen items <> 0) by (intros ?%zlen_0; done). lia.
Qed.

(** The Molto2's readers and the wide readers agree on files. A list the
    Molto2's reader takes (up to 1000 entries) is taken by the wide one, item by
    item the same entries; and each entry of a JSON export that the Molto2's
    mapping takes is, under a TOTP type in any letter case and whatever its
    counter, mapped to the same entry by the wide one. *)
Theorem bulk_narrow_agrees (text : list Z) (es : list BulkEntry) :
  (parse_otpauth_list text = Ok es -> zlen es <= MAX_ENTRIES ->
    exists f, parse_list_wide text = Ok f /\ f_batch f = None /\ Forall2 (fun b i => i_entry i = Ok (widen b)) es (f_items f)) /\
  (forall index typ issuer account secret_b32 algo digits period counter b,
    eq_ignore_ascii_case typ (s2b "totp") = true -> build_entry index issuer account secret_b32 algo digits period = Ok b ->
    wide_json_entry typ issuer account secret_b32 algo digits period counter = Ok (widen b)).
Proof.
  split; [|by intros; eapply build_entry_agrees]. unfold parse_otpauth_list, parse_list_wide. intros H Hn. inv_bind H.
  case_bool_decide as He; [done|]. apply Ok_inj in H as <-.
  destruct (try_enumerate_sim list_line list_line_wide (fun out st => Forall2 (fun b i => i_entry i = Ok (widen b)) out (fst st) /\ snd st = None)
    (fun out => zlen out <= MAX_ENTRIES) (str_lines text)) with (i := 0) (s1 := @nil BulkEntry) (s2 := (@nil ImportItem, @None (Z * Z)))
    (s1' := a) as (_ & [items batch] & -> & HR & Hbatch); try done.
  { intros s i x s'. apply list_line_grows. }
  { intros s1 s2 i x s1'. apply line_agrees. }
  cbn [fst snd mbind result_bind] in *. subst batch. case_bool_decide as Hi; [subst items; by apply Forall2_nil_inv_r in HR|].
  by exists (mkFile OtpauthList items None).
Qed.

Definition example_list : list Z := s2b "# my codes" ++ [10; 10] ++ example_uri ++ [13; 10] ++ s2b "otpauth://totp/x?secret=GEZDGNBV" ++ [10].

Lemma bulk_narrow_agrees_witness :
  exists es, parse_otpauth_list example_list = Ok es /\ length es = 2%nat /\
  exists f, parse_list_wide example_list = Ok f /\ f_batch f = None /\ Forall2 (fun b i => i_entry i = Ok (widen b)) es (f_items f).
Proof.
  destruct (parse_otpauth_list example_list) as [es|] eqn:E; [|vm_compute in E; discriminate].
  assert (length es = 2%nat) as Hl by (vm_compute in E; by injection E as <-).
  exists es. split_and!; [done..|]. apply (proj1 (bulk_narrow_agrees example_list es) E). unfold zlen, MAX_ENTRIES. lia.
Defined.
