(* ===== verification/Plan.v ===== *)
(** keyroost-import/src/plan.rs: what each entry of a file becomes on one key. *)
From S2P Require Import Oath.
From S2P Require Export ImportEntry.

(** * Stores *)

Definition Version : Type := (Z * Z * Z).
Definition ver_lt (a b : Version) : bool :=
  let '(a1, a2, a3) := a in let '(b1, b2, b3) := b in
  (a1 <? b1) || ((a1 =? b1) && ((a2 <? b2) || ((a2 =? b2) && (a3 <? b3)))).

Inductive OathFamily := YubiKey (version : option Version) | Solo2 | Nitrokey3 | OtherFamily.
#[export] Instance OathFamily_eq_dec : EqDecision OathFamily.
Proof. solve_decision. Defined.
Inductive Store := Molto2 | SOath (family : OathFamily) | Token2Otp.
#[export] Instance Store_eq_dec : EqDecision Store.
Proof. solve_decision. Defined.

Definition device_name (s : Store) : list Z :=
  match s with
  | Molto2 => s2b "Molto2"
  | SOath (YubiKey _) => s2b "YubiKey"
  | SOath Solo2 => s2b "Solo 2"
  | SOath Nitrokey3 => s2b "Nitrokey 3"
  | SOath OtherFamily => s2b "this key"
  | Token2Otp => s2b "this Token2 key"
  end.
Definition takes_touch (s : Store) : bool := negb (bool_decide (s = Molto2)).

Definition from_vendor (vendor : list Z) (version : option Version) : OathFamily :=
  let v := trim vendor in
  if eq_ignore_ascii_case v (s2b "Yubico") then YubiKey version
  else if eq_ignore_ascii_case v (s2b "SoloKeys") then Solo2
  else if eq_ignore_ascii_case v (s2b "Nitrokey") then Nitrokey3
  else OtherFamily.

Definition SOLO2_NAME_MAX : Z := 127.
Definition MOLTO_LAST_SLOT : Z := 99.

Definition name_limit (f : OathFamily) : option Z :=
  match f with YubiKey _ => Some 64 | Solo2 => Some SOLO2_NAME_MAX | Nitrokey3 => Some 128 | OtherFamily => None end.
Definition hard_name_limit (f : OathFamily) : option Z := match f with Solo2 => Some SOLO2_NAME_MAX | _ => None end.
Definition name_refusal (f : OathFamily) (name : list Z) : option (list Z) :=
  max ← hard_name_limit f;
  if max <? zlen name then
    Some (s2b "the name is " ++ dec (zlen name) ++ s2b " bytes; a " ++ device_name (SOath f) ++ s2b " stores names up to " ++
      dec max ++ s2b " bytes (a longer one makes the key stop responding until it is unplugged)")
  else None.

Definition prefix_issue (f : OathFamily) : bool :=
  match f with YubiKey (Some v) => ver_lt (4, 0, 0) v && ver_lt v (4, 3, 5) | _ => false end.

Definition starts_other (name other : list Z) : bool := negb (bool_decide (other = name)) && starts_with name other.

(** * Names *)

Inductive StoredName :=
  | NOath (name : list Z)
  | NToken2 (app_name account : list Z)
  | NMolto2 (slot : Z) (title : list Z).
#[export] Instance StoredName_eq_dec : EqDecision StoredName.
Proof. solve_decision. Defined.

Definition stored_name_text (n : StoredName) : list Z :=
  match n with
  | NOath n => n
  | NToken2 [] account => account
  | NToken2 app account => app ++ s2b ":" ++ account
  | NMolto2 slot [] => s2b "#" ++ dec slot
  | NMolto2 slot title => s2b "#" ++ dec slot ++ s2b " " ++ title
  end.

Record Existing := mkExisting { ex_names : list StoredName; ex_hidden : Z }.
Record Target := mkTarget { t_store : Store; t_first_slot : Z; t_existing : Existing; t_replace : bool }.

(** * Verdicts *)

Inductive Skip :=
  | SUnusable (u : Unusable)
  | NoName
  | NameTooLong (len max : Z)
  | NotAscii
  | AmbiguousName
  | SHash (h : HashAlg)
  | SDigits (d : Z)
  | SPeriod (p : Z)
  | PeriodNotStored (p : Z)
  | SHotp
  | SCounter (c : Z)
  | SecretLength (len max : Z)
  | TooLongForCommand
  | SameNameInFile (first : Z)
  | NoRoom (capacity : Z)
  | PastLastSlot
  | StartsAnotherName.

Inductive Verdict := VAdd | VReplace | VExists | VSkip (s : Skip).

Definition is_add (v : Verdict) : bool := match v with VAdd => true | _ => false end.
Definition is_replace (v : Verdict) : bool := match v with VReplace => true | _ => false end.
Definition verdict_writes (v : Verdict) : bool := match v with VAdd | VReplace => true | _ => false end.
Definition verdict_word (v : Verdict) : list Z :=
  match v with VAdd => s2b "add" | VReplace => s2b "replace" | VExists => s2b "exists" | VSkip _ => s2b "skip" end.

Definition skip_text (s : Skip) (device : list Z) (token2 : bool) : list Z :=
  match s with
  | SUnusable u => unusable_text u
  | NoName => s2b "it has no issuer or account to name it by"
  | NameTooLong len max =>
      s2b "the name is " ++ dec len ++ s2b " bytes; " ++ device ++ s2b " stores names of up to " ++ dec max ++ s2b " bytes"
  | NotAscii => device ++ s2b " stores names in plain ASCII characters only, and this name has others"
  | AmbiguousName =>
      s2b "the name would read back differently on the key (an issuer with ':' or a name that starts like a period, such as 60/)"
  | SHash h => device ++ s2b " doesn't take " ++ hash_name h ++ s2b " codes"
  | SDigits d => device ++ s2b " can't store " ++ dec d ++ s2b "-digit codes"
  | SPeriod p => device ++ s2b " can't use a " ++ dec p ++ s2b "-second period"
  | PeriodNotStored p =>
      s2b "Nitrokey 3 doesn't store the period, so only 30-second codes work there (this one uses " ++ dec p ++ s2b " seconds)"
  | SHotp => device ++ s2b " stores only time-based (TOTP) codes, and this one is counter-based (HOTP)"
  | SCounter c =>
      if token2 then device ++ s2b " always starts the counter at 0, and this code's counter is at " ++ dec c
      else s2b "the counter " ++ dec c ++ s2b " is too large for " ++ device
  | SecretLength len max =>
      s2b "the secret is " ++ dec len ++ s2b " bytes; " ++ device ++ s2b " stores secrets of up to " ++ dec max ++ s2b " bytes"
  | TooLongForCommand => s2b "the name and secret together are too long to send to the key"
  | SameNameInFile first => s2b "same name as entry #" ++ dec (first + 1) ++ s2b " in this file"
  | NoRoom capacity => s2b "no room left (" ++ device ++ s2b " holds " ++ dec capacity ++ s2b " codes)"
  | PastLastSlot => s2b "no slot left after #99"
  | StartsAnotherName =>
      device ++ s2b " firmware 4.0" ++ [0xE2; 0x80; 0x93] ++ s2b "4.3.4 can't safely store a name that starts another name on the key"
  end.
Definition skip_reason (s : Skip) (store : Store) : list Z := skip_text s (device_name store) (bool_decide (store = Token2Otp)).
Definition skip_display (s : Skip) : list Z := skip_text s (s2b "this key") false.

Definition prefix_refusal (f : OathFamily) (name : list Z) (others : list (list Z)) : option (list Z) :=
  if prefix_issue f && existsb (starts_other name) others then Some (skip_reason StartsAnotherName (SOath f)) else None.

Definition EXISTS_REASON : list Z := s2b "already on the key; left as is".
Definition verdict_reason (v : Verdict) (store : Store) : option (list Z) :=
  match v with
  | VAdd => None
  | VReplace => if bool_decide (store = Molto2) then Some (s2b "replaces the code in this slot")
                else Some (s2b "replaces the code of the same name on the key")
  | VExists => Some EXISTS_REASON
  | VSkip s => Some (skip_reason s store)
  end.

Inductive Note :=
  | ReplaceMayLoseOld | CapacityUnknown | Solo2Hotp | Nitrokey3TouchToReplace | Nitrokey3TouchToSave
  | Hidden (n : Z) | MoltoReplacesSlots.
#[export] Instance Unusable_eq_dec : EqDecision Unusable.
Proof. solve_decision. Defined.
#[export] Instance Skip_eq_dec : EqDecision Skip.
Proof. solve_decision. Defined.
#[export] Instance Verdict_eq_dec : EqDecision Verdict.
Proof. solve_decision. Defined.
#[export] Instance Note_eq_dec : EqDecision Note.
Proof. solve_decision. Defined.

Record PlanRow := mkRow { r_index : Z; r_label : list Z; r_name : option StoredName; r_verdict : Verdict; r_touch : bool }.
#[export] Instance PlanRow_eq_dec : EqDecision PlanRow.
Proof. solve_decision. Defined.
Record Plan := mkPlan {
  pl_store : Store; pl_rows : list PlanRow; pl_capacity : option Z; pl_on_key : Z; pl_replace : bool; pl_notes : list Note
}.

Definition row_writes (r : PlanRow) : bool := verdict_writes (r_verdict r).
Definition is_named (r : PlanRow) (name : list Z) : bool :=
  bool_decide (r_label r = name) || match r_name r with Some n => bool_decide (stored_name_text n = name) | None => false end.
(** [{:02}]. *)
Definition dec2 (n : Z) : list Z := if n <? 10 then s2b "0" ++ dec n else dec n.
Definition shown_label (r : PlanRow) : list Z :=
  match r_name r with Some (NMolto2 slot _) => s2b "#" ++ dec2 slot ++ s2b " " ++ r_label r | _ => r_label r end.

Record Counts := mkCounts { n_add : Z; n_replace : Z; n_exists : Z; n_skip : Z }.
Definition count_row (c : Counts) (r : PlanRow) : Counts :=
  let '(mkCounts a p e s) := c in
  match r_verdict r with
  | VAdd => mkCounts (a + 1) p e s
  | VReplace => mkCounts a (p + 1) e s
  | VExists => mkCounts a p (e + 1) s
  | VSkip _ => mkCounts a p e (s + 1)
  end.
Definition counts (p : Plan) : Counts := fold_left count_row (pl_rows p) (mkCounts 0 0 0 0).
Definition same_rows (p other : Plan) : bool := bool_decide (pl_rows p = pl_rows other).
Definition plan_writes (p : Plan) : list PlanRow := filter (fun r => row_writes r = true) (pl_rows p).

Definition set_touch (p : Plan) (wants : PlanRow -> bool) : Plan :=
  let takes := takes_touch (pl_store p) in
  let rows := (fun r => mkRow (r_index r) (r_label r) (r_name r) (r_verdict r) (takes && row_writes r && wants r)) <$> pl_rows p in
  let notes := filter (fun n => n <> Nitrokey3TouchToSave) (pl_notes p) in
  let notes := if bool_decide (pl_store p = SOath Nitrokey3) && existsb r_touch rows then notes ++ [Nitrokey3TouchToSave] else notes in
  mkPlan (pl_store p) rows (pl_capacity p) (pl_on_key p) (pl_replace p) notes.

Definition note_text (n : Note) : list Z :=
  match n with
  | ReplaceMayLoseOld =>
      s2b "Replacing removes the old code first on keys that refuse duplicate names. If adding the new one then fails, the old code is gone."
  | CapacityUnknown => s2b "This key doesn't report how many codes it holds; writing stops if it fills up."
  | Solo2Hotp =>
      s2b "Solo 2 firmware 2.964 (its latest release) computes HOTP codes over a 4-byte counter (the HOTP standard uses 8 bytes), so its HOTP codes don't match what services expect. TOTP codes work normally."
  | Nitrokey3TouchToReplace => s2b "A Nitrokey 3 may ask for a touch for each code it replaces."
  | Nitrokey3TouchToSave => s2b "A Nitrokey 3 asks for a touch to save each code that requires one."
  | Hidden n => dec n ++ s2b " codes on the key couldn't be listed; the key may still refuse a name that is already on it."
  | MoltoReplacesSlots => s2b "Slots already in use will be replaced."
  end.

(** * The limits *)

Inductive PeriodRule := PAny | POnly30 | PMolto2 | PRange (lo hi : Z).
Inductive HotpRule := HNo | HCounterU32 | HCounterZeroOnly.
Record Limits := mkLimits {
  name_max : option Z; ascii_only : bool; hashes : list HashAlg; digits_lo : Z; digits_hi : Z;
  totp : PeriodRule; hotp : HotpRule; secret_max : option Z; capacity : option Z
}.

Definition SHA1_256 : list HashAlg := [Sha1; Sha256].
Definition SHA1_256_512 : list HashAlg := [Sha1; Sha256; Sha512].

Definition limits (store : Store) : Limits :=
  match store with
  | SOath (YubiKey version) =>
      mkLimits (Some 64) false
        (match version with Some v => if ver_lt v (4, 3, 1) then SHA1_256 else SHA1_256_512 | None => SHA1_256_512 end)
        6 8 PAny HCounterU32 None
        (match version with
         | Some v => if negb (ver_lt v (5, 7, 0)) then Some 64 else if negb (ver_lt v (4, 0, 0)) then Some 32 else None
         | None => None
         end)
  | SOath Solo2 => mkLimits (Some SOLO2_NAME_MAX) false SHA1_256 6 8 PAny HCounterU32 (Some 64) None
  | SOath Nitrokey3 => mkLimits (Some 128) false SHA1_256 6 8 POnly30 HCounterU32 (Some 128) (Some 50)
  | SOath OtherFamily => mkLimits None false SHA1_256_512 6 8 PAny HCounterU32 None None
  | Token2Otp => mkLimits (Some 64) true SHA1_256 4 10 (PRange 1 65535) HCounterZeroOnly (Some 64) (Some 50)
  | Molto2 => mkLimits (Some 12) false SHA1_256 4 10 PMolto2 HNo (Some 63) (Some 100)
  end.

Definition molto_digits_ok (d : Z) : bool := (d =? 4) || (d =? 6) || (d =? 8) || (d =? 10).

Definition oath_put_fits (name_len secret_len : Z) (imf : bool) : bool :=
  2 + name_len + 2 + 2 + Z.max secret_len 14 + (if imf then 6 else 0) <=? 255.

Definition looks_like_period_prefix (s : list Z) : bool :=
  match split_once 47 s with
  | Some (head, _) => negb (bool_decide (head = [])) && forallb is_ascii_digit head
  | None => false
  end.

Definition is_totp (k : OtpKind) : bool := match k with Totp _ => true | Hotp _ => false end.

Definition oath_name (e : ImportEntry) (family : OathFamily) : result Skip (list Z) :=
  let period_read := is_totp (e_kind e) && negb (bool_decide (family = Nitrokey3)) in
  let prefix := match e_kind e with Totp p => if negb (p =? 30) && period_read then Some p else None | Hotp _ => None end in
  base ← match e_issuer e, e_account e with
         | Some i, Some a => if contains [58] i then Err AmbiguousName else Ok (i ++ s2b ":" ++ a)
         | Some one, None | None, Some one => if contains [58] one then Err AmbiguousName else Ok one
         | None, None => Err NoName
         end;
  match prefix with
  | Some p => Ok (dec p ++ s2b "/" ++ base)
  | None => if period_read && looks_like_period_prefix base then Err AmbiguousName else Ok base
  end.

Definition token2_name (e : ImportEntry) : result Skip (list Z * list Z) :=
  match e_issuer e, e_account e with
  | Some i, Some a => Ok (i, a)
  | None, Some one | Some one, None => Ok ([], one)
  | None, None => Err NoName
  end.

Definition check_params (e : ImportEntry) (store : Store) (lim : Limits) : result Skip unit :=
  if match e_kind e, hotp lim with Hotp _, HNo => true | _, _ => false end then Err SHotp else
  if negb (existsb (fun h => bool_decide (h = e_hash e)) (hashes lim)) then Err (SHash (e_hash e)) else
  if negb (between (digits_lo lim) (digits_hi lim) (e_digits e) && (negb (bool_decide (store = Molto2)) || molto_digits_ok (e_digits e)))
  then Err (SDigits (e_digits e)) else
  _ ← match e_kind e with
      | Totp period =>
          match totp lim with
          | PAny => Ok tt
          | POnly30 => if negb (period =? 30) then Err (PeriodNotStored period) else Ok tt
          | PMolto2 => if negb (period =? 30) && negb (period =? 60) then Err (SPeriod period) else Ok tt
          | PRange lo hi => if negb (between lo hi period) then Err (SPeriod period) else Ok tt
          end
      | Hotp counter =>
          match hotp lim with
          | HCounterU32 => if 2 ^ 32 - 1 <? counter then Err (SCounter counter) else Ok tt
          | HCounterZeroOnly => if negb (counter =? 0) then Err (SCounter counter) else Ok tt
          | HNo => Ok tt
          end
      end;
  match secret_max lim with
  | Some max => if max <? zlen (e_secret e) then Err (SecretLength (zlen (e_secret e)) max) else Ok tt
  | None => Ok tt
  end.

Definition is_ascii_text (s : list Z) : bool := forallb (fun b => b <? 0x80) s.

(** [if let Some(max) = name_max { if len > max { return Err(..) } }]. *)
Definition check_length (max : option Z) (s : list Z) : result Skip unit :=
  match max with Some m => if m <? zlen s then Err (NameTooLong (zlen s) m) else Ok tt | None => Ok tt end.

(** The Molto2 arm is unreachable in the code; its names come with their slot. *)
Definition name_for (e : ImportEntry) (store : Store) (lim : Limits) : result Skip StoredName :=
  match store with
  | SOath family =>
      name ← oath_name e family;
      _ ← check_length (name_max lim) name;
      let imf := match e_kind e with Hotp c => negb (c =? 0) | Totp _ => false end in
      if negb (oath_put_fits (zlen name) (zlen (e_secret e)) imf) then Err TooLongForCommand else Ok (NOath name)
  | Token2Otp =>
      '(app, account) ← token2_name e;
      if negb (is_ascii_text app) || negb (is_ascii_text account) then Err NotAscii else
      _ ← check_length (name_max lim) app;
      _ ← check_length (name_max lim) account;
      Ok (NToken2 app account)
  | Molto2 => Err NoName
  end.

(** * The plan *)

(** What the loop holds: the rows so far, the names planned from this file with
    their first entry, and the next Molto2 slot. *)
Record Planning := mkPlanning { g_rows : list PlanRow; g_seen : list (StoredName * Z); g_next : Z }.

Definition oath_texts (names : list StoredName) : list (list Z) :=
  omap (fun n => match n with NOath s => Some s | _ => None end) names.

Definition starts_another_name (store : Store) (name : StoredName) (existing : Existing) (seen : list (StoredName * Z)) : bool :=
  match store, name with
  | SOath family, NOath name =>
      match prefix_refusal family name (oath_texts (ex_names existing ++ (fst <$> seen))) with Some _ => true | None => false end
  | _, _ => false
  end.

Definition molto_occupied (names : list StoredName) (slot : Z) : bool :=
  existsb (fun n => match n with NMolto2 s _ => s =? slot | _ => false end) names.

(** The name and verdict of an entry whose parameters are fine. *)
Definition molto_row (e : ImportEntry) (existing : Existing) (st : Planning) : option StoredName * Verdict * list (StoredName * Z) * Z :=
  let title := molto_title (e_issuer e) (e_account e) in
  if bool_decide (title = []) then (None, VSkip NoName, g_seen st, g_next st)
  else if MOLTO_LAST_SLOT <? g_next st then (None, VSkip PastLastSlot, g_seen st, g_next st)
  else
    let slot := cast 8 (g_next st) in
    (Some (NMolto2 slot title), if molto_occupied (ex_names existing) slot then VReplace else VAdd, g_seen st, g_next st + 1).

Definition seen_first (seen : list (StoredName * Z)) (n : StoredName) : option Z :=
  find_map (fun s => if bool_decide (fst s = n) then Some (snd s) else None) seen.

Definition named_row (store : Store) (existing : Existing) (replace : bool) (index : Z) (n : StoredName) (st : Planning) :
    option StoredName * Verdict * list (StoredName * Z) * Z :=
  match seen_first (g_seen st) n with
  | Some first => (Some n, VSkip (SameNameInFile first), g_seen st, g_next st)
  | None =>
      let on_key := existsb (fun m => bool_decide (m = n)) (ex_names existing) in
      if on_key && negb replace then (Some n, VExists, g_seen st ++ [(n, index)], g_next st)
      else if starts_another_name store n existing (g_seen st) then (Some n, VSkip StartsAnotherName, g_seen st, g_next st)
      else (Some n, if on_key then VReplace else VAdd, g_seen st ++ [(n, index)], g_next st)
  end.

Definition plan_item (store : Store) (lim : Limits) (target : Target) (st : Planning) (item : ImportItem) : Planning :=
  let unnamed v := (None, v, g_seen st, g_next st) in
  let '(name, verdict, seen, next) :=
    match i_entry item with
    | Err u => unnamed (VSkip (SUnusable u))
    | Ok e =>
        match check_params e store lim with
        | Err s => unnamed (VSkip s)
        | Ok _ =>
            if bool_decide (store = Molto2) then molto_row e (t_existing target) st
            else match name_for e store lim with
                 | Err s => unnamed (VSkip s)
                 | Ok n => named_row store (t_existing target) (t_replace target) (i_index item) n st
                 end
        end
    end in
  mkPlanning (g_rows st ++ [mkRow (i_index item) (i_label item) name verdict false]) seen next.

(** Step 8: an add past the key's room becomes a skip. *)
Fixpoint room_rows (cap used : Z) (rows : list PlanRow) : list PlanRow :=
  match rows with
  | [] => []
  | r :: rows =>
      if is_add (r_verdict r) then
        if cap <=? used then mkRow (r_index r) (r_label r) (r_name r) (VSkip (NoRoom cap)) (r_touch r) :: room_rows cap used rows
        else r :: room_rows cap (used + 1) rows
      else r :: room_rows cap used rows
  end.

Definition notes_for (store : Store) (rows : list PlanRow) (capacity : option Z) (hidden : Z) (file : ImportFile) : list Note :=
  let any_replace := existsb (fun r => is_replace (r_verdict r)) rows in
  let hotp_write :=
    existsb (fun r => row_writes r && existsb (fun i => (i_index i =? r_index r) &&
      match i_entry i with Ok e => negb (is_totp (e_kind e)) | Err _ => false end) (f_items file)) rows in
  (if any_replace && match store with SOath Solo2 | SOath Nitrokey3 | SOath OtherFamily => true | _ => false end
   then [ReplaceMayLoseOld] else []) ++
  (if match capacity with None => negb (bool_decide (store = Molto2)) | Some _ => false end then [CapacityUnknown] else []) ++
  (if bool_decide (store = SOath Solo2) && hotp_write then [Solo2Hotp] else []) ++
  (if any_replace && bool_decide (store = SOath Nitrokey3) then [Nitrokey3TouchToReplace] else []) ++
  (if 0 <? hidden then [Hidden hidden] else []) ++
  (if any_replace && bool_decide (store = Molto2) then [MoltoReplacesSlots] else []).

Definition plan_capacity (target : Target) : option Z :=
  if bool_decide (t_store target = Molto2) then Some (Z.max 0 (MOLTO_LAST_SLOT + 1 - t_first_slot target))
  else capacity (limits (t_store target)).

Definition plan (file : ImportFile) (target : Target) : Plan :=
  let store := t_store target in
  let existing := t_existing target in
  let on_key := zlen (ex_names existing) + ex_hidden existing in
  let cap := plan_capacity target in
  let rows := g_rows (fold_left (plan_item store (limits store) target) (f_items file) (mkPlanning [] [] (t_first_slot target))) in
  let rows := match cap with
              | Some c => if bool_decide (store = Molto2) then rows else room_rows c on_key rows
              | None => rows
              end in
  mkPlan store rows cap on_key (t_replace target) (notes_for store rows cap (ex_hidden existing) file).

Definition plan_for (file : ImportFile) (store : Store) (first_slot : Z) (existing : Existing) (replace : bool) : Plan :=
  plan file (mkTarget store first_slot existing replace).
Definition molto_plan (file : ImportFile) (first_slot : Z) (existing : Existing) : Plan :=
  plan_for file Molto2 first_slot existing false.

(** * What a plan promises *)

(** The plan, before the room check. *)
Definition planned_rows (file : ImportFile) (target : Target) : Planning :=
  fold_left (plan_item (t_store target) (limits (t_store target)) target) (f_items file) (mkPlanning [] [] (t_first_slot target)).

Section Promise.
Context (target : Target).
#[local] Notation store := (t_store target).
#[local] Notation names := (ex_names (t_existing target)).

(** The name the entry gets, whatever else is planned. *)
Definition named (e : ImportEntry) (n : StoredName) : Prop :=
  if bool_decide (store = Molto2) then
    exists slot, n = NMolto2 slot (molto_title (e_issuer e) (e_account e)) /\ molto_title (e_issuer e) (e_account e) <> []
  else name_for e store (limits store) = Ok n.

(** The name, or for a Molto2 the slot, is in use on the key. *)
Definition in_use (n : StoredName) : bool :=
  match store, n with
  | Molto2, NMolto2 slot _ => molto_occupied names slot
  | _, _ => existsb (fun m => bool_decide (m = n)) names
  end.
Definition verdict_at (n : StoredName) : Verdict :=
  if in_use n then if t_replace target || bool_decide (store = Molto2) then VReplace else VExists else VAdd.

(** The name of a row that keeps it: added, replaced, or already there. *)
Definition kept_name (r : PlanRow) : option StoredName := match r_verdict r with VSkip _ => None | _ => r_name r end.
Definition name_slot (n : StoredName) : Z := match n with NMolto2 slot _ => slot | _ => -1 end.

(** The names the rows lay claim to, with the entries they come from: a row that
    only the lack of room turned away still has its name. *)
Definition claim_of (r : PlanRow) : option (StoredName * Z) :=
  match r_verdict r with
  | VSkip (NoRoom _) | VAdd | VReplace | VExists => (fun n => (n, r_index r)) <$> r_name r
  | VSkip _ => None
  end.
Definition claimed (rows : list PlanRow) : list (StoredName * Z) := omap claim_of rows.

Fixpoint adds (rows : list PlanRow) : Z :=
  match rows with [] => 0 | r :: rows => (if is_add (r_verdict r) then 1 else 0) + adds rows end.

(** The firmware mistakes a name for a longer one that starts with it. *)
Definition shadows (prev : list PlanRow) (n : StoredName) : Prop :=
  exists v text other, store = SOath (YubiKey (Some v)) /\ ver_lt (4, 0, 0) v = true /\ ver_lt v (4, 3, 5) = true /\
    n = NOath text /\ NOath other ∈ names ++ (fst <$> claimed prev) /\ other <> text /\ text `prefix_of` other.

(** The codes a key takes after the rows [prev], where it says how many it holds
    ([room], the capacity to check against) and has [used] of them already. *)
Context (room : option Z) (used : Z).
Definition has_room (prev : list PlanRow) : Prop := match room with Some c => used + adds prev < c | None => True end.
Definition next_slot (prev : list PlanRow) : Z := t_first_slot target + zlen (omap kept_name prev).

(** Why a row has its name and verdict, after the rows [prev]. *)
Inductive row_verdict (prev : list PlanRow) (i : ImportItem) : option StoredName -> Verdict -> Prop :=
  | RKept e n : i_entry i = Ok e -> check_params e store (limits store) = Ok tt -> named e n ->
      (store = Molto2 -> name_slot n = next_slot prev /\ next_slot prev <= MOLTO_LAST_SLOT) ->
      (store <> Molto2 -> n ∉ fst <$> claimed prev /\ (verdict_at n = VExists \/ ~ shadows prev n)) ->
      (verdict_at n = VAdd -> has_room prev) ->
      row_verdict prev i (Some n) (verdict_at n)
  | RUnusable u : i_entry i = Err u -> row_verdict prev i None (VSkip (SUnusable u))
  | RRefused e s : i_entry i = Ok e -> check_params e store (limits store) = Err s -> row_verdict prev i None (VSkip s)
  | RUnnamed e s : i_entry i = Ok e -> check_params e store (limits store) = Ok tt -> store <> Molto2 ->
      name_for e store (limits store) = Err s -> row_verdict prev i None (VSkip s)
  | RUntitled e : i_entry i = Ok e -> check_params e store (limits store) = Ok tt -> store = Molto2 ->
      molto_title (e_issuer e) (e_account e) = [] -> row_verdict prev i None (VSkip NoName)
  | RPast e : i_entry i = Ok e -> check_params e store (limits store) = Ok tt -> store = Molto2 ->
      molto_title (e_issuer e) (e_account e) <> [] -> MOLTO_LAST_SLOT < next_slot prev -> row_verdict prev i None (VSkip PastLastSlot)
  | RBlocked e n s : i_entry i = Ok e -> check_params e store (limits store) = Ok tt -> store <> Molto2 ->
      name_for e store (limits store) = Ok n ->
      match s with
      | SameNameInFile first => (n, first) ∈ claimed prev
      | StartsAnotherName => n ∉ fst <$> claimed prev /\ verdict_at n <> VExists /\ shadows prev n
      | NoRoom c => n ∉ fst <$> claimed prev /\ verdict_at n = VAdd /\ ~ shadows prev n /\ room = Some c /\ c <= used + adds prev
      | _ => False
      end -> row_verdict prev i (Some n) (VSkip s).
Definition row_of (prev : list PlanRow) (i : ImportItem) (r : PlanRow) : Prop :=
  r_index r = i_index i /\ r_label r = i_label i /\ r_touch r = false /\ row_verdict prev i (r_name r) (r_verdict r).

(** The rows are the entries', each by what comes before it. *)
Inductive rows_of : list ImportItem -> list PlanRow -> Prop :=
  | rows_nil : rows_of [] []
  | rows_snoc items rows i r : rows_of items rows -> row_of rows i r -> rows_of (items ++ [i]) (rows ++ [r]).
End Promise.

Lemma shadows_iff target prev n :
  starts_another_name (t_store target) n (t_existing target) (claimed prev) = true <-> shadows target prev n.
Proof.
  unfold starts_another_name, prefix_refusal, shadows. split.
  - destruct (t_store target) as [|f|]; [done| |done]. destruct n as [n| |]; try done.
    destruct (prefix_issue f && existsb _ _) eqn:Hx; [intros _|done]. apply andb_prop in Hx as [Hf Hx].
    unfold prefix_issue in Hf. destruct f as [[v|]| | |]; try done. apply andb_prop in Hf as [Hlo Hhi].
    apply existsb_exists in Hx as (o & Ho & Hs). apply list_elem_of_In, list_elem_of_omap in Ho as (m & Hm & Hmo).
    destruct m as [m| |]; [|done..]. injection Hmo as ->. unfold starts_other in Hs. bools.
    exists v, n, o. repeat (split; [done|]). split; [by apply bool_decide_eq_false in H|by apply starts_with_spec].
  - intros (v & text & other & -> & Hlo & Hhi & -> & Hin & Hne & Hp). cbn [prefix_issue]. rewrite Hlo, Hhi. cbn [andb].
    assert (existsb (starts_other text) (oath_texts (ex_names (t_existing target) ++ (fst <$> claimed prev))) = true) as ->; [|done].
    apply existsb_exists. exists other. split.
    + apply list_elem_of_In, list_elem_of_omap. by exists (NOath other).
    + unfold starts_other. rewrite bool_decide_eq_false_2 by done. by apply starts_with_spec.
Qed.

Lemma shadows_claimed target prev prev' n : claimed prev = claimed prev' -> shadows target prev n -> shadows target prev' n.
Proof. unfold shadows. by intros ->. Qed.

Lemma seen_first_none seen n : seen_first seen n = None <-> n ∉ fst <$> seen.
Proof.
  unfold seen_first. induction seen as [|[m x] seen IH]; [split; [intros _; apply not_elem_of_nil | done]|].
  cbn [find_map fmap list_fmap fst]. case_bool_decide as Hn; cbn [snd].
  - subst. split; [done|]. rewrite not_elem_of_cons. intros [[] _]. done.
  - rewrite IH, not_elem_of_cons. split; [by intros ?; split|by intros []].
Qed.

Lemma seen_first_some seen n first : seen_first seen n = Some first -> (n, first) ∈ seen.
Proof.
  unfold seen_first. induction seen as [|[m x] seen IH]; [done|]. cbn [find_map fst snd]. case_bool_decide as Hn.
  - intros [= ->]. subst. by constructor.
  - intros Hs. constructor. by apply IH.
Qed.

Lemma zlen_omap_app {A B} (f : A -> option B) l x : zlen (omap f (l ++ [x])) = zlen (omap f l) + if f x then 1 else 0.
Proof. rewrite omap_app. zlen. cbn [omap list_omap]. by destruct (f x). Qed.

(** Only the room check answers [NoRoom]. *)
Definition no_room_free {A} (r : result Skip A) : Prop := forall c, r <> Err (NoRoom c).
Lemma no_room_bind {A B} (r : result Skip A) (f : A -> result Skip B) :
  no_room_free r -> (forall a, no_room_free (f a)) -> no_room_free (r ≫= f).
Proof. destruct r as [a|s]; intros Hr Hf; [apply Hf|]. intros c [= ->]. by apply (Hr c). Qed.
Ltac no_room_tac :=
  repeat match goal with
  | |- no_room_free (Ok _) => intros ?; discriminate
  | |- no_room_free (Err _) => intros ?; discriminate
  | |- no_room_free (mbind _ _) => apply no_room_bind; [|intros ?]
  | |- no_room_free (match ?x with _ => _ end) => destruct x
  end.

Lemma name_for_room e s : no_room_free (name_for e s (limits s)) /\ no_room_free (check_params e s (limits s)).
Proof. split; [unfold name_for, check_length, oath_name, token2_name|unfold check_params]; no_room_tac. Qed.

(** ** The loop *)

Section Loop.
Context (target : Target) (used : Z).
#[local] Notation store := (t_store target).
#[local] Notation names := (ex_names (t_existing target)).
#[local] Notation row_verdict := (row_verdict target None used).
#[local] Notation row_of := (row_of target None used).
#[local] Notation rows_of := (rows_of target None used).

Record planning_ok (items : list ImportItem) (st : Planning) : Prop := {
  ok_rows : rows_of items (g_rows st);
  ok_seen : store <> Molto2 -> g_seen st = claimed (g_rows st);
  ok_dup : store <> Molto2 -> NoDup (fst <$> claimed (g_rows st));
  ok_next : t_first_slot target <= g_next st <= Z.max (t_first_slot target) (MOLTO_LAST_SLOT + 1);
  ok_slots : store = Molto2 -> name_slot <$> omap kept_name (g_rows st) = seqZ (t_first_slot target) (g_next st - t_first_slot target)
}.

Lemma ok_next_slot items st : planning_ok items st -> store = Molto2 -> next_slot target (g_rows st) = g_next st.
Proof.
  intros [_ _ _ Hn Hsl] Hm. specialize (Hsl Hm). apply (f_equal length) in Hsl. rewrite length_fmap, length_seqZ in Hsl.
  unfold next_slot, zlen. lia.
Qed.

(** The three ways a row joins the plan. *)
Definition add_row (i : ImportItem) (n : option StoredName) (v : Verdict) (seen : list (StoredName * Z)) (next : Z) (st : Planning) : Planning :=
  mkPlanning (g_rows st ++ [mkRow (i_index i) (i_label i) n v false]) seen next.

Lemma join_rows items st i n v :
  row_verdict (g_rows st) i n v -> rows_of items (g_rows st) ->
  rows_of (items ++ [i]) (g_rows st ++ [mkRow (i_index i) (i_label i) n v false]).
Proof. intros Hv Hr. by constructor. Qed.

Lemma join_skip items st i n s :
  planning_ok items st -> (forall c, s <> NoRoom c) -> row_verdict (g_rows st) i n (VSkip s) ->
  planning_ok (items ++ [i]) (add_row i n (VSkip s) (g_seen st) (g_next st) st).
Proof.
  intros [Hr Hs Hd Hn Hsl] Hs' Hv.
  assert (claim_of (mkRow (i_index i) (i_label i) n (VSkip s) false) = None) as Hc by (unfold claim_of; destruct s; try done; by destruct (Hs' capacity0)).
  split; unfold add_row; cbn [g_rows g_seen g_next]; try done; [by apply join_rows| | |]; intros Hm; unfold claimed;
    rewrite omap_app; cbn [omap list_omap]; rewrite ?Hc; cbn [kept_name r_verdict]; rewrite app_nil_r; auto.
Qed.

Lemma verdict_at_claims index label n t :
  kept_name (mkRow index label (Some n) (verdict_at target n) t) = Some n /\
  claim_of (mkRow index label (Some n) (verdict_at target n) t) = Some (n, index).
Proof. unfold kept_name, claim_of, verdict_at. cbn [r_verdict r_name]. destruct (in_use target n); [|done]. by destruct (_ || _). Qed.

Lemma join_slot items st i e title :
  planning_ok items st -> store = Molto2 -> g_next st <= MOLTO_LAST_SLOT ->
  i_entry i = Ok e -> check_params e store (limits store) = Ok tt -> title = molto_title (e_issuer e) (e_account e) -> title <> [] ->
  planning_ok (items ++ [i])
    (add_row i (Some (NMolto2 (g_next st) title)) (verdict_at target (NMolto2 (g_next st) title)) (g_seen st) (g_next st + 1) st).
Proof.
  intros Hok Hm Hl He Hc Htitle Hne. pose proof (ok_next_slot _ _ Hok Hm) as Hns. destruct Hok as [Hr Hs Hd Hn Hsl].
  split; unfold add_row; cbn [g_rows g_seen g_next]; try done; try lia.
  - apply join_rows; [|done]. eapply RKept; [done..| | |done|done].
    + unfold named. rewrite bool_decide_eq_true_2 by done. subst. eauto.
    + intros _. rewrite Hns. done.
  - intros _. rewrite omap_app, fmap_app, Hsl by done. cbn [omap list_omap]. rewrite (proj1 (verdict_at_claims _ _ _ _)).
    replace (g_next st + 1 - t_first_slot target) with ((g_next st - t_first_slot target) + 1) by lia.
    rewrite seqZ_app by lia. f_equal. cbn. by rewrite Z.add_comm, Z.sub_add.
Qed.

Lemma join_named items st i e n :
  planning_ok items st -> store <> Molto2 -> n ∉ fst <$> claimed (g_rows st) ->
  verdict_at target n = VExists \/ ~ shadows target (g_rows st) n ->
  i_entry i = Ok e -> check_params e store (limits store) = Ok tt -> name_for e store (limits store) = Ok n ->
  planning_ok (items ++ [i]) (add_row i (Some n) (verdict_at target n) (g_seen st ++ [(n, i_index i)]) (g_next st) st).
Proof.
  intros [Hr Hs Hd Hn Hsl] Hm Hf Hsh He Hc Hname. split; unfold add_row; cbn [g_rows g_seen g_next]; try done.
  - apply join_rows; [|done]. eapply RKept; [done..| | |done|done]; [|done]. unfold named. by rewrite bool_decide_eq_false_2.
  - intros _. unfold claimed. rewrite omap_app, Hs by done. cbn [omap list_omap]. by rewrite (proj2 (verdict_at_claims _ _ _ _)).
  - intros _. unfold claimed. rewrite omap_app, fmap_app. cbn [omap list_omap]. rewrite (proj2 (verdict_at_claims _ _ _ _)).
    apply list.NoDup_app. split; [by apply Hd|]. split; [|apply NoDup_singleton].
    intros x Hx. cbn [fmap list_fmap fst]. rewrite list_elem_of_singleton. by intros ->.
Qed.

Lemma named_row_ok items st i e n :
  planning_ok items st -> store <> Molto2 ->
  i_entry i = Ok e -> check_params e store (limits store) = Ok tt -> name_for e store (limits store) = Ok n ->
  let '(name, verdict, seen, next) := named_row store (t_existing target) (t_replace target) (i_index i) n st in
  planning_ok (items ++ [i]) (add_row i name verdict seen next st).
Proof.
  intros Hok Hm He Hc Hname. unfold named_row. pose proof (ok_seen _ _ Hok Hm) as Hseen.
  destruct (seen_first (g_seen st) n) as [first|] eqn:Hf.
  { apply join_skip; [done..|]. eapply RBlocked; [done..|]. rewrite <- Hseen. by apply seen_first_some. }
  apply seen_first_none in Hf. rewrite Hseen in Hf.
  set (on := existsb _ _). assert (in_use target n = on) as Huse by (unfold in_use; by destruct store).
  assert (verdict_at target n = if on then if t_replace target then VReplace else VExists else VAdd) as Hv.
  { unfold verdict_at. by rewrite Huse, (bool_decide_eq_false_2 (store = Molto2)), orb_false_r. }
  destruct (on && negb (t_replace target)) eqn:Hx.
  { apply andb_prop in Hx as [Hon Hrep]. apply negb_true_iff in Hrep. rewrite Hon, Hrep in Hv. rewrite <- Hv. eapply join_named; try done. by left. }
  assert (verdict_at target n <> VExists) as Hne by (rewrite Hv; by destruct on, (t_replace target)).
  rewrite Hseen. destruct (starts_another_name _ _ _ _) eqn:Hst.
  { rewrite <- Hseen. apply join_skip; [done..|]. eapply RBlocked; [done..|]. split; [done|]. split; [done|]. by apply shadows_iff. }
  assert ((if on then VReplace else VAdd) = verdict_at target n) as ->; [by rewrite Hv; destruct on, (t_replace target)|].
  rewrite <- Hseen. eapply join_named; try done. right. rewrite <- shadows_iff. congruence.
Qed.

Lemma plan_item_ok items st i :
  0 <= t_first_slot target -> planning_ok items st ->
  planning_ok (items ++ [i]) (plan_item store (limits store) target st i).
Proof.
  intros H0 Hok. unfold plan_item. fold (add_row i).
  destruct (i_entry i) as [e|u] eqn:He; [|by apply join_skip; [| |eapply RUnusable]].
  pose proof (name_for_room e store) as [Hrn Hrc].
  destruct (check_params e store (limits store)) as [[]|s] eqn:Hc.
  2:{ apply join_skip; [done| |by eapply RRefused]. intros c ->. by destruct (Hrc c). }
  case_bool_decide as Hm.
  - unfold molto_row. case_bool_decide as Ht; [by apply join_skip; [| |eapply RUntitled]|].
    destruct (MOLTO_LAST_SLOT <? g_next st) eqn:Hl; bools.
    { apply join_skip; [done..|]. eapply RPast; try done. by rewrite (ok_next_slot _ _ Hok Hm). }
    pose proof (ok_next _ _ Hok). rewrite cast_small by (unfold is_word, MOLTO_LAST_SLOT in *; lia).
    assert ((if molto_occupied names (g_next st) then VReplace else VAdd) =
      verdict_at target (NMolto2 (g_next st) (molto_title (e_issuer e) (e_account e)))) as ->; [|by eapply join_slot].
    unfold verdict_at, in_use. rewrite (bool_decide_eq_true_2 (store = Molto2)), orb_true_r by done. by rewrite Hm.
  - destruct (name_for e store (limits store)) as [n|s] eqn:Hname.
    2:{ apply join_skip; [done| |by eapply RUnnamed]. intros c ->. by destruct (Hrn c). }
    pose proof (named_row_ok items st i e n Hok Hm He Hc Hname) as Hr. by destruct (named_row _ _ _ _ _ _) as [[[? ?] ?] ?].
Qed.

Lemma planned_rows_ok file : 0 <= t_first_slot target -> planning_ok (f_items file) (planned_rows file target).
Proof.
  intros H0. unfold planned_rows. set (st0 := mkPlanning [] [] (t_first_slot target)).
  assert (planning_ok [] st0) as Hst.
  { split; cbn; [constructor|done|constructor|lia|]. intros _. by rewrite Z.sub_diag. }
  change (f_items file) with ([] ++ f_items file) at 1. revert Hst. generalize (@nil ImportItem) as done_items, st0.
  induction (f_items file) as [|i items IH]; intros done_items st Hst; [by rewrite app_nil_r|].
  cbn [fold_left]. rewrite cons_middle, app_assoc. apply IH. by apply plan_item_ok.
Qed.
End Loop.

(** ** Room *)

Lemma count_adds rows c : n_add (fold_left count_row rows c) = n_add c + adds rows.
Proof.
  revert c. induction rows as [|r rows IH]; intros [a p e s]; cbn [fold_left adds n_add]; [lia|].
  rewrite IH. unfold count_row, is_add. destruct (r_verdict r); cbn [n_add]; lia.
Qed.

Lemma adds_nonneg rows : 0 <= adds rows.
Proof. induction rows as [|r rows IH]; cbn [adds]; [lia|]. destruct (is_add _); lia. Qed.

Lemma room_rows_adds cap used rows : adds (room_rows cap used rows) = Z.min (adds rows) (Z.max 0 (cap - used)).
Proof.
  revert used. induction rows as [|r rows IH]; intros used; cbn [room_rows adds]; [lia|].
  pose proof (adds_nonneg rows). destruct (is_add (r_verdict r)) eqn:Ha.
  - destruct (cap <=? used) eqn:Hc; bools; cbn [adds r_verdict is_add]; [|rewrite Ha]; rewrite IH; lia.
  - cbn [adds]. rewrite Ha, IH. lia.
Qed.

Lemma room_rows_kept cap used rows : sublist (omap kept_name (room_rows cap used rows)) (omap kept_name rows).
Proof.
  revert used. induction rows as [|r rows IH]; intros used; cbn [room_rows omap list_omap]; [constructor|].
  destruct (is_add (r_verdict r)) eqn:Ha; [destruct (cap <=? used)|]; cbn [omap list_omap].
  - change (kept_name (mkRow _ _ _ (VSkip _) _)) with (@None StoredName). cbn iota. destruct (kept_name r); [apply sublist_cons|]; apply IH.
  - destruct (kept_name r); [apply sublist_skip|]; apply IH.
  - destruct (kept_name r); [apply sublist_skip|]; apply IH.
Qed.

Lemma room_rows_claimed cap used rows : claimed (room_rows cap used rows) = claimed rows.
Proof.
  unfold claimed. revert used. induction rows as [|r rows IH]; intros used; cbn [room_rows omap list_omap]; [done|].
  unfold is_add. destruct r as [x l n v t]. cbn [r_verdict r_index r_label r_name r_touch].
  destruct v; [destruct (cap <=? used)|..]; cbn [omap list_omap]; rewrite IH; done.
Qed.

Lemma room_rows_app cap used rows rows' :
  room_rows cap used (rows ++ rows') = room_rows cap used rows ++ room_rows cap (used + adds (room_rows cap used rows)) rows'.
Proof.
  revert used. induction rows as [|r rows IH]; intros used; cbn [app room_rows adds]; [by rewrite Z.add_0_r|].
  destruct (is_add (r_verdict r)) eqn:Ha; [destruct (cap <=? used)|]; cbn [app adds r_verdict is_add]; rewrite ?Ha, IH; cbn [app]; rewrite ?Z.add_0_l, ?Z.add_assoc; done.
Qed.

Lemma kept_claimed rows : omap kept_name rows `sublist_of` fst <$> claimed rows.
Proof.
  unfold claimed. induction rows as [|r rows IH]; [constructor|]. cbn [omap list_omap]. unfold kept_name at 1, claim_of at 1.
  destruct (r_verdict r) as [| | |[]], (r_name r); cbn; try (by apply sublist_skip); try done; by apply sublist_cons.
Qed.

Lemma row_verdict_move target cap used prev prev' i n v :
  t_store target <> Molto2 -> claimed prev' = claimed prev -> (v = VAdd -> used + adds prev' < cap) ->
  row_verdict target None used prev i n v -> row_verdict target (Some cap) used prev' i n v.
Proof.
  intros Hm Hc Hroom Hv.
  destruct Hv as [e n He Hp Hn _ Hf _|u He|e s He Hp|e s He Hp _ Hn|e He Hp Hs Ht|e He Hp Hs|e n s He Hp _ Hn Hs].
  - eapply RKept; [done..| |exact Hroom]. intros Hs. destruct (Hf Hs) as [Hfr Hsh]. rewrite Hc. split; [done|].
    destruct Hsh as [|Hsh]; [by left|right]. intros H. apply Hsh. by eapply shadows_claimed.
  - by eapply RUnusable.
  - by eapply RRefused.
  - by eapply RUnnamed.
  - by destruct Hm.
  - by destruct Hm.
  - eapply RBlocked; [done..|]. destruct s; try done; [by rewrite Hc| |].
    + by destruct Hs as (_ & _ & _ & ? & _).
    + destruct Hs as (Hf & Hx & Hsh). rewrite Hc. split; [done|]. split; [done|]. by eapply shadows_claimed.
Qed.

Lemma room_rows_ok target items cap used rows :
  t_store target <> Molto2 -> rows_of target None used items rows -> rows_of target (Some cap) used items (room_rows cap used rows).
Proof.
  intros Hm Hr. induction Hr as [|items rows i r Hr IH (Hx & Hl & Ht & Hv)]; [constructor|].
  rewrite room_rows_app. cbn [room_rows]. set (prev := room_rows cap used rows) in *.
  assert (claimed prev = claimed rows) as Hc by apply room_rows_claimed.
  destruct (is_add (r_verdict r)) eqn:Ha; [destruct (cap <=? used + adds prev) eqn:Hcap|]; bools; constructor; try done;
    (split; [done|]; split; [done|]; split; [done|]); cbn [r_name r_verdict].
  - destruct (r_verdict r) eqn:Hverd; try done.
    inversion Hv as [e n He Hp Hn _ Hf _ Hname Hva| | | | | |].
    destruct (Hf Hm) as [Hfr Hsh]. eapply RBlocked; [done..| |].
    + unfold named in Hn. by rewrite bool_decide_eq_false_2 in Hn.
    + rewrite Hc. split; [done|]. split; [done|]. split; [|done]. destruct Hsh as [Hsh|Hsh]; [congruence|].
      intros H. apply Hsh. by eapply shadows_claimed.
  - by eapply row_verdict_move.
  - eapply row_verdict_move; try done. intros Hva. by rewrite Hva in Ha.
Qed.

(** What the store holds, where a plan checks it, and the codes it has. *)
Definition room_limit (target : Target) : option Z :=
  if bool_decide (t_store target = Molto2) then None else capacity (limits (t_store target)).
Definition codes_on (target : Target) : Z := zlen (ex_names (t_existing target)) + ex_hidden (t_existing target).
Definition planned_as (file : ImportFile) (target : Target) (rows : list PlanRow) : Prop :=
  rows_of target (room_limit target) (codes_on target) (f_items file) rows.

Lemma plan_rows_ok file target :
  0 <= t_first_slot target ->
  planned_as file target (pl_rows (plan file target)) /\ NoDup (omap kept_name (pl_rows (plan file target))).
Proof.
  intros H0. destruct (planned_rows_ok target (codes_on target) file H0) as [Hr Hs Hd Hn Hsl].
  unfold plan, planned_as, room_limit. fold (planned_rows file target). cbn [pl_rows]. unfold plan_capacity. case_bool_decide as Hm; cbn zeta.
  - split; [done|]. apply (NoDup_fmap_1 name_slot). rewrite Hsl by done. apply NoDup_seqZ.
  - assert (NoDup (omap kept_name (g_rows (planned_rows file target)))) as Hk by (eapply sublist_NoDup; [by apply Hd|apply kept_claimed]).
    destruct (capacity (limits (t_store target))) as [c|] eqn:Hcap; [|done].
    split; [by apply room_rows_ok|]. eapply sublist_NoDup; [done|]. apply room_rows_kept.
Qed.

Lemma row_verdict_writes target room used prev i n v :
  row_verdict target room used prev i n v -> verdict_writes v = true ->
  exists e m, n = Some m /\ i_entry i = Ok e /\ check_params e (t_store target) (limits (t_store target)) = Ok tt /\ named target e m.
Proof. destruct 1 as [e m| | | | | |]; try done. intros _. by exists e, m. Qed.

(** A row of the plan is a row of some entry. *)
Lemma rows_of_row target room used items rows r :
  rows_of target room used items rows -> r ∈ rows -> exists i prev, i ∈ items /\ row_of target room used prev i r.
Proof.
  induction 1 as [|items rows i r' Hr IH Hi]; intros Hin; [by apply elem_of_nil in Hin|].
  apply elem_of_app in Hin as [Hin|Hin].
  - destruct (IH Hin) as (j & prev & Hj & Hrow). exists j, prev. split; [|done]. apply elem_of_app. by left.
  - apply list_elem_of_singleton in Hin as ->. exists i, rows. split; [|done]. apply elem_of_app. right. by constructor.
Qed.

(** What [check_params] lets through. *)
Lemma check_params_ok e s lim :
  check_params e s lim = Ok tt ->
  e_hash e ∈ hashes lim /\ digits_lo lim <= e_digits e <= digits_hi lim /\ (s = Molto2 -> molto_digits_ok (e_digits e) = true) /\
  match e_kind e with
  | Totp p => match totp lim with PAny => True | POnly30 => p = 30 | PMolto2 => p = 30 \/ p = 60 | PRange lo hi => lo <= p <= hi end
  | Hotp c => match hotp lim with HNo => False | HCounterU32 => c <= 2 ^ 32 - 1 | HCounterZeroOnly => c = 0 end
  end /\
  match secret_max lim with Some max => zlen (e_secret e) <= max | None => True end.
Proof.
  unfold check_params, between. intros H.
  destruct (match e_kind e with Totp _ => _ | _ => _ end) eqn:Hk in H; [done|].
  destruct (negb (existsb _ _)) eqn:Hh; [done|]. destruct (negb (_ && _)) eqn:Hd; [done|].
  apply negb_false_iff in Hh. apply existsb_exists in Hh as (h & Hin & Hh). apply bool_decide_eq_true in Hh. subst h.
  apply negb_false_iff in Hd. apply andb_prop in Hd as [Hd Hm]. bools. inv_bind H.
  split; [by apply list_elem_of_In|]. split; [lia|]. split.
  { intros ->. destruct Hm as [Hm|]; [by rewrite bool_decide_eq_true_2 in Hm|done]. }
  split.
  - destruct (e_kind e); [destruct (totp lim)|destruct (hotp lim)]; try done.
    all: repeat match type of Hb with (if ?c then _ else _) = _ => destruct c eqn:?; [done|] end; bools; lia.
  - destruct (secret_max lim); [|done]. destruct (_ <? _) eqn:?; [done|]. bools. lia.
Qed.

(** * Properties *)

(** C2: an import plan is sound for the key it is made for, and turns nothing
    away without cause. The rows are the file's entries, in order, and each has
    exactly the name and verdict that the entry, the key and the rows before it
    give. An entry whose parameters do not fit the store, or that has no name
    there, is skipped for that. One whose name an earlier row lays claim to is
    skipped, naming an entry that has that name. One that is on the key is left
    there, or replaced where replacing was asked for (a Molto2's slots are always
    overwritten). On a YubiKey whose version is between 4.0.0 and 4.3.5 (both
    excluded), a name to be written is refused exactly when it starts a different
    name that is on the key or that an earlier row claims. An add is turned
    away for room exactly when the codes on the key and those added before it
    reach what the key says it holds. A Molto2's rows fill consecutive slots from
    the first one on, and one is past the last slot exactly when #99 is used. No
    name is kept by two rows, and on a key that says how much it holds exactly as
    many codes are added as there is room for. *)
Theorem plan_sound (file : ImportFile) (target : Target) :
  0 <= t_first_slot target ->
  let p := plan file target in
  rows_of target (room_limit target) (codes_on target) (f_items file) (pl_rows p) /\
  pl_on_key p = codes_on target /\
  (t_store target <> Molto2 -> NoDup (omap kept_name (pl_rows p))) /\
  (t_store target = Molto2 -> exists n,
     name_slot <$> omap kept_name (pl_rows p) = seqZ (t_first_slot target) n /\ (n = 0 \/ t_first_slot target + n <= 100)) /\
  (forall c, t_store target <> Molto2 -> pl_capacity p = Some c ->
     n_add (counts p) = Z.min (adds (g_rows (planned_rows file target))) (Z.max 0 (c - pl_on_key p))).
Proof.
  intros H0 p. destruct (plan_rows_ok file target H0) as [Hrows Hdup]. fold p in Hrows, Hdup. split; [done|]. split; [done|]. split; [done|].
  destruct (planned_rows_ok target 0 file H0) as [_ _ _ Hn Hsl]. subst p. clear Hrows Hdup.
  unfold plan, counts, plan_capacity in *. fold (planned_rows file target). cbn [pl_rows pl_capacity pl_on_key].
  case_bool_decide as Hm; cbn zeta.
  - split; [|done]. intros _. eexists. split; [by apply Hsl|]. unfold MOLTO_LAST_SLOT in *. lia.
  - split; [done|]. intros c _ ->. rewrite count_adds, room_rows_adds. cbn [n_add]. lia.
Qed.

Definition run_entry (issuer account : list Z) (kind : OtpKind) : ImportEntry :=
  mkEntry (Some issuer) (Some account) (replicate 20 0x5A) Sha1 6 kind.
Definition run_file : ImportFile :=
  mkFile OtpauthList
    [mkItem 0 (s2b "Acme:alice") (Ok (run_entry (s2b "Acme") (s2b "alice") (Totp 30)));
     mkItem 1 (s2b "Acme:bob") (Ok (run_entry (s2b "Acme") (s2b "bob") (Totp 60)));
     mkItem 2 (s2b "bad") (Err BadSecret)] None.
Definition run_target : Target :=
  mkTarget (SOath (YubiKey (Some (5, 7, 1)))) 0 (mkExisting [NOath (s2b "Acme:alice")] 0) true.

Example run_plan_rows :
  (fun r => (r_name r, r_verdict r)) <$> pl_rows (plan run_file run_target) =
  [(Some (NOath (s2b "Acme:alice")), VReplace); (Some (NOath (s2b "60/Acme:bob")), VAdd); (None, VSkip (SUnusable BadSecret))].
Proof. vm_compute. reflexivity. Qed.

Lemma plan_sound_witness :
  let p := plan run_file run_target in
  rows_of run_target (room_limit run_target) (codes_on run_target) (f_items run_file) (pl_rows p) /\
  pl_on_key p = codes_on run_target /\
  (t_store run_target <> Molto2 -> NoDup (omap kept_name (pl_rows p))) /\
  (t_store run_target = Molto2 -> exists n,
     name_slot <$> omap kept_name (pl_rows p) = seqZ (t_first_slot run_target) n /\ (n = 0 \/ t_first_slot run_target + n <= 100)) /\
  (forall c, t_store run_target <> Molto2 -> pl_capacity p = Some c ->
     n_add (counts p) = Z.min (adds (g_rows (planned_rows run_file run_target))) (Z.max 0 (c - pl_on_key p))).
Proof. apply (plan_sound run_file run_target). vm_compute. discriminate. Defined.

(** ** Names read back *)

Lemma contains_byte c s : contains [c] s = false -> Forall (fun x => x <> c) s.
Proof.
  intros Hc. apply Forall_forall. intros x Hx ->. apply in_split in Hx as (a & b & ->).
  assert (contains [c] (a ++ c :: b) = true); [|congruence]. apply contains_spec. by exists a, b.
Qed.

(** What [oath_name] puts after the period prefix reads back as the entry's issuer and account. *)
Definition entry_issuer (e : ImportEntry) : option (list Z) := match e_account e with Some _ => e_issuer e | None => None end.
Definition entry_account (e : ImportEntry) : list Z := default (default [] (e_issuer e)) (e_account e).

Lemma oath_base_reads e base :
  entry_ok e ->
  match e_issuer e, e_account e with
  | Some i, Some a => if contains [58] i then Err AmbiguousName else Ok (i ++ s2b ":" ++ a)
  | Some one, None | None, Some one => if contains [58] one then Err AmbiguousName else Ok one
  | None, None => Err NoName
  end = Ok base ->
  base = stored_name None (entry_issuer e) (entry_account e) /\ base <> [] /\
  match entry_issuer e with
  | Some i => i <> [] /\ Forall (fun c => c <> 58) i
  | None => Forall (fun c => c <> 58) (entry_account e)
  end /\ entry_account e <> [].
Proof.
  intros (_ & _ & _ & Hi & Ha). unfold entry_issuer, entry_account, stored_name.
  destruct (e_issuer e) as [i|], (e_account e) as [a|]; try done.
  - destruct (contains [58] i) eqn:Hc; [done|]. intros [= <-]. apply contains_byte in Hc. change (s2b ":") with [58].
    change (default (default [] (Some i)) (Some a)) with a. rewrite app_nil_l, <- app_assoc.
    split; [done|]. split; [by destruct i|]. split; [split; [by intros ->|done]|by intros ->].
  - destruct (contains [58] i) eqn:Hc; [done|]. intros [= <-]. apply contains_byte in Hc.
    change (default (default [] (Some i)) None) with i. split; [done|]. split; [by intros ->|]. split; [done|by intros ->].
  - destruct (contains [58] a) eqn:Hc; [done|]. intros [= <-]. apply contains_byte in Hc.
    change (default (default [] None) (Some a)) with a. split; [done|]. split; [by intros ->|]. split; [done|by intros ->].
Qed.

Lemma split_period_plain base : looks_like_period_prefix base = false -> split_period base Oath.Totp = (None, base).
Proof.
  unfold looks_like_period_prefix, split_period. destruct (split_once 47 base) as [[head rest]|]; [|done].
  intros Hl. assert (negb (zlen head =? 0) && forallb is_ascii_digit head = false) as Hx; [|by rewrite Hx].
  rewrite <- Hl. f_equal. case_bool_decide as Hh; [by subst|]. destruct (zlen head =? 0) eqn:Hz; [|done].
  bools. by apply zlen_0 in Hz.
Qed.

Definition oath_type (k : OtpKind) : OathType := match k with Totp _ => Oath.Totp | Hotp _ => Oath.Hotp end.

(** The names a plan gives read back. On every family but Nitrokey 3, the
    name an entry is stored under is read by the OATH listing as the entry's
    issuer, account and period, so the codes are computed for the right period: a
    name with no such reading is refused as ambiguous rather than stored. *)
Theorem plan_names_read (e : ImportEntry) (family : OathFamily) (name : list Z) :
  entry_ok e -> match e_kind e with Totp p => is_word 32 p | Hotp _ => True end ->
  family <> Nitrokey3 -> oath_name e family = Ok name ->
  parse_name name (oath_type (e_kind e)) =
    mkParts match e_kind e with Totp p => if p =? 30 then None else Some p | Hotp _ => None end (entry_issuer e) (entry_account e) /\
  match e_kind e with Totp p => totp_period name = p | Hotp _ => True end.
Proof.
  intros He Hw Hf Hname.
  enough (parse_name name (oath_type (e_kind e)) =
    mkParts match e_kind e with Totp p => if p =? 30 then None else Some p | Hotp _ => None end (entry_issuer e) (entry_account e)) as Hp.
  { split; [done|]. destruct (e_kind e) as [p|]; [|done]. unfold totp_period. cbn [oath_type] in Hp. rewrite Hp. cbn [n_period].
    destruct (p =? 30) eqn:H30; bools; [by subst|done]. }
  unfold oath_name in Hname. inv_bind Hname.
  apply (oath_base_reads e) in Hb as (Hbase & Hne & Hparts & Hacc); [|done].
  rewrite (bool_decide_eq_false_2 _ Hf) in Hname. cbn [negb] in Hname. rewrite !andb_true_r in Hname.
  assert (forall period, match split_once 58 a with
    | Some (i, acc) => if negb (zlen i =? 0) && negb (zlen acc =? 0) then mkParts period (Some i) acc else mkParts period None a
    | None => mkParts period None a end = mkParts period (entry_issuer e) (entry_account e)) as Hread.
  { intros period. rewrite Hbase. unfold stored_name. rewrite app_nil_l. by apply split_once_issuer. }
  unfold parse_name. destruct (e_kind e) as [p|c] eqn:Hk; cbn [is_totp oath_type] in *.
  - destruct He as (_ & _ & Hkind & _). rewrite Hk in Hkind. cbn in Hkind. rewrite ?andb_true_r in Hname.
    destruct (p =? 30) eqn:H30; cbn [negb] in Hname.
    + destruct (looks_like_period_prefix a) eqn:Hl; [done|]. injection Hname as <-. rewrite split_period_plain by done. apply Hread.
    + injection Hname as <-. change (s2b "/") with [47]. cbn [app].
      rewrite split_period_stored; [apply Hread| |done]. unfold is_word in Hw. lia.
  - cbn [andb] in Hname. injection Hname as <-. cbn [split_period]. apply Hread.
Qed.

Lemma plan_names_read_witness :
  let e := run_entry (s2b "Acme") (s2b "bob") (Totp 60) in
  parse_name (s2b "60/Acme:bob") (oath_type (e_kind e)) =
    mkParts match e_kind e with Totp p => if p =? 30 then None else Some p | Hotp _ => None end (entry_issuer e) (entry_account e) /\
  match e_kind e with Totp p => totp_period (s2b "60/Acme:bob") = p | Hotp _ => True end.
Proof.
  apply (plan_names_read (run_entry (s2b "Acme") (s2b "bob") (Totp 60)) Solo2 (s2b "60/Acme:bob")); [|by cbn|done|by vm_compute].
  split; [vm_compute; split; discriminate|]. split; [vm_compute; split; discriminate|]. done.
Defined.

(** On a Nitrokey 3 the same entry's name can read back with a period it does
    not have: the reader looks for a period whatever the family. *)
Example nitrokey_name_misread :
  let e := mkEntry None (Some (s2b "60/bob")) (replicate 20 0x5A) Sha1 6 (Totp 30) in
  oath_name e Nitrokey3 = Ok (s2b "60/bob") /\ totp_period (s2b "60/bob") = 60.
Proof. vm_compute. done. Qed.
