(* ===== verification/Run.v ===== *)
(** keyroost-import/src/run.rs: storing a plan's codes on a key, one at a time.
    The key is behind a class for the trait [CodeStore]; the progress callback,
    which only draws, is left out. *)
From S2P Require Export Plan.

(** * A destination's write side *)

Inductive StoreError := SExists | SFull | SFailed (m : list Z).
Definition store_error_text (e : StoreError) : list Z :=
  match e with
  | SExists => s2b "the key says this name is already on it"
  | SFull => s2b "the key is full"
  | SFailed m => m
  end.

Class CodeStore (S : Type) := {
  store_add : StoredName -> ImportEntry -> bool -> io S StoreError unit;
  store_delete : StoredName -> io S StoreError unit
}.

(** * What a run reports *)

Inductive Outcome :=
  | Added | Replaced | AlreadyThere | RemovedNotAdded (e : list Z) | Failed (e : list Z) | ONoRoom | NotTried.

Definition outcome_word (o : Outcome) : list Z :=
  match o with
  | Added => s2b "added"
  | Replaced => s2b "replaced"
  | AlreadyThere => s2b "exists"
  | RemovedNotAdded _ => s2b "removed-not-added"
  | Failed _ => s2b "failed"
  | ONoRoom => s2b "no-room"
  | NotTried => s2b "not-tried"
  end.
Definition outcome_reason (o : Outcome) : option (list Z) :=
  match o with
  | Added | Replaced => None
  | AlreadyThere => Some EXISTS_REASON
  | RemovedNotAdded e => Some (s2b "the old code was removed, but the new one wasn't added (" ++ e ++ s2b ")")
  | Failed e => Some e
  | ONoRoom => Some (store_error_text SFull)
  | NotTried => Some (s2b "stopped before this one")
  end.
Definition went_through (o : Outcome) : bool := match o with Added | Replaced | AlreadyThere => true | _ => false end.

Record Report := mkReport { rp_rows : list (Z * list Z * Outcome); rp_stopped : option (list Z) }.

Definition report_count (r : Report) (f : Outcome -> bool) : Z := zlen (filter (fun x => f x.2 = true) (rp_rows r)).
Definition report_ok (r : Report) : bool := forallb (fun x => went_through x.2) (rp_rows r).
Definition is_added (o : Outcome) : bool := match o with Added => true | _ => false end.
Definition is_replaced (o : Outcome) : bool := match o with Replaced => true | _ => false end.
Definition is_there (o : Outcome) : bool := match o with AlreadyThere => true | _ => false end.
Definition summary (r : Report) (p : Plan) : list Z :=
  let added := report_count r is_added in
  let replaced := report_count r is_replaced in
  let there := report_count r is_there in
  let not := zlen (rp_rows r) - added - replaced - there in
  let c := counts p in
  s2b "Added " ++ dec added ++ s2b ", replaced " ++ dec replaced ++ s2b "; " ++ dec (n_exists c + there) ++
  s2b " left as is, " ++ dec (n_skip c) ++ s2b " skipped" ++
  (if 0 <? not then s2b ", " ++ dec not ++ s2b " not added" else []) ++ s2b ".".

(** * The run *)

Record Stop := mkStop { stop_reason : list Z; stop_rest : Outcome }.

Definition removed_not_added (name : StoredName) (why : StoreError) : list Z :=
  s2b "the old code " ++ stored_name_text name ++ s2b " was removed from the key, but the new one could not be added (" ++
  store_error_text why ++ s2b ")".

Definition run_fail (m : list Z) : Outcome * option Stop := (Failed m, Some (mkStop m NotTried)).
Definition run_full : Outcome * option Stop := (ONoRoom, Some (mkStop (store_error_text SFull) ONoRoom)).

(** The entry a row was planned from. *)
Definition row_entry (file : ImportFile) (row : PlanRow) : option ImportEntry :=
  i ← find_map (fun i => if i_index i =? r_index row then Some i else None) (f_items file);
  match i_entry i with Ok e => Some e | Err _ => None end.

Section run.
Context {S : Type} `{CodeStore S}.

Definition write_one (file : ImportFile) (p : Plan) (row : PlanRow) (s : S) : Outcome * option Stop * S :=
  match r_name row with
  | None => (run_fail (s2b "this entry has no name to store it under"), s)
  | Some name =>
      match row_entry file row with
      | None => (run_fail (s2b "this entry is no longer in the file"), s)
      | Some entry =>
          let replacing := is_replace (r_verdict row) in
          let '(r, s) := store_add name entry (r_touch row) s in
          match r with
          | Ok _ => (if replacing then Replaced else Added, None, s)
          | Err SFull => (run_full, s)
          | Err (SFailed m) => (run_fail m, s)
          | Err SExists =>
              let may_replace := negb (bool_decide (pl_store p = Molto2)) && (replacing || pl_replace p) in
              if negb may_replace then (AlreadyThere, None, s)
              else
                let '(r, s) := store_delete name s in
                match r with
                | Err e => (run_fail (store_error_text e), s)
                | Ok _ =>
                    let '(r, s) := store_add name entry (r_touch row) s in
                    match r with
                    | Ok _ => (Replaced, None, s)
                    | Err e => (RemovedNotAdded (store_error_text e), Some (mkStop (removed_not_added name e) NotTried), s)
                    end
                end
          end
      end
  end.

(** One round of the loop: the rows reported, why the run stopped, the key. *)
Definition run_step (file : ImportFile) (p : Plan) (st : list (Z * list Z * Outcome) * option Stop * S) (row : PlanRow) :
    list (Z * list Z * Outcome) * option Stop * S :=
  let '(rows, stop, s) := st in
  let '(outcome, stop, s) := match stop with Some x => (stop_rest x, stop, s) | None => write_one file p row s end in
  (rows ++ [(r_index row, shown_label row, outcome)], stop, s).

Definition run (file : ImportFile) (p : Plan) (s : S) : Report * S :=
  let '(rows, stop, s) := fold_left (run_step file p) (plan_writes p) ([], None, s) in
  (mkReport rows (stop_reason <$> stop), s).
End run.

(** * What a destination promises *)

(** The codes a key holds, by name. *)
Definition Holding : Type := StoredName -> option (ImportEntry * bool).

(** A destination stores what it accepts and touches no other code; it is full or
    has the name only when it says so, and then nothing changed. After another
    failure the code of that name may or may not be there. *)
Class StoreLaws (S : Type) `{CodeStore S} := {
  holds : S -> Holding;
  add_frame n e t s m : m <> n -> holds (store_add n e t s).2 m = holds s m;
  add_stored n e t s : (store_add n e t s).1 = Ok tt -> holds (store_add n e t s).2 n = Some (e, t);
  add_full n e t s : (store_add n e t s).1 = Err SFull -> holds (store_add n e t s).2 n = holds s n;
  add_exists n e t s : (store_add n e t s).1 = Err SExists ->
    holds s n <> None /\ holds (store_add n e t s).2 n = holds s n;
  delete_frame n s m : m <> n -> holds (store_delete n s).2 m = holds s m;
  delete_removed n s : (store_delete n s).1 = Ok tt -> holds (store_delete n s).2 n = None
}.

(** What an outcome says of the key. *)
Definition outcome_holds (o : Outcome) (n : StoredName) (x : ImportEntry * bool) (before after : Holding) : Prop :=
  match o with
  | Added | Replaced => after n = Some x
  | AlreadyThere => before n <> None /\ after n = before n
  | ONoRoom | NotTried => after n = before n
  | RemovedNotAdded _ => before n <> None
  | Failed _ => True
  end.
Definition may_replace (p : Plan) (row : PlanRow) : bool :=
  negb (bool_decide (pl_store p = Molto2)) && (is_replace (r_verdict row) || pl_replace p).

Definition rest_of (o : Outcome) : Outcome := match o with ONoRoom => ONoRoom | _ => NotTried end.
(** Everything goes through up to the first failure, which ends the run. *)
Inductive stop_shape : list Outcome -> option (list Z) -> Prop :=
  | shape_end : stop_shape [] None
  | shape_go o os why : went_through o = true -> stop_shape os why -> stop_shape (o :: os) why
  | shape_stop o os why :
      went_through o = false -> o <> NotTried -> Forall (fun x => x = rest_of o) os -> stop_shape (o :: os) (Some why).

Section run_laws.
Context {S : Type} `{StoreLaws S}.
Context (file : ImportFile) (p : Plan).

Record write_promise (row : PlanRow) (n : StoredName) (x : ImportEntry * bool) (s : S) (r : Outcome * option Stop * S) : Prop := {
  wp_holds : outcome_holds r.1.1 n x (holds s) (holds r.2);
  wp_frame m : m <> n -> holds r.2 m = holds s m;
  wp_tried : r.1.1 <> NotTried;
  wp_stop : match r.1.2 with
            | Some st => went_through r.1.1 = false /\ stop_rest st = rest_of r.1.1
            | None => went_through r.1.1 = true
            end;
  wp_replace : match r.1.1 with
               | Added => is_replace (r_verdict row) = false
               | Replaced => is_replace (r_verdict row) = true \/ may_replace p row = true
               | RemovedNotAdded _ => may_replace p row = true
               | AlreadyThere => may_replace p row = false
               | _ => True
               end
}.

Lemma write_one_ok row n e s :
  r_name row = Some n -> row_entry file row = Some e ->
  write_promise row n (e, r_touch row) s (write_one file p row s).
Proof.
  intros Hn He. unfold write_one. rewrite Hn, He. fold (may_replace p row).
  pose proof (add_frame n e (r_touch row) s) as Hf. pose proof (add_stored n e (r_touch row) s) as Hok.
  pose proof (add_full n e (r_touch row) s) as Hfull. pose proof (add_exists n e (r_touch row) s) as Hex.
  destruct (store_add n e (r_touch row) s) as [[[]|[| |m]] s1]; cbn [fst snd] in *.
  - destruct (is_replace (r_verdict row)) eqn:Hr; split; cbn; auto.
  - destruct (Hex eq_refl) as [Hb Ha]. destruct (may_replace p row) eqn:Hm; cbn [negb]; [|split; cbn; auto; done].
    pose proof (delete_frame n s1) as Hdf. pose proof (delete_removed n s1) as Hdok.
    destruct (store_delete n s1) as [[[]|err] s2]; cbn [fst snd] in *.
    2:{ split; cbn; try done. intros m Hmn. by rewrite Hdf, Hf. }
    pose proof (add_frame n e (r_touch row) s2) as Hf2. pose proof (add_stored n e (r_touch row) s2) as Hok2.
    destruct (store_add n e (r_touch row) s2) as [[[]|err] s3]; cbn [fst snd] in *; split; cbn; auto; try done;
      intros m Hmn; by rewrite Hf2, Hdf, Hf.
  - split; cbn; auto; done.
  - split; cbn; auto; done.
Qed.

(** The loop, without its accumulator. *)
Fixpoint run_rows (rows : list PlanRow) (stop : option Stop) (s : S) : list (Z * list Z * Outcome) * option Stop * S :=
  match rows with
  | [] => ([], stop, s)
  | row :: rows =>
      let '(o, stop, s) := match stop with Some x => (stop_rest x, stop, s) | None => write_one file p row s end in
      let '(out, stop, s) := run_rows rows stop s in
      ((r_index row, shown_label row, o) :: out, stop, s)
  end.

Lemma run_fold rows acc stop s :
  fold_left (run_step file p) rows (acc, stop, s) =
  let '(out, stop, s) := run_rows rows stop s in (acc ++ out, stop, s).
Proof.
  revert acc stop s. induction rows as [|row rows IH]; intros acc stop s; cbn [fold_left run_rows]; [by rewrite app_nil_r|].
  unfold run_step at 2. destruct (match stop with Some x => _ | None => _ end) as [[o stop1] s1]. rewrite IH.
  destruct (run_rows rows stop1 s1) as [[out stop2] s2]. by rewrite <- app_assoc.
Qed.

Definition reported (before after : Holding) (row : PlanRow) (x : Z * list Z * Outcome) : Prop :=
  x.1 = (r_index row, shown_label row) /\
  exists n e, r_name row = Some n /\ row_entry file row = Some e /\ outcome_holds x.2 n (e, r_touch row) before after /\
    match x.2 with
    | Added => is_replace (r_verdict row) = false
    | Replaced => is_replace (r_verdict row) = true \/ may_replace p row = true
    | RemovedNotAdded _ => may_replace p row = true
    | AlreadyThere => may_replace p row = false
    | _ => True
    end.
Definition row_ready (row : PlanRow) : Prop := exists n e, r_name row = Some n /\ row_entry file row = Some e.

Lemma run_rows_stopped rows st s :
  Forall row_ready rows -> stop_rest st = NotTried \/ stop_rest st = ONoRoom ->
  exists out, run_rows rows (Some st) s = (out, Some st, s) /\ Forall (fun x => x = stop_rest st) (snd <$> out) /\
    Forall2 (reported (holds s) (holds s)) rows out.
Proof.
  intros Hr Hst. induction Hr as [|row rows (n & e & Hn & He) Hr IH]; cbn [run_rows]; [eexists; split; [done|]; split; constructor|].
  destruct IH as (out & -> & Hout & Hrep). eexists. split; [done|]. split; [by constructor|].
  constructor; [|done]. split; [done|]. exists n, e. split; [done|]. split; [done|]. by destruct Hst as [-> | ->].
Qed.

Lemma outcome_holds_ext o n x b b' a a' :
  b' n = b n -> a' n = a n -> outcome_holds o n x b a -> outcome_holds o n x b' a'.
Proof. intros Hb Ha. unfold outcome_holds. by rewrite Hb, Ha. Qed.

Lemma reported_ext b b' a rows out :
  (forall m, m ∈ omap r_name rows -> b' m = b m) ->
  Forall2 (reported b a) rows out -> Forall2 (reported b' a) rows out.
Proof.
  intros Hb Hr. induction Hr as [|row x rows out (Hx & n & e & Hn & He & Hh & Hrep) Hr IH]; [constructor|].
  cbn [omap list_omap] in Hb. rewrite Hn in Hb. constructor.
  - split; [done|]. exists n, e. split; [done|]. split; [done|]. split; [|done]. eapply outcome_holds_ext; [|done|done]. apply Hb. constructor.
  - apply IH. intros m Hm. apply Hb. by constructor.
Qed.

Lemma run_rows_ok rows s :
  Forall row_ready rows -> NoDup (omap r_name rows) ->
  let '(out, stop, s') := run_rows rows None s in
  Forall2 (reported (holds s) (holds s')) rows out /\
  (forall m, m ∉ omap r_name rows -> holds s' m = holds s m) /\
  stop_shape (snd <$> out) (stop_reason <$> stop).
Proof.
  intros Hr. revert s. induction Hr as [|row rows (n & e & Hn & He) Hr IH]; intros s Hd; cbn [run_rows]; [by split; [|split; [|constructor]]|].
  cbn [omap list_omap] in Hd |- *. rewrite Hn in Hd |- *. apply list.NoDup_cons in Hd as [Hnin Hd].
  destruct (write_one_ok row n e s Hn He) as [Hh Hf Ht Hs Hrep].
  destruct (write_one file p row s) as [[o stop1] s1] eqn:Hw. cbn [fst snd] in *.
  assert (forall a out, Forall2 (reported (holds s1) a) rows out -> Forall2 (reported (holds s) a) rows out) as Hext.
  { intros a out. apply reported_ext. intros m Hm. symmetry. apply Hf. by intros ->. }
  destruct stop1 as [st|].
  - destruct Hs as [Hwt Hrest]. destruct (run_rows_stopped rows st s1 Hr) as (out & -> & Hout & Hrows); [rewrite Hrest; destruct o; auto|].
    split; [|split].
    + constructor; [|by apply Hext]. split; [done|]. by exists n, e.
    + intros m Hm. apply Hf. by intros ->; apply Hm; constructor.
    + rewrite Hrest in Hout. by apply shape_stop.
  - specialize (IH s1 Hd). destruct (run_rows rows None s1) as [[out stop2] s2]. destruct IH as (Hrows & Hfr & Hshape).
    split; [|split].
    + constructor; [|by apply Hext]. split; [done|]. exists n, e. split; [done|]. split; [done|]. split; [|done].
      eapply outcome_holds_ext; [done| |done]. by apply Hfr.
    + intros m Hm. apply not_elem_of_cons in Hm as [Hm Hm']. rewrite Hfr by done. by apply Hf.
    + by apply shape_go.
Qed.
End run_laws.

(** * What a run asks of the key *)

(** An operation the key was asked for, and its answer. *)
Inductive StoreOp :=
  | OpAdd (n : StoredName) (e : ImportEntry) (touch : bool) (r : result StoreError unit)
  | OpDelete (n : StoredName) (r : result StoreError unit).
#[export] Instance StoreError_eq_dec : EqDecision StoreError.
Proof. solve_decision. Defined.

(** A key with a log of what it was asked for. *)
Record Logged (S : Type) := mkLogged { lg_key : S; lg_ops : list StoreOp }.
Arguments mkLogged {S}.
Arguments lg_key {S}.
Arguments lg_ops {S}.
#[export] Instance logged_store {S} `{CodeStore S} : CodeStore (Logged S) := {
  store_add n e t l := let '(r, s) := store_add n e t (lg_key l) in (r, mkLogged s (lg_ops l ++ [OpAdd n e t r]));
  store_delete n l := let '(r, s) := store_delete n (lg_key l) in (r, mkLogged s (lg_ops l ++ [OpDelete n r]))
}.

Section asked.
Context (file : ImportFile) (p : Plan).

(** What a row that ended with an outcome asked of the key, and the message the
    run stopped with, if it did. *)
Inductive asks (row : PlanRow) (n : StoredName) (e : ImportEntry) : Outcome -> list StoreOp -> option (list Z) -> Prop :=
  | ask_added : is_replace (r_verdict row) = false -> asks row n e Added [OpAdd n e (r_touch row) (Ok tt)] None
  | ask_over : is_replace (r_verdict row) = true -> asks row n e Replaced [OpAdd n e (r_touch row) (Ok tt)] None
  | ask_there : may_replace p row = false -> asks row n e AlreadyThere [OpAdd n e (r_touch row) (Err SExists)] None
  | ask_full : asks row n e ONoRoom [OpAdd n e (r_touch row) (Err SFull)] (Some (store_error_text SFull))
  | ask_failed m : asks row n e (Failed m) [OpAdd n e (r_touch row) (Err (SFailed m))] (Some m)
  | ask_kept x : may_replace p row = true ->
      asks row n e (Failed (store_error_text x)) [OpAdd n e (r_touch row) (Err SExists); OpDelete n (Err x)] (Some (store_error_text x))
  | ask_replaced : may_replace p row = true ->
      asks row n e Replaced [OpAdd n e (r_touch row) (Err SExists); OpDelete n (Ok tt); OpAdd n e (r_touch row) (Ok tt)] None
  | ask_lost x : may_replace p row = true ->
      asks row n e (RemovedNotAdded (store_error_text x))
        [OpAdd n e (r_touch row) (Err SExists); OpDelete n (Ok tt); OpAdd n e (r_touch row) (Err x)] (Some (removed_not_added n x)).
Definition row_asks (row : PlanRow) (o : Outcome) (ops : list StoreOp) (why : option (list Z)) : Prop :=
  exists n e, r_name row = Some n /\ row_entry file row = Some e /\ asks row n e o ops why.

(** The rows ask in turn, up to the one that stops the run; nothing after it asks. *)
Inductive run_asks : list PlanRow -> list Outcome -> list StoreOp -> option (list Z) -> Prop :=
  | asks_end : run_asks [] [] [] None
  | asks_go row rows o os ops ops' why :
      row_asks row o ops None -> run_asks rows os ops' why -> run_asks (row :: rows) (o :: os) (ops ++ ops') why
  | asks_stop row rows o os ops why :
      row_asks row o ops (Some why) -> length os = length rows -> run_asks (row :: rows) (o :: os) ops (Some why).

Context {S : Type} `{CodeStore S}.

Lemma write_one_asks row s log :
  row_ready file row ->
  let '(o, stop, s') := write_one file p row s in
  exists ops, write_one file p row (mkLogged s log) = (o, stop, mkLogged s' (log ++ ops)) /\ row_asks row o ops (stop_reason <$> stop).
Proof.
  intros (n & e & Hn & He). unfold write_one. rewrite Hn, He. fold (may_replace p row). cbn [store_add logged_store lg_key lg_ops].
  assert (forall o ops why, asks row n e o ops why -> row_asks row o ops why) as Hrow by (intros o ops why Ha; by exists n, e).
  destruct (store_add n e (r_touch row) s) as [[[]|[| |m]] s1].
  - eexists. split; [done|]. apply Hrow. destruct (is_replace (r_verdict row)) eqn:Hr; by constructor.
  - destruct (may_replace p row) eqn:Hm; cbn [negb]; [|eexists; split; [done|]; apply Hrow; by constructor].
    cbn [store_delete logged_store lg_key lg_ops]. destruct (store_delete n s1) as [[[]|x] s2].
    + cbn [store_add logged_store lg_key lg_ops]. destruct (store_add n e (r_touch row) s2) as [[[]|x] s3];
        (eexists; split; [by rewrite <- !app_assoc|]; apply Hrow; by constructor).
    + eexists. split; [by rewrite <- !app_assoc|]. apply Hrow. by constructor.
  - eexists. split; [done|]. apply Hrow. constructor.
  - eexists. split; [done|]. apply Hrow. constructor.
Qed.

Lemma run_rows_halted {K} `{CodeStore K} rows st (k : K) :
  exists out, run_rows file p rows (Some st) k = (out, Some st, k) /\ length out = length rows /\
    (forall (K' : Type) (HK : CodeStore K') (k' : K'), run_rows file p rows (Some st) k' = (out, Some st, k')).
Proof.
  induction rows as [|row rows (out & He & Hl & Hall)]; [by exists []|]. cbn [run_rows]. rewrite He. eexists. split; [done|].
  split; [cbn; by f_equal|]. intros K' HK k'. by rewrite Hall.
Qed.

Lemma run_rows_asks rows s log :
  Forall (row_ready file) rows ->
  let '(out, stop, s') := run_rows file p rows None s in
  exists ops, run_rows file p rows None (mkLogged s log) = (out, stop, mkLogged s' (log ++ ops)) /\
    run_asks rows (snd <$> out) ops (stop_reason <$> stop).
Proof.
  intros Hr. revert s log. induction Hr as [|row rows Hrow Hr IH]; intros s log; cbn [run_rows].
  { exists []. split; [by rewrite app_nil_r|constructor]. }
  pose proof (write_one_asks row s log Hrow) as Hw. destruct (write_one file p row s) as [[o stop] s1].
  destruct Hw as (ops & -> & Hops). destruct stop as [st|].
  - destruct (run_rows_halted rows st s1) as (out & -> & Hlen & Hall). rewrite Hall. exists ops. split; [done|].
    cbn [fmap list_fmap snd]. apply asks_stop; [done|]. by rewrite length_fmap.
  - specialize (IH s1 (log ++ ops)). destruct (run_rows file p rows None s1) as [[out stop] s2].
    destruct IH as (ops' & -> & Hrun). exists (ops ++ ops'). rewrite app_assoc. split; [done|]. by apply asks_go.
Qed.
End asked.

(** The rows of a plan, touch choices made, are ready to be written. *)
Lemma find_item items i :
  NoDup (i_index <$> items) -> i ∈ items ->
  find_map (fun j => if i_index j =? i_index i then Some j else None) items = Some i.
Proof.
  induction items as [|j items IH]; intros Hd Hi; [by apply elem_of_nil in Hi|]. cbn [find_map fmap list_fmap] in *.
  apply list.NoDup_cons in Hd as [Hj Hd]. apply elem_of_cons in Hi as [->|Hi]; [by rewrite Z.eqb_refl|].
  destruct (i_index j =? i_index i) eqn:He; [|by apply IH]. bools. contradict Hj. rewrite He. by apply list_elem_of_fmap_2.
Qed.

Lemma stop_shape_ok os why : stop_shape os why -> forallb went_through os = true <-> why = None.
Proof. induction 1 as [|o os why Ho Hs IH|o os why Ho]; cbn [forallb]; [done| |]; by rewrite Ho. Qed.

(** The entry a row writes, and why it may. *)
Definition planned_entry (file : ImportFile) (target : Target) (row : PlanRow) (n : StoredName) (e : ImportEntry) : Prop :=
  r_name row = Some n /\ row_entry file row = Some e /\
  check_params e (t_store target) (limits (t_store target)) = Ok tt /\ named target e n.

Section planned.
Context (file : ImportFile) (target : Target) (wants : PlanRow -> bool).
Context (H0 : 0 <= t_first_slot target) (Hidx : NoDup (i_index <$> f_items file)).
#[local] Notation p := (set_touch (plan file target) wants).

Lemma set_touch_writes :
  plan_writes p = (fun r => mkRow (r_index r) (r_label r) (r_name r) (r_verdict r) (takes_touch (t_store target) && row_writes r && wants r)) <$>
    plan_writes (plan file target).
Proof.
  unfold plan_writes, set_touch. cbn [pl_rows]. change (pl_store (plan file target)) with (t_store target).
  induction (pl_rows (plan file target)) as [|r rows IH]; [done|]. cbn [fmap list_fmap]. rewrite !filter_cons.
  unfold row_writes at 1. cbn [r_verdict]. fold (row_writes r). destruct (decide (row_writes r = true)); [|done].
  cbn [fmap list_fmap]. f_equal. apply IH.
Qed.

Lemma writes_kept rows : omap r_name (filter (fun r => row_writes r = true) rows) `sublist_of` omap kept_name rows.
Proof.
  induction rows as [|r rows IH]; [constructor|]. rewrite filter_cons. destruct (decide _) as [Hw|Hw]; cbn [omap list_omap].
  - assert (kept_name r = r_name r) as -> by (unfold row_writes, kept_name in *; by destruct (r_verdict r)).
    destruct (r_name r); [by apply sublist_skip|done].
  - destruct (kept_name r); [by apply sublist_cons|done].
Qed.

Lemma planned_names : NoDup (omap r_name (plan_writes p)).
Proof.
  assert (forall f (rows : list PlanRow), (forall r, r_name (f r) = r_name r) -> omap r_name (f <$> rows) = omap r_name rows) as Hmap.
  { intros f rows Hf. induction rows as [|r rows IH]; [done|]. cbn [fmap list_fmap omap list_omap] in *. by rewrite Hf, IH. }
  rewrite set_touch_writes, Hmap by done. eapply sublist_NoDup; [|apply writes_kept]. by apply plan_rows_ok.
Qed.

Lemma planned_ready :
  Forall (fun row => exists n e, planned_entry file target row n e) (plan_writes p).
Proof.
  rewrite set_touch_writes, Forall_fmap. apply list.Forall_forall. intros r Hr. apply list_elem_of_filter in Hr as [Hw Hr].
  destruct (plan_rows_ok file target H0) as [Hrows _].
  destruct (rows_of_row _ _ _ _ _ _ Hrows Hr) as (i & prev & Hi & Hx & _ & _ & Hv).
  destruct (row_verdict_writes _ _ _ _ _ _ _ Hv Hw) as (e & n & Hname & He & Hc & Hn). exists n, e. split; [done|]. split; [|done].
  unfold row_entry. cbn [r_index]. rewrite Hx, find_item; [cbn; by rewrite He|done..].
Qed.
End planned.

(** * Properties *)

(** C1: the import's report is true. Whatever the file, the choices and the key,
    as long as the key keeps the promises of [StoreLaws], a run reports one row
    per planned write, in order, and each row says what the key then holds: a
    row added or replaced is on the key with the planned entry and touch, a row
    already there, without room or not tried left the code of that name alone,
    and a code was removed or replaced only where the plan may replace. Codes the
    plan does not write are untouched. The report also says what was asked of the
    key: a row is "added" after one accepted add and nothing else, it failed
    with the words of the operation the key refused, a code is deleted only after
    the key refused its name as taken and the plan may replace, and a row that
    did not go through is the last to ask anything. That row ends the run, with
    its message: what comes after is reported as not tried (or without room), and
    the report is good exactly when nothing stopped the run. *)
Theorem import_report_true {S : Type} `{StoreLaws S} (file : ImportFile) (target : Target) (wants : PlanRow -> bool) (s : S) :
  0 <= t_first_slot target -> NoDup (i_index <$> f_items file) ->
  let p := set_touch (plan file target) wants in
  let '(r, s') := run file p s in
  Forall (fun row => exists n e, planned_entry file target row n e) (plan_writes p) /\
  Forall2 (reported file p (holds s) (holds s')) (plan_writes p) (rp_rows r) /\
  (forall m, m ∉ omap r_name (plan_writes p) -> holds s' m = holds s m) /\
  (exists ops, run file p (mkLogged s []) = (r, mkLogged s' ops) /\
     run_asks file p (plan_writes p) (snd <$> rp_rows r) ops (rp_stopped r)) /\
  stop_shape (snd <$> rp_rows r) (rp_stopped r) /\
  (report_ok r = true <-> rp_stopped r = None).
Proof.
  intros Hslot Hidx p. pose proof (planned_ready file target wants Hslot Hidx) as Hready. fold p in Hready.
  assert (Forall (row_ready file) (plan_writes p)) as Hr.
  { eapply list.Forall_impl; [exact Hready|]. intros row (n & e & Hn & He & _). by exists n, e. }
  pose proof (run_rows_ok file p (plan_writes p) s Hr (planned_names file target wants Hslot)) as Hrun.
  pose proof (run_rows_asks file p (plan_writes p) s [] Hr) as Hasks.
  unfold run. rewrite !run_fold. destruct (run_rows file p (plan_writes p) None s) as [[out stop] s'].
  destruct Hrun as (Hrows & Hfr & Hshape). destruct Hasks as (ops & -> & Hasks). cbn [rp_rows rp_stopped].
  split; [done|]. split; [done|]. split; [done|]. split; [by exists ops|]. split; [done|].
  rewrite <- (stop_shape_ok _ _ Hshape). unfold report_ok. cbn [rp_rows app].
  enough (forallb went_through (snd <$> out) = forallb (fun x => went_through x.2) out) as -> by done.
  clear. induction out as [|x out IH]; [done|]. cbn in *. by rewrite IH.
Qed.

(** ** A key that keeps the promises *)

(** A key with room for some codes, which may refuse a name it has, or answer
    with an error for some names. *)
Record RefKey := mkKey { k_codes : list (StoredName * (ImportEntry * bool)); k_refuses : bool; k_room : Z; k_broken : list StoredName }.
Definition key_find (codes : list (StoredName * (ImportEntry * bool))) : Holding :=
  fun n => find_map (fun c => if bool_decide (c.1 = n) then Some c.2 else None) codes.
Definition key_without (codes : list (StoredName * (ImportEntry * bool))) (n : StoredName) : list (StoredName * (ImportEntry * bool)) :=
  List.filter (fun c => negb (bool_decide (c.1 = n))) codes.
Definition set_codes (codes : list (StoredName * (ImportEntry * bool))) (k : RefKey) : RefKey :=
  mkKey codes (k_refuses k) (k_room k) (k_broken k).

#[export] Instance ref_store : CodeStore RefKey := {
  store_add n e t k :=
    if bool_decide (n ∈ k_broken k) then (Err (SFailed (s2b "the key refused it (status 6F00)")), k)
    else match key_find (k_codes k) n with
         | Some _ => if k_refuses k then (Err SExists, k) else (Ok tt, set_codes ((n, (e, t)) :: key_without (k_codes k) n) k)
         | None => if k_room k <=? zlen (k_codes k) then (Err SFull, k) else (Ok tt, set_codes ((n, (e, t)) :: k_codes k) k)
         end;
  store_delete n k := (Ok tt, set_codes (key_without (k_codes k) n) k)
}.

Lemma key_find_without codes n m : key_find (key_without codes n) m = if bool_decide (m = n) then None else key_find codes m.
Proof.
  unfold key_find, key_without. induction codes as [|[c x] codes IH]; cbn; [by case_bool_decide|].
  destruct (decide (c = n)) as [->|Hc]; [rewrite (bool_decide_eq_true_2 (n = n)) by done|rewrite (bool_decide_eq_false_2 (c = n)) by done];
    cbn [negb find_map fst snd]; rewrite IH; case_bool_decide as Hm; try done.
  - by rewrite bool_decide_eq_false_2 by done.
  - subst. by rewrite bool_decide_eq_false_2.
Qed.

Lemma key_find_cons codes n x m : key_find ((n, x) :: codes) m = if bool_decide (m = n) then Some x else key_find codes m.
Proof.
  unfold key_find. cbn [find_map fst snd]. destruct (decide (m = n)) as [->|]; [by rewrite !bool_decide_eq_true_2|].
  by rewrite !bool_decide_eq_false_2.
Qed.

Lemma ref_add n e t k :
  let '(r, k') := store_add n e t k in
  match r with
  | Ok _ => forall m, key_find (k_codes k') m = if bool_decide (m = n) then Some (e, t) else key_find (k_codes k) m
  | Err x => k' = k /\ (x = SExists -> key_find (k_codes k) n <> None)
  end.
Proof.
  cbn [store_add ref_store]. destruct (bool_decide (n ∈ k_broken k)); [done|]. destruct (key_find (k_codes k) n) eqn:Hn.
  - destruct (k_refuses k); [done|]. intros m. cbn [k_codes set_codes].
    rewrite key_find_cons, key_find_without. by case_bool_decide.
  - destruct (k_room k <=? _); [done|]. intros m. cbn [k_codes set_codes]. apply key_find_cons.
Qed.

#[export] Instance ref_laws : StoreLaws RefKey.
Proof.
  refine {| holds := fun k => key_find (k_codes k) |}.
  - intros n e t k m Hm. pose proof (ref_add n e t k) as Ha. destruct (store_add n e t k) as [[[]|x] k']; cbn [snd].
    + by rewrite Ha, bool_decide_eq_false_2.
    + by destruct Ha as [-> _].
  - intros n e t k. pose proof (ref_add n e t k) as Ha. destruct (store_add n e t k) as [[[]|x] k']; cbn [fst snd]; [|done].
    intros _. by rewrite Ha, bool_decide_eq_true_2.
  - intros n e t k. pose proof (ref_add n e t k) as Ha. destruct (store_add n e t k) as [[[]|x] k']; cbn [fst snd]; [done|].
    by destruct Ha as [-> _].
  - intros n e t k. pose proof (ref_add n e t k) as Ha. destruct (store_add n e t k) as [[[]|x] k']; cbn [fst snd]; [done|].
    destruct Ha as [-> Hx]. intros [= ->]. auto.
  - intros n k m Hm. cbn [store_delete ref_store snd k_codes set_codes]. by rewrite key_find_without, bool_decide_eq_false_2.
  - intros n k _. cbn [store_delete ref_store snd k_codes set_codes]. by rewrite key_find_without, bool_decide_eq_true_2.
Defined.

Definition run_key : RefKey :=
  mkKey [(NOath (s2b "Acme:alice"), (run_entry (s2b "Acme") (s2b "alice") (Hotp 3), false))] true 8 [].

Lemma import_report_true_witness :
  let p := set_touch (plan run_file run_target) (fun _ => true) in
  let '(r, s') := run run_file p run_key in
  Forall (fun row => exists n e, planned_entry run_file run_target row n e) (plan_writes p) /\
  Forall2 (reported run_file p (holds run_key) (holds s')) (plan_writes p) (rp_rows r) /\
  (forall m, m ∉ omap r_name (plan_writes p) -> holds s' m = holds run_key m) /\
  (exists ops, run run_file p (mkLogged run_key []) = (r, mkLogged s' ops) /\
     run_asks run_file p (plan_writes p) (snd <$> rp_rows r) ops (rp_stopped r)) /\
  stop_shape (snd <$> rp_rows r) (rp_stopped r) /\
  (report_ok r = true <-> rp_stopped r = None).
Proof.
  apply (import_report_true run_file run_target (fun _ => true) run_key); [vm_compute; discriminate|].
  apply (bool_decide_eq_true_1 _). vm_compute. reflexivity.
Defined.

(** The refused duplicate is removed and stored again; the new code follows. *)
Example run_key_report :
  let '(r, k) := run run_file (set_touch (plan run_file run_target) (fun _ => true)) run_key in
  (snd <$> rp_rows r) = [Replaced; Added] /\ rp_stopped r = None /\
  holds k (NOath (s2b "Acme:alice")) = Some (run_entry (s2b "Acme") (s2b "alice") (Totp 30), true) /\
  summary r (plan run_file run_target) = s2b "Added 1, replaced 1; 0 left as is, 1 skipped.".
Proof. vm_compute. done. Qed.
