(* ===== verification/ImportStore.v ===== *)
(** keyroost-transport/src/import.rs: the OATH and Molto2 sides of an import, as
    instances of the import's [CodeStore], over the commands they need. *)
From S2P Require CtapHid.
From S2P Require Import Molto OathSession.
From S2P Require Export Run.

(** * The session errors, as text *)

Definition parse_error_text (e : ParseError) : list Z :=
  match e with
  | Oath.Truncated => s2b "TLV truncated: length exceeds buffer"
  | BadPrefix b => s2b "unknown OATH type/algorithm prefix 0x" ++ CtapHid.hex_lower b
  | InvalidUtf8 => s2b "credential name is not valid UTF-8"
  | BadTruncatedResponse => s2b "malformed TRUNCATED_RESPONSE TLV"
  | MissingTag t => s2b "expected TLV tag 0x" ++ CtapHid.hex_lower t ++ s2b " not present"
  end.

Definition transport_error_text {C} `{PcscCard C} (e : TransportError (PcscError C)) : list Z :=
  match e with
  | TPcscUnavailable e =>
      s2b "PC/SC service is unavailable (" ++ pcsc_text e ++ s2b "). Make sure the smart-card service is running (pcscd on Linux; built in on macOS; the Smart Card service on Windows)."
  | TPcsc e => s2b "PC/SC error: " ++ pcsc_text e
  | TApdu label sw1 sw2 =>
      s2b "device rejected " ++ label ++ s2b ": SW=" ++ hex_upper sw1 ++ hex_upper sw2 ++
      match iso_sw_description sw1 sw2 with Some desc => s2b " (" ++ desc ++ s2b ")" | None => [] end
  | TShortResponse label got expected_min =>
      label ++ s2b ": response too short (" ++ dec got ++ s2b " bytes, expected at least " ++ dec expected_min ++ s2b ")"
  | TMalformedResponse s => s2b "malformed response: " ++ s
  | TOathParse e => s2b "OATH response parse error: " ++ parse_error_text e
  | TOathPasswordRejected => s2b "OATH applet rejected the password (wrong password)"
  | THostRngFailed => s2b "the host OS random-number source failed"
  | TOathCredentialTooLong => s2b "OATH credential name/secret is too long for the card (name + secret must fit a 255-byte command)"
  | TOathNoTouch action =>
      s2b "the key would not " ++ action ++ s2b " (SW=6982); it may want a touch: try again and touch the key when it blinks"
  | TPanic => []
  end.

(** * OATH *)

Inductive OathAnswer := AOk | AExists | AFull | ANeedsAuth | AOther (sw : Z).
#[export] Instance OathAnswer_eq_dec : EqDecision OathAnswer.
Proof. solve_decision. Defined.

Definition oath_delete_answer (sw : Z) : OathAnswer :=
  if sw =? SW_OK then AOk
  else if sw =? 0x6A84 then AFull
  else if (sw =? 0x6982) || (sw =? 0x6985) then ANeedsAuth
  else AOther sw.
Definition oath_put_answer (sw : Z) : OathAnswer := if sw =? 0x6983 then AExists else oath_delete_answer sw.

Definition oath_stored_name (name : StoredName) : result StoreError (list Z) :=
  match name with NOath n => Ok n | _ => Err (SFailed (s2b "this entry has no OATH name to store it under")) end.

Definition oath_algorithm (h : HashAlg) : Algorithm :=
  match h with ImportEntry.Sha1 => Oath.Sha1 | ImportEntry.Sha256 => Oath.Sha256 | ImportEntry.Sha512 => Oath.Sha512 end.

Definition put_params (name : list Z) (e : ImportEntry) (touch : bool) : result StoreError PutParams :=
  '(t, imf) ← match e_kind e with
              | ImportEntry.Totp _ => Ok (Oath.Totp, 0)
              | ImportEntry.Hotp counter =>
                  if counter <? 2 ^ 32 then Ok (Oath.Hotp, counter)
                  else Err (SFailed (s2b "the counter doesn't fit this key's 32 bits"))
              end;
  Ok (mkPut name (e_secret e) t (oath_algorithm (e_hash e)) (e_digits e) touch imf).

(** The three commands an import needs. *)
Class OathIo (S E : Type) := {
  oio_put : PutParams -> io S E Z;
  oio_delete : list Z -> io S E Z;
  oio_reauth : io S E bool;
  oio_too_long : E -> bool;
  oio_text : E -> list Z
}.

Section oath_io.
Context {S E : Type} `{OathIo S E}.

Definition oath_transport_failed (e : E) : StoreError :=
  if oio_too_long e then SFailed (s2b "name and seed are too long for one command") else SFailed (oio_text e).

Definition oath_with_reauth (hint : list Z) (send : io S E Z) (answer : Z -> OathAnswer) : io S StoreError unit :=
  sw ← io_map_err oath_transport_failed send;
  a ← (if bool_decide (answer sw = ANeedsAuth) then
         proven ← io_map_err oath_transport_failed oio_reauth;
         if negb proven then lift (Err (SFailed (s2b "this key's authenticator storage is password-protected; " ++ hint)))
         else sw ← io_map_err oath_transport_failed send; mret (answer sw)
       else mret (answer sw));
  lift match a with
       | AOk => Ok tt
       | AExists => Err SExists
       | AFull => Err SFull
       | ANeedsAuth => Err (SFailed (s2b "the key asked for its OATH password again and refused it"))
       | AOther sw => Err (SFailed (s2b "the key refused it (status " ++ hex_upper (sw / 256) ++ hex_upper (sw mod 256) ++ s2b ")"))
       end.

Definition oath_add (family : OathFamily) (hint : list Z) (name : StoredName) (e : ImportEntry) (touch : bool) : io S StoreError unit :=
  n ← lift (oath_stored_name name);
  match name_refusal family n with
  | Some refusal => lift (Err (SFailed refusal))
  | None =>
      params ← lift (put_params n e touch);
      oath_with_reauth hint (oio_put params) oath_put_answer
  end.

Definition oath_delete (hint : list Z) (name : StoredName) : io S StoreError unit :=
  n ← lift (oath_stored_name name);
  oath_with_reauth hint (oio_delete n) oath_delete_answer.
End oath_io.

(** ** The store over a session *)

#[export] Instance session_oath_io {C} `{PcscCard C} : OathIo (OathSession C) (TransportError (PcscError C)) := {
  oio_put := put_status;
  oio_delete := delete_status;
  oio_reauth := reauthenticate;
  oio_too_long e := match e with TOathCredentialTooLong => true | _ => false end;
  oio_text := transport_error_text
}.

(** [is_touch_wait] is what the front end was told, when it asked to be. *)
Record OathImportStore (C : Type) := mkOathStore {
  is_session : OathSession C; is_family : OathFamily; is_hint : list Z; is_touch_wait : option (list bool)
}.
Arguments mkOathStore {C} _ _ _ _.
Arguments is_session {C} _.
Arguments is_family {C} _.
Arguments is_hint {C} _.
Arguments is_touch_wait {C} _.

Definition DEFAULT_PASSWORD_HINT : list Z := s2b "unlock it with its password first".

Section oath_store.
Context {C : Type} `{PcscCard C}.

Definition oath_store_new (session : OathSession C) (family : OathFamily) : OathImportStore C :=
  mkOathStore session family DEFAULT_PASSWORD_HINT None.
Definition touch_wait (s : OathImportStore C) : OathImportStore C :=
  mkOathStore (is_session s) (is_family s) (is_hint s) (Some []).
Definition set_password_hint (hint : list Z) (s : OathImportStore C) : OathImportStore C :=
  mkOathStore (is_session s) (is_family s) hint (is_touch_wait s).

Definition waiting_for_touch {A} (asks : bool) (f : io (OathSession C) StoreError A) : io (OathImportStore C) StoreError A := fun s =>
  let '(r, session) := f (is_session s) in
  (r, mkOathStore session (is_family s) (is_hint s)
        (if asks then (fun told => told ++ [true; false]) <$> is_touch_wait s else is_touch_wait s)).

#[export] Instance oath_store : CodeStore (OathImportStore C) := {
  store_add name e touch s :=
    waiting_for_touch (touch && asks_touch_to_save_touch (s_info (is_session s)))
      (oath_add (is_family s) (is_hint s) name e touch) s;
  store_delete name s :=
    waiting_for_touch (asks_touch_to_delete (s_info (is_session s))) (oath_delete (is_hint s) name) s
}.

Definition read_oath_existing : io (OathSession C) (TransportError (PcscError C)) Existing :=
  listing ← session_list;
  mret (mkExisting ((fun c => NOath (c_name c)) <$> credentials listing) (skipped listing)).
End oath_store.

(** * Molto2 *)

(** The three slot writes. *)
Class MoltoIo (S E : Type) := {
  mio_set_seed : Z -> list Z -> io S E unit;
  mio_set_title : Z -> list Z -> io S E unit;
  mio_set_config : Z -> ProfileConfig -> io S E unit;
  mio_text : E -> list Z
}.

Record MoltoWrite := mkMoltoWrite { mw_slot : Z; mw_title : list Z; mw_config : ProfileConfig }.

Definition molto_write (name : StoredName) (e : ImportEntry) (timeout : DisplayTimeout) (utc : Z) : result StoreError MoltoWrite :=
  let unsupported what := SFailed (s2b "Molto2 doesn't take " ++ what) in
  match name with
  | NMolto2 slot title =>
      if bool_decide (title = []) || (12 <? zlen title) then Err (SFailed (s2b "the title must be 1 to 12 bytes"))
      else if bool_decide (e_secret e = []) || (63 <? zlen (e_secret e)) then
        Err (unsupported (s2b "a " ++ dec (zlen (e_secret e)) ++ s2b "-byte seed"))
      else
        algorithm ← match e_hash e with
                    | ImportEntry.Sha1 => Ok HmacSha1
                    | ImportEntry.Sha256 => Ok HmacSha256
                    | ImportEntry.Sha512 => Err (unsupported (s2b "SHA-512 codes"))
                    end;
        digits ← (if e_digits e =? 4 then Ok Four else if e_digits e =? 6 then Ok Six else if e_digits e =? 8 then Ok Eight
                  else if e_digits e =? 10 then Ok Ten else Err (unsupported (dec (e_digits e) ++ s2b "-digit codes")));
        step ← match e_kind e with
               | ImportEntry.Totp period =>
                   if period =? 30 then Ok Seconds30 else if period =? 60 then Ok Seconds60
                   else Err (unsupported (s2b "a " ++ dec period ++ s2b " s period"))
               | ImportEntry.Hotp _ => Err (unsupported (s2b "counter-based (HOTP) codes"))
               end;
        Ok (mkMoltoWrite slot title (mkConfig timeout algorithm digits step utc))
  | _ => Err (SFailed (s2b "this entry has no Molto2 slot to store it in"))
  end.

Section molto_io.
Context {S E : Type} `{MoltoIo S E}.

Definition molto_add (now : Z) (timeout : DisplayTimeout) (name : StoredName) (e : ImportEntry) : io S StoreError unit :=
  w ← lift (molto_write name e timeout 0);
  let failed err := SFailed (mio_text err) in
  _ ← io_map_err failed (mio_set_seed (mw_slot w) (e_secret e));
  _ ← io_map_err failed (mio_set_title (mw_slot w) (mw_title w));
  let c := mw_config w in
  io_map_err failed (mio_set_config (mw_slot w) (mkConfig (display_timeout c) (algorithm c) (digits c) (time_step c) now)).

(** [ms_clock n] is what the clock reads in the [n]th add. *)
Record MoltoImportStore := mkMoltoStore { ms_session : S; ms_timeout : DisplayTimeout; ms_clock : nat -> Z; ms_calls : nat }.

#[export] Instance molto_store : CodeStore MoltoImportStore := {
  store_add name e _ s :=
    let '(r, session) := molto_add (ms_clock s (ms_calls s)) (ms_timeout s) name e (ms_session s) in
    (r, mkMoltoStore session (ms_timeout s) (ms_clock s) (Datatypes.S (ms_calls s)));
  store_delete _ s := (Err (SFailed (s2b "not supported")), s)
}.
End molto_io.

(** Seconds since 1970, 0 before it, capped past 2106. *)
Definition unix_now_u32 (seconds : option Z) : Z :=
  match seconds with Some s => if s <? 2 ^ 32 then s else 2 ^ 32 - 1 | None => 0 end.

Fixpoint used_slots (slot : Z) (meta : list ProfilePublicData) : list StoredName :=
  match meta with
  | [] => []
  | m :: meta =>
      let title := default [] (pd_title m) in
      (if pd_seed_present m || negb (bool_decide (title = [])) then [NMolto2 (cast 8 slot) title] else []) ++ used_slots (slot + 1) meta
  end.
Definition molto_existing (meta : list ProfilePublicData) : Existing := mkExisting (used_slots 0 meta) 0.

(** Reads slots 0 to 99, stopping at the first that fails. *)
Fixpoint read_slots {S E} (read : Z -> io S E ProfilePublicData) (slots : list Z) : io S E (list ProfilePublicData) :=
  match slots with
  | [] => mret []
  | slot :: slots => m ← read slot; rest ← read_slots read slots; mret (m :: rest)
  end.
Definition molto_existing_by {S E} (read : Z -> io S E ProfilePublicData) : io S E Existing :=
  meta ← read_slots read (seqZ 0 100);
  mret (molto_existing meta).

(** * Properties *)

(** ** What the plan lets through is what the key takes *)

Definition entry_bytes (i : ImportItem) : Prop :=
  match i_entry i with
  | Ok e => entry_ok e /\ Bytes (e_secret e) /\ Bytes (default [] (e_issuer e)) /\ Bytes (default [] (e_account e)) /\
      match e_kind e with ImportEntry.Hotp c => 0 <= c | _ => True end
  | Err _ => True
  end.

Lemma row_entry_bytes file row e : Forall entry_bytes (f_items file) -> row_entry file row = Some e ->
  exists i, i_entry i = Ok e /\ entry_bytes i.
Proof.
  unfold row_entry. intros Hf. induction Hf as [|i items Hi Hf IH]; [done|]. cbn [find_map].
  destruct (i_index i =? r_index row); [|done]. cbn. destruct (i_entry i) eqn:He; [|done]. intros [= <-]. by exists i.
Qed.

Definition imf_of (e : ImportEntry) : Z := match e_kind e with ImportEntry.Hotp c => c | ImportEntry.Totp _ => 0 end.
Definition put_of (n : list Z) (e : ImportEntry) (touch : bool) : PutParams :=
  mkPut n (e_secret e) (oath_type (e_kind e)) (oath_algorithm (e_hash e)) (e_digits e) touch (imf_of e).

Lemma put_params_eq n e touch :
  match e_kind e with ImportEntry.Hotp c => c <= 2 ^ 32 - 1 | _ => True end -> put_params n e touch = Ok (put_of n e touch).
Proof.
  unfold put_params, put_of, imf_of. destruct (e_kind e) as [p|c]; [done|]. intros Hc. by rewrite (proj2 (Z.ltb_lt c _)) by lia.
Qed.

Lemma put_body_length n e touch :
  zlen n <= 255 -> 2 + Z.max 14 (zlen (e_secret e)) <= 255 ->
  zlen (put_body (put_of n e touch)) =
  2 + zlen n + 2 + 2 + Z.max (zlen (e_secret e)) 14 + (if touch then 2 else 0) + (if imf_of e =? 0 then 0 else 6).
Proof.
  intros Hn Hs. unfold put_body, put_of. cbn [p_name p_type p_algorithm p_digits p_require_touch p_imf].
  assert (forall tag v, zlen (tlv_bytes tag v) = 2 + zlen v) as Htlv by (intros tag v; unfold tlv_bytes; zlen; lia).
  rewrite !zlen_app, !Htlv, zlen_app, sent_secret_length. cbn [p_secret]. unfold MIN_HMAC_KEY_LEN.
  destruct touch, (imf_of e =? 0); rewrite ?Htlv, ?zlen_to_be; zlen; lia.
Qed.

Lemma put_ok_iff n e touch :
  zlen n <= 255 -> 2 + Z.max 14 (zlen (e_secret e)) <= 255 ->
  put (put_of n e touch) =
    if 255 <? zlen (put_body (put_of n e touch)) then Err (BodyTooLong (zlen (put_body (put_of n e touch))))
    else Ok ([0x00; 0x01; 0x00; 0x00; zlen (put_body (put_of n e touch))] ++ put_body (put_of n e touch)).
Proof.
  intros Hn Hs. rewrite put_spec. cbn [p_name p_secret put_of].
  rewrite (proj2 (Z.ltb_ge 255 (zlen n))), (proj2 (Z.ltb_ge 255 (2 + _))) by lia. done.
Qed.

Lemma named_oath target family n e :
  t_store target = SOath family -> named target e n ->
  exists name, n = NOath name /\ oath_name e family = Ok name /\
    2 + zlen name + 2 + 2 + Z.max (zlen (e_secret e)) 14 + (if imf_of e =? 0 then 0 else 6) <= 255.
Proof.
  unfold named. intros ->. rewrite bool_decide_eq_false_2 by done. unfold name_for. intros H. do 2 inv_bind H.
  match type of H with (if negb ?c then _ else _) = _ => destruct c eqn:Hf; cbn [negb] in H; [|done] end.
  injection H as <-. exists a. split; [done|]. split; [done|]. unfold oath_put_fits in Hf. bools. unfold imf_of.
  destruct (e_kind e) as [p|c]; cbn in *; [lia|]. by destruct (c =? 0).
Qed.

(** C3: an account the plan lets through is the account the applet stores. For
    every row an OATH plan writes, the PUT of its name and entry is built without
    fail when no touch is asked for, the applet reading it stores that name, kind,
    hash, number of digits, counter and touch flag, and a key that computes the
    same codes (stated with HMAC-SHA-1: a short key is filled up with zero bytes,
    as HMAC itself does); and when a touch is asked for, the PUT is built exactly
    when two more bytes fit, which the plan does not check. *)
Theorem import_oath_delivered (file : ImportFile) (target : Target) (family : OathFamily) (wants : PlanRow -> bool) (row : PlanRow) :
  t_store target = SOath family -> 0 <= t_first_slot target -> NoDup (i_index <$> f_items file) ->
  Forall entry_bytes (f_items file) -> row ∈ plan_writes (set_touch (plan file target) wants) ->
  exists name e, r_name row = Some (NOath name) /\ row_entry file row = Some e /\
    let params := put_of name e (r_touch row) in
    put_params name e (r_touch row) = Ok params /\
    (r_touch row = false -> is_ok (put params) = true) /\
    (is_ok (put params) = true <-> zlen (put_body (put_of name e false)) + (if r_touch row then 2 else 0) <= 255) /\
    (forall apdu, put params = Ok apdu ->
       card_put (drop 5 apdu) = Some (mkStored name (oath_type (e_kind e)) (oath_algorithm (e_hash e)) (e_digits e)
         (sent_secret params) (r_touch row) (imf_of e))) /\
    (forall data, hmac_sha1 (sent_secret params) data = hmac_sha1 (e_secret e) data).
Proof.
  intros Hs H0 Hidx Hfile Hrow. pose proof (planned_ready file target wants H0 Hidx) as Hready.
  rewrite list.Forall_forall in Hready. destruct (Hready row Hrow) as (n & e & Hn & He & Hc & Hnamed). clear Hready.
  destruct (named_oath target family n e Hs Hnamed) as (name & -> & _ & Hfit). exists name, e. split; [done|]. split; [done|].
  apply check_params_ok in Hc as (_ & _ & _ & Hk & _). rewrite Hs in Hk.
  destruct (row_entry_bytes file row e Hfile He) as (i & Hi & Hb). unfold entry_bytes in Hb. rewrite Hi in Hb.
  destruct Hb as ((Hlen & Hd & _) & Hsec & _ & _ & Hc0).
  assert (match e_kind e with ImportEntry.Hotp c => c <= 2 ^ 32 - 1 | _ => True end) as Hc32 by (by destruct (e_kind e), family).
  pose proof (zlen_nonneg name). pose proof (zlen_nonneg (e_secret e)).
  assert (zlen name <= 255 /\ 2 + Z.max 14 (zlen (e_secret e)) <= 255) as [Hname Hsl] by (destruct (imf_of e =? 0); lia).
  cbv zeta. split; [by apply put_params_eq|].
  assert (is_ok (put (put_of name e (r_touch row))) = true <-> zlen (put_body (put_of name e false)) + (if r_touch row then 2 else 0) <= 255) as Hok.
  { rewrite put_ok_iff, !put_body_length by done.
    destruct (255 <? _) eqn:Hx; cbn [is_ok]; bools; split; try done; destruct (r_touch row); lia. }
  split; [|split; [done|split]].
  - intros Ht. apply Hok. rewrite Ht, put_body_length by done. lia.
  - intros apdu Happ. rewrite put_ok_iff in Happ by done. destruct (255 <? _); [done|]. injection Happ as <-.
    change (card_put (put_body (put_of name e (r_touch row))) = Some (mkStored name (oath_type (e_kind e)) (oath_algorithm (e_hash e)) (e_digits e)
      (sent_secret (put_of name e (r_touch row))) (r_touch row) (imf_of e))).
    rewrite card_put_body; [done| |done|done]. split; [|split; [done|]]; cbn [put_of p_imf p_secret p_digits].
    + unfold is_word, imf_of. destruct (e_kind e); lia.
    + unfold is_byte. lia.
  - intros data. apply sent_secret_hmac.
Qed.

(** A name of 216 bytes with a 32-byte secret: planned, and stored, unless a touch
    is asked for. *)
Definition long_file : ImportFile :=
  mkFile OtpauthList [mkItem 0 [] (Ok (mkEntry (Some (s2b "Acme")) (Some (replicate 211 0x61)) (replicate 32 0x5A) ImportEntry.Sha1 6 (ImportEntry.Totp 30)))] None.
Definition long_target : Target := mkTarget (SOath OtherFamily) 0 (mkExisting [] 0) false.
Example long_row_touch :
  (fun touch => match plan_writes (set_touch (plan long_file long_target) (fun _ => touch)) with
                | [row] => match r_name row, row_entry long_file row with
                           | Some (NOath n), Some e => match put_params n e (r_touch row) with Ok pp => Some (is_ok (put pp)) | Err _ => None end
                           | _, _ => None
                           end
                | _ => None
                end) <$> [false; true] = [Some true; Some false].
Proof. vm_compute. reflexivity. Qed.

Definition planned_row : PlanRow :=
  mkRow 1 (s2b "Acme:bob") (Some (NOath (s2b "60/Acme:bob"))) VAdd true.

Lemma import_oath_delivered_witness :
  planned_row ∈ plan_writes (set_touch (plan run_file run_target) (fun _ => true)) /\
  exists name e, r_name planned_row = Some (NOath name) /\ row_entry run_file planned_row = Some e.
Proof.
  assert (planned_row ∈ plan_writes (set_touch (plan run_file run_target) (fun _ => true))) as Hrow by by_decision.
  split; [done|].
  destruct (import_oath_delivered run_file run_target (YubiKey (Some (5, 7, 1))) (fun _ => true) planned_row) as (name & e & Hn & He & _);
    [done|vm_compute; discriminate|by_decision| |done|by exists name, e].
  repeat constructor; cbn; try done; unfold is_byte; try lia; try (vm_compute; discriminate); by_decision.
Defined.

Lemma molto_title_short issuer account : zlen (molto_title issuer account) <= 12.
Proof.
  unfold molto_title. set (c := default _ _). destruct (boundary_below_spec c (Nat.min (length c) 12)) as (Hb & _ & _). zlen. lia.
Qed.
Lemma molto_title_bytes issuer account :
  Bytes (default [] issuer) -> Bytes (default [] account) -> Bytes (molto_title issuer account).
Proof. unfold molto_title. intros Hi Ha. apply Forall_take. by destruct issuer. Qed.

Lemma molto_write_ok slot title e timeout utc :
  0 < zlen title <= 12 -> 1 <= zlen (e_secret e) <= 63 -> e_hash e ∈ SHA1_256 -> molto_digits_ok (e_digits e) = true ->
  match e_kind e with ImportEntry.Totp p => p = 30 \/ p = 60 | ImportEntry.Hotp _ => False end ->
  exists w, molto_write (NMolto2 slot title) e timeout utc = Ok w /\ mw_slot w = slot /\ mw_title w = title /\
    digits_byte (digits (mw_config w)) = e_digits e /\ e_kind e = ImportEntry.Totp (step_byte (time_step (mw_config w))).
Proof.
  intros Ht Hs Hh Hd Hk. unfold molto_write.
  rewrite !bool_decide_eq_false_2 by (intros ->; zlen; lia) || (intros E; rewrite E in Hs; zlen; lia).
  rewrite (proj2 (Z.ltb_ge 12 _)), (proj2 (Z.ltb_ge 63 _)) by lia. cbn [orb].
  destruct (e_kind e) as [p|c]; [|done].
  assert (exists a, match e_hash e with
    | ImportEntry.Sha1 => Ok HmacSha1 | ImportEntry.Sha256 => Ok HmacSha256
    | ImportEntry.Sha512 => Err (SFailed (s2b "Molto2 doesn't take " ++ s2b "SHA-512 codes")) end = Ok a) as [a ->].
  { unfold SHA1_256 in Hh. rewrite !elem_of_cons, elem_of_nil in Hh. destruct Hh as [-> |[-> |[]]]; eauto. }
  cbn [mbind result_bind]. unfold molto_digits_ok in Hd.
  repeat match goal with |- context [e_digits e =? ?d] => destruct (e_digits e =? d) eqn:?; [|] end; try done.
  all: bools; cbn [mbind result_bind]; destruct Hk as [-> | ->]; cbn [Z.eqb Pos.eqb mbind result_bind];
    eexists; (split; [done|]); split_and!; try done; cbn; lia.
Qed.

(** A Molto2 plan never asks for what the token refuses. For every row a
    Molto2 plan writes, the checks before the three slot writes pass, the
    configuration sent has the entry's digits and period, and the seed and title
    commands are built and reach the device: it accepts them for that slot, and
    decrypting gives the padded secret and title. *)
Theorem import_molto_delivered (file : ImportFile) (target : Target) (row : PlanRow) (key : list Z) (timeout : DisplayTimeout) (utc : Z) :
  t_store target = Molto2 -> 0 <= t_first_slot target -> NoDup (i_index <$> f_items file) ->
  Forall entry_bytes (f_items file) -> row ∈ plan_writes (set_touch (plan file target) (fun _ => false)) ->
  exists slot title e w, r_name row = Some (NMolto2 slot title) /\ row_entry file row = Some e /\
    molto_write (NMolto2 slot title) e timeout utc = Ok w /\ mw_slot w = slot /\ mw_title w = title /\
    digits_byte (digits (mw_config w)) = e_digits e /\ e_kind e = ImportEntry.Totp (step_byte (time_step (mw_config w))) /\
    (exists c payload, set_seed key slot (e_secret e) = Some c /\ device_accept key (apdu c) = Some (0xC5, 0x01, slot, payload) /\
       ecb_decrypt (Sm4_new key) payload = pad_iso7816_minimal (e_secret e)) /\
    (exists c payload, set_title key slot title = Some c /\ device_accept key (apdu c) = Some (0xD5, 0x00, slot, payload) /\
       ecb_decrypt (Sm4_new key) payload = title ++ 0x80 :: replicate (15 - length title) 0).
Proof.
  intros Hs H0 Hidx Hfile Hrow. pose proof (planned_ready file target (fun _ => false) H0 Hidx) as Hready.
  rewrite list.Forall_forall in Hready. destruct (Hready row Hrow) as (n & e & Hn & He & Hc & Hnamed). clear Hready Hrow.
  unfold named in Hnamed. rewrite bool_decide_eq_true_2 in Hnamed by done. destruct Hnamed as (slot & -> & Htitle).
  destruct (row_entry_bytes file row e Hfile He) as (i & Hi & Hb). unfold entry_bytes in Hb. rewrite Hi in Hb.
  destruct Hb as ((Hlen & _) & Hsec & Hiss & Hacc & _).
  apply check_params_ok in Hc as (Hh & _ & Hd & Hk & Hmax). rewrite Hs in Hh, Hk, Hmax. specialize (Hd Hs). cbn in Hh, Hk, Hmax.
  pose proof (molto_title_short (e_issuer e) (e_account e)) as Hshort.
  pose proof (molto_title_bytes _ _ Hiss Hacc) as Htb. cbn in Hmax.
  set (title := molto_title _ _) in *. exists slot, title, e.
  pose proof (set_seed_spec key slot (e_secret e) Hsec) as Hseed. rewrite decide_True in Hseed by lia.
  pose proof (set_title_spec key slot title Htb) as Htit.
  assert (0 < zlen title <= 12) as Htl by (destruct title; [done|]; zlen; pose proof (zlen_nonneg title); lia).
  rewrite decide_True in Htit by done.
  destruct (molto_write_ok slot title e timeout utc) as (w & Hw & H1 & H2 & H3 & H4); [lia..|done|done|by destruct (e_kind e)|].
  by exists w.
Qed.

Definition molto_row_3 : PlanRow := mkRow 0 (s2b "Acme:alice") (Some (NMolto2 3 (s2b "Acme"))) VAdd false.
Lemma import_molto_delivered_witness :
  molto_row_3 ∈ plan_writes (set_touch (molto_plan run_file 3 (mkExisting [] 0)) (fun _ => false)) /\
  exists slot title e w, r_name molto_row_3 = Some (NMolto2 slot title) /\ row_entry run_file molto_row_3 = Some e /\
    molto_write (NMolto2 slot title) e Sec30 0 = Ok w.
Proof.
  assert (molto_row_3 ∈ plan_writes (set_touch (molto_plan run_file 3 (mkExisting [] 0)) (fun _ => false))) as Hrow by by_decision.
  split; [done|].
  destruct (import_molto_delivered run_file (mkTarget Molto2 3 (mkExisting [] 0) false) molto_row_3 (replicate 16 7) Sec30 0)
    as (slot & title & e & w & Hn & He & Hw & _); [done|vm_compute; discriminate|by_decision| |done|by exists slot, title, e, w].
  repeat constructor; cbn; try done; unfold is_byte; try lia; try (vm_compute; discriminate); by_decision.
Defined.

(** ** What the OATH adapter sends *)

(** A Solo 2 is never sent a name past its limit. *)
Lemma solo2_long_name_unsent {S E} `{OathIo S E} hint n e touch (s : S) :
  127 < zlen n -> (oath_add Solo2 hint (NOath n) e touch s).2 = s /\ is_ok (oath_add Solo2 hint (NOath n) e touch s).1 = false.
Proof.
  intros Hn. unfold oath_add, oath_stored_name, name_refusal. rewrite io_lift_bind.
  cbn [hard_name_limit mbind option_bind]. unfold SOLO2_NAME_MAX. rewrite (proj2 (Z.ltb_lt 127 _)) by done. done.
Qed.

(** The command is sent once, and once more only after the key asked for its
    password and the session proved it again. *)
Lemma oath_with_reauth_sends {S E} `{OathIo S E} hint (send : io S E Z) answer (s : S) :
  (oath_with_reauth hint send answer s).2 = (send s).2 \/
  (exists sw, (send s).1 = Ok sw /\ answer sw = ANeedsAuth) /\
  ((oath_with_reauth hint send answer s).2 = (oio_reauth (send s).2).2 \/
   (oio_reauth (send s).2).1 = Ok true /\ (oath_with_reauth hint send answer s).2 = (send (oio_reauth (send s).2).2).2).
Proof.
  unfold oath_with_reauth, mbind, io_bind, io_map_err. destruct (send s) as [[sw|err] s1] eqn:Hs; cbn [fst snd map_err]; [|by left].
  case_bool_decide as Ha; [|by left; destruct (answer sw)]. right. split; [by exists sw|].
  destruct (oio_reauth s1) as [[[]|err] s2]; cbn [fst snd map_err negb]; [|by left..].
  right. split; [done|]. destruct (send s2) as [[sw2|err] s3]; [|done]. by destruct (answer sw2).
Qed.
