(* ===== verification/PgpTlv.v ===== *)
(** keyroost-openpgp/src/lib.rs, BER-TLV: the one- and two-byte tags and the
    lengths OpenPGP card objects are made of, written, read and searched.
    Buffers are far shorter than [usize::MAX], so [checked_add] never fails and
    is written [+]. *)
From S2P Require Export Words Text.

(** * Errors *)

Inductive ParseError :=
  | Truncated
  | BadTag
  | UnexpectedLength
  | MissingTag (tag : Z)
  | UnsupportedAlgorithm.

(** [{:#06x}]: four hexadecimal digits after [0x]. *)
Definition hex_digit (d : Z) : Z := if d <? 10 then 48 + d else 87 + d.
Definition hex4 (n : Z) : list Z := s2b "0x" ++ map (fun k => hex_digit (n / 16 ^ k mod 16)) [3; 2; 1; 0].
Definition parse_error_text (e : ParseError) : list Z :=
  match e with
  | Truncated => s2b "BER-TLV truncated: length exceeds buffer"
  | BadTag => s2b "malformed BER-TLV tag"
  | UnexpectedLength => s2b "malformed or unsupported BER-TLV length"
  | MissingTag t => s2b "expected TLV tag " ++ hex4 t ++ s2b " not present"
  | UnsupportedAlgorithm => s2b "unsupported key algorithm"
  end.

(** * Writing *)

(** The bytes of [n.to_be_bytes()] from the first that is not zero. *)
Fixpoint drop_zeros (l : list Z) : list Z :=
  match l with [] => [] | b :: rest => if b =? 0 then drop_zeros rest else l end.
Definition minimal_be (n : Z) : list Z := if n =? 0 then [0x00] else drop_zeros (to_be 8 n).
Definition ber_len (len : Z) : list Z :=
  if len <? 0x80 then [cast 8 len]
  else let value := minimal_be len in Z.lor 0x80 (cast 8 (zlen value)) :: value.
Definition ber_tlv (tag : Z) (value : list Z) : list Z :=
  (if 0xFF <? tag then [Z.shiftr tag 8; Z.land tag 0xFF] else [cast 8 tag]) ++ ber_len (zlen value) ++ value.

(** * Reading *)

Record Tlv := mkTlv { t_tag : Z; t_constructed : bool; t_value : list Z }.

(** The tag or length at the start of what is left, and how many bytes it is. *)
Definition read_tag (buf : list Z) : result ParseError (Z * Z) :=
  first ← ok_or Truncated (buf !! 0%nat);
  if negb (Z.land first 0x1F =? 0x1F) then Ok (first, 1) else
  second ← ok_or Truncated (buf !! 1%nat);
  if negb (Z.land second 0x80 =? 0) then Err BadTag
  else Ok (Z.lor (Z.shiftl first 8) second, 2).
Definition read_len (buf : list Z) : result ParseError (Z * Z) :=
  first ← ok_or Truncated (buf !! 0%nat);
  if Z.land first 0x80 =? 0 then Ok (first, 1)
  else if first =? 0x81 then
    n ← ok_or Truncated (buf !! 1%nat);
    Ok (n, 2)
  else if first =? 0x82 then
    hi ← ok_or Truncated (buf !! 1%nat);
    lo ← ok_or Truncated (buf !! 2%nat);
    Ok (Z.lor (Z.shiftl hi 8) lo, 3)
  else Err UnexpectedLength.

(** One object, and what is after it. *)
Definition read_tlv (buf : list Z) : result ParseError (Tlv * list Z) :=
  '(tag, tag_len) ← read_tag buf;
  '(len, len_len) ← read_len (drop (Z.to_nat tag_len) buf);
  let start := tag_len + len_len in
  let end_ := start + len in
  if zlen buf <? end_ then Err Truncated else
  let constructed := negb (Z.land (buf !!! 0%nat) 0x20 =? 0) in
  Ok (mkTlv tag constructed (slice buf (Z.to_nat start) (Z.to_nat end_)), drop (Z.to_nat end_) buf).
(** [while i < buf.len()]: an object is two bytes at least. *)
Fixpoint parse_loop (fuel : nat) (buf : list Z) : result ParseError (list Tlv) :=
  match buf, fuel with
  | [], _ => Ok []
  | _, O => Err Truncated
  | _, S fuel =>
      '(t, rest) ← read_tlv buf;
      ts ← parse_loop fuel rest;
      Ok (t :: ts)
  end.
Definition parse_tlvs (buf : list Z) : result ParseError (list Tlv) := parse_loop (length buf) buf.

Definition find_tag (tlvs : list Tlv) (tag : Z) : option (list Z) :=
  find_map (fun t => if t_tag t =? tag then Some (t_value t) else None) tlvs.

Definition NEST_DEPTH_LIMIT : nat := 16.
(** [levels]: how many more are looked into, the limit less the depth. *)
Fixpoint find_nested_at (levels : nat) (tlvs : list Tlv) (tag : Z) : option (list Z) :=
  match levels with
  | O => None
  | S levels =>
      find_map (fun t =>
        if t_tag t =? tag then Some (t_value t)
        else if t_constructed t then children ← result_ok (parse_tlvs (t_value t)); find_nested_at levels children tag
        else None) tlvs
  end.
Definition find_nested (tlvs : list Tlv) (tag : Z) : option (list Z) := find_nested_at NEST_DEPTH_LIMIT tlvs tag.

(** * Objects as a card nests them *)

(** A primitive object, or a constructed one with what is in it. *)
Inductive Object := Leaf (tag : Z) (value : list Z) | Node (tag : Z) (children : list Object).
Definition object_tag (o : Object) : Z := match o with Leaf t _ | Node t _ => t end.
Fixpoint object_bytes (o : Object) : list Z :=
  match o with
  | Leaf t v => ber_tlv t v
  | Node t children => ber_tlv t (concat (map object_bytes children))
  end.
Definition objects_bytes (os : list Object) : list Z := concat (map object_bytes os).
Definition object_value (o : Object) : list Z := match o with Leaf _ v => v | Node _ children => objects_bytes children end.

(** A tag of one byte, or of two whose first byte says so. *)
Definition tag_ok (t : Z) : Prop :=
  (is_byte t /\ Z.land t 0x1F <> 0x1F) \/
  (exists a b, t = a * 256 + b /\ is_byte a /\ 0 <= b < 0x80 /\ Z.land a 0x1F = 0x1F).
Definition tag_constructed (t : Z) : bool := negb (Z.land (if 0xFF <? t then t / 256 else t) 0x20 =? 0).
Fixpoint object_ok (levels : nat) (o : Object) : Prop :=
  tag_ok (object_tag o) /\ zlen (object_value o) <= 0xFFFF /\ tag_constructed (object_tag o) = (match o with Node _ _ => true | Leaf _ _ => false end) /\
  match o, levels with
  | Leaf _ _, _ => True
  | Node _ children, S levels => Forall (object_ok levels) children
  | Node _ _, O => False
  end.

(** The first object with a tag, a parent before its children. *)
Fixpoint find_object (tag : Z) (o : Object) : option (list Z) :=
  if object_tag o =? tag then Some (object_value o) else match o with Leaf _ _ => None | Node _ children => find_map (find_object tag) children end.
Definition find_objects (tag : Z) (os : list Object) : option (list Z) := find_map (find_object tag) os.
Definition tlv_of (o : Object) : Tlv := mkTlv (object_tag o) (tag_constructed (object_tag o)) (object_value o).

(** * Lemmas *)

Lemma drop_zeros_be n : 0 < n < 2 ^ 64 -> exists k, (k <= 7)%nat /\ drop_zeros (to_be 8 n) = drop k (to_be 8 n).
Proof.
  intros Hn. assert (forall l, Exists (fun b => b <> 0) l -> exists k, (k < length l)%nat /\ drop_zeros l = drop k l) as Hd.
  { induction 1 as [b l Hb|b l He (k & Hk & IH)]; cbn [drop_zeros].
    - rewrite (proj2 (Z.eqb_neq _ _) Hb). by exists 0%nat; cbn; split; [lia|].
    - destruct (b =? 0); [by exists (S k); cbn; split; [lia|]|by exists 0%nat; cbn; split; [lia|]]. }
  destruct (Hd (to_be 8 n)) as (k & Hk & He); [|exists k; rewrite length_to_be in Hk; by split; [lia|]].
  apply not_Forall_Exists; [intros b; apply _|]. intros Hz. assert (from_be (to_be 8 n) = 0) as H0.
  { revert Hz. generalize (to_be 8 n) as l. intros l Hz. induction Hz as [|b l Hb Hz IH]; [done|]. rewrite from_be_cons, IH. destruct (decide (b = 0)); [lia|done]. }
  rewrite from_be_to_be_small in H0 by (unfold is_word; change (8 * Z.of_nat 8) with 64; lia). lia.
Qed.

Lemma ber_len_cases n : 0 <= n <= 0xFFFF ->
  (n < 0x80 /\ ber_len n = [n]) \/ (0x80 <= n <= 0xFF /\ ber_len n = [0x81; n]) \/ (0x100 <= n /\ ber_len n = [0x82; n / 256; n mod 256]).
Proof.
  intros Hn. unfold ber_len. destruct (n <? 0x80) eqn:E; bools; [left; split; [lia|]; by rewrite cast_small by (unfold is_word; lia)|right].
  unfold minimal_be. rewrite (proj2 (Z.eqb_neq n 0)) by lia.
  assert (to_be 8 n = [0; 0; 0; 0; 0; 0; n / 256; n mod 256]) as ->.
  { unfold to_be. cbn [to_le rev app]. assert (n / 256 / 256 = 0) as -> by lia_div. change (0 / 256) with 0. change (0 mod 256) with 0.
    by rewrite (Z.mod_small (n / 256)) by lia_div. }
  cbn [drop_zeros Z.eqb]. destruct (n / 256 =? 0) eqn:E2; bools.
  - left. assert (n <= 0xFF) by lia_div. split; [lia|]. cbn [drop_zeros]. rewrite (proj2 (Z.eqb_neq (n mod 256) 0)) by lia_div.
    rewrite Z.mod_small by lia. by vm_compute (Z.lor _ _).
  - right. split; [lia_div|]. by vm_compute (Z.lor _ _).
Qed.
Lemma ber_len_length n : 0 <= n <= 0xFFFF -> 1 <= zlen (ber_len n) <= 3.
Proof. intros Hn. destruct (ber_len_cases n Hn) as [[_ ->]|[[_ ->]|[_ ->]]]; unfold zlen; cbn; lia. Qed.

Lemma read_len_back n rest : 0 <= n <= 0xFFFF -> read_len (ber_len n ++ rest) = Ok (n, zlen (ber_len n)).
Proof.
  intros Hn. destruct (ber_len_cases n Hn) as [[H ->]|[[H ->]|[H ->]]]; unfold read_len; cbn [app lookup list_lookup ok_or mbind result_bind].
  - assert (Z.land n 0x80 = 0) as ->; [|done]. change 0x80 with (2 ^ 7). apply Z.bits_inj'. intros i Hi. rewrite Z.land_spec, Z.bits_0, Z.pow2_bits_eqb by lia.
    destruct (7 =? i) eqn:E; [|by rewrite andb_false_r]. bools. subst i. rewrite andb_true_r. apply Z.testbit_false; [lia|]. by rewrite Z.div_small by lia.
  - done.
  - change (Z.land 0x82 0x80 =? 0) with false. cbv iota. change (0x82 =? 0x81) with false. change (0x82 =? 0x82) with true. cbv iota.
    rewrite lor_shiftl_add by (pose proof (Z.mod_pos_bound n 256); lia). change (2 ^ 8) with 256. do 2 f_equal. lia_div.
Qed.

Definition tag_bytes (t : Z) : list Z := if 0xFF <? t then [Z.shiftr t 8; Z.land t 0xFF] else [cast 8 t].
Lemma tag_bytes_cases t : tag_ok t ->
  (tag_bytes t = [t] /\ is_byte t /\ Z.land t 0x1F <> 0x1F) \/
  (exists a b, tag_bytes t = [a; b] /\ t = a * 256 + b /\ 0xFF < t /\ t / 256 = a /\ is_byte a /\ 0 <= b < 0x80 /\ Z.land a 0x1F = 0x1F).
Proof.
  unfold tag_ok, tag_bytes, is_byte. intros [[Hb Hl]|(a & b & -> & Ha & Hb & Hl)].
  - left. rewrite (proj2 (Z.ltb_ge _ _)) by lia. split; [|done]. by rewrite cast_small by (unfold is_word; lia).
  - right. exists a, b. assert (a <> 0) by (intros ->; done). rewrite (proj2 (Z.ltb_lt _ _)) by lia. split; [|repeat split; try lia; lia_div].
    rewrite Z.shiftr_div_pow2 by lia. change 0xFF with (2 ^ 8 - 1). rewrite land_ones_mod by lia. change (2 ^ 8) with 256. f_equal; [lia_div|f_equal; lia_div].
Qed.

Lemma read_tlv_back t v rest : tag_ok t -> zlen v <= 0xFFFF -> read_tlv (ber_tlv t v ++ rest) = Ok (mkTlv t (tag_constructed t) v, rest).
Proof.
  intros Ht Hv. pose proof (zlen_nonneg v) as Hv0. pose proof (ber_len_length (zlen v) ltac:(lia)) as Hlb. unfold ber_tlv. fold (tag_bytes t).
  assert (read_tag ((tag_bytes t ++ ber_len (zlen v) ++ v) ++ rest) = Ok (t, zlen (tag_bytes t)) /\
    negb (Z.land (((tag_bytes t ++ ber_len (zlen v) ++ v) ++ rest) !!! 0%nat) 0x20 =? 0) = tag_constructed t) as [Hrt Hc].
  { unfold tag_constructed. destruct (tag_bytes_cases t Ht) as [(-> & Hb & Hl)|(a & b & -> & Hte & Hbig & Hdiv & Ha & Hb & Hl)]; unfold read_tag; cbn [app lookup list_lookup ok_or mbind result_bind].
    - rewrite (proj2 (Z.eqb_neq _ _) Hl). split; [done|]. rewrite (proj2 (Z.ltb_ge 0xFF t)) by (unfold is_byte in Hb; lia). done.
    - rewrite Hl. change (negb (0x1F =? 0x1F)) with false. cbv iota.
      assert (Z.land b 0x80 = 0) as ->.
      { change 0x80 with (2 ^ 7). apply Z.bits_inj'. intros i Hi. rewrite Z.land_spec, Z.bits_0, Z.pow2_bits_eqb by lia.
        destruct (7 =? i) eqn:E; [|by rewrite andb_false_r]. bools. subst i. rewrite andb_true_r. apply Z.testbit_false; [lia|]. by rewrite Z.div_small by lia. }
      change (negb (0 =? 0)) with false. cbv iota. rewrite lor_shiftl_add by lia. change (2 ^ 8) with 256. split; [by rewrite <- Hte|].
      rewrite (proj2 (Z.ltb_lt 0xFF t)) by lia. by rewrite Hdiv. }
  unfold read_tlv. rewrite Hrt. cbn [mbind result_bind]. rewrite <- !app_assoc, drop_zlen, read_len_back by lia. cbn [mbind result_bind].
  rewrite (proj2 (Z.ltb_ge _ _)) by (zlen; pose proof (zlen_nonneg rest); lia). rewrite <- !app_assoc in Hc. rewrite Hc.
  assert (forall (a b c d : list Z), slice (a ++ b ++ c ++ d) (Z.to_nat (zlen a + zlen b)) (Z.to_nat (zlen a + zlen b + zlen c)) = c /\
    drop (Z.to_nat (zlen a + zlen b + zlen c)) (a ++ b ++ c ++ d) = d) as Hs.
  { intros a b c d. unfold slice. rewrite app_assoc. rewrite <- zlen_app, drop_zlen. split.
    - replace (_ - _)%nat with (Z.to_nat (zlen c)) by (pose proof (zlen_nonneg (a ++ b)); pose proof (zlen_nonneg c); lia). by rewrite take_zlen.
    - by rewrite <- zlen_app, app_assoc, drop_zlen. }
  destruct (Hs (tag_bytes t) (ber_len (zlen v)) v rest) as [-> ->]. done.
Qed.

Lemma ber_tlv_nonempty t v : (2 <= length (ber_tlv t v))%nat.
Proof.
  unfold ber_tlv. rewrite !length_app. assert (1 <= length (ber_len (zlen v)))%nat by (unfold ber_len; destruct (_ <? _); cbn; lia).
  destruct (0xFF <? t); cbn; lia.
Qed.

(** A sequence of objects is read object by object. *)
Definition shape_ok (o : Object) : Prop := tag_ok (object_tag o) /\ zlen (object_value o) <= 0xFFFF.
Lemma object_bytes_eq o : object_bytes o = ber_tlv (object_tag o) (object_value o).
Proof. by destruct o. Qed.
Lemma parse_loop_back os fuel : Forall shape_ok os -> (length (objects_bytes os) <= fuel)%nat -> parse_loop fuel (objects_bytes os) = Ok (map tlv_of os).
Proof.
  intros Ho. revert fuel. induction Ho as [|o os [Ht Hl] Ho IH]; intros fuel Hf; [by destruct fuel|].
  unfold objects_bytes in *. cbn [map concat] in *. rewrite object_bytes_eq in *. rewrite length_app in Hf.
  pose proof (ber_tlv_nonempty (object_tag o) (object_value o)). destruct fuel as [|fuel]; [lia|].
  pose proof (read_tlv_back (object_tag o) (object_value o) (concat (map object_bytes os)) Ht Hl) as Hr.
  cbn [parse_loop]. destruct (_ ++ _) as [|b bs] eqn:E; [by apply (f_equal length) in E; rewrite length_app in E; cbn in E; lia|].
  rewrite Hr. cbn [mbind result_bind]. rewrite IH by lia. done.
Qed.
Lemma parse_tlvs_back os : Forall shape_ok os -> parse_tlvs (objects_bytes os) = Ok (map tlv_of os).
Proof. intros Ho. by apply parse_loop_back. Qed.

Lemma object_shape levels o : object_ok levels o -> shape_ok o.
Proof. destruct levels; intros (Ht & Hl & _); by split. Qed.
Lemma objects_shape levels os : Forall (object_ok levels) os -> Forall shape_ok os.
Proof. intros Ho. eapply list.Forall_impl; [exact Ho|]. apply object_shape. Qed.

Lemma find_map_map {A B C} (f : B -> option C) (g : A -> B) l : find_map f (map g l) = find_map (fun x => f (g x)) l.
Proof. induction l as [|x l IH]; [done|]. cbn. by rewrite IH. Qed.
Lemma find_map_ext {A B} (f g : A -> option B) l : Forall (fun x => f x = g x) l -> find_map f l = find_map g l.
Proof. induction 1 as [|x l Hx Hl IH]; [done|]. cbn. by rewrite Hx, IH. Qed.

(** Searching the bytes finds what is there, down to the depth the code goes. *)
Lemma find_nested_back levels tag os : Forall (object_ok levels) os ->
  find_nested_at (S levels) (map tlv_of os) tag = find_objects tag os.
Proof.
  revert os. induction levels as [|levels IH]; intros os Ho; cbn [find_nested_at]; rewrite find_map_map; apply find_map_ext;
    (eapply list.Forall_impl; [exact Ho|]); intros o Hok; cbn [tlv_of t_tag t_constructed t_value].
  - destruct Hok as (_ & _ & Hc & Hn). destruct o as [t v|t children]; [|done]. cbn [find_object object_tag object_value] in *. rewrite Hc. by destruct (_ =? _).
  - pose proof Hok as (_ & _ & Hc & Hn). destruct o as [t v|t children]; cbn [find_object object_tag object_value] in *; rewrite Hc; [by destruct (_ =? _)|].
    destruct (t =? tag); [done|]. rewrite (parse_tlvs_back children) by (by apply (objects_shape levels)). cbn [result_ok mbind option_bind]. by apply IH.
Qed.
Lemma object_ok_mono n m o : (n <= m)%nat -> object_ok n o -> object_ok m o.
Proof.
  revert m o. induction n as [|n IH]; intros m o Hm (Ht & Hl & Hc & Hn).
  - destruct m, o as [t v|t children]; done.
  - destruct m as [|m]; [lia|]. destruct o as [t v|t children]; [done|]. split; [done|]. split; [done|]. split; [done|].
    eapply list.Forall_impl; [exact Hn|]. intros o. apply IH. lia.
Qed.

Lemma find_tag_back tag os : find_tag (map tlv_of os) tag = find_map (fun o => if object_tag o =? tag then Some (object_value o) else None) os.
Proof. unfold find_tag. by rewrite find_map_map. Qed.
