(* ===== verification/PgpAlg.v ===== *)
(** keyroost-openpgp/src/lib.rs, algorithms: curves, key algorithms, the
    algorithm attributes of a slot and the manufacturers. [None] from
    [attributes] stands for the panic of its [expect]. *)
From S2P Require Export PgpTlv.

(** * Manufacturers *)

Definition AID_PREFIX : list Z := [0xD2; 0x76; 0x00; 0x01; 0x24; 0x01].
Definition MANUFACTURER_ID_YUBICO : Z := 0x0006.
Definition MANUFACTURER_ID_NITROKEY : Z := 0x000F.
Definition MANUFACTURER_ID_TOKEN2 : Z := 0x0011.
Definition may_ask_touch_to_write (manufacturer : option Z) : bool :=
  negb (bool_decide (manufacturer = Some MANUFACTURER_ID_YUBICO) || bool_decide (manufacturer = Some MANUFACTURER_ID_NITROKEY)).
Definition aid_manufacturer_id (aid : list Z) : option Z :=
  if (zlen aid <? 10) || negb (bool_decide (take 6 aid = AID_PREFIX)) then None
  else Some (from_be (slice aid 8 10)).
Definition uif_asks_touch (reply : list Z) : option bool := (fun setting => negb (setting =? 0x00)) <$> head reply.
Definition MANUFACTURERS : list (Z * list Z) :=
  [(0x0001, s2b "PPC Card Systems"); (0x0002, s2b "Prism"); (0x0003, s2b "OpenFortress"); (0x0004, s2b "Wewid");
   (0x0005, s2b "ZeitControl"); (0x0006, s2b "Yubico"); (0x0007, s2b "OpenKMS"); (0x0008, s2b "LogoEmail"); (0x0009, s2b "Fidesmo");
   (0x000A, s2b "VivoKey"); (0x000B, s2b "Feitian Technologies"); (0x000D, s2b "Dangerous Things"); (0x000E, s2b "Excelsecu");
   (0x000F, s2b "Nitrokey"); (0x0010, s2b "NeoPGP"); (MANUFACTURER_ID_TOKEN2, s2b "Token2"); (0x002A, s2b "Magrathea");
   (0x0042, s2b "GnuPG e.V."); (0x1337, s2b "Warsaw Hackerspace"); (0x2342, s2b "warpzone"); (0x4354, s2b "Confidential Technologies");
   (0x4D52, s2b "Miralium Research"); (0x5343, s2b "SSE Carte " ++ [0xC3; 0xA0] ++ s2b " puce"); (0x5443, s2b "TIF-IT e.V.");
   (0x63AF, s2b "Trustica"); (0xBA53, s2b "c-base e.V."); (0xBD0E, s2b "Paranoidlabs"); (0xCA05, s2b "Atos CardOS");
   (0xF1D0, s2b "CanoKeys"); (0xF517, s2b "FSIJ"); (0xF5EC, s2b "F-Secure")].
Definition manufacturer_name (id : Z) : option (list Z) :=
  find_map (fun m => if m.1 =? id then Some m.2 else None) MANUFACTURERS.

(** * Slots *)

Inductive KeyCrt := Sign | Decrypt | Auth.
#[export] Instance KeyCrt_eq : EqDecision KeyCrt.
Proof. solve_decision. Defined.

Definition TAG_UIF_SIG : Z := 0x00D6.
Definition TAG_UIF_DEC : Z := 0x00D7.
Definition TAG_UIF_AUT : Z := 0x00D8.
Definition CRT_TAG_SIGN : Z := 0xB6.
Definition CRT_TAG_DECRYPT : Z := 0xB8.
Definition CRT_TAG_AUTH : Z := 0xA4.
Definition TAG_FPR_SIGN : Z := 0x00C7.
Definition TAG_FPR_DEC : Z := 0x00C8.
Definition TAG_FPR_AUTH : Z := 0x00C9.
Definition TAG_TIME_SIGN : Z := 0x00CE.
Definition TAG_TIME_DEC : Z := 0x00CF.
Definition TAG_TIME_AUTH : Z := 0x00D0.
Definition TAG_ALGO_ATTR_SIG : Z := 0x00C1.
Definition TAG_ALGO_ATTR_DEC : Z := 0x00C2.
Definition TAG_ALGO_ATTR_AUT : Z := 0x00C3.
Definition by_slot {A} (sign decrypt auth : A) (crt : KeyCrt) : A := match crt with Sign => sign | Decrypt => decrypt | Auth => auth end.
Definition uif_tag : KeyCrt -> Z := by_slot TAG_UIF_SIG TAG_UIF_DEC TAG_UIF_AUT.
Definition crt_tag : KeyCrt -> Z := by_slot CRT_TAG_SIGN CRT_TAG_DECRYPT CRT_TAG_AUTH.
Definition crt_template (crt : KeyCrt) : list Z := [crt_tag crt; 0x00].
Definition fpr_tag : KeyCrt -> Z := by_slot TAG_FPR_SIGN TAG_FPR_DEC TAG_FPR_AUTH.
Definition time_tag : KeyCrt -> Z := by_slot TAG_TIME_SIGN TAG_TIME_DEC TAG_TIME_AUTH.
Definition algo_attr_tag : KeyCrt -> Z := by_slot TAG_ALGO_ATTR_SIG TAG_ALGO_ATTR_DEC TAG_ALGO_ATTR_AUT.

(** * Curves *)

Inductive Curve := Ed25519 | X25519 | NistP256 | NistP384 | NistP521 | Secp256k1 | BrainpoolP256r1 | BrainpoolP384r1 | BrainpoolP512r1.
#[export] Instance Curve_eq : EqDecision Curve.
Proof. solve_decision. Defined.
Definition Curve_ALL : list Curve := [Ed25519; X25519; NistP256; NistP384; NistP521; Secp256k1; BrainpoolP256r1; BrainpoolP384r1; BrainpoolP512r1].
Definition oid (c : Curve) : list Z :=
  match c with
  | Ed25519 => [0x2B; 0x06; 0x01; 0x04; 0x01; 0xDA; 0x47; 0x0F; 0x01]
  | X25519 => [0x2B; 0x06; 0x01; 0x04; 0x01; 0x97; 0x55; 0x01; 0x05; 0x01]
  | NistP256 => [0x2A; 0x86; 0x48; 0xCE; 0x3D; 0x03; 0x01; 0x07]
  | NistP384 => [0x2B; 0x81; 0x04; 0x00; 0x22]
  | NistP521 => [0x2B; 0x81; 0x04; 0x00; 0x23]
  | Secp256k1 => [0x2B; 0x81; 0x04; 0x00; 0x0A]
  | BrainpoolP256r1 => [0x2B; 0x24; 0x03; 0x03; 0x02; 0x08; 0x01; 0x01; 0x07]
  | BrainpoolP384r1 => [0x2B; 0x24; 0x03; 0x03; 0x02; 0x08; 0x01; 0x01; 0x0B]
  | BrainpoolP512r1 => [0x2B; 0x24; 0x03; 0x03; 0x02; 0x08; 0x01; 0x01; 0x0D]
  end.
Definition from_oid (o : list Z) : option Curve := find_map (fun c => if bool_decide (oid c = o) then Some c else None) Curve_ALL.
Definition curve_label (c : Curve) : list Z :=
  match c with
  | Ed25519 => s2b "Ed25519" | X25519 => s2b "X25519" | NistP256 => s2b "NIST P-256" | NistP384 => s2b "NIST P-384" | NistP521 => s2b "NIST P-521"
  | Secp256k1 => s2b "secp256k1" | BrainpoolP256r1 => s2b "brainpoolP256r1" | BrainpoolP384r1 => s2b "brainpoolP384r1"
  | BrainpoolP512r1 => s2b "brainpoolP512r1"
  end.
Definition curve_bits (c : Curve) : Z :=
  match c with
  | Ed25519 | X25519 => 255
  | NistP256 | Secp256k1 | BrainpoolP256r1 => 256
  | NistP384 | BrainpoolP384r1 => 384
  | NistP521 => 521
  | BrainpoolP512r1 => 512
  end.
Definition field_len (c : Curve) : Z :=
  match c with
  | Ed25519 | X25519 | NistP256 | Secp256k1 | BrainpoolP256r1 => 32
  | NistP384 | BrainpoolP384r1 => 48
  | BrainpoolP512r1 => 64
  | NistP521 => 66
  end.
Definition is_25519 (c : Curve) : bool := match c with Ed25519 | X25519 => true | _ => false end.

Inductive EccKind := Ecdh | Ecdsa | EdDsa.
#[export] Instance EccKind_eq : EqDecision EccKind.
Proof. solve_decision. Defined.
Definition kind_id (k : EccKind) : Z := match k with Ecdh => 0x12 | Ecdsa => 0x13 | EdDsa => 0x16 end.
Definition kind_from_id (id : Z) : option EccKind :=
  if id =? 0x12 then Some Ecdh else if id =? 0x13 then Some Ecdsa else if id =? 0x16 then Some EdDsa else None.
Definition kind_label (k : EccKind) : list Z := match k with Ecdh => s2b "ECDH" | Ecdsa => s2b "ECDSA" | EdDsa => s2b "EdDSA" end.

(** * Key algorithms *)

Inductive KeyAlg :=
  | ARsa2048 | ARsa3072 | ARsa4096 | AEd25519 | AX25519 | ANistP256 | ANistP384 | ANistP521 | ASecp256k1
  | ABrainpoolP256r1 | ABrainpoolP384r1 | ABrainpoolP512r1.
#[export] Instance KeyAlg_eq : EqDecision KeyAlg.
Proof. solve_decision. Defined.
Definition KeyAlg_ALL : list KeyAlg :=
  [ARsa2048; ARsa3072; ARsa4096; AEd25519; AX25519; ANistP256; ANistP384; ANistP521; ASecp256k1; ABrainpoolP256r1; ABrainpoolP384r1; ABrainpoolP512r1].

Record SlotMismatch := mkMismatch { sm_alg : KeyAlg; sm_crt : KeyCrt }.

Definition alg_curve (a : KeyAlg) : option Curve :=
  match a with
  | ARsa2048 | ARsa3072 | ARsa4096 => None
  | AEd25519 => Some Ed25519 | AX25519 => Some X25519 | ANistP256 => Some NistP256 | ANistP384 => Some NistP384 | ANistP521 => Some NistP521
  | ASecp256k1 => Some Secp256k1 | ABrainpoolP256r1 => Some BrainpoolP256r1 | ABrainpoolP384r1 => Some BrainpoolP384r1
  | ABrainpoolP512r1 => Some BrainpoolP512r1
  end.
Definition alg_label (a : KeyAlg) : list Z :=
  match a with
  | ARsa2048 => s2b "RSA-2048" | ARsa3072 => s2b "RSA-3072" | ARsa4096 => s2b "RSA-4096"
  | AEd25519 => curve_label Ed25519 | AX25519 => curve_label X25519 | ANistP256 => curve_label NistP256 | ANistP384 => curve_label NistP384
  | ANistP521 => curve_label NistP521 | ASecp256k1 => curve_label Secp256k1 | ABrainpoolP256r1 => curve_label BrainpoolP256r1
  | ABrainpoolP384r1 => curve_label BrainpoolP384r1 | ABrainpoolP512r1 => curve_label BrainpoolP512r1
  end.
Definition rsa_bits (a : KeyAlg) : option Z :=
  match a with ARsa2048 => Some 2048 | ARsa3072 => Some 3072 | ARsa4096 => Some 4096 | _ => None end.
Definition crt_debug : KeyCrt -> list Z := by_slot (s2b "Sign") (s2b "Decrypt") (s2b "Auth").
Definition mismatch_text (m : SlotMismatch) : list Z :=
  match sm_alg m with
  | AEd25519 => s2b "Ed25519 is a signing curve and cannot go in the decryption slot; use X25519 there"
  | AX25519 => s2b "X25519 is a key-agreement curve and only fits the decryption slot; use Ed25519 for signing or authentication"
  | a => alg_label a ++ s2b " cannot be used in the " ++ crt_debug (sm_crt m) ++ s2b " slot"
  end.

Definition ecc_kind (a : KeyAlg) (crt : KeyCrt) : result SlotMismatch EccKind :=
  match a, crt with
  | AEd25519, Decrypt | AX25519, Sign | AX25519, Auth => Err (mkMismatch a crt)
  | AEd25519, _ => Ok EdDsa
  | _, Decrypt => Ok Ecdh
  | _, _ => Ok Ecdsa
  end.
Definition attributes (a : KeyAlg) (crt : KeyCrt) : result SlotMismatch (option (list Z)) :=
  match rsa_bits a with
  | Some bits => Ok (Some [0x01; cast 8 (Z.shiftr bits 8); cast 8 (Z.land bits 0xFF); 0x00; 0x20; 0x00])
  | None =>
      kind ← ecc_kind a crt;
      Ok (curve ← alg_curve a; Some (kind_id kind :: oid curve))
  end.

(** * Algorithm attributes *)

Inductive RsaImportFormat := Standard | StandardWithModulus | Crt | CrtWithModulus.
#[export] Instance RsaImportFormat_eq : EqDecision RsaImportFormat.
Proof. solve_decision. Defined.
Definition from_attr_byte (b : Z) : option RsaImportFormat :=
  if b =? 0x00 then Some Standard else if b =? 0x01 then Some StandardWithModulus
  else if b =? 0x02 then Some Crt else if b =? 0x03 then Some CrtWithModulus else None.
Definition includes_crt (f : RsaImportFormat) : bool := match f with Crt | CrtWithModulus => true | _ => false end.
Definition includes_modulus (f : RsaImportFormat) : bool := match f with StandardWithModulus | CrtWithModulus => true | _ => false end.

Record RsaAttributes := mkRsaAttrs { n_bits : Z; e_bits : Z; format : RsaImportFormat }.
Definition parse_rsa_algorithm_attributes (attr : list Z) : result ParseError RsaAttributes :=
  if negb (bool_decide (head attr = Some 0x01)) then Err UnsupportedAlgorithm
  else if zlen attr <? 5 then Err UnexpectedLength
  else
    format ← match attr !! 5%nat with Some b => ok_or UnexpectedLength (from_attr_byte b) | None => Ok Standard end;
    Ok (mkRsaAttrs (from_be (slice attr 1 3)) (from_be (slice attr 3 5)) format).

Inductive AlgorithmAttributes := AttrRsa (r : RsaAttributes) | AttrEcc (kind : EccKind) (curve : Curve) (import_with_public_key : bool).

Definition attr_key_alg (a : AlgorithmAttributes) : option KeyAlg :=
  match a with
  | AttrRsa r => if n_bits r =? 2048 then Some ARsa2048 else if n_bits r =? 3072 then Some ARsa3072 else if n_bits r =? 4096 then Some ARsa4096 else None
  | AttrEcc _ curve _ => find_map (fun a => if bool_decide (alg_curve a = Some curve) then Some a else None) KeyAlg_ALL
  end.
Definition attr_label (a : AlgorithmAttributes) : list Z :=
  match a with
  | AttrRsa r => s2b "RSA-" ++ dec (n_bits r)
  | AttrEcc kind curve _ => kind_label kind ++ s2b " " ++ curve_label curve
  end.

(** The OID as it is, or less a last byte; only FF asks for the public key. *)
Definition curve_of_attr (o : list Z) : result ParseError (Curve * bool) :=
  match from_oid o with
  | Some curve => Ok (curve, false)
  | None =>
      match o !! (length o - 1)%nat with
      | None => Err UnsupportedAlgorithm
      | Some b => curve ← ok_or UnsupportedAlgorithm (from_oid (take (length o - 1) o)); Ok (curve, b =? 0xFF)
      end
  end.
Definition parse_algorithm_attributes (attr : list Z) : result ParseError AlgorithmAttributes :=
  match attr with
  | [] => Err UnexpectedLength
  | id :: o =>
      if id =? 0x01 then r ← parse_rsa_algorithm_attributes attr; Ok (AttrRsa r) else
      kind ← ok_or UnsupportedAlgorithm (kind_from_id id);
      '(curve, with_public) ← curve_of_attr o;
      Ok (AttrEcc kind curve with_public)
  end.

(** [{:02x}] and [{:02X}] of a byte. *)
Definition hex2 (b : Z) : list Z := [hex_digit (b / 16); hex_digit (b mod 16)].
Definition hex_digit_upper (d : Z) : Z := if d <? 10 then 48 + d else 55 + d.
Definition hex2_upper (b : Z) : list Z := [hex_digit_upper (b / 16); hex_digit_upper (b mod 16)].
Definition describe_algorithm_attributes (attr : list Z) : list Z :=
  match parse_algorithm_attributes attr with
  | Ok a => attr_label a
  | Err _ =>
      match attr with
      | [] => s2b "none"
      | id :: o =>
          match kind_from_id id with
          | Some kind => kind_label kind ++ s2b " (unknown curve " ++ concat (map hex2 o) ++ s2b ")"
          | None => if id =? 0x01 then s2b "RSA (malformed attributes)" else s2b "algorithm 0x" ++ hex2_upper id
          end
      end
  end.

(** * Lemmas *)

Lemma from_oid_back c : from_oid (oid c) = Some c.
Proof. by destruct c. Qed.
Lemma from_oid_Some o c : from_oid o = Some c -> o = oid c.
Proof.
  unfold from_oid, Curve_ALL. cbn [find_map]. repeat (case_bool_decide; [by intros [= <-]|]). done.
Qed.
(** No OID is another one with a byte more. *)
Lemma from_oid_extended c b : from_oid (oid c ++ [b]) = None.
Proof.
  destruct (from_oid (oid c ++ [b])) as [c'|] eqn:E; [|done]. apply from_oid_Some in E. apply (f_equal (fun l => (length l, take (length l - 1) l))) in E.
  revert E. destruct c, c'; intros [= E]; done.
Qed.
Lemma kind_from_id_Some id k : kind_from_id id = Some k -> id = kind_id k.
Proof. unfold kind_from_id. repeat (case_match; bools; [by intros [= <-]|]). done. Qed.
Lemma kind_back k : kind_from_id (kind_id k) = Some k.
Proof. by destruct k. Qed.

Lemma curve_of_attr_plain c : curve_of_attr (oid c) = Ok (c, false).
Proof. unfold curve_of_attr. by rewrite from_oid_back. Qed.
Lemma curve_of_attr_extended c b : curve_of_attr (oid c ++ [b]) = Ok (c, b =? 0xFF).
Proof.
  unfold curve_of_attr. rewrite from_oid_extended, length_app. cbn [length]. replace (length (oid c) + 1 - 1)%nat with (length (oid c)) by lia.
  rewrite list_lookup_middle by done. rewrite take_app_length. by rewrite from_oid_back.
Qed.
Lemma curve_of_attr_Ok o c p : curve_of_attr o = Ok (c, p) -> (o = oid c /\ p = false) \/ exists b, o = oid c ++ [b] /\ p = (b =? 0xFF).
Proof.
  unfold curve_of_attr. destruct (from_oid o) as [c'|] eqn:E; [intros [= <- <-]; left; split; [by apply from_oid_Some|done]|].
  destruct (o !! (length o - 1)%nat) as [b|] eqn:El; [|done]. destruct (from_oid (take (length o - 1) o)) as [c'|] eqn:Ec; [|done].
  intros [= <- <-]. right. exists b. split; [|done]. apply from_oid_Some in Ec. rewrite <- Ec.
  assert (length o <> 0%nat) as Hn by (intros H0; apply length_zero_iff_nil in H0; by subst o).
  rewrite <- (take_drop (length o - 1) o) at 1. f_equal. rewrite (drop_S _ _ _ El). f_equal. apply drop_ge. lia.
Qed.

Lemma ecc_read k o : parse_algorithm_attributes (kind_id k :: o) = ('(c, p) ← curve_of_attr o; Ok (AttrEcc k c p)).
Proof. by destruct k. Qed.
Lemma alg_of_curve c : exists a, find_map (fun a => if bool_decide (alg_curve a = Some c) then Some a else None) KeyAlg_ALL = Some a /\ alg_curve a = Some c.
Proof. destruct c; by eexists. Qed.

Lemma rsa_read hi lo b : parse_algorithm_attributes [1; hi; lo; 0; 32; b] =
  match from_attr_byte b with Some f => Ok (AttrRsa (mkRsaAttrs (from_be [hi; lo]) 32 f)) | None => Err UnexpectedLength end.
Proof.
  transitivity (r ← (format ← ok_or UnexpectedLength (from_attr_byte b); Ok (mkRsaAttrs (from_be [hi; lo]) 32 format)); Ok (E := ParseError) (AttrRsa r)); [done|].
  by destruct (from_attr_byte b).
Qed.

(** What a slot is set to reads back as the algorithm. *)
Lemma attributes_back alg crt sent : attributes alg crt = Ok (Some sent) ->
  zlen sent <= 16 /\ exists a, parse_algorithm_attributes sent = Ok a /\ attr_key_alg a = Some alg.
Proof. destruct alg, crt; intros [= <-]; (split; [by vm_compute|]); eexists; split; reflexivity. Qed.
Lemma attributes_some alg crt : attributes alg crt <> Ok None.
Proof. by destruct alg, crt. Qed.
Lemma key_alg_kind a alg : attr_key_alg a = Some alg ->
  match a with AttrRsa _ => alg_curve alg = None | AttrEcc _ c _ => alg_curve alg = Some c end.
Proof.
  destruct a as [r|k c p]; cbn [attr_key_alg].
  - destruct (n_bits r =? 2048); [by intros [= <-]|]. destruct (n_bits r =? 3072); [by intros [= <-]|]. destruct (n_bits r =? 4096); [by intros [= <-]|done].
  - intros Hf. destruct (alg_of_curve c) as (a & Ha & Hc). rewrite Hf in Ha. by injection Ha as ->.
Qed.

Lemma rsa_ebits_word attrs r : parse_algorithm_attributes attrs = Ok (AttrRsa r) -> Bytes attrs -> is_word 16 (e_bits r).
Proof.
  intros Hp Hb. unfold parse_algorithm_attributes in Hp. destruct attrs as [|id rest] eqn:E; [done|]. rewrite <- E in *. destruct (id =? 0x01).
  - destruct (parse_rsa_algorithm_attributes attrs) as [r'|] eqn:Er; [|done]. injection Hp as ->. unfold parse_rsa_algorithm_attributes in Er.
    destruct (negb _); [done|]. destruct (zlen attrs <? 5) eqn:El; [done|]. bools. inv_bind Er. injection Er as <-. cbn [e_bits].
    unfold slice. pose proof (from_be_bound (take (5 - 3) (drop 3 attrs)) ltac:(apply Forall_take; by apply Forall_drop)) as Hx.
    assert (zlen (take (5 - 3) (drop 3 attrs)) = 2) as Hz by (unfold zlen in *; rewrite length_take, length_drop; lia). rewrite Hz in Hx. exact Hx.
  - destruct (kind_from_id id); [|done]. cbn [ok_or mbind result_bind] in Hp. by destruct (curve_of_attr _) as [[]|].
Qed.

(** * Properties *)

(** What the host asks a slot to be set to is what it reads back. Every
    algorithm it offers has attributes in every slot, but Ed25519 in the
    decryption slot and X25519 outside it, which are refused by name; the
    attributes read back as that algorithm, doing in the slot what the slot is
    for, also with the import byte a card may add after a curve (which asks for
    the public key when it is FF and only then) and with any import format after
    RSA sizes, an unknown one being refused; and attributes are read as a curve's
    only if they are that curve's OID under the kind's id, with at most one byte
    after it. *)
Theorem pgp_attributes_agreed (alg : KeyAlg) (crt : KeyCrt) (attr : list Z) (kind : EccKind) (c : Curve) (p : bool) :
  match attributes alg crt with
  | Err e => e = mkMismatch alg crt /\ ((alg = AEd25519 /\ crt = Decrypt) \/ (alg = AX25519 /\ crt <> Decrypt))
  | Ok None => False
  | Ok (Some sent) =>
      (exists a, parse_algorithm_attributes sent = Ok a /\ attr_key_alg a = Some alg) /\
      match rsa_bits alg with
      | Some bits => forall b, parse_algorithm_attributes (take 5 sent ++ [b]) =
          match from_attr_byte b with Some f => Ok (AttrRsa (mkRsaAttrs bits 32 f)) | None => Err UnexpectedLength end
      | None => exists k cv, (crt = Decrypt <-> k = Ecdh) /\ alg_curve alg = Some cv /\ forall b,
          parse_algorithm_attributes (sent ++ [b]) = Ok (AttrEcc k cv (b =? 0xFF))
      end
  end /\
  (parse_algorithm_attributes attr = Ok (AttrEcc kind c p) <->
   (attr = kind_id kind :: oid c /\ p = false) \/ exists b, attr = kind_id kind :: oid c ++ [b] /\ p = (b =? 0xFF)).
Proof.
  split.
  - assert (forall k cv b, parse_algorithm_attributes ((kind_id k :: oid cv) ++ [b]) = Ok (AttrEcc k cv (b =? 0xFF))) as Hx
      by (intros k cv b; cbn [app]; by rewrite ecc_read, curve_of_attr_extended).
    destruct alg, crt; cbn [attributes ecc_kind rsa_bits alg_curve mbind result_bind option_bind];
    first
      [ split; [done|]; first [by left|by right]
      | split; [eexists; split; reflexivity|]; intros b; cbn [take app]; rewrite rsa_read; reflexivity
      | split; [eexists; split; reflexivity|]; eexists _, _; split; [|split; [reflexivity|intros b; apply Hx]]; done ].
  - split.
    + intros Hp. destruct attr as [|id o]; [done|]. unfold parse_algorithm_attributes in Hp. destruct (id =? 0x01); [by destruct (parse_rsa_algorithm_attributes _)|].
      destruct (kind_from_id id) as [k|] eqn:Ek; [|done]. apply kind_from_id_Some in Ek as ->. cbn [ok_or mbind result_bind] in Hp.
      destruct (curve_of_attr o) as [[c' p']|] eqn:Ec; [|done]. injection Hp as -> -> ->.
      apply curve_of_attr_Ok in Ec as [[-> ->]|(b & -> & ->)]; [by left|right; by exists b].
    + intros [[-> ->]|(b & -> & ->)]; rewrite ecc_read; [by rewrite curve_of_attr_plain|by rewrite curve_of_attr_extended].
Qed.
