(* ===== verification/PgpApdu.v ===== *)
(** keyroost-openpgp/src/lib.rs, commands: every APDU builder, key import with
    it. A failed [assert!] is [None]; wiping secrets has no effect here. *)
From S2P Require Export PgpAlg IsoRead.

Definition INS_SELECT : Z := 0xA4.
Definition P1_SELECT_BY_NAME : Z := 0x04.
Inductive Instruction :=
  | Select | GetData | PutData | Verify | ChangeReferenceData | ResetRetryCounter | PerformSecurityOperation
  | InternalAuthenticate | GenerateAsymmetricKeyPair | GetResponse | ActivateFile | TerminateDf.
Definition ins_code (i : Instruction) : Z :=
  match i with
  | Select => 0xA4 | GetData => 0xCA | PutData => 0xDA | Verify => 0x20 | ChangeReferenceData => 0x24 | ResetRetryCounter => 0x2C
  | PerformSecurityOperation => 0x2A | InternalAuthenticate => 0x88 | GenerateAsymmetricKeyPair => 0x47 | GetResponse => 0xC0
  | ActivateFile => 0x44 | TerminateDf => 0xE6
  end.
Definition PW1_SIGN : Z := 0x81.
Definition PW1_OTHER : Z := 0x82.
Definition PW3_ADMIN : Z := 0x83.
Definition PSO_COMPUTE_SIGNATURE : Z := 0x9E9A.
Definition PSO_DECIPHER : Z := 0x8086.
Definition GENERATE_KEY : Z := 0x80.
Definition READ_PUBLIC_KEY : Z := 0x81.
Definition RESET_RC_BY_ADMIN : Z := 0x02.
Definition INS_PUT_DATA_ODD : Z := 0xDB.
Definition SW_OK : Z := 0x9000.
Definition SW_MORE_DATA : Z := 0x61.

Definition TAG_AID : Z := 0x004F.
Definition TAG_LOGIN_DATA : Z := 0x005E.
Definition TAG_URL : Z := 0x5F50.
Definition TAG_HISTORICAL_BYTES : Z := 0x5F52.
Definition TAG_CARDHOLDER_RELATED_DATA : Z := 0x0065.
Definition TAG_NAME : Z := 0x005B.
Definition TAG_LANGUAGE : Z := 0x5F2D.
Definition TAG_SEX : Z := 0x5F35.
Definition TAG_APPLICATION_RELATED_DATA : Z := 0x006E.
Definition TAG_DISCRETIONARY : Z := 0x0073.
Definition TAG_EXTENDED_CAPABILITIES : Z := 0x00C0.
Definition TAG_PW_STATUS : Z := 0x00C4.
Definition TAG_FINGERPRINTS : Z := 0x00C5.
Definition TAG_CA_FINGERPRINTS : Z := 0x00C6.
Definition TAG_GENERATION_TIMES : Z := 0x00CD.
Definition TAG_ALGORITHM_INFORMATION : Z := 0x00FA.
Definition TAG_SECURITY_SUPPORT : Z := 0x007A.
Definition TAG_DS_COUNTER : Z := 0x0093.
Definition TAG_PUBLIC_KEY : Z := 0x7F49.
Definition TAG_RSA_MODULUS : Z := 0x0081.
Definition TAG_RSA_EXPONENT : Z := 0x0082.
Definition TAG_EC_PUBLIC_POINT : Z := 0x0086.
Definition TAG_CIPHER_DO_ECDH : Z := 0x00A6.

(** The bytes of a tag in P1-P2. *)
Definition high (tag : Z) : Z := cast 8 (Z.shiftr tag 8).
Definition low (tag : Z) : Z := cast 8 (Z.land tag 0xFF).

(** * Short commands *)

Definition select : option (list Z) := build_apdu 0x00 INS_SELECT P1_SELECT_BY_NAME 0x00 AID_PREFIX.
Definition get_data (tag : Z) : list Z := build_apdu_get 0x00 (ins_code GetData) (high tag) (low tag) 0x00.
Definition get_application_related_data : list Z := get_data TAG_APPLICATION_RELATED_DATA.
Definition get_algorithm_information : list Z := get_data TAG_ALGORITHM_INFORMATION.
Definition get_pw_status : list Z := get_data TAG_PW_STATUS.
Definition verify (pw_ref : Z) (pin : list Z) : option (list Z) := build_apdu 0x00 (ins_code Verify) 0x00 pw_ref pin.
Definition get_response : list Z := build_apdu_get 0x00 (ins_code GetResponse) 0x00 0x00 0x00.
Definition terminate_df : list Z := [0x00; ins_code TerminateDf; 0x00; 0x00].
Definition activate_file : list Z := [0x00; ins_code ActivateFile; 0x00; 0x00].

(** A short command with an [Le] after its data. *)
Definition case4 (cla ins p1 p2 : Z) (data : list Z) : option (list Z) :=
  apdu ← build_apdu cla ins p1 p2 data; Some (apdu ++ [0x00]).
Definition generate_key (crt : KeyCrt) : option (list Z) := case4 0x00 (ins_code GenerateAsymmetricKeyPair) GENERATE_KEY 0x00 (crt_template crt).
Definition read_public_key (crt : KeyCrt) : option (list Z) := case4 0x00 (ins_code GenerateAsymmetricKeyPair) READ_PUBLIC_KEY 0x00 (crt_template crt).
Definition pso_compute_signature (data : list Z) : option (list Z) :=
  case4 0x00 (ins_code PerformSecurityOperation) (high PSO_COMPUTE_SIGNATURE) (low PSO_COMPUTE_SIGNATURE) data.
Definition internal_authenticate (data : list Z) : option (list Z) := case4 0x00 (ins_code InternalAuthenticate) 0x00 0x00 data.
Definition change_reference_data (pw_ref : Z) (old new : list Z) : option (list Z) :=
  build_apdu 0x00 (ins_code ChangeReferenceData) 0x00 pw_ref (old ++ new).
Definition reset_retry_counter (new_pw1 : list Z) : option (list Z) :=
  build_apdu 0x00 (ins_code ResetRetryCounter) RESET_RC_BY_ADMIN 0x81 new_pw1.
Definition put_data (tag : Z) (value : list Z) : option (list Z) := build_apdu 0x00 (ins_code PutData) (high tag) (low tag) value.
Definition put_cardholder_name (name : list Z) : option (list Z) := put_data TAG_NAME name.
Definition put_url (url : list Z) : option (list Z) := put_data TAG_URL url.
Definition put_fingerprint (crt : KeyCrt) (fpr : list Z) : option (list Z) := put_data (fpr_tag crt) fpr.
Definition put_generation_time (crt : KeyCrt) (unix_time : Z) : option (list Z) := put_data (time_tag crt) (to_be 4 unix_time).
Definition put_algorithm_attributes (crt : KeyCrt) (attr : list Z) : option (list Z) := put_data (algo_attr_tag crt) attr.

(** * Long commands *)

Definition build_apdu_extended (cla ins p1 p2 : Z) (data : list Z) : option (list Z) :=
  if 0xFFFF <? zlen data then None else
  let lc := zlen data in
  Some ([cla; ins; p1; p2; 0x00; cast 8 (Z.shiftr lc 8); cast 8 (Z.land lc 0xFF)] ++ data).

(** The links of a chain: the class byte has the chaining bit but in the last. *)
Fixpoint links (ins p1 p2 : Z) (final_le : list Z) (chunks : list (list Z)) : list (list Z) :=
  match chunks with
  | [] => []
  | [chunk] => [[0x00; ins; p1; p2; cast 8 (zlen chunk)] ++ chunk ++ final_le]
  | chunk :: chunks => ([0x10; ins; p1; p2; cast 8 (zlen chunk)] ++ chunk) :: links ins p1 p2 final_le chunks
  end.
Definition chunk_size_ok (max_chunk : Z) : bool := (1 <=? max_chunk) && (max_chunk <=? 255).

Definition pso_decipher (data : list Z) : option (list Z) :=
  let ins := ins_code PerformSecurityOperation in
  if zlen data <=? 255 then case4 0x00 ins (high PSO_DECIPHER) (low PSO_DECIPHER) data
  else apdu ← build_apdu_extended 0x00 ins (high PSO_DECIPHER) (low PSO_DECIPHER) data; Some (apdu ++ [0x00; 0x00]).
Definition pso_decipher_chained (data : list Z) (max_chunk : Z) : option (list (list Z)) :=
  if negb (chunk_size_ok max_chunk) then None else
  let ins := ins_code PerformSecurityOperation in
  if bool_decide (data = []) then Some [[0x00; ins; high PSO_DECIPHER; low PSO_DECIPHER; 0x00; 0x00]]
  else Some (links ins (high PSO_DECIPHER) (low PSO_DECIPHER) [0x00] (chunks (Z.to_nat max_chunk) data)).
Definition put_data_odd_chained (p1 p2 : Z) (data : list Z) (max_chunk : Z) : option (list (list Z)) :=
  if negb (chunk_size_ok max_chunk) then None else
  if bool_decide (data = []) then Some [[0x00; INS_PUT_DATA_ODD; p1; p2; 0x00]]
  else Some (links INS_PUT_DATA_ODD p1 p2 [] (chunks (Z.to_nat max_chunk) data)).

Definition ecdh_cipher_do (ephemeral_point : list Z) : list Z :=
  ber_tlv TAG_CIPHER_DO_ECDH (ber_tlv TAG_PUBLIC_KEY (ber_tlv TAG_EC_PUBLIC_POINT ephemeral_point)).

(** * Key import *)

Record RsaPrivateKeyParts := mkRsaParts { r_e : list Z; r_p : list Z; r_q : list Z; r_u : list Z; r_dp : list Z; r_dq : list Z; r_n : list Z }.
Record EccPrivateKeyParts := mkEccParts { scalar : list Z; public : option (list Z) }.
Record ExponentTooWide := mkExponentTooWide { x_e_len : Z; x_field_len : Z }.
Record ScalarTooWide := mkScalarTooWide { s_scalar_len : Z; s_field_len : Z }.
Definition exponent_text (e : ExponentTooWide) : list Z :=
  s2b "RSA exponent (" ++ dec (x_e_len e) ++ s2b " bytes) is wider than the card's declared exponent field (" ++ dec (x_field_len e) ++ s2b " bytes)".
Definition scalar_text (e : ScalarTooWide) : list Z :=
  s2b "ECC private key (" ++ dec (s_scalar_len e) ++ s2b " bytes) is wider than its curve's field (" ++ dec (s_field_len e) ++ s2b " bytes)".

Definition key_template_entry (tag field_len : Z) : list Z := tag :: ber_len field_len.
Definition strip_leading_zero (field : list Z) : list Z :=
  match field with b :: rest => if (1 <? zlen field) && (b =? 0x00) then rest else field | [] => field end.
Definition pad_exponent (e : list Z) (reqlen : Z) : result ExponentTooWide (list Z) :=
  let e := strip_leading_zero e in
  if reqlen <? zlen e then Err (mkExponentTooWide (zlen e) reqlen)
  else Ok (replicate (Z.to_nat reqlen - length e) 0 ++ e).
Definition div_ceil8 (bits : Z) : Z := (bits + 7) / 8.
Definition rsa_exponent_fits (e : list Z) (e_bits : Z) : bool := zlen (strip_leading_zero e) <=? div_ceil8 e_bits.

(** The object all imports send: the slot, the lengths of the fields and the
    fields. *)
Definition header_list (crt : KeyCrt) (template key_data : list Z) : list Z :=
  ber_tlv 0x4D ([crt_tag crt; 0x00] ++ ber_tlv 0x7F48 template ++ ber_tlv 0x5F48 key_data).

Definition extended_header_list (crt : KeyCrt) (key : RsaPrivateKeyParts) (format : RsaImportFormat) (e_bits : Z) : result ExponentTooWide (list Z) :=
  e ← pad_exponent (r_e key) (div_ceil8 e_bits);
  let p := strip_leading_zero (r_p key) in let q := strip_leading_zero (r_q key) in let u := strip_leading_zero (r_u key) in
  let dp := strip_leading_zero (r_dp key) in let dq := strip_leading_zero (r_dq key) in let n := strip_leading_zero (r_n key) in
  let template :=
    key_template_entry 0x91 (zlen e) ++ key_template_entry 0x92 (zlen p) ++ key_template_entry 0x93 (zlen q) ++
    (if includes_crt format then key_template_entry 0x94 (zlen u) ++ key_template_entry 0x95 (zlen dp) ++ key_template_entry 0x96 (zlen dq) else []) ++
    (if includes_modulus format then key_template_entry 0x97 (zlen n) else []) in
  let key_data := e ++ p ++ q ++ (if includes_crt format then u ++ dp ++ dq else []) ++ (if includes_modulus format then n else []) in
  Ok (header_list crt template key_data).
Definition import_rsa_key (crt : KeyCrt) (key : RsaPrivateKeyParts) (format : RsaImportFormat) (e_bits : Z) : result ExponentTooWide (option (list Z)) :=
  header_list ← extended_header_list crt key format e_bits;
  Ok (build_apdu_extended 0x00 INS_PUT_DATA_ODD 0x3F 0xFF header_list).
Definition import_rsa_key_chained (crt : KeyCrt) (key : RsaPrivateKeyParts) (format : RsaImportFormat) (e_bits max_chunk : Z) : result ExponentTooWide (option (list (list Z))) :=
  header_list ← extended_header_list crt key format e_bits;
  Ok (put_data_odd_chained 0x3F 0xFF header_list max_chunk).

Definition ecc_scalar_fits (scalar : list Z) (field_len : Z) : bool :=
  (zlen scalar <=? field_len) || ((zlen scalar =? field_len + 1) && (scalar !!! 0%nat =? 0x00)).
Definition ecc_extended_header_list (crt : KeyCrt) (key : EccPrivateKeyParts) (field_len : Z) : result ScalarTooWide (list Z) :=
  let sc := if field_len <? zlen (scalar key) then strip_leading_zero (scalar key) else scalar key in
  if negb (ecc_scalar_fits (scalar key) field_len) then Err (mkScalarTooWide (zlen sc) field_len) else
  let template := key_template_entry 0x92 field_len ++ match public key with Some p => key_template_entry 0x99 (zlen p) | None => [] end in
  let key_data := replicate (Z.to_nat field_len - length sc) 0 ++ sc ++ match public key with Some p => p | None => [] end in
  Ok (header_list crt template key_data).
Definition import_ecc_key (crt : KeyCrt) (key : EccPrivateKeyParts) (field_len : Z) : result ScalarTooWide (option (list Z)) :=
  header_list ← ecc_extended_header_list crt key field_len;
  Ok (build_apdu_extended 0x00 INS_PUT_DATA_ODD 0x3F 0xFF header_list).
Definition import_ecc_key_chained (crt : KeyCrt) (key : EccPrivateKeyParts) (field_len max_chunk : Z) : result ScalarTooWide (option (list (list Z))) :=
  header_list ← ecc_extended_header_list crt key field_len;
  Ok (put_data_odd_chained 0x3F 0xFF header_list max_chunk).

(** * What a card reads of an import *)

(** A BER length, and an object under a given tag (OpenPGP card, 4.4.3.12). *)
Definition card_length (bs : list Z) : option (Z * list Z) :=
  match bs with
  | n :: rest =>
      if n <? 0x80 then Some (n, rest) else
      match rest with
      | a :: rest => if n =? 0x81 then Some (a, rest) else
                     match rest with b :: rest => if n =? 0x82 then Some (a * 256 + b, rest) else None | [] => None end
      | [] => None
      end
  | [] => None
  end.
Definition card_object (tag bs : list Z) : option (list Z * list Z) :=
  if negb (bool_decide (take (length tag) bs = tag)) then None else
  '(len, rest) ← card_length (drop (length tag) bs);
  if zlen rest <? len then None else Some (take (Z.to_nat len) rest, drop (Z.to_nat len) rest).
(** The template is tags and lengths; the values are in the other object. *)
Fixpoint card_fields (fuel : nat) (template data : list Z) : option (list (Z * list Z)) :=
  match template, fuel with
  | [], _ => if bool_decide (data = []) then Some [] else None
  | tag :: template, S fuel =>
      '(len, template) ← card_length template;
      if zlen data <? len then None else
      fields ← card_fields fuel template (drop (Z.to_nat len) data);
      Some ((tag, take (Z.to_nat len) data) :: fields)
  | _, O => None
  end.
(** The slot, and the fields of the key, if nothing is left over. *)
Definition card_key (body : list Z) : option (Z * list (Z * list Z)) :=
  '(v, rest) ← card_object [0x4D] body;
  match v with
  | slot :: 0x00 :: v =>
      '(template, v) ← card_object [0x7F; 0x48] v;
      '(data, v) ← card_object [0x5F; 0x48] v;
      fields ← card_fields (length template) template data;
      if bool_decide (rest = []) && bool_decide (v = []) then Some (slot, fields) else None
  | _ => None
  end.

(** * Lemmas *)

Lemma card_length_back n rest : 0 <= n <= 0xFFFF -> card_length (ber_len n ++ rest) = Some (n, rest).
Proof.
  intros Hn. destruct (ber_len_cases n Hn) as [[H ->]|[[H ->]|[H ->]]]; cbn [app].
  - cbn [card_length]. by rewrite (proj2 (Z.ltb_lt _ _)) by lia.
  - done.
  - cbn. do 2 f_equal. lia_div.
Qed.
Lemma card_object_back tag v rest : zlen v <= 0xFFFF -> card_object (tag_bytes tag) (ber_tlv tag v ++ rest) = Some (v, rest).
Proof.
  intros Hv. pose proof (zlen_nonneg v). unfold card_object, ber_tlv. fold (tag_bytes tag). rewrite <- !app_assoc, take_app_length, drop_app_length.
  rewrite bool_decide_eq_true_2 by done. cbn [negb]. rewrite card_length_back by lia. cbn [mbind option_bind].
  rewrite (proj2 (Z.ltb_ge _ _)) by (zlen; pose proof (zlen_nonneg rest); lia). by rewrite take_zlen, drop_zlen.
Qed.

Definition template_of (fields : list (Z * list Z)) : list Z := concat (map (fun f => key_template_entry f.1 (zlen f.2)) fields).
Definition data_of (fields : list (Z * list Z)) : list Z := concat (map snd fields).
Lemma card_fields_back fields fuel : Forall (fun f => zlen f.2 <= 0xFFFF) fields -> (length (template_of fields) <= fuel)%nat ->
  card_fields fuel (template_of fields) (data_of fields) = Some fields.
Proof.
  intros Hf. revert fuel. induction Hf as [|[tag v] fields Hv Hf IH]; intros fuel Hl; [by destruct fuel|].
  unfold template_of, data_of in *. cbn [map concat fst snd] in *. unfold key_template_entry in *. cbn [app length] in Hl.
  destruct fuel as [|fuel]; [lia|]. cbn [app card_fields]. pose proof (zlen_nonneg v). rewrite card_length_back by lia. cbn [mbind option_bind].
  rewrite (proj2 (Z.ltb_ge _ _)) by (zlen; match goal with |- context [zlen (concat ?l)] => pose proof (zlen_nonneg (concat l)) end; lia).
  rewrite drop_zlen, take_zlen. rewrite length_app in Hl. by rewrite IH by lia.
Qed.

(** Few fields, none long: the whole object has a length the header can say. *)
Definition small_fields (fields : list (Z * list Z)) : Prop := (length fields <= 7)%nat /\ Forall (fun f => zlen f.2 <= 0x2000) fields.
Lemma small_sizes fields : small_fields fields -> zlen (template_of fields) <= 28 /\ zlen (data_of fields) <= 0xE000.
Proof.
  intros [Hn Hf]. assert (zlen (template_of fields) <= 4 * Z.of_nat (length fields) /\ zlen (data_of fields) <= 0x2000 * Z.of_nat (length fields)); [|lia].
  clear Hn. induction Hf as [|[tag v] fields Hv Hf IH]; [done|]. unfold template_of, data_of in *. cbn [map concat fst snd length] in *. pose proof (zlen_nonneg v).
  assert (zlen (key_template_entry tag (zlen v)) <= 4) by (pose proof (ber_len_length (zlen v) ltac:(lia)); unfold key_template_entry; zlen; lia).
  rewrite !zlen_app. lia.
Qed.
Lemma zlen_ber_tlv tag v : zlen v <= 0xFFFF -> zlen (ber_tlv tag v) <= zlen v + 5.
Proof.
  intros Hv. pose proof (zlen_nonneg v). pose proof (ber_len_length (zlen v) ltac:(lia)). unfold ber_tlv. zlen. destruct (0xFF <? tag); unfold zlen at 1; cbn [length]; lia.
Qed.
Lemma header_list_size crt fields : small_fields fields -> 1 <= zlen (header_list crt (template_of fields) (data_of fields)) <= 0xFFFF.
Proof.
  intros Hs. destruct (small_sizes fields Hs) as [Ht Hd]. unfold header_list.
  pose proof (zlen_ber_tlv 0x7F48 (template_of fields) ltac:(lia)). pose proof (zlen_ber_tlv 0x5F48 (data_of fields) ltac:(lia)).
  set (body := _ ++ _ ++ _). assert (zlen body <= 0xE030) as Hb by (subst body; zlen; lia).
  pose proof (zlen_ber_tlv 0x4D body ltac:(lia)). pose proof (ber_tlv_nonempty 0x4D body). unfold zlen in *. lia.
Qed.
Lemma card_key_back crt fields : small_fields fields -> card_key (header_list crt (template_of fields) (data_of fields)) = Some (crt_tag crt, fields).
Proof.
  intros Hs. destruct (small_sizes fields Hs) as [Ht Hd]. unfold header_list, card_key.
  pose proof (zlen_ber_tlv 0x7F48 (template_of fields) ltac:(lia)). pose proof (zlen_ber_tlv 0x5F48 (data_of fields) ltac:(lia)).
  set (body := _ ++ _ ++ _). assert (zlen body <= 0xE030) as Hb by (subst body; zlen; lia).
  pose proof (card_object_back 0x4D body [] ltac:(lia)) as H4d. rewrite app_nil_r in H4d. change (tag_bytes 0x4D) with [0x4D] in H4d. rewrite H4d.
  cbn [mbind option_bind]. subst body. cbn [app].
  pose proof (card_object_back 0x7F48 (template_of fields) (ber_tlv 0x5F48 (data_of fields)) ltac:(lia)) as H48. change (tag_bytes 0x7F48) with [0x7F; 0x48] in H48.
  rewrite H48. cbn [mbind option_bind].
  pose proof (card_object_back 0x5F48 (data_of fields) [] ltac:(lia)) as H5f. rewrite app_nil_r in H5f. change (tag_bytes 0x5F48) with [0x5F; 0x48] in H5f.
  rewrite H5f. cbn [mbind option_bind]. rewrite card_fields_back; [|destruct Hs as [_ Hf]; eapply list.Forall_impl; [exact Hf|]; cbv beta; intros; lia|done]. done.
Qed.

(** The two ways to send a body are one command to the card. *)
Definition put_command (body : list Z) : Command := mkCommand 0x00 INS_PUT_DATA_ODD 0x3F 0xFF body None.
Lemma links_iso ins p1 p2 le cs : links ins p1 p2 (match le with Some b => [b] | None => [] end) cs = iso_links 0x00 ins p1 p2 le cs.
Proof. induction cs as [|c [|c2 cs] IH]; [done|done|]. change (links ins p1 p2 ?le (c :: c2 :: cs)) with (([0x10; ins; p1; p2; cast 8 (zlen c)] ++ c) :: links ins p1 p2 le (c2 :: cs)). by rewrite IH. Qed.
Lemma links_read ins p1 p2 le data max_chunk : 1 <= max_chunk <= 255 -> data <> [] ->
  reassemble (links ins p1 p2 (match le with Some b => [b] | None => [] end) (chunks (Z.to_nat max_chunk) data)) =
  Some (mkCommand 0x00 ins p1 p2 data (short_le <$> le)).
Proof.
  intros Hm Hd. assert (0 < Z.to_nat max_chunk)%nat as Hn by lia. pose proof (concat_chunks _ data Hn) as Hc. rewrite links_iso, iso_links_read.
  - by rewrite Hc.
  - intros E. by rewrite E in Hc.
  - eapply list.Forall_impl; [exact (chunks_bounded _ data Hn)|]. intros c [Hne Hl]. unfold zlen. destruct c; [done|]. cbn in *. lia.
Qed.
Lemma extended_read cla ins p1 p2 data : 1 <= zlen data <= 0xFFFF -> exists apdu, build_apdu_extended cla ins p1 p2 data = Some apdu /\
  parse_command apdu = Some (mkCommand cla ins p1 p2 data None) /\ parse_command (apdu ++ [0; 0]) = Some (mkCommand cla ins p1 p2 data (Some 65536)).
Proof.
  intros Hd. unfold build_apdu_extended. rewrite (proj2 (Z.ltb_ge _ _)) by lia. eexists. split; [done|].
  pose proof (parse_extended cla ins p1 p2 data None Hd ltac:(done)) as H1. pose proof (parse_extended cla ins p1 p2 data (Some 0) Hd ltac:(by intros v [= <-])) as H2.
  rewrite app_nil_r in H1. rewrite Z.shiftr_div_pow2 by lia. change 0xFF with (2 ^ 8 - 1). rewrite land_ones_mod by lia. change (2 ^ 8) with 256.
  rewrite (cast_small 8 (_ / 256)) by (unfold is_word; lia_div). rewrite (cast_small 8 (_ mod 256)) by (unfold is_word; lia_div). split; [exact H1|].
  rewrite <- app_assoc. exact H2.
Qed.
Lemma imported crt fields max_chunk : small_fields fields -> 1 <= max_chunk <= 255 ->
  let body := header_list crt (template_of fields) (data_of fields) in
  (exists apdu, build_apdu_extended 0x00 INS_PUT_DATA_ODD 0x3F 0xFF body = Some apdu /\ parse_command apdu = Some (put_command body)) /\
  (exists ls, put_data_odd_chained 0x3F 0xFF body max_chunk = Some ls /\ reassemble ls = Some (put_command body)) /\
  card_key body = Some (crt_tag crt, fields).
Proof.
  intros Hs Hm body. pose proof (header_list_size crt fields Hs) as Hl. fold body in Hl.
  split; [destruct (extended_read 0x00 INS_PUT_DATA_ODD 0x3F 0xFF body Hl) as (apdu & Ha & Hp & _); by exists apdu|]. split; [|by apply card_key_back].
  unfold put_data_odd_chained, chunk_size_ok. rewrite (proj2 (Z.leb_le 1 _)), (proj2 (Z.leb_le _ 255)) by lia. cbn [andb negb].
  assert (body <> []) as Hne by (intros E; rewrite E in Hl; by destruct Hl). rewrite bool_decide_eq_false_2 by done.
  eexists. split; [done|]. exact (links_read INS_PUT_DATA_ODD 0x3F 0xFF None body max_chunk Hm Hne).
Qed.

(** * Numbers in their fields *)

Lemma from_be_zero v : from_be (0 :: v) = from_be v.
Proof. rewrite from_be_cons. lia. Qed.
Lemma strip_value v : from_be (strip_leading_zero v) = from_be v /\ zlen (strip_leading_zero v) <= zlen v.
Proof.
  unfold strip_leading_zero. destruct v as [|b v]; [done|]. destruct (_ && _) eqn:E; [|done]. bools. subst b. rewrite from_be_zero. split; [done|zlen; lia].
Qed.
Lemma padded_value n v : from_be (replicate n 0 ++ v) = from_be v.
Proof. induction n as [|n IH]; [done|]. cbn [replicate app]. by rewrite from_be_zero. Qed.

(** The card's command holds a body with these fields, in the one APDU as in the
    chain. *)
Definition reaches (crt : KeyCrt) (one : option (list Z)) (chain : option (list (list Z))) (fields : list (Z * list Z)) : Prop :=
  exists apdu ls body, one = Some apdu /\ chain = Some ls /\ parse_command apdu = Some (put_command body) /\ reassemble ls = Some (put_command body) /\
    card_key body = Some (crt_tag crt, fields).
Lemma reaches_fields crt fields max_chunk : small_fields fields -> 1 <= max_chunk <= 255 ->
  let body := header_list crt (template_of fields) (data_of fields) in
  reaches crt (build_apdu_extended 0x00 INS_PUT_DATA_ODD 0x3F 0xFF body) (put_data_odd_chained 0x3F 0xFF body max_chunk) fields.
Proof. intros Hs Hm. destruct (imported crt fields max_chunk Hs Hm) as ((apdu & Ha & Hp) & (ls & Hl & Hr) & Hk). by exists apdu, ls, (header_list crt (template_of fields) (data_of fields)). Qed.

(** What a format asks for, in the specification's order. *)
Definition rsa_parts (key : RsaPrivateKeyParts) (format : RsaImportFormat) : list (Z * list Z) :=
  [(0x91, r_e key); (0x92, r_p key); (0x93, r_q key)] ++
  (if includes_crt format then [(0x94, r_u key); (0x95, r_dp key); (0x96, r_dq key)] else []) ++ (if includes_modulus format then [(0x97, r_n key)] else []).
Definition same_number (f w : Z * list Z) : Prop := f.1 = w.1 /\ from_be f.2 = from_be w.2.

Definition rsa_fields (key : RsaPrivateKeyParts) (format : RsaImportFormat) (e : list Z) : list (Z * list Z) :=
  (0x91, e) :: map (fun f => (f.1, strip_leading_zero f.2)) (drop 1 (rsa_parts key format)).
Lemma rsa_header_list crt key format e :
  header_list crt (template_of (rsa_fields key format e)) (data_of (rsa_fields key format e)) =
  let p := strip_leading_zero (r_p key) in let q := strip_leading_zero (r_q key) in let u := strip_leading_zero (r_u key) in
  let dp := strip_leading_zero (r_dp key) in let dq := strip_leading_zero (r_dq key) in let n := strip_leading_zero (r_n key) in
  header_list crt
    (key_template_entry 0x91 (zlen e) ++ key_template_entry 0x92 (zlen p) ++ key_template_entry 0x93 (zlen q) ++
     (if includes_crt format then key_template_entry 0x94 (zlen u) ++ key_template_entry 0x95 (zlen dp) ++ key_template_entry 0x96 (zlen dq) else []) ++
     (if includes_modulus format then key_template_entry 0x97 (zlen n) else []))
    (e ++ p ++ q ++ (if includes_crt format then u ++ dp ++ dq else []) ++ (if includes_modulus format then n else [])).
Proof.
  unfold rsa_fields, rsa_parts, template_of, data_of. cbv zeta. f_equal; destruct (includes_crt format), (includes_modulus format); cbn -[key_template_entry strip_leading_zero];
    rewrite ?app_nil_r, <- ?app_assoc; done.
Qed.
Lemma rsa_fields_carry key format e : from_be e = from_be (r_e key) -> Forall2 same_number (rsa_fields key format e) (rsa_parts key format).
Proof.
  intros He. assert (forall t v, same_number (t, strip_leading_zero v) (t, v)) as Hs by (intros t v; split; [done|]; apply strip_value).
  unfold rsa_fields, rsa_parts. destruct (includes_crt format), (includes_modulus format); cbn [drop app map fst snd]; repeat (constructor; [by apply Hs || by split|]); constructor.
Qed.
Lemma rsa_fields_small key format e : zlen e <= 0x2000 -> Forall (fun w => zlen w.2 <= 0x2000) (rsa_parts key CrtWithModulus) -> small_fields (rsa_fields key format e).
Proof.
  intros He Hw. assert (forall v, zlen v <= 0x2000 -> zlen (strip_leading_zero v) <= 0x2000) as Hs by (intros v Hv; destruct (strip_value v); lia).
  unfold rsa_parts in Hw. cbn [includes_crt includes_modulus app] in Hw. rewrite !list.Forall_cons in Hw. cbn [fst snd] in Hw. destruct Hw as (H1 & H2 & H3 & H4 & H5 & H6 & H7 & _).
  unfold rsa_fields, rsa_parts. destruct (includes_crt format), (includes_modulus format); cbn [drop app map fst snd];
    (split; [cbn; lia|]; repeat (apply list.Forall_cons; split; [cbn [snd]; auto|]); constructor).
Qed.

(** The object an import is, when the card's fields can hold the key. *)
Lemma rsa_body crt rsa format e_bits : Forall (fun w => zlen w.2 <= 0x2000) (rsa_parts rsa CrtWithModulus) -> is_word 16 e_bits ->
  if rsa_exponent_fits (r_e rsa) e_bits then
    exists e, let fields := rsa_fields rsa format e in
      extended_header_list crt rsa format e_bits = Ok (header_list crt (template_of fields) (data_of fields)) /\
      small_fields fields /\ Forall2 same_number fields (rsa_parts rsa format) /\ zlen e = div_ceil8 e_bits
  else extended_header_list crt rsa format e_bits = Err (mkExponentTooWide (zlen (strip_leading_zero (r_e rsa))) (div_ceil8 e_bits)).
Proof.
  intros Hw He. unfold extended_header_list, pad_exponent, rsa_exponent_fits. destruct (strip_value (r_e rsa)) as [Hev _].
  assert (0 <= div_ceil8 e_bits <= 0x2000) as Hd by (unfold div_ceil8, is_word in *; lia_div).
  rewrite Z.ltb_antisym. destruct (_ <=? _) eqn:E; cbn [negb mbind result_bind]; [|done]. bools.
  set (e := replicate _ 0 ++ _). assert (zlen e = div_ceil8 e_bits) as Hel by (subst e; zlen; unfold zlen in *; lia).
  assert (from_be e = from_be (r_e rsa)) as Hee by (subst e; by rewrite padded_value).
  exists e. cbv zeta. rewrite rsa_header_list. split; [done|]. split; [apply rsa_fields_small; [lia|done]|]. split; [by apply rsa_fields_carry|done].
Qed.
Lemma rsa_imported crt rsa format e_bits max_chunk : Forall (fun w => zlen w.2 <= 0x2000) (rsa_parts rsa CrtWithModulus) -> is_word 16 e_bits -> 1 <= max_chunk <= 255 ->
  if rsa_exponent_fits (r_e rsa) e_bits then
     exists one chain fields e rest, import_rsa_key crt rsa format e_bits = Ok one /\ import_rsa_key_chained crt rsa format e_bits max_chunk = Ok chain /\
       reaches crt one chain fields /\ Forall2 same_number fields (rsa_parts rsa format) /\ fields = (0x91, e) :: rest /\ zlen e = div_ceil8 e_bits
   else
     let refused := mkExponentTooWide (zlen (strip_leading_zero (r_e rsa))) (div_ceil8 e_bits) in
     import_rsa_key crt rsa format e_bits = Err refused /\ import_rsa_key_chained crt rsa format e_bits max_chunk = Err refused.
Proof.
  intros Hw He Hm. pose proof (rsa_body crt rsa format e_bits Hw He) as Hb. unfold import_rsa_key, import_rsa_key_chained.
  destruct (rsa_exponent_fits _ _); [|by rewrite Hb]. destruct Hb as (e & -> & Hs & Hn & Hl).
  eexists _, _, (rsa_fields rsa format e), e, _. split; [done|]. split; [done|]. split; [by apply reaches_fields|]. by split.
Qed.

(** A scalar that fits, without the zero it may have too many. *)
Definition scalar_sent (ecc : EccPrivateKeyParts) (field_len : Z) : list Z := if field_len <? zlen (scalar ecc) then strip_leading_zero (scalar ecc) else scalar ecc.
Lemma scalar_sent_fits ecc field_len : 1 <= field_len ->
  if ecc_scalar_fits (scalar ecc) field_len then zlen (scalar_sent ecc field_len) <= field_len else field_len < zlen (scalar_sent ecc field_len).
Proof.
  intros Hf. unfold ecc_scalar_fits, scalar_sent, strip_leading_zero. destruct (scalar ecc) as [|b l].
  - change (zlen (@nil Z)) with 0. rewrite (proj2 (Z.leb_le 0 field_len)), (proj2 (Z.ltb_ge field_len 0)) by lia. cbn [orb]. exact (Z.le_trans 0 1 _ ltac:(lia) Hf).
  - change ((b :: l) !!! 0%nat) with b. zlen. rewrite (Z.leb_antisym field_len). destruct (field_len <? 1 + zlen l) eqn:E; bools; cbn [negb orb]; [|zlen; lia].
    rewrite (proj2 (Z.ltb_lt 1 _)) by lia. cbn [andb]. destruct (_ =? field_len + 1) eqn:E2, (b =? 0) eqn:E3; bools; cbn [andb]; zlen; lia.
Qed.
Definition ecc_fields (s : list Z) (public : option (list Z)) : list (Z * list Z) := (0x92, s) :: match public with Some p => [(0x99, p)] | None => [] end.
Lemma ecc_body crt ecc field_len : 1 <= field_len <= 0x2000 -> zlen (default [] (public ecc)) <= 0x2000 ->
  if ecc_scalar_fits (scalar ecc) field_len then
    exists s, let fields := ecc_fields s (public ecc) in
      ecc_extended_header_list crt ecc field_len = Ok (header_list crt (template_of fields) (data_of fields)) /\
      small_fields fields /\ from_be s = from_be (scalar ecc) /\ zlen s = field_len
  else exists n, ecc_extended_header_list crt ecc field_len = Err (mkScalarTooWide n field_len) /\ field_len < n.
Proof.
  intros Hfl Hpub. pose proof (scalar_sent_fits ecc field_len ltac:(lia)) as Hfits. unfold ecc_extended_header_list. fold (scalar_sent ecc field_len).
  destruct (strip_value (scalar ecc)) as [Hsv Hsl]. set (sc := scalar_sent ecc field_len) in *.
  assert (from_be sc = from_be (scalar ecc)) as Hsc by (subst sc; unfold scalar_sent; by destruct (_ <? _)).
  destruct (ecc_scalar_fits (scalar ecc) field_len); cbn [negb]; [|by exists (zlen sc)].
  set (s := replicate (Z.to_nat field_len - length sc) 0 ++ sc). assert (zlen s = field_len) as Hs by (subst s; zlen; unfold zlen in *; lia).
  exists s. cbv zeta. split.
  - f_equal. unfold template_of, data_of, ecc_fields. destruct (public ecc); cbn [map concat fst snd]; rewrite Hs, ?app_nil_r; subst s; by rewrite ?app_nil_r, <- ?app_assoc.
  - split; [|split; [by subst s; rewrite padded_value|done]].
    unfold ecc_fields. destruct (public ecc) as [p|]; (split; [cbn; lia|]); [change (default [] (Some p)) with p in Hpub|]; repeat constructor; cbn [snd]; lia.
Qed.
Lemma ecc_imported crt ecc field_len max_chunk : 1 <= field_len <= 0x2000 -> zlen (default [] (public ecc)) <= 0x2000 -> 1 <= max_chunk <= 255 ->
  if ecc_scalar_fits (scalar ecc) field_len then
     exists one chain s, import_ecc_key crt ecc field_len = Ok one /\ import_ecc_key_chained crt ecc field_len max_chunk = Ok chain /\
       reaches crt one chain ((0x92, s) :: match public ecc with Some p => [(0x99, p)] | None => [] end) /\
       from_be s = from_be (scalar ecc) /\ zlen s = field_len
   else exists n, import_ecc_key crt ecc field_len = Err (mkScalarTooWide n field_len) /\
     import_ecc_key_chained crt ecc field_len max_chunk = Err (mkScalarTooWide n field_len) /\ field_len < n.
Proof.
  intros Hfl Hpub Hm. pose proof (ecc_body crt ecc field_len Hfl Hpub) as Hb. unfold import_ecc_key, import_ecc_key_chained.
  destruct (ecc_scalar_fits _ _); [|destruct Hb as (n & -> & Hn); by exists n]. destruct Hb as (s & -> & Hs & Hv & Hl).
  eexists _, _, s. split; [done|]. split; [done|]. split; [by apply (reaches_fields crt (ecc_fields s (public ecc)))|done].
Qed.

(** * Properties *)

(** C22: an imported key is the key. For every slot, RSA key, import format and
    exponent width a card declares, the host sends, in one extended command and
    in a chain of short ones alike, an object in which a card that follows the
    specification finds its slot and exactly the fields of that format, in order,
    with nothing left over: each is the number it was given, the exponent in
    exactly the declared width. An exponent that is wider is refused with both
    widths and nothing is built. The same holds for a curve's key: the scalar in
    exactly the field's width and the public point as it is, a scalar that is
    wider refused. *)
Theorem pgp_key_imported (crt : KeyCrt) (rsa : RsaPrivateKeyParts) (format : RsaImportFormat) (e_bits : Z) (ecc : EccPrivateKeyParts) (field_len max_chunk : Z) :
  Forall (fun w => zlen w.2 <= 0x2000) (rsa_parts rsa CrtWithModulus) -> is_word 16 e_bits ->
  1 <= field_len <= 0x2000 -> zlen (default [] (public ecc)) <= 0x2000 -> 1 <= max_chunk <= 255 ->
  (if rsa_exponent_fits (r_e rsa) e_bits then
     exists one chain fields e rest, import_rsa_key crt rsa format e_bits = Ok one /\ import_rsa_key_chained crt rsa format e_bits max_chunk = Ok chain /\
       reaches crt one chain fields /\ Forall2 same_number fields (rsa_parts rsa format) /\ fields = (0x91, e) :: rest /\ zlen e = div_ceil8 e_bits
   else
     let refused := mkExponentTooWide (zlen (strip_leading_zero (r_e rsa))) (div_ceil8 e_bits) in
     import_rsa_key crt rsa format e_bits = Err refused /\ import_rsa_key_chained crt rsa format e_bits max_chunk = Err refused) /\
  (if ecc_scalar_fits (scalar ecc) field_len then
     exists one chain s, import_ecc_key crt ecc field_len = Ok one /\ import_ecc_key_chained crt ecc field_len max_chunk = Ok chain /\
       reaches crt one chain ((0x92, s) :: match public ecc with Some p => [(0x99, p)] | None => [] end) /\
       from_be s = from_be (scalar ecc) /\ zlen s = field_len
   else exists n, import_ecc_key crt ecc field_len = Err (mkScalarTooWide n field_len) /\
     import_ecc_key_chained crt ecc field_len max_chunk = Err (mkScalarTooWide n field_len) /\ field_len < n).
Proof. intros Hw He Hfl Hpub Hm. split; [by apply rsa_imported|by apply ecc_imported]. Qed.
Lemma pgp_key_imported_witness :
  let rsa := mkRsaParts [0x01; 0x00; 0x01] [0x00; 0xD3] [0x00; 0xC5] [0x7B] [0x11] [0x22] [0x00; 0xA2; 0x5F] in
  let ecc := mkEccParts (0x00 :: replicate 32 0x55) (Some (0x04 :: replicate 64 0x66)) in
  let wide := mkRsaParts [0x01; 0x00; 0x01] [] [] [] [] [] [] in
  (exists one chain fields e rest, import_rsa_key Decrypt rsa CrtWithModulus 32 = Ok one /\ import_rsa_key_chained Decrypt rsa CrtWithModulus 32 16 = Ok chain /\
     reaches Decrypt one chain fields /\ Forall2 same_number fields (rsa_parts rsa CrtWithModulus) /\ fields = (0x91, e) :: rest /\ zlen e = 4) /\
  (exists one chain s, import_ecc_key Decrypt ecc 32 = Ok one /\ import_ecc_key_chained Decrypt ecc 32 16 = Ok chain /\
     reaches Decrypt one chain [(0x92, s); (0x99, 0x04 :: replicate 64 0x66)] /\ from_be s = from_be (scalar ecc) /\ zlen s = 32) /\
  import_rsa_key Sign wide Standard 16 = Err (mkExponentTooWide 3 2).
Proof.
  set (ecc := mkEccParts _ _). intros rsa ecc' wide.
  pose proof (fun r f e_bits H1 H2 => pgp_key_imported Decrypt r f e_bits ecc 32 16 H1 H2 ltac:(lia) ltac:(vm_compute; discriminate) ltac:(lia)) as H.
  destruct (H rsa CrtWithModulus 32) as [H1 H2]; [repeat constructor; vm_compute; discriminate|unfold is_word; lia|].
  split; [exact H1|]. split; [exact H2|].
  pose proof (pgp_key_imported Sign wide Standard 16 ecc 32 16) as H3.
  destruct H3 as [[H3 _] _]; [repeat constructor; vm_compute; discriminate|unfold is_word; lia|lia|vm_compute; discriminate|lia|exact H3].
Defined.
