(* ===== verification/PgpData.v ===== *)
(** keyroost-openpgp/src/lib.rs, data objects: the typed parsers of what a card
    answers, and the fingerprints of its public keys. *)
From S2P Require Export PgpApdu Sha.

(** * Card data *)

Record PwStatus := mkPwStatus {
  pw1_valid_multiple : bool; max_pw1 : Z; max_rc : Z; max_pw3 : Z; tries_pw1 : Z; tries_rc : Z; tries_pw3 : Z
}.
Definition parse_pw_status (buf : list Z) : result ParseError PwStatus :=
  match buf with
  | [b0; b1; b2; b3; b4; b5; b6] => Ok (mkPwStatus (b0 =? 0x01) b1 b2 b3 b4 b5 b6)
  | _ => Err UnexpectedLength
  end.

Record AppRelatedData := mkArd {
  ard_aid : list Z; algo_attr_sig : list Z; algo_attr_dec : list Z; algo_attr_aut : list Z; pw_status : PwStatus;
  fingerprint_sig : list Z; fingerprint_dec : list Z; fingerprint_aut : list Z
}.
Definition sig_algo_id (d : AppRelatedData) : option Z := head (algo_attr_sig d).
Definition dec_algo_id (d : AppRelatedData) : option Z := head (algo_attr_dec d).
Definition aut_algo_id (d : AppRelatedData) : option Z := head (algo_attr_aut d).

(** The objects of a template, given with its own tag or without. *)
Definition template_tlvs (tag : Z) (buf : list Z) : result ParseError (list Tlv) :=
  top ← parse_tlvs buf;
  parse_tlvs (default buf (find_tag top tag)).
Definition nested (tlvs : list Tlv) (tag : Z) : result ParseError (list Z) := ok_or (MissingTag tag) (find_nested tlvs tag).

Definition parse_application_related_data (buf : list Z) : result ParseError AppRelatedData :=
  tlvs ← template_tlvs TAG_APPLICATION_RELATED_DATA buf;
  aid ← nested tlvs TAG_AID;
  sig ← nested tlvs TAG_ALGO_ATTR_SIG;
  dec ← nested tlvs TAG_ALGO_ATTR_DEC;
  aut ← nested tlvs TAG_ALGO_ATTR_AUT;
  pw_raw ← nested tlvs TAG_PW_STATUS;
  pw ← parse_pw_status pw_raw;
  fpr ← nested tlvs TAG_FINGERPRINTS;
  if zlen fpr <? 60 then Err UnexpectedLength
  else Ok (mkArd aid sig dec aut pw (slice fpr 0 20) (slice fpr 20 40) (slice fpr 40 60)).

Record AlgorithmInformation := mkAlgInfo { i_sig : list (list Z); i_dec : list (list Z); i_aut : list (list Z) }.
Definition raw (i : AlgorithmInformation) (crt : KeyCrt) : list (list Z) := by_slot (i_sig i) (i_dec i) (i_aut i) crt.
Definition add_alg (out : list KeyAlg) (attr : list Z) : list KeyAlg :=
  match a ← result_ok (parse_algorithm_attributes attr); attr_key_alg a with
  | Some alg => if bool_decide (alg ∈ out) then out else out ++ [alg]
  | None => out
  end.
Definition key_algs (i : AlgorithmInformation) (crt : KeyCrt) : list KeyAlg := fold_left add_alg (raw i crt) [].
Definition info_entry (i : AlgorithmInformation) (t : Tlv) : AlgorithmInformation :=
  if t_tag t =? TAG_ALGO_ATTR_SIG then mkAlgInfo (i_sig i ++ [t_value t]) (i_dec i) (i_aut i)
  else if t_tag t =? TAG_ALGO_ATTR_DEC then mkAlgInfo (i_sig i) (i_dec i ++ [t_value t]) (i_aut i)
  else if t_tag t =? TAG_ALGO_ATTR_AUT then mkAlgInfo (i_sig i) (i_dec i) (i_aut i ++ [t_value t])
  else i.
Definition parse_algorithm_information (buf : list Z) : result ParseError AlgorithmInformation :=
  tlvs ← template_tlvs TAG_ALGORITHM_INFORMATION buf;
  let info := fold_left info_entry tlvs (mkAlgInfo [] [] []) in
  if bool_decide (i_sig info = []) && bool_decide (i_dec info = []) && bool_decide (i_aut info = []) then Err (MissingTag TAG_ALGORITHM_INFORMATION)
  else Ok info.

Definition parse_signature_counter (buf : list Z) : result ParseError Z :=
  tlvs ← template_tlvs TAG_SECURITY_SUPPORT buf;
  v ← nested tlvs TAG_DS_COUNTER;
  match v with
  | [a; b; c] => Ok (Z.lor (Z.lor (Z.shiftl a 16) (Z.shiftl b 8)) c)
  | _ => Err UnexpectedLength
  end.

Inductive PublicKey := PubRsa (modulus exponent : list Z) | PubEcc (point : list Z).
Definition parse_generated_public_key (buf : list Z) : result ParseError PublicKey :=
  tlvs ← template_tlvs TAG_PUBLIC_KEY buf;
  match find_nested tlvs TAG_EC_PUBLIC_POINT with
  | Some point => Ok (PubEcc point)
  | None =>
      modulus ← nested tlvs TAG_RSA_MODULUS;
      exponent ← nested tlvs TAG_RSA_EXPONENT;
      Ok (PubRsa modulus exponent)
  end.

(** * Fingerprints *)

Definition top_bits (b : Z) : Z := if b =? 0 then 0 else Z.log2 b + 1.
Definition mpi (bytes : list Z) : list Z :=
  let value := drop_zeros bytes in
  match value with
  | [] => [0x00; 0x00]
  | b :: rest =>
      let bit_len := top_bits b + 8 * zlen rest in
      [cast 8 (Z.shiftr bit_len 8); cast 8 (Z.land bit_len 0xFF)] ++ value
  end.

Definition v4_fingerprint_envelope (body : list Z) : list Z :=
  let len := cast 16 (zlen body) in
  Sha1.sha1 ([0x99; cast 8 (Z.shiftr len 8); cast 8 (Z.land len 0xFF)] ++ body).
Definition rsa_packet (modulus exponent : list Z) (creation_time : Z) : list Z :=
  [0x04] ++ to_be 4 creation_time ++ [0x01] ++ mpi modulus ++ mpi exponent.
Definition rsa_v4_fingerprint (modulus exponent : list Z) (creation_time : Z) : list Z :=
  v4_fingerprint_envelope (rsa_packet modulus exponent creation_time).

Definition ecdh_kdf_params (c : Curve) : list Z :=
  if curve_bits c <=? 256 then [0x03; 0x01; 0x08; 0x07]
  else if curve_bits c <=? 384 then [0x03; 0x01; 0x09; 0x08]
  else [0x03; 0x01; 0x0A; 0x09].
Definition packet_point (c : Curve) (point : list Z) : list Z := if is_25519 c && (zlen point =? 32) then 0x40 :: point else point.
Definition ecc_packet (kind : EccKind) (c : Curve) (point : list Z) (creation_time : Z) : list Z :=
  [0x04] ++ to_be 4 creation_time ++ [kind_id kind; cast 8 (zlen (oid c))] ++ oid c ++ mpi (packet_point c point) ++
  (if bool_decide (kind = Ecdh) then ecdh_kdf_params c else []).
Definition ecc_v4_fingerprint (kind : EccKind) (c : Curve) (point : list Z) (creation_time : Z) : list Z :=
  v4_fingerprint_envelope (ecc_packet kind c point creation_time).
Definition v4_fingerprint (key : PublicKey) (attrs : AlgorithmAttributes) (creation_time : Z) : result ParseError (list Z) :=
  match key, attrs with
  | PubRsa modulus exponent, AttrRsa _ => Ok (rsa_v4_fingerprint modulus exponent creation_time)
  | PubEcc point, AttrEcc kind c _ => Ok (ecc_v4_fingerprint kind c point creation_time)
  | _, _ => Err UnsupportedAlgorithm
  end.

(** * What cards and other programs read *)

(** What a card answers: the template, or the objects it is of. *)
Definition card_answer (tag : Z) (os : list Object) (buf : list Z) : Prop :=
  (zlen (objects_bytes os) <= 0xFFFF /\ buf = object_bytes (Node tag os)) \/
  (Forall (fun o => object_tag o <> tag) os /\ buf = objects_bytes os).
Definition values (tag : Z) (os : list Object) : list (list Z) := object_value <$> filter (fun o => object_tag o = tag) os.

(** A number of RFC 4880: how many bits it is, and those bits. *)
Definition rfc_mpi (bs : list Z) : option (Z * list Z) :=
  match bs with
  | hi :: lo :: rest =>
      let bits := hi * 256 + lo in let n := (bits + 7) / 8 in let v := from_be (take (Z.to_nat n) rest) in
      if (zlen rest <? n) || negb (bits =? if v =? 0 then 0 else Z.log2 v + 1) then None else Some (v, drop (Z.to_nat n) rest)
  | _ => None
  end.
(** A public key of RFC 4880, 5.5.2, and RFC 6637, 9. *)
Inductive RfcKey := RfcRsa (time n e : Z) | RfcEcc (time id : Z) (curve : list Z) (point : Z) (kdf : list Z).
Definition rfc_key (body : list Z) : option RfcKey :=
  match body with
  | 4 :: a :: b :: c :: d :: id :: rest =>
      let time := from_be [a; b; c; d] in
      if id =? 1 then '(n, rest) ← rfc_mpi rest; '(e, rest) ← rfc_mpi rest; if bool_decide (rest = []) then Some (RfcRsa time n e) else None
      else match rest with
           | len :: rest => '(point, kdf) ← rfc_mpi (drop (Z.to_nat len) rest); Some (RfcEcc time id (take (Z.to_nat len) rest) point kdf)
           | [] => None
           end
  | _ => None
  end.

(** * Lemmas *)

Lemma template_back tag os buf : tag_ok tag -> Forall (object_ok 15) os -> card_answer tag os buf -> template_tlvs tag buf = Ok (map tlv_of os).
Proof.
  intros Ht Ho Ha. unfold template_tlvs. pose proof (objects_shape _ _ Ho) as Hs. destruct Ha as [[Hl ->]|[Hne ->]].
  - assert (object_bytes (Node tag os) = objects_bytes [Node tag os]) as -> by (unfold objects_bytes; cbn [map concat]; by rewrite app_nil_r).
    rewrite parse_tlvs_back by (constructor; [by split|constructor]). cbn [mbind result_bind]. rewrite find_tag_back. cbn [find_map object_tag object_value].
    rewrite Z.eqb_refl. by apply parse_tlvs_back.
  - rewrite parse_tlvs_back by done. cbn [mbind result_bind]. rewrite find_tag_back.
    assert (find_map (fun o => if object_tag o =? tag then Some (object_value o) else None) os = None) as ->.
    { clear -Hne. induction Hne as [|o os Ho Hne IH]; [done|]. cbn [find_map]. by rewrite (proj2 (Z.eqb_neq _ _) Ho). }
    by apply parse_tlvs_back.
Qed.
Lemma nested_back os tag : Forall (object_ok 15) os -> nested (map tlv_of os) tag = ok_or (MissingTag tag) (find_objects tag os).
Proof. intros Ho. unfold nested, find_nested. by rewrite (find_nested_back 15). Qed.

Lemma template_entries os i : fold_left info_entry (map tlv_of os) i =
  mkAlgInfo (i_sig i ++ values TAG_ALGO_ATTR_SIG os) (i_dec i ++ values TAG_ALGO_ATTR_DEC os) (i_aut i ++ values TAG_ALGO_ATTR_AUT os).
Proof.
  revert i. unfold values. induction os as [|o os IH]; intros i; [cbn; rewrite !app_nil_r; by destruct i|]. cbn [map fold_left]. rewrite IH.
  rewrite !filter_cons. unfold info_entry, tlv_of. cbn [t_tag t_value].
  unfold TAG_ALGO_ATTR_SIG, TAG_ALGO_ATTR_DEC, TAG_ALGO_ATTR_AUT.
  repeat case_decide; try lia;
    repeat match goal with |- context [object_tag o =? ?x] => first [rewrite (proj2 (Z.eqb_eq (object_tag o) x)) by lia|rewrite (proj2 (Z.eqb_neq (object_tag o) x)) by lia] end;
    cbn [i_sig i_dec i_aut fmap list_fmap]; rewrite <- ?app_assoc; done.
Qed.

Lemma add_algs attrs out : NoDup out ->
  NoDup (fold_left add_alg attrs out) /\
  forall alg, alg ∈ fold_left add_alg attrs out <-> alg ∈ out \/ exists attr a, attr ∈ attrs /\ parse_algorithm_attributes attr = Ok a /\ attr_key_alg a = Some alg.
Proof.
  revert out. induction attrs as [|attr attrs IH]; intros out Hn.
  - split; [done|]. intros alg. split; [by left|]. intros [H|(attr & a & H & _)]; [done|]. by apply not_elem_of_nil in H.
  - cbn [fold_left]. assert (NoDup (add_alg out attr) /\ forall alg, alg ∈ add_alg out attr <-> alg ∈ out \/ exists a, parse_algorithm_attributes attr = Ok a /\ attr_key_alg a = Some alg) as [Hn' Hin].
    { clear IH. unfold add_alg. destruct (parse_algorithm_attributes attr) as [a|e]; cbn [result_ok mbind option_bind];
        [|split; [done|]; intros alg; split; [by left|by intros [?|(? & [=] & _)]]].
      destruct (attr_key_alg a) as [alg0|] eqn:Ea; [|split; [done|]; intros alg; split; [by left|intros [?|(? & [= <-] & Hx)]; [done|by rewrite Ea in Hx]]].
      assert (forall alg, (exists a0, Ok (E := ParseError) a = Ok a0 /\ attr_key_alg a0 = Some alg) <-> alg = alg0) as Hone
        by (intros alg; split; [intros (? & [= <-] & Hx); rewrite Ea in Hx; by inversion Hx|intros ->; by exists a]).
      cut (NoDup (if bool_decide (alg0 ∈ out) then out else out ++ [alg0]) /\ forall alg, alg ∈ (if bool_decide (alg0 ∈ out) then out else out ++ [alg0]) <-> alg ∈ out \/ alg = alg0); [intros [H1 H2]; split; [done|]; intros alg; by rewrite H2, Hone|].
      case_bool_decide as Hd.
      - split; [done|]. intros alg. split; [by left|]. by intros [?| ->].
      - split; [apply list.NoDup_app; split; [done|]; split; [intros x Hx Hx2%list_elem_of_singleton; by subst|apply NoDup_singleton]|].
        intros alg. by rewrite elem_of_app, list_elem_of_singleton. }
    destruct (IH _ Hn') as [H1 H2]. split; [done|]. intros alg. rewrite H2, Hin. setoid_rewrite elem_of_cons. clear.
    split; [intros [[?|(a & ?)]|(x & a & ? & ?)]; [by left|right; exists attr, a; tauto|right; exists x, a; tauto]|].
    intros [?|(x & a & [->|?] & ?)]; [by left; left|left; right; by exists a|right; by exists x, a].
Qed.

Lemma drop_zeros_value v : from_be (drop_zeros v) = from_be v /\ zlen (drop_zeros v) <= zlen v /\ (Bytes v -> Bytes (drop_zeros v)) /\
  match drop_zeros v with [] => True | b :: _ => b <> 0 end.
Proof.
  induction v as [|b v (IH1 & IH2 & IH3 & IH4)]; [done|]. cbn [drop_zeros]. destruct (b =? 0) eqn:E; bools; [|done].
  subst b. rewrite from_be_zero. split; [done|]. split; [zlen; lia|]. split; [|done]. intros Hb. apply IH3. by inversion Hb.
Qed.
Lemma top_value b rest : 0 < b < 256 -> Bytes rest -> Z.log2 (from_be (b :: rest)) + 1 = top_bits b + 8 * zlen rest /\ 0 < from_be (b :: rest) /\ 1 <= top_bits b <= 8.
Proof.
  intros Hb Hr. pose proof (from_be_bound rest Hr) as Hf. pose proof (zlen_nonneg rest) as Hz. unfold top_bits. rewrite (proj2 (Z.eqb_neq b 0)) by lia.
  pose proof (Z.log2_spec b ltac:(lia)) as Hl. pose proof (Z.log2_nonneg b). assert (Z.log2 b < 8) by (apply Z.log2_lt_pow2; lia).
  rewrite from_be_cons. assert (0 < 2 ^ (8 * zlen rest)) by (apply Z.pow_pos_nonneg; lia). split; [|split; [nia|lia]].
  rewrite (Z.log2_unique _ (Z.log2 b + 8 * zlen rest)); [lia|lia|]. rewrite <- Z.add_succ_l, !Z.pow_add_r by lia. nia.
Qed.
Lemma mpi_back v rest : Bytes v -> zlen v <= 0x1FFF -> rfc_mpi (mpi v ++ rest) = Some (from_be v, rest).
Proof.
  intros Hv Hl. destruct (drop_zeros_value v) as (Hf & Hle & Hb & Hnz). unfold mpi. rewrite <- Hf. specialize (Hb Hv).
  destruct (drop_zeros v) as [|b t]; [by pose proof (zlen_nonneg rest); cbn; rewrite (proj2 (Z.ltb_ge _ _))|].
  inversion Hb as [|? ? Hbb Ht]; subst. unfold is_byte in Hbb. destruct (top_value b t ltac:(lia) Ht) as (Hlog & Hpos & Htop).
  set (bits := top_bits b + 8 * zlen t) in *. pose proof (zlen_nonneg t). rewrite zlen_cons in Hle.
  cbn [app rfc_mpi]. rewrite Z.shiftr_div_pow2 by lia. change 0xFF with (2 ^ 8 - 1). rewrite land_ones_mod by lia. change (2 ^ 8) with 256.
  rewrite (cast_small 8 (bits / 256)) by (unfold is_word; lia_div). rewrite (cast_small 8 (bits mod 256)) by (unfold is_word; lia_div).
  assert (bits / 256 * 256 + bits mod 256 = bits) as -> by lia_div. assert ((bits + 7) / 8 = zlen (b :: t)) as -> by (rewrite zlen_cons; lia_div).
  change (b :: t ++ rest) with ((b :: t) ++ rest). rewrite take_zlen, drop_zlen, zlen_app, (proj2 (Z.ltb_ge _ _)) by (pose proof (zlen_nonneg rest); lia).
  rewrite (proj2 (Z.eqb_neq _ 0)) by lia. by rewrite Hlog, Z.eqb_refl.
Qed.
Lemma packet_point_bytes c point : Bytes point -> zlen point <= 0x1FFE -> Bytes (packet_point c point) /\ zlen (packet_point c point) <= 0x1FFF.
Proof. intros Hb Hl. unfold packet_point. destruct (_ && _); [|split; [done|lia]]. split; [constructor; [by unfold is_byte|done]|zlen; lia]. Qed.
Lemma envelope_length body : zlen body <= 0xFFFF -> v4_fingerprint_envelope body = Sha1.sha1 ([0x99] ++ to_be 2 (zlen body) ++ body).
Proof.
  intros Hl. pose proof (zlen_nonneg body). unfold v4_fingerprint_envelope. rewrite (cast_small 16) by (unfold is_word; lia).
  rewrite Z.shiftr_div_pow2 by lia. change 0xFF with (2 ^ 8 - 1). rewrite land_ones_mod by lia. change (2 ^ 8) with 256.
  rewrite (cast_small 8 (_ / 256)) by (unfold is_word; lia_div). rewrite (cast_small 8 (_ mod 256)) by (unfold is_word; lia_div).
  assert (to_be 2 (zlen body) = [zlen body / 256; zlen body mod 256]) as ->; [|reflexivity].
  unfold to_be. cbn [to_le rev app]. by rewrite (Z.mod_small (zlen body / 256)) by lia_div.
Qed.
Lemma zlen_mpi v : zlen (mpi v) <= zlen v + 2.
Proof. destruct (drop_zeros_value v) as (_ & Hle & _). unfold mpi. destruct (drop_zeros v); zlen; lia. Qed.
Lemma rfc_time_back time id rest : is_word 32 time ->
  exists a b c d, [0x04] ++ to_be 4 time ++ [id] ++ rest = 0x04 :: a :: b :: c :: d :: id :: rest /\ from_be [a; b; c; d] = time.
Proof.
  intros Ht. pose proof (length_to_be 4 time) as Hl. pose proof (from_be_to_be_small 4 time Ht) as Hf.
  destruct (to_be 4 time) as [|a [|b [|c [|d [|? ?]]]]]; try done. by exists a, b, c, d.
Qed.
Lemma rsa_packet_read n e time : Bytes n -> Bytes e -> zlen n <= 0x1FFE -> zlen e <= 0x1FFE -> is_word 32 time ->
  rfc_key (rsa_packet n e time) = Some (RfcRsa time (from_be n) (from_be e)) /\ zlen (rsa_packet n e time) <= 0xFFFF.
Proof.
  intros Hn He Hnl Hel Ht. split; [|pose proof (zlen_mpi n); pose proof (zlen_mpi e); unfold rsa_packet; zlen; lia].
  unfold rsa_packet. destruct (rfc_time_back time 1 (mpi n ++ mpi e) Ht) as (a & b & c & d & -> & Hf). unfold rfc_key. rewrite Hf. cbv zeta. rewrite Z.eqb_refl.
  rewrite mpi_back by (done || lia). cbn [mbind option_bind]. rewrite <- (app_nil_r (mpi e)), mpi_back by (done || lia). done.
Qed.
Lemma ecc_packet_read kind c point time : Bytes point -> zlen point <= 0x1FFE -> is_word 32 time ->
  rfc_key (ecc_packet kind c point time) =
    Some (RfcEcc time (kind_id kind) (oid c) (from_be (packet_point c point)) (if bool_decide (kind = Ecdh) then ecdh_kdf_params c else [])) /\
  zlen (ecc_packet kind c point time) <= 0xFFFF.
Proof.
  intros Hp Hl Ht. destruct (packet_point_bytes c point Hp Hl) as [Hb Hl']. unfold ecc_packet.
  set (kdf := if bool_decide _ then _ else _). assert (zlen kdf <= 4) as Hk by (subst kdf; unfold ecdh_kdf_params; repeat case_match; by vm_compute).
  assert (cast 8 (zlen (oid c)) = zlen (oid c) /\ zlen (oid c) <= 10) as [Hcast Ho] by (by destruct c; split; vm_compute).
  split; [|pose proof (zlen_mpi (packet_point c point)); zlen; lia]. rewrite Hcast.
  change ([kind_id kind; zlen (oid c)] ++ ?r) with ([kind_id kind] ++ [zlen (oid c)] ++ r).
  destruct (rfc_time_back time (kind_id kind) ([zlen (oid c)] ++ oid c ++ mpi (packet_point c point) ++ kdf) Ht) as (x1 & x2 & x3 & x4 & -> & Hf).
  unfold rfc_key. rewrite Hf. cbv zeta. rewrite (proj2 (Z.eqb_neq (kind_id kind) 1)) by (by destruct kind). cbn [app].
  rewrite drop_zlen, take_zlen, mpi_back by (done || lia). done.
Qed.

Section Answers.
Context (os : list Object) (buf : list Z) (Ho : Forall (object_ok 15) os).

Lemma ard_read : card_answer TAG_APPLICATION_RELATED_DATA os buf ->
  (forall t, t ∈ [TAG_AID; TAG_ALGO_ATTR_SIG; TAG_ALGO_ATTR_DEC; TAG_ALGO_ATTR_AUT; TAG_PW_STATUS; TAG_FINGERPRINTS] ->
     find_objects t os = None -> exists e, parse_application_related_data buf = Err e) /\
  (forall aid sig dec aut pw fpr, find_objects TAG_AID os = Some aid -> find_objects TAG_ALGO_ATTR_SIG os = Some sig ->
     find_objects TAG_ALGO_ATTR_DEC os = Some dec -> find_objects TAG_ALGO_ATTR_AUT os = Some aut ->
     find_objects TAG_PW_STATUS os = Some pw -> find_objects TAG_FINGERPRINTS os = Some fpr ->
     match parse_application_related_data buf with
     | Ok d =>
         ard_aid d = aid /\ algo_attr_sig d = sig /\ algo_attr_dec d = dec /\ algo_attr_aut d = aut /\
         (exists b0, pw1_valid_multiple (pw_status d) = (b0 =? 1) /\
           pw = [b0; max_pw1 (pw_status d); max_rc (pw_status d); max_pw3 (pw_status d); tries_pw1 (pw_status d); tries_rc (pw_status d); tries_pw3 (pw_status d)]) /\
         (exists rest, fpr = fingerprint_sig d ++ fingerprint_dec d ++ fingerprint_aut d ++ rest) /\
         length (fingerprint_sig d) = 20%nat /\ length (fingerprint_dec d) = 20%nat /\ length (fingerprint_aut d) = 20%nat
     | Err e => e = UnexpectedLength /\ (length pw <> 7%nat \/ zlen fpr < 60)
     end).
Proof using Ho.
  intros Ha. unfold parse_application_related_data. rewrite (template_back _ os) by (done || (left; done)). cbn [mbind result_bind].
  rewrite !(nested_back os) by done. split.
  - intros t Hin Ht. rewrite !elem_of_cons, elem_of_nil in Hin.
    repeat (destruct Hin as [->|Hin]; [rewrite Ht; cbn [ok_or];
      repeat match goal with |- context [ok_or _ (find_objects ?x os)] => destruct (find_objects x os); cbn [ok_or mbind result_bind] end;
      try (destruct (parse_pw_status _); cbn [mbind result_bind]); by eexists|]); done.
  - intros aid sig dec aut pw fpr -> -> -> -> -> ->. cbn [ok_or mbind result_bind].
    destruct (parse_pw_status pw) as [w|e] eqn:Ew; cbn [mbind result_bind];
      [|unfold parse_pw_status in Ew; destruct pw as [|? [|? [|? [|? [|? [|? [|? [|? ?]]]]]]]]; inversion Ew; (split; [done|]); left; cbn; lia].
    destruct (zlen fpr <? 60) eqn:El; bools; [by split; [|right]|]. cbn [ard_aid algo_attr_sig algo_attr_dec algo_attr_aut pw_status fingerprint_sig fingerprint_dec fingerprint_aut].
    unfold zlen in El. do 4 (split; [done|]). split.
    { unfold parse_pw_status in Ew. destruct pw as [|b0 [|? [|? [|? [|? [|? [|? [|? ?]]]]]]]]; inversion Ew. by exists b0. }
    unfold slice. split; [exists (drop 60 fpr)|rewrite !length_take, !length_drop; lia].
    change (40 - 20)%nat with 20%nat. change (60 - 40)%nat with 20%nat. change (20 - 0)%nat with 20%nat. rewrite drop_0.
    rewrite <- (take_drop 20 fpr) at 1. f_equal. rewrite <- (take_drop 20 (drop 20 fpr)) at 1. rewrite drop_drop. f_equal.
    rewrite <- (take_drop 20 (drop _ fpr)) at 1. by rewrite drop_drop.
Qed.
Lemma public_key_read : card_answer TAG_PUBLIC_KEY os buf -> parse_generated_public_key buf =
  match find_objects TAG_EC_PUBLIC_POINT os, find_objects TAG_RSA_MODULUS os, find_objects TAG_RSA_EXPONENT os with
  | Some p, _, _ => Ok (PubEcc p)
  | None, Some n, Some e => Ok (PubRsa n e)
  | None, None, _ => Err (MissingTag TAG_RSA_MODULUS)
  | None, Some _, None => Err (MissingTag TAG_RSA_EXPONENT)
  end.
Proof using Ho.
  intros Ha. unfold parse_generated_public_key. rewrite (template_back _ os) by (done || (right; by exists 0x7F, 0x49)). cbn [mbind result_bind].
  unfold find_nested. rewrite (find_nested_back 15) by done. rewrite !(nested_back os) by done.
  destruct (find_objects TAG_EC_PUBLIC_POINT os); [done|]. destruct (find_objects TAG_RSA_MODULUS os); [|done]. by destruct (find_objects TAG_RSA_EXPONENT os).
Qed.
Lemma counter_read n : card_answer TAG_SECURITY_SUPPORT os buf -> is_word 24 n -> find_objects TAG_DS_COUNTER os = Some (to_be 3 n) -> parse_signature_counter buf = Ok n.
Proof using Ho.
  intros Ha Hn Hf. unfold parse_signature_counter. rewrite (template_back _ os) by (done || (left; done)). cbn [mbind result_bind].
  rewrite (nested_back os), Hf by done. cbn [ok_or mbind result_bind]. unfold to_be. cbn [to_le rev app].
  unfold is_word in Hn. change (2 ^ 24) with 16777216 in Hn. rewrite (Z.mod_small (n / 256 / 256)) by lia_div.
  change 16 with (8 + 8). rewrite <- (Z.shiftl_shiftl (n / 256 / 256) 8 8), <- Z.shiftl_lor by lia. rewrite (lor_shiftl_add _ (n / 256 mod 256)) by lia_div.
  rewrite lor_shiftl_add by lia_div. change (2 ^ 8) with 256. f_equal. lia_div.
Qed.
Lemma info_read : card_answer TAG_ALGORITHM_INFORMATION os buf ->
  match parse_algorithm_information buf with
  | Ok info =>
      (forall crt, raw info crt = values (algo_attr_tag crt) os) /\ (exists crt, raw info crt <> []) /\
      forall crt, NoDup (key_algs info crt) /\ forall alg, alg ∈ key_algs info crt <->
        exists attr a, attr ∈ values (algo_attr_tag crt) os /\ parse_algorithm_attributes attr = Ok a /\ attr_key_alg a = Some alg
  | Err e => e = MissingTag TAG_ALGORITHM_INFORMATION /\ forall crt, values (algo_attr_tag crt) os = []
  end.
Proof using Ho.
  intros Ha. unfold parse_algorithm_information. rewrite (template_back _ os) by (done || (left; done)). cbn [mbind result_bind].
  rewrite template_entries. cbn [i_sig i_dec i_aut app]. set (info := mkAlgInfo _ _ _).
  assert (forall crt, raw info crt = values (algo_attr_tag crt) os) as Hraw by (by intros []).
  destruct (_ && _) eqn:E.
  - apply andb_true_iff in E as [[E1 E2]%andb_true_iff E3]. rewrite !bool_decide_eq_true in E1, E2, E3. split; [done|]. by intros [].
  - split; [done|]. split.
    + repeat (apply andb_false_iff in E as [E|E]); apply bool_decide_eq_false in E; [exists Sign|exists Decrypt|exists Auth]; by rewrite Hraw.
    + intros crt. unfold key_algs. rewrite Hraw. destruct (add_algs (values (algo_attr_tag crt) os) [] (NoDup_nil_2)) as [H1 H2].
      split; [done|]. intros alg. rewrite H2. split; [intros [H|H]; [by apply not_elem_of_nil in H|done]|by right].
Qed.
End Answers.

(** * Properties *)

(** C23: what a card answers is what is shown. For any tree of objects a card may
    nest, sixteen deep, answered as the template or as what is in it: the
    application's data are refused when one is missing, and otherwise hold the
    first object of each tag, the three fingerprints and the seven bytes of the
    PINs' state apart; the public key is the point where there is one, else
    modulus and exponent; the counter is the big-endian number; the algorithms
    are each slot's, in order, and listed once each, exactly those whose
    attributes are known. *)
Theorem pgp_card_data_read (os : list Object) (buf : list Z) : Forall (object_ok 15) os ->
  (card_answer TAG_APPLICATION_RELATED_DATA os buf ->
     (forall t, t ∈ [TAG_AID; TAG_ALGO_ATTR_SIG; TAG_ALGO_ATTR_DEC; TAG_ALGO_ATTR_AUT; TAG_PW_STATUS; TAG_FINGERPRINTS] ->
        find_objects t os = None -> exists e, parse_application_related_data buf = Err e) /\
     (forall aid sig dec aut pw fpr, find_objects TAG_AID os = Some aid -> find_objects TAG_ALGO_ATTR_SIG os = Some sig ->
        find_objects TAG_ALGO_ATTR_DEC os = Some dec -> find_objects TAG_ALGO_ATTR_AUT os = Some aut ->
        find_objects TAG_PW_STATUS os = Some pw -> find_objects TAG_FINGERPRINTS os = Some fpr ->
        match parse_application_related_data buf with
        | Ok d =>
            ard_aid d = aid /\ algo_attr_sig d = sig /\ algo_attr_dec d = dec /\ algo_attr_aut d = aut /\
            (exists b0, pw1_valid_multiple (pw_status d) = (b0 =? 1) /\
              pw = [b0; max_pw1 (pw_status d); max_rc (pw_status d); max_pw3 (pw_status d); tries_pw1 (pw_status d); tries_rc (pw_status d); tries_pw3 (pw_status d)]) /\
            (exists rest, fpr = fingerprint_sig d ++ fingerprint_dec d ++ fingerprint_aut d ++ rest) /\
            length (fingerprint_sig d) = 20%nat /\ length (fingerprint_dec d) = 20%nat /\ length (fingerprint_aut d) = 20%nat
        | Err e => e = UnexpectedLength /\ (length pw <> 7%nat \/ zlen fpr < 60)
        end)) /\
  (card_answer TAG_PUBLIC_KEY os buf -> parse_generated_public_key buf =
     match find_objects TAG_EC_PUBLIC_POINT os, find_objects TAG_RSA_MODULUS os, find_objects TAG_RSA_EXPONENT os with
     | Some p, _, _ => Ok (PubEcc p)
     | None, Some n, Some e => Ok (PubRsa n e)
     | None, None, _ => Err (MissingTag TAG_RSA_MODULUS)
     | None, Some _, None => Err (MissingTag TAG_RSA_EXPONENT)
     end) /\
  (card_answer TAG_SECURITY_SUPPORT os buf -> forall n, is_word 24 n ->
     find_objects TAG_DS_COUNTER os = Some (to_be 3 n) -> parse_signature_counter buf = Ok n) /\
  (card_answer TAG_ALGORITHM_INFORMATION os buf ->
     match parse_algorithm_information buf with
     | Ok info =>
         (forall crt, raw info crt = values (algo_attr_tag crt) os) /\ (exists crt, raw info crt <> []) /\
         forall crt, NoDup (key_algs info crt) /\ forall alg, alg ∈ key_algs info crt <->
           exists attr a, attr ∈ values (algo_attr_tag crt) os /\ parse_algorithm_attributes attr = Ok a /\ attr_key_alg a = Some alg
     | Err e => e = MissingTag TAG_ALGORITHM_INFORMATION /\ forall crt, values (algo_attr_tag crt) os = []
     end).
Proof.
  intros Ho. split; [|split; [|split]].
  - intros Ha. by apply ard_read.
  - intros Ha. by apply public_key_read.
  - intros Ha n Hn Hf. by apply (counter_read os).
  - intros Ha. by apply info_read.
Qed.

Lemma pgp_card_data_read_witness :
  let aid := [0xD2; 0x76; 0x00; 0x01; 0x24; 0x01] in let fpr := replicate 20 1 ++ replicate 20 2 ++ replicate 20 3 in
  let os := [Leaf 0x4F aid;
             Node 0x73 [Leaf 0xC1 [0x16; 0x2B; 0x06]; Leaf 0xC2 [0x01; 0x08; 0x00; 0x00; 0x20; 0x00]; Leaf 0xC3 [0x16]; Leaf 0xC4 [0; 127; 127; 127; 3; 0; 3]; Leaf 0xC5 fpr];
             Leaf 0x93 [0x01; 0x00; 0x02]; Leaf 0x86 [0x55; 0x66]] in
  (exists d, parse_application_related_data (object_bytes (Node 0x6E os)) = Ok d /\ ard_aid d = aid /\ algo_attr_sig d = [0x16; 0x2B; 0x06]) /\
  parse_generated_public_key (object_bytes (Node 0x7F49 os)) = Ok (PubEcc [0x55; 0x66]) /\
  parse_signature_counter (objects_bytes os) = Ok 65538.
Proof.
  intros aid fpr os. assert (Forall (object_ok 15) os) as Ho
    by (repeat constructor; try (left; split; vm_compute; (discriminate || (split; congruence))); vm_compute; (reflexivity || discriminate)).
  pose proof (fun buf => pgp_card_data_read os buf Ho) as H. split; [|split].
  - destruct (H (object_bytes (Node 0x6E os))) as (H1 & _). destruct H1 as [_ H1]; [left; split; [vm_compute; discriminate|reflexivity]|].
    specialize (H1 _ _ _ _ _ _ eq_refl eq_refl eq_refl eq_refl eq_refl eq_refl).
    destruct (parse_application_related_data _) as [d|e]; [exists d; tauto|destruct H1 as [_ [H1|H1]]; exfalso; [by apply H1|by vm_compute in H1]].
  - destruct (H (object_bytes (Node 0x7F49 os))) as (_ & H1 & _). etransitivity; [apply H1; left; split; [vm_compute; discriminate|reflexivity]|vm_compute; reflexivity].
  - destruct (H (objects_bytes os)) as (_ & _ & H1 & _).
    apply H1; [right; split; [repeat constructor; vm_compute; discriminate|reflexivity]|unfold is_word; lia|vm_compute; reflexivity].
Defined.

(** A fingerprint is the key's. The SHA-1 is of a public-key packet in which a
    reader of RFC 4880 and 6637 finds the creation time, the algorithm, the
    numbers of the key whatever zeros they were given with, and for a curve its
    name, the native points of the 25519 curves marked as such, and the key
    derivation of an ECDH key; a key that is not of the attributes' kind has no
    fingerprint. *)
Theorem pgp_fingerprint_packet (key : PublicKey) (attrs : AlgorithmAttributes) (time : Z) :
  is_word 32 time -> match key with PubRsa n e => Bytes n /\ Bytes e /\ zlen n <= 0x1FFE /\ zlen e <= 0x1FFE | PubEcc p => Bytes p /\ zlen p <= 0x1FFE end ->
  match key, attrs with
  | PubRsa n e, AttrRsa _ => exists body, v4_fingerprint key attrs time = Ok (Sha1.sha1 ([0x99] ++ to_be 2 (zlen body) ++ body)) /\
      rfc_key body = Some (RfcRsa time (from_be n) (from_be e))
  | PubEcc p, AttrEcc kind c _ => exists body, v4_fingerprint key attrs time = Ok (Sha1.sha1 ([0x99] ++ to_be 2 (zlen body) ++ body)) /\
      rfc_key body = Some (RfcEcc time (kind_id kind) (oid c) ((if is_25519 c && (zlen p =? 32) then 0x40 * 2 ^ 256 else 0) + from_be p)
        (if bool_decide (kind = Ecdh) then ecdh_kdf_params c else []))
  | _, _ => v4_fingerprint key attrs time = Err UnsupportedAlgorithm
  end.
Proof.
  intros Ht Hk. destruct key as [n e|p], attrs as [r|kind c fmt]; try done.
  - destruct Hk as (Hn & He & Hnl & Hel). destruct (rsa_packet_read n e time Hn He Hnl Hel Ht) as [Hr Hl].
    exists (rsa_packet n e time). cbn [v4_fingerprint]. unfold rsa_v4_fingerprint. by rewrite envelope_length.
  - destruct Hk as (Hp & Hpl). destruct (ecc_packet_read kind c p time Hp Hpl Ht) as [Hr Hl].
    exists (ecc_packet kind c p time). cbn [v4_fingerprint]. unfold ecc_v4_fingerprint. rewrite envelope_length by done. split; [done|]. rewrite Hr.
    do 2 f_equal. unfold packet_point. destruct (is_25519 c && (zlen p =? 32)) eqn:E; [|done]. bools. rewrite from_be_cons. by replace (zlen p) with 32 by lia.
Qed.
Lemma pgp_fingerprint_packet_witness :
  let key := PubEcc (replicate 32 0x42) in
  exists body, v4_fingerprint key (AttrEcc EdDsa Ed25519 false) 0x5D2C0B00 = Ok (Sha1.sha1 ([0x99] ++ to_be 2 (zlen body) ++ body)) /\
    rfc_key body = Some (RfcEcc 0x5D2C0B00 0x16 (oid Ed25519) (0x40 * 2 ^ 256 + from_be (replicate 32 0x42)) []).
Proof.
  intros key. refine (pgp_fingerprint_packet key (AttrEcc EdDsa Ed25519 false) 0x5D2C0B00 _ _); [unfold is_word; lia|].
  split; [|vm_compute; discriminate]. unfold replicate. repeat constructor; unfold is_byte; lia.
Defined.
