(* ===== verification/Gzip.v ===== *)
(** keyroost-transport/src/gzip.rs: the gzip members of compressed certificate
    objects. Deflating and inflating are the library's, parameters here. *)
From S2P Require Export Words Text.

Inductive CertUnreadable := Damaged | TooLarge.
#[export] Instance CertUnreadable_eq_dec : EqDecision CertUnreadable.
Proof. solve_decision. Defined.
Definition unreadable_code (e : CertUnreadable) : list Z := match e with Damaged => s2b "damaged" | TooLarge => s2b "too_large" end.
Definition unreadable_text (e : CertUnreadable) : list Z :=
  match e with Damaged => s2b "its compressed data is damaged" | TooLarge => s2b "it decompresses to more than 64 KiB" end.

Definition MAX_CERT_DECOMPRESSED : Z := 64 * 1024.

(** * CRC-32 *)

(** One bit of the register. *)
Definition crc_bit (c : Z) : Z := if negb (Z.land c 1 =? 0) then Z.lxor 0xEDB88320 (Z.shiftr c 1) else Z.shiftr c 1.
Definition crc_entry (i : Z) : Z := Nat.iter 8 crc_bit i.
Definition crc32_table : list Z := map (fun i => crc_entry (Z.of_nat i)) (seq 0 256).
Definition CRC32_TABLE : list Z := Eval vm_compute in crc32_table.
Definition crc_byte (c b : Z) : Z := Z.lxor (CRC32_TABLE !!! Z.to_nat (Z.land (Z.lxor c b) 0xFF)) (Z.shiftr c 8).
Definition crc32 (data : list Z) : Z := Z.lxor (foldl crc_byte 0xFFFFFFFF data) 0xFFFFFFFF.

(** * Members *)

(** [TINFLStatus], as far as it is looked at. *)
Inductive TINFLStatus := HasMoreOutput | OtherStatus.

Section members.
Context (compress_to_vec : list Z -> list Z) (decompress_to_vec_with_limit : list Z -> Z -> result TINFLStatus (list Z)).

Definition gzip_header : list Z := [0x1F; 0x8B; 0x08; 0x00; 0x00; 0x00; 0x00; 0x00; 0x02; 0xFF].
Definition gzip_member (data : list Z) : list Z :=
  gzip_header ++ compress_to_vec data ++ to_le 4 (crc32 data) ++ to_le 4 (zlen data).

(** Where a zero-terminated field ends. *)
Definition skip_text (data : list Z) (pos : nat) : option nat :=
  if (length data <? pos)%nat then None else
  rel ← list_find (fun b => b = 0) (drop pos data); Some (pos + rel.1 + 1)%nat.
Definition skip_extra (data : list Z) (pos : nat) : option nat :=
  lo ← data !! pos; hi ← data !! (pos + 1)%nat; Some (pos + 2 + Z.to_nat (from_le [lo; hi]))%nat.
Definition flagged (flg bit : Z) (skip : nat -> option nat) (pos : nat) : option nat :=
  if negb (Z.land flg bit =? 0) then skip pos else Some pos.
(** Where the DEFLATE body begins. *)
Definition body_start (data : list Z) : option nat :=
  let flg := data !!! 3%nat in
  pos ← flagged flg 0x04 (skip_extra data) 10;
  pos ← flagged flg 0x08 (skip_text data) pos;
  pos ← flagged flg 0x10 (skip_text data) pos;
  flagged flg 0x02 (fun pos => Some (pos + 2)%nat) pos.
Definition gunzip_stream (data : list Z) : option (result CertUnreadable (list Z)) :=
  if (zlen data <? 18) || negb (data !!! 0%nat =? 0x1F) || negb (data !!! 1%nat =? 0x8B) || negb (data !!! 2%nat =? 0x08) then None else
  pos ← body_start data;
  let end_ := (length data - 8)%nat in
  if (end_ <? pos)%nat then None else
  let deflate := slice data pos end_ in
  let trailer := drop end_ data in
  let crc := from_le (take 4 trailer) in
  let isize := from_le (drop 4 trailer) in
  Some (match decompress_to_vec_with_limit deflate MAX_CERT_DECOMPRESSED with
        | Err HasMoreOutput => Err TooLarge
        | Err OtherStatus => Err Damaged
        | Ok out => if (crc32 out =? crc) && (cast 32 (zlen out) =? isize) then Ok out else Err Damaged
        end).
Definition gunzip_capped (data : list Z) : result CertUnreadable (list Z) :=
  match gunzip_stream data with Some r => r | None => Err Damaged end.
End members.

(** * The register *)

Lemma crc_bit_lxor x y : crc_bit (Z.lxor x y) = Z.lxor (crc_bit x) (crc_bit y).
Proof.
  unfold crc_bit. change 1 with (Z.ones 1). rewrite !Z.land_ones by lia. change (2 ^ 1) with 2.
  assert (forall z, negb (z mod 2 =? 0) = Z.odd z) as Ho.
  { intros z. rewrite Zmod_odd. by destruct (Z.odd z). }
  rewrite !Ho, <- !Z.bit0_odd, Z.lxor_spec, Z.shiftr_lxor.
  destruct (Z.testbit x 0), (Z.testbit y 0); cbn [xorb]; apply Z.bits_inj'; intros n _; rewrite ?Z.lxor_spec;
    repeat match goal with |- context [Z.testbit ?a n] => destruct (Z.testbit a n) end; done.
Qed.
Lemma crc_bits_lxor k x y : Nat.iter k crc_bit (Z.lxor x y) = Z.lxor (Nat.iter k crc_bit x) (Nat.iter k crc_bit y).
Proof. induction k as [|k IH]; [done|]. by rewrite !Nat.iter_succ, IH, crc_bit_lxor. Qed.
Lemma crc_bit_even x : crc_bit (2 * x) = x.
Proof.
  unfold crc_bit. change 1 with (Z.ones 1) at 1. rewrite Z.land_ones by lia. change (2 ^ 1) with 2.
  rewrite Z.mul_comm, Z.mod_mul, Z.shiftr_div_pow2 by lia. change (2 ^ 1) with 2. by rewrite Z.div_mul.
Qed.
Lemma crc_bits_shifted k x : Nat.iter k crc_bit (x * 2 ^ Z.of_nat k) = x.
Proof.
  revert x. induction k as [|k IH]; intros x; [cbn; lia|]. rewrite Nat2Z.inj_succ, Z.pow_succ_r by lia.
  rewrite Nat.iter_succ_r. replace (x * (2 * 2 ^ Z.of_nat k)) with (2 * (x * 2 ^ Z.of_nat k)) by lia. by rewrite crc_bit_even, IH.
Qed.

(** Nothing is lost: the top bit of the new register is the bit shifted out. *)
Lemma crc_bit_word x : is_word 32 x -> is_word 32 (crc_bit x).
Proof.
  intros H. unfold crc_bit. assert (is_word 32 (Z.shiftr x 1)) by (apply shiftr_word; [lia|lia|done]).
  destruct (negb _); [|done]. by apply lxor_word.
Qed.
Lemma crc_bit_zero x : is_word 32 x -> crc_bit x = 0 -> x = 0.
Proof.
  unfold is_word, crc_bit. intros Hx. change 1 with (Z.ones 1) at 1. rewrite Z.land_ones, Z.shiftr_div_pow2 by lia. change (2 ^ 1) with 2.
  destruct (Z.eqb_spec (x mod 2) 0) as [E|E]; cbn [negb]; intros H; [lia_div|].
  apply Z.lxor_eq in H. lia_div.
Qed.
Lemma crc_bits_zero k x : is_word 32 x -> Nat.iter k crc_bit x = 0 -> x = 0.
Proof.
  revert x. induction k as [|k IH]; intros x Hx; [done|]. rewrite Nat.iter_succ_r. intros H. apply IH in H; [|by apply crc_bit_word].
  by apply crc_bit_zero.
Qed.

(** The table does the eight bits of a byte at once. *)
Lemma table_entry i : is_byte i -> CRC32_TABLE !!! Z.to_nat i = crc_entry i.
Proof.
  unfold is_byte. intros H. change CRC32_TABLE with ((fun i => crc_entry (Z.of_nat i)) <$> seq 0 256).
  apply list_lookup_total_correct. rewrite list_lookup_fmap, lookup_seq_lt by lia. cbn [fmap option_fmap option_map].
  do 2 f_equal. lia.
Qed.
Lemma low_high x : Z.lxor (x mod 2 ^ 8) (x / 2 ^ 8 * 2 ^ 8) = x.
Proof.
  apply Z.bits_inj'. intros n Hn. rewrite Z.lxor_spec. destruct (Z.ltb_spec n 8).
  - rewrite Z.mod_pow2_bits_low, Z.mul_pow2_bits_low by lia. apply xorb_false_r.
  - rewrite Z.mod_pow2_bits_high, Z.mul_pow2_bits, Z.div_pow2_bits by lia. rewrite xorb_false_l. f_equal. lia.
Qed.
Lemma crc_byte_bits c b : is_word 32 c -> is_byte b -> crc_byte c b = Nat.iter 8 crc_bit (Z.lxor c b).
Proof.
  intros Hc Hb. set (x := Z.lxor c b). assert (is_word 32 x) as Hx by (apply lxor_word; [lia|done|unfold is_byte, is_word in *; lia]).
  unfold crc_byte. fold x. change 0xFF with (Z.ones 8). rewrite Z.land_ones by lia. change (2 ^ 8) with 256.
  rewrite table_entry by (unfold is_byte; lia_div). unfold crc_entry.
  assert (Z.shiftr c 8 = x / 256) as ->.
  { unfold x. change 256 with (2 ^ 8). rewrite <- Z.shiftr_div_pow2, Z.shiftr_lxor by lia.
    replace (Z.shiftr b 8) with 0; [by rewrite Z.lxor_0_r|]. rewrite Z.shiftr_div_pow2 by lia. change (2 ^ 8) with 256. unfold is_byte in Hb. lia_div. }
  rewrite <- (crc_bits_shifted 8 (x / 256)) at 1. change (2 ^ Z.of_nat 8) with 256. rewrite <- crc_bits_lxor. f_equal.
  apply (low_high x).
Qed.
Lemma crc_byte_word c b : is_word 32 c -> is_byte b -> is_word 32 (crc_byte c b).
Proof.
  intros Hc Hb. rewrite crc_byte_bits by done. generalize 8%nat. intros k.
  assert (is_word 32 (Z.lxor c b)) as Hx by (apply lxor_word; [lia|done|unfold is_byte, is_word in *; lia]).
  induction k as [|k IH]; [done|]. rewrite Nat.iter_succ. by apply crc_bit_word.
Qed.
Lemma crc_byte_inj c b c' b' : is_word 32 c -> is_byte b -> is_word 32 c' -> is_byte b' ->
  crc_byte c b = crc_byte c' b' -> Z.lxor c b = Z.lxor c' b'.
Proof.
  intros Hc Hb Hc' Hb'. rewrite !crc_byte_bits by done. intros H.
  assert (forall c b, is_word 32 c -> is_byte b -> is_word 32 (Z.lxor c b)) as Hw
    by (intros; apply lxor_word; [lia|done|unfold is_byte, is_word in *; lia]).
  apply Z.lxor_eq, (crc_bits_zero 8); [apply lxor_word; [lia|auto..]|]. by rewrite crc_bits_lxor, H, Z.lxor_nilpotent.
Qed.
Lemma crc_fold_word bs c : is_word 32 c -> Bytes bs -> is_word 32 (foldl crc_byte c bs).
Proof.
  revert c. induction bs as [|b bs IH]; intros c Hc Hb; [done|]. inversion Hb; subst. apply IH; [by apply crc_byte_word|done].
Qed.
Lemma crc_fold_inj bs c c' : is_word 32 c -> is_word 32 c' -> Bytes bs -> foldl crc_byte c bs = foldl crc_byte c' bs -> c = c'.
Proof.
  revert c c'. induction bs as [|b bs IH]; intros c c' Hc Hc' Hb H; [done|]. inversion Hb; subst. cbn [foldl] in H.
  apply IH in H; [|by apply crc_byte_word..|done]. apply crc_byte_inj in H; [|done..].
  apply (f_equal (fun v => Z.lxor v b)) in H. by rewrite !lxor_cancel in H.
Qed.
Lemma crc32_word bs : Bytes bs -> is_word 32 (crc32 bs).
Proof. intros H. apply lxor_word; [lia|by apply crc_fold_word|done]. Qed.
(** One wrong byte always shows. *)
Lemma crc32_one_byte a x y b : Bytes (a ++ x :: b) -> is_byte y -> crc32 (a ++ x :: b) = crc32 (a ++ y :: b) -> x = y.
Proof.
  intros Hb Hy H. apply list.Forall_app in Hb as [Ha Hb]. apply list.Forall_cons in Hb as [Hx Hb].
  unfold crc32 in H. apply (f_equal (fun v => Z.lxor v 0xFFFFFFFF)) in H. rewrite !lxor_cancel, !foldl_app in H. cbn [foldl] in H.
  assert (is_word 32 (foldl crc_byte 0xFFFFFFFF a)) as Hc by by apply crc_fold_word.
  apply crc_fold_inj in H; [|by apply crc_byte_word..|done]. apply crc_byte_inj in H; [|done..].
  apply (f_equal (fun v => Z.lxor v (foldl crc_byte 0xFFFFFFFF a))) in H.
  rewrite !(Z.lxor_comm (foldl crc_byte 0xFFFFFFFF a)), !lxor_cancel in H. done.
Qed.

(** The check value of CRC-32/ISO-HDLC. *)
Example crc32_check_value : crc32 (s2b "123456789") = 0xCBF43926 /\ crc32 [] = 0.
Proof. vm_compute. done. Qed.

(** * Properties *)

Lemma gunzip_header decompress body crc isize : length crc = 4%nat -> length isize = 4%nat ->
  gunzip_capped decompress (gzip_header ++ body ++ crc ++ isize) =
    match decompress body MAX_CERT_DECOMPRESSED with
    | Err HasMoreOutput => Err TooLarge
    | Err OtherStatus => Err Damaged
    | Ok out => if (crc32 out =? from_le crc) && (cast 32 (zlen out) =? from_le isize) then Ok out else Err Damaged
    end.
Proof.
  intros Hc Hi. unfold gunzip_capped, gunzip_stream. set (data := gzip_header ++ body ++ crc ++ isize).
  assert (zlen data = 18 + zlen body /\ length data = (18 + length body)%nat) as [Hz Hl].
  { unfold data, zlen. rewrite !length_app, Hc, Hi. change (length gzip_header) with 10%nat. lia. }
  rewrite Hz, (proj2 (Z.ltb_ge _ _)) by (pose proof (zlen_nonneg body); lia).
  change (data !!! 0%nat) with 0x1F. change (data !!! 1%nat) with 0x8B. change (data !!! 2%nat) with 0x08. cbn [orb negb].
  assert (body_start data = Some 10%nat) as -> by (unfold body_start; change (data !!! 3%nat) with 0; reflexivity).
  change (negb (31 =? 31)) with false. change (negb (139 =? 139)) with false. change (negb (8 =? 8)) with false.
  cbn [orb mbind option_bind]. rewrite Hl. replace (18 + length body - 8)%nat with (10 + length body)%nat by lia.
  rewrite (proj2 (Nat.ltb_ge _ _)) by lia. change 10%nat with (length gzip_header) at 1 2. unfold data at 1. rewrite slice_app.
  replace (drop (10 + length body) data) with (crc ++ isize); [by rewrite take_app_length', drop_app_length' by done|].
  unfold data. change 10%nat with (length gzip_header). by rewrite drop_app_add, drop_app_length.
Qed.

(** C16: a certificate compressed for a card comes back as it was, or is refused as
    too large when it is longer than the cap, whatever the compressor makes of it; and
    a member holding anything that differs from the certificate in one byte is found
    damaged, never returned. *)
Theorem gzip_roundtrip (compress : list Z -> list Z) (decompress : list Z -> Z -> result TINFLStatus (list Z)) (data : list Z) :
  (forall d limit, Bytes d -> decompress (compress d) limit = if zlen d <=? limit then Ok d else Err HasMoreOutput) -> Bytes data ->
  gunzip_capped decompress (gzip_member compress data) = (if zlen data <=? MAX_CERT_DECOMPRESSED then Ok data else Err TooLarge) /\
  (forall a x y b, data = a ++ x :: b -> is_byte y -> y <> x -> zlen data <= MAX_CERT_DECOMPRESSED ->
     gunzip_capped decompress (gzip_header ++ compress (a ++ y :: b) ++ to_le 4 (crc32 data) ++ to_le 4 (zlen data)) = Err Damaged).
Proof.
  intros Hlib Hb. assert (from_le (to_le 4 (crc32 data)) = crc32 data) as Hc
    by (rewrite from_le_to_le; apply Z.mod_small; apply (crc32_word data Hb)).
  split.
  - unfold gzip_member. rewrite gunzip_header by apply length_to_le. rewrite Hlib by done.
    destruct (zlen data <=? MAX_CERT_DECOMPRESSED); [|done]. rewrite Hc, from_le_to_le, Z.eqb_refl.
    unfold cast. change (8 * Z.of_nat 4) with 32. by rewrite Z.eqb_refl.
  - intros a x y b -> Hy Hne Hl. rewrite gunzip_header by apply length_to_le.
    assert (Bytes (a ++ y :: b)) as Hb'.
    { apply list.Forall_app in Hb as [Ha Hb]. apply list.Forall_cons in Hb as [_ Hb]. apply list.Forall_app. split; [done|]. by apply list.Forall_cons. }
    rewrite Hlib by done. replace (zlen (a ++ y :: b)) with (zlen (a ++ x :: b)) by (zlen; lia).
    rewrite (proj2 (Z.leb_le _ _)) by done. rewrite Hc. rewrite (proj2 (Z.eqb_neq _ _)); [done|].
    intros He. apply Hne. symmetry. by apply (crc32_one_byte a x y b).
Qed.

(** A library that stores. *)
Definition stored (d : list Z) : list Z := d.
Definition unstored (d : list Z) (limit : Z) : result TINFLStatus (list Z) := if zlen d <=? limit then Ok d else Err HasMoreOutput.
Lemma gzip_roundtrip_witness : gunzip_capped unstored (gzip_member stored [1; 2; 3]) = Ok [1; 2; 3].
Proof.
  destruct (gzip_roundtrip stored unstored [1; 2; 3]) as [H _]; [done|by_decision|].
  change (zlen [1; 2; 3] <=? MAX_CERT_DECOMPRESSED) with true in H. exact H.
Defined.
