(* ===== verification/PivTlv.v ===== *)
(** keyroost-piv/src/lib.rs, BER-TLV: reading and writing the length and
    value fields PIV objects are made of, and the parsers that look one up.
    Buffers are far shorter than [usize::MAX], so [checked_add] never fails and
    is written [+]; a failed [assert!] is [None]. *)
From S2P Require Export Words Text.

(** * Errors *)

Inductive ParseError :=
  | Truncated
  | NotDataObject
  | BadResponse (w : list Z)
  | NotAuthTemplate
  | NotPublicKey.
#[export] Instance ParseError_eq_dec : EqDecision ParseError.
Proof. solve_decision. Defined.

Definition parse_error_text (e : ParseError) : list Z :=
  match e with
  | Truncated => s2b "PIV response truncated"
  | NotDataObject => s2b "PIV response is not a 0x53 data object"
  | BadResponse w => s2b "malformed PIV response: " ++ w
  | NotAuthTemplate => s2b "PIV response is not a 0x7C dynamic-auth template"
  | NotPublicKey => s2b "PIV response is not a 0x7F49 public-key template"
  end.

Definition TAG_OBJECT_SELECTOR : Z := 0x5C.
Definition TAG_DATA_TEMPLATE : Z := 0x53.
Definition TAG_DYN_AUTH : Z := 0x7C.
Definition MAX_TLV_DEPTH : Z := 4.

(** * Writing *)

(** What is appended to [out]. *)
Definition push_ber_len (len : Z) : option (list Z) :=
  if 0xFFFF <? len then None
  else if len <? 0x80 then Some [cast 8 len]
  else if len <=? 0xFF then Some [0x81; cast 8 len]
  else Some [0x82; cast 8 (Z.shiftr len 8); cast 8 len].

Definition push_tlv (tag value : list Z) : option (list Z) :=
  len ← push_ber_len (zlen value);
  Some (tag ++ len ++ value).

(** * Reading *)

Definition read_ber_len (buf : list Z) : result ParseError (Z * Z) :=
  match buf with
  | [] => Err Truncated
  | first :: _ =>
      if first <? 0x80 then Ok (first, 1) else
      let n := Z.land first 0x7F in
      if (n =? 0) || (2 <? n) then Err (BadResponse (s2b "unsupported BER length form")) else
      bytes ← ok_or Truncated (get_range buf 1 (1 + n));
      Ok (fold_left (fun acc b => Z.lor (Z.shiftl acc 8) b) bytes 0, 1 + n)
  end.

(** One turn of every walker: the tag, the value and what follows it. *)
Definition next_tlv (buf : list Z) : result ParseError (Z * list Z * list Z) :=
  match buf with
  | [] => Err Truncated
  | t :: rest =>
      '(len, header) ← read_ber_len rest;
      value ← ok_or Truncated (get_range buf (1 + header) (1 + header + len));
      Ok (t, value, drop (Z.to_nat (1 + header + len)) buf)
  end.

(** [t & 0x20 != 0]. *)
Definition constructed (t : Z) : bool := negb (Z.land t 0x20 =? 0).

(** The walk at one level, [limit] levels above the deepest one; every turn
    takes at least two bytes. *)
Fixpoint find_tlv_at (limit : nat) : nat -> list Z -> Z -> option (list Z) :=
  fix walk fuel buf tag :=
    match fuel with
    | O => None
    | S fuel =>
        match buf with
        | [] => None
        | _ =>
            match next_tlv buf with
            | Err _ => None
            | Ok (t, value, rest) =>
                if t =? tag then Some value else
                match (match limit with
                       | O => None
                       | S deeper => if constructed t then find_tlv_at deeper (length value) value tag else None
                       end) with
                | Some found => Some found
                | None => walk fuel rest tag
                end
            end
        end
    end.

Definition find_tlv_recursive_with_limit (buf : list Z) (tag recursion_limit : Z) : option (list Z) :=
  find_tlv_at (Z.to_nat recursion_limit) (length buf) buf tag.
Definition find_tlv (buf : list Z) (tag : Z) : option (list Z) := find_tlv_recursive_with_limit buf tag 0.
Definition find_tlv_recursive (buf : list Z) (tag : Z) : option (list Z) := find_tlv_recursive_with_limit buf tag MAX_TLV_DEPTH.

(** The offsets of the matched entry: its start, and those of its value. *)
Fixpoint tlv_span_from (fuel : nat) (i : Z) (buf : list Z) (tag : Z) : option (Z * Z * Z) :=
  match fuel with
  | O => None
  | S fuel =>
      match drop (Z.to_nat i) buf with
      | [] => None
      | t :: rest =>
          '(len, header) ← result_ok (read_ber_len rest);
          let vstart := i + 1 + header in
          let vend := vstart + len in
          if zlen buf <? vend then None
          else if t =? tag then Some (i, vstart, vend)
          else tlv_span_from fuel vend buf tag
      end
  end.
Definition tlv_span (buf : list Z) (tag : Z) : option (Z * Z * Z) := tlv_span_from (length buf) 0 buf tag.

(** * Templates *)

(** The value under the template tag [want], which takes [skip] bytes. *)
Definition template_value (want : list Z) (e : ParseError) (buf : list Z) : result ParseError (list Z) :=
  if negb (bool_decide (take (length want) buf = want)) then Err e else
  '(len, header) ← read_ber_len (drop (length want) buf);
  let start := zlen want + header in
  ok_or Truncated (get_range buf start (start + len)).

Definition unwrap_data_object (buf : list Z) : result ParseError (list Z) := template_value [TAG_DATA_TEMPLATE] NotDataObject buf.

Definition parse_general_auth (buf : list Z) (inner_tag : Z) : result ParseError (list Z) :=
  inner ← template_value [TAG_DYN_AUTH] NotAuthTemplate buf;
  ok_or NotAuthTemplate (find_tlv inner inner_tag).

Definition parse_general_auth_permissive (buf : list Z) : result ParseError (list Z) :=
  inner ← template_value [TAG_DYN_AUTH] NotAuthTemplate buf;
  len_bytes ← ok_or NotAuthTemplate (get_range inner 1 (zlen inner));
  '(vlen, vheader) ← read_ber_len len_bytes;
  let vstart := 1 + vheader in
  let vend := vstart + vlen in
  value ← ok_or Truncated (get_range inner vstart vend);
  if negb (vend =? zlen inner) then Err NotAuthTemplate else Ok value.

Inductive PublicKey := Rsa (modulus exponent : list Z) | Ecc (point : list Z).
#[export] Instance PublicKey_eq_dec : EqDecision PublicKey.
Proof. solve_decision. Defined.

Definition parse_public_key (buf : list Z) : result ParseError PublicKey :=
  inner ← template_value [0x7F; 0x49] NotPublicKey buf;
  match find_tlv inner 0x86 with
  | Some point => Ok (Ecc point)
  | None =>
      modulus ← ok_or NotPublicKey (find_tlv inner 0x81);
      exponent ← ok_or NotPublicKey (find_tlv inner 0x82);
      Ok (Rsa modulus exponent)
  end.

Record Metadata := mkMetadata {
  md_algorithm : option Z; md_is_default : option bool; md_retries : option (Z * Z); md_policy : option (Z * Z);
  md_origin : option Z; md_public_key : option (list Z)
}.
Definition metadata_default : Metadata := mkMetadata None None None None None None.

Definition first_two (v : list Z) : option (Z * Z) := match v with a :: b :: _ => Some (a, b) | _ => None end.

(** One field; a policy or a retry count of one byte is passed over. *)
Definition metadata_field (md : Metadata) (tag : Z) (value : list Z) : Metadata :=
  let '(mkMetadata alg dflt retries policy origin key) := md in
  if tag =? 0x01 then mkMetadata (head value) dflt retries policy origin key
  else if tag =? 0x02 then
    match first_two value with Some p => mkMetadata alg dflt retries (Some p) origin key | None => md end
  else if tag =? 0x03 then mkMetadata alg dflt retries policy (head value) key
  else if tag =? 0x04 then mkMetadata alg dflt retries policy origin (Some value)
  else if tag =? 0x05 then mkMetadata alg ((fun b => negb (b =? 0)) <$> head value) retries policy origin key
  else if tag =? 0x06 then
    match first_two value with Some r => mkMetadata alg dflt (Some r) policy origin key | None => md end
  else md.

Fixpoint metadata_loop (fuel : nat) (md : Metadata) (buf : list Z) : result ParseError Metadata :=
  match buf, fuel with
  | [], _ => Ok md
  | _, O => Err Truncated
  | _, S fuel =>
      '(tag, value, rest) ← next_tlv buf;
      metadata_loop fuel (metadata_field md tag value) rest
  end.
Definition parse_metadata (buf : list Z) : result ParseError Metadata := metadata_loop (length buf) metadata_default buf.

(** * The encoding, as a relation *)

(** The length fields of DER and the longer ones PIV also allows. *)
Inductive ber_len : list Z -> Z -> Prop :=
  | len_short n : 0 <= n < 0x80 -> ber_len [n] n
  | len_one n : is_byte n -> ber_len [0x81; n] n
  | len_two a b : is_byte a -> is_byte b -> ber_len [0x82; a; b] (a * 256 + b).

(** A sequence of entries, each under a one-byte tag. *)
Inductive tlvs : list (Z * list Z) -> list Z -> Prop :=
  | tlvs_nil : tlvs [] []
  | tlvs_cons t v lb items bs : ber_len lb (zlen v) -> tlvs items bs -> tlvs ((t, v) :: items) (t :: lb ++ v ++ bs).

Definition unreadable (buf : list Z) : Prop := is_ok (next_tlv buf) = false.

(** * Lemmas *)

Lemma get_range_app {A} (a b c : list A) : get_range (a ++ b ++ c) (zlen a) (zlen a + zlen b) = Some b.
Proof.
  unfold get_range. pose proof (zlen_nonneg a). pose proof (zlen_nonneg b). pose proof (zlen_nonneg c).
  rewrite (proj2 (Z.leb_le _ _)), (proj2 (Z.leb_le _ _)) by (zlen; lia). cbn [andb]. unfold slice.
  rewrite drop_zlen. replace (_ - _)%nat with (Z.to_nat (zlen b)) by lia. by rewrite take_zlen.
Qed.
Lemma get_range_Some {A} (l : list A) i j v :
  0 <= i -> get_range l i j = Some v -> exists a c, l = a ++ v ++ c /\ zlen a = i /\ zlen a + zlen v = j.
Proof.
  intros Hi. unfold get_range. destruct (_ && _) eqn:E; [|done]. bools. intros [= <-].
  exists (take (Z.to_nat i) l), (drop (Z.to_nat j) l). unfold slice.
  assert (zlen (take (Z.to_nat i) l) = i) as Hz by (zlen; lia). split; [|split; [done|]].
  - rewrite <- (take_drop (Z.to_nat i) l) at 1. f_equal. rewrite <- (take_drop (Z.to_nat j - Z.to_nat i) (drop (Z.to_nat i) l)) at 1.
    rewrite drop_drop. do 2 f_equal. lia.
  - zlen. lia.
Qed.

Lemma ber_len_bound lb n : ber_len lb n -> 0 <= n <= 0xFFFF /\ 1 <= zlen lb <= 3.
Proof. unfold is_byte. destruct 1; cbn; unfold zlen, is_byte in *; cbn; lia. Qed.

Lemma read_ber_len_app lb n rest : ber_len lb n -> read_ber_len (lb ++ rest) = Ok (n, zlen lb).
Proof.
  destruct 1 as [n Hn|n Hn|a b Ha Hb]; unfold read_ber_len; cbn [app].
  - by rewrite (proj2 (Z.ltb_lt _ _)) by lia.
  - change (0x81 <? 0x80) with false. cbv zeta iota. change (Z.land 0x81 0x7F) with 1. change ((1 =? 0) || (2 <? 1)) with false. cbv iota.
    assert (get_range (0x81 :: n :: rest) 1 (1 + 1) = Some [n]) as -> by exact (get_range_app [0x81] [n] rest). cbn [ok_or mbind result_bind fold_left]. by rewrite Z.lor_0_l.
  - change (0x82 <? 0x80) with false. cbv zeta iota. change (Z.land 0x82 0x7F) with 2. change ((2 =? 0) || (2 <? 2)) with false. cbv iota.
    assert (get_range (0x82 :: a :: b :: rest) 1 (1 + 2) = Some [a; b]) as -> by exact (get_range_app [0x82] [a; b] rest). cbn [ok_or mbind result_bind fold_left]. rewrite Z.lor_0_l.
    by rewrite lor_shiftl_add by (unfold is_byte in *; lia).
Qed.

Lemma read_ber_len_inv buf n h : Bytes buf -> read_ber_len buf = Ok (n, h) ->
  exists lb rest, buf = lb ++ rest /\ ber_len lb n /\ h = zlen lb.
Proof.
  intros Hb. unfold read_ber_len. destruct buf as [|first buf]; [done|]. inversion Hb as [|? ? Hf Hr]; subst.
  destruct (first <? 0x80) eqn:E1; bools.
  { intros [= <- <-]. exists [first], buf. split; [done|]. split; [constructor; unfold is_byte in Hf; lia|done]. }
  cbv zeta. destruct (_ || _) eqn:E2; [done|]. bools. intros Hx. inv_bind Hx. injection Hx as <- <-.
  assert (Z.land first 0x7F = first - 0x80) as Hl.
  { change 0x7F with (2 ^ 7 - 1). rewrite land_ones_mod by lia. unfold is_byte in Hf. change (2 ^ 7) with 128. lia_div. }
  rewrite Hl in *. apply ok_or_Ok in Hb0. apply get_range_Some in Hb0 as (l & c & Hl1 & Hl2 & Hl3); [|lia].
  destruct l as [|x [|y l]]; zlen; [lia| |pose proof (zlen_nonneg l); lia]. injection Hl1 as <- ->.
  assert (first = 0x81 \/ first = 0x82) as [-> | ->] by (unfold is_byte in Hf; lia).
  - destruct a as [|b0 [|b1 a]]; zlen; [lia| |pose proof (zlen_nonneg a); lia]. exists [0x81; b0], c. split; [done|].
    inversion Hr; subst. cbn [fold_left]. rewrite Z.lor_0_l. by split; [constructor|].
  - destruct a as [|b0 [|b1 [|b2 a]]]; zlen; [lia|lia| |pose proof (zlen_nonneg a); lia]. exists [0x82; b0; b1], c. split; [done|].
    inversion Hr as [|? ? Hy Hr']; subst. inversion Hr'; subst. cbn [fold_left]. rewrite Z.lor_0_l, lor_shiftl_add by (unfold is_byte in *; lia).
    by split; [constructor|].
Qed.

Lemma next_tlv_app t lb v rest : ber_len lb (zlen v) -> next_tlv (t :: lb ++ v ++ rest) = Ok (t, v, rest).
Proof.
  intros Hl. unfold next_tlv. rewrite (read_ber_len_app lb (zlen v)) by done. cbn [mbind result_bind].
  replace (1 + zlen lb) with (zlen (t :: lb)) by (zlen; lia). change (t :: lb ++ v ++ rest) with ((t :: lb) ++ v ++ rest).
  rewrite get_range_app. cbn [ok_or mbind result_bind]. do 2 f_equal.
  rewrite app_assoc. rewrite <- zlen_app. by rewrite drop_zlen.
Qed.

Lemma next_tlv_inv buf t v rest : Bytes buf -> next_tlv buf = Ok (t, v, rest) ->
  exists lb, buf = t :: lb ++ v ++ rest /\ ber_len lb (zlen v).
Proof.
  intros Hb H. destruct buf as [|t' buf]; [done|]. inversion Hb as [|? ? _ Hr]; subst. cbn [next_tlv] in H. inv_bind H. destruct a as [n h].
  inv_bind H. injection H as -> <- <-. apply read_ber_len_inv in Hb0 as (lb & r & -> & Hl & ->); [|done].
  apply ok_or_Ok in Hb1. pose proof (ber_len_bound _ _ Hl). apply get_range_Some in Hb1 as (x & c & Hx & Hx1 & Hx2); [|lia].
  destruct x as [|t1 x]; [rewrite zlen_nil in Hx1; lia|]. cbn [app] in Hx. injection Hx as <- Hx.
  assert (x = lb) as ->. { apply (f_equal (take (length lb))) in Hx. rewrite take_app_length in Hx. rewrite zlen_cons in Hx1.
    rewrite Hx. assert (length x = length lb) as <- by (unfold zlen in Hx1; lia). by rewrite take_app_length. }
  apply app_inv_head in Hx as ->. exists lb. rewrite zlen_cons in Hx2. assert (n = zlen a) as -> by lia. split; [|done].
  rewrite <- zlen_cons with (x := t), <- zlen_app.
  assert (drop (Z.to_nat (zlen ((t :: lb) ++ a))) (t :: lb ++ a ++ c) = c) as ->; [|done].
  change (t :: lb ++ a ++ c) with ((t :: lb) ++ a ++ c). by rewrite app_assoc, drop_zlen.
Qed.

Lemma tlvs_app l1 b1 l2 b2 : tlvs l1 b1 -> tlvs l2 b2 -> tlvs (l1 ++ l2) (b1 ++ b2).
Proof. induction 1; intros H2; [done|]. cbn [app]. rewrite <- !app_assoc. constructor; auto. Qed.
Lemma tlvs_bytes_cons t v lb bs : Bytes (t :: lb ++ v ++ bs) -> is_byte t /\ Bytes lb /\ Bytes v /\ Bytes bs.
Proof. rewrite list.Forall_cons, !list.Forall_app. tauto. Qed.

(** Every buffer starts with entries and then goes on unreadably. *)
Lemma readable_part buf : Bytes buf -> exists items lead rest, buf = lead ++ rest /\ tlvs items lead /\ unreadable rest.
Proof.
  remember (length buf) as n eqn:Hn. revert buf Hn. induction (lt_wf n) as [n _ IH]. intros buf -> Hb.
  destruct (next_tlv buf) as [[[t v] rest]|e] eqn:E.
  - apply next_tlv_inv in E as (lb & -> & Hl); [|done]. apply tlvs_bytes_cons in Hb as (_ & _ & _ & Hr).
    destruct (IH (length rest)) with (buf := rest) as (items & lead & rest' & -> & Ht & Hu); [cbn; rewrite !length_app; lia|done..|].
    exists ((t, v) :: items), (t :: lb ++ v ++ lead), rest'. split; [|by split; [constructor|]]. cbn. by rewrite <- !app_assoc.
  - exists [], [], buf. split; [done|split; [constructor|]]. unfold unreadable. by rewrite E.
Qed.

Lemma find_tlv_at_S limit fuel buf tag : find_tlv_at limit (S fuel) buf tag =
  match buf with
  | [] => None
  | _ => match next_tlv buf with
         | Err _ => None
         | Ok (t, value, rest) =>
             if t =? tag then Some value else
             match (match limit with
                    | O => None
                    | S deeper => if constructed t then find_tlv_at deeper (length value) value tag else None
                    end) with
             | Some found => Some found
             | None => find_tlv_at limit fuel rest tag
             end
         end
  end.
Proof. by destruct limit. Qed.

(** What one entry contributes to the search. *)
Definition entry_hit (limit : nat) (tag : Z) (it : Z * list Z) : option (list Z) :=
  if it.1 =? tag then Some it.2 else
  match limit with
  | O => None
  | S deeper => if constructed it.1 then find_tlv_at deeper (length it.2) it.2 tag else None
  end.

Lemma find_tlv_at_eq limit tag items lead rest fuel : tlvs items lead -> unreadable rest -> (length (lead ++ rest) <= fuel)%nat ->
  find_tlv_at limit fuel (lead ++ rest) tag = find_map (entry_hit limit tag) items.
Proof.
  intros Ht Hu. revert fuel. induction Ht as [|t v lb items bs Hl Ht IH]; intros fuel Hf.
  - destruct fuel; [by destruct limit|]. rewrite find_tlv_at_S. cbn [app find_map]. unfold unreadable in Hu.
    destruct rest; [done|]. by destruct (next_tlv _).
  - destruct fuel as [|fuel]; [cbn in Hf; lia|]. rewrite find_tlv_at_S. cbn [app]. rewrite <- !app_assoc, next_tlv_app by done.
    cbn [find_map]. unfold entry_hit at 1. cbn [fst snd]. destruct (t =? tag); [done|].
    cbn in Hf. rewrite !length_app in Hf. rewrite IH by (rewrite length_app; lia). by destruct limit.
Qed.

Lemma find_tlv_eq tag items lead rest : tlvs items lead -> unreadable rest ->
  find_tlv (lead ++ rest) tag = find_map (entry_hit 0 tag) items.
Proof. intros. unfold find_tlv, find_tlv_recursive_with_limit. by apply find_tlv_at_eq. Qed.
Lemma unreadable_nil : unreadable [].
Proof. done. Qed.
Lemma find_tlv_items tag items bs : tlvs items bs -> find_tlv bs tag = find_map (entry_hit 0 tag) items.
Proof. intros. rewrite <- (app_nil_r bs) at 1. by apply find_tlv_eq. Qed.

(** What is written is minimal and can be read. *)
Lemma push_ber_len_ok n : 0 <= n <= 0xFFFF -> exists lb, push_ber_len n = Some lb /\ ber_len lb n /\ Bytes lb.
Proof.
  intros Hn. unfold push_ber_len. rewrite (proj2 (Z.ltb_ge _ _)) by lia. unfold cast. change (2 ^ 8) with 256.
  destruct (n <? 0x80) eqn:E1; bools; [|destruct (n <=? 0xFF) eqn:E2; bools].
  - exists [n mod 256]. split; [done|]. rewrite Z.mod_small by lia. split; [apply len_short; lia|]. repeat constructor; unfold is_byte; lia.
  - exists [0x81; n mod 256]. split; [done|]. rewrite Z.mod_small by lia. split; [apply len_one; unfold is_byte; lia|].
    repeat constructor; unfold is_byte; lia.
  - eexists. split; [done|]. rewrite Z.shiftr_div_pow2 by lia. change (2 ^ 8) with 256. split.
    + replace n with ((n / 256) mod 256 * 256 + n mod 256) at 3 by lia_div. apply len_two; unfold is_byte; lia_div.
    + repeat constructor; unfold is_byte; lia_div.
Qed.

Lemma push_tlv_ok t v : zlen v <= 0xFFFF -> exists bs, push_tlv [t] v = Some bs /\ tlvs [(t, v)] bs /\ (is_byte t -> Bytes v -> Bytes bs).
Proof.
  intros Hv. pose proof (zlen_nonneg v). destruct (push_ber_len_ok (zlen v)) as (lb & Hp & Hl & Hb); [lia|].
  unfold push_tlv. rewrite Hp. eexists. split; [done|]. cbn [app]. split.
  - pose proof (tlvs_cons t v lb [] [] Hl tlvs_nil) as Hc. by rewrite app_nil_r in Hc.
  - intros Ht Hv'. rewrite list.Forall_cons, list.Forall_app. auto.
Qed.
Lemma push_tlv_Some t v bs : push_tlv [t] v = Some bs -> tlvs [(t, v)] bs /\ zlen v <= 0xFFFF.
Proof.
  intros Hp. assert (zlen v <= 0xFFFF) as Hv. { unfold push_tlv, push_ber_len in Hp. destruct (0xFFFF <? zlen v) eqn:E; [done|]. by bools. }
  split; [|done]. destruct (push_tlv_ok t v Hv) as (bs' & Hp' & Ht & _). by simplify_eq.
Qed.

Lemma template_ok t v rest e bs : tlvs [(t, v)] bs -> template_value [t] e (bs ++ rest) = Ok v.
Proof.
  intros Ht. inversion Ht as [|? ? lb ? bs' Hl Hn]; subst. inversion Hn; subst. unfold template_value. cbn [length take app drop].
  rewrite take_0. rewrite bool_decide_eq_true_2 by done. cbn [negb]. rewrite <- !app_assoc. cbn [app]. rewrite drop_0.
  rewrite (read_ber_len_app lb (zlen v)) by done. cbn [mbind result_bind].
  change (zlen [t]) with 1. replace (1 + zlen lb) with (zlen (t :: lb)) by (zlen; lia).
  change (t :: lb ++ v ++ rest) with ((t :: lb) ++ v ++ rest). by rewrite get_range_app.
Qed.

(** Splitting the walk at the first entry under a tag. *)
Lemma first_hit tag (items : list (Z * list Z)) v :
  find_map (entry_hit 0 tag) items = Some v <-> exists l k, items = l ++ (tag, v) :: k /\ tag ∉ l.*1.
Proof.
  split.
  - induction items as [|[t w] items IH]; [done|]. cbn [find_map]. unfold entry_hit at 1. cbn [fst snd]. destruct (t =? tag) eqn:E; bools.
    + subst t. intros [= ->]. exists [], items. split; [done|]. apply not_elem_of_nil.
    + intros H. destruct IH as (l & k & -> & Hl); [done|]. exists ((t, w) :: l), k. split; [done|].
      cbn. rewrite not_elem_of_cons. auto.
  - intros (l & k & -> & Hl). induction l as [|[t w] l IH]; cbn [app find_map]; unfold entry_hit at 1; cbn [fst snd].
    + by rewrite Z.eqb_refl.
    + cbn in Hl. rewrite not_elem_of_cons in Hl. rewrite (proj2 (Z.eqb_neq _ _)) by (intros ->; tauto). apply IH; tauto.
Qed.
Lemma tlvs_split l k bs : tlvs (l ++ k) bs -> exists b c, bs = b ++ c /\ tlvs l b /\ tlvs k c.
Proof.
  revert bs. induction l as [|[t v] l IH]; intros bs Ht; [by exists [], bs; repeat constructor|]. inversion Ht as [|? ? lb ? bs' Hl Ht']; subst.
  destruct (IH _ Ht') as (b & c & -> & Hb & Hc). exists (t :: lb ++ v ++ b), c. split; [cbn; by rewrite <- !app_assoc|]. by split; [constructor|].
Qed.
Lemma tlvs_entries_bytes l bs : tlvs l bs -> Bytes bs -> Forall (fun it => is_byte it.1 /\ Bytes it.2) l.
Proof.
  induction 1 as [|t v lb items bs Hl Ht IH]; intros Hb; constructor; apply tlvs_bytes_cons in Hb as (? & ? & ? & ?); auto.
Qed.
Lemma tlvs_unreadable_unique items1 items2 lead1 lead2 rest1 rest2 : tlvs items1 lead1 -> tlvs items2 lead2 ->
  unreadable rest1 -> lead1 ++ rest1 = lead2 ++ rest2 -> exists k, items1 = items2 ++ k.
Proof.
  intros H1 H2 Hu. revert items1 lead1 H1. induction H2 as [|t v lb items bs Hl H2 IH]; intros items1 lead1 H1 He; [by exists items1|].
  destruct H1 as [|t1 v1 lb1 items1 bs1 Hl1 H1]; cbn [app] in He; rewrite <- !app_assoc in He.
  - unfold unreadable in Hu. by rewrite He, next_tlv_app in Hu.
  - pose proof (next_tlv_app t1 lb1 v1 (bs1 ++ rest1) Hl1) as Hn. rewrite He, next_tlv_app in Hn by done. injection Hn as -> -> Hr.
    destruct (IH items1 bs1 H1) as [k ->]; [done|]. by exists k.
Qed.

(** * Properties *)

(** A value found in a card's answer is the one the encoding gives. For any
    bytes, [find_tlv] returns the value of the first entry under the tag among
    the entries that can be read from the start; and the recursive search visits
    the entries in order, looking for each constructed one into its content, at
    most as many levels down as it is allowed. *)
Theorem piv_tlv_found (buf : list Z) (tag limit : Z) :
  Bytes buf -> 0 <= limit ->
  (forall v, find_tlv buf tag = Some v <->
     exists items lead rest, buf = lead ++ rest /\ tlvs (items ++ [(tag, v)]) lead /\ tag ∉ items.*1) /\
  exists items lead rest, buf = lead ++ rest /\ tlvs items lead /\ unreadable rest /\
    find_tlv_recursive_with_limit buf tag limit = find_map (fun it =>
      if it.1 =? tag then Some it.2
      else if (0 <? limit) && constructed it.1 then find_tlv_recursive_with_limit it.2 tag (limit - 1) else None) items.
Proof.
  intros Hb Hlim. destruct (readable_part buf Hb) as (items & lead & rest & -> & Ht & Hu). split.
  - intros v. rewrite (find_tlv_eq tag items lead rest) by done. rewrite first_hit. split.
    + intros (l & k & -> & Hl). replace (l ++ (tag, v) :: k) with ((l ++ [(tag, v)]) ++ k) in Ht by (by rewrite <- app_assoc).
      apply tlvs_split in Ht as (b & c & -> & H1 & H2). exists l, b, (c ++ rest). by rewrite app_assoc.
    + intros (l & lead' & rest' & He & Ht' & Hl). destruct (tlvs_unreadable_unique _ _ _ _ _ _ Ht Ht' Hu He) as [k ->].
      exists l, k. by rewrite <- app_assoc.
  - exists items, lead, rest. split; [done|]. split; [done|]. split; [done|]. unfold find_tlv_recursive_with_limit at 1.
    rewrite (find_tlv_at_eq _ tag items) by done. clear. induction items as [|[t v] items IH]; [done|]. cbn [find_map]. rewrite IH.
    unfold entry_hit at 1. cbn [fst snd]. destruct (t =? tag); [done|]. destruct (0 <? limit) eqn:E; bools; cbn [andb].
    + replace (Z.to_nat limit) with (S (Z.to_nat (limit - 1))) at 1 by lia. done.
    + by replace (Z.to_nat limit) with O by lia.
Qed.
Lemma piv_tlv_found_witness :
  find_tlv_recursive_with_limit [0x6F; 0x05; 0xA5; 0x03; 0x50; 0x01; 0x41; 0x00] 0x50 2 = Some [0x41] /\
  (find_tlv [0x50; 0x01; 0x41; 0x00] 0x50 = Some [0x41] ->
   exists items lead rest, [0x50; 0x01; 0x41; 0x00] = lead ++ rest /\ tlvs (items ++ [(0x50, [0x41])]) lead /\ 0x50 ∉ items.*1).
Proof.
  split; [reflexivity|]. apply (piv_tlv_found [0x50; 0x01; 0x41; 0x00] 0x50 2); [by_decision|lia].
Defined.
