(* ===== verification/PivDates.v ===== *)
(** keyroost-piv/src/lib.rs, dates: the civil calendar, expiry dates and the
    validity periods of certificates and CHUIDs. Times are seconds since the
    Unix epoch; a [u64] read as [i64] is [as_i64]. A panic is [None]. *)
From S2P Require Export Words Text.

(** * Definitions *)

Definition Date : Type := Z * Z * Z.

(** [i64] saturation. *)
Definition sat_i64 (x : Z) : Z := Z.max (- 2 ^ 63) (Z.min (2 ^ 63 - 1) x).
Definition sat_u64 (x : Z) : Z := Z.min (2 ^ 64 - 1) x.
Definition clamp (lo hi x : Z) : Z := Z.max lo (Z.min hi x).

(** [/] of the source rounds toward zero; [doe] and what follows are unsigned. *)
Definition civil_from_days (z : Z) : Date :=
  let z := z + 719468 in
  let era := Z.quot (if 0 <=? z then z else z - 146096) 146097 in
  let doe := z - era * 146097 in
  let yoe := (doe - doe / 1460 + doe / 36524 - doe / 146096) / 365 in
  let y := yoe + era * 400 in
  let doy := doe - (365 * yoe + yoe / 4 - yoe / 100) in
  let mp := (5 * doy + 2) / 153 in
  let d := doy - (153 * mp + 2) / 5 + 1 in
  let m := if mp <? 10 then mp + 3 else mp - 9 in
  (y + (if m <=? 2 then 1 else 0), m, d).

Definition days_from_civil (y m d : Z) : Z :=
  let y := if m <=? 2 then y - 1 else y in
  let era := Z.quot (if 0 <=? y then y else y - 399) 400 in
  let yoe := y - era * 400 in
  let doy := (153 * (m + (if 2 <? m then -3 else 9)) + 2) / 5 + d - 1 in
  let doe := yoe * 365 + yoe / 4 - yoe / 100 + doy in
  era * 146097 + doe - 719468.

Definition MAX_EXPIRATION_YEAR : Z := 9999.
Definition max_days : Z := days_from_civil MAX_EXPIRATION_YEAR 12 31.
Definition max_expiration_unix_secs : Z := days_from_civil MAX_EXPIRATION_YEAR 12 31 * 86400 + 86399.

(** [{n:0w}]. *)
Definition zero_padded (w : nat) (n : Z) : list Z :=
  let sign := if n <? 0 then s2b "-" else [] in
  let digits := dec (Z.abs n) in
  sign ++ replicate (w - length sign - length digits) 48 ++ digits.

(** [copy_from_slice] panics unless there are eight bytes. *)
Definition format_yyyymmdd (date : Date) : option (list Z) :=
  let '(y, m, d) := date in
  let s := zero_padded 4 y ++ zero_padded 2 m ++ zero_padded 2 d in
  if zlen s =? 8 then Some s else None.

Definition yyyymmdd_from_unix_secs (unix_secs : Z) : option (list Z) := format_yyyymmdd (civil_from_days (unix_secs / 86400)).

Definition max_valid_days (now_unix_secs : Z) : Z := clamp 0 (2 ^ 32 - 1) (max_days - now_unix_secs / 86400).

Definition chuid_expiration_in_days (now_unix_secs valid_days : Z) : option (list Z) :=
  let expiry_secs := sat_u64 (now_unix_secs + sat_u64 (valid_days * 86400)) in
  format_yyyymmdd (civil_from_days (Z.min (expiry_secs / 86400) max_days)).

Definition is_leap_year (y : Z) : bool := (Z.rem y 4 =? 0) && (negb (Z.rem y 100 =? 0) || (Z.rem y 400 =? 0)).

Definition max_valid_years (now_unix_secs : Z) : Z :=
  let '(y, _, _) := civil_from_days (now_unix_secs / 86400) in
  clamp 0 (2 ^ 32 - 1) (MAX_EXPIRATION_YEAR - y).

(** The end of both additions: the date, clamped to the last second there is. *)
Definition at_date (y m d time_of_day : Z) : Z :=
  let new_days := days_from_civil y m d in
  if max_days <=? new_days then max_days * 86400 + 86399 else new_days * 86400 + time_of_day.

Definition add_calendar_years (now_unix_secs years : Z) : Z :=
  let now_secs := as_i64 now_unix_secs in
  let '(y, m, d) := civil_from_days (now_secs / 86400) in
  let target_year := sat_i64 (y + years) in
  let d := if (m =? 2) && (d =? 29) && negb (is_leap_year target_year) then 28 else d in
  at_date target_year m d (now_secs mod 86400).

Definition chuid_expiration_in_years (now_unix_secs valid_years : Z) : option (list Z) :=
  format_yyyymmdd (civil_from_days (add_calendar_years now_unix_secs valid_years / 86400)).

(** Other months never come out of a conversion. *)
Definition days_in_month (y m : Z) : Z :=
  if bool_decide (m ∈ [1; 3; 5; 7; 8; 10; 12]) then 31
  else if bool_decide (m ∈ [4; 6; 9; 11]) then 30
  else if is_leap_year y then 29 else 28.

Definition max_valid_months (now_unix_secs : Z) : Z :=
  let '(y, m, _) := civil_from_days (now_unix_secs / 86400) in
  clamp 0 (2 ^ 32 - 1) ((MAX_EXPIRATION_YEAR - y) * 12 + (12 - m)).

Definition add_calendar_months (now_unix_secs months : Z) : Z :=
  let now_secs := as_i64 now_unix_secs in
  let '(y, m, d) := civil_from_days (now_secs / 86400) in
  let total_months := m - 1 + months in
  let target_year := y + total_months / 12 in
  let target_month := total_months mod 12 + 1 in
  at_date target_year target_month (Z.min d (days_in_month target_year target_month)) (now_secs mod 86400).

Definition chuid_expiration_in_months (now_unix_secs valid_months : Z) : option (list Z) :=
  format_yyyymmdd (civil_from_days (add_calendar_months now_unix_secs valid_months / 86400)).

Definition add_calendar_period (now_unix_secs years months days : Z) : Z :=
  let after_years := if 0 <? years then add_calendar_years now_unix_secs years else as_i64 now_unix_secs in
  let after_months := if 0 <? months then add_calendar_months (cast 64 after_years) months else after_years in
  Z.min (sat_i64 (after_months + days * 86400)) max_expiration_unix_secs.

(** * The calendar the dates are measured by *)

Definition valid_date (date : Date) : Prop :=
  let '(y, m, d) := date in 1 <= m <= 12 /\ 1 <= d <= days_in_month y m.

(** The day after. *)
Definition next_date (date : Date) : Date :=
  let '(y, m, d) := date in
  if d <? days_in_month y m then (y, m, d + 1) else if m <? 12 then (y, m + 1, 1) else (y + 1, 1, 1).

Definition earlier (a b : Date) : Prop :=
  let '(y, m, d) := a in let '(y', m', d') := b in y < y' \/ y = y' /\ (m < m' \/ m = m' /\ d < d').

Definition days (date : Date) : Z := let '(y, m, d) := date in days_from_civil y m d.

(** * Lemmas *)

(** Years are counted from March; [yoe] is the year of a 400-year era. *)
Definition yoe_of (doe : Z) : Z := (doe - doe / 1460 + doe / 36524 - doe / 146096) / 365.
Definition year_start (yoe : Z) : Z := yoe * 365 + yoe / 4 - yoe / 100.
Definition month_start (mp : Z) : Z := (153 * mp + 2) / 5.

Ltac zdiv := Z.to_euclidean_division_equations; lia.

Lemma era_div z n : 0 < n -> Z.quot (if 0 <=? z then z else z - (n - 1)) n = z / n.
Proof.
  intros Hn. destruct (0 <=? z) eqn:E; bools; [by rewrite Z.quot_div_nonneg by lia|].
  replace (z - (n - 1)) with (- (n - 1 - z)) by lia. rewrite Z.quot_opp_l, Z.quot_div_nonneg by lia.
  apply (Z.div_unique z n _ (n - 1 - (n - 1 - z) mod n)); pose proof (Z.mod_pos_bound (n - 1 - z) n);
    pose proof (Z.div_mod (n - 1 - z) n); lia.
Qed.

Lemma leap_rem y : is_leap_year y = (y mod 4 =? 0) && (negb (y mod 100 =? 0) || (y mod 400 =? 0)).
Proof.
  unfold is_leap_year. assert (forall n, 0 < n -> (Z.rem y n =? 0) = (y mod n =? 0)) as He; [|by rewrite !He].
  intros n Hn. apply eq_true_iff_eq. rewrite !Z.eqb_eq, Z.rem_divide, Z.mod_divide by lia. done.
Qed.
Lemma leap_iff y : is_leap_year y = true <-> y mod 4 = 0 /\ (y mod 100 <> 0 \/ y mod 400 = 0).
Proof. rewrite leap_rem, andb_true_iff, orb_true_iff, negb_true_iff, !Z.eqb_eq, Z.eqb_neq. tauto. Qed.
Lemma leap_era y era : is_leap_year (y + era * 400) = is_leap_year y.
Proof. apply eq_true_iff_eq. rewrite !leap_iff. zdiv. Qed.

Lemma yoe_bounds doe : 0 <= doe <= 146096 -> 0 <= yoe_of doe <= 399 /\ 0 <= doe - year_start (yoe_of doe) <= 365.
Proof.
  intros H. unfold yoe_of, year_start. assert (doe / 146096 = 0 \/ doe / 146096 = 1) as Hc by lia_div.
  assert (0 <= doe / 36524 <= 4) as Hb by lia_div.
  assert (doe / 36524 = 0 \/ doe / 36524 = 1 \/ doe / 36524 = 2 \/ doe / 36524 = 3 \/ doe / 36524 = 4) as Hb' by lia.
  clear Hb. destruct Hc as [Hc|Hc], Hb' as [Hb|[Hb|[Hb|[Hb|Hb]]]]; rewrite ?Hc, ?Hb; lia_div.
Qed.

(** The last day of the March year [Y], 29 February when the civil year
    after it is a leap year. *)
Definition year_last (yoe : Z) : Z := if is_leap_year (yoe + 1) then 365 else 364.
Lemma year_next Y : 0 <= Y <= 399 -> year_start Y + year_last Y + 1 = (if Y =? 399 then 146097 else year_start (Y + 1)).
Proof.
  intros HY. unfold year_last. pose proof (leap_iff (Y + 1)) as Hl. unfold year_start.
  destruct (is_leap_year _), (Y =? 399) eqn:E; bools; [|destruct Hl as [Hl _]; specialize (Hl eq_refl)|
    assert (~ ((Y + 1) mod 4 = 0 /\ ((Y + 1) mod 100 <> 0 \/ (Y + 1) mod 400 = 0))) by (intros Hn; by apply Hl in Hn)..]; lia_div.
Qed.
Lemma year_start_mono Y Y' : 0 <= Y <= Y' -> Y' <= 399 -> year_start Y <= year_start Y'.
Proof. unfold year_start. intros. lia_div. Qed.
Lemma yoe_unique doe Y : 0 <= Y <= 399 -> year_start Y <= doe <= year_start Y + year_last Y -> yoe_of doe = Y.
Proof.
  intros HY Hd. assert (year_last Y = 365 /\ (Y + 1) mod 4 = 0 /\ ((Y + 1) mod 100 <> 0 \/ Y = 399) \/ year_last Y = 364) as Hl.
  { unfold year_last in *. pose proof (leap_iff (Y + 1)) as Hl. destruct (is_leap_year _); [left|by right].
    split; [done|]. destruct Hl as [Hl _]. destruct (Hl eq_refl) as [H4 Hx]. split; [done|]. destruct Hx; [by left|right; lia_div]. }
  unfold yoe_of, year_start in *. assert (doe = 146096 /\ Y = 399 \/ doe < 146096) as [[-> ->]|Hm] by lia_div; [done|].
  assert (doe / 146096 = 0) as Hz by lia_div. assert (doe / 36524 = Y / 100) as Hq by lia_div. rewrite Hz, Hq.
  assert (Y / 100 = 0 \/ Y / 100 = 1 \/ Y / 100 = 2 \/ Y / 100 = 3) as Hc by lia_div.
  destruct Hc as [Hc|[Hc|[Hc|Hc]]]; rewrite Hc in *; lia_div.
Qed.
Lemma yoe_last doe : 0 <= doe <= 146096 -> doe - year_start (yoe_of doe) <= year_last (yoe_of doe).
Proof.
  intros H. destruct (yoe_bounds doe H) as [HY Hs]. destruct (decide (doe - year_start (yoe_of doe) <= year_last (yoe_of doe))) as [|Hn]; [done|].
  pose proof (year_next _ HY) as Hx. assert (yoe_of doe <> 399) as H9. { intros He. rewrite He in *. cbn in Hx, Hn. lia. }
  rewrite (proj2 (Z.eqb_neq _ _) H9) in Hx. assert (year_last (yoe_of doe) = 364 \/ year_last (yoe_of doe) = 365) as Hl by (unfold year_last; destruct (is_leap_year _); auto).
  assert (year_last (yoe_of doe + 1) = 364 \/ year_last (yoe_of doe + 1) = 365) as Hl' by (unfold year_last; destruct (is_leap_year _); auto).
  pose proof (yoe_unique doe (yoe_of doe + 1)). lia.
Qed.

(** The March year and month of a civil date. *)
Definition march_year (y m : Z) : Z := if m <=? 2 then y - 1 else y.
Definition march_month (m : Z) : Z := m + (if 2 <? m then -3 else 9).
(** The day before 1 March of the year, in closed form. *)
Definition march_days (Y : Z) : Z := 365 * Y + Y / 4 - Y / 100 + Y / 400 - 719469.

Lemma days_closed y m d : days_from_civil y m d = march_days (march_year y m) + month_start (march_month m) + d.
Proof.
  unfold days_from_civil, march_days. cbv zeta. fold (march_year y m) (march_month m). generalize (march_year y m) as Y. intros Y.
  change 399 with (400 - 1). rewrite era_div by lia. unfold month_start. lia_div.
Qed.
Lemma march_next Y : march_days (Y + 1) = march_days Y + 365 + (if is_leap_year (Y + 1) then 1 else 0).
Proof.
  pose proof (leap_iff (Y + 1)) as Hl. unfold march_days. destruct (is_leap_year _).
  - destruct Hl as [Hl _]. specialize (Hl eq_refl). lia_div.
  - assert (~ ((Y + 1) mod 4 = 0 /\ ((Y + 1) mod 100 <> 0 \/ (Y + 1) mod 400 = 0))) by (intros Hn; by apply Hl in Hn). lia_div.
Qed.
Lemma march_mono Y Y' : Y <= Y' -> march_days Y <= march_days Y'.
Proof. unfold march_days. intros. lia_div. Qed.

Lemma month_cases (P : Z -> Prop) m : 1 <= m <= 12 -> P 1 -> P 2 -> P 3 -> P 4 -> P 5 -> P 6 -> P 7 -> P 8 -> P 9 -> P 10 -> P 11 -> P 12 -> P m.
Proof.
  intros H. assert (m = 1 \/ m = 2 \/ m = 3 \/ m = 4 \/ m = 5 \/ m = 6 \/ m = 7 \/ m = 8 \/ m = 9 \/ m = 10 \/ m = 11 \/ m = 12) as Hm by lia.
  intros. destruct_or! Hm; by subst m.
Qed.

(** A month ends where the next one starts, February with the year. *)
Lemma month_len y m : 1 <= m <= 12 -> month_start (march_month m) + days_in_month y m =
  (if m =? 2 then 365 + (if is_leap_year y then 1 else 0) else month_start (march_month m + 1)).
Proof. intros H. revert m H. intros m H. pattern m. apply (month_cases _ m H); try reflexivity. unfold days_in_month. cbn. by destruct (is_leap_year y). Qed.
Lemma month_pos y m : 28 <= days_in_month y m <= 31.
Proof. unfold days_in_month. repeat case_bool_decide; try destruct (is_leap_year y); lia. Qed.
Lemma month_unique mp doy : 0 <= mp <= 11 -> month_start mp <= doy -> (mp < 11 -> doy < month_start (mp + 1)) -> doy <= 365 -> (5 * doy + 2) / 153 = mp.
Proof. unfold month_start. intros. lia_div. Qed.

(** A date inside its March year. *)
Lemma date_place y m d : valid_date (y, m, d) -> 0 <= march_month m <= 11 /\
  1 <= month_start (march_month m) + d <= 365 + (if is_leap_year (march_year y m + 1) then 1 else 0) /\
  (march_month m < 11 -> month_start (march_month m) + d <= month_start (march_month m + 1)).
Proof.
  intros [Hm Hd]. pose proof (month_len y m Hm) as Hl. assert (0 <= march_month m <= 11) as Hp by (unfold march_month; destruct (2 <? m) eqn:E; bools; lia).
  split; [done|]. assert (0 <= month_start (march_month m)) by (unfold month_start; lia_div).
  destruct (m =? 2) eqn:E; bools; [subst m; change (march_year y 2) with (y - 1); replace (y - 1 + 1) with y by lia; change (march_month 2) with 11 in *; lia|].
  assert (march_month m < 11 -> month_start (march_month m + 1) <= 337) by (unfold month_start; intros; lia_div).
  assert (march_month m <> 11) by (unfold march_month; destruct (2 <? m) eqn:E'; bools; lia).
  destruct (is_leap_year _); lia.
Qed.

(** The civil date of a day of a March year. *)
Definition march_date (Y doy : Z) : Date :=
  let mp := (5 * doy + 2) / 153 in
  let m := if mp <? 10 then mp + 3 else mp - 9 in
  (Y + (if m <=? 2 then 1 else 0), m, doy - month_start mp + 1).

Lemma civil_eq z : civil_from_days z =
  let doe := (z + 719468) mod 146097 in
  march_date (yoe_of doe + (z + 719468) / 146097 * 400) (doe - year_start (yoe_of doe)).
Proof.
  unfold civil_from_days. cbv zeta. pose proof (era_div (z + 719468) 146097 eq_refl) as He. change (146097 - 1) with 146096 in He. rewrite !He. clear He.
  replace (z + 719468 - (z + 719468) / 146097 * 146097) with ((z + 719468) mod 146097) by lia_div.
  generalize ((z + 719468) mod 146097) as doe. intros doe. fold (yoe_of doe). unfold march_date, year_start, month_start.
  replace (365 * yoe_of doe + yoe_of doe / 4 - yoe_of doe / 100) with (yoe_of doe * 365 + yoe_of doe / 4 - yoe_of doe / 100) by lia. done.
Qed.
Lemma march_date_of y m d : valid_date (y, m, d) ->
  march_date (march_year y m) (month_start (march_month m) + d - 1) = (y, m, d).
Proof.
  intros Hv. pose proof (date_place y m d Hv) as (Hp & Hd & Hn). destruct Hv as [Hm Hd']. unfold march_date. cbv zeta.
  rewrite (month_unique (march_month m)) by (destruct (is_leap_year _); lia).
  assert ((if march_month m <? 10 then march_month m + 3 else march_month m - 9) = m) as ->.
  { unfold march_month. destruct (2 <? m) eqn:E; bools; decide_cmp; lia. }
  f_equal; [f_equal; unfold march_year; destruct (m <=? 2); lia|lia].
Qed.

(** The day number of the start of a March year, by eras. *)
Lemma march_days_era Y : march_days Y + 1 + 719468 = Y / 400 * 146097 + year_start (Y mod 400).
Proof. unfold march_days, year_start. lia_div. Qed.
Lemma march_leap Y : is_leap_year (Y + 1) = is_leap_year (Y mod 400 + 1).
Proof. replace (Y + 1) with (Y mod 400 + 1 + Y / 400 * 400) by lia_div. apply leap_era. Qed.
Lemma year_end Y : 0 <= Y <= 399 -> 0 <= year_start Y /\ year_start Y + year_last Y <= 146096.
Proof.
  intros HY. pose proof (year_next Y HY) as Hn. split; [unfold year_start; lia_div|]. destruct (_ =? 399) eqn:E; bools; [lia|].
  pose proof (year_start_mono (Y + 1) 399). assert (year_start 399 = 145731) by done. lia.
Qed.

Lemma civil_of_days y m d : valid_date (y, m, d) -> civil_from_days (days_from_civil y m d) = (y, m, d).
Proof.
  intros Hv. pose proof (date_place y m d Hv) as (_ & Hd & _). rewrite <- (march_date_of y m d Hv), civil_eq, days_closed. cbv zeta.
  set (Y := march_year y m) in *. set (doy := month_start (march_month m) + d - 1).
  assert (0 <= Y mod 400 <= 399) as HY by lia_div. destruct (year_end _ HY) as [Hs He].
  assert (0 <= doy <= year_last (Y mod 400)) as Hb by (unfold year_last; rewrite <- march_leap; unfold doy; destruct (is_leap_year _); lia).
  replace (march_days Y + _ + d + 719468) with (year_start (Y mod 400) + doy + Y / 400 * 146097) by (pose proof (march_days_era Y); unfold doy; lia).
  rewrite Z.div_add, Z_mod_plus_full, Z.mod_small, Z.div_small, Z.add_0_l by lia.
  rewrite (yoe_unique _ (Y mod 400)) by lia. f_equal; [lia_div|lia].
Qed.

Lemma days_of_civil z : valid_date (civil_from_days z) /\ days (civil_from_days z) = z.
Proof.
  rewrite civil_eq. cbv zeta. assert (0 <= (z + 719468) mod 146097 <= 146096) as Hd by lia_div.
  pose proof (Z.div_mod (z + 719468) 146097 ltac:(lia)) as Hz. set (doe := (z + 719468) mod 146097) in *. set (era := (z + 719468) / 146097) in *.
  destruct (yoe_bounds doe Hd) as [HY Hs]. pose proof (yoe_last doe Hd) as Hl. set (Y := yoe_of doe) in *. set (doy := doe - year_start Y) in *.
  assert (valid_date (march_date (Y + era * 400) doy) /\ days (march_date (Y + era * 400) doy) = march_days (Y + era * 400) + 1 + doy) as [Hv Hx].
  2: { split; [done|]. rewrite Hx. pose proof (march_days_era (Y + era * 400)) as Hm. rewrite Z.div_add, Z_mod_plus_full, Z.div_small, Z.mod_small in Hm by lia.
       unfold doy in *. lia. }
  assert (doy <= 364 + (if is_leap_year (Y + era * 400 + 1) then 1 else 0)) as Hl'.
  { rewrite march_leap, Z_mod_plus_full, Z.mod_small by lia. unfold year_last in Hl. destruct (is_leap_year _); lia. }
  clearbody doy. clear Hl Hz. generalize (Y + era * 400) as A, Hl'. clear Hl'. intros A Hl.
  unfold march_date. cbv zeta. set (mp := (5 * doy + 2) / 153). assert (0 <= mp <= 11) as Hmp by (unfold mp; lia_div).
  assert (0 <= doy - month_start mp /\ (mp < 11 -> doy < month_start (mp + 1))) as [H0 H1] by (unfold mp, month_start; lia_div).
  assert (march_month (if mp <? 10 then mp + 3 else mp - 9) = mp /\ 1 <= (if mp <? 10 then mp + 3 else mp - 9) <= 12) as [Hmm Hm].
  { unfold march_month. destruct (mp <? 10) eqn:E; bools; decide_cmp; lia. }
  set (m := if mp <? 10 then mp + 3 else mp - 9) in *. set (y := A + (if m <=? 2 then 1 else 0)).
  assert (march_year y m = A) as Hy by (unfold march_year, y; destruct (m <=? 2); lia). pose proof (month_len y m Hm) as Hlen. rewrite Hmm in Hlen.
  split.
  - split; [done|]. split; [lia|]. destruct (m =? 2) eqn:E; bools.
    + replace (A + 1) with y in Hl by (unfold y; rewrite E; done). assert (mp = 11) by (unfold march_month in Hmm; rewrite E in Hmm; done).
      subst mp. replace (month_start _) with 337 in * by (by rewrite H). lia.
    + assert (mp < 11) by (unfold march_month in Hmm; destruct (2 <? m) eqn:E'; bools; lia). lia.
  - cbn [days]. rewrite days_closed, Hy, Hmm. lia.
Qed.

Lemma days_next date : valid_date date -> valid_date (next_date date) /\ days (next_date date) = days date + 1.
Proof.
  destruct date as [[y m] d]. intros [Hm Hd]. unfold next_date. pose proof (month_pos y m). pose proof (month_len y m Hm) as Hl.
  destruct (d <? _) eqn:E1; bools; [split; [split; lia|cbn [days]; rewrite !days_closed; lia]|].
  destruct (m <? 12) eqn:E2; bools.
  - pose proof (month_pos y (m + 1)). split; [split; lia|]. cbn [days]. rewrite !days_closed. destruct (m =? 2) eqn:E; bools.
    + subst m. change (march_year y (2 + 1)) with y. change (march_year y 2) with (y - 1).
      pose proof (march_next (y - 1)) as Hn. replace (y - 1 + 1) with y in Hn by lia.
      change (month_start (march_month (2 + 1))) with 0. lia.
    + assert (march_month (m + 1) = march_month m + 1) as -> by (unfold march_month; destruct (2 <? m + 1) eqn:?, (2 <? m) eqn:?; bools; lia).
      assert (march_year y (m + 1) = march_year y m) as -> by (unfold march_year; destruct (m + 1 <=? 2) eqn:?, (m <=? 2) eqn:?; bools; lia). lia.
  - pose proof (month_pos (y + 1) 1). split; [split; lia|]. cbn [days]. rewrite !days_closed. assert (m = 12) by lia. subst m.
    change (march_year (y + 1) 1) with (y + 1 - 1). change (march_year y 12) with y. replace (y + 1 - 1) with y by lia.
    change (month_start (march_month 1)) with 306. change (month_start (march_month 12)) with 275. change (days_in_month y 12) with 31 in *. lia.
Qed.

Lemma days_mono a b : valid_date a -> valid_date b -> earlier a b -> days a < days b.
Proof.
  destruct a as [[y m] d], b as [[y' m'] d']. intros Ha Hb He. pose proof (date_place _ _ _ Ha) as (_ & H1 & H2).
  pose proof (date_place _ _ _ Hb) as (H6 & H3 & H4). destruct Ha as [Hm _], Hb as [Hm' Hd']. cbn [days]. rewrite !days_closed.
  assert (march_year y m < march_year y' m' \/ march_year y m = march_year y' m' /\
    (march_month m < march_month m' \/ march_month m = march_month m' /\ m = m' /\ d < d')) as Hc.
  { unfold earlier in He. unfold march_year, march_month.
    destruct (m <=? 2) eqn:E1, (2 <? m) eqn:E2, (m' <=? 2) eqn:E3, (2 <? m') eqn:E4; bools; lia. }
  destruct Hc as [Hc | [-> [Hc | [-> [-> Hc]]]]]; [|assert (month_start (march_month m + 1) <= month_start (march_month m')) by (unfold month_start; lia_div); lia|lia].
  pose proof (march_mono (march_year y m + 1) (march_year y' m') ltac:(lia)). rewrite march_next in H. lia.
Qed.
Lemma earlier_total a b : earlier a b \/ a = b \/ earlier b a.
Proof.
  destruct a as [[y m] d], b as [[y' m'] d']. unfold earlier. destruct (decide (y = y' /\ m = m' /\ d = d')) as [(-> & -> & ->)|]; [tauto|lia].
Qed.
Lemma days_earlier a b : valid_date a -> valid_date b -> earlier a b <-> days a < days b.
Proof.
  intros Ha Hb. split; [by apply days_mono|]. intros Hd. destruct (earlier_total a b) as [?|[->|He]]; [done|lia|].
  apply days_mono in He; [lia|done..].
Qed.

(** ** Dates some months later *)

(** The same day of the month, or the last day of a shorter one. *)
Definition months_later (date : Date) (n : Z) : Date :=
  let '(y, m, d) := date in
  let y' := y + (m - 1 + n) / 12 in
  let m' := (m - 1 + n) mod 12 + 1 in
  (y', m', Z.min d (days_in_month y' m')).

(** The second a validity ends at, given the day and the second of the day. *)
Definition end_of (date : Date) (time_of_day : Z) : Z :=
  if max_days <=? days date then max_expiration_unix_secs else days date * 86400 + time_of_day.

Lemma months_later_valid date n : valid_date date -> valid_date (months_later date n).
Proof.
  destruct date as [[y m] d]. intros [Hm Hd]. unfold months_later. pose proof (month_pos (y + (m - 1 + n) / 12) ((m - 1 + n) mod 12 + 1)).
  split; [lia_div|lia].
Qed.
Lemma months_later_mono date n n' : valid_date date -> n <= n' -> days (months_later date n) <= days (months_later date n').
Proof.
  intros Hv Hn. destruct (decide (n = n')) as [->|Hne]; [done|]. apply Z.lt_le_incl, days_mono; [by apply months_later_valid..|].
  destruct date as [[y m] d]. unfold months_later, earlier.
  assert (y + (m - 1 + n) / 12 < y + (m - 1 + n') / 12 \/ y + (m - 1 + n) / 12 = y + (m - 1 + n') / 12 /\ (m - 1 + n) mod 12 < (m - 1 + n') mod 12) by lia_div. lia.
Qed.
Lemma months_later_0 date : valid_date date -> months_later date 0 = date.
Proof.
  destruct date as [[y m] d]. intros [Hm Hd]. unfold months_later. replace ((m - 1 + 0) mod 12 + 1) with m by lia_div.
  replace (y + (m - 1 + 0) / 12) with y by lia_div. by rewrite Z.min_l by lia.
Qed.
Lemma add_months_eq now n : now < 2 ^ 63 -> add_calendar_months now n = end_of (months_later (civil_from_days (now / 86400)) n) (now mod 86400).
Proof. intros. unfold add_calendar_months. rewrite as_i64_small by done. cbv zeta. by destruct (civil_from_days _) as [[y m] d]. Qed.

(** A year is twelve months, also when it ends on a leap day. *)
Lemma add_years_months now n : 0 <= now < 2 ^ 63 -> 0 <= n < 2 ^ 32 -> add_calendar_years now n = add_calendar_months now (12 * n).
Proof.
  intros Hw Hn. rewrite add_months_eq by lia. unfold add_calendar_years. rewrite as_i64_small by lia. cbv zeta.
  destruct (days_of_civil (now / 86400)) as [Hv Hd]. destruct (civil_from_days _) as [[y m] d].
  pose proof (date_place _ _ _ Hv) as (_ & Hp & _). destruct Hv as [Hm Hdm].
  unfold months_later. replace ((m - 1 + 12 * n) mod 12 + 1) with m by lia_div. replace (y + (m - 1 + 12 * n) / 12) with (y + n) by lia_div.
  assert (sat_i64 (y + n) = y + n) as ->.
  { cbn [days] in Hd. rewrite days_closed in Hd. unfold march_days in Hd. unfold sat_i64.
    assert (1 <= month_start (march_month m) + d <= 366) by (destruct (is_leap_year _); lia). assert (-2 ^ 61 < march_year y m < 2 ^ 61) by lia_div. assert (y - 1 <= march_year y m <= y) by (unfold march_year; destruct (m <=? 2); lia). lia. }
  assert ((if (m =? 2) && (d =? 29) && negb (is_leap_year (y + n)) then 28 else d) = Z.min d (days_in_month (y + n) m)) as ->.
  2: { done. }
  revert Hdm. revert m Hm Hp Hd. intros m Hm _ _. pattern m. apply (month_cases _ m Hm); intros Hd;
    try (rewrite Z.min_l; [done|exact (proj2 Hd)]).
  change (days_in_month (y + n) 2) with (if is_leap_year (y + n) then 29 else 28). change (days_in_month y 2) with (if is_leap_year y then 29 else 28) in Hd.
  change (2 =? 2) with true. destruct (is_leap_year (y + n)), (is_leap_year y), (d =? 29) eqn:E; bools; cbn [andb negb]; lia.
Qed.

Lemma end_of_bound date t : 0 <= t < 86400 -> end_of date t <= max_expiration_unix_secs.
Proof. intros Ht. unfold end_of. destruct (_ <=? _) eqn:E; bools; [lia|]. unfold max_expiration_unix_secs, max_days in *. lia. Qed.
Lemma end_of_mono a b t : 0 <= t < 86400 -> days a <= days b -> end_of a t <= end_of b t.
Proof.
  intros Ht Hd. pose proof (end_of_bound a t Ht). unfold end_of at 2. destruct (_ <=? days b) eqn:E; bools; [done|].
  unfold end_of. destruct (_ <=? days a) eqn:E'; bools; lia.
Qed.
Lemma end_of_now now : 0 <= now -> now <= max_expiration_unix_secs -> now <= end_of (civil_from_days (now / 86400)) (now mod 86400).
Proof.
  intros H0 Hn. unfold end_of. rewrite (proj2 (days_of_civil _)). destruct (_ <=? _); [done|]. lia_div.
Qed.

(** ** The text of a date *)

Lemma undec_app a b : undec (a ++ b) = undec a * 10 ^ zlen b + undec b.
Proof.
  unfold undec. rewrite fold_left_app. generalize (fold_left (fun a d => a * 10 + (d - 48)) a 0) as x. intros x.
  assert (forall l x, fold_left (fun a d => a * 10 + (d - 48)) l x = x * 10 ^ zlen l + fold_left (fun a d => a * 10 + (d - 48)) l 0) as Hf; [|apply Hf].
  clear. induction l as [|d l IH]; intros x; cbn [fold_left]; [rewrite zlen_nil; lia|].
  rewrite IH, (IH (0 * 10 + _)), zlen_cons. pose proof (zlen_nonneg l). rewrite Z.pow_add_r by lia. lia.
Qed.
Lemma padded_digits w n : (0 < w)%nat -> 0 <= n < 10 ^ Z.of_nat w ->
  length (zero_padded w n) = w /\ Forall (fun c => 48 <= c <= 57) (zero_padded w n) /\ undec (zero_padded w n) = n.
Proof.
  intros Hw Hn. unfold zero_padded. rewrite (proj2 (Z.ltb_ge n 0)) by lia. rewrite Z.abs_eq by lia. cbn [app length]. rewrite Nat.sub_0_r.
  destruct w as [|w]; [lia|]. assert (length (dec n) <= S w)%nat as Hl by (pose proof (dec_aux_length (S (Z.to_nat (Z.log2 n))) n (S w) ltac:(lia) Hn) as Hl; unfold zlen in Hl; unfold dec; lia). destruct (dec_spec n) as [Hu Hf]; [lia|].
  split; [rewrite length_app, length_replicate; lia|]. split; [|by rewrite undec_zeros].
  apply Forall_app. split; [apply Forall_replicate; lia|done].
Qed.

(** [s] is the eight-digit text of a date. *)
Definition date_text (date : Date) (s : list Z) : Prop :=
  let '(y, m, d) := date in length s = 8%nat /\ Forall (fun c => 48 <= c <= 57) s /\ undec s = y * 10000 + m * 100 + d.
Lemma format_spec date : valid_date date -> days (1970, 1, 1) <= days date <= max_days -> exists s, format_yyyymmdd date = Some s /\ date_text date s.
Proof.
  intros Hv Hd. destruct date as [[y m] d]. assert (0 <= y <= 9999) as Hy.
  { split; apply Z.nlt_ge; intros Hlt.
    - assert (days (y, m, d) < days (1970, 1, 1)); [|lia]. apply days_mono; [done|by_decision|unfold earlier; lia].
    - assert (days (9999, 12, 31) < days (y, m, d)); [|unfold max_days in Hd; cbn [days] in *; unfold MAX_EXPIRATION_YEAR in *; lia].
      apply days_mono; [by_decision|done|unfold earlier; lia]. }
  destruct Hv as [Hm Hdm]. pose proof (month_pos y m).
  destruct (padded_digits 4 y) as (L1 & F1 & U1); [lia|lia|]. destruct (padded_digits 2 m) as (L2 & F2 & U2); [lia|lia|].
  destruct (padded_digits 2 d) as (L3 & F3 & U3); [lia|lia|]. unfold format_yyyymmdd, date_text. cbv zeta.
  assert (zlen (zero_padded 4 y ++ zero_padded 2 m ++ zero_padded 2 d) = 8) as Hz by (unfold zlen; rewrite !length_app; lia).
  rewrite (proj2 (Z.eqb_eq _ _) Hz). eexists. split; [done|]. split; [unfold zlen in Hz; lia|]. split; [by rewrite !Forall_app|].
  rewrite !undec_app, U1, U2, U3. unfold zlen. rewrite length_app, L2, L3. cbn. lia.
Qed.

(** ** Validity periods *)

Lemma max_expiration_63 : max_expiration_unix_secs = 253402300799.
Proof. done. Qed.

Section period.
Context (now : Z) (H0 : 0 <= now) (Hmax : now <= max_expiration_unix_secs).

Lemma now_small : now < 2 ^ 63.
Proof. rewrite max_expiration_63 in Hmax. lia. Qed.
Lemma months_bounds n : 0 <= n -> now <= add_calendar_months now n <= max_expiration_unix_secs.
Proof.
  intros Hn. rewrite add_months_eq by apply now_small. destruct (days_of_civil (now / 86400)) as [Hv _]. split; [|apply end_of_bound; lia_div].
  pose proof (end_of_now now H0 Hmax) as Hw. etransitivity; [exact Hw|]. apply end_of_mono; [lia_div|].
  rewrite <- (months_later_0 _ Hv) at 1. by apply months_later_mono.
Qed.
Lemma months_mono n n' : n <= n' -> add_calendar_months now n <= add_calendar_months now n'.
Proof.
  intros Hn. rewrite !add_months_eq by apply now_small. destruct (days_of_civil (now / 86400)) as [Hv _]. apply end_of_mono; [lia_div|].
  by apply months_later_mono.
Qed.
Lemma years_months n : 0 <= n < 2 ^ 32 -> add_calendar_years now n = add_calendar_months now (12 * n).
Proof. intros. apply add_years_months; [|done]. pose proof now_small. lia. Qed.

(** The expiry text of a second inside the calendar. *)
Lemma expiry_text d : 0 <= d <= max_days -> exists s, format_yyyymmdd (civil_from_days d) = Some s /\ date_text (civil_from_days d) s.
Proof. intros Hd. destruct (days_of_civil d) as [Hv He]. apply format_spec; [done|]. rewrite He. change (days (1970, 1, 1)) with 0. lia. Qed.
Lemma expiry_days x : now <= x <= max_expiration_unix_secs -> 0 <= x / 86400 <= max_days.
Proof. intros. assert (max_expiration_unix_secs / 86400 = max_days) by done. rewrite max_expiration_63 in *. assert (max_days = 2932896) by done. lia_div. Qed.
End period.

(** * Properties *)

(** C19: the two conversions are the Gregorian calendar, for every day before
    and after the epoch: day 0 is 1 January 1970, the day after a date has the
    next number, every number is a valid date and back, and the later of two
    dates is the one with the larger number. Day numbers are unbounded here; the
    code's are 64 bits, and it differs only where its sums would overflow them. *)
Theorem piv_calendar (z : Z) (a b : Date) :
  days (1970, 1, 1) = 0 /\ valid_date (civil_from_days z) /\ days (civil_from_days z) = z /\
  (valid_date a -> civil_from_days (days a) = a /\ valid_date (next_date a) /\ days (next_date a) = days a + 1) /\
  (valid_date a -> valid_date b -> earlier a b <-> days a < days b).
Proof.
  split; [done|]. split; [apply days_of_civil|]. split; [apply days_of_civil|]. split; [|apply days_earlier].
  intros Ha. split; [|by apply days_next]. destruct a as [[y m] d]. by apply civil_of_days.
Qed.

(** A validity period ends on the day it is meant to. Some months later is
    the same day of the month at the same time, or the last day of a shorter
    month; some years later is twelve times as many months; both stop at the
    last second of 9999. A longer period never ends earlier, none ends before
    it starts, the largest counts offered reach the last month and the last day
    of 9999, and the eight digits a CHUID gets are those of the date. *)
Theorem piv_validity (now n : Z) :
  0 <= now <= max_expiration_unix_secs -> 0 <= n < 2 ^ 32 ->
  add_calendar_months now n = end_of (months_later (civil_from_days (now / 86400)) n) (now mod 86400) /\
  add_calendar_years now n = add_calendar_months now (12 * n) /\
  (forall n', n <= n' -> add_calendar_months now n <= add_calendar_months now n') /\
  (forall months days, 0 <= months < 2 ^ 32 -> 0 <= days < 2 ^ 32 -> now <= add_calendar_period now n months days <= max_expiration_unix_secs) /\
  (exists d, months_later (civil_from_days (now / 86400)) (max_valid_months now) = (MAX_EXPIRATION_YEAR, 12, d)) /\
  now / 86400 + max_valid_days now = max_days /\
  (exists s, chuid_expiration_in_months now n = Some s /\ date_text (civil_from_days (add_calendar_months now n / 86400)) s) /\
  (exists s, chuid_expiration_in_years now n = Some s /\ date_text (civil_from_days (add_calendar_years now n / 86400)) s) /\
  (exists s, chuid_expiration_in_days now n = Some s /\ date_text (civil_from_days (Z.min (now / 86400 + n) max_days)) s).
Proof.
  intros [H0 Hm] Hn. pose proof (now_small now Hm) as Hs. pose proof (expiry_days now H0 Hm now ltac:(lia)) as Hd. assert (max_days = 2932896) as Hmd by done.
  split; [by apply add_months_eq|]. split; [by apply years_months|]. split; [intros; by apply months_mono|]. split.
  { intros k d Hk Hd'. unfold add_calendar_period. rewrite (as_i64_small now) by done. cbv zeta.
    assert (now <= (if 0 <? n then add_calendar_years now n else now) <= max_expiration_unix_secs) as Hy.
    { destruct (0 <? n); [|lia]. rewrite years_months by done. apply months_bounds; lia. }
    set (ay := if 0 <? n then _ else _) in *. rewrite max_expiration_63 in *. assert (cast 64 ay = ay) as -> by (apply cast_small; unfold is_word; lia).
    assert (ay <= (if 0 <? k then add_calendar_months ay k else ay) <= 253402300799) as Hk'.
    { destruct (0 <? k); [|lia]. rewrite <- max_expiration_63. apply months_bounds; rewrite ?max_expiration_63; lia. }
    set (am := if 0 <? k then _ else _) in *. unfold sat_i64. lia. }
  assert (forall k, 0 <= k -> 0 <= add_calendar_months now k / 86400 <= max_days) as Hb by (intros; apply (expiry_days now H0 Hm), months_bounds; lia).
  split; [|split; [|split; [|split]]].
  - unfold max_valid_months. destruct (days_of_civil (now / 86400)) as [Hv He]. destruct (civil_from_days _) as [[y m] d].
    assert (~ earlier (9999, 12, 31) (y, m, d)) as Hne.
    { intros Hc. apply days_mono in Hc; [|by_decision|done]. rewrite He in Hc. change (days (9999, 12, 31)) with max_days in Hc. lia. }
    destruct Hv as [Hmm Hdd]. assert (y <= 9999) as Hy by (unfold earlier in Hne; lia).
    assert (1970 <= y) as Hy0. { apply Z.nlt_ge. intros Hlt. assert (days (y, m, d) < days (1970, 1, 1)) as Hc; [|rewrite He in Hc; change (days (1970, 1, 1)) with 0 in Hc; lia].
      apply days_mono; [by split|by_decision|unfold earlier; lia]. }
    unfold clamp, MAX_EXPIRATION_YEAR, months_later. eexists. do 2 f_equal; lia_div.
  - unfold max_valid_days, clamp. lia.
  - apply expiry_text, Hb. lia.
  - apply expiry_text. rewrite years_months by done. apply Hb. lia.
  - unfold chuid_expiration_in_days, sat_u64. rewrite (Z.min_r _ (n * 86400)), (Z.min_r _ (now + _)) by lia. rewrite Z.div_add by lia. apply expiry_text. lia.
Qed.
Lemma piv_validity_witness :
  add_calendar_years 1709208000 1 = 1740744000 /\ civil_from_days (1709208000 / 86400) = (2024, 2, 29) /\
  civil_from_days (1740744000 / 86400) = (2025, 2, 28) /\ chuid_expiration_in_months 1709208000 12 = Some (s2b "20250228") /\
  add_calendar_years 1709208000 1 = add_calendar_months 1709208000 12.
Proof.
  split; [reflexivity|]. split; [reflexivity|]. split; [reflexivity|]. split; [reflexivity|].
  apply (piv_validity 1709208000 1); [by_decision|lia].
Defined.
