(* ===== verification/PivApdu.v ===== *)
(** keyroost-piv/src/lib.rs, commands: instructions, slots, algorithms and
    policies, and every APDU builder. A failed [assert!] is [None]; wiping
    secrets has no effect here. *)
From S2P Require Export IsoRead PivTlv.

Definition AID_FULL : list Z := [0xA0; 0x00; 0x00; 0x03; 0x08; 0x00; 0x00; 0x10; 0x00; 0x01; 0x00].
Definition AID : list Z := [0xA0; 0x00; 0x00; 0x03; 0x08].
Definition SW_OK : Z := 0x9000.
Definition SW_MORE_DATA : Z := 0x61.
Definition SW_NOT_FOUND : Z := 0x6A82.
Definition SW_SECURITY_NOT_SATISFIED : Z := 0x6982.
Definition SW_AUTH_BLOCKED : Z := 0x6983.
Definition SW_CONDITIONS_NOT_SATISFIED : Z := 0x6985.
Definition SW_REFERENCE_NOT_FOUND : Z := 0x6A88.
Definition SW_WRONG_LENGTH : Z := 0x6700.
Definition SW_NOT_ENOUGH_MEMORY : Z := 0x6A84.
Definition PIN_REF_APPLICATION : Z := 0x80.
Definition PIN_REF_PUK : Z := 0x81.
Definition KEY_REF_MANAGEMENT : Z := 0x9B.

(** * Instructions *)

Inductive Instruction :=
  | Select | Verify | GetData | GetResponse | GeneralAuthenticate | GenerateKeyPair | PutData | ChangeReference
  | ResetRetryCounter | GetVersion | GetSerial | GetMetadata | MoveKey | SetManagementKey | SetPinRetries | Reset
  | Attest | ImportKey.
#[export] Instance Instruction_eq_dec : EqDecision Instruction.
Proof. solve_decision. Defined.

Definition ins_code (i : Instruction) : Z :=
  match i with
  | Select => 0xA4 | Verify => 0x20 | GetData => 0xCB | GetResponse => 0xC0 | GeneralAuthenticate => 0x87
  | GenerateKeyPair => 0x47 | PutData => 0xDB | ChangeReference => 0x24 | ResetRetryCounter => 0x2C
  | GetVersion => 0xFD | GetSerial => 0xF8 | GetMetadata => 0xF7 | MoveKey => 0xF6 | SetManagementKey => 0xFF
  | SetPinRetries => 0xFA | Reset => 0xFB | Attest => 0xF9 | ImportKey => 0xFE
  end.

Definition ins_from_code (code : Z) : option Instruction :=
  if code =? 0xA4 then Some Select else if code =? 0x20 then Some Verify
  else if code =? 0xCB then Some GetData else if code =? 0xC0 then Some GetResponse
  else if code =? 0x87 then Some GeneralAuthenticate else if code =? 0x47 then Some GenerateKeyPair
  else if code =? 0xDB then Some PutData else if code =? 0x24 then Some ChangeReference
  else if code =? 0x2C then Some ResetRetryCounter else if code =? 0xFD then Some GetVersion
  else if code =? 0xF8 then Some GetSerial else if code =? 0xF7 then Some GetMetadata
  else if code =? 0xF6 then Some MoveKey else if code =? 0xFF then Some SetManagementKey
  else if code =? 0xFA then Some SetPinRetries else if code =? 0xFB then Some Reset
  else if code =? 0xF9 then Some Attest else if code =? 0xFE then Some ImportKey else None.

Definition ins_name (i : Instruction) : list Z :=
  match i with
  | Select => s2b "SELECT" | Verify => s2b "VERIFY" | GetData => s2b "GET DATA" | GetResponse => s2b "GET RESPONSE"
  | GeneralAuthenticate => s2b "GENERAL AUTHENTICATE" | GenerateKeyPair => s2b "GENERATE ASYMMETRIC KEY PAIR"
  | PutData => s2b "PUT DATA" | ChangeReference => s2b "CHANGE REFERENCE DATA"
  | ResetRetryCounter => s2b "RESET RETRY COUNTER" | GetVersion => s2b "GET VERSION (yubico extension)"
  | GetSerial => s2b "GET SERIAL (yubico extension)" | GetMetadata => s2b "GET METADATA (yubico extension)"
  | MoveKey => s2b "MOVE KEY (yubico extension)" | SetManagementKey => s2b "SET MANAGEMENT KEY (yubico extension)"
  | SetPinRetries => s2b "SET PIN RETRIES (yubico extension)" | Reset => s2b "RESET (yubico extension)"
  | Attest => s2b "ATTEST (yubico extension)" | ImportKey => s2b "IMPORT ASYMMETRIC KEY (yubico extension)"
  end.

Definition INS_SELECT_P1_BY_AID : Z := 0x04.
Definition GET_DATA_P1 : Z := 0x3F.
Definition GET_DATA_P2 : Z := 0xFF.

(** * Slots, algorithms, policies *)

Inductive Slot := Authentication | Signature | KeyManagement | CardAuthentication | Retired (n : Z).
#[export] Instance Slot_eq_dec : EqDecision Slot.
Proof. solve_decision. Defined.

Definition key_ref (s : Slot) : Z :=
  match s with
  | Authentication => 0x9A | Signature => 0x9C | KeyManagement => 0x9D | CardAuthentication => 0x9E
  | Retired n => 0x81 + n
  end.
Definition cert_object_tag (s : Slot) : list Z :=
  match s with
  | Authentication => [0x5F; 0xC1; 0x05] | Signature => [0x5F; 0xC1; 0x0A] | KeyManagement => [0x5F; 0xC1; 0x0B]
  | CardAuthentication => [0x5F; 0xC1; 0x01] | Retired n => [0x5F; 0xC1; 0x0C + n]
  end.

(** [{:02X}] of a byte. *)
Definition hex_digit_upper (d : Z) : Z := if d <? 10 then 48 + d else 55 + d.
Definition hex_upper (b : Z) : list Z := [hex_digit_upper (b / 16); hex_digit_upper (b mod 16)].

Definition slot_label (s : Slot) : list Z :=
  match s with
  | Authentication => s2b "authentication (9A)" | Signature => s2b "signature (9C)"
  | KeyManagement => s2b "key management (9D)" | CardAuthentication => s2b "card authentication (9E)"
  | Retired n => s2b "retired key " ++ dec n ++ s2b " (" ++ hex_upper (0x81 + n) ++ s2b ")"
  end.
Definition slot_all : list Slot := [Authentication; Signature; KeyManagement; CardAuthentication].
Definition retired (n : Z) : option Slot := if (1 <=? n) && (n <=? 20) then Some (Retired n) else None.
Definition retired_all : list Slot := (fun i => Retired (Z.of_nat i + 1)) <$> seq 0 20.
Definition keyless_cert_note (s : Slot) : list Z :=
  s2b "Slot " ++ hex_upper (key_ref s) ++
  s2b " has no key. This certificate won't work until a matching key is put in this slot.".

Definition OBJECT_CHUID : list Z := [0x5F; 0xC1; 0x02].
Definition OBJECT_PIN_PROTECTED_DATA : list Z := [0x5F; 0xC1; 0x09].
Definition OBJECT_ADMIN_DATA : list Z := [0x5F; 0xFF; 0x00].

Inductive MgmtAlg := TripleDes | Aes128 | Aes192 | Aes256.
#[export] Instance MgmtAlg_eq_dec : EqDecision MgmtAlg.
Proof. solve_decision. Defined.
Definition mgmt_id (a : MgmtAlg) : Z := match a with TripleDes => 0x03 | Aes128 => 0x08 | Aes192 => 0x0A | Aes256 => 0x0C end.
Definition mgmt_from_id (id : Z) : option MgmtAlg :=
  if id =? 0x03 then Some TripleDes else if id =? 0x08 then Some Aes128
  else if id =? 0x0A then Some Aes192 else if id =? 0x0C then Some Aes256 else None.
Definition block_size (a : MgmtAlg) : Z := match a with TripleDes => 8 | _ => 16 end.
Definition mgmt_key_len (a : MgmtAlg) : Z := match a with TripleDes | Aes192 => 24 | Aes128 => 16 | Aes256 => 32 end.
Definition mgmt_label (a : MgmtAlg) : list Z :=
  match a with TripleDes => s2b "3DES" | Aes128 => s2b "AES-128" | Aes192 => s2b "AES-192" | Aes256 => s2b "AES-256" end.

Inductive KeyAlg := Rsa1024 | Rsa2048 | Rsa3072 | Rsa4096 | EccP256 | EccP384 | EccP521 | Ed25519 | X25519.
#[export] Instance KeyAlg_eq_dec : EqDecision KeyAlg.
Proof. solve_decision. Defined.
Definition KeyAlg_ALL : list KeyAlg := [Rsa1024; Rsa2048; Rsa3072; Rsa4096; EccP256; EccP384; EccP521; Ed25519; X25519].
Definition alg_id (a : KeyAlg) : Z :=
  match a with
  | Rsa1024 => 0x06 | Rsa2048 => 0x07 | Rsa3072 => 0x05 | Rsa4096 => 0x16 | EccP256 => 0x11 | EccP384 => 0x14
  | EccP521 => 0x15 | Ed25519 => 0xE0 | X25519 => 0xE1
  end.
Definition alg_from_id (id : Z) : option KeyAlg :=
  if id =? 0x06 then Some Rsa1024 else if id =? 0x07 then Some Rsa2048 else if id =? 0x05 then Some Rsa3072
  else if id =? 0x16 then Some Rsa4096 else if id =? 0x11 then Some EccP256 else if id =? 0x14 then Some EccP384
  else if id =? 0x15 then Some EccP521 else if id =? 0xE0 then Some Ed25519 else if id =? 0xE1 then Some X25519 else None.
Definition alg_label (a : KeyAlg) : list Z :=
  match a with
  | Rsa1024 => s2b "RSA-1024" | Rsa2048 => s2b "RSA-2048" | Rsa3072 => s2b "RSA-3072" | Rsa4096 => s2b "RSA-4096"
  | EccP256 => s2b "ECC P-256" | EccP384 => s2b "ECC P-384" | EccP521 => s2b "ECC P-521" | Ed25519 => s2b "Ed25519"
  | X25519 => s2b "X25519"
  end.

Inductive PinPolicy := PinDefault | PinNever | PinOnce | PinAlways.
#[export] Instance PinPolicy_eq_dec : EqDecision PinPolicy.
Proof. solve_decision. Defined.
Definition pin_policy_id (p : PinPolicy) : Z := match p with PinDefault => 0x00 | PinNever => 0x01 | PinOnce => 0x02 | PinAlways => 0x03 end.
Definition pin_policy_from_id (id : Z) : option PinPolicy :=
  if id =? 0x00 then Some PinDefault else if id =? 0x01 then Some PinNever
  else if id =? 0x02 then Some PinOnce else if id =? 0x03 then Some PinAlways else None.

Inductive TouchPolicy := TouchDefault | TouchNever | TouchAlways | TouchCached.
#[export] Instance TouchPolicy_eq_dec : EqDecision TouchPolicy.
Proof. solve_decision. Defined.
Definition touch_policy_id (p : TouchPolicy) : Z :=
  match p with TouchDefault => 0x00 | TouchNever => 0x01 | TouchAlways => 0x02 | TouchCached => 0x03 end.
Definition touch_policy_from_id (id : Z) : option TouchPolicy :=
  if id =? 0x00 then Some TouchDefault else if id =? 0x01 then Some TouchNever
  else if id =? 0x02 then Some TouchAlways else if id =? 0x03 then Some TouchCached else None.

(** * Long bodies *)

(** One APDU, with an extended length where the body or [le] needs it. *)
Definition build_apdu_ext (cla ins p1 p2 : Z) (data : list Z) (le : option Z) : option (list Z) :=
  if 0xFFFF <? zlen data then None else
  if (zlen data <=? 255) && (match le with None => true | Some v => v <=? 256 end) then
    Some ([cla; ins; p1; p2] ++
          (if zlen data =? 0 then [] else [cast 8 (zlen data)] ++ data) ++
          (match le with Some le => [if le =? 256 then 0x00 else cast 8 le] | None => [] end))
  else
    Some ([cla; ins; p1; p2; 0x00] ++
          (if zlen data =? 0 then [] else [cast 8 (Z.shiftr (zlen data) 8); cast 8 (zlen data)] ++ data) ++
          (match le with Some le => [cast 8 (Z.shiftr le 8); cast 8 le] | None => [] end)).

(** The chunks of a chain: only the last one clears the chaining bit. *)
Fixpoint chain_links (cla ins p1 p2 : Z) (final_le : option Z) (chunks : list (list Z)) : list (list Z) :=
  match chunks with
  | [] => []
  | [chunk] => [[cla; ins; p1; p2; cast 8 (zlen chunk)] ++ chunk ++ match final_le with Some le => [le] | None => [] end]
  | chunk :: chunks => ([Z.lor cla 0x10; ins; p1; p2; cast 8 (zlen chunk)] ++ chunk) :: chain_links cla ins p1 p2 final_le chunks
  end.
Definition chain_apdu (cla ins p1 p2 : Z) (data : list Z) (max_chunk : Z) (final_le : option Z) : option (list (list Z)) :=
  if negb ((1 <=? max_chunk) && (max_chunk <=? 255)) then None else
  if zlen data =? 0 then Some [[cla; ins; p1; p2; 0x00] ++ match final_le with Some le => [le] | None => [] end]
  else Some (chain_links cla ins p1 p2 final_le (chunks (Z.to_nat max_chunk) data)).

(** * Commands *)

Record PinLengthError := mkPinLength { pl_len : Z }.
Definition pin_length_text (e : PinLengthError) : list Z := s2b "PIV PIN/PUK must be 6-8 bytes (got " ++ dec (pl_len e) ++ s2b ")".

Definition pad_pin (pin : list Z) : result PinLengthError (list Z) :=
  if negb ((6 <=? zlen pin) && (zlen pin <=? 8)) then Err (mkPinLength (zlen pin))
  else Ok (pin ++ replicate (8 - length pin) 0xFF).

Definition select_by_aid (aid : list Z) : option (list Z) :=
  apdu ← build_apdu 0x00 (ins_code Select) INS_SELECT_P1_BY_AID 0x00 aid;
  Some (apdu ++ [0x00]).
Definition select_full : option (list Z) := select_by_aid AID_FULL.
Definition select : option (list Z) := select_by_aid AID.

Definition get_data (tag : list Z) : option (list Z) :=
  if 0x7F <? zlen tag then None else
  apdu ← build_apdu 0x00 (ins_code GetData) GET_DATA_P1 GET_DATA_P2 ([TAG_OBJECT_SELECTOR; cast 8 (zlen tag)] ++ tag);
  Some (apdu ++ [0x00]).

(** [None] inside: a panic of the APDU builder. *)
Definition verify_pin_at (reference : Z) (pin : list Z) : result PinLengthError (option (list Z)) :=
  padded ← pad_pin pin;
  Ok (build_apdu 0x00 (ins_code Verify) 0x00 reference padded).
Definition verify_pin (pin : list Z) : result PinLengthError (option (list Z)) := verify_pin_at PIN_REF_APPLICATION pin.
Definition verify_pin_status : list Z := [0x00; ins_code Verify; 0x00; PIN_REF_APPLICATION].
Definition get_version : list Z := build_apdu_get 0x00 (ins_code GetVersion) 0x00 0x00 0x00.
Definition get_serial : list Z := build_apdu_get 0x00 (ins_code GetSerial) 0x00 0x00 0x00.
Definition get_response : list Z := build_apdu_get 0x00 (ins_code GetResponse) 0x00 0x00 0x00.

Definition general_auth_request_witness (alg : MgmtAlg) (key_ref : Z) : option (list Z) :=
  build_apdu_ext 0x00 (ins_code GeneralAuthenticate) (mgmt_id alg) key_ref [TAG_DYN_AUTH; 0x02; 0x80; 0x00] (Some 256).
Definition general_auth_mutual (alg : MgmtAlg) (key_ref : Z) (decrypted_witness challenge : list Z) : option (list Z) :=
  witness ← push_tlv [0x80] decrypted_witness;
  challenge ← push_tlv [0x81] challenge;
  data ← push_tlv [TAG_DYN_AUTH] (witness ++ challenge);
  build_apdu_ext 0x00 (ins_code GeneralAuthenticate) (mgmt_id alg) key_ref data (Some 256).

Definition general_auth_dyn_auth_data (inner_tag : Z) (payload : list Z) : option (list Z) :=
  input ← push_tlv [inner_tag] payload;
  push_tlv [TAG_DYN_AUTH] ([0x82; 0x00] ++ input).
Definition general_auth_sign_data (payload : list Z) : option (list Z) := general_auth_dyn_auth_data 0x81 payload.
Definition general_auth_key_agree_data (peer_public_key : list Z) : option (list Z) := general_auth_dyn_auth_data 0x85 peer_public_key.

Definition general_auth_sign (alg_id key_ref : Z) (payload : list Z) : option (list Z) :=
  data ← general_auth_sign_data payload;
  build_apdu_ext 0x00 (ins_code GeneralAuthenticate) alg_id key_ref data (Some 0).
Definition general_auth_sign_chained (alg_id key_ref : Z) (payload : list Z) (max_chunk : Z) : option (list (list Z)) :=
  data ← general_auth_sign_data payload;
  chain_apdu 0x00 (ins_code GeneralAuthenticate) alg_id key_ref data max_chunk (Some 0x00).
Definition general_auth_key_agree (alg_id key_ref : Z) (peer_public_key : list Z) : option (list Z) :=
  data ← general_auth_key_agree_data peer_public_key;
  build_apdu_ext 0x00 (ins_code GeneralAuthenticate) alg_id key_ref data (Some 0).
Definition general_auth_key_agree_chained (alg_id key_ref : Z) (peer_public_key : list Z) (max_chunk : Z) : option (list (list Z)) :=
  data ← general_auth_key_agree_data peer_public_key;
  chain_apdu 0x00 (ins_code GeneralAuthenticate) alg_id key_ref data max_chunk (Some 0x00).

(** The two policy tags, each left out when it is the default. *)
Definition policy_tags (pin_policy : PinPolicy) (touch_policy : TouchPolicy) : option (list Z) :=
  pin ← (if bool_decide (pin_policy = PinDefault) then Some [] else push_tlv [0xAA] [pin_policy_id pin_policy]);
  touch ← (if bool_decide (touch_policy = TouchDefault) then Some [] else push_tlv [0xAB] [touch_policy_id touch_policy]);
  Some (pin ++ touch).

Definition generate_key (slot : Slot) (alg_id : Z) (pin_policy : PinPolicy) (touch_policy : TouchPolicy) : option (list Z) :=
  alg ← push_tlv [0x80] [alg_id];
  policies ← policy_tags pin_policy touch_policy;
  data ← push_tlv [0xAC] (alg ++ policies);
  build_apdu_ext 0x00 (ins_code GenerateKeyPair) 0x00 (key_ref slot) data (Some 0).

(** ** Key import *)

Inductive ImportLayout := Yubico | NitrokeyRsa.
Inductive ImportParts :=
  | PRsaCrt (p q dp dq qinv : list Z)
  | PRsaPrimes (p q e : list Z)
  | PEc (scalar : list Z)
  | PEd25519 (seed : list Z)
  | PX25519 (scalar : list Z).
Record KeyToImport := mkImportKey { ik_alg : KeyAlg; ik_alg_id : Z; ik_parts : ImportParts }.

(** [BodyPanic] stands for the assertion of [push_ber_len]. *)
Inductive ImportBodyError := PartTooLong | PartsMismatch | BodyPanic.
#[export] Instance ImportBodyError_eq_dec : EqDecision ImportBodyError.
Proof. solve_decision. Defined.
Definition import_body_error_text (e : ImportBodyError) : list Z :=
  match e with
  | PartTooLong => s2b "a key value is longer than its field"
  | PartsMismatch => s2b "the key values do not match the key algorithm"
  | BodyPanic => []
  end.

Definition push_exact_tlv (tag : Z) (value : list Z) (width : Z) : result ImportBodyError (list Z) :=
  if negb (zlen value =? width) then Err PartTooLong else ok_or BodyPanic (push_tlv [tag] value).
Definition push_padded_tlv (tag : Z) (value : list Z) (width : Z) : result ImportBodyError (list Z) :=
  if width <? zlen value then Err PartTooLong
  else ok_or BodyPanic (push_tlv [tag] (replicate (Z.to_nat (width - zlen value)) 0 ++ value)).

Definition rsa_bits (a : KeyAlg) : option Z :=
  match a with Rsa1024 => Some 1024 | Rsa2048 => Some 2048 | Rsa3072 => Some 3072 | Rsa4096 => Some 4096 | _ => None end.

Definition import_key_parts (key : KeyToImport) : result ImportBodyError (list Z) :=
  match ik_parts key, ik_alg key, rsa_bits (ik_alg key) with
  | PRsaCrt p q dp dq qinv, _, Some bits =>
      let width := bits / 16 in
      p ← push_padded_tlv 1 p width; q ← push_padded_tlv 2 q width; dp ← push_padded_tlv 3 dp width;
      dq ← push_padded_tlv 4 dq width; qinv ← push_padded_tlv 5 qinv width;
      Ok (p ++ q ++ dp ++ dq ++ qinv)
  | PRsaPrimes p q e, _, Some bits =>
      let width := bits / 16 in
      p ← push_padded_tlv 1 p width; q ← push_padded_tlv 2 q width;
      if width <? zlen e then Err PartTooLong else
      e ← ok_or BodyPanic (push_tlv [3] e);
      Ok (p ++ q ++ e)
  | PEc scalar, EccP256, _ => push_padded_tlv 6 scalar 32
  | PEc scalar, EccP384, _ => push_padded_tlv 6 scalar 48
  | PEd25519 seed, Ed25519, _ => push_exact_tlv 7 seed 32
  | PX25519 scalar, X25519, _ => push_exact_tlv 8 scalar 32
  | _, _, _ => Err PartsMismatch
  end.
Definition import_key_body (key : KeyToImport) (pin_policy : PinPolicy) (touch_policy : TouchPolicy) : result ImportBodyError (list Z) :=
  parts ← import_key_parts key;
  policies ← ok_or BodyPanic (policy_tags pin_policy touch_policy);
  Ok (parts ++ policies).

Definition import_key (slot : Slot) (alg_id : Z) (body : list Z) : option (list Z) :=
  build_apdu_ext 0x00 (ins_code ImportKey) alg_id (key_ref slot) body None.
Definition import_key_chained (slot : Slot) (alg_id : Z) (body : list Z) (max_chunk : Z) : option (list (list Z)) :=
  chain_apdu 0x00 (ins_code ImportKey) alg_id (key_ref slot) body (Z.max 1 (Z.min 255 max_chunk)) None.

(** ** Objects, references and resets *)

Definition put_data_body (tag value : list Z) : option (list Z) :=
  selector ← push_tlv [TAG_OBJECT_SELECTOR] tag;
  template ← push_tlv [TAG_DATA_TEMPLATE] value;
  Some (selector ++ template).
Definition put_data (tag value : list Z) : option (list Z) :=
  body ← put_data_body tag value;
  build_apdu_ext 0x00 (ins_code PutData) GET_DATA_P1 GET_DATA_P2 body None.
Definition put_data_chained (tag value : list Z) (max_chunk : Z) : option (list (list Z)) :=
  body ← put_data_body tag value;
  chain_apdu 0x00 (ins_code PutData) GET_DATA_P1 GET_DATA_P2 body max_chunk None.
Definition clear_certificate (slot : Slot) : option (list Z) := put_data (cert_object_tag slot) [].

Definition change_reference (reference : Z) (old new : list Z) : result PinLengthError (option (list Z)) :=
  old ← pad_pin old; new ← pad_pin new;
  Ok (build_apdu 0x00 (ins_code ChangeReference) 0x00 reference (old ++ new)).
Definition unblock_pin (puk new_pin : list Z) : result PinLengthError (option (list Z)) :=
  puk ← pad_pin puk; new_pin ← pad_pin new_pin;
  Ok (build_apdu 0x00 (ins_code ResetRetryCounter) 0x00 PIN_REF_APPLICATION (puk ++ new_pin)).

Definition set_management_key (alg : MgmtAlg) (key : list Z) (require_touch : bool) : option (list Z) :=
  if 255 <? zlen key then None else
  build_apdu 0x00 (ins_code SetManagementKey) 0xFF (if require_touch then 0xFE else 0xFF)
    ([mgmt_id alg; KEY_REF_MANAGEMENT; cast 8 (zlen key)] ++ key).
Definition set_pin_retries (pin_tries puk_tries : Z) : list Z := [0x00; ins_code SetPinRetries; pin_tries; puk_tries].
Definition get_metadata (key_ref : Z) : list Z := [0x00; ins_code GetMetadata; 0x00; key_ref].
Definition reset : list Z := [0x00; ins_code Reset; 0x00; 0x00].
Definition attest (key_ref : Z) : list Z := build_apdu_get 0x00 (ins_code Attest) key_ref 0x00 0x00.
Definition delete_key (slot : Slot) : list Z := [0x00; ins_code MoveKey; 0xFF; key_ref slot].
Definition move_key (src dest : Slot) : list Z := [0x00; ins_code MoveKey; key_ref dest; key_ref src].

(** [if let [a, b, n @ lo..=hi] = tag]. *)
Definition data_object_name (tag : list Z) : option (list Z) :=
  match tag with
  | [a; b; n] =>
      if (a =? 0x5F) && (b =? 0xC1) && between 0x0D 0x20 n then
        Some (s2b "Retired X.509 Certificate for Key Management " ++ dec (n - 0x0C))
      else if (a =? 0x5F) && (b =? 0xFF) && between 0x11 0x15 n then Some (s2b "Yubico MSROOTS " ++ dec (n - 0x10))
      else if (a =? 0x5F) && (b =? 0xC1) then
        if n =? 0x01 then Some (s2b "X.509 Certificate for Card Authentication")
        else if n =? 0x02 then Some (s2b "Card Holder Unique Identifier")
        else if n =? 0x03 then Some (s2b "Cardholder Fingerprints")
        else if n =? 0x05 then Some (s2b "X.509 Certificate for PIV Authentication")
        else if n =? 0x06 then Some (s2b "Security Object")
        else if n =? 0x07 then Some (s2b "Card Capability Container")
        else if n =? 0x08 then Some (s2b "Cardholder Facial Image")
        else if n =? 0x09 then Some (s2b "Printed Information")
        else if n =? 0x0A then Some (s2b "X.509 Certificate for Digital Signature")
        else if n =? 0x0B then Some (s2b "X.509 Certificate for Key Management")
        else if n =? 0x0C then Some (s2b "Key History Object")
        else if n =? 0x21 then Some (s2b "Cardholder Iris Images")
        else if n =? 0x22 then Some (s2b "Biometric Information Templates Group Template")
        else if n =? 0x23 then Some (s2b "Secure Messaging Certificate Signer")
        else if n =? 0x24 then Some (s2b "Pairing Code Reference Data Container")
        else None
      else if (a =? 0x5F) && (b =? 0xFF) then
        if n =? 0x00 then Some (s2b "Yubico Admin Data")
        else if n =? 0x01 then Some (s2b "Yubico PIV Attestation Certificate")
        else if n =? 0x10 then Some (s2b "Yubico MSCMAP")
        else None
      else if (a =? 0xFF) && (b =? 0xFF) && (n =? 0x7F) then Some (s2b "HID Crescendo C2300 GET PIV PROPERTIES")
      else None
  | [a] => if a =? 0x7E then Some (s2b "Discovery Object") else None
  | _ => None
  end.

(** * What a card reads *)

(** What [le] asks for, in the form the length of the body leads to. *)
Definition le_asked (data : list Z) (le : option Z) : option Z :=
  match le with
  | Some v => Some (if v =? 0 then (if zlen data <=? 255 then 256 else 65536) else v)
  | None => None
  end.

(** * Lemmas *)

Lemma build_apdu_ext_read cla ins p1 p2 data le : zlen data <= 0xFFFF -> (forall v, le = Some v -> is_word 16 v) ->
  exists apdu, build_apdu_ext cla ins p1 p2 data le = Some apdu /\ parse_command apdu = Some (mkCommand cla ins p1 p2 data (le_asked data le)).
Proof.
  intros Hd Hle. unfold build_apdu_ext. rewrite (proj2 (Z.ltb_ge _ _)) by lia. pose proof (zlen_nonneg data) as Hn.
  assert (forall v, le = Some v -> 0 <= v < 65536) as Hw by (intros v Hv; apply Hle in Hv; unfold is_word in Hv; lia).
  destruct (_ && _) eqn:E; eexists; (split; [done|]).
  - apply andb_true_iff in E as [E1 E2]. apply Z.leb_le in E1. unfold le_asked. rewrite (proj2 (Z.leb_le _ 255)) by lia.
    assert ((if zlen data =? 0 then [] else [cast 8 (zlen data)] ++ data) = (if zlen data =? 0 then [] else [zlen data] ++ data)) as ->.
    { by rewrite cast_small by (unfold is_word; lia). }
    assert (match le with Some le => [if le =? 256 then 0 else cast 8 le] | None => [] end =
            match (fun v => if v =? 256 then 0 else v) <$> le with Some v => [v] | None => [] end) as ->.
    { destruct le as [v|]; [|done]. cbn. specialize (Hw v eq_refl). bools. destruct (v =? 256) eqn:E; [done|]. bools.
      by rewrite cast_small by (unfold is_word; lia). }
    assert (short_le <$> ((fun v => if v =? 256 then 0 else v) <$> le) = (fun v => if v =? 0 then 256 else v) <$> le) as Hs.
    { destruct le as [v|]; [|done]. cbn. unfold short_le. f_equal. destruct (v =? 256) eqn:E; bools; [by subst v|done]. }
    destruct (zlen data =? 0) eqn:Ez; bools.
    + apply zlen_0 in Ez as ->. destruct le as [v|]; [|done]. cbn in Hs |- *. injection Hs as <-. destruct (if v =? 256 then 0 else v); done.
    + rewrite <- app_assoc. pose proof (parse_short cla ins p1 p2 data ((fun v => if v =? 256 then 0 else v) <$> le) ltac:(lia)) as Hp.
      cbn [app] in Hp |- *. rewrite Hp, Hs. by destruct le.
  - rewrite Z.shiftr_div_pow2 by lia. change (2 ^ 8) with 256.
    assert (match le with Some le => [cast 8 (Z.shiftr le 8); cast 8 le] | None => [] end =
            match le with Some v => [v / 256; v mod 256] | None => [] end) as ->.
    { destruct le as [v|]; [|done]. specialize (Hw v eq_refl). rewrite Z.shiftr_div_pow2 by lia. change (2 ^ 8) with 256.
      by rewrite (cast_small 8 (v / 256)) by (unfold is_word; lia_div). }
    destruct (zlen data =? 0) eqn:Ez; bools.
    + apply zlen_0 in Ez as ->. change (zlen (@nil Z)) with 0 in E. destruct E as [E|E]; [done|]. destruct le as [v|]; [|done]. bools. specialize (Hw v eq_refl). cbn.
      do 2 f_equal. f_equal. unfold long_le. rewrite (proj2 (Z.eqb_neq v 0)) by lia. destruct (_ && _) eqn:E2; bools; lia_div.
    + rewrite (cast_small 8 (_ / 256)) by (unfold is_word; lia_div). unfold cast. change (2 ^ 8) with 256.
      pose proof (parse_extended cla ins p1 p2 data le ltac:(lia) Hle) as Hp. cbn [app] in Hp |- *. rewrite Hp. do 2 f_equal.
      destruct le as [v|]; [|done]. cbn. f_equal. destruct (v =? 0) eqn:Ev; [|done]. bools. subst v.
      destruct (zlen data <=? 255) eqn:El; [by destruct E|done].
Qed.

Lemma chain_links_iso cla ins p1 p2 le cs : chain_links cla ins p1 p2 le cs = iso_links cla ins p1 p2 le cs.
Proof. done. Qed.

(** ** Key values *)

(** How a value is carried in its field. *)
Inductive Width := Padded (w : Z) | UpTo (w : Z) | Exactly (w : Z).
Definition fits (f : Width) (v : list Z) : Prop := match f with Padded w | UpTo w => zlen v <= w | Exactly w => zlen v = w end.
Definition carries (f : Width) (v x : list Z) : Prop :=
  match f with Padded w => zlen x = w /\ from_be x = from_be v | UpTo _ | Exactly _ => x = v end.

(** The fields a key is sent as; [None] when its values are of another kind. *)
Definition import_fields (key : KeyToImport) : option (list (Z * list Z * Width)) :=
  match ik_parts key, rsa_bits (ik_alg key), ik_alg key with
  | PRsaCrt p q dp dq qinv, Some bits, _ =>
      let w := Padded (bits / 16) in Some [(1, p, w); (2, q, w); (3, dp, w); (4, dq, w); (5, qinv, w)]
  | PRsaPrimes p q e, Some bits, _ => let w := bits / 16 in Some [(1, p, Padded w); (2, q, Padded w); (3, e, UpTo w)]
  | PEc k, _, EccP256 => Some [(6, k, Padded 32)]
  | PEc k, _, EccP384 => Some [(6, k, Padded 48)]
  | PEd25519 k, _, Ed25519 => Some [(7, k, Exactly 32)]
  | PX25519 k, _, X25519 => Some [(8, k, Exactly 32)]
  | _, _, _ => None
  end.
Definition field_width (f : Width) : Z := match f with Padded w | UpTo w | Exactly w => w end.

Definition policy_items (pin : PinPolicy) (touch : TouchPolicy) : list (Z * list Z) :=
  (if bool_decide (pin = PinDefault) then [] else [(0xAA, [pin_policy_id pin])]) ++
  (if bool_decide (touch = TouchDefault) then [] else [(0xAB, [touch_policy_id touch])]).

Lemma from_be_zeros n v : from_be (replicate n 0 ++ v) = from_be v.
Proof.
  induction n as [|n IH]; [done|]. cbn [replicate app]. rewrite from_be_cons, IH. lia.
Qed.

(** Sending one field, as the three helpers do. *)
Definition push_field (it : Z * list Z * Width) : result ImportBodyError (list Z) :=
  let '(t, v, f) := it in
  match f with
  | Padded w => push_padded_tlv t v w
  | UpTo w => if w <? zlen v then Err PartTooLong else ok_or BodyPanic (push_tlv [t] v)
  | Exactly w => push_exact_tlv t v w
  end.
Fixpoint push_fields (its : list (Z * list Z * Width)) : result ImportBodyError (list Z) :=
  match its with [] => Ok [] | it :: its => a ← push_field it; b ← push_fields its; Ok (a ++ b) end.

Lemma result_bind_assoc {E A B C} (m : result E A) (f : A -> result E B) (g : B -> result E C) :
  ((m ≫= f) ≫= g) = (m ≫= fun a => f a ≫= g).
Proof. by destruct m. Qed.
Lemma result_bind_id {E A} (m : result E A) : (m ≫= fun a => Ok a) = m.
Proof. by destruct m. Qed.
Lemma result_bind_ext {E A B} (m : result E A) (f g : A -> result E B) : (forall a, f a = g a) -> (m ≫= f) = (m ≫= g).
Proof. intros H. destruct m; [apply H|done]. Qed.

Lemma import_key_parts_eq key : import_key_parts key =
  match import_fields key with Some its => push_fields its | None => Err PartsMismatch end.
Proof.
  unfold import_key_parts, import_fields. destruct key as [alg id parts]. cbn [ik_parts ik_alg].
  destruct parts, alg; try reflexivity; cbn [rsa_bits push_fields push_field];
    rewrite ?result_bind_assoc; repeat (apply result_bind_ext; intros ?; rewrite ?result_bind_assoc);
    cbn [mbind result_bind]; try (destruct (_ <? zlen e); [done|]); repeat (apply result_bind_ext; intros ?; rewrite ?result_bind_assoc);
    cbn [mbind result_bind]; rewrite ?app_nil_r, ?result_bind_id; try done; try (symmetry; etransitivity; [|apply result_bind_id];
    apply result_bind_ext; intros ?; cbn; by rewrite ?app_nil_r).
Qed.

Definition sent_as (it : Z * list Z) (f : Z * list Z * Width) : Prop := it.1 = f.1.1 /\ carries f.2 f.1.2 it.2.

Lemma push_field_spec t v f : 0 <= field_width f <= 0xFFFF ->
  (fits f v /\ exists bs x, push_field (t, v, f) = Ok bs /\ tlvs [(t, x)] bs /\ carries f v x) \/
  (~ fits f v /\ push_field (t, v, f) = Err PartTooLong).
Proof.
  intros Hw. pose proof (zlen_nonneg v). destruct f as [w|w|w]; cbn [field_width push_field fits carries] in *.
  - unfold push_padded_tlv. destruct (w <? zlen v) eqn:E; bools; [right; split; [lia|done]|left]. split; [lia|].
    assert (zlen (replicate (Z.to_nat (w - zlen v)) 0 ++ v) = w) as Hl by (zlen; lia).
    destruct (push_tlv_ok t (replicate (Z.to_nat (w - zlen v)) 0 ++ v)) as (bs & -> & Ht & _); [lia|].
    exists bs, (replicate (Z.to_nat (w - zlen v)) 0 ++ v). by rewrite from_be_zeros.
  - destruct (w <? zlen v) eqn:E; bools; [right; split; [lia|done]|left]. split; [lia|].
    destruct (push_tlv_ok t v) as (bs & -> & Ht & _); [lia|]. by exists bs, v.
  - unfold push_exact_tlv. destruct (zlen v =? w) eqn:E; bools; cbn [negb]; [left|by right]. split; [done|].
    destruct (push_tlv_ok t v) as (bs & -> & Ht & _); [lia|]. by exists bs, v.
Qed.

Lemma push_fields_spec its : Forall (fun it => 0 <= field_width it.2 <= 0xFFFF) its ->
  (Forall (fun it => fits it.2 it.1.2) its /\ exists bs items, push_fields its = Ok bs /\ tlvs items bs /\ Forall2 sent_as items its) \/
  (~ Forall (fun it => fits it.2 it.1.2) its /\ push_fields its = Err PartTooLong).
Proof.
  induction 1 as [|[[t v] f] its Hw Hf IH]; [left; split; [constructor|]; exists [], []; by repeat constructor|].
  cbn [snd] in Hw. cbn [push_fields]. rewrite list.Forall_cons. cbn [fst snd].
  destruct (push_field_spec t v f Hw) as [(Hfit & b & x & -> & Hb & Hc)|(Hn & ->)]; [|right; split; [tauto|done]].
  cbn [mbind result_bind]. destruct IH as [(Hfits & bs & items & -> & Ht & H2)|(Hn & ->)]; [left|right; split; [tauto|done]].
  split; [tauto|]. exists (b ++ bs), ((t, x) :: items). split; [done|]. split; [exact (tlvs_app _ _ _ _ Hb Ht)|]. by constructor.
Qed.

Lemma import_fields_width key its : import_fields key = Some its -> Forall (fun it => 0 <= field_width it.2 <= 0xFFFF) its.
Proof.
  destruct key as [alg id parts]. unfold import_fields. cbn [ik_parts ik_alg]. intros H.
  destruct parts, alg; cbn [rsa_bits] in H; try done; injection H as <-;
    rewrite !list.Forall_cons, list.Forall_nil; cbn [snd field_width]; split_and?; lia || done.
Qed.

Lemma policy_tags_ok pin touch : exists bs, policy_tags pin touch = Some bs /\ tlvs (policy_items pin touch) bs.
Proof.
  unfold policy_tags, policy_items. destruct (push_tlv_ok 0xAA [pin_policy_id pin]) as (a & Ha & Hta & _); [done|].
  destruct (push_tlv_ok 0xAB [touch_policy_id touch]) as (b & Hb & Htb & _); [done|].
  repeat case_bool_decide; rewrite ?Ha, ?Hb; (eexists; split; [done|]); repeat (apply tlvs_app); done || constructor.
Qed.

(** ** PINs *)

(** What the card takes the PIN to be: the bytes before the padding. *)
Fixpoint unpadded (field : list Z) : list Z :=
  match field with [] => [] | b :: field => if b =? 0xFF then [] else b :: unpadded field end.

Lemma pad_pin_spec pin : (6 <= zlen pin <= 8 /\ exists field, pad_pin pin = Ok field /\ length field = 8%nat /\
    (0xFF ∉ pin -> unpadded field = pin)) \/
  (~ (6 <= zlen pin <= 8) /\ pad_pin pin = Err (mkPinLength (zlen pin))).
Proof.
  unfold pad_pin. destruct (_ && _) eqn:E; cbn [negb]; [left|right; split; [|done]].
  - bools. split; [done|]. eexists. split; [done|]. unfold zlen in *. split; [rewrite length_app, length_replicate; lia|].
    generalize (8 - length pin)%nat as n. clear. intros n. induction pin as [|b pin IH]; intros Hn.
    + by destruct n.
    + rewrite not_elem_of_cons in Hn. cbn [app unpadded]. rewrite (proj2 (Z.eqb_neq _ _)) by (intros ->; tauto). f_equal. tauto.
  - intros [H1 H2]. rewrite (proj2 (Z.leb_le _ _) H1), (proj2 (Z.leb_le _ _) H2) in E. done.
Qed.

(** * Properties *)

(** C18: a long command arrives whole however it is sent. A card that reads
    commands as ISO 7816 lays down gets the same header and data from the one APDU,
    short or extended as the body needs, and from the chain of short ones, which
    keeps every link within the chunk size and uses no more links than it must. Each
    form asks for the length it was given: none, a number, or with 0 as much as it
    can ask for, which is 256 bytes in a chain or a short APDU and 65536 in an
    extended one. So the card reads one and the same command from both forms when
    neither asks for an answer's length, when both name the same one from 1 to 255,
    and with 0 when the body fits a short APDU. *)
Theorem piv_commands_delivered (cla ins p1 p2 : Z) (data : list Z) (le : option Z) (max_chunk : Z) :
  1 <= zlen data <= 0xFFFF -> 1 <= max_chunk <= 255 -> (forall v, le = Some v -> is_word 16 v) ->
  exists apdu, build_apdu_ext cla ins p1 p2 data le = Some apdu /\
    parse_command apdu = Some (mkCommand cla ins p1 p2 data
      ((fun v => if v =? 0 then (if zlen data <=? 255 then 256 else 65536) else v) <$> le)) /\
    forall final_le, exists links, chain_apdu cla ins p1 p2 data max_chunk final_le = Some links /\
      reassemble links = Some (mkCommand cla ins p1 p2 data ((fun v => if v =? 0 then 256 else v) <$> final_le)) /\
      Forall (fun link => zlen link <= max_chunk + 6) links /\ zlen links = (zlen data + max_chunk - 1) / max_chunk /\
      (final_le = le -> (forall v, le = Some v -> 1 <= v <= 255 \/ (v = 0 /\ zlen data <= 255)) -> reassemble links = parse_command apdu).
Proof.
  intros Hd Hm Hle. destruct (build_apdu_ext_read cla ins p1 p2 data le) as (apdu & Hb & Hp); [lia|done|]. exists apdu. split; [done|].
  split; [rewrite Hp; by destruct le|]. intros final_le. unfold chain_apdu.
  rewrite (proj2 (Z.leb_le 1 _)), (proj2 (Z.leb_le _ 255)), (proj2 (Z.eqb_neq _ _)) by lia. cbn [andb negb].
  assert (0 < Z.to_nat max_chunk)%nat as Hn by lia. pose proof (chunks_bounded _ data Hn) as Hc.
  assert (reassemble (chain_links cla ins p1 p2 final_le (chunks (Z.to_nat max_chunk) data)) =
    Some (mkCommand cla ins p1 p2 data (short_le <$> final_le))) as Hr.
  { rewrite chain_links_iso, iso_links_read; [by rewrite concat_chunks| |].
    - intros He. pose proof (concat_chunks (Z.to_nat max_chunk) data Hn) as Hx. rewrite He in Hx. subst data. cbn in Hd. unfold zlen in Hd. cbn in Hd. lia.
    - eapply list.Forall_impl; [exact Hc|]. intros c [Hx Hl]. unfold zlen. destruct c; [done|]. cbn in *. lia. }
  eexists. split; [done|]. split; [exact Hr|]. split; [|split].
  - rewrite chain_links_iso. apply iso_links_size. eapply list.Forall_impl; [exact Hc|]. intros c [_ Hl]. unfold zlen. lia.
  - unfold zlen at 1. rewrite chain_links_iso, length_iso_links, length_chunks by done. by rewrite Z2Nat.id by lia.
  - intros -> Hsame. rewrite Hr, Hp. do 2 f_equal. destruct le as [v|]; [|done]. cbn. unfold short_le. f_equal.
    destruct (Hsame v eq_refl) as [Hv|[-> Hl]]; [by rewrite (proj2 (Z.eqb_neq v 0)) by lia|]. by rewrite (proj2 (Z.leb_le _ 255)).
Qed.
Lemma piv_commands_delivered_witness :
  exists apdu links, build_apdu_ext 0x00 0xDB 0x3F 0xFF [1; 2; 3; 4; 5] None = Some apdu /\
    chain_apdu 0x00 0xDB 0x3F 0xFF [1; 2; 3; 4; 5] 2 None = Some links /\
    links = [[0x10; 0xDB; 0x3F; 0xFF; 2; 1; 2]; [0x10; 0xDB; 0x3F; 0xFF; 2; 3; 4]; [0x00; 0xDB; 0x3F; 0xFF; 1; 5]] /\
    reassemble links = parse_command apdu.
Proof.
  destruct (piv_commands_delivered 0x00 0xDB 0x3F 0xFF [1; 2; 3; 4; 5] None 2) as (apdu & Hb & _ & Hl); [by_decision|lia|done|].
  destruct (Hl None) as (links & Hc & _ & _ & _ & Hs). exists apdu, links. split; [exact Hb|]. split; [exact Hc|].
  split; [injection Hc as <-; reflexivity|by apply Hs].
Defined.

(** A PIN that is not 6 to 8 bytes long is refused, whatever the command,
    with its length and nothing else; any other reaches the card as the field
    that reads back as that PIN and no other, both of them in the commands that
    take two. *)
Theorem piv_pin_delivered (reference : Z) (pin new : list Z) :
  (~ (6 <= zlen pin <= 8) -> verify_pin_at reference pin = Err (mkPinLength (zlen pin)) /\
     change_reference reference pin new = Err (mkPinLength (zlen pin)) /\ unblock_pin pin new = Err (mkPinLength (zlen pin))) /\
  (6 <= zlen pin <= 8 -> ~ (6 <= zlen new <= 8) -> change_reference reference pin new = Err (mkPinLength (zlen new)) /\
     unblock_pin pin new = Err (mkPinLength (zlen new))) /\
  (6 <= zlen pin <= 8 -> 0xFF ∉ pin -> exists apdu field, verify_pin_at reference pin = Ok (Some apdu) /\
     parse_command apdu = Some (mkCommand 0x00 0x20 0x00 reference field None) /\ unpadded field = pin) /\
  (6 <= zlen pin <= 8 -> 6 <= zlen new <= 8 -> 0xFF ∉ pin -> 0xFF ∉ new -> exists change unblock field,
     change_reference reference pin new = Ok (Some change) /\ unblock_pin pin new = Ok (Some unblock) /\
     parse_command change = Some (mkCommand 0x00 0x24 0x00 reference field None) /\
     parse_command unblock = Some (mkCommand 0x00 0x2C 0x00 PIN_REF_APPLICATION field None) /\
     unpadded (take 8 field) = pin /\ unpadded (drop 8 field) = new).
Proof.
  unfold verify_pin_at, change_reference, unblock_pin.
  destruct (pad_pin_spec pin) as [(Hp & f & -> & Hl & Hu)|(Hp & ->)]; cbn [mbind result_bind]; [|by split; [|split; [|split]]].
  split; [tauto|]. split; [|split].
  - intros _ Hn. destruct (pad_pin_spec new) as [(Hp' & _)|(_ & ->)]; [tauto|done].
  - intros _ Hf. destruct (build_apdu_read 0x00 (ins_code Verify) 0x00 reference f) as [-> Hr]; [unfold zlen; lia|]. by eexists _, f; auto.
  - intros _ Hn Hf Hf'. destruct (pad_pin_spec new) as [(_ & g & -> & Hl' & Hu')|(Hn' & _)]; [|tauto]. cbn [mbind result_bind].
    assert (1 <= zlen (f ++ g) <= 255) as Hz by (unfold zlen; rewrite length_app; lia).
    destruct (build_apdu_read 0x00 (ins_code ChangeReference) 0x00 reference (f ++ g) Hz) as [-> Hr1].
    destruct (build_apdu_read 0x00 (ins_code ResetRetryCounter) 0x00 PIN_REF_APPLICATION (f ++ g) Hz) as [-> Hr2].
    eexists _, _, (f ++ g). split; [done|]. split; [done|]. split; [exact Hr1|]. split; [exact Hr2|].
    rewrite take_app_length', drop_app_length' by done. auto.
Qed.

(** A private key is imported as the numbers it is made of. Building the
    command body succeeds exactly when the values are of the algorithm's kind and
    fit their fields, and says which of the two fails otherwise; the body then
    holds, under their tags and in order, fields that carry the same numbers at
    the width the card expects (raw keys unchanged), and after them the policies
    that are not the default. *)
Theorem piv_import_read (key : KeyToImport) (pin : PinPolicy) (touch : TouchPolicy) :
  match import_fields key with
  | None => import_key_body key pin touch = Err PartsMismatch
  | Some its =>
      (Forall (fun it => fits it.2 it.1.2) its /\ exists body items, import_key_body key pin touch = Ok body /\
         tlvs (items ++ policy_items pin touch) body /\ Forall2 sent_as items its) \/
      (~ Forall (fun it => fits it.2 it.1.2) its /\ import_key_body key pin touch = Err PartTooLong)
  end.
Proof.
  unfold import_key_body. rewrite import_key_parts_eq. destruct (import_fields key) as [its|] eqn:E; [|done].
  destruct (policy_tags_ok pin touch) as (ps & Hp & Htp). rewrite Hp. cbn [ok_or].
  destruct (push_fields_spec its) as [(Hf & bs & items & -> & Ht & H2)|(Hn & ->)]; [by eapply import_fields_width| |by right].
  left. split; [done|]. cbn [mbind result_bind]. exists (bs ++ ps), items. split; [done|]. split; [by apply tlvs_app|done].
Qed.
