(* ===== verification/PivData.v ===== *)
(** keyroost-piv/src/lib.rs, the contents of data objects: certificates, the
    CHUID, the management key kept under the PIN, the admin-data flag, versions
    and serial numbers. A failed [assert!] is [None]. *)
From S2P Require Export PivApdu.
From S2P Require Import Codec.

(** * Certificates *)

Inductive CertInfo := Uncompressed | Gzip.
Definition cert_info_byte (i : CertInfo) : Z := match i with Uncompressed => 0x00 | Gzip => 0x01 end.

Definition encode_certificate (payload : list Z) (info : CertInfo) : option (list Z) :=
  cert ← push_tlv [0x70] payload;
  info ← push_tlv [0x71] [cert_info_byte info];
  lrc ← push_tlv [0xFE] [];
  Some (cert ++ info ++ lrc).
Definition cert_object_parts (inner : list Z) : option (list Z * bool) :=
  der ← find_tlv inner 0x70;
  let gzip := match find_tlv inner 0x71 with Some (b :: _) => negb (Z.land b 0x01 =? 0) | _ => false end in
  Some (der, gzip).

(** * CHUID *)

Definition CHUID_FASC_N : list Z :=
  [0xD4; 0xE7; 0x39; 0xDA; 0x73; 0x9C; 0xED; 0x39; 0xCE; 0x73; 0x9D; 0x83; 0x68; 0x58; 0x21; 0x08;
   0x42; 0x10; 0x84; 0x21; 0xC8; 0x42; 0x10; 0xC3; 0xEB].

Definition encode_chuid (guid expiration : list Z) : option (list Z) :=
  fasc_n ← push_tlv [0x30] CHUID_FASC_N;
  guid ← push_tlv [0x34] guid;
  expiration ← push_tlv [0x35] expiration;
  signature ← push_tlv [0x3E] [];
  lrc ← push_tlv [0xFE] [];
  Some (fasc_n ++ guid ++ expiration ++ signature ++ lrc).

Record Chuid := mkChuid { ch_fasc_n : list Z; ch_guid : list Z; ch_expiration : list Z; ch_signature : list Z; ch_lrc : list Z }.

Definition parse_chuid (value : list Z) : option Chuid :=
  fasc_n ← find_tlv value 0x30;
  guid ← find_tlv value 0x34;
  expiration ← find_tlv value 0x35;
  Some (mkChuid fasc_n guid expiration (default [] (find_tlv value 0x3E)) (default [] (find_tlv value 0xFE))).

(** [matches!(i, 4 | 6 | 8 | 10)] before byte [i]. *)
Fixpoint guid_bytes (i : nat) (bytes : list Z) : list Z :=
  match bytes with
  | [] => []
  | b :: bytes => (if bool_decide (i ∈ [4; 6; 8; 10]%nat) then s2b "-" else []) ++ hex_encode [b] ++ guid_bytes (S i) bytes
  end.
Definition format_guid (bytes : list Z) : list Z :=
  if negb (zlen bytes =? 16) then hex_encode bytes else guid_bytes 0 bytes.

Definition parse_guid_hex (s : list Z) : option (list Z) :=
  let cleaned := utf8_encode (List.filter (fun c => negb (is_whitespace c) && negb (c =? 45)) (chars s)) in
  bytes ← result_ok (hex_decode cleaned);
  if zlen bytes =? 16 then Some bytes else None.

Definition fasc_n_display (c : Chuid) : list Z := hex_encode (ch_fasc_n c).
Definition guid_display (c : Chuid) : list Z := format_guid (ch_guid c).
Definition expiration_display (c : Chuid) : list Z :=
  let e := ch_expiration c in
  if (zlen e =? 8) && forallb is_ascii_digit e then slice e 0 4 ++ s2b "-" ++ slice e 4 6 ++ s2b "-" ++ slice e 6 8
  else from_utf8_lossy e.
Definition signature_display (c : Chuid) : list Z := hex_encode (ch_signature c).
Definition lrc_display (c : Chuid) : list Z := hex_encode (ch_lrc c).

(** * The management key under the PIN *)

Definition parse_pin_protected_management_key (buf : list Z) : option (list Z) :=
  inner ← result_ok (unwrap_data_object buf);
  tag88 ← find_tlv inner 0x88;
  find_tlv tag88 0x89.
Definition build_pin_protected_management_key (key : list Z) : option (list Z) :=
  tag89 ← push_tlv [0x89] key;
  push_tlv [0x88] tag89.

(** * Admin data *)

Definition ADMIN_DATA_FLAG_PIN_PROTECTED_MGM_KEY : Z := 0x02.

(** The container with its flags byte changed; [Some None]: nothing to write. *)
Definition container_with_flag (container : list Z) (set : bool) : option (option (list Z)) :=
  match tlv_span container 0x81 with
  | Some (f_start, fv_start, fv_end) =>
      match slice container (Z.to_nat fv_start) (Z.to_nat fv_end) with
      | [current] =>
          if negb set && (Z.land current ADMIN_DATA_FLAG_PIN_PROTECTED_MGM_KEY =? 0) then Some None else
          let updated := if set then Z.lor current ADMIN_DATA_FLAG_PIN_PROTECTED_MGM_KEY
                         else Z.land current (wnot 8 ADMIN_DATA_FLAG_PIN_PROTECTED_MGM_KEY) in
          flags ← push_tlv [0x81] [updated];
          Some (Some (take (Z.to_nat f_start) container ++ flags ++ drop (Z.to_nat fv_end) container))
      | _ => Some None
      end
  | None =>
      if negb set then Some None else
      flags ← push_tlv [0x81] [ADMIN_DATA_FLAG_PIN_PROTECTED_MGM_KEY];
      Some (Some (container ++ flags))
  end.

Definition set_admin_data_pin_protected_flag (existing : list Z) (set : bool) : option (option (list Z)) :=
  match tlv_span existing 0x80 with
  | None =>
      if negb set then Some None else
      container ← push_tlv [0x81] [ADMIN_DATA_FLAG_PIN_PROTECTED_MGM_KEY];
      entry ← push_tlv [0x80] container;
      Some (Some (existing ++ entry))
  | Some (c_start, cv_start, cv_end) =>
      new_container ← container_with_flag (slice existing (Z.to_nat cv_start) (Z.to_nat cv_end)) set;
      match new_container with
      | None => Some None
      | Some new_container =>
          entry ← push_tlv [0x80] new_container;
          Some (Some (take (Z.to_nat c_start) existing ++ entry ++ drop (Z.to_nat cv_end) existing))
      end
  end.

(** * Versions and serial numbers *)

Fixpoint join (sep : list Z) (parts : list (list Z)) : list Z :=
  match parts with [] => [] | [p] => p | p :: parts => p ++ sep ++ join sep parts end.
Definition format_version_bytes (bytes : list Z) : list Z :=
  if zlen bytes <=? 4 then join (s2b ".") (dec <$> bytes) else hex_encode bytes.

Definition parse_serial (buf : list Z) : result ParseError Z :=
  if zlen buf =? 0 then Err (BadResponse (s2b "serial is empty"))
  else if 16 <? zlen buf then Err (BadResponse (s2b "serial is more than 16 bytes"))
  else Ok (from_be (replicate (16 - length buf) 0 ++ buf)).

Definition MAX_DECIMAL_SERIAL : Z := 2 ^ 80 - 1.

(** [{:X}] and [{:08X}]. *)
Fixpoint hex_aux (fuel : nat) (n : Z) : list Z :=
  match fuel with
  | O => []
  | S fuel => if n <? 16 then [hex_digit_upper n] else hex_aux fuel (n / 16) ++ [hex_digit_upper (n mod 16)]
  end.
Definition hex_number (n : Z) : list Z := hex_aux (S (Z.to_nat (Z.log2 n))) n.
Definition hex_number_8 (n : Z) : list Z := replicate (8 - length (hex_number n)) 48 ++ hex_number n.

Definition format_serial_long (serial : Z) : list Z :=
  if MAX_DECIMAL_SERIAL <? serial then s2b "0x" ++ hex_number serial
  else dec serial ++ s2b " (0x" ++ hex_number_8 serial ++ s2b ")".
Definition format_serial_short (serial : Z) : list Z :=
  if MAX_DECIMAL_SERIAL <? serial then s2b "0x" ++ hex_number serial else dec serial.

(** * Lemmas *)

(** The value of the first item under a tag, and that item replaced, or a
    new one at the end. *)
Definition item (tag : Z) (items : list (Z * list Z)) : option (list Z) := find_map (entry_hit 0 tag) items.
Fixpoint put_item (tag : Z) (v : list Z) (items : list (Z * list Z)) : list (Z * list Z) :=
  match items with
  | [] => [(tag, v)]
  | (t, w) :: items => if t =? tag then (tag, v) :: items else (t, w) :: put_item tag v items
  end.

Lemma item_cons tag t v items : item tag ((t, v) :: items) = if t =? tag then Some v else item tag items.
Proof. unfold item. cbn [find_map]. unfold entry_hit at 1. cbn [fst snd]. by destruct (t =? tag). Qed.
Lemma item_put tag v items : item tag (put_item tag v items) = Some v.
Proof.
  induction items as [|[t w] items IH]; cbn [put_item]; [by rewrite item_cons, Z.eqb_refl|].
  destruct (t =? tag) eqn:E; rewrite item_cons; [by rewrite Z.eqb_refl|by rewrite E].
Qed.
Lemma item_put_other tag tag' v items : tag' <> tag -> item tag' (put_item tag v items) = item tag' items.
Proof.
  intros Hn. induction items as [|[t w] items IH]; cbn [put_item]; rewrite ?item_cons.
  - by rewrite (proj2 (Z.eqb_neq _ _)) by auto.
  - destruct (t =? tag) eqn:E; rewrite !item_cons; [bools; subst t; by rewrite !(proj2 (Z.eqb_neq tag tag')) by auto|by rewrite IH].
Qed.

(** A walk to the first entry under a tag stops where it stands. *)
Lemma tlv_span_from_spec tag items lead rest : tlvs items lead -> unreadable rest -> Bytes rest -> forall pre fuel,
  (length (lead ++ rest) <= fuel)%nat ->
  match item tag items with
  | Some v => exists l k b lb c, items = l ++ (tag, v) :: k /\ lead = b ++ (tag :: lb ++ v) ++ c /\ tlvs l b /\ tlvs k c /\
      ber_len lb (zlen v) /\ (forall w, put_item tag w items = l ++ (tag, w) :: k) /\
      tlv_span_from fuel (zlen pre) (pre ++ lead ++ rest) tag =
        Some (zlen (pre ++ b), zlen (pre ++ b ++ tag :: lb), zlen (pre ++ b ++ tag :: lb ++ v))
  | None => tlv_span_from fuel (zlen pre) (pre ++ lead ++ rest) tag = None /\ (forall w, put_item tag w items = items ++ [(tag, w)])
  end.
Proof.
  intros Ht Hu Hb. induction Ht as [|t v lb items bs Hl Ht IH]; intros pre fuel Hf.
  - cbn [item find_map app]. split; [|done]. destruct fuel as [|fuel]; [done|]. cbn [tlv_span_from]. rewrite drop_zlen.
    destruct rest as [|t rest]; [done|]. unfold unreadable in Hu. cbn [next_tlv] in Hu. inversion Hb as [|? ? _ Hb']; subst.
    destruct (read_ber_len rest) as [[len header]|e] eqn:E; cbn [mbind result_bind option_bind result_ok] in *; [|done].
    apply read_ber_len_inv in E as (lb & r & -> & Hl & ->); [|done]. apply ber_len_bound in Hl.
    unfold get_range in Hu. destruct (zlen (pre ++ _) <? _) eqn:E2; [done|]. exfalso. bools. zlen.
    rewrite !(proj2 (Z.leb_le _ _)) in Hu by lia. done.
  - destruct fuel as [|fuel]; [cbn in Hf; lia|]. cbn [tlv_span_from app]. rewrite drop_zlen. rewrite <- !app_assoc, (read_ber_len_app lb (zlen v)) by done.
    cbn [mbind option_bind result_ok]. rewrite (proj2 (Z.ltb_ge _ _)) by (zlen; pose proof (zlen_nonneg bs); pose proof (zlen_nonneg rest); lia).
    rewrite item_cons. destruct (t =? tag) eqn:E.
    + bools. subst t. exists [], items, [], lb, bs. split; [done|]. split; [cbn; by rewrite <- app_assoc|]. split; [constructor|].
      split; [done|]. split; [done|]. split; [intros w; cbn [put_item]; by rewrite Z.eqb_refl|]. zlen. do 2 f_equal; [f_equal|]; lia.
    + specialize (IH (pre ++ t :: lb ++ v) fuel). replace (zlen pre + 1 + zlen lb + zlen v) with (zlen (pre ++ t :: lb ++ v)) by (zlen; lia).
      replace (pre ++ t :: lb ++ v ++ bs ++ rest) with ((pre ++ t :: lb ++ v) ++ bs ++ rest) by (by rewrite <- !app_assoc; cbn; rewrite <- !app_assoc).
      cbn in Hf. rewrite !length_app in Hf. specialize (IH ltac:(rewrite length_app; lia)). destruct (item tag items) as [w|].
      * destruct IH as (l & k & b & lb' & c & -> & -> & H1 & H2 & H3 & H4 & H5). exists ((t, v) :: l), k, (t :: lb ++ v ++ b), lb', c.
        split; [done|]. split; [cbn; by rewrite <- !app_assoc|]. split; [by constructor|]. split; [done|]. split; [done|].
        split; [intros x; cbn [put_item]; by rewrite E, H4|]. rewrite H5. zlen. do 2 f_equal; [f_equal|]; lia.
      * destruct IH as [-> Hp]. split; [done|]. intros x. cbn [put_item]. by rewrite E, Hp.
Qed.

Lemma take_at {A} (a b : list A) n : n = zlen a -> take (Z.to_nat n) (a ++ b) = a.
Proof. intros ->. apply take_zlen. Qed.
Lemma drop_at {A} (a b : list A) n : n = zlen a -> drop (Z.to_nat n) (a ++ b) = b.
Proof. intros ->. apply drop_zlen. Qed.

(** Looking an entry up, and writing another in its place. *)
Lemma tlv_span_spec tag items bs : tlvs items bs ->
  match item tag items with
  | Some v => exists s vs ve, tlv_span bs tag = Some (s, vs, ve) /\ slice bs (Z.to_nat vs) (Z.to_nat ve) = v /\ (zlen v <= zlen bs /\ 0 <= s <= ve) /\
      forall w entry, tlvs [(tag, w)] entry -> tlvs (put_item tag w items) (take (Z.to_nat s) bs ++ entry ++ drop (Z.to_nat ve) bs)
  | None => tlv_span bs tag = None /\ forall w entry, tlvs [(tag, w)] entry -> tlvs (put_item tag w items) (bs ++ entry)
  end.
Proof.
  intros Ht. pose proof (tlv_span_from_spec tag items bs [] Ht unreadable_nil (list.Forall_nil_2 _) [] (length bs) ltac:(by rewrite app_nil_r)) as Hs.
  cbn [app] in Hs. rewrite app_nil_r in Hs. change (zlen (@nil Z)) with 0 in Hs. unfold tlv_span. destruct (item tag items) as [v|].
  - destruct Hs as (l & k & b & lb & c & -> & -> & H1 & H2 & H3 & H4 & ->). eexists _, _, _. split; [done|]. split; [|split].
    + unfold slice. replace (b ++ tag :: (lb ++ v) ++ c) with ((b ++ tag :: lb) ++ v ++ c) by (by rewrite <- !app_assoc).
      rewrite drop_zlen. replace (Z.to_nat _ - Z.to_nat _)%nat with (Z.to_nat (zlen v)) by (zlen; pose proof (zlen_nonneg b); pose proof (zlen_nonneg lb); pose proof (zlen_nonneg v); lia).
      apply take_zlen.
    + zlen. pose proof (zlen_nonneg b). pose proof (zlen_nonneg c). pose proof (zlen_nonneg lb). pose proof (zlen_nonneg v). lia.
    + intros w entry He. rewrite H4. rewrite take_zlen.
      replace (b ++ tag :: (lb ++ v) ++ c) with ((b ++ tag :: lb ++ v) ++ c) by (rewrite <- app_assoc; done). rewrite drop_zlen.
      apply tlvs_app; [done|]. exact (tlvs_app [(tag, w)] entry k c He H2).
  - destruct Hs as [-> Hp]. split; [done|]. intros w entry He. rewrite Hp. by apply tlvs_app.
Qed.

(** Optional entries in a row. *)
Lemma push_tlv_eq t v : zlen v <= 0xFFFF -> exists bs, push_tlv [t] v = Some bs /\ tlvs [(t, v)] bs.
Proof. intros Hv. destruct (push_tlv_ok t v Hv) as (bs & H1 & H2 & _). eauto. Qed.
Lemma zlen_push t v bs : tlvs [(t, v)] bs -> zlen v + 2 <= zlen bs <= zlen v + 4.
Proof.
  intros H. inversion H as [|? ? lb ? b Hl Hn]; subst. inversion Hn; subst. pose proof (ber_len_bound _ _ Hl) as [_ Hb]. zlen. lia.
Qed.

(** ** The flag *)

(** What becomes of the flags byte: [None] when nothing is written. *)
Definition flag_change (set : bool) (flags : option (list Z)) : option Z :=
  match flags with
  | None => if set then Some 2 else None
  | Some [b] => if set then Some (Z.lor b 2) else if Z.land b 2 =? 0 then None else Some (Z.land b 0xFD)
  | Some _ => None
  end.

Lemma container_flag_spec sub container set : tlvs sub container -> zlen container <= 0xFF00 ->
  match flag_change set (item 0x81 sub) with
  | None => container_with_flag container set = Some None
  | Some b => exists c, container_with_flag container set = Some (Some c) /\ tlvs (put_item 0x81 [b] sub) c /\ zlen c <= zlen container + 5
  end.
Proof.
  intros Ht Hl. pose proof (tlv_span_spec 0x81 sub container Ht) as Hs. unfold container_with_flag, ADMIN_DATA_FLAG_PIN_PROTECTED_MGM_KEY.
  assert (forall b, exists fl, push_tlv [0x81] [b] = Some fl /\ tlvs [(0x81, [b])] fl /\ zlen fl <= 5) as Hpush.
  { intros b. destruct (push_tlv_eq 0x81 [b]) as (fl & H1 & H2); [done|]. pose proof (zlen_push _ _ _ H2). zlen. eexists. split; [done|]. split; [done|lia]. }
  destruct (item 0x81 sub) as [v|]; cbn [flag_change].
  - destruct Hs as (s & vs & ve & -> & -> & [_ Hse] & Hput). destruct v as [|b [|? ?]]; [done| |done].
    assert (forall b', exists c, (flags ← push_tlv [0x81] [b']; Some (Some (take (Z.to_nat s) container ++ flags ++ drop (Z.to_nat ve) container))) = Some (Some c) /\
      tlvs (put_item 0x81 [b'] sub) c /\ zlen c <= zlen container + 5) as Hw.
    { intros b'. destruct (Hpush b') as (fl & -> & Hfl & Hz). eexists. split; [done|]. split; [by apply Hput|]. zlen. lia. }
    destruct set; cbn [negb andb]; [apply Hw|]. destruct (Z.land b 2 =? 0); [done|]. apply (Hw (Z.land b 0xFD)).
  - destruct Hs as [-> Hput]. destruct set; cbn [negb]; [|done]. destruct (Hpush 2) as (fl & -> & Hfl & Hz). eexists. split; [done|].
    split; [by apply Hput|]. zlen. lia.
Qed.

Lemma flag_change_bits set flags b : (forall b0, flags = Some [b0] -> is_byte b0) -> flag_change set flags = Some b ->
  Z.testbit b 1 = set /\
  forall i, 0 <= i -> i <> 1 -> Z.testbit b i = match flags with Some [b0] => Z.testbit b0 i | _ => false end.
Proof.
  intros Hbyte. destruct flags as [[|b0 [|? ?]]|]; cbn [flag_change]; try done.
  - specialize (Hbyte b0 eq_refl). destruct set; [intros [= <-]|destruct (_ =? _); [done|intros [= <-]]].
    + split; [by rewrite Z.lor_spec, orb_true_r|]. intros i Hi Hn. rewrite Z.lor_spec. change 2 with (2 ^ 1).
      rewrite Z.pow2_bits_false by lia. by rewrite orb_false_r.
    + split; [by rewrite Z.land_spec, andb_false_r|]. intros i Hi Hn. rewrite Z.land_spec. change 0xFD with (Z.lxor (Z.ones 8) (2 ^ 1)).
      rewrite Z.lxor_spec, Z.pow2_bits_false by lia. rewrite xorb_false_r.
      destruct (decide (i < 8)); [rewrite Z.ones_spec_low by lia; by rewrite andb_true_r|].
      rewrite Z.ones_spec_high by lia. rewrite andb_false_r. symmetry. apply (proj1 (word_bits 8 b0 ltac:(lia))); [done|lia].
  - destruct set; [intros [= <-]|done]. split; [done|]. intros i Hi Hn. change 2 with (2 ^ 1). by rewrite Z.pow2_bits_false by lia.
Qed.

(** What is read once an entry was put. *)
Lemma find_put tag v items bs : tlvs (put_item tag v items) bs ->
  find_tlv bs tag = Some v /\ forall t, t <> tag -> find_tlv bs t = item t items.
Proof.
  intros Ht. split; [rewrite (find_tlv_items _ _ _ Ht); apply item_put|]. intros t Hn.
  rewrite (find_tlv_items _ _ _ Ht). by apply item_put_other.
Qed.

(** The whole object, given what the container becomes. *)
Lemma set_admin_spec items sub existing set : tlvs items existing -> tlvs sub (default [] (item 0x80 items)) -> zlen existing <= 0xFE00 ->
  match flag_change set (item 0x81 sub) with
  | None => set_admin_data_pin_protected_flag existing set = Some None
  | Some b => exists new container, set_admin_data_pin_protected_flag existing set = Some (Some new) /\
      tlvs (put_item 0x80 container items) new /\ tlvs (put_item 0x81 [b] sub) container
  end.
Proof.
  intros Ht Hs Hl. pose proof (tlv_span_spec 0x80 items existing Ht) as Hx. unfold set_admin_data_pin_protected_flag.
  destruct (item 0x80 items) as [c|]; cbn [default] in Hs.
  - destruct Hx as (s & vs & ve & -> & -> & [Hc _] & Hput). pose proof (container_flag_spec sub c set Hs ltac:(lia)) as Hf.
    destruct (flag_change set _) as [b|]; [|by rewrite Hf]. destruct Hf as (c' & -> & Hsub & Hz). cbn [mbind option_bind].
    destruct (push_tlv_eq 0x80 c') as (entry & -> & He); [lia|]. eexists _, c'. split; [done|]. split; [by apply Hput|done].
  - destruct Hx as [-> Hput]. inversion Hs; subst. change (item 0x81 []) with (@None (list Z)). cbn [flag_change]. destruct set; [|done]. cbn [negb].
    unfold ADMIN_DATA_FLAG_PIN_PROTECTED_MGM_KEY. destruct (push_tlv_eq 0x81 [2]) as (c & -> & Hc); [done|]. cbn [mbind option_bind].
    destruct (push_tlv_eq 0x80 c) as (entry & -> & He); [pose proof (zlen_push _ _ _ Hc); zlen; lia|].
    eexists _, c. split; [done|]. split; [by apply Hput|done].
Qed.

(** ** The text of a GUID *)

Definition kept_char (c : Z) : bool := negb (is_whitespace c) && negb (c =? 45).
Lemma hex_kept b : is_byte b -> forallb (fun c => kept_char c && (0 <=? c) && (c <? 0x80)) (hex_encode [b]) = true.
Proof.
  revert b. apply (byte_forall (fun b => forallb (fun c => kept_char c && (0 <=? c) && (c <? 0x80)) (hex_encode [b]))). vm_compute. reflexivity.
Qed.
Lemma hex_encode_one b bs : hex_encode (b :: bs) = hex_encode [b] ++ hex_encode bs.
Proof. rewrite !hex_encode_cons. done. Qed.

Lemma guid_bytes_kept i bs : Bytes bs ->
  List.filter kept_char (guid_bytes i bs) = hex_encode bs /\ Forall (fun c => 0 <= c < 0x80) (guid_bytes i bs) /\ Forall (fun c => 0 <= c < 0x80) (hex_encode bs).
Proof.
  intros Hb. revert i. induction Hb as [|b bs Hx Hb IH]; intros i; [by repeat constructor|]. destruct (IH (S i)) as (H1 & H2 & H3).
  pose proof (hex_kept b Hx) as Hk. rewrite forallb_forall in Hk.
  assert (List.filter kept_char (hex_encode [b]) = hex_encode [b] /\ Forall (fun c => 0 <= c < 0x80) (hex_encode [b])) as [Hf Ha].
  { split; [apply forallb_filter_id, forallb_forall; intros c Hc; specialize (Hk c Hc); bools; tauto|].
    apply list.Forall_forall. intros c Hc. apply list_elem_of_In in Hc. specialize (Hk c Hc). bools. lia. }
  cbn [guid_bytes]. rewrite (hex_encode_one b bs), !filter_app, Hf, H1. split; [|split].
  - by case_bool_decide.
  - rewrite !Forall_app. split; [case_bool_decide; repeat constructor; lia|done].
  - rewrite Forall_app. done.
Qed.
Lemma utf8_encode_ascii s : Forall (fun c => 0 <= c < 0x80) s -> utf8_encode s = s.
Proof.
  induction 1 as [|c s Hc Hs IH]; [done|]. unfold utf8_encode in *. cbn [flat_map]. rewrite IH. unfold encode_char.
  by rewrite (proj2 (Z.ltb_lt c _)) by lia.
Qed.
Lemma guid_text g : Bytes g -> zlen g = 16 -> parse_guid_hex (format_guid g) = Some g.
Proof.
  intros Hb Hl. unfold format_guid, parse_guid_hex. rewrite Hl. cbn [Z.eqb Pos.eqb negb]. destruct (guid_bytes_kept 0 g Hb) as (Hf & Ha & Hh).
  assert (chars (guid_bytes 0 g) = guid_bytes 0 g) as -> by (unfold chars; by rewrite utf8_decode_ascii). change (fun c => negb (is_whitespace c) && negb (c =? 45)) with kept_char. rewrite Hf, utf8_encode_ascii, hex_decode_encode by done.
  cbn [result_ok mbind option_bind]. by rewrite Hl.
Qed.

(** * Properties *)

(** C17: setting or clearing the flag that says the management key is stored
    under the PIN changes one bit of the admin data. When something is written,
    the new object has the entries of the old one with the container replaced or
    added, and the container those of the old one with the flags byte replaced or
    added; the bit is as asked and the other bits of the byte are as they were;
    every other entry, of the object and of the container, reads the same. Nothing
    is written when there is nothing to clear, or when the flags entry is not one
    byte long. *)
Theorem piv_admin_flag (items sub : list (Z * list Z)) (existing : list Z) (set : bool) :
  tlvs items existing -> tlvs sub (default [] (item 0x80 items)) -> zlen existing <= 0xFE00 ->
  (forall b, item 0x81 sub = Some [b] -> is_byte b) ->
  match flag_change set (item 0x81 sub) with
  | None => set_admin_data_pin_protected_flag existing set = Some None
  | Some b => exists new container, set_admin_data_pin_protected_flag existing set = Some (Some new) /\
      tlvs (put_item 0x80 container items) new /\ tlvs (put_item 0x81 [b] sub) container /\
      find_tlv new 0x80 = Some container /\ find_tlv container 0x81 = Some [b] /\ Z.testbit b 1 = set /\
      (forall i, 0 <= i -> i <> 1 -> Z.testbit b i = match item 0x81 sub with Some [b0] => Z.testbit b0 i | _ => false end) /\
      (forall t, t <> 0x80 -> find_tlv new t = find_tlv existing t) /\
      (forall t, t <> 0x81 -> find_tlv container t = find_tlv (default [] (item 0x80 items)) t)
  end.
Proof.
  intros Ht Hs Hl Hbyte. pose proof (set_admin_spec items sub existing set Ht Hs Hl) as Hx.
  destruct (flag_change set _) as [b|] eqn:E; [|done]. destruct Hx as (new & c & -> & Hnew & Hc). exists new, c.
  destruct (find_put _ _ _ _ Hnew) as [Hn1 Hn2]. destruct (find_put _ _ _ _ Hc) as [Hc1 Hc2]. destruct (flag_change_bits _ _ _ Hbyte E) as [Hb1 Hb2].
  do 7 (split; [done|]). split; intros t Hne; [rewrite Hn2 by done|rewrite Hc2 by done]; symmetry; by apply find_tlv_items.
Qed.
Lemma piv_admin_flag_witness :
  set_admin_data_pin_protected_flag [0x80; 0x06; 0x81; 0x01; 0x01; 0x82; 0x01; 0x07] true =
    Some (Some [0x80; 0x06; 0x81; 0x01; 0x03; 0x82; 0x01; 0x07]) /\
  exists new container, set_admin_data_pin_protected_flag [0x80; 0x03; 0x81; 0x01; 0x01] true = Some (Some new) /\
    find_tlv new 0x80 = Some container /\ find_tlv container 0x81 = Some [3].
Proof.
  split; [reflexivity|]. assert (ber_len [3] 3) as L3 by (apply len_short; lia). assert (ber_len [1] 1) as L1 by (apply len_short; lia).
  destruct (piv_admin_flag [(0x80, [0x81; 0x01; 0x01])] [(0x81, [0x01])] [0x80; 0x03; 0x81; 0x01; 0x01] true) as (new & c & H1 & _ & _ & H2 & H3 & _).
  - exact (tlvs_cons 0x80 [0x81; 0x01; 0x01] [3] [] [] L3 tlvs_nil).
  - exact (tlvs_cons 0x81 [0x01] [1] [] [] L1 tlvs_nil).
  - by_decision.
  - intros b [= <-]. by_decision.
  - exists new, c. split; [exact H1|split; [exact H2|exact H3]].
Defined.

(** What is stored on the card is what was meant. PUT DATA carries the
    object's tag and its value, and the value comes back out of the reply a card
    makes of it; a certificate reads back with the mark of its compression, a
    CHUID with its GUID and date, a management key kept under the PIN as that
    key; and a GUID's text parses to the GUID. *)
Theorem piv_objects_roundtrip (tag value payload guid expiration key : list Z) (info : CertInfo) :
  zlen tag <= 0x7F -> zlen value <= 0xFE00 -> zlen payload <= 0xFFFF -> zlen guid <= 0xFFFF -> zlen expiration <= 0xFFFF -> zlen key <= 0xFF00 ->
  (exists apdu body, put_data tag value = Some apdu /\ parse_command apdu = Some (mkCommand 0x00 0xDB 0x3F 0xFF body None) /\
     find_tlv body TAG_OBJECT_SELECTOR = Some tag /\ find_tlv body TAG_DATA_TEMPLATE = Some value) /\
  (forall reply rest, tlvs [(TAG_DATA_TEMPLATE, value)] reply -> unwrap_data_object (reply ++ rest) = Ok value) /\
  (exists v, encode_certificate payload info = Some v /\ cert_object_parts v = Some (payload, match info with Gzip => true | Uncompressed => false end)) /\
  (exists v, encode_chuid guid expiration = Some v /\ parse_chuid v = Some (mkChuid CHUID_FASC_N guid expiration [] [])) /\
  (exists v, build_pin_protected_management_key key = Some v /\
     forall reply rest, tlvs [(TAG_DATA_TEMPLATE, v)] reply -> parse_pin_protected_management_key (reply ++ rest) = Some key) /\
  (Bytes guid -> zlen guid = 16 -> parse_guid_hex (format_guid guid) = Some guid).
Proof.
  intros Htag Hval Hpay Hg He Hk. split; [|split; [|split; [|split; [|split; [|apply guid_text]]]]].
  - unfold put_data, put_data_body. destruct (push_tlv_eq TAG_OBJECT_SELECTOR tag) as (a & -> & Ha); [lia|].
    destruct (push_tlv_eq TAG_DATA_TEMPLATE value) as (b & -> & Hb); [lia|]. cbn [mbind option_bind].
    pose proof (tlvs_app _ _ _ _ Ha Hb) as Hab. pose proof (zlen_push _ _ _ Ha). pose proof (zlen_push _ _ _ Hb).
    destruct (build_apdu_ext_read 0x00 (ins_code PutData) GET_DATA_P1 GET_DATA_P2 (a ++ b) None) as (apdu & -> & Hr); [zlen; lia|done|].
    exists apdu, (a ++ b). split; [done|]. split; [exact Hr|]. by rewrite !(find_tlv_items _ _ _ Hab).
  - intros reply rest Hr. by apply template_ok.
  - unfold encode_certificate. destruct (push_tlv_eq 0x70 payload Hpay) as (a & -> & Ha).
    destruct (push_tlv_eq 0x71 [cert_info_byte info]) as (b & -> & Hb); [done|]. destruct (push_tlv_eq 0xFE []) as (c & -> & Hc); [done|].
    eexists. split; [done|]. pose proof (tlvs_app _ _ _ _ Ha (tlvs_app _ _ _ _ Hb Hc)) as Hx. unfold cert_object_parts.
    rewrite !(find_tlv_items _ _ _ Hx). by destruct info.
  - unfold encode_chuid. destruct (push_tlv_eq 0x30 CHUID_FASC_N) as (a & -> & Ha); [done|]. destruct (push_tlv_eq 0x34 guid Hg) as (b & -> & Hb).
    destruct (push_tlv_eq 0x35 expiration He) as (c & -> & Hc). destruct (push_tlv_eq 0x3E []) as (d & -> & Hd); [done|].
    destruct (push_tlv_eq 0xFE []) as (e & -> & Hx); [done|]. eexists. split; [done|].
    pose proof (tlvs_app _ _ _ _ Ha (tlvs_app _ _ _ _ Hb (tlvs_app _ _ _ _ Hc (tlvs_app _ _ _ _ Hd Hx)))) as Hall.
    unfold parse_chuid. by rewrite !(find_tlv_items _ _ _ Hall).
  - unfold build_pin_protected_management_key. destruct (push_tlv_eq 0x89 key) as (a & -> & Ha); [lia|]. pose proof (zlen_push _ _ _ Ha).
    cbn [mbind option_bind]. destruct (push_tlv_eq 0x88 a) as (b & -> & Hb); [lia|]. exists b. split; [done|]. intros reply rest Hr.
    unfold parse_pin_protected_management_key, unwrap_data_object. rewrite (template_ok _ _ _ _ _ Hr). cbn [result_ok mbind option_bind].
    rewrite (find_tlv_items _ _ _ Hb). cbn. by rewrite (find_tlv_items _ _ _ Ha).
Qed.
Lemma piv_objects_roundtrip_witness :
  parse_guid_hex (format_guid (seqZ 240 16)) = Some (seqZ 240 16) /\ format_guid (seqZ 240 16) = s2b "f0f1f2f3-f4f5-f6f7-f8f9-fafbfcfdfeff" /\
  exists v, encode_chuid (seqZ 240 16) (s2b "20301231") = Some v /\ parse_chuid v = Some (mkChuid CHUID_FASC_N (seqZ 240 16) (s2b "20301231") [] []).
Proof.
  destruct (piv_objects_roundtrip [] [] [] (seqZ 240 16) (s2b "20301231") [] Gzip) as (_ & _ & _ & H1 & _ & H2); [by_decision..|].
  split; [apply H2; by_decision|]. split; [reflexivity|exact H1].
Defined.
