(* ===== verification/X509.v ===== *)
(** keyroost-piv/src/spki.rs, x509.rs and x509_parse.rs: DER and PEM of public keys,
    certificate requests and self-signed certificates, and the reader of certificates.
    Then what the reader reads of what was made. A [usize] is 64 bits wide. A panic is [None]. *)
From S2P Require Export Codec PivDates PivData.

(** * DER *)

(** The big-endian bytes of a length, most significant first; eight at most. *)
Fixpoint len_bytes (fuel : nat) (n : Z) (acc : list Z) : list Z :=
  match fuel with
  | O => acc
  | S fuel => if n =? 0 then acc else len_bytes fuel (Z.shiftr n 8) (Z.land n 0xFF :: acc)
  end.
Definition der_len (len : Z) : list Z :=
  if len <? 0x80 then [len] else let tmp := len_bytes 8 len [] in Z.lor 0x80 (zlen tmp) :: tmp.
Definition der_tlv (tag : Z) (value : list Z) : list Z := tag :: der_len (zlen value) ++ value.
Definition der_seq (members : list (list Z)) : list Z := der_tlv 0x30 (concat members).
(** [while v.len() > 1 && v[0] == 0]. *)
Fixpoint strip_zeros (v : list Z) : list Z :=
  match v with
  | 0 :: (_ :: _) as rest => strip_zeros rest
  | _ => v
  end.
Definition uint_bytes (bytes : list Z) : list Z := match strip_zeros bytes with [] => [0x00] | v => v end.
Definition top_bit_set (v : list Z) : bool := match v with b :: _ => negb (Z.land b 0x80 =? 0) | [] => false end.
Definition der_uint (bytes : list Z) : list Z :=
  let v := uint_bytes bytes in
  der_tlv 0x02 ((if top_bit_set v then [0x00] else []) ++ v).
Definition der_bitstring (bytes : list Z) : list Z := der_tlv 0x03 (0x00 :: bytes).

(** * Public keys *)

Definition OID_RSA_ENCRYPTION : list Z := [0x06; 0x09; 0x2A; 0x86; 0x48; 0x86; 0xF7; 0x0D; 0x01; 0x01; 0x01].
Definition OID_EC_PUBLIC_KEY : list Z := [0x06; 0x07; 0x2A; 0x86; 0x48; 0xCE; 0x3D; 0x02; 0x01].
Definition OID_P256 : list Z := [0x06; 0x08; 0x2A; 0x86; 0x48; 0xCE; 0x3D; 0x03; 0x01; 0x07].
Definition OID_P384 : list Z := [0x06; 0x05; 0x2B; 0x81; 0x04; 0x00; 0x22].
Definition OID_P521 : list Z := [0x06; 0x05; 0x2B; 0x81; 0x04; 0x00; 0x23].
Definition OID_ED25519 : list Z := [0x06; 0x03; 0x2B; 0x65; 0x70].
Definition OID_X25519 : list Z := [0x06; 0x03; 0x2B; 0x65; 0x6E].
Definition DER_NULL : list Z := [0x05; 0x00].

Inductive SpkiError := KeyTypeMismatch.
Definition spki_error_text (e : SpkiError) : list Z := match e with KeyTypeMismatch => s2b "public key type does not match algorithm" end.
Definition ec_spki (curve_oid point : list Z) : list Z :=
  der_seq [der_seq [OID_EC_PUBLIC_KEY; curve_oid]; der_bitstring point].
Definition eddsa_spki (oid point : list Z) : list Z := der_seq [der_seq [oid]; der_bitstring point].
Definition subject_public_key_info (key : PublicKey) (alg : KeyAlg) : result SpkiError (list Z) :=
  match key, alg with
  | Rsa modulus exponent, (Rsa1024 | Rsa2048 | Rsa3072 | Rsa4096) =>
      let alg_id := der_seq [OID_RSA_ENCRYPTION; DER_NULL] in
      let rsa_pub := der_seq [der_uint modulus; der_uint exponent] in
      Ok (der_seq [alg_id; der_bitstring rsa_pub])
  | Ecc point, EccP256 => Ok (ec_spki OID_P256 point)
  | Ecc point, EccP384 => Ok (ec_spki OID_P384 point)
  | Ecc point, EccP521 => Ok (ec_spki OID_P521 point)
  | Ecc point, Ed25519 => Ok (eddsa_spki OID_ED25519 point)
  | Ecc point, X25519 => Ok (eddsa_spki OID_X25519 point)
  | _, _ => Err KeyTypeMismatch
  end.

Definition pem (label der : list Z) : list Z :=
  s2b "-----BEGIN " ++ label ++ s2b "-----" ++ [10] ++
  concat (map (fun chunk => chunk ++ [10]) (chunks 64 (base64_encode der))) ++
  s2b "-----END " ++ label ++ s2b "-----" ++ [10].
Definition to_pem (spki_der : list Z) : list Z := pem (s2b "PUBLIC KEY") spki_der.

(** * Signatures *)

Inductive X509Error := UnsupportedAlgorithm | BadSubject (reason : list Z) | BadValidity | BadKeyUsage.
Definition x509_error_text (e : X509Error) : list Z :=
  match e with
  | UnsupportedAlgorithm => s2b "this key algorithm cannot sign certificates"
  | BadSubject r => s2b "invalid subject: " ++ r
  | BadValidity => s2b "certificate expiry must be after its start"
  | BadKeyUsage => s2b "invalid key usage combination"
  end.

Inductive SigHash := HashSha256 | HashSha384 | HashSha512 | HashNone.
Definition signature_hash (alg : KeyAlg) : result X509Error SigHash :=
  match alg with
  | Rsa1024 | Rsa2048 | Rsa3072 | Rsa4096 | EccP256 => Ok HashSha256
  | EccP384 => Ok HashSha384
  | EccP521 => Ok HashSha512
  | Ed25519 => Ok HashNone
  | X25519 => Err UnsupportedAlgorithm
  end.
Definition signature_algorithm (alg : KeyAlg) : result X509Error (list Z) :=
  match alg with
  | Rsa1024 | Rsa2048 | Rsa3072 | Rsa4096 =>
      Ok [0x30; 0x0D; 0x06; 0x09; 0x2A; 0x86; 0x48; 0x86; 0xF7; 0x0D; 0x01; 0x01; 0x0B; 0x05; 0x00]
  | EccP256 => Ok [0x30; 0x0A; 0x06; 0x08; 0x2A; 0x86; 0x48; 0xCE; 0x3D; 0x04; 0x03; 0x02]
  | EccP384 => Ok [0x30; 0x0A; 0x06; 0x08; 0x2A; 0x86; 0x48; 0xCE; 0x3D; 0x04; 0x03; 0x03]
  | EccP521 => Ok [0x30; 0x0A; 0x06; 0x08; 0x2A; 0x86; 0x48; 0xCE; 0x3D; 0x04; 0x03; 0x04]
  | Ed25519 => Ok [0x30; 0x05; 0x06; 0x03; 0x2B; 0x65; 0x70]
  | X25519 => Err UnsupportedAlgorithm
  end.

(** * Subjects *)

Inductive NameAttr := CommonName | Organization | OrganizationalUnit | Country | Locality | StateOrProvince.
#[export] Instance NameAttr_eq_dec : EqDecision NameAttr.
Proof. solve_decision. Defined.
Definition name_oid (a : NameAttr) : list Z :=
  [0x06; 0x03; 0x55; 0x04;
   match a with
   | CommonName => 0x03 | Country => 0x06 | Locality => 0x07 | StateOrProvince => 0x08 | Organization => 0x0A
   | OrganizationalUnit => 0x0B
   end].
Definition SubjectName : Type := list (NameAttr * list Z).
Definition name_attr (typ : list Z) : option NameAttr :=
  let t := to_ascii_uppercase (trim typ) in
  if bool_decide (t = s2b "CN") then Some CommonName
  else if bool_decide (t = s2b "O") then Some Organization
  else if bool_decide (t = s2b "OU") then Some OrganizationalUnit
  else if bool_decide (t = s2b "C") then Some Country
  else if bool_decide (t = s2b "L") then Some Locality
  else if bool_decide (t = s2b "ST") then Some StateOrProvince
  else None.
(** The attribute of one comma-separated part, trimmed and not empty. *)
Definition subject_part (raw : list Z) : result X509Error (NameAttr * list Z) :=
  '(typ, value) ← ok_or (BadSubject (s2b "expected TYPE=value pairs")) (split_once 61 raw);
  let value := trim value in
  if bool_decide (value = []) then Err (BadSubject (s2b "empty attribute value")) else
  attr ← ok_or (BadSubject (s2b "unsupported attribute (use CN, O, OU, C, L, ST)")) (name_attr typ);
  if bool_decide (attr = Country) && (negb (zlen value =? 2) || negb (forallb (fun b => b <? 0x80) value))
  then Err (BadSubject (s2b "country (C) must be a 2-letter code"))
  else Ok (attr, value).
Fixpoint subject_parts (raws : list (list Z)) : result X509Error SubjectName :=
  match raws with
  | [] => Ok []
  | raw :: raws =>
      let raw := trim raw in
      if bool_decide (raw = []) then subject_parts raws else
      part ← subject_part raw; parts ← subject_parts raws; Ok (part :: parts)
  end.
Definition parse_subject (s : list Z) : result X509Error SubjectName :=
  parts ← subject_parts (split_on 44 s);
  if bool_decide (parts = []) then Err (BadSubject (s2b "subject is empty (need e.g. CN=" ++ [0xE2; 0x80; 0xA6] ++ s2b ")")) else Ok parts.
Definition rdn_der (part : NameAttr * list Z) : list Z :=
  let '(attr, value) := part in
  let string_tag := if bool_decide (attr = Country) then 0x13 else 0x0C in
  der_tlv 0x31 (der_seq [name_oid attr; der_tlv string_tag value]).
Definition subject_der (s : SubjectName) : list Z := der_tlv 0x30 (concat (map rdn_der s)).

(** * Times *)

Definition CivilTime : Type := Z * Z * Z * Z * Z * Z.
Definition civil_from_unix (unix_secs : Z) : CivilTime :=
  let days := unix_secs / 86400 in
  let secs := unix_secs mod 86400 in
  let z := days + 719468 in
  let era := z / 146097 in
  let doe := z mod 146097 in
  let yoe := (doe - doe / 1460 + doe / 36524 - doe / 146096) / 365 in
  let y := yoe + era * 400 in
  let doy := doe - (365 * yoe + yoe / 4 - yoe / 100) in
  let mp := (5 * doy + 2) / 153 in
  let d := doy - (153 * mp + 2) / 5 + 1 in
  let mo := if mp <? 10 then mp + 3 else mp - 9 in
  let y := if mo <=? 2 then y + 1 else y in
  (y, mo, d, secs / 3600, secs mod 3600 / 60, secs mod 60).
Definition max_der_time_unix_secs : Z := max_expiration_unix_secs.
Definition der_time (unix_secs : Z) : list Z :=
  let unix_secs := Z.min unix_secs max_der_time_unix_secs in
  let '(y, mo, d, h, mi, s) := civil_from_unix unix_secs in
  let rest := zero_padded 2 mo ++ zero_padded 2 d ++ zero_padded 2 h ++ zero_padded 2 mi ++ zero_padded 2 s ++ s2b "Z" in
  if (1950 <=? y) && (y <? 2050) then der_tlv 0x17 (zero_padded 2 (y mod 100) ++ rest)
  else der_tlv 0x18 (zero_padded 4 y ++ rest).

(** * Key usages *)

(** The sixteen bits of a [KeyUsage]. *)
Definition DIGITAL_SIGNATURE : Z := 1.
Definition NON_REPUDIATION : Z := 2.
Definition KEY_ENCIPHERMENT : Z := 4.
Definition DATA_ENCIPHERMENT : Z := 8.
Definition KEY_AGREEMENT : Z := 16.
Definition KEY_CERT_SIGN : Z := 32.
Definition CRL_SIGN : Z := 64.
Definition ENCIPHER_ONLY : Z := 128.
Definition DECIPHER_ONLY : Z := 256.
Definition ku_contains (a b : Z) : bool := Z.land a b =? b.
Definition ku_with (a b : Z) (on : bool) : Z := if on then Z.lor a b else Z.ldiff a b.
Definition ku_is_valid (a : Z) : bool :=
  if a =? 0 then false else
  let eo := ku_contains a ENCIPHER_ONLY in
  let dc := ku_contains a DECIPHER_ONLY in
  (negb (eo || dc) || ku_contains a KEY_AGREEMENT) && negb (eo && dc).

Definition reverse_bits (b : Z) : Z :=
  foldl (fun acc i => Z.lor acc (if Z.testbit b i then Z.shiftl 1 (7 - i) else 0)) 0 [0; 1; 2; 3; 4; 5; 6; 7].
(** [u8::trailing_zeros], of a byte that is not zero. *)
Definition trailing_zeros (b : Z) : Z :=
  default 8 (List.find (fun i => Z.testbit b i) [0; 1; 2; 3; 4; 5; 6; 7]).
Definition extension_der (usages : Z) (critical : bool) : result X509Error (list Z) :=
  if negb (ku_is_valid usages) then Err BadKeyUsage else
  let b0 := reverse_bits (Z.land usages 0xFF) in
  let b1 := cast 8 (Z.shiftl (cast 8 (Z.shiftr usages 8)) 7) in
  let '(content, last) := if negb (b1 =? 0) then ([b0; b1], b1) else ([b0], b0) in
  let bit_string := der_tlv 0x03 (trailing_zeros last :: content) in
  let oid := der_tlv 0x06 [0x55; 0x1D; 0x0F] in
  let value := der_tlv 0x04 bit_string in
  Ok (if critical then der_seq [oid; der_tlv 0x01 [0xFF]; value] else der_seq [oid; value]).

Record KeyUsageExt := mkKeyUsage { ku_usages : Z; ku_critical : bool }.

Definition supported_key_usages (alg : KeyAlg) : Z :=
  let sign := Z.lor (Z.lor (Z.lor DIGITAL_SIGNATURE NON_REPUDIATION) KEY_CERT_SIGN) CRL_SIGN in
  let agree := Z.lor (Z.lor KEY_AGREEMENT ENCIPHER_ONLY) DECIPHER_ONLY in
  match alg with
  | Rsa1024 | Rsa2048 | Rsa3072 | Rsa4096 => Z.lor (Z.lor sign KEY_ENCIPHERMENT) DATA_ENCIPHERMENT
  | EccP256 | EccP384 | EccP521 => Z.lor sign agree
  | Ed25519 => sign
  | X25519 => agree
  end.
Definition piv_standard_key_usage (slot : Slot) (alg : option KeyAlg) : option Z :=
  match slot with
  | Authentication | CardAuthentication => Some DIGITAL_SIGNATURE
  | Signature => Some (Z.lor DIGITAL_SIGNATURE NON_REPUDIATION)
  | KeyManagement | Retired _ =>
      alg ← alg;
      Some (match alg with Rsa1024 | Rsa2048 | Rsa3072 | Rsa4096 => KEY_ENCIPHERMENT | _ => KEY_AGREEMENT end)
  end.
Definition piv_default_key_usage (slot : Slot) (alg : option KeyAlg) : option KeyUsageExt :=
  usages ← piv_standard_key_usage slot alg;
  let usages := match alg with Some alg => Z.land usages (supported_key_usages alg) | None => usages end in
  if usages =? 0 then None else Some (mkKeyUsage usages true).
Definition piv_default_degrades_to_undefined (slot : Slot) (alg : option KeyAlg) : bool :=
  bool_decide (is_Some alg) && bool_decide (is_Some (piv_standard_key_usage slot alg)) &&
  match piv_default_key_usage slot alg with None => true | Some _ => false end.

(** * Requests and certificates *)

Definition extensions_der (ku : KeyUsageExt) : result X509Error (list Z) :=
  ext ← extension_der (ku_usages ku) (ku_critical ku); Ok (der_seq [ext]).
Definition csr_info (subject : SubjectName) (spki_der : list Z) (key_usage : option KeyUsageExt) : result X509Error (list Z) :=
  attributes ← (match key_usage with
                | None => Ok [0xA0; 0x00]
                | Some ku =>
                    exts ← extensions_der ku;
                    Ok (der_tlv 0xA0 (der_seq [der_tlv 0x06 [0x2A; 0x86; 0x48; 0x86; 0xF7; 0x0D; 0x01; 0x09; 0x0E]; der_tlv 0x31 exts]))
                end);
  Ok (der_seq [der_uint [0x00]; subject_der subject; spki_der; attributes]).
Definition tbs_certificate (serial : list Z) (alg : KeyAlg) (subject : SubjectName) (not_before not_after : Z) (spki_der : list Z)
    (key_usage : option KeyUsageExt) : result X509Error (list Z) :=
  if not_after <=? not_before then Err BadValidity else
  sig_alg ← signature_algorithm alg;
  let name := subject_der subject in
  let validity := der_seq [der_time not_before; der_time not_after] in
  let version := der_tlv 0xA0 (der_uint [0x02]) in
  extensions ← (match key_usage with
                | Some ku => exts ← extensions_der ku; Ok [der_tlv 0xA3 exts]
                | None => Ok []
                end);
  let serial := der_uint serial in
  Ok (der_seq ([version; serial; sig_alg; name; validity; name; spki_der] ++ extensions)).
Definition assemble (tbs : list Z) (alg : KeyAlg) (signature : list Z) : result X509Error (list Z) :=
  sig_alg ← signature_algorithm alg;
  Ok (der_seq [tbs; sig_alg; der_bitstring signature]).
Definition pem_certificate (der : list Z) : list Z := pem (s2b "CERTIFICATE") der.
Definition pem_csr (der : list Z) : list Z := pem (s2b "CERTIFICATE REQUEST") der.

Definition DIGEST_INFO_SHA256 : list Z :=
  [0x30; 0x31; 0x30; 0x0D; 0x06; 0x09; 0x60; 0x86; 0x48; 0x01; 0x65; 0x03; 0x04; 0x02; 0x01; 0x05; 0x00; 0x04; 0x20].
(** [None]: the [assert!]. *)
Definition pkcs1_v15_sha256 (digest : list Z) (k : Z) : option (list Z) :=
  let t_len := zlen DIGEST_INFO_SHA256 + zlen digest in
  if k <? t_len + 11 then None
  else Some ([0x00; 0x01] ++ replicate (Z.to_nat (k - t_len - 1 - 2)) 0xFF ++ [0x00] ++ DIGEST_INFO_SHA256 ++ digest).

(** Keyroost-piv/src/x509_parse.rs: the reader of DER certificates; and what it reads of the
    certificates x509.rs makes. Slices are lists; each loop takes at least two bytes a turn, so
    the length of its input is fuel enough. *)

Inductive X509ParseError := CertTruncated | CertLengthTooLarge | CertMalformed.
#[export] Instance X509ParseError_eq_dec : EqDecision X509ParseError.
Proof. solve_decision. Defined.
Definition x509_parse_error_text (e : X509ParseError) : list Z :=
  match e with
  | CertTruncated => s2b "certificate ended unexpectedly (truncated)"
  | CertLengthTooLarge => s2b "DER length field is implausibly large"
  | CertMalformed => s2b "certificate structure did not match X.509"
  end.

(** * TLVs *)

(** The length octets: [len << 8 | b], [num] times. *)
Fixpoint long_len (num : nat) (input : list Z) (len : Z) : result X509ParseError Z :=
  match num with
  | O => Ok len
  | S num => match input with [] => Err CertTruncated | b :: input => long_len num input (Z.lor (Z.shiftl len 8) b) end
  end.
(** The length and the size of the header, from the length byte and what follows it. *)
Definition read_len (len_byte : Z) (octets : list Z) : result X509ParseError (Z * Z) :=
  if Z.land len_byte 0x80 =? 0 then Ok (len_byte, 2)
  else let num := Z.land len_byte 0x7F in
       if (num =? 0) || (4 <? num) then Err CertLengthTooLarge
       else len ← long_len (Z.to_nat num) octets 0; Ok (len, 2 + num).
Record Tlv := mkTlv { t_tag : Z; t_content : list Z }.
Definition read_tlv (input : list Z) : result X509ParseError (Tlv * list Z) :=
  tag ← ok_or CertTruncated (input !! 0%nat);
  len_byte ← ok_or CertTruncated (input !! 1%nat);
  '(len, header) ← read_len len_byte (drop 2 input);
  let end_ := header + len in
  if zlen input <? end_ then Err CertTruncated
  else Ok (mkTlv tag (slice input (Z.to_nat header) (Z.to_nat end_)), drop (Z.to_nat end_) input).
Definition expect_tag (input : list Z) (expected : Z) : result X509ParseError (Tlv * list Z) :=
  '(tlv, rest) ← read_tlv input;
  if negb (t_tag tlv =? expected) then Err CertMalformed else Ok (tlv, rest).

(** * Object identifiers *)

(** One base-128 sub-identifier, a [u64]: its value and what follows it. *)
Fixpoint sub_identifier (value : Z) (bytes : list Z) : option (Z * list Z) :=
  match bytes with
  | [] => None
  | b :: bytes =>
      let value := Z.lor (cast 64 (Z.shiftl value 7)) (Z.land b 0x7F) in
      if Z.land b 0x80 =? 0 then Some (value, bytes) else sub_identifier value bytes
  end.
Fixpoint sub_identifiers (fuel : nat) (bytes : list Z) : option (list Z) :=
  match fuel, bytes with
  | S fuel, _ :: _ =>
      '(value, rest) ← sub_identifier 0 bytes;
      out ← sub_identifiers fuel rest; Some (s2b "." ++ dec value ++ out)
  | _, _ => Some []
  end.
Definition decode_oid (content : list Z) : option (list Z) :=
  '(first_sid, rest) ← sub_identifier 0 content;
  let '(arc1, arc2) := if first_sid <? 40 then (0, first_sid) else if first_sid <? 80 then (1, first_sid - 40) else (2, first_sid - 80) in
  out ← sub_identifiers (length rest) rest;
  Some (dec arc1 ++ s2b "." ++ dec arc2 ++ out).

(** * Subjects *)

Inductive DnAttr :=
  | DnCommonName | DnOrganization | DnOrganizationalUnit | DnCountry | DnLocality | DnStateOrProvince | DnSerialNumber
  | DnEmailAddress | DnOther (oid : list Z).
Definition from_oid (oid : list Z) : DnAttr :=
  if bool_decide (oid = s2b "2.5.4.3") then DnCommonName
  else if bool_decide (oid = s2b "2.5.4.10") then DnOrganization
  else if bool_decide (oid = s2b "2.5.4.11") then DnOrganizationalUnit
  else if bool_decide (oid = s2b "2.5.4.6") then DnCountry
  else if bool_decide (oid = s2b "2.5.4.7") then DnLocality
  else if bool_decide (oid = s2b "2.5.4.8") then DnStateOrProvince
  else if bool_decide (oid = s2b "2.5.4.5") then DnSerialNumber
  else if bool_decide (oid = s2b "1.2.840.113549.1.9.1") then DnEmailAddress
  else DnOther oid.
Definition dn_label (a : DnAttr) : list Z :=
  match a with
  | DnCommonName => s2b "CN" | DnOrganization => s2b "O" | DnOrganizationalUnit => s2b "OU" | DnCountry => s2b "C"
  | DnLocality => s2b "L" | DnStateOrProvince => s2b "ST" | DnSerialNumber => s2b "serialNumber"
  | DnEmailAddress => s2b "emailAddress" | DnOther oid => oid
  end.
Definition SubjectDn : Type := list (DnAttr * list Z).
Fixpoint dn_text (rdns : SubjectDn) : list Z :=
  match rdns with
  | [] => []
  | [(attr, value)] => dn_label attr ++ s2b "=" ++ value
  | (attr, value) :: rest => dn_label attr ++ s2b "=" ++ value ++ s2b ", " ++ dn_text rest
  end.
Definition decode_dn_value (content : list Z) : list Z := from_utf8_lossy content.

(** One AttributeTypeAndValue. *)
Definition parse_atv (content : list Z) : result X509ParseError (DnAttr * list Z) :=
  '(oid_tlv, after_oid) ← expect_tag content 0x06;
  oid ← ok_or CertMalformed (decode_oid (t_content oid_tlv));
  '(val_tlv, _) ← read_tlv after_oid;
  Ok (from_oid oid, decode_dn_value (t_content val_tlv)).
Fixpoint parse_atvs (fuel : nat) (atv : list Z) : result X509ParseError SubjectDn :=
  match fuel, atv with
  | S fuel, _ :: _ =>
      '(seq, atv) ← expect_tag atv 0x30;
      pair ← parse_atv (t_content seq);
      rest ← parse_atvs fuel atv; Ok (pair :: rest)
  | _, _ => Ok []
  end.
Fixpoint parse_rdns (fuel : nat) (input : list Z) : result X509ParseError SubjectDn :=
  match fuel, input with
  | S fuel, _ :: _ =>
      '(set, input) ← expect_tag input 0x31;
      pairs ← parse_atvs (length (t_content set)) (t_content set);
      rest ← parse_rdns fuel input; Ok (pairs ++ rest)
  | _, _ => Ok []
  end.
Definition parse_name (input : list Z) : result X509ParseError SubjectDn := parse_rdns (length input) input.

(** * The fields of a certificate *)

(** Skips the optional version. *)
Definition skip_version (rest : list Z) : result X509ParseError (list Z) :=
  '(peek, after) ← read_tlv rest; Ok (if t_tag peek =? 0xA0 then after else rest).
(** What is left of the [tbsCertificate] from the subject on. *)
Definition to_subject (cert_der : list Z) : result X509ParseError (list Z) :=
  '(cert, _) ← expect_tag cert_der 0x30;
  '(tbs, _) ← expect_tag (t_content cert) 0x30;
  rest ← skip_version (t_content tbs);
  '(_, rest) ← expect_tag rest 0x02;
  '(_, rest) ← expect_tag rest 0x30;
  '(_, rest) ← expect_tag rest 0x30;
  '(_, rest) ← expect_tag rest 0x30;
  Ok rest.
Definition parse_subject_dn (cert_der : list Z) : result X509ParseError SubjectDn :=
  rest ← to_subject cert_der;
  '(subject, _) ← expect_tag rest 0x30;
  parse_name (t_content subject).

(** ** The key policy of an attestation *)

Definition KEY_POLICY_EXT_OID : list Z := [0x2B; 0x06; 0x01; 0x04; 0x01; 0x82; 0xC4; 0x0A; 0x03; 0x08].
Fixpoint find_key_policy_loop (fuel : nat) (input : list Z) : result X509ParseError (option (Z * Z)) :=
  match fuel, input with
  | S fuel, _ :: _ =>
      '(seq, input) ← expect_tag input 0x30;
      '(oid_tlv, after_oid) ← expect_tag (t_content seq) 0x06;
      let after_oid := match read_tlv after_oid with Ok (peek, after) => if t_tag peek =? 0x01 then after else after_oid | Err _ => after_oid end in
      '(val_tlv, _) ← expect_tag after_oid 0x04;
      if bool_decide (t_content oid_tlv = KEY_POLICY_EXT_OID)
      then match t_content val_tlv with [pin; touch] => Ok (Some (pin, touch)) | _ => Err CertMalformed end
      else find_key_policy_loop fuel input
  | _, _ => Ok None
  end.
Definition find_key_policy (input : list Z) : result X509ParseError (option (Z * Z)) := find_key_policy_loop (length input) input.
(** The fields after the key. *)
Fixpoint policy_loop (fuel : nat) (rest : list Z) : result X509ParseError (option (Z * Z)) :=
  match fuel, rest with
  | S fuel, _ :: _ =>
      '(peek, after) ← read_tlv rest;
      if (t_tag peek =? 0x81) || (t_tag peek =? 0x82) then policy_loop fuel after
      else if t_tag peek =? 0xA3 then '(exts, _) ← expect_tag (t_content peek) 0x30; find_key_policy (t_content exts)
      else Ok None
  | _, _ => Ok None
  end.
Definition parse_key_policy_extension (cert_der : list Z) : result X509ParseError (option (Z * Z)) :=
  rest ← to_subject cert_der;
  '(_, rest) ← expect_tag rest 0x30;
  '(_, rest) ← expect_tag rest 0x30;
  policy_loop (length rest) rest.

(** ** The public key *)

Definition DOT_RSA_ENCRYPTION : list Z := s2b "1.2.840.113549.1.1.1".
Definition DOT_EC_PUBLIC_KEY : list Z := s2b "1.2.840.10045.2.1".
Definition DOT_P256 : list Z := s2b "1.2.840.10045.3.1.7".
Definition DOT_P384 : list Z := s2b "1.3.132.0.34".
Definition DOT_P521 : list Z := s2b "1.3.132.0.35".
Definition DOT_ED25519 : list Z := s2b "1.3.101.112".
Definition DOT_X25519 : list Z := s2b "1.3.101.110".

Definition certificate_spki (cert_der : list Z) : result X509ParseError (list Z) :=
  rest ← to_subject cert_der;
  '(_, rest) ← expect_tag rest 0x30;
  '(_, after_spki) ← expect_tag rest 0x30;
  Ok (take (length rest - length after_spki) rest).

Definition strip_der_uint_sign_guard (content : list Z) : list Z :=
  match content with 0x00 :: (_ :: _) as rest => rest | m => m end.
Definition rsa_key_alg (spk_bytes : list Z) : result X509ParseError (option KeyAlg) :=
  '(rsa_pub, _) ← expect_tag spk_bytes 0x30;
  '(modulus, _) ← expect_tag (t_content rsa_pub) 0x02;
  let bits := zlen (strip_der_uint_sign_guard (t_content modulus)) * 8 in
  Ok (if bits =? 1024 then Some Rsa1024 else if bits =? 2048 then Some Rsa2048
      else if bits =? 3072 then Some Rsa3072 else if bits =? 4096 then Some Rsa4096 else None).
Definition curve_alg (oid : list Z) : option KeyAlg :=
  if bool_decide (oid = DOT_P256) then Some EccP256 else if bool_decide (oid = DOT_P384) then Some EccP384
  else if bool_decide (oid = DOT_P521) then Some EccP521 else None.

(** The algorithm identifier's OID and parameters, and the key's bytes. *)
Definition spki_fields (content : list Z) : result X509ParseError (list Z * list Z * list Z) :=
  '(alg_id, after_alg_id) ← expect_tag content 0x30;
  '(spk, _) ← expect_tag after_alg_id 0x03;
  '(oid_tlv, params) ← expect_tag (t_content alg_id) 0x06;
  oid ← ok_or CertMalformed (decode_oid (t_content oid_tlv));
  key_bytes ← ok_or CertTruncated (match t_content spk with [] => None | _ :: key => Some key end);
  Ok (oid, params, key_bytes).
Definition named_curve (params : list Z) : result X509ParseError (option KeyAlg) :=
  '(curve_oid_tlv, _) ← expect_tag params 0x06;
  curve_oid ← ok_or CertMalformed (decode_oid (t_content curve_oid_tlv));
  Ok (curve_alg curve_oid).

Definition spki_alg (content : list Z) : result X509ParseError (option KeyAlg) :=
  '(oid, params, key_bytes) ← spki_fields content;
  if bool_decide (oid = DOT_RSA_ENCRYPTION) then rsa_key_alg key_bytes
  else if bool_decide (oid = DOT_EC_PUBLIC_KEY) then named_curve params
  else if bool_decide (oid = DOT_ED25519) then Ok (Some Ed25519)
  else if bool_decide (oid = DOT_X25519) then Ok (Some X25519)
  else Ok None.
Definition parse_key_algorithm (cert_der : list Z) : result X509ParseError (option KeyAlg) :=
  spki ← certificate_spki cert_der;
  '(spki, _) ← expect_tag spki 0x30;
  spki_alg (t_content spki).

Definition parse_spki_content (content : list Z) : result X509ParseError (KeyAlg * PublicKey) :=
  '(oid, params, key_bytes) ← spki_fields content;
  if bool_decide (oid = DOT_RSA_ENCRYPTION) then
    alg ← rsa_key_alg key_bytes;
    alg ← ok_or CertMalformed alg;
    '(rsa_pub, _) ← expect_tag key_bytes 0x30;
    '(modulus, after_modulus) ← expect_tag (t_content rsa_pub) 0x02;
    '(exponent, _) ← expect_tag after_modulus 0x02;
    Ok (alg, Rsa (strip_der_uint_sign_guard (t_content modulus)) (strip_der_uint_sign_guard (t_content exponent)))
  else if bool_decide (oid = DOT_EC_PUBLIC_KEY) then
    alg ← named_curve params; alg ← ok_or CertMalformed alg; Ok (alg, Ecc key_bytes)
  else if bool_decide (oid = DOT_ED25519) then Ok (Ed25519, Ecc key_bytes)
  else if bool_decide (oid = DOT_X25519) then Ok (X25519, Ecc key_bytes)
  else Err CertMalformed.
Definition parse_subject_public_key_info (der : list Z) : result X509ParseError (KeyAlg * PublicKey) :=
  '(spki, _) ← expect_tag der 0x30; parse_spki_content (t_content spki).
Definition parse_certificate_public_key (cert_der : list Z) : result X509ParseError (KeyAlg * PublicKey) :=
  spki ← certificate_spki cert_der; parse_subject_public_key_info spki.

(** * Reading what is written *)

(** ** Lengths *)

Lemma len_bytes_be k : forall n fuel acc, (k <= fuel)%nat -> 0 <= n < 256 ^ Z.of_nat k -> (k = 0%nat \/ 256 ^ (Z.of_nat k - 1) <= n) ->
  len_bytes fuel n acc = to_be k n ++ acc.
Proof.
  induction k as [|k IH]; intros n fuel acc Hf Hn Hmin.
  - change (256 ^ Z.of_nat 0) with 1 in Hn. assert (n = 0) as -> by lia. by destruct fuel.
  - destruct fuel as [|fuel]; [lia|]. rewrite Nat2Z.inj_succ, Z.pow_succ_r in Hn by lia.
    destruct Hmin as [|Hmin]; [lia|]. replace (Z.of_nat (S k) - 1) with (Z.of_nat k) in Hmin by lia.
    assert (0 < n) by (pose proof (Z.pow_pos_nonneg 256 (Z.of_nat k)); lia).
    cbn [len_bytes]. rewrite (proj2 (Z.eqb_neq n 0)) by lia. change 0xFF with (2 ^ 8 - 1).
    rewrite land_ones_mod, Z.shiftr_div_pow2 by lia. rewrite IH; [|lia|split; [apply Z.div_pos|apply Z.div_lt_upper_bound]; lia|].
    + unfold to_be. cbn [to_le rev]. by rewrite <- app_assoc.
    + destruct k as [|k]; [by left|right]. apply Z.div_le_lower_bound; [lia|]. change (2 ^ 8) with 256.
      rewrite <- Z.pow_succ_r by lia. by replace (Z.succ (Z.of_nat (S k) - 1)) with (Z.of_nat (S k)) by lia.
Qed.
Lemma long_len_be bytes : forall rest len, Bytes bytes -> 0 <= len ->
  long_len (length bytes) (bytes ++ rest) len = Ok (len * 2 ^ (8 * zlen bytes) + from_be bytes).
Proof.
  induction bytes as [|b bytes IH]; intros rest len Hb Hl.
  - cbn [long_len length app]. f_equal. change (len = len * 1 + 0). lia.
  - inversion Hb as [|? ? Hx Hxs]; subst. unfold is_byte in Hx. cbn [long_len length app]. rewrite lor_shiftl_add, IH by (done || lia).
    f_equal. rewrite from_be_cons. zlen. replace (8 * (1 + zlen bytes)) with (8 + 8 * zlen bytes) by lia.
    pose proof (zlen_nonneg bytes). rewrite Z.pow_add_r by lia. change (2 ^ 8) with 256. ring.
Qed.

Lemma der_len_long n : 0x80 <= n < 2 ^ 32 ->
  exists k, (1 <= k <= 4)%nat /\ 256 ^ (Z.of_nat k - 1) <= n < 256 ^ Z.of_nat k.
Proof.
  intros Hn. destruct (Z.ltb_spec n (2 ^ 8)); [exists 1%nat; change (256 ^ _) with 1 at 1; cbn; lia|].
  destruct (Z.ltb_spec n (2 ^ 16)); [exists 2%nat; cbn; lia|].
  destruct (Z.ltb_spec n (2 ^ 24)); [exists 3%nat; cbn; lia|]. exists 4%nat. cbn. lia.
Qed.
(** A length below 2^32 is written and read back. *)
Lemma der_len_read n rest : 0 <= n < 2 ^ 32 ->
  exists b bytes, der_len n = b :: bytes /\ read_len b (bytes ++ rest) = Ok (n, 2 + zlen bytes).
Proof.
  intros Hn. unfold der_len, read_len. destruct (Z.ltb_spec n 0x80).
  { exists n, []. split; [done|]. change 0x80 with (2 ^ 7). replace (Z.land n (2 ^ 7)) with 0; [done|].
    replace n with (Z.land n (2 ^ 7 - 1)); [by rewrite <- Z.land_assoc, Z.land_0_r|]. rewrite land_ones_mod by lia. apply Z.mod_small. lia. }
  destruct (der_len_long n) as (k & Hk & Hb); [lia|]. rewrite (len_bytes_be k), app_nil_r by (lia || (right; lia)). rewrite zlen_to_be.
  exists (Z.lor 0x80 (Z.of_nat k)), (to_be k n). split; [done|].
  assert (Z.land (Z.lor 128 (Z.of_nat k)) 128 =? 0 = false /\ Z.land (Z.lor 128 (Z.of_nat k)) 127 = Z.of_nat k) as [-> ->]
    by (assert (k = 1 \/ k = 2 \/ k = 3 \/ k = 4)%nat as [-> | [-> | [-> | ->]]] by lia; done).
  cbn zeta. rewrite (proj2 (Z.eqb_neq (Z.of_nat k) 0)), (proj2 (Z.ltb_ge 4 (Z.of_nat k))) by lia. cbn [orb].
  rewrite Nat2Z.id. rewrite <- (length_to_be k n) at 1. rewrite long_len_be by (apply to_be_bytes || lia). cbn [mbind result_bind].
  rewrite zlen_to_be, from_be_to_be_small; [done|]. split; [lia|].
  replace (2 ^ (8 * Z.of_nat k)) with (256 ^ Z.of_nat k); [lia|]. by rewrite Z.pow_mul_r by lia.
Qed.

(** Every TLV read back, whatever follows it. *)
Lemma read_tlv_der tag v rest : zlen v < 2 ^ 32 -> read_tlv (der_tlv tag v ++ rest) = Ok (mkTlv tag v, rest).
Proof.
  intros Hv. destruct (der_len_read (zlen v) (v ++ rest)) as (b & bytes & He & Hr); [split; [apply zlen_nonneg|done]|].
  unfold read_tlv, der_tlv. rewrite He.
  replace ((tag :: (b :: bytes) ++ v) ++ rest) with ((tag :: b :: bytes) ++ v ++ rest) by (cbn; by rewrite app_assoc).
  change (((tag :: b :: bytes) ++ v ++ rest) !! 0%nat) with (Some tag). change (((tag :: b :: bytes) ++ v ++ rest) !! 1%nat) with (Some b).
  cbn [ok_or mbind result_bind]. change (drop 2 ((tag :: b :: bytes) ++ v ++ rest)) with (bytes ++ v ++ rest). rewrite Hr.
  cbn [mbind result_bind]. pose proof (zlen_nonneg rest). pose proof (zlen_nonneg v). pose proof (zlen_nonneg bytes).
  rewrite (proj2 (Z.ltb_ge _ _)) by (zlen; lia).
  replace (Z.to_nat (2 + zlen bytes)) with (length (tag :: b :: bytes)) by (cbn; unfold zlen; lia).
  replace (Z.to_nat (2 + zlen bytes + zlen v)) with (length (tag :: b :: bytes) + length v)%nat by (cbn; unfold zlen; lia).
  by rewrite slice_app, drop_app_add, drop_app_length.
Qed.

(** An input short enough for four length octets. *)
Definition readable (input : list Z) : Prop := zlen input < 2 ^ 32.
Lemma expect_der tag v rest : readable (der_tlv tag v ++ rest) ->
  expect_tag (der_tlv tag v ++ rest) tag = Ok (mkTlv tag v, rest) /\ readable v /\ readable rest.
Proof.
  unfold readable. intros H. assert (zlen v < 2 ^ 32 /\ zlen rest < 2 ^ 32).
  { unfold der_tlv in H. zlen. pose proof (zlen_nonneg rest). pose proof (zlen_nonneg v).
    pose proof (zlen_nonneg (der_len (zlen v))). lia. }
  split; [|done]. unfold expect_tag. rewrite read_tlv_der by easy. cbn [mbind result_bind t_tag]. by rewrite Z.eqb_refl.
Qed.
Lemma peek_der tag v rest : readable (der_tlv tag v ++ rest) -> read_tlv (der_tlv tag v ++ rest) = Ok (mkTlv tag v, rest).
Proof.
  intros H. destruct (expect_der tag v rest H) as (_ & Hv & _). by apply read_tlv_der.
Qed.

(** Reads the next TLV of a readable input. *)
Ltac der_step H :=
  let E := fresh in let Hv := fresh "Hv" in let Hr := fresh "Hr" in
  destruct (expect_der _ _ _ H) as (E & Hv & Hr); rewrite E; cbn [mbind result_bind t_content]; clear E.

(** ** The fields *)

Lemma signature_algorithm_seq alg l : signature_algorithm alg = Ok l -> exists v, l = der_tlv 0x30 v.
Proof. intros H. exists (drop 2 l). by destruct alg; revert H; intros [= <-]. Qed.
Lemma der_uint_tlv bytes : exists v, der_uint bytes = der_tlv 0x02 v.
Proof. by eexists. Qed.
Lemma extensions_fields ku exts :
  (match ku with Some ku => exts ← extensions_der ku; Ok [der_tlv 0xA3 exts] | None => Ok [] end) = @Ok X509Error _ exts ->
  match ku with
  | None => concat exts = []
  | Some ku => exists ext, extension_der (ku_usages ku) (ku_critical ku) = Ok ext /\ concat exts = der_tlv 0xA3 (der_seq [ext])
  end.
Proof.
  destruct ku as [ku|]; [|by intros [= <-]]. unfold extensions_der. intros H. inv_bind H. inv_bind Hb.
  injection Hb as <-. injection H as <-. exists a0. split; [done|]. cbn [concat]. by rewrite app_nil_r.
Qed.
Lemma certificate_fields serial alg subject nb na spki ku sig tbs der :
  tbs_certificate serial alg subject nb na spki ku = Ok tbs -> assemble tbs alg sig = Ok der -> readable der ->
  exists exts, to_subject der = Ok (subject_der subject ++ spki ++ exts) /\ readable (subject_der subject ++ spki ++ exts) /\
    match ku with
    | None => exts = []
    | Some ku => exists ext, extension_der (ku_usages ku) (ku_critical ku) = Ok ext /\ exts = der_tlv 0xA3 (der_seq [ext])
    end.
Proof.
  unfold tbs_certificate, assemble. intros Ht Ha Hr. destruct (na <=? nb); [done|]. inv_bind Ht. inv_bind Ht. inv_bind Ha.
  destruct (signature_algorithm_seq _ _ Hb) as (va & ->). apply extensions_fields in Hb0.
  injection Ht as <-. injection Ha as <-. exists (concat a0). unfold der_seq in Hr |- *.
  assert (forall t v, der_tlv t v = der_tlv t v ++ []) as Ep by (intros; by rewrite app_nil_r).
  unfold to_subject. rewrite Ep in Hr |- *. der_step Hr. cbn [concat] in Hv |- *. der_step Hv.
  unfold skip_version. rewrite peek_der by done. destruct (expect_der _ _ _ Hv0) as (_ & _ & Hs).
  cbn [mbind result_bind t_tag]. change (160 =? 160) with true. cbn [mbind result_bind].
  destruct (der_uint_tlv serial) as (vs & Es). rewrite Es in Hs |- *. der_step Hs. der_step Hr2. unfold subject_der at 1 in Hr3.
  unfold subject_der at 1. der_step Hr3. der_step Hr4. done.
Qed.

(** ** The subject *)

Definition dn_attr (a : NameAttr) : DnAttr :=
  match a with
  | CommonName => DnCommonName | Organization => DnOrganization | OrganizationalUnit => DnOrganizationalUnit
  | Country => DnCountry | Locality => DnLocality | StateOrProvince => DnStateOrProvince
  end.
Definition dn_of (s : SubjectName) : SubjectDn := map (fun '(a, v) => (dn_attr a, v)) s.
Definition text_values (s : SubjectName) : Prop := Forall (fun '(_, v) => Bytes v /\ is_str v) s.

Lemma parse_atv_der a v tag rest : Bytes v -> is_str v -> readable (name_oid a ++ der_tlv tag v ++ rest) ->
  parse_atv (name_oid a ++ der_tlv tag v ++ rest) = Ok (dn_attr a, v).
Proof.
  intros Hb Hs. unfold parse_atv. replace (name_oid a) with (der_tlv 0x06 (drop 2 (name_oid a))) by (by destruct a). intros Hr.
  der_step Hr. rewrite peek_der by done.
  replace (decode_oid (drop 2 (name_oid a))) with (Some (match a with
    | CommonName => s2b "2.5.4.3" | Organization => s2b "2.5.4.10" | OrganizationalUnit => s2b "2.5.4.11"
    | Country => s2b "2.5.4.6" | Locality => s2b "2.5.4.7" | StateOrProvince => s2b "2.5.4.8" end)) by (by destruct a).
  cbn [ok_or mbind result_bind t_content]. unfold decode_dn_value. rewrite from_utf8_lossy_str by done. by destruct a.
Qed.
Lemma parse_rdns_der s : forall fuel, text_values s -> readable (concat (map rdn_der s)) -> (length s <= fuel)%nat ->
  parse_rdns fuel (concat (map rdn_der s)) = Ok (dn_of s).
Proof.
  induction s as [|[a v] s IH]; intros fuel Ht Hr Hf; [by destruct fuel|]. destruct fuel as [|fuel]; [cbn in Hf; lia|].
  apply list.Forall_cons in Ht as [[Hb Hs] Hts]. cbn [map concat] in Hr |- *. unfold rdn_der at 1 in Hr. unfold rdn_der at 1.
  set (rest := concat (map rdn_der s)) in *. set (tag := if bool_decide (a = Country) then 0x13 else 0x0C) in *.
  unfold der_seq in *. cbn [concat] in *.
  destruct (expect_der _ _ _ Hr) as (E & Hv & Hr'). cbn [parse_rdns].
  destruct (der_tlv 0x31 (der_tlv 0x30 (name_oid a ++ der_tlv tag v ++ [])) ++ rest) as [|x l] eqn:El; [done|].
  rewrite E. cbn [mbind result_bind t_content]. clear E.
  assert (forall n, n <> 0%nat -> parse_atvs n (der_tlv 0x30 (name_oid a ++ der_tlv tag v ++ [])) = Ok [(dn_attr a, v)]) as ->.
  - intros [|n] Hn; [done|]. rewrite <- (app_nil_r (der_tlv 0x30 _)) in Hv |- *. cbn [parse_atvs].
    destruct (expect_der _ _ _ Hv) as (E & Hv1 & _). destruct (der_tlv 0x30 _ ++ []) eqn:Ex; [done|]. rewrite E.
    cbn [mbind result_bind t_content]. rewrite parse_atv_der by done. cbn [mbind result_bind]. by destruct n.
  - cbn [mbind result_bind]. rewrite (IH fuel) by (done || (cbn in Hf; lia)). done.
  - done.
Qed.
Lemma parse_subject_der s rest : text_values s -> readable (subject_der s ++ rest) ->
  exists tlv, expect_tag (subject_der s ++ rest) 0x30 = Ok (tlv, rest) /\ readable rest /\ parse_name (t_content tlv) = Ok (dn_of s).
Proof.
  intros Ht. unfold subject_der. intros Hr. destruct (expect_der _ _ _ Hr) as (E & Hv & Hr'). eexists. split_and!; [done..|].
  cbn [t_content]. apply parse_rdns_der; [done..|]. clear. induction s as [|[a v] s IH]; [done|]. cbn [map concat length]. rewrite length_app.
  unfold rdn_der at 1. unfold der_tlv at 1. cbn [length]. lia.
Qed.

(** ** The public key *)

(** The key as the certificate carries it, without leading zeros. *)
Definition canonical (key : PublicKey) : PublicKey :=
  match key with Rsa m e => Rsa (uint_bytes m) (uint_bytes e) | Ecc p => Ecc p end.
(** An RSA modulus as long as its algorithm says. *)
Definition modulus_fits (key : PublicKey) (alg : KeyAlg) : Prop :=
  match key, alg with
  | Rsa m _, Rsa1024 => zlen (uint_bytes m) = 128
  | Rsa m _, Rsa2048 => zlen (uint_bytes m) = 256
  | Rsa m _, Rsa3072 => zlen (uint_bytes m) = 384
  | Rsa m _, Rsa4096 => zlen (uint_bytes m) = 512
  | _, _ => True
  end.

Lemma strip_zeros_head v : match strip_zeros v with 0 :: _ :: _ => False | _ => True end.
Proof.
  induction v as [|b v IH]; [done|]. destruct v as [|c v]; [by destruct b|].
  destruct b; [exact IH|done..].
Qed.
Lemma sign_guard v : strip_der_uint_sign_guard ((if top_bit_set (uint_bytes v) then [0x00] else []) ++ uint_bytes v) = uint_bytes v.
Proof.
  unfold uint_bytes. pose proof (strip_zeros_head v) as H. destruct (strip_zeros v) as [|b l]; [done|].
  destruct (top_bit_set (b :: l)); [done|]. cbn [app]. destruct b, l; done.
Qed.

Lemma spki_fields_der oidv params bytes : readable (der_tlv 0x30 (der_tlv 0x06 oidv ++ params) ++ der_bitstring bytes ++ []) ->
  spki_fields (der_tlv 0x30 (der_tlv 0x06 oidv ++ params) ++ der_bitstring bytes ++ []) =
    (oid ← ok_or CertMalformed (decode_oid oidv); Ok (oid, params, bytes)) /\ readable bytes /\ readable params.
Proof.
  intros H. unfold spki_fields, der_bitstring in *. der_step H. der_step Hr. der_step Hv. split; [|split; [|done]].
  - by destruct (decode_oid oidv).
  - unfold readable in *. zlen. lia.
Qed.
Lemma rsa_public_der m e : readable (der_seq [der_uint m; der_uint e]) ->
  exists pub after tm te after',
    expect_tag (der_seq [der_uint m; der_uint e]) 0x30 = Ok (pub, []) /\ expect_tag (t_content pub) 0x02 = Ok (tm, after) /\
    expect_tag after 0x02 = Ok (te, after') /\ strip_der_uint_sign_guard (t_content tm) = uint_bytes m /\
    strip_der_uint_sign_guard (t_content te) = uint_bytes e.
Proof.
  unfold der_seq, der_uint. cbn [concat]. rewrite <- (app_nil_r (der_tlv 0x30 _)). intros H.
  destruct (expect_der _ _ _ H) as (E1 & H1 & _). destruct (expect_der _ _ _ H1) as (E2 & _ & H2).
  destruct (expect_der _ _ _ H2) as (E3 & _ & _). do 5 eexists. split_and!; [exact E1|exact E2|exact E3|apply sign_guard..].
Qed.
Lemma rsa_key_alg_der m e alg : readable (der_seq [der_uint m; der_uint e]) -> modulus_fits (Rsa m e) alg ->
  In alg [Rsa1024; Rsa2048; Rsa3072; Rsa4096] -> rsa_key_alg (der_seq [der_uint m; der_uint e]) = Ok (Some alg).
Proof.
  intros Hr Hf Hi. destruct (rsa_public_der m e Hr) as (pub & after & tm & te & after' & E1 & E2 & _ & E3 & _).
  unfold rsa_key_alg. rewrite E1. cbn [mbind result_bind]. rewrite E2. cbn [mbind result_bind]. rewrite E3.
  destruct Hi as [<- | [<- | [<- | [<- | []]]]]; cbn [modulus_fits] in Hf; by rewrite Hf.
Qed.

Lemma rsa_spki_read m e alg : let content := der_seq [OID_RSA_ENCRYPTION; DER_NULL] ++ der_bitstring (der_seq [der_uint m; der_uint e]) ++ [] in
  modulus_fits (Rsa m e) alg -> In alg [Rsa1024; Rsa2048; Rsa3072; Rsa4096] -> readable content ->
  spki_alg content = Ok (Some alg) /\ parse_spki_content content = Ok (alg, Rsa (uint_bytes m) (uint_bytes e)).
Proof.
  intros content Hf Hi Hr. subst content.
  replace (der_seq [OID_RSA_ENCRYPTION; DER_NULL]) with (der_tlv 0x30 (der_tlv 0x06 (drop 2 OID_RSA_ENCRYPTION) ++ DER_NULL)) in * by done.
  destruct (spki_fields_der _ _ _ Hr) as (E & Hb & _). unfold spki_alg, parse_spki_content. rewrite E.
  replace (decode_oid (drop 2 OID_RSA_ENCRYPTION)) with (Some DOT_RSA_ENCRYPTION) by done. cbn [ok_or mbind result_bind].
  change (bool_decide (DOT_RSA_ENCRYPTION = DOT_RSA_ENCRYPTION)) with true. cbn iota. rewrite (rsa_key_alg_der m e alg) by done.
  cbn [ok_or mbind result_bind]. split; [done|]. destruct (rsa_public_der m e Hb) as (pub & after & tm & te & after' & E1 & E2 & E3 & E4 & E5).
  rewrite E1. cbn [mbind result_bind]. rewrite E2. cbn [mbind result_bind]. rewrite E3. cbn [mbind result_bind]. by rewrite E4, E5.
Qed.
Lemma curve_spki_read curve p alg : let content := der_seq [OID_EC_PUBLIC_KEY; curve] ++ der_bitstring p ++ [] in
  (exists oidv, curve = der_tlv 0x06 oidv /\ exists oid, decode_oid oidv = Some oid /\ curve_alg oid = Some alg) -> readable content ->
  spki_alg content = Ok (Some alg) /\ parse_spki_content content = Ok (alg, Ecc p).
Proof.
  intros content (oidv & -> & oid & Eo & Ea) Hr. subst content.
  replace (der_seq [OID_EC_PUBLIC_KEY; der_tlv 0x06 oidv]) with (der_tlv 0x30 (der_tlv 0x06 (drop 2 OID_EC_PUBLIC_KEY) ++ der_tlv 0x06 oidv ++ [])) in * by done.
  destruct (spki_fields_der _ _ _ Hr) as (E & _ & Hp). destruct (expect_der _ _ _ Hp) as (Ec & _).
  unfold spki_alg, parse_spki_content. rewrite E.
  replace (decode_oid (drop 2 OID_EC_PUBLIC_KEY)) with (Some DOT_EC_PUBLIC_KEY) by done.
  cbn [ok_or mbind result_bind]. change (bool_decide (DOT_EC_PUBLIC_KEY = DOT_RSA_ENCRYPTION)) with false.
  change (bool_decide (DOT_EC_PUBLIC_KEY = DOT_EC_PUBLIC_KEY)) with true. cbn iota. unfold named_curve. rewrite Ec.
  cbn [mbind result_bind t_content]. rewrite Eo. cbn [ok_or mbind result_bind]. by rewrite Ea.
Qed.
Lemma eddsa_spki_read oidv p alg : let content := der_seq [der_tlv 0x06 oidv] ++ der_bitstring p ++ [] in
  (decode_oid oidv = Some DOT_ED25519 /\ alg = Ed25519) \/ (decode_oid oidv = Some DOT_X25519 /\ alg = X25519) -> readable content ->
  spki_alg content = Ok (Some alg) /\ parse_spki_content content = Ok (alg, Ecc p).
Proof.
  intros content Ha Hr. subst content. change (der_seq [der_tlv 0x06 oidv]) with (der_tlv 0x30 (der_tlv 0x06 oidv ++ [])) in *.
  destruct (spki_fields_der _ _ _ Hr) as (E & _ & _). unfold spki_alg, parse_spki_content. rewrite E.
  by destruct Ha as [[-> ->]|[-> ->]].
Qed.
Lemma readable_tlv tag v : readable (der_tlv tag v) -> readable v.
Proof. rewrite <- (app_nil_r (der_tlv tag v)). intros H. apply (expect_der _ _ _ H). Qed.
Lemma spki_read key alg spki : subject_public_key_info key alg = Ok spki -> modulus_fits key alg -> readable spki ->
  exists content, spki = der_tlv 0x30 content /\ spki_alg content = Ok (Some alg) /\ parse_spki_content content = Ok (alg, canonical key).
Proof.
  intros Hk Hf Hr. destruct key as [m e|p].
  - assert (spki = der_seq [der_seq [OID_RSA_ENCRYPTION; DER_NULL]; der_bitstring (der_seq [der_uint m; der_uint e])] /\
      In alg [Rsa1024; Rsa2048; Rsa3072; Rsa4096]) as [-> Hi] by (destruct alg; try done; injection Hk as <-; cbn; tauto).
    eexists. split; [done|]. apply rsa_spki_read; [done..|]. by apply readable_tlv in Hr.
  - destruct alg; try done; injection Hk as <-; (eexists; split; [reflexivity|]); apply readable_tlv in Hr.
    + apply (curve_spki_read OID_P256); [|done]. exists (drop 2 OID_P256). split; [done|]. by exists DOT_P256.
    + apply (curve_spki_read OID_P384); [|done]. exists (drop 2 OID_P384). split; [done|]. by exists DOT_P384.
    + apply (curve_spki_read OID_P521); [|done]. exists (drop 2 OID_P521). split; [done|]. by exists DOT_P521.
    + apply (eddsa_spki_read (drop 2 OID_ED25519)); [by left|done].
    + apply (eddsa_spki_read (drop 2 OID_X25519)); [by right|done].
Qed.

(** ** The extensions *)

Lemma extension_tlvs usages critical ext : extension_der usages critical = Ok ext ->
  exists crit v, ext = der_tlv 0x30 (der_tlv 0x06 [0x55; 0x1D; 0x0F] ++ crit ++ der_tlv 0x04 v) /\ (crit = [] \/ exists c, crit = der_tlv 0x01 c).
Proof.
  unfold extension_der. destruct (ku_is_valid usages); [|done]. cbn [negb]. destruct (negb _).
  all: destruct critical; intros [= <-]; [eexists (der_tlv 0x01 [0xFF]), _|eexists [], _].
  all: cbn [concat der_seq]; unfold der_seq; cbn [concat]; rewrite ?app_nil_r; split; [reflexivity|]; first [by left|by right; eexists].
Qed.
Lemma find_no_policy usages critical ext : extension_der usages critical = Ok ext -> readable ext -> find_key_policy ext = Ok None.
Proof.
  intros He Hr. destruct (extension_tlvs _ _ _ He) as (crit & v & -> & Hc). unfold find_key_policy. rewrite <- (app_nil_r (der_tlv 0x30 _)) in Hr.
  destruct (expect_der _ _ _ Hr) as (E & Hv & _). rewrite app_nil_r in E.
  set (content := der_tlv 0x06 _ ++ _) in *. destruct (length (der_tlv 0x30 content)) eqn:El; [done|]. cbn [find_key_policy_loop].
  destruct (der_tlv 0x30 content) eqn:Ex; [done|]. rewrite E. cbn [mbind result_bind t_content]. subst content.
  destruct (expect_der _ _ _ Hv) as (E1 & _ & Hv1). rewrite E1. cbn [mbind result_bind t_content].
  assert (exists after, (match read_tlv (crit ++ der_tlv 0x04 v) with
    Ok (peek, after) => if t_tag peek =? 0x01 then after else crit ++ der_tlv 0x04 v | Err _ => crit ++ der_tlv 0x04 v end) = after ++ [] /\ after = der_tlv 0x04 v) as (after & -> & ->).
  { exists (der_tlv 0x04 v). split; [|done]. rewrite app_nil_r. destruct Hc as [-> | (c & ->)].
    - cbn [app] in Hv1 |- *. rewrite <- (app_nil_r (der_tlv _ _)) in Hv1. rewrite <- (app_nil_r (der_tlv 0x04 v)) at 1. by rewrite peek_der.
    - by rewrite peek_der. }
  assert (readable (der_tlv 0x04 v ++ [])) as Hw by (rewrite app_nil_r; destruct Hc as [-> | (c & ->)]; [done|apply (expect_der _ _ _ Hv1)]).
  destruct (expect_der _ _ _ Hw) as (E2 & _). rewrite E2. cbn [mbind result_bind t_content].
  change (bool_decide ([0x55; 0x1D; 0x0F] = KEY_POLICY_EXT_OID)) with false. cbn iota. by destruct n.
Qed.
Lemma policy_none usages critical ext : extension_der usages critical = Ok ext -> readable (der_tlv 0xA3 (der_seq [ext])) ->
  policy_loop (length (der_tlv 0xA3 (der_seq [ext]))) (der_tlv 0xA3 (der_seq [ext])) = Ok None.
Proof.
  intros He Hr. rewrite <- (app_nil_r (der_tlv 0xA3 _)) in Hr. pose proof (peek_der _ _ _ Hr) as E.
  destruct (expect_der _ _ _ Hr) as (_ & Hv & _). rewrite app_nil_r in E. destruct (length (der_tlv 0xA3 _)) eqn:El; [done|].
  cbn [policy_loop]. destruct (der_tlv 0xA3 _) eqn:Ex; [done|]. rewrite E. cbn [mbind result_bind t_tag t_content].
  change ((163 =? 129) || (163 =? 130)) with false. change (163 =? 163) with true. cbn iota.
  unfold der_seq in *. cbn [concat] in *. rewrite app_nil_r in *. rewrite <- (app_nil_r (der_tlv 0x30 _)) in Hv.
  destruct (expect_der _ _ _ Hv) as (E1 & Hx & _). rewrite app_nil_r in E1. rewrite E1. cbn [mbind result_bind t_content].
  by apply (find_no_policy usages critical).
Qed.

(** ** The whole certificate *)

(** C15: a certificate built for a key, from its SubjectPublicKeyInfo to the assembled DER
    and for every serial, subject, validity, key usage and signature, reads back: its key
    and algorithm are the ones it was made for (an RSA number without its leading zeros),
    its subject is the one given, and no key policy is found in it. An RSA modulus
    has the length its algorithm names, and the certificate is shorter than 4 GiB. *)
Theorem certificate_roundtrip key alg serial subject nb na ku sig spki tbs der :
  modulus_fits key alg -> text_values subject -> subject_public_key_info key alg = Ok spki ->
  tbs_certificate serial alg subject nb na spki ku = Ok tbs -> assemble tbs alg sig = Ok der -> zlen der < 2 ^ 32 ->
  certificate_spki der = Ok spki /\ parse_certificate_public_key der = Ok (alg, canonical key) /\
  parse_key_algorithm der = Ok (Some alg) /\ parse_subject_dn der = Ok (dn_of subject) /\ parse_key_policy_extension der = Ok None.
Proof.
  intros Hf Ht Hk Htbs Ha Hr. destruct (certificate_fields _ _ _ _ _ _ _ _ _ _ Htbs Ha Hr) as (exts & Es & Hs & Hx).
  destruct (parse_subject_der _ _ Ht Hs) as (sub & E1 & Hs1 & En).
  assert (readable spki) as Hspki by (unfold readable in *; zlen; pose proof (zlen_nonneg exts); lia).
  destruct (spki_read _ _ _ Hk Hf Hspki) as (content & -> & Ealg & Ekey). destruct (expect_der _ _ _ Hs1) as (E2 & _ & Hs2).
  pose proof Hspki as Hspki'. rewrite <- (app_nil_r (der_tlv 0x30 _)) in Hspki'. destruct (expect_der _ _ _ Hspki') as (E3 & _ & _).
  rewrite app_nil_r in E3.
  assert (certificate_spki der = Ok (der_tlv 0x30 content)) as Ec.
  { unfold certificate_spki. rewrite Es. cbn [mbind result_bind]. rewrite E1. cbn [mbind result_bind]. rewrite E2. cbn [mbind result_bind].
    rewrite length_app, Nat.add_sub. by rewrite take_app_length. }
  split; [done|]. unfold parse_certificate_public_key, parse_key_algorithm, parse_subject_public_key_info. rewrite Ec.
  cbn [mbind result_bind]. rewrite E3. cbn [mbind result_bind t_content]. split; [done|]. split; [done|].
  unfold parse_subject_dn, parse_key_policy_extension. rewrite Es. cbn [mbind result_bind]. rewrite E1. cbn [mbind result_bind].
  split; [done|]. rewrite E2. cbn [mbind result_bind]. destruct ku as [ku|].
  - destruct Hx as (ext & Hx & ->). by apply (policy_none _ _ _ Hx).
  - by subst exts.
Qed.

(** A self-signed P-256 certificate with a critical key usage. *)
Definition sample_point : list Z := 0x04 :: replicate 64 0xA5.
Definition sample_spki : list Z := ec_spki OID_P256 sample_point.
Definition sample_subject : SubjectName := [(CommonName, s2b "Jos" ++ [0xC3; 0xA9]); (Country, s2b "FR")].
Definition sample_tbs : list Z :=
  match tbs_certificate [0x00; 0x9F; 0x01] EccP256 sample_subject 1735689600 1767225600 sample_spki (Some (mkKeyUsage DIGITAL_SIGNATURE true)) with
  | Ok tbs => tbs | Err _ => [] end.
Definition sample_cert : list Z := match assemble sample_tbs EccP256 (replicate 70 0x11) with Ok der => der | Err _ => [] end.
Lemma certificate_roundtrip_witness :
  parse_certificate_public_key sample_cert = Ok (EccP256, Ecc sample_point) /\
  parse_subject_dn sample_cert = Ok [(DnCommonName, s2b "Jos" ++ [0xC3; 0xA9]); (DnCountry, s2b "FR")].
Proof.
  assert (text_values sample_subject) as Ht.
  { unfold text_values, sample_subject. apply list.Forall_cons. split; [split; by_decision|]. apply list.Forall_cons. split; [split; by_decision|].
    by apply list.Forall_nil. }
  destruct (certificate_roundtrip (Ecc sample_point) EccP256 [0x00; 0x9F; 0x01] sample_subject 1735689600 1767225600
    (Some (mkKeyUsage DIGITAL_SIGNATURE true)) (replicate 70 0x11) sample_spki sample_tbs sample_cert) as (_ & H1 & _ & H2 & _);
    [exact I|exact Ht|vm_compute; reflexivity..|]. exact (conj H1 H2).
Defined.
