(* ===== verification/PivSend.v ===== *)
(** keyroost-transport/src/piv.rs: the errors of a PIV session, and how the long
    commands that write (certificates, private keys) are sent: in one APDU or in a
    chain, again in a chain after a refusal or a failure of the reader, and as a
    gzip member. What sends one APDU is a parameter, as in the source; so are the
    trace and the compressor. Then what a write leaves on the card, and what its answer
    says of it. *)
From S2P Require Export Applet.
From S2P Require Export PivData X509 Gzip.
From S2P Require Export IsoRead Words.

(** * Errors *)

(** The variants of [TransportError] piv.rs makes, and those of the exchange. *)
Inductive PivError (PE : Type) :=
  | VTransport (e : TransportError PE)
  | VParse (e : PivTlv.ParseError)
  | NoPivApplet
  | PivManagementAuthFailed
  | PivPinProtectedKeyNotSet
  | PivManagementKeyDeleteUnsupported
  | PivPinRejected (tries_remaining : option Z)
  | PivSecurityNotSatisfied
  | PivBadKeyLength
  | PivBadPinLength
  | PivResetNotAllowed
  | PivResetUnsupported
  | PivResetNeedsManagementAuth
  | PivResetManagementKeyMustBe3Des (alg : MgmtAlg)
  | PivResetUnverifiedFailed (e : PivError PE)
  | PivResetForcedFailed (e : PivError PE)
  | PivResetGlobalFailed (e : PivError PE)
  | PivResetManagementAuthFailed (e : PivError PE)
  | PivResetIncomplete (what : list Z)
  | PivPukGuessAccepted
  | PivDestinationOccupied (slot : Slot)
  | PivCertUnreadable (slot : Slot) (reason : CertUnreadable)
  | PivCertTooLarge (slot : Slot) (len : Z) (compressed_len : option Z)
  | PivCertReadbackMismatch (slot : Slot)
  | PivCardFull (slot : Slot)
  | PivDeleteKeyAlgorithmUnknown (slot : Slot)
  | PivDeleteKeyHidCrescendoGenericFailed (e : PivError PE)
  | PivImportCertificateKeyMismatch (slot : Slot)
  | PivImportCertificateAlgorithmMismatch (slot : Slot) (slot_algorithm cert_algorithm : KeyAlg)
  | VX509 (e : X509Error)
  | PivWriteUnconfirmed (e : PivError PE).
Arguments VTransport {PE} e.
Arguments VParse {PE} e.
Arguments NoPivApplet {PE}.
Arguments PivManagementAuthFailed {PE}.
Arguments PivPinProtectedKeyNotSet {PE}.
Arguments PivManagementKeyDeleteUnsupported {PE}.
Arguments PivPinRejected {PE} tries_remaining.
Arguments PivSecurityNotSatisfied {PE}.
Arguments PivBadKeyLength {PE}.
Arguments PivBadPinLength {PE}.
Arguments PivResetNotAllowed {PE}.
Arguments PivResetUnsupported {PE}.
Arguments PivResetNeedsManagementAuth {PE}.
Arguments PivResetManagementKeyMustBe3Des {PE} alg.
Arguments PivResetUnverifiedFailed {PE} e.
Arguments PivResetForcedFailed {PE} e.
Arguments PivResetGlobalFailed {PE} e.
Arguments PivResetManagementAuthFailed {PE} e.
Arguments PivResetIncomplete {PE} what.
Arguments PivPukGuessAccepted {PE}.
Arguments PivDestinationOccupied {PE} slot.
Arguments PivCertUnreadable {PE} slot reason.
Arguments PivCertTooLarge {PE} slot len compressed_len.
Arguments PivCertReadbackMismatch {PE} slot.
Arguments PivCardFull {PE} slot.
Arguments PivDeleteKeyAlgorithmUnknown {PE} slot.
Arguments PivDeleteKeyHidCrescendoGenericFailed {PE} e.
Arguments PivImportCertificateKeyMismatch {PE} slot.
Arguments PivImportCertificateAlgorithmMismatch {PE} slot slot_algorithm cert_algorithm.
Arguments VX509 {PE} e.
Arguments PivWriteUnconfirmed {PE} e.

Definition apdu_error {PE} (label : list Z) (sw : Z) : PivError PE := VTransport (TApdu label (cast 8 (Z.shiftr sw 8)) (cast 8 sw)).
Definition ok_or_apdu {PE} (label : list Z) (sw : Z) : result (PivError PE) unit := if sw =? SW_OK then Ok tt else Err (apdu_error label sw).
Definition ok_or_write {PE} (label : list Z) (sw : Z) : result (PivError PE) unit :=
  if sw =? SW_SECURITY_NOT_SATISFIED then Err PivSecurityNotSatisfied else ok_or_apdu label sw.
Definition map_pin_sw {PE} (sw : Z) : result (PivError PE) unit :=
  if sw =? SW_OK then Ok tt else
  match sw_tries_remaining sw with
  | Some n => Err (PivPinRejected (Some n))
  | None => if sw =? SW_AUTH_BLOCKED then Err (PivPinRejected (Some 0)) else Err (apdu_error (s2b "piv pin/puk") sw)
  end.
(** A builder's panic. *)
Definition built {S PE A} (o : option A) : io S (PivError PE) A := match o with Some a => mret a | None => lift (Err (VTransport TPanic)) end.
(** A call whose error is looked at. *)
Definition tried {S E A} (m : io S E A) : io S E (result E A) := fun s => let '(r, s) := m s in (Ok r, s).
(** A call beside a variable it does not touch. *)
Definition beside {S T E A} (m : io S E A) : io (S * T) E A := fun '(s, t) => let '(r, s) := m s in (r, (s, t)).

(** * Certificates to store *)

Inductive CertCompression := CompressAuto | CompressAlways | CompressNever.
#[export] Instance CertCompression_eq_dec : EqDecision CertCompression.
Proof. solve_decision. Defined.
Record CertImport := mkCertImport { ci_compressed : bool; ci_stored_len : Z; ci_auto_compressed : bool }.

Definition CHAIN_CHUNK : Z := 254.
Definition uses_extended_length (apdu : list Z) : bool := bool_decide (apdu !! 4%nat = Some 0x00).
Definition SW_LAST_COMMAND_EXPECTED : Z := 0x6883.
Definition key_import_retry_sw (sw : Z) : bool := (sw =? SW_WRONG_LENGTH) || (sw =? SW_LAST_COMMAND_EXPECTED) || (sw =? 0x6A80).
Definition import_key_body_for (key : KeyToImport) (pin_policy : PinPolicy) (touch_policy : TouchPolicy) (layout : ImportLayout) :
    result ImportBodyError (list Z) :=
  let fits := match ik_parts key, layout with
              | PRsaCrt _ _ _ _ _, Yubico | PRsaPrimes _ _ _, NitrokeyRsa => true
              | PRsaCrt _ _ _ _ _, NitrokeyRsa | PRsaPrimes _ _ _, Yubico => false
              | _, _ => true
              end in
  if negb fits then Err PartsMismatch else import_key_body key pin_policy touch_policy.

(** * Sending *)

Record LongLink := mkLongLink { link_traced : bool; chain_upfront : option (list Z) }.

Section send.
Context {S PE : Type} (error_text : PE -> list Z) (note : bool -> list Z -> list Z -> io S (PivError PE) unit).
Context (send : list Z -> io S (PivError PE) (list Z * Z)).
Local Notation Sent := (result (PivError PE) (list Z * Z)).

Fixpoint transmit_chain_with (label : list Z) (chunks : list (list Z)) : io S (PivError PE) (list Z * Z) :=
  match chunks with
  | [] => mret ([], SW_OK)
  | [chunk] => send chunk
  | chunk :: chunks =>
      '(_, sw) ← send chunk;
      if negb (sw =? SW_OK) then lift (Err (apdu_error label sw)) else transmit_chain_with label chunks
  end.

Definition retry_chained_after (sent : Sent) (extended : bool) : bool :=
  extended && match sent with Err (VTransport (TPcsc _)) => true | _ => false end.
(** A chain, kept as a result. *)
Definition chain_of (label : list Z) (chained : option (list (list Z))) : io S (PivError PE) Sent :=
  tried (links ← built chained; transmit_chain_with label links).
(** The result, and whether it came after a failure of the reader. *)
Definition send_long (link : LongLink) (label single : list Z) (chained : option (list (list Z))) (retry_on : Z -> bool) :
    io S (PivError PE) (Sent * bool) :=
  match chain_upfront link with
  | Some reason =>
      _ ← note (link_traced link) label (s2b "command chaining up front (" ++ reason ++ s2b ")");
      result ← chain_of label chained; mret (result, false)
  | None =>
      let extended := uses_extended_length single in
      direct ← tried (send single);
      if retry_chained_after direct extended then
        _ ← (match direct with
             | Err (VTransport (TPcsc e)) => note (link_traced link) label
                 (s2b "extended length failed at the PC/SC layer (PC/SC error: " ++ error_text e ++ s2b "); retrying with command chaining")
             | _ => mret tt
             end);
        result ← chain_of label chained; mret (result, true)
      else match direct with
           | Ok (_, sw) =>
               if extended && negb (sw =? SW_OK) && retry_on sw then
                 _ ← note (link_traced link) label
                   (s2b "extended length rejected (SW=" ++ hex_upper (sw / 256) ++ hex_upper (sw mod 256) ++ s2b "); retrying with command chaining");
                 result ← chain_of label chained; mret (result, false)
               else mret (direct, false)
           | Err _ => mret (direct, false)
           end
  end.

Definition unconfirmed_if (after_reader_failure : bool) (e : PivError PE) : PivError PE :=
  match e with
  | PivWriteUnconfirmed _ => e
  | _ => if after_reader_failure then PivWriteUnconfirmed e else e
  end.

(** ** Certificates *)

Definition chained_cert_sw (sent : Sent) : result (PivError PE) Z :=
  match sent with
  | Ok (_, sw) => Ok sw
  | Err (VTransport (TApdu label sw1 sw2)) =>
      let sw := from_be [sw1; sw2] in
      if (sw =? SW_WRONG_LENGTH) || (sw =? SW_NOT_ENOUGH_MEMORY) then Ok sw else Err (VTransport (TApdu label sw1 sw2))
  | Err e => Err e
  end.
Definition CERT_LABEL : list Z := s2b "piv import certificate".
(** The flag beside the state is [after_reader_failure]. *)
Definition put_cert_object_with (link : LongLink) (slot : Slot) (value : list Z) : io (S * bool) (PivError PE) Z :=
  let tag := cert_object_tag slot in
  single ← built (put_data tag value);
  '(result, after) ← beside (send_long link CERT_LABEL single (put_data_chained tag value CHAIN_CHUNK) (fun _ => true));
  _ ← io_modify (fun '(s, flag) => (s, flag || after));
  lift (chained_cert_sw result).
Definition cert_write_result (slot : Slot) (len sw : Z) : result (PivError PE) unit :=
  if sw =? SW_WRONG_LENGTH then Err (PivCertTooLarge slot len None)
  else if sw =? SW_NOT_ENOUGH_MEMORY then Err (PivCardFull slot)
  else ok_or_write CERT_LABEL sw.

Section store.
Context {T : Type} (compress_to_vec : list Z -> list Z) (put : CertInfo -> list Z -> io T (PivError PE) unit).

(** The compressed write. *)
Definition store_gzip (slot : Slot) (der : list Z) (tried_uncompressed : bool) : io T (PivError PE) CertImport :=
  let gz := gzip_member compress_to_vec der in
  stored ← tried (put Gzip gz);
  match stored with
  | Ok _ => mret (mkCertImport true (zlen gz) tried_uncompressed)
  | Err (PivCertTooLarge _ _ _) => lift (Err (PivCertTooLarge slot (zlen der) (Some (zlen gz))))
  | Err e => lift (Err e)
  end.
Definition store_certificate (slot : Slot) (der : list Z) (compression : CertCompression) : io T (PivError PE) CertImport :=
  let tried_uncompressed := negb (bool_decide (compression = CompressAlways)) in
  if tried_uncompressed then
    stored ← tried (put Uncompressed der);
    match stored with
    | Ok _ => mret (mkCertImport false (zlen der) false)
    | Err (PivCertTooLarge s l c) =>
        if bool_decide (compression = CompressAuto) then store_gzip slot der tried_uncompressed else lift (Err (PivCertTooLarge s l c))
    | Err e => lift (Err e)
    end
  else store_gzip slot der tried_uncompressed.
End store.

Definition put_certificate (link : LongLink) (slot : Slot) (der : list Z) (info : CertInfo) (payload : list Z) : io (S * bool) (PivError PE) unit :=
  value ← built (encode_certificate payload info);
  sw ← put_cert_object_with link slot value;
  lift (cert_write_result slot (zlen der) sw).
Definition send_certificate (compress_to_vec : list Z -> list Z) (link : LongLink) (slot : Slot) (der : list Z) (compression : CertCompression) :
    io S (PivError PE) CertImport := fun s =>
  let '(stored, (s, after)) := store_certificate compress_to_vec (put_certificate link slot der) slot der compression (s, false) in
  (match stored with Ok c => Ok c | Err e => Err (unconfirmed_if after e) end, s).

Definition check_readback (slot : Slot) (der : list Z) (back : result (PivError PE) (option (list Z))) : result (PivError PE) unit :=
  match back with
  | Ok (Some got) => if bool_decide (got = der) then Ok tt else Err (PivCertReadbackMismatch slot)
  | Ok None | Err (PivCertUnreadable _ _) => Err (PivCertReadbackMismatch slot)
  | Err e => Err e
  end.

(** ** Keys *)

Definition KEY_LABEL : list Z := s2b "piv import key".
Definition send_import_key (link : LongLink) (slot : Slot) (alg_id : Z) (body : list Z) : io S (PivError PE) unit :=
  single ← built (import_key slot alg_id body);
  '(result, after) ← send_long link KEY_LABEL single (import_key_chained slot alg_id body CHAIN_CHUNK) key_import_retry_sw;
  lift (match ('(_, sw) ← result; ok_or_write KEY_LABEL sw) with
        | Ok _ => Ok tt
        | Err e => Err (unconfirmed_if after e)
        end).
End send.

(** What a write of piv.rs leaves on the card, and what its answer says of it: a card that reads
    commands as ISO 7816 lays down, refuses what it likes, behind a reader that loses what it
    likes. *)

(** * The card *)

(** What becomes of an APDU: done, refused with a status word, or lost by the reader,
    before the card did it or after. *)
Inductive Event (PE : Type) := EDone | ERefused (sw : Z) | ELost (done : bool) (e : TransportError PE).
Arguments EDone {PE}.
Arguments ERefused {PE} sw.
Arguments ELost {PE} done e.
(** The last command done whole, the data of the links of a chain so far, and the events to come. *)
Record Card PE := mkCard { stored : option Command; pending_links : list Z; events : list (Event PE) }.
Arguments mkCard {PE} stored pending_links events.
Arguments stored {PE} c.
Arguments pending_links {PE} c.
Arguments events {PE} c.

Definition is_apdu {PE} (e : TransportError PE) : bool := match e with TApdu _ _ _ => true | _ => false end.
Definition event_ok {PE} (e : Event PE) : Prop :=
  match e with EDone => True | ERefused sw => is_word 16 sw /\ sw <> SW_OK | ELost _ e => is_apdu e = false end.

Section card.
Context {PE : Type}.
Local Notation CardPE := (Card PE).

(** The card does a command: a link is kept, anything else ends the chain. *)
Definition perform (c : Command) (k : CardPE) : CardPE :=
  if c_cla c =? 0x10 then mkCard (stored k) (pending_links k ++ c_data c) (events k)
  else mkCard (Some (mkCommand (c_cla c) (c_ins c) (c_p1 c) (c_p2 c) (pending_links k ++ c_data c) (c_le c))) [] (events k).
Definition card_send (apdu : list Z) : io CardPE (PivError PE) (list Z * Z) := fun k =>
  let '(event, rest) := match events k with [] => (EDone, []) | e :: rest => (e, rest) end in
  let k := mkCard (stored k) (pending_links k) rest in
  let refuse sw := (Ok ([], sw), mkCard (stored k) [] rest) in
  match parse_command apdu with
  | None => refuse SW_WRONG_LENGTH
  | Some c =>
      match event with
      | EDone => (Ok ([], SW_OK), perform c k)
      | ERefused sw => refuse sw
      | ELost done e => (Err (VTransport e), if done then perform c k else k)
      end
  end.
Definition no_note (traced : bool) (label text : list Z) : io CardPE (PivError PE) unit := mret tt.

(** The error is the card's answer (or comes before any command): not a failure of the
    reader, and not marked unconfirmed. *)
Definition told (e : PivError PE) : bool :=
  match e with VTransport e => is_apdu e | PivWriteUnconfirmed _ => false | _ => true end.

(** ** One command, however it is sent *)

(** What came back of a command [w], from a card holding [o] and no links. *)
Definition outcome (w : Command) (o : option Command) (r : result (PivError PE) (list Z * Z)) (k : CardPE) : Prop :=
  Forall event_ok (events k) /\
  match r with
  | Ok (_, sw) => is_word 16 sw /\ pending_links k = [] /\ stored k = (if sw =? SW_OK then Some w else o)
  | Err (VTransport (TApdu _ sw1 sw2)) => pending_links k = [] /\ stored k = o
  | Err (VTransport _) => stored k = o \/ stored k = Some w
  | Err _ => False
  end.

Lemma send_final apdu cla ins p1 p2 data le k : parse_command apdu = Some (mkCommand cla ins p1 p2 data le) ->
  cla <> 0x10 -> Forall event_ok (events k) ->
  let '(r, k') := card_send apdu k in outcome (mkCommand cla ins p1 p2 (pending_links k ++ data) le) (stored k) r k'.
Proof.
  intros Hp Hc He. unfold card_send, perform, outcome. rewrite Hp. cbn [c_cla c_ins c_p1 c_p2 c_data c_le].
  rewrite (proj2 (Z.eqb_neq cla 0x10)) by done. destruct (events k) as [|e rest]; [by cbn|].
  apply list.Forall_cons in He as [He Hr]. destruct e as [|sw|late e]; cbn [event_ok] in He; [by cbn|..].
  - destruct He as [Hw Hn]. cbn [events pending_links stored]. by rewrite (proj2 (Z.eqb_neq _ _)) by done.
  - split; [by destruct late|]. destruct e, late; try done; first [by left|by right].
Qed.
Lemma send_link apdu ins p1 p2 data k : parse_command apdu = Some (mkCommand 0x10 ins p1 p2 data None) -> Forall event_ok (events k) ->
  exists r k', card_send apdu k = (r, k') /\ stored k' = stored k /\ Forall event_ok (events k') /\
    match r with
    | Ok (_, sw) => is_word 16 sw /\ pending_links k' = if sw =? SW_OK then pending_links k ++ data else []
    | Err (VTransport e) => is_apdu e = false
    | Err _ => False
    end.
Proof.
  intros Hp He. unfold card_send. destruct (events k) as [|e rest].
  - rewrite Hp. by do 2 eexists.
  - apply list.Forall_cons in He as [He Hr]. rewrite Hp. destruct e as [|sw|late e]; cbn [event_ok] in He; do 2 eexists; (split; [done|]).
    + done.
    + split_and!; try done; [apply He|]. by rewrite (proj2 (Z.eqb_neq _ _)) by apply He.
    + by destruct late.
Qed.
Lemma sw_bytes sw : is_word 16 sw -> from_be [cast 8 (Z.shiftr sw 8); cast 8 sw] = sw.
Proof.
  unfold is_word. intros H. rewrite Z.shiftr_div_pow2 by lia. unfold cast. change (2 ^ 8) with 256. cbn. lia_div.
Qed.
Lemma chain_step label (c : list Z) cs : cs <> [] ->
  transmit_chain_with (PE := PE) card_send label (c :: cs) =
    ('(_, sw) ← card_send c; if negb (sw =? SW_OK) then lift (Err (apdu_error label sw)) else transmit_chain_with card_send label cs).
Proof. by destruct cs. Qed.
Lemma chain_outcome label ins p1 p2 cs : forall k, cs <> [] -> Forall (fun c => 1 <= zlen c <= 255) cs -> Forall event_ok (events k) ->
  let '(r, k') := transmit_chain_with card_send label (chain_links 0x00 ins p1 p2 None cs) k in
  outcome (mkCommand 0x00 ins p1 p2 (pending_links k ++ concat cs) None) (stored k) r k'.
Proof.
  induction cs as [|c cs IH]; intros k Hne Hc He; [done|]. apply list.Forall_cons in Hc as [Hc Hcs].
  destruct cs as [|c2 cs].
  - cbn [chain_links transmit_chain_with]. rewrite cast_small by (unfold is_word; lia). cbn [concat].
    pose proof (parse_short 0x00 ins p1 p2 c None Hc) as Hp. cbn [short_le fmap option_fmap option_map] in Hp.
    rewrite !app_nil_r in *. by apply send_final.
  - change (chain_links 0x00 ins p1 p2 None (c :: c2 :: cs)) with
      (([Z.lor 0x00 0x10; ins; p1; p2; cast 8 (zlen c)] ++ c) :: chain_links 0x00 ins p1 p2 None (c2 :: cs)).
    destruct (send_link ([Z.lor 0x00 0x10; ins; p1; p2; cast 8 (zlen c)] ++ c) ins p1 p2 c k) as (r & k1 & E & Hs & He1 & Hr); [|done|].
    { rewrite cast_small by (unfold is_word; lia). pose proof (parse_short 0x10 ins p1 p2 c None Hc) as Hp. by rewrite app_nil_r in Hp. }
    rewrite chain_step by by destruct cs.
    destruct r as [[d sw]|err].
    2: destruct err as [e| | | | | | | | | | | | | | | | | | | | | | | | | | | | | |]; try done.
    + rewrite (io_bind_Ok_eq _ _ _ _ _ E). destruct Hr as [Hw Hp]. destruct (Z.eqb_spec sw SW_OK) as [->|Hn]; cbn [negb].
      * specialize (IH k1 ltac:(done) Hcs He1). rewrite Hs, Hp, <- app_assoc in IH. exact IH.
      * unfold lift, apdu_error, outcome. by rewrite Hp.
    + unfold mbind, io_bind. rewrite E. unfold outcome. split; [done|]. destruct e; try done; by left.
Qed.

Lemma send_final_links apdu cla ins p1 p2 data le k : parse_command apdu = Some (mkCommand cla ins p1 p2 data le) -> cla <> 0x10 ->
  pending_links k = [] -> pending_links (card_send apdu k).2 = [].
Proof.
  intros Hp Hc Hk. unfold card_send, perform. rewrite Hp. cbn [c_cla c_ins c_p1 c_p2 c_data c_le].
  rewrite (proj2 (Z.eqb_neq cla 0x10)) by done. destruct (events k) as [|[|sw|[] e] rest]; done.
Qed.

(** ** The command sent once or twice *)

(** What is known after [send_long]; [after]: an attempt before failed at the reader. *)
Definition long_outcome (w : Command) (o : option Command) (after : bool) (r : result (PivError PE) (list Z * Z)) (k : CardPE) : Prop :=
  Forall event_ok (events k) /\
  match r with
  | Ok (_, sw) => is_word 16 sw /\ pending_links k = [] /\
      if sw =? SW_OK then stored k = Some w else stored k = o \/ (after = true /\ stored k = Some w)
  | Err (VTransport e) =>
      if is_apdu e then pending_links k = [] /\ (stored k = o \/ (after = true /\ stored k = Some w)) else stored k = o \/ stored k = Some w
  | Err _ => False
  end.
Lemma outcome_long w o o' after r k : outcome w o' r k -> o' = o \/ (after = true /\ o' = Some w) -> long_outcome w o after r k.
Proof.
  unfold outcome, long_outcome. intros [He Hr] Ho. split; [done|]. destruct r as [[d sw]|[]]; try done.
  - destruct Hr as (Hw & Hp & Hs). split_and!; [done..|]. destruct (sw =? SW_OK); [done|]. by rewrite Hs.
  - destruct e; cbn [is_apdu]; try (destruct Hr as [-> | ->]; [|by right]; destruct Ho as [-> | [_ ->]]; [by left|by right]). by destruct Hr as [? ->].
Qed.

Context (error_text : PE -> list Z).
Lemma chain_of_outcome label ins p1 p2 data links k : 1 <= zlen data <= 0xFFFF ->
  chain_apdu 0x00 ins p1 p2 data CHAIN_CHUNK None = Some links -> pending_links k = [] -> Forall event_ok (events k) ->
  exists r k', chain_of card_send label (Some links) k = (Ok r, k') /\ outcome (mkCommand 0x00 ins p1 p2 data None) (stored k) r k'.
Proof.
  intros Hd Hl Hp He. unfold chain_apdu in Hl. change (negb _) with false in Hl. rewrite (proj2 (Z.eqb_neq _ _)) in Hl by lia.
  injection Hl as <-. assert (0 < Z.to_nat CHAIN_CHUNK)%nat as Hn by (unfold CHAIN_CHUNK; lia).
  pose proof (chain_outcome label ins p1 p2 (chunks (Z.to_nat CHAIN_CHUNK) data) k) as H. rewrite Hp, concat_chunks in H by done.
  unfold chain_of, built, tried. rewrite io_ret_bind. destruct (transmit_chain_with _ _ _ k) as [r k'] eqn:E.
  exists r, k'. split; [done|]. apply H; [| |done].
  - intros Hx. pose proof (concat_chunks (Z.to_nat CHAIN_CHUNK) data Hn) as Hy. rewrite Hx in Hy. subst data. destruct Hd as [Hd _]. by vm_compute in Hd.
  - eapply list.Forall_impl; [exact (chunks_bounded _ data Hn)|]. intros c [Hc Hl]. unfold zlen, CHAIN_CHUNK in *. destruct c; [done|]. cbn [length] in *. lia.
Qed.
Lemma send_long_outcome link label ins p1 p2 data single links retry k : 1 <= zlen data <= 0xFFFF ->
  build_apdu_ext 0x00 ins p1 p2 data None = Some single -> chain_apdu 0x00 ins p1 p2 data CHAIN_CHUNK None = Some links ->
  pending_links k = [] -> Forall event_ok (events k) ->
  exists r after k', send_long error_text no_note card_send link label single (Some links) retry k = (Ok (r, after), k') /\
    long_outcome (mkCommand 0x00 ins p1 p2 data None) (stored k) after r k'.
Proof.
  intros Hd Hs Hl Hp He. unfold send_long, no_note. destruct (chain_upfront link) as [reason|].
  { rewrite io_ret_bind. destruct (chain_of_outcome label ins p1 p2 data links k Hd Hl Hp He) as (r & k' & E & Ho).
    rewrite (io_bind_Ok_eq _ _ _ _ _ E). exists r, false, k'. split; [done|]. by apply (outcome_long _ _ (stored k)); [|left]. }
  destruct (build_apdu_ext_read 0x00 ins p1 p2 data None) as (apdu & Ha & Hread); [lia|done|]. rewrite Hs in Ha. injection Ha as <-.
  cbn [le_asked] in Hread. pose proof (send_final single 0x00 ins p1 p2 data None k Hread ltac:(done) He) as Hf. rewrite Hp in Hf.
  pose proof (send_final_links single 0x00 ins p1 p2 data None k Hread ltac:(done) Hp) as Hk1.
  destruct (card_send single k) as [r k1] eqn:E. cbn [snd app] in Hk1, Hf.
  assert (tried (card_send single) k = (Ok r, k1)) as Et by (unfold tried; by rewrite E). rewrite (io_bind_Ok_eq _ _ _ _ _ Et).
  set (w := mkCommand 0x00 ins p1 p2 data None) in *. set (o := stored k) in *. pose proof (proj1 Hf) as He1.
  destruct (chain_of_outcome label ins p1 p2 data links k1 Hd Hl Hk1 He1) as (r2 & k2 & E2 & Ho). fold w in Ho.
  assert (forall after, stored k1 = o \/ (after = true /\ stored k1 = Some w) ->
    exists r0 after' k', (result ← chain_of card_send label (Some links); mret (result, after)) k1 = (Ok (r0, after'), k') /\
      long_outcome w o after' r0 k') as Hagain.
  { intros after Hs1. rewrite (io_bind_Ok_eq _ _ _ _ _ E2). exists r2, after, k2. split; [done|]. by apply (outcome_long _ _ (stored k1)). }
  assert (exists r0 after' k', (@mret (io CardPE (PivError PE)) _ _ (r, false)) k1 = (Ok (r0, after'), k') /\ long_outcome w o after' r0 k') as Hdirect
    by (exists r, false, k1; split; [done|]; by apply (outcome_long _ _ o); [|left]).
  destruct (retry_chained_after r (uses_extended_length single)) eqn:Er.
  - unfold retry_chained_after in Er. destruct r as [|err]; [by rewrite andb_false_r in Er|].
    destruct err as [e| | | | | | | | | | | | | | | | | | | | | | | | | | | | | |]; try by rewrite andb_false_r in Er.
    destruct e; try by rewrite andb_false_r in Er. rewrite io_ret_bind. apply Hagain. destruct Hf as [_ [-> | ->]]; [by left|by right].
  - destruct r as [[d sw]|err]; [|exact Hdirect]. destruct (_ && _ && _) eqn:Ex; [|exact Hdirect].
    apply andb_true_iff in Ex as [Ex _]. apply andb_true_iff in Ex as [_ Ex]. rewrite io_ret_bind. apply Hagain. left.
    destruct Hf as (_ & _ & _ & ->). by destruct (sw =? SW_OK).
Qed.

(** ** What an error tells *)

(** The error of a command, marked unconfirmed as [after] says: when it tells, the card
    is as it was. *)
Definition honest (w : Command) (o : option Command) (e : PivError PE) (k : CardPE) : Prop :=
  stored k = o \/ (told e = false /\ stored k = Some w).
Lemma unconfirmed_not_told after e : after = true -> told (unconfirmed_if after e) = false.
Proof. intros ->. by destruct e. Qed.
Lemma long_error w o after e k : long_outcome w o after (Err e) k -> honest w o (unconfirmed_if after e) k.
Proof.
  intros [_ H]. destruct e as [e| | | | | | | | | | | | | | | | | | | | | | | | | | | | | |]; try done.
  destruct (is_apdu e) eqn:Ea.
  - destruct H as (_ & [H|[Ht H]]); [by left|right]. split; [by apply unconfirmed_not_told|done].
  - destruct H as [H|H]; [by left|right]. split; [|done]. by destruct after.
Qed.
Lemma refused_sw w o after d sw e k : long_outcome w o after (Ok (d, sw)) k -> sw <> SW_OK -> honest w o (unconfirmed_if after e) k.
Proof.
  intros (_ & _ & _ & H) Hn. rewrite (proj2 (Z.eqb_neq _ _)) in H by done. destruct H as [H|[Ht H]]; [by left|right].
  split; [by apply unconfirmed_not_told|done].
Qed.
Lemma ok_or_write_cases label sw : (sw = SW_OK /\ ok_or_write label sw = @Ok (PivError PE) _ tt) \/ (sw <> SW_OK /\ exists e : PivError PE, ok_or_write label sw = Err e).
Proof.
  unfold ok_or_write, ok_or_apdu. destruct (Z.eqb_spec sw SW_OK) as [->|Hn]; [by left|right]. split; [done|].
  destruct (_ =? _); by eexists.
Qed.

(** ** Private keys *)

Lemma import_key_honest link slot alg_id body k : 1 <= zlen body <= 0xFFFF -> pending_links k = [] -> Forall event_ok (events k) ->
  let w := mkCommand 0x00 (ins_code ImportKey) alg_id (key_ref slot) body None in
  let '(r, k') := send_import_key error_text no_note card_send link slot alg_id body k in
  match r with Ok _ => stored k' = Some w | Err e => honest w (stored k) e k' end.
Proof.
  intros Hd Hp He w. unfold send_import_key, import_key, import_key_chained. change (Z.max 1 (Z.min 255 CHAIN_CHUNK)) with CHAIN_CHUNK.
  destruct (build_apdu_ext_read 0x00 (ins_code ImportKey) alg_id (key_ref slot) body None) as (single & Es & _); [lia|done|]. rewrite Es.
  unfold built. rewrite io_ret_bind. unfold chain_apdu. change (negb _) with false. rewrite (proj2 (Z.eqb_neq _ _)) by lia. cbn iota.
  destruct (send_long_outcome link KEY_LABEL (ins_code ImportKey) alg_id (key_ref slot) body single
    (chain_links 0x00 (ins_code ImportKey) alg_id (key_ref slot) None (chunks (Z.to_nat CHAIN_CHUNK) body)) key_import_retry_sw k)
    as (res & after & k' & E & Ho); [done|done| |done|done|].
  { unfold chain_apdu. change (negb _) with false. by rewrite (proj2 (Z.eqb_neq _ _)) by lia. }
  rewrite (io_bind_Ok_eq _ _ _ _ _ E). fold w in Ho. unfold lift. destruct res as [[d sw]|e]; cbn [mbind result_bind].
  - destruct (ok_or_write_cases KEY_LABEL sw) as [[-> ->]|[Hn (e & ->)]]; [by destruct Ho as (_ & _ & _ & Ho)|].
    by apply (refused_sw w _ after d sw).
  - by apply long_error.
Qed.

(** ** Certificates *)

(** The command that stores [payload] as a slot's certificate object. *)
Definition cert_write (slot : Slot) (payload : list Z) (info : CertInfo) : option Command :=
  value ← encode_certificate payload info;
  body ← put_data_body (cert_object_tag slot) value;
  Some (mkCommand 0x00 (ins_code PutData) GET_DATA_P1 GET_DATA_P2 body None).
Lemma put_data_body_size tag value body : put_data_body tag value = Some body -> 1 <= zlen body.
Proof.
  unfold put_data_body. destruct (push_tlv [TAG_OBJECT_SELECTOR] tag) as [a|] eqn:Ea; [|done]. cbn [mbind option_bind].
  destruct (push_tlv [TAG_DATA_TEMPLATE] value) as [b|]; [|done]. cbn. intros [= <-].
  unfold push_tlv in Ea. destruct (push_ber_len _) as [l|]; [|done]. cbn in Ea. injection Ea as <-. zlen.
  pose proof (zlen_nonneg (l ++ tag)). pose proof (zlen_nonneg b). zlen. lia.
Qed.

(** After one write of [w] from a card holding [o]: the flag only rises. *)
Definition put_outcome (w : option Command) (o : option Command) (flag flag' : bool) (r : result (PivError PE) unit) (k : CardPE) : Prop :=
  (flag = true -> flag' = true) /\ Forall event_ok (events k) /\
  match r with
  | Ok _ => w <> None /\ stored k = w
  | Err e => (stored k = o \/ (told (unconfirmed_if flag' e) = false /\ stored k = w)) /\
             match e with PivCertTooLarge _ _ _ => pending_links k = [] | _ => True end
  end.
Lemma chained_sw_cases (res : result (PivError PE) (list Z * Z)) w o after k : long_outcome w o after res k ->
  match chained_cert_sw res with
  | Ok sw => pending_links k = [] /\ if sw =? SW_OK then stored k = Some w else stored k = o \/ (after = true /\ stored k = Some w)
  | Err e => res = Err e /\ match e with PivCertTooLarge _ _ _ => False | _ => True end
  end.
Proof.
  intros [_ H]. unfold chained_cert_sw. destruct res as [[d sw]|e]; [tauto|].
  destruct e as [e| | | | | | | | | | | | | | | | | | | | | | | | | | | | | |]; try done. destruct e; try done.
  cbn [is_apdu] in H. destruct (from_be [sw1; sw2] =? SW_WRONG_LENGTH) eqn:E1; [bools; rewrite E1; by change (SW_WRONG_LENGTH =? SW_OK) with false|].
  destruct (from_be [sw1; sw2] =? SW_NOT_ENOUGH_MEMORY) eqn:E2; cbn [orb]; [|done].
  bools. rewrite E2. by change (SW_NOT_ENOUGH_MEMORY =? SW_OK) with false.
Qed.
Lemma cert_write_result_cases slot len sw : (sw = SW_OK /\ cert_write_result slot len sw = @Ok (PivError PE) _ tt) \/
  (sw <> SW_OK /\ exists e : PivError PE, cert_write_result slot len sw = Err e).
Proof.
  unfold cert_write_result. destruct (Z.eqb_spec sw SW_WRONG_LENGTH) as [->|]; [by right; split; [|eexists]|].
  destruct (Z.eqb_spec sw SW_NOT_ENOUGH_MEMORY) as [->|]; [by right; split; [|eexists]|]. apply ok_or_write_cases.
Qed.
Lemma put_panicked w k flag : Forall event_ok (events k) -> put_outcome w (stored k) flag flag (Err (VTransport TPanic)) k.
Proof. intros He. split; [done|]. split; [done|]. split; [by left|done]. Qed.
Lemma put_certificate_outcome link slot der info payload k flag : pending_links k = [] -> Forall event_ok (events k) ->
  let '(r, (k', flag')) := put_certificate error_text no_note card_send link slot der info payload (k, flag) in
  put_outcome (cert_write slot payload info) (stored k) flag flag' r k'.
Proof.
  intros Hp He. unfold put_certificate, cert_write. destruct (encode_certificate payload info) as [value|];
    [|exact (put_panicked _ k flag He)]. unfold built at 1. rewrite io_ret_bind. unfold put_cert_object_with, put_data, put_data_chained.
  cbn [mbind option_bind]. destruct (put_data_body (cert_object_tag slot) value) as [body|] eqn:Eb; [|exact (put_panicked _ k flag He)].
  pose proof (put_data_body_size _ _ _ Eb) as Hs. cbn [mbind option_bind].
  destruct (build_apdu_ext 0x00 (ins_code PutData) GET_DATA_P1 GET_DATA_P2 body None) as [single|] eqn:Es; [|exact (put_panicked _ k flag He)].
  assert (zlen body <= 0xFFFF) as Hb by (unfold build_apdu_ext in Es; destruct (Z.ltb_spec 0xFFFF (zlen body)); [done|lia]).
  set (links := chain_apdu 0x00 _ _ _ body CHAIN_CHUNK None).
  assert (links = Some (chain_links 0x00 (ins_code PutData) GET_DATA_P1 GET_DATA_P2 None (chunks (Z.to_nat CHAIN_CHUNK) body))) as ->
    by (unfold links, chain_apdu; change (negb _) with false; by rewrite (proj2 (Z.eqb_neq _ _)) by lia).
  destruct (send_long_outcome link CERT_LABEL (ins_code PutData) GET_DATA_P1 GET_DATA_P2 body single
    (chain_links 0x00 (ins_code PutData) GET_DATA_P1 GET_DATA_P2 None (chunks (Z.to_nat CHAIN_CHUNK) body)) (fun _ => true) k)
    as (res & after & k' & E & Ho); [lia|done| |done|done|].
  { unfold chain_apdu. change (negb _) with false. by rewrite (proj2 (Z.eqb_neq _ _)) by lia. }
  set (w := mkCommand _ _ _ _ _ _) in *. unfold built, mbind, io_bind, mret, io_ret, beside. rewrite E. unfold io_modify, lift.
  pose proof (chained_sw_cases res w (stored k) after k' Ho) as Hc. pose proof (proj1 Ho) as He'.
  assert (flag = true -> flag || after = true) as Hf by (by intros ->).
  destruct (chained_cert_sw res) as [sw|e].
  - destruct (cert_write_result_cases slot (zlen der) sw) as [[-> ->]|[Hn (e & ->)]].
    + split; [done|]. split; [done|]. split; [done|]. apply Hc.
    + rewrite (proj2 (Z.eqb_neq _ _)) in Hc by done. destruct Hc as [Hl Hc]. split; [done|]. split; [done|]. split; [|by destruct e].
      destruct Hc as [Hc|[-> Hc]]; [by left|right]. split; [|done]. apply unconfirmed_not_told. by rewrite orb_true_r.
  - destruct Hc as [-> Hc]. split; [done|]. split; [done|]. split; [|by destruct e].
    destruct (long_error _ _ _ _ _ Ho) as [H|[Ht H]]; [by left|right]. split; [|done].
    destruct after; [by rewrite orb_true_r|]. rewrite orb_false_r. destruct flag; [by apply unconfirmed_not_told|done].
Qed.

Context (compress_to_vec : list Z -> list Z).
Local Notation gz der := (gzip_member compress_to_vec der).
Local Notation run_put link slot der := (put_certificate error_text no_note card_send link slot der).

(** What the card may hold after a failed import: what it held, or one of the forms of
    the certificate that may have been applied. *)
Definition import_left (slot : Slot) (der : list Z) (o : option Command) (e : PivError PE) (k : CardPE) : Prop :=
  stored k = o \/ (told e = false /\ (stored k = cert_write slot der Uncompressed \/ stored k = cert_write slot (gz der) Gzip)).
Lemma told_again after e : told (unconfirmed_if after e) = false -> told e = false \/ after = true.
Proof. destruct after; [by right|left]. by destruct e. Qed.
Lemma store_gzip_outcome link slot der tu k flag o : pending_links k = [] -> Forall event_ok (events k) ->
  stored k = o \/ (flag = true /\ stored k = cert_write slot der Uncompressed) ->
  let '(r, (k', flag')) := store_gzip compress_to_vec (run_put link slot der) slot der tu (k, flag) in
  match r with
  | Ok c => c = mkCertImport true (zlen (gz der)) tu /\ stored k' = cert_write slot (gz der) Gzip /\ stored k' <> None
  | Err e => import_left slot der o (unconfirmed_if flag' e) k'
  end.
Proof.
  intros Hp He Ho. unfold store_gzip, tried, mbind, io_bind.
  pose proof (put_certificate_outcome link slot der Gzip (gz der) k flag Hp He) as H.
  destruct (run_put link slot der Gzip (gz der) (k, flag)) as [r [k1 flag1]]. destruct H as (Hf & He1 & H).
  destruct r as [u|e]; [destruct H as [Hn Hs]; cbn; by rewrite Hs|]. destruct H as [H _].
  assert (import_left slot der o (unconfirmed_if flag1 e) k1) as Hl.
  { unfold import_left. destruct H as [H|[Ht H]]; [|by right; split; [|right]]. rewrite H. destruct Ho as [Ho|[Hfl Ho]]; [by left|].
    right. split; [|by left]. apply unconfirmed_not_told. by apply Hf. }
  unfold lift. destruct e; try exact Hl. cbn [unconfirmed_if] in Hl |- *. destruct Hl as [Hl|[Ht Hl]]; [by left|right]. split; [|done]. by destruct flag1.
Qed.

(** C13: what a certificate import says of the card is true. Against a card that refuses
    what it likes, links of a chain included, behind a reader that loses any APDU before
    or after the card acts on it: a success means the object is the certificate in the
    form the answer names, as the compression asked for allows; a failure that is the
    card's answer means the object is as it was; and only a failure of the reader, or one
    marked unconfirmed, leaves open whether one of the two forms was stored. The same
    holds of an imported private key. *)
Theorem import_outcome_told link slot der compression alg_id body (k : CardPE) :
  pending_links k = [] -> Forall event_ok (events k) -> 1 <= zlen body <= 0xFFFF ->
  (let '(r, k') := send_certificate error_text no_note card_send compress_to_vec link slot der compression k in
   match r with
   | Ok c => stored k' <> None /\
       stored k' = (if ci_compressed c then cert_write slot (gz der) Gzip else cert_write slot der Uncompressed) /\
       ci_stored_len c = zlen (if ci_compressed c then gz der else der) /\
       ci_auto_compressed c = (ci_compressed c && bool_decide (compression = CompressAuto)) /\
       (compression = CompressAlways -> ci_compressed c = true) /\ (compression = CompressNever -> ci_compressed c = false)
   | Err e => import_left slot der (stored k) e k'
   end) /\
  (let '(r, k') := send_import_key error_text no_note card_send link slot alg_id body k in
   let w := mkCommand 0x00 (ins_code ImportKey) alg_id (key_ref slot) body None in
   match r with Ok _ => stored k' = Some w | Err e => stored k' = stored k \/ (told e = false /\ stored k' = Some w) end).
Proof.
  intros Hp He Hb. split; [|exact (import_key_honest link slot alg_id body k Hb Hp He)].
  unfold send_certificate, store_certificate. destruct (negb (bool_decide (compression = CompressAlways))) eqn:Et.
  - unfold tried at 1, mbind at 1, io_bind at 1. pose proof (put_certificate_outcome link slot der Uncompressed der k false Hp He) as H.
    destruct (run_put link slot der Uncompressed der (k, false)) as [r [k1 flag1]]. destruct H as (_ & He1 & H).
    destruct r as [u|e].
    + destruct H as [Hn Hs]. unfold mret, io_ret. cbn. rewrite Hs. split_and!; try done. intros ->. done.
    + destruct H as [H Hl]. assert (import_left slot der (stored k) (unconfirmed_if flag1 e) k1) as Hi
        by (destruct H as [H|[Ht H]]; [by left|right; split; [done|by left]]).
      destruct e; try exact Hi. destruct (bool_decide (compression = CompressAuto)) eqn:Ea; [|exact Hi].
      pose proof (store_gzip_outcome link slot der true k1 flag1 (stored k) Hl He1) as Hg.
      destruct (store_gzip _ _ slot der true (k1, flag1)) as [r [k2 flag2]]. apply bool_decide_eq_true_1 in Ea. subst compression.
      assert (stored k1 = stored k \/ (flag1 = true /\ stored k1 = cert_write slot der Uncompressed)) as Ho.
      { destruct H as [H|[Ht H]]; [by left|]. apply told_again in Ht as [Ht| ->]; [done|by right]. }
      specialize (Hg Ho). destruct r as [c|e]; [|exact Hg]. destruct Hg as (-> & Hs & Hn). by split_and!.
  - assert (compression = CompressAlways) as -> by (destruct compression; done).
    pose proof (store_gzip_outcome link slot der false k false (stored k) Hp He (or_introl eq_refl)) as Hg.
    destruct (store_gzip _ _ slot der false (k, false)) as [r [k2 flag2]]. destruct r as [c|e]; [|exact Hg].
    destruct Hg as (-> & Hs & Hn). by split_and!.
Qed.
End card.

(** A certificate stored after its chain was refused as too long: the compressed form. *)
Definition sample_events : list (Event Z) := [ELost true (TPcsc 5); ERefused 0x6700].
Definition sample_der : list Z := replicate 300 0x30.
Definition sample_card : Card Z := mkCard None [] sample_events.
Definition halved (d : list Z) : list Z := take 150 d.
Definition sample_link : LongLink := mkLongLink false None.
Lemma import_outcome_told_witness :
  (send_certificate (fun _ => []) no_note card_send halved sample_link Authentication sample_der CompressAuto sample_card).1 =
    Ok (mkCertImport true 168 true) /\
  let '(r, k') := send_import_key (fun _ => []) no_note card_send sample_link Authentication 0x11 [6; 1; 7] sample_card in
  match r with
  | Ok _ => stored k' = Some (mkCommand 0x00 0xFE 0x11 0x9A [6; 1; 7] None)
  | Err e => stored k' = None \/ (told e = false /\ stored k' = Some (mkCommand 0x00 0xFE 0x11 0x9A [6; 1; 7] None))
  end.
Proof.
  split; [vm_compute; reflexivity|].
  apply (import_outcome_told (fun _ => []) halved sample_link Authentication sample_der CompressAuto 0x11 [6; 1; 7] sample_card);
    [reflexivity|by repeat constructor|by_decision].
Defined.
