(* ===== verification/PivFingerprint.v ===== *)
(** keyroost-piv/src/fingerprint.rs: which PIV applet answers, from the historical
    bytes of its ATR, its SELECT response and a few live probes; the serial and version
    readings; and HID Crescendo's own commands. [None] from a builder is the source's
    [None]. *)
From S2P Require Export Sort PivData.

(** * Identifiers and fixed commands *)

Definition FEITIAN_RID : list Z := [0xD1; 0x56; 0x00; 0x01; 0x32].
Definition IDPRIME_SECONDARY_PIV_AID : list Z := [0xA0; 0x00; 0x00; 0x03; 0x08; 0x00; 0x00; 0x10; 0x00; 0x02; 0x00].
Definition NITROKEY_ADMIN_AID : list Z := [0xA0; 0x00; 0x00; 0x08; 0x47; 0x00; 0x00; 0x00; 0x01].
Definition NITROKEY_GET_ADMIN_STATUS : list Z := [0x00; 0x80; 0x00; 0x00].
Definition NITROKEY_GET_SERIAL : list Z := [0x00; 0x62; 0x00; 0x00].
Definition NITROKEY_GET_VERSION_STRING : list Z := [0x00; 0x61; 0x01; 0x00; 0x00].
Definition SWISSBIT_RID : list Z := [0xD2; 0x76; 0x00; 0x01; 0x62].
Definition SWISSBIT_MANAGEMENT_AID : list Z := [0xD2; 0x76; 0x00; 0x01; 0x62; 0x4B; 0x65; 0x79; 0x01].
Definition SWISSBIT_GET_SERIAL : list Z := [0x00; 0x28; 0x00; 0x00].
Definition SWISSBIT_GET_DEVICE_INFO : list Z := [0x00; 0x10; 0x00; 0x00; 0x01; 0x01; 0x00].
Definition SWISSBIT_CARD_MANAGER_AID : list Z := [0xA0; 0x00; 0x00; 0x01; 0x51; 0x00; 0x00; 0x00].
Definition SWISSBIT_GET_FIRMWARE_VERSION : list Z := [0xB1; 0x05; 0x42; 0x00; 0x00].
Definition SWISSBIT_GET_DEVICE_NAME : list Z := [0xB1; 0x05; 0x41; 0x00; 0x00].
Definition HID_CRESCENDO_C2300_PROPERTIES_TAG : list Z := [0xFF; 0xFF; 0x7F].
Definition HID_CRESCENDO_C4000_GET_PROPERTIES : list Z := [0x80; 0x56; 0x00; 0x00; 0x00].
Definition GLOBAL_PLATFORM_ISD_AID : list Z := [0xA0; 0x00; 0x00; 0x01; 0x51; 0x00; 0x00].
Definition GLOBAL_PLATFORM_GET_CPLC : list Z := [0x80; 0xCA; 0x9F; 0x7F; 0x00].
Definition HID_CRESCENDO_ACA_AID : list Z := [0xA0; 0x00; 0x00; 0x00; 0x79; 0x10; 0x00].
Definition HID_CRESCENDO_ACA_GET_CHALLENGE : list Z := [0x00; 0x84; 0x00; 0x01; 0x00].
Definition HID_CRESCENDO_ACA_PIN_REF : Z := 0x00.
Definition HID_CRESCENDO_ACA_RESET_CARD : list Z := [0x00; 0x38; 0x00; 0x00].
Definition HID_CRESCENDO_ACA_FACTORY_XAUTH_KEY : list Z := replicate 24 0.
Definition HID_CRESCENDO_ACA_PIN_AFTER_RESET : list Z := s2b "00000000".

(** * Texts and serials *)

(** [trim_matches(|c| c.is_whitespace() || c == '\0')]. *)
Definition parse_swissbit_text (data : list Z) : option (list Z) :=
  let blank c := is_whitespace c || (c =? 0) in
  let cs := drop_while blank (chars (from_utf8_lossy data)) in
  let text := utf8_encode (rev (drop_while blank (rev cs))) in
  if bool_decide (text = []) then None else Some text.

Definition split_tlv (data : list Z) : option (Z * list Z * list Z) :=
  match data with
  | tag :: first :: rest =>
      '(len, rest) ← (if first =? 0x81 then match rest with n :: rest => Some (n, rest) | [] => None end
                      else if first <? 0x80 then Some (first, rest) else None);
      if zlen rest <? len then None else Some (tag, take (Z.to_nat len) rest, drop (Z.to_nat len) rest)
  | _ => None
  end.
(** Each TLV takes two bytes or more, so [length body] turns are enough. *)
Fixpoint swissbit_loop (fuel : nat) (body : list Z) : option (list Z) :=
  match fuel, body with
  | S fuel, _ :: _ =>
      '(tag, value, rest) ← split_tlv body;
      if tag =? 0x8C then parse_swissbit_text value else swissbit_loop fuel rest
  | _, _ => None
  end.
Definition parse_swissbit_device_name (data : list Z) : option (list Z) :=
  '(tag, body, _) ← split_tlv data;
  if negb (tag =? 0x30) then None else swissbit_loop (length body) body.

(** Packed decimal digits; none above 9. *)
Fixpoint bcd_number (decoded : Z) (bytes : list Z) : option Z :=
  match bytes with
  | [] => Some decoded
  | b :: bytes =>
      let hi := Z.shiftr b 4 in let lo := Z.land b 0xF in
      if (9 <? hi) || (9 <? lo) then None else bcd_number ((decoded * 10 + hi) * 10 + lo) bytes
  end.
(** [data.get(from..to)]. *)
Definition get_range (data : list Z) (from to : Z) : option (list Z) :=
  if (from <=? to) && (to <=? zlen data) then Some (slice data (Z.to_nat from) (Z.to_nat to)) else None.
Definition parse_cplc_serial (data : list Z) : option Z :=
  cplc ← (match data with
          | 0x9F :: 0x7F :: rest =>
              '(len, header) ← result_ok (read_ber_len rest);
              get_range data (2 + header) (2 + header + len)
          | _ => Some data
          end);
  if zlen cplc <? 18 then None
  else bcd_number 0 (slice cplc 0 2 ++ slice cplc 2 4 ++ slice cplc 16 18 ++ slice cplc 12 16).

Definition parse_ascii_text (data : list Z) : option (list Z) :=
  if bool_decide (data = []) then None else Some (from_utf8_lossy data).
Definition parse_dotted_version (s : list Z) : option (list Z) :=
  if bool_decide (s = []) then None else mapM (parse_uint 8) (split_on 46 s).

Definition TOKEN2_SERIAL_PREFIX_GENERATION : list (list Z * list Z) :=
  map (fun p => (p, [3; 3]))
    [s2b "66105"; s2b "66104"; s2b "66103"; s2b "66107"; s2b "66106"; s2b "66114"; s2b "66113"; s2b "66202"; s2b "66102";
     s2b "66302"; s2b "66101"; s2b "66111"; s2b "72113"; s2b "24133"] ++
  map (fun p => (p, [3; 4]))
    [s2b "65103"; s2b "65104"; s2b "72114"; s2b "65101"; s2b "65111"; s2b "65202"; s2b "65102"; s2b "65302"].
Definition token2_firmware_from_serial (serial : Z) : option (list Z) :=
  let text := dec serial in
  if zlen text <? 5 then None
  else snd <$> List.find (fun e => bool_decide (e.1 = take 5 text)) TOKEN2_SERIAL_PREFIX_GENERATION.

Definition parse_nitrokey_variant (data : list Z) : option (list Z) :=
  v ← data !! 4%nat;
  if v =? 0 then Some (s2b "USBIP") else if v =? 1 then Some (s2b "LPC55") else if v =? 2 then Some (s2b "NRF52") else None.
Definition format_nitrokey_name (variant : list Z) : list Z := s2b "Nitrokey (" ++ variant ++ s2b ")".
Definition format_yubikey_name (version : list Z) : option (list Z) :=
  major ← version !! 0%nat; Some (s2b "Yubico YubiKey " ++ dec major ++ s2b " Series").

(** [s.rfind(p)] for a pattern of a few bytes. *)
Fixpoint rfind (p s : list Z) : option nat :=
  match s with
  | [] => if starts_with p [] then Some O else None
  | _ :: rest => match rfind p rest with Some i => Some (S i) | None => if starts_with p s then Some O else None end
  end.
Definition strip_redundant_applet_version_suffix (name version : list Z) : list Z :=
  match rfind (s2b "applet") (to_ascii_lowercase name) with
  | None => name
  | Some idx =>
      let after := drop (idx + 6) name in
      let digits := trim_start after in
      if zlen digits =? zlen after then name else
      match parse_dotted_version digits with
      | None => name
      | Some name_version => if starts_with name_version version then trim_end (take idx name) else name
      end
  end.

(** * HID Crescendo *)

Definition hid_crescendo_xauth_key_alg (challenge_len : Z) : option MgmtAlg :=
  if challenge_len =? 8 then Some TripleDes else if challenge_len =? 16 then Some Aes128 else None.
Definition hid_crescendo_aca_external_authenticate (host_cryptogram : list Z) : list Z :=
  [0x00; 0x82; 0x00; 0x01; cast 8 (zlen host_cryptogram)] ++ host_cryptogram.
Definition hid_crescendo_aca_put_xauth_key (alg : MgmtAlg) (key : list Z) : option (list Z) :=
  if negb (bool_decide (alg = TripleDes) || bool_decide (alg = Aes128)) then None
  else if negb (zlen key =? mgmt_key_len alg) then None else
  let data := [0x00; mgmt_id alg; cast 8 (zlen key + 1); cast 8 (zlen key)] ++ key ++ [0x00] in
  Some ([0x00; 0xD8; 0x01; 0x00; cast 8 (zlen data)] ++ data).
Definition hid_crescendo_aca_put_xauth_key_remove : list Z := [0x00; 0xD8; 0x01; 0x00; 0x04; 0x00; 0x03; 0x00; 0x00].

Fixpoint slot_blocks_loop (fuel : nat) (buf : list Z) : list (list Z) :=
  match fuel, buf with
  | S fuel, tag :: rest =>
      match read_ber_len rest with
      | Err _ => []
      | Ok (len, header) =>
          match get_range rest header (header + len) with
          | None => []
          | Some value =>
              let more := slot_blocks_loop fuel (drop (Z.to_nat (header + len)) rest) in
              if tag =? 0x51 then value :: more else more
          end
      end
  | _, _ => []
  end.
Definition hid_crescendo_slot_blocks (discretionary : list Z) : list (list Z) := slot_blocks_loop (length discretionary) discretionary.
(** [unwrap_data_object(data).unwrap_or(data)]. *)
Definition discretionary (data : list Z) : list Z := match unwrap_data_object data with Ok v => v | Err _ => data end.

Definition loaded_slot (value : list Z) : option (Z * Z) :=
  key_ref ← (find_tlv value 0x48 ≫= head);
  params ← find_tlv value 0x43;
  alg_id ← head params;
  let set i := match params !! i with Some b => negb (b =? 0) | None => false end in
  if set 2%nat || set 3%nat then Some (key_ref, alg_id) else None.
Definition parse_hid_crescendo_slot_key_algorithms (data : list Z) : list (Z * Z) :=
  omap loaded_slot (hid_crescendo_slot_blocks (discretionary data)).
Definition hid_crescendo_reports_slot (data : list Z) (key_ref : Z) : bool :=
  existsb (fun value => bool_decide (find_tlv value 0x48 = Some [key_ref])) (hid_crescendo_slot_blocks (discretionary data)).
Definition parse_hid_crescendo_version (data : list Z) : option (list Z) :=
  v ← find_tlv (discretionary data) 0x01;
  match v with _ :: version => Some version | [] => None end.

Definition hid_crescendo_algorithm_from_id (id : Z) : option KeyAlg :=
  if id =? 0x04 then Some Rsa4096 else if id =? 0x05 then Some Rsa3072 else if id =? 0x07 then Some Rsa2048
  else if id =? 0x11 then Some EccP256 else if id =? 0x14 then Some EccP384 else None.
Definition hid_crescendo_c4000_algorithm_id (alg : KeyAlg) : option Z :=
  match alg with
  | Rsa4096 => Some 0x04 | Rsa3072 => Some 0x05 | Rsa2048 => Some 0x07 | EccP256 => Some 0x11 | EccP384 => Some 0x14
  | Rsa1024 | EccP521 | Ed25519 | X25519 => None
  end.
Definition hid_crescendo_c2300_delete_key (alg : KeyAlg) (key_ref : Z) : option (list Z) :=
  '(p1, alg_id) ← (match alg with
                   | Rsa1024 | Rsa2048 | Rsa3072 | Rsa4096 => Some (0x00, 0xA3)
                   | EccP256 | EccP384 | EccP521 => Some (0x03, 0xB1)
                   | Ed25519 | X25519 => None
                   end);
  Some [0x80; 0xD8; p1; key_ref; 0x03; 0x00; alg_id; 0x00].
Definition hid_crescendo_c4000_delete_key (alg : KeyAlg) (key_ref : Z) : option (list Z) :=
  p1 ← hid_crescendo_c4000_algorithm_id alg; Some [0x80; 0xD8; p1; key_ref; 0x03; 0x00; 0x00; 0x00].

(** * Fingerprints *)

Inductive ArekinathVariant := ArekinathGeneric | SwissbitIShield1.
Inductive HidCrescendoVariant := CrescendoGeneric | C2300 | C4000.
Inductive TrussedVariant := Nitrokey.
Inductive OpenFips201Variant := OpenFipsGeneric | SwissbitIShield2.
Inductive UTrustVariant := UTrustGeneric | Gov.
Inductive AppletFingerprint :=
  | Generic | ArekinathPivApplet (v : ArekinathVariant) | AuthentrendATKey | Feitian | HidCrescendo (v : HidCrescendoVariant)
  | IdPrime | Trussed (v : TrussedVariant) | OpenFips201 (v : OpenFips201Variant) | Thetis | Token2 | UTrust (v : UTrustVariant)
  | YubiKey.
#[export] Instance AppletFingerprint_eq_dec : EqDecision AppletFingerprint.
Proof. intros a b. unfold Decision. repeat decide equality. Defined.

Definition arekinath_text (v : ArekinathVariant) : list Z :=
  match v with ArekinathGeneric => s2b "Generic" | SwissbitIShield1 => s2b "SwissbitIShield1" end.
Definition crescendo_text (v : HidCrescendoVariant) : list Z :=
  match v with CrescendoGeneric => s2b "Generic" | C2300 => s2b "C2300" | C4000 => s2b "C4000" end.
Definition trussed_text (v : TrussedVariant) : list Z := match v with Nitrokey => s2b "Nitrokey" end.
Definition openfips_text (v : OpenFips201Variant) : list Z :=
  match v with OpenFipsGeneric => s2b "Generic" | SwissbitIShield2 => s2b "SwissbitIShield2" end.
Definition utrust_text (v : UTrustVariant) : list Z := match v with UTrustGeneric => s2b "Generic" | Gov => s2b "Gov" end.
Definition fingerprint_text (f : AppletFingerprint) : list Z :=
  match f with
  | Generic => s2b "Generic"
  | ArekinathPivApplet v => s2b "ArekinathPivApplet::" ++ arekinath_text v
  | AuthentrendATKey => s2b "AuthentrendATKey"
  | Feitian => s2b "Feitian"
  | HidCrescendo v => s2b "HidCrescendo::" ++ crescendo_text v
  | IdPrime => s2b "IdPrime"
  | Trussed v => s2b "Trussed::" ++ trussed_text v
  | OpenFips201 v => s2b "OpenFips201::" ++ openfips_text v
  | Thetis => s2b "Thetis"
  | Token2 => s2b "Token2"
  | UTrust v => s2b "UTrust::" ++ utrust_text v
  | YubiKey => s2b "YubiKey"
  end.

Definition applet_name (f : AppletFingerprint) : list Z :=
  match f with
  | Generic => s2b "Generic PIV"
  | ArekinathPivApplet ArekinathGeneric => s2b "Generic Arekinath's PivApplet Variant"
  | ArekinathPivApplet SwissbitIShield1 => s2b "Swissbit iShield 1 Series"
  | AuthentrendATKey => s2b "Authentrend ATKey Series"
  | Feitian => s2b "Feitian Security Key"
  | HidCrescendo CrescendoGeneric => s2b "HID Crescendo ActivId"
  | HidCrescendo C2300 => s2b "HID Crescendo C2300"
  | HidCrescendo C4000 => s2b "HID Crescendo C4000"
  | IdPrime => s2b "IdPrime PIV Series"
  | Trussed Nitrokey => s2b "Nitrokey"
  | OpenFips201 OpenFipsGeneric => s2b "Generic OpenFIPS201"
  | OpenFips201 SwissbitIShield2 => s2b "Swissbit iShield 2 Series"
  | Thetis => s2b "Thetis Series"
  | Token2 => s2b "Token2 Series"
  | UTrust UTrustGeneric => s2b "Identiv/Hirsch uTrust Series"
  | UTrust Gov => s2b "Identiv/Hirsch uTrust Gov Series"
  | YubiKey => s2b "Yubico YubiKey Series"
  end.

(** * Historical bytes *)

(** The interface bytes of one TDi: TA, TB and TC as [y] announces them. *)
Definition skip_interface (atr : list Z) (y pos : Z) : option Z :=
  let step pos bit := p ← pos; if Z.testbit y bit then _ ← atr !! Z.to_nat p; Some (p + 1) else Some p in
  foldl step (Some pos) [0; 1; 2].
(** Each further turn reads a TD byte, so [length atr] turns are enough. *)
Fixpoint interface_loop (fuel : nat) (atr : list Z) (y pos : Z) : option Z :=
  match fuel with
  | O => None
  | S fuel =>
      pos ← skip_interface atr y pos;
      if negb (Z.testbit y 3) then Some pos else
      td ← atr !! Z.to_nat pos;
      interface_loop fuel atr (Z.shiftr td 4) (pos + 1)
  end.
Definition atr_historical_bytes (atr : list Z) : option (list Z) :=
  t0 ← atr !! 1%nat;
  pos ← interface_loop (S (length atr)) atr (Z.shiftr t0 4) 2;
  get_range atr pos (pos + Z.land t0 0x0F).

Fixpoint compact_tlv (fuel : nat) (data : list Z) : list (Z * list Z) :=
  match fuel, data with
  | S fuel, head :: rest =>
      let len := Z.land head 0x0F in
      if (head =? 0x00) || (zlen rest <? len) then []
      else (Z.shiftr head 4, take (Z.to_nat len) rest) :: compact_tlv fuel (drop (Z.to_nat len) rest)
  | _, _ => []
  end.
(** Each byte as the character of that number. *)
Definition bytes_as_chars (raw : list Z) : list Z := utf8_encode raw.

Definition atr_identity (historical : list Z) : option (list Z) :=
  match historical with
  | [] => None
  | category :: rest =>
      raw ← (if (category =? 0x00) || (category =? 0x80)
             then snd <$> List.find (fun e => e.1 =? 0x5) (compact_tlv (length rest) rest)
             else Some historical);
      if bool_decide (raw = []) then None else Some (bytes_as_chars raw)
  end.
Definition select_identity (select_response : list Z) : option (list Z) :=
  value ← find_tlv_recursive select_response 0x50;
  if bool_decide (value = []) then None else Some (from_utf8_lossy value).
Definition is_some_and {A} (f : A -> bool) (o : option A) : bool := match o with Some a => f a | None => false end.
Definition wants_swissbit_probe (select_identity : option (list Z)) : bool :=
  is_some_and (fun s => contains (s2b "openfips201") (to_ascii_lowercase s)) select_identity.

Definition classify (atr_identity select_identity : option (list Z))
    (swissbit_rid_selectable feitian_rid_selectable idprime_aid_selectable : bool) : AppletFingerprint :=
  let atr := to_ascii_lowercase <$> atr_identity in
  let sel := to_ascii_lowercase <$> select_identity in
  let atr_is s := bool_decide (atr = Some s) in
  let sel_starts p := is_some_and (starts_with p) sel in
  let arekinath := is_some_and (fun s => starts_with (s2b "pivapplet") s && contains [47] s) sel in
  let open_fips_201 := is_some_and (contains (s2b "openfips201")) sel in
  let hid_crescendo_sel := sel_starts (s2b "hid global activid") in
  if arekinath && atr_is (s2b "ishield") then ArekinathPivApplet SwissbitIShield1
  else if open_fips_201 && swissbit_rid_selectable then OpenFips201 SwissbitIShield2
  else if arekinath then ArekinathPivApplet ArekinathGeneric
  else if atr_is (s2b "c2300") || atr_is (s2b "c4000") || hid_crescendo_sel then
    HidCrescendo (if atr_is (s2b "c2300") then C2300 else if atr_is (s2b "c4000") then C4000 else CrescendoGeneric)
  else if sel_starts (s2b "nitrokey") then Trussed Nitrokey
  else if open_fips_201 then OpenFips201 OpenFipsGeneric
  else if is_some_and (fun a => starts_with (s2b "tk" ++ [0] ++ s2b "piv") a || starts_with (s2b "tk piv") a) atr then Token2
  else if is_some_and (fun a => contains (s2b "piv") a && contains (s2b "8888888") a) atr then Thetis
  else if atr_is (s2b "utrust") then UTrust UTrustGeneric
  else if atr_is (s2b "yubikey") then YubiKey
  else if sel_starts (s2b "atpiv") then AuthentrendATKey
  else if feitian_rid_selectable then Feitian
  else if idprime_aid_selectable then IdPrime
  else Generic.

(** A YubiKey 5's ATR: direct convention, one TD, the category byte 80 and a COMPACT-TLV
    of its name. *)
Example yubikey_atr :
  (atr_historical_bytes ([0x3B; 0xFD; 0x13; 0x00; 0x00; 0x81; 0x31; 0xFE; 0x15; 0x80; 0x73; 0xC0; 0x21; 0xC0; 0x57] ++
     s2b "YubiKey" ++ [0x40]) ≫= atr_identity) = Some (s2b "YubiKey") /\
  classify (Some (s2b "YubiKey")) None false false false = YubiKey /\
  atr_historical_bytes [0x3B; 0xF2; 0x00] = None.
Proof. vm_compute. done. Qed.
Example names_cleaned :
  strip_redundant_applet_version_suffix (s2b "OpenFIPS201 Applet 1.10") [1; 10; 2] = s2b "OpenFIPS201" /\
  strip_redundant_applet_version_suffix (s2b "OpenFIPS201 Applet 1.1") [1; 10; 2] = s2b "OpenFIPS201 Applet 1.1" /\
  token2_firmware_from_serial 6510312345 = Some [3; 4].
Proof. vm_compute. done. Qed.

(** * Answers to reset *)

(** The interface bytes TA, TB and TC of one TD (or of T0), and the protocol of that TD. *)
Record Interface := mkInterface { if_a : option Z; if_b : option Z; if_c : option Z; if_t : Z }.
Definition if_bytes (g : Interface) : list Z := option_list (if_a g) ++ option_list (if_b g) ++ option_list (if_c g).
Definition flag (o : option Z) (bit : Z) : Z := match o with Some _ => bit | None => 0 end.
(** The announcement nibble: which of TA, TB, TC follow, and whether a TD does. *)
Definition if_nibble (g : Interface) (rest : list Interface) : Z :=
  flag (if_a g) 1 + flag (if_b g) 2 + flag (if_c g) 4 + match rest with [] => 0 | _ => 8 end.
Fixpoint if_chain (g : Interface) (rest : list Interface) : list Z :=
  if_bytes g ++ match rest with [] => [] | g' :: rest' => (16 * if_nibble g' rest' + if_t g') :: if_chain g' rest' end.
(** ISO 7816-3: TS, T0, the interface bytes, the historical bytes, and what follows them. *)
Definition build_atr (ts : Z) (g : Interface) (rest : list Interface) (historical check : list Z) : list Z :=
  ts :: (16 * if_nibble g rest + zlen historical) :: if_chain g rest ++ historical ++ check.

Lemma if_nibble_bits g rest :
  Z.testbit (if_nibble g rest) 0 = bool_decide (is_Some (if_a g)) /\ Z.testbit (if_nibble g rest) 1 = bool_decide (is_Some (if_b g)) /\
  Z.testbit (if_nibble g rest) 2 = bool_decide (is_Some (if_c g)) /\
  Z.testbit (if_nibble g rest) 3 = bool_decide (rest <> []) /\ 0 <= if_nibble g rest < 16.
Proof. destruct g as [[] [] [] t], rest; cbn; done. Qed.
Lemma shiftr_nibble n t : 0 <= t < 16 -> Z.shiftr (16 * n + t) 4 = n.
Proof. intros. rewrite Z.shiftr_div_pow2, Z.mul_comm by lia. change (2 ^ 4) with 16. rewrite Z.div_add_l, Z.div_small; lia. Qed.
Lemma land_nibble n t : 0 <= t < 16 -> Z.land (16 * n + t) 0x0F = t.
Proof.
  intros. change 0x0F with (Z.ones 4). rewrite Z.land_ones, Z.add_comm, Z.mul_comm by lia. change (2 ^ 4) with 16.
  rewrite Z.mod_add, Z.mod_small; lia.
Qed.
Lemma lookup_from (pre l : list Z) (k : nat) x : l !! k = Some x -> (pre ++ l) !! Z.to_nat (zlen pre + Z.of_nat k) = Some x.
Proof. intros H. unfold zlen. rewrite <- Nat2Z.inj_add, Nat2Z.id, lookup_app_r by lia. by rewrite Nat.add_comm, Nat.add_sub. Qed.

Lemma lookup_at (pre : list Z) x post : (pre ++ x :: post) !! Z.to_nat (zlen pre) = Some x.
Proof. rewrite <- (Z.add_0_r (zlen pre)). by apply (lookup_from pre (x :: post) 0). Qed.

Lemma skip_interface_built pre g rest post :
  skip_interface (pre ++ if_bytes g ++ post) (if_nibble g rest) (zlen pre) = Some (zlen pre + zlen (if_bytes g)).
Proof.
  destruct (if_nibble_bits g rest) as (B0 & B1 & B2 & _). unfold skip_interface. cbn [foldl]. rewrite B0, B1, B2.
  pose proof (fun k x => lookup_from pre (if_bytes g ++ post) k x) as L.
  pose proof (L 0%nat) as L0. pose proof (L 1%nat) as L1. pose proof (L 2%nat) as L2.
  change (Z.of_nat 0) with 0 in L0. change (Z.of_nat 1) with 1 in L1. change (Z.of_nat 2) with 2 in L2.
  rewrite Z.add_0_r in L0. clear L B0 B1 B2. destruct g as [[a|] [b|] [c|] t]; cbn in *;
    rewrite ?(L0 _ eq_refl); cbn; rewrite ?(L1 _ eq_refl); cbn; try rewrite <- !Z.add_assoc; try change (1 + 1) with 2;
    rewrite ?(L2 _ eq_refl); cbn; f_equal; unfold zlen; cbn; lia.
Qed.

Lemma if_chain_length rest : forall g, (length rest <= length (if_chain g rest))%nat.
Proof. induction rest as [|g' rest IH]; intros g; cbn [if_chain]; rewrite length_app; simpl; [lia|]. specialize (IH g'). lia. Qed.

Lemma interface_loop_built rest : forall pre g post fuel, Forall (fun g => 0 <= if_t g < 16) rest -> (length rest < fuel)%nat ->
  interface_loop fuel (pre ++ if_chain g rest ++ post) (if_nibble g rest) (zlen pre) = Some (zlen pre + zlen (if_chain g rest)).
Proof.
  induction rest as [|g' rest IH]; intros pre g post fuel Ht Hf; (destruct fuel as [|fuel]; [simpl in Hf; lia|]);
    cbn [interface_loop if_chain]; rewrite <- ?app_assoc, skip_interface_built; cbn [mbind option_bind];
    rewrite (proj1 (proj2 (proj2 (proj2 (if_nibble_bits g _))))).
  - rewrite bool_decide_eq_false_2 by (intros H; by apply H). cbn. by rewrite app_nil_r.
  - rewrite bool_decide_eq_true_2 by done. cbn [negb]. apply list.Forall_cons in Ht as (Hg & Ht).
    rewrite (app_assoc pre), <- zlen_app. cbn [app]. rewrite lookup_at. cbn [mbind option_bind].
    rewrite shiftr_nibble by done.
    specialize (IH ((pre ++ if_bytes g) ++ [16 * if_nibble g' rest + if_t g']) g' post fuel Ht). simpl in Hf.
    rewrite <- (app_assoc (pre ++ if_bytes g)) in IH. cbn [app] in IH.
    rewrite zlen_app in IH at 1. change (zlen [_]) with 1 in IH. rewrite IH by lia.
    f_equal. rewrite !zlen_app. unfold zlen. cbn. lia.
Qed.

(** From every well-formed answer to reset, whatever interface bytes and chain of TDs it
    carries, exactly its historical bytes are taken. *)
Theorem atr_historical_built ts g rest historical check :
  Forall (fun g => 0 <= if_t g < 16) rest -> zlen historical < 16 ->
  atr_historical_bytes (build_atr ts g rest historical check) = Some historical.
Proof.
  intros Ht Hh. assert (0 <= zlen historical) by (unfold zlen; lia).
  unfold atr_historical_bytes, build_atr. cbn [lookup list_lookup mbind option_bind].
  rewrite shiftr_nibble, land_nibble by lia.
  set (t0 := 16 * if_nibble g rest + zlen historical).
  change 2 with (zlen [ts; t0]) at 1. change (ts :: t0 :: ?l) with ([ts; t0] ++ l).
  rewrite app_nil_r, interface_loop_built; [|done|].
  - cbn [mbind option_bind]. unfold get_range. rewrite (app_assoc [ts; t0]), <- !zlen_app.
    rewrite !(proj2 (Z.leb_le _ _)) by (rewrite ?zlen_app; unfold zlen; lia).
    cbn [andb]. f_equal. unfold zlen. rewrite !Nat2Z.id, (length_app (_ ++ _)). apply slice_app.
  - cbn [app length]. rewrite length_app. pose proof (if_chain_length rest g). lia.
Qed.
Lemma atr_historical_built_witness :
  atr_historical_bytes (build_atr 0x3B (mkInterface (Some 0x13) None None 0) [mkInterface None None (Some 0x81) 1] (s2b "piv") [0])
    = Some (s2b "piv").
Proof. apply atr_historical_built; [|reflexivity]. apply list.Forall_cons. split; [cbn; lia|by apply list.Forall_nil]. Defined.
