(* ===== verification/PivTables.v ===== *)
(** keyroost-piv/src/compat.rs, its data: the vendor extensions of PIV, the behavioural
    quirks, and for each applet fingerprint the five tables keyroost knows about it, row
    for row. Versions are byte strings, the universal one being the empty string. *)
From S2P Require Export PivFingerprint.

(** * Extensions *)

Inductive MgmtAlgChoice := CTripleDes | CAes128 | CAes192 | CAes256 | CDelete.
#[export] Instance MgmtAlgChoice_eq_dec : EqDecision MgmtAlgChoice.
Proof. solve_decision. Defined.
Definition to_mgmt_alg (c : MgmtAlgChoice) : option MgmtAlg :=
  match c with
  | CTripleDes => Some TripleDes | CAes128 => Some Aes128 | CAes192 => Some Aes192 | CAes256 => Some Aes256 | CDelete => None
  end.
Definition mgmt_choice_label (c : MgmtAlgChoice) : list Z :=
  match c with
  | CDelete => s2b "Delete" | CTripleDes => mgmt_label TripleDes | CAes128 => mgmt_label Aes128
  | CAes192 => mgmt_label Aes192 | CAes256 => mgmt_label Aes256
  end.

Inductive PivExtension :=
  | XMoveKey | XDeleteKey | XGetMetadata | XGetSlotKeyStatus | XAttest | XPinManagementAuth | XReset | XResetGlobal
  | XSetPinPukRetries | XSetManagementKey | XSlotPinPolicy | XSlotTouchPolicy | XSlotKeyAlgorithm (a : KeyAlg)
  | XManagementKeyAlgorithm (c : MgmtAlgChoice) | XImportKey (a : KeyAlg).
#[export] Instance PivExtension_eq_dec : EqDecision PivExtension.
Proof. solve_decision. Defined.

Definition requirement (e : PivExtension) : list Z :=
  match e with
  | XMoveKey =>
      s2b "Moving keys between slots is an extension to standard PIV (YubiKey 5.7+ and other keys that implement it)."
  | XDeleteKey => s2b "Deleting a key is an extension to standard PIV (YubiKey 5.7+ and other keys that implement it)."
  | XGetMetadata =>
      s2b "Reading key/PIN metadata is an extension to standard PIV (YubiKey 5.3+ and other keys that implement it)."
  | XGetSlotKeyStatus =>
      s2b "Reading a slot's key occupancy directly is an extension to standard PIV (YubiKey 5.3+ and other keys that implement it)."
  | XAttest =>
      s2b "Reading a key's attestation certificate is an extension to standard PIV (YubiKey 4.3+ and other keys that implement it)."
  | XPinManagementAuth =>
      s2b "Unlocking management with the PIN instead of the management key is an extension to standard PIV " ++
      s2b "(YubiKey 3+ and other keys that implement it)."
  | XReset => s2b "Resetting the PIV applet is an extension to standard PIV (YubiKey and other keys that implement it)."
  | XResetGlobal => s2b "A device-wide reset that includes PIV uses the device's own command (e.g. HID Crescendo)."
  | XSetPinPukRetries =>
      s2b "Setting the PIN/PUK retry counts is an extension to standard PIV (YubiKey and other keys that implement it)."
  | XSetManagementKey =>
      s2b "Changing the management key is an extension to standard PIV (YubiKey and other keys that implement it)."
  | XSlotPinPolicy =>
      s2b "Setting a slot's PIN policy is an extension to standard PIV (YubiKey 4+ and other keys that implement it)."
  | XSlotTouchPolicy =>
      s2b "Setting a slot's touch policy is an extension to standard PIV (YubiKey 4+ and other keys that implement it)."
  | XSlotKeyAlgorithm alg => s2b "Not every key can generate " ++ alg_label alg ++ s2b " keys."
  | XImportKey alg => s2b "Not every key can import " ++ alg_label alg ++ s2b " keys."
  | XManagementKeyAlgorithm CDelete =>
      s2b "Deleting the management key outright uses the device's own command (e.g. HID Crescendo)."
  | XManagementKeyAlgorithm alg => s2b "Not every key accepts a " ++ mgmt_choice_label alg ++ s2b " management key."
  end.

(** * Quirks *)

Inductive PivQuirk :=
  | QInsF8SerialIsBcd | QInsF7MetadataAlgorithmInvalid | QInsF7MetadataPinTouchPolicyInvalid | QResetNeedsManagementAuth
  | QDefault9bManagementKey (key : list Z) | QDefaultPinPuk (pin puk : list Z) | QResetLongRunning
  | QResetFailsIfManagementKeyIsAes | QSlotPinPolicyOnceNotSupported | QSlotTouchPolicyCachedNotSupported
  | QHostChallengeResponsePermissiveTag | QNoTouchToGenerateOrImport | QNeverAsksForTouch.
#[export] Instance PivQuirk_eq_dec : EqDecision PivQuirk.
Proof. solve_decision. Defined.

(** [#[derive(PartialOrd, Ord)]]: the order of declaration, then the payloads. *)
Definition quirk_rank (q : PivQuirk) : Z :=
  match q with
  | QInsF8SerialIsBcd => 0 | QInsF7MetadataAlgorithmInvalid => 1 | QInsF7MetadataPinTouchPolicyInvalid => 2
  | QResetNeedsManagementAuth => 3 | QDefault9bManagementKey _ => 4 | QDefaultPinPuk _ _ => 5 | QResetLongRunning => 6
  | QResetFailsIfManagementKeyIsAes => 7 | QSlotPinPolicyOnceNotSupported => 8 | QSlotTouchPolicyCachedNotSupported => 9
  | QHostChallengeResponsePermissiveTag => 10 | QNoTouchToGenerateOrImport => 11 | QNeverAsksForTouch => 12
  end.
Definition cmp_quirk (a b : PivQuirk) : comparison :=
  then_with (quirk_rank a ?= quirk_rank b)
    (match a, b with
     | QDefault9bManagementKey k, QDefault9bManagementKey k' => cmp_str k k'
     | QDefaultPinPuk pin puk, QDefaultPinPuk pin' puk' => then_with (cmp_str pin pin') (cmp_str puk puk')
     | _, _ => Eq
     end).
(** A [BTreeSet<PivQuirk>] is the sorted list of its elements. *)
Definition btree_set (l : list PivQuirk) : list PivQuirk := dedup (sort_by cmp_quirk l).

Definition RESET_LONG_RUNNING_HINT : list Z :=
  s2b "This device is known to take a long time to reset " ++ [0xE2; 0x80; 0x94] ++
  s2b " more than a minute is not unusual. Be patient; do not unplug the device or abort.".
(** [iter().find_map(f)]. *)
Fixpoint find_map {A B} (f : A -> option B) (l : list A) : option B :=
  match l with [] => None | a :: l => match f a with Some b => Some b | None => find_map f l end end.
Definition default_9b_management_key (quirks : list PivQuirk) : option (list Z) :=
  find_map (fun q => match q with QDefault9bManagementKey key => Some key | _ => None end) quirks.
Definition default_pin_puk (quirks : list PivQuirk) : option (list Z * list Z) :=
  find_map (fun q => match q with QDefaultPinPuk pin puk => Some (pin, puk) | _ => None end) quirks.
Definition default_pin_puk_text (quirks : list PivQuirk) : option (list Z) :=
  (fun '(pin, puk) => s2b "PIN " ++ pin ++ s2b ", PUK " ++ puk) <$> default_pin_puk quirks.

Definition YUBIKEY_DEFAULT_PIN_PUK : PivQuirk := QDefaultPinPuk (s2b "123456") (s2b "12345678").
Definition TOKEN2_DEFAULT_PIN_PUK : PivQuirk := QDefaultPinPuk (s2b "865362") (s2b "86536286").

(** * The rows of the tables *)

Inductive Verdict := KnownSupported | KnownUnsupported | KnownUnsupportedSince.
#[export] Instance Verdict_eq_dec : EqDecision Verdict.
Proof. solve_decision. Defined.
Record VersionVerdict := mkVV { vv_version : list Z; vv_verdict : Verdict }.
Record ExtensionVerdicts := mkEV { ev_extensions : list PivExtension; ev_verdicts : list VersionVerdict }.
Record VersionQuirks := mkVQ { vq_version : list Z; vq_quirks : list PivQuirk }.
Inductive AxisMergeMode := MergeRelaxed | MergeStrict | AppletWins | FirmwareWins.

Definition YUBIKEY_DEFAULT_MGMT_KEY : list Z :=
  [0x01; 0x02; 0x03; 0x04; 0x05; 0x06; 0x07; 0x08; 0x01; 0x02; 0x03; 0x04; 0x05; 0x06; 0x07; 0x08;
   0x01; 0x02; 0x03; 0x04; 0x05; 0x06; 0x07; 0x08].
Definition TOKEN2_DEFAULT_MGMT_KEY : list Z :=
  [0x86; 0x53; 0x62; 0x86; 0x53; 0x62; 0x86; 0x53; 0x62; 0x86; 0x53; 0x62; 0x86; 0x53; 0x62; 0x86;
   0x53; 0x62; 0x86; 0x53; 0x62; 0x86; 0x53; 0x62].
Definition FEITIAN_DEFAULT_MGMT_KEY : list Z :=
  [0x31; 0x32; 0x33; 0x34; 0x35; 0x36; 0x37; 0x38; 0x31; 0x32; 0x33; 0x34; 0x35; 0x36; 0x37; 0x38;
   0x31; 0x32; 0x33; 0x34; 0x35; 0x36; 0x37; 0x38].
Definition IDPRIME_AND_UTRUST_GOV_DEFAULT_MGMT_KEY : list Z :=
  [0x01; 0x02; 0x03; 0x04; 0x05; 0x06; 0x07; 0x08; 0x01; 0x02; 0x03; 0x04; 0x05; 0x06; 0x07; 0x08].

(** * One block of tables per fingerprint *)

Definition YUBIKEY_AXIS_MERGE_MODE : AxisMergeMode := MergeRelaxed.
Definition YUBIKEY_APPLET_VERDICTS : list ExtensionVerdicts :=
  [mkEV [XMoveKey; XDeleteKey; XSlotKeyAlgorithm Rsa3072; XSlotKeyAlgorithm Rsa4096; XSlotKeyAlgorithm Ed25519;
      XSlotKeyAlgorithm X25519] [mkVV [] KnownUnsupported; mkVV [5; 7] KnownSupported];
   mkEV [XAttest] [mkVV [] KnownUnsupported; mkVV [4; 3] KnownSupported];
   mkEV [XGetMetadata] [mkVV [] KnownUnsupported; mkVV [5; 3] KnownSupported];
   mkEV [XPinManagementAuth] [mkVV [3] KnownSupported];
   mkEV [XReset; XSetPinPukRetries; XSetManagementKey; XSlotKeyAlgorithm Rsa1024; XSlotKeyAlgorithm Rsa2048;
      XSlotKeyAlgorithm EccP256; XSlotKeyAlgorithm EccP384; XManagementKeyAlgorithm CTripleDes; XManagementKeyAlgorithm
      CAes128; XManagementKeyAlgorithm CAes192; XManagementKeyAlgorithm CAes256] [mkVV [] KnownSupported];
   mkEV [XResetGlobal; XSlotKeyAlgorithm EccP521; XManagementKeyAlgorithm CDelete] [mkVV [] KnownUnsupportedSince];
   mkEV [XSlotPinPolicy; XSlotTouchPolicy] [mkVV [4] KnownSupported]].
Definition YUBIKEY_FIRMWARE_VERDICTS : list ExtensionVerdicts := [].
Definition YUBIKEY_APPLET_QUIRKS : list VersionQuirks :=
  [mkVQ [] [QDefault9bManagementKey YUBIKEY_DEFAULT_MGMT_KEY; YUBIKEY_DEFAULT_PIN_PUK; QNoTouchToGenerateOrImport];
   mkVQ [3] [QDefault9bManagementKey YUBIKEY_DEFAULT_MGMT_KEY; YUBIKEY_DEFAULT_PIN_PUK;
      QSlotTouchPolicyCachedNotSupported; QNoTouchToGenerateOrImport];
   mkVQ [4; 3] [QDefault9bManagementKey YUBIKEY_DEFAULT_MGMT_KEY; YUBIKEY_DEFAULT_PIN_PUK; QNoTouchToGenerateOrImport]].
Definition YUBIKEY_FIRMWARE_QUIRKS : list VersionQuirks := [].

Definition TOKEN2_AXIS_MERGE_MODE : AxisMergeMode := MergeRelaxed.
Definition TOKEN2_APPLET_VERDICTS : list ExtensionVerdicts :=
  [mkEV [XMoveKey; XDeleteKey; XSlotTouchPolicy] [mkVV [5; 112; 0] KnownUnsupported];
   mkEV [XReset; XSetPinPukRetries; XGetMetadata; XSetManagementKey; XSlotPinPolicy; XPinManagementAuth; XSlotKeyAlgorithm
      Rsa1024; XSlotKeyAlgorithm Rsa2048; XSlotKeyAlgorithm Rsa3072; XSlotKeyAlgorithm Rsa4096; XSlotKeyAlgorithm EccP256;
      XSlotKeyAlgorithm EccP384; XSlotKeyAlgorithm Ed25519; XSlotKeyAlgorithm X25519; XImportKey EccP256] [mkVV [5; 112;
      0] KnownSupported];
   mkEV [XManagementKeyAlgorithm CTripleDes; XManagementKeyAlgorithm CAes128; XManagementKeyAlgorithm CAes192;
      XManagementKeyAlgorithm CAes256] [mkVV [] KnownSupported];
   mkEV [XResetGlobal; XSlotKeyAlgorithm EccP521; XManagementKeyAlgorithm CDelete] [mkVV [] KnownUnsupportedSince]].
Definition TOKEN2_FIRMWARE_VERDICTS : list ExtensionVerdicts := [].
Definition TOKEN2_APPLET_QUIRKS : list VersionQuirks :=
  [mkVQ [] [QInsF8SerialIsBcd; QDefault9bManagementKey TOKEN2_DEFAULT_MGMT_KEY; TOKEN2_DEFAULT_PIN_PUK]].
Definition TOKEN2_FIRMWARE_QUIRKS : list VersionQuirks := [].

Definition SWISSBIT_ISHIELD2_AXIS_MERGE_MODE : AxisMergeMode := MergeRelaxed.
Definition SWISSBIT_ISHIELD2_APPLET_VERDICTS : list ExtensionVerdicts :=
  [mkEV [XMoveKey; XDeleteKey; XSlotPinPolicy; XSlotTouchPolicy] [mkVV [1; 4; 1; 0] KnownUnsupported];
   mkEV [XResetGlobal; XSlotKeyAlgorithm Rsa1024; XSlotKeyAlgorithm Ed25519; XSlotKeyAlgorithm X25519;
      XManagementKeyAlgorithm CDelete] [mkVV [] KnownUnsupportedSince];
   mkEV [XReset; XGetMetadata; XSlotKeyAlgorithm Rsa2048; XSlotKeyAlgorithm EccP256; XSlotKeyAlgorithm EccP384;
      XManagementKeyAlgorithm CTripleDes; XManagementKeyAlgorithm CAes128; XManagementKeyAlgorithm CAes192;
      XManagementKeyAlgorithm CAes256] [mkVV [] KnownSupported];
   mkEV [XSetManagementKey] [mkVV [1] KnownSupported];
   mkEV [XSlotKeyAlgorithm Rsa3072; XSlotKeyAlgorithm Rsa4096; XSlotKeyAlgorithm EccP521; XPinManagementAuth;
      XSetPinPukRetries] [mkVV [1; 0; 0; 0] KnownUnsupported; mkVV [1; 4] KnownSupported]].
Definition SWISSBIT_ISHIELD2_FIRMWARE_VERDICTS : list ExtensionVerdicts := [].
Definition SWISSBIT_ISHIELD2_APPLET_QUIRKS : list VersionQuirks :=
  [mkVQ [] [QInsF7MetadataAlgorithmInvalid; QInsF7MetadataPinTouchPolicyInvalid; QDefault9bManagementKey
      YUBIKEY_DEFAULT_MGMT_KEY]].
Definition SWISSBIT_ISHIELD2_FIRMWARE_QUIRKS : list VersionQuirks := [].

Definition THETIS_AXIS_MERGE_MODE : AxisMergeMode := MergeRelaxed.
Definition THETIS_APPLET_VERDICTS : list ExtensionVerdicts :=
  [mkEV [XMoveKey; XDeleteKey; XSlotTouchPolicy] [mkVV [5; 112; 0] KnownUnsupported];
   mkEV [XReset; XSetPinPukRetries; XGetMetadata; XSetManagementKey; XSlotPinPolicy; XPinManagementAuth; XSlotKeyAlgorithm
      Rsa1024; XSlotKeyAlgorithm Rsa2048; XSlotKeyAlgorithm Rsa3072; XSlotKeyAlgorithm Rsa4096; XSlotKeyAlgorithm EccP256;
      XSlotKeyAlgorithm EccP384; XSlotKeyAlgorithm Ed25519; XSlotKeyAlgorithm X25519] [mkVV [5; 112; 0] KnownSupported];
   mkEV [XManagementKeyAlgorithm CTripleDes; XManagementKeyAlgorithm CAes128; XManagementKeyAlgorithm CAes192;
      XManagementKeyAlgorithm CAes256] [mkVV [] KnownSupported];
   mkEV [XResetGlobal; XSlotKeyAlgorithm EccP521; XManagementKeyAlgorithm CDelete] [mkVV [] KnownUnsupportedSince]].
Definition THETIS_FIRMWARE_VERDICTS : list ExtensionVerdicts := [].
Definition THETIS_APPLET_QUIRKS : list VersionQuirks :=
  [mkVQ [] [QInsF8SerialIsBcd; QDefault9bManagementKey YUBIKEY_DEFAULT_MGMT_KEY]].
Definition THETIS_FIRMWARE_QUIRKS : list VersionQuirks := [].

Definition AREKINATH_GENERIC_AXIS_MERGE_MODE : AxisMergeMode := MergeRelaxed.
Definition AREKINATH_GENERIC_APPLET_VERDICTS : list ExtensionVerdicts :=
  [mkEV [XMoveKey; XDeleteKey; XSlotTouchPolicy] [mkVV [5; 4; 0] KnownUnsupported];
   mkEV [XGetMetadata] [mkVV [] KnownUnsupported; mkVV [5; 3; 0] KnownSupported];
   mkEV [XReset; XSetPinPukRetries; XPinManagementAuth] [mkVV [] KnownUnsupported; mkVV [5] KnownSupported];
   mkEV [XResetGlobal; XSlotKeyAlgorithm Rsa3072; XSlotKeyAlgorithm Rsa4096; XSlotKeyAlgorithm EccP521; XSlotKeyAlgorithm
      Ed25519; XSlotKeyAlgorithm X25519; XManagementKeyAlgorithm CDelete] [mkVV [] KnownUnsupportedSince];
   mkEV [XSetManagementKey; XSlotPinPolicy] [mkVV [4] KnownSupported];
   mkEV [XSlotKeyAlgorithm Rsa1024; XSlotKeyAlgorithm Rsa2048; XSlotKeyAlgorithm EccP256; XSlotKeyAlgorithm EccP384;
      XManagementKeyAlgorithm CTripleDes; XManagementKeyAlgorithm CAes128; XManagementKeyAlgorithm CAes192;
      XManagementKeyAlgorithm CAes256] [mkVV [] KnownSupported]].
Definition AREKINATH_GENERIC_FIRMWARE_VERDICTS : list ExtensionVerdicts := [].
Definition AREKINATH_GENERIC_APPLET_QUIRKS : list VersionQuirks :=
  [mkVQ [] [QDefault9bManagementKey YUBIKEY_DEFAULT_MGMT_KEY; QResetFailsIfManagementKeyIsAes]].
Definition AREKINATH_GENERIC_FIRMWARE_QUIRKS : list VersionQuirks := [].

Definition AREKINATH_SWISSBIT_ISHIELD1_AXIS_MERGE_MODE : AxisMergeMode := MergeRelaxed.
Definition AREKINATH_SWISSBIT_ISHIELD1_APPLET_VERDICTS : list ExtensionVerdicts :=
  [mkEV [XMoveKey; XDeleteKey; XSlotTouchPolicy] [mkVV [5; 4; 0] KnownUnsupported];
   mkEV [XGetMetadata] [mkVV [] KnownUnsupported; mkVV [5; 3; 0] KnownSupported];
   mkEV [XReset; XSetPinPukRetries; XPinManagementAuth] [mkVV [] KnownUnsupported; mkVV [5] KnownSupported];
   mkEV [XResetGlobal; XSlotKeyAlgorithm Rsa3072; XSlotKeyAlgorithm Rsa4096; XSlotKeyAlgorithm EccP521; XSlotKeyAlgorithm
      Ed25519; XSlotKeyAlgorithm X25519; XManagementKeyAlgorithm CDelete] [mkVV [] KnownUnsupportedSince];
   mkEV [XSetManagementKey; XSlotPinPolicy] [mkVV [4] KnownSupported];
   mkEV [XSlotKeyAlgorithm Rsa1024; XSlotKeyAlgorithm Rsa2048; XSlotKeyAlgorithm EccP256; XSlotKeyAlgorithm EccP384;
      XManagementKeyAlgorithm CTripleDes; XManagementKeyAlgorithm CAes128; XManagementKeyAlgorithm CAes192;
      XManagementKeyAlgorithm CAes256] [mkVV [] KnownSupported]].
Definition AREKINATH_SWISSBIT_ISHIELD1_FIRMWARE_VERDICTS : list ExtensionVerdicts := [].
Definition AREKINATH_SWISSBIT_ISHIELD1_APPLET_QUIRKS : list VersionQuirks :=
  [mkVQ [] [QDefault9bManagementKey YUBIKEY_DEFAULT_MGMT_KEY; QResetFailsIfManagementKeyIsAes; QResetLongRunning]].
Definition AREKINATH_SWISSBIT_ISHIELD1_FIRMWARE_QUIRKS : list VersionQuirks := [].

Definition HID_CRESCENDO_C2300_AXIS_MERGE_MODE : AxisMergeMode := MergeRelaxed.
Definition HID_CRESCENDO_C2300_APPLET_VERDICTS : list ExtensionVerdicts :=
  [mkEV [XMoveKey; XAttest; XGetMetadata; XReset; XSetPinPukRetries; XSlotPinPolicy; XSlotTouchPolicy; XSlotKeyAlgorithm
      Rsa1024; XSlotKeyAlgorithm Rsa3072; XSlotKeyAlgorithm Rsa4096; XSlotKeyAlgorithm EccP521; XSlotKeyAlgorithm Ed25519;
      XSlotKeyAlgorithm X25519; XImportKey Rsa1024; XImportKey Rsa2048; XImportKey Rsa3072; XImportKey Rsa4096; XImportKey
      EccP256; XImportKey EccP384; XImportKey EccP521; XImportKey Ed25519; XImportKey X25519; XManagementKeyAlgorithm
      CAes192; XManagementKeyAlgorithm CAes256] [mkVV [] KnownUnsupportedSince];
   mkEV [XDeleteKey; XGetSlotKeyStatus; XPinManagementAuth; XResetGlobal; XSetManagementKey; XSlotKeyAlgorithm Rsa2048;
      XSlotKeyAlgorithm EccP256; XSlotKeyAlgorithm EccP384; XManagementKeyAlgorithm CTripleDes; XManagementKeyAlgorithm
      CAes128; XManagementKeyAlgorithm CDelete] [mkVV [] KnownSupported]].
Definition HID_CRESCENDO_C2300_FIRMWARE_VERDICTS : list ExtensionVerdicts := [].
Definition HID_CRESCENDO_C2300_APPLET_QUIRKS : list VersionQuirks :=
  [mkVQ [] [QResetNeedsManagementAuth; QDefault9bManagementKey HID_CRESCENDO_ACA_FACTORY_XAUTH_KEY]].
Definition HID_CRESCENDO_C2300_FIRMWARE_QUIRKS : list VersionQuirks := [].

Definition HID_CRESCENDO_C4000_AXIS_MERGE_MODE : AxisMergeMode := MergeRelaxed.
Definition HID_CRESCENDO_C4000_APPLET_VERDICTS : list ExtensionVerdicts :=
  [mkEV [XMoveKey; XAttest; XGetMetadata; XReset; XSetPinPukRetries; XSlotPinPolicy; XSlotTouchPolicy; XSlotKeyAlgorithm
      Rsa1024; XSlotKeyAlgorithm EccP521; XSlotKeyAlgorithm Ed25519; XSlotKeyAlgorithm X25519; XImportKey Rsa1024;
      XImportKey Rsa2048; XImportKey Rsa3072; XImportKey Rsa4096; XImportKey EccP256; XImportKey EccP384; XImportKey
      EccP521; XImportKey Ed25519; XImportKey X25519; XManagementKeyAlgorithm CAes192; XManagementKeyAlgorithm CAes256]
      [mkVV [] KnownUnsupportedSince];
   mkEV [XDeleteKey; XGetSlotKeyStatus; XPinManagementAuth; XResetGlobal; XSetManagementKey; XSlotKeyAlgorithm Rsa2048;
      XSlotKeyAlgorithm Rsa3072; XSlotKeyAlgorithm Rsa4096; XSlotKeyAlgorithm EccP256; XSlotKeyAlgorithm EccP384;
      XManagementKeyAlgorithm CTripleDes; XManagementKeyAlgorithm CAes128; XManagementKeyAlgorithm CDelete] [mkVV []
      KnownSupported]].
Definition HID_CRESCENDO_C4000_FIRMWARE_VERDICTS : list ExtensionVerdicts := [].
Definition HID_CRESCENDO_C4000_APPLET_QUIRKS : list VersionQuirks :=
  [mkVQ [] [QResetNeedsManagementAuth; QDefault9bManagementKey HID_CRESCENDO_ACA_FACTORY_XAUTH_KEY]].
Definition HID_CRESCENDO_C4000_FIRMWARE_QUIRKS : list VersionQuirks := [].

Definition HID_CRESCENDO_GENERIC_AXIS_MERGE_MODE : AxisMergeMode := MergeRelaxed.
Definition HID_CRESCENDO_GENERIC_APPLET_VERDICTS : list ExtensionVerdicts :=
  [mkEV [XMoveKey; XReset; XSetPinPukRetries; XSlotPinPolicy; XSlotTouchPolicy; XImportKey Rsa1024; XImportKey Rsa2048;
      XImportKey Rsa3072; XImportKey Rsa4096; XImportKey EccP256; XImportKey EccP384; XImportKey EccP521; XImportKey
      Ed25519; XImportKey X25519; XManagementKeyAlgorithm CAes192; XManagementKeyAlgorithm CAes256] [mkVV []
      KnownUnsupportedSince];
   mkEV [XGetSlotKeyStatus; XSetManagementKey; XManagementKeyAlgorithm CTripleDes; XManagementKeyAlgorithm CAes128;
      XManagementKeyAlgorithm CDelete] [mkVV [] KnownSupported]].
Definition HID_CRESCENDO_GENERIC_FIRMWARE_VERDICTS : list ExtensionVerdicts := [].
Definition HID_CRESCENDO_GENERIC_APPLET_QUIRKS : list VersionQuirks :=
  [mkVQ [] [QResetNeedsManagementAuth; QDefault9bManagementKey HID_CRESCENDO_ACA_FACTORY_XAUTH_KEY]].
Definition HID_CRESCENDO_GENERIC_FIRMWARE_QUIRKS : list VersionQuirks := [].

Definition GENERIC_AXIS_MERGE_MODE : AxisMergeMode := MergeRelaxed.
Definition GENERIC_APPLET_VERDICTS : list ExtensionVerdicts :=
  [mkEV [XResetGlobal; XManagementKeyAlgorithm CDelete] [mkVV [] KnownUnsupportedSince]].
Definition GENERIC_FIRMWARE_VERDICTS : list ExtensionVerdicts := [].
Definition GENERIC_APPLET_QUIRKS : list VersionQuirks := [mkVQ [] [QDefault9bManagementKey YUBIKEY_DEFAULT_MGMT_KEY]].
Definition GENERIC_FIRMWARE_QUIRKS : list VersionQuirks := [].

Definition AUTHENTREND_ATKEY_AXIS_MERGE_MODE : AxisMergeMode := MergeRelaxed.
Definition AUTHENTREND_ATKEY_APPLET_VERDICTS : list ExtensionVerdicts :=
  [mkEV [XResetGlobal; XManagementKeyAlgorithm CDelete] [mkVV [] KnownUnsupportedSince];
   mkEV [XSetPinPukRetries; XSetManagementKey; XDeleteKey; XMoveKey; XGetMetadata; XPinManagementAuth; XSlotPinPolicy;
      XSlotTouchPolicy; XReset; XSlotKeyAlgorithm Rsa1024; XSlotKeyAlgorithm Rsa2048; XSlotKeyAlgorithm EccP256;
      XSlotKeyAlgorithm EccP384; XManagementKeyAlgorithm CTripleDes; XManagementKeyAlgorithm CAes128;
      XManagementKeyAlgorithm CAes192; XManagementKeyAlgorithm CAes256] [mkVV [6] KnownSupported];
   mkEV [XSlotKeyAlgorithm Rsa3072; XSlotKeyAlgorithm Rsa4096; XSlotKeyAlgorithm EccP521; XSlotKeyAlgorithm Ed25519;
      XSlotKeyAlgorithm X25519] [mkVV [6; 0; 1] KnownUnsupported]].
Definition AUTHENTREND_ATKEY_FIRMWARE_VERDICTS : list ExtensionVerdicts := [].
Definition AUTHENTREND_ATKEY_APPLET_QUIRKS : list VersionQuirks :=
  [mkVQ [] [QDefault9bManagementKey YUBIKEY_DEFAULT_MGMT_KEY]].
Definition AUTHENTREND_ATKEY_FIRMWARE_QUIRKS : list VersionQuirks := [].

Definition FEITIAN_AXIS_MERGE_MODE : AxisMergeMode := MergeRelaxed.
Definition FEITIAN_APPLET_VERDICTS : list ExtensionVerdicts :=
  [mkEV [XResetGlobal; XManagementKeyAlgorithm CDelete] [mkVV [] KnownUnsupportedSince];
   mkEV [XSetManagementKey; XSetPinPukRetries; XMoveKey; XDeleteKey; XGetMetadata; XSlotPinPolicy; XSlotTouchPolicy;
      XPinManagementAuth; XSlotKeyAlgorithm Rsa3072; XSlotKeyAlgorithm Rsa4096; XSlotKeyAlgorithm EccP521;
      XSlotKeyAlgorithm Ed25519; XSlotKeyAlgorithm X25519] [mkVV [0] KnownUnsupported];
   mkEV [XSlotKeyAlgorithm Rsa1024; XSlotKeyAlgorithm Rsa2048; XSlotKeyAlgorithm EccP256; XSlotKeyAlgorithm EccP384] [mkVV
      [0] KnownSupported]].
Definition FEITIAN_FIRMWARE_VERDICTS : list ExtensionVerdicts := [].
Definition FEITIAN_APPLET_QUIRKS : list VersionQuirks := [mkVQ [] [QDefault9bManagementKey FEITIAN_DEFAULT_MGMT_KEY]].
Definition FEITIAN_FIRMWARE_QUIRKS : list VersionQuirks := [].

Definition IDPRIME_AXIS_MERGE_MODE : AxisMergeMode := MergeRelaxed.
Definition IDPRIME_APPLET_VERDICTS : list ExtensionVerdicts :=
  [mkEV [XResetGlobal; XReset; XManagementKeyAlgorithm CDelete; XSetManagementKey; XSetPinPukRetries; XMoveKey;
      XDeleteKey] [mkVV [] KnownUnsupportedSince];
   mkEV [XSlotPinPolicy; XSlotTouchPolicy; XPinManagementAuth] [mkVV [] KnownUnsupported];
   mkEV [XSlotKeyAlgorithm Rsa2048] [mkVV [] KnownSupported]].
Definition IDPRIME_FIRMWARE_VERDICTS : list ExtensionVerdicts := [].
Definition IDPRIME_APPLET_QUIRKS : list VersionQuirks :=
  [mkVQ [] [QHostChallengeResponsePermissiveTag; QDefault9bManagementKey IDPRIME_AND_UTRUST_GOV_DEFAULT_MGMT_KEY]].
Definition IDPRIME_FIRMWARE_QUIRKS : list VersionQuirks := [].

Definition TRUSSED_NITROKEY_AXIS_MERGE_MODE : AxisMergeMode := MergeRelaxed.
Definition TRUSSED_NITROKEY_APPLET_VERDICTS : list ExtensionVerdicts :=
  [mkEV [XResetGlobal; XManagementKeyAlgorithm CDelete] [mkVV [] KnownUnsupportedSince]].
Definition TRUSSED_NITROKEY_FIRMWARE_VERDICTS : list ExtensionVerdicts :=
  [mkEV [XResetGlobal; XSlotKeyAlgorithm Rsa1024; XSlotKeyAlgorithm EccP521; XSlotKeyAlgorithm Ed25519; XSlotKeyAlgorithm
      X25519; XImportKey Rsa1024; XImportKey EccP256; XImportKey EccP384; XImportKey EccP521; XImportKey Ed25519;
      XImportKey X25519] [mkVV [] KnownUnsupportedSince];
   mkEV [XImportKey Rsa2048; XImportKey Rsa3072; XImportKey Rsa4096] [mkVV [] KnownUnsupported; mkVV [1; 8]
      KnownSupported];
   mkEV [XSetManagementKey; XReset; XGetMetadata; XPinManagementAuth] [mkVV [1; 8] KnownSupported];
   mkEV [XSetPinPukRetries; XMoveKey; XDeleteKey; XAttest; XManagementKeyAlgorithm CAes128; XManagementKeyAlgorithm
      CAes192] [mkVV [1; 8; 3] KnownUnsupported];
   mkEV [XSlotPinPolicy; XSlotTouchPolicy] [mkVV [1; 9; 1] KnownUnsupported];
   mkEV [XSlotKeyAlgorithm Rsa2048; XSlotKeyAlgorithm Rsa4096; XSlotKeyAlgorithm EccP256; XManagementKeyAlgorithm
      CTripleDes; XManagementKeyAlgorithm CAes256] [mkVV [] KnownSupported];
   mkEV [XSlotKeyAlgorithm Rsa3072; XSlotKeyAlgorithm EccP384] [mkVV [] KnownUnsupported; mkVV [1; 8; 2] KnownSupported]].
Definition TRUSSED_NITROKEY_APPLET_QUIRKS : list VersionQuirks :=
  [mkVQ [] [QDefault9bManagementKey YUBIKEY_DEFAULT_MGMT_KEY]].
Definition TRUSSED_NITROKEY_FIRMWARE_QUIRKS : list VersionQuirks := [mkVQ [1; 9; 1] [QNeverAsksForTouch]].

Definition OPENFIPS201_GENERIC_AXIS_MERGE_MODE : AxisMergeMode := MergeRelaxed.
Definition OPENFIPS201_GENERIC_APPLET_VERDICTS : list ExtensionVerdicts :=
  [mkEV [XResetGlobal; XReset; XSlotPinPolicy; XSlotTouchPolicy; XManagementKeyAlgorithm CDelete; XSetManagementKey;
      XSetPinPukRetries; XMoveKey; XDeleteKey] [mkVV [] KnownUnsupportedSince];
   mkEV [XManagementKeyAlgorithm CTripleDes; XManagementKeyAlgorithm CAes128; XManagementKeyAlgorithm CAes192;
      XManagementKeyAlgorithm CAes256] [mkVV [] KnownSupported]].
Definition OPENFIPS201_GENERIC_FIRMWARE_VERDICTS : list ExtensionVerdicts := [].
Definition OPENFIPS201_GENERIC_APPLET_QUIRKS : list VersionQuirks := [].
Definition OPENFIPS201_GENERIC_FIRMWARE_QUIRKS : list VersionQuirks := [].

Definition UTRUST_GENERIC_AXIS_MERGE_MODE : AxisMergeMode := MergeRelaxed.
Definition UTRUST_GENERIC_APPLET_VERDICTS : list ExtensionVerdicts :=
  [mkEV [XDeleteKey; XMoveKey; XSetPinPukRetries; XReset; XGetMetadata; XSetManagementKey; XPinManagementAuth;
      XSlotPinPolicy; XSlotTouchPolicy; XSlotKeyAlgorithm Rsa3072; XSlotKeyAlgorithm Rsa4096; XSlotKeyAlgorithm EccP256;
      XSlotKeyAlgorithm EccP384; XSlotKeyAlgorithm EccP521; XSlotKeyAlgorithm Ed25519; XSlotKeyAlgorithm X25519] [mkVV []
      KnownUnsupported];
   mkEV [XResetGlobal; XManagementKeyAlgorithm CDelete] [mkVV [] KnownUnsupportedSince];
   mkEV [XSlotKeyAlgorithm Rsa1024; XSlotKeyAlgorithm Rsa2048] [mkVV [] KnownSupported]].
Definition UTRUST_GENERIC_FIRMWARE_VERDICTS : list ExtensionVerdicts := [].
Definition UTRUST_GENERIC_APPLET_QUIRKS : list VersionQuirks :=
  [mkVQ [] [QDefault9bManagementKey YUBIKEY_DEFAULT_MGMT_KEY]].
Definition UTRUST_GENERIC_FIRMWARE_QUIRKS : list VersionQuirks := [].

Definition UTRUST_GOV_AXIS_MERGE_MODE : AxisMergeMode := MergeRelaxed.
Definition UTRUST_GOV_APPLET_VERDICTS : list ExtensionVerdicts :=
  [mkEV [XDeleteKey; XMoveKey; XSetPinPukRetries; XReset; XGetMetadata; XSetManagementKey] [mkVV [] KnownUnsupported];
   mkEV [XResetGlobal; XManagementKeyAlgorithm CDelete] [mkVV [] KnownUnsupportedSince]].
Definition UTRUST_GOV_FIRMWARE_VERDICTS : list ExtensionVerdicts := [].
Definition UTRUST_GOV_APPLET_QUIRKS : list VersionQuirks :=
  [mkVQ [] [QDefault9bManagementKey IDPRIME_AND_UTRUST_GOV_DEFAULT_MGMT_KEY]].
Definition UTRUST_GOV_FIRMWARE_QUIRKS : list VersionQuirks := [].

(** * The tables of a fingerprint *)

Definition applet_table (f : AppletFingerprint) : list ExtensionVerdicts :=
  match f with
  | YubiKey => YUBIKEY_APPLET_VERDICTS
  | Token2 => TOKEN2_APPLET_VERDICTS
  | OpenFips201 SwissbitIShield2 => SWISSBIT_ISHIELD2_APPLET_VERDICTS
  | OpenFips201 OpenFipsGeneric => OPENFIPS201_GENERIC_APPLET_VERDICTS
  | Thetis => THETIS_APPLET_VERDICTS
  | ArekinathPivApplet ArekinathGeneric => AREKINATH_GENERIC_APPLET_VERDICTS
  | ArekinathPivApplet SwissbitIShield1 => AREKINATH_SWISSBIT_ISHIELD1_APPLET_VERDICTS
  | HidCrescendo C2300 => HID_CRESCENDO_C2300_APPLET_VERDICTS
  | HidCrescendo C4000 => HID_CRESCENDO_C4000_APPLET_VERDICTS
  | HidCrescendo CrescendoGeneric => HID_CRESCENDO_GENERIC_APPLET_VERDICTS
  | Generic => GENERIC_APPLET_VERDICTS
  | AuthentrendATKey => AUTHENTREND_ATKEY_APPLET_VERDICTS
  | Feitian => FEITIAN_APPLET_VERDICTS
  | IdPrime => IDPRIME_APPLET_VERDICTS
  | Trussed Nitrokey => TRUSSED_NITROKEY_APPLET_VERDICTS
  | UTrust UTrustGeneric => UTRUST_GENERIC_APPLET_VERDICTS
  | UTrust Gov => UTRUST_GOV_APPLET_VERDICTS
  end.
Definition firmware_table (f : AppletFingerprint) : list ExtensionVerdicts :=
  match f with
  | YubiKey => YUBIKEY_FIRMWARE_VERDICTS
  | Token2 => TOKEN2_FIRMWARE_VERDICTS
  | OpenFips201 SwissbitIShield2 => SWISSBIT_ISHIELD2_FIRMWARE_VERDICTS
  | OpenFips201 OpenFipsGeneric => OPENFIPS201_GENERIC_FIRMWARE_VERDICTS
  | Thetis => THETIS_FIRMWARE_VERDICTS
  | ArekinathPivApplet ArekinathGeneric => AREKINATH_GENERIC_FIRMWARE_VERDICTS
  | ArekinathPivApplet SwissbitIShield1 => AREKINATH_SWISSBIT_ISHIELD1_FIRMWARE_VERDICTS
  | HidCrescendo C2300 => HID_CRESCENDO_C2300_FIRMWARE_VERDICTS
  | HidCrescendo C4000 => HID_CRESCENDO_C4000_FIRMWARE_VERDICTS
  | HidCrescendo CrescendoGeneric => HID_CRESCENDO_GENERIC_FIRMWARE_VERDICTS
  | Generic => GENERIC_FIRMWARE_VERDICTS
  | AuthentrendATKey => AUTHENTREND_ATKEY_FIRMWARE_VERDICTS
  | Feitian => FEITIAN_FIRMWARE_VERDICTS
  | IdPrime => IDPRIME_FIRMWARE_VERDICTS
  | Trussed Nitrokey => TRUSSED_NITROKEY_FIRMWARE_VERDICTS
  | UTrust UTrustGeneric => UTRUST_GENERIC_FIRMWARE_VERDICTS
  | UTrust Gov => UTRUST_GOV_FIRMWARE_VERDICTS
  end.
Definition applet_quirks (f : AppletFingerprint) : list VersionQuirks :=
  match f with
  | YubiKey => YUBIKEY_APPLET_QUIRKS
  | Token2 => TOKEN2_APPLET_QUIRKS
  | OpenFips201 SwissbitIShield2 => SWISSBIT_ISHIELD2_APPLET_QUIRKS
  | OpenFips201 OpenFipsGeneric => OPENFIPS201_GENERIC_APPLET_QUIRKS
  | Thetis => THETIS_APPLET_QUIRKS
  | ArekinathPivApplet ArekinathGeneric => AREKINATH_GENERIC_APPLET_QUIRKS
  | ArekinathPivApplet SwissbitIShield1 => AREKINATH_SWISSBIT_ISHIELD1_APPLET_QUIRKS
  | HidCrescendo C2300 => HID_CRESCENDO_C2300_APPLET_QUIRKS
  | HidCrescendo C4000 => HID_CRESCENDO_C4000_APPLET_QUIRKS
  | HidCrescendo CrescendoGeneric => HID_CRESCENDO_GENERIC_APPLET_QUIRKS
  | Generic => GENERIC_APPLET_QUIRKS
  | AuthentrendATKey => AUTHENTREND_ATKEY_APPLET_QUIRKS
  | Feitian => FEITIAN_APPLET_QUIRKS
  | IdPrime => IDPRIME_APPLET_QUIRKS
  | Trussed Nitrokey => TRUSSED_NITROKEY_APPLET_QUIRKS
  | UTrust UTrustGeneric => UTRUST_GENERIC_APPLET_QUIRKS
  | UTrust Gov => UTRUST_GOV_APPLET_QUIRKS
  end.
Definition firmware_quirks (f : AppletFingerprint) : list VersionQuirks :=
  match f with
  | YubiKey => YUBIKEY_FIRMWARE_QUIRKS
  | Token2 => TOKEN2_FIRMWARE_QUIRKS
  | OpenFips201 SwissbitIShield2 => SWISSBIT_ISHIELD2_FIRMWARE_QUIRKS
  | OpenFips201 OpenFipsGeneric => OPENFIPS201_GENERIC_FIRMWARE_QUIRKS
  | Thetis => THETIS_FIRMWARE_QUIRKS
  | ArekinathPivApplet ArekinathGeneric => AREKINATH_GENERIC_FIRMWARE_QUIRKS
  | ArekinathPivApplet SwissbitIShield1 => AREKINATH_SWISSBIT_ISHIELD1_FIRMWARE_QUIRKS
  | HidCrescendo C2300 => HID_CRESCENDO_C2300_FIRMWARE_QUIRKS
  | HidCrescendo C4000 => HID_CRESCENDO_C4000_FIRMWARE_QUIRKS
  | HidCrescendo CrescendoGeneric => HID_CRESCENDO_GENERIC_FIRMWARE_QUIRKS
  | Generic => GENERIC_FIRMWARE_QUIRKS
  | AuthentrendATKey => AUTHENTREND_ATKEY_FIRMWARE_QUIRKS
  | Feitian => FEITIAN_FIRMWARE_QUIRKS
  | IdPrime => IDPRIME_FIRMWARE_QUIRKS
  | Trussed Nitrokey => TRUSSED_NITROKEY_FIRMWARE_QUIRKS
  | UTrust UTrustGeneric => UTRUST_GENERIC_FIRMWARE_QUIRKS
  | UTrust Gov => UTRUST_GOV_FIRMWARE_QUIRKS
  end.
Definition axis_merge_mode (f : AppletFingerprint) : AxisMergeMode :=
  match f with
  | YubiKey => YUBIKEY_AXIS_MERGE_MODE
  | Token2 => TOKEN2_AXIS_MERGE_MODE
  | OpenFips201 SwissbitIShield2 => SWISSBIT_ISHIELD2_AXIS_MERGE_MODE
  | OpenFips201 OpenFipsGeneric => OPENFIPS201_GENERIC_AXIS_MERGE_MODE
  | Thetis => THETIS_AXIS_MERGE_MODE
  | ArekinathPivApplet ArekinathGeneric => AREKINATH_GENERIC_AXIS_MERGE_MODE
  | ArekinathPivApplet SwissbitIShield1 => AREKINATH_SWISSBIT_ISHIELD1_AXIS_MERGE_MODE
  | HidCrescendo C2300 => HID_CRESCENDO_C2300_AXIS_MERGE_MODE
  | HidCrescendo C4000 => HID_CRESCENDO_C4000_AXIS_MERGE_MODE
  | HidCrescendo CrescendoGeneric => HID_CRESCENDO_GENERIC_AXIS_MERGE_MODE
  | Generic => GENERIC_AXIS_MERGE_MODE
  | AuthentrendATKey => AUTHENTREND_ATKEY_AXIS_MERGE_MODE
  | Feitian => FEITIAN_AXIS_MERGE_MODE
  | IdPrime => IDPRIME_AXIS_MERGE_MODE
  | Trussed Nitrokey => TRUSSED_NITROKEY_AXIS_MERGE_MODE
  | UTrust UTrustGeneric => UTRUST_GENERIC_AXIS_MERGE_MODE
  | UTrust Gov => UTRUST_GOV_AXIS_MERGE_MODE
  end.
Definition find_verdicts (table : list ExtensionVerdicts) (extension : PivExtension) : option (list VersionVerdict) :=
  ev_verdicts <$> List.find (fun e => bool_decide (extension ∈ ev_extensions e)) table.
Definition applet_verdicts (f : AppletFingerprint) (extension : PivExtension) : option (list VersionVerdict) :=
  find_verdicts (applet_table f) extension.
Definition firmware_verdicts (f : AppletFingerprint) (extension : PivExtension) : option (list VersionVerdict) :=
  find_verdicts (firmware_table f) extension.

(** Every fingerprint. *)
Definition fingerprint_ALL : list AppletFingerprint :=
  [Generic; ArekinathPivApplet ArekinathGeneric; ArekinathPivApplet SwissbitIShield1; AuthentrendATKey; Feitian;
   HidCrescendo CrescendoGeneric; HidCrescendo C2300; HidCrescendo C4000; IdPrime; Trussed Nitrokey;
   OpenFips201 OpenFipsGeneric; OpenFips201 SwissbitIShield2; Thetis; Token2; UTrust UTrustGeneric; UTrust Gov; YubiKey].
