(* ===== verification/PivCompat.v ===== *)
(** keyroost-piv/src/compat.rs, its decisions over the tables of PivTables: is an extension
    supported at a reported version, from which version would it be, which byte names an
    algorithm on the wire, and which quirks are active. Then what
    the tables mean. *)
From S2P Require Export PivTables.

(** Byte slices compare like [str]. *)
Definition version_le (a b : list Z) : bool := match cmp_str a b with Gt => false | _ => true end.
Definition version_lt (a b : list Z) : bool := match cmp_str a b with Lt => true | _ => false end.
(** [iter().rposition(f)]. *)
Fixpoint rposition {A} (f : A -> bool) (l : list A) : option nat :=
  match l with
  | [] => None
  | a :: l => match rposition f l with Some i => Some (S i) | None => if f a then Some O else None end
  end.

(** * Gates *)

Inductive FeatureGate := Supported | Unverified | Unsupported.
#[export] Instance FeatureGate_eq_dec : EqDecision FeatureGate.
Proof. solve_decision. Defined.
Definition UNVERIFIED_SUFFIX : list Z := s2b "keyroost's list has no entry for this key yet.".
Definition INCOMPATIBLE_SUFFIX : list Z := s2b "keyroost's list marks this key as not supporting it.".

Definition combine_strict (a b : FeatureGate) : FeatureGate :=
  match a, b with
  | Unsupported, _ | _, Unsupported => Unsupported
  | Supported, _ | _, Supported => Supported
  | Unverified, Unverified => Unverified
  end.
Definition combine_relaxed (a b : FeatureGate) : FeatureGate :=
  match a, b with
  | Unsupported, Supported | Supported, Unsupported => Unverified
  | Unsupported, _ | _, Unsupported => Unsupported
  | Supported, _ | _, Supported => Supported
  | Unverified, Unverified => Unverified
  end.
Definition combine_preferring (a b preferred : FeatureGate) : FeatureGate :=
  match a, b with
  | Unverified, Unverified => Unverified
  | Unverified, real | real, Unverified => real
  | x, y => if bool_decide (x = y) then x else preferred
  end.
Definition merge_gates (mode : AxisMergeMode) (applet_gate firmware_gate : FeatureGate) : FeatureGate :=
  match mode with
  | MergeStrict => combine_strict applet_gate firmware_gate
  | MergeRelaxed => combine_relaxed applet_gate firmware_gate
  | AppletWins => combine_preferring applet_gate firmware_gate applet_gate
  | FirmwareWins => combine_preferring applet_gate firmware_gate firmware_gate
  end.

(** The verdict [chosen] at index [idx], read for a reported [version]. *)
Definition read_verdict (verdicts : list VersionVerdict) (version : list Z) (idx : nat) (chosen : VersionVerdict) : FeatureGate :=
  match vv_verdict chosen with
  | KnownSupported => Supported
  | KnownUnsupported =>
      if bool_decide (vv_version chosen = version) then Unsupported
      else if bool_decide (S idx = length verdicts) then Unverified
      else Unsupported
  | KnownUnsupportedSince => Unsupported
  end.
Definition resolve_in (verdicts : option (list VersionVerdict)) (version : option (list Z)) : FeatureGate :=
  match version, verdicts with
  | None, _ | _, None => Unverified
  | Some version, Some verdicts =>
      match rposition (fun v => version_le (vv_version v) version) verdicts with
      | None =>
          match verdicts with
          | mkVV _ KnownUnsupported :: _ => Unsupported
          | _ => Unverified
          end
      | Some idx =>
          match verdicts !! idx with Some chosen => read_verdict verdicts version idx chosen | None => Unverified end
      end
  end.

Inductive VersionAxis := AxApplet | AxFirmware.
#[export] Instance VersionAxis_eq_dec : EqDecision VersionAxis.
Proof. solve_decision. Defined.
Definition AxisReading : Type := VersionAxis * option (list VersionVerdict) * option (list Z).

(** With neither version reported, both axes are read at the universal version. *)
Definition reported (av fv : option (list Z)) : option (list Z) * option (list Z) :=
  match av, fv with None, None => (Some [], Some []) | _, _ => (av, fv) end.
Definition axes (e : PivExtension) (f : AppletFingerprint) (av fv : option (list Z)) : AxisReading * AxisReading :=
  let '(av, fv) := reported av fv in
  ((AxApplet, applet_verdicts f e, av), (AxFirmware, firmware_verdicts f e, fv)).
Definition resolve_axes (e : PivExtension) (f : AppletFingerprint) (av fv : option (list Z)) : FeatureGate :=
  let '((_, applet_rows, av), (_, firmware_rows, fv)) := axes e f av fv in
  merge_gates (axis_merge_mode f) (resolve_in applet_rows av) (resolve_in firmware_rows fv).

(** The source calls itself at [XSlotKeyAlgorithm] and [XGetMetadata], which have no special
    case: those calls are [resolve_axes]. *)
Definition resolve (e : PivExtension) (f : AppletFingerprint) (av fv : option (list Z)) : FeatureGate :=
  match e with
  | XImportKey alg =>
      let generation := resolve_axes (XSlotKeyAlgorithm alg) f av fv in
      if bool_decide (generation = Unsupported) then Unsupported
      else if bool_decide (f = YubiKey) then generation
      else resolve_axes e f av fv
  | XGetSlotKeyStatus =>
      match applet_verdicts f XGetSlotKeyStatus with
      | None => resolve_axes XGetMetadata f av fv
      | Some _ => resolve_axes e f av fv
      end
  | _ => resolve_axes e f av fv
  end.

(** * From which version *)

Record VersionFloor := mkFloor { vf_axis : VersionAxis; vf_version : list Z }.

(** One turn of the loop over the axes; the outer [None] is the early return. *)
Definition floor_step (acc : option (option VersionFloor)) (reading : AxisReading) : option (option VersionFloor) :=
  let '(axis, rows, version) := reading in
  floor ← acc;
  if negb (bool_decide (resolve_in rows version = Unsupported)) then Some floor
  else match floor with
       | Some _ => None
       | None =>
           rows ← rows; version ← version;
           lifted ← List.find (fun r => version_lt version (vv_version r) && bool_decide (vv_verdict r = KnownSupported)) rows;
           Some (Some (mkFloor axis (vv_version lifted)))
       end.
Definition axis_floor (e : PivExtension) (f : AppletFingerprint) (av fv : option (list Z)) : option VersionFloor :=
  let '(applet, firmware) := axes e f av fv in mjoin (floor_step (floor_step (Some None) applet) firmware).

Definition later_floor (generation_floor own_floor : option VersionFloor) : option VersionFloor :=
  match generation_floor, own_floor with
  | Some a, Some b =>
      if bool_decide (vf_axis a = vf_axis b) then Some (if version_le (vf_version b) (vf_version a) then a else b) else None
  | Some a, None => Some a
  | None, b => b
  end.
(** [if … { Some(floor?) } else { None }]: the outer [None] is the early return. *)
Definition floor_if (refused : bool) (floor : option VersionFloor) : option (option VersionFloor) :=
  if refused then (a ← floor; Some (Some a)) else Some None.
Definition floor_of (e : PivExtension) (f : AppletFingerprint) (av fv : option (list Z)) : option VersionFloor :=
  match e with
  | XImportKey alg =>
      let generation := XSlotKeyAlgorithm alg in
      generation_floor ← floor_if (bool_decide (resolve generation f av fv = Unsupported)) (axis_floor generation f av fv);
      if bool_decide (f = YubiKey) then generation_floor else
      own_floor ← floor_if (bool_decide (resolve_axes e f av fv = Unsupported)) (axis_floor e f av fv);
      later_floor generation_floor own_floor
  | XGetSlotKeyStatus =>
      match applet_verdicts f XGetSlotKeyStatus with
      | None => axis_floor XGetMetadata f av fv
      | Some _ => axis_floor e f av fv
      end
  | _ => axis_floor e f av fv
  end.
Definition supported_from (e : PivExtension) (f : AppletFingerprint) (av fv : option (list Z)) : option VersionFloor :=
  if negb (bool_decide (resolve e f av fv = Unsupported)) then None else floor_of e f av fv.

(** * Imports and algorithm bytes *)

Definition import_layout (f : AppletFingerprint) : ImportLayout :=
  match f with Trussed Nitrokey => NitrokeyRsa | _ => Yubico end.
Definition import_slot_allowed (f : AppletFingerprint) (slot : Slot) : bool :=
  match f with Trussed Nitrokey => bool_decide (slot = Authentication) | _ => true end.

Definition slot_key_algorithm_apdu_id_override (f : AppletFingerprint) (key_alg : KeyAlg) (fv : option (list Z)) : option Z :=
  match f with
  | HidCrescendo _ => hid_crescendo_c4000_algorithm_id key_alg
  | OpenFips201 SwissbitIShield2 => if bool_decide (key_alg = EccP521) then Some 0x32 else None
  | Trussed Nitrokey =>
      if bool_decide (key_alg = Rsa4096) && is_some_and (fun v => version_lt v [1; 8; 2]) fv then Some 0xE1 else None
  | _ => None
  end.
Definition slot_key_algorithm_apdu_id (key_alg : KeyAlg) (f : AppletFingerprint) (fv : option (list Z)) : Z :=
  default (alg_id key_alg) (slot_key_algorithm_apdu_id_override f key_alg fv).
Definition key_alg_from_apdu_id (id : Z) (f : AppletFingerprint) (fv : option (list Z)) : option KeyAlg :=
  match List.find (fun alg => slot_key_algorithm_apdu_id alg f fv =? id) KeyAlg_ALL with
  | Some alg => Some alg
  | None => alg_from_id id
  end.

(** * Active quirks *)

Definition latest_quirks (quirks : list VersionQuirks) (version : list Z) : option VersionQuirks :=
  idx ← rposition (fun v => version_le (vq_version v) version) quirks; quirks !! idx.
(** What one axis adds. *)
Definition axis_quirks (entries : list VersionQuirks) (version : option (list Z)) : list PivQuirk :=
  match version ≫= latest_quirks entries with Some entry => vq_quirks entry | None => [] end.
Definition resolve_quirks_in (applet_entries firmware_entries : list VersionQuirks) (av fv : option (list Z)) : list PivQuirk :=
  btree_set (axis_quirks applet_entries av ++ axis_quirks firmware_entries fv).
Definition merge_quirk_sets (mode : AxisMergeMode) (applet_entries : list VersionQuirks) (av : option (list Z))
    (firmware_entries : list VersionQuirks) (fv : option (list Z)) : list PivQuirk :=
  let both_reported := bool_decide (is_Some av) && bool_decide (is_Some fv) in
  match mode, both_reported with
  | AppletWins, true => btree_set (axis_quirks applet_entries av)
  | FirmwareWins, true => btree_set (axis_quirks firmware_entries fv)
  | _, _ => resolve_quirks_in applet_entries firmware_entries av fv
  end.
Definition resolve_quirks (f : AppletFingerprint) (av fv : option (list Z)) : list PivQuirk :=
  let '(av, fv) := reported av fv in
  merge_quirk_sets (axis_merge_mode f) (applet_quirks f) av (firmware_quirks f) fv.

(** What the compatibility tables mean: every row is one of four statements about versions, the
    lookup of compat.rs reads exactly that statement, a newer version never loses what an older
    one was offered, and the version an unsupported extension is said to need is the exact
    boundary. *)

(** * Version order *)

Lemma version_le_refl v : version_le v v = true.
Proof. unfold version_le. rewrite (proj2 (cmp_eq (cmp := cmp_str) v v) eq_refl). done. Qed.
Lemma version_le_lt_false a b : version_le a b = true <-> version_lt b a = false.
Proof. unfold version_le, version_lt. rewrite (scmp_sym (cmp := cmp_str) a b). by destruct (cmp_str a b). Qed.
Lemma version_le_trans a b c : version_le a b = true -> version_le b c = true -> version_le a c = true.
Proof.
  unfold version_le. pose proof (cmp_trans (cmp := cmp_str) a b c) as H.
  destruct (cmp_str a b), (cmp_str b c), (cmp_str a c); intros; try done; exfalso; apply H; done.
Qed.
Lemma version_lt_le_trans a b c : version_lt a b = true -> version_le b c = true -> version_lt a c = true.
Proof.
  intros Hab Hbc. destruct (version_lt a c) eqn:E; [done|]. apply version_le_lt_false in E.
  by rewrite (proj1 (version_le_lt_false b a) (version_le_trans b c a Hbc E)) in Hab.
Qed.
Lemma version_lt_le a b : version_lt a b = true -> version_le a b = true.
Proof. unfold version_le, version_lt. by destruct (cmp_str a b). Qed.
Lemma version_le_eq a b : version_le a b = true -> version_lt a b = false -> a = b.
Proof. unfold version_le, version_lt. destruct (cmp_str a b) eqn:E; [|done..]. by apply (cmp_eq (cmp := cmp_str)) in E. Qed.
Lemma version_le_nil v : version_le [] v = true.
Proof. by destruct v. Qed.
Lemma version_lt_irrefl v : version_lt v v = false.
Proof. apply version_le_lt_false, version_le_refl. Qed.

(** * What a row says *)

(** Never supported; refused up to a version and unknown after it; supported from a version
    and unknown before it; refused before a version and supported from it on. *)
Inductive Support := SNever | SNotUntil (last : list Z) | SFrom (floor : list Z) | SRefusedBefore (floor : list Z).
Definition support_of (rows : list VersionVerdict) : option Support :=
  match rows with
  | [mkVV [] KnownUnsupportedSince] => Some SNever
  | [mkVV last KnownUnsupported] => Some (SNotUntil last)
  | [mkVV floor KnownSupported] => Some (SFrom floor)
  | [mkVV v KnownUnsupported; mkVV floor KnownSupported] => if version_lt v floor then Some (SRefusedBefore floor) else None
  | _ => None
  end.
Definition support_gate (s : Support) (v : list Z) : FeatureGate :=
  match s with
  | SNever => Unsupported
  | SNotUntil last => if version_le v last then Unsupported else Unverified
  | SFrom floor => if version_le floor v then Supported else Unverified
  | SRefusedBefore floor => if version_le floor v then Supported else Unsupported
  end.

(** Every row of every table is one of the four. *)
Definition table_ok (table : list ExtensionVerdicts) : bool :=
  forallb (fun r => match support_of (ev_verdicts r) with Some _ => true | None => false end) table.
Lemma tables_ok f : table_ok (applet_table f) && table_ok (firmware_table f) = true.
Proof. destruct f as [|[]| | |[]| |[]|[]| | |[]|]; vm_compute; done. Qed.
Lemma find_verdicts_support table e rows : table_ok table = true -> find_verdicts table e = Some rows ->
  exists s, support_of rows = Some s.
Proof.
  intros Ht Hf. apply fmap_Some in Hf as (r & Hr & ->). apply find_some in Hr as (Hin & _).
  apply (proj1 (forallb_forall _ _) Ht) in Hin. destruct (support_of (ev_verdicts r)); [by eexists|done].
Qed.

Lemma version_le_eq_iff a b : version_le a b = true -> version_le b a = bool_decide (a = b).
Proof.
  intros H. case_bool_decide as E; [subst; apply version_le_refl|].
  destruct (version_le b a) eqn:Hba; [|done]. destruct E.
  apply version_le_eq; [done|]. by apply version_le_lt_false.
Qed.
Lemma version_le_total a b : version_le a b = false -> version_le b a = true.
Proof.
  intros H. apply version_lt_le. destruct (version_lt b a) eqn:E; [done|].
  apply version_le_lt_false in E. congruence.
Qed.

(** The source's lookup of a reported version reads a row as the statement it stands for. *)
Lemma resolve_in_support rows s v : support_of rows = Some s -> resolve_in (Some rows) (Some v) = support_gate s v.
Proof.
  destruct rows as [|[a va] [|[b vb] [|r rest]]]; [done| | |by destruct a, va, vb].
  - destruct va; cbn [support_of].
    + intros Hs. assert (s = SFrom a) as -> by (destruct a; congruence). cbn.
      destruct (version_le a v); done.
    + intros Hs. assert (s = SNotUntil a) as -> by (destruct a; congruence). cbn.
      destruct (version_le a v) eqn:E; cbn; [|by rewrite (version_le_total a v)].
      rewrite (version_le_eq_iff a v) by done. by case_bool_decide.
    + destruct a; [|done]. intros [= <-]. cbn. by rewrite version_le_nil.
  - destruct va, vb; try (by destruct a). cbn [support_of]. intros Hs.
    assert (version_lt a b = true /\ s = SRefusedBefore b) as (Hab & ->).
    { destruct (version_lt a b) eqn:E; destruct a; try rewrite E in Hs; by simplify_eq. }
    cbn. destruct (version_le b v) eqn:Eb; cbn; [done|].
    destruct (version_le a v) eqn:Ea; cbn; [|done]. by case_bool_decide.
Qed.

(** * A newer version is never offered less *)

Definition gate_rank (g : FeatureGate) : nat := match g with Unsupported => 0 | Unverified => 1 | Supported => 2 end.
Definition gate_le (a b : FeatureGate) : Prop := (gate_rank a <= gate_rank b)%nat.
#[export] Instance gate_le_preorder : PreOrder gate_le.
Proof. split; [intros a; unfold gate_le; lia|intros a b c; unfold gate_le; lia]. Qed.

Lemma support_gate_mono s v w : version_le v w = true -> gate_le (support_gate s v) (support_gate s w).
Proof.
  intros Hvw. destruct s as [|last|floor|floor]; cbn; [done| | |].
  - destruct (version_le w last) eqn:E; [by rewrite (version_le_trans v w last)|].
    destruct (version_le v last); cbv; lia.
  - destruct (version_le floor v) eqn:E; [by rewrite (version_le_trans floor v w)|].
    destruct (version_le floor w); cbv; lia.
  - destruct (version_le floor v) eqn:E; [by rewrite (version_le_trans floor v w)|].
    destruct (version_le floor w); cbv; lia.
Qed.
Lemma combine_relaxed_mono a a' b b' : gate_le a a' -> gate_le b b' -> gate_le (combine_relaxed a b) (combine_relaxed a' b').
Proof. destruct a, a', b, b'; unfold gate_le; cbn; lia. Qed.

(** What the tables of one axis say of an extension. *)
Definition axis_support (table : list ExtensionVerdicts) (e : PivExtension) : option Support := find_verdicts table e ≫= support_of.
Definition axis_gate (s : option Support) (version : option (list Z)) : FeatureGate :=
  match s, version with Some s, Some v => support_gate s v | _, _ => Unverified end.
Lemma resolve_in_axis table e version : table_ok table = true ->
  resolve_in (find_verdicts table e) version = axis_gate (axis_support table e) version.
Proof.
  intros Ht. unfold axis_support. destruct (find_verdicts table e) as [rows|] eqn:E; cbn; [|by destruct version].
  destruct (find_verdicts_support _ _ _ Ht E) as (s & Hs). rewrite Hs. cbn.
  destruct version; [by apply resolve_in_support|done].
Qed.
Lemma axis_gate_mono s v w : version_le v w = true -> gate_le (axis_gate s (Some v)) (axis_gate s (Some w)).
Proof. intros H. destruct s; cbn; [by apply support_gate_mono|unfold gate_le; lia]. Qed.

Definition applet_support (f : AppletFingerprint) (e : PivExtension) : option Support := axis_support (applet_table f) e.
Definition firmware_support (f : AppletFingerprint) (e : PivExtension) : option Support := axis_support (firmware_table f) e.
Lemma axis_merge_relaxed f : axis_merge_mode f = MergeRelaxed.
Proof. by destruct f as [|[]| | |[]| |[]|[]| | |[]|]. Qed.
Lemma resolve_axes_support e f av fv : resolve_axes e f av fv =
  combine_relaxed (axis_gate (applet_support f e) (reported av fv).1) (axis_gate (firmware_support f e) (reported av fv).2).
Proof.
  pose proof (tables_ok f) as Ht. apply andb_true_iff in Ht as (Ha & Hf).
  unfold resolve_axes, axes. destruct (reported av fv) as (av' & fv'). cbn.
  rewrite axis_merge_relaxed. unfold applet_verdicts, firmware_verdicts. by rewrite !resolve_in_axis.
Qed.
Lemma reported_some_l v fv : reported (Some v) fv = (Some v, fv).
Proof. done. Qed.
Lemma reported_some_r av v : reported av (Some v) = (av, Some v).
Proof. by destruct av. Qed.

(** The versions with the one of [axis] replaced. *)
Definition set_version (axis : VersionAxis) (w : list Z) (av fv : option (list Z)) : option (list Z) * option (list Z) :=
  match axis with AxApplet => (Some w, fv) | AxFirmware => (av, Some w) end.
Definition version_on (axis : VersionAxis) (av fv : option (list Z)) : option (list Z) :=
  match axis with AxApplet => av | AxFirmware => fv end.
Lemma reported_set axis w av fv : reported (set_version axis w av fv).1 (set_version axis w av fv).2 = set_version axis w av fv.
Proof. destruct axis; cbn; [done|by destruct av]. Qed.
Definition resolve_axes_at (axis : VersionAxis) (w : list Z) (e : PivExtension) (f : AppletFingerprint) (av fv : option (list Z)) :=
  let '(av, fv) := set_version axis w av fv in resolve_axes e f av fv.
Lemma resolve_axes_mono axis v w e f av fv : version_le v w = true ->
  gate_le (resolve_axes_at axis v e f av fv) (resolve_axes_at axis w e f av fv).
Proof.
  intros H. unfold resolve_axes_at. destruct axis; cbn [set_version]; rewrite !resolve_axes_support.
  - rewrite !reported_some_l. apply combine_relaxed_mono; [by apply axis_gate_mono|done].
  - rewrite !reported_some_r. apply combine_relaxed_mono; [done|by apply axis_gate_mono].
Qed.

(** * The decisions *)

(** [resolve] with the version of [axis] set to [w]. *)
Definition resolve_at (axis : VersionAxis) (w : list Z) (e : PivExtension) (f : AppletFingerprint) (av fv : option (list Z)) :=
  let '(av, fv) := set_version axis w av fv in resolve e f av fv.

(** Of two versions of the same card, on the applet's axis or on the firmware's, the newer
    is never offered less: whatever the older one was allowed (supported, or tried with a
    warning) the newer one is too. *)
Theorem newer_never_offered_less axis v w e f av fv : version_le v w = true ->
  gate_le (resolve_at axis v e f av fv) (resolve_at axis w e f av fv).
Proof.
  intros H. pose proof (fun e => resolve_axes_mono axis v w e f av fv H) as M.
  unfold resolve_at, resolve_axes_at in *. destruct (set_version axis v av fv) as [a1 f1], (set_version axis w av fv) as [a2 f2].
  destruct e; cbn [resolve]; try apply M.
  - case_match; apply M.
  - pose proof (M (XSlotKeyAlgorithm a)) as Hg. pose proof (M (XImportKey a)) as Hi. revert Hg Hi.
    generalize (resolve_axes (XSlotKeyAlgorithm a) f a1 f1) (resolve_axes (XSlotKeyAlgorithm a) f a2 f2)
      (resolve_axes (XImportKey a) f a1 f1) (resolve_axes (XImportKey a) f a2 f2). unfold gate_le.
    intros g1 g2 i1 i2. destruct (bool_decide (f = YubiKey)); repeat case_bool_decide; destruct g1, g2; cbn; done || lia.
Qed.
Lemma newer_never_offered_less_witness :
  gate_le (resolve_at AxApplet [5; 4; 3] XMoveKey YubiKey None None) (resolve_at AxApplet [5; 7; 1] XMoveKey YubiKey None None) /\
  resolve_at AxApplet [5; 4; 3] XMoveKey YubiKey None None = Unsupported /\
  resolve_at AxApplet [5; 7; 1] XMoveKey YubiKey None None = Supported.
Proof. split; [apply newer_never_offered_less; reflexivity|split; reflexivity]. Defined.

(** Whether what an axis says of importing is nowhere wider than what it says of generating,
    where generating is not refused. *)
Definition narrower (import generation : option Support) : bool :=
  match import, generation with
  | None, _ | Some SNever, _ | _, Some SNever | _, Some (SRefusedBefore _) => true
  | Some (SRefusedBefore _), Some (SFrom []) => true
  | Some (SFrom a), Some (SFrom b) => bool_decide (a = b)
  | _, _ => false
  end.
Lemma narrower_gate i g version : narrower i g = true -> axis_gate g version <> Unsupported ->
  gate_le (axis_gate i version) (axis_gate g version).
Proof.
  intros Hn Hg. destruct version as [v|]; [|destruct i, g; unfold gate_le; cbn; lia].
  assert (gate_rank (axis_gate g (Some v)) <> 0)%nat by (destruct (axis_gate g (Some v)); cbn; congruence).
  destruct i as [[|a|a|a]|], g as [[|[|x b]|[|x b]|b]|]; try discriminate Hn; unfold gate_le; cbn in *;
    try (apply bool_decide_eq_true in Hn; subst); rewrite ?version_le_nil in *; repeat case_match; cbn in *; lia || done.
Qed.
(** The tables: one axis is silent on both, the other narrower. *)
Definition import_narrower (f : AppletFingerprint) (alg : KeyAlg) : bool :=
  let ia := applet_support f (XImportKey alg) in let ifw := firmware_support f (XImportKey alg) in
  let ga := applet_support f (XSlotKeyAlgorithm alg) in let gfw := firmware_support f (XSlotKeyAlgorithm alg) in
  let silent s := match s with None => true | Some _ => false end in
  silent ia && silent ga && narrower ifw gfw || silent ifw && silent gfw && narrower ia ga.
Lemma import_narrower_all f alg : import_narrower f alg = true.
Proof. destruct f as [|[]| | |[]| |[]|[]| | |[]|], alg; vm_compute; done. Qed.
Lemma combine_silent g : combine_relaxed Unverified g = g /\ combine_relaxed g Unverified = g.
Proof. by destruct g. Qed.

(** Importing a key is never offered more freely than generating one, at any version. *)
Theorem import_never_wider alg f av fv :
  gate_le (resolve (XImportKey alg) f av fv) (resolve (XSlotKeyAlgorithm alg) f av fv).
Proof.
  cbn [resolve]. case_bool_decide as E; [unfold gate_le; cbn; lia|]. case_bool_decide as Hy; [done|]. clear Hy.
  revert E. rewrite !resolve_axes_support. pose proof (import_narrower_all f alg) as H. unfold import_narrower in H.
  destruct (reported av fv) as [a b]; cbn [fst snd].
  apply orb_true_iff in H as [H|H]; apply andb_true_iff in H as (H & Hn); apply andb_true_iff in H as (Hi & Hg);
    [destruct (applet_support f (XImportKey alg)), (applet_support f (XSlotKeyAlgorithm alg))
    |destruct (firmware_support f (XImportKey alg)), (firmware_support f (XSlotKeyAlgorithm alg))]; try done;
    cbn [axis_gate]; rewrite ?(proj1 (combine_silent _)), ?(proj2 (combine_silent _)); by apply narrower_gate.
Qed.

(** For every algorithm the tables do not refuse, the byte sent for it is read back as that
    algorithm: the vendors' own bytes never make two usable algorithms collide. *)
Theorem usable_algorithm_byte_roundtrip alg f av fv : resolve (XSlotKeyAlgorithm alg) f av fv <> Unsupported ->
  key_alg_from_apdu_id (slot_key_algorithm_apdu_id alg f fv) f fv = Some alg.
Proof.
  intros H. destruct f as [|[]| | |[]| |[]|[]| | |[]|], alg; try reflexivity.
  all: unfold key_alg_from_apdu_id, slot_key_algorithm_apdu_id, slot_key_algorithm_apdu_id_override; cbn.
  all: destruct fv as [v|]; cbn; [|done].
  all: destruct (version_lt v [1; 8; 2]); cbn; try done.
  destruct H. cbn [resolve]. rewrite resolve_axes_support, reported_some_r. by destruct av.
Qed.
Lemma usable_algorithm_byte_roundtrip_witness :
  key_alg_from_apdu_id (slot_key_algorithm_apdu_id Rsa4096 (Trussed Nitrokey) (Some [1; 8])) (Trussed Nitrokey) (Some [1; 8])
    = Some Rsa4096 /\
  slot_key_algorithm_apdu_id Rsa4096 (Trussed Nitrokey) (Some [1; 8]) = alg_id X25519.
Proof. split; [apply (usable_algorithm_byte_roundtrip _ _ None); vm_compute; discriminate|reflexivity]. Defined.

(** * The version an extension needs *)

Lemma find_lifted rows s v r : support_of rows = Some s -> support_gate s v = Unsupported ->
  List.find (fun r => version_lt v (vv_version r) && bool_decide (vv_verdict r = KnownSupported)) rows = Some r ->
  s = SRefusedBefore (vv_version r) /\ version_lt v (vv_version r) = true.
Proof.
  intros Hs Hg Hf. apply find_some in Hf as (Hin & Hr). apply andb_true_iff in Hr as (Hlt & Hk).
  apply bool_decide_eq_true in Hk. split; [|done].
  destruct rows as [|[a va] [|[b vb] [|? ?]]]; [done| | |by destruct a, va, vb].
  - destruct Hin as [<-|[]]. cbn in Hk. subst va. assert (s = SFrom a) as -> by (destruct a; cbn in Hs; congruence).
    cbn in Hg. by destruct (version_le a v).
  - destruct va, vb; try (by destruct a). cbn [support_of] in Hs.
    destruct Hin as [<-|[<-|[]]]; [done|]. cbn.
    destruct (version_lt a b) eqn:E; destruct a; try rewrite E in Hs; by simplify_eq.
Qed.

(** One turn of the loop over the axes. *)
Lemma floor_step_refusing t e axis version o : table_ok t = true -> axis_gate (axis_support t e) version = Unsupported ->
  floor_step (Some None) (axis, find_verdicts t e, version) = Some o ->
  exists floor v, o = Some (mkFloor axis floor) /\ axis_support t e = Some (SRefusedBefore floor) /\
    version = Some v /\ version_lt v floor = true.
Proof.
  intros Ht Hg. cbn [floor_step mbind option_bind]. rewrite resolve_in_axis, bool_decide_eq_true_2 by done. cbn.
  unfold axis_support in *. destruct (find_verdicts t e) as [rows|] eqn:E; [|done].
  destruct (find_verdicts_support _ _ _ Ht E) as (s & Hs). cbn in *. rewrite Hs in *.
  destruct version as [v|]; [|done]. cbn in *.
  destruct (List.find _ rows) as [r|] eqn:Er; [|done]. cbn. intros [= <-].
  destruct (find_lifted _ _ _ _ Hs Hg Er) as (-> & Hlt). eauto 10.
Qed.
Lemma floor_step_silent t e axis version acc : table_ok t = true -> axis_gate (axis_support t e) version <> Unsupported ->
  floor_step acc (axis, find_verdicts t e, version) = acc.
Proof.
  intros Ht Hg. cbn [floor_step]. destruct acc as [floor|]; [|done]. cbn.
  by rewrite resolve_in_axis, bool_decide_eq_false_2 by done.
Qed.
Lemma floor_step_second t e axis version fl : table_ok t = true -> axis_gate (axis_support t e) version = Unsupported ->
  floor_step (Some (Some fl)) (axis, find_verdicts t e, version) = None.
Proof. intros Ht Hg. cbn. by rewrite resolve_in_axis, bool_decide_eq_true_2 by done. Qed.
Lemma floor_step_none reading : floor_step None reading = None.
Proof. by destruct reading as [[? ?] ?]. Qed.


Lemma axis_floor_at e f a b fl : reported a b = (a, b) -> resolve_axes e f a b = Unsupported -> axis_floor e f a b = Some fl ->
  exists v, version_on (vf_axis fl) a b = Some v /\ version_lt v (vf_version fl) = true /\
    forall w, resolve_axes_at (vf_axis fl) w e f a b = if version_le (vf_version fl) w then Supported else Unsupported.
Proof.
  intros Hr Hu Hf. pose proof (tables_ok f) as Ht. apply andb_true_iff in Ht as (Hta & Htf).
  rewrite resolve_axes_support in Hu. rewrite Hr in Hu. cbn [fst snd] in Hu.
  unfold axis_floor, axes in Hf. rewrite Hr in Hf. unfold applet_verdicts, firmware_verdicts in Hf.
  destruct (decide (axis_gate (applet_support f e) a = Unsupported)) as [Ha|Ha].
  - destruct (floor_step (Some None) (AxApplet, find_verdicts (applet_table f) e, a)) as [o|] eqn:Es.
    + destruct (floor_step_refusing _ _ _ _ _ Hta Ha Es) as (floor & v & -> & Hs & -> & Hlt).
      destruct (decide (axis_gate (firmware_support f e) b = Unsupported)) as [Hb|Hb];
        [by rewrite floor_step_second in Hf|rewrite floor_step_silent in Hf by done]. simplify_eq/=.
      exists v. split_and!; [done..|]. intros w. unfold resolve_axes_at. cbn [set_version].
      rewrite resolve_axes_support, reported_some_l. cbn [fst snd]. unfold applet_support in *. rewrite Hs in *. cbn.
      rewrite Ha in Hu. destruct (axis_gate (firmware_support f e) b), (version_le floor w); cbn in *; congruence.
    + by rewrite floor_step_none in Hf.
  - rewrite (floor_step_silent _ _ AxApplet) in Hf by done.
    destruct (decide (axis_gate (firmware_support f e) b = Unsupported)) as [Hb|Hb];
      [|by rewrite floor_step_silent in Hf].
    destruct (floor_step (Some None) _) as [o|] eqn:Es; [|done].
    destruct (floor_step_refusing _ _ _ _ _ Htf Hb Es) as (floor & v & -> & Hs & -> & Hlt). simplify_eq/=.
    exists v. split_and!; [done..|]. intros w. unfold resolve_axes_at. cbn [set_version].
    rewrite resolve_axes_support, reported_some_r. cbn [fst snd]. unfold firmware_support in *. rewrite Hs in *. cbn.
    rewrite Hb in Hu. destruct (axis_gate (applet_support f e) a), (version_le floor w); cbn in *; congruence.
Qed.

(** [g], a gate at each version of an axis, refuses the reported version and exactly the later
    ones below the floor. *)
Definition exact_floor (g : VersionAxis -> list Z -> FeatureGate) (fl : VersionFloor) (av fv : option (list Z)) : Prop :=
  exists v, version_on (vf_axis fl) av fv = Some v /\ version_lt v (vf_version fl) = true /\
    forall w, version_le v w = true -> g (vf_axis fl) w = Unsupported <-> version_lt w (vf_version fl) = true.

Lemma set_version_same axis v a b : version_on axis a b = Some v -> set_version axis v a b = (a, b).
Proof. destruct axis; cbn; congruence. Qed.
Lemma axis_floor_exact e f a b fl : reported a b = (a, b) -> resolve_axes e f a b = Unsupported -> axis_floor e f a b = Some fl ->
  exact_floor (fun axis w => resolve_axes_at axis w e f a b) fl a b.
Proof.
  intros Hr Hu Hf. destruct (axis_floor_at _ _ _ _ _ Hr Hu Hf) as (v & Hv & Hlt & Hat).
  exists v. split_and!; [done..|]. intros w _. rewrite Hat.
  destruct (version_le (vf_version fl) w) eqn:E; [|split; [|done]].
  - split; [done|]. intros Hw. by rewrite (proj1 (version_le_lt_false _ _) E) in Hw.
  - intros _. destruct (version_lt w (vf_version fl)) eqn:E'; [done|].
    apply version_le_lt_false in E'. congruence.
Qed.

(** An axis that does not refuse the reported version refuses no later one. *)
Lemma not_refused_later axis v w e f a b : version_on axis a b = Some v -> version_le v w = true ->
  resolve_axes e f a b <> Unsupported -> resolve_axes_at axis w e f a b <> Unsupported.
Proof.
  intros Hv Hw Hn Hu. apply (resolve_axes_mono axis v w e f a b) in Hw. rewrite Hu in Hw.
  unfold resolve_axes_at in Hw. rewrite (set_version_same _ _ _ _ Hv) in Hw.
  unfold gate_le in Hw. destruct (resolve_axes e f a b); cbn in Hw; done || lia.
Qed.
Lemma exact_floor_ext g h fl a b :
  (forall v w, version_on (vf_axis fl) a b = Some v -> version_le v w = true ->
     g (vf_axis fl) w = Unsupported <-> h (vf_axis fl) w = Unsupported) ->
  exact_floor h fl a b -> exact_floor g fl a b.
Proof.
  intros He (v & Hv & Hlt & H). exists v. split_and!; [done..|]. intros w Hw. rewrite (He v w Hv Hw). by apply H.
Qed.
Lemma exact_floor_later g h p q a b : vf_axis p = vf_axis q -> exact_floor g p a b -> exact_floor h q a b ->
  exact_floor (fun axis w => if bool_decide (g axis w = Unsupported) then Unsupported else h axis w)
    (if version_le (vf_version q) (vf_version p) then p else q) a b.
Proof.
  intros Hax (v & Hv & Hp & HG) (v' & Hv' & Hq & HH). rewrite <- Hax in *. rewrite Hv in Hv'. simplify_eq.
  destruct (version_le (vf_version q) (vf_version p)) eqn:E; exists v'; rewrite <- ?Hax; split_and!; try done;
    intros w Hw; specialize (HG w Hw); specialize (HH w Hw); case_bool_decide as D.
  - split; [intros _; by apply HG|done].
  - split; [|intros Hl; by apply HG in Hl]. intros Hh. apply HH in Hh. by eapply version_lt_le_trans.
  - split; [|done]. intros _. apply HG in D. eapply version_lt_le_trans; [done|]. by apply version_le_total.
  - done.
Qed.

Definition import_at (alg : KeyAlg) (f : AppletFingerprint) (a b : option (list Z)) (axis : VersionAxis) (w : list Z) : FeatureGate :=
  if bool_decide (resolve_axes_at axis w (XSlotKeyAlgorithm alg) f a b = Unsupported) then Unsupported
  else resolve_axes_at axis w (XImportKey alg) f a b.
Lemma resolve_at_import alg f a b axis w : f <> YubiKey -> resolve_at axis w (XImportKey alg) f a b = import_at alg f a b axis w.
Proof.
  intros Hf. unfold resolve_at, import_at, resolve_axes_at. destruct (set_version axis w a b). cbn.
  by rewrite (bool_decide_eq_false_2 (f = YubiKey)).
Qed.

(** The floor of an import of a card other than a YubiKey: the later of the two. *)
Lemma import_floor_exact alg f a b fl : reported a b = (a, b) -> f <> YubiKey ->
  resolve (XImportKey alg) f a b = Unsupported -> floor_of (XImportKey alg) f a b = Some fl ->
  exact_floor (import_at alg f a b) fl a b.
Proof.
  intros Hr Hf Hu. cbn [resolve floor_of] in *. rewrite (bool_decide_eq_false_2 (f = YubiKey)) in * by done.
  pose proof (axis_floor_exact (XSlotKeyAlgorithm alg) f a b) as Hgen.
  pose proof (axis_floor_exact (XImportKey alg) f a b) as Hown.
  destruct (decide (resolve_axes (XSlotKeyAlgorithm alg) f a b = Unsupported)) as [Eg|Eg];
    [rewrite (bool_decide_eq_true_2 _ Eg) in *|rewrite (bool_decide_eq_false_2 _ Eg) in *].
  - cbn. destruct (axis_floor (XSlotKeyAlgorithm alg) f a b) as [p|]; [|done]. cbn.
    specialize (Hgen p Hr Eg eq_refl).
    case_bool_decide as Eo; cbn.
    + destruct (axis_floor (XImportKey alg) f a b) as [q|]; [|done]. cbn. case_bool_decide as Hax; [|done].
      intros [= <-]. apply exact_floor_later; auto.
    + intros [= <-]. revert Hgen. apply exact_floor_ext. intros v w Hv Hw. unfold import_at. case_bool_decide as D; [done|].
      split; [|done]. intros H. by apply (not_refused_later _ _ _ _ _ _ _ Hv Hw Eo) in H.
  - cbn. rewrite (bool_decide_eq_true_2 _ Hu). cbn. destruct (axis_floor (XImportKey alg) f a b) as [q|]; [|done].
    intros [= <-]. generalize (Hown q Hr Hu eq_refl). apply exact_floor_ext. intros v w Hv Hw. unfold import_at.
    by rewrite bool_decide_eq_false_2 by exact (not_refused_later _ _ _ _ _ _ _ Hv Hw Eg).
Qed.
(** The extension whose rows answer for [e]: GET METADATA's, where the slot status has none. *)
Definition rows_for (e : PivExtension) (f : AppletFingerprint) : PivExtension :=
  match e with
  | XGetSlotKeyStatus => match applet_verdicts f e with None => XGetMetadata | Some _ => e end
  | _ => e
  end.
Lemma resolve_rows e f a b : (forall alg, e <> XImportKey alg) ->
  resolve e f a b = resolve_axes (rows_for e f) f a b /\ floor_of e f a b = axis_floor (rows_for e f) f a b.
Proof. intros H. destruct e; try done; cbn [resolve floor_of rows_for]; [by case_match|by destruct (H a0)]. Qed.
Lemma supported_from_reported e f av fv : supported_from e f av fv = supported_from e f (reported av fv).1 (reported av fv).2.
Proof. by destruct av, fv. Qed.
Lemma reported_idem av fv : reported (reported av fv).1 (reported av fv).2 = ((reported av fv).1, (reported av fv).2).
Proof. by destruct av, fv. Qed.
Lemma axis_floor_both e f a b fl : reported a b = (a, b) -> resolve_axes e f a b = Unsupported -> axis_floor e f a b = Some fl ->
  exact_floor (fun axis w => resolve_axes_at axis w e f a b) fl a b /\
  forall w, version_le (vf_version fl) w = true -> resolve_axes_at (vf_axis fl) w e f a b = Supported.
Proof.
  intros Hr Hu Hf. split; [by apply axis_floor_exact|]. intros w Hw.
  destruct (axis_floor_at _ _ _ _ _ Hr Hu Hf) as (v & _ & _ & Hat). by rewrite Hat, Hw.
Qed.
(** A YubiKey imports what it generates. *)
Lemma resolve_yubikey_import alg a b : resolve (XImportKey alg) YubiKey a b = resolve_axes (XSlotKeyAlgorithm alg) YubiKey a b.
Proof. cbn [resolve]. case_bool_decide as E; [by rewrite E|]. by rewrite bool_decide_eq_true_2. Qed.
Lemma yubikey_import_floor alg a b fl : resolve (XImportKey alg) YubiKey a b = Unsupported ->
  floor_of (XImportKey alg) YubiKey a b = Some fl -> axis_floor (XSlotKeyAlgorithm alg) YubiKey a b = Some fl.
Proof.
  rewrite resolve_yubikey_import. intros Hu. cbn [floor_of resolve]. rewrite bool_decide_eq_true_2 by done. cbn.
  rewrite bool_decide_eq_true_2 by done. by destruct (axis_floor _ _ _ _).
Qed.

(** C14: when an extension is refused and keyroost names a version it needs, that version is the
    exact boundary on its axis: every reported version from the present one up to it is
    refused, and from it on the extension is no longer refused, and known supported unless it
    is an import (which may have rows for generating the key only). *)
Theorem supported_from_exact e f av fv fl : supported_from e f av fv = Some fl ->
  let '(a, b) := reported av fv in
  exact_floor (fun axis w => resolve_at axis w e f a b) fl a b /\
  ((forall alg, e <> XImportKey alg) -> forall w, version_le (vf_version fl) w = true -> resolve_at (vf_axis fl) w e f a b = Supported).
Proof.
  rewrite supported_from_reported. pose proof (reported_idem av fv) as Hr. destruct (reported av fv) as [a b].
  cbn [fst snd] in *. unfold supported_from. case_bool_decide as Hu; [|done]. cbn. intros Hf.
  assert ((exists alg, e = XImportKey alg) \/ forall alg, e <> XImportKey alg) as [(alg & ->)|Hn] by (destruct e; naive_solver).
  { split; [|intros Hn; by destruct (Hn alg)]. destruct (decide (f = YubiKey)) as [->|Hy].
    - pose proof (yubikey_import_floor _ _ _ _ Hu Hf) as Hg. rewrite resolve_yubikey_import in Hu.
      destruct (axis_floor_both _ _ _ _ _ Hr Hu Hg) as (Hex & _). revert Hex. apply exact_floor_ext. intros v w _ _.
      unfold resolve_at, resolve_axes_at. destruct (set_version _ w a b). by rewrite resolve_yubikey_import.
    - pose proof (import_floor_exact _ _ _ _ _ Hr Hy Hu Hf) as Hex. revert Hex. apply exact_floor_ext. intros v w _ _.
      by rewrite resolve_at_import. }
  destruct (resolve_rows e f a b Hn) as (Eu & Ef). rewrite Eu in Hu. rewrite Ef in Hf.
  destruct (axis_floor_both _ _ _ _ _ Hr Hu Hf) as (Hex & Hat).
  assert (E : forall axis w, resolve_at axis w e f a b = resolve_axes_at axis w (rows_for e f) f a b).
  { intros axis w. unfold resolve_at, resolve_axes_at. destruct (set_version axis w a b). by apply resolve_rows. }
  split; [|intros _ w Hw; rewrite E; by apply Hat]. revert Hex. apply exact_floor_ext. intros v w _ _. by rewrite E.
Qed.
Lemma supported_from_exact_witness :
  supported_from (XImportKey Rsa3072) (Trussed Nitrokey) None (Some [1; 7; 0]) = Some (mkFloor AxFirmware [1; 8; 2]) /\
  exact_floor (fun axis w => resolve_at axis w (XImportKey Rsa3072) (Trussed Nitrokey) None (Some [1; 7; 0]))
    (mkFloor AxFirmware [1; 8; 2]) None (Some [1; 7; 0]).
Proof.
  split; [reflexivity|].
  exact (proj1 (supported_from_exact (XImportKey Rsa3072) (Trussed Nitrokey) None (Some [1; 7; 0]) (mkFloor AxFirmware [1; 8; 2]) eq_refl)).
Defined.

(** * Quirks *)

Lemma rposition_lookup {A} (f : A -> bool) l i : rposition f l = Some i -> exists x, l !! i = Some x /\ f x = true.
Proof.
  revert i. induction l as [|a l IH]; intros i; [done|]. simpl. destruct (rposition f l) as [j|].
  - intros [= <-]. destruct (IH j eq_refl) as (x & Hx & Hf). by exists x.
  - destruct (f a) eqn:E; [|done]. intros [= <-]. by exists a.
Qed.
Lemma rposition_first {A} (f : A -> bool) a l : f a = true -> is_Some (rposition f (a :: l)).
Proof. intros H. simpl. rewrite H. destruct (rposition f l); by eexists. Qed.

Lemma axis_quirks_elem entries version : axis_quirks entries version ∈ [] :: map vq_quirks entries.
Proof.
  unfold axis_quirks. destruct version as [v|]; cbn [mbind option_bind]; [|left].
  unfold latest_quirks. destruct (rposition _ entries) as [i|]; cbn [mbind option_bind]; [|left].
  destruct (entries !! i) as [x|] eqn:E; [|left]. right. apply list_elem_of_In, in_map, list_elem_of_In.
  by eapply list_elem_of_lookup_2.
Qed.
(** A table that starts at the universal version has an entry for every version. *)
Definition quirk_choices (entries : list VersionQuirks) : list (list PivQuirk) :=
  match entries with [] => [[]] | _ => map vq_quirks entries end.
Lemma axis_quirks_choice entries v : default [] (vq_version <$> head entries) = [] ->
  axis_quirks entries (Some v) ∈ quirk_choices entries.
Proof.
  destruct entries as [|e entries]; [left|]. cbn [head fmap option_fmap option_map default]. intros He.
  unfold axis_quirks, latest_quirks. cbn [mbind option_bind].
  assert (version_le (vq_version e) v = true) as H by (change (vq_version e = []) in He; rewrite He; apply version_le_nil).
  destruct (rposition_first (fun e => version_le (vq_version e) v) e entries H) as (i & Hi).
  rewrite Hi. destruct (rposition_lookup _ _ _ Hi) as (x & Hx & _). cbn [mbind option_bind]. rewrite Hx.
  apply list_elem_of_In, in_map, list_elem_of_In. by eapply list_elem_of_lookup_2.
Qed.

(** The defaults two quirk sets give. *)
Definition defaults (q : list PivQuirk) : option (list Z) * option (list Z * list Z) :=
  (default_9b_management_key q, default_pin_puk q).
Definition defaults_fixed (f : AppletFingerprint) : bool :=
  bool_decide (default [] (vq_version <$> head (applet_quirks f)) = []) &&
  forallb (fun q => forallb (fun q' => bool_decide (defaults (btree_set (q ++ q')) = defaults (resolve_quirks f None None)))
                            ([] :: map vq_quirks (firmware_quirks f)))
          (quirk_choices (applet_quirks f)).
Lemma defaults_fixed_all f : defaults_fixed f = true.
Proof. destruct f as [|[]| | |[]| |[]|[]| | |[]|]; vm_compute; done. Qed.

(** The factory defaults keyroost knows for a card (its management key, PIN and PUK) do not
    depend on the applet version it reports, or on whether it reports one at all: no later
    entry of a table drops them. *)
Theorem defaults_any_version f v fv : defaults (resolve_quirks f (Some v) fv) = defaults (resolve_quirks f None None).
Proof.
  pose proof (defaults_fixed_all f) as H. apply andb_true_iff in H as (Hu & H). apply bool_decide_eq_true in Hu.
  rewrite forallb_forall in H. specialize (H _ (proj1 (list_elem_of_In _ _) (axis_quirks_choice _ v Hu))).
  rewrite forallb_forall in H. specialize (H _ (proj1 (list_elem_of_In _ _) (axis_quirks_elem (firmware_quirks f) fv))).
  apply bool_decide_eq_true in H. rewrite <- H. unfold resolve_quirks at 1. cbn [reported]. by rewrite axis_merge_relaxed.
Qed.

(** What the tables hold where the comments say otherwise. *)
Example nitrokey_delete_unverified : resolve (XManagementKeyAlgorithm CDelete) (Trussed Nitrokey) None (Some [1; 8; 2]) = Unverified.
Proof. reflexivity. Qed.
Example nitrokey_firmware_quirk : resolve_quirks (Trussed Nitrokey) None (Some [1; 9; 1]) = [QNeverAsksForTouch].
Proof. reflexivity. Qed.
