(* ===== verification/Token2Entry.v ===== *)
(** keyroost-token2otp/src/hidframe.rs: the 64-byte feature reports that carry
    the APDUs of Token2's OTP applet over USB, and their reassembly; then the entries (entry.rs). *)
From S2P Require Export Words Text.

Definition REPORT_PAYLOAD : Z := 64.
Definition PAYLOAD_HEADER : Z := 3.
Definition MAX_CHUNK : Z := REPORT_PAYLOAD - PAYLOAD_HEADER.
Definition MAGIC : Z := 0x21.
Definition FLAG_MORE : Z := 0x20.
Definition FLAG_BUSY : Z := 0xC0.
Definition FLAG_LAST : Z := 0x00.
Definition MAX_RESPONSE : Z := 64 * 1024.

(** * Sending *)

(** The 65-byte report: report ID, magic, flags and sequence, length, chunk, zeros. *)
Definition send_frame (flags_seq : Z) (chunk : list Z) : list Z :=
  [0x00; MAGIC; flags_seq; cast 8 (zlen chunk)] ++ chunk ++ replicate (Z.to_nat (MAX_CHUNK - zlen chunk)) 0.

Definition chunk_frame (total_chunks : Z) (i : nat) (chunk : list Z) : list Z :=
  let is_last := Z.of_nat i + 1 =? total_chunks in
  let flags := if is_last then FLAG_LAST else FLAG_MORE in
  let seq := cast 8 (Z.of_nat i mod 16) in
  send_frame (Z.lor flags seq) chunk.

Definition build_send_frames (apdu : list Z) : list (list Z) :=
  if bool_decide (apdu = []) then [send_frame FLAG_LAST []]
  else
    let total_chunks := (zlen apdu + MAX_CHUNK - 1) / MAX_CHUNK in
    imap (chunk_frame total_chunks) (chunks (Z.to_nat MAX_CHUNK) apdu).

(** * Receiving *)

Inductive Step := NeedMore | Busy (retries : Z) | Done.

Inductive FrameError :=
  | BadMagic
  | ChunkTooLong (n : Z)
  | OutOfSequence (expected got : Z)
  | ShortFrame
  | ResponseTooLong
  | FramePanic.  (* no value of the source's: the busy counter overflowed *)

Definition frame_error_text (e : FrameError) : list Z :=
  match e with
  | BadMagic => s2b "HID frame magic byte was not 0x21"
  | ChunkTooLong n => s2b "HID chunk length " ++ dec n ++ s2b " exceeds 61"
  | OutOfSequence expected got => s2b "HID frame out of sequence: expected " ++ dec expected ++ s2b ", got " ++ dec got
  | ShortFrame => s2b "HID frame shorter than its 3-byte header"
  | ResponseTooLong => s2b "HID response exceeded the " ++ dec MAX_RESPONSE ++ s2b "-byte reassembly limit"
  | FramePanic => []
  end.

Record ResponseAssembler := mkAssembler { buf : list Z; received : Z; busy_retries : Z; is_done : bool }.
Definition assembler_new : ResponseAssembler := mkAssembler [] 0 0 false.

(** The report with its report ID taken off, if it was kept. *)
Definition frame_payload (raw : list Z) : list Z :=
  match raw with
  | 0x00 :: ((m :: _) as rest) => if m =? MAGIC then rest else raw
  | _ => raw
  end.

Definition push (raw : list Z) : io ResponseAssembler FrameError Step := fun a =>
  match frame_payload raw with
  | magic :: flags_seq :: len :: body =>
      if negb (magic =? MAGIC) then (Err BadMagic, a) else
      let flags := Z.land flags_seq 0xF0 in
      let seq := Z.land flags_seq 0x0F in
      if flags =? FLAG_BUSY then
        if busy_retries a + 1 <? 2 ^ 32 then
          (Ok (Busy (busy_retries a + 1)), mkAssembler (buf a) (received a) (busy_retries a + 1) (is_done a))
        else (Err FramePanic, a)
      else
        let a := mkAssembler (buf a) (received a) 0 (is_done a) in
        if negb (seq =? received a mod 16) then (Err (OutOfSequence (received a mod 16) seq), a) else
        let a := mkAssembler (buf a) (wadd 8 (received a) 1) 0 (is_done a) in
        if MAX_CHUNK <? len then (Err (ChunkTooLong len), a)
        else if zlen body <? len then (Err ShortFrame, a)
        else
          let chunk := take (Z.to_nat len) body in
          if MAX_RESPONSE <? zlen (buf a) + zlen chunk then (Err ResponseTooLong, a)
          else if negb (Z.land flags FLAG_MORE =? 0) then (Ok NeedMore, mkAssembler (buf a ++ chunk) (received a) 0 (is_done a))
          else (Ok Done, mkAssembler (buf a ++ chunk) (received a) 0 true)
  | _ => (Err ShortFrame, a)
  end.

Definition into_response (a : ResponseAssembler) : option (list Z * Z) :=
  let split := zlen (buf a) - 2 in
  if zlen (buf a) <? 2 then None
  else
    let '(data, sw) := split_at split (buf a) in
    match sw with [s1; s2] => Some (data, Z.lor (Z.shiftl s1 8) s2) | _ => None end.

(** * Reading reports to the end *)

Fixpoint push_all (frames : list (list Z)) : io ResponseAssembler FrameError (list Step) :=
  match frames with
  | [] => mret []
  | f :: frames => step ← push f; rest ← push_all frames; mret (step :: rest)
  end.

(** The frames with busy frames in between. *)
Inductive with_busy : list (list Z) -> list (list Z) -> Prop :=
  | wb_nil : with_busy [] []
  | wb_frame f fs gs : with_busy fs gs -> with_busy (f :: fs) (f :: gs)
  | wb_busy f fs gs : (exists seq rest, f = MAGIC :: seq :: rest /\ Z.land seq 0xF0 = FLAG_BUSY /\ rest <> []) ->
      with_busy fs gs -> with_busy fs (f :: gs).

Definition is_busy (s : Step) : bool := match s with Busy _ => true | _ => false end.

Lemma send_frame_length flags c : zlen c <= 61 -> zlen (send_frame flags c) = 65.
Proof. intros Hc. pose proof (zlen_nonneg c). unfold send_frame, MAX_CHUNK, REPORT_PAYLOAD, PAYLOAD_HEADER. zlen. lia. Qed.

Lemma flags_seq_nibbles flags seq :
  flags = FLAG_MORE \/ flags = FLAG_LAST -> 0 <= seq < 16 ->
  Z.land (Z.lor flags seq) 0xF0 = flags /\ Z.land (Z.lor flags seq) 0x0F = seq.
Proof.
  intros Hf Hs.
  pose proof (byte_forall (fun s => negb (s <? 16) || ((Z.land (Z.lor flags s) 0xF0 =? flags) && (Z.land (Z.lor flags s) 0x0F =? s)))) as Hb.
  specialize (Hb ltac:(by destruct Hf as [-> | ->]) seq ltac:(unfold is_byte; lia)). cbn beta in Hb.
  rewrite (proj2 (Z.ltb_lt seq 16)) in Hb by lia. cbn [negb orb] in Hb. apply andb_prop in Hb as [H1 H2]. bools. done.
Qed.

Lemma push_send_frame flags seq chunk a :
  flags = FLAG_MORE \/ flags = FLAG_LAST -> 0 <= seq < 16 -> seq = received a mod 16 -> zlen chunk <= 61 ->
  zlen (buf a) + zlen chunk <= MAX_RESPONSE ->
  push (send_frame (Z.lor flags seq) chunk) a =
    (Ok (if flags =? FLAG_MORE then NeedMore else Done),
     mkAssembler (buf a ++ chunk) (wadd 8 (received a) 1) 0 (if flags =? FLAG_MORE then is_done a else true)).
Proof.
  intros Hf Hs He Hc Hm. pose proof (zlen_nonneg chunk). unfold send_frame, push. cbn [app frame_payload].
  change (MAGIC =? MAGIC) with true. cbn iota. cbn [negb].
  destruct (flags_seq_nibbles flags seq Hf Hs) as [-> ->].
  assert (flags =? FLAG_BUSY = false) as -> by (by destruct Hf as [-> | ->]).
  cbn [received buf is_done]. rewrite <- He, (Z.eqb_refl seq). cbn [negb].
  rewrite cast_small by (unfold is_word; lia). unfold MAX_CHUNK, REPORT_PAYLOAD, PAYLOAD_HEADER.
  rewrite (proj2 (Z.ltb_ge (64 - 3) (zlen chunk))) by lia.
  rewrite (proj2 (Z.ltb_ge (zlen (chunk ++ _)) (zlen chunk))) by (rewrite zlen_app; match goal with |- context [zlen (replicate ?n 0)] => pose proof (zlen_nonneg (replicate n 0)) end; lia).
  rewrite take_zlen, (proj2 (Z.ltb_ge MAX_RESPONSE (zlen (buf a) + zlen chunk))) by lia. destruct Hf as [-> | ->]; reflexivity.
Qed.

Definition expected_steps (frames : nat) : list Step :=
  match frames with O => [] | S n => replicate n NeedMore ++ [Done] end.

Lemma push_busy seq rest a :
  Z.land seq 0xF0 = FLAG_BUSY -> rest <> [] -> busy_retries a + 1 < 2 ^ 32 ->
  push (MAGIC :: seq :: rest) a =
    (Ok (Busy (busy_retries a + 1)), mkAssembler (buf a) (received a) (busy_retries a + 1) (is_done a)).
Proof.
  intros Hs Hr Hb. unfold push. destruct rest as [|len body]; [done|]. cbn [frame_payload].
  unfold MAGIC. cbn iota. cbn [Z.eqb Pos.eqb negb]. by rewrite Hs, (proj2 (Z.ltb_lt _ _)).
Qed.

Lemma push_frames total gs : forall (cs : list (list Z)) i a,
  with_busy (imap (fun j => chunk_frame total (i + j)) cs) gs ->
  total - Z.of_nat (length cs) = Z.of_nat i -> Forall (fun c => zlen c <= 61) cs ->
  received a mod 16 = Z.of_nat i mod 16 -> zlen (buf a) + zlen (concat cs) <= MAX_RESPONSE ->
  0 <= busy_retries a -> busy_retries a + zlen gs < 2 ^ 32 ->
  exists steps a', push_all gs a = (Ok steps, a') /\ buf a' = buf a ++ concat cs /\
    is_done a' = (bool_decide (cs <> []) || is_done a) /\
    List.filter (fun s => negb (is_busy s)) steps = expected_steps (length cs).
Proof.
  induction gs as [|g gs IH]; intros cs i a Hw Ht Hc Hr Hm Hb0 Hb.
  - inversion Hw as [Hnil| |]. destruct cs; [|done]. exists [], a. cbn. by rewrite app_nil_r.
  - pose proof (zlen_nonneg gs). rewrite zlen_cons in Hb. inversion Hw as [|f fs gs' Hw' Hf|f fs gs' (seq & rest & -> & Hseq & Hrest) Hw']; subst.
    + destruct cs as [|c cs]; [done|]. rewrite imap_cons in Hf. injection Hf as -> ->.
      apply list.Forall_cons in Hc as [Hc Hcs]. cbn [concat] in Hm. rewrite zlen_app in Hm. pose proof (zlen_nonneg (concat cs)).
      rewrite Nat.add_0_r. cbn [length] in Ht.
      set (last := Z.of_nat i + 1 =? total).
      assert (last = bool_decide (cs = [])) as Hlast.
      { unfold last. destruct cs; [rewrite bool_decide_eq_true_2 by done; apply Z.eqb_eq; cbn [length] in Ht; lia|].
        rewrite bool_decide_eq_false_2 by done. apply Z.eqb_neq. cbn [length] in Ht. lia. }
      assert (0 <= Z.of_nat i mod 16 < 16) as Hi by lia_div.
      cbn [push_all]. unfold chunk_frame. fold last. rewrite cast_small by (unfold is_word; lia).
      erewrite io_bind_Ok_eq by (apply push_send_frame; [destruct last; auto|lia|lia|done|lia]).
      set (a1 := mkAssembler _ _ _ _).
      destruct (IH cs (S i) a1) as (steps & a' & Hp & Hbuf & Hdone & Hst).
      * erewrite imap_ext; [exact Hw'|]. intros j x _. unfold compose. by replace (i + S j)%nat with (S i + j)%nat by lia.
      * lia.
      * done.
      * unfold a1. cbn [received]. unfold wadd, cast. change (2 ^ 8) with 256. lia_div.
      * unfold a1. cbn [buf]. rewrite zlen_app. lia.
      * unfold a1. cbn [busy_retries]. lia.
      * unfold a1. cbn [busy_retries]. lia.
      * eexists _, a'. split; [by erewrite io_bind_Ok_eq by exact Hp|]. split; [rewrite Hbuf; unfold a1; cbn [buf concat]; by rewrite app_assoc|].
        split.
        -- rewrite Hdone. unfold a1. cbn [is_done]. rewrite Hlast. destruct cs; done.
        -- cbn [List.filter]. rewrite Hlast. destruct cs; cbn; by rewrite ?Hst.
    + cbn [push_all]. erewrite io_bind_Ok_eq by (apply push_busy; [done|done|lia]). set (a1 := mkAssembler _ _ _ _).
      destruct (IH cs i a1) as (steps & a' & Hp & Hbuf & Hdone & Hst); try done; [unfold a1; cbn [busy_retries]; lia..|].
      eexists _, a'. split; [by erewrite io_bind_Ok_eq by exact Hp|]. by split.
Qed.

(** The assembler's invariant. *)
Definition assembler_ok (a : ResponseAssembler) : Prop :=
  zlen (buf a) <= MAX_RESPONSE /\ is_word 8 (received a) /\ is_word 32 (busy_retries a).

Lemma push_ok f a : assembler_ok a -> assembler_ok (push f a).2.
Proof.
  intros (Hm & Hr & Hb). unfold push. destruct (frame_payload f) as [|m [|fs [|len body]]]; try done.
  destruct (negb (m =? MAGIC)); [done|]. destruct (Z.land fs 0xF0 =? FLAG_BUSY).
  { destruct (busy_retries a + 1 <? 2 ^ 32) eqn:H; [|done]. bools. split; [done|]. split; [done|]. unfold is_word in *. cbn. lia. }
  assert (is_word 32 0) by (unfold is_word; lia). assert (is_word 8 (wadd 8 (received a) 1)) by (by apply wadd_word).
  destruct (negb _); [done|]. destruct (MAX_CHUNK <? len); [done|]. destruct (zlen body <? len); [done|].
  cbn [buf]. destruct (MAX_RESPONSE <? _) eqn:H2; [done|]. bools.
  destruct (negb _); (split; [cbn [snd buf]; rewrite zlen_app; lia|done]).
Qed.

Lemma push_all_ok fs a : assembler_ok a -> assembler_ok (push_all fs a).2.
Proof.
  revert a. induction fs as [|f fs IH]; intros a Ha; [done|]. cbn [push_all]. pose proof (push_ok f a Ha) as Hp.
  unfold mbind, io_bind. destruct (push f a) as [[s|e] a1]; [|done]. pose proof (IH a1 Hp) as H1.
  by destruct (push_all fs a1) as [[ss|e] a2].
Qed.

(** * Properties *)

(** Reports carry a message whole. Splitting any answer of 2 to 65536 bytes
    into reports and reading these back, with reports in between that say the
    device is still working, gives the answer's data and status word: every
    report but the last asks for more, the last one ends it, and the busy ones
    change nothing. Every report has 65 bytes, and whatever a device sends, the
    assembled answer never passes the limit of 65536 bytes. *)
Theorem hid_frames_roundtrip (data : list Z) (s1 s2 : Z) (gs junk : list (list Z)) :
  is_byte s1 -> is_byte s2 -> zlen data + 2 <= MAX_RESPONSE -> zlen gs < 2 ^ 32 ->
  with_busy (build_send_frames (data ++ [s1; s2])) gs ->
  Forall (fun f => zlen f = 65) (build_send_frames (data ++ [s1; s2])) /\
  (exists steps a, push_all gs assembler_new = (Ok steps, a) /\ is_done a = true /\
    into_response a = Some (data, s1 * 256 + s2) /\
    List.filter (fun s => negb (is_busy s)) steps = expected_steps (length (build_send_frames (data ++ [s1; s2])))) /\
  zlen (buf (push_all junk assembler_new).2) <= MAX_RESPONSE.
Proof.
  intros H1 H2 Hm Hg Hw. pose proof (zlen_nonneg data).
  assert (data ++ [s1; s2] <> []) as Hne by (by destruct data).
  assert (build_send_frames (data ++ [s1; s2]) =
    imap (fun j => chunk_frame (zlen (chunks 61 (data ++ [s1; s2]))) (0 + j)) (chunks 61 (data ++ [s1; s2]))) as Hf.
  { unfold build_send_frames. rewrite bool_decide_eq_false_2 by done. unfold MAX_CHUNK, REPORT_PAYLOAD, PAYLOAD_HEADER.
    change (Z.to_nat (64 - 3)) with 61%nat. change (64 - 3) with (Z.of_nat 61).
    by rewrite <- length_chunks by lia. }
  pose proof (chunks_bounded 61 (data ++ [s1; s2]) ltac:(lia)) as Hc.
  assert (Forall (fun c => zlen c <= 61) (chunks 61 (data ++ [s1; s2]))) as Hc'.
  { eapply list.Forall_impl; [exact Hc|]. unfold zlen. cbn. lia. }
  rewrite Hf in Hw |- *. split; [|split].
  - apply list.Forall_forall. intros f Hin. apply elem_of_lookup_imap in Hin as (j & c & -> & Hj).
    apply send_frame_length. rewrite list.Forall_forall in Hc'. apply Hc'. by eapply list_elem_of_lookup_2.
  - edestruct (push_frames (zlen (chunks 61 (data ++ [s1; s2]))) gs (chunks 61 (data ++ [s1; s2])) 0 assembler_new)
      as (steps & a & Hp & Hb & Hd & Hs); [exact Hw|unfold zlen; lia|done|done| |done|cbn; lia|].
    { rewrite concat_chunks by lia. cbn [buf assembler_new]. zlen. lia. }
    exists steps, a. split; [done|]. rewrite concat_chunks in Hb by lia. cbn [buf assembler_new app] in Hb.
    split; [|split].
    + rewrite Hd. apply orb_true_iff. left. apply bool_decide_eq_true_2. intros Hn. apply Hne. by rewrite <- (concat_chunks 61 (data ++ _)), Hn by lia.
    + unfold into_response. rewrite Hb. zlen. rewrite (proj2 (Z.ltb_ge _ 2)) by lia.
      replace (zlen data + _ - 2) with (zlen data) by lia. rewrite split_at_app. f_equal. f_equal.
      rewrite lor_shiftl_add by (unfold is_byte in *; lia). done.
    + by rewrite Hs, length_imap.
  - by apply push_all_ok.
Qed.

Definition busy_report : list Z := MAGIC :: 0xC3 :: replicate 62 0.
Lemma hid_frames_roundtrip_witness :
  let data := replicate 70 7 in
  let gs := busy_report :: build_send_frames (data ++ [0x90; 0x00]) in
  Forall (fun f => zlen f = 65) (build_send_frames (data ++ [0x90; 0x00])) /\
  (exists steps a, push_all gs assembler_new = (Ok steps, a) /\ is_done a = true /\
    into_response a = Some (data, 0x90 * 256 + 0x00) /\
    List.filter (fun s => negb (is_busy s)) steps = expected_steps (length (build_send_frames (data ++ [0x90; 0x00])))) /\
  zlen (buf (push_all gs assembler_new).2) <= MAX_RESPONSE.
Proof.
  apply (hid_frames_roundtrip (replicate 70 7) 0x90 0x00); try (unfold is_byte; lia); try (vm_compute; done).
  apply wb_busy; [by exists 0xC3, (replicate 62 0)|].
  generalize (build_send_frames (replicate 70 7 ++ [0x90; 0x00])). induction l; by constructor.
Defined.

(** Keyroost-token2otp/src/entry.rs: the entries of Token2's OTP applet: what is sent to write,
    delete and read one, and the pages the applet lists them in. *)

(** * Data *)

Inductive OtpType := Hotp | Totp.
#[export] Instance OtpType_eq_dec : EqDecision OtpType.
Proof. solve_decision. Defined.
Definition type_byte (t : OtpType) : Z := match t with Hotp => 0x00 | Totp => 0x01 end.
Definition type_from_byte (b : Z) : option OtpType :=
  if b =? 0x00 then Some Hotp else if b =? 0x01 then Some Totp else None.

Inductive Algorithm := Sha1 | Sha256.
#[export] Instance Algorithm_eq_dec : EqDecision Algorithm.
Proof. solve_decision. Defined.
Definition algorithm_byte (a : Algorithm) : Z := match a with Sha1 => 0xC1 | Sha256 => 0xC2 end.
Definition algorithm_from_byte (b : Z) : option Algorithm :=
  if b =? 0xC1 then Some Sha1 else if b =? 0xC2 then Some Sha256 else None.

Record Entry := mkEntry {
  e_type : OtpType; e_algorithm : Algorithm; e_timestep : Z; e_code_length : Z; e_button : bool;
  e_app : list Z; e_account : list Z; e_code : option (list Z)
}.
Record WriteEntry := mkWrite {
  w_type : OtpType; w_algorithm : Algorithm; w_timestep : Z; w_code_length : Z; w_button : bool;
  w_app : list Z; w_account : list Z; w_seed : list Z
}.

Inductive ParseError := Truncated | Malformed (what : list Z) | Invalid (what : list Z).
Definition parse_error_text (e : ParseError) : list Z :=
  match e with
  | Truncated => s2b "response truncated mid-record"
  | Malformed s => s2b "malformed response: " ++ s
  | Invalid s => s2b "invalid parameter: " ++ s
  end.

Record EnumPage := mkPage { p_entries : list Entry; p_more : bool }.

Definition SUB_READ_ONE : Z := 0x01.
Definition SUB_READ_ALL : Z := 0x03.

(** * Requests *)

Definition is_ascii (s : list Z) : bool := forallb (fun b => b <? 0x80) s.
Definition validate_app (app : list Z) : result ParseError unit :=
  if negb (is_ascii app) || (64 <? zlen app) then Err (Invalid (s2b "app_name must be ASCII, 0..=64 bytes")) else Ok tt.
Definition validate_account (account : list Z) : result ParseError unit :=
  if negb (is_ascii account) || bool_decide (account = []) || (64 <? zlen account)
  then Err (Invalid (s2b "account_name must be ASCII, 1..=64 bytes")) else Ok tt.

Definition validate_common (timestep code_length : Z) (app account : list Z) (is_totp : bool) : result ParseError unit :=
  if is_totp && (timestep =? 0) then Err (Invalid (s2b "timestep must be 1..=0xFFFF for TOTP")) else
  if negb (between 4 10 code_length) then Err (Invalid (s2b "code_length must be 4..=10")) else
  _ ← validate_app app;
  validate_account account.

Definition len_prefixed (s : list Z) : list Z := cast 8 (zlen s) :: s.
Definition button_byte (b : bool) : Z := if b then 1 else 0.

Definition serialize_write_entry (e : WriteEntry) : result ParseError (list Z) :=
  _ ← validate_common (w_timestep e) (w_code_length e) (w_app e) (w_account e) (bool_decide (w_type e = Totp));
  if bool_decide (w_seed e = []) || (64 <? zlen (w_seed e)) then Err (Invalid (s2b "seed must be 1..=64 bytes (decoded)")) else
  Ok ([type_byte (w_type e); algorithm_byte (w_algorithm e)] ++ to_be 2 (w_timestep e) ++
      [w_code_length e; button_byte (w_button e)] ++ len_prefixed (w_app e) ++ len_prefixed (w_account e) ++ len_prefixed (w_seed e)).

Definition serialize_delete_entry (app account : list Z) : result ParseError (list Z) :=
  _ ← validate_app app;
  _ ← validate_account account;
  Ok ([0x00; 0x00; 0x00; 0x00; 0x00; 0x00] ++ len_prefixed app ++ len_prefixed account ++ [0x00]).

Definition serialize_read_entry (timestamp : Z) (app account : list Z) : result ParseError (list Z) :=
  _ ← validate_app app;
  _ ← validate_account account;
  Ok ([SUB_READ_ONE] ++ to_be 8 timestamp ++ len_prefixed app ++ len_prefixed account).

Definition serialize_enum_all (timestamp : Z) : list Z := SUB_READ_ALL :: to_be 8 timestamp.

(** * Answers *)

(** The cursor is what is left of the buffer. *)
Definition at_end (c : list Z) : bool := bool_decide (c = []).
Definition c_u8 : io (list Z) ParseError Z := fun c =>
  match c with b :: c' => (Ok b, c') | [] => (Err Truncated, c) end.
Definition c_u16_be : io (list Z) ParseError Z :=
  hi ← c_u8; lo ← c_u8; mret (Z.lor (Z.shiftl hi 8) lo).
Definition c_ascii (n : Z) : io (list Z) ParseError (list Z) := fun c =>
  if zlen c <? n then (Err Truncated, c) else
  let '(s, c') := split_at n c in
  if negb (is_ascii s) then (Err (Malformed (s2b "non-ASCII text field")), c) else (Ok s, c').

Definition parse_one_entry (force_code : bool) : io (list Z) ParseError Entry :=
  t ← c_u8;
  otp_type ← lift (ok_or (Malformed (s2b "unknown OTP type byte")) (type_from_byte t));
  a ← c_u8;
  algorithm ← lift (ok_or (Malformed (s2b "unknown algorithm byte")) (algorithm_from_byte a));
  timestep ← c_u16_be;
  code_length ← c_u8;
  b ← c_u8;
  button ← lift (if b =? 0x00 then Ok false else if b =? 0x01 then Ok true else Err (Malformed (s2b "button flag not 0/1")));
  app_len ← c_u8;
  app ← c_ascii app_len;
  account_len ← c_u8;
  _ ← lift (if account_len =? 0 then Err (Malformed (s2b "account_name length is zero")) else Ok tt);
  account ← c_ascii account_len;
  let has_code := force_code || (bool_decide (otp_type = Totp) && negb button) in
  code ← (if has_code then n ← c_u8; s ← c_ascii n; mret (Some s) else mret None);
  mret (mkEntry otp_type algorithm timestep code_length button app account code).

Fixpoint entries_loop (fuel : nat) : io (list Z) ParseError (list Entry) := fun c =>
  if at_end c then (Ok [], c)
  else match fuel with
       | O => (Err Truncated, c)
       | S fuel => (e ← parse_one_entry false; rest ← entries_loop fuel; mret (e :: rest)) c
       end.

Definition parse_enum_page (data : list Z) : result ParseError EnumPage :=
  match data with
  | [] => Err Truncated
  | first :: rest =>
      let more_pages := negb (Z.land first 0x80 =? 0) in
      let stream := Z.land first 0x7F :: rest in
      entries ← (entries_loop (length stream) stream).1;
      Ok (mkPage entries more_pages)
  end.

Definition parse_read_one (data : list Z) : result ParseError Entry := (parse_one_entry true data).1.

(** * The applet, for reference *)

(** An entry as the applet sends it, and a page of them. *)
Definition has_code (force : bool) (e : Entry) : bool := force || (bool_decide (e_type e = Totp) && negb (e_button e)).
Definition entry_bytes (force : bool) (e : Entry) : list Z :=
  [type_byte (e_type e); algorithm_byte (e_algorithm e)] ++ to_be 2 (e_timestep e) ++ [e_code_length e; button_byte (e_button e)] ++
  len_prefixed (e_app e) ++ len_prefixed (e_account e) ++
  (if has_code force e then len_prefixed (default [] (e_code e)) else []).
Definition page_bytes (more : bool) (es : list Entry) : list Z :=
  match flat_map (entry_bytes false) es with
  | first :: rest => Z.lor first (if more then 0x80 else 0) :: rest
  | [] => []
  end.
Definition name_ok (s : list Z) : Prop := zlen s <= 255 /\ Forall (fun b => 0 <= b < 0x80) s.
Definition entry_ok (force : bool) (e : Entry) : Prop :=
  is_word 16 (e_timestep e) /\ name_ok (e_app e) /\ name_ok (e_account e) /\ e_account e <> [] /\
  match e_code e with Some c => has_code force e = true /\ name_ok c | None => has_code force e = false end.

(** What the applet reads out of a WRITE_SEED. *)
Definition read_write (data : list Z) : result ParseError WriteEntry :=
  ((t ← c_u8; a ← c_u8; step ← c_u16_be; n ← c_u8; b ← c_u8;
   al ← c_u8; app ← c_ascii al; cl ← c_u8; account ← c_ascii cl; sl ← c_u8;
   seed ← (fun c => if zlen c =? sl then (Ok c, []) else (Err Truncated, c));
   t ← lift (ok_or Truncated (type_from_byte t));
   a ← lift (ok_or Truncated (if negb (a =? 0) then algorithm_from_byte a else Some Sha1));
   mret (mkWrite t a step n (negb (b =? 0)) app account seed)) data).1.

(** * Reading what was written *)

Lemma is_ascii_ok s : Forall (fun b => 0 <= b < 0x80) s -> is_ascii s = true.
Proof. intros Hs. apply forallb_forall. intros b Hb. rewrite List.Forall_forall in Hs. apply Hs in Hb. apply Z.ltb_lt. lia. Qed.

Lemma c_u16_to_be n c : is_word 16 n -> c_u16_be (to_be 2 n ++ c) = (Ok n, c).
Proof.
  intros Hn. pose proof (from_be_to_be_small 2 n Hn) as Hv. pose proof (to_be_bytes 2 n) as Hb. pose proof (length_to_be 2 n) as Hl.
  destruct (to_be 2 n) as [|h [|l [|]]]; try done. cbn in Hv. apply list.Forall_cons in Hb as [Hh Hb]. apply list.Forall_cons in Hb as [Hlo _].
  change ((Ok (Z.lor (Z.shiftl h 8) l), c) = (Ok (E := ParseError) n, c)). unfold is_byte in *. rewrite lor_shiftl_add by lia. do 2 f_equal. lia.
Qed.

Lemma c_ascii_app s c : Forall (fun b => 0 <= b < 0x80) s -> c_ascii (zlen s) (s ++ c) = (Ok s, c).
Proof.
  intros Hs. unfold c_ascii. rewrite (proj2 (Z.ltb_ge _ _)) by (zlen; pose proof (zlen_nonneg c); lia).
  by rewrite split_at_app, is_ascii_ok.
Qed.

Lemma c_prefixed {A} s (k : list Z -> io (list Z) ParseError A) c :
  name_ok s -> (n ← c_u8; t ← c_ascii n; k t) (len_prefixed s ++ c) = k s c.
Proof.
  intros [Hl Hs]. pose proof (zlen_nonneg s). unfold len_prefixed. rewrite cast_small by (unfold is_word; lia).
  erewrite io_bind_Ok_eq by reflexivity. by erewrite io_bind_Ok_eq by (by apply c_ascii_app).
Qed.

Lemma c_prefixed_cons {A} s (k : list Z -> io (list Z) ParseError A) c :
  name_ok s -> (n ← c_u8; t ← c_ascii n; k t) (cast 8 (zlen s) :: s ++ c) = k s c.
Proof. apply c_prefixed. Qed.

Lemma type_byte_back t : type_from_byte (type_byte t) = Some t.
Proof. by destruct t. Qed.
Lemma algorithm_byte_back a : algorithm_from_byte (algorithm_byte a) = Some a.
Proof. by destruct a. Qed.

Lemma parse_entry_bytes force e c : entry_ok force e -> parse_one_entry force (entry_bytes force e ++ c) = (Ok e, c).
Proof.
  intros (Ht & Ha & Hc & Hne & Hcode). unfold parse_one_entry, entry_bytes. rewrite <- !app_assoc. cbn [app].
  erewrite io_bind_Ok_eq by reflexivity. rewrite type_byte_back. cbn [ok_or]. rewrite io_lift_bind.
  erewrite io_bind_Ok_eq by reflexivity. rewrite algorithm_byte_back. cbn [ok_or]. rewrite io_lift_bind.
  erewrite io_bind_Ok_eq by (by apply c_u16_to_be). do 2 erewrite io_bind_Ok_eq by reflexivity.
  assert ((if button_byte (e_button e) =? 0 then Ok false else if button_byte (e_button e) =? 1 then Ok true
    else Err (Malformed (s2b "button flag not 0/1"))) = Ok (e_button e)) as -> by (by destruct (e_button e)).
  rewrite io_lift_bind, c_prefixed by done.
  destruct Hc as [Hcl Hca]. assert (0 < zlen (e_account e)) as Hpos.
  { pose proof (zlen_nonneg (e_account e)). destruct (Z.eq_dec (zlen (e_account e)) 0) as [H0|]; [by apply zlen_0 in H0|lia]. }
  unfold len_prefixed at 1. rewrite cast_small by (unfold is_word; lia). cbn [app]. erewrite io_bind_Ok_eq by reflexivity.
  rewrite (proj2 (Z.eqb_neq _ 0)) by lia. rewrite io_lift_bind. erewrite io_bind_Ok_eq by (by apply c_ascii_app).
  fold (has_code force e). destruct e as [t a ts cl b ap ac code]. cbn [e_code e_type e_algorithm e_timestep e_code_length e_button e_app e_account] in *.
  destruct code as [code|].
  - destruct Hcode as [-> Hcode]. change (default [] (Some code)) with code. unfold mbind at 1. unfold io_bind at 1.
    rewrite c_prefixed by done. done.
  - rewrite Hcode. done.
Qed.

(** A reader that takes at least [k] bytes when it succeeds. *)
Definition takes {A} (k : nat) (m : io (list Z) ParseError A) : Prop :=
  forall c a c', m c = (Ok a, c') -> (length c' + k <= length c)%nat.
Lemma takes_u8 : takes 1 c_u8.
Proof. intros [|b c] a c'; [done|]. intros [= <- <-]. simpl. lia. Qed.
Lemma takes_ascii n : takes 0 (c_ascii n).
Proof.
  intros c a c'. unfold c_ascii, split_at. destruct (zlen c <? n); [done|]. destruct (negb _); [done|]. intros [= <- <-]. rewrite length_drop. lia.
Qed.
Lemma takes_bind {A B} i j (m : io (list Z) ParseError A) (f : A -> io (list Z) ParseError B) :
  takes i m -> (forall a, takes j (f a)) -> takes (i + j) (m ≫= f).
Proof.
  intros Hm Hf c b c'. rewrite io_bind_Ok. intros (a & c1 & H1 & H2). apply Hm in H1. apply Hf in H2. lia.
Qed.
Lemma takes_weaken {A} i (m : io (list Z) ParseError A) : takes i m -> takes 0 m.
Proof. intros Hm c a c' H. apply Hm in H. lia. Qed.
Lemma takes_lift {A} (r : result ParseError A) : takes 0 (lift r).
Proof. intros c a c' [= _ <-]. lia. Qed.
Lemma takes_ret {A} (a : A) : takes 0 (mret (M := io (list Z) ParseError) a).
Proof. intros c b c' [= _ <-]. lia. Qed.
Create HintDb takes.
#[local] Hint Resolve takes_ascii takes_lift takes_ret : takes.

Lemma takes_entry force : takes 1 (parse_one_entry force).
Proof.
  assert (takes 0 c_u8) as H0 by (by eapply takes_weaken, takes_u8).
  unfold parse_one_entry. apply (takes_bind 1 0); [apply takes_u8|]. intros t.
  assert (takes 0 c_u16_be) as H16 by (apply (takes_bind 0 0); [done|]; intros ?; apply (takes_bind 0 0); auto with takes).
  repeat (apply (takes_bind 0 0); [solve [auto with takes]|intros ?]).
  apply (takes_bind 0 0); [|auto with takes]. destruct (_ || _); [|auto with takes].
  repeat (apply (takes_bind 0 0); [solve [auto with takes]|intros ?]). auto with takes.
Qed.

Lemma entries_loop_fuel f1 f2 c : (length c <= f1)%nat -> (length c <= f2)%nat -> entries_loop f1 c = entries_loop f2 c.
Proof.
  revert f2 c. induction f1 as [|f1 IH]; intros f2 c H1 H2; [destruct c; [by destruct f2|simpl in *; lia]|].
  destruct f2 as [|f2]; [destruct c; [done|simpl in *; lia]|]. cbn [entries_loop]. destruct (at_end c); [done|].
  unfold mbind, io_bind. destruct (parse_one_entry false c) as [[e|err] c1] eqn:He; [|done].
  apply takes_entry in He. by rewrite (IH f2) by lia.
Qed.

Lemma entries_loop_bytes es : Forall (entry_ok false) es ->
  entries_loop (length (flat_map (entry_bytes false) es)) (flat_map (entry_bytes false) es) = (Ok es, []).
Proof.
  induction 1 as [|e es He Hes IH]; [done|]. cbn [flat_map].
  set (rest := flat_map (entry_bytes false) es) in *. pose proof (parse_entry_bytes false e rest He) as Hp.
  assert (exists n, length (entry_bytes false e ++ rest) = S n /\ (length rest <= n)%nat) as (n & Hn & Hle).
  { rewrite length_app. assert (1 <= length (entry_bytes false e))%nat by (unfold entry_bytes; cbn [length app]; lia).
    exists (pred (length (entry_bytes false e) + length rest)). lia. }
  rewrite Hn. cbn [entries_loop]. unfold at_end. rewrite bool_decide_eq_false_2 by (intros E; by rewrite E in Hn).
  erewrite io_bind_Ok_eq by exact Hp. rewrite (entries_loop_fuel (length rest) n) in IH by lia.
  by erewrite io_bind_Ok_eq by exact IH.
Qed.

Lemma parse_page_bytes es more : Forall (entry_ok false) es -> es <> [] -> parse_enum_page (page_bytes more es) = Ok (mkPage es more).
Proof.
  intros Hes Hne. pose proof (entries_loop_bytes es Hes) as Hl. unfold page_bytes.
  assert (exists t rest, flat_map (entry_bytes false) es = t :: rest /\ (t = 0 \/ t = 1)) as (t & rest & Hf & Ht).
  { destruct es as [|e es]; [done|]. cbn [flat_map]. unfold entry_bytes. cbn [app]. eexists _, _. split; [done|]. destruct (e_type e); auto. }
  rewrite Hf in Hl |- *. unfold parse_enum_page.
  assert (Z.land (Z.lor t (if more then 0x80 else 0)) 0x7F = t) as -> by (by destruct Ht as [-> | ->], more).
  rewrite Hl. assert (negb (Z.land (Z.lor t (if more then 0x80 else 0)) 0x80 =? 0) = more) as -> by (by destruct Ht as [-> | ->], more).
  done.
Qed.

(** * Properties *)

(** A page of entries is read as the applet sends it. For any entries with
    fields the applet can hold, a page of them, with or without more to come,
    gives the same entries and the same mark; an entry read alone is the same
    entry, its code included whatever its kind; a page that holds no entry is
    refused; and reading ends, whatever the bytes, with nothing left. *)
Theorem token2_page_read (es : list Entry) (more : bool) (one : Entry) (junk : list Z) (extra : nat) :
  Forall (entry_ok false) es -> es <> [] -> entry_ok true one ->
  parse_enum_page (page_bytes more es) = Ok (mkPage es more) /\
  parse_read_one (entry_bytes true one) = Ok one /\
  parse_enum_page [] = Err Truncated /\
  entries_loop (length junk + extra) junk = entries_loop (length junk) junk /\
  (forall found rest, entries_loop (length junk) junk = (Ok found, rest) -> rest = []).
Proof.
  intros Hes Hne Hone. split; [|split; [|split; [done|split]]].
  - by apply parse_page_bytes.
  - unfold parse_read_one. rewrite <- (app_nil_r (entry_bytes true one)). by rewrite parse_entry_bytes.
  - apply entries_loop_fuel; lia.
  - assert (forall f c found rest, entries_loop f c = (Ok found, rest) -> rest = []) as Hend; [|apply Hend].
    induction f as [|f IH]; intros c found rest; cbn [entries_loop]; unfold at_end; case_bool_decide as Hc; try done; try by intros [= _ <-].
    intros H. inv_io H. inv_io H. injection H as _ <-. by apply IH in Hm0.
Qed.

Definition page_entry : Entry := mkEntry Totp Sha1 30 6 false (s2b "Acme") (s2b "me") (Some (s2b "123456")).
Lemma token2_page_read_witness :
  parse_enum_page (page_bytes true [page_entry; page_entry]) = Ok (mkPage [page_entry; page_entry] true) /\
  parse_read_one (entry_bytes true page_entry) = Ok page_entry /\ parse_enum_page [] = Err Truncated /\
  entries_loop (length [7] + 3) [7] = entries_loop (length [7]) [7] /\
  (forall found rest, entries_loop (length [7]) [7] = (Ok found, rest) -> rest = []).
Proof.
  assert (forall force, entry_ok force page_entry) as Hok.
  { intros force. split; [by_decision|]. split; [split; [vm_compute; discriminate|by_decision]|]. split; [split; [vm_compute; discriminate|by_decision]|].
    split; [done|]. split; [by destruct force|]. split; [vm_compute; discriminate|by_decision]. }
  apply (token2_page_read [page_entry; page_entry] true page_entry [7] 3); [by repeat constructor|done|done].
Defined.

(** ** Writing *)

Definition ascii_within (lo : Z) (s : list Z) : Prop := lo <= zlen s <= 64 /\ Forall (fun b => b < 0x80) s.
Definition write_allowed (e : WriteEntry) : Prop :=
  (w_type e = Totp -> w_timestep e <> 0) /\ 4 <= w_code_length e <= 10 /\ ascii_within 0 (w_app e) /\ ascii_within 1 (w_account e) /\
  1 <= zlen (w_seed e) <= 64.

Lemma is_ascii_iff s : is_ascii s = true <-> Forall (fun b => b < 0x80) s.
Proof.
  unfold is_ascii. rewrite forallb_forall, List.Forall_forall. split; intros H b Hb; apply H in Hb; [by apply Z.ltb_lt|by apply Z.ltb_lt].
Qed.

Lemma empty_zlen {A} `{EqDecision A} (s : list A) : bool_decide (s = []) = (zlen s <? 1).
Proof. destruct s; [done|]. zlen. pose proof (zlen_nonneg s). rewrite bool_decide_eq_false_2 by done. symmetry. apply Z.ltb_ge. lia. Qed.

Lemma validate_app_ok app : validate_app app = Ok tt <-> ascii_within 0 app.
Proof.
  unfold validate_app, ascii_within. rewrite <- is_ascii_iff. pose proof (zlen_nonneg app).
  destruct (is_ascii app), (64 <? zlen app) eqn:Hl; bools; cbn [negb orb]; split; try done; try lia; intros [? ?]; done || lia.
Qed.
Lemma validate_account_ok account : validate_account account = Ok tt <-> ascii_within 1 account.
Proof.
  unfold validate_account, ascii_within. rewrite <- is_ascii_iff, empty_zlen.
  destruct (is_ascii account), (zlen account <? 1) eqn:He, (64 <? zlen account) eqn:Hl; bools; cbn [negb orb];
    split; try done; try lia; intros [? ?]; done || lia.
Qed.

Lemma validate_common_ok step len app account t :
  validate_common step len app account (bool_decide (t = Totp)) = Ok tt <->
  (t = Totp -> step <> 0) /\ 4 <= len <= 10 /\ ascii_within 0 app /\ ascii_within 1 account.
Proof.
  unfold validate_common, between. rewrite <- validate_app_ok, <- validate_account_ok.
  destruct (bool_decide (t = Totp) && (step =? 0)) eqn:Hs.
  { apply andb_prop in Hs as [Ht Hs]. bools. apply bool_decide_eq_true in Ht. split; [done|]. intros (H & _). by destruct (H Ht). }
  assert (t = Totp -> step <> 0) as Ht.
  { intros ->. by apply Z.eqb_neq. }
  destruct (negb ((4 <=? len) && (len <=? 10))) eqn:Hl; bools; [split; [done|lia]|].
  destruct (validate_app app) as [[]|]; cbn [mbind result_bind].
  - split; [|by intros (_ & _ & _ & ?)]. intros Hv. split; [done|]. split; [lia|]. by split.
  - split; [done|]. by intros (_ & _ & ? & _).
Qed.

Lemma ascii_name s lo : Bytes s -> ascii_within lo s -> name_ok s.
Proof.
  intros Hb [Hl Ha]. split; [lia|]. apply list.Forall_forall. intros b Hin. rewrite list.Forall_forall in Hb, Ha.
  specialize (Hb b Hin). specialize (Ha b Hin). unfold is_byte in Hb. lia.
Qed.

Lemma serialize_write_read e data :
  is_word 16 (w_timestep e) -> Bytes (w_app e) -> Bytes (w_account e) ->
  serialize_write_entry e = Ok data -> read_write data = Ok e.
Proof.
  intros Ht Hba Hbc H. unfold serialize_write_entry in H. inv_bind H. destruct a.
  apply validate_common_ok in Hb as (_ & _ & Happ & Hacc).
  apply ascii_name in Happ; [|done]. apply ascii_name in Hacc; [|done].
  destruct (_ || _) eqn:Hs; [done|]. bools. injection H as <-.
  unfold read_write. rewrite <- ?app_assoc. cbn [app]. do 2 erewrite io_bind_Ok_eq by reflexivity.
  erewrite io_bind_Ok_eq by (by apply c_u16_to_be). do 2 erewrite io_bind_Ok_eq by reflexivity.
  rewrite c_prefixed_cons by done. rewrite c_prefixed_cons by done. unfold len_prefixed. rewrite cast_small by (unfold is_word; pose proof (zlen_nonneg (w_seed e)); lia).
  erewrite io_bind_Ok_eq by reflexivity. erewrite io_bind_Ok_eq by (cbv beta; rewrite Z.eqb_refl; reflexivity). destruct e as [[] [] ts cl [] ap ac seed]; done.
Qed.

Lemma serialize_delete_read ap ac data :
  Bytes ap -> Bytes ac -> serialize_delete_entry ap ac = Ok data ->
  read_write data = Ok (mkWrite Hotp Sha1 0 0 false ap ac []).
Proof.
  intros Hba Hbc H. unfold serialize_delete_entry in H. inv_bind H. destruct a. inv_bind H. destruct a. injection H as <-.
  apply validate_app_ok, ascii_name in Hb; [|done]. apply validate_account_ok, ascii_name in Hb0; [|done].
  unfold read_write. rewrite <- ?app_assoc. cbn [app]. do 2 erewrite io_bind_Ok_eq by reflexivity.
  change (0 :: 0 :: ?x) with (to_be 2 0 ++ x). erewrite io_bind_Ok_eq by (by apply c_u16_to_be).
  do 2 erewrite io_bind_Ok_eq by reflexivity. rewrite c_prefixed_cons by done. by rewrite c_prefixed_cons by done.
Qed.

(** An entry is written exactly as given, or refused. [serialize_write_entry]
    refuses an entry exactly when it breaks one of the applet's rules (a TOTP
    step of zero, a code length outside 4 to 10, a name that is not ASCII or too
    long, an empty account, a secret outside 1 to 64 bytes), and otherwise the
    applet reading the bytes finds every field again. What a deletion sends is
    read as an entry of that name with no secret. *)
Theorem token2_write_read (e : WriteEntry) :
  is_word 16 (w_timestep e) -> Bytes (w_app e) -> Bytes (w_account e) ->
  (is_ok (serialize_write_entry e) = true <-> write_allowed e) /\
  (forall data, serialize_write_entry e = Ok data -> read_write data = Ok e) /\
  (is_ok (serialize_delete_entry (w_app e) (w_account e)) = true <-> ascii_within 0 (w_app e) /\ ascii_within 1 (w_account e)) /\
  (forall data, serialize_delete_entry (w_app e) (w_account e) = Ok data ->
     read_write data = Ok (mkWrite Hotp Sha1 0 0 false (w_app e) (w_account e) [])).
Proof.
  intros Ht Hba Hbc. unfold serialize_write_entry, serialize_delete_entry, write_allowed.
  rewrite <- validate_app_ok, <- validate_account_ok.
  pose proof (validate_common_ok (w_timestep e) (w_code_length e) (w_app e) (w_account e) (w_type e)) as Hc.
  rewrite <- validate_app_ok, <- validate_account_ok in Hc.
  split; [|split; [|split]].
  - destruct (validate_common _ _ _ _ _) as [[]|err]; cbn [mbind result_bind is_ok].
    + rewrite empty_zlen. destruct Hc as [Hc _]. destruct (Hc eq_refl) as (H1 & H2 & H3 & H4).
      destruct (zlen (w_seed e) <? 1) eqn:Hs; [bools; cbn [orb is_ok]; split; [done|lia]|].
      destruct (64 <? zlen (w_seed e)) eqn:Hs2; bools; cbn [orb is_ok]; (split; [first [done|intros _]|first [done|lia]]).
    + split; [done|]. intros (H1 & H2 & H3 & H4 & _). destruct Hc as [_ Hc]. by discriminate Hc.
  - intros data. by apply serialize_write_read.
  - destruct (validate_app (w_app e)) as [[]|], (validate_account (w_account e)) as [[]|]; cbn; split; try done; by intros [? ?].
  - intros data. by apply serialize_delete_read.
Qed.

Definition write_60 : WriteEntry := mkWrite Totp Sha256 60 8 true (s2b "Acme") (s2b "me") (s2b "Hello").
Lemma token2_write_read_witness :
  (is_ok (serialize_write_entry write_60) = true <-> write_allowed write_60) /\
  (forall data, serialize_write_entry write_60 = Ok data -> read_write data = Ok write_60).
Proof.
  destruct (token2_write_read write_60) as (H1 & H2 & _); [by_decision|by_decision|by_decision|]. by split.
Defined.
