(* ===== verification/Token2Otp.v ===== *)
(** keyroost-token2otp/src/lib.rs: the commands, status words and answers of
    Token2's OTP applet. *)
From S2P Require Codec.
From S2P Require Export Token2Entry.

Definition USB_VID : Z := 0x349E.
Definition OTP_APPLET_AID : list Z := [0xF0; 0x00; 0x00; 0x01; 0x4F; 0x74; 0x70; 0x01].
Definition FIDO_APPLET_AID : list Z := [0xA0; 0x00; 0x00; 0x06; 0x47; 0x2F; 0x00; 0x01].

(** * Commands *)

Definition WRITE_HOTP_SEED : list Z := [0x80; 0xC5; 0x00; 0x00].
Definition GET_ECDH_PUBKEY : list Z := [0x80; 0xC5; 0x01; 0x00].
Definition READ_CONFIG : list Z := [0x80; 0xC5; 0x02; 0x00].
Definition SET_DEVICE_TYPE : list Z := [0x80; 0xC5; 0x02; 0x01].
Definition CFG_HOTP_ENTER : list Z := [0x80; 0xC5; 0x02; 0x02].
Definition CFG_HOTP_TOUCH : list Z := [0x80; 0xC5; 0x02; 0x04].
Definition ENABLE_TOTP : list Z := [0x80; 0xC5; 0x02; 0x05].
Definition CFG_HOTP_KBD_TYPE : list Z := [0x80; 0xC5; 0x02; 0x06].
Definition ENUM_CODES : list Z := [0x80; 0xC5; 0x05; 0x00].
Definition ENUM_CODES_CONTINUE : list Z := [0x80; 0xC5; 0x05; 0x01].
Definition WRITE_SEED : list Z := [0x80; 0xC5; 0x05; 0x02].
Definition READ_SERIAL_INS : list Z := [0x80; 0x33; 0x00; 0x00].
Definition READ_OTP_PIN_FLAG : list Z := [0x80; 0xC5; 0x05; 0x04].
Definition SET_OTP_PIN : list Z := [0x80; 0xC5; 0x05; 0x05].
Definition VERIFY_OTP_PIN : list Z := [0x80; 0xC5; 0x05; 0x06].
Definition CHANGE_OTP_PIN : list Z := [0x80; 0xC5; 0x05; 0x08].
Definition READ_AGREEMENT_PUBKEY : list Z := [0x80; 0xC5; 0x05; 0x09].
Definition PIN_FLAG_LC_BASE : Z := 0x04.
Definition PIN_FLAG_LC_PRIME : Z := 0x09.
Definition PIN_FLAG_LC_CHALLENGE : Z := 0x29.
Definition PIN_ALG_AES256 : Z := 0x07.
Definition PIN_DEFAULT_MAX_RETRY : Z := 0x64.

(** [None] where the code asserts. *)
Definition build_apdu (header data : list Z) : option (list Z) :=
  let len := zlen data in
  if 0xFFFF <? len then None
  else Some (header ++
    (if 0 <? len then
       (if len <=? 0xFF then [cast 8 len] else [0x00; cast 8 (Z.shiftr len 8); cast 8 (Z.land len 0xFF)]) ++ data
     else [])).

Definition build_select (aid : list Z) : option (list Z) :=
  if negb (bool_decide (aid = [])) && (zlen aid <=? 255) then Some ([0x00; 0xA4; 0x04; 0x00; cast 8 (zlen aid)] ++ aid) else None.

Definition enable_totp (enabled : bool) : option (list Z) := build_apdu ENABLE_TOTP [button_byte enabled].
Definition get_ecdh_pubkey : list Z := GET_ECDH_PUBKEY ++ [0x00].
Definition clamp_1_64 (n : Z) : Z := Z.max 1 (Z.min 64 n).
Definition read_config (num_bytes : Z) : list Z := READ_CONFIG ++ [clamp_1_64 num_bytes].
Definition erase_all : option (list Z) := build_apdu WRITE_SEED [].
Definition erase_all_usb : list Z := WRITE_SEED ++ [0x00; 0x00; 0x00].
Definition read_config_usb (num_bytes : Z) : list Z := READ_CONFIG ++ [0x00; 0x00; 0x01; clamp_1_64 num_bytes].
Definition read_config_usb_padded (num_bytes : Z) : list Z :=
  let n := clamp_1_64 num_bytes in READ_CONFIG ++ [n] ++ replicate (Z.to_nat n) 0.
Definition read_serial_request : option (list Z) := build_apdu READ_SERIAL_INS ([0xD1; 0x10] ++ replicate 16 0).

Definition read_otp_pin_flag (len : Z) : list Z := READ_OTP_PIN_FLAG ++ [len] ++ replicate (Z.to_nat len) 0x00.
Definition lock_otp_pin : list Z := VERIFY_OTP_PIN ++ [0x01; 0x00].
Definition verify_fingerprint : list Z := VERIFY_OTP_PIN ++ [0x01; 0x01].
Definition fingerprint_poll : list Z := [0x80; 0x11; 0x00; 0x00; 0x00].
Definition read_agreement_pubkey (host_pub_xy : list Z) : option (list Z) := build_apdu READ_AGREEMENT_PUBKEY host_pub_xy.

(** * Status words *)

Definition OK : Z := 0x9000.
Definition ENTRY_NOT_FOUND : Z := 0x6A80.
Definition ENTRY_NOT_FOUND_ALT : Z := 0x6A83.
Definition NOT_ENOUGH_SPACE : Z := 0x6A84.
Definition HID_NOT_SUPPORTED : Z := 0x6A86.
Definition BUTTON_TIMEOUT : Z := 0x6FF9.
Definition FUNCTION_NOT_SUPPORTED : Z := 0x6A81.
Definition PIN_CONDITIONS_NOT_SATISFIED : Z := 0x6985.
Definition PIN_INVALID : Z := 0x6982.
Definition PIN_LOCKED : Z := 0x6983.
Definition is_applet_status (sw : Z) : bool := (sw =? OK) || between 0x6000 0x6FFF sw.

Inductive OtpError :=
  | EntryNotFound | NotEnoughSpace | ButtonPressRequired | HidNotSupported | FunctionNotSupported
  | PinConditionsNotSatisfied | PinInvalid | PinInvalidRetries (n : Z) | PinLocked | PinRejected | BadStatusCode (sw : Z).
#[export] Instance OtpError_eq_dec : EqDecision OtpError.
Proof. solve_decision. Defined.

Definition check (sw : Z) : result OtpError unit :=
  if sw =? OK then Ok tt
  else if (sw =? ENTRY_NOT_FOUND) || (sw =? ENTRY_NOT_FOUND_ALT) then Err EntryNotFound
  else if sw =? NOT_ENOUGH_SPACE then Err NotEnoughSpace
  else if sw =? BUTTON_TIMEOUT then Err ButtonPressRequired
  else if sw =? HID_NOT_SUPPORTED then Err HidNotSupported
  else if sw =? FUNCTION_NOT_SUPPORTED then Err FunctionNotSupported
  else if sw =? PIN_CONDITIONS_NOT_SATISFIED then Err PinConditionsNotSatisfied
  else if sw =? PIN_INVALID then Err PinInvalid
  else if sw =? PIN_LOCKED then Err PinLocked
  else Err (BadStatusCode sw).
Definition check_pin (sw : Z) : result OtpError unit :=
  if between 0x6300 0x63FF sw then Err (PinInvalidRetries (cast 8 (Z.land sw 0x00FF))) else check sw.
Definition check_new_pin (sw : Z) : result OtpError unit :=
  if sw =? ENTRY_NOT_FOUND then Err PinRejected else check_pin sw.
Definition is_empty_token (e : OtpError) : bool := match e with EntryNotFound => true | _ => false end.
Definition status_word (e : OtpError) : Z :=
  match e with
  | EntryNotFound => ENTRY_NOT_FOUND
  | NotEnoughSpace => NOT_ENOUGH_SPACE
  | ButtonPressRequired => BUTTON_TIMEOUT
  | HidNotSupported => HID_NOT_SUPPORTED
  | FunctionNotSupported => FUNCTION_NOT_SUPPORTED
  | PinConditionsNotSatisfied => PIN_CONDITIONS_NOT_SATISFIED
  | PinInvalid => PIN_INVALID
  | PinInvalidRetries n => Z.lor 0x6300 n
  | PinLocked => PIN_LOCKED
  | PinRejected => ENTRY_NOT_FOUND
  | BadStatusCode sw => sw
  end.

(** ["{:02X}"] of each byte of a [u16] after "0x". *)
Definition hex_word (sw : Z) : list Z :=
  let digit d := if d <? 10 then 48 + d else 55 + d in
  s2b "0x" ++ [digit (sw / 4096); digit (sw / 256 mod 16); digit (sw / 16 mod 16); digit (sw mod 16)].
Definition otp_error_text (e : OtpError) : list Z :=
  match e with
  | EntryNotFound => s2b "entry not found"
  | NotEnoughSpace => s2b "not enough space on device"
  | ButtonPressRequired => s2b "timed out waiting for a button press on the key"
  | HidNotSupported => s2b "HOTP-over-HID is not supported on this model"
  | FunctionNotSupported => s2b "the device does not support this operation in its current state"
  | PinConditionsNotSatisfied => s2b "PIN conditions not satisfied (no session established, or a read/verify was attempted out of order)"
  | PinInvalid => s2b "wrong OTP PIN (or authentication tag mismatch)"
  | PinInvalidRetries n =>
      s2b "wrong OTP PIN " ++ [0xE2; 0x80; 0x94] ++ s2b " " ++ dec n ++ s2b " attempt" ++ (if n =? 1 then [] else s2b "s") ++
      s2b " remaining before lockout"
  | PinLocked => s2b "the OTP PIN is locked after too many wrong attempts; a global OTP reset is required to recover it"
  | PinRejected =>
      s2b "the key refused this PIN: it doesn't meet the key's PIN rules (6 or more digits with no runs such as 1234, no repeated or mirrored patterns, or 10 or more characters mixing two kinds)"
  | BadStatusCode sw => s2b "unexpected status word " ++ hex_word sw
  end.

(** * Answers *)

Record PinFlag := mkPinFlag {
  alg_id : Z; retries_left : Z; pin_len : Z; max_retries : Z; fp_enable : bool; challenge : option (list Z * list Z)
}.
Definition is_set (f : PinFlag) : bool := negb (pin_len f =? 0).
Definition parse_pin_flag (data : list Z) : result ParseError PinFlag :=
  match data with
  | a :: r :: l :: m :: rest =>
      Ok (mkPinFlag a r l m (match rest with b :: _ => negb (b =? 0) | [] => false end)
           (if 41 <=? zlen data then Some (take 16 (drop 9 data), take 16 (drop 25 data)) else None))
  | _ => Err Truncated
  end.

Definition hex_nibble (c : Z) : option Z :=
  if between 48 57 c then Some (c - 48) else if between 97 102 c then Some (c - 97 + 10)
  else if between 65 70 c then Some (c - 65 + 10) else None.
Fixpoint hex_pairs (hex : list Z) : result ParseError (list Z) :=
  match hex with
  | h :: l :: hex =>
      hi ← ok_or (Malformed (s2b "non-hex char in serial")) (hex_nibble h);
      lo ← ok_or (Malformed (s2b "non-hex char in serial")) (hex_nibble l);
      out ← hex_pairs hex;
      Ok (Z.lor (cast 8 (Z.shiftl hi 4)) lo :: out)
  | _ => Ok []
  end.
Definition decode_ascii_hex (hex : list Z) : result ParseError (list Z) :=
  if negb (zlen hex mod 2 =? 0) then Err (Malformed (s2b "serial hex length is odd")) else hex_pairs hex.

(** [D1 len body]: the body. *)
Definition serial_body (data : list Z) : result ParseError (list Z) :=
  match data with
  | tag :: sn_len :: rest => if negb (tag =? 0xD1) || (zlen rest <? sn_len) then Err Truncated else Ok (take (Z.to_nat sn_len) rest)
  | _ => Err Truncated
  end.
Definition parse_serial (data : list Z) : result ParseError (list Z) := hex ← serial_body data; decode_ascii_hex hex.
Definition parse_otp_serial (data : list Z) : result ParseError Z :=
  ascii ← serial_body data;
  if negb (bool_decide (is_str ascii)) then Err (Malformed (s2b "serial is not ASCII"))
  else ok_or (Malformed (s2b "serial is not a decimal number")) (parse_uint 128 ascii).

(** ** The device's configuration block *)

Record DeviceInfo := mkInfo {
  transfer_type : Z; device_config : Z; appearance : list Z; fido_version : list Z; device_extension : Z;
  raw_tail : list Z; raw_len : Z
}.
Definition parse_device_info (data : list Z) : result ParseError DeviceInfo :=
  match data with
  | [] => Err Truncated
  | first :: _ =>
      let get i := default 0 (data !! i) in
      Ok (mkInfo first (get 1%nat) (get <$> [2; 3; 4; 5]%nat) (get <$> [6; 7; 8]%nat) (get 9%nat)
           (if 10 <? zlen data then drop 10 data else []) (zlen data))
  end.
Definition has_config_byte (i : DeviceInfo) : bool := 2 <=? raw_len i.
Definition flag_set (byte mask : Z) : bool := negb (Z.land byte mask =? 0).
Definition fido_disabled (i : DeviceInfo) : bool := flag_set (transfer_type i) 0x01.
Definition hotp_keystroke_disabled (i : DeviceInfo) : bool := flag_set (transfer_type i) 0x02.
Definition ccid_disabled (i : DeviceInfo) : bool := flag_set (transfer_type i) 0x04.
Definition hotp_suppresses_enter (i : DeviceInfo) : bool := flag_set (device_config i) 0x01.
Definition fido_pin_set (i : DeviceInfo) : bool := flag_set (device_config i) 0x02.
Definition hotp_supported (i : DeviceInfo) : bool := flag_set (device_config i) 0x04.
Definition fingerprint_present (i : DeviceInfo) : bool := flag_set (device_config i) 0x08.
Definition nfc_supported (i : DeviceInfo) : bool := flag_set (device_config i) 0x10.
Definition hotp_long_press (i : DeviceInfo) : bool := flag_set (device_config i) 0x20.
Definition pin_locked (i : DeviceInfo) : bool := flag_set (device_config i) 0x40.
Definition button_hotp_configured (i : DeviceInfo) : bool := flag_set (device_config i) 0x80.
Definition totp_supported (i : DeviceInfo) : bool := flag_set (device_extension i) 0x01.
Definition fido_21_supported (i : DeviceInfo) : bool := flag_set (device_extension i) 0x02.
Definition hotp_uses_numpad (i : DeviceInfo) : bool := flag_set (device_extension i) 0x08.
Definition ccid_supported (i : DeviceInfo) : bool := flag_set (device_extension i) 0x10.
Definition button_hotp_supported (i : DeviceInfo) : bool := negb (flag_set (device_extension i) 0x20).

(** ** Disabling interfaces *)

Inductive SetDeviceTypeError := WouldBrick.
Definition set_device_type_error_text (e : SetDeviceTypeError) : list Z :=
  s2b "refusing SET_DEVICE_TYPE: mask would disable every interface and brick the key".
Definition DEV_FIDO : Z := 0x01.
Definition DEV_KEYBOARD : Z := 0x02.
Definition DEV_CCID : Z := 0x04.
Definition DEV_ALL : Z := Z.lor (Z.lor DEV_FIDO DEV_KEYBOARD) DEV_CCID.
Definition set_device_type (disable_mask : Z) : result SetDeviceTypeError (option (list Z)) :=
  if Z.land disable_mask DEV_ALL =? DEV_ALL then Err WouldBrick else Ok (build_apdu SET_DEVICE_TYPE [disable_mask]).

(** ** Secrets typed in base32 *)

Definition validate_seed_len (decoded_len : Z) : result (list Z) unit :=
  if between 1 64 decoded_len then Ok tt
  else if decoded_len =? 0 then Err (s2b "seed is empty after Base32 decode")
  else Err (s2b "seed exceeds 64 bytes after Base32 decode").

Definition BASE32_ALPHABET : list Z := s2b "ABCDEFGHIJKLMNOPQRSTUVWXYZ234567".
Fixpoint position (l : list Z) (c : Z) : option Z :=
  match l with
  | [] => None
  | x :: l => if x =? c then Some 0 else (fun i => i + 1) <$> position l c
  end.
(** The loop, on its 64-bit buffer, bit count and output. *)
Fixpoint base32_loop (s : list Z) (buffer bits : Z) (out : list Z) : result (list Z) (list Z) :=
  match s with
  | [] => Ok out
  | ch :: s =>
      val ← ok_or (s2b "invalid Base32 character in seed") (position BASE32_ALPHABET ch);
      let buffer := Z.lor (wshl 64 buffer 5) val in
      let bits := bits + 5 in
      if 8 <=? bits then base32_loop s buffer (bits - 8) (out ++ [cast 8 (Z.shiftr buffer (bits - 8))])
      else base32_loop s buffer bits out
  end.
Definition base32_decode (s : list Z) : result (list Z) (list Z) := base32_loop s 0 0 [].

(** [trim_end_matches('=')]. *)
Definition trim_pad (s : list Z) : list Z := rev (drop_while (fun c => c =? 61) (rev s)).
Definition decode_base32_seed (s : list Z) : result (list Z) (list Z) :=
  let cleaned := utf8_encode (filter (fun c => is_whitespace c = false) (chars s)) in
  let upper := to_ascii_uppercase (trim_pad cleaned) in
  decoded ← base32_decode upper;
  _ ← validate_seed_len (zlen decoded);
  Ok decoded.

(** * Lemmas *)

Lemma check_cases sw :
  if decide (sw = OK) then check sw = Ok tt
  else exists e, check sw = Err e /\ status_word e = (if sw =? ENTRY_NOT_FOUND_ALT then ENTRY_NOT_FOUND else sw) /\
    (forall n, e <> PinInvalidRetries n) /\ e <> PinRejected.
Proof.
  unfold check. case_decide as H0; [by subst|]. rewrite (proj2 (Z.eqb_neq sw OK)) by done.
  repeat match goal with |- context [if ?c then _ else _] => let E := fresh "E" in destruct c eqn:E end;
    eexists; (split; [done|]); (split; [|done]); cbn [status_word]; bools;
    try match goal with H : _ \/ _ |- _ => destruct H end; bools; try done; subst; done.
Qed.

Lemma retries_back sw : between 0x6300 0x63FF sw = true -> Z.lor 0x6300 (cast 8 (Z.land sw 0x00FF)) = sw /\ cast 8 (Z.land sw 0xFF) = sw - 0x6300.
Proof.
  intros H. unfold between in H. bools.
  assert (Z.land sw 0xFF = sw - 0x6300) as ->.
  { change 0xFF with (Z.ones 8). rewrite Z.land_ones by lia. change (2 ^ 8) with 256. lia_div. }
  rewrite cast_small by (unfold is_word; lia). split; [|done].
  change 0x6300 with (Z.shiftl 0x63 8) at 1. rewrite lor_shiftl_add by lia. change (2 ^ 8) with 256. lia.
Qed.

Lemma position_alphabet c v :
  is_byte c -> position BASE32_ALPHABET c = Some v -> (65 <= c <= 90 /\ v = c - 65) \/ (50 <= c <= 55 /\ v = c - 50 + 26).
Proof.
  intros Hc Hp.
  pose proof (byte_forall (fun c => match position BASE32_ALPHABET c with
    | Some v => between 65 90 c && (v =? c - 65) || between 50 55 c && (v =? c - 50 + 26) | None => true end)
    ltac:(by vm_compute) c Hc) as H. cbn beta in H. rewrite Hp in H. unfold between in H. apply orb_true_iff in H as [H|H]; bools; [left|right]; lia.
Qed.

(** The loop keeps what the loop of keyroost-proto's decoder keeps. *)
Lemma base32_loop_codec s st :
  Bytes s -> Codec.rx_padded st = false ->
  base32_loop s (Codec.rx_buf st) (Codec.rx_bits st) (Codec.rx_out st) =
  if forallb (fun c => bool_decide (is_Some (position BASE32_ALPHABET c))) s
  then map_err (fun _ => []) (st' ← Codec.try_fold Codec.base32_step st s; Ok (Codec.rx_out st'))
  else Err (s2b "invalid Base32 character in seed").
Proof.
  intros Hs. revert st. induction Hs as [|c s Hc Hs IH]; intros st Hp; [done|]. cbn [base32_loop forallb Codec.try_fold].
  destruct (position BASE32_ALPHABET c) as [v|] eqn:Hpos; [|done]. rewrite bool_decide_eq_true_2 by done. cbn [ok_or mbind result_bind andb].
  assert (Codec.base32_step st c = Ok (Codec.push_bits 64 5 st v)) as ->.
  { destruct (position_alphabet c v Hc Hpos) as [[H ->]|[H ->]]; unfold Codec.base32_step, Codec.in_range; rewrite Hp;
      repeat match goal with |- context [c =? ?k] => rewrite (proj2 (Z.eqb_neq c k)) by lia end; cbn [orb].
    - by rewrite !(proj2 (Z.leb_le _ _)) by lia.
    - rewrite (proj2 (Z.leb_gt 65 c)), (proj2 (Z.leb_gt 97 c)), !(proj2 (Z.leb_le _ _)) by lia. done. }
  cbn [mbind result_bind]. unfold Codec.push_bits. set (buffer := Z.lor _ v).
  destruct (8 <=? Codec.rx_bits st + 5); rewrite <- IH by done; [|done].
  cbn [Codec.rx_buf Codec.rx_bits Codec.rx_out]. do 4 f_equal. unfold cast. change 0xff with (Z.ones 8). by rewrite Z.land_ones by lia.
Qed.

(** A secret keyroost-proto's decoder reads from the alphabet's characters is
    the one this decoder reads. *)
Lemma base32_decode_agrees s b :
  Bytes s -> forallb (fun c => bool_decide (is_Some (position BASE32_ALPHABET c))) s = true ->
  Codec.base32_decode s = Ok b -> base32_decode s = Ok b.
Proof.
  intros Hs Ha Hd. unfold base32_decode. pose proof (base32_loop_codec s Codec.radix0 Hs eq_refl) as H. rewrite Ha in H.
  unfold Codec.base32_decode in Hd.
  assert (chars s = s) as Hch.
  { unfold chars. rewrite utf8_decode_ascii; [done|]. apply list.Forall_forall. intros c Hin. rewrite list.Forall_forall in Hs. specialize (Hs c Hin).
    rewrite forallb_forall in Ha. apply list_elem_of_In, Ha, bool_decide_eq_true in Hin as [v Hv].
    apply position_alphabet in Hv; [lia|done]. }
  rewrite Hch in Hd. destruct (Codec.try_fold Codec.base32_step Codec.radix0 s) as [st|]; [|done].
  cbn [mbind result_bind map_err] in *. unfold Codec.radix_finish in Hd. destruct (_ && _); [done|]. injection Hd as <-. exact H.
Qed.

(** * Properties *)

(** A status word is read and given back. Success is 9000 and nothing else;
    the error of any other status word gives that word back, but for 6A83, which
    is the same as 6A80; the PIN commands alone read 63xx, as the attempts left,
    and the commands that send a new PIN alone read 6A80 as its refusal. *)
Theorem token2_status_back (sw : Z) :
  is_word 16 sw ->
  (check sw = Ok tt <-> sw = OK) /\ (check_pin sw = Ok tt <-> sw = OK) /\ (check_new_pin sw = Ok tt <-> sw = OK) /\
  (forall e, check sw = Err e -> status_word e = if sw =? ENTRY_NOT_FOUND_ALT then ENTRY_NOT_FOUND else sw) /\
  (forall e, check_pin sw = Err e -> status_word e = if sw =? ENTRY_NOT_FOUND_ALT then ENTRY_NOT_FOUND else sw) /\
  (forall n, check_pin sw = Err (PinInvalidRetries n) <-> sw = 0x6300 + n /\ is_byte n) /\
  (check_new_pin sw = Err PinRejected <-> sw = ENTRY_NOT_FOUND).
Proof.
  intros Hw. pose proof (check_cases sw) as Hc. pose proof (retries_back sw) as Hr. unfold check_new_pin, check_pin.
  case_decide as H0.
  { subst sw. change (between 0x6300 0x63FF OK) with false. change (OK =? ENTRY_NOT_FOUND) with false. cbn iota. rewrite Hc.
    split_and!; try (split; done); try (intros; discriminate). intros n. split; [discriminate|]. intros [Hn Hb]. unfold OK, is_byte in *. lia. }
  destruct Hc as (e & -> & Hs & He & He').
  destruct (between 0x6300 0x63FF sw) eqn:Hb.
  - destruct (Hr eq_refl) as [Hl Hv]. rewrite Hv in *. unfold between in Hb. bools.
    assert (sw <> ENTRY_NOT_FOUND /\ sw <> ENTRY_NOT_FOUND_ALT) as [Hn1 Hn2] by (unfold ENTRY_NOT_FOUND, ENTRY_NOT_FOUND_ALT; lia).
    rewrite (proj2 (Z.eqb_neq sw ENTRY_NOT_FOUND)), (proj2 (Z.eqb_neq sw ENTRY_NOT_FOUND_ALT)) in * by done.
    split_and!; try done; try by intros ? [= <-]. intros n. split; [intros [= <-]; unfold is_byte; lia|]. intros [-> Hn]. do 2 f_equal. lia.
  - split_and!; try done; try by intros ? [= <-].
    + destruct (sw =? ENTRY_NOT_FOUND); done.
    + intros n. split; [intros [= ->]; by destruct (He n)|]. intros [-> Hn]. unfold between in Hb. unfold is_byte in Hn. bools. lia.
    + destruct (sw =? ENTRY_NOT_FOUND) eqn:E; bools; split; try done. by intros [= ->].
Qed.

Lemma token2_status_back_witness :
  (check 0x6982 = Ok tt <-> 0x6982 = OK) /\ (check_pin 0x6982 = Ok tt <-> 0x6982 = OK).
Proof. destruct (token2_status_back 0x6982) as (H1 & H2 & _); [by_decision|]. by split. Defined.

Lemma set_device_type_guard mask :
  is_byte mask ->
  (set_device_type mask = Err WouldBrick <-> forall b, b ∈ [DEV_FIDO; DEV_KEYBOARD; DEV_CCID] -> Z.land mask b = b) /\
  (forall apdu, set_device_type mask = Ok apdu -> apdu = Some (SET_DEVICE_TYPE ++ [1; mask])).
Proof.
  intros Hm. unfold set_device_type. split.
  - pose proof (byte_forall (fun m => Bool.eqb (Z.land m DEV_ALL =? DEV_ALL)
      ((Z.land m DEV_FIDO =? DEV_FIDO) && (Z.land m DEV_KEYBOARD =? DEV_KEYBOARD) && (Z.land m DEV_CCID =? DEV_CCID)))
      ltac:(by vm_compute) mask Hm) as Hb.
    apply eqb_prop in Hb. rewrite Hb. split.
    + destruct (_ && _) eqn:H; [|done]. bools. intros _ b Hin. rewrite !elem_of_cons, elem_of_nil in Hin. by destruct Hin as [-> |[-> |[-> |[]]]].
    + intros H. rewrite !(proj2 (Z.eqb_eq _ _)); [done|..]; apply H; rewrite !elem_of_cons; auto.
  - destruct (_ =? _); [done|]. by intros apdu [= <-].
Qed.
