(* ===== verification/Token2Crypto.v ===== *)
(** keyroost-token2otp/src/crypto.rs: sealing seeds and PIN proofs for Token2's
    OTP applet. The curve, AES-CBC, SHA-256 and HMAC are those of the p256, aes,
    cbc, sha2 and hmac crates: a class with their documented behaviour. Random
    values are arguments. *)
From S2P Require Sha.
From S2P Require Export Token2Otp.

Class PinCrypto := {
  (** Private keys, their public point as [X || Y], and the X coordinate of the
      shared point, if the other side's 64 bytes are a point. *)
  SecretKey : Type;
  point_xy : SecretKey -> list Z;
  ecdh_x : SecretKey -> list Z -> option (list Z);
  c_sha256 : list Z -> list Z;
  c_hmac : list Z -> list Z -> list Z;
  (** AES-256-CBC, key, IV, data: whole blocks, and with PKCS#7 padding. *)
  cbc_enc : list Z -> list Z -> list Z -> list Z;
  cbc_dec : list Z -> list Z -> list Z -> list Z;
  cbc_enc_padded : list Z -> list Z -> list Z -> list Z;
  cbc_dec_padded : list Z -> list Z -> list Z -> option (list Z)
}.

Class PinCryptoLaws `{PinCrypto} := {
  point_length : forall s, length (point_xy s) = 64%nat;
  ecdh_agree : forall a b, ecdh_x a (point_xy b) = ecdh_x b (point_xy a);
  ecdh_point : forall a b, is_Some (ecdh_x a (point_xy b));
  c_sha_out : forall m, Bytes (c_sha256 m) /\ length (c_sha256 m) = 32%nat;
  c_hmac_out : forall k m, Bytes (c_hmac k m) /\ length (c_hmac k m) = 32%nat;
  cbc_length : forall k iv d, zlen d mod 16 = 0 -> zlen (cbc_enc k iv d) = zlen d;
  cbc_inverse : forall k iv d, zlen d mod 16 = 0 -> cbc_dec k iv (cbc_enc k iv d) = d;
  cbc_padded_length : forall k iv d, zlen (cbc_enc_padded k iv d) = 16 * (zlen d / 16 + 1);
  cbc_padded_inverse : forall k iv d, cbc_dec_padded k iv (cbc_enc_padded k iv d) = Some d
}.

Definition IV_OTP : list Z :=
  [0x9D; 0xD8; 0x91; 0x8E; 0x34; 0xF3; 0xCC; 0xAB; 0x08; 0xCB; 0x75; 0x18; 0xF7; 0x19; 0x38; 0xF1].
Definition IV_HOTP : list Z := replicate 16 0.

Inductive EncryptError := BadDevicePubkey | RngFailed | BadCiphertext | BadAuthTag | BadLength.
#[export] Instance EncryptError_eq_dec : EqDecision EncryptError.
Proof. solve_decision. Defined.
Definition encrypt_error_text (e : EncryptError) : list Z :=
  match e with
  | BadDevicePubkey => s2b "device ECDH public key was not a valid P-256 point"
  | RngFailed => s2b "host RNG failed generating ephemeral key"
  | BadCiphertext => s2b "session ciphertext failed to decrypt"
  | BadAuthTag => s2b "session HMAC authentication tag mismatch"
  | BadLength => s2b "PIN or challenge length is out of range for this command"
  end.

Section crypto.
Context `{PinCrypto}.

(** * Seeds *)

Definition encrypt_seed_payload (host_secret : SecretKey) (device_pub_xy cleartext iv : list Z) : result EncryptError (list Z) :=
  if negb (zlen device_pub_xy =? 64) then Err BadDevicePubkey else
  shared ← ok_or BadDevicePubkey (ecdh_x host_secret device_pub_xy);
  let session_key := c_sha256 shared in
  let ciphertext := cbc_enc_padded session_key iv cleartext in
  Ok (point_xy host_secret ++ ciphertext).

(** * The PIN session *)

Record SessionKeys := mkKeys { sk_enc : list Z; sk_mac : list Z }.

Definition derive_session_keys (host_secret : SecretKey) (device_agreement_xy : list Z) : result EncryptError SessionKeys :=
  if negb (zlen device_agreement_xy =? 64) then Err BadDevicePubkey else
  shared ← ok_or BadDevicePubkey (ecdh_x host_secret device_agreement_xy);
  let pu1_pr := c_hmac (replicate 32 0) shared in
  Ok (mkKeys (c_hmac pu1_pr (s2b "TOTP AES key" ++ [0x01])) (c_hmac pu1_pr (s2b "TOTP HMAC key" ++ [0x01]))).

(** [HostAgreement]: the secret kept between the two halves of the exchange. *)
Record HostAgreement := mkAgreement { ha_secret : SecretKey; ha_public_xy : list Z }.
Definition host_agreement_new (secret : SecretKey) : HostAgreement := mkAgreement secret (point_xy secret).
Definition establish_session (a : HostAgreement) (device_agreement_xy : list Z) : result EncryptError SessionKeys :=
  derive_session_keys (ha_secret a) device_agreement_xy.

Definition session_encrypt (key iv cleartext : list Z) : list Z := cbc_enc_padded key iv cleartext.
Definition whole_blocks (data : list Z) : bool := negb (bool_decide (data = [])) && (zlen data mod 16 =? 0).
Definition session_decrypt_raw (key iv ciphertext : list Z) : list Z :=
  if negb (whole_blocks ciphertext) then [] else cbc_dec key iv ciphertext.
Definition session_decrypt (key iv ciphertext : list Z) : result EncryptError (list Z) :=
  if negb (whole_blocks ciphertext) then Err BadCiphertext else ok_or BadCiphertext (cbc_dec_padded key iv ciphertext).

Definition session_auth_tag (mac_key data : list Z) : list Z := take 16 (c_hmac mac_key data).
(** The fold of differences over both tags. *)
Fixpoint tag_diff (diff : Z) (a b : list Z) : Z :=
  match a, b with x :: a, y :: b => tag_diff (Z.lor diff (Z.lxor x y)) a b | _, _ => diff end.
Definition verify_auth_tag (mac_key data tag : list Z) : result EncryptError unit :=
  if negb (zlen tag =? 16) then Err BadAuthTag
  else if tag_diff 0 (session_auth_tag mac_key data) tag =? 0 then Ok tt else Err BadAuthTag.

Definition build_protected_write_data (keys : SessionKeys) (iv cleartext : list Z) : list Z :=
  let enc := session_encrypt (sk_enc keys) iv cleartext in
  iv ++ enc ++ session_auth_tag (sk_mac keys) enc.

Definition build_set_pin_data (keys : SessionKeys) (iv pin : list Z) (retry : Z) : result EncryptError (list Z) :=
  if 255 <? zlen pin then Err BadLength
  else Ok (build_protected_write_data keys iv ([PIN_ALG_AES256; retry; zlen pin] ++ pin)).

Definition aes256_cbc_encrypt_nopad (key iv data : list Z) : result EncryptError (list Z) :=
  if negb (whole_blocks data) then Err BadLength else Ok (cbc_enc key iv data).

Definition pkcs7_pad16 (data : list Z) : list Z :=
  let n := 16 - zlen data mod 16 in data ++ replicate (Z.to_nat n) (cast 8 n).

(** The two layers a PIN proof shares: the inner one under the PIN's hash. *)
Definition pin_proof (pin rand : list Z) : result EncryptError (list Z) :=
  aes256_cbc_encrypt_nopad (c_sha256 pin) (take 16 (c_sha256 rand)) rand.

Definition build_verify_pin_data (keys : SessionKeys) (iv pin rand : list Z) : result EncryptError (list Z) :=
  inner ← pin_proof pin rand;
  outer ← aes256_cbc_encrypt_nopad (sk_enc keys) iv inner;
  Ok (iv ++ outer).

Definition build_verify_pin_data_with_config (keys : SessionKeys) (iv pin rand : list Z) (fp_enable : bool) : result EncryptError (list Z) :=
  inner ← pin_proof pin rand;
  outer ← aes256_cbc_encrypt_nopad (sk_enc keys) iv inner;
  enc_config ← aes256_cbc_encrypt_nopad (sk_enc keys) iv (pkcs7_pad16 [button_byte fp_enable]);
  Ok (iv ++ outer ++ enc_config).

(** The challenge argument is unused in the source. *)
Definition build_change_pin_data (keys : SessionKeys) (iv new_pin current_pin rand : list Z) : result EncryptError (list Z) :=
  if 255 <? zlen new_pin then Err BadLength else
  let body := pkcs7_pad16 ([PIN_ALG_AES256; PIN_DEFAULT_MAX_RETRY; zlen new_pin] ++ new_pin) in
  new_pin_enc ← aes256_cbc_encrypt_nopad (sk_enc keys) iv body;
  old_pin_hash_enc ← aes256_cbc_encrypt_nopad (sk_enc keys) iv (take 16 (c_sha256 current_pin));
  let new_pin_auth := session_auth_tag (sk_mac keys) (new_pin_enc ++ old_pin_hash_enc) in
  Ok (iv ++ new_pin_enc ++ new_pin_auth ++ old_pin_hash_enc).

(** * The key, for reference *)

(** Opening a sealed seed with the key's secret. *)
Definition device_open_seed (device : SecretKey) (iv blob : list Z) : option (list Z) :=
  let '(host_xy, ct) := split_at 64 blob in
  shared ← ecdh_x device host_xy;
  cbc_dec_padded (c_sha256 shared) iv ct.

(** Reading a protected write, a PIN block behind it, and a padded block. *)
Definition device_open_protected (keys : SessionKeys) (data : list Z) : option (list Z) :=
  let '(iv, rest) := split_at 16 data in
  let '(enc, tag) := split_at (zlen rest - 16) rest in
  if bool_decide (tag = session_auth_tag (sk_mac keys) enc) then cbc_dec_padded (sk_enc keys) iv enc else None.
Definition device_pin_block (block : list Z) : option (Z * Z * list Z) :=
  match block with alg :: retry :: n :: pin => if n <=? zlen pin then Some (alg, retry, take (Z.to_nat n) pin) else None | _ => None end.
Definition device_check_pin (keys : SessionKeys) (pin_hash rand data : list Z) : bool :=
  let '(iv, outer) := split_at 16 data in
  bool_decide (cbc_dec (sk_enc keys) iv (take 16 outer) = cbc_enc pin_hash (take 16 (c_sha256 rand)) rand).
Definition device_change_pin (keys : SessionKeys) (pin_hash data : list Z) : option (Z * Z * list Z) :=
  let '(iv, rest) := split_at 16 data in
  let n := zlen rest - 32 in
  let '(enc, rest) := split_at n rest in
  let '(tag, old) := split_at 16 rest in
  if bool_decide (tag = session_auth_tag (sk_mac keys) (enc ++ old)) && bool_decide (cbc_dec (sk_enc keys) iv old = take 16 pin_hash)
  then device_pin_block (cbc_dec (sk_enc keys) iv enc) else None.
End crypto.

Section crypto_laws.
Context `{PinCryptoLaws}.

Lemma sessions_agree host device :
  exists keys, derive_session_keys host (point_xy device) = Ok keys /\ derive_session_keys device (point_xy host) = Ok keys.
Proof.
  unfold derive_session_keys, zlen. rewrite !point_length. cbn [negb Z.eqb Z.of_nat Pos.of_succ_nat Pos.succ Pos.eqb].
  rewrite (ecdh_agree device host). destruct (ecdh_point host device) as [x ->]. by eexists.
Qed.

Lemma split_at_len {A} n (a b : list A) : zlen a = n -> split_at n (a ++ b) = (a, b).
Proof. intros <-. apply split_at_app. Qed.

Lemma tag_length k m : zlen (session_auth_tag k m) = 16.
Proof. unfold session_auth_tag. destruct (c_hmac_out k m) as [_ Hl]. unfold zlen. by rewrite length_take, Hl. Qed.

Lemma device_open_seed_ok host device data iv :
  exists blob, encrypt_seed_payload host (point_xy device) data iv = Ok blob /\ device_open_seed device iv blob = Some data /\
    zlen blob = 64 + 16 * (zlen data / 16 + 1).
Proof.
  unfold encrypt_seed_payload. unfold zlen at 1. rewrite point_length. cbn [negb Z.eqb Z.of_nat Pos.of_succ_nat Pos.succ Pos.eqb].
  destruct (ecdh_point host device) as [x Hx]. rewrite Hx. eexists. split; [done|]. unfold device_open_seed.
  rewrite split_at_len by (unfold zlen; by rewrite point_length). rewrite <- ecdh_agree, Hx. cbn [mbind option_bind]. split; [apply cbc_padded_inverse|].
  rewrite zlen_app, cbc_padded_length. unfold zlen at 1. by rewrite point_length.
Qed.

Lemma device_open_protected_ok keys iv data :
  zlen iv = 16 -> device_open_protected keys (build_protected_write_data keys iv data) = Some data.
Proof.
  intros Hiv. unfold device_open_protected, build_protected_write_data. rewrite split_at_len by done.
  rewrite split_at_len by (zlen; rewrite tag_length; lia). rewrite bool_decide_eq_true_2 by done. apply cbc_padded_inverse.
Qed.

Lemma pkcs7_whole data : zlen (pkcs7_pad16 data) mod 16 = 0 /\ pkcs7_pad16 data <> [].
Proof.
  unfold pkcs7_pad16. pose proof (zlen_nonneg data). split; [zlen; lia_div|].
  assert (exists n, Z.to_nat (16 - zlen data mod 16) = S n) as [n ->].
  { exists (pred (Z.to_nat (16 - zlen data mod 16))). assert (0 < 16 - zlen data mod 16) by lia_div. lia. }
  by destruct data.
Qed.

Lemma nopad_ok key iv data : data <> [] -> zlen data mod 16 = 0 -> aes256_cbc_encrypt_nopad key iv data = Ok (cbc_enc key iv data).
Proof. intros Hd Hl. unfold aes256_cbc_encrypt_nopad, whole_blocks. by rewrite bool_decide_eq_false_2, (proj2 (Z.eqb_eq _ 0)). Qed.

Lemma hash16 pin : zlen (take 16 (c_sha256 pin)) = 16.
Proof. destruct (c_sha_out pin) as [_ Hl]. unfold zlen. by rewrite length_take, Hl. Qed.

Lemma pin_block_ok alg retry pin pad : device_pin_block ([alg; retry; zlen pin] ++ pin ++ pad) = Some (alg, retry, pin).
Proof.
  unfold device_pin_block. cbn [app]. rewrite (proj2 (Z.leb_le _ _)) by (zlen; pose proof (zlen_nonneg pad); lia). by rewrite take_zlen.
Qed.

Lemma tag_diff_0 a b d : Bytes a -> Bytes b -> 0 <= d -> length a = length b -> tag_diff d a b = 0 <-> d = 0 /\ a = b.
Proof.
  intros Ha. revert b d. induction Ha as [|x a Hx Ha IH]; intros [|y b] d Hb Hd Hl; try done; [by split; [|intros [-> _]]|].
  cbn [tag_diff]. apply list.Forall_cons in Hb as [Hy Hb]. unfold is_byte in *.
  assert (0 <= Z.lxor x y) by (apply Z.lxor_nonneg; lia).
  rewrite IH by (done || (apply Z.lor_nonneg; lia) || (simpl in Hl; lia)).
  rewrite Z.lor_eq_0_iff, Z.lxor_eq_0_iff. split; [by intros [[-> ->] ->]|]. intros [-> [= -> ->]]. done.
Qed.

Lemma verify_auth_tag_iff key data tag : Bytes tag -> verify_auth_tag key data tag = Ok tt <-> tag = session_auth_tag key data.
Proof.
  intros Ht. unfold verify_auth_tag. pose proof (tag_length key data) as Hl. destruct (c_hmac_out key data) as [Hb _].
  destruct (zlen tag =? 16) eqn:E; cbn [negb]; [|split; [done|intros ->; by rewrite Hl in E]].
  pose proof (tag_diff_0 (session_auth_tag key data) tag 0 (Forall_take _ _ _ Hb) Ht (Z.le_refl 0)) as Hd.
  destruct (tag_diff _ _ _ =? 0) eqn:E2; split; intros Hv; try done.
  - symmetry. apply Hd; unfold zlen in *; lia.
  - apply Z.eqb_neq in E2. destruct E2. apply Hd; [unfold zlen in *; lia|by subst].
Qed.

(** A challenge's proof under the PIN, and any padded block, in whole blocks. *)
Lemma pin_proof_ok pin rand : zlen rand = 16 -> exists inner, pin_proof pin rand = Ok inner /\
  inner = cbc_enc (c_sha256 pin) (take 16 (c_sha256 rand)) rand /\ inner <> [] /\ zlen inner = 16.
Proof.
  intros Hr. assert (zlen (cbc_enc (c_sha256 pin) (take 16 (c_sha256 rand)) rand) = 16) as Hl by (rewrite cbc_length; by rewrite Hr).
  eexists. split; [apply nopad_ok; first [by intros ->|by rewrite Hr]|]. split; [done|]. split; [|done]. by intros Hn; rewrite Hn in Hl.
Qed.

Lemma nopad16_ok key iv data : zlen data = 16 -> aes256_cbc_encrypt_nopad key iv data = Ok (cbc_enc key iv data) /\ zlen (cbc_enc key iv data) = 16.
Proof. intros Hd. split; [apply nopad_ok; first [by intros ->|by rewrite Hd]|]. rewrite cbc_length; by rewrite Hd. Qed.

(** What the key's check of a proof comes to, for the hash [h] of its own PIN. *)
Lemma device_check_eq keys iv pin h rand cfg : zlen iv = 16 -> zlen rand = 16 ->
  let iv2 := take 16 (c_sha256 rand) in
  device_check_pin keys h rand (iv ++ cbc_enc (sk_enc keys) iv (cbc_enc (c_sha256 pin) iv2 rand) ++ cfg) =
  bool_decide (cbc_enc (c_sha256 pin) iv2 rand = cbc_enc h iv2 rand).
Proof.
  intros Hi Hr iv2. destruct (pin_proof_ok pin rand Hr) as (inner & _ & Hin & _ & Hn). fold iv2 in Hin. unfold device_check_pin.
  rewrite split_at_len, <- Hin by done. destruct (nopad16_ok (sk_enc keys) iv inner Hn) as [_ Hl].
  rewrite take_app_length' by (unfold zlen in Hl; lia). rewrite cbc_inverse; [done|by rewrite Hn].
Qed.

Lemma device_check_ok keys iv pin rand cfg : zlen iv = 16 -> zlen rand = 16 ->
  device_check_pin keys (c_sha256 pin) rand (iv ++ cbc_enc (sk_enc keys) iv (cbc_enc (c_sha256 pin) (take 16 (c_sha256 rand)) rand) ++ cfg) = true.
Proof. intros Hi Hr. pose proof (device_check_eq keys iv pin (c_sha256 pin) rand cfg Hi Hr) as He. cbv zeta in He. rewrite He. by apply bool_decide_eq_true_2. Qed.

Lemma change_pin_eq keys iv new_pin pin rand h : zlen iv = 16 -> zlen new_pin <= 255 ->
  exists d, build_change_pin_data keys iv new_pin pin rand = Ok d /\ zlen d <= 1024 /\
    device_change_pin keys h d =
    if bool_decide (take 16 (c_sha256 pin) = take 16 h) then Some (PIN_ALG_AES256, PIN_DEFAULT_MAX_RETRY, new_pin) else None.
Proof.
  intros Hi Hn. unfold build_change_pin_data. rewrite (proj2 (Z.ltb_ge 255 _)) by done.
  set (body := pkcs7_pad16 ([PIN_ALG_AES256; PIN_DEFAULT_MAX_RETRY; zlen new_pin] ++ new_pin)).
  destruct (pkcs7_whole ([PIN_ALG_AES256; PIN_DEFAULT_MAX_RETRY; zlen new_pin] ++ new_pin)) as [Hw Hne]. fold body in Hw, Hne.
  pose proof (hash16 pin) as H16. destruct (nopad16_ok (sk_enc keys) iv _ H16) as [He Hl].
  rewrite (nopad_ok _ _ _ Hne Hw). rewrite He. eexists. split; [done|]. split.
  { zlen. rewrite tag_length, Hl, cbc_length, Hi by done. subst body. unfold pkcs7_pad16. zlen. pose proof (zlen_nonneg new_pin). lia_div. }
  unfold device_change_pin. rewrite split_at_len by done.
  rewrite split_at_len by (zlen; rewrite tag_length, Hl; lia). rewrite split_at_len by apply tag_length.
  rewrite bool_decide_eq_true_2 by done. rewrite !cbc_inverse by (done || by rewrite H16). cbn [andb].
  case_bool_decide; [|done]. subst body. unfold pkcs7_pad16. rewrite <- app_assoc. apply pin_block_ok.
Qed.

Lemma change_pin_ok keys iv new_pin pin rand : zlen iv = 16 -> zlen new_pin <= 255 ->
  exists d, build_change_pin_data keys iv new_pin pin rand = Ok d /\
    device_change_pin keys (c_sha256 pin) d = Some (PIN_ALG_AES256, PIN_DEFAULT_MAX_RETRY, new_pin).
Proof.
  intros Hi Hn. destruct (change_pin_eq keys iv new_pin pin rand (c_sha256 pin) Hi Hn) as (d & Hd & _ & Hc).
  exists d. split; [done|]. rewrite Hc. by rewrite bool_decide_eq_true_2.
Qed.

(** * Properties *)

(** A seed written to a Token2 key is the one stored. For every entry the
    applet's rules allow, every ephemeral key of the host and every key of the
    device, what is sent is the host's point and the encrypted entry, and the
    device, deriving the same key from its own secret, decrypts and reads exactly
    that entry; under a PIN session, whose keys both sides derive alike, the
    protected form opens to the same entry, its tag checked. *)
Theorem token2_seed_delivered (host device : SecretKey) (e : WriteEntry) (data iv : list Z) :
  is_word 16 (w_timestep e) -> Bytes (w_app e) -> Bytes (w_account e) -> zlen iv = 16 ->
  serialize_write_entry e = Ok data ->
  read_write data = Ok e /\
  (exists blob, encrypt_seed_payload host (point_xy device) data IV_OTP = Ok blob /\ device_open_seed device IV_OTP blob = Some data /\
     zlen blob = 64 + 16 * (zlen data / 16 + 1)) /\
  (exists keys, derive_session_keys host (point_xy device) = Ok keys /\ derive_session_keys device (point_xy host) = Ok keys /\
     device_open_protected keys (build_protected_write_data keys iv data) = Some data) /\
  (forall short, zlen short <> 64 -> encrypt_seed_payload host short data IV_OTP = Err BadDevicePubkey).
Proof.
  intros Ht Ha Hc Hiv Hd. split; [by apply serialize_write_read|]. split; [apply device_open_seed_ok|]. split.
  - destruct (sessions_agree host device) as (keys & H1 & H2). exists keys. split; [done|]. split; [done|]. by apply device_open_protected_ok.
  - intros short Hs. unfold encrypt_seed_payload. by rewrite (proj2 (Z.eqb_neq _ 64)).
Qed.

(** A PIN reaches the key as it was typed. Setting a PIN delivers the
    algorithm, the retry count and the PIN itself, and a PIN too long for its
    length byte is refused, not cut; the proof made from the right PIN passes the
    key's check against any challenge of whole blocks, with or without the
    fingerprint setting, whose padded byte the key reads back, and a challenge of
    another size is refused; a change is accepted with the right old PIN and
    delivers the new one, which may be empty; and a tag is accepted exactly when
    it is the right one. *)
Theorem token2_pin_delivered (keys : SessionKeys) (iv pin new_pin rand : list Z) (retry : Z) (fp : bool) :
  zlen iv = 16 -> zlen rand = 16 -> zlen pin <= 255 -> zlen new_pin <= 255 ->
  (exists d, build_set_pin_data keys iv pin retry = Ok d /\
     (block ← device_open_protected keys d; device_pin_block block) = Some (PIN_ALG_AES256, retry, pin)) /\
  (exists d, build_verify_pin_data keys iv pin rand = Ok d /\ device_check_pin keys (c_sha256 pin) rand d = true) /\
  (exists d cfg, build_verify_pin_data_with_config keys iv pin rand fp = Ok (d ++ cfg) /\
     device_check_pin keys (c_sha256 pin) rand (d ++ cfg) = true /\
     cbc_dec (sk_enc keys) iv cfg = button_byte fp :: replicate 15 15) /\
  (exists d, build_change_pin_data keys iv new_pin pin rand = Ok d /\
     device_change_pin keys (c_sha256 pin) d = Some (PIN_ALG_AES256, PIN_DEFAULT_MAX_RETRY, new_pin)) /\
  (forall long, 255 < zlen long -> build_set_pin_data keys iv long retry = Err BadLength /\
     build_change_pin_data keys iv long pin rand = Err BadLength) /\
  (forall odd, zlen odd mod 16 <> 0 -> build_verify_pin_data keys iv pin odd = Err BadLength) /\
  (forall data tag, Bytes tag -> verify_auth_tag (sk_mac keys) data tag = Ok tt <-> tag = session_auth_tag (sk_mac keys) data).
Proof.
  intros Hi Hr Hp Hn. destruct (pin_proof_ok pin rand Hr) as (inner & Hpf & Hin & _ & Hil).
  destruct (nopad16_ok (sk_enc keys) iv inner Hil) as [Ho _].
  split; [unfold build_set_pin_data; rewrite (proj2 (Z.ltb_ge 255 _)) by done; eexists; split; [done|];
    rewrite device_open_protected_ok by done; cbn [mbind option_bind];
    rewrite <- (app_nil_r pin) at 2; apply pin_block_ok|].
  split; [eexists; unfold build_verify_pin_data; rewrite Hpf; cbn [mbind result_bind]; rewrite Ho; split; [done|];
    rewrite <- (app_nil_r (cbc_enc (sk_enc keys) iv inner)), Hin; by apply device_check_ok|].
  split.
  { unfold build_verify_pin_data_with_config. rewrite Hpf. cbn [mbind result_bind]. rewrite Ho. cbn [mbind result_bind].
    assert (zlen (pkcs7_pad16 [button_byte fp]) = 16) as Hc by done. destruct (nopad16_ok (sk_enc keys) iv _ Hc) as [-> _].
    eexists (iv ++ _), _. split; [cbn [mbind result_bind]; by rewrite <- app_assoc|]. split; [rewrite Hin, <- app_assoc; by apply device_check_ok|].
    rewrite cbc_inverse by (by rewrite Hc). by destruct fp. }
  split; [by apply change_pin_ok|]. split.
  - intros long Hl. unfold build_set_pin_data, build_change_pin_data. by rewrite (proj2 (Z.ltb_lt 255 _)).
  - split; [|intros; by apply verify_auth_tag_iff]. intros odd Ho'. unfold build_verify_pin_data, pin_proof, aes256_cbc_encrypt_nopad, whole_blocks.
    rewrite (proj2 (Z.eqb_neq _ 0)) by done. by rewrite andb_false_r.
Qed.
End crypto_laws.

(** * A concrete key, for the witnesses *)

Module ToyKey.
Definition xy (s : Z) : list Z := replicate 63 0 ++ [s].
Definition dh (s : Z) (pub : list Z) : option (list Z) := option_map (fun b => replicate 31 0 ++ [s * b]) (pub !! 63%nat).
Definition mask (k iv d : list Z) : list Z := map (Z.lxor (default 0 (head k))) d.
Definition unpad (d : list Z) : option (list Z) :=
  option_map (fun n => take (length d - Z.to_nat n) d) (list.last d).

Lemma mask_mask k iv d : mask k iv (mask k iv d) = d.
Proof. unfold mask. rewrite map_map. rewrite <- (map_id d) at 2. apply map_ext. intros x. by rewrite <- Z.lxor_assoc, Z.lxor_nilpotent. Qed.

Lemma unpad_pad d : unpad (pkcs7_pad16 d) = Some d.
Proof.
  unfold unpad, pkcs7_pad16. pose proof (zlen_nonneg d). set (n := 16 - zlen d mod 16). assert (0 < n <= 16) as Hn by (subst n; lia_div).
  destruct (Z.to_nat n) as [|m] eqn:E; [lia|]. rewrite replicate_S_end, app_assoc, last_snoc. cbn [option_map].
  unfold cast. rewrite Z.mod_small by (cbn; lia). f_equal. rewrite <- app_assoc, <- replicate_S_end. apply take_app_length'.
  rewrite length_app, length_replicate. lia.
Qed.
End ToyKey.

#[export] Instance toy_key : PinCrypto := {
  SecretKey := Z; point_xy := ToyKey.xy; ecdh_x := ToyKey.dh;
  c_sha256 := Sha.Sha256.sha256; c_hmac k m := Sha.Sha256.sha256 (k ++ m);
  cbc_enc := ToyKey.mask; cbc_dec := ToyKey.mask;
  cbc_enc_padded k iv d := ToyKey.mask k iv (pkcs7_pad16 d);
  cbc_dec_padded k iv c := ToyKey.unpad (ToyKey.mask k iv c)
}.

#[export] Instance toy_key_laws : PinCryptoLaws.
Proof.
  split; cbn [point_xy ecdh_x c_sha256 c_hmac cbc_enc cbc_dec cbc_enc_padded cbc_dec_padded SecretKey toy_key].
  - done.
  - intros a b. unfold ToyKey.dh, ToyKey.xy. cbn [lookup list_lookup app replicate option_map]. by rewrite Z.mul_comm.
  - intros a b. by eexists.
  - intros m. apply Sha.sha256_out.
  - intros k m. apply Sha.sha256_out.
  - intros k iv d _. unfold zlen, ToyKey.mask. by rewrite length_map.
  - intros k iv d _. apply ToyKey.mask_mask.
  - intros k iv d. unfold zlen at 1, ToyKey.mask. rewrite length_map. unfold pkcs7_pad16. fold (zlen (d ++ replicate (Z.to_nat (16 - zlen d mod 16)) (cast 8 (16 - zlen d mod 16)))).
    pose proof (zlen_nonneg d). zlen. lia_div.
  - intros k iv d. rewrite ToyKey.mask_mask. apply ToyKey.unpad_pad.
Qed.

Definition toy_host : @SecretKey toy_key := 7.
Definition toy_device : @SecretKey toy_key := 11.
Lemma token2_seed_delivered_witness :
  (exists data, serialize_write_entry write_60 = Ok data) /\
  (forall data, serialize_write_entry write_60 = Ok data ->
     exists blob, encrypt_seed_payload toy_host (point_xy toy_device) data IV_OTP = Ok blob /\ device_open_seed toy_device IV_OTP blob = Some data).
Proof.
  split; [eexists; reflexivity|]. intros data Hd.
  destruct (token2_seed_delivered toy_host toy_device write_60 data IV_OTP) as (_ & (blob & H1 & H2 & _) & _); [by_decision|by_decision|by_decision|done|done|].
  by exists blob.
Defined.

Definition toy_session : SessionKeys := mkKeys (replicate 32 5) (replicate 32 6).
Lemma token2_pin_delivered_witness :
  exists d, build_set_pin_data toy_session IV_HOTP (s2b "1234") 8 = Ok d /\
    (block ← device_open_protected toy_session d; device_pin_block block) = Some (PIN_ALG_AES256, 8, s2b "1234").
Proof. apply (token2_pin_delivered toy_session IV_HOTP (s2b "1234") [] (replicate 16 3) 8 true); by_decision. Defined.
