(* ===== verification/Token2Wire.v ===== *)
(** keyroost-transport/src/token2otp.rs, the wire half: the errors and the trace
    of Token2's OTP applet, and the three ways an APDU reaches it (report frames
    over hidraw, CTAPHID command 0x41, a PC/SC card). *)
From S2P Require CtapHid Token2Entry.
From S2P Require Export Pcsc Token2Crypto.
Import CtapHid(hex_lower, hexline).

(** * Errors *)

Inductive UnlockMethod := UFingerprint | UPin.
#[export] Instance UnlockMethod_eq_dec : EqDecision UnlockMethod.
Proof. solve_decision. Defined.

Inductive OtpTransportError :=
  | XTokenNotDetected
  | XTransportUnavailable (s : list Z)
  | XFrame (e : Token2Entry.FrameError)
  | XApplet (e : OtpError)
  | XParse (e : ParseError)
  | XEncrypt (e : EncryptError)
  | XPcsc (kind : PcscKind) (text : list Z)
  | XEmptyResponse
  | XSerialUnavailable
  | XNoUsableInterface
  | XEnumerationCapExceeded
  | XHidDeclinedAndNoCcid (sw : Z) (ccid : list Z)
  | XPinRequired
  | XPinSessionMissing
  | XFingerprintTimeout
  | XNoFingerprintEnrolled
  | XWaiting   (* no value of the source's: the script of what the reads give ended *)
  | XPanic.    (* no value of the source's: a command too long to encode *)

(** ["{:#06x}"]. *)
Definition hex_word_lower (sw : Z) : list Z := s2b "0x" ++ hex_lower (sw / 256) ++ hex_lower (sw mod 256).

Definition otp_transport_error_text (e : OtpTransportError) : list Z :=
  match e with
  | XTokenNotDetected => s2b "no Token2 OTP-capable security key was detected"
  | XTransportUnavailable s => s2b "transport unavailable: " ++ s
  | XFrame e => s2b "HID framing error: " ++ Token2Entry.frame_error_text e
  | XApplet e => otp_error_text e
  | XParse e => parse_error_text e
  | XEncrypt e => encrypt_error_text e
  | XPcsc _ text => s2b "PC/SC error: " ++ text
  | XEmptyResponse => s2b "device returned an empty response"
  | XSerialUnavailable => s2b "this model/reader does not expose the serial number"
  | XNoUsableInterface =>
      s2b "the OTP applet is not reachable over HID or CCID " ++ EM_DASH ++
      s2b " HID may be disabled on the key; enable it, or use a contact/NFC reader"
  | XEnumerationCapExceeded =>
      s2b "the device kept reporting more OTP entries than any supported token stores; aborting enumeration"
  | XHidDeclinedAndNoCcid sw ccid =>
      (if is_applet_status sw then s2b "the OTP applet declined the request"
       else s2b "the key answered, but not from the OTP applet") ++
      s2b " over USB-HID (status word " ++ hex_word sw ++
      s2b "). Token2 models without HOTP-over-HID ship with the HID channel disabled, so there is nothing to enable on the key " ++
      EM_DASH ++ s2b " OTP is carried over CCID instead, and that is the path that failed: " ++ ccid ++
      s2b ". Start the smart-card service (pcscd on Linux; the Smart Card service on Windows; built in on macOS) or place the key on a contact/NFC reader, then retry "
      ++ EM_DASH ++ s2b " `--transport ccid` forces it"
  | XPinRequired => s2b "this key's OTP codes are PIN-protected; supply the OTP PIN to unlock them"
  | XPinSessionMissing => s2b "no OTP-PIN session was established before a PIN command"
  | XFingerprintTimeout => s2b "fingerprint not captured (sensor not touched, or the match failed)"
  | XNoFingerprintEnrolled =>
      s2b "can't enable fingerprint protection: no fingerprint is enrolled on this key " ++ EM_DASH ++
      s2b " enroll one via the key's FIDO2 fingerprint setup first"
  | XWaiting | XPanic => []
  end.

(** The contract of the transports: one APDU out, the answer's data and status
    word back; the flag says the command may wait for the button. *)
Class OtpTransport (T : Type) := {
  otp_transmit : list Z -> bool -> io T OtpTransportError (list Z * Z)
}.

(** * The trace *)

Definition reads_serial (apdu : list Z) : bool := bool_decide (take 4 apdu = READ_SERIAL_INS).

Definition response_is_sensitive (apdu : list Z) : bool :=
  let entries := match apdu with
                 | _ :: ins :: p1 :: p2 :: _ => (ins =? 0xC5) && (p1 =? 0x05) && ((p2 =? 0x00) || (p2 =? 0x01))
                 | _ => false
                 end in
  entries || reads_serial apdu.

Definition request_is_sensitive (apdu : list Z) : bool :=
  let header := take 4 apdu in
  let seed := bool_decide (header = WRITE_SEED) || bool_decide (header = WRITE_HOTP_SEED) in
  let named_read := bool_decide (header = ENUM_CODES) && negb (bool_decide (apdu !! 5%nat = Some SUB_READ_ALL)) in
  let pin_material := match apdu with
                      | _ :: ins :: p1 :: p2 :: lc :: _ =>
                          (ins =? 0xC5) && (p1 =? 0x05) && ((p2 =? 0x05) || (p2 =? 0x06) || (p2 =? 0x08)) && (1 <? lc)
                      | _ => false
                      end in
  seed || named_read || pin_material.

Definition otp_label (transport : list Z) : list Z := s2b "otp " ++ to_ascii_lowercase transport.

Definition otp_trace_line (dir : Dir) (transport qualifier bytes : list Z) (sensitive : bool) : list Z :=
  let payload := if sensitive then s2b "<" ++ dec (zlen bytes) ++ s2b " bytes redacted>" else hexline bytes in
  let body := if bool_decide (qualifier = []) then payload else qualifier ++ [32] ++ payload in
  format_line dir (otp_label transport) body.

(** On a [World]: the thread's capture and stderr beside the device. *)
Definition trace_bytes {C E} (debug : bool) (dir : Dir) (transport qualifier bytes : list Z) (sensitive : bool) : io (World C) E unit :=
  trace_line debug (otp_trace_line dir transport qualifier bytes sensitive).

(** * A card in a PC/SC reader *)

(** The [pcsc] card's reconnect (shared, resetting the card). *)
Class CardReconnect (C : Type) `{PcscCard C} := { card_reconnect : io C (PcscError C) unit }.

Record PcScOtp (C : Type) := mkPcScOtp { po_world : World C; po_debug : bool; po_aid : list Z }.
Arguments mkPcScOtp {C} _ _ _.
Arguments po_world {C} _.
Arguments po_debug {C} _.
Arguments po_aid {C} _.

Section pcsc.
Context {C : Type} `{CardReconnect C}.

Definition xpcsc (e : PcscError C) : OtpTransportError := XPcsc (pcsc_kind e) (pcsc_text e).

(** Running an operation on the card's world. *)
Definition on_world {A} (m : io (World C) OtpTransportError A) : io (PcScOtp C) OtpTransportError A := fun t =>
  let '(r, w) := m (po_world t) in (r, mkPcScOtp w (po_debug t) (po_aid t)).
Definition pcsc_trace (dir : Dir) (bytes : list Z) (sensitive : bool) : io (PcScOtp C) OtpTransportError unit :=
  debug ← io_gets po_debug; on_world (trace_bytes debug dir (s2b "PCSC") [] bytes sensitive).
Definition pcsc_line (dir : Dir) (body : list Z) : io (PcScOtp C) OtpTransportError unit :=
  debug ← io_gets po_debug; on_world (trace_line debug (format_line dir (otp_label (s2b "PCSC")) body)).
Definition set_aid (aid : list Z) : io (PcScOtp C) OtpTransportError unit :=
  io_modify (fun t => mkPcScOtp (po_world t) (po_debug t) aid).

(** [card.transmit] and [card.reconnect], their errors as values. *)
Definition try_transmit (apdu : list Z) : io (PcScOtp C) OtpTransportError (result (PcscError C) (list Z)) := fun t =>
  let '(r, w) := transmit apdu (po_world t) in (Ok r, mkPcScOtp w (po_debug t) (po_aid t)).
Definition reconnect : io (PcScOtp C) OtpTransportError unit := fun t =>
  let '(r, c) := card_reconnect (card (po_world t)) in
  (map_err xpcsc r, mkPcScOtp (mkWorld c (capture (po_world t)) (stderr (po_world t))) (po_debug t) (po_aid t)).

(** The applet a SELECT names. *)
Definition selected_aid (apdu : list Z) : option (list Z) :=
  if (5 <=? zlen apdu) && bool_decide (take 4 apdu = [0x00; 0xA4; 0x04; 0x00]) then
    let lc := apdu !!! 4%nat in
    if 5 + lc <=? zlen apdu then Some (slice apdu 5 (Z.to_nat (5 + lc))) else None
  else None.

Definition is_transient (e : PcscError C) : bool :=
  match pcsc_kind e with ResetCard | RemovedCard | CommError => true | _ => false end.

(** Re-selecting the applet after a reset. *)
Definition reselect : io (PcScOtp C) OtpTransportError unit :=
  aid ← io_gets po_aid;
  if bool_decide (aid = []) then mret tt else
  sel ← lift (ok_or XPanic (build_select aid));
  r ← try_transmit sel;
  match r with
  | Err e => lift (Err (xpcsc e))
  | Ok sresp =>
      if zlen sresp <? 2 then lift (Err XEmptyResponse) else
      lift (map_err XApplet (check (from_be (drop (length sresp - 2) sresp))))
  end.

Definition REASSEMBLY : list Z := s2b "61xx continuation exceeded reassembly limits".
Definition KEPT_6C : list Z := s2b "card kept answering 6C to the corrected Le".

(** The loop of [raw_transmit], [fuel] exchanges at most. *)
Fixpoint raw_loop (fuel : nat) (apdu : list Z) (sensitive : bool) (to_send acc : list Z) (chunks le_retries retries_left : Z) :
    io (PcScOtp C) OtpTransportError (list Z * Z) :=
  match fuel with
  | O => lift (Err XWaiting)
  | S fuel =>
      r ← try_transmit to_send;
      match r with
      | Err e =>
          if is_transient e && (0 <? retries_left) then
            _ ← pcsc_line Note (s2b "transient card error; reconnecting and retrying");
            _ ← reconnect;
            _ ← reselect;
            raw_loop fuel apdu sensitive apdu [] 0 le_retries (retries_left - 1)
          else
            _ ← pcsc_line Received (s2b "PC/SC error: " ++ pcsc_text e);
            lift (Err (xpcsc e))
      | Ok resp =>
          _ ← pcsc_trace Received resp sensitive;
          if zlen resp <? 2 then lift (Err XEmptyResponse) else
          let '(data, sw) := split_at (zlen resp - 2) resp in
          let acc := acc ++ data in
          let chunks := chunks + 1 in
          if (65536 <? zlen acc) || (64 <? chunks) then lift (Err (XParse (Malformed REASSEMBLY))) else
          let sw1 := sw !!! 0%nat in
          let sw2 := sw !!! 1%nat in
          if sw1 =? 0x61 then raw_loop fuel apdu sensitive [0x00; 0xC0; 0x00; 0x00; sw2] acc chunks le_retries retries_left
          else if sw1 =? 0x6C then
            if 4 <? le_retries + 1 then lift (Err (XParse (Malformed KEPT_6C)))
            else raw_loop fuel apdu sensitive (resend_with_le apdu sw2) [] 0 (le_retries + 1) retries_left
          else mret (acc, Z.lor (Z.shiftl sw1 8) sw2)
      end
  end.

(** Enough for the caps: at most 3 resets and 4 corrected lengths, each
    starting again at no chunks, and 64 chunks between them. *)
Definition raw_fuel : nat := 600.

Definition raw_transmit (apdu : list Z) : io (PcScOtp C) OtpTransportError (list Z * Z) :=
  let sensitive := response_is_sensitive apdu in
  _ ← pcsc_trace Sent apdu (request_is_sensitive apdu);
  _ ← (match selected_aid apdu with Some aid => set_aid aid | None => mret tt end);
  raw_loop raw_fuel apdu sensitive apdu [] 0 0 3.

Definition pcsc_select (aid : list Z) : io (PcScOtp C) OtpTransportError unit :=
  sel ← lift (ok_or XPanic (build_select aid));
  '(_, sw) ← raw_transmit sel;
  lift (map_err XApplet (check sw)).

#[export] Instance pcsc_otp : OtpTransport (PcScOtp C) := { otp_transmit apdu _ := raw_transmit apdu }.
End pcsc.

(** * Report frames over hidraw *)

(** What the rest of the run will observe, and the reports written. A read is
    one bounded read, empty when it timed out. *)
Record HidEnd := mkHidEnd {
  he_clock : list Z; he_reads : list (result (list Z) (list Z)); he_writes : list (option (list Z)); he_written : list (list Z)
}.

(** [ho_prompt]: how often the button prompt was shown, when there is one. *)
Record HidOtp := mkHidOtp {
  ho_world : World HidEnd; ho_timeout : Z; ho_prompt : option Z; ho_debug : bool; ho_sensitive : bool
}.

Section hid.
Local Notation hio := (io HidOtp OtpTransportError).

Definition set_end (e : HidEnd) (t : HidOtp) : HidOtp :=
  mkHidOtp (mkWorld e (capture (ho_world t)) (stderr (ho_world t))) (ho_timeout t) (ho_prompt t) (ho_debug t) (ho_sensitive t).
Definition hid_trace (dir : Dir) (qualifier bytes : list Z) (sensitive : bool) : hio unit := fun t =>
  let '(r, w) := trace_bytes (ho_debug t) dir (s2b "HID") qualifier bytes sensitive (ho_world t) in
  (r, mkHidOtp w (ho_timeout t) (ho_prompt t) (ho_debug t) (ho_sensitive t)).
Definition hid_now : hio Z := fun t =>
  let e := card (ho_world t) in
  match he_clock e with
  | n :: c => (Ok n, set_end (mkHidEnd c (he_reads e) (he_writes e) (he_written e)) t)
  | [] => (Err XWaiting, t)
  end.

Definition hid_write_report (frame : list Z) : hio unit := fun t =>
  let e := card (ho_world t) in
  match he_writes e with
  | Some s :: ws => (Err (XTransportUnavailable s), set_end (mkHidEnd (he_clock e) (he_reads e) ws (he_written e)) t)
  | ws => (Ok tt, set_end (mkHidEnd (he_clock e) (he_reads e) (tail ws) (he_written e ++ [frame])) t)
  end.

Definition hid_read_report : hio (list Z) :=
  buf ← (fun t =>
           let e := card (ho_world t) in
           match he_reads e with
           | r :: rs => (map_err XTransportUnavailable r, set_end (mkHidEnd (he_clock e) rs (he_writes e) (he_written e)) t)
           | [] => (Err XWaiting, t)
           end);
  sensitive ← io_gets ho_sensitive;
  _ ← (if 0 <? zlen buf then hid_trace Received (s2b "raw-frame") buf sensitive else mret tt);
  mret buf.

(** [self.resp_sensitive = ..] and the prompt's callback. *)
Definition hid_set_sensitive (b : bool) : hio unit :=
  io_modify (fun t => mkHidOtp (ho_world t) (ho_timeout t) (ho_prompt t) (ho_debug t) b).
Definition hid_prompt : hio unit :=
  io_modify (fun t => mkHidOtp (ho_world t) (ho_timeout t) ((fun n => n + 1) <$> ho_prompt t) (ho_debug t) (ho_sensitive t)).

Fixpoint write_reports (frames : list (list Z)) : hio unit :=
  match frames with [] => mret tt | f :: frames => _ ← hid_write_report f; write_reports frames end.

(** The read loop; every turn reads the clock once. *)
Fixpoint hid_read_loop (fuel : nat) (detect_button_wait : bool) (deadline : Z) (prompted got_frame : bool) (asm : Token2Entry.ResponseAssembler) :
    hio Token2Entry.ResponseAssembler :=
  match fuel with
  | O => lift (Err XWaiting)
  | S fuel =>
      t ← hid_now;
      if deadline <=? t then
        lift (Err (if got_frame then XApplet ButtonPressRequired
                   else XTransportUnavailable (s2b "device sent no response before the timeout")))
      else
      buf ← hid_read_report;
      if zlen buf =? 0 then hid_read_loop fuel detect_button_wait deadline prompted got_frame asm else
      match Token2Entry.push buf asm with
      | (Err e, _) => lift (Err (XFrame e))
      | (Ok (Token2Entry.Busy retries), asm) =>
          if detect_button_wait && negb prompted && (3 <=? retries) then
            _ ← hid_prompt; hid_read_loop fuel detect_button_wait deadline true true asm
          else hid_read_loop fuel detect_button_wait deadline prompted true asm
      | (Ok Token2Entry.NeedMore, asm) => hid_read_loop fuel detect_button_wait deadline prompted true asm
      | (Ok Token2Entry.Done, asm) => mret asm
      end
  end.

Definition hid_transmit (apdu : list Z) (detect_button_wait : bool) : hio (list Z * Z) :=
  _ ← hid_trace Sent [] apdu (request_is_sensitive apdu);
  _ ← hid_set_sensitive (response_is_sensitive apdu);
  _ ← write_reports (Token2Entry.build_send_frames apdu);
  start ← hid_now;
  timeout ← io_gets ho_timeout;
  turns ← io_gets (fun t => S (length (he_clock (card (ho_world t)))));
  asm ← hid_read_loop turns detect_button_wait (start + timeout) false false Token2Entry.assembler_new;
  '(data, sw) ← lift (ok_or XEmptyResponse (Token2Entry.into_response asm));
  sensitive ← io_gets ho_sensitive;
  _ ← hid_trace Received (s2b "parsed sw=" ++ hex_word_lower sw) data sensitive;
  _ ← hid_trace Received [] data sensitive;
  mret (data, sw).

#[export] Instance hid_otp : OtpTransport HidOtp := { otp_transmit := hid_transmit }.
End hid.

(** * CTAPHID command 0x41 *)

Definition OTP_CTAPHID_CMD : Z := 0xC1.
Definition KEEPALIVE_STATUS_UPNEEDED : Z := 0x02.
(** Milliseconds. *)
Definition CTAP_PROBE_TIMEOUT : Z := 3000.

(** [co_prompt]: how often the button prompt was shown, when there is one. *)
Record CtapOtp := mkCtapOtp { co_dev : CtapHid.CtapHidDevice; co_armed : bool; co_debug : bool; co_prompt : option Z }.

Definition split_ctap_reply (resp : list Z) : result OtpTransportError (list Z * Z) :=
  if zlen resp <? 2 then Err XEmptyResponse
  else let '(data, sw) := split_at (zlen resp - 2) resp in Ok (data, from_be sw).

Section ctaphid.
Local Notation cio := (io CtapOtp OtpTransportError).

Definition ctap_otp_trace {E} (dir : Dir) (qualifier bytes : list Z) (sensitive : bool) : io CtapOtp E unit := fun t =>
  let d := co_dev t in
  let line := otp_trace_line dir (s2b "CTAPHID") qualifier bytes sensitive in
  let '(out, cap) := emit (co_debug t) line (CtapHid.capture d) in
  (Ok tt, mkCtapOtp (CtapHid.mkDev (CtapHid.script d) (CtapHid.channel_id d) (CtapHid.timeout d) (CtapHid.hooked d) (CtapHid.written d)
     (CtapHid.trace_on d) (CtapHid.printed d ++ out) cap) (co_armed t) (co_debug t) (co_prompt t)).

(** What the keepalive hook did, from the statuses it was called with: once
    per command, and only when the key says it is waiting. The note it traces
    for each is left out. *)
Definition hook_ran (statuses : list Z) (t : CtapOtp) : CtapOtp :=
  if co_armed t && bool_decide (KEEPALIVE_STATUS_UPNEEDED ∈ statuses)
  then mkCtapOtp (co_dev t) false (co_debug t) ((fun n => n + 1) <$> co_prompt t) else t.

Definition statuses (d : CtapHid.CtapHidDevice) : list Z := default [] (CtapHid.hooked d).

(** Nothing scripted is left to give: the call is still waiting. *)
Definition ctap_transact (cmd : Z) (payload : list Z) : io CtapOtp (option HidTransportError) (list Z) := fun t =>
  let '(r, d) := CtapHid.transact cmd payload (co_dev t) in
  let t' := hook_ran (drop (length (statuses (co_dev t))) (statuses d)) (mkCtapOtp d (co_armed t) (co_debug t) (co_prompt t)) in
  (match r with Some r => map_err Some r | None => Err None end, t').

Definition arm (b : bool) : io CtapOtp (option HidTransportError) unit :=
  io_modify (fun t => mkCtapOtp (co_dev t) b (co_debug t) (co_prompt t)).

Definition ctap_send (apdu : list Z) (detect_button_wait : bool) : io CtapOtp (option HidTransportError) (list Z) := fun t =>
  let '(r, t') := (_ ← ctap_otp_trace Sent [] apdu (request_is_sensitive apdu);
                   _ ← arm detect_button_wait;
                   ctap_transact OTP_CTAPHID_CMD apdu) t in
  (r, mkCtapOtp (co_dev t') false (co_debug t') (co_prompt t')).

Definition ctap_finish (apdu resp : list Z) : cio (list Z * Z) :=
  '(data, sw) ← lift (split_ctap_reply resp);
  _ ← ctap_otp_trace Received (s2b "sw=" ++ hex_word_lower sw) data (response_is_sensitive apdu);
  mret (data, sw).

Definition ctap_error (e : option HidTransportError) : OtpTransportError :=
  match e with Some e => XTransportUnavailable (CtapHid.hid_error_text e) | None => XWaiting end.

Definition ctap_transmit (apdu : list Z) (detect_button_wait : bool) : cio (list Z * Z) :=
  resp ← io_map_err ctap_error (ctap_send apdu detect_button_wait);
  ctap_finish apdu resp.

#[export] Instance ctap_otp : OtpTransport CtapOtp := { otp_transmit := ctap_transmit }.
End ctaphid.

(** * Which channel the applet answers on *)

(** [ask_flag] is what the PIN-flag read gives, if the probe has to ask. *)
Definition flag_shows_pin (answer : option (list Z * Z)) : bool :=
  match answer with
  | Some (data, sw) =>
      if sw =? OK then match parse_pin_flag data with Ok f => is_set f | Err _ => false end
      else (sw =? PIN_INVALID) || (sw =? PIN_LOCKED) || (sw =? PIN_CONDITIONS_NOT_SATISFIED) || (Z.land sw 0xFF00 =? 0x6300)
  | None => false
  end.

Section probes.
Context {T : Type} `{OtpTransport T}.

Definition ask_flag : io T OtpTransportError (option (list Z * Z)) := fun t =>
  let '(r, t') := otp_transmit (read_otp_pin_flag PIN_FLAG_LC_BASE) false t in (Ok (result_ok r), t').

Definition probe_answered (sw : Z) : io T OtpTransportError bool :=
  if sw =? OK then mret true
  else if sw =? FUNCTION_NOT_SUPPORTED then flag ← ask_flag; mret (flag_shows_pin flag)
  else mret false.

Definition probe_hid : io T OtpTransportError unit :=
  '(_, sw) ← otp_transmit get_ecdh_pubkey false;
  answered ← probe_answered sw;
  if (answered : bool) then mret tt else lift (map_err XApplet (check sw)).
End probes.

Definition detect_failure_from (probe_err ccid_err : OtpTransportError) : OtpTransportError :=
  match probe_err with
  | XApplet e => XHidDeclinedAndNoCcid (status_word e) (otp_transport_error_text ccid_err)
  | _ => XNoUsableInterface
  end.

(** What a key said to a read: its answer, a refusal, or nothing. *)
Inductive KeyAnswer (A : Type) := KReply (a : A) | KDeclined | KNoAnswer.
Arguments KReply {A} a.
Arguments KDeclined {A}.
Arguments KNoAnswer {A}.

Definition ctaphid_error_answer {A} (e : HidTransportError) : KeyAnswer A :=
  match e with
  | DeviceError c =>
      if bool_decide (c ∈ [CtapHid.CTAPHID_ERR_CHANNEL_BUSY; CtapHid.CTAPHID_ERR_LOCK_REQUIRED; CtapHid.CTAPHID_ERR_MSG_TIMEOUT;
                           CtapHid.CTAPHID_ERR_INVALID_CHANNEL; CtapHid.CTAPHID_ERR_INVALID_SEQ])
      then KNoAnswer else KDeclined
  | _ => KNoAnswer
  end.
Definition after_probe (probe_declined : bool) (fallback : KeyAnswer (list Z)) : KeyAnswer (list Z) :=
  match fallback with KNoAnswer => if probe_declined then KDeclined else KNoAnswer | a => a end.
Definition serial_answer (r : result OtpTransportError (list Z * Z)) : KeyAnswer (list Z) :=
  match r with Ok (data, sw) => if sw =? OK then KReply data else KDeclined | Err _ => KNoAnswer end.

Section ctap_probe.
Local Notation pio := (io CtapOtp bool).

Definition note (what : list Z) : pio unit := fun t =>
  let d := co_dev t in
  let '(out, cap) := emit (co_debug t) (format_line Note (otp_label (s2b "CTAPHID")) what) (CtapHid.capture d) in
  (Ok tt, mkCtapOtp (CtapHid.mkDev (CtapHid.script d) (CtapHid.channel_id d) (CtapHid.timeout d) (CtapHid.hooked d) (CtapHid.written d)
     (CtapHid.trace_on d) (CtapHid.printed d ++ out) cap) (co_armed t) (co_debug t) (co_prompt t)).
Definition set_ctap_timeout (ms : Z) : pio unit :=
  io_modify (fun t => let d := co_dev t in
    mkCtapOtp (CtapHid.mkDev (CtapHid.script d) (CtapHid.channel_id d) ms (CtapHid.hooked d) (CtapHid.written d)
      (CtapHid.trace_on d) (CtapHid.printed d) (CtapHid.capture d)) (co_armed t) (co_debug t) (co_prompt t)).

(** An operation's result as a value. *)
Definition attempt {E A} (m : io CtapOtp E A) : pio (result E A) := fun t => let '(r, t') := m t in (Ok r, t').

(** The probe on an opened device; [Err declined] says whether the key itself
    refused. A call still waiting counts as no answer. *)
Definition ctap_probe : pio unit :=
  _ ← set_ctap_timeout CTAP_PROBE_TIMEOUT;
  sent ← attempt (ctap_send get_ecdh_pubkey false);
  match sent with
  | Ok resp =>
      finished ← attempt (ctap_finish get_ecdh_pubkey resp);
      match finished with
      | Ok (_, sw) =>
          answered ← attempt (probe_answered sw);
          if match answered with Ok b => b | Err _ => false end then
            _ ← (if negb (sw =? OK) then
                   note (s2b "probe answered sw=" ++ hex_word_lower sw ++
                         s2b "; the PIN-flag read shows an OTP PIN, keeping this channel")
                 else mret tt);
            set_ctap_timeout 20000
          else
            let flag_read := if sw =? FUNCTION_NOT_SUPPORTED then s2b " (the PIN-flag read shows no OTP PIN)" else [] in
            _ ← note (s2b "probe answered sw=" ++ hex_word_lower sw ++ flag_read ++ s2b "; trying report frames");
            lift (Err true)
      | Err e =>
          _ ← note (s2b "probe failed: " ++ otp_transport_error_text e ++ s2b "; trying report frames");
          lift (Err false)
      end
  | Err None => lift (Err false)
  | Err (Some e) =>
      _ ← note (s2b "probe failed: " ++ CtapHid.hid_error_text e ++ s2b "; trying report frames");
      lift (Err (match ctaphid_error_answer (A := unit) e with KDeclined => true | _ => false end))
  end.
End ctap_probe.
