(* ===== verification/Token2Session.v ===== *)
(** keyroost-transport/src/token2otp.rs, the session half: [Token2OtpSession]
    over any transport, its PIN state and every operation. Random values come
    from a stream the session draws on. *)
From S2P Require PivApdu.
From S2P Require Export Token2Wire.

(** What the operating system's generator will give. *)
Record Random `{PinCrypto} := mkRandom { rnd_secret : nat -> SecretKey; rnd_iv : nat -> list Z; rnd_drawn : nat }.

Record Token2OtpSession (T : Type) `{PinCrypto} := mkOtpSession {
  os_transport : T;
  os_is_pcsc : bool;
  os_pin_session : option SessionKeys;
  os_pin_verified : bool;
  os_typed_pin_verified : bool;
  os_pin_present : option bool;
  os_fp_present : option bool;
  os_random : Random
}.
Arguments mkOtpSession {T _} _ _ _ _ _ _ _ _.
Arguments os_transport {T _} _.
Arguments os_is_pcsc {T _} _.
Arguments os_pin_session {T _} _.
Arguments os_pin_verified {T _} _.
Arguments os_typed_pin_verified {T _} _.
Arguments os_pin_present {T _} _.
Arguments os_fp_present {T _} _.
Arguments os_random {T _} _.

Definition MAX_ENUM_PAGES : Z := 256.
Definition MAX_ENUM_ENTRIES : Z := 1024.
Definition NO_PIN_FEATURE_ANSWERS : list Z := [0x6D00; 0x6E00; 0x6A86; 0x6AF8; 0x6700].
Definition MAX_POLLS : Z := 128.

Section session.
Context {T : Type} `{OtpTransport T} `{PinCrypto}.
Local Notation sio := (io (Token2OtpSession T) OtpTransportError).

(** A fresh session on a transport: no PIN session, nothing read yet. *)
Definition wrap (transport : T) (is_pcsc : bool) (r : Random) : Token2OtpSession T :=
  mkOtpSession transport is_pcsc None false false None None r.

(** ** The state *)

Definition send (apdu : list Z) (detect : bool) : sio (list Z * Z) := fun s =>
  let '(r, t) := otp_transmit apdu detect (os_transport s) in
  (r, mkOtpSession t (os_is_pcsc s) (os_pin_session s) (os_pin_verified s) (os_typed_pin_verified s) (os_pin_present s) (os_fp_present s)
        (os_random s)).
(** A result as a value, where the code looks at it. *)
Definition try {A} (m : sio A) : sio (result OtpTransportError A) := fun s => let '(r, s') := m s in (Ok r, s').

Definition set_verified (pin typed : bool) : sio unit := io_modify (fun s =>
  mkOtpSession (os_transport s) (os_is_pcsc s) (os_pin_session s) pin typed (os_pin_present s) (os_fp_present s) (os_random s)).
Definition set_pin_session (keys : SessionKeys) : sio unit := io_modify (fun s =>
  mkOtpSession (os_transport s) (os_is_pcsc s) (Some keys) (os_pin_verified s) (os_typed_pin_verified s) (os_pin_present s)
    (os_fp_present s) (os_random s)).
Definition set_flags (pin fp : option bool) : sio unit := io_modify (fun s =>
  mkOtpSession (os_transport s) (os_is_pcsc s) (os_pin_session s) (os_pin_verified s) (os_typed_pin_verified s) pin fp (os_random s)).
Definition draw {A} (f : Random -> nat -> A) : sio A := fun s =>
  let r := os_random s in
  (Ok (f r (rnd_drawn r)),
   mkOtpSession (os_transport s) (os_is_pcsc s) (os_pin_session s) (os_pin_verified s) (os_typed_pin_verified s) (os_pin_present s)
     (os_fp_present s) (mkRandom _ (rnd_secret r) (rnd_iv r) (S (rnd_drawn r)))).
Definition draw_iv : sio (list Z) := draw rnd_iv.
Definition draw_secret : sio SecretKey := draw rnd_secret.

Definition checked (r : result OtpError unit) : sio unit := lift (map_err XApplet r).
Definition encoded (apdu : option (list Z)) : sio (list Z) := lift (ok_or XPanic apdu).
Definition sealed {A} (r : result EncryptError A) : sio A := lift (map_err XEncrypt r).
Definition parsed {A} (r : result ParseError A) : sio A := lift (map_err XParse r).
Definition session_keys : sio SessionKeys := s ← io_gets os_pin_session; lift (ok_or XPinSessionMissing s).

(** ** Reading entries *)

Definition maybe_decrypt_page (data : list Z) : sio (list Z) :=
  verified ← io_gets os_pin_verified;
  if negb verified then mret data else
  keys ← session_keys;
  if zlen data <? 16 + 16 + 16 then lift (Err (XParse Truncated)) else
  let '(iv, rest) := split_at 16 data in
  let '(enc, auth) := split_at (zlen rest - 16) rest in
  _ ← sealed (verify_auth_tag (sk_mac keys) enc auth);
  sealed (session_decrypt (sk_enc keys) iv enc).

(** The loop over the pages after the first. *)
Fixpoint enum_loop (fuel : nat) (timestamp : Z) (pages : Z) (entries : list Entry) (more : bool) : sio (list Entry) :=
  if negb more then mret entries else
  match fuel with
  | O => lift (Err XEnumerationCapExceeded)
  | S fuel =>
      let pages := pages + 1 in
      if (MAX_ENUM_PAGES <? pages) || (MAX_ENUM_ENTRIES <? zlen entries) then lift (Err XEnumerationCapExceeded) else
      cont ← encoded (build_apdu ENUM_CODES_CONTINUE (to_be 8 timestamp));
      '(data, sw) ← send cont false;
      _ ← checked (check sw);
      data ← maybe_decrypt_page data;
      page ← parsed (parse_enum_page data);
      enum_loop fuel timestamp pages (entries ++ p_entries page) (p_more page)
  end.
Definition enum_fuel : nat := Z.to_nat MAX_ENUM_PAGES.

Definition enumerate (timestamp : Z) : sio (list Entry) :=
  first ← encoded (build_apdu ENUM_CODES (serialize_enum_all timestamp));
  '(data, sw) ← send first false;
  match check sw with
  | Err e => if is_empty_token e then mret [] else lift (Err (XApplet e))
  | Ok _ =>
      data ← maybe_decrypt_page data;
      page ← parsed (parse_enum_page data);
      entries ← enum_loop enum_fuel timestamp 1 (p_entries page) (p_more page);
      if MAX_ENUM_ENTRIES <? zlen entries then lift (Err XEnumerationCapExceeded) else mret entries
  end.

Definition read_entry (timestamp : Z) (app account : list Z) : sio Entry :=
  body ← parsed (serialize_read_entry timestamp app account);
  apdu ← encoded (build_apdu ENUM_CODES body);
  '(data, sw) ← send apdu true;
  _ ← checked (check sw);
  parsed (parse_read_one data).

(** ** The PIN *)

Definition pin_status : sio (option PinFlag) :=
  '(data, sw) ← send (read_otp_pin_flag PIN_FLAG_LC_BASE) false;
  flag ← (if sw =? OK then mret (result_ok (parse_pin_flag data))
          else if bool_decide (sw ∈ NO_PIN_FEATURE_ANSWERS) then mret None
          else _ ← checked (check sw); mret None);
  _ ← set_flags (is_set <$> flag) (fp_enable <$> flag);
  mret flag.

Definition pin_is_set : sio bool := flag ← pin_status; mret (match flag with Some f => is_set f | None => false end).

Definition open_session : sio unit :=
  '(_, psw) ← send (read_otp_pin_flag PIN_FLAG_LC_PRIME) false;
  _ ← checked (check psw);
  secret ← draw_secret;
  let agreement := host_agreement_new secret in
  apdu ← encoded (read_agreement_pubkey (ha_public_xy agreement));
  '(data, sw) ← send apdu false;
  _ ← checked (check sw);
  if zlen data <? 64 then lift (Err (XParse Truncated)) else
  keys ← sealed (establish_session agreement (take 64 data));
  _ ← set_pin_session keys;
  set_verified false false.

Definition ensure_session : sio unit :=
  s ← io_gets os_pin_session;
  match s with Some _ => mret tt | None => open_session end.

Definition set_pin (pin : list Z) : sio unit :=
  _ ← ensure_session;
  keys ← session_keys;
  iv ← draw_iv;
  data ← sealed (build_set_pin_data keys iv pin PIN_DEFAULT_MAX_RETRY);
  apdu ← encoded (build_apdu SET_OTP_PIN data);
  '(_, sw) ← send apdu false;
  checked (check_new_pin sw).

(** The challenge a verify or a change reads first, and the block inside it. *)
Definition challenge_flag : sio PinFlag :=
  '(data, sw) ← send (read_otp_pin_flag PIN_FLAG_LC_CHALLENGE) false;
  _ ← checked (check_pin sw);
  parsed (parse_pin_flag data).
Definition challenge_rand (flag : PinFlag) : sio (SessionKeys * list Z) :=
  '(iv, enc_rand) ← lift (ok_or (XParse Truncated) (challenge flag));
  keys ← session_keys;
  let rand := session_decrypt_raw (sk_enc keys) iv enc_rand in
  if negb (zlen rand =? 16) then lift (Err (XEncrypt BadCiphertext)) else mret (keys, rand).

Definition verify_pin (pin : list Z) : sio unit :=
  _ ← ensure_session;
  flag ← challenge_flag;
  if negb (is_set flag) then lift (Err XPinRequired) else
  '(keys, rand) ← challenge_rand flag;
  iv ← draw_iv;
  data ← sealed (build_verify_pin_data keys iv pin rand);
  apdu ← encoded (build_apdu VERIFY_OTP_PIN data);
  '(_, sw) ← send apdu false;
  _ ← checked (check_pin sw);
  set_verified true true.

Definition change_pin_inner (current : list Z) (new : option (list Z)) : sio unit :=
  _ ← ensure_session;
  flag ← challenge_flag;
  '(keys, rand) ← challenge_rand flag;
  iv ← draw_iv;
  data ← sealed (build_change_pin_data keys iv (default [] new) current rand);
  apdu ← encoded (build_apdu CHANGE_OTP_PIN data);
  '(_, sw) ← send apdu false;
  _ ← checked (match new with Some _ => check_new_pin sw | None => check_pin sw end);
  set_verified false false.
Definition change_pin (current new : list Z) : sio unit := change_pin_inner current (Some new).
Definition remove_pin (current : list Z) : sio unit := change_pin_inner current None.

Definition lock_pin : sio unit :=
  '(_, sw) ← send lock_otp_pin false;
  _ ← checked (check sw);
  set_verified false false.

(** ** The fingerprint *)

Fixpoint poll_loop (fuel : nat) (polls sw : Z) : sio Z :=
  if negb (sw =? 0x9100) then mret sw else
  match fuel with
  | O => lift (Err XFingerprintTimeout)
  | S fuel =>
      if MAX_POLLS <=? polls then lift (Err XFingerprintTimeout) else
      '(_, next) ← send fingerprint_poll false;
      poll_loop fuel (polls + 1) next
  end.

Definition verify_fingerprint_touch : sio unit :=
  _ ← ensure_session;
  '(_, sw) ← send verify_fingerprint false;
  sw ← poll_loop (S (Z.to_nat MAX_POLLS)) 0 sw;
  _ ← (if negb (sw =? 0x9000) then
         if sw =? 0x6FFA then lift (Err XFingerprintTimeout) else checked (check_pin sw)
       else mret tt);
  typed ← io_gets os_typed_pin_verified;
  set_verified true typed.

Definition fp_supported : sio (option bool) :=
  '(data, sw) ← send (read_otp_pin_flag PIN_FLAG_LC_PRIME) false;
  match check_pin sw with
  | Err _ => mret None
  | Ok _ => flag ← parsed (parse_pin_flag data); mret (Some (fp_enable flag))
  end.
Definition fp_is_enabled : sio bool := s ← fp_supported; mret (default false s).

Definition unlock_fp_or_pin (pin : option (list Z)) (allow_fp : bool) : sio UnlockMethod :=
  fp ← try fp_is_enabled;
  let fp_on := match fp with Ok b => b | Err _ => false end in
  if allow_fp && fp_on then
    r ← try verify_fingerprint_touch;
    match r, pin with
    | Ok _, _ => mret UFingerprint
    | Err _, Some p => _ ← verify_pin p; mret UPin
    | Err e, None => lift (Err e)
    end
  else
    match pin with Some p => _ ← verify_pin p; mret UPin | None => lift (Err XPinRequired) end.

Definition set_fp_protection (pin : list Z) (enable : bool) : sio unit :=
  _ ← ensure_session;
  flag ← challenge_flag;
  if negb (is_set flag) then lift (Err XPinRequired) else
  '(keys, rand) ← challenge_rand flag;
  iv ← draw_iv;
  data ← sealed (build_verify_pin_data_with_config keys iv pin rand enable);
  apdu ← encoded (build_apdu VERIFY_OTP_PIN data);
  '(_, sw) ← send apdu false;
  if enable && (sw =? 0x6984) then lift (Err XNoFingerprintEnrolled) else
  _ ← checked (check_pin sw);
  set_verified true true.

(** ** Writing entries *)

Definition seal (cleartext iv : list Z) : sio (list Z) :=
  verified ← io_gets os_pin_verified;
  if (verified : bool) then
    keys ← (s ← io_gets os_pin_session; lift (ok_or (XParse Truncated) s));
    iv ← draw_iv;
    mret (build_protected_write_data keys iv cleartext)
  else
    '(device_pub, sw) ← send get_ecdh_pubkey false;
    _ ← checked (check sw);
    secret ← draw_secret;
    sealed (encrypt_seed_payload secret device_pub cleartext iv).

(** A sealed write under a header. *)
Definition seal_and_send (header cleartext iv : list Z) : sio unit :=
  blob ← seal cleartext iv;
  apdu ← encoded (build_apdu header blob);
  '(_, sw) ← send apdu false;
  checked (check sw).

Definition write_entry (e : WriteEntry) : sio unit :=
  cleartext ← parsed (serialize_write_entry e);
  seal_and_send WRITE_SEED cleartext IV_OTP.
Definition delete_entry (app account : list Z) : sio unit :=
  cleartext ← parsed (serialize_delete_entry app account);
  seal_and_send WRITE_SEED cleartext IV_OTP.

(** Verifying the PIN first, when the key has one. *)
Definition unlock_if_pinned (pin : option (list Z)) : sio unit :=
  set ← pin_is_set;
  if (set : bool) then match pin with Some p => verify_pin p | None => lift (Err XPinRequired) end else mret tt.
Definition unlock_unless_verified (pin : option (list Z)) : sio unit :=
  verified ← io_gets os_pin_verified;
  if (verified : bool) then mret tt else unlock_if_pinned pin.

Definition enumerate_pinned (timestamp : Z) (pin : option (list Z)) : sio (list Entry) :=
  _ ← unlock_if_pinned pin; enumerate timestamp.
Definition write_entry_pinned (e : WriteEntry) (pin : option (list Z)) : sio unit :=
  _ ← unlock_unless_verified pin; write_entry e.
Definition delete_entry_pinned (app account : list Z) (pin : option (list Z)) : sio unit :=
  _ ← unlock_unless_verified pin; delete_entry app account.

Definition session_erase_all : sio unit :=
  pcsc ← io_gets os_is_pcsc;
  apdu ← (if (pcsc : bool) then encoded erase_all else mret erase_all_usb);
  '(_, sw) ← send apdu true;
  checked (check sw).

(** ** The button's HOTP slot and the key's configuration *)

Definition config_byte (header : list Z) (byte : Z) : sio unit :=
  apdu ← encoded (build_apdu header [byte]);
  '(_, sw) ← send apdu false;
  checked (check sw).

Definition set_button_hotp_options (send_enter long_touch numpad : bool) : sio unit :=
  _ ← config_byte CFG_HOTP_ENTER (button_byte (negb send_enter));
  _ ← config_byte CFG_HOTP_TOUCH (button_byte long_touch);
  config_byte CFG_HOTP_KBD_TYPE (button_byte numpad).

Definition set_button_hotp (code_length : Z) (seed : list Z) (send_enter long_touch numpad : bool) : sio unit :=
  if negb (code_length =? 6) && negb (code_length =? 8) then
    lift (Err (XParse (Invalid (s2b "button HOTP code_length must be 6 or 8")))) else
  _ ← lift (map_err (fun m => XParse (Invalid m)) (validate_seed_len (zlen seed)));
  _ ← seal_and_send WRITE_HOTP_SEED ([code_length; cast 8 (zlen seed)] ++ seed) IV_HOTP;
  set_button_hotp_options send_enter long_touch numpad.
Definition delete_button_hotp : sio unit := seal_and_send WRITE_HOTP_SEED [0x00; 0x00] IV_HOTP.

Definition session_set_device_type (disable_mask : Z) : sio unit :=
  apdu ← lift (map_err (fun _ => XParse (Invalid (s2b "refusing to disable every interface (would brick the key)")))
                 (set_device_type disable_mask));
  apdu ← encoded apdu;
  '(_, sw) ← send apdu false;
  checked (check sw).

Definition session_read_config : sio (list Z) :=
  pcsc ← io_gets os_is_pcsc;
  if (pcsc : bool) then
    '(data, sw) ← send (read_config 64) false;
    _ ← checked (check sw);
    mret data
  else
    '(data, sw) ← send (read_config_usb 64) false;
    _ ← checked (check sw);
    if 1 <? zlen data then mret data else
    r ← try (send (read_config_usb_padded 64) false);
    mret (match r with
          | Ok (padded, sw) => if is_ok (check sw) && (zlen data <? zlen padded) then padded else data
          | Err _ => data
          end).
Definition read_device_info : sio DeviceInfo := data ← session_read_config; parsed (parse_device_info data).

Definition session_read_serial : sio (list Z) :=
  pcsc ← io_gets os_is_pcsc;
  let reselect aid := if (pcsc : bool) then sel ← encoded (build_select aid); _ ← try (send sel false); mret tt else mret tt in
  _ ← reselect FIDO_APPLET_AID;
  request ← encoded read_serial_request;
  serial ← try (send request false);
  _ ← reselect OTP_APPLET_AID;
  '(data, sw) ← lift serial;
  if negb (is_ok (check sw)) then lift (Err XSerialUnavailable) else parsed (parse_serial data).
End session.

Definition otp_type_str (t : OtpType) : list Z := match t with Hotp => s2b "HOTP" | Totp => s2b "TOTP" end.

(** Through another applet's card handle; building either request cannot fail. *)
Definition read_otp_applet_serial {S E} (tx : list Z -> io S E (list Z * Z)) (s : S) : option Z * S :=
  match PivApdu.select_by_aid OTP_APPLET_AID, read_serial_request with
  | Some select, Some request =>
      match tx select s with
      | (Ok (_, sw), s) =>
          if negb (sw =? 0x9000) then (None, s) else
          match tx request s with
          | (Ok (data, sw), s) => (if negb (sw =? 0x9000) then None else result_ok (parse_otp_serial data), s)
          | (Err _, s) => (None, s)
          end
      | (Err _, s) => (None, s)
      end
  | _, _ => (None, s)
  end.
