(* ===== verification/Token2Safe.v ===== *)
(** What holds of a Token2 OTP session whatever the key answers: its PIN state
    is consistent after any calls, the work a key can make it do is bounded,
    and no secret or name it sends reaches the trace. *)
From S2P Require Export Token2Session.

(** * The calls a front end makes *)

Inductive SessionCall :=
  | CEnumerate (t : Z) | CReadEntry (t : Z) (ap ac : list Z)
  | CPinStatus | COpenSession | CSetPin (p : list Z) | CVerifyPin (p : list Z) | CChangePin (current new : list Z)
  | CRemovePin (current : list Z) | CLockPin
  | CVerifyFingerprint | CFpSupported | CUnlockFpOrPin (pin : option (list Z)) (allow_fp : bool) | CSetFpProtection (p : list Z) (enable : bool)
  | CUnlockIfPinned (pin : option (list Z)) | CEnumeratePinned (t : Z) (pin : option (list Z))
  | CWriteEntry (e : WriteEntry) | CWriteEntryPinned (e : WriteEntry) (pin : option (list Z))
  | CDeleteEntry (ap ac : list Z) | CDeleteEntryPinned (ap ac : list Z) (pin : option (list Z)) | CEraseAll
  | CSetButtonHotp (code_length : Z) (seed : list Z) (send_enter long_touch numpad : bool)
  | CSetButtonHotpOptions (send_enter long_touch numpad : bool) | CDeleteButtonHotp
  | CSetDeviceType (mask : Z) | CReadConfig | CReadDeviceInfo | CReadSerial.

Section calls.
Context {T : Type} `{OtpTransport T} `{PinCrypto}.
Local Notation sio := (io (Token2OtpSession T) OtpTransportError).

Definition ignore {A} (m : sio A) : sio unit := _ ← m; mret tt.

Definition run_call (c : SessionCall) : sio unit :=
  match c with
  | CEnumerate t => ignore (enumerate t)
  | CReadEntry t ap ac => ignore (read_entry t ap ac)
  | CPinStatus => ignore pin_status
  | COpenSession => open_session
  | CSetPin p => set_pin p
  | CVerifyPin p => verify_pin p
  | CChangePin current new => change_pin current new
  | CRemovePin current => remove_pin current
  | CLockPin => lock_pin
  | CVerifyFingerprint => verify_fingerprint_touch
  | CFpSupported => ignore fp_supported
  | CUnlockFpOrPin pin allow_fp => ignore (unlock_fp_or_pin pin allow_fp)
  | CSetFpProtection p enable => set_fp_protection p enable
  | CUnlockIfPinned pin => unlock_if_pinned pin
  | CEnumeratePinned t pin => ignore (enumerate_pinned t pin)
  | CWriteEntry e => write_entry e
  | CWriteEntryPinned e pin => write_entry_pinned e pin
  | CDeleteEntry ap ac => delete_entry ap ac
  | CDeleteEntryPinned ap ac pin => delete_entry_pinned ap ac pin
  | CEraseAll => session_erase_all
  | CSetButtonHotp n seed a b c => set_button_hotp n seed a b c
  | CSetButtonHotpOptions a b c => set_button_hotp_options a b c
  | CDeleteButtonHotp => delete_button_hotp
  | CSetDeviceType mask => session_set_device_type mask
  | CReadConfig => ignore session_read_config
  | CReadDeviceInfo => ignore read_device_info
  | CReadSerial => ignore session_read_serial
  end.

End calls.

(** A built command starts with its header. *)
Lemma built_head h d apdu : length h = 4%nat -> build_apdu h d = Some apdu -> take 4 apdu = h.
Proof.
  intros Hh Hb. unfold build_apdu in Hb. destruct (_ <? _); [done|]. injection Hb as <-. by rewrite take_app_le, take_ge by lia.
Qed.

(** * What the key accepted *)

(** A transport that writes down what was sent and answered, newest first. *)
Definition Exchange : Type := list Z * result OtpTransportError (list Z * Z).
Record Logged (T : Type) := mkLogged { lg_transport : T; lg_log : list Exchange }.
Arguments mkLogged {T} _ _.
Arguments lg_transport {T} _.
Arguments lg_log {T} _.
#[export] Instance logged_transport {T} `{OtpTransport T} : OtpTransport (Logged T) := {
  otp_transmit apdu detect := fun l =>
    let '(r, t) := otp_transmit apdu detect (lg_transport l) in (r, mkLogged t ((apdu, r) :: lg_log l))
}.

Definition accepted (e : Exchange) : bool := match e.2 with Ok (_, sw) => sw =? OK | Err _ => false end.
(** The commands after which the key's window is closed. *)
Definition closes (apdu : list Z) : bool := bool_decide (apdu = lock_otp_pin) || bool_decide (take 4 apdu = CHANGE_OTP_PIN).
Definition touches (apdu : list Z) : bool := bool_decide (apdu = verify_fingerprint) || bool_decide (apdu = fingerprint_poll).

(** What the key showed so far: whether its window was opened, and whether with
    a PIN, since it last accepted a lock or a change of PIN. *)
Definition hear (e : Exchange) (h : bool * bool) : bool * bool :=
  if negb (accepted e) then h
  else if closes e.1 then (false, false)
  else if touches e.1 then (true, h.2)
  else if bool_decide (take 4 e.1 = VERIFY_OTP_PIN) then (true, true)
  else h.
Definition heard (log : list Exchange) : bool * bool := foldr hear (false, false) log.

Lemma hear_keeps e h : closes e.1 = false -> (h.1 = true -> (hear e h).1 = true) /\ (h.2 = true -> (hear e h).2 = true).
Proof. intros Hc. unfold hear. rewrite Hc. by repeat case_match; destruct h. Qed.

Section state.
Context {T : Type} `{OtpTransport T} `{PinCrypto}.
Local Notation S := (Token2OtpSession (Logged T)).
Local Notation sio := (io S OtpTransportError).

Definition log (s : S) : list Exchange := lg_log (os_transport s).

(** The sessions some sequence of calls leads to; the system gives IVs of 16 bytes. *)
Inductive reachable : S -> Prop :=
  | r_wrap t pcsc r : (forall n, zlen (rnd_iv r n) = 16) -> reachable (wrap (mkLogged t []) pcsc r)
  | r_call c s : reachable s -> reachable (run_call c s).2.

(** * The PIN state *)

Definition missing {A} (r : result OtpTransportError A) : Prop := r = Err XPinSessionMissing.

(** Consistent; and, where [ready], with session keys. *)
Record consistent (ready : bool) (s : S) : Prop := {
  co_typed : os_typed_pin_verified s = true -> os_pin_verified s = true;
  co_keys : os_pin_verified s = true \/ ready = true -> os_pin_session s <> None;
  co_window : os_pin_verified s = true -> (heard (log s)).1 = true;
  co_proof : os_typed_pin_verified s = true -> (heard (log s)).2 = true;
  co_ivs : forall n, zlen (rnd_iv (os_random s) n) = 16
}.

(** From a state of the first kind [m] leaves a consistent one and finds the
    keys it looks for, and when it returns, a state of the second kind. *)
Definition keeps {A} (b b' : bool) (m : sio A) : Prop := forall s, consistent b s ->
  let '(r, s') := m s in consistent false s' /\ ~ missing r /\ (is_ok r = true -> consistent b' s').

Hypothesis wire_errors : forall apdu detect t, ~ missing (otp_transmit (T := T) apdu detect t).1.

Lemma consistent_false b s : consistent b s -> consistent false s.
Proof. intros [Ht Hk Hw Hp Hi]. split; try done. intros [Hv|]; [|done]. apply Hk. by left. Qed.

Lemma keeps_bind {A B} b c d (m : sio A) (f : A -> sio B) :
  keeps b c m -> (forall a, keeps c d (f a)) -> keeps b d (m ≫= f).
Proof.
  intros Hm Hf s Hs. specialize (Hm s Hs). unfold mbind, io_bind. destruct (m s) as [[a|e] s1].
  - destruct Hm as (_ & _ & Hc). apply (Hf a s1 (Hc eq_refl)).
  - destruct Hm as (Hb & Hm & _). split; [done|]. split; [|done]. intros E. apply Hm. by injection E as ->.
Qed.
Lemma keeps_weak {A} b b' (m : sio A) : keeps b b' m -> keeps b false m.
Proof. intros Hm s Hs. specialize (Hm s Hs). destruct (m s) as [r s'].
  destruct Hm as (Hc & Hr & Hb). split; [done|]. split; [done|]. intros Hok. by eapply consistent_false, Hb. Qed.
(** An operation that leaves the PIN state alone. *)
Definition pin_state (s : S) := (os_pin_session s, os_pin_verified s, os_typed_pin_verified s, log s, rnd_iv (os_random s)).
Lemma consistent_state b s s' : pin_state s' = pin_state s -> consistent b s -> consistent b s'.
Proof. unfold pin_state. intros [= E1 E2 E3 E4 E5] [Ht Hk Hw Hp Hi]. split; rewrite ?E1, ?E2, ?E3, ?E4, ?E5; auto. Qed.
Lemma keeps_state {A} b (m : sio A) : (forall s, pin_state (m s).2 = pin_state s /\ ~ missing (m s).1) -> keeps b b m.
Proof.
  intros Hm s Hs. destruct (Hm s) as [Hp Hr]. destruct (m s) as [r s']. cbn [fst snd] in *.
  pose proof (consistent_state b _ _ Hp Hs) as Hc. split; [by eapply consistent_false|]. by split.
Qed.

(** One command: its answer is written down and nothing else changes. *)
Lemma send_step apdu detect (s : S) :
  exists r s', send apdu detect s = (r, s') /\ ~ missing r /\ log s' = (apdu, r) :: log s /\
    os_pin_session s' = os_pin_session s /\ os_pin_verified s' = os_pin_verified s /\
    os_typed_pin_verified s' = os_typed_pin_verified s /\ os_random s' = os_random s.
Proof.
  unfold send, log. cbn [otp_transmit logged_transport]. pose proof (wire_errors apdu detect (lg_transport (os_transport s))) as Hw.
  destruct (otp_transmit apdu detect (lg_transport (os_transport s))) as [r t]. by eexists _, _.
Qed.
Lemma send_consistent b apdu detect (s : S) :
  consistent b s -> (closes apdu = false \/ accepted (apdu, (send apdu detect s).1) = false) -> consistent b (send apdu detect s).2.
Proof.
  destruct (send_step apdu detect s) as (r & s' & -> & _ & Hl & E1 & E2 & E3 & E4). cbn [fst snd]. intros [Ht Hk Hw Hp Hi] Hc.
  assert (((heard (log s)).1 = true -> (heard (log s')).1 = true) /\ ((heard (log s)).2 = true -> (heard (log s')).2 = true)) as [H1 H2].
  { rewrite Hl. cbn [heard foldr]. destruct Hc as [Hc|Hc]; [by apply hear_keeps|]. unfold hear. by rewrite Hc. }
  split; rewrite ?E1, ?E2, ?E3, ?E4; auto.
Qed.
Lemma keeps_send b apdu detect : closes apdu = false -> keeps b b (send apdu detect).
Proof.
  intros Hc s Hs. pose proof (send_consistent b apdu detect s Hs (or_introl Hc)) as H1.
  destruct (send_step apdu detect s) as (r & s' & Es & Hm & _). rewrite Es in *. cbn [snd] in H1.
  split; [by eapply consistent_false|]. by split.
Qed.
Lemma keeps_draw {A} b (f : Random -> nat -> A) : keeps b b (draw f).
Proof. by apply keeps_state. Qed.
Lemma keeps_ret {A} b (a : A) : keeps b b (mret a).
Proof. by apply keeps_state. Qed.
Lemma keeps_gets {A} b (f : S -> A) : keeps b b (io_gets f).
Proof. by apply keeps_state. Qed.
Lemma keeps_flags b p f : keeps b b (set_flags p f).
Proof. by apply keeps_state. Qed.
Lemma keeps_lift {A} b (r : result OtpTransportError A) : ~ missing r -> keeps b b (lift r).
Proof. intros Hr. by apply keeps_state. Qed.
Lemma keeps_err {A} b b' e : e <> XPinSessionMissing -> keeps (A := A) b b' (lift (Err e)).
Proof. intros He s Hs. cbn. split; [by eapply consistent_false|]. split; [|done]. unfold missing. congruence. Qed.
Lemma keeps_checked b r : keeps b b (checked r).
Proof. apply keeps_lift. by destruct r. Qed.
Lemma keeps_encoded b o : keeps b b (encoded o).
Proof. apply keeps_lift. by destruct o. Qed.
Lemma keeps_sealed {A} b (r : result EncryptError A) : keeps b b (sealed r).
Proof. apply keeps_lift. by destruct r. Qed.
Lemma keeps_parsed {A} b (r : result ParseError A) : keeps b b (parsed r).
Proof. apply keeps_lift. by destruct r. Qed.

Lemma keeps_keys : keeps true true session_keys.
Proof.
  intros s Hs. unfold session_keys. rewrite io_gets_bind.
  destruct (os_pin_session s) as [keys|] eqn:E; [|by destruct (co_keys _ _ Hs); [right|]]. cbn. split; [by eapply consistent_false|]. done.
Qed.
Lemma keeps_closed b : keeps b b (set_verified false false).
Proof.
  intros s [Ht Hk Hw Hp Hi]. unfold set_verified, io_modify.
  assert (consistent b (mkOtpSession (os_transport s) (os_is_pcsc s) (os_pin_session s) false false (os_pin_present s) (os_fp_present s) (os_random s))) as Hc.
  { split; try done. cbn. intros [|Hb]; [done|]. apply Hk. by right. }
  split; [by eapply consistent_false|]. by split.
Qed.

Lemma keeps_install b keys : keeps b true (_ ← set_pin_session keys; set_verified false false).
Proof. intros s Hs. unfold set_pin_session, set_verified. rewrite io_modify_bind. cbn. by repeat split; try apply Hs. Qed.

(** ** Opening and closing the window *)

(** The window is marked as the key showed it. *)
Lemma marked v t (s : S) :
  consistent true s -> (t = true -> v = true) -> (v = true -> (heard (log s)).1 = true) -> (t = true -> (heard (log s)).2 = true) ->
  let s' := (set_verified v t s).2 in consistent true s' /\ consistent false s'.
Proof.
  intros [_ Hk _ _ Hi] Ht Hv Hp. enough (consistent true (set_verified v t s).2) as Hc by (split; [done|by eapply consistent_false]).
  split; try done. cbn. intros _. apply Hk. by right.
Qed.

(** A command that closes the key's window, and the session's once accepted. *)
Lemma keeps_closing b apdu detect (chk : Z -> result OtpError unit) :
  (forall sw, chk sw = Ok tt -> sw = OK) -> (forall sw, sw = OK -> chk sw = Ok tt) ->
  keeps b b ('(_, sw) ← send apdu detect; _ ← checked (chk sw); set_verified false false).
Proof.
  intros Hchk Hok s Hs. pose proof (send_consistent b apdu detect s Hs) as Hc.
  destruct (send_step apdu detect s) as (r & s' & Es & Hm & Hl & E1 & E2 & E3 & E4). rewrite Es in Hc. cbn [fst snd] in Hc.
  destruct r as [[data sw]|e]; [|rewrite (io_bind_Err_eq _ _ _ _ _ Es); specialize (Hc (or_intror eq_refl));
    split; [by eapply consistent_false|]; split; [|done]; intros E; apply Hm; by injection E as ->].
  rewrite (io_bind_Ok_eq _ _ _ _ _ Es). destruct (chk sw) as [[]|e] eqn:E.
  - unfold checked. cbn [map_err]. rewrite io_lift_bind. unfold set_verified, io_modify.
    match goal with |- consistent false ?s2 /\ _ => enough (consistent b s2) as Hb by (split; [by eapply consistent_false|by split]) end.
    split; cbn; try done; [|rewrite E4; apply Hs]. intros [|Hb]; [done|]. rewrite E1. apply (co_keys _ _ Hs). by right.
  - assert (accepted (apdu, Ok (data, sw)) = false) as Hna.
    { cbn. apply Z.eqb_neq. intros Hsw. by rewrite (Hok sw Hsw) in E. }
    specialize (Hc (or_intror Hna)). cbn. split; [by eapply consistent_false|]. by split.
Qed.

(** A proof of the PIN the key accepted opens the window. *)
Lemma keeps_proving apdu detect (f : Z -> sio unit) :
  closes apdu = false -> touches apdu = false -> take 4 apdu = VERIFY_OTP_PIN ->
  f OK = set_verified true true -> (forall sw, sw <> OK -> keeps true true (f sw)) ->
  keeps true true ('(_, sw) ← send apdu detect; f sw).
Proof.
  intros Hcl Hto Hv Hf Hne s Hs. pose proof (send_consistent true apdu detect s Hs (or_introl Hcl)) as Hc.
  destruct (send_step apdu detect s) as (r & s' & Es & Hm & Hl & _). rewrite Es in Hc. cbn [snd] in Hc.
  destruct r as [[data sw]|e]; [|rewrite (io_bind_Err_eq _ _ _ _ _ Es);
    split; [by eapply consistent_false|]; split; [|done]; intros E; apply Hm; by injection E as ->].
  rewrite (io_bind_Ok_eq _ _ _ _ _ Es). destruct (decide (sw = OK)) as [->|Hsw]; [|by apply Hne].
  assert (heard (log s') = (true, true)) as Hh.
  { rewrite Hl. cbn [heard foldr]. unfold hear. cbn [fst snd]. change (accepted (apdu, Ok (data, OK))) with true. cbv iota.
    by rewrite Hcl, Hto, bool_decide_true. }
  rewrite Hf. destruct (marked true true s' Hc) as [H1 H2]; by rewrite ?Hh.
Qed.

Create HintDb keeps.
#[local] Hint Resolve keeps_draw keeps_ret keeps_gets keeps_flags keeps_checked keeps_encoded keeps_sealed keeps_parsed
  keeps_keys keeps_install : keeps.
#[local] Hint Extern 1 (keeps _ _ (lift (Err _))) => (apply keeps_err; done) : keeps.
#[local] Hint Extern 1 (keeps _ _ (lift (map_err _ ?r))) => (apply keeps_lift; by destruct r) : keeps.
#[local] Hint Extern 2 (keeps _ _ (lift _)) => (apply keeps_lift; done) : keeps.

(** A command of another header closes nothing. *)
Lemma built_closes h d apdu :
  build_apdu h d = Some apdu -> length h = 4%nat -> h <> VERIFY_OTP_PIN -> h <> CHANGE_OTP_PIN -> closes apdu = false.
Proof.
  intros Hb Hl Hv Hc. pose proof (built_head h d apdu Hl Hb) as Ht. unfold closes.
  rewrite !bool_decide_false; [done|by rewrite Ht|]. intros ->. by rewrite <- Ht in Hv.
Qed.
Lemma select_closes aid apdu : build_select aid = Some apdu -> closes apdu = false.
Proof. unfold build_select. destruct (_ && _); [|done]. by intros [= <-]. Qed.
#[local] Hint Extern 1 (keeps _ _ (send _ _)) => (apply keeps_send;
  first [reflexivity | assumption
        | match goal with E : _ = Some ?a |- closes ?a = false => first [eapply select_closes, E | eapply built_closes; [exact E|done..]] end]) : keeps.

Lemma keeps_built {A} b d o (f : list Z -> sio A) :
  (forall apdu, o = Some apdu -> keeps b d (f apdu)) -> keeps b d (encoded o ≫= f).
Proof. intros Hf. unfold encoded. destruct o as [apdu|]; [by apply Hf|]. by apply keeps_err. Qed.

(** Through the body: one bind, pair or branch at a time. *)
Ltac keep :=
  cbv zeta;
  match goal with
  | |- keeps _ _ (encoded _ ≫= _) => apply keeps_built; let a := fresh "apdu" in let E := fresh "Hapdu" in intros a E; keep
  | |- keeps _ _ (_ ≫= _) => first [solve [eauto with keeps] | eapply keeps_bind; [solve [eauto with keeps | keep]|intros ?; keep]]
  | |- keeps _ _ (if ?b then _ else _) => destruct b; keep
  | |- keeps _ _ (match ?x with _ => _ end) => destruct x; keep
  | |- keeps _ _ _ => first [solve [eauto with keeps | eapply keeps_weak; eauto with keeps] | idtac]
  end.

Lemma keeps_open b : keeps b true open_session.
Proof. unfold open_session, draw_secret. keep. Qed.
#[local] Hint Resolve keeps_open : keeps.
Lemma keeps_ensure b : keeps b true ensure_session.
Proof.
  unfold ensure_session. intros s Hs. rewrite io_gets_bind. destruct (os_pin_session s) as [k|] eqn:E; [|by apply (keeps_open b)].
  cbn. split; [by eapply consistent_false|]. split; [done|]. intros _. destruct Hs as [Ht _ Hw Hp Hi]. split; try done. intros _. by rewrite E.
Qed.
Lemma keeps_challenge b : keeps b b challenge_flag.
Proof. unfold challenge_flag. keep. Qed.
Lemma keeps_rand flag : keeps true true (challenge_rand flag).
Proof.
  unfold challenge_rand. eapply keeps_bind; [apply keeps_lift; by destruct (challenge flag)|]. intros ?. keep.
Qed.
#[local] Hint Resolve keeps_ensure keeps_challenge keeps_rand keeps_closed : keeps.
#[local] Hint Unfold draw_iv draw_secret : keeps.

(** The end of a PIN proof: sealed under a fresh IV, sent, marked once accepted. *)
Lemma proof_command iv d apdu :
  zlen iv = 16 -> build_apdu VERIFY_OTP_PIN (iv ++ d) = Some apdu ->
  closes apdu = false /\ touches apdu = false /\ take 4 apdu = VERIFY_OTP_PIN.
Proof.
  intros Hi Hb. pose proof (built_head VERIFY_OTP_PIN (iv ++ d) apdu eq_refl Hb) as Ht. pose proof (zlen_nonneg d).
  assert (6 < zlen apdu) as Hl.
  { unfold build_apdu in Hb. destruct (_ <? _); [done|]. rewrite (proj2 (Z.ltb_lt 0 _)) in Hb by (zlen; lia). injection Hb as <-.
    unfold VERIFY_OTP_PIN. destruct (_ <=? _); zlen; lia. }
  split_and!; [| |done]; unfold closes, touches; rewrite ?Ht; rewrite !bool_decide_false; try done; by intros ->.
Qed.
Lemma keeps_iv {A} b d (f : list Z -> sio A) : (forall iv, zlen iv = 16 -> keeps b d (f iv)) -> keeps b d (draw_iv ≫= f).
Proof. intros Hf s Hs. apply (Hf _ (co_ivs _ _ Hs (rnd_drawn (os_random s)))). by eapply consistent_state, Hs. Qed.
Lemma keeps_proof (build : list Z -> result EncryptError (list Z)) (f : Z -> sio unit) :
  (forall iv d, build iv = Ok d -> exists t, d = iv ++ t) ->
  f OK = set_verified true true -> (forall sw, sw <> OK -> keeps true true (f sw)) ->
  keeps true true (iv ← draw_iv; data ← sealed (build iv); apdu ← encoded (build_apdu VERIFY_OTP_PIN data);
                   '(_, sw) ← send apdu false; f sw).
Proof.
  intros Hb Hf Hne. apply keeps_iv. intros iv Hiv.
  destruct (build iv) as [data|e] eqn:Ed; [|by apply keeps_err].
  destruct (Hb iv data Ed) as [t ->]. apply (keeps_built true true). intros apdu Ha.
  destruct (proof_command iv t apdu Hiv Ha) as (H1 & H2 & H3). by apply keeps_proving.
Qed.
Lemma verify_body keys iv pin rand d : build_verify_pin_data keys iv pin rand = Ok d -> exists t, d = iv ++ t.
Proof. unfold build_verify_pin_data. intros Hb. inv_bind Hb. inv_bind Hb. injection Hb as <-. by eexists. Qed.
Lemma config_body keys iv pin rand e d : build_verify_pin_data_with_config keys iv pin rand e = Ok d -> exists t, d = iv ++ t.
Proof. unfold build_verify_pin_data_with_config. intros Hb. inv_bind Hb. inv_bind Hb. inv_bind Hb. injection Hb as <-. by eexists. Qed.
(** A status other than OK is an error. *)
Lemma check_pin_ok sw : check_pin sw = Ok tt -> sw = OK.
Proof. unfold check_pin, check. repeat case_match; try done. intros _. by apply Z.eqb_eq. Qed.
Lemma check_ok sw : check sw = Ok tt -> sw = OK.
Proof. unfold check. repeat case_match; try done. intros _. by apply Z.eqb_eq. Qed.
Lemma refused_pin sw v t : sw <> OK -> keeps true true (_ ← checked (check_pin sw); set_verified v t).
Proof.
  intros Hsw. destruct (check_pin sw) as [[]|e] eqn:E; [by apply check_pin_ok in E|]. by apply keeps_err.
Qed.

Lemma keeps_verify b p : keeps b true (verify_pin p).
Proof.
  unfold verify_pin. eapply keeps_bind; [eauto with keeps|]. intros _. eapply keeps_bind; [eauto with keeps|]. intros flag.
  destruct (negb _); [keep|]. eapply keeps_bind; [eauto with keeps|]. intros [keys rand].
  apply (keeps_proof (fun iv => build_verify_pin_data keys iv p rand) (fun sw => _ ← checked (check_pin sw); set_verified true true));
    [intros iv d; apply (verify_body keys iv p rand d)|done|intros; by apply refused_pin].
Qed.
Lemma keeps_set_fp b p e : keeps b true (set_fp_protection p e).
Proof.
  unfold set_fp_protection. eapply keeps_bind; [eauto with keeps|]. intros _. eapply keeps_bind; [eauto with keeps|]. intros flag.
  destruct (negb _); [keep|]. eapply keeps_bind; [eauto with keeps|]. intros [keys rand].
  apply (keeps_proof (fun iv => build_verify_pin_data_with_config keys iv p rand e)
    (fun sw => if e && (sw =? 0x6984) then lift (Err XNoFingerprintEnrolled) else _ ← checked (check_pin sw); set_verified true true));
    [intros iv d; apply (config_body keys iv p rand e d)|by destruct e|]. intros sw Hsw. destruct (_ && _); [keep|by apply refused_pin].
Qed.
Lemma keeps_set_pin b p : keeps b true (set_pin p).
Proof. unfold set_pin, draw_iv. keep. Qed.
Lemma keeps_change b c n : keeps b true (change_pin_inner c n).
Proof.
  unfold change_pin_inner, draw_iv. eapply keeps_bind; [eauto with keeps|]. intros _. eapply keeps_bind; [eauto with keeps|]. intros flag.
  eapply keeps_bind; [eauto with keeps|]. intros [keys rand]. eapply keeps_bind; [eauto with keeps|]. intros iv.
  eapply keeps_bind; [eauto with keeps|]. intros data. apply keeps_built. intros apdu _.
  apply (keeps_closing true apdu false (fun sw => match n with Some _ => check_new_pin sw | None => check_pin sw end)).
  - intros sw. destruct n; [unfold check_new_pin; destruct (_ =? _); [done|]|]; apply check_pin_ok.
  - intros sw ->. by destruct n.
Qed.
Lemma keeps_lock b : keeps b b lock_pin.
Proof. apply keeps_closing; [apply check_ok|by intros sw ->]. Qed.
Lemma keeps_pin_status b : keeps b b pin_status.
Proof. unfold pin_status. keep. Qed.
#[local] Hint Resolve keeps_verify keeps_set_fp keeps_set_pin keeps_change keeps_lock keeps_pin_status : keeps.

(** A touch command the key accepted opens the window. *)
Lemma touch_send apdu (s : S) : touches apdu = true -> consistent true s ->
  match send apdu false s with
  | (Ok (_, sw), s') => consistent true s' /\ (sw = OK -> (heard (log s')).1 = true)
  | (Err e, s') => consistent false s' /\ e <> XPinSessionMissing
  end.
Proof.
  intros Ht Hs. assert (closes apdu = false) as Hcl.
  { unfold touches in Ht. apply orb_true_iff in Ht as [Ht|Ht]; apply bool_decide_eq_true in Ht as ->; done. }
  pose proof (send_consistent true apdu false s Hs (or_introl Hcl)) as Hc.
  destruct (send_step apdu false s) as (r & s' & Es & Hm & Hl & _). rewrite Es in *. cbn [snd] in Hc.
  destruct r as [[data sw]|e]; [|split; [by eapply consistent_false|]; intros ->; by apply Hm].
  split; [done|]. intros ->. rewrite Hl. cbn [heard foldr]. unfold hear. cbn [fst snd].
  change (accepted (apdu, Ok (data, OK))) with true. cbv iota. by rewrite Hcl, Ht.
Qed.
Lemma touch_poll fuel n sw (s : S) : consistent true s -> (sw = OK -> (heard (log s)).1 = true) ->
  match poll_loop fuel n sw s with
  | (Ok sw', s') => consistent true s' /\ (sw' = OK -> (heard (log s')).1 = true)
  | (Err e, s') => consistent false s' /\ e <> XPinSessionMissing
  end.
Proof.
  revert n sw s. induction fuel as [|fuel IH]; intros n sw s Hs Hsw; cbn [poll_loop]; destruct (negb _); try done.
  { by split; [eapply consistent_false|]. }
  destruct (_ <=? _); [by split; [eapply consistent_false|]|]. pose proof (touch_send fingerprint_poll s eq_refl Hs) as Hp.
  unfold mbind, io_bind. destruct (send _ _ s) as [[[data next]|e] s']; [|done]. destruct Hp as [Hc Hn]. by apply IH.
Qed.
Lemma keeps_touch b : keeps b true verify_fingerprint_touch.
Proof.
  unfold verify_fingerprint_touch. eapply keeps_bind; [apply keeps_ensure|]. intros _ s Hs.
  pose proof (touch_send verify_fingerprint s eq_refl Hs) as Ht. unfold mbind at 1, io_bind at 1.
  destruct (send _ _ s) as [[[data sw]|e] s1]; [|by destruct Ht as [H1 H2]; split; [|split; [intros [= E]|]]].
  destruct Ht as [Hc Hsw]. pose proof (touch_poll (Datatypes.S (Z.to_nat MAX_POLLS)) 0 sw s1 Hc Hsw) as Hp. unfold mbind at 1, io_bind at 1.
  destruct (poll_loop _ _ _ s1) as [[sw2|e] s2]; [|by destruct Hp as [H1 H2]; split; [|split; [intros [= E]|]]].
  destruct Hp as [Hc2 Hsw2]. destruct (Z.eqb_spec sw2 0x9000) as [->|Hne]; cbn [negb].
  - assert (forall k : unit -> sio unit, (mret tt ≫= k) = k tt) as -> by done. rewrite io_gets_bind.
    destruct (marked true (os_typed_pin_verified s2) s2 Hc2) as [H1 H2]; [done|intros _; by apply Hsw2|apply Hc2|]. by split.
  - destruct (sw2 =? 0x6FFA); [split; [by eapply consistent_false|]; done|].
    destruct (check_pin sw2) as [[]|e] eqn:E; [by apply check_pin_ok in E|]. by split; [eapply consistent_false|].
Qed.
Lemma keeps_fp b : keeps b b fp_supported.
Proof. unfold fp_supported. keep. Qed.
#[local] Hint Resolve keeps_touch keeps_fp : keeps.

(** A result the code looks at is never the missing session. *)
Lemma keeps_try {A B} c d (m : sio A) (f : result OtpTransportError A -> sio B) :
  keeps false c m -> (forall r, ~ missing r -> keeps false d (f r)) -> keeps false d (try m ≫= f).
Proof.
  intros Hm Hf s Hs. specialize (Hm s Hs). unfold try, mbind, io_bind. destruct (m s) as [r s1]. destruct Hm as (Hc & Hr & _).
  by apply (Hf r Hr).
Qed.
Lemma keeps_fp_enabled b : keeps b b fp_is_enabled.
Proof. unfold fp_is_enabled. keep. Qed.
Lemma keeps_unlock_fp pin allow : keeps false false (unlock_fp_or_pin pin allow).
Proof.
  unfold unlock_fp_or_pin. apply (keeps_try false); [apply keeps_fp_enabled|]. intros fp _. destruct (allow && _); [|keep].
  apply (keeps_try true); [apply keeps_touch|]. intros [?|e] Hr; [keep|]. destruct pin; [keep|]. apply keeps_lift. intros [= ->]. by apply Hr.
Qed.
Lemma keeps_unlock pin : keeps false false (unlock_if_pinned pin).
Proof. unfold unlock_if_pinned, pin_is_set. keep. Qed.
#[local] Hint Resolve keeps_unlock_fp keeps_unlock : keeps.
Lemma keeps_unlock_closed pin : keeps false false (unlock_unless_verified pin).
Proof. unfold unlock_unless_verified. keep. Qed.

(** ** Entries *)

(** With the window open the keys are there. *)
Lemma keeps_decrypt data : keeps false false (maybe_decrypt_page data).
Proof.
  unfold maybe_decrypt_page. intros s Hs. rewrite io_gets_bind. destruct (os_pin_verified s) eqn:Hv; cbn [negb].
  - assert (consistent true s) as Hs' by (destruct Hs; split; auto).
    revert s Hs' Hs Hv. assert (keeps true false (keys ← session_keys;
      if zlen data <? 16 + 16 + 16 then lift (Err (XParse Truncated)) else
      let '(iv, rest) := split_at 16 data in let '(enc, auth) := split_at (zlen rest - 16) rest in
      _ ← sealed (verify_auth_tag (sk_mac keys) enc auth); sealed (session_decrypt (sk_enc keys) iv enc))) as Hk by keep.
    intros s Hs' _ _. apply (Hk s Hs').
  - by apply (keeps_ret false).
Qed.
Lemma keeps_seal plain iv : keeps false false (seal plain iv).
Proof.
  unfold seal. intros s Hs. rewrite io_gets_bind. destruct (os_pin_verified s) eqn:Hv.
  - assert (os_pin_session s <> None) as Hk by (apply (co_keys _ _ Hs); by left). destruct (os_pin_session s) as [keys|] eqn:Hks; [|done].
    erewrite io_bind_Ok_eq by (rewrite io_gets_bind, Hks; reflexivity).
    assert (keeps false false (iv ← draw_iv; mret (build_protected_write_data keys iv plain))) as Hd by (unfold draw_iv; keep).
    by apply Hd.
  - assert (keeps false false ('(device_pub, sw) ← send get_ecdh_pubkey false; _ ← checked (check sw); secret ← draw_secret;
      sealed (encrypt_seed_payload secret device_pub plain iv))) as Hd by (unfold draw_secret; keep).
    by apply Hd.
Qed.
#[local] Hint Resolve keeps_unlock_closed keeps_decrypt keeps_seal : keeps.
Lemma keeps_seal_send h plain iv :
  length h = 4%nat -> h <> VERIFY_OTP_PIN -> h <> CHANGE_OTP_PIN -> keeps false false (seal_and_send h plain iv).
Proof. intros Hl Hv Hc. unfold seal_and_send. keep. Qed.
#[local] Hint Extern 1 (keeps _ _ (seal_and_send _ _ _)) => (apply keeps_seal_send; done) : keeps.
Lemma keeps_enum_loop fuel t n es more : keeps false false (enum_loop fuel t n es more).
Proof. revert n es more. induction fuel as [|fuel IH]; intros n es more; cbn [enum_loop]; keep. Qed.
#[local] Hint Resolve keeps_enum_loop : keeps.
Lemma keeps_enumerate t : keeps false false (enumerate t).
Proof. unfold enumerate. keep. Qed.
Lemma keeps_config h b :
  length h = 4%nat -> h <> VERIFY_OTP_PIN -> h <> CHANGE_OTP_PIN -> keeps false false (config_byte h b).
Proof. intros Hl Hv Hc. unfold config_byte. keep. Qed.
#[local] Hint Resolve keeps_enumerate : keeps.
#[local] Hint Extern 1 (keeps _ _ (config_byte _ _)) => (apply keeps_config; done) : keeps.
Lemma keeps_read_config : keeps false false session_read_config.
Proof.
  unfold session_read_config. eapply keeps_bind; [solve [eauto with keeps]|]. intros pcsc. destruct pcsc; [keep|].
  eapply keeps_bind; [solve [eauto with keeps]|]. intros [data sw]. eapply keeps_bind; [solve [eauto with keeps]|]. intros _.
  destruct (_ <? _); [keep|]. apply (keeps_try false); [by apply keeps_send|]. intros r _. keep.
Qed.
#[local] Hint Resolve keeps_read_config : keeps.
Lemma keeps_read_serial : keeps false false session_read_serial.
Proof.
  unfold session_read_serial. eapply keeps_bind; [solve [eauto with keeps]|]. intros pcsc. cbv zeta.
  assert (forall aid, keeps false false (if pcsc then sel ← encoded (build_select aid); _ ← try (send sel false); mret tt else mret tt)) as Hre.
  { intros aid. destruct pcsc; [|keep]. apply keeps_built. intros sel Hsel.
    apply (keeps_try false); [by eapply keeps_send, select_closes|]. intros r _. keep. }
  eapply keeps_bind; [apply Hre|]. intros _. apply keeps_built. intros request Hreq.
  apply (keeps_try false); [eapply keeps_send, built_closes; [exact Hreq|done..]|]. intros r Hr. eapply keeps_bind; [apply Hre|]. intros _.
  eapply keeps_bind; [by apply keeps_lift|]. intros [data sw]. keep.
Qed.
#[local] Hint Resolve keeps_read_serial : keeps.
Lemma keeps_erase : keeps false false session_erase_all.
Proof.
  unfold session_erase_all. eapply keeps_bind; [solve [eauto with keeps]|]. intros [|].
  - apply keeps_built. intros apdu E. keep.
  - change (keeps false false ('(_, sw) ← send erase_all_usb true; checked (check sw))). keep.
Qed.
Lemma keeps_device_type mask : keeps false false (session_set_device_type mask).
Proof.
  unfold session_set_device_type, set_device_type. destruct (_ =? _); [by apply keeps_err|].
  cbn [map_err]. intros s. rewrite io_lift_bind. revert s. apply keeps_built. intros apdu E. keep.
Qed.
#[local] Hint Resolve keeps_erase keeps_device_type : keeps.

Lemma keeps_call c : keeps false false (run_call c).
Proof.
  destruct c; cbn [run_call]; unfold ignore, read_entry, change_pin, remove_pin, enumerate_pinned, write_entry_pinned, write_entry, delete_entry_pinned,
    delete_entry, set_button_hotp, set_button_hotp_options, delete_button_hotp, read_device_info; keep.
Qed.

(** What a PIN and a touch leave marked. *)
Lemma send_typed apdu detect (s : S) : os_typed_pin_verified (send apdu detect s).2 = os_typed_pin_verified s.
Proof. by destruct (send_step apdu detect s) as (r & s' & -> & _ & _ & _ & _ & Ht & _). Qed.
Lemma poll_typed fuel n sw (s : S) : os_typed_pin_verified (poll_loop fuel n sw s).2 = os_typed_pin_verified s.
Proof.
  revert n sw s. induction fuel as [|fuel IH]; intros n sw s; cbn [poll_loop]; destruct (negb _); try done.
  destruct (_ <=? _); [done|]. unfold mbind, io_bind. pose proof (send_typed fingerprint_poll false s) as Hs.
  destruct (send _ _ s) as [[[d next]|e] s1]; [|done]. cbn [snd] in Hs. by rewrite IH.
Qed.
Lemma ensure_typed (s s' : S) : consistent false s -> ensure_session s = (Ok tt, s') -> os_typed_pin_verified s' = os_typed_pin_verified s.
Proof.
  intros Hs. unfold ensure_session. rewrite io_gets_bind. destruct (os_pin_session s) as [k|] eqn:E; [by intros [= <-]|].
  assert (os_typed_pin_verified s = false) as ->.
  { apply not_true_is_false. intros Ht. apply (co_keys _ _ Hs); [left; by apply (co_typed _ _ Hs)|done]. }
  unfold open_session. intros Hr.
  repeat (first [inv_io Hr | progress cbv zeta in Hr | match type of Hr with context [match ?x with _ => _ end] => destruct x end]); try done.
  by injection Hr as <-.
Qed.
Lemma touch_marks (s s' : S) : consistent false s -> verify_fingerprint_touch s = (Ok tt, s') ->
  os_pin_verified s' = true /\ os_typed_pin_verified s' = os_typed_pin_verified s.
Proof.
  intros Hs Hr. unfold verify_fingerprint_touch in Hr. unfold mbind at 1, io_bind at 1 in Hr.
  destruct (ensure_session s) as [[[]|] s1] eqn:E1; [|done]. rewrite <- (ensure_typed s s1 Hs E1).
  unfold mbind at 1, io_bind at 1 in Hr. pose proof (send_typed verify_fingerprint false s1) as H2.
  destruct (send _ _ s1) as [[[d sw]|] s2]; [|done]. cbn [snd] in H2. rewrite <- H2.
  unfold mbind at 1, io_bind at 1 in Hr. pose proof (poll_typed (Datatypes.S (Z.to_nat MAX_POLLS)) 0 sw s2) as H3.
  destruct (poll_loop _ _ _ s2) as [[sw2|] s3]; [|done]. cbn [snd] in H3. rewrite <- H3. clear -Hr.
  destruct (negb _); [destruct (_ =? _); [done|]; destruct (check_pin sw2) as [[]|]; [|done]|]; by injection Hr as <-.
Qed.
Lemma verify_marks p (s s' : S) : verify_pin p s = (Ok tt, s') -> os_pin_verified s' = true /\ os_typed_pin_verified s' = true.
Proof.
  unfold verify_pin. intros Hr.
  repeat (first [inv_io Hr | progress cbv zeta in Hr | match type of Hr with context [match ?x with _ => _ end] => destruct x end]); try done;
    by injection Hr as <-.
Qed.
Lemma reachable_consistent (s : S) : reachable s -> consistent false s.
Proof.
  induction 1 as [t pcsc r Hr|c s Hs IH]; [split; try done; by intros [|]|].
  pose proof (keeps_call c s IH) as Hk. destruct (run_call c s) as [r s']. by destruct Hk.
Qed.
End state.

(** * The work a key can ask for *)

(** A transport that counts what it sends. *)
Record Counted (T : Type) := mkCounted { ct_transport : T; ct_calls : Z }.
Arguments mkCounted {T} _ _.
Arguments ct_transport {T} _.
Arguments ct_calls {T} _.
#[export] Instance counted_transport {T} `{OtpTransport T} : OtpTransport (Counted T) := {
  otp_transmit apdu detect := fun c =>
    let '(r, t) := otp_transmit apdu detect (ct_transport c) in (r, mkCounted t (ct_calls c + 1))
}.

Section work.
Context {T : Type} `{OtpTransport T} `{PinCrypto}.
Local Notation S := (Token2OtpSession (Counted T)).
Local Notation sio := (io S OtpTransportError).

Definition sent (s : S) : Z := ct_calls (os_transport s).
(** At most [n] commands, whatever is answered. *)
Definition costs {A} (n : Z) (m : sio A) : Prop := forall s, sent (m s).2 <= sent s + n.

Lemma costs_bind {A B} n k (m : sio A) (f : A -> sio B) : costs n m -> n <= k -> (forall a, costs (k - n) (f a)) -> costs k (m ≫= f).
Proof.
  intros Hm Hk Hf s. specialize (Hm s). unfold mbind, io_bind. destruct (m s) as [[a|e] s1]; cbn [snd] in *; [|lia].
  specialize (Hf a s1). lia.
Qed.
Lemma costs_weak {A} n k (m : sio A) : costs n m -> n <= k -> costs k m.
Proof. intros Hm Hk s. specialize (Hm s). lia. Qed.
Lemma costs_send apdu detect : costs 1 (send apdu detect).
Proof. intros s. unfold send, sent. cbn [otp_transmit counted_transport]. by destruct (otp_transmit apdu detect _) as [r t]. Qed.
Lemma costs_free {A} (m : sio A) : (forall s, os_transport (m s).2 = os_transport s) -> costs 0 m.
Proof. intros Hm s. unfold sent. rewrite Hm. lia. Qed.
Lemma costs_lift {A} (r : result OtpTransportError A) : costs 0 (lift r).
Proof. by apply costs_free. Qed.
Lemma costs_ret {A} (a : A) : costs 0 (mret a).
Proof. by apply costs_free. Qed.
Lemma costs_gets {A} (f : S -> A) : costs 0 (io_gets f).
Proof. by apply costs_free. Qed.
Lemma costs_draw {A} (f : Random -> nat -> A) : costs 0 (draw f).
Proof. by apply costs_free. Qed.
Lemma costs_window v t : costs 0 (set_verified v t).
Proof. by apply costs_free. Qed.
Lemma costs_set_keys k : costs 0 (set_pin_session k).
Proof. by apply costs_free. Qed.
Lemma costs_flags p f : costs 0 (set_flags p f).
Proof. by apply costs_free. Qed.
Lemma costs_keys : costs 0 session_keys.
Proof. apply costs_free. intros s. unfold session_keys. rewrite io_gets_bind. by destruct (os_pin_session s). Qed.
Lemma costs_try {A} n (m : sio A) : costs n m -> costs n (try m).
Proof. intros Hm s. specialize (Hm s). unfold try. by destruct (m s). Qed.

Create HintDb costs.
#[local] Hint Resolve costs_send costs_lift costs_ret costs_gets costs_draw costs_window costs_set_keys costs_flags costs_keys costs_try : costs.
#[local] Hint Extern 1 (costs _ (checked _)) => (apply costs_lift) : costs.
#[local] Hint Extern 1 (costs _ (encoded _)) => (apply costs_lift) : costs.
#[local] Hint Extern 1 (costs _ (sealed _)) => (apply costs_lift) : costs.
#[local] Hint Extern 1 (costs _ (parsed _)) => (apply costs_lift) : costs.

Ltac cost :=
  cbv zeta;
  match goal with
  | |- costs _ (_ ≫= _) => first [eapply costs_bind; [solve [eauto with costs]|lia|intros ?; cost]
                                 |apply (costs_bind 0); [solve [cost]|lia|intros ?; cost]]
  | |- costs _ (if ?b then _ else _) => destruct b; cost
  | |- costs _ (match ?x with _ => _ end) => destruct x; cost
  | |- costs _ _ => first [solve [eapply costs_weak; [eauto with costs|lia]] | idtac]
  end.

Lemma costs_open : costs 2 open_session.
Proof. unfold open_session, draw_secret. cost. Qed.
#[local] Hint Resolve costs_open : costs.
Lemma costs_ensure : costs 2 ensure_session.
Proof. unfold ensure_session. cost. Qed.
Lemma costs_challenge : costs 1 challenge_flag.
Proof. unfold challenge_flag. cost. Qed.
Lemma costs_rand flag : costs 0 (challenge_rand flag).
Proof. unfold challenge_rand. cost. Qed.
#[local] Hint Resolve costs_ensure costs_challenge costs_rand : costs.
Lemma costs_verify p : costs 4 (verify_pin p).
Proof. unfold verify_pin, draw_iv. cost. Qed.
Lemma costs_set_fp p e : costs 4 (set_fp_protection p e).
Proof. unfold set_fp_protection, draw_iv. cost. Qed.
Lemma costs_set_pin p : costs 3 (set_pin p).
Proof. unfold set_pin, draw_iv. cost. Qed.
Lemma costs_change c n : costs 4 (change_pin_inner c n).
Proof. unfold change_pin_inner, draw_iv. cost. Qed.
Lemma costs_lock : costs 1 lock_pin.
Proof. unfold lock_pin. cost. Qed.
Lemma costs_poll fuel n sw : 0 <= n <= MAX_POLLS -> costs (MAX_POLLS - n) (poll_loop fuel n sw).
Proof.
  revert n sw. induction fuel as [|fuel IH]; intros n sw Hn; cbn [poll_loop]; destruct (negb _); try solve [eapply costs_weak; [eauto with costs|lia]].
  destruct (MAX_POLLS <=? n) eqn:E; [eapply costs_weak; [eauto with costs|lia]|]. bools.
  eapply costs_bind; [eauto with costs|lia|]. intros [d next]. eapply costs_weak; [apply IH; lia|lia].
Qed.
Lemma costs_pin_status : costs 1 pin_status.
Proof. unfold pin_status. cost. Qed.
#[local] Hint Resolve costs_verify costs_set_fp costs_set_pin costs_change costs_lock costs_pin_status : costs.
#[local] Hint Extern 1 (costs _ (poll_loop _ 0 _)) => (apply costs_poll; unfold MAX_POLLS; lia) : costs.
Lemma costs_touch : costs 131 verify_fingerprint_touch.
Proof.
  unfold verify_fingerprint_touch. eapply costs_bind; [eauto with costs|lia|intros _]. eapply costs_bind; [eauto with costs|lia|intros [d sw]].
  eapply costs_bind; [apply costs_poll; unfold MAX_POLLS; lia|unfold MAX_POLLS; lia|intros sw']. unfold MAX_POLLS. cost.
Qed.
Lemma costs_fp : costs 1 fp_supported.
Proof. unfold fp_supported. cost. Qed.
#[local] Hint Resolve costs_touch costs_fp : costs.
Lemma costs_fp_enabled : costs 1 fp_is_enabled.
Proof. unfold fp_is_enabled. cost. Qed.
#[local] Hint Resolve costs_fp_enabled : costs.
Lemma costs_unlock_fp pin allow : costs 136 (unlock_fp_or_pin pin allow).
Proof. unfold unlock_fp_or_pin. cost. Qed.
Lemma costs_unlock pin : costs 5 (unlock_if_pinned pin).
Proof. unfold unlock_if_pinned, pin_is_set. apply (costs_bind 1); [cost|lia|intros b]. cost. Qed.
#[local] Hint Resolve costs_unlock_fp costs_unlock : costs.
Lemma costs_unlock_closed pin : costs 5 (unlock_unless_verified pin).
Proof. unfold unlock_unless_verified. cost. Qed.
Lemma costs_decrypt data : costs 0 (maybe_decrypt_page data).
Proof. unfold maybe_decrypt_page. cost. Qed.
#[local] Hint Resolve costs_unlock_closed costs_decrypt : costs.
Lemma costs_enum_loop fuel t pages es more : 1 <= pages <= MAX_ENUM_PAGES -> costs (MAX_ENUM_PAGES - pages) (enum_loop fuel t pages es more).
Proof.
  revert pages es more. induction fuel as [|fuel IH]; intros pages es more Hp; cbn [enum_loop]; destruct (negb more);
    try solve [eapply costs_weak; [eauto with costs|lia]].
  cbv zeta. destruct (_ || _) eqn:E; [eapply costs_weak; [eauto with costs|lia]|]. bools.
  eapply costs_bind; [eauto with costs|lia|intros cont]. eapply costs_bind; [eauto with costs|lia|intros [d sw]].
  eapply costs_bind; [eauto with costs|lia|intros _]. eapply costs_bind; [eauto with costs|lia|intros data].
  eapply costs_bind; [eauto with costs|lia|intros page]. eapply costs_weak; [apply IH; lia|lia].
Qed.
Lemma costs_enumerate t : costs 256 (enumerate t).
Proof.
  unfold enumerate. eapply costs_bind; [eauto with costs|lia|intros first]. eapply costs_bind; [eauto with costs|lia|intros [d sw]].
  destruct (check sw); [|cost]. eapply costs_bind; [eauto with costs|lia|intros data]. eapply costs_bind; [eauto with costs|lia|intros page].
  eapply costs_bind; [apply costs_enum_loop; unfold MAX_ENUM_PAGES; lia|unfold MAX_ENUM_PAGES; lia|intros es]. unfold MAX_ENUM_PAGES. cost.
Qed.
Lemma costs_seal plain iv : costs 1 (seal plain iv).
Proof. unfold seal, draw_iv, draw_secret. cost. Qed.
#[local] Hint Resolve costs_enumerate costs_seal : costs.
Lemma costs_seal_send h plain iv : costs 2 (seal_and_send h plain iv).
Proof. unfold seal_and_send. cost. Qed.
Lemma costs_config h b : costs 1 (config_byte h b).
Proof. unfold config_byte. cost. Qed.
#[local] Hint Resolve costs_seal_send costs_config : costs.
Lemma costs_read_config : costs 2 session_read_config.
Proof. unfold session_read_config. cost. Qed.
Lemma costs_read_serial : costs 3 session_read_serial.
Proof.
  unfold session_read_serial. eapply costs_bind; [eauto with costs|lia|intros pcsc]. cbv zeta.
  assert (forall aid, costs 1 (if pcsc then sel ← encoded (build_select aid); _ ← try (send sel false); mret tt else mret tt)) as Hre by (intros aid; cost).
  eapply costs_bind; [apply Hre|lia|intros _]. eapply costs_bind; [eauto with costs|lia|intros request].
  eapply costs_bind; [eauto with costs|lia|intros serial]. eapply costs_bind; [apply Hre|lia|intros _]. cost.
Qed.
#[local] Hint Resolve costs_read_config costs_read_serial : costs.
Lemma costs_ignore {A} n (m : sio A) : costs n m -> costs n (ignore m).
Proof. intros Hm. unfold ignore. eapply costs_bind; [exact Hm|lia|intros _]. eapply costs_weak; [apply costs_ret|lia]. Qed.
Lemma costs_call c : costs 261 (run_call c).
Proof.
  destruct c; cbn [run_call]; try apply costs_ignore; unfold read_entry, change_pin, remove_pin, enumerate_pinned, write_entry_pinned, write_entry,
    delete_entry_pinned, delete_entry, session_erase_all, set_button_hotp, set_button_hotp_options, delete_button_hotp,
    session_set_device_type, read_device_info; cost.
Qed.
End work.

(** Enough fuel: the loops stop by their own caps. *)
Section fuel.
Context {T : Type} `{OtpTransport T} `{PinCrypto}.

Lemma enum_loop_fuel f1 f2 t pages es more (s : Token2OtpSession T) :
  MAX_ENUM_PAGES - pages <= Z.of_nat f1 -> MAX_ENUM_PAGES - pages <= Z.of_nat f2 ->
  enum_loop f1 t pages es more s = enum_loop f2 t pages es more s.
Proof.
  revert f2 pages es more s. induction f1 as [|f1 IH]; intros f2 pages es more s Hf1 Hf2; destruct f2 as [|f2]; try done; cbn [enum_loop];
    destruct (negb more); try done.
  - by rewrite (proj2 (Z.ltb_lt MAX_ENUM_PAGES _)) by lia.
  - by rewrite (proj2 (Z.ltb_lt MAX_ENUM_PAGES _)) by lia.
  - destruct (_ || _); [done|]. unfold mbind, io_bind. destruct (encoded _ s) as [[cont|] s1]; [|done].
    destruct (send _ _ s1) as [[[d sw]|] s2]; [|done]. destruct (checked _ s2) as [[[]|] s3]; [|done].
    destruct (maybe_decrypt_page d s3) as [[data|] s4]; [|done]. destruct (parsed _ s4) as [[page|] s5]; [|done]. apply IH; lia.
Qed.
Lemma poll_loop_fuel f1 f2 n sw (s : Token2OtpSession T) :
  MAX_POLLS - n <= Z.of_nat f1 -> MAX_POLLS - n <= Z.of_nat f2 -> poll_loop f1 n sw s = poll_loop f2 n sw s.
Proof.
  revert f2 n sw s. induction f1 as [|f1 IH]; intros f2 n sw s Hf1 Hf2; destruct f2 as [|f2]; try done; cbn [poll_loop];
    destruct (negb _); try done.
  - by rewrite (proj2 (Z.leb_le MAX_POLLS _)) by lia.
  - by rewrite (proj2 (Z.leb_le MAX_POLLS _)) by lia.
  - destruct (MAX_POLLS <=? n); [done|]. unfold mbind, io_bind. destruct (send _ _ s) as [[[d next]|] s1]; [|done]. apply IH; lia.
Qed.
End fuel.

(** * What reaches the trace *)

(** Hidden bytes leave their number. *)
Definition withheld (dir : Dir) (transport qualifier : list Z) (n : Z) : list Z :=
  otp_trace_line dir transport qualifier (replicate (Z.to_nat n) 0) true.
Lemma withheld_line dir tr q b : otp_trace_line dir tr q b true = withheld dir tr q (zlen b).
Proof. unfold withheld, otp_trace_line. rewrite zlen_replicate, Z2Nat.id by apply zlen_nonneg. done. Qed.

(** A line that shows no byte of a hidden request or answer: hidden ones with
    their length, open ones as they are, and notes. *)
Inductive token2_line (request response : bool) (transport : list Z) (notes : list Z -> Prop) (line : list Z) : Prop :=
  | tl_sent n : line = withheld Sent transport [] n -> token2_line request response transport notes line
  | tl_received q n : line = withheld Received transport q n -> token2_line request response transport notes line
  | tl_open_request x : request = false -> line = otp_trace_line Sent transport [] x false -> token2_line request response transport notes line
  | tl_open_response q y : response = false -> line = otp_trace_line Received transport q y false -> token2_line request response transport notes line
  | tl_note dir body : notes body -> line = format_line dir (otp_label transport) body -> token2_line request response transport notes line.

Lemma sent_line cs rs tr notes x : token2_line cs rs tr notes (otp_trace_line Sent tr [] x cs).
Proof. destruct cs; [eapply tl_sent, withheld_line|by eapply tl_open_request]. Qed.
Lemma received_line cs rs tr notes q y : token2_line cs rs tr notes (otp_trace_line Received tr q y rs).
Proof. destruct rs; [eapply tl_received, withheld_line|by eapply tl_open_response]. Qed.
#[export] Hint Resolve sent_line received_line : kr.

Section pcsc_lines.
Context {C : Type} `{CardReconnect C} (P : list Z -> Prop).

Definition pcsc_adds (t t' : PcScOtp C) : Prop := adds P (po_world t) (po_world t').
#[local] Instance pcsc_adds_pre : PreOrder pcsc_adds.
Proof. split; [intros t; by apply adds_refl|intros t1 t2 t3; apply adds_trans]. Qed.

Lemma on_world_adds {A} (m : io (World C) OtpTransportError A) : adds_only P m -> io_respects pcsc_adds (on_world m).
Proof. intros Hm t. specialize (Hm (po_world t)). unfold on_world. by destruct (m (po_world t)). Qed.
Lemma same_world_adds {A} (m : io (PcScOtp C) OtpTransportError A) :
  (forall t, capture (po_world (m t).2) = capture (po_world t) /\ stderr (po_world (m t).2) = stderr (po_world t)) -> io_respects pcsc_adds m.
Proof. intros Hm t. destruct (Hm t). by apply adds_refl. Qed.
Lemma try_transmit_adds apdu : io_respects pcsc_adds (try_transmit apdu).
Proof. apply same_world_adds. intros t. unfold try_transmit, transmit. by destruct (card_transmit apdu (card (po_world t))). Qed.
Lemma reconnect_adds : io_respects pcsc_adds reconnect.
Proof. apply same_world_adds. intros t. unfold reconnect. by destruct (card_reconnect (card (po_world t))). Qed.
Lemma set_aid_adds aid : io_respects pcsc_adds (set_aid aid).
Proof. by apply same_world_adds. Qed.
Lemma pcsc_trace_adds dir b sens : P (otp_trace_line dir (s2b "PCSC") [] b sens) -> io_respects pcsc_adds (pcsc_trace dir b sens).
Proof. intros Hp. apply io_respects_bind; [apply _|by apply io_respects_gets, _|]. intros debug. by apply on_world_adds, adds_trace. Qed.
Lemma pcsc_line_adds dir body : P (format_line dir (otp_label (s2b "PCSC")) body) -> io_respects pcsc_adds (pcsc_line dir body).
Proof. intros Hp. apply io_respects_bind; [apply _|by apply io_respects_gets, _|]. intros debug. by apply on_world_adds, adds_trace. Qed.
Lemma reselect_adds : io_respects pcsc_adds reselect.
Proof.
  unfold reselect. apply io_respects_bind; [apply _|by apply io_respects_gets, _|]. intros aid.
  case_bool_decide; [by apply io_respects_ret, _|]. apply io_respects_bind; [apply _|by apply io_respects_lift, _|]. intros sel.
  apply io_respects_bind; [apply _|apply try_transmit_adds|]. intros [r|e]; [destruct (_ <? _)|]; by apply io_respects_lift, _.
Qed.

Lemma raw_loop_adds fuel apdu rs to_send acc n l r :
  (forall resp, P (otp_trace_line Received (s2b "PCSC") [] resp rs)) ->
  P (format_line Note (otp_label (s2b "PCSC")) (s2b "transient card error; reconnecting and retrying")) ->
  (forall e : PcscError C, P (format_line Received (otp_label (s2b "PCSC")) (s2b "PC/SC error: " ++ pcsc_text e))) ->
  io_respects pcsc_adds (raw_loop fuel apdu rs to_send acc n l r).
Proof.
  intros Hr Hn He. revert to_send acc n l r. induction fuel as [|fuel IH]; intros to_send acc n l r; cbn [raw_loop];
    [by apply io_respects_lift, _|].
  apply io_respects_bind; [apply _|apply try_transmit_adds|]. intros [resp|e].
  - apply io_respects_bind; [apply _|by apply pcsc_trace_adds|]. intros _. destruct (_ <? _); [by apply io_respects_lift, _|].
    destruct (split_at _ _) as [data sw]. cbv zeta. destruct (_ || _); [by apply io_respects_lift, _|]. destruct (_ =? _); [apply IH|].
    destruct (_ =? _); [destruct (_ <? _); [by apply io_respects_lift, _|apply IH]|]. by apply io_respects_ret, _.
  - destruct (_ && _).
    + apply io_respects_bind; [apply _|by apply pcsc_line_adds|]. intros _. apply io_respects_bind; [apply _|apply reconnect_adds|]. intros _.
      apply io_respects_bind; [apply _|apply reselect_adds|]. intros _. apply IH.
    + apply io_respects_bind; [apply _|by apply pcsc_line_adds|]. intros _. by apply io_respects_lift, _.
Qed.
End pcsc_lines.

Section hid_lines.
Context (P : list Z -> Prop) (rs : bool).

(** While the answer's verdict stands. *)
Definition hid_adds (t t' : HidOtp) : Prop :=
  ho_sensitive t = rs -> ho_sensitive t' = rs /\ adds P (ho_world t) (ho_world t').
#[local] Instance hid_adds_pre : PreOrder hid_adds.
Proof.
  split; [intros t Ht; split; [done|by apply adds_refl]|]. intros t1 t2 t3 H12 H23 Ht. destruct (H12 Ht) as [H2 A]. destruct (H23 H2) as [H3 B].
  split; [done|]. by eapply adds_trans.
Qed.

Lemma same_world_hid {A} (m : io HidOtp OtpTransportError A) :
  (forall t, ho_sensitive (m t).2 = ho_sensitive t /\ capture (ho_world (m t).2) = capture (ho_world t) /\ stderr (ho_world (m t).2) = stderr (ho_world t)) ->
  io_respects hid_adds m.
Proof. intros Hm t Ht. destruct (Hm t) as (Hs & Hc & He). rewrite Hs. split; [done|by apply adds_refl]. Qed.
Lemma hid_now_adds : io_respects hid_adds hid_now.
Proof. apply same_world_hid. intros t. unfold hid_now. by destruct (he_clock _). Qed.
Lemma hid_write_adds f : io_respects hid_adds (hid_write_report f).
Proof. apply same_world_hid. intros t. unfold hid_write_report. by destruct (he_writes _) as [|[]]. Qed.
Lemma hid_prompt_adds : io_respects hid_adds hid_prompt.
Proof. by apply same_world_hid. Qed.
Lemma hid_trace_adds dir q b sens : P (otp_trace_line dir (s2b "HID") q b sens) -> io_respects hid_adds (hid_trace dir q b sens).
Proof.
  intros Hp t Ht. unfold hid_trace. pose proof (adds_trace P (E := OtpTransportError) (ho_debug t) _ Hp (ho_world t)) as Ha.
  unfold trace_bytes. by destruct (trace_line _ _ (ho_world t)) as [r w].
Qed.

Hypothesis P_received : forall q b, P (otp_trace_line Received (s2b "HID") q b rs).

(** The flag read back is the verdict. *)
Lemma hid_gets_sensitive {A} (f : bool -> io HidOtp OtpTransportError A) : io_respects hid_adds (f rs) -> io_respects hid_adds (s ← io_gets ho_sensitive; f s).
Proof. intros Hf t Ht. rewrite io_gets_bind, Ht. by apply Hf. Qed.

Lemma hid_read_adds : io_respects hid_adds hid_read_report.
Proof.
  unfold hid_read_report. apply io_respects_bind; [apply _| |].
  - apply same_world_hid. intros t. by destruct (he_reads _).
  - intros buf. apply hid_gets_sensitive. apply io_respects_bind; [apply _| |intros _; by apply io_respects_ret, _].
    destruct (_ <? _); [by apply hid_trace_adds|by apply io_respects_ret, _].
Qed.
Lemma write_reports_adds fs : io_respects hid_adds (write_reports fs).
Proof.
  induction fs as [|f fs IH]; [by apply io_respects_ret, _|]. cbn [write_reports]. apply io_respects_bind; [apply _|apply hid_write_adds|]. by intros _.
Qed.
Lemma hid_loop_adds fuel d dl p g asm : io_respects hid_adds (hid_read_loop fuel d dl p g asm).
Proof.
  revert p g asm. induction fuel as [|fuel IH]; intros p g asm; cbn [hid_read_loop]; [by apply io_respects_lift, _|].
  apply io_respects_bind; [apply _|apply hid_now_adds|]. intros t. destruct (_ <=? _); [by apply io_respects_lift, _|].
  apply io_respects_bind; [apply _|apply hid_read_adds|]. intros buf. destruct (_ =? _); [apply IH|].
  destruct (Token2Entry.push buf asm) as [[[|n|]|e] asm']; [apply IH| |by apply io_respects_ret, _|by apply io_respects_lift, _].
  destruct (_ && _); [|apply IH]. apply io_respects_bind; [apply _|apply hid_prompt_adds|]. intros _. apply IH.
Qed.
End hid_lines.

Lemma hid_transmit_adds P apdu detect t :
  P (otp_trace_line Sent (s2b "HID") [] apdu (request_is_sensitive apdu)) ->
  (forall q b, P (otp_trace_line Received (s2b "HID") q b (response_is_sensitive apdu))) ->
  adds P (ho_world t) (ho_world (hid_transmit apdu detect t).2).
Proof.
  intros Hs Hr. set (rs := response_is_sensitive apdu) in *. unfold hid_transmit.
  assert (exists w, hid_trace Sent [] apdu (request_is_sensitive apdu) t = (Ok tt, mkHidOtp w (ho_timeout t) (ho_prompt t) (ho_debug t) (ho_sensitive t)) /\
    adds P (ho_world t) w) as (w & Hw & Ha).
  { unfold hid_trace, trace_bytes. pose proof (adds_trace P (E := OtpTransportError) (ho_debug t) _ Hs (ho_world t)) as Ha.
    unfold trace_line in *. destruct (emit _ _ _) as [pr c]. by eexists. }
  erewrite io_bind_Ok_eq by exact Hw. unfold hid_set_sensitive. rewrite io_modify_bind. cbn [ho_world ho_timeout ho_prompt ho_debug].
  fold rs. eapply adds_trans; [exact Ha|].
  match goal with |- adds P w (ho_world ((?m) ?t1).2) => assert (io_respects (hid_adds P rs) m) as Hm; [|by apply (Hm t1)] end.
  pose proof (hid_adds_pre P rs) as Hpre.
  apply io_respects_bind; [apply _|apply write_reports_adds|]. intros _. apply io_respects_bind; [apply _|apply hid_now_adds|]. intros start.
  apply io_respects_bind; [apply _|by apply io_respects_gets|]. intros timeout. apply io_respects_bind; [apply _|by apply io_respects_gets|]. intros turns.
  apply io_respects_bind; [apply _|by apply hid_loop_adds|]. intros asm. apply io_respects_bind; [apply _|by apply io_respects_lift|]. intros [data sw].
  apply hid_gets_sensitive. apply io_respects_bind; [apply _|by apply hid_trace_adds|]. intros _.
  apply io_respects_bind; [apply _|by apply hid_trace_adds|]. intros _. by apply io_respects_ret.
Qed.

(** ** Which commands are hidden *)

(** The first byte of a short body follows its length. *)
Lemma built_second h x d apdu : length h = 4%nat -> build_apdu h (x :: d) = Some apdu -> zlen (x :: d) <= 255 -> apdu !! 5%nat = Some x.
Proof.
  intros Hh Hb Hd. unfold build_apdu in Hb. destruct (_ <? _); [done|]. pose proof (zlen_nonneg d). rewrite zlen_cons in Hd.
  rewrite (proj2 (Z.ltb_lt 0 _)), (proj2 (Z.leb_le _ 0xFF)) in Hb by (rewrite zlen_cons; lia). injection Hb as <-.
  rewrite lookup_app_r by lia. by rewrite Hh.
Qed.
Lemma built_entry h d apdu : build_apdu h d = Some apdu -> h = ENUM_CODES \/ h = ENUM_CODES_CONTINUE -> response_is_sensitive apdu = true.
Proof. intros Hb Hh. unfold build_apdu in Hb. destruct (_ <? _); [done|]. by destruct Hh; subst h; injection Hb as <-. Qed.

(** A PIN command with a body is hidden as long as its length fits one byte. *)
Lemma built_pin h d apdu : h = SET_OTP_PIN \/ h = VERIFY_OTP_PIN \/ h = CHANGE_OTP_PIN -> 1 < zlen d -> build_apdu h d = Some apdu ->
  request_is_sensitive apdu = (zlen d <=? 255).
Proof.
  intros Hh Hd Hb. unfold build_apdu in Hb. destruct (0xFFFF <? zlen d) eqn:Hm; [done|]. bools. rewrite (proj2 (Z.ltb_lt 0 _)) in Hb by lia.
  assert (forall x rest, request_is_sensitive (h ++ x :: rest) = (1 <? x)) as Hr by (intros x rest; by destruct Hh as [-> | [-> | ->]]).
  destruct (zlen d <=? 0xFF) eqn:Hs; injection Hb as <-; cbn [app]; rewrite Hr; [|done].
  bools. rewrite cast_small by (unfold is_word; lia). apply Z.ltb_lt. lia.
Qed.

(** * Properties *)

(** C38: whatever the key answers, a session's PIN state is what the key
    showed it. In every state some calls lead to, the window counts as open only
    if, since the key last accepted a lock or a change of PIN, it accepted a PIN
    proof or a touch, and a typed PIN counts as proven only if it accepted a PIN
    proof: neither a refused PIN nor a touch ever marks one. A proven PIN goes
    with an open window, an open window with session keys, and no call finds them missing. A
    PIN verified with success is marked proven, a touch opens the window and
    leaves the typed mark as it was; and once locking the window, changing or
    removing the PIN or agreeing on new keys succeeds, the window is closed and
    no PIN is proven. *)
Theorem token2_session_consistent {T} `{OtpTransport T} `{PinCrypto} (s : Token2OtpSession (Logged T)) :
  (forall apdu detect (t : T), (otp_transmit apdu detect t).1 <> Err XPinSessionMissing) -> reachable s ->
  (os_pin_verified s = true -> (heard (log s)).1 = true) /\
  (os_typed_pin_verified s = true -> (heard (log s)).2 = true) /\
  (os_typed_pin_verified s = true -> os_pin_verified s = true) /\
  (os_pin_verified s = true -> is_Some (os_pin_session s)) /\
  (forall c, (run_call c s).1 <> Err XPinSessionMissing) /\
  (forall p s', run_call (CVerifyPin p) s = (Ok tt, s') -> os_pin_verified s' = true /\ os_typed_pin_verified s' = true) /\
  (forall s', run_call CVerifyFingerprint s = (Ok tt, s') ->
     os_pin_verified s' = true /\ os_typed_pin_verified s' = os_typed_pin_verified s) /\
  (forall c s', (exists p q, c = CLockPin \/ c = COpenSession \/ c = CChangePin p q \/ c = CRemovePin p) -> run_call c s = (Ok tt, s') ->
     os_pin_verified s' = false /\ os_typed_pin_verified s' = false).
Proof.
  intros Hw Hs. pose proof (reachable_consistent Hw s Hs) as Hc.
  split; [apply Hc|]. split; [apply Hc|]. split; [apply Hc|]. split.
  { intros Hv. pose proof (co_keys _ _ Hc (or_introl Hv)) as Hk. by destruct (os_pin_session s). }
  split.
  { intros c. pose proof (keeps_call Hw c s Hc) as Hk. destruct (run_call c s) as [r s']. destruct Hk as (_ & Hm & _). exact Hm. }
  split; [intros p s'; by apply verify_marks|]. split; [intros s'; by apply touch_marks|].
  intros c s' (p & q & [-> | [-> | [-> | ->]]]) Hr; cbn [run_call] in Hr; unfold lock_pin, open_session, change_pin, remove_pin, change_pin_inner in Hr;
    repeat (first [inv_io Hr | progress cbv zeta in Hr | match type of Hr with context [match ?x with _ => _ end] => destruct x end]); try done;
    by injection Hr as <-.
Qed.

(** A key cannot make a session work without end. Whatever it answers, no
    call sends more than 261 commands; the loops over pages and over fingerprint
    polls end by their own caps, so more fuel changes nothing; and a list that
    is returned has at most 1024 entries. *)
Theorem token2_work_bounded {T} `{OtpTransport T} `{PinCrypto} (c : SessionCall) (s : Token2OtpSession (Counted T)) (t : Z) (es : list Entry)
    (more : bool) (sw : Z) (extra : nat) :
  sent (run_call c s).2 <= sent s + 261 /\
  enum_loop (enum_fuel + extra) t 1 es more s = enum_loop enum_fuel t 1 es more s /\
  poll_loop (S (Z.to_nat MAX_POLLS) + extra) 0 sw s = poll_loop (S (Z.to_nat MAX_POLLS)) 0 sw s /\
  (forall found s', enumerate t s = (Ok found, s') -> zlen found <= 1024).
Proof.
  split; [apply costs_call|]. split; [apply enum_loop_fuel; unfold enum_fuel, MAX_ENUM_PAGES; lia|].
  split; [apply poll_loop_fuel; unfold MAX_POLLS; lia|].
  intros found s' Hf. unfold enumerate in Hf. inv_io Hf. inv_io Hf. destruct a0 as [data sw']. destruct (check sw') as [|e].
  - do 3 inv_io Hf. destruct (_ <? _) eqn:E; [done|]. bools. unfold MAX_ENUM_ENTRIES in E. by injection Hf as <- <-.
  - destruct (is_empty_token e); [|done]. by injection Hf as <- <-.
Qed.

(** A trace shows no seed, account or code, and no PIN of ordinary length.
    A write of an entry or of the button's seed, a read of an entry by name and
    a PIN command are hidden requests, the last exactly when its body fits a
    one-byte length, and reads of entries and of the serial are hidden answers;
    and whatever a key does, over USB reports or in a reader, a hidden half of an
    exchange adds only lines that tell its length. *)
Theorem token2_trace_redacted {C} `{CardReconnect C} (card : PcScOtp C) (hid : HidOtp) (apdu : list Z) (detect : bool) :
  adds (token2_line (request_is_sensitive apdu) (response_is_sensitive apdu) (s2b "PCSC")
      (fun n => n = s2b "transient card error; reconnecting and retrying" \/ exists e : PcscError C, n = s2b "PC/SC error: " ++ pcsc_text e))
    (po_world card) (po_world (raw_transmit apdu card).2) /\
  adds (token2_line (request_is_sensitive apdu) (response_is_sensitive apdu) (s2b "HID") (fun _ => False))
    (ho_world hid) (ho_world (hid_transmit apdu detect hid).2) /\
  (forall d, build_apdu WRITE_SEED d = Some apdu \/ build_apdu WRITE_HOTP_SEED d = Some apdu -> request_is_sensitive apdu = true) /\
  (forall t ap ac d, serialize_read_entry t ap ac = Ok d -> build_apdu ENUM_CODES d = Some apdu ->
     request_is_sensitive apdu = true /\ response_is_sensitive apdu = true) /\
  (forall h d, h = SET_OTP_PIN \/ h = VERIFY_OTP_PIN \/ h = CHANGE_OTP_PIN -> 1 < zlen d -> build_apdu h d = Some apdu ->
     request_is_sensitive apdu = (zlen d <=? 255)) /\
  (forall d, build_apdu ENUM_CODES d = Some apdu \/ build_apdu ENUM_CODES_CONTINUE d = Some apdu -> response_is_sensitive apdu = true) /\
  (read_serial_request = Some apdu -> response_is_sensitive apdu = true).
Proof.
  split; [|split; [|split; [|split; [|split; [|split]]]]].
  - match goal with |- adds ?P _ _ => enough (io_respects (pcsc_adds (C := C) P) (raw_transmit apdu)) as Hr by apply (Hr card); pose proof (pcsc_adds_pre (C := C) P) as Hp end.
    unfold raw_transmit. apply io_respects_bind; [apply _|apply pcsc_trace_adds; auto with kr|]. intros _. apply io_respects_bind; [apply _| |].
    { destruct (selected_aid apdu); [apply set_aid_adds|by apply io_respects_ret]. }
    intros _. apply raw_loop_adds.
    + intros resp. apply received_line.
    + by apply (tl_note _ _ _ _ _ Note (s2b "transient card error; reconnecting and retrying")); [left|].
    + intros e. by apply (tl_note _ _ _ _ _ Received (s2b "PC/SC error: " ++ pcsc_text e)); [right; exists e|].
  - apply hid_transmit_adds; [auto with kr|intros q b; auto with kr].
  - intros d Hd. assert (take 4 apdu = WRITE_SEED \/ take 4 apdu = WRITE_HOTP_SEED) as Hh by (destruct Hd as [Hd|Hd]; apply built_head in Hd; auto).
    unfold request_is_sensitive. destruct Hh as [-> | ->]; done.
  - intros t ap ac d Hd Hb. split; [|eapply built_entry; eauto]. unfold serialize_read_entry in Hd. inv_bind Hd. inv_bind Hd. injection Hd as <-.
    unfold request_is_sensitive. rewrite (built_head ENUM_CODES _ apdu eq_refl Hb).
    destruct a, a0. apply validate_app_ok in Hb0 as [Ha _]. apply validate_account_ok in Hb1 as [Hc _].
    assert (zlen (to_be 8 t) = 8) by (unfold zlen; by rewrite length_to_be).
    rewrite (built_second ENUM_CODES SUB_READ_ONE _ apdu eq_refl) by (exact Hb || (unfold len_prefixed; zlen; lia)). done.
  - intros h d. apply built_pin.
  - intros d [Hd|Hd]; eapply built_entry; eauto.
  - by intros [= <-].
Qed.
