(* ===== verification/Token2Key.v ===== *)
(** A reference Token2 key, for the theorems about its sessions: its applet as
    an [OtpTransport], the store it promises, and the refinement that every
    session operation does on the key what it does on the store. *)
From S2P Require Import Token2Safe.
From S2P Require Export Token2Session.

(** What a key's maker chose: its IV and challenge block, the code it shows for
    an entry at a time, how many entries a page and the store hold. *)
Class KeyMake := {
  km_iv : list Z;
  km_rand : list Z;
  km_code : Z -> WriteEntry -> list Z;
  km_page : Z;
  km_capacity : Z
}.
Class KeyMakeLaws `{KeyMake} := {
  km_iv_length : zlen km_iv = 16;
  km_rand_length : zlen km_rand = 16;
  km_code_ok : forall t e, name_ok (km_code t e);
  km_page_pos : 1 <= km_page;
  km_capacity_listable : 0 <= km_capacity <= 1024 /\ km_capacity <= 256 * km_page
}.

Section key.
Context `{PinCrypto} `{KeyMake}.

(** * The store *)

Definition same_name (ap ac : list Z) (e : WriteEntry) : bool := bool_decide (w_app e = ap) && bool_decide (w_account e = ac).
(** An entry replaces one of its name in place, or comes last. *)
Fixpoint upsert (e : WriteEntry) (es : list WriteEntry) : list WriteEntry :=
  match es with
  | [] => [e]
  | x :: es => if same_name (w_app e) (w_account e) x then e :: es else x :: upsert e es
  end.
Definition has_name (ap ac : list Z) (es : list WriteEntry) : bool := existsb (same_name ap ac) es.
Definition without (ap ac : list Z) (es : list WriteEntry) : list WriteEntry := List.filter (fun e => negb (same_name ap ac e)) es.

(** An entry as the key lists it at a time. *)
Definition listed (t : Z) (w : WriteEntry) : Entry :=
  mkEntry (w_type w) (w_algorithm w) (w_timestep w) (w_code_length w) (w_button w) (w_app w) (w_account w)
    (if bool_decide (w_type w = Totp) && negb (w_button w) then Some (km_code t w) else None).

(** * The key *)

Record OtpKey := mkKey {
  k_entries : list WriteEntry;
  k_pin : option (list Z);
  k_tries : Z;
  k_secret : SecretKey;
  k_session : option SessionKeys;
  k_open : bool;
  k_rest : list (list WriteEntry)   (* the pages still to send *)
}.
Definition set_entries es (k : OtpKey) := mkKey es (k_pin k) (k_tries k) (k_secret k) (k_session k) (k_open k) (k_rest k).
Definition set_lock pin tries open (k : OtpKey) := mkKey (k_entries k) pin tries (k_secret k) (k_session k) open (k_rest k).
Definition set_agreed keys (k : OtpKey) := mkKey (k_entries k) (k_pin k) (k_tries k) (k_secret k) (Some keys) false (k_rest k).
Definition set_rest rest (k : OtpKey) := mkKey (k_entries k) (k_pin k) (k_tries k) (k_secret k) (k_session k) (k_open k) rest.

Definition answer := ((list Z * Z) * OtpKey)%type.
Definition refuse (sw : Z) (k : OtpKey) : answer := (([], sw), k).
Definition done_ok (k : OtpKey) : answer := (([], OK), k).

(** The command's body, after a short or extended length. *)
Definition apdu_body (apdu : list Z) : list Z :=
  match drop 4 apdu with
  | [] => []
  | n :: d => match d with hi :: lo :: d' => if n =? 0 then d' else d | _ => d end
  end.

Definition pin_blocked (k : OtpKey) : bool := negb (bool_decide (k_pin k = None)) && (k_tries k =? 0).

Definition key_flag (n : Z) (k : OtpKey) : answer :=
  if pin_blocked k then refuse PIN_LOCKED k else
  let head := [PIN_ALG_AES256; k_tries k; match k_pin k with Some p => Z.max 1 (Z.min 255 (zlen p)) | None => 0 end; PIN_DEFAULT_MAX_RETRY; 0; 0; 0; 0; 0] in
  if n =? PIN_FLAG_LC_CHALLENGE then
    match k_session k with
    | Some keys => ((head ++ km_iv ++ cbc_enc (sk_enc keys) km_iv km_rand, OK), k)
    | None => refuse PIN_CONDITIONS_NOT_SATISFIED k
    end
  else ((take (Z.to_nat n) head, OK), k).

Definition key_agree (host_xy : list Z) (k : OtpKey) : answer :=
  match derive_session_keys (k_secret k) host_xy with
  | Ok keys => ((point_xy (k_secret k) ++ replicate 132 0, OK), set_agreed keys k)
  | Err _ => refuse ENTRY_NOT_FOUND k
  end.

(** A PIN that does not match costs an attempt. *)
Definition wrong_pin (k : OtpKey) : answer :=
  (([], Z.lor 0x6300 (k_tries k - 1)), set_lock (k_pin k) (k_tries k - 1) (k_open k) k).

Definition key_verify (data : list Z) (k : OtpKey) : answer :=
  if bool_decide (data = [0x00]) then done_ok (set_lock (k_pin k) (k_tries k) false k) else
  match k_pin k, k_session k with
  | Some p, Some keys =>
      if k_tries k =? 0 then refuse PIN_LOCKED k
      else if device_check_pin keys (c_sha256 p) km_rand data then done_ok (set_lock (Some p) PIN_DEFAULT_MAX_RETRY true k)
      else wrong_pin k
  | _, _ => refuse PIN_CONDITIONS_NOT_SATISFIED k
  end.

Definition key_set_pin (data : list Z) (k : OtpKey) : answer :=
  if pin_blocked k then refuse PIN_LOCKED k else
  match k_pin k, k_session k with
  | None, Some keys =>
      match device_open_protected keys data with
      | Some block =>
          match device_pin_block block with
          | Some (_, retry, p) => if bool_decide (p = []) then refuse ENTRY_NOT_FOUND k else done_ok (set_lock (Some p) retry false k)
          | None => refuse ENTRY_NOT_FOUND k
          end
      | None => refuse PIN_INVALID k
      end
  | _, _ => refuse PIN_CONDITIONS_NOT_SATISFIED k
  end.

Definition key_change_pin (data : list Z) (k : OtpKey) : answer :=
  match k_pin k, k_session k with
  | Some p, Some keys =>
      match device_change_pin keys (c_sha256 p) data with
      | Some (_, retry, new) => done_ok (set_lock (if bool_decide (new = []) then None else Some new) retry false k)
      | None => wrong_pin k
      end
  | _, _ => refuse PIN_CONDITIONS_NOT_SATISFIED k
  end.

(** A write, opened: an empty secret deletes. *)
Definition key_store (e : WriteEntry) (k : OtpKey) : answer :=
  if bool_decide (w_seed e = []) then
    if has_name (w_app e) (w_account e) (k_entries k) then done_ok (set_entries (without (w_app e) (w_account e) (k_entries k)) k)
    else refuse ENTRY_NOT_FOUND k
  else if negb (has_name (w_app e) (w_account e) (k_entries k)) && (km_capacity <=? zlen (k_entries k)) then refuse NOT_ENOUGH_SPACE k
  else done_ok (set_entries (upsert e (k_entries k)) k).

Definition key_write (data : list Z) (k : OtpKey) : answer :=
  let plain := match k_pin k with
               | Some _ => if k_open k then keys ← k_session k; device_open_protected keys data else None
               | None => device_open_seed (k_secret k) IV_OTP data
               end in
  match plain with
  | Some plain => match read_write plain with Ok e => key_store e k | Err _ => refuse PIN_INVALID k end
  | None => refuse PIN_INVALID k
  end.

(** A page, under the session's keys when a PIN protects the key. *)
Definition key_page (t : Z) (pages : list (list WriteEntry)) (k : OtpKey) : answer :=
  match pages with
  | [] => refuse ENTRY_NOT_FOUND_ALT k
  | page :: rest =>
      let plain := page_bytes (negb (bool_decide (rest = []))) (map (listed t) page) in
      match k_pin k with
      | None => ((plain, OK), set_rest rest k)
      | Some _ =>
          match k_session k with
          | Some keys => ((build_protected_write_data keys km_iv plain, OK), set_rest rest k)
          | None => refuse PIN_INVALID k
          end
      end
  end.
Definition readable (k : OtpKey) : bool := bool_decide (k_pin k = None) || k_open k.

Definition key_enum (data : list Z) (k : OtpKey) : answer :=
  if negb (readable k) then refuse PIN_INVALID k else
  match data with
  | sub :: t => if sub =? SUB_READ_ALL then key_page (from_be t) (chunks (Z.to_nat km_page) (k_entries k)) k else refuse FUNCTION_NOT_SUPPORTED k
  | [] => refuse ENTRY_NOT_FOUND k
  end.
Definition key_continue (data : list Z) (k : OtpKey) : answer :=
  if negb (readable k) then refuse PIN_INVALID k else key_page (from_be data) (k_rest k) k.

Definition key_pubkey (k : OtpKey) : answer :=
  match k_pin k with Some _ => refuse FUNCTION_NOT_SUPPORTED k | None => ((point_xy (k_secret k), OK), k) end.

Definition key_run (apdu : list Z) (k : OtpKey) : answer :=
  let header := take 4 apdu in
  let data := apdu_body apdu in
  if bool_decide (header = READ_OTP_PIN_FLAG) then key_flag (zlen data) k
  else if bool_decide (header = READ_AGREEMENT_PUBKEY) then key_agree data k
  else if bool_decide (header = VERIFY_OTP_PIN) then key_verify data k
  else if bool_decide (header = SET_OTP_PIN) then key_set_pin data k
  else if bool_decide (header = CHANGE_OTP_PIN) then key_change_pin data k
  else if bool_decide (header = GET_ECDH_PUBKEY) then key_pubkey k
  else if bool_decide (header = WRITE_SEED) then key_write data k
  else if bool_decide (header = ENUM_CODES) then key_enum data k
  else if bool_decide (header = ENUM_CODES_CONTINUE) then key_continue data k
  else refuse 0x6D00 k.

#[export] Instance key_transport : OtpTransport OtpKey := {
  otp_transmit apdu _ := fun k => let '(r, k') := key_run apdu k in (Ok r, k')
}.

(** * What the store promises *)

Record Store := mkStore { st_entries : list WriteEntry; st_pin : option (list Z); st_tries : Z; st_open : bool }.

(** A PIN whose proof the key takes: the right one always is. *)
Definition proof_matches (p q : list Z) : bool :=
  let iv := take 16 (c_sha256 km_rand) in bool_decide (cbc_enc (c_sha256 q) iv km_rand = cbc_enc (c_sha256 p) iv km_rand).
Definition old_pin_matches (p q : list Z) : bool := bool_decide (take 16 (c_sha256 q) = take 16 (c_sha256 p)).

Definition blocked (s : Store) : bool := negb (bool_decide (st_pin s = None)) && (st_tries s =? 0).
Definition spend_try (s : Store) : result OtpTransportError unit * Store :=
  (Err (XApplet (PinInvalidRetries (st_tries s - 1))), mkStore (st_entries s) (st_pin s) (st_tries s - 1) (st_open s)).

Definition spec_unlock (given : option (list Z)) : io Store OtpTransportError unit := fun s =>
  if blocked s then (Err (XApplet PinLocked), s) else
  match st_pin s, given with
  | None, _ => (Ok tt, s)
  | Some _, None => (Err XPinRequired, s)
  | Some p, Some q => if proof_matches p q then (Ok tt, mkStore (st_entries s) (Some p) PIN_DEFAULT_MAX_RETRY true) else spend_try s
  end.
Definition spec_unlock_closed (given : option (list Z)) : io Store OtpTransportError unit := fun s =>
  if st_open s then (Ok tt, s) else spec_unlock given s.

Definition spec_store (e : WriteEntry) : io Store OtpTransportError unit := fun s =>
  if negb (has_name (w_app e) (w_account e) (st_entries s)) && (km_capacity <=? zlen (st_entries s))
  then (Err (XApplet NotEnoughSpace), s)
  else (Ok tt, mkStore (upsert e (st_entries s)) (st_pin s) (st_tries s) (st_open s)).
Definition spec_remove (ap ac : list Z) : io Store OtpTransportError unit := fun s =>
  if has_name ap ac (st_entries s) then (Ok tt, mkStore (without ap ac (st_entries s)) (st_pin s) (st_tries s) (st_open s))
  else (Err (XApplet EntryNotFound), s).

Definition spec_set_pin (p : list Z) : io Store OtpTransportError unit := fun s =>
  if blocked s then (Err (XApplet PinLocked), s)
  else match st_pin s with
       | Some _ => (Err (XApplet PinConditionsNotSatisfied), s)
       | None => if bool_decide (p = []) then (Err (XApplet PinRejected), s)
                 else (Ok tt, mkStore (st_entries s) (Some p) PIN_DEFAULT_MAX_RETRY false)
       end.
Definition spec_change_pin (current new : list Z) : io Store OtpTransportError unit := fun s =>
  if blocked s then (Err (XApplet PinLocked), s)
  else if 255 <? zlen new then (Err (XEncrypt BadLength), s)
  else match st_pin s with
       | None => (Err (XApplet PinConditionsNotSatisfied), s)
       | Some p => if old_pin_matches p current
                   then (Ok tt, mkStore (st_entries s) (if bool_decide (new = []) then None else Some new) PIN_DEFAULT_MAX_RETRY false)
                   else spend_try s
       end.

(** A change of the entries, once unlocked and the request valid. *)
Definition spec_write (request : result ParseError (list Z)) (change : io Store OtpTransportError unit) (pin : option (list Z)) :
    io Store OtpTransportError unit :=
  _ ← spec_unlock_closed pin; _ ← lift (map_err XParse request); change.

(** The operations of a front end, and their results. *)
Inductive StoreOp :=
  | OpList (t : Z) (pin : option (list Z))
  | OpWrite (e : WriteEntry) (pin : option (list Z))
  | OpDelete (ap ac : list Z) (pin : option (list Z))
  | OpSetPin (p : list Z)
  | OpChangePin (current new : list Z)
  | OpRemovePin (current : list Z).

Definition spec_op (op : StoreOp) : io Store OtpTransportError (list Entry) :=
  match op with
  | OpList t pin => _ ← spec_unlock pin; io_gets (fun s => map (listed t) (st_entries s))
  | OpWrite e pin => _ ← spec_write (serialize_write_entry e) (spec_store e) pin; mret []
  | OpDelete ap ac pin => _ ← spec_write (serialize_delete_entry ap ac) (spec_remove ap ac) pin; mret []
  | OpSetPin p => _ ← spec_set_pin p; mret []
  | OpChangePin current new => _ ← spec_change_pin current new; mret []
  | OpRemovePin current => _ ← spec_change_pin current []; mret []
  end.
Definition session_op {T} `{OtpTransport T} (op : StoreOp) : io (Token2OtpSession T) OtpTransportError (list Entry) :=
  match op with
  | OpList t pin => enumerate_pinned t pin
  | OpWrite e pin => _ ← write_entry_pinned e pin; mret []
  | OpDelete ap ac pin => _ ← delete_entry_pinned ap ac pin; mret []
  | OpSetPin p => _ ← set_pin p; mret []
  | OpChangePin current new => _ ← change_pin current new; mret []
  | OpRemovePin current => _ ← remove_pin current; mret []
  end.

(** Every operation in turn, its result kept, whatever it is. *)
Fixpoint run_ops {S E A} (step : StoreOp -> io S E A) (ops : list StoreOp) (s : S) : list (result E A) * S :=
  match ops with
  | [] => ([], s)
  | op :: ops => let '(r, s) := step op s in let '(rs, s) := run_ops step ops s in (r :: rs, s)
  end.
End key.

(** * The session and the key in step *)

Section refinement.
Context `{PinCryptoLaws} `{KeyMakeLaws}.
Local Notation S := (Token2OtpSession OtpKey).
Local Notation sio := (io S OtpTransportError).

Definition abs (s : S) : Store :=
  let k := os_transport s in mkStore (k_entries k) (k_pin k) (k_tries k) (k_open k).

(** What the key may hold. *)
Definition storable (e : WriteEntry) : Prop :=
  is_word 16 (w_timestep e) /\ name_ok (w_app e) /\ name_ok (w_account e) /\ w_account e <> [].

Record in_step (s : S) : Prop := {
  is_session : os_pin_session s = k_session (os_transport s);
  is_window : os_pin_verified s = k_open (os_transport s);
  is_opened : k_open (os_transport s) = true -> k_pin (os_transport s) <> None /\ k_session (os_transport s) <> None;
  is_tries : 0 <= k_tries (os_transport s) <= 255;
  is_storable : Forall storable (k_entries (os_transport s));
  is_room : zlen (k_entries (os_transport s)) <= km_capacity;
  is_random : forall n, zlen (rnd_iv (os_random s) n) = 16
}.

(** The session operation [m] does from [s] what [sp] does on the store. *)
Definition simulates {A} (m : sio A) (sp : io Store OtpTransportError A) (s : S) : Prop :=
  (m s).1 = (sp (abs s)).1 /\ abs (m s).2 = (sp (abs s)).2 /\ in_step (m s).2.

Lemma simulates_bind {A B} (m : sio A) (sp : io Store OtpTransportError A) (f : A -> sio B) (g : A -> io Store OtpTransportError B) s :
  simulates m sp s -> (forall a s', m s = (Ok a, s') -> in_step s' -> simulates (f a) (g a) s') -> simulates (m ≫= f) (sp ≫= g) s.
Proof.
  intros (Hr & Ha & Hi) Hf. unfold simulates, mbind, io_bind in *. destruct (m s) as [[a|e] s'] eqn:E, (sp (abs s)) as [[a'|e'] st];
    cbn [fst snd] in *; try done.
  - injection Hr as <-. subst st. by apply (Hf a s').
  - injection Hr as <-. done.
Qed.

Lemma simulates_lift {A} (r : result OtpTransportError A) s : in_step s -> simulates (lift r) (lift r) s.
Proof. by intros Hi. Qed.
Lemma simulates_ret {A} (a : A) s : in_step s -> simulates (mret a) (mret a) s.
Proof. by intros Hi. Qed.
Lemma simulates_eq {A} (m : sio A) (sp : io Store OtpTransportError A) s r s' :
  m s = (r, s') -> sp (abs s) = (r, abs s') -> in_step s' -> simulates m sp s.
Proof. intros Hm Hsp Hi. unfold simulates. by rewrite Hm, Hsp. Qed.

(** ** Sending to the key *)

Definition put_key (k : OtpKey) (s : S) : S :=
  mkOtpSession k (os_is_pcsc s) (os_pin_session s) (os_pin_verified s) (os_typed_pin_verified s) (os_pin_present s) (os_fp_present s)
    (os_random s).

Lemma send_run apdu det s data sw k :
  key_run apdu (os_transport s) = ((data, sw), k) -> send apdu det s = (Ok (data, sw), put_key k s).
Proof. intros Hr. unfold send, otp_transmit, key_transport. by rewrite Hr. Qed.

Lemma put_key_id s : put_key (os_transport s) s = s.
Proof. by destruct s. Qed.

Lemma flag_run n k : In n [PIN_FLAG_LC_BASE; PIN_FLAG_LC_PRIME; PIN_FLAG_LC_CHALLENGE] -> key_run (read_otp_pin_flag n) k = key_flag n k.
Proof. by intros [<-|[<-|[<-|[]]]]. Qed.

Lemma build_run h d apdu : length h = 4%nat -> build_apdu h d = Some apdu -> take 4 apdu = h /\ apdu_body apdu = d.
Proof.
  intros Hh Hb. unfold build_apdu in Hb. destruct (0xFFFF <? zlen d) eqn:Hmax; [done|]. bools. injection Hb as <-.
  rewrite take_app_le, take_ge by lia. split; [done|]. unfold apdu_body. rewrite drop_app_le, drop_ge by lia.
  pose proof (zlen_nonneg d). destruct (0 <? zlen d) eqn:Hnil; bools.
  - destruct (zlen d <=? 0xFF) eqn:Hs; bools; cbn [app].
    + rewrite cast_small by (unfold is_word; lia). destruct d as [|hi [|lo d']]; done.
    + done.
  - by assert (d = []) as -> by (apply zlen_0; lia).
Qed.

Lemma build_some h d : zlen d <= 0xFFFF -> exists apdu, build_apdu h d = Some apdu.
Proof. intros Hd. unfold build_apdu. rewrite (proj2 (Z.ltb_ge _ _)) by done. by eexists. Qed.

(** A command of the given header, body and effect. *)
Lemma command_run {A} h d (s : S) data sw k (f : list Z * Z -> sio A) :
  length h = 4%nat -> zlen d <= 0xFFFF ->
  (forall apdu, take 4 apdu = h -> apdu_body apdu = d -> key_run apdu (os_transport s) = ((data, sw), k)) ->
  forall det, (apdu ← encoded (build_apdu h d); r ← send apdu det; f r) s = f (data, sw) (put_key k s).
Proof.
  intros Hh Hd Hr det. destruct (build_some h d Hd) as [apdu Hb]. unfold encoded. rewrite Hb. cbn [ok_or]. rewrite io_lift_bind.
  destruct (build_run h d apdu Hh Hb) as [Hh1 Hh2]. erewrite io_bind_Ok_eq by (apply send_run; by apply Hr). done.
Qed.

Lemma pubkey_run k : key_run get_ecdh_pubkey k = key_pubkey k.
Proof. done. Qed.

Ltac sent Hf := erewrite io_bind_Ok_eq by (apply send_run; exact Hf); rewrite ?put_key_id; cbv beta iota.
(** Through a [?] on an [Ok]. *)
Ltac pass := unfold checked at 1, sealed at 1, parsed at 1, encoded at 1 || idtac; cbn [map_err ok_or]; rewrite io_lift_bind; cbv beta iota.
Lemma check_OK : checked (T := OtpKey) (check OK) = lift (Ok tt).
Proof. done. Qed.
Lemma check_pin_OK : checked (T := OtpKey) (check_pin OK) = lift (Ok tt).
Proof. done. Qed.

(** ** The PIN flag *)

Definition flag_of (k : OtpKey) (c : option (list Z * list Z)) : PinFlag :=
  mkPinFlag PIN_ALG_AES256 (k_tries k) match k_pin k with Some p => Z.max 1 (Z.min 255 (zlen p)) | None => 0 end PIN_DEFAULT_MAX_RETRY false c.

Lemma flag_of_set k c : is_set (flag_of k c) = negb (bool_decide (k_pin k = None)).
Proof. unfold is_set, flag_of. cbn [pin_len]. destruct (k_pin k); [|done]. rewrite (proj2 (Z.eqb_neq _ 0)) by lia. done. Qed.

Definition put_flags (p f : option bool) (s : S) : S :=
  mkOtpSession (os_transport s) (os_is_pcsc s) (os_pin_session s) (os_pin_verified s) (os_typed_pin_verified s) p f (os_random s).
Lemma put_flags_step p f s : in_step s -> in_step (put_flags p f s).
Proof. intros [? ? ? ? ? ? ?]. by split. Qed.

Lemma pin_is_set_run s : in_step s ->
  exists r s', pin_is_set s = (r, s') /\ abs s' = abs s /\ in_step s' /\ os_transport s' = os_transport s /\ os_pin_session s' = os_pin_session s /\
    r = if blocked (abs s) then Err (XApplet PinLocked) else Ok (negb (bool_decide (st_pin (abs s) = None))).
Proof.
  intros Hi. unfold pin_is_set, pin_status. pose proof (flag_run PIN_FLAG_LC_BASE (os_transport s) ltac:(simpl; tauto)) as Hf.
  unfold key_flag in Hf. change (blocked (abs s)) with (pin_blocked (os_transport s)). destruct (pin_blocked (os_transport s)).
  - unfold refuse in Hf. unfold mbind at 1, io_bind at 1. unfold mbind at 1, io_bind at 1. rewrite (send_run _ _ _ _ _ _ Hf).
    rewrite put_key_id. cbn. eexists _, s. done.
  - change (PIN_FLAG_LC_BASE =? PIN_FLAG_LC_CHALLENGE) with false in Hf. cbv iota in Hf.
    unfold mbind at 1, io_bind at 1. unfold mbind at 1, io_bind at 1. rewrite (send_run _ _ _ _ _ _ Hf), put_key_id.
    cbn [take Z.to_nat PIN_FLAG_LC_BASE Pos.to_nat Pos.iter_op Nat.add]. change (OK =? OK) with true. cbv iota. rewrite io_ret_bind.
    change (result_ok (parse_pin_flag _)) with (Some (flag_of (os_transport s) None)). 
    eexists _, (put_flags (Some (is_set (flag_of (os_transport s) None))) (Some false) s). split; [reflexivity|]. split; [done|]. split; [by apply put_flags_step|]. split; [done|]. split; [done|].
    by rewrite flag_of_set.
Qed.

(** ** Agreeing on keys *)

Definition agreed (keys : SessionKeys) (s : S) : S :=
  let r := os_random s in
  mkOtpSession (set_agreed keys (os_transport s)) (os_is_pcsc s) (Some keys) false false (os_pin_present s) (os_fp_present s)
    (mkRandom _ (rnd_secret r) (rnd_iv r) (Datatypes.S (rnd_drawn r))).

Lemma open_session_run s : pin_blocked (os_transport s) = false -> exists keys, open_session s = (Ok tt, agreed keys s).
Proof.
  intros Hb. unfold open_session. pose proof (flag_run PIN_FLAG_LC_PRIME (os_transport s) ltac:(simpl; tauto)) as Hf.
  unfold key_flag in Hf. rewrite Hb in Hf. change (PIN_FLAG_LC_PRIME =? PIN_FLAG_LC_CHALLENGE) with false in Hf. cbv iota in Hf.
  sent Hf. rewrite check_OK, io_lift_bind. erewrite io_bind_Ok_eq by reflexivity. cbv beta zeta.
  set (secret := rnd_secret (os_random s) (rnd_drawn (os_random s))).
  destruct (sessions_agree secret (k_secret (os_transport s))) as (keys & Hhost & Hkey).
  unfold read_agreement_pubkey. cbn [ha_public_xy host_agreement_new].
  erewrite (command_run READ_AGREEMENT_PUBKEY (point_xy secret) _ (point_xy (k_secret (os_transport s)) ++ replicate 132 0) OK (set_agreed keys (os_transport s))).
  - cbv beta iota. rewrite check_OK, io_lift_bind.
    assert (zlen (point_xy (k_secret (os_transport s))) = 64) as Hp by (unfold zlen; by rewrite point_length).
    rewrite (proj2 (Z.ltb_ge _ _)) by (zlen; lia). rewrite take_app_length' by (by rewrite point_length).
    unfold establish_session. cbn [ha_secret host_agreement_new]. rewrite Hhost. unfold sealed. cbn [map_err]. rewrite io_lift_bind.
    unfold set_pin_session. rewrite io_modify_bind. by exists keys.
  - done.
  - unfold zlen. by rewrite point_length.
  - intros apdu Hh1 Hh2. unfold key_run. rewrite Hh1, Hh2. cbn [bool_decide decide_rel].
    change (bool_decide (READ_AGREEMENT_PUBKEY = READ_OTP_PIN_FLAG)) with false. change (bool_decide (READ_AGREEMENT_PUBKEY = READ_AGREEMENT_PUBKEY)) with true.
    cbv iota. unfold key_agree. cbn [os_transport]. by rewrite Hkey.
Qed.

Lemma open_session_blocked s : pin_blocked (os_transport s) = true -> open_session s = (Err (XApplet PinLocked), s).
Proof.
  intros Hb. unfold open_session. pose proof (flag_run PIN_FLAG_LC_PRIME (os_transport s) ltac:(simpl; tauto)) as Hf.
  unfold key_flag in Hf. rewrite Hb in Hf. by sent Hf.
Qed.

Lemma agreed_step keys s : in_step s -> os_pin_session s = None -> in_step (agreed keys s) /\ abs (agreed keys s) = abs s.
Proof.
  intros [] Hn. assert (k_open (os_transport s) = false) as Ho.
  { destruct (k_open (os_transport s)) eqn:E; [|done]. destruct is_opened0 as [_ Hs]; [done|]. by rewrite <- is_session0 in Hs. }
  split; [by split|]. unfold abs. cbn. by rewrite Ho.
Qed.

(** A session is there afterwards, or the key is blocked and nothing changed. *)
Lemma ensure_session_run s : in_step s ->
  (exists keys s', ensure_session s = (Ok tt, s') /\ in_step s' /\ abs s' = abs s /\ os_pin_session s' = Some keys) \/
  (blocked (abs s) = true /\ ensure_session s = (Err (XApplet PinLocked), s)).
Proof.
  intros Hi. unfold ensure_session. rewrite io_gets_bind. destruct (os_pin_session s) as [keys|] eqn:Hs.
  - left. by exists keys, s.
  - destruct (pin_blocked (os_transport s)) eqn:Hb; [right; split; [done|by apply open_session_blocked]|left].
    destruct (open_session_run s Hb) as [keys Ho]. destruct (agreed_step keys s Hi Hs). by exists keys, (agreed keys s).
Qed.

(** ** The challenge *)

Lemma challenge_block keys : zlen (cbc_enc (sk_enc keys) km_iv km_rand) = 16 /\
  session_decrypt_raw (sk_enc keys) km_iv (cbc_enc (sk_enc keys) km_iv km_rand) = km_rand.
Proof.
  destruct (nopad16_ok (sk_enc keys) km_iv km_rand km_rand_length) as [_ Hl]. split; [done|].
  unfold session_decrypt_raw, whole_blocks. rewrite Hl. rewrite bool_decide_eq_false_2 by (intros Hn; by rewrite Hn in Hl). cbn [negb andb].
  apply cbc_inverse. by rewrite km_rand_length.
Qed.

Lemma challenge_flag_run s keys : in_step s -> os_pin_session s = Some keys ->
  challenge_flag s = (if blocked (abs s) then (Err (XApplet PinLocked), s)
                      else (Ok (flag_of (os_transport s) (Some (km_iv, cbc_enc (sk_enc keys) km_iv km_rand))), s)).
Proof.
  intros Hi Hs. unfold challenge_flag. pose proof (flag_run PIN_FLAG_LC_CHALLENGE (os_transport s) ltac:(simpl; tauto)) as Hf.
  unfold key_flag in Hf. change (blocked (abs s)) with (pin_blocked (os_transport s)). destruct (pin_blocked (os_transport s)).
  - by sent Hf.
  - rewrite Z.eqb_refl, <- (is_session s Hi), Hs in Hf. sent Hf. rewrite check_pin_OK, io_lift_bind.
    destruct (challenge_block keys) as [Hl _]. set (enc := cbc_enc (sk_enc keys) km_iv km_rand) in *. pose proof km_iv_length as Hiv.
    unfold parsed, parse_pin_flag. cbn [app].
    match goal with |- context [41 <=? zlen ?l] => assert (zlen l = 41) as -> by (zlen; lia) end. change (41 <=? 41) with true. cbv iota.
    match goal with |- context [take 16 (drop 9 ?l)] => change (drop 9 l) with (km_iv ++ enc); change (drop 25 l) with (drop 16 (km_iv ++ enc)) end.
    rewrite take_app_length' by (unfold zlen in Hiv; lia). rewrite drop_app_length' by (unfold zlen in Hiv; lia).
    rewrite take_ge by (unfold zlen in Hl; lia). done.
Qed.

Lemma challenge_rand_run s keys pins : os_pin_session s = Some keys ->
  challenge_rand (T := OtpKey) (flag_of pins (Some (km_iv, cbc_enc (sk_enc keys) km_iv km_rand))) s = (Ok (keys, km_rand), s).
Proof.
  intros Hs. unfold challenge_rand at 1. cbn [challenge flag_of ok_or]. rewrite io_lift_bind. unfold session_keys.
  erewrite io_bind_Ok_eq by (rewrite io_gets_bind, Hs; reflexivity). rewrite (proj2 (challenge_block keys)), km_rand_length. done.
Qed.

(** ** Verifying, setting and changing the PIN *)

Definition drawn (s : S) : S :=
  let r := os_random s in
  mkOtpSession (os_transport s) (os_is_pcsc s) (os_pin_session s) (os_pin_verified s) (os_typed_pin_verified s) (os_pin_present s)
    (os_fp_present s) (mkRandom _ (rnd_secret r) (rnd_iv r) (Datatypes.S (rnd_drawn r))).
Lemma drawn_step s : in_step s -> in_step (drawn s).
Proof. intros []. by split. Qed.
Lemma draw_iv_run (s : S) : in_step s -> exists iv, draw_iv s = (Ok iv, drawn s) /\ zlen iv = 16.
Proof. intros Hi. eexists. split; [reflexivity|apply (is_random s Hi)]. Qed.

Definition put_verified (pin typed : bool) (s : S) : S :=
  mkOtpSession (os_transport s) (os_is_pcsc s) (os_pin_session s) pin typed (os_pin_present s) (os_fp_present s) (os_random s).

Lemma check_pin_63 n : 0 <= n <= 255 -> check_pin (Z.lor 0x6300 n) = Err (PinInvalidRetries n).
Proof.
  intros Hn. assert (Z.lor 0x6300 n = 0x6300 + n) as ->.
  { change 0x6300 with (Z.shiftl 0x63 8). by rewrite lor_shiftl_add by lia. }
  unfold check_pin, between. rewrite (proj2 (Z.leb_le 0x6300 _)) by lia. rewrite (proj2 (Z.leb_le _ 0x63FF)) by lia. cbn [andb].
  change 0x00FF with (Z.ones 8). rewrite Z.land_ones by lia. unfold cast. rewrite Z.mod_mod by lia. do 2 f_equal.
  change (2 ^ 8) with 256. lia_div.
Qed.

(** A key whose PIN state and window are the ones given, nothing else touched. *)
Lemma put_lock_step pin tries open verified typed s :
  in_step s -> 0 <= tries <= 255 -> verified = open -> (open = true -> pin <> None /\ os_pin_session s <> None) ->
  in_step (put_verified verified typed (put_key (set_lock pin tries open (os_transport s)) s)).
Proof. intros [] Ht Hv Ho. split; cbn; try done. intros Hop. destruct (Ho Hop). by rewrite <- is_session0. Qed.

Lemma wrong_pin_step s : in_step s -> blocked (abs s) = false -> st_pin (abs s) <> None ->
  in_step (put_key (set_lock (k_pin (os_transport s)) (k_tries (os_transport s) - 1) (k_open (os_transport s)) (os_transport s)) s) /\
  0 <= k_tries (os_transport s) - 1 <= 255.
Proof.
  intros Hi Hb Hp. pose proof Hi as []. unfold blocked in Hb. cbn in Hb, Hp. rewrite bool_decide_eq_false_2 in Hb by done. cbn [negb andb] in Hb. bools.
  split; [|lia]. split; cbn; try done. lia.
Qed.

Lemma verify_pin_sim q s : in_step s -> st_pin (abs s) <> None -> simulates (verify_pin q) (spec_unlock (Some q)) s.
Proof.
  intros Hi Hp. unfold verify_pin. destruct (ensure_session_run s Hi) as [(keys & s1 & He & Hi1 & Ha & Hs1)|[Hb He]].
  2:{ eapply simulates_eq; [|unfold spec_unlock; by rewrite Hb|done]. by unfold mbind, io_bind; rewrite He. }
  unfold simulates. erewrite io_bind_Ok_eq by exact He. rewrite <- Ha in Hp |- *. clear He Hi Ha s. rename s1 into s, Hi1 into Hi.
  destruct (blocked (abs s)) eqn:Hb.
  { eapply simulates_eq; [|unfold spec_unlock; by rewrite Hb|done]. unfold mbind, io_bind. by rewrite (challenge_flag_run s keys Hi Hs1), Hb. }
  erewrite io_bind_Ok_eq by (rewrite (challenge_flag_run s keys Hi Hs1), Hb; reflexivity). rewrite flag_of_set.
  cbn [abs st_pin] in Hp. rewrite bool_decide_eq_false_2 by done. cbn [negb].
  erewrite io_bind_Ok_eq by (by apply challenge_rand_run). cbv beta iota.
  destruct (draw_iv_run s Hi) as (iv & Hd & Hiv). erewrite io_bind_Ok_eq by exact Hd.
  destruct (pin_proof_ok q km_rand km_rand_length) as (inner & Hpf & Hin & _ & Hl). unfold build_verify_pin_data. rewrite Hpf. cbn [mbind result_bind].
  destruct (nopad16_ok (sk_enc keys) iv inner Hl) as [-> Hlo]. cbn [mbind result_bind]. unfold sealed. cbn [map_err]. rewrite io_lift_bind.
  set (data := iv ++ cbc_enc (sk_enc keys) iv inner). destruct (k_pin (os_transport s)) as [p|] eqn:Hpin; [|done].
  assert (device_check_pin keys (c_sha256 p) km_rand data = proof_matches p q) as Hchk.
  { subst data inner. rewrite <- (app_nil_r (cbc_enc (sk_enc keys) iv _)). by apply device_check_eq; [|apply km_rand_length]. }
  assert (forall apdu, take 4 apdu = VERIFY_OTP_PIN -> apdu_body apdu = data ->
    key_run apdu (os_transport (drawn s)) = if proof_matches p q then done_ok (set_lock (Some p) PIN_DEFAULT_MAX_RETRY true (os_transport s))
                                            else wrong_pin (os_transport s)) as Hrun.
  { intros apdu Hh1 Hh2. unfold key_run. rewrite Hh1, Hh2. change (os_transport (drawn s)) with (os_transport s).
    do 2 rewrite bool_decide_eq_false_2 by done. rewrite bool_decide_eq_true_2 by done. unfold key_verify.
    rewrite bool_decide_eq_false_2; [|intros E; assert (zlen data = 32) as Hz by (subst data; zlen; lia); by rewrite E in Hz].
    rewrite Hpin, <- (is_session s Hi), Hs1. unfold blocked in Hb. cbn [abs st_pin st_tries] in Hb. rewrite Hpin in Hb. cbn in Hb. rewrite Hb. by rewrite Hchk. }
  assert (zlen data <= 0xFFFF) as Hdl by (subst data; zlen; lia).
  unfold spec_unlock. rewrite Hb. cbn [abs st_pin]. rewrite Hpin.
  destruct (proof_matches p q).
  - erewrite (command_run VERIFY_OTP_PIN data) by first [done|exact Hrun]. cbv beta iota. rewrite check_pin_OK, io_lift_bind.
    unfold set_verified, io_modify. cbn [fst snd]. split; [done|]. split; [done|].
    apply (put_lock_step (Some p) PIN_DEFAULT_MAX_RETRY true true true (drawn s)); [by apply drawn_step|done|done|].
    intros _. split; [done|]. cbn. by rewrite Hs1.
  - destruct (wrong_pin_step (drawn s) (drawn_step s Hi) Hb ltac:(cbn; by rewrite Hpin)) as [Hw Ht]. cbn in Hw, Ht. rewrite Hpin in Hw.
    unfold wrong_pin in Hrun. rewrite Hpin in Hrun.
    erewrite (command_run VERIFY_OTP_PIN data) by first [done|exact Hrun]. cbv beta iota.
    rewrite check_pin_63 by done. unfold checked, spend_try. cbn [map_err]. rewrite io_lift_Err. cbn. by rewrite Hpin.
Qed.

(** A blocked key refuses what an unlocked session still sends. *)
Lemma set_pin_sim p s : in_step s -> zlen p <= 255 -> simulates (set_pin p) (spec_set_pin p) s.
Proof.
  intros Hi Hp. unfold set_pin. destruct (ensure_session_run s Hi) as [(keys & s1 & He & Hi1 & Ha & Hs1)|[Hb He]].
  2:{ eapply simulates_eq; [|unfold spec_set_pin; by rewrite Hb|done]. by unfold mbind, io_bind; rewrite He. }
  unfold simulates. erewrite io_bind_Ok_eq by exact He. rewrite <- Ha. clear He Hi Ha s. rename s1 into s, Hi1 into Hi.
  unfold session_keys. erewrite io_bind_Ok_eq by (rewrite io_gets_bind, Hs1; reflexivity).
  destruct (draw_iv_run s Hi) as (iv & Hd & Hiv). erewrite io_bind_Ok_eq by exact Hd.
  unfold build_set_pin_data. rewrite (proj2 (Z.ltb_ge _ _)) by done. unfold sealed. cbn [map_err]. rewrite io_lift_bind.
  set (block := [PIN_ALG_AES256; PIN_DEFAULT_MAX_RETRY; zlen p] ++ p). set (data := build_protected_write_data keys iv block).
  assert (zlen data <= 0xFFFF) as Hdl.
  { subst data block. unfold build_protected_write_data, session_encrypt. zlen. rewrite cbc_padded_length, tag_length. zlen. lia_div. }
  assert (device_open_protected keys data = Some block) as Ho by (by apply device_open_protected_ok).
  assert (device_pin_block block = Some (PIN_ALG_AES256, PIN_DEFAULT_MAX_RETRY, p)) as Hblk by (subst block; rewrite <- (app_nil_r p) at 2; apply pin_block_ok).
  assert (forall apdu, take 4 apdu = SET_OTP_PIN -> apdu_body apdu = data -> key_run apdu (os_transport (drawn s)) = key_set_pin data (os_transport s)) as Hrun.
  { intros apdu Hh1 Hh2. unfold key_run. rewrite Hh1, Hh2. do 3 rewrite bool_decide_eq_false_2 by done. by rewrite bool_decide_eq_true_2 by done. }
  unfold key_set_pin in Hrun. rewrite <- (is_session s Hi), Hs1, Ho, Hblk in Hrun. unfold spec_set_pin.
  change (blocked (abs s)) with (pin_blocked (os_transport s)). cbn [abs st_pin].
  pose proof (drawn_step s Hi) as Hi2.
  destruct (pin_blocked (os_transport s)); [|destruct (k_pin (os_transport s)) as [old|] eqn:Hpin; [|case_bool_decide as Hnil]];
    (erewrite (command_run SET_OTP_PIN data) by first [done|exact Hrun]); cbv beta iota;
    cbn [fst snd]; (split; [done|split; [done|]]); try exact Hi2.
  apply (put_lock_step (Some p) PIN_DEFAULT_MAX_RETRY false (os_pin_verified s) (os_typed_pin_verified s) (drawn s)); try done. cbn.
  rewrite (is_window s Hi).
  destruct (k_open (os_transport s)) eqn:Hop; [|done]. by destruct (is_opened s Hi Hop).
Qed.

Lemma change_pin_sim current new s : in_step s ->
  simulates (change_pin_inner current new) (spec_change_pin current (default [] new)) s.
Proof.
  intros Hi. unfold change_pin_inner. destruct (ensure_session_run s Hi) as [(keys & s1 & He & Hi1 & Ha & Hs1)|[Hb He]].
  2:{ eapply simulates_eq; [|unfold spec_change_pin; by rewrite Hb|done]. by unfold mbind, io_bind; rewrite He. }
  unfold simulates. erewrite io_bind_Ok_eq by exact He. rewrite <- Ha. clear He Hi Ha s. rename s1 into s, Hi1 into Hi.
  destruct (blocked (abs s)) eqn:Hb.
  { eapply simulates_eq; [|unfold spec_change_pin; by rewrite Hb|done]. unfold mbind, io_bind. by rewrite (challenge_flag_run s keys Hi Hs1), Hb. }
  erewrite io_bind_Ok_eq by (rewrite (challenge_flag_run s keys Hi Hs1), Hb; reflexivity).
  erewrite io_bind_Ok_eq by (by apply challenge_rand_run). cbv beta iota.
  destruct (draw_iv_run s Hi) as (iv & Hd & Hiv). erewrite io_bind_Ok_eq by exact Hd. pose proof (drawn_step s Hi) as Hi2.
  set (np := default [] new). unfold spec_change_pin. rewrite Hb. destruct (255 <? zlen np) eqn:Hlong.
  { unfold build_change_pin_data. rewrite Hlong. unfold sealed. cbn [map_err]. by rewrite io_lift_Err. }
  bools. destruct (change_pin_eq keys iv np current km_rand (c_sha256 (default [] (k_pin (os_transport s)))) Hiv ltac:(lia)) as (data & Hbd & Hdl & Hdev).
  rewrite Hbd. unfold sealed. cbn [map_err]. rewrite io_lift_bind.
  assert (forall apdu, take 4 apdu = CHANGE_OTP_PIN -> apdu_body apdu = data -> key_run apdu (os_transport (drawn s)) = key_change_pin data (os_transport s)) as Hrun.
  { intros apdu Hh1 Hh2. unfold key_run. rewrite Hh1, Hh2. do 4 rewrite bool_decide_eq_false_2 by done. by rewrite bool_decide_eq_true_2 by done. }
  unfold key_change_pin in Hrun. rewrite <- (is_session s Hi), Hs1 in Hrun. cbn [abs st_pin].
  destruct (k_pin (os_transport s)) as [p|] eqn:Hpin. 
  - change (default [] (Some p)) with p in Hdev. unfold old_pin_matches. rewrite Hdev in Hrun. case_bool_decide as Hm.
    + (erewrite (command_run CHANGE_OTP_PIN data) by first [done|lia|exact Hrun]); cbv beta iota.
      assert (forall n : option (list Z), checked (T := OtpKey) (match n with Some _ => check_new_pin OK | None => check_pin OK end) = lift (Ok tt)) as -> by (by intros [|]).
      rewrite io_lift_bind. unfold set_verified, io_modify. cbn [fst snd]. split; [done|]. split; [done|].
      by apply (put_lock_step _ PIN_DEFAULT_MAX_RETRY false false false (drawn s)).
    + destruct (wrong_pin_step (drawn s) Hi2 Hb ltac:(cbn; by rewrite Hpin)) as [Hw Ht]. cbn in Hw, Ht. rewrite Hpin in Hw.
      unfold wrong_pin in Hrun. rewrite Hpin in Hrun.
      (erewrite (command_run CHANGE_OTP_PIN data) by first [done|lia|exact Hrun]); cbv beta iota.
      assert (match new with Some _ => check_new_pin (Z.lor 0x6300 (k_tries (os_transport s) - 1)) | None => check_pin (Z.lor 0x6300 (k_tries (os_transport s) - 1)) end
        = Err (PinInvalidRetries (k_tries (os_transport s) - 1))) as ->.
      { destruct new; [|by apply check_pin_63]. unfold check_new_pin. rewrite check_pin_63 by done.
        rewrite (proj2 (Z.eqb_neq _ ENTRY_NOT_FOUND)); [done|]. intros E. pose proof (check_pin_63 _ Ht) as Hc. rewrite E in Hc. done. }
      unfold checked, spend_try. cbn [map_err]. rewrite io_lift_Err. cbn. by rewrite Hpin.
  - (erewrite (command_run CHANGE_OTP_PIN data) by first [done|lia|exact Hrun]); cbv beta iota.
    assert (match new with Some _ => check_new_pin PIN_CONDITIONS_NOT_SATISFIED | None => check_pin PIN_CONDITIONS_NOT_SATISFIED end
      = Err PinConditionsNotSatisfied) as -> by (by destruct new).
    unfold checked. cbn [map_err]. rewrite io_lift_Err. cbn [fst snd]. by split.
Qed.

(** ** Writing *)

Definition unlocked (s : S) : Prop := k_pin (os_transport s) = None \/ k_open (os_transport s) = true.

Lemma seal_run plain s : in_step s -> unlocked s -> zlen plain <= 1000 ->
  exists blob, seal plain IV_OTP s = (Ok blob, drawn s) /\ zlen blob <= 0xFFFF /\
    key_write blob (os_transport s) =
    match read_write plain with Ok e => key_store e (os_transport s) | Err _ => refuse PIN_INVALID (os_transport s) end.
Proof.
  intros Hi Hu Hl. pose proof (zlen_nonneg plain). unfold seal. rewrite io_gets_bind. rewrite (is_window s Hi).
  destruct (k_open (os_transport s)) eqn:Hop.
  - destruct (is_opened s Hi Hop) as [Hp Hk]. destruct (k_session (os_transport s)) as [keys|] eqn:Hks; [|done].
    pose proof (is_session s Hi) as Hs. rewrite Hks in Hs.
    erewrite io_bind_Ok_eq by (rewrite io_gets_bind, Hs; reflexivity).
    destruct (draw_iv_run s Hi) as (iv & Hd & Hiv). erewrite io_bind_Ok_eq by exact Hd. eexists. split; [reflexivity|]. split.
    + unfold build_protected_write_data, session_encrypt. zlen. rewrite cbc_padded_length, tag_length. lia_div.
    + unfold key_write. destruct (k_pin (os_transport s)); [|done]. rewrite Hop, Hks. cbn [mbind option_bind].
      by rewrite device_open_protected_ok.
  - destruct Hu as [Hu|Hu]; [|by rewrite Hop in Hu]. pose proof (pubkey_run (os_transport s)) as Hf. unfold key_pubkey in Hf. rewrite Hu in Hf.
    sent Hf. rewrite check_OK, io_lift_bind. unfold draw_secret, draw. erewrite io_bind_Ok_eq by reflexivity.
    destruct (device_open_seed_ok (rnd_secret (os_random s) (rnd_drawn (os_random s))) (k_secret (os_transport s)) plain IV_OTP) as (blob & He & Ho & Hlen).
    rewrite He. exists blob. split; [done|]. split; [rewrite Hlen; lia_div|]. unfold key_write. by rewrite Hu, Ho.
Qed.

Lemma write_run {A} plain s (f : list Z * Z -> sio A) : in_step s -> unlocked s -> zlen plain <= 1000 ->
  (blob ← seal plain IV_OTP; apdu ← encoded (build_apdu WRITE_SEED blob); r ← send apdu false; f r) s =
  let '((d, sw), k) := match read_write plain with Ok e => key_store e (os_transport s) | Err _ => refuse PIN_INVALID (os_transport s) end in
  f (d, sw) (put_key k (drawn s)).
Proof.
  intros Hi Hu Hl. destruct (seal_run plain s Hi Hu Hl) as (blob & Hs & Hbl & Hw). erewrite io_bind_Ok_eq by exact Hs.
  destruct (match read_write plain with Ok e => _ | Err _ => _ end) as [[d sw] k] eqn:E.
  apply (command_run WRITE_SEED blob); [done|done|]. intros apdu Hh1 Hh2. unfold key_run. rewrite Hh1, Hh2.
  do 6 rewrite bool_decide_eq_false_2 by done. rewrite bool_decide_eq_true_2 by done. by rewrite <- Hw.
Qed.

Lemma put_entries_step es s : in_step s -> Forall storable es -> zlen es <= km_capacity ->
  in_step (put_key (set_entries es (os_transport s)) s).
Proof. intros [] Hs Hl. by split. Qed.

Lemma upsert_storable e es : storable e -> Forall storable es -> Forall storable (upsert e es).
Proof. intros He. induction 1 as [|x es Hx Hes IH]; cbn [upsert]; [by apply list.Forall_singleton|]. destruct (same_name _ _ x); by constructor. Qed.
Lemma upsert_length e es : zlen (upsert e es) = zlen es + if has_name (w_app e) (w_account e) es then 0 else 1.
Proof.
  induction es as [|x es IH]; [done|]. cbn [upsert has_name existsb]. destruct (same_name _ _ x); cbn [orb]; zlen; [lia|].
  unfold has_name in IH. rewrite IH. lia.
Qed.
Lemma without_storable ap ac es : Forall storable es -> Forall storable (without ap ac es).
Proof. rewrite !List.Forall_forall. intros Hf x Hx. apply Hf. by apply filter_In in Hx as [Hx _]. Qed.
Lemma without_length ap ac es : zlen (without ap ac es) <= zlen es.
Proof. unfold zlen, without. pose proof (filter_length_le (fun e => negb (same_name ap ac e)) es). lia. Qed.

Lemma store_sim e s : in_step s -> storable e -> w_seed e <> [] -> 
  let '((d, sw), k) := key_store e (os_transport s) in
  (checked (check sw) (put_key k s)).1 = (spec_store e (abs s)).1 /\ abs (put_key k s) = (spec_store e (abs s)).2 /\ in_step (put_key k s).
Proof.
  intros Hi He Hs. unfold key_store, spec_store. rewrite bool_decide_eq_false_2 by done. cbn [abs st_entries].
  destruct (negb _ && _) eqn:Hfull; [unfold refuse; by rewrite put_key_id|]. cbn [fst snd]. split; [done|]. split; [done|].
  apply put_entries_step; [done|by apply upsert_storable, is_storable|]. rewrite upsert_length. pose proof (is_room s Hi).
  destruct (has_name _ _ _); cbn [negb andb] in Hfull; bools; lia.
Qed.
Lemma remove_sim ap ac s : in_step s ->
  let '((d, sw), k) := key_store (mkWrite Hotp Sha1 0 0 false ap ac []) (os_transport s) in
  (checked (check sw) (put_key k s)).1 = (spec_remove ap ac (abs s)).1 /\ abs (put_key k s) = (spec_remove ap ac (abs s)).2 /\ in_step (put_key k s).
Proof.
  intros Hi. unfold key_store, spec_remove. cbn [w_seed w_app w_account]. rewrite bool_decide_eq_true_2 by done. cbn [abs st_entries].
  destruct (has_name ap ac _); [|unfold refuse; by rewrite put_key_id]. cbn [fst snd]. split; [done|]. split; [done|].
  apply put_entries_step; [done|by apply without_storable, is_storable|]. pose proof (without_length ap ac (k_entries (os_transport s))). pose proof (is_room s Hi). lia.
Qed.

(** ** Listing *)

Lemma zlen_map {A B} (f : A -> B) l : zlen (map f l) = zlen l.
Proof. unfold zlen. by rewrite length_map. Qed.

Lemma listed_ok t e : storable e -> entry_ok false (listed t e).
Proof.
  intros (Ht & Ha & Hc & Hn). split; [done|]. split; [done|]. split; [done|]. split; [done|]. unfold has_code, listed. cbn [e_code e_type e_button].
  destruct (bool_decide (w_type e = Totp) && negb (w_button e)); cbn [orb]; [|done]. split; [done|apply km_code_ok].
Qed.

Lemma put_rest_step rest s : in_step s -> in_step (put_key (set_rest rest (os_transport s)) s).
Proof. intros []. by split. Qed.

(** The page the key sends is the page the session reads. *)
Lemma page_run t page rest s : in_step s -> unlocked s ->
  let plain := page_bytes (negb (bool_decide (rest = []))) (map (listed t) page) in
  exists sent, key_page t (page :: rest) (os_transport s) = ((sent, OK), set_rest rest (os_transport s)) /\
    forall s', in_step s' -> os_pin_session s' = os_pin_session s -> os_pin_verified s' = os_pin_verified s ->
      maybe_decrypt_page sent s' = (Ok plain, s').
Proof.
  intros Hi Hu plain. unfold key_page. fold plain. destruct (k_open (os_transport s)) eqn:Hop.
  - destruct (is_opened s Hi Hop) as [Hp Hk]. destruct (k_pin (os_transport s)) as [p|]; [|done].
    destruct (k_session (os_transport s)) as [keys|] eqn:Hks; [|done]. eexists. split; [done|]. intros s' Hi' Hs' Hv'.
    unfold maybe_decrypt_page. rewrite io_gets_bind, Hv', (is_window s Hi), Hop. cbn [negb].
    unfold session_keys. erewrite io_bind_Ok_eq by (rewrite io_gets_bind, Hs', (is_session s Hi), Hks; reflexivity).
    unfold build_protected_write_data, session_encrypt. set (enc := cbc_enc_padded (sk_enc keys) km_iv plain).
    assert (zlen enc = 16 * (zlen plain / 16 + 1)) as Hl by apply cbc_padded_length. pose proof (zlen_nonneg plain).
    rewrite (proj2 (Z.ltb_ge _ _)) by (zlen; rewrite tag_length, km_iv_length, Hl; lia_div).
    rewrite split_at_len by apply km_iv_length. cbv beta iota. rewrite split_at_len by (zlen; rewrite tag_length; lia). cbv beta iota.
    destruct (c_hmac_out (sk_mac keys) enc) as [Hb _].
    rewrite (proj2 (verify_auth_tag_iff (sk_mac keys) enc (session_auth_tag (sk_mac keys) enc) (Forall_take _ _ _ Hb))) by done.
    unfold sealed. cbn [map_err]. rewrite io_lift_bind. unfold session_decrypt, whole_blocks.
    rewrite bool_decide_eq_false_2 by (intros Hn; rewrite Hn in Hl; change (zlen (@nil Z)) with 0 in Hl; lia_div).
    rewrite Hl. rewrite (Z.mul_comm 16), Z.mod_mul by lia. cbn [negb andb Z.eqb].
    subst enc. rewrite cbc_padded_inverse. done.
  - destruct Hu as [Hu|Hu]; [|by rewrite Hop in Hu]. rewrite Hu. eexists. split; [done|]. intros s' Hi' _ Hv'.
    unfold maybe_decrypt_page. by rewrite io_gets_bind, Hv', (is_window s Hi), Hop.
Qed.

Definition page_ok (page : list WriteEntry) : Prop := page <> [] /\ Forall storable page.
Lemma parse_listed t page more : page_ok page -> parse_enum_page (page_bytes more (map (listed t) page)) = Ok (mkPage (map (listed t) page) more).
Proof.
  intros [Hn Hs]. apply parse_page_bytes; [|by destruct page]. apply List.Forall_map. apply list.Forall_forall. intros e He.
  rewrite list.Forall_forall in Hs. by apply listed_ok, Hs.
Qed.

Lemma enum_loop_run t rest : is_word 64 t -> Forall page_ok rest -> forall fuel pages entries s,
  in_step s -> unlocked s -> k_rest (os_transport s) = rest -> (length rest <= fuel)%nat ->
  pages + zlen rest <= MAX_ENUM_PAGES -> zlen entries + zlen (concat rest) <= MAX_ENUM_ENTRIES ->
  exists s', enum_loop fuel t pages entries (negb (bool_decide (rest = []))) s = (Ok (entries ++ map (listed t) (concat rest)), s') /\
    in_step s' /\ abs s' = abs s.
Proof.
  intros Ht. induction 1 as [|page rest Hp Hr IH]; intros fuel pages entries s Hi Hu Hk Hf Hpg Hen.
  { exists s. destruct fuel; cbn; by rewrite app_nil_r. }
  destruct fuel as [|fuel]; [simpl in Hf; lia|]. rewrite bool_decide_eq_false_2 by done. cbn [negb enum_loop].
  rewrite (proj2 (Z.ltb_ge MAX_ENUM_PAGES _)) by (zlen; pose proof (zlen_nonneg rest); lia).
  rewrite (proj2 (Z.ltb_ge MAX_ENUM_ENTRIES _)) by (pose proof (zlen_nonneg (concat (page :: rest))); lia). cbn [orb].
  destruct (page_run t page rest s Hi Hu) as (data & Hpage & Hdec).
  erewrite (command_run ENUM_CODES_CONTINUE (to_be 8 t) s data OK (set_rest rest (os_transport s))).
  2: done. 2: unfold zlen; by rewrite length_to_be.
  2:{ intros apdu Hh1 Hh2. unfold key_run. rewrite Hh1, Hh2. do 8 rewrite bool_decide_eq_false_2 by done. rewrite bool_decide_eq_true_2 by done.
      unfold key_continue, readable. rewrite Hk, from_be_to_be_small by exact Ht.
      assert (negb (bool_decide (k_pin (os_transport s) = None) || k_open (os_transport s)) = false) as ->; [|done].
      destruct Hu as [-> | ->]; [by rewrite bool_decide_eq_true_2|by rewrite orb_true_r]. }
  cbv beta iota. rewrite check_OK, io_lift_bind. set (s1 := put_key (set_rest rest (os_transport s)) s).
  assert (in_step s1) as Hi1 by by apply put_rest_step.
  erewrite io_bind_Ok_eq by (by apply Hdec). rewrite parse_listed by done. unfold parsed. cbn [map_err]. rewrite io_lift_bind. cbn [p_entries p_more].
  destruct (IH fuel (pages + 1) (entries ++ map (listed t) page) s1) as (s' & Hl & Hi' & Ha'); try done.
  - simpl in Hf. lia.
  - revert Hpg. zlen. lia.
  - revert Hen. cbn [concat]. rewrite !zlen_app, zlen_map. lia.
  - exists s'. rewrite Hl. cbn [concat]. rewrite map_app, app_assoc. done.
Qed.

Lemma enumerate_run t s : is_word 64 t -> in_step s -> unlocked s ->
  exists s', enumerate t s = (Ok (map (listed t) (k_entries (os_transport s))), s') /\ in_step s' /\ abs s' = abs s.
Proof.
  intros Ht Hi Hu. unfold enumerate. set (es := k_entries (os_transport s)).
  set (pages := chunks (Z.to_nat km_page) es). destruct (km_capacity_listable) as [Hc1 Hc2]. pose proof km_page_pos as Hpp.
  pose proof (is_room s Hi) as Hroom. fold es in Hroom.
  assert (concat pages = es) as Hcat by (apply concat_chunks; lia).
  assert (forall apdu d, take 4 apdu = ENUM_CODES -> apdu_body apdu = serialize_enum_all t -> key_page t pages (os_transport s) = d ->
    key_run apdu (os_transport s) = d) as Hrun.
  { intros apdu d Hh1 Hh2 <-. unfold key_run. rewrite Hh1, Hh2. do 7 rewrite bool_decide_eq_false_2 by done. rewrite bool_decide_eq_true_2 by done.
    unfold key_enum, readable. assert (negb (bool_decide (k_pin (os_transport s) = None) || k_open (os_transport s)) = false) as ->
      by (destruct Hu as [-> | ->]; [by rewrite bool_decide_eq_true_2|by rewrite orb_true_r]).
    unfold serialize_enum_all. rewrite Z.eqb_refl, from_be_to_be_small by exact Ht. done. }
  destruct pages as [|page rest] eqn:Hpages.
  { erewrite (command_run ENUM_CODES (serialize_enum_all t) s [] ENTRY_NOT_FOUND_ALT (os_transport s)); [|done|done|by intros; apply Hrun].
    exists s. rewrite put_key_id. by rewrite <- Hcat. }
  destruct (page_run t page rest s Hi Hu) as (data & Hpage & Hdec).
  erewrite (command_run ENUM_CODES (serialize_enum_all t) s data OK (set_rest rest (os_transport s))); [|done|done|by intros; apply Hrun].
  cbv beta iota. change (check OK) with (Ok (E := OtpError) tt). cbv iota. set (s1 := put_key (set_rest rest (os_transport s)) s).
  assert (in_step s1) as Hi1 by by apply put_rest_step.
  assert (Forall page_ok (page :: rest)) as Hok.
  { apply list.Forall_forall. intros c Hc. rewrite <- Hpages in Hc. split; [|].
    - pose proof (chunks_bounded (Z.to_nat km_page) es ltac:(lia)) as Hb. rewrite list.Forall_forall in Hb. by apply Hb in Hc as [Hne _].
    - pose proof (is_storable s Hi) as Hst. fold es in Hst. rewrite <- Hcat, <- Hpages in Hst. rewrite List.Forall_concat in Hst.
      rewrite List.Forall_forall in Hst. apply Hst. by apply list_elem_of_In. }
  apply list.Forall_cons in Hok as [Hpok Hrok].
  erewrite io_bind_Ok_eq by (by apply Hdec). rewrite parse_listed by done. unfold parsed. cbn [map_err]. rewrite io_lift_bind. cbn [p_entries p_more].
  assert (zlen (page :: rest) <= MAX_ENUM_PAGES) as Hnp.
  { rewrite <- Hpages. unfold pages, zlen. rewrite length_chunks by lia. fold (zlen es). unfold MAX_ENUM_PAGES. rewrite Z2Nat.id by lia. enough ((zlen es + km_page - 1) / km_page < 257) by lia. apply Z.div_lt_upper_bound; lia. }
  assert (zlen (map (listed t) page) + zlen (concat rest) <= MAX_ENUM_ENTRIES) as Hne.
  { rewrite zlen_map, <- zlen_app. change (page ++ concat rest) with (concat (page :: rest)). rewrite Hcat. unfold MAX_ENUM_ENTRIES. lia. }
  destruct (enum_loop_run t rest Ht Hrok enum_fuel 1 (map (listed t) page) s1) as (s' & Hl & Hi' & Ha'); try done.
  { revert Hnp. zlen. unfold enum_fuel, zlen. lia. }
  { revert Hnp. by zlen. }
  erewrite io_bind_Ok_eq by exact Hl. rewrite <- map_app. change (page ++ concat rest) with (concat (page :: rest)). rewrite Hcat.
  rewrite (proj2 (Z.ltb_ge _ _)) by (rewrite zlen_map; unfold MAX_ENUM_ENTRIES; lia). by exists s'.
Qed.

(** ** Each operation *)

Definition st_unlocked (st : Store) : Prop := st_pin st = None \/ st_open st = true.

Lemma spec_unlock_unlocked given st st' : spec_unlock given st = (Ok tt, st') -> st_unlocked st'.
Proof.
  unfold spec_unlock, st_unlocked. destruct (blocked st); [done|]. destruct (st_pin st) as [p|] eqn:Hp, given as [q|]; try done.
  - destruct (proof_matches p q); [|done]. intros [= <-]. by right.
  - intros [= <-]. by left.
  - intros [= <-]. by left.
Qed.
Lemma spec_closed_unlocked given st st' : (st_open st = true -> st_pin st <> None) -> spec_unlock_closed given st = (Ok tt, st') -> st_unlocked st'.
Proof.
  intros Ho. unfold spec_unlock_closed. destruct (st_open st) eqn:Hop; [intros [= <-]; by right|]. apply spec_unlock_unlocked.
Qed.

Lemma unlock_sim pin s : in_step s -> simulates (unlock_if_pinned pin) (spec_unlock pin) s.
Proof.
  intros Hi. destruct (pin_is_set_run s Hi) as (r & s' & Hp & Ha & Hi' & _ & _ & Hr). unfold unlock_if_pinned, simulates.
  unfold mbind, io_bind. rewrite Hp. rewrite <- Ha in *. subst r. destruct (blocked (abs s')) eqn:Hb.
  { unfold spec_unlock. by rewrite Hb. }
  destruct (st_pin (abs s')) as [p|] eqn:Hpin.
  - rewrite bool_decide_eq_false_2 by done. cbn [negb]. destruct pin as [q|].
    + apply verify_pin_sim; [done|by rewrite Hpin].
    + unfold spec_unlock. by rewrite Hb, Hpin.
  - rewrite bool_decide_eq_true_2 by done. cbn [negb]. unfold spec_unlock. by rewrite Hb, Hpin.
Qed.
Lemma unlock_closed_sim pin s : in_step s -> simulates (unlock_unless_verified pin) (spec_unlock_closed pin) s.
Proof.
  intros Hi. unfold unlock_unless_verified, spec_unlock_closed, simulates. rewrite io_gets_bind, (is_window s Hi).
  change (st_open (abs s)) with (k_open (os_transport s)). destruct (k_open (os_transport s)); [done|by apply unlock_sim].
Qed.
Lemma unlocked_after {A} (m : sio A) (sp : io Store OtpTransportError A) s a s' :
  simulates m sp s -> m s = (Ok a, s') -> (forall st', sp (abs s) = (Ok a, st') -> st_unlocked st') -> unlocked s'.
Proof.
  intros (Hr & Ha & _) Hm Hu. rewrite Hm in Hr, Ha. cbn [fst snd] in *. destruct (sp (abs s)) as [r st]. cbn [fst snd] in *. subst r st.
  by apply (Hu (abs s')).
Qed.
Lemma open_has_pin s : in_step s -> st_open (abs s) = true -> st_pin (abs s) <> None.
Proof. intros Hi Ho. by apply (is_opened s Hi). Qed.

Definition op_ok (op : StoreOp) : Prop :=
  match op with
  | OpList t _ => is_word 64 t
  | OpWrite e _ => is_word 16 (w_timestep e) /\ Bytes (w_app e) /\ Bytes (w_account e)
  | OpDelete ap ac _ => Bytes ap /\ Bytes ac
  | OpSetPin p => zlen p <= 255
  | OpChangePin _ _ | OpRemovePin _ => True
  end.

Lemma allowed_storable e data : is_word 16 (w_timestep e) -> Bytes (w_app e) -> Bytes (w_account e) ->
  serialize_write_entry e = Ok data -> storable e /\ w_seed e <> [] /\ zlen data <= 1000.
Proof.
  intros Ht Hba Hbc Hd. unfold serialize_write_entry in Hd. inv_bind Hd. destruct a. apply validate_common_ok in Hb as (_ & _ & Ha & Hc).
  destruct (_ || _) eqn:Hs; [done|]. bools. injection Hd as <-. destruct Ha as [Hal Haa], Hc as [Hcl Hca].
  split; [split; [done|split; [by apply (ascii_name _ 0)|split; [by apply (ascii_name _ 1)|]]]|split].
  - intros E. rewrite E in Hcl. change (zlen (@nil Z)) with 0 in Hcl. lia.
  - by case_bool_decide.
  - assert (zlen (to_be 2 (w_timestep e)) = 2) by (unfold zlen; by rewrite length_to_be). unfold len_prefixed. zlen. lia.
Qed.
Lemma delete_short ap ac data : serialize_delete_entry ap ac = Ok data -> zlen data <= 1000.
Proof.
  intros Hd. unfold serialize_delete_entry in Hd. inv_bind Hd. destruct a. inv_bind Hd. destruct a. injection Hd as <-.
  apply validate_app_ok in Hb as [Ha _]. apply validate_account_ok in Hb0 as [Hc _]. unfold len_prefixed. zlen. lia.
Qed.

Lemma list_sim t pin s : is_word 64 t -> in_step s -> simulates (session_op (OpList t pin)) (spec_op (OpList t pin)) s.
Proof.
  intros Ht Hi. apply (simulates_bind (unlock_if_pinned pin) (spec_unlock pin)); [by apply unlock_sim|]. intros [] s1 Hm1 Hi1.
  assert (unlocked s1) as Hu by (apply (unlocked_after (unlock_if_pinned pin) (spec_unlock pin) s tt s1); [by apply unlock_sim|done|apply spec_unlock_unlocked]).
  destruct (enumerate_run t s1 Ht Hi1 Hu) as (s' & He & Hi' & Ha). eapply simulates_eq; [exact He| |done]. unfold io_gets. by rewrite Ha.
Qed.

(** What a store action does with an opened write. *)
Definition stores (e : WriteEntry) (sp : io Store OtpTransportError unit) : Prop := forall s, in_step s ->
  let '((d, sw), k) := key_store e (os_transport s) in
  (checked (check sw) (put_key k s)).1 = (sp (abs s)).1 /\ abs (put_key k s) = (sp (abs s)).2 /\ in_step (put_key k s).

Lemma sealed_sim (r : result ParseError (list Z)) e sp pin s :
  (forall data, r = Ok data -> zlen data <= 1000 /\ read_write data = Ok e /\ stores e sp) -> in_step s ->
  simulates (_ ← unlock_unless_verified pin; cleartext ← parsed r; seal_and_send WRITE_SEED cleartext IV_OTP)
            (spec_write r sp pin) s.
Proof.
  intros Hr Hi. unfold spec_write. apply simulates_bind; [by apply unlock_closed_sim|]. intros [] s1 Hm1 Hi1.
  assert (unlocked s1) as Hu.
  { apply (unlocked_after (unlock_unless_verified pin) (spec_unlock_closed pin) s tt s1); [by apply unlock_closed_sim|done|]. intros st'. apply spec_closed_unlocked. by apply open_has_pin. }
  apply simulates_bind; [by apply simulates_lift|]. intros data s2 Hm2 _. unfold parsed in Hm2. destruct r as [data'|]; [|done].
  injection Hm2 as <- <-. destruct (Hr data' eq_refl) as (Hlen & Hread & Hst).
  unfold seal_and_send, simulates. rewrite write_run by done. rewrite Hread.
  pose proof (Hst (drawn s1) (drawn_step s1 Hi1)) as Hsim. change (os_transport (drawn s1)) with (os_transport s1) in Hsim.
  destruct (key_store e (os_transport s1)) as [[d sw] k]. cbv beta iota in Hsim |- *. destruct Hsim as (Hr1 & Ha & Hi3).
  change (abs (drawn s1)) with (abs s1) in Hr1, Ha. by destruct (check sw).
Qed.

Lemma write_sim e pin s : op_ok (OpWrite e pin) -> in_step s ->
  simulates (write_entry_pinned e pin) (spec_write (serialize_write_entry e) (spec_store e) pin) s.
Proof.
  intros (Ht & Hba & Hbc) Hi. apply (sealed_sim (serialize_write_entry e) e); [|done]. intros data Hd.
  destruct (allowed_storable e data Ht Hba Hbc Hd) as (Hst & Hsd & Hl). split; [done|]. split; [by apply serialize_write_read|].
  intros s1 Hi1. by apply store_sim.
Qed.

Lemma op_sim op s : op_ok op -> in_step s -> simulates (session_op op) (spec_op op) s.
Proof.
  intros Hop Hi. destruct op as [t pin|e pin|ap ac pin|p|cur new|cur].
  - by apply list_sim.
  - apply (simulates_bind (write_entry_pinned e pin) (spec_write (serialize_write_entry e) (spec_store e) pin)); [by apply write_sim|].
    intros [] s1 _ Hi1. by apply simulates_ret.
  - destruct Hop as (Hba & Hbc).
    apply (simulates_bind (delete_entry_pinned ap ac pin) (spec_write (serialize_delete_entry ap ac) (spec_remove ap ac) pin)); [|intros [] s1 _ Hi1; by apply simulates_ret].
    apply (sealed_sim (serialize_delete_entry ap ac) (mkWrite Hotp Sha1 0 0 false ap ac [])); [|done]. intros data Hd.
    split; [by eapply delete_short|]. split; [by apply serialize_delete_read|]. intros s1 Hi1. by apply remove_sim.
  - apply (simulates_bind (set_pin p)); [by apply set_pin_sim|]. intros [] s1 _ Hi1. by apply simulates_ret.
  - apply (simulates_bind (change_pin cur new)); [by apply (change_pin_sim cur (Some new))|]. intros [] s1 _ Hi1. by apply simulates_ret.
  - apply (simulates_bind (remove_pin cur)); [by apply (change_pin_sim cur None)|]. intros [] s1 _ Hi1. by apply simulates_ret.
Qed.

Lemma run_ops_sim ops s : Forall op_ok ops -> in_step s ->
  (run_ops session_op ops s).1 = (run_ops spec_op ops (abs s)).1 /\ abs (run_ops session_op ops s).2 = (run_ops spec_op ops (abs s)).2 /\
  in_step (run_ops session_op ops s).2.
Proof.
  intros Hops. revert s. induction Hops as [|op ops Hop Hops IH]; intros s Hi; [done|]. cbn [run_ops].
  destruct (op_sim op s Hop Hi) as (Hr & Ha & Hi'). destruct (session_op op s) as [r s1], (spec_op op (abs s)) as [r' st]. cbn [fst snd] in *. subst r' st.
  destruct (IH s1 Hi') as (Hrs & Has & Hi2). destruct (run_ops session_op ops s1), (run_ops spec_op ops (abs s1)). cbn [fst snd] in *. by subst.
Qed.

(** * Properties *)

(** A key just plugged in: no session, the window closed. *)
Record plugged_in (k : OtpKey) : Prop := {
  pi_session : k_session k = None;
  pi_closed : k_open k = false;
  pi_tries : 0 <= k_tries k <= 255;
  pi_storable : Forall storable (k_entries k);
  pi_room : zlen (k_entries k) <= km_capacity
}.

(** C37: a session with a Token2 key is a session with a plain list of entries
    and a PIN. For every key just plugged in, protected or not, and every
    sequence of listing, adding, deleting and setting, changing and removing the
    PIN, with right PINs, wrong ones or none, the session gives operation by
    operation the results the list gives, and leaves on the key what the list
    then holds: an added entry is listed with all its fields in its place, one
    of the same name replaced, the others untouched, over as many pages as it
    takes; a deletion removes that entry only; nothing is read or written on a
    protected key without its PIN, and a wrong one costs one attempt; a full
    store, a blocked PIN and a PIN set twice are refused with nothing changed. *)
Theorem token2_session_refines (k : OtpKey) (is_pcsc : bool) (r : Random) (ops : list StoreOp) :
  plugged_in k -> (forall n, zlen (rnd_iv r n) = 16) -> Forall op_ok ops ->
  (run_ops session_op ops (wrap k is_pcsc r)).1 = (run_ops spec_op ops (abs (wrap k is_pcsc r))).1 /\
  abs (run_ops session_op ops (wrap k is_pcsc r)).2 = (run_ops spec_op ops (abs (wrap k is_pcsc r))).2.
Proof.
  intros [Hs Hc Ht Hst Hr] Hiv Hops.
  assert (in_step (wrap k is_pcsc r)) as Hi by (split; cbn; try done; by rewrite Hc).
  by destruct (run_ops_sim ops (wrap k is_pcsc r) Hops Hi) as (Hra & Hrb & _).
Qed.
End refinement.

(** ** A concrete key *)

#[export] Instance toy_make : KeyMake := {
  km_iv := replicate 16 1; km_rand := replicate 16 3; km_code t e := s2b "123456"; km_page := 2; km_capacity := 100
}.
#[export] Instance toy_make_laws : KeyMakeLaws.
Proof. split; try by_decision. intros t e. split; [vm_compute; discriminate|by_decision]. Qed.

Definition toy_random : Random := mkRandom _ (fun n => toy_host) (fun n => replicate 16 (Z.of_nat n mod 256)) 0.
Definition blank_key : OtpKey := mkKey [] None 100 toy_device None false [].
Definition entry_30 : WriteEntry := mkWrite Totp Sha1 30 6 false (s2b "Acme") (s2b "bob") (s2b "secret").
Definition some_ops : list StoreOp :=
  [OpSetPin (s2b "431907"); OpWrite write_60 (Some (s2b "431907")); OpWrite entry_30 None; OpList 59 (Some (s2b "431907"));
   OpList 59 None; OpDelete (s2b "Acme") (s2b "me") None; OpDelete (s2b "Acme") (s2b "me") None].

Lemma token2_session_refines_witness :
  (run_ops session_op some_ops (wrap blank_key false toy_random)).1 =
  [Ok []; Ok []; Ok []; Ok [listed 59 write_60; listed 59 entry_30]; Err XPinRequired; Ok []; Err (XApplet EntryNotFound)].
Proof.
  rewrite (proj1 (token2_session_refines blank_key false toy_random some_ops
    ltac:(split; by_decision) ltac:(intros n; cbn [rnd_iv toy_random]; unfold zlen; by rewrite length_replicate)
    ltac:(repeat (apply list.Forall_cons; split); by first [by_decision|repeat split; by_decision|constructor]))).
  vm_compute. reflexivity.
Defined.

(** ** A window opened and locked *)

(** A key with a PIN, and the session after a wrong and the right one. *)
Definition pinned_key : OtpKey := mkKey [] (Some (s2b "431907")) 100 toy_device None false [].
Definition fresh_session : Token2OtpSession (Logged OtpKey) := wrap (mkLogged pinned_key []) false toy_random.
Definition refused_session : Token2OtpSession (Logged OtpKey) := (run_call (CVerifyPin (s2b "0000")) fresh_session).2.
Definition opened_session : Token2OtpSession (Logged OtpKey) := (run_call (CVerifyPin (s2b "431907")) refused_session).2.

Lemma token2_session_consistent_witness :
  (os_typed_pin_verified refused_session = false /\ heard (log refused_session) = (false, false)) /\
  os_typed_pin_verified opened_session = true /\
  (heard (log opened_session)).2 = true /\ is_Some (os_pin_session opened_session) /\
  (forall c, (run_call c opened_session).1 <> Err XPinSessionMissing) /\
  os_pin_verified (run_call CLockPin opened_session).2 = false.
Proof.
  assert (reachable opened_session) as Hr by (apply r_call, r_call, r_wrap; intros n; cbn [rnd_iv toy_random]; unfold zlen; by rewrite length_replicate).
  destruct (token2_session_consistent opened_session) as (_ & Hp & Ht & Hk & Hm & _ & _ & Hl); [|exact Hr|].
  { intros apdu detect t. cbn [otp_transmit key_transport]. by destruct (key_run apdu t). }
  assert (os_typed_pin_verified opened_session = true) as E by (vm_compute; reflexivity).
  split; [split; vm_compute; reflexivity|]. split; [exact E|]. split; [exact (Hp E)|]. split; [exact (Hk (Ht E))|]. split; [exact Hm|].
  apply (Hl CLockPin (run_call CLockPin opened_session).2); [exists [], []; by left|].
  assert ((run_call CLockPin opened_session).1 = Ok tt) as E2 by (vm_compute; reflexivity).
  rewrite <- E2. apply surjective_pairing.
Defined.
