(* ===== verification/PgpSession.v ===== *)
(** keyroost-transport/src/openpgp.rs: the OpenPGP card session over a reader's
    card. A call takes the session and leaves it; the random source is the list
    of what the operating system will give; [p_chaining] is whether
    KEYROOST_OPENPGP_FORCE_CHAINING is set. Listing readers is a loop over the
    PC/SC service and is left out. *)
From S2P Require OathSession Token2Wire PivApdu.
From S2P Require Export Applet.
From S2P Require Export PgpData.

(** * Errors *)

(** The variants of [TransportError] this file makes, and those of the exchange. *)
Inductive PgpError (PE : Type) :=
  | PTransport (e : TransportError PE)
  | PParse (e : ParseError)
  | NoOpenPgpApplet
  | PinRejected (tries_remaining : option Z)
  | PinGuessAccepted
  | PExponentTooWide
  | PSlotMismatch (m : SlotMismatch)
  | SlotNotRsa (slot label : list Z)
  | AlgorithmRefused (slot label : list Z)
  | FingerprintMismatch (slot : list Z)
  | KeySetPartial (done : list (list Z)) (failed : list Z) (slot_changed : bool) (cause : PgpError PE)
  | KeyNotForAlgorithm (slot label : list Z).
Arguments PTransport {PE} e.
Arguments PParse {PE} e.
Arguments NoOpenPgpApplet {PE}.
Arguments PinRejected {PE} tries_remaining.
Arguments PinGuessAccepted {PE}.
Arguments PExponentTooWide {PE}.
Arguments PSlotMismatch {PE} m.
Arguments SlotNotRsa {PE} slot label.
Arguments AlgorithmRefused {PE} slot label.
Arguments FingerprintMismatch {PE} slot.
Arguments KeySetPartial {PE} done failed slot_changed cause.
Arguments KeyNotForAlgorithm {PE} slot label.

Definition SW_FILE_NOT_FOUND : Z := 0x6A82.
Definition apdu_error {PE} (label : list Z) (sw : Z) : PgpError PE := PTransport (TApdu label (cast 8 (Z.shiftr sw 8)) (cast 8 sw)).
Definition ok_or_apdu {PE} (label : list Z) (sw : Z) : result (PgpError PE) unit := if sw =? SW_OK then Ok tt else Err (apdu_error label sw).
(** A builder's panic. *)
Definition built {S PE A} (o : option A) : io S (PgpError PE) A := match o with Some a => mret a | None => lift (Err (PTransport TPanic)) end.
(** A call whose error is looked at. *)
Definition tried {S E A} (m : io S E A) : io S E (result E A) := fun s => let '(r, s) := m s in (Ok r, s).

(** * Slots *)

Definition crt_label : KeyCrt -> list Z := by_slot (s2b "signature") (s2b "decryption") (s2b "authentication").
Definition crt_flag_name : KeyCrt -> list Z := by_slot (s2b "sign") (s2b "decrypt") (s2b "auth").

(** * Serials *)

(** [for shift in (0..128).step_by(4).rev()]. *)
Fixpoint bcd_digits (n : nat) (serial decoded : Z) : Z :=
  match n with
  | O => decoded
  | S n =>
      let nibble := Z.land (Z.shiftr serial (4 * Z.of_nat n)) 0xF in
      if 9 <? nibble then serial else bcd_digits n serial (decoded * 10 + nibble)
  end.
Definition decode_bcd_serial (serial : Z) : Z := bcd_digits 32 serial 0.
Definition wants_otp_applet_serial (aid : list Z) : bool := bool_decide (aid_manufacturer_id aid = Some MANUFACTURER_ID_TOKEN2).

Record OpenPgpStatus := mkStatus {
  st_aid : list Z; st_sig_algo_id : option Z; st_dec_algo_id : option Z; st_aut_algo_id : option Z;
  sig_attrs : list Z; dec_attrs : list Z; aut_attrs : list Z;
  st_fingerprint_sig : list Z; st_fingerprint_dec : list Z; st_fingerprint_aut : list Z;
  st_tries_pw1 : Z; st_tries_rc : Z; st_tries_pw3 : Z; signature_count : option Z; otp_applet_serial : option Z
}.
Definition aid_serial (aid : list Z) : option (list Z) := if zlen aid <? 14 then None else Some (slice aid 10 14).
Definition serial (s : OpenPgpStatus) : option Z :=
  raw ← from_be <$> aid_serial (st_aid s);
  if bool_decide (aid_manufacturer_id (st_aid s) = Some MANUFACTURER_ID_TOKEN2)
  then let decoded := decode_bcd_serial raw in Some (if decoded <? 2 ^ 32 then decoded else raw)
  else Some raw.
Definition full_serial (s : OpenPgpStatus) : option Z := match otp_applet_serial s with Some n => Some n | None => serial s end.
Definition serial_text (s : OpenPgpStatus) : option (list Z) :=
  match otp_applet_serial s with Some n => Some (dec n) | None => b ← aid_serial (st_aid s); Some (concat (map hex_upper b)) end.
Definition algorithm_label (s : OpenPgpStatus) (crt : KeyCrt) : list Z :=
  describe_algorithm_attributes (by_slot (sig_attrs s) (dec_attrs s) (aut_attrs s) crt).

(** * Guesses *)

Definition GUESS_LEN : nat := 8.
Definition credential_guess_from (raw : list Z) (previous : option (list Z)) : list Z :=
  let guess := map (fun byte => 48 + byte mod 10) raw in
  if bool_decide (previous = Some guess) then
    let last := (GUESS_LEN - 1)%nat in <[last := 48 + (guess !!! last - 48 + 1) mod 10]> guess
  else guess.

(** * Keys to import *)

Inductive ImportKey := IRsa (parts : RsaPrivateKeyParts) | IEcc (parts : EccPrivateKeyParts).
Record KeyImport := mkKeyImport { k_crt : KeyCrt; k_alg : KeyAlg; k_key : ImportKey; k_created : Z; expect_fpr : list Z; expect_public : PublicKey }.

Definition slot_failure {PE} (done : list (list Z)) (crt : KeyCrt) (changed : bool) (cause : PgpError PE) : PgpError PE :=
  if bool_decide (done = []) && negb changed then cause else KeySetPartial done (crt_label crt) changed cause.
Definition bits_of (n : list Z) : Z := match drop_zeros n with [] => 0 | top :: rest => zlen (top :: rest) * 8 - (8 - top_bits top) end.
Definition key_fits (alg : KeyAlg) (key : ImportKey) : bool :=
  match key, alg_curve alg with
  | IRsa parts, None => bool_decide (rsa_bits alg = Some (bits_of (r_n parts)))
  | IEcc parts, Some curve => ecc_scalar_fits (scalar parts) (field_len curve)
  | _, _ => false
  end.
(** [alg.attributes(crt)], its panic a panic. *)
Definition slot_attributes {PE} (alg : KeyAlg) (crt : KeyCrt) : result (PgpError PE) (list Z) :=
  match attributes alg crt with Ok (Some attr) => Ok attr | Ok None => Err (PTransport TPanic) | Err m => Err (PSlotMismatch m) end.
Definition check_import {PE} (crt : KeyCrt) (alg : KeyAlg) (key : ImportKey) : result (PgpError PE) unit :=
  _ ← slot_attributes alg crt;
  if key_fits alg key then Ok tt else Err (KeyNotForAlgorithm (crt_label crt) (alg_label alg)).
Definition needs_attribute_write (current : list Z) (alg : KeyAlg) : bool :=
  negb (bool_decide ((a ← result_ok (parse_algorithm_attributes current); attr_key_alg a) = Some alg)).
Definition preflight {PE} (k : KeyImport) (current : list Z) (fa : option AlgorithmInformation) : result (PgpError PE) unit :=
  let refused := match fa with
                 | Some fa => let listed := key_algs fa (k_crt k) in negb (bool_decide (listed = [])) && negb (bool_decide (k_alg k ∈ listed))
                 | None => false
                 end in
  if refused then Err (AlgorithmRefused (crt_label (k_crt k)) (alg_label (k_alg k))) else
  match k_key k with
  | IEcc _ => Ok tt
  | IRsa parts =>
      attrs ← (if needs_attribute_write current (k_alg k) then slot_attributes (k_alg k) (k_crt k) else Ok current);
      match parse_algorithm_attributes attrs with
      | Ok (AttrRsa r) => if rsa_exponent_fits (r_e parts) (e_bits r) then Ok tt else Err PExponentTooWide
      | Ok ecc => Err (SlotNotRsa (crt_flag_name (k_crt k)) (attr_label ecc))
      | Err e => Err (PParse e)
      end
  end.
Definition bare (p : list Z) : list Z := match p with b :: rest => if (b =? 0x40) && (zlen rest =? 32) then rest else p | [] => p end.
Definition same_public_key (got want : PublicKey) : bool :=
  match got, want with
  | PubRsa gn ge, PubRsa wn we => bool_decide (drop_zeros gn = drop_zeros wn) && bool_decide (drop_zeros ge = drop_zeros we)
  | PubEcc g, PubEcc w => bool_decide (bare g = bare w)
  | _, _ => false
  end.

(** * The session *)

Record PgpSession (C : Type) := mkPgp { p_world : World C; p_debug : bool; p_chaining : bool; p_rng : list (option (list Z)) }.
Arguments mkPgp {C} _ _ _ _.
Arguments p_world {C} _.
Arguments p_debug {C} _.
Arguments p_chaining {C} _.
Arguments p_rng {C} _.

Definition pgp_io : AppletIo := mkIo (s2b "openpgp") SW_MORE_DATA get_response None.
Definition cmd_sensitive (apdu : list Z) : bool := match apdu !! 1%nat with Some i => bool_decide (i ∈ [0x20; 0x24; 0x2C; 0xDB]) | None => false end.
Definition resp_sensitive (apdu : list Z) : bool := bool_decide (slice apdu 1 4 = [0x2A; 0x80; 0x86]) || Token2Wire.reads_serial apdu.
(** [{sw:04X}]. *)
Definition hex_word_upper (sw : Z) : list Z := hex_upper (sw / 256) ++ hex_upper (sw mod 256).

Section session.
Context {C : Type} `{PcscCard C}.
Local Notation PE := (PcscError C).
Local Notation session := (io (PgpSession C) (PgpError PE)).
(** A call that also keeps whether a write for the slot has been sent. *)
Local Notation tracked := (io (PgpSession C * bool) (PgpError PE)).

Definition transmit_full (apdu : list Z) : session (list Z * Z) := fun s =>
  let '(r, w) := transmit_applet (p_debug s) pgp_io apdu (cmd_sensitive apdu) (resp_sensitive apdu) (p_world s) in
  (map_err PTransport r, mkPgp w (p_debug s) (p_chaining s) (p_rng s)).
Definition note (label text : list Z) : session unit := fun s =>
  let '(r, w) := trace_line (p_debug s) (format_line Note label text) (p_world s) in (r, mkPgp w (p_debug s) (p_chaining s) (p_rng s)).
(** [getrandom::fill] on eight bytes. *)
Definition fill : session (list Z) := fun s =>
  match p_rng s with
  | r :: rng => (ok_or (PTransport THostRngFailed) r, mkPgp (p_world s) (p_debug s) (p_chaining s) rng)
  | [] => (Err (PTransport THostRngFailed), s)
  end.
Definition random_credential_guess (previous : option (list Z)) : session (list Z) :=
  raw ← fill; mret (credential_guess_from raw previous).

Definition session_select : session unit :=
  apdu ← built select;
  '(_, sw) ← transmit_full apdu;
  if sw =? SW_FILE_NOT_FOUND then lift (Err NoOpenPgpApplet) else lift (ok_or_apdu (s2b "select openpgp applet") sw).

(** ** Opening *)

Fixpoint open_loop (fuel : nat) (attempts : Z -> OathSession.Attempt) (debug chaining : bool) (rng : list (option (list Z)))
    (contact : OathSession.FirstContact) (h : OathSession.Host) : result (PgpError PE) (PgpSession C) * OathSession.Host :=
  let label := s2b "openpgp" in
  let a := attempts (OathSession.tries contact) in
  let again (e : PgpError PE) h :=
    match e with
    | PTransport te =>
        match OathSession.retry_or_fail debug label contact te h with
        | (Err te, h) => (Err (PTransport te), h)
        | (Ok contact, h) => match fuel with O => (Err e, h) | S fuel => open_loop fuel attempts debug chaining rng contact h end
        end
    | e => (Err e, h)
    end in
  match OathSession.a_context a with
  | Some e => (Err (PTransport (TPcscUnavailable e)), h)
  | None =>
      match OathSession.a_connect a with
      | Err e => again (PTransport (TPcsc e)) h
      | Ok c =>
          let '(r, s) := session_select (mkPgp (mkWorld c h.1 h.2) debug chaining rng) in
          let h := (capture (p_world s), stderr (p_world s)) in
          match r with
          | Ok _ =>
              let h := OathSession.contact_opened debug label contact h in
              (Ok (mkPgp (mkWorld (card (p_world s)) h.1 h.2) debug chaining (p_rng s)), h)
          | Err e => again e h
          end
      end
  end.
Definition open_traced (reader_name : list Z) (attempts : Z -> OathSession.Attempt) (debug chaining : bool) (rng : list (option (list Z)))
    (h : OathSession.Host) : result (PgpError PE) (PgpSession C) * OathSession.Host :=
  if bool_decide (0 ∈ reader_name) then (Err (PTransport (TMalformedResponse (s2b "reader name contained NUL"))), h)
  else open_loop 1 attempts debug chaining rng (OathSession.mkContact 0 false) h.

(** ** Status *)

Definition card_data : session AppRelatedData :=
  '(bytes, sw) ← transmit_full get_application_related_data;
  _ ← lift (ok_or_apdu (s2b "get application related data") sw);
  lift (map_err PParse (parse_application_related_data bytes)).
(** The answer to [apdu], unless it is an error or another status. *)
Definition answered (apdu : list Z) : session (option (list Z)) :=
  r ← tried (transmit_full apdu);
  mret (match r with Ok (bytes, sw) => if sw =? SW_OK then Some bytes else None | Err _ => None end).

Definition read_otp_applet_serial : session (option Z) :=
  apdu ← built (PivApdu.select_by_aid Token2Otp.OTP_APPLET_AID);
  selected ← answered apdu;
  match selected with
  | None => mret None
  | Some _ =>
      apdu ← built Token2Otp.read_serial_request;
      data ← answered apdu;
      mret (data ← data; result_ok (Token2Otp.parse_otp_serial data))
  end.
Definition status : session OpenPgpStatus :=
  ard ← card_data;
  support ← answered (get_data TAG_SECURITY_SUPPORT);
  let count := bytes ← support; result_ok (parse_signature_counter bytes) in
  otp ← (if wants_otp_applet_serial (ard_aid ard) then n ← read_otp_applet_serial; _ ← session_select; mret n else mret None);
  mret (mkStatus (ard_aid ard) (sig_algo_id ard) (dec_algo_id ard) (aut_algo_id ard) (algo_attr_sig ard) (algo_attr_dec ard) (algo_attr_aut ard)
    (fingerprint_sig ard) (fingerprint_dec ard) (fingerprint_aut ard)
    (tries_pw1 (pw_status ard)) (tries_rc (pw_status ard)) (tries_pw3 (pw_status ard)) count otp).

(** ** PINs *)

Definition pin_tries_for (pw_ref : Z) : session (option Z) :=
  bytes ← answered get_pw_status;
  mret (bytes ← bytes; status ← result_ok (parse_pw_status bytes); Some (if pw_ref =? PW3_ADMIN then tries_pw3 status else tries_pw1 status)).
Definition pin_rejected (sw pw_ref : Z) (label : list Z) : session (PgpError PE) :=
  match sw_tries_remaining sw with
  | Some n => mret (PinRejected (Some n))
  | None =>
      if (sw =? 0x6982) || (sw =? 0x6983) then tries ← pin_tries_for pw_ref; mret (PinRejected tries)
      else mret (apdu_error label sw)
  end.
(** [verify_pin] has the same three cases written out. *)
Definition verify_pin (pw_ref : Z) (pin : list Z) : session unit :=
  apdu ← built (verify pw_ref pin);
  '(_, sw) ← transmit_full apdu;
  if sw =? SW_OK then mret tt else
  e ← pin_rejected sw pw_ref (s2b "openpgp verify"); lift (Err e).
Definition verify_admin_pin (pin : list Z) : session unit := verify_pin PW3_ADMIN pin.
Definition change_pin (pw_ref : Z) (old new : list Z) : session unit :=
  apdu ← built (change_reference_data pw_ref old new);
  '(_, sw) ← transmit_full apdu;
  if sw =? SW_OK then mret tt else
  e ← pin_rejected sw pw_ref (s2b "openpgp change pin"); lift (Err e).
Definition change_user_pin (old new : list Z) : session unit := change_pin PW1_SIGN old new.
Definition change_admin_pin (old new : list Z) : session unit := change_pin PW3_ADMIN old new.
Definition session_reset_retry_counter (admin_pin new_user_pin : list Z) : session unit :=
  _ ← verify_pin PW3_ADMIN admin_pin;
  apdu ← built (reset_retry_counter new_user_pin);
  '(_, sw) ← transmit_full apdu;
  lift (ok_or_apdu (s2b "openpgp reset retry counter") sw).

(** ** Keys *)

Definition algorithm_attributes (crt : KeyCrt) : session (list Z) :=
  ard ← card_data; mret (by_slot (algo_attr_sig ard) (algo_attr_dec ard) (algo_attr_aut ard) crt).
Definition set_algorithm (crt : KeyCrt) (alg : KeyAlg) : session unit :=
  attr ← lift (slot_attributes alg crt);
  apdu ← built (put_algorithm_attributes crt attr);
  '(_, sw) ← transmit_full apdu;
  if (sw =? 0x6A80) || (sw =? 0x6A88) then lift (Err (AlgorithmRefused (crt_label crt) (alg_label alg)))
  else lift (ok_or_apdu (s2b "openpgp set algorithm attributes") sw).
Definition supported_algorithms : session (option AlgorithmInformation) :=
  '(bytes, sw) ← transmit_full get_algorithm_information;
  if negb (sw =? SW_OK) then
    _ ← note (s2b "openpgp") (s2b "card has no Algorithm Information object (SW=" ++ hex_word_upper sw ++ s2b "); offering every algorithm");
    mret None
  else
    let parsed := result_ok (parse_algorithm_information bytes) in
    _ ← (if parsed is None then note (s2b "openpgp") (s2b "Algorithm Information object did not parse; offering every algorithm") else mret tt);
    mret parsed.
Definition rsa_attributes (crt : KeyCrt) : session RsaAttributes :=
  attr ← algorithm_attributes crt;
  match parse_algorithm_attributes attr with
  | Ok (AttrRsa r) => mret r
  | Ok ecc => lift (Err (SlotNotRsa (crt_flag_name crt) (attr_label ecc)))
  | Err e => lift (Err (PParse e))
  end.
Definition setting_line (crt : KeyCrt) (alg : KeyAlg) : list Z := s2b "setting " ++ crt_debug crt ++ s2b " slot algorithm to " ++ alg_label alg.

Definition parsed_public_key (apdu label : list Z) : session PublicKey :=
  '(data, sw) ← transmit_full apdu;
  _ ← lift (ok_or_apdu label sw);
  lift (map_err PParse (parse_generated_public_key data)).
Definition session_generate_key (crt : KeyCrt) (alg : option KeyAlg) : session PublicKey :=
  _ ← (match alg with
       | None => mret tt
       | Some alg =>
           current ← algorithm_attributes crt;
           if needs_attribute_write current alg then _ ← note (s2b "openpgp generate") (setting_line crt alg); set_algorithm crt alg else mret tt
       end);
  apdu ← built (generate_key crt);
  parsed_public_key apdu (s2b "openpgp generate key").
Definition session_read_public_key (crt : KeyCrt) : session PublicKey :=
  apdu ← built (read_public_key crt);
  parsed_public_key apdu (s2b "openpgp read public key").
Definition key_present (crt : KeyCrt) : session (option bool) :=
  r ← tried (session_read_public_key crt); mret (match r with Ok _ => Some true | Err _ => None end).

Fixpoint transmit_chain (label : list Z) (chunks : list (list Z)) : session (list Z) :=
  match chunks with
  | [] => mret []
  | chunk :: rest =>
      '(data, sw) ← transmit_full chunk;
      if bool_decide (rest = []) then _ ← lift (ok_or_apdu label sw); mret data
      else if sw =? SW_OK then transmit_chain label rest else lift (Err (apdu_error label sw))
  end.
Definition rejected_line (sw : Z) : list Z := s2b "extended length rejected (SW=" ++ hex_word_upper sw ++ s2b "); retrying with command chaining".
(** One APDU, and a chain when a card or reader takes no extended length: the
    answer to either. *)
Definition one_or_chain (note_label label apdu : list Z) (chained : result (PgpError PE) (list (list Z))) : session (list Z) := fun s =>
  (if p_chaining s then
     _ ← note note_label (s2b "forcing command chaining (env override)");
     chunks ← lift chained; transmit_chain label chunks
   else
     '(data, sw) ← transmit_full apdu;
     if sw =? SW_OK then mret data
     else if negb (sw =? 0x6700) && negb (sw =? 0x6883) then lift (Err (apdu_error label sw))
     else _ ← note note_label (rejected_line sw);
          chunks ← lift chained; transmit_chain label chunks) s.
Definition put_key_import (apdu : list Z) (chained : result (PgpError PE) (list (list Z))) : session unit :=
  _ ← one_or_chain (s2b "openpgp import") (s2b "openpgp import key") apdu chained; mret tt.

(** ** Importing *)

Definition on_card {A} (m : session A) : tracked A := fun s => let '(r, s') := m s.1 in (r, (s', s.2)).
(** [*changed = true]. *)
Definition mark_changed : tracked unit := fun s => (Ok tt, (s.1, true)).

Definition import_rsa_tracked (crt : KeyCrt) (key : RsaPrivateKeyParts) : tracked unit :=
  attrs ← on_card (rsa_attributes crt);
  if negb (rsa_exponent_fits (r_e key) (e_bits attrs)) then lift (Err PExponentTooWide) else
  apdu ← lift (map_err (fun _ => PExponentTooWide) (import_rsa_key crt key (format attrs) (e_bits attrs)));
  apdu ← built apdu;
  _ ← mark_changed;
  on_card (put_key_import apdu
    (chunks ← map_err (fun _ => PExponentTooWide) (import_rsa_key_chained crt key (format attrs) (e_bits attrs) 254); ok_or (PTransport TPanic) chunks)).
Definition import_key (crt : KeyCrt) (key : RsaPrivateKeyParts) : session unit := fun s =>
  let '(r, (s, _)) := import_rsa_tracked crt key (s, false) in (r, s).

Definition asks_public (attrs : list Z) : bool := match parse_algorithm_attributes attrs with Ok (AttrEcc _ _ true) => true | _ => false end.
Definition import_any_tracked (crt : KeyCrt) (alg : KeyAlg) (key : ImportKey) : tracked unit :=
  _ ← lift (check_import crt alg key);
  current ← on_card (algorithm_attributes crt);
  let set := needs_attribute_write current alg in
  _ ← (if set then _ ← on_card (note (s2b "openpgp import") (setting_line crt alg)); _ ← on_card (set_algorithm crt alg); mark_changed else mret tt);
  match key with
  | IRsa parts => import_rsa_tracked crt parts
  | IEcc parts =>
      attrs ← (if set then on_card (algorithm_attributes crt) else mret current);
      let parts := mkEccParts (scalar parts) (if asks_public attrs then public parts else None) in
      let len := match alg_curve alg with Some c => field_len c | None => 0 end in
      let not_for := KeyNotForAlgorithm (crt_label crt) (alg_label alg) in
      apdu ← lift (map_err (fun _ => not_for) (import_ecc_key crt parts len));
      apdu ← built apdu;
      _ ← mark_changed;
      on_card (put_key_import apdu (chunks ← map_err (fun _ => not_for) (import_ecc_key_chained crt parts len 254); ok_or (PTransport TPanic) chunks))
  end.
Definition import_any (crt : KeyCrt) (alg : KeyAlg) (key : ImportKey) : session unit := fun s =>
  let '(r, (s, changed)) := import_any_tracked crt alg key (s, false) in (map_err (slot_failure [] crt changed) r, s).

Definition import_one (k : KeyImport) : tracked unit :=
  _ ← import_any_tracked (k_crt k) (k_alg k) (k_key k);
  got ← on_card (session_read_public_key (k_crt k));
  if negb (same_public_key got (expect_public k)) then lift (Err (FingerprintMismatch (crt_label (k_crt k)))) else
  apdu ← built (put_generation_time (k_crt k) (k_created k));
  '(_, sw) ← on_card (transmit_full apdu);
  _ ← lift (ok_or_apdu (s2b "openpgp put generation time") sw);
  apdu ← built (put_fingerprint (k_crt k) (expect_fpr k));
  '(_, sw) ← on_card (transmit_full apdu);
  lift (ok_or_apdu (s2b "openpgp put fingerprint") sw).
Fixpoint check_all (keys : list KeyImport) : session unit :=
  match keys with
  | [] => mret tt
  | k :: keys => _ ← lift (check_import (k_crt k) (k_alg k) (k_key k)); check_all keys
  end.
Fixpoint preflight_all (fa : option AlgorithmInformation) (keys : list KeyImport) : session unit :=
  match keys with
  | [] => mret tt
  | k :: keys => current ← algorithm_attributes (k_crt k); _ ← lift (preflight k current fa); preflight_all fa keys
  end.
(** [done]: the labels of the slots imported, and their fingerprints. *)
Fixpoint import_keys (done : list (list Z)) (out : list (list Z)) (keys : list KeyImport) : session (list (list Z)) :=
  match keys with
  | [] => mret out
  | k :: keys => fun s =>
      let '(r, (s, changed)) := import_one k (s, false) in
      match r with
      | Ok _ => import_keys (done ++ [crt_label (k_crt k)]) (out ++ [expect_fpr k]) keys s
      | Err cause => (Err (slot_failure done (k_crt k) changed cause), s)
      end
  end.
Definition import_key_set (keys : list KeyImport) : session (list (list Z)) :=
  _ ← check_all keys;
  fa ← supported_algorithms;
  _ ← preflight_all fa keys;
  import_keys [] [] keys.

(** ** Using keys *)

Definition may_ask_touch_to_use (crt : KeyCrt) : session bool :=
  reply ← answered (get_data (uif_tag crt));
  mret (match reply with Some reply => default true (uif_asks_touch reply) | None => true end).
Definition session_may_ask_touch_to_write : session bool :=
  aid ← answered (get_data TAG_AID);
  let raw := (fun aid : list Z => match aid with 0x4F :: _ :: rest => rest | _ => aid end) <$> aid in
  mret (may_ask_touch_to_write (raw ≫= aid_manufacturer_id)).
Definition signed (apdu : option (list Z)) (label : list Z) : session (list Z) :=
  apdu ← built apdu;
  '(sig, sw) ← transmit_full apdu;
  _ ← lift (ok_or_apdu label sw); mret sig.
Definition sign (digest_info : list Z) : session (list Z) := signed (pso_compute_signature digest_info) (s2b "openpgp compute signature").
Definition session_internal_authenticate (auth_input : list Z) : session (list Z) :=
  signed (internal_authenticate auth_input) (s2b "openpgp internal authenticate").
Definition decipher (cipher_do : list Z) : session (list Z) := fun s =>
  (apdu ← (if p_chaining s then mret [] else built (pso_decipher cipher_do));
   one_or_chain (s2b "openpgp decipher") (s2b "openpgp decipher") apdu (ok_or (PTransport TPanic) (pso_decipher_chained cipher_do 254))) s.
Definition decrypt (cryptogram : list Z) : session (list Z) := decipher (0x00 :: cryptogram).
Definition decrypt_ecdh (ephemeral_point : list Z) : session (list Z) := decipher (ecdh_cipher_do (bare ephemeral_point)).

Definition put_status (apdu : option (list Z)) (label : list Z) : session unit :=
  apdu ← built apdu; '(_, sw) ← transmit_full apdu; lift (ok_or_apdu label sw).
Definition set_cardholder_name (name : list Z) : session unit := put_status (put_cardholder_name name) (s2b "openpgp put cardholder name").
Definition set_url (url : list Z) : session unit := put_status (put_url url) (s2b "openpgp put url").
Definition register_key (crt : KeyCrt) (creation_time : Z) : session (list Z) :=
  attrs ← algorithm_attributes crt;
  attrs ← lift (map_err PParse (parse_algorithm_attributes attrs));
  key ← session_read_public_key crt;
  fpr ← lift (map_err PParse (v4_fingerprint key attrs creation_time));
  _ ← put_status (put_generation_time crt creation_time) (s2b "openpgp put generation time");
  _ ← put_status (put_fingerprint crt fpr) (s2b "openpgp put fingerprint");
  mret fpr.

(** ** Factory reset *)

(** [0..max_tries.saturating_add(1)]. *)
Fixpoint block_loop (n : nat) (pw_ref : Z) (previous : option (list Z)) : session unit :=
  match n with
  | O => mret tt
  | S n =>
      guess ← random_credential_guess previous;
      apdu ← built (verify pw_ref guess);
      r ← tried (transmit_full apdu);
      match r with
      | Ok (_, sw) => if sw =? SW_OK then lift (Err PinGuessAccepted) else if sw =? 0x6983 then mret tt else block_loop n pw_ref (Some guess)
      | Err _ => mret tt
      end
  end.
Definition block_pin (pw_ref max_tries : Z) : session unit := block_loop (Z.to_nat (Z.min 255 (max_tries + 1))) pw_ref None.
Definition factory_reset : session unit :=
  bytes ← answered get_pw_status;
  let '(pw1_tries, pw3_tries) := match status ← bytes ≫= (fun b => result_ok (parse_pw_status b)); Some (tries_pw1 status, tries_pw3 status) with
                                 | Some t => t
                                 | None => (15, 15)
                                 end in
  _ ← block_pin PW1_OTHER pw1_tries;
  _ ← block_pin PW3_ADMIN pw3_tries;
  _ ← put_status (Some terminate_df) (s2b "openpgp terminate df");
  put_status (Some activate_file) (s2b "openpgp activate file").
End session.
