(* ===== verification/PgpCard.v ===== *)
(** A reference OpenPGP card (specification 3.4) behind a T=0 reader: its slots,
    PINs, chaining, and what it refuses; and what each call of the session does
    with it. What a card makes of key fields, of attributes and of a cryptogram
    is a parameter. Then the factory reset on that card. *)
From S2P Require Export Words PgpSession IsoRead.

Record Slot := mkSlot { sl_attrs : list Z; sl_key : option (list (Z * list Z)); sl_fpr : list Z; sl_time : list Z }.
(** [pc_refuse]: the status words it answers its coming writes with; 9000 is to
    do them, and so is the end of the list. *)
Record PgpCard := mkCard {
  pc_slots : KeyCrt -> Slot; pc_pw1 : list Z; pc_pw3 : list Z; pc_left1 : Z; pc_left3 : Z; pc_chain : list Z; pc_refuse : list Z
}.
(** What is fixed of a card. [ck_counted]: a wrong PIN answers 63Cx. *)
Record CardKind := mkKind {
  ck_aid : list Z; ck_info : option (list Z); ck_extended : bool; ck_counted : bool;
  ck_stored : list Z -> list Z; ck_public : list Z -> list (Z * list Z) -> PublicKey; ck_plain : list Z -> option (list Z)
}.

Section card.
Context (kind : CardKind).

Definition with_slots (f : KeyCrt -> Slot) (a : PgpCard) : PgpCard := mkCard f (pc_pw1 a) (pc_pw3 a) (pc_left1 a) (pc_left3 a) (pc_chain a) (pc_refuse a).
Definition with_chain (l : list Z) (a : PgpCard) : PgpCard := mkCard (pc_slots a) (pc_pw1 a) (pc_pw3 a) (pc_left1 a) (pc_left3 a) l (pc_refuse a).
Definition with_refuse (l : list Z) (a : PgpCard) : PgpCard := mkCard (pc_slots a) (pc_pw1 a) (pc_pw3 a) (pc_left1 a) (pc_left3 a) (pc_chain a) l.
Definition with_left (l1 l3 : Z) (a : PgpCard) : PgpCard := mkCard (pc_slots a) (pc_pw1 a) (pc_pw3 a) l1 l3 (pc_chain a) (pc_refuse a).
Definition on_slot (crt : KeyCrt) (f : Slot -> Slot) (a : PgpCard) : PgpCard :=
  with_slots (fun c => if bool_decide (c = crt) then f (pc_slots a c) else pc_slots a c) a.

Definition sw_answer (sw : Z) : Answer := answer_sw (sw / 256) (sw mod 256).
Definition tried_pw (left : Z) : Z := if ck_counted kind then 0x63C0 + (left - 1) else 0x6982.

(** ** Reading *)

Definition pw_bytes (a : PgpCard) : list Z := [0x00; 0x7F; 0x7F; 0x7F; pc_left1 a; 0x00; pc_left3 a].
Definition application_objects (a : PgpCard) : list Object :=
  let slot crt := pc_slots a crt in
  [Leaf 0x4F (ck_aid kind);
   Node 0x73 [Leaf 0xC1 (sl_attrs (slot Sign)); Leaf 0xC2 (sl_attrs (slot Decrypt)); Leaf 0xC3 (sl_attrs (slot Auth)); Leaf 0xC4 (pw_bytes a);
              Leaf 0xC5 (sl_fpr (slot Sign) ++ sl_fpr (slot Decrypt) ++ sl_fpr (slot Auth))]].
Definition public_objects (k : PublicKey) : list Object := match k with PubRsa n e => [Leaf 0x81 n; Leaf 0x82 e] | PubEcc p => [Leaf 0x86 p] end.
Definition crt_of (tag_of : KeyCrt -> Z) (tag : Z) : option KeyCrt :=
  if tag =? tag_of Sign then Some Sign else if tag =? tag_of Decrypt then Some Decrypt else if tag =? tag_of Auth then Some Auth else None.
Definition read_data (a : PgpCard) (tag : Z) : Answer :=
  if tag =? 0x6E then answer_ok (object_bytes (Node 0x6E (application_objects a)))
  else if tag =? 0xC4 then answer_ok (pw_bytes a)
  else if tag =? 0xFA then match ck_info kind with Some v => answer_ok v | None => sw_answer 0x6A88 end
  else sw_answer 0x6A88.
Definition read_key (a : PgpCard) (data : list Z) : Answer :=
  match data with
  | [tag; 0x00] =>
      match crt ← crt_of crt_tag tag; fields ← sl_key (pc_slots a crt); Some (ck_public kind (sl_attrs (pc_slots a crt)) fields) with
      | Some k => answer_ok (object_bytes (Node 0x7F49 (public_objects k)))
      | None => sw_answer 0x6A88
      end
  | _ => sw_answer 0x6A80
  end.

(** ** Writing *)

(** A write that is not refused; a chain ends either way. *)
Definition card_write (f : PgpCard -> PgpCard) (a : PgpCard) : Answer * PgpCard :=
  match pc_refuse a with
  | sw :: rest => if sw =? 0x9000 then (answer_ok [], f (with_refuse rest a)) else (sw_answer sw, with_chain [] (with_refuse rest a))
  | [] => (answer_ok [], f a)
  end.
(** New attributes wipe the slot's key. *)
Definition new_attrs (v : list Z) (s : Slot) : Slot := mkSlot (ck_stored kind v) None (sl_fpr s) (sl_time s).
Definition new_key (fields : list (Z * list Z)) (s : Slot) : Slot := mkSlot (sl_attrs s) (Some fields) (sl_fpr s) (sl_time s).
Definition new_fpr (v : list Z) (s : Slot) : Slot := mkSlot (sl_attrs s) (sl_key s) v (sl_time s).
Definition new_time (v : list Z) (s : Slot) : Slot := mkSlot (sl_attrs s) (sl_key s) (sl_fpr s) v.
Definition put_object (tag : Z) (v : list Z) (a : PgpCard) : Answer * PgpCard :=
  match crt_of algo_attr_tag tag, crt_of fpr_tag tag, crt_of time_tag tag with
  | Some crt, _, _ => card_write (on_slot crt (new_attrs v)) a
  | None, Some crt, _ => card_write (on_slot crt (new_fpr v)) a
  | None, None, Some crt => card_write (on_slot crt (new_time v)) a
  | None, None, None => (sw_answer 0x6A88, a)
  end.
Definition put_key (body : list Z) (a : PgpCard) : Answer * PgpCard :=
  match '(tag, fields) ← card_key body; crt ← crt_of crt_tag tag; Some (crt, fields) with
  | Some (crt, fields) => card_write (fun a => with_chain [] (on_slot crt (new_key fields) a)) a
  | None => (sw_answer 0x6A80, with_chain [] a)
  end.

(** ** PINs *)

Definition verify_pw (pw_ref : Z) (pin : list Z) (a : PgpCard) : Answer * PgpCard :=
  let admin := pw_ref =? 0x83 in
  let left := if admin then pc_left3 a else pc_left1 a in
  let set n := if admin then with_left (pc_left1 a) n a else with_left n (pc_left3 a) a in
  if left =? 0 then (sw_answer 0x6983, a)
  else if bool_decide (pin = if admin then pc_pw3 a else pc_pw1 a) then (answer_ok [], set 3)
  else (sw_answer (tried_pw left), set (left - 1)).
Definition blank_slot : Slot := mkSlot [0x01; 0x08; 0x00; 0x00; 0x20; 0x00] None (replicate 20 0) (replicate 4 0).
Definition blank_card : PgpCard := mkCard (fun _ => blank_slot) (s2b "123456") (s2b "12345678") 3 3 [] [].

(** ** The command *)

Definition command (a : PgpCard) (ins p1 p2 : Z) (data : list Z) : Answer * PgpCard :=
  if ins =? 0xCA then (read_data a (p1 * 256 + p2), a)
  else if (ins =? 0x47) && (p1 =? 0x81) then (read_key a data, a)
  else if ins =? 0xDA then put_object (p1 * 256 + p2) data a
  else if ins =? 0xDB then put_key (pc_chain a ++ data) a
  else if ins =? 0x2A then (match ck_plain kind (pc_chain a ++ data) with Some v => answer_ok v | None => sw_answer 0x6A80 end, with_chain [] a)
  else if ins =? 0x20 then verify_pw p2 data a
  else if ins =? 0xE6 then (if (pc_left1 a =? 0) && (pc_left3 a =? 0) then (answer_ok [], a) else (sw_answer 0x6982, a))
  else if ins =? 0x44 then (answer_ok [], blank_card)
  else (sw_answer 0x6D00, a).
Definition is_extended (apdu : list Z) : bool := (7 <? zlen apdu) && (apdu !!! 4%nat =? 0).
Definition card_run (a : PgpCard) (apdu : list Z) : Answer * PgpCard :=
  if negb (ck_extended kind) && is_extended apdu then (sw_answer 0x6700, a) else
  match parse_command apdu with
  | None => (sw_answer 0x6700, a)
  | Some c =>
      if c_cla c =? 0x10 then card_write (fun a => with_chain (pc_chain a ++ c_data c) a) a
      else command a (c_ins c) (c_p1 c) (c_p2 c) (c_data c)
  end.

(** ** Cards a session may meet *)

Definition sw_ok (sw : Z) : Prop := is_word 16 sw /\ sw / 256 <> 0x61 /\ sw / 256 <> 0x6C.
Definition slot_wf (s : Slot) : Prop := zlen (sl_attrs s) <= 64 /\ length (sl_fpr s) = 20%nat /\ Bytes (sl_attrs s).
Definition card_wf (a : PgpCard) : Prop :=
  (forall crt, slot_wf (pc_slots a crt)) /\ pc_chain a = [] /\ Forall sw_ok (pc_refuse a) /\ 0 <= pc_left1 a <= 15 /\ 0 <= pc_left3 a <= 15.
(** Answers are not too long to be reassembled; an attribute is stored as one of
    the same algorithm. *)
Definition kind_ok : Prop :=
  zlen (ck_aid kind) <= 64 /\ (forall v, ck_info kind = Some v -> zlen v <= 4000) /\
  (forall attrs fields, match ck_public kind attrs fields with PubRsa n e => zlen n <= 1600 /\ zlen e <= 1600 | PubEcc p => zlen p <= 1600 end) /\
  (forall alg crt sent, attributes alg crt = Ok (Some sent) -> zlen (ck_stored kind sent) <= 64 /\ Bytes (ck_stored kind sent) /\
     exists a, parse_algorithm_attributes (ck_stored kind sent) = Ok a /\ attr_key_alg a = Some alg) /\
  (forall v p, ck_plain kind v = Some p -> zlen p <= 4000).
End card.

(** * Lemmas *)

(** ** Commands *)

Section commands.
Context (kind : CardKind).

Definition run_as (a : PgpCard) (cla ins p1 p2 : Z) (data : list Z) : Answer * PgpCard :=
  if cla =? 0x10 then card_write (fun a => with_chain (pc_chain a ++ data) a) a else command kind a ins p1 p2 data.
Lemma card_run_short a b : apdu_ok b -> card_run kind a (apdu_bytes b) =
  match b with
  | Case1 cla ins p1 p2 | Case2 cla ins p1 p2 _ => run_as a cla ins p1 p2 []
  | Case3 cla ins p1 p2 data | Case4 cla ins p1 p2 data _ => run_as a cla ins p1 p2 data
  end.
Proof.
  intros Hok. unfold card_run, is_extended. destruct b as [cla ins p1 p2|cla ins p1 p2 le|cla ins p1 p2 data|cla ins p1 p2 data le];
    cbn [apdu_bytes apdu_ok] in *.
  - change (7 <? zlen [cla; ins; p1; p2]) with false. cbn [andb]. by rewrite andb_false_r.
  - change (7 <? zlen [cla; ins; p1; p2; le]) with false. cbn [andb]. rewrite andb_false_r. by destruct le.
  - change (([cla; ins; p1; p2; zlen data] ++ data) !!! 4%nat) with (zlen data). rewrite (proj2 (Z.eqb_neq (zlen data) 0)), !andb_false_r by lia.
    pose proof (parse_short cla ins p1 p2 data None Hok) as Hp. rewrite app_nil_r in Hp. by rewrite Hp.
  - change (([cla; ins; p1; p2; zlen data] ++ data ++ [le]) !!! 4%nat) with (zlen data). rewrite (proj2 (Z.eqb_neq (zlen data) 0)), !andb_false_r by lia.
    by rewrite (parse_short cla ins p1 p2 data (Some le) Hok).
Qed.
Lemma card_le_blind b : apdu_ok b -> le_blind (card_run kind) (apdu_bytes b).
Proof. intros Hok a le. rewrite resend_apdu by done. rewrite !card_run_short by (done || by apply with_le_ok). by destruct b. Qed.

Lemma card_run_extended a ins p1 p2 data apdu le : 1 <= zlen data <= 0xFFFF -> build_apdu_extended 0x00 ins p1 p2 data = Some apdu -> (le = [] \/ le = [0; 0]) ->
  card_run kind a (apdu ++ le) = (if ck_extended kind then command kind a ins p1 p2 data else (sw_answer 0x6700, a)) /\
  ends_in_le (apdu ++ le) = false /\ (8 <= length (apdu ++ le))%nat /\ (apdu ++ le) !! 1%nat = Some ins.
Proof.
  intros Hd Hb Hle. destruct (extended_read 0x00 ins p1 p2 data Hd) as (apdu' & Hb' & Hp1 & Hp2). rewrite Hb in Hb'. injection Hb' as <-.
  unfold build_apdu_extended in Hb. rewrite (proj2 (Z.ltb_ge _ _)) in Hb by lia. revert Hp1 Hp2. injection Hb as <-. intros Hp1 Hp2.
  match type of Hp1 with parse_command ?b = _ => set (bytes := b) in * end.
  assert (8 <= zlen bytes /\ bytes !!! 4%nat = 0 /\ (bytes ++ le) !!! 4%nat = 0 /\ (bytes ++ le) !! 1%nat = Some ins /\ 8 <= zlen (bytes ++ le)) as (Hl & H4 & H4' & H1 & Hl')
    by (subst bytes; cbn [app]; split_and!; try done; zlen; pose proof (zlen_nonneg data); pose proof (zlen_nonneg le); lia).
  split; [|split; [|split; [unfold zlen in Hl'; lia|done]]].
  - unfold card_run, is_extended. rewrite H4', (proj2 (Z.ltb_lt 7 _)) by lia. change (0 =? 0) with true. rewrite andb_true_r.
    destruct (ck_extended kind); cbn [negb]; [|done]. destruct Hle as [->| ->]; rewrite ?app_nil_r; [by rewrite Hp1|by rewrite Hp2].
  - unfold ends_in_le. rewrite H4'. rewrite (proj2 (Z.leb_gt _ 4)), (proj2 (Z.eqb_neq _ 5)) by lia. apply Z.eqb_neq. lia.
Qed.

(** What a write does: nothing when it is refused. *)
Lemma card_write_cases f a : Forall sw_ok (pc_refuse a) ->
  exists sw rest, sw_ok sw /\ Forall sw_ok rest /\
    card_write f a = (if sw =? 0x9000 then (answer_ok [], f (with_refuse rest a)) else (sw_answer sw, with_chain [] (with_refuse rest a))).
Proof.
  intros Hr. unfold card_write. destruct (pc_refuse a) as [|sw rest] eqn:E.
  - exists 0x9000, []. split; [by repeat split|]. split; [done|]. do 2 f_equal. unfold with_refuse. rewrite <- E. by destruct a.
  - inversion Hr. exists sw, rest. done.
Qed.
End commands.

(** ** One exchange *)

Section on_card.
Context (kind : CardKind) (st : T0Style) (Hst : style_ok st) (Hcont : continue st = get_response) (Hk : kind_ok kind).
#[local] Instance pgp_inst : PcscCard (T0 PgpCard) := t0_card (card_run kind) st.
Local Notation session := (PgpSession (T0 PgpCard)).

Definition the_card (s : session) : PgpCard := t0_app (card (p_world s)).
(** Only the world changed, its card now [a]. *)
Definition moved (s s' : session) (a : PgpCard) : Prop :=
  the_card s' = a /\ p_debug s' = p_debug s /\ p_chaining s' = p_chaining s /\ p_rng s' = p_rng s.
Lemma moved_refl s : moved s s (the_card s).
Proof. done. Qed.
Lemma moved_trans s1 s2 s3 a b : moved s1 s2 a -> moved s2 s3 b -> moved s1 s3 b.
Proof. intros (H1 & H2 & H3 & H4) (G1 & G2 & G3 & G4). repeat split; congruence. Qed.

Lemma transmit_step (s : session) apdu ans a' : (4 <= length apdu)%nat -> apdu !! 1%nat <> Some 0xC0 ->
  (ends_in_le apdu = true -> le_blind (card_run kind) apdu) -> card_run kind (the_card s) apdu = (ans, a') ->
  a_polls ans = 0%nat -> a_sw1 ans <> 0x61 -> a_sw1 ans <> 0x6C -> zlen (a_data ans) <= 4094 ->
  exists s', transmit_full apdu s = (Ok (a_data ans, a_sw1 ans * 256 + a_sw2 ans), s') /\ moved s s' a'.
Proof using Hst Hcont.
  intros Hl Hi Hle Hr Hp H61 H6C Hz. unfold transmit_full. pose proof Hst as (_ & Hpc & _).
  destruct (applet_exchange_t0 (card_run kind) st (p_debug s) pgp_io apdu (cmd_sensitive apdu) (resp_sensitive apdu) (p_world s) ans a')
    as (w' & Ht & Hc); try done.
  - unfold is_continue. rewrite Hcont. apply bool_decide_eq_false. intros He. apply Hi.
    apply (f_equal (fun l => l !! 1%nat)) in He. by rewrite lookup_take in He.
  - unfold MAX_REASSEMBLED_RESPONSE. lia.
  - nia.
  - unfold pgp_inst. rewrite Ht. eexists. split; [done|]. unfold moved, the_card. cbn. by rewrite Hc.
Qed.

(** A short command, its answer at hand. *)
Lemma short_step (s : session) b ans a' : apdu_ok b -> apdu_bytes b !! 1%nat <> Some 0xC0 -> card_run kind (the_card s) (apdu_bytes b) = (ans, a') ->
  a_polls ans = 0%nat -> a_sw1 ans <> 0x61 -> a_sw1 ans <> 0x6C -> zlen (a_data ans) <= 4094 ->
  exists s', transmit_full (apdu_bytes b) s = (Ok (a_data ans, a_sw1 ans * 256 + a_sw2 ans), s') /\ moved s s' a'.
Proof using Hst Hcont. intros Hok Hi Hr. apply transmit_step; [destruct b; cbn; lia|done|by intros _; apply card_le_blind|done]. Qed.
Lemma note_step label text (s : session) : exists s', note label text s = (Ok tt, s') /\ moved s s' (the_card s).
Proof.
  unfold note. match goal with |- context [trace_line ?d ?l ?w] => destruct (@trace_line_eq (T0 PgpCard) (PgpError (PcscError (T0 PgpCard))) d l w) as (w' & He & Hc) end.
  rewrite He. eexists. split; [done|]. unfold moved, the_card. cbn. by rewrite Hc.
Qed.
End on_card.

(** Resetting an OpenPGP card: its PINs are blocked by wrong guesses and the card ends blank,
    whatever the PINs are. *)

(** The guesses made of what the system draws, each unlike the one before. *)
Fixpoint guesses (raws : list (list Z)) (previous : option (list Z)) : list (list Z) :=
  match raws with
  | [] => []
  | raw :: raws => let guess := credential_guess_from raw previous in guess :: guesses raws (Some guess)
  end.
Definition pin_of (pw_ref : Z) (a : PgpCard) : list Z := if pw_ref =? 0x83 then pc_pw3 a else pc_pw1 a.
Definition left_of (pw_ref : Z) (a : PgpCard) : Z := if pw_ref =? 0x83 then pc_left3 a else pc_left1 a.
Definition set_left (pw_ref n : Z) (a : PgpCard) : PgpCard := if pw_ref =? 0x83 then with_left (pc_left1 a) n a else with_left n (pc_left3 a) a.

(** * Lemmas *)

Lemma length_guess raw previous : length (credential_guess_from raw previous) = length raw.
Proof. unfold credential_guess_from. case_bool_decide; rewrite ?length_insert; apply length_map. Qed.
(** Eight digits, and not the last guess. *)
Lemma guess_digits raw previous : length raw = 8%nat -> Bytes raw ->
  let guess := credential_guess_from raw previous in Forall (fun d => 48 <= d <= 57) guess /\ previous <> Some guess.
Proof.
  intros Hl Hb guess. subst guess. unfold credential_guess_from. set (g := map _ raw).
  assert (Forall (fun d => 48 <= d <= 57) g) as Hg by (subst g; apply list.Forall_fmap; eapply list.Forall_impl; [exact Hb|]; intros x _; cbn; lia_div).
  assert (length g = 8%nat) as Hlg by (subst g; by rewrite length_map). case_bool_decide as Hp; [|done]. subst previous.
  destruct (lookup_lt_is_Some_2 g 7) as [d Hd]; [lia|]. assert (g !!! 7%nat = d) as Ht by (by apply list_lookup_total_correct).
  cbn [GUESS_LEN Nat.sub]. rewrite Ht. pose proof (list.Forall_lookup_1 _ _ _ _ Hg Hd) as Hdd. cbn in Hdd. split.
  - apply Forall_insert; [done|lia_div].
  - intros [= He]. apply (f_equal (fun l => l !! 7%nat)) in He. rewrite list_lookup_insert_eq in He by lia. rewrite Hd in He. injection He. lia_div.
Qed.

Section on_card.
Context (kind : CardKind) (st : T0Style) (Hst : style_ok st) (Hcont : continue st = get_response).
#[local] Instance reset_inst : PcscCard (T0 PgpCard) := t0_card (card_run kind) st.
Local Notation session := (PgpSession (T0 PgpCard)).

Lemma verify_pw_eq pw_ref pin a : verify_pw kind pw_ref pin a =
  if left_of pw_ref a =? 0 then (sw_answer 0x6983, a)
  else if bool_decide (pin = pin_of pw_ref a) then (answer_ok [], set_left pw_ref 3 a)
  else (sw_answer (tried_pw kind (left_of pw_ref a)), set_left pw_ref (left_of pw_ref a - 1) a).
Proof. unfold verify_pw, left_of, pin_of, set_left. by destruct (pw_ref =? 0x83). Qed.
Lemma left_set pw_ref n a : left_of pw_ref (set_left pw_ref n a) = n /\ pin_of pw_ref (set_left pw_ref n a) = pin_of pw_ref a /\
  forall m, set_left pw_ref m (set_left pw_ref n a) = set_left pw_ref m a.
Proof. unfold left_of, set_left, pin_of. by destruct (pw_ref =? 0x83). Qed.
(** What VERIFY answers a guess. *)
Lemma guess_step (s : session) pw_ref guess : length guess = 8%nat -> 0 <= left_of pw_ref (the_card s) <= 15 -> exists apdu sw s',
  verify pw_ref guess = Some apdu /\ transmit_full apdu s = (Ok ([], sw), s') /\ p_rng s' = p_rng s /\
  if left_of pw_ref (the_card s) =? 0 then sw = 0x6983 /\ the_card s' = the_card s
  else if bool_decide (guess = pin_of pw_ref (the_card s)) then sw = 0x9000 /\ the_card s' = set_left pw_ref 3 (the_card s)
  else sw <> 0x9000 /\ sw <> 0x6983 /\ the_card s' = set_left pw_ref (left_of pw_ref (the_card s) - 1) (the_card s).
Proof using Hst Hcont.
  intros Hl Hleft. assert (zlen guess = 8) as Hz by (unfold zlen; lia).
  assert (verify pw_ref guess = Some (apdu_bytes (Case3 0x00 0x20 0x00 pw_ref guess))) as Hv by (apply build_apdu_read; lia).
  assert (apdu_ok (Case3 0x00 0x20 0x00 pw_ref guess)) as Hok by (cbn; lia).
  assert (card_run kind (the_card s) (apdu_bytes (Case3 0x00 0x20 0x00 pw_ref guess)) = verify_pw kind pw_ref guess (the_card s)) as Hrun by (by rewrite card_run_short).
  rewrite verify_pw_eq in Hrun.
  assert (forall sw a', card_run kind (the_card s) (apdu_bytes (Case3 0x00 0x20 0x00 pw_ref guess)) = (answer_sw (sw / 256) (sw mod 256), a') -> is_word 16 sw ->
    sw / 256 <> 0x61 -> sw / 256 <> 0x6C -> exists s', transmit_full (apdu_bytes (Case3 0x00 0x20 0x00 pw_ref guess)) s = (Ok ([], sw), s') /\ p_rng s' = p_rng s /\ the_card s' = a') as Hgo.
  { intros sw a' Hr Hw H1 H2. destruct (short_step kind st Hst Hcont s _ _ _ Hok ltac:(done) Hr) as (s' & Ht & Hc & _ & _ & Hrng); [done..|].
    exists s'. cbn [a_data a_sw1 a_sw2 answer_sw] in Ht. replace (sw / 256 * 256 + sw mod 256) with sw in Ht by (unfold is_word in Hw; lia_div). done. }
  destruct (left_of pw_ref (the_card s) =? 0) eqn:E0; bools.
  - destruct (Hgo 0x6983 _ Hrun) as (s' & Ht & Hrng & Hc); [by split|done|done|]. by eexists _, 0x6983, s'.
  - case_bool_decide as Hp.
    + destruct (Hgo 0x9000 _ Hrun) as (s' & Ht & Hrng & Hc); [by split|done|done|]. by eexists _, 0x9000, s'.
    + set (sw := tried_pw kind _) in *. assert (is_word 16 sw /\ sw / 256 <> 0x61 /\ sw / 256 <> 0x6C /\ sw <> 0x9000 /\ sw <> 0x6983) as (H1 & H2 & H3 & H4 & H5)
        by (subst sw; unfold tried_pw, is_word; destruct (ck_counted kind); split_and!; (lia || lia_div)).
      destruct (Hgo sw _ Hrun H1 H2 H3) as (s' & Ht & Hrng & Hc). by eexists _, sw, s'.
Qed.

Lemma block_wp pw_ref left : forall raws previous rest (s : session), length raws = S left -> Forall (fun raw => length raw = 8%nat) raws ->
  p_rng s = map Some raws ++ rest -> left_of pw_ref (the_card s) = Z.of_nat left -> (left <= 15)%nat ->
  wp (block_loop (S left) pw_ref previous) s (fun r s' =>
    if bool_decide (pin_of pw_ref (the_card s) ∈ take left (guesses raws previous)) then r = Err PinGuessAccepted /\ pc_slots (the_card s') = pc_slots (the_card s)
    else r = Ok tt /\ the_card s' = set_left pw_ref 0 (the_card s) /\ p_rng s' = rest).
Proof using Hst Hcont.
  induction left as [|left IH]; intros raws previous rest s Hl Hraws Hrng Hleft Hmax; (destruct raws as [|raw raws]; [done|]); inversion Hraws as [|? ? Hraw Hraws']; subst;
    cbn [map app] in Hrng; set (guess := credential_guess_from raw previous);
    set (s0 := mkPgp (p_world s) (p_debug s) (p_chaining s) (map Some raws ++ rest) : session);
    (assert (random_credential_guess previous s = (Ok guess, s0)) as Hg by (unfold random_credential_guess, mbind, io_bind, fill; by rewrite Hrng));
    (assert (length guess = 8%nat) as Hlg by (subst guess; by rewrite length_guess)); change (the_card s) with (the_card s0) in *;
    (destruct (guess_step s0 pw_ref guess Hlg ltac:(lia)) as (apdu & sw & s1 & Hv & Ht & Hr1 & Hc)); rewrite Hleft in Hc;
    cbn [block_loop]; apply wp_bind; (eapply wp_eq; [exact Hg|]); cbv beta iota; rewrite Hv; cbn [built]; apply wp_bind, wp_ret, wp_bind;
    (eapply wp_eq; [unfold tried; by rewrite Ht|]); cbv beta iota.
  - cbn [Z.of_nat Z.eqb] in Hc. destruct Hc as [-> Hc]. apply wp_ret. rewrite bool_decide_eq_false_2 by (cbn; by intros ?%not_elem_of_nil).
    destruct raws; [|done]. split; [done|]. split; [|by rewrite Hr1]. rewrite Hc. unfold left_of in Hleft. unfold set_left. destruct (pw_ref =? 0x83), (the_card s0); cbn in *; by subst.
  - rewrite (proj2 (Z.eqb_neq _ 0)) in Hc by lia. cbn [guesses take]. fold guess. case_bool_decide as Hp.
    + destruct Hc as [-> Hc]. apply wp_lift. rewrite bool_decide_eq_true_2 by (apply elem_of_cons; left; by rewrite Hp). split; [done|]. rewrite Hc. unfold set_left. by destruct (pw_ref =? 0x83).
    + destruct Hc as (H1 & H2 & Hc). unfold SW_OK. rewrite (proj2 (Z.eqb_neq _ _) H1), (proj2 (Z.eqb_neq _ _) H2).
      destruct (left_set pw_ref (Z.of_nat left) (the_card s0)) as (G1 & G2 & G3). replace (Z.of_nat (S left) - 1) with (Z.of_nat left) in Hc by lia. rewrite <- Hc in G1, G2, G3.
      eapply wp_mono; [apply (IH raws (Some guess) rest s1); [by injection Hl|done|by rewrite Hr1|done|lia]|].
      intros r s'. rewrite G2, G3. assert (pin_of pw_ref (the_card s0) ∈ guess :: take left (guesses raws (Some guess)) <-> pin_of pw_ref (the_card s0) ∈ take left (guesses raws (Some guess))) as Hiff
        by (rewrite elem_of_cons; split; [intros [?|?]; [by subst|done]|by right]).
      rewrite (bool_decide_ext _ _ Hiff). case_bool_decide; [|done]. intros [-> Hs]. split; [done|]. rewrite Hs, Hc. unfold set_left. by destruct (pw_ref =? 0x83).
Qed.

Lemma guesses_ok raws previous : Forall (fun raw => length raw = 8%nat /\ Bytes raw) raws ->
  Forall (fun g => length g = 8%nat /\ Forall (fun d => 48 <= d <= 57) g) (guesses raws previous) /\
  (forall g, guesses raws previous !! 0%nat = Some g -> previous <> Some g) /\
  (forall i g h, guesses raws previous !! i = Some g -> guesses raws previous !! S i = Some h -> g <> h).
Proof.
  intros Hr. revert previous. induction Hr as [|raw raws [Hl Hb] Hr IH]; intros previous; [done|]. cbn [guesses].
  destruct (guess_digits raw previous Hl Hb) as [Hd Hne]. destruct (IH (Some (credential_guess_from raw previous))) as (H1 & H2 & H3). split; [|split].
  - constructor; [by rewrite length_guess|done].
  - intros g [= <-]. done.
  - intros [|i] g h Hg Hh; [|by apply (H3 i)]. injection Hg as <-. cbn [lookup list_lookup] in Hh. intros He. subst h. by apply (H2 _ Hh).
Qed.
Lemma pw_status_step (s : session) : card_wf (the_card s) -> exists s', answered get_pw_status s = (Ok (Some (pw_bytes (the_card s))), s') /\
  the_card s' = the_card s /\ p_rng s' = p_rng s.
Proof using Hst Hcont.
  intros Hwf. assert (card_run kind (the_card s) (apdu_bytes (Case2 0x00 0xCA 0x00 0xC4 0x00)) = (answer_ok (pw_bytes (the_card s)), the_card s)) as Hrun by (by rewrite card_run_short).
  destruct (short_step kind st Hst Hcont s (Case2 0x00 0xCA 0x00 0xC4 0x00) _ _ I ltac:(done) Hrun) as (s' & Ht & Hc & _ & _ & Hr); [done..|].
  exists s'. split; [|done]. unfold answered. change get_pw_status with (apdu_bytes (Case2 0x00 0xCA 0x00 0xC4 0x00)).
  match type of Ht with _ = (?r, _) => rewrite (io_bind_Ok_eq (tried (transmit_full (apdu_bytes (Case2 0x00 0xCA 0x00 0xC4 0x00)))) _ s r s') end; [done|].
  unfold tried. by rewrite Ht.
Qed.
Lemma put_status_wp (s : session) b a' label : apdu_ok b -> apdu_bytes b !! 1%nat <> Some 0xC0 -> card_run kind (the_card s) (apdu_bytes b) = (answer_ok [], a') ->
  wp (put_status (Some (apdu_bytes b)) label) s (fun r s' => r = Ok tt /\ the_card s' = a' /\ p_rng s' = p_rng s).
Proof using Hst Hcont.
  intros Hok Hi Hr. destruct (short_step kind st Hst Hcont s b _ _ Hok Hi Hr) as (s' & Ht & Hc & _ & _ & Hrng); [done..|].
  unfold put_status. cbn [built]. apply wp_bind, wp_ret, wp_bind. eapply wp_eq; [exact Ht|]. done.
Qed.
Lemma factory_reset_wp (s : session) raws1 raws3 rest : card_wf (the_card s) ->
  length raws1 = S (Z.to_nat (pc_left1 (the_card s))) -> length raws3 = S (Z.to_nat (pc_left3 (the_card s))) ->
  Forall (fun raw => length raw = 8%nat) raws1 -> Forall (fun raw => length raw = 8%nat) raws3 -> p_rng s = map Some raws1 ++ map Some raws3 ++ rest ->
  wp factory_reset s (fun r s' =>
    if bool_decide (pc_pw1 (the_card s) ∈ take (Z.to_nat (pc_left1 (the_card s))) (guesses raws1 None)) ||
       bool_decide (pc_pw3 (the_card s) ∈ take (Z.to_nat (pc_left3 (the_card s))) (guesses raws3 None))
    then r = Err PinGuessAccepted /\ pc_slots (the_card s') = pc_slots (the_card s)
    else r = Ok tt /\ the_card s' = blank_card /\ p_rng s' = rest).
Proof using Hst Hcont.
  intros Hwf Hl1 Hl3 H1 H3 Hrng. pose proof Hwf as (_ & _ & _ & Hb1 & Hb3). destruct (pw_status_step s Hwf) as (s1 & Hp & Hc1 & Hr1).
  unfold factory_reset. apply wp_bind. eapply wp_eq; [exact Hp|]. cbn [mbind option_bind parse_pw_status result_ok pw_bytes tries_pw1 tries_pw3].
  unfold block_pin. rewrite !Z.min_r by lia. replace (Z.to_nat (pc_left1 (the_card s) + 1)) with (S (Z.to_nat (pc_left1 (the_card s)))) by lia.
  replace (Z.to_nat (pc_left3 (the_card s) + 1)) with (S (Z.to_nat (pc_left3 (the_card s)))) by lia. apply wp_bind.
  eapply wp_mono; [apply (block_wp PW1_OTHER _ raws1 None (map Some raws3 ++ rest) s1 Hl1 H1); [by rewrite Hr1|rewrite Hc1; unfold left_of; cbn; lia|lia]|].
  intros r s2. rewrite Hc1. change (pin_of PW1_OTHER (the_card s)) with (pc_pw1 (the_card s)). case_bool_decide as E1; cbn [orb]; [by intros [-> Hs]|]. intros (-> & Hc2 & Hr2).
  change (set_left PW1_OTHER 0 (the_card s)) with (with_left 0 (pc_left3 (the_card s)) (the_card s)) in Hc2. apply wp_bind.
  eapply wp_mono; [apply (block_wp PW3_ADMIN _ raws3 None rest s2 Hl3 H3 Hr2); [rewrite Hc2; unfold left_of; cbn; lia|lia]|].
  intros r s3. rewrite Hc2. change (pin_of PW3_ADMIN (with_left 0 (pc_left3 (the_card s)) (the_card s))) with (pc_pw3 (the_card s)).
  case_bool_decide as E3; [by intros [-> Hs]|]. intros (-> & Hc3 & Hr3).
  change (set_left PW3_ADMIN 0 (with_left 0 (pc_left3 (the_card s)) (the_card s))) with (with_left 0 0 (the_card s)) in Hc3. apply wp_bind.
  eapply wp_mono; [apply (put_status_wp s3 (Case1 0x00 0xE6 0x00 0x00) (the_card s3) _ I ltac:(done)); by rewrite card_run_short, Hc3|].
  intros r s4 (-> & Hc4 & Hr4). eapply wp_mono; [apply (put_status_wp s4 (Case1 0x00 0x44 0x00 0x00) blank_card _ I ltac:(done)); by rewrite card_run_short|].
  intros r s5 (-> & Hc5 & Hr5). split; [done|]. split; [done|]. by rewrite Hr5, Hr4.
Qed.
End on_card.

(** * Properties *)

(** C21: a factory reset gets there. It guesses eight digits, never the guess before
    again, once more than each PIN has tries left, and no more of the system's
    random numbers are drawn; unless a PIN happens to be one of the guesses that
    were still counted, the card ends blank with the PINs it left the factory
    with, whatever they were and whichever of the two ways it counts wrong ones;
    if one is, the reset stops, says that a guess was accepted, and no slot has
    changed. *)
Theorem pgp_reset_blanks (kind : CardKind) (st : T0Style) (s : PgpSession (T0 PgpCard)) (raws1 raws3 : list (list Z)) (rest : list (option (list Z))) :
  style_ok st -> continue st = get_response -> card_wf (the_card s) ->
  length raws1 = S (Z.to_nat (pc_left1 (the_card s))) -> length raws3 = S (Z.to_nat (pc_left3 (the_card s))) ->
  Forall (fun raw => length raw = 8%nat /\ Bytes raw) (raws1 ++ raws3) -> p_rng s = map Some (raws1 ++ raws3) ++ rest ->
  let guesses1 := guesses raws1 None in let guesses3 := guesses raws3 None in
  Forall (fun g => length g = 8%nat /\ Forall (fun d => 48 <= d <= 57) g) (guesses1 ++ guesses3) /\
  (forall i g h, (guesses1 !! i = Some g /\ guesses1 !! S i = Some h) \/ (guesses3 !! i = Some g /\ guesses3 !! S i = Some h) -> g <> h) /\
  let run := factory_reset (H := t0_card (card_run kind) st) s in
  if bool_decide (pc_pw1 (the_card s) ∈ take (Z.to_nat (pc_left1 (the_card s))) guesses1) ||
     bool_decide (pc_pw3 (the_card s) ∈ take (Z.to_nat (pc_left3 (the_card s))) guesses3)
  then run.1 = Err PinGuessAccepted /\ pc_slots (the_card run.2) = pc_slots (the_card s)
  else run.1 = Ok tt /\ the_card run.2 = blank_card /\ p_rng run.2 = rest.
Proof.
  intros Hst Hcont Hwf Hl1 Hl3 Hr Hrng g1 g3. apply list.Forall_app in Hr as [Hr1 Hr3]. rewrite map_app, <- app_assoc in Hrng.
  destruct (guesses_ok raws1 None Hr1) as (A1 & _ & B1), (guesses_ok raws3 None Hr3) as (A3 & _ & B3). split; [by apply list.Forall_app|].
  split; [intros i g h [[Hg Hh]|[Hg Hh]]; [by apply (B1 i)|by apply (B3 i)]|].
  apply (factory_reset_wp kind st Hst Hcont s raws1 raws3 rest); try done; (eapply list.Forall_impl; [eassumption|by intros ? []]).
Qed.

Lemma pgp_reset_blanks_witness :
  let kind := mkKind AID_PREFIX None true false (fun v => v) (fun _ _ => PubEcc []) (fun _ => None) in
  let st := mkStyle get_response 256 254 0 false in
  let card := mkCard (fun _ => mkSlot [0x16] (Some []) (replicate 20 7) [1; 2; 3; 4]) (s2b "hunter22") (s2b "87654321") 1 2 [] [] in
  let s := mkPgp (mkWorld (mkT0 card [] (0x90, 0x00) 0) None []) false false (map Some (replicate 2 (replicate 8 3) ++ replicate 3 (replicate 8 5)) ++ []) in
  (factory_reset (H := t0_card (card_run kind) st) s).1 = Ok tt /\ the_card (factory_reset (H := t0_card (card_run kind) st) s).2 = blank_card.
Proof.
  intros kind st card s. destruct (pgp_reset_blanks kind st s (replicate 2 (replicate 8 3)) (replicate 3 (replicate 8 5)) []) as (_ & _ & H).
  - by repeat split.
  - done.
  - split; [intros crt; split_and!; [by vm_compute|done|by_decision]|]. split; [done|]. split; [done|]. cbn. lia.
  - done.
  - done.
  - by_decision.
  - done.
  - destruct H as (H1 & H2 & _). by split.
Defined.
