(* ===== verification/PgpKeys.v ===== *)
(** Importing a set of keys into an OpenPGP card: what the card holds afterwards
    is what the session reports, whatever the card refuses. *)
From S2P Require Export PgpCard.

(** * What a slot holds *)

(** A slot has taken a key: its fields are the key's, under attributes of the
    algorithm, the card reports the public part given, and the fingerprint and
    creation time are registered. *)
Definition rsa_loaded (parts : RsaPrivateKeyParts) (attrs : list Z) (fields : list (Z * list Z)) : Prop :=
  exists r, parse_algorithm_attributes attrs = Ok (AttrRsa r) /\ Forall2 same_number fields (rsa_parts parts (format r)).
Definition ecc_loaded (parts : EccPrivateKeyParts) (attrs : list Z) (fields : list (Z * list Z)) : Prop :=
  exists k c p s, parse_algorithm_attributes attrs = Ok (AttrEcc k c p) /\ fields = ecc_fields s (if p then public parts else None) /\
    from_be s = from_be (scalar parts) /\ zlen s = field_len c.
Definition loaded_key (kind : CardKind) (key : ImportKey) (alg : KeyAlg) (slot : Slot) (fields : list (Z * list Z)) : Prop :=
  sl_key slot = Some fields /\ (exists a, parse_algorithm_attributes (sl_attrs slot) = Ok a /\ attr_key_alg a = Some alg) /\
  match key with IRsa parts => rsa_loaded parts (sl_attrs slot) fields | IEcc parts => ecc_loaded parts (sl_attrs slot) fields end.
Definition loaded (kind : CardKind) (k : KeyImport) (slot : Slot) : Prop :=
  exists fields, loaded_key kind (k_key k) (k_alg k) slot fields /\
    same_public_key (ck_public kind (sl_attrs slot) fields) (expect_public k) = true /\
    sl_fpr slot = expect_fpr k /\ sl_time slot = to_be 4 (k_created k).
(** The slots after all of [keys], in their order. *)
Inductive loaded_all (kind : CardKind) (sl : KeyCrt -> Slot) : list KeyImport -> (KeyCrt -> Slot) -> Prop :=
  | loaded_none sl' : (forall crt, sl' crt = sl crt) -> loaded_all kind sl [] sl'
  | loaded_one keys k sl1 sl2 : loaded_all kind sl keys sl1 -> loaded kind k (sl2 (k_crt k)) ->
      (forall crt, crt <> k_crt k -> sl2 crt = sl1 crt) -> loaded_all kind sl (keys ++ [k]) sl2.

(** Keys no longer than a card's fields. *)
Definition import_ok (k : KeyImport) : Prop :=
  match k_key k with
  | IRsa parts => Forall (fun w => zlen w.2 <= 0x2000) (rsa_parts parts CrtWithModulus)
  | IEcc parts => zlen (default [] (public parts)) <= 0x2000
  end /\ length (expect_fpr k) = 20%nat.
Definition plain_error {PE} (e : PgpError PE) : Prop := match e with KeySetPartial _ _ _ _ => False | _ => True end.

(** * Lemmas *)

Section on_card.
Context (kind : CardKind) (st : T0Style) (Hst : style_ok st) (Hcont : continue st = get_response) (Hk : kind_ok kind).
#[local] Instance keys_inst : PcscCard (T0 PgpCard) := t0_card (card_run kind) st.
Local Notation session := (PgpSession (T0 PgpCard)).

(** The card is well-formed, and only the slot [crt] may not be as it was. *)
Definition within (crt : KeyCrt) (a0 a : PgpCard) : Prop := card_wf a /\ forall c, c <> crt -> pc_slots a c = pc_slots a0 c.
Definition same_slots (a0 a : PgpCard) : Prop := card_wf a /\ forall c, pc_slots a c = pc_slots a0 c.

Lemma same_refl a : card_wf a -> same_slots a a.
Proof. done. Qed.
Lemma same_trans a b c : same_slots a b -> same_slots b c -> same_slots a c.
Proof. intros [_ H1] [H2 H3]. split; [done|]. intros x. by rewrite H3. Qed.
Lemma same_within crt a b : same_slots a b -> within crt a b.
Proof. intros [H1 H2]. by split. Qed.
Lemma within_same crt a b c : within crt a b -> same_slots b c -> within crt a c.
Proof. intros [_ H1] [H2 H3]. split; [done|]. intros x Hx. by rewrite H3, H1. Qed.
Lemma within_trans crt a b c : within crt a b -> within crt b c -> within crt a c.
Proof. intros [_ H1] [H2 H3]. split; [done|]. intros x Hx. by rewrite H3, H1. Qed.

Lemma sw_back sw : sw_ok sw -> sw / 256 * 256 + sw mod 256 = sw /\ cast 8 (Z.shiftr sw 8) = sw / 256.
Proof.
  intros [Hw _]. unfold is_word in Hw. split; [lia_div|]. rewrite Z.shiftr_div_pow2 by lia. change (2 ^ 8) with 256. apply cast_small. unfold is_word. lia_div.
Qed.
Lemma ok_or_apdu_cases label sw : ok_or_apdu (PE := PcscError (T0 PgpCard)) label sw = if sw =? 0x9000 then Ok tt else Err (apdu_error label sw).
Proof. done. Qed.

(** A write, as the card does it or refuses it. *)
Lemma raw_write_wp (s : session) apdu f : (4 <= length apdu)%nat -> apdu !! 1%nat <> Some 0xC0 -> (ends_in_le apdu = true -> le_blind (card_run kind) apdu) ->
  Forall sw_ok (pc_refuse (the_card s)) -> card_run kind (the_card s) apdu = card_write f (the_card s) ->
  wp (transmit_full apdu) s (fun r s' => exists sw rest, r = Ok ([], sw) /\ sw_ok sw /\ Forall sw_ok rest /\
    the_card s' = if sw =? 0x9000 then f (with_refuse rest (the_card s)) else with_chain [] (with_refuse rest (the_card s))).
Proof using Hst Hcont.
  intros Hl Hi Hle Hr Hrun. destruct (card_write_cases f (the_card s) Hr) as (sw & rest & Hsw & Hrest & Hw). rewrite Hw in Hrun.
  destruct (sw_back sw Hsw) as [Hb _]. pose proof Hsw as (Hword & H61 & H6C). destruct (sw =? 0x9000) eqn:E; bools.
  - destruct (transmit_step kind st Hst Hcont s apdu _ _ Hl Hi Hle Hrun) as (s' & Ht & Hm & _); [done..|]. eapply wp_eq; [exact Ht|]. exists 0x9000, rest. by subst sw.
  - destruct (transmit_step kind st Hst Hcont s apdu _ _ Hl Hi Hle Hrun) as (s' & Ht & Hm & _); [done..|]. eapply wp_eq; [exact Ht|]. exists sw, rest.
    rewrite (proj2 (Z.eqb_neq _ _) E). cbn [a_data a_sw1 a_sw2 sw_answer answer_sw]. by rewrite Hb.
Qed.
Lemma refused_wf rest a : Forall sw_ok rest -> card_wf (with_chain [] a) -> card_wf (with_chain [] (with_refuse rest a)).
Proof. intros Hr (Hs & _ & _ & H1 & H3). exact (conj Hs (conj eq_refl (conj Hr (conj H1 H3)))). Qed.
Lemma refuse_wf rest a : Forall sw_ok rest -> card_wf a -> card_wf (with_refuse rest a).
Proof. intros Hr (Hs & Hc & _ & H1 & H3). exact (conj Hs (conj Hc (conj Hr (conj H1 H3)))). Qed.
Lemma chain_empty a : card_wf a -> with_chain [] a = a.
Proof. intros (_ & Hc & _). destruct a. cbn in *. by subst. Qed.
Lemma on_slot_wf crt g a : card_wf a -> slot_wf (g (pc_slots a crt)) -> within crt a (on_slot crt g a) /\ pc_slots (on_slot crt g a) crt = g (pc_slots a crt).
Proof.
  intros (Hs & Hrest) Hg. unfold on_slot, with_slots. split; [split; [split; [|exact Hrest]|]|].
  - intros c. cbn. case_bool_decide; [by subst|done].
  - intros c Hc. cbn. by rewrite bool_decide_eq_false_2.
  - cbn. by rewrite bool_decide_eq_true_2.
Qed.
(** A write to one slot. *)
Lemma write_wp (s : session) b crt (g : Slot -> Slot) : apdu_ok b -> apdu_bytes b !! 1%nat <> Some 0xC0 -> card_wf (the_card s) -> slot_wf (g (pc_slots (the_card s) crt)) ->
  card_run kind (the_card s) (apdu_bytes b) = card_write (on_slot crt g) (the_card s) ->
  wp (transmit_full (apdu_bytes b)) s (fun r s' => exists sw, r = Ok ([], sw) /\ within crt (the_card s) (the_card s') /\
    pc_slots (the_card s') crt = if sw =? 0x9000 then g (pc_slots (the_card s) crt) else pc_slots (the_card s) crt).
Proof using Hst Hcont.
  intros Hok Hi Hwf Hg Hrun. pose proof Hwf as (_ & _ & Hr & _).
  eapply wp_mono; [apply (raw_write_wp s _ (on_slot crt g)); [destruct b; cbn; lia|done|intros _; by apply card_le_blind|done|done]|].
  intros r s' (sw & rest & -> & Hsw & Hrest & Hc). exists sw. split; [done|]. rewrite Hc.
  pose proof (refuse_wf rest _ Hrest Hwf) as Hwf'.
  destruct (sw =? 0x9000).
  - destruct (on_slot_wf crt g (with_refuse rest (the_card s)) Hwf' Hg) as [[H1 H2] H3]. done.
  - by rewrite (chain_empty (with_refuse rest (the_card s)) Hwf').
Qed.

(** ** Reading *)

Lemma sw_answer_fine sw : sw_ok sw -> a_sw1 (sw_answer sw) <> 0x61 /\ a_sw1 (sw_answer sw) <> 0x6C /\ a_sw1 (sw_answer sw) * 256 + a_sw2 (sw_answer sw) = sw.
Proof. intros Hsw. destruct (sw_back sw Hsw) as [Hb _]. destruct Hsw as (_ & H1 & H2). done. Qed.
Lemma leaf_ok n tag v : is_byte tag -> Z.land tag 0x1F <> 0x1F -> tag_constructed tag = false -> zlen v <= 0xFFFF -> object_ok n (Leaf tag v).
Proof. intros Hb Ht Hc Hv. destruct n; (split; [by left|]; by split). Qed.
Lemma application_ok a : card_wf a -> Forall (object_ok 15) (application_objects kind a) /\ zlen (objects_bytes (application_objects kind a)) <= 1000.
Proof using Hk.
  intros (Hs & _). destruct Hk as (Haid & _). pose proof (Hs Sign) as (H1 & H1' & _). pose proof (Hs Decrypt) as (H2 & H2' & _). pose proof (Hs Auth) as (H3 & H3' & _).
  set (fprs := sl_fpr (pc_slots a Sign) ++ sl_fpr (pc_slots a Decrypt) ++ sl_fpr (pc_slots a Auth)).
  assert (zlen fprs = 60) as Hf by (subst fprs; zlen; unfold zlen; lia).
  assert (zlen (pw_bytes a) = 7) as Hp by done.
  set (inner := [Leaf 0xC1 (sl_attrs (pc_slots a Sign)); Leaf 0xC2 (sl_attrs (pc_slots a Decrypt)); Leaf 0xC3 (sl_attrs (pc_slots a Auth)); Leaf 0xC4 (pw_bytes a); Leaf 0xC5 fprs]).
  assert (zlen (objects_bytes inner) <= 400) as Hi.
  { subst inner. unfold objects_bytes. cbn [map concat object_bytes]. rewrite !zlen_app, zlen_nil.
    pose proof (zlen_ber_tlv 0xC1 (sl_attrs (pc_slots a Sign)) ltac:(lia)). pose proof (zlen_ber_tlv 0xC2 (sl_attrs (pc_slots a Decrypt)) ltac:(lia)).
    pose proof (zlen_ber_tlv 0xC3 (sl_attrs (pc_slots a Auth)) ltac:(lia)). pose proof (zlen_ber_tlv 0xC4 (pw_bytes a) ltac:(lia)). pose proof (zlen_ber_tlv 0xC5 fprs ltac:(lia)). lia. }
  split.
  - unfold application_objects. fold fprs. fold inner. constructor; [apply leaf_ok; [by split|done|done|lia]|]. constructor; [|constructor].
    split; [left; by repeat split|]. split; [cbn [object_value]; lia|]. split; [done|].
    subst inner. repeat (apply list.Forall_cons; split; [apply leaf_ok; [by split|done|done|lia]|]). constructor.
  - unfold application_objects, objects_bytes. fold fprs. fold inner. cbn [map concat object_bytes]. rewrite !zlen_app, zlen_nil. fold (objects_bytes inner).
    pose proof (zlen_ber_tlv 0x4F (ck_aid kind) ltac:(lia)). pose proof (zlen_ber_tlv 0x73 (objects_bytes inner) ltac:(lia)). lia.
Qed.
(** GET DATA and READ PUBLIC KEY leave the card as it is. *)
Lemma read_step (s : session) b ans : apdu_ok b -> apdu_bytes b !! 1%nat <> Some 0xC0 -> card_run kind (the_card s) (apdu_bytes b) = (ans, the_card s) ->
  a_polls ans = 0%nat -> a_sw1 ans <> 0x61 -> a_sw1 ans <> 0x6C -> zlen (a_data ans) <= 4094 ->
  exists s', transmit_full (apdu_bytes b) s = (Ok (a_data ans, a_sw1 ans * 256 + a_sw2 ans), s') /\ the_card s' = the_card s.
Proof using Hst Hcont. intros Hok Hi Hr Hp H1 H2 Hz. destruct (short_step kind st Hst Hcont s b ans _ Hok Hi Hr Hp H1 H2 Hz) as (s' & Ht & Hm & _). by exists s'. Qed.
Lemma card_data_step (s : session) : card_wf (the_card s) -> exists ard s', card_data s = (Ok ard, s') /\ the_card s' = the_card s /\
  forall crt, by_slot (algo_attr_sig ard) (algo_attr_dec ard) (algo_attr_aut ard) crt = sl_attrs (pc_slots (the_card s) crt).
Proof using Hst Hcont Hk.
  intros Hwf. destruct (application_ok _ Hwf) as [Ho Hz]. set (os := application_objects kind (the_card s)) in *. pose proof (zlen_ber_tlv 0x6E (objects_bytes os) ltac:(lia)) as Hz'.
  destruct (read_step s (Case2 0x00 0xCA 0x00 0x6E 0x00) (answer_ok (object_bytes (Node 0x6E os))) I ltac:(done)) as (s' & Ht & Hc);
    [by rewrite card_run_short|done|done|done|cbn [a_data answer_ok object_bytes]; fold (objects_bytes os); lia|].
  cbn [a_data a_sw1 a_sw2 answer_ok] in Ht.
  destruct (ard_read os (object_bytes (Node 0x6E os)) Ho) as [_ Hr]; [left; split; [lia|done]|].
  specialize (Hr (ck_aid kind) (sl_attrs (pc_slots (the_card s) Sign)) (sl_attrs (pc_slots (the_card s) Decrypt)) (sl_attrs (pc_slots (the_card s) Auth)) (pw_bytes (the_card s))
    (sl_fpr (pc_slots (the_card s) Sign) ++ sl_fpr (pc_slots (the_card s) Decrypt) ++ sl_fpr (pc_slots (the_card s) Auth)) eq_refl eq_refl eq_refl eq_refl eq_refl eq_refl).
  destruct (parse_application_related_data _) as [ard|e] eqn:Ep.
  - exists ard, s'. split; [|split; [done|]].
    + unfold card_data. change get_application_related_data with (apdu_bytes (Case2 0x00 0xCA 0x00 0x6E 0x00)). rewrite (io_bind_Ok_eq _ _ _ _ _ Ht).
      change (ok_or_apdu (s2b "get application related data") (0x90 * 256 + 0x00)) with (@Ok (PgpError (PcscError (T0 PgpCard))) unit tt). io_step. by rewrite Ep.
    + destruct Hr as (_ & H1 & H2 & H3 & _). by intros [].
  - exfalso. destruct Hr as [_ [Hr|Hr]]; [by apply Hr|]. destruct Hwf as (Hs & _). destruct (Hs Sign) as (_ & H1 & _), (Hs Decrypt) as (_ & H2 & _), (Hs Auth) as (_ & H3 & _).
    revert Hr. zlen. unfold zlen. lia.
Qed.
Lemma attributes_wp crt (s : session) : card_wf (the_card s) ->
  wp (algorithm_attributes crt) s (fun r s' => r = Ok (sl_attrs (pc_slots (the_card s) crt)) /\ the_card s' = the_card s).
Proof using Hst Hcont Hk.
  intros Hwf. destruct (card_data_step s Hwf) as (ard & s' & Hd & Hc & Ha). unfold algorithm_attributes. eapply wp_eq; [by rewrite (io_bind_Ok_eq _ _ _ _ _ Hd)|].
  by rewrite Ha.
Qed.
Lemma note_wp label text (s : session) : wp (note label text) s (fun r s' => r = Ok tt /\ the_card s' = the_card s).
Proof. destruct (note_step kind st label text s) as (s' & Hn & Hm & _). eapply wp_eq; [exact Hn|done]. Qed.
Lemma slot_attributes_cases alg crt : match slot_attributes (PE := PcscError (T0 PgpCard)) alg crt with
  | Ok sent => attributes alg crt = Ok (Some sent) | Err e => plain_error e end.
Proof. unfold slot_attributes. by destruct (attributes alg crt) as [[sent|]|m]. Qed.
Lemma crt_of_self crt : crt_of algo_attr_tag (algo_attr_tag crt) = Some crt /\ crt_of fpr_tag (fpr_tag crt) = Some crt /\ crt_of time_tag (time_tag crt) = Some crt /\
  crt_of crt_tag (crt_tag crt) = Some crt.
Proof. by destruct crt. Qed.

(** PUT DATA of an object the card has by slot. *)
Lemma put_data_read tag v : 1 <= zlen v <= 255 -> put_data tag v = Some (apdu_bytes (Case3 0x00 0xDA (high tag) (low tag) v)).
Proof. intros Hv. destruct (build_apdu_read 0x00 0xDA (high tag) (low tag) v Hv) as [Hb _]. exact Hb. Qed.
Lemma put_wp (s : session) crt (g : Slot -> Slot) tag v : 1 <= zlen v <= 255 -> card_wf (the_card s) -> slot_wf (g (pc_slots (the_card s) crt)) ->
  put_object kind (high tag * 256 + low tag) v (the_card s) = card_write (on_slot crt g) (the_card s) ->
  exists apdu, put_data tag v = Some apdu /\ wp (transmit_full apdu) s (fun r s' => exists sw, r = Ok ([], sw) /\ within crt (the_card s) (the_card s') /\
    pc_slots (the_card s') crt = if sw =? 0x9000 then g (pc_slots (the_card s) crt) else pc_slots (the_card s) crt).
Proof using Hst Hcont.
  intros Hv Hwf Hg Hput. rewrite (put_data_read tag v Hv). eexists. split; [done|]. apply write_wp; try done. by rewrite card_run_short.
Qed.
Lemma unchanged_slots crt a0 a : within crt a0 a -> pc_slots a crt = pc_slots a0 crt -> same_slots a0 a.
Proof. intros [Hw Ho] Hs. split; [done|]. intros c. destruct (decide (c = crt)) as [->|Hc]; [done|by apply Ho]. Qed.

Lemma set_algorithm_wp crt alg (s : session) : card_wf (the_card s) ->
  wp (set_algorithm crt alg) s (fun r s' => match r with
    | Ok _ => exists sent, attributes alg crt = Ok (Some sent) /\ within crt (the_card s) (the_card s') /\
        pc_slots (the_card s') crt = new_attrs kind sent (pc_slots (the_card s) crt)
    | Err e => plain_error e /\ same_slots (the_card s) (the_card s')
    end).
Proof using Hst Hcont Hk.
  intros Hwf. unfold set_algorithm. apply wp_bind_lift. pose proof (slot_attributes_cases alg crt) as Hs.
  destruct (slot_attributes alg crt) as [sent|e]; [|by split]. destruct (attributes_back alg crt sent Hs) as [Hl (a & Ha & _)].
  destruct Hk as (_ & _ & _ & Hst' & _). destruct (Hst' alg crt sent Hs) as (Hz & Hby & _). clear Hst'.
  assert (1 <= zlen sent) by (destruct sent; [done|zlen; pose proof (zlen_nonneg sent); lia]).
  destruct (put_wp s crt (new_attrs kind sent) (algo_attr_tag crt) sent ltac:(lia) Hwf) as (apdu & Hap & Hw).
  - destruct Hwf as (Hsl & _). destruct (Hsl crt) as (_ & Hf & _). by split_and!.
  - by destruct crt.
  - unfold put_algorithm_attributes. rewrite Hap. cbn [built]. apply wp_bind, wp_ret, wp_bind. eapply wp_mono; [exact Hw|].
    intros r s' (sw & -> & Hin & Hsl). destruct (_ || _) eqn:E.
    + apply wp_lift. split; [done|]. apply (unchanged_slots crt); [done|]. rewrite Hsl. destruct (sw =? 0x9000) eqn:E2; [exfalso; bools; lia|done].
    + apply wp_lift. rewrite ok_or_apdu_cases. destruct (sw =? 0x9000); [by exists sent|]. split; [done|]. by apply (unchanged_slots crt).
Qed.
Lemma public_ok k : match k with PubRsa n e => zlen n <= 1600 /\ zlen e <= 1600 | PubEcc p => zlen p <= 1600 end ->
  Forall (object_ok 15) (public_objects k) /\ zlen (objects_bytes (public_objects k)) <= 4000.
Proof.
  intros Hk'. destruct k as [n e|p]; cbn [public_objects].
  - destruct Hk'. split; [repeat (apply list.Forall_cons; split; [apply leaf_ok; [by split|done|done|lia]|]); constructor|].
    unfold objects_bytes. cbn [map concat object_bytes]. rewrite !zlen_app, zlen_nil.
    pose proof (zlen_ber_tlv 0x81 n ltac:(lia)). pose proof (zlen_ber_tlv 0x82 e ltac:(lia)). lia.
  - split; [repeat (apply list.Forall_cons; split; [apply leaf_ok; [by split|done|done|lia]|]); constructor|].
    unfold objects_bytes. cbn [map concat object_bytes]. rewrite !zlen_app, zlen_nil. pose proof (zlen_ber_tlv 0x86 p ltac:(lia)). lia.
Qed.
Lemma read_public_key_wp crt (s : session) : card_wf (the_card s) ->
  wp (session_read_public_key crt) s (fun r s' => the_card s' = the_card s /\ match r with
    | Ok k => exists fields, sl_key (pc_slots (the_card s) crt) = Some fields /\ k = ck_public kind (sl_attrs (pc_slots (the_card s) crt)) fields
    | Err e => plain_error e
    end).
Proof using Hst Hcont Hk.
  intros Hwf. unfold session_read_public_key. assert (read_public_key crt = Some (apdu_bytes (Case4 0x00 0x47 0x81 0x00 [crt_tag crt; 0x00] 0x00))) as -> by (by destruct crt).
  cbn [built]. apply wp_bind, wp_ret. unfold parsed_public_key. apply wp_bind.
  assert (card_run kind (the_card s) (apdu_bytes (Case4 0x00 0x47 0x81 0x00 [crt_tag crt; 0x00] 0x00)) = (read_key kind (the_card s) [crt_tag crt; 0x00], the_card s)) as Hrun
    by (rewrite card_run_short by (by split); by destruct crt).
  assert (read_key kind (the_card s) [crt_tag crt; 0x00] = match sl_key (pc_slots (the_card s) crt) with
    | Some fields => answer_ok (object_bytes (Node 0x7F49 (public_objects (ck_public kind (sl_attrs (pc_slots (the_card s) crt)) fields)))) | None => sw_answer 0x6A88 end) as Hkey
    by (destruct crt; unfold read_key; cbn; by destruct (sl_key _)).
  rewrite Hkey in Hrun. destruct (sl_key (pc_slots (the_card s) crt)) as [fields|].
  - destruct Hk as (_ & _ & Hpub & _). specialize (Hpub (sl_attrs (pc_slots (the_card s) crt)) fields).
    remember (ck_public kind (sl_attrs (pc_slots (the_card s) crt)) fields) as k eqn:Ek. destruct (public_ok k Hpub) as [Ho Hz]. set (os := public_objects k) in *.
    pose proof (zlen_ber_tlv 0x7F49 (objects_bytes os) ltac:(lia)).
    destruct (read_step s (Case4 0x00 0x47 0x81 0x00 [crt_tag crt; 0x00] 0x00) _ ltac:(cbn [apdu_ok]; by split) ltac:(done) Hrun) as (s' & Ht & Hc); [done|done|done|cbn [a_data answer_ok object_bytes]; fold (objects_bytes os); lia|].
    eapply wp_eq; [exact Ht|]. apply wp_bind_lift. change (ok_or_apdu _ _) with (@Ok (PgpError (PcscError (T0 PgpCard))) unit tt). apply wp_lift. split; [done|].
    cbn [a_data answer_ok]. assert (card_answer TAG_PUBLIC_KEY os (object_bytes (Node 0x7F49 os))) as Ha by (left; split; [lia|done]).
    rewrite (public_key_read os _ Ho Ha). subst os. destruct k; (exists fields; by split).
  - destruct (read_step s (Case4 0x00 0x47 0x81 0x00 [crt_tag crt; 0x00] 0x00) _ ltac:(cbn [apdu_ok]; by split) ltac:(done) Hrun) as (s' & Ht & Hc); [done..|]. eapply wp_eq; [exact Ht|]. by apply wp_bind_lift.
Qed.

(** ** Sending a key *)

Section sending.
Context (crt : KeyCrt) (fields : list (Z * list Z)).
Local Notation label := (s2b "openpgp import key").

(** The slot took the key, or no slot changed. *)
Definition key_put (a0 : PgpCard) {A} (r : result (PgpError (PcscError (T0 PgpCard))) A) (s' : session) : Prop :=
  match r with
  | Ok _ => within crt a0 (the_card s') /\ pc_slots (the_card s') crt = new_key fields (pc_slots a0 crt)
  | Err e => plain_error e /\ same_slots a0 (the_card s')
  end.
Lemma key_put_same {A} a0 a1 (r : result (PgpError (PcscError (T0 PgpCard))) A) (s' : session) : same_slots a0 a1 -> key_put a1 r s' -> key_put a0 r s'.
Proof.
  intros [_ Hs]. unfold key_put. destruct r as [x|e].
  - intros [[Hwf Ho] Hc]. split; [split; [done|]|by rewrite Hc, Hs]. intros c Hne. by rewrite Ho, Hs.
  - intros [He [Hwf Ho]]. split; [done|]. split; [done|]. intros c. by rewrite Ho, Hs.
Qed.
(** The last command of an import, whatever the chain before it. *)
Definition load (a : PgpCard) : PgpCard := with_chain [] (on_slot crt (new_key fields) a).
Lemma load_wf acc rest a0 : card_wf a0 -> Forall sw_ok rest ->
  let a := load (with_refuse rest (with_chain acc a0)) in within crt a0 a /\ pc_slots a crt = new_key fields (pc_slots a0 crt).
Proof.
  intros Hwf Hrest a. destruct (on_slot_wf crt (new_key fields) (with_refuse rest a0) (refuse_wf rest a0 Hrest Hwf)) as [[H1 H2] H3].
  - destruct Hwf as (Hs & _). exact (Hs crt).
  - assert (a = on_slot crt (new_key fields) (with_refuse rest a0)) as -> by (subst a; destruct Hwf as (_ & Hc & _); destruct a0; cbn in *; by subst). done.
Qed.
Lemma refused_same acc rest a0 : card_wf a0 -> Forall sw_ok rest -> same_slots a0 (with_chain [] (with_refuse rest (with_chain acc a0))).
Proof. intros Hwf Hrest. split; [|done]. apply refused_wf; [done|]. destruct Hwf as (Hs & _ & Hr & H1 & H3). exact (conj Hs (conj eq_refl (conj Hr (conj H1 H3)))). Qed.
(** What the card does with the last command. *)
Lemma last_wp (s : session) apdu acc a0 data : card_wf a0 -> the_card s = with_chain acc a0 -> (4 <= length apdu)%nat -> apdu !! 1%nat <> Some 0xC0 ->
  (ends_in_le apdu = true -> le_blind (card_run kind) apdu) -> card_key (acc ++ data) = Some (crt_tag crt, fields) ->
  card_run kind (the_card s) apdu = command kind (the_card s) 0xDB 0x3F 0xFF data ->
  wp (transmit_full apdu) s (fun r s' => exists sw, r = Ok ([], sw) /\
    if sw =? 0x9000 then within crt a0 (the_card s') /\ pc_slots (the_card s') crt = new_key fields (pc_slots a0 crt) else same_slots a0 (the_card s')).
Proof using Hst Hcont.
  intros Hwf Hs Hl Hi Hle Hkey Hrun. eapply wp_mono.
  - apply (raw_write_wp s apdu load); try done; [rewrite Hs; apply Hwf|]. rewrite Hrun, Hs.
    unfold command. cbn [Z.eqb Pos.eqb andb]. unfold put_key, with_chain at 1. cbn [pc_chain]. rewrite Hkey. cbn [mbind option_bind].
    destruct (crt_of_self crt) as (_ & _ & _ & ->). done.
  - intros r s' (sw & rest & -> & Hsw & Hrest & Hc). exists sw. split; [done|]. rewrite Hc, Hs. destruct (sw =? 0x9000); [by apply load_wf|by apply refused_same].
Qed.
Lemma chain_wp cs (s : session) acc a0 : cs <> [] -> Forall (fun c => 1 <= zlen c <= 255) cs -> card_wf a0 -> the_card s = with_chain acc a0 ->
  card_key (acc ++ concat cs) = Some (crt_tag crt, fields) ->
  wp (transmit_chain label (links INS_PUT_DATA_ODD 0x3F 0xFF [] cs)) s (key_put a0).
Proof using Hst Hcont.
  intros Hne Hf. revert s acc a0 Hne. induction Hf as [|c cs Hc Hf IH]; intros s acc a0 Hne Hwf Hs Hkey; [done|]. destruct cs as [|c2 cs].
  - change (links INS_PUT_DATA_ODD 0x3F 0xFF [] [c]) with [[0x00; 0xDB; 0x3F; 0xFF; cast 8 (zlen c)] ++ c ++ []].
    rewrite app_nil_r, cast_small by (unfold is_word; lia). cbn [concat] in Hkey. rewrite app_nil_r in Hkey. cbn [transmit_chain]. apply wp_bind.
    change ([0x00; 0xDB; 0x3F; 0xFF; zlen c] ++ c) with (apdu_bytes (Case3 0x00 0xDB 0x3F 0xFF c)). eapply wp_mono.
    + apply (last_wp s _ acc a0 c); try done; [cbn; lia|by intros _; apply card_le_blind|by rewrite card_run_short].
    + intros r s' (sw & -> & Hcard). cbn [bool_decide decide]. rewrite bool_decide_eq_true_2 by done. apply wp_bind_lift. rewrite ok_or_apdu_cases.
      by destruct (sw =? 0x9000).
  - set (cs' := c2 :: cs) in *. change (links INS_PUT_DATA_ODD 0x3F 0xFF [] (c :: cs')) with (([0x10; 0xDB; 0x3F; 0xFF; cast 8 (zlen c)] ++ c) :: links INS_PUT_DATA_ODD 0x3F 0xFF [] cs').
    rewrite cast_small by (unfold is_word; lia). cbn [transmit_chain]. apply wp_bind.
    change ([0x10; 0xDB; 0x3F; 0xFF; zlen c] ++ c) with (apdu_bytes (Case3 0x10 0xDB 0x3F 0xFF c)). eapply wp_mono.
    + apply (raw_write_wp s _ (fun a => with_chain (pc_chain a ++ c) a)); try done; [cbn; lia|by intros _; apply card_le_blind|rewrite Hs; apply Hwf|by rewrite card_run_short].
    + intros r s' (sw & rest & -> & Hsw & Hrest & Hcard). rewrite bool_decide_eq_false_2 by (subst cs'; by destruct cs).
      destruct (sw =? 0x9000) eqn:E; unfold SW_OK; rewrite E.
      * eapply wp_mono; [apply (IH s' (acc ++ c) (with_refuse rest a0)); [done|by apply refuse_wf|rewrite Hcard, Hs; by destruct a0|by rewrite <- app_assoc]|].
        intros r s2 Hp. exact Hp.
      * apply wp_lift. split; [done|]. rewrite Hcard, Hs. by apply refused_same.
Qed.
Lemma put_key_import_wp (s : session) body apdu chained : card_wf (the_card s) -> 1 <= zlen body <= 0xFFFF -> card_key body = Some (crt_tag crt, fields) ->
  build_apdu_extended 0x00 INS_PUT_DATA_ODD 0x3F 0xFF body = Some apdu -> put_data_odd_chained 0x3F 0xFF body 254 = Some chained ->
  wp (put_key_import apdu (Ok chained)) s (key_put (the_card s)).
Proof using Hst Hcont.
  intros Hwf Hb Hkey Hext Hch. assert (body <> []) as Hne by (intros ->; by destruct Hb).
  unfold put_data_odd_chained in Hch. cbn [negb chunk_size_ok andb Z.leb Z.compare Pos.compare] in Hch. rewrite bool_decide_eq_false_2 in Hch by done. injection Hch as <-.
  assert (forall s0 : session, same_slots (the_card s) (the_card s0) -> wp (transmit_chain label (links INS_PUT_DATA_ODD 0x3F 0xFF [] (chunks (Z.to_nat 254) body))) s0 (key_put (the_card s))) as Hchain.
  { intros s0 Hs0. assert (0 < Z.to_nat 254)%nat as Hn by lia. pose proof (concat_chunks _ body Hn) as Hc.
    eapply wp_mono; [apply (chain_wp (chunks (Z.to_nat 254) body) s0 [] (the_card s0))|intros r s' Hp; by eapply key_put_same].
    - intros E. by rewrite E in Hc.
    - eapply list.Forall_impl; [exact (chunks_bounded _ body Hn)|]. intros c [Hc1 Hc2]. unfold zlen. destruct c; [done|]. cbn [length] in *. lia.
    - apply Hs0.
    - rewrite chain_empty; [done|apply Hs0].
    - cbn [app]. by rewrite Hc. }
  unfold put_key_import. apply wp_bind. enough (wp (one_or_chain (s2b "openpgp import") label apdu (Ok (links INS_PUT_DATA_ODD 0x3F 0xFF [] (chunks (Z.to_nat 254) body)))) s (key_put (the_card s))) as H
    by (eapply wp_mono; [exact H|]; intros [x|e] s' Hp; [by apply wp_ret|done]).
  unfold one_or_chain, wp. destruct (p_chaining s).
  - change (wp (_ ← note (s2b "openpgp import") (s2b "forcing command chaining (env override)"); chunks0 ← lift (Ok (links INS_PUT_DATA_ODD 0x3F 0xFF [] (chunks (Z.to_nat 254) body))); transmit_chain label chunks0) s (key_put (the_card s))).
    apply wp_bind. eapply wp_mono; [apply note_wp|]. intros r s' [-> Hs']. apply wp_bind_lift. apply Hchain. rewrite Hs'. by apply same_refl.
  - match goal with |- key_put _ (?m s).1 _ => change (wp m s (key_put (the_card s))) end. apply wp_bind.
    destruct (card_run_extended kind (the_card s) INS_PUT_DATA_ODD 0x3F 0xFF body apdu [] Hb Hext ltac:(by left)) as (Hrun & Hends & Hlen & Hins). rewrite app_nil_r in *.
    destruct (ck_extended kind).
    + eapply wp_mono; [apply (last_wp s apdu [] (the_card s) body); try done; [by rewrite chain_empty|lia|by rewrite Hins|by rewrite Hends]|].
      intros r s' (sw & -> & Hcard). unfold SW_OK. destruct (sw =? 0x9000); [by apply wp_ret|]. destruct (negb _ && _); [by apply wp_lift|].
      destruct Hcard as [Hwf' Hsame]. apply wp_bind. eapply wp_mono; [apply note_wp|]. intros r s2 [-> Hs2]. apply wp_bind_lift.
      apply Hchain. rewrite Hs2. by split.
    + destruct (transmit_step kind st Hst Hcont s apdu _ _ ltac:(lia) ltac:(by rewrite Hins) ltac:(by rewrite Hends) Hrun) as (s' & Ht & Hm & _); [done..|].
      eapply wp_eq; [exact Ht|]. cbn -[links note]. apply wp_bind. eapply wp_mono; [apply note_wp|]. intros r s2 [-> Hs2]. apply wp_bind_lift. apply Hchain. rewrite Hs2, Hm. by apply same_refl.
Qed.
End sending.

(** ** One key *)

Section one.
Context (crt : KeyCrt) (a0 : PgpCard) (Ha0 : card_wf a0).
Local Notation state := (session * bool)%type.

(** Only the slot changed, and only if a write for it was sent. *)
Definition tracks (x : state) : Prop := within crt a0 (the_card x.1) /\ (x.2 = false -> pc_slots (the_card x.1) crt = pc_slots a0 crt).
Definition or_fails {A} (P : A -> state -> Prop) (r : result (PgpError (PcscError (T0 PgpCard))) A) (x : state) : Prop :=
  match r with Ok v => P v x | Err e => plain_error e /\ tracks x end.

Lemma wp_on_card {A} (m : io session (PgpError (PcscError (T0 PgpCard))) A) s ch (Q : result _ A -> state -> Prop) :
  wp m s (fun r s' => Q r (s', ch)) -> wp (on_card m) (s, ch) Q.
Proof. unfold wp, on_card. cbn [fst snd]. by destruct (m s). Qed.
Lemma tracks_same s ch s' : tracks (s, ch) -> the_card s' = the_card s -> tracks (s', ch).
Proof. intros [H1 H2] He. unfold tracks. cbn [fst snd] in *. by rewrite He. Qed.
Lemma tracks_wf x : tracks x -> card_wf (the_card x.1).
Proof. intros [[H _] _]. done. Qed.

(** A call that reads, on the card. *)
Lemma reading_wp {A B} (m : io session (PgpError (PcscError (T0 PgpCard))) A) (f : A -> io state (PgpError (PcscError (T0 PgpCard))) B) s ch (P : A -> Prop) Q :
  tracks (s, ch) -> wp m s (fun r s' => the_card s' = the_card s /\ match r with Ok v => P v | Err e => plain_error e end) ->
  (forall v s', P v -> the_card s' = the_card s -> tracks (s', ch) -> wp (f v) (s', ch) (or_fails Q)) -> wp (on_card m ≫= f) (s, ch) (or_fails Q).
Proof.
  intros Ht Hm Hf. apply wp_bind, wp_on_card. eapply wp_mono; [exact Hm|]. intros [v|e] s' [Hs Hv]; [|split; [done|by eapply tracks_same]].
  apply Hf; [done|done|]. by eapply tracks_same.
Qed.
Lemma attributes_reads (s : session) : card_wf (the_card s) ->
  wp (algorithm_attributes crt) s (fun r s' => the_card s' = the_card s /\ match r with Ok v => v = sl_attrs (pc_slots (the_card s) crt) | Err e => plain_error e end).
Proof using Hst Hcont Hk. intros Hwf. eapply wp_mono; [by apply attributes_wp|]. intros r s' [-> Hs]. done. Qed.
(** The key has been put into the slot. *)
Lemma putting_wp (s : session) ch body apdu chained fields : tracks (s, ch) -> 1 <= zlen body <= 0xFFFF -> card_key body = Some (crt_tag crt, fields) ->
  build_apdu_extended 0x00 INS_PUT_DATA_ODD 0x3F 0xFF body = Some apdu -> put_data_odd_chained 0x3F 0xFF body 254 = Some chained ->
  wp (_ ← mark_changed; on_card (put_key_import apdu (Ok chained))) (s, ch) (or_fails (fun _ x => x.2 = true /\ within crt a0 (the_card x.1) /\
    pc_slots (the_card x.1) crt = new_key fields (pc_slots (the_card s) crt))).
Proof using Hst Hcont.
  intros Ht Hb Hkey Hext Hch. pose proof (tracks_wf _ Ht) as Hwf. destruct Ht as [Hin _]. cbn [fst snd] in *. apply wp_bind. eapply wp_eq; [done|]. apply wp_on_card.
  eapply wp_mono; [by apply (put_key_import_wp crt fields s body apdu chained)|]. intros [v|e] s' Hp.
  - destruct Hp as [Hw Hsl]. split; [done|]. split; [|done]. by eapply within_trans.
  - destruct Hp as [He Hsame]. split; [done|]. split; [|done]. by eapply within_same.
Qed.
Lemma header_small body_fields : small_fields body_fields ->
  let body := header_list crt (template_of body_fields) (data_of body_fields) in
  1 <= zlen body <= 0xFFFF /\ card_key body = Some (crt_tag crt, body_fields) /\
  (exists apdu, build_apdu_extended 0x00 INS_PUT_DATA_ODD 0x3F 0xFF body = Some apdu) /\ (exists chained, put_data_odd_chained 0x3F 0xFF body 254 = Some chained).
Proof.
  intros Hs body. pose proof (header_list_size crt body_fields Hs) as Hl. fold body in Hl. split; [done|]. split; [by apply card_key_back|].
  destruct (imported crt body_fields 254 Hs ltac:(lia)) as ((apdu & Ha & _) & (ls & Hls & _) & _). split; [by exists apdu|by exists ls].
Qed.

Lemma import_rsa_wp parts (s : session) ch : Forall (fun w => zlen w.2 <= 0x2000) (rsa_parts parts CrtWithModulus) -> tracks (s, ch) ->
  wp (import_rsa_tracked crt parts) (s, ch) (or_fails (fun _ x => x.2 = true /\ within crt a0 (the_card x.1) /\ exists fields,
    pc_slots (the_card x.1) crt = new_key fields (pc_slots (the_card s) crt) /\ rsa_loaded parts (sl_attrs (pc_slots (the_card s) crt)) fields)).
Proof using Hst Hcont Hk.
  intros Hparts Ht. pose proof (tracks_wf _ Ht) as Hwf. unfold import_rsa_tracked.
  apply (reading_wp _ _ s ch (fun r => parse_algorithm_attributes (sl_attrs (pc_slots (the_card s) crt)) = Ok (AttrRsa r))); [done| |].
  { unfold rsa_attributes. apply wp_bind. eapply wp_mono; [by apply attributes_reads|]. intros [v|e] s' [Hs Hv]; [|done]. subst v.
    destruct (parse_algorithm_attributes _) as [[r|k c p]|e]; (apply wp_ret || apply wp_lift); done. }
  intros r s' Hr Hs' Ht'. rewrite <- Hs'. rewrite <- Hs' in Hr. clear Hs' Hwf Ht s. rename s' into s.
  assert (is_word 16 (e_bits r)) as He.
  { destruct (tracks_wf _ Ht') as (Hsl & _). destruct (Hsl crt) as (_ & _ & Hby). by apply (rsa_ebits_word _ _ Hr). }
  pose proof (rsa_body crt parts (format r) (e_bits r) Hparts He) as Hbody. destruct (rsa_exponent_fits (r_e parts) (e_bits r)); cbn [negb]; [|by apply wp_lift].
  destruct Hbody as (e & Hb & Hsm & Hn & _). destruct (header_small _ Hsm) as (Hsz & Hkey & [apdu Ha] & [chained Hc]).
  apply wp_bind_lift. unfold import_rsa_key, import_rsa_key_chained. rewrite Hb. cbn [mbind result_bind map_err]. rewrite Ha, Hc. cbn [built ok_or]. apply wp_bind, wp_ret.
  eapply wp_mono; [by eapply putting_wp|]. intros [v|e'] x; [|done]. intros (H1 & H2 & H3). split; [done|]. split; [done|]. eexists. split; [exact H3|]. by exists r.
Qed.

(** The slot's attributes are made the algorithm's. *)
Definition has_alg (alg : KeyAlg) (s : session) : Prop :=
  exists a, parse_algorithm_attributes (sl_attrs (pc_slots (the_card s) crt)) = Ok a /\ attr_key_alg a = Some alg.
Lemma ready_wp alg (s : session) ch : tracks (s, ch) -> let set := needs_attribute_write (sl_attrs (pc_slots (the_card s) crt)) alg in
  wp (if set then _ ← on_card (note (s2b "openpgp import") (setting_line crt alg)); _ ← on_card (set_algorithm crt alg); mark_changed else mret tt) (s, ch)
    (or_fails (fun _ x => tracks x /\ has_alg alg x.1 /\ (set = false -> the_card x.1 = the_card s))).
Proof using Hst Hcont Hk.
  intros Ht set. pose proof (tracks_wf _ Ht) as Hwf. destruct set eqn:Eset; subst set.
  - apply wp_bind, wp_on_card. eapply wp_mono; [apply note_wp|]. intros r s1 [-> Hs1]. pose proof (tracks_same _ _ s1 Ht Hs1) as Ht1.
    apply wp_bind, wp_on_card. eapply wp_mono; [apply set_algorithm_wp; by apply (tracks_wf _ Ht1)|]. intros [v|e] s2 Hs2.
    + destruct Hs2 as (sent & Hsent & Hin & Hsl). eapply wp_eq; [done|]. split; [|split; [|done]].
      * split; [|done]. cbn [fst]. eapply within_trans; [apply Ht1|exact Hin].
      * destruct Hk as (_ & _ & _ & Hst' & _). destruct (Hst' alg crt sent Hsent) as (_ & _ & a & Ha & Halg). exists a. cbn [fst]. by rewrite Hsl.
    + destruct Hs2 as [He Hsame]. split; [done|]. destruct Ht1 as [Hw1 Hc1]. split; [by eapply within_same|].
      cbn [fst snd] in *. intros ->. destruct Hsame as [_ Hsame]. by rewrite Hsame, Hc1.
  - apply wp_ret. split; [done|]. split; [|done]. unfold needs_attribute_write in Eset. apply negb_false_iff, bool_decide_eq_true in Eset.
    unfold has_alg. cbn [fst]. destruct (parse_algorithm_attributes _) as [a|e]; [|done]. exists a. done.
Qed.

Definition got_key (key : ImportKey) (alg : KeyAlg) (x : state) : Prop :=
  x.2 = true /\ within crt a0 (the_card x.1) /\ exists fields, loaded_key kind key alg (pc_slots (the_card x.1) crt) fields.
Lemma import_ecc_wp alg parts len chained_err (s : session) ch c : zlen (default [] (public parts)) <= 0x2000 -> alg_curve alg = Some c -> len = field_len c ->
  ecc_scalar_fits (scalar parts) len = true -> tracks (s, ch) -> has_alg alg s ->
  let parts' := mkEccParts (scalar parts) (if asks_public (sl_attrs (pc_slots (the_card s) crt)) then public parts else None) in
  plain_error chained_err ->
  wp (apdu ← lift (map_err (fun _ => chained_err) (import_ecc_key crt parts' len)); apdu ← built apdu; _ ← mark_changed;
      on_card (put_key_import apdu (chunks ← map_err (fun _ => chained_err) (import_ecc_key_chained crt parts' len 254); ok_or (PTransport TPanic) chunks))) (s, ch)
    (or_fails (fun _ => got_key (IEcc parts) alg)).
Proof using Hst Hcont.
  intros Hpub Hc -> Hfits Ht (a & Ha & Halg) parts' Hpl. pose proof (key_alg_kind a alg Halg) as Hkind. rewrite Hc in Hkind. destruct a as [r|k c' p]; [done|]. injection Hkind as <-.
  assert (asks_public (sl_attrs (pc_slots (the_card s) crt)) = p) as Hasks by (unfold asks_public; rewrite Ha; by destruct p).
  assert (1 <= field_len c <= 0x2000) as Hfl by (by destruct c; vm_compute).
  pose proof (ecc_body crt parts' (field_len c) Hfl) as Hbody. change (scalar parts') with (scalar parts) in Hbody. rewrite Hfits in Hbody.
  destruct Hbody as (sc & Hb & Hsm & Hv & Hl); [subst parts'; cbn [public]; by destruct (asks_public _)|].
  destruct (header_small _ Hsm) as (Hsz & Hkey & [apdu Hap] & [chained Hch]).
  apply wp_bind_lift. unfold import_ecc_key, import_ecc_key_chained. rewrite Hb. cbn [mbind result_bind map_err]. rewrite Hap, Hch. cbn [built ok_or]. apply wp_bind, wp_ret.
  eapply wp_mono; [by eapply putting_wp|]. intros [v|e'] x; [|done]. intros (H1 & H2 & H3). split; [done|]. split; [done|]. eexists. rewrite H3.
  split; [done|]. split; [by eexists|]. exists k, c, p, sc. split; [done|]. split; [subst parts'; cbn [public]; by rewrite Hasks|done].
Qed.
Lemma import_any_wp alg key (s : session) ch : match key with
    | IRsa parts => Forall (fun w => zlen w.2 <= 0x2000) (rsa_parts parts CrtWithModulus) | IEcc parts => zlen (default [] (public parts)) <= 0x2000 end ->
  tracks (s, ch) -> wp (import_any_tracked crt alg key) (s, ch) (or_fails (fun _ => got_key key alg)).
Proof using Hst Hcont Hk.
  intros Hkey Ht. unfold import_any_tracked. apply wp_bind_lift. unfold check_import. pose proof (slot_attributes_cases alg crt) as Hs.
  destruct (slot_attributes alg crt) as [sent|e]; cbn [mbind result_bind]; [|by split]. destruct (key_fits alg key) eqn:Efit; [|done].
  apply (reading_wp _ _ s ch (fun v => v = sl_attrs (pc_slots (the_card s) crt))); [done|apply attributes_reads; by apply (tracks_wf _ Ht)|].
  intros v s1 -> Hs1 Ht1. rewrite <- Hs1. apply wp_bind. eapply wp_mono; [by apply ready_wp|]. intros [u|e] [s2 ch2] H2; [|done]. destruct H2 as (Ht2 & Halg & Hsame). cbn [fst] in *.
  destruct key as [parts|parts].
  - eapply wp_mono; [by apply import_rsa_wp|]. intros [w|e] x; [|done]. intros (H1 & H3 & fields & Hf & Hl). split; [done|]. split; [done|]. exists fields.
    destruct Halg as (a & Ha & Hal). rewrite Hf. split; [done|]. split; [by exists a|done].
  - unfold key_fits in Efit. destruct (alg_curve alg) as [c|] eqn:Ec; [|done].
    set (set := needs_attribute_write _ _) in *. apply wp_bind.
    enough (wp (if set then on_card (algorithm_attributes crt) else mret (sl_attrs (pc_slots (the_card s1) crt))) (s2, ch2)
      (fun r x => the_card x.1 = the_card s2 /\ x.2 = ch2 /\ r = Ok (sl_attrs (pc_slots (the_card s2) crt)))) as Hread.
    { eapply wp_mono; [exact Hread|]. intros r [s3 ch3] (H3 & H4 & ->). cbn [fst snd] in *. subst ch3. rewrite <- H3.
      apply (import_ecc_wp alg parts (field_len c) _ s3 ch2 c); try done; [by eapply tracks_same|]. unfold has_alg. by rewrite H3. }
    destruct set.
    + apply wp_on_card. eapply wp_mono; [apply attributes_wp; by apply (tracks_wf _ Ht2)|]. intros r s3 [-> H3]. done.
    + apply wp_ret. pose proof (Hsame eq_refl) as He. cbn [fst snd] in *. split; [done|]. split; [done|]. by rewrite He.
Qed.
(** Registering writes one object of the slot, or fails with the slot touched. *)
Lemma register_wp (s : session) (g : Slot -> Slot) tag v (Q : unit -> state -> Prop) (next : io state (PgpError (PcscError (T0 PgpCard))) unit) label :
  1 <= zlen v <= 255 -> within crt a0 (the_card s) -> slot_wf (g (pc_slots (the_card s) crt)) ->
  put_object kind (high tag * 256 + low tag) v (the_card s) = card_write (on_slot crt g) (the_card s) ->
  (forall s', within crt a0 (the_card s') -> pc_slots (the_card s') crt = g (pc_slots (the_card s) crt) -> wp next (s', true) (or_fails Q)) ->
  wp (apdu ← built (put_data tag v); '(_, sw) ← on_card (transmit_full apdu); _ ← lift (ok_or_apdu label sw); next) (s, true) (or_fails Q).
Proof using Hst Hcont.
  intros Hv Hin Hg Hput Hnext. destruct (put_wp s crt g tag v Hv (proj1 Hin) Hg Hput) as (apdu & -> & Hw). cbn [built]. apply wp_bind, wp_ret, wp_bind, wp_on_card.
  eapply wp_mono; [exact Hw|]. intros r s' (sw & -> & Hin' & Hsl). apply wp_bind_lift. rewrite ok_or_apdu_cases.
  pose proof (within_trans _ _ _ _ Hin Hin') as Hall. destruct (sw =? 0x9000); [by apply Hnext|]. split; [done|]. by split.
Qed.
Lemma import_one_wp k (s : session) ch : k_crt k = crt -> import_ok k -> tracks (s, ch) ->
  wp (import_one k) (s, ch) (or_fails (fun _ x => within crt a0 (the_card x.1) /\ loaded kind k (pc_slots (the_card x.1) crt))).
Proof using Hst Hcont Hk.
  intros Hcrt [Hok Hfpr] Ht. unfold import_one. rewrite Hcrt. apply wp_bind. eapply wp_mono; [by apply import_any_wp|].
  intros [u|e] [s1 ch1] H1; [|done]. destruct H1 as (Hch & Hin1 & fields & Hl). cbn [fst snd] in *. subst ch1. assert (tracks (s1, true)) as Ht1 by (by split).
  apply (reading_wp _ _ s1 true (fun got => got = ck_public kind (sl_attrs (pc_slots (the_card s1) crt)) fields)); [done| |].
  { eapply wp_mono; [apply read_public_key_wp; apply Hin1|]. intros [got|e] s' [Hs' Hgot]; [|done]. split; [done|]. destruct Hgot as (fields' & Hf & ->).
    destruct Hl as (Hl & _). rewrite Hl in Hf. by injection Hf as <-. }
  intros got s2 -> Hs2 Ht2. rewrite <- Hs2 in Hl |- *. destruct (same_public_key _ _) eqn:Esame; cbn [negb]; [|by apply wp_lift].
  assert (within crt a0 (the_card s2)) as Hin2 by apply Ht2. pose proof (proj1 Hin2) as (Hsl2 & _). destruct (Hsl2 crt) as (Hz & Hf & Hby).
  apply (register_wp s2 (new_time (to_be 4 (k_created k))) (time_tag crt)); [done|done|by split_and!|by destruct crt|].
  intros s3 Hin3 H3. pose proof (register_wp s3 (new_fpr (expect_fpr k)) (fpr_tag crt) (expect_fpr k)
    (fun _ x => within crt a0 (the_card x.1) /\ loaded kind k (pc_slots (the_card x.1) crt)) (mret tt) (s2b "openpgp put fingerprint")) as Hreg.
  assert (forall x, wp (apdu ← built (put_data (fpr_tag crt) (expect_fpr k)); '(_, sw) ← on_card (transmit_full apdu); _ ← lift (ok_or_apdu (s2b "openpgp put fingerprint") sw); mret tt) (s3, true) x ->
    wp (apdu ← built (put_fingerprint crt (expect_fpr k)); '(_, sw) ← on_card (transmit_full apdu); lift (ok_or_apdu (s2b "openpgp put fingerprint") sw)) (s3, true) x) as Hend.
  { intros x. unfold wp, put_fingerprint. destruct (put_data _ _) as [apdu|]; [|done]. cbn [built]. unfold mbind, io_bind. cbn [mret io_ret].
    destruct (on_card _ _) as [[[d sw]|e] y]; [|done]. unfold lift. by destruct (ok_or_apdu _ sw) as [[]|]. }
  apply Hend, Hreg; [unfold zlen; lia|done|rewrite H3; by split_and!|by destruct crt|].
  intros s4 Hin4 H4. apply wp_ret. cbn [or_fails fst]. split; [done|]. exists fields. rewrite H4, H3. destruct Hl as (Hl1 & Hl2 & Hl3). by split_and!.
Qed.
End one.

(** ** The set *)

Definition reported (sl0 : KeyCrt -> Slot) (keys : list KeyImport) (r : result (PgpError (PcscError (T0 PgpCard))) (list (list Z))) (a : PgpCard) : Prop :=
  match r with
  | Ok fprs => fprs = expect_fpr <$> keys /\ loaded_all kind sl0 keys (pc_slots a)
  | Err (KeySetPartial done failed changed cause) =>
      exists before k after sl1, keys = before ++ k :: after /\ done = (fun k => crt_label (k_crt k)) <$> before /\ failed = crt_label (k_crt k) /\
        plain_error cause /\ (before <> [] \/ changed = true) /\ loaded_all kind sl0 before sl1 /\
        (forall c, c <> k_crt k -> pc_slots a c = sl1 c) /\ (changed = false -> pc_slots a (k_crt k) = sl1 (k_crt k))
  | Err _ => forall c, pc_slots a c = sl0 c
  end.
Lemma loaded_all_nil sl0 sl1 : loaded_all kind sl0 [] sl1 -> forall c, sl1 c = sl0 c.
Proof. inversion 1 as [? He|keys]; [done|]. by destruct keys. Qed.
Lemma import_keys_wp sl0 keys before (s : session) : Forall import_ok keys -> card_wf (the_card s) -> loaded_all kind sl0 before (pc_slots (the_card s)) ->
  wp (import_keys ((fun k => crt_label (k_crt k)) <$> before) (expect_fpr <$> before) keys) s (fun r s' => reported sl0 (before ++ keys) r (the_card s')).
Proof using Hst Hcont Hk.
  intros Hok. revert before s. induction Hok as [|k keys Hk' Hok IH]; intros before s Hwf Hl.
  - cbn [import_keys]. apply wp_ret. rewrite app_nil_r. by split.
  - cbn [import_keys]. unfold wp at 1. pose proof (import_one_wp (k_crt k) (the_card s) k s false eq_refl Hk') as Hone. unfold wp in Hone.
    destruct (import_one k (s, false)) as [[u|cause] [s1 changed]]; cbn [fst snd or_fails] in Hone.
    + destruct Hone as [[Hwf1 Hother] Hloaded]; [by split|].
      specialize (IH (before ++ [k]) s1 Hwf1 (loaded_one _ _ _ _ _ _ Hl Hloaded Hother)). rewrite !fmap_app, <- app_assoc in IH. exact IH.
    + destruct Hone as [Hplain [[Hwf1 Hother] Hsame]]; [by split|]. cbn [fst snd] in *. unfold slot_failure. case_bool_decide as Hd; [|].
      * apply fmap_nil_inv in Hd as ->. destruct changed; cbn [negb andb].
        -- exists [], k, keys, (pc_slots (the_card s)). split_and!; try done. by right.
        -- cbn [fst snd app]. assert (forall c, pc_slots (the_card s1) c = sl0 c) as Hall
             by (intros c; rewrite <- (loaded_all_nil _ _ Hl c); destruct (decide (c = k_crt k)) as [->|Hne]; [by apply Hsame|by apply Hother]).
           by destruct cause.
      * cbn [andb]. exists before, k, keys, (pc_slots (the_card s)). split_and!; try done. left. by intros ->.
Qed.
Lemma check_all_wp keys (s : session) : wp (check_all keys) s (fun r s' => s' = s /\ match r with Ok _ => True | Err e => plain_error e end).
Proof.
  induction keys as [|k keys IH]; [done|]. cbn [check_all]. apply wp_bind_lift. unfold check_import. pose proof (slot_attributes_cases (k_alg k) (k_crt k)) as Hs.
  destruct (slot_attributes _ _) as [sent|e]; cbn [mbind result_bind]; [|done]. destruct (key_fits _ _); [exact IH|done].
Qed.
Lemma supported_wp (s : session) : card_wf (the_card s) -> wp supported_algorithms s (fun r s' => the_card s' = the_card s /\ match r with Ok _ => True | Err e => plain_error e end).
Proof using Hst Hcont Hk.
  intros Hwf. unfold supported_algorithms. change get_algorithm_information with (apdu_bytes (Case2 0x00 0xCA 0x00 0xFA 0x00)). apply wp_bind.
  assert (card_run kind (the_card s) (apdu_bytes (Case2 0x00 0xCA 0x00 0xFA 0x00)) =
    (match ck_info kind with Some v => answer_ok v | None => sw_answer 0x6A88 end, the_card s)) as Hrun by (by rewrite card_run_short).
  destruct Hk as (_ & Hinfo & _).
  destruct (read_step s (Case2 0x00 0xCA 0x00 0xFA 0x00) _ I ltac:(done) Hrun) as (s' & Ht & Hc); [by destruct (ck_info kind)..| |].
  { destruct (ck_info kind) as [v|]; [|done]. specialize (Hinfo v eq_refl). cbn [a_data answer_ok]. lia. }
  eapply wp_eq; [exact Ht|]. cbv beta iota zeta. match goal with |- context [negb ?b] => destruct (negb b) end.
  - apply wp_bind. eapply wp_mono; [apply note_wp|]. intros r s2 [-> Hs2]. apply wp_ret. by rewrite Hs2.
  - apply wp_bind. match goal with |- context [result_ok ?x] => destruct (result_ok x) end; [by apply wp_ret|]. eapply wp_mono; [apply note_wp|]. intros r s2 [-> Hs2]. apply wp_ret. by rewrite Hs2.
Qed.
Lemma preflight_plain k current fa : match preflight (PE := PcscError (T0 PgpCard)) k current fa with Ok _ => True | Err e => plain_error e end.
Proof.
  unfold preflight. destruct (match fa with Some _ => _ | None => _ end); [done|]. destruct (k_key k) as [parts|parts]; [|done].
  pose proof (slot_attributes_cases (k_alg k) (k_crt k)) as Hs. destruct (needs_attribute_write current (k_alg k)).
  - destruct (slot_attributes _ _) as [sent|e]; cbn [mbind result_bind]; [|done]. destruct (parse_algorithm_attributes sent) as [[r|]|]; [by destruct (rsa_exponent_fits _ _)|done|done].
  - cbn [mbind result_bind]. destruct (parse_algorithm_attributes current) as [[r|]|]; [by destruct (rsa_exponent_fits _ _)|done|done].
Qed.
Lemma preflight_all_wp fa keys (s : session) : card_wf (the_card s) ->
  wp (preflight_all fa keys) s (fun r s' => the_card s' = the_card s /\ match r with Ok _ => True | Err e => plain_error e end).
Proof using Hst Hcont Hk.
  revert s. induction keys as [|k keys IH]; intros s Hwf; [done|]. cbn [preflight_all]. apply wp_bind. eapply wp_mono; [by apply attributes_wp|]. intros r s1 [-> Hs1].
  apply wp_bind_lift. pose proof (preflight_plain k (sl_attrs (pc_slots (the_card s) (k_crt k))) fa) as Hp. destruct (preflight _ _ _); [|done].
  rewrite <- Hs1. apply IH. by rewrite Hs1.
Qed.
Lemma plain_reported sl0 keys e a : plain_error e -> (forall c, pc_slots a c = sl0 c) -> reported sl0 keys (Err e) a.
Proof. by destruct e. Qed.
Lemma import_key_set_wp keys (s : session) : Forall import_ok keys -> card_wf (the_card s) ->
  wp (import_key_set keys) s (fun r s' => reported (pc_slots (the_card s)) keys r (the_card s')).
Proof using Hst Hcont Hk.
  intros Hok Hwf. unfold import_key_set. apply wp_bind. eapply wp_mono; [apply check_all_wp|]. intros [u|e] s1 [-> H1]; [|by apply plain_reported].
  apply wp_bind. eapply wp_mono; [by apply supported_wp|]. intros [fa|e] s2 [H2 H2']; [|by apply plain_reported; [|rewrite H2]].
  apply wp_bind. eapply wp_mono; [apply preflight_all_wp; by rewrite H2|]. intros [v|e] s3 [H3 H3']; [|by apply plain_reported; [|rewrite H3, H2]].
  apply (import_keys_wp (pc_slots (the_card s)) keys [] s3 Hok); [by rewrite H3, H2|]. constructor. by rewrite H3, H2.
Qed.
End on_card.

(** * Properties *)

(** C20: what importing a set of keys reports is what the card holds. On any card of
    the specification, whatever public keys it computes, however it echoes
    attributes, with or without extended length, forced to chaining or not, and
    refusing any of its writes with any status: when the call succeeds, every
    slot named holds its key, in the algorithm asked for, under the fingerprint
    and the creation time of the file, and no other slot has changed; when it
    reports a partial set, the slots it names hold their keys, the one it says
    failed is the next, changed only if it says so, and no other slot has
    changed; on any other error no slot of the card has changed. *)
Theorem pgp_key_set_reported (kind : CardKind) (st : T0Style) (keys : list KeyImport) (s : PgpSession (T0 PgpCard)) :
  style_ok st -> continue st = get_response -> kind_ok kind -> card_wf (the_card s) -> Forall import_ok keys ->
  let run := import_key_set (H := t0_card (card_run kind) st) keys s in
  reported kind st (pc_slots (the_card s)) keys run.1 (the_card run.2).
Proof. intros Hst Hcont Hk Hwf Hok. by apply import_key_set_wp. Qed.

(** A card that echoes what it stores and reports the last byte of the scalar it was
    sent as its public point; the second key of the set goes to a slot whose
    attributes it refuses to change. *)
Definition example_kind : CardKind :=
  mkKind (AID_PREFIX ++ [3; 4; 0; 6; 0; 0; 0; 1; 0; 0]) None false true (fun v => v)
    (fun _ fields => match fields with (_, v) :: _ => PubEcc [List.last v 0] | [] => PubEcc [] end) (fun _ => None).
Definition example_card (refuse : list Z) : PgpCard := mkCard (fun _ => blank_slot) (s2b "123456") (s2b "12345678") 3 3 [] refuse.
Definition example_session (refuse : list Z) : PgpSession (T0 PgpCard) := mkPgp (mkWorld (mkT0 (example_card refuse) [] (0x90, 0x00) 0) None []) false false [].
Definition example_keys : list KeyImport :=
  [mkKeyImport Sign AEd25519 (IEcc (mkEccParts (replicate 31 7 ++ [9]) None)) 1700000000 (replicate 20 0xAA) (PubEcc [9]);
   mkKeyImport Decrypt AX25519 (IEcc (mkEccParts (replicate 31 5 ++ [8]) None)) 1700000001 (replicate 20 0xBB) (PubEcc [8])].
Definition example_style : T0Style := mkStyle get_response 256 254 0 false.
Lemma pgp_key_set_reported_witness :
  let run refuse := import_key_set (H := t0_card (card_run example_kind) example_style) example_keys (example_session refuse) in
  (run []).1 = Ok [replicate 20 0xAA; replicate 20 0xBB] /\
  reported example_kind example_style (fun _ => blank_slot) example_keys (run []).1 (the_card (run []).2) /\
  (run [0x9000; 0x9000; 0x9000; 0x9000; 0x6A80]).1 = Err (KeySetPartial [s2b "signature"] (s2b "decryption") false (AlgorithmRefused (s2b "decryption") (s2b "X25519"))) /\
  reported example_kind example_style (fun _ => blank_slot) example_keys
    (run [0x9000; 0x9000; 0x9000; 0x9000; 0x6A80]).1 (the_card (run [0x9000; 0x9000; 0x9000; 0x9000; 0x6A80]).2).
Proof.
  assert (kind_ok example_kind) as Hk.
  { split; [by vm_compute|]. split; [done|]. split; [intros attrs fields; cbn [ck_public example_kind]; destruct fields as [|[]]; by vm_compute|]. split; [|done].
    intros alg crt sent Hs. destruct (attributes_back alg crt sent Hs) as [Hz Hp]. cbn [ck_stored example_kind]. split; [lia|]. split; [|done].
    destruct alg, crt; (discriminate Hs || (injection Hs as <-; clear; by_decision)). }
  assert (forall refuse, Forall sw_ok refuse -> reported example_kind example_style (fun _ => blank_slot) example_keys
    (import_key_set (H := t0_card (card_run example_kind) example_style) example_keys (example_session refuse)).1
    (the_card (import_key_set (H := t0_card (card_run example_kind) example_style) example_keys (example_session refuse)).2)) as Hall.
  { intros refuse Hr. apply (pgp_key_set_reported example_kind example_style example_keys (example_session refuse)); [by repeat split|done|done| |].
    - split; [intros crt; split_and!; [by vm_compute|done|repeat constructor; unfold is_byte; lia]|]. split; [done|]. split; [exact Hr|]. cbn. lia.
    - repeat constructor; by vm_compute. }
  intros run. split; [vm_compute; reflexivity|]. split; [by apply Hall|]. split; [vm_compute; reflexivity|]. apply Hall. by repeat constructor.
Defined.
