(* ===== verification/PivRules.v ===== *)
(** keyroost-transport/src/piv.rs: what a PIV session decides without the card: what it
    keeps of slots, how replies are read, what a reset may do, and what a trace line says
    of a command and hides of it. *)
From stdpp Require Export gmap.
From S2P Require PgpSession Token2Wire ImportStore.
From S2P Require Export PivSend X509 PivCompat.

(** * Errors, as text *)

Fixpoint piv_error_text {C} `{PcscCard C} (e : PivError (PcscError C)) : list Z :=
  match e with
  | VTransport e => ImportStore.transport_error_text e
  | VParse e => s2b "PIV response parse error: " ++ PivTlv.parse_error_text e
  | NoPivApplet => s2b "no PIV applet on this card"
  | PivManagementAuthFailed => s2b "PIV management-key authentication failed (wrong key)"
  | PivPinProtectedKeyNotSet => s2b "PIN-based management unlock has not been set up on this card (no PIN-protected management key found)"
  | PivManagementKeyDeleteUnsupported =>
      s2b "deleting the management key outright is only supported on HID Crescendo devices without a standard PIV management key"
  | PivPinRejected (Some n) => s2b "PIV PIN/PUK rejected (" ++ dec n ++ s2b " tries remaining)"
  | PivPinRejected None => s2b "PIV PIN/PUK rejected (may be blocked)"
  | PivSecurityNotSatisfied => s2b "PIV operation needs a management-key auth, PIN or touch that wasn't given"
  | PivBadKeyLength => s2b "PIV management key length does not match any algorithm this card accepts"
  | PivBadPinLength => s2b "PIV PIN/PUK must be 6-8 characters"
  | PivResetNotAllowed => s2b "PIV reset refused: the PIN and PUK must both be blocked first"
  | PivResetUnsupported =>
      s2b "this card does not implement the RESET instruction a factory reset depends on (it is a vendor extension, not part of " ++
      s2b "the PIV standard). Getting there means deliberately blocking the PIN and the PUK, and on this card nothing could unblock them " ++
      s2b "afterwards, so keyroost will not do it. A card like this has to be reset by whoever issued it."
  | PivResetNeedsManagementAuth =>
      s2b "this card's RESET needs an authenticated management-key session, not the PIN/PUK-blocked precondition a factory reset otherwise " ++
      s2b "automates " ++ EM_DASH ++ s2b " and no such credential was supplied. Deliberately blocking the PIN and PUK anyway would only leave the " ++
      s2b "card locked with no working RESET behind it, so keyroost refuses without a credential in hand."
  | PivResetManagementKeyMustBe3Des alg =>
      s2b "this card's RESET is known to fail while the management key is " ++ mgmt_label alg ++ s2b " " ++ EM_DASH ++
      s2b " change it back to 3DES first, then retry the reset"
  | PivResetUnverifiedFailed inner =>
      s2b "keyroost's list has no RESET entry for this card, so the factory reset sent it without first blocking the PIN and PUK " ++
      EM_DASH ++ s2b " and the card refused: " ++ piv_error_text inner ++ s2b "." ++
      match inner with
      | PivResetNotAllowed => s2b " Block both manually, then retry the factory reset."
      | _ => s2b " Consult this device's own PIV documentation for RESET's precondition (commonly: the PIN and PUK both blocked, or " ++
             s2b "an authenticated session) and perform it manually, then retry the factory reset."
      end
  | PivResetForcedFailed inner =>
      s2b "the card refused the PIV RESET sent with --force: " ++ piv_error_text inner ++ s2b ". The PIN and PUK were left as they were." ++
      match inner with
      | PivResetNotAllowed => s2b " If this card resets only once both are blocked, block them deliberately, then run the reset again."
      | _ => []
      end
  | PivResetGlobalFailed inner =>
      s2b "this device's device-wide reset mechanism failed: " ++ piv_error_text inner ++ s2b ". No PIN or PUK was touched " ++ EM_DASH ++
      s2b " PIV, and whatever else that mechanism covers, is untouched too."
  | PivResetManagementAuthFailed inner =>
      s2b "the management-key session for this device's PIV RESET failed: " ++ piv_error_text inner ++ s2b ". No PIN or PUK was touched."
  | PivResetIncomplete state => state
  | PivPukGuessAccepted =>
      s2b "the factory reset's throwaway PUK guess turned out to be this card's real PUK, so the card unblocked the PIN and set it to " ++
      s2b "123456 instead of counting a failed attempt. Change that PIN (`keyroostctl piv pin change`) before running the factory reset again."
  | PivDestinationOccupied slot =>
      s2b "slot " ++ slot_label slot ++ s2b " already holds a key " ++ EM_DASH ++ s2b " delete it first or pick an empty slot"
  | PivCertUnreadable slot reason =>
      slot_label slot ++ s2b " holds a certificate that cannot be read: " ++ unreadable_text reason ++
      s2b " (importing a new certificate replaces it; deleting the certificate clears it)"
  | PivCertTooLarge slot len None =>
      s2b "the certificate (" ++ dec len ++ s2b " bytes) is too large for " ++ slot_label slot ++
      s2b ": the card refused its length; storing it compressed may make it fit"
  | PivCertTooLarge slot len (Some compressed) =>
      s2b "the certificate (" ++ dec len ++ s2b " bytes, " ++ dec compressed ++ s2b " bytes compressed) is too large for " ++ slot_label slot ++
      s2b ": the card refused its length even compressed"
  | PivCertReadbackMismatch slot =>
      slot_label slot ++ s2b ": the card did not return the certificate that was written (checked by reading it back after storing it compressed)"
  | PivCardFull slot => s2b "the card has no room left to store a certificate in " ++ slot_label slot
  | PivDeleteKeyAlgorithmUnknown slot =>
      s2b "cannot delete slot " ++ slot_label slot ++ s2b "'s key: this device's GET PIV PROPERTIES read never named an algorithm for it " ++
      s2b "(nothing loaded, or the read failed), and that's needed to build the delete command"
  | PivDeleteKeyHidCrescendoGenericFailed inner =>
      s2b "delete key failed: tried both HID Crescendo delete sequences (C4000, then C2300) and neither worked (" ++ piv_error_text inner ++ s2b ")"
  | PivImportCertificateKeyMismatch slot =>
      s2b "certificate not imported: its public key does not match the key already in slot " ++ slot_label slot ++ s2b " " ++ EM_DASH ++
      s2b " either import the matching certificate, or start over by generating a fresh CSR or self-signed certificate for the slot's current key."
  | PivImportCertificateAlgorithmMismatch slot slot_algorithm certificate_algorithm =>
      s2b "certificate not imported: slot " ++ slot_label slot ++ s2b " currently holds a " ++ alg_label slot_algorithm ++
      s2b " key, but the certificate's key is " ++ alg_label certificate_algorithm ++ s2b " " ++ EM_DASH ++
      s2b " either import the matching certificate, or start over by generating a fresh CSR or self-signed certificate for the slot's current key."
  | VX509 e => x509_error_text e
  | PivWriteUnconfirmed retry =>
      s2b "the write may or may not have gone through: the first attempt failed at the reader, and the retry failed (" ++
      piv_error_text retry ++ s2b ")"
  end.

(** * Status *)

Inductive SlotKeyPresence := KeyPresent | NoKey | KeyUnknown.
Record PivSlotStatus := mkSlotStatus {
  ss_slot : Slot; ss_cert_present : bool; ss_cert_len : Z; ss_cert_unreadable : option CertUnreadable; ss_cert_compressed : bool;
  ss_key : SlotKeyPresence
}.
Record StoredCert := mkStoredCert { sc_der : list Z; sc_compressed : bool }.
Definition CertObject : Type := result CertUnreadable (option StoredCert).

Definition slot_occupancy (slot : Slot) (cert : result CertUnreadable (option (list Z))) : PivSlotStatus :=
  match cert with
  | Err reason => mkSlotStatus slot true 0 (Some reason) false KeyUnknown
  | Ok der => let len := match der with Some d => zlen d | None => 0 end in mkSlotStatus slot (0 <? len) len None false KeyUnknown
  end.
Definition slot_status_of (slot : Slot) (cert : CertObject) (key : SlotKeyPresence) : PivSlotStatus :=
  let der := match cert with Ok c => Ok (sc_der <$> c) | Err e => Err e end in
  let status := slot_occupancy slot der in
  let compressed := (0 <? ss_cert_len status) && match cert with Ok (Some c) => sc_compressed c | _ => false end in
  mkSlotStatus (ss_slot status) (ss_cert_present status) (ss_cert_len status) (ss_cert_unreadable status) compressed key.
Definition cert_object_decode (inflate : list Z -> Z -> result TINFLStatus (list Z)) (body : list Z) : CertObject :=
  match (inner ← result_ok (unwrap_data_object body); cert_object_parts inner) with
  | None => Ok None
  | Some (der, gzip) =>
      der ← (if gzip then gunzip_capped inflate der else Ok der);
      Ok (Some (mkStoredCert der gzip))
  end.

(** * What is kept of slots *)

(** Values by key reference; in the first, the slots the card says are empty. *)
Record PubkeyCache := mkPubkeys { pk_map : gmap Z (option (KeyAlg * PublicKey)); pk_empty : gset Z }.
Definition pubkey_remember (key_ref : Z) (value : option (KeyAlg * PublicKey)) (c : PubkeyCache) : PubkeyCache :=
  mkPubkeys (<[key_ref := value]> (pk_map c)) (pk_empty c ∖ {[key_ref]}).
Definition pubkey_remember_no_key (key_ref : Z) (c : PubkeyCache) : PubkeyCache :=
  mkPubkeys (<[key_ref := None]> (pk_map c)) ({[key_ref]} ∪ pk_empty c).
Definition pubkey_presence (key_ref : Z) (c : PubkeyCache) : option SlotKeyPresence :=
  match pk_map c !! key_ref with
  | None => None
  | Some (Some _) => Some KeyPresent
  | Some None => Some (if bool_decide (key_ref ∈ pk_empty c) then NoKey else KeyUnknown)
  end.
Definition pubkey_evict (key_ref : Z) (c : PubkeyCache) : PubkeyCache :=
  mkPubkeys (delete key_ref (pk_map c)) (pk_empty c ∖ {[key_ref]}).
Definition pubkey_migrate (src dest : Z) (c : PubkeyCache) : PubkeyCache :=
  match pk_map c !! src with
  | None => c
  | Some cached =>
      let removed := pk_empty c ∖ {[dest]} in
      mkPubkeys (<[dest := cached]> (delete src (pk_map c)))
        (if bool_decide (src ∈ removed) then {[dest]} ∪ removed ∖ {[src]} else removed)
  end.
Definition pubkey_get (key_ref : Z) (c : PubkeyCache) : option (option (KeyAlg * PublicKey)) := pk_map c !! key_ref.

Definition PolicyCache : Type := gmap Z (option (PinPolicy * TouchPolicy)).
Definition policy_remember (key_ref : Z) (value : option (PinPolicy * TouchPolicy)) (c : PolicyCache) : PolicyCache := <[key_ref := value]> c.
Definition policy_evict (key_ref : Z) (c : PolicyCache) : PolicyCache := delete key_ref c.
Definition policy_migrate (src dest : Z) (c : PolicyCache) : PolicyCache :=
  match c !! src with None => c | Some cached => <[dest := cached]> (delete src c) end.

Definition CertCache : Type := gmap Z CertObject.
Definition cert_remember (key_ref : Z) (cert : CertObject) (c : CertCache) : CertCache := <[key_ref := cert]> c.
Definition cert_forget (key_ref : Z) (c : CertCache) : CertCache := delete key_ref c.

(** * Readings *)

Record PinReading := mkPinReading { pr_retries : option Z; pr_verified : bool }.
Definition pin_reading_from_sw (sw : Z) : PinReading :=
  match sw_tries_remaining sw with
  | Some n => mkPinReading (Some n) false
  | None => if sw =? 0x6983 then mkPinReading (Some 0) false else mkPinReading None (sw =? SW_OK)
  end.
Definition has_quirk (q : PivQuirk) (quirks : list PivQuirk) : bool := bool_decide (q ∈ quirks).
Definition clear_metadata_if_quirky (quirks : list PivQuirk) (md : Metadata) : Metadata :=
  let '(mkMetadata alg dflt retries policy origin key) := md in
  let '(alg, key) := if has_quirk QInsF7MetadataAlgorithmInvalid quirks then (None, None) else (alg, key) in
  let policy := if has_quirk QInsF7MetadataPinTouchPolicyInvalid quirks then None else policy in
  mkMetadata alg dflt retries policy origin key.
Definition metadata_key_type_ignored (quirks : list PivQuirk) : bool := has_quirk QInsF7MetadataAlgorithmInvalid quirks.
Definition metadata_says_no_key (sw : option Z) (quirks : list PivQuirk) : bool :=
  negb (metadata_key_type_ignored quirks) && bool_decide (sw = Some SW_REFERENCE_NOT_FOUND).
Definition metadata_key_material (md : Metadata) (resolve_alg : Z -> option KeyAlg) : option (KeyAlg * list Z) :=
  alg ← (id ← md_algorithm md; resolve_alg id); raw ← md_public_key md; Some (alg, raw).
Definition public_key_from_metadata (raw : list Z) : result PivTlv.ParseError PublicKey :=
  if bool_decide (take 2 raw = [0x7F; 0x49]) then parse_public_key raw else
  match find_tlv raw 0x86 with
  | Some point => Ok (Ecc point)
  | None => match find_tlv raw 0x81, find_tlv raw 0x82 with
            | Some m, Some e => Ok (Rsa m e)
            | _, _ => Err NotPublicKey
            end
  end.
Definition decode_serial_if_bcd (f : AppletFingerprint) (applet_version firmware_version : option (list Z)) (serial : option Z) : option Z :=
  if has_quirk QInsF8SerialIsBcd (resolve_quirks f applet_version firmware_version) then PgpSession.decode_bcd_serial <$> serial else serial.
Definition certificate_key_mismatches (slot_alg : KeyAlg) (slot_key : PublicKey) (cert_alg : KeyAlg) (cert_key : PublicKey) : bool :=
  negb (bool_decide (slot_alg = cert_alg)) || negb (bool_decide (slot_key = cert_key)).
Definition algorithm_only_mismatch (get_slot_key_status_gate : FeatureGate) (slot_algorithm cert_algorithm : option KeyAlg) : option (KeyAlg * KeyAlg) :=
  if negb (bool_decide (get_slot_key_status_gate = Supported)) then None else
  match slot_algorithm, cert_algorithm with
  | Some s, Some c => if bool_decide (s = c) then None else Some (s, c)
  | _, _ => None
  end.
Definition internal_read_decision (gate : FeatureGate) (send_unsupported : bool) : bool * option (list Z) :=
  match gate, send_unsupported with
  | Unsupported, false => (false, Some (s2b "skipped: the compatibility table lists it unsupported for this applet"))
  | Unsupported, true => (true, Some (s2b "listed unsupported for this applet; sending anyway (Enable Anyway / --force)"))
  | _, _ => (true, None)
  end.

(** ** Caches between connections *)

Record PcscIdentity := mkPcscIdentity { pi_reader_name : list Z; pi_event_count : option Z; pi_atr : list Z }.
(** [State::UNKNOWN | UNAVAILABLE | MUTE]. *)
Definition UNUSABLE_STATES : Z := Z.lor (Z.lor 0x0004 0x0008) 0x0200.
Definition pcsc_reading_usable (state : option Z) : bool := match state with Some st => Z.land st UNUSABLE_STATES =? 0 | None => false end.
Definition pcsc_event_count_unchanged (cached fresh : option Z) : bool := match cached, fresh with Some c, Some f => c =? f | _, _ => false end.
Definition pcsc_matches (cached fresh : PcscIdentity) : bool :=
  bool_decide (pi_reader_name cached = pi_reader_name fresh) && pcsc_event_count_unchanged (pi_event_count cached) (pi_event_count fresh) &&
  bool_decide (pi_atr cached = pi_atr fresh).
Definition piv_session_cache_reusable (pcsc_trustworthy pcsc_identity_matches : bool) : bool := pcsc_trustworthy && pcsc_identity_matches.

(** * Management keys *)

Definition mgmt_algs_for_key_len (key_len : Z) : list MgmtAlg :=
  if key_len =? 16 then [Aes128] else if key_len =? 24 then [TripleDes; Aes192] else if key_len =? 32 then [Aes256] else [].
Definition pick_mgmt_alg (accepted : list MgmtAlg) (key_len : Z) : option MgmtAlg :=
  let by_len := if bool_decide (accepted = []) then mgmt_algs_for_key_len key_len
                else List.filter (fun a => mgmt_key_len a =? key_len) accepted in
  if bool_decide (TripleDes ∈ by_len) then Some TripleDes else head by_len.
Definition hint_still_picked {S E} (hint : MgmtAlg) (key_len : Z) (accepts : MgmtAlg -> io S E bool) : io S E bool :=
  if negb (mgmt_key_len hint =? key_len) then mret false else
  accepted ← accepts hint;
  if negb accepted then mret false else
  if negb (bool_decide (hint = Aes192)) then mret true else
  also ← accepts TripleDes; mret (negb also).
Definition ct_eq (a b : list Z) : bool :=
  (zlen a =? zlen b) && (foldl (fun acc '(x, y) => Z.lor acc (Z.lxor x y)) 0 (zip a b) =? 0).

Inductive CryptOp := Encrypt | Decrypt.
Section ciphers.
(** What an algorithm, under a key of its length, makes of one block. *)
Context (block : MgmtAlg -> CryptOp -> list Z -> list Z -> list Z).
Definition WHOLE_BLOCK : list Z := s2b "PIV witness/challenge length is not a whole cipher block".
Definition block_crypt {PE} (alg : MgmtAlg) (key data : list Z) (op : CryptOp) : result (PivError PE) (list Z) :=
  if bool_decide (data = []) || negb (zlen data mod block_size alg =? 0) then Err (VTransport (TMalformedResponse WHOLE_BLOCK)) else
  if negb (zlen key =? mgmt_key_len alg) then Err PivBadKeyLength
  else Ok (concat (map (block alg op key) (chunks (Z.to_nat (block_size alg)) data))).
End ciphers.

(** * Signing *)

Definition prepared_block (sha256 sha384 sha512 : list Z -> list Z) {PE} (alg : KeyAlg) (tbs : list Z) : result (PivError PE) (list Z) :=
  match signature_hash alg with
  | Err e => Err (VX509 e)
  | Ok HashSha256 =>
      let digest := sha256 tbs in
      match rsa_bits alg with
      | Some bits => ok_or (VTransport TPanic) (pkcs1_v15_sha256 digest (bits / 8))
      | None => Ok digest
      end
  | Ok HashSha384 => Ok (sha384 tbs)
  | Ok HashSha512 => Ok (sha512 tbs)
  | Ok HashNone => Ok tbs
  end.

(** * Resets *)

Definition block_attempts_cap (reported : option Z) : Z := Z.min (match reported with Some n => n | None => 10 end) 20 + 2.
Definition RESET_LABEL : list Z := s2b "piv reset".
Definition RESET_REFUSED : list Z :=
  s2b "the PIN and the PUK are now both blocked, but the card refused the RESET instruction, so the PIV applet was NOT wiped. " ++
  s2b "Its keys and certificates are still on the card and there is no keyroost command that can finish this " ++ EM_DASH ++
  s2b " `keyroostctl piv reset` sends the very instruction the card just refused. The PIV part of the card is unusable until " ++
  s2b "whoever issued or made it resets it with their own tooling. Any non-PIV applets on the same key (FIDO, OATH, OpenPGP) are unaffected.".
Definition map_reset_stage_error {PE} (e : PivError PE) : PivError PE :=
  match e with
  | PivResetNotAllowed => PivResetIncomplete RESET_REFUSED
  | VTransport (TApdu label sw1 sw2) =>
      if bool_decide (label = RESET_LABEL) && (((sw1 =? 0x6D) && (sw2 =? 0x00)) || ((sw1 =? 0x6A) && (sw2 =? 0x81)))
      then PivResetIncomplete RESET_REFUSED else e
  | _ => e
  end.

Inductive ResetRoute := Refuse | BareUnverified | BareForced | Escalating.
Definition reset_route (gate : FeatureGate) (send_if_listed_unsupported : bool) : ResetRoute :=
  match gate with
  | Supported => Escalating
  | Unverified => BareUnverified
  | Unsupported => if send_if_listed_unsupported then BareForced else Refuse
  end.
Inductive CurrentMgmtAuth := AuthKey (key : list Z) | AuthPin (pin : list Z).
Inductive FactoryResetPlan := PlanUnsupported | NeedsManagementAuth | PlanUnverified | BurnPinPukThenReset.
Inductive PivResetPreview := PreviewUnsupported | PreviewGlobal | PreviewPiv (plan : FactoryResetPlan).
Inductive FactoryResetOutcome := Wiped | WipedGlobal | WipedKeyRestoreFailed.

(** * The trace *)

(** ** What is hidden *)

Definition targets_pin_protected_object (apdu : list Z) : bool :=
  match apdu !! 1%nat with
  | Some ins =>
      if negb ((ins =? 0xCB) || (ins =? 0xDB)) then false else
      let body := match apdu !! 4%nat with
                  | Some b => if (b =? 0) && (7 <? zlen apdu) then Some (drop 7 apdu)
                              else if 5 <? zlen apdu then Some (drop 5 apdu) else None
                  | None => None
                  end in
      match body with
      | Some body => bool_decide (take 5 body = [0x5C; 3] ++ OBJECT_PIN_PROTECTED_DATA)
      | None => false
      end
  | None => false
  end.
Definition piv_cmd_sensitive (apdu : list Z) : bool :=
  match apdu !! 1%nat with
  | None => false
  | Some ins =>
      if ins =? 0xD8 then
        if bool_decide (head apdu = Some 0x80) then false else negb (bool_decide (apdu !! 4%nat = Some 0x04))
      else bool_decide (ins ∈ [0x20; 0x24; 0x2C; 0x87; 0xFF; 0xFE; 0x82])
  end.
Definition cmd_hidden (apdu : list Z) : bool :=
  piv_cmd_sensitive apdu || (targets_pin_protected_object apdu && bool_decide (apdu !! 1%nat = Some 0xDB)).
Definition resp_hidden (apdu : list Z) : bool :=
  bool_decide (apdu !! 1%nat = Some 0x87) || (targets_pin_protected_object apdu && bool_decide (apdu !! 1%nat = Some 0xCB)) ||
  Token2Wire.reads_serial apdu.

(** ** What is named *)

Definition known_aid_name (aid : list Z) : option (list Z) :=
  if bool_decide (aid = AID_FULL) then Some (s2b "NIST PIV Card Application")
  else if bool_decide (aid = AID) then Some (s2b "NIST PIV Card Application")
  else if bool_decide (aid = FEITIAN_RID) then Some (s2b "Feitian RID")
  else if bool_decide (aid = SWISSBIT_RID) then Some (s2b "Swissbit RID")
  else if bool_decide (aid = IDPRIME_SECONDARY_PIV_AID) then Some (s2b "IdPrime secondary PIV AID")
  else if bool_decide (aid = NITROKEY_ADMIN_AID) then Some (s2b "Nitrokey admin AID")
  else if bool_decide (aid = HID_CRESCENDO_ACA_AID) then Some (s2b "HID ActivID ACA")
  else if bool_decide (aid = GLOBAL_PLATFORM_ISD_AID) then Some (s2b "GlobalPlatform Issuer Security Domain")
  else if bool_decide (aid = SWISSBIT_CARD_MANAGER_AID) then Some (s2b "Swissbit iShield Card Manager")
  else if bool_decide (aid = SWISSBIT_MANAGEMENT_AID) then Some (s2b "Swissbit Management Application")
  else if bool_decide (aid = Token2Otp.OTP_APPLET_AID) then Some (s2b "Token2 OTP applet")
  else None.
Definition prefix_of {A} (n : Z) (l : list A) : option (list A) := if n <=? zlen l then Some (take (Z.to_nat n) l) else None.
Definition command_data (apdu : list Z) : option (list Z) :=
  if zlen apdu <? 4 then None else
  match drop 4 apdu with
  | [] => None
  | 0x00 :: hi :: lo :: (_ :: _) as rest => prefix_of (Z.lor (Z.shiftl hi 8) lo) rest
  | lc :: rest => Some (default rest (prefix_of lc rest))
  end.
Definition object_selector_tag (apdu : list Z) : option (list Z) :=
  match command_data apdu with
  | Some (b :: len :: rest) => if b =? 0x5C then prefix_of len rest else None
  | _ => None
  end.
Definition ARROW : list Z := [0xE2; 0x86; 0x92].
Definition describe_unknown (apdu : list Z) (ins : Z) : list Z :=
  if ins =? 0x84 then s2b "GET CHALLENGE (HID ACA XAUTH)"
  else if ins =? 0x82 then s2b "EXTERNAL AUTHENTICATE (HID ACA XAUTH)"
  else if ins =? 0xD8 then
    if bool_decide (head apdu = Some 0x80) then s2b "INJECT PKI KEY (HID Crescendo, delete)"
    else if bool_decide (apdu !! 4%nat = Some 0x04) then s2b "PUT XAUTH KEY (HID ACA, delete)" else s2b "PUT XAUTH KEY (HID ACA)"
  else if bool_decide (apdu = GLOBAL_PLATFORM_GET_CPLC) then s2b "GET DATA (GlobalPlatform CPLC)"
  else if ins =? 0x33 then s2b "GET_INFO (Token2 OTP applet)"
  else if bool_decide (apdu = SWISSBIT_GET_DEVICE_NAME) then s2b "GET DEVICE NAME (Swissbit Card Manager)"
  else if bool_decide (apdu = SWISSBIT_GET_FIRMWARE_VERSION) then s2b "GET FIRMWARE VERSION (Swissbit Card Manager)"
  else if bool_decide (apdu = SWISSBIT_GET_SERIAL) then s2b "GET SERIAL (Swissbit Management Application)"
  else if bool_decide (apdu = SWISSBIT_GET_DEVICE_INFO) then s2b "GET DEVICE INFO (Swissbit Management Application)"
  else s2b "INS 0x" ++ hex_upper ins.
Definition describe_object (verb : Instruction) (apdu : list Z) : list Z :=
  match object_selector_tag apdu with
  | Some tag =>
      ins_name verb ++ s2b " (" ++ hex_dump tag ++
      match data_object_name tag with Some name => s2b " " ++ ARROW ++ s2b " " ++ name | None => [] end ++ s2b ")"
  | None => ins_name verb
  end.
Definition describe_apdu (apdu : list Z) : list Z :=
  match apdu !! 1%nat with
  | None => s2b "(malformed APDU)"
  | Some ins =>
      match ins_from_code ins with
      | Some Select =>
          match (data ← command_data apdu; known_aid_name data) with Some name => s2b "SELECT (" ++ name ++ s2b ")" | None => s2b "SELECT" end
      | Some GetData => describe_object GetData apdu
      | Some PutData => describe_object PutData apdu
      | Some MoveKey => if bool_decide (apdu !! 2%nat = Some 0xFF) then s2b "DELETE KEY (yubico extension)" else ins_name MoveKey
      | Some Verify => if zlen apdu <=? 4 then s2b "VERIFY (retry-counter query)" else ins_name Verify
      | Some known => ins_name known
      | None => describe_unknown apdu ins
      end
  end.

(** ** Links *)

Definition chain_upfront_for (t0 forced : bool) : bool := forced || t0.
Definition chain_reason (forced : bool) : list Z :=
  if forced then s2b "env override" else s2b "T=0 link: extended-length APDUs are not possible on this protocol".
