(* ===== verification/PivSession.v ===== *)
(** keyroost-transport/src/piv.rs: the PIV session over a reader's card. A call takes the
    session and leaves it. The card's answer to reset, whether the link is T=0 and whether
    KEYROOST_PIV_FORCE_CHAINING is set are read once; the random source is the list of what
    the operating system will give. Block ciphers, hashes of the signed bytes and DEFLATE
    are parameters. The list of readers (a loop over the PC/SC service) and the slot
    self-test are left out. *)
From S2P Require Token2Session OathSession.
From S2P Require Export PivRules.

(** * The session *)

Record AppletFingerprintResult := mkIdentity {
  id_fingerprint : AppletFingerprint; id_name : list Z; id_version : option (list Z); id_version_firmware : option (list Z);
  id_serial : option Z
}.
Record SessionIdentity := mkSessionIdentity {
  si_fingerprint : AppletFingerprint; si_version : option (list Z); si_version_firmware : option (list Z)
}.
Record PivSessionState := mkState {
  st_pcsc_identity : PcscIdentity; st_select_response : list Z; st_identity : option AppletFingerprintResult;
  st_pubkeys : PubkeyCache; st_policies : PolicyCache; st_certs : CertCache; st_chuid : option (option Chuid);
  st_pin : option PinReading; st_mgmt_hint : option MgmtAlg; st_properties : option (list Z); st_send_unsupported : bool
}.
Definition default_state : PivSessionState :=
  mkState (mkPcscIdentity [] None []) [] None (mkPubkeys ∅ ∅) ∅ ∅ None None None None false.

Record PivSession (C : Type) := mkPiv {
  v_world : World C; v_traced : bool; v_t0 : bool; v_forced : bool; v_atr : list Z; v_random : list (option (list Z));
  applet_selected : bool; v_state : PivSessionState
}.
Arguments mkPiv {C} _ _ _ _ _ _ _ _.
Arguments v_world {C} _.
Arguments v_traced {C} _.
Arguments v_t0 {C} _.
Arguments v_forced {C} _.
Arguments v_atr {C} _.
Arguments v_random {C} _.
Arguments applet_selected {C} _.
Arguments v_state {C} _.

Definition with_world {C} (w : World C) (s : PivSession C) : PivSession C :=
  mkPiv w (v_traced s) (v_t0 s) (v_forced s) (v_atr s) (v_random s) (applet_selected s) (v_state s).
Definition with_random {C} (r : list (option (list Z))) (s : PivSession C) : PivSession C :=
  mkPiv (v_world s) (v_traced s) (v_t0 s) (v_forced s) (v_atr s) r (applet_selected s) (v_state s).
Definition with_selected {C} (b : bool) (s : PivSession C) : PivSession C :=
  mkPiv (v_world s) (v_traced s) (v_t0 s) (v_forced s) (v_atr s) (v_random s) b (v_state s).
Definition with_state {C} (st : PivSessionState) (s : PivSession C) : PivSession C :=
  mkPiv (v_world s) (v_traced s) (v_t0 s) (v_forced s) (v_atr s) (v_random s) (applet_selected s) st.
Definition put_pcsc_identity (v : PcscIdentity) (st : PivSessionState) : PivSessionState :=
  mkState v (st_select_response st) (st_identity st) (st_pubkeys st) (st_policies st) (st_certs st) (st_chuid st) (st_pin st) (st_mgmt_hint st)
    (st_properties st) (st_send_unsupported st).
Definition put_select_response (v : list Z) (st : PivSessionState) : PivSessionState :=
  mkState (st_pcsc_identity st) v (st_identity st) (st_pubkeys st) (st_policies st) (st_certs st) (st_chuid st) (st_pin st) (st_mgmt_hint st)
    (st_properties st) (st_send_unsupported st).
Definition put_identity (v : AppletFingerprintResult) (st : PivSessionState) : PivSessionState :=
  mkState (st_pcsc_identity st) (st_select_response st) (Some v) (st_pubkeys st) (st_policies st) (st_certs st) (st_chuid st) (st_pin st)
    (st_mgmt_hint st) (st_properties st) (st_send_unsupported st).
Definition on_pubkeys (f : PubkeyCache -> PubkeyCache) (st : PivSessionState) : PivSessionState :=
  mkState (st_pcsc_identity st) (st_select_response st) (st_identity st) (f (st_pubkeys st)) (st_policies st) (st_certs st) (st_chuid st)
    (st_pin st) (st_mgmt_hint st) (st_properties st) (st_send_unsupported st).
Definition on_policies (f : PolicyCache -> PolicyCache) (st : PivSessionState) : PivSessionState :=
  mkState (st_pcsc_identity st) (st_select_response st) (st_identity st) (st_pubkeys st) (f (st_policies st)) (st_certs st) (st_chuid st)
    (st_pin st) (st_mgmt_hint st) (st_properties st) (st_send_unsupported st).
Definition on_certs (f : CertCache -> CertCache) (st : PivSessionState) : PivSessionState :=
  mkState (st_pcsc_identity st) (st_select_response st) (st_identity st) (st_pubkeys st) (st_policies st) (f (st_certs st)) (st_chuid st)
    (st_pin st) (st_mgmt_hint st) (st_properties st) (st_send_unsupported st).
Definition put_chuid (v : option (option Chuid)) (st : PivSessionState) : PivSessionState :=
  mkState (st_pcsc_identity st) (st_select_response st) (st_identity st) (st_pubkeys st) (st_policies st) (st_certs st) v (st_pin st)
    (st_mgmt_hint st) (st_properties st) (st_send_unsupported st).
Definition put_pin (v : option PinReading) (st : PivSessionState) : PivSessionState :=
  mkState (st_pcsc_identity st) (st_select_response st) (st_identity st) (st_pubkeys st) (st_policies st) (st_certs st) (st_chuid st) v
    (st_mgmt_hint st) (st_properties st) (st_send_unsupported st).
Definition put_mgmt_hint (v : option MgmtAlg) (st : PivSessionState) : PivSessionState :=
  mkState (st_pcsc_identity st) (st_select_response st) (st_identity st) (st_pubkeys st) (st_policies st) (st_certs st) (st_chuid st) (st_pin st)
    v (st_properties st) (st_send_unsupported st).
Definition put_properties (v : list Z) (st : PivSessionState) : PivSessionState :=
  mkState (st_pcsc_identity st) (st_select_response st) (st_identity st) (st_pubkeys st) (st_policies st) (st_certs st) (st_chuid st) (st_pin st)
    (st_mgmt_hint st) (Some v) (st_send_unsupported st).
Definition state_send_unsupported_reads (send : bool) (st : PivSessionState) : PivSessionState :=
  mkState (st_pcsc_identity st) (st_select_response st) (st_identity st) (st_pubkeys st) (st_policies st) (st_certs st) (st_chuid st) (st_pin st)
    (st_mgmt_hint st) (st_properties st) send.
Definition forget_pin_verification (st : PivSessionState) : PivSessionState :=
  match st_pin st with Some r => if pr_verified r then put_pin None st else st | None => st end.
Definition cached_pubkey (st : PivSessionState) (slot : Slot) : option (KeyAlg * PublicKey) :=
  match pubkey_get (key_ref slot) (st_pubkeys st) with Some v => v | None => None end.

(** [{:?}] of a fingerprint. *)
Definition fingerprint_debug (f : AppletFingerprint) : list Z :=
  let wrapped name v := name ++ s2b "(" ++ v ++ s2b ")" in
  match f with
  | ArekinathPivApplet v => wrapped (s2b "ArekinathPivApplet") (arekinath_text v)
  | HidCrescendo v => wrapped (s2b "HidCrescendo") (crescendo_text v)
  | Trussed v => wrapped (s2b "Trussed") (trussed_text v)
  | OpenFips201 v => wrapped (s2b "OpenFips201") (openfips_text v)
  | UTrust v => wrapped (s2b "UTrust") (utrust_text v)
  | _ => fingerprint_text f
  end.

Record PivStatus := mkPivStatus {
  ps_version : option (list Z); ps_version_firmware : option (list Z); ps_serial : option Z; ps_pin_retries : option Z; ps_pin_verified : bool;
  ps_slots : list PivSlotStatus; ps_chuid : option Chuid; ps_fingerprint : AppletFingerprint; ps_name : list Z
}.
Record PivSlotDetail := mkSlotDetail {
  sd_slot : Slot; sd_algorithm : option KeyAlg; sd_subject : option (list Z); sd_policy : option (PinPolicy * TouchPolicy)
}.
Record PivStatusDetailed := mkDetailed { dt_status : PivStatus; dt_slots : list PivSlotDetail }.
Inductive PinProtectMaintenance PE := NotApplicable | Ran (printed_data : result (PivError PE) unit).
Arguments NotApplicable {PE}.
Arguments Ran {PE} printed_data.
Inductive HidCrescendoXauthKeyOp := XSet (alg : MgmtAlg) (key : list Z) | XDelete.

Definition piv_io : AppletIo := mkIo (s2b "piv") SW_MORE_DATA get_response (Some describe_apdu).
(** [{sw:04X}]. *)
Definition hex_word_upper (sw : Z) : list Z := hex_upper (sw / 256) ++ hex_upper (sw mod 256).
(** Each value of a list in turn, stopping at an error. *)
Fixpoint for_each {S E A B} (f : A -> io S E B) (l : list A) : io S E (list B) :=
  match l with [] => mret [] | a :: l => b ← f a; rest ← for_each f l; mret (b :: rest) end.

Section session.
Context {C : Type} `{PcscCard C}.
Context (block : MgmtAlg -> CryptOp -> list Z -> list Z -> list Z) (sha256 sha384 sha512 : list Z -> list Z).
Context (compress_to_vec : list Z -> list Z) (decompress_to_vec_with_limit : list Z -> Z -> result TINFLStatus (list Z)).
Local Notation PE := (PcscError C).
Local Notation session := (io (PivSession C) (PivError PE)).

Definition get_state {A} (f : PivSessionState -> A) : session A := io_gets (fun s => f (v_state s)).
Definition set_state (f : PivSessionState -> PivSessionState) : session unit := io_modify (fun s => with_state (f (v_state s)) s).
Definition note (traced : bool) (label text : list Z) : session unit := fun s =>
  let '(r, w) := trace_line traced (format_line Note label text) (v_world s) in (r, with_world w s).
Definition say (label text : list Z) : session unit := traced ← io_gets v_traced; note traced label text.
(** [getrandom::fill]. *)
Definition fill : session (list Z) := fun s =>
  match v_random s with
  | r :: rest => (ok_or (VTransport THostRngFailed) r, with_random rest s)
  | [] => (Err (VTransport THostRngFailed), s)
  end.
Definition bad_length {A} (r : result PinLengthError A) : session A := lift (map_err (fun _ => PivBadPinLength) r).

(** ** Exchanges *)

Definition transmit_full_raw (apdu : list Z) : session (list Z * Z) := fun s =>
  let '(r, w) := transmit_applet (v_traced s) piv_io apdu (cmd_hidden apdu) (resp_hidden apdu) (v_world s) in
  (map_err VTransport r, with_world w s).
Definition select : session unit :=
  full ← built select_full;
  '(data, sw) ← transmit_full_raw full;
  if sw =? SW_NOT_FOUND then
    short ← built PivApdu.select;
    '(data, sw) ← transmit_full_raw short;
    if sw =? SW_NOT_FOUND then
      _ ← set_state (put_select_response []); _ ← io_modify (with_selected false); lift (Err NoPivApplet)
    else
      _ ← set_state (put_select_response data);
      let result := ok_or_apdu (s2b "select piv applet (short aid)") sw in
      _ ← io_modify (with_selected (is_ok result)); lift result
  else
    _ ← set_state (put_select_response data);
    let result := ok_or_apdu (s2b "select piv applet") sw in
    _ ← io_modify (with_selected (is_ok result)); lift result.
Definition ensure_selected : session unit := selected ← io_gets applet_selected; if (selected : bool) then mret tt else select.
Definition transmit_full (apdu : list Z) : session (list Z * Z) := _ ← ensure_selected; transmit_full_raw apdu.
Definition transmit_chain (label : list Z) (chunks : list (list Z)) : session (list Z * Z) := transmit_chain_with transmit_full label chunks.
(** The data of an answer 9000. *)
Definition raw_answer (apdu : list Z) : session (option (list Z)) :=
  r ← tried (transmit_full_raw apdu);
  mret (match r with Ok (data, sw) => if sw =? SW_OK then Some data else None | Err _ => None end).
Definition selects (aid : list Z) (ok : Z -> bool) : session bool :=
  apdu ← built (select_by_aid aid);
  r ← tried (transmit_full_raw apdu);
  mret (match r with Ok (_, sw) => ok sw | Err _ => false end).
(** [let _ = self.select()]. *)
Definition reselect : session unit := _ ← tried select; mret tt.
(** A part of a call that ends by selecting PIV again, whatever it came to. *)
Definition then_reselect {A} (m : session A) : session A := r ← tried m; _ ← reselect; lift r.

(** ** Probes *)

Definition sw_is_ok (sw : Z) : bool := sw =? SW_OK.
Definition probe_hid_crescendo_cplc_serial : session (option Z) :=
  selected ← selects GLOBAL_PLATFORM_ISD_AID sw_is_ok;
  serial ← (if (selected : bool) then data ← raw_answer GLOBAL_PLATFORM_GET_CPLC; mret (data ← data; parse_cplc_serial data) else mret None);
  _ ← reselect; mret serial.
Definition probe_token2_otp_serial : session (option Z) :=
  serial ← (fun s => let '(n, s) := Token2Session.read_otp_applet_serial transmit_full_raw s in (Ok n, s));
  _ ← reselect; mret serial.
Definition probe_swissbit_management (need_name need_serial : bool) : session (option (list Z) * option Z) :=
  if negb need_name && negb need_serial then mret (None, None) else
  selected ← selects SWISSBIT_MANAGEMENT_AID sw_is_ok;
  out ← (if (selected : bool) then
           name ← (if need_name then data ← raw_answer SWISSBIT_GET_DEVICE_INFO; mret (data ← data; parse_swissbit_device_name data) else mret None);
           serial ← (if need_serial then
                       data ← raw_answer SWISSBIT_GET_SERIAL;
                       mret (data ← data; if zlen data =? 8 then result_ok (parse_serial data) else None)
                     else mret None);
           mret (name, serial)
         else mret (None, None));
  _ ← reselect; mret out.
Definition probe_swissbit_card_manager : session (option (list Z) * option (list Z)) :=
  selected ← selects SWISSBIT_CARD_MANAGER_AID sw_is_ok;
  out ← (if (selected : bool) then
           name ← raw_answer SWISSBIT_GET_DEVICE_NAME;
           firmware ← raw_answer SWISSBIT_GET_FIRMWARE_VERSION;
           mret (name ← name; parse_swissbit_text name, firmware ← firmware; text ← parse_swissbit_text firmware; parse_dotted_version text)
         else mret (None, None));
  _ ← reselect; mret out.
Definition probe_rid (aid : list Z) (ok : Z -> bool) : session bool := selectable ← selects aid ok; _ ← reselect; mret selectable.
Definition probe_feitian_rid : session bool := probe_rid FEITIAN_RID sw_is_ok.
Definition probe_idprime_aid : session bool := probe_rid IDPRIME_SECONDARY_PIV_AID (fun sw => (sw =? SW_OK) || (sw =? 0x6999)).
Definition probe_swissbit_rid : session bool := probe_rid SWISSBIT_RID sw_is_ok.
Definition probe_nitrokey_admin (id : AppletFingerprint) (version : option (list Z)) : session AppletFingerprintResult :=
  selected ← selects NITROKEY_ADMIN_AID sw_is_ok;
  '(name, version_firmware, serial) ←
    (if (selected : bool) then
       name ← raw_answer NITROKEY_GET_ADMIN_STATUS;
       firmware ← raw_answer NITROKEY_GET_VERSION_STRING;
       serial ← raw_answer NITROKEY_GET_SERIAL;
       mret (format_nitrokey_name <$> (name ← name; parse_nitrokey_variant name),
             firmware ← firmware; text ← parse_ascii_text firmware; parse_dotted_version text,
             serial ← serial; result_ok (parse_serial serial))
     else mret (None, None, None));
  _ ← reselect; mret (mkIdentity id (default [] name) version version_firmware serial).

(** ** Identity *)

Definition answer (apdu : list Z) : session (option (list Z)) :=
  r ← tried (transmit_full apdu);
  mret (match r with Ok (data, sw) => if sw =? SW_OK then Some data else None | Err _ => None end).
Definition version : session (option (list Z)) :=
  data ← answer get_version; mret (data ← data; if bool_decide (data = []) then None else Some data).
Definition serial : session (option Z) := data ← answer get_serial; mret (data ← data; result_ok (parse_serial data)).
Definition hid_crescendo_properties_raw (variant : HidCrescendoVariant) : session (list Z) :=
  cached ← get_state st_properties;
  match cached with
  | Some raw => mret raw
  | None =>
      raw ← (match variant with
             | C2300 => apdu ← built (get_data HID_CRESCENDO_C2300_PROPERTIES_TAG); answer apdu
             | C4000 => answer HID_CRESCENDO_C4000_GET_PROPERTIES
             | CrescendoGeneric => mret None
             end);
      let raw := default [] raw in
      _ ← set_state (put_properties raw); mret raw
  end.
Definition hid_crescendo_slot_key_algorithms (variant : HidCrescendoVariant) : session (list (Z * Z)) :=
  raw ← hid_crescendo_properties_raw variant; mret (parse_hid_crescendo_slot_key_algorithms raw).
Definition hid_crescendo_version (variant : HidCrescendoVariant) : session (option (list Z)) :=
  raw ← hid_crescendo_properties_raw variant; mret (parse_hid_crescendo_version raw).
Definition hid_crescendo_reports_management_key (variant : HidCrescendoVariant) : session bool :=
  raw ← hid_crescendo_properties_raw variant; mret (hid_crescendo_reports_slot raw KEY_REF_MANAGEMENT).

(** The classification, and the probes it waits for. *)
Definition probed_fingerprint : session AppletFingerprint :=
  atr ← io_gets v_atr;
  select_response ← get_state st_select_response;
  let atr_identity := historical ← atr_historical_bytes atr; atr_identity historical in
  let select_identity := select_identity select_response in
  swissbit ← (if wants_swissbit_probe select_identity then probe_swissbit_rid else mret false);
  let id := classify atr_identity select_identity swissbit false false in
  id ← (if bool_decide (id = Generic) then feitian ← probe_feitian_rid; mret (classify atr_identity select_identity swissbit feitian false)
        else mret id);
  if bool_decide (id = Generic) then idprime ← probe_idprime_aid; mret (classify atr_identity select_identity swissbit false idprime)
  else mret id.
Definition applet_fingerprint : session AppletFingerprintResult :=
  cached ← get_state st_identity;
  match cached with
  | Some r => mret r
  | None =>
      select_identity ← get_state (fun st => select_identity (st_select_response st));
      id ← probed_fingerprint;
      version ← (match id with HidCrescendo _ => mret None | _ => version end);
      result ←
        (match id with
         | Trussed Nitrokey => probe_nitrokey_admin id version
         | YubiKey =>
             n ← serial;
             mret (mkIdentity id (default [] (v ← version; format_yubikey_name v)) version None (decode_serial_if_bcd id version None n))
         | HidCrescendo CrescendoGeneric => n ← probe_hid_crescendo_cplc_serial; mret (mkIdentity id [] version None n)
         | HidCrescendo variant =>
             hid_version ← hid_crescendo_version variant;
             let name := match select_identity, hid_version with
                         | Some name, Some v => Some (strip_redundant_applet_version_suffix name v)
                         | name, _ => name
                         end in
             n ← probe_hid_crescendo_cplc_serial;
             mret (mkIdentity id (default [] name) hid_version None n)
         | Token2 =>
             n ← probe_token2_otp_serial;
             mret (mkIdentity id [] version (n ← n; token2_firmware_from_serial n) n)
         | Thetis => n ← probe_token2_otp_serial; mret (mkIdentity id [] version None n)
         | OpenFips201 SwissbitIShield2 | ArekinathPivApplet SwissbitIShield1 =>
             n ← serial;
             let yubico_serial := decode_serial_if_bcd id version None n in
             let is_ishield2 := bool_decide (id = OpenFips201 SwissbitIShield2) in
             '(mgmt_name, mgmt_serial) ← probe_swissbit_management is_ishield2 (bool_decide (yubico_serial = None));
             let serial := match yubico_serial with Some n => Some n | None => mgmt_serial end in
             '(name, version_firmware) ← (if is_ishield2 then mret (mgmt_name, None) else probe_swissbit_card_manager);
             mret (mkIdentity id (default [] name) version version_firmware serial)
         | _ => n ← serial; mret (mkIdentity id [] version None (decode_serial_if_bcd id version None n))
         end);
      _ ← set_state (put_identity result); mret result
  end.
Definition refresh : session unit :=
  _ ← set_state (fun _ => default_state); _ ← select; _ ← applet_fingerprint; mret tt.

Definition fingerprint : session AppletFingerprint := r ← applet_fingerprint; mret (id_fingerprint r).
Definition quirks : session (list PivQuirk) :=
  r ← applet_fingerprint; mret (resolve_quirks (id_fingerprint r) (id_version r) (id_version_firmware r)).
Definition extension_gate (extension : PivExtension) : session FeatureGate :=
  r ← applet_fingerprint; mret (resolve extension (id_fingerprint r) (id_version r) (id_version_firmware r)).
Definition feature_gate (feature : PivExtension) : session FeatureGate := extension_gate feature.
Definition set_send_unsupported_reads (send : bool) : session unit := set_state (state_send_unsupported_reads send).
Definition internal_read_allowed (extension : PivExtension) (what : list Z) : session bool :=
  gate ← extension_gate extension;
  unsupported ← get_state st_send_unsupported;
  let '(send, text) := internal_read_decision gate unsupported in
  _ ← (match text with
       | Some text => f ← fingerprint; say (s2b "piv " ++ what) (text ++ s2b " (" ++ fingerprint_debug f ++ s2b ")")
       | None => mret tt
       end);
  mret send.
Definition apdu_id (alg : KeyAlg) : session Z :=
  r ← applet_fingerprint; mret (slot_key_algorithm_apdu_id alg (id_fingerprint r) (id_version_firmware r)).
Definition alg_of_apdu_id (id : Z) : session (option KeyAlg) :=
  r ← applet_fingerprint; mret (key_alg_from_apdu_id id (id_fingerprint r) (id_version_firmware r)).

(** ** Metadata and slot keys *)

Definition metadata_reply (key_ref : Z) : session (option Z * option Metadata) :=
  allowed ← internal_read_allowed XGetMetadata (s2b "GET METADATA");
  if negb allowed then mret (None, None) else
  r ← tried (transmit_full (get_metadata key_ref));
  match r with
  | Err _ => mret (None, None)
  | Ok (data, sw) =>
      if negb (sw =? SW_OK) then mret (Some sw, None) else
      match parse_metadata data with
      | Ok md => q ← quirks; mret (Some sw, Some (clear_metadata_if_quirky q md))
      | Err _ => mret (Some sw, None)
      end
  end.
Definition metadata (key_ref : Z) : session (option Metadata) := r ← metadata_reply key_ref; mret r.2.
Definition metadata_status (key_ref : Z) : session (option Z) :=
  allowed ← internal_read_allowed XGetMetadata (s2b "GET METADATA");
  if negb allowed then mret None else
  r ← tried (transmit_full (get_metadata key_ref));
  mret (match r with Ok (_, sw) => Some sw | Err _ => None end).

Definition policy_of (ids : Z * Z) : option (PinPolicy * TouchPolicy) :=
  pin ← pin_policy_from_id ids.1; touch ← touch_policy_from_id ids.2; Some (pin, touch).
(** The key the card reports of a slot, and whether it says there is none. *)
Definition resolve_slot_from_device (slot : Slot) : session (option (KeyAlg * PublicKey) * bool) :=
  '(sw, md) ← metadata_reply (key_ref slot);
  q ← quirks;
  let no_key := metadata_says_no_key sw q in
  _ ← (match (md ← md; ids ← md_policy md; policy_of ids) with
       | Some policy => set_state (on_policies (policy_remember (key_ref slot) (Some policy)))
       | None => mret tt
       end);
  kv ← (match (md ← md; id ← md_algorithm md; Some (md, id)) with
        | Some (md, id) =>
            alg ← alg_of_apdu_id id;
            mret (kr ← metadata_key_material md (fun _ => alg); key ← result_ok (public_key_from_metadata kr.2); Some (kr.1, key))
        | None => mret None
        end);
  mret (kv, no_key).
Definition cached_slot_key (slot : Slot) : session (option (KeyAlg * PublicKey)) :=
  cached ← get_state (fun st => pubkey_get (key_ref slot) (st_pubkeys st));
  match cached with
  | Some resolved => mret resolved
  | None =>
      '(resolved, no_key) ← resolve_slot_from_device slot;
      _ ← set_state (on_pubkeys (if no_key && bool_decide (resolved = None) then pubkey_remember_no_key (key_ref slot)
                                 else pubkey_remember (key_ref slot) resolved));
      mret resolved
  end.
Definition confirmed_slot_key (slot : Slot) : session (option (KeyAlg * PublicKey)) :=
  '(resolved, _) ← resolve_slot_from_device slot;
  match resolved with
  | Some kv => _ ← set_state (on_pubkeys (pubkey_remember (key_ref slot) (Some kv))); mret (Some kv)
  | None => cached ← get_state (fun st => pubkey_get (key_ref slot) (st_pubkeys st)); mret (default None cached)
  end.
Definition hid_crescendo_slot_algorithm (slot : Slot) : session (option KeyAlg) :=
  f ← fingerprint;
  match f with
  | HidCrescendo variant =>
      algorithms ← hid_crescendo_slot_key_algorithms variant;
      match List.find (fun kr => kr.1 =? key_ref slot) algorithms with
      | Some (_, id) => alg_of_apdu_id id
      | None => mret None
      end
  | _ => mret None
  end.
Definition slot_key_presence (slot : Slot) : session SlotKeyPresence :=
  key ← cached_slot_key slot;
  present ← (if bool_decide (is_Some key) then mret true
             else alg ← hid_crescendo_slot_algorithm slot; mret (bool_decide (is_Some alg)));
  if (present : bool) then mret KeyPresent
  else p ← get_state (fun st => pubkey_presence (key_ref slot) (st_pubkeys st)); mret (default KeyUnknown p).
Definition remember_pubkey (slot : Slot) (alg : KeyAlg) (key : PublicKey) : session unit :=
  set_state (on_pubkeys (pubkey_remember (key_ref slot) (Some (alg, key)))).
Definition reported_slot_key (slot : Slot) : session (option (KeyAlg * PublicKey)) := r ← resolve_slot_from_device slot; mret r.1.
Definition NO_SLOT_KEY : list Z :=
  s2b "slot has no key, or GET METADATA doesn't name this slot's key and the key material wasn't handed to this session " ++ EM_DASH ++
  s2b " run `piv key generate` on this slot in this same session, or pass its previously saved key material to this command, " ++
  s2b "so it can be cached for `piv cert request`/`piv cert generate`".
Definition slot_key (slot : Slot) : session (KeyAlg * PublicKey) :=
  kv ← confirmed_slot_key slot; lift (ok_or (VTransport (TMalformedResponse NO_SLOT_KEY)) kv).
Definition slot_has_key (slot : Slot) : session bool := key ← cached_slot_key slot; mret (bool_decide (is_Some key)).
Definition slot_key_status_algorithm (slot : Slot) : session (option KeyAlg) :=
  md ← metadata (key_ref slot);
  alg ← (match (md ← md; md_algorithm md) with Some id => alg_of_apdu_id id | None => mret None end);
  match alg with Some alg => mret (Some alg) | None => hid_crescendo_slot_algorithm slot end.

(** ** Policies *)

Definition attest (slot : Slot) : session (list Z) :=
  allowed ← internal_read_allowed XAttest (s2b "ATTEST");
  if negb allowed then lift (Err (VTransport (TApdu (s2b "piv attest") 0x6D 0x00))) else
  '(data, sw) ← transmit_full (PivApdu.attest (key_ref slot));
  _ ← lift (ok_or_write (s2b "piv attest") sw); mret data.
Definition policy_cached (slot : Slot) : session (option (option (PinPolicy * TouchPolicy))) :=
  get_state (fun st => st_policies st !! key_ref slot).
Definition slot_policy (slot : Slot) : session (option (PinPolicy * TouchPolicy)) :=
  cached ← policy_cached slot;
  match cached with
  | Some resolved => mret resolved
  | None =>
      known ← get_state (fun st => pubkey_get (key_ref slot) (st_pubkeys st));
      _ ← (match known with
           | Some (Some _) => _ ← resolve_slot_from_device slot; mret tt
           | _ => _ ← cached_slot_key slot; mret tt
           end);
      cached ← policy_cached slot;
      match cached with
      | Some resolved => mret resolved
      | None =>
          r ← tried (attest slot);
          let policy := cert ← result_ok r; found ← result_ok (parse_key_policy_extension cert); ids ← found; policy_of ids in
          _ ← set_state (on_policies (policy_remember (key_ref slot) policy)); mret policy
      end
  end.
Definition may_ask_touch_to_use (slot : Slot) : session bool :=
  q ← quirks;
  if has_quirk QNeverAsksForTouch q then mret false else
  policy ← slot_policy slot; mret (match policy with Some (_, TouchNever) => false | _ => true end).
Definition may_ask_touch_to_write : session bool :=
  q ← quirks; mret (negb (has_quirk QNoTouchToGenerateOrImport q || has_quirk QNeverAsksForTouch q)).
Definition may_ask_touch_to_import (touch_policy : TouchPolicy) : session bool :=
  write ← may_ask_touch_to_write;
  q ← quirks;
  if has_quirk QNeverAsksForTouch q then mret false else
  mret (write || match touch_policy with TouchNever => false | TouchDefault => write | TouchAlways | TouchCached => true end).

(** ** The management key *)

Definition MGMT_LABEL : list Z := s2b "piv mgmt-key".
Definition reported_management_key_algorithm : session (option MgmtAlg) :=
  md ← metadata KEY_REF_MANAGEMENT; mret (md ← md; id ← md_algorithm md; mgmt_from_id id).
(** ["{:#04x}"]. *)
Definition hex_byte_lower (b : Z) : list Z := s2b "0x" ++ hex_encode [b].
Definition probe_mgmt_alg (alg : MgmtAlg) : session bool :=
  apdu ← built (general_auth_request_witness alg KEY_REF_MANAGEMENT);
  '(_, sw) ← transmit_full apdu;
  let ok := sw =? SW_OK in
  _ ← say MGMT_LABEL (s2b "probe " ++ mgmt_label alg ++ s2b " (P1=" ++ hex_byte_lower (mgmt_id alg) ++ s2b ") -> " ++
        if ok then s2b "accepted" else s2b "rejected (SW " ++ hex_word_upper sw ++ s2b ")");
  mret ok.
Fixpoint probe_all (algs : list MgmtAlg) : session (list MgmtAlg) :=
  match algs with
  | [] => mret []
  | alg :: algs => ok ← probe_mgmt_alg alg; rest ← probe_all algs; mret (if (ok : bool) then alg :: rest else rest)
  end.
Definition resolve_management_key_algorithm (key_len : Z) : session MgmtAlg :=
  reported ← reported_management_key_algorithm;
  match reported with
  | Some alg => if negb (mgmt_key_len alg =? key_len) then lift (Err PivBadKeyLength) else mret alg
  | None =>
      hint ← get_state st_mgmt_hint;
      still ← (match hint with Some h => hint_still_picked h key_len probe_mgmt_alg | None => mret false end);
      match hint, still with
      | Some h, true => _ ← say MGMT_LABEL (s2b "reusing " ++ mgmt_label h ++ s2b " from this key's last probe"); mret h
      | _, _ =>
          _ ← say MGMT_LABEL (s2b "GET METADATA unsupported; probing every GENERAL AUTHENTICATE P1 with a witness request");
          accepted ← probe_all [TripleDes; Aes128; Aes192; Aes256];
          _ ← (if bool_decide (accepted = []) then say MGMT_LABEL (s2b "card accepted no probe; falling back to key length") else mret tt);
          chosen ← lift (ok_or PivBadKeyLength (pick_mgmt_alg accepted key_len));
          _ ← say MGMT_LABEL (s2b "selected " ++ mgmt_label chosen);
          _ ← set_state (put_mgmt_hint (if bool_decide (chosen ∈ accepted) then Some chosen else None));
          mret chosen
      end
  end.

(** *** The ACA applet of the HID Crescendo *)

Definition aca_select : session unit :=
  apdu ← built (select_by_aid HID_CRESCENDO_ACA_AID);
  '(_, sw) ← transmit_full_raw apdu; lift (ok_or_apdu (s2b "piv aca select") sw).
Definition aca_xauth_unlock (key : list Z) : session unit :=
  '(challenge, sw) ← transmit_full_raw HID_CRESCENDO_ACA_GET_CHALLENGE;
  _ ← lift (ok_or_apdu (s2b "piv aca get challenge") sw);
  alg ← lift (ok_or PivBadKeyLength (hid_crescendo_xauth_key_alg (zlen challenge)));
  if negb (zlen key =? mgmt_key_len alg) then lift (Err PivBadKeyLength) else
  cryptogram ← lift (block_crypt block alg key challenge Encrypt);
  '(_, sw) ← transmit_full_raw (hid_crescendo_aca_external_authenticate cryptogram);
  if negb (sw =? SW_OK) then
    _ ← say (s2b "piv aca external authenticate") (s2b "rejected (SW " ++ hex_word_upper sw ++ s2b ")"); lift (Err PivManagementAuthFailed)
  else mret tt.
Definition authenticate_management_hid_crescendo_aca (key : list Z) : session unit := then_reselect (_ ← aca_select; aca_xauth_unlock key).
Definition verify_pin_hid_crescendo_aca (pin : list Z) : session unit :=
  apdu ← bad_length (verify_pin_at HID_CRESCENDO_ACA_PIN_REF pin);
  apdu ← built apdu;
  '(_, sw) ← transmit_full_raw apdu; lift (map_pin_sw sw).
Definition aca_unlock (current : CurrentMgmtAuth) : session unit :=
  match current with AuthPin pin => verify_pin_hid_crescendo_aca pin | AuthKey key => aca_xauth_unlock key end.
Definition hid_crescendo_aca_put_xauth_key_op (current : CurrentMgmtAuth) (op : HidCrescendoXauthKeyOp) : session unit :=
  then_reselect (
    _ ← aca_select;
    _ ← aca_unlock current;
    apdu ← (match op with
            | XSet alg key => lift (ok_or PivBadKeyLength (hid_crescendo_aca_put_xauth_key alg key))
            | XDelete => mret hid_crescendo_aca_put_xauth_key_remove
            end);
    '(_, sw) ← transmit_full_raw apdu; lift (ok_or_write (s2b "piv aca put xauth key") sw)).
(** Whether the management key is the ACA's, and not the PIV applet's. *)
Definition aca_holds_key : session bool :=
  f ← fingerprint;
  match f with
  | HidCrescendo variant => reports ← hid_crescendo_reports_management_key variant; mret (negb reports)
  | _ => mret false
  end.

(** *** Authentication *)

Definition HOST_ONLY : list Z :=
  s2b "card returned no 0x82 challenge response; accepting host-only (client) authentication " ++ EM_DASH ++
  s2b " this card cannot prove it holds the management key".
Definition authenticate_management (alg : MgmtAlg) (key : list Z) : session unit :=
  if negb (zlen key =? mgmt_key_len alg) then lift (Err PivBadKeyLength) else
  aca ← aca_holds_key;
  if (aca : bool) then authenticate_management_hid_crescendo_aca key else
  apdu ← built (general_auth_request_witness alg KEY_REF_MANAGEMENT);
  '(resp, sw) ← transmit_full apdu;
  _ ← lift (ok_or_apdu (s2b "piv authenticate (request witness)") sw);
  z1 ← lift (map_err VParse (parse_general_auth resp 0x80));
  witness ← lift (block_crypt block alg key z1 Decrypt);
  challenge ← fill;
  apdu ← built (general_auth_mutual alg KEY_REF_MANAGEMENT witness challenge);
  '(resp2, sw2) ← transmit_full apdu;
  if negb (sw2 =? SW_OK) then lift (Err PivManagementAuthFailed) else
  if bool_decide (resp2 = []) then say (s2b "piv authenticate") HOST_ONLY else
  q ← quirks;
  z2 ← lift (map_err VParse (if has_quirk QHostChallengeResponsePermissiveTag q then parse_general_auth_permissive resp2
                             else parse_general_auth resp2 0x82));
  expected ← lift (block_crypt block alg key challenge Encrypt);
  if negb (ct_eq z2 expected) then lift (Err PivManagementAuthFailed) else mret tt.

Definition verify_pin (pin : list Z) : session unit :=
  apdu ← bad_length (PivApdu.verify_pin pin);
  apdu ← built apdu;
  '(_, sw) ← transmit_full apdu;
  _ ← set_state (put_pin None); lift (map_pin_sw sw).
Definition authenticate_management_via_pin (pin : list Z) : session unit :=
  f ← fingerprint;
  _ ← verify_pin pin;
  match f with
  | HidCrescendo _ => mret tt
  | _ =>
      apdu ← built (get_data OBJECT_PIN_PROTECTED_DATA);
      '(data, sw) ← transmit_full apdu;
      if negb (sw =? SW_OK) then lift (Err PivPinProtectedKeyNotSet) else
      key ← lift (ok_or PivPinProtectedKeyNotSet (parse_pin_protected_management_key data));
      alg ← resolve_management_key_algorithm (zlen key);
      authenticate_management alg key
  end.
Definition authenticate_management_current (current : CurrentMgmtAuth) : session unit :=
  match current with
  | AuthKey key => alg ← resolve_management_key_algorithm (zlen key); authenticate_management alg key
  | AuthPin pin => authenticate_management_via_pin pin
  end.

(** ** PINs and the PUK *)

Definition pin_retries : session PinReading :=
  cached ← get_state st_pin;
  match cached with
  | Some r => mret r
  | None =>
      r ← tried (transmit_full verify_pin_status);
      match r with
      | Err _ => mret (mkPinReading None false)
      | Ok (_, sw) => let reading := pin_reading_from_sw sw in _ ← set_state (put_pin (Some reading)); mret reading
      end
  end.
Definition change_pin (old new : list Z) : session unit :=
  apdu ← bad_length (change_reference PIN_REF_APPLICATION old new);
  apdu ← built apdu;
  '(_, sw) ← transmit_full apdu;
  _ ← set_state (put_pin None); lift (map_pin_sw sw).
Definition change_puk (old new : list Z) : session unit :=
  apdu ← bad_length (change_reference PIN_REF_PUK old new);
  apdu ← built apdu;
  '(_, sw) ← transmit_full apdu; lift (map_pin_sw sw).
Definition unblock_pin (puk new_pin : list Z) : session unit :=
  apdu ← bad_length (PivApdu.unblock_pin puk new_pin);
  apdu ← built apdu;
  '(_, sw) ← transmit_full apdu;
  _ ← set_state (put_pin None); lift (map_pin_sw sw).
Definition set_pin_retries (pin_tries puk_tries : Z) : session unit :=
  '(_, sw) ← transmit_full (PivApdu.set_pin_retries pin_tries puk_tries);
  _ ← lift (ok_or_write (s2b "piv set pin retries") sw);
  set_state (put_pin None).

(** ** Setting the management key *)

Definition set_management_key (current : CurrentMgmtAuth) (alg : MgmtAlg) (key : list Z) (require_touch : bool) : session unit :=
  if negb (zlen key =? mgmt_key_len alg) then lift (Err PivBadKeyLength) else
  aca ← aca_holds_key;
  if (aca : bool) then hid_crescendo_aca_put_xauth_key_op current (XSet alg key) else
  apdu ← built (PivApdu.set_management_key alg key require_touch);
  '(_, sw) ← transmit_full apdu; lift (ok_or_write (s2b "piv set management key") sw).
Definition delete_management_key_hid_crescendo (current : CurrentMgmtAuth) : session unit :=
  f ← fingerprint;
  match f with
  | HidCrescendo variant =>
      reports ← hid_crescendo_reports_management_key variant;
      if (reports : bool) then lift (Err PivManagementKeyDeleteUnsupported) else hid_crescendo_aca_put_xauth_key_op current XDelete
  | _ => lift (Err PivManagementKeyDeleteUnsupported)
  end.
Definition read_admin_data_inner : session (list Z) :=
  apdu ← built (get_data OBJECT_ADMIN_DATA);
  '(data, sw) ← transmit_full apdu;
  mret (if negb (sw =? SW_OK) then [] else match unwrap_data_object data with Ok v => v | Err _ => [] end).
Definition update_admin_data_pin_protected_flag (set : bool) : session unit :=
  existing ← read_admin_data_inner;
  patched ← built (set_admin_data_pin_protected_flag existing set);
  match patched with
  | None => mret tt
  | Some patched =>
      apdu ← built (put_data OBJECT_ADMIN_DATA patched);
      '(_, sw) ← transmit_full apdu;
      if negb (sw =? SW_OK) then
        say (s2b "piv put admin data") (s2b "rejected (SW " ++ hex_word_upper sw ++ s2b ") " ++ EM_DASH ++
          s2b " treating as unsupported on this device, not an error")
      else mret tt
  end.
Definition write_pin_protected_management_key (key : list Z) : session unit :=
  inner ← built (build_pin_protected_management_key key);
  apdu ← built (put_data OBJECT_PIN_PROTECTED_DATA inner);
  '(_, sw) ← transmit_full apdu; lift (ok_or_write (s2b "piv put pin-protected management key") sw).
Definition clear_pin_protected_management_key : session unit :=
  apdu ← built (put_data OBJECT_PIN_PROTECTED_DATA []);
  '(_, sw) ← transmit_full apdu; lift (ok_or_write (s2b "piv clear pin-protected management key") sw).
Definition set_management_key_pin_protected (current : CurrentMgmtAuth) (alg : MgmtAlg) (key : list Z) (require_touch allow_pin_unlock : bool) :
    session (PinProtectMaintenance PE) :=
  _ ← set_management_key current alg key require_touch;
  f ← fingerprint;
  match f with
  | HidCrescendo _ => mret NotApplicable
  | _ =>
      _ ← update_admin_data_pin_protected_flag allow_pin_unlock;
      printed_data ← tried (if allow_pin_unlock then write_pin_protected_management_key key else clear_pin_protected_management_key);
      mret (Ran printed_data)
  end.

(** ** Certificates *)

Definition clear_certificate (slot : Slot) : session unit :=
  apdu ← built (PivApdu.clear_certificate slot);
  '(_, sw) ← transmit_full apdu;
  _ ← lift (ok_or_write (s2b "piv clear certificate") sw);
  set_state (on_certs (cert_remember (key_ref slot) (Ok None))).
Definition cert_object (slot : Slot) : session CertObject :=
  cached ← get_state (fun st => st_certs st !! key_ref slot);
  match cached with
  | Some cert => mret cert
  | None =>
      apdu ← built (get_data (cert_object_tag slot));
      '(data, sw) ← transmit_full apdu;
      let cert := if sw =? SW_OK then cert_object_decode decompress_to_vec_with_limit data else Ok None in
      _ ← set_state (on_certs (cert_remember (key_ref slot) cert)); mret cert
  end.
Definition read_certificate (slot : Slot) : session (option (list Z)) :=
  cert ← cert_object slot;
  lift (match cert with Ok c => Ok (sc_der <$> c) | Err reason => Err (PivCertUnreadable slot reason) end).
Definition cert_algorithm (der : list Z) : option KeyAlg := match parse_key_algorithm der with Ok alg => alg | Err _ => None end.
Definition slot_key_algorithm (slot : Slot) : session (option KeyAlg) :=
  key ← cached_slot_key slot;
  match key with
  | Some (alg, _) => mret (Some alg)
  | None =>
      alg ← hid_crescendo_slot_algorithm slot;
      match alg with
      | Some alg => mret (Some alg)
      | None => r ← tried (read_certificate slot); mret (der ← result_ok r; der ← der; cert_algorithm der)
      end
  end.
Definition reject_certificate_key_mismatch (slot : Slot) (der : list Z) : session unit :=
  known ← tried (slot_key slot);
  match known with
  | Err _ =>
      gate ← extension_gate XGetSlotKeyStatus;
      status_alg ← slot_key_status_algorithm slot;
      match algorithm_only_mismatch gate status_alg (cert_algorithm der) with
      | Some (s, c) => lift (Err (PivImportCertificateAlgorithmMismatch slot s c))
      | None => mret tt
      end
  | Ok (slot_alg, slot_key) =>
      match parse_certificate_public_key der with
      | Err _ => mret tt
      | Ok (cert_alg, cert_key) =>
          if certificate_key_mismatches slot_alg slot_key cert_alg cert_key then lift (Err (PivImportCertificateKeyMismatch slot)) else mret tt
      end
  end.
Definition long_link : session LongLink :=
  traced ← io_gets v_traced; t0 ← io_gets v_t0; forced ← io_gets v_forced;
  mret (mkLongLink traced (if chain_upfront_for t0 forced then Some (chain_reason forced) else None)).
Definition store_certificate_unchecked (slot : Slot) (der : list Z) (compression : CertCompression) : session CertImport :=
  link ← long_link;
  done ← send_certificate pcsc_text note transmit_full compress_to_vec link slot der compression;
  _ ← (if ci_auto_compressed done then say CERT_LABEL (s2b "refused uncompressed as too large; stored gzip-compressed") else mret tt);
  _ ← (if ci_compressed done then
         _ ← set_state (on_certs (cert_forget (key_ref slot)));
         back ← tried (read_certificate slot);
         lift (check_readback slot der back)
       else set_state (on_certs (cert_remember (key_ref slot) (Ok (Some (mkStoredCert der false))))));
  mret done.
Definition import_certificate (slot : Slot) (der : list Z) (compression : CertCompression) : session CertImport :=
  _ ← reject_certificate_key_mismatch slot der; store_certificate_unchecked slot der compression.

(** ** Keys *)

Definition generate_key (slot : Slot) (alg : KeyAlg) (pin_policy : PinPolicy) (touch_policy : TouchPolicy) : session PublicKey :=
  alg_id ← apdu_id alg;
  apdu ← built (PivApdu.generate_key slot alg_id pin_policy touch_policy);
  '(data, sw) ← transmit_full apdu;
  _ ← lift (ok_or_write (s2b "piv generate key") sw);
  key ← lift (map_err VParse (parse_public_key data));
  _ ← clear_certificate slot;
  _ ← set_state (on_policies (policy_evict (key_ref slot)));
  _ ← set_state (on_pubkeys (pubkey_evict (key_ref slot)));
  _ ← slot_policy slot;
  _ ← remember_pubkey slot alg key;
  mret key.
Definition write_import_key (slot : Slot) (alg_id : Z) (body : list Z) : session unit :=
  link ← long_link;
  sent ← tried (send_import_key pcsc_text note transmit_full link slot alg_id body);
  _ ← set_state (on_policies (policy_evict (key_ref slot)));
  _ ← set_state (on_pubkeys (pubkey_evict (key_ref slot)));
  _ ← lift sent;
  _ ← slot_policy slot; mret tt.
Definition delete_key_with (label : list Z) (slot : Slot) (apdu : option (list Z)) : session unit :=
  apdu ← lift (ok_or (PivDeleteKeyAlgorithmUnknown slot) apdu);
  '(_, sw) ← transmit_full apdu; lift (ok_or_write label sw).
Definition delete_key_hid_crescendo_c2300 (alg : KeyAlg) (slot : Slot) : session unit :=
  delete_key_with (s2b "piv delete key (HID Crescendo C2300)") slot (hid_crescendo_c2300_delete_key alg (key_ref slot)).
Definition delete_key_hid_crescendo_c4000 (alg : KeyAlg) (slot : Slot) : session unit :=
  delete_key_with (s2b "piv delete key (HID Crescendo C4000)") slot (hid_crescendo_c4000_delete_key alg (key_ref slot)).
Definition delete_key_hid_crescendo (variant : HidCrescendoVariant) (slot : Slot) : session unit :=
  alg ← hid_crescendo_slot_algorithm slot;
  alg ← lift (ok_or (PivDeleteKeyAlgorithmUnknown slot) alg);
  match variant with
  | C2300 => delete_key_hid_crescendo_c2300 alg slot
  | C4000 => delete_key_hid_crescendo_c4000 alg slot
  | CrescendoGeneric =>
      r ← tried (delete_key_hid_crescendo_c4000 alg slot);
      match r with
      | Ok _ => mret tt
      | Err _ => io_map_err PivDeleteKeyHidCrescendoGenericFailed (delete_key_hid_crescendo_c2300 alg slot)
      end
  end.
Definition delete_key (slot : Slot) : session unit :=
  f ← fingerprint;
  _ ← (match f with
       | HidCrescendo variant => delete_key_hid_crescendo variant slot
       | _ => '(_, sw) ← transmit_full (PivApdu.delete_key slot); lift (ok_or_write (s2b "piv delete key") sw)
       end);
  _ ← set_state (on_pubkeys (pubkey_evict (key_ref slot)));
  set_state (on_policies (policy_evict (key_ref slot))).
Definition SAME_SLOT : list Z := s2b "source and destination slots are the same".
Definition move_key (src dest : Slot) : session unit :=
  if key_ref src =? key_ref dest then lift (Err (VTransport (TMalformedResponse SAME_SLOT))) else
  occupied ← slot_has_key dest;
  if (occupied : bool) then lift (Err (PivDestinationOccupied dest)) else
  '(_, sw) ← transmit_full (PivApdu.move_key src dest);
  _ ← lift (ok_or_write (s2b "piv move key") sw);
  _ ← set_state (on_pubkeys (pubkey_migrate (key_ref src) (key_ref dest)));
  set_state (on_policies (policy_migrate (key_ref src) (key_ref dest))).

(** ** The CHUID *)

Definition new_chuid (guid expiration : list Z) : session unit :=
  value ← built (encode_chuid guid expiration);
  apdu ← built (put_data OBJECT_CHUID value);
  '(_, sw) ← transmit_full apdu;
  _ ← lift (ok_or_write (s2b "piv new chuid") sw);
  set_state (put_chuid None).
Definition read_chuid : session (option Chuid) :=
  cached ← get_state st_chuid;
  match cached with
  | Some c => mret c
  | None =>
      apdu ← built (get_data OBJECT_CHUID);
      '(data, sw) ← transmit_full apdu;
      if negb (sw =? SW_OK) then _ ← set_state (put_chuid (Some None)); mret None else
      inner ← lift (map_err VParse (unwrap_data_object data));
      let chuid := parse_chuid inner in
      _ ← set_state (put_chuid (Some chuid)); mret chuid
  end.

(** ** Using a key *)

Definition general_auth_dyn_auth (label single : list Z) (chained : list (list Z)) : session (list Z) :=
  link ← long_link;
  '(data, sw) ←
    (match chain_upfront link with
     | Some reason => _ ← say label (s2b "command chaining up front (" ++ reason ++ s2b ")"); transmit_chain label chained
     | None =>
         '(data, sw) ← transmit_full single;
         if (sw =? SW_OK) || negb (uses_extended_length single) then mret (data, sw)
         else _ ← say label (s2b "extended length rejected (SW=" ++ hex_word_upper sw ++ s2b "); retrying with command chaining");
              transmit_chain label chained
     end);
  _ ← lift (ok_or_write label sw);
  lift (map_err VParse (parse_general_auth data 0x82)).
Definition sign_with (label : list Z) (slot : Slot) (alg : KeyAlg) (payload : list Z) : session (list Z) :=
  id ← apdu_id alg;
  single ← built (general_auth_sign id (key_ref slot) payload);
  chained ← built (general_auth_sign_chained id (key_ref slot) payload CHAIN_CHUNK);
  general_auth_dyn_auth label single chained.
Definition sign (slot : Slot) (alg : KeyAlg) (prepared : list Z) : session (list Z) := sign_with (s2b "piv sign") slot alg prepared.
Definition decrypt (slot : Slot) (alg : KeyAlg) (ciphertext : list Z) : session (list Z) := sign_with (s2b "piv decrypt") slot alg ciphertext.
Definition key_agree (slot : Slot) (alg : KeyAlg) (peer_public_key : list Z) : session (list Z) :=
  id ← apdu_id alg;
  single ← built (general_auth_key_agree id (key_ref slot) peer_public_key);
  chained ← built (general_auth_key_agree_chained id (key_ref slot) peer_public_key CHAIN_CHUNK);
  general_auth_dyn_auth (s2b "piv key-agree") single chained.

Definition SPKI_MISMATCH : list Z := s2b "slot key/algorithm mismatch".
Definition slot_spki (alg : KeyAlg) (key : PublicKey) : result (PivError PE) (list Z) :=
  map_err (fun _ => VTransport (TMalformedResponse SPKI_MISMATCH)) (subject_public_key_info key alg).
Definition generate_csr (slot : Slot) (subject pin : list Z) (key_usage : option KeyUsageExt) : session (list Z) :=
  '(alg, key) ← slot_key slot;
  subject ← lift (map_err VX509 (parse_subject subject));
  spki ← lift (slot_spki alg key);
  cri ← lift (map_err VX509 (csr_info subject spki key_usage));
  prepared ← lift (prepared_block sha256 sha384 sha512 alg cri);
  _ ← verify_pin pin;
  sig ← sign slot alg prepared;
  der ← lift (map_err VX509 (assemble cri alg sig));
  mret (pem_csr der).
Definition self_signed_certificate (slot : Slot) (subject : list Z) (not_before not_after : Z) (pin : list Z) (compression : CertCompression)
    (key_usage : option KeyUsageExt) : session (list Z * CertImport) :=
  '(alg, key) ← slot_key slot;
  subject ← lift (map_err VX509 (parse_subject subject));
  spki ← lift (slot_spki alg key);
  serial ← fill;
  tbs ← lift (map_err VX509 (tbs_certificate serial alg subject not_before not_after spki key_usage));
  prepared ← lift (prepared_block sha256 sha384 sha512 alg tbs);
  _ ← verify_pin pin;
  sig ← sign slot alg prepared;
  der ← lift (map_err VX509 (assemble tbs alg sig));
  stored ← import_certificate slot der compression;
  mret (der, stored).

(** ** Status *)

Definition slot_status (slot : Slot) : session PivSlotStatus :=
  cert ← cert_object slot;
  key ← slot_key_presence slot;
  mret (slot_status_of slot cert key).
(** [.unwrap_or_default()]. *)
Definition chuid_or_default : session (option Chuid) := r ← tried read_chuid; mret (default None (result_ok r)).
Definition status_of (r : AppletFingerprintResult) (pin : PinReading) (chuid : option Chuid) (slots : list PivSlotStatus) : PivStatus :=
  mkPivStatus (id_version r) (id_version_firmware r) (id_serial r) (pr_retries pin) (pr_verified pin) slots chuid (id_fingerprint r) (id_name r).
Definition status : session PivStatus :=
  r ← applet_fingerprint;
  pin ← pin_retries;
  chuid ← chuid_or_default;
  slots ← for_each slot_status slot_all;
  mret (status_of r pin chuid slots).
Definition slot_detail (slot : Slot) : session (PivSlotStatus * PivSlotDetail) :=
  cert ← cert_object slot;
  let cert_der := match cert with Ok (Some c) => Some (sc_der c) | _ => None end in
  key ← cached_slot_key slot;
  algorithm ← (match key with
               | Some (alg, _) => mret (Some alg)
               | None =>
                   alg ← hid_crescendo_slot_algorithm slot;
                   mret (match alg with Some alg => Some alg | None => der ← cert_der; cert_algorithm der end)
               end);
  let subject := der ← cert_der; dn ← result_ok (parse_subject_dn der); Some (dn_text dn) in
  policy ← slot_policy slot;
  key ← slot_key_presence slot;
  mret (slot_status_of slot cert key, mkSlotDetail slot algorithm subject policy).
Definition status_detailed : session PivStatusDetailed :=
  r ← applet_fingerprint;
  pin ← pin_retries;
  chuid ← chuid_or_default;
  slots ← for_each slot_detail slot_all;
  mret (mkDetailed (status_of r pin chuid (map fst slots)) (map snd slots)).

(** ** Resets *)

Definition reset (pre_reset_mgmt_auth : option CurrentMgmtAuth) : session unit :=
  q ← quirks;
  refused ← (if has_quirk QResetFailsIfManagementKeyIsAes q then
               reported ← reported_management_key_algorithm;
               mret (alg ← reported; if bool_decide (alg = TripleDes) then None else Some alg)
             else mret None);
  match refused with
  | Some alg => lift (Err (PivResetManagementKeyMustBe3Des alg))
  | None =>
      '(_, sw) ← transmit_full PivApdu.reset;
      if (sw =? SW_AUTH_BLOCKED) || (sw =? SW_CONDITIONS_NOT_SATISFIED) || (sw =? SW_SECURITY_NOT_SATISFIED) then lift (Err PivResetNotAllowed)
      else _ ← lift (ok_or_write RESET_LABEL sw); _ ← tried refresh; mret tt
  end.
Definition reset_global_gate : session FeatureGate := extension_gate XResetGlobal.
Definition pin_management_auth_gate : session FeatureGate := extension_gate XPinManagementAuth.
Definition plan_factory_reset : session FactoryResetPlan :=
  gate ← extension_gate XReset;
  match gate with
  | Unsupported => mret PlanUnsupported
  | Unverified => mret PlanUnverified
  | Supported => q ← quirks; mret (if has_quirk QResetNeedsManagementAuth q then NeedsManagementAuth else BurnPinPukThenReset)
  end.
Definition preview_factory_reset : session PivResetPreview :=
  gate ← reset_global_gate;
  if negb (bool_decide (gate = Unsupported)) then mret PreviewGlobal else
  plan ← plan_factory_reset;
  mret (match plan with PlanUnsupported => PreviewUnsupported | plan => PreviewPiv plan end).
Definition global_reset_available : session bool :=
  reset ← extension_gate XReset;
  reset_global ← extension_gate XResetGlobal;
  if bool_decide (reset = Unsupported) && bool_decide (reset_global = Unsupported) then mret false
  else q ← quirks; mret (has_quirk QResetNeedsManagementAuth q).
Definition default_management_key : session (option (list Z)) := q ← quirks; mret (default_9b_management_key q).

(** What a card is told after it was wiped, and the outcome. *)
Definition restore_factory_key (restore_key : list Z) : session FactoryResetOutcome :=
  r ← tried (verify_pin_hid_crescendo_aca HID_CRESCENDO_ACA_PIN_AFTER_RESET);
  match r with
  | Err e =>
      _ ← say (s2b "piv aca reauth after reset card (restore factory default)") (s2b "failed (" ++ piv_error_text e ++ s2b ")");
      mret WipedKeyRestoreFailed
  | Ok _ =>
      match hid_crescendo_aca_put_xauth_key TripleDes restore_key with
      | None => mret WipedKeyRestoreFailed
      | Some apdu =>
          r ← tried (transmit_full_raw apdu);
          match r with
          | Err _ => mret WipedKeyRestoreFailed
          | Ok (_, sw) =>
              if sw =? SW_OK then mret WipedGlobal else
              _ ← say (s2b "piv aca put xauth key (restore factory default)") (s2b "rejected (SW " ++ hex_word_upper sw ++ s2b ")");
              mret WipedKeyRestoreFailed
          end
      end
  end.
Definition hid_crescendo_aca_reset_card (pre_reset_mgmt_auth : CurrentMgmtAuth) : session FactoryResetOutcome :=
  q ← quirks;
  let restore_key := default HID_CRESCENDO_ACA_FACTORY_XAUTH_KEY (default_9b_management_key q) in
  then_reselect (
    _ ← aca_select;
    _ ← aca_unlock pre_reset_mgmt_auth;
    '(_, sw) ← transmit_full_raw HID_CRESCENDO_ACA_RESET_CARD;
    _ ← lift (ok_or_write (s2b "piv aca reset card") sw);
    restore_factory_key restore_key).

Definition RECOVERY_PIN : list Z := s2b "123456".
Definition random_credential_guess (previous : option (list Z)) : session (list Z) :=
  raw ← fill; mret (PgpSession.credential_guess_from raw previous).
(** Wrong guesses until the card reports the PIN blocked; at most [n]. *)
Fixpoint block_pin_loop (n : nat) (previous : option (list Z)) : session bool :=
  match n with
  | O => mret false
  | S n =>
      guess ← random_credential_guess previous;
      r ← tried (verify_pin guess);
      match r with
      | Err (PivPinRejected (Some 0)) => mret true
      | Ok _ | Err (PivPinRejected _) => block_pin_loop n (Some guess)
      | Err e => lift (Err e)
      end
  end.
Fixpoint block_puk_loop (n : nat) (previous : option (list Z)) : session bool :=
  match n with
  | O => mret false
  | S n =>
      guess ← random_credential_guess previous;
      r ← tried (unblock_pin guess RECOVERY_PIN);
      match r with
      | Ok _ => lift (Err PivPukGuessAccepted)
      | Err (PivPinRejected (Some 0)) => mret true
      | Err (PivPinRejected _) => block_puk_loop n (Some guess)
      | Err e => lift (Err e)
      end
  end.
Definition PIN_NOT_BLOCKED : list Z :=
  s2b "the PIV PIN would not report itself blocked within the attempt cap, so the card was NOT wiped " ++ EM_DASH ++
  s2b " its keys and certificates are still there and its PIN retry counter has been spent down. Re-run the factory reset to finish.".
Definition PUK_NOT_BLOCKED : list Z :=
  s2b "the PIV PUK would not report itself blocked within the attempt cap. The PIN is now blocked but the card was NOT wiped " ++ EM_DASH ++
  s2b " re-run the factory reset to finish, or unblock the PIN with the PUK if you know it.".
(** A reset, whether the card took it, unless it failed otherwise. *)
Definition reset_taken (pre_reset_mgmt_auth : option CurrentMgmtAuth) : session bool :=
  r ← tried (reset pre_reset_mgmt_auth);
  match r with Ok _ => mret true | Err PivResetNotAllowed => mret false | Err e => lift (Err e) end.
Definition block_puk_and_reset (pre_reset_mgmt_auth : option CurrentMgmtAuth) : session FactoryResetOutcome :=
  md ← metadata PIN_REF_PUK;
  let puk_tries := fst <$> (md ← md; md_retries md) in
  blocked ← block_puk_loop (Z.to_nat (block_attempts_cap puk_tries)) None;
  if negb blocked then lift (Err (PivResetIncomplete PUK_NOT_BLOCKED)) else
  _ ← io_map_err map_reset_stage_error (reset pre_reset_mgmt_auth);
  mret Wiped.
Definition force_reset (pre_reset_mgmt_auth : option CurrentMgmtAuth) : session FactoryResetOutcome :=
  taken ← reset_taken pre_reset_mgmt_auth;
  if (taken : bool) then mret Wiped else
  st ← status;
  blocked ← block_pin_loop (Z.to_nat (block_attempts_cap (ps_pin_retries st))) None;
  if negb blocked then lift (Err (PivResetIncomplete PIN_NOT_BLOCKED)) else
  taken ← reset_taken pre_reset_mgmt_auth;
  if (taken : bool) then mret Wiped else block_puk_and_reset pre_reset_mgmt_auth.
(** A reset on its own, its failure told as [wrap] tells it. *)
Definition bare_reset (wrap : PivError PE -> PivError PE) (pre_reset_mgmt_auth : option CurrentMgmtAuth) : session FactoryResetOutcome :=
  io_map_err wrap (_ ← reset pre_reset_mgmt_auth; mret Wiped).
Definition reset_as_planned (pre_reset_mgmt_auth : option CurrentMgmtAuth) : session FactoryResetOutcome :=
  plan ← plan_factory_reset;
  match plan with
  | PlanUnsupported => lift (Err PivResetUnsupported)
  | NeedsManagementAuth =>
      current ← lift (ok_or PivResetNeedsManagementAuth pre_reset_mgmt_auth);
      io_map_err PivResetManagementAuthFailed (_ ← authenticate_management_current current; _ ← reset (Some current); mret Wiped)
  | PlanUnverified => bare_reset PivResetUnverifiedFailed pre_reset_mgmt_auth
  | BurnPinPukThenReset => force_reset pre_reset_mgmt_auth
  end.
Definition factory_reset (pre_reset_mgmt_auth : option CurrentMgmtAuth) : session FactoryResetOutcome :=
  gate ← reset_global_gate;
  if bool_decide (gate = Unsupported) then reset_as_planned pre_reset_mgmt_auth else
  global_current ← lift (ok_or PivResetNeedsManagementAuth pre_reset_mgmt_auth);
  r ← tried (hid_crescendo_aca_reset_card global_current);
  match r with
  | Ok outcome => mret outcome
  | Err e => if bool_decide (gate = Unverified) then reset_as_planned pre_reset_mgmt_auth else lift (Err (PivResetGlobalFailed e))
  end.
Definition force_reset_if_known_supported (pre_reset_mgmt_auth : option CurrentMgmtAuth) (send_if_listed_unsupported : bool) :
    session FactoryResetOutcome :=
  gate ← extension_gate XReset;
  match reset_route gate send_if_listed_unsupported with
  | Refuse => lift (Err PivResetUnsupported)
  | BareUnverified => bare_reset PivResetUnverifiedFailed pre_reset_mgmt_auth
  | BareForced => bare_reset PivResetForcedFailed pre_reset_mgmt_auth
  | Escalating => force_reset pre_reset_mgmt_auth
  end.

(** ** Opening *)

(** What the PC/SC service does for the [n]th try: its calls, the state and event count it
    tells of the reader (when it does), and of the card its answer to reset and its protocol. *)
Record PivAttempt := mkPivAttempt { pa_service : OathSession.Attempt; pa_status : option (Z * Z); pa_atr : list Z; pa_t0 : bool }.

(** [contact.opened()]. *)
Definition contact_opened (contact : OathSession.FirstContact) : session unit :=
  if 0 <? OathSession.tries contact then say (s2b "piv") (s2b "reopened after the card was reset or briefly gone") else mret tt.
(** [from_transaction], with the card's world. *)
Definition from_transaction (c : C) (h : OathSession.Host) (traced forced : bool) (rng : list (option (list Z))) (reader_name : list Z)
    (a : PivAttempt) : PivSession C :=
  mkPiv (mkWorld c h.1 h.2) traced (pa_t0 a) forced (pa_atr a) rng false (put_pcsc_identity (mkPcscIdentity reader_name None []) default_state).
(** A fresh session, or one that goes on from what a caller kept. *)
Definition enter_fresh (contact : OathSession.FirstContact) : session unit :=
  _ ← select; _ ← contact_opened contact; _ ← fingerprint; mret tt.
Definition enter_cached (contact : OathSession.FirstContact) (reader_name : list Z) (a : PivAttempt) (cached : PivSessionState) : session unit :=
  let fresh_identity := mkPcscIdentity reader_name (snd <$> pa_status a) (pa_atr a) in
  _ ← set_state (state_send_unsupported_reads (st_send_unsupported cached));
  if piv_session_cache_reusable (pcsc_reading_usable (fst <$> pa_status a)) (pcsc_matches (st_pcsc_identity cached) fresh_identity) then
    _ ← contact_opened contact; set_state (fun _ => put_pcsc_identity fresh_identity (forget_pin_verification cached))
  else _ ← enter_fresh contact; set_state (put_pcsc_identity fresh_identity).
(** The loop of both openings, until [f] may run; [fuel] retries at most. *)
Fixpoint open_loop (fuel : nat) (enter : OathSession.FirstContact -> PivAttempt -> session unit) (reader_name : list Z)
    (attempts : Z -> PivAttempt) (traced forced : bool) (rng : list (option (list Z))) (contact : OathSession.FirstContact)
    (h : OathSession.Host) : result (PivError PE) (PivSession C) * OathSession.Host :=
  let a := attempts (OathSession.tries contact) in
  let again (e : PivError PE) h :=
    match e with
    | VTransport te =>
        match OathSession.retry_or_fail traced (s2b "piv") contact te h with
        | (Err te, h) => (Err (VTransport te), h)
        | (Ok contact, h) =>
            match fuel with O => (Err e, h) | S fuel => open_loop fuel enter reader_name attempts traced forced rng contact h end
        end
    | e => (Err e, h)
    end in
  match OathSession.a_context (pa_service a) with
  | Some e => (Err (VTransport (TPcscUnavailable e)), h)
  | None =>
      match OathSession.a_connect (pa_service a) with
      | Err e => again (VTransport (TPcsc e)) h
      | Ok c =>
          match OathSession.a_begin (pa_service a) with
          | Some e => again (VTransport (TPcsc e)) h
          | None =>
              let '(r, s) := enter contact a (from_transaction c h traced forced rng reader_name a) in
              let h := (capture (v_world s), stderr (v_world s)) in
              match r with Ok _ => (Ok s, h) | Err e => again e h end
          end
      end
  end.
Definition open_piv enter (reader_name : list Z) (attempts : Z -> PivAttempt) (traced forced : bool) (rng : list (option (list Z)))
    (h : OathSession.Host) : result (PivError PE) (PivSession C) * OathSession.Host :=
  if bool_decide (0 ∈ reader_name) then (Err (VTransport (TMalformedResponse (s2b "reader name contained NUL"))), h)
  else open_loop 1 enter reader_name attempts traced forced rng (OathSession.mkContact 0 false) h.
(** The two of them; a caller's [f] runs on the session they give. *)
Definition with_transaction_traced := open_piv (fun contact _ => enter_fresh contact).
Definition with_cached_transaction_traced (reader_name : list Z) (cached : PivSessionState) :=
  open_piv (fun contact a => enter_cached contact reader_name a cached) reader_name.
Definition touched_card : session bool := io_gets applet_selected.
Definition set_traced (on : bool) : session unit :=
  io_modify (fun s => mkPiv (v_world s) on (v_t0 s) (v_forced s) (v_atr s) (v_random s) (applet_selected s) (v_state s)).
Definition identity : session SessionIdentity :=
  r ← applet_fingerprint; mret (mkSessionIdentity (id_fingerprint r) (id_version r) (id_version_firmware r)).
End session.
