(* ===== verification/PivSessionSpec.v ===== *)
(** What the PIV session does to a card it is given: which commands reach it, and what of
    the PIN and PUK they can spend; what the session keeps of the slots. *)
From S2P Require Export PivSession.

(** * Commands that count a try *)

(** VERIFY of the PIN, CHANGE REFERENCE DATA and RESET RETRY COUNTER count a try when what
    they carry is wrong. A VERIFY of the PIN without a body only asks, and [supplied] is
    the credential the caller gave. What is shorter than a header is no command. *)
Definition carries_supplied (supplied : option CurrentMgmtAuth) (cmd : list Z) : bool :=
  match supplied with
  | Some (AuthPin pin) => match PivApdu.verify_pin pin with Ok (Some v) => bool_decide (take 13 cmd = v) | _ => false end
  | _ => false
  end.
Definition spends (supplied : option CurrentMgmtAuth) (cmd : list Z) : bool :=
  match cmd with
  | _ :: ins :: _ :: p2 :: _ =>
      (ins =? 0x24) || (ins =? 0x2C) || (ins =? 0x20) && (p2 =? PIN_REF_APPLICATION) && (5 <? zlen cmd) && negb (carries_supplied supplied cmd)
  | _ => true
  end.

Lemma spends_ins supplied cla ins p1 p2 rest : ins <> 0x20 -> ins <> 0x24 -> ins <> 0x2C -> spends supplied (cla :: ins :: p1 :: p2 :: rest) = false.
Proof. intros H1 H2 H3. cbn [spends]. by rewrite !(proj2 (Z.eqb_neq _ _)) by done. Qed.
Lemma spends_ref supplied cla p1 p2 rest : p2 <> PIN_REF_APPLICATION -> spends supplied (cla :: 0x20 :: p1 :: p2 :: rest) = false.
Proof. intros H. cbn [spends]. by rewrite (proj2 (Z.eqb_neq p2 _)) by done. Qed.

Lemma length_verify pin v : PivApdu.verify_pin pin = Ok (Some v) -> exists body, v = [0x00; 0x20; 0x00; 0x80; 8] ++ body /\ length body = 8%nat.
Proof.
  unfold PivApdu.verify_pin, verify_pin_at, pad_pin. destruct (_ && _) eqn:E; [|done]. cbn [negb mbind result_bind]. bools.
  set (b := pin ++ replicate (8 - length pin) 0xFF). assert (zlen b = 8) as Hb by (subst b; unfold zlen in *; rewrite length_app, length_replicate; lia).
  unfold build_apdu, try_build_apdu. rewrite Hb. cbn. intros [= <-]. exists b. split; [done|]. unfold zlen in Hb. lia.
Qed.
Lemma resend_header cla ins p1 p2 rest le : exists rest', resend_with_le (cla :: ins :: p1 :: p2 :: rest) le = cla :: ins :: p1 :: p2 :: rest' /\
  zlen rest' <= zlen rest + 1 /\ (zlen rest = 1 -> zlen rest' = 1).
Proof.
  unfold resend_with_le. destruct (ends_in_le _) eqn:E.
  - destruct rest as [|x rest]; [done|]. exists (take (length rest) (x :: rest) ++ [le]). cbn [length Nat.sub take app]. split; [done|].
    assert (length (take (length rest) (x :: rest)) = length rest) as Hl by (rewrite length_take; cbn; lia). split; [|intros H]; zlen; unfold zlen in *; cbn in *; lia.
  - exists (rest ++ [le]). split; [done|]. split; [zlen; lia|]. intros H. assert (zlen (cla :: ins :: p1 :: p2 :: rest) = 5) as H5 by (rewrite !zlen_cons, H; done). unfold ends_in_le in E. rewrite H5 in E. done.
Qed.
(** A reissue with another Le spends no more. *)
Lemma spends_resend supplied cmd le : spends supplied cmd = false -> spends supplied (resend_with_le cmd le) = false.
Proof.
  destruct cmd as [|cla [|ins [|p1 [|p2 rest]]]]; [done..|]. destruct (resend_header cla ins p1 p2 rest le) as (rest' & Hr & Hle & H1).
  intros Hs. destruct (carries_supplied supplied (cla :: ins :: p1 :: p2 :: rest)) eqn:Ec.
  - unfold carries_supplied in Ec |- *. destruct supplied as [[|pin]|]; try done. destruct (PivApdu.verify_pin pin) as [[v|]|] eqn:Ev; try done. apply bool_decide_eq_true_1 in Ec.
    destruct (length_verify _ _ Ev) as (body & -> & Hb).
    assert (take 13 (resend_with_le (cla :: ins :: p1 :: p2 :: rest) le) = [0; 0x20; 0; 0x80; 8] ++ body) as Ht.
    { unfold resend_with_le. assert (exists t, cla :: ins :: p1 :: p2 :: rest = ([0; 0x20; 0; 0x80; 8] ++ body) ++ t) as (t & Et).
      { exists (drop 13 (cla :: ins :: p1 :: p2 :: rest)). rewrite <- Ec. by rewrite take_drop. }
      rewrite Et. set (w := [0; 0x20; 0; 0x80; 8] ++ body). assert (length w = 13%nat) as Hw by (subst w; cbn; lia).
      destruct (ends_in_le (w ++ t)) eqn:E; [|rewrite <- app_assoc; by rewrite <- Hw, take_app_length].
      destruct t as [|x t].
      - exfalso. unfold ends_in_le in E. rewrite app_nil_r in E. assert (zlen w = 13) as Hz by (unfold zlen; lia). rewrite Hz in E. done.
      - rewrite length_app. cbn [length]. replace (length w + S (length t) - 1)%nat with (length w + length t)%nat by lia.
        rewrite take_app_add, <- app_assoc. by rewrite <- Hw, take_app_length. }
    unfold spends, carries_supplied. rewrite Ev. rewrite (bool_decide_eq_true_2 _ Ht). rewrite Hr. rewrite Hr in Ht. injection Ht as _ -> _ -> _. cbn. by rewrite andb_false_r.
  - rewrite Hr. unfold spends in Hs |- *. rewrite Ec in Hs. cbn [negb] in Hs. rewrite andb_true_r in Hs. destruct (ins =? 0x24); [done|]. destruct (ins =? 0x2C); [done|].
    cbn [orb] in Hs |- *. destruct ((ins =? 0x20) && (p2 =? PIN_REF_APPLICATION)); [|done]. cbn [andb] in Hs |- *. bools. zlen.
    rewrite ?zlen_cons in *. rewrite (proj2 (Z.ltb_ge _ _)); [done|]. pose proof (zlen_nonneg rest). assert (zlen rest = 0 \/ zlen rest = 1) as [Hz|Hz] by lia; [lia|]. specialize (H1 Hz). lia.
Qed.

(** * What a call keeps *)

Section keeps.
Context {C : Type} `{PcscCard C}.
Context (block : MgmtAlg -> CryptOp -> list Z -> list Z -> list Z) (sha256 sha384 sha512 : list Z -> list Z).
Context (compress_to_vec : list Z -> list Z) (decompress_to_vec_with_limit : list Z -> Z -> result TINFLStatus (list Z)).
(** What the card keeps whatever the commands that spend nothing, and what the session keeps. *)
Context (supplied : option CurrentMgmtAuth) (RC : relation C) `{!PreOrder RC} (RS : relation PivSessionState) `{!PreOrder RS}.
Context (HRC : forall cmd c, spends supplied cmd = false -> RC c (card_transmit cmd c).2).
Local Notation PE := (PcscError C).
Local Notation session := (io (PivSession C) (PivError PE)).

Definition kept_world (w w' : World C) : Prop := RC (card w) (card w').
Definition kept (s s' : PivSession C) : Prop := kept_world (v_world s) (v_world s') /\ RS (v_state s) (v_state s').
#[export] Instance kept_world_pre : PreOrder kept_world.
Proof. split; [intros w; unfold kept_world; reflexivity|intros w1 w2 w3; unfold kept_world; intros H1 H2; etransitivity; eassumption]. Qed.
#[export] Instance kept_pre : PreOrder kept.
Proof. split; [intros s; split; reflexivity|intros s1 s2 s3 [? ?] [? ?]; split; etransitivity; eassumption]. Qed.
Local Notation keeps := (io_respects kept).

Lemma trace_line_kept {E} p l : io_respects kept_world (trace_line (E := E) p l).
Proof. intros w. unfold trace_line. destruct (emit p l (capture w)). unfold kept_world. cbn. reflexivity. Qed.
Lemma applet_loop_kept fuel debug cs rs to_send acc n : spends supplied to_send = false ->
  io_respects kept_world (applet_loop fuel debug piv_io cs rs to_send acc n).
Proof.
  revert to_send acc n. induction fuel as [|fuel IH]; intros to_send acc n Hs; cbn [applet_loop piv_io describe]; [apply io_respects_lift, _|].
  apply io_respects_bind; [apply _|apply trace_line_kept|intros _]. apply io_respects_bind; [apply _|apply trace_line_kept|intros _].
  apply io_respects_bind; [apply _| |intros resp].
  { intros w. unfold transmit_traced, transmit. pose proof (HRC to_send (card w) Hs) as Hc. destruct (card_transmit to_send (card w)) as [[r|e] c]; [exact Hc|].
    etransitivity; [exact (Hc : kept_world w (mkWorld c (capture w) (stderr w)))|].
    apply io_respects_bind; [apply _|apply trace_line_kept|intros; apply io_respects_lift, _]. }
  apply io_respects_bind; [apply _|apply trace_line_kept|intros _]. destruct (zlen resp <? 2); [apply io_respects_lift, _|].
  apply io_respects_bind; [apply _|apply trace_line_kept|intros _]. destruct (MAX_RESPONSE_CHUNKS <? n + 1); [apply io_respects_lift, _|].
  unfold advance_exchange. destruct (classify_sw _ _ _) as [| |le].
  - apply io_respects_ret, _.
  - destruct (_ <? _); [apply io_respects_lift, _|]. apply IH. by apply spends_resend.
  - destruct (_ <? _); [apply io_respects_lift, _|]. apply IH. by apply spends_resend.
Qed.
Lemma raw_kept apdu : spends supplied apdu = false -> keeps (transmit_full_raw apdu).
Proof.
  intros Hs s. unfold transmit_full_raw, transmit_applet. pose proof (applet_loop_kept applet_fuel (v_traced s) (cmd_hidden apdu) (resp_hidden apdu) apdu [] 0 Hs (v_world s)) as Hw.
  destruct (applet_loop _ _ _ _ _ _ _ _ _) as [r w]. split; [exact Hw|cbn; reflexivity].
Qed.

Context (HRS : forall v st, RS st (put_select_response v st)).

Lemma kept_lift_bind {A B} (r : result (PivError PE) A) (k : A -> session B) : (forall a, r = Ok a -> keeps (k a)) -> keeps (lift r ≫= k).
Proof. intros Hk s. destruct r as [a|e]; [by apply Hk|cbn; reflexivity]. Qed.
Lemma kept_built {A B} (o : option A) (k : A -> session B) : (forall a, o = Some a -> keeps (k a)) -> keeps (built o ≫= k).
Proof. intros Hk s. destruct o as [a|]; [by apply Hk|cbn; reflexivity]. Qed.
Lemma kept_bad_length {A B} (r : result PinLengthError A) (k : A -> session B) : (forall a, r = Ok a -> keeps (k a)) -> keeps (bad_length r ≫= k).
Proof. intros Hk s. destruct r as [a|e]; [by apply Hk|cbn; reflexivity]. Qed.
Lemma kept_tried {A} (m : session A) : keeps m -> keeps (tried m).
Proof. intros Hm s. specialize (Hm s). unfold tried. by destruct (m s). Qed.
Lemma kept_map_err {A} (f : PivError PE -> PivError PE) (m : session A) : keeps m -> keeps (io_map_err f m).
Proof. intros Hm s. specialize (Hm s). unfold io_map_err. by destruct (m s). Qed.
Lemma kept_set_state f : (forall st, RS st (f st)) -> keeps (set_state f : session unit).
Proof. intros Hf s. split; [cbn; reflexivity|apply Hf]. Qed.
Lemma kept_selected b : keeps (io_modify (E := PivError PE) (with_selected b)).
Proof. intros s. split; cbn; reflexivity. Qed.
Lemma kept_note t l x : keeps (note t l x : session unit).
Proof. intros s. unfold note. pose proof (trace_line_kept (E := PivError PE) t (format_line Note l x) (v_world s)) as Hw. destruct (trace_line _ _ _). split; [exact Hw|cbn; reflexivity]. Qed.
Lemma kept_fill : keeps (fill (C := C)).
Proof. intros s. unfold fill. destruct (v_random s); split; cbn; reflexivity. Qed.
End keeps.

(** ** The commands that spend nothing *)

Section commands.
Context (supplied : option CurrentMgmtAuth).
Local Notation harmless apdu := (spends supplied apdu = false).

Lemma harmless_build cla ins p1 p2 data a : build_apdu cla ins p1 p2 data = Some a -> ins <> 0x20 -> ins <> 0x24 -> ins <> 0x2C -> harmless a.
Proof. unfold build_apdu, try_build_apdu. destruct (_ <? _); [done|]. intros [= <-]. apply spends_ins. Qed.
Lemma harmless_ext cla ins p1 p2 data le a : build_apdu_ext cla ins p1 p2 data le = Some a -> ins <> 0x20 -> ins <> 0x24 -> ins <> 0x2C -> harmless a.
Proof. unfold build_apdu_ext. destruct (_ <? _); [done|]. destruct (_ && _); intros [= <-]; apply spends_ins. Qed.
Lemma harmless_links cla ins p1 p2 le cs : ins <> 0x20 -> ins <> 0x24 -> ins <> 0x2C -> Forall (fun a => harmless a) (chain_links cla ins p1 p2 le cs).
Proof. intros. induction cs as [|c [|d cs] IH]; [constructor|repeat constructor; by apply spends_ins|]. cbn [chain_links] in IH |- *. constructor; [by apply spends_ins|done]. Qed.
Lemma harmless_chain cla ins p1 p2 data m le cs : chain_apdu cla ins p1 p2 data m le = Some cs -> ins <> 0x20 -> ins <> 0x24 -> ins <> 0x2C -> Forall (fun a => harmless a) cs.
Proof.
  unfold chain_apdu. destruct (negb _); [done|]. destruct (_ =? _); intros [= <-] ? ? ?; [|by apply harmless_links]. repeat constructor. by apply spends_ins.
Qed.
Lemma harmless_select aid a : select_by_aid aid = Some a -> harmless a.
Proof. unfold select_by_aid, build_apdu, try_build_apdu. destruct (_ <? _); [done|]. intros [= <-]. by apply spends_ins. Qed.
Lemma harmless_get_data tag a : get_data tag = Some a -> harmless a.
Proof. unfold get_data, build_apdu, try_build_apdu. destruct (_ <? _); [done|]. destruct (_ <? _); [done|]. intros [= <-]. by apply spends_ins. Qed.
Lemma harmless_put_data tag v a : put_data tag v = Some a -> harmless a.
Proof. unfold put_data. intros Hp. apply bind_Some in Hp as (b & _ & Hb). by eapply harmless_ext. Qed.
Lemma harmless_put_data_chained tag v m cs : put_data_chained tag v m = Some cs -> Forall (fun a => harmless a) cs.
Proof. unfold put_data_chained. intros Hp. apply bind_Some in Hp as (b & _ & Hb). by eapply harmless_chain. Qed.
Lemma harmless_witness alg k a : general_auth_request_witness alg k = Some a -> harmless a.
Proof. intros Hp. by eapply harmless_ext. Qed.
Lemma harmless_mutual alg k w c a : general_auth_mutual alg k w c = Some a -> harmless a.
Proof.
  unfold general_auth_mutual. intros Hp. apply bind_Some in Hp as (? & _ & Hp). apply bind_Some in Hp as (? & _ & Hp). apply bind_Some in Hp as (? & _ & Hp). by eapply harmless_ext.
Qed.
Lemma harmless_xauth alg k a : hid_crescendo_aca_put_xauth_key alg k = Some a -> harmless a.
Proof. unfold hid_crescendo_aca_put_xauth_key. destruct (negb _); [done|]. destruct (negb _); [done|]. intros [= <-]. by apply spends_ins. Qed.
Lemma harmless_aca_pin pin o a : verify_pin_at HID_CRESCENDO_ACA_PIN_REF pin = Ok o -> o = Some a -> harmless a.
Proof. intros Ho ->. revert Ho. unfold verify_pin_at, pad_pin. destruct (negb _); [done|]. unfold build_apdu, try_build_apdu. cbn [mbind result_bind]. destruct (_ <? _); [done|]. intros [= <-]. by apply spends_ref. Qed.
Lemma harmless_supplied pin o a : supplied = Some (AuthPin pin) -> PivApdu.verify_pin pin = Ok o -> o = Some a -> harmless a.
Proof.
  intros -> Hv ->. destruct (length_verify _ _ Hv) as (body & -> & Hb). unfold spends. cbn [app]. unfold carries_supplied. rewrite Hv.
  rewrite bool_decide_eq_true_2; [by rewrite andb_false_r|]. rewrite firstn_all2; [done|cbn; lia].
Qed.
Lemma harmless_clear slot a : PivApdu.clear_certificate slot = Some a -> harmless a.
Proof. apply harmless_put_data. Qed.
Lemma harmless_external c : harmless (hid_crescendo_aca_external_authenticate c).
Proof. by apply spends_ins. Qed.
End commands.

Create HintDb harmless.
#[export] Hint Resolve harmless_select harmless_get_data harmless_put_data harmless_witness harmless_mutual harmless_xauth harmless_aca_pin
  harmless_supplied harmless_clear harmless_external : harmless.
(** That a command built from constants, or by a builder, spends nothing. *)
Ltac harmless := first [reflexivity | eauto 3 with harmless nocore].

(** Follows a call bind by bind, case by case. *)
Ltac keep_step :=
  lazymatch goal with
  | |- io_respects _ (built _ ≫= _) => apply kept_built; [apply _|apply _|intros ? ?]
  | |- io_respects _ (bad_length _ ≫= _) => apply kept_bad_length; [apply _|apply _|intros ? ?]
  | |- io_respects _ (lift _ ≫= _) => apply kept_lift_bind; [apply _|apply _|intros ? ?]
  | |- io_respects _ (_ ≫= _) => apply io_respects_bind; [apply _| |intros ?]
  | |- io_respects _ (mret _) => apply io_respects_ret, _
  | |- io_respects _ (lift _) => apply io_respects_lift, _
  | |- io_respects _ (io_gets _) => apply io_respects_gets, _
  | |- io_respects _ (get_state _) => apply io_respects_gets, _
  | |- io_respects _ (tried _) => apply kept_tried; try apply _
  | |- io_respects _ (io_map_err _ _) => apply kept_map_err; try apply _
  | |- io_respects _ (note _ _ _) => apply kept_note; apply _
  | |- io_respects _ fill => apply kept_fill; try apply _
  | |- io_respects _ (match ?x with _ => _ end) => destruct x eqn:?
  | |- forall _, _ => intros ?
  end; cbv beta zeta.

(** ** Selecting, probing and the ACA *)

Section applets.
Context {C : Type} `{PcscCard C}.
Context (block : MgmtAlg -> CryptOp -> list Z -> list Z -> list Z).
Context (supplied : option CurrentMgmtAuth) (RC : relation C) `{!PreOrder RC} (RS : relation PivSessionState) `{!PreOrder RS}.
Context (HRC : forall cmd c, spends supplied cmd = false -> RC c (card_transmit cmd c).2).
Context (HRS : forall v st, RS st (put_select_response v st)).
Local Notation session := (io (PivSession C) (PivError (PcscError C))).
Local Notation keeps := (io_respects (kept RC RS)).
Ltac keep_raw :=
  lazymatch goal with
  | |- io_respects _ (transmit_full_raw _) => apply (raw_kept supplied); [apply _|apply _|exact HRC|harmless]
  | |- io_respects _ (set_state (put_select_response _)) => apply kept_set_state; [apply _|apply HRS]
  | |- io_respects _ (io_modify (with_selected _)) => apply kept_selected; apply _
  end.
Ltac keep := repeat first [keep_step | keep_raw].

Lemma kept_select : keeps (select : session unit).
Proof using HRC HRS PreOrder0 PreOrder1. unfold select. keep. Qed.
Lemma kept_reselect : keeps (reselect : session unit).
Proof using HRC HRS PreOrder0 PreOrder1. unfold reselect. keep. apply kept_select. Qed.
Lemma kept_then_reselect {A} (m : session A) : keeps m -> keeps (then_reselect m).
Proof using HRC HRS PreOrder0 PreOrder1. intros Hm. unfold then_reselect. keep; [exact Hm|apply kept_reselect]. Qed.
Lemma kept_ensure : keeps (ensure_selected : session unit).
Proof using HRC HRS PreOrder0 PreOrder1. unfold ensure_selected. keep. apply kept_select. Qed.
Lemma kept_full apdu : spends supplied apdu = false -> keeps (transmit_full apdu : session _).
Proof using HRC HRS PreOrder0 PreOrder1. intros Hs. unfold transmit_full. keep. apply kept_ensure. Qed.
Lemma kept_raw_answer apdu : spends supplied apdu = false -> keeps (raw_answer apdu : session _).
Proof using HRC HRS PreOrder0 PreOrder1. intros Hs. unfold raw_answer. keep. Qed.
Lemma kept_answer apdu : spends supplied apdu = false -> keeps (answer apdu : session _).
Proof using HRC HRS PreOrder0 PreOrder1. intros Hs. unfold answer. keep. by apply kept_full. Qed.
Lemma kept_selects aid ok : keeps (selects aid ok : session bool).
Proof using HRC HRS PreOrder0 PreOrder1. unfold selects. keep. Qed.
Lemma kept_say label text : keeps (say label text : session unit).
Proof using HRC HRS PreOrder0 PreOrder1. unfold say. keep. Qed.
Ltac keep2 := repeat first [keep_step | keep_raw |
  lazymatch goal with
  | |- io_respects _ (raw_answer _) => apply kept_raw_answer; reflexivity
  | |- io_respects _ (selects _ _) => apply kept_selects
  | |- io_respects _ reselect => apply kept_reselect
  | |- io_respects _ (then_reselect _) => apply kept_then_reselect
  | |- io_respects _ (say _ _) => apply kept_say
  end].

Lemma kept_cplc : keeps (probe_hid_crescendo_cplc_serial : session _).
Proof using HRC HRS PreOrder0 PreOrder1. unfold probe_hid_crescendo_cplc_serial. keep2. Qed.
Lemma kept_token2 : keeps (probe_token2_otp_serial : session _).
Proof using HRC HRS PreOrder0 PreOrder1.
  unfold probe_token2_otp_serial. keep_step; [|keep2]. intros s. unfold Token2Session.read_otp_applet_serial.
  destruct (select_by_aid _) as [sel|] eqn:Es; [|cbn; reflexivity]. destruct Token2Otp.read_serial_request as [req|] eqn:Er; [|cbn; reflexivity].
  assert (spends supplied req = false) as Hreq by (by vm_compute in Er; injection Er as <-).
  pose proof (raw_kept supplied RC RS HRC sel (harmless_select _ _ _ Es) s) as H1. destruct (transmit_full_raw sel s) as [[[? sw]|e] s1]; [|exact H1].
  destruct (negb _); [exact H1|]. pose proof (raw_kept supplied RC RS HRC req Hreq s1) as H2. destruct (transmit_full_raw req s1) as [[[? sw2]|e] s2]; etransitivity; eassumption.
Qed.
Lemma kept_swissbit_management a b : keeps (probe_swissbit_management a b : session _).
Proof using HRC HRS PreOrder0 PreOrder1. unfold probe_swissbit_management. keep2. Qed.
Lemma kept_card_manager : keeps (probe_swissbit_card_manager : session _).
Proof using HRC HRS PreOrder0 PreOrder1. unfold probe_swissbit_card_manager. keep2. Qed.
Lemma kept_rid aid ok : keeps (probe_rid aid ok : session _).
Proof using HRC HRS PreOrder0 PreOrder1. unfold probe_rid. keep2. Qed.
Lemma kept_nitrokey id v : keeps (probe_nitrokey_admin id v : session _).
Proof using HRC HRS PreOrder0 PreOrder1. unfold probe_nitrokey_admin. keep2. Qed.
Lemma kept_probed : keeps (probed_fingerprint : session _).
Proof using HRC HRS PreOrder0 PreOrder1. unfold probed_fingerprint, probe_swissbit_rid, probe_feitian_rid, probe_idprime_aid. keep2; apply kept_rid. Qed.
Lemma kept_version : keeps (version : session _).
Proof using HRC HRS PreOrder0 PreOrder1. unfold version. keep2. by apply kept_answer. Qed.
Lemma kept_serial : keeps (serial : session _).
Proof using HRC HRS PreOrder0 PreOrder1. unfold serial. keep2. by apply kept_answer. Qed.

Lemma kept_aca_select : keeps (aca_select : session unit).
Proof using HRC HRS PreOrder0 PreOrder1. unfold aca_select. keep2. Qed.
Lemma kept_aca_xauth key : keeps (aca_xauth_unlock block key : session unit).
Proof using HRC HRS PreOrder0 PreOrder1. unfold aca_xauth_unlock. keep2. Qed.
Lemma kept_aca_pin pin : keeps (verify_pin_hid_crescendo_aca pin : session unit).
Proof using HRC HRS PreOrder0 PreOrder1. unfold verify_pin_hid_crescendo_aca. keep2. Qed.
Lemma kept_aca_unlock cur : keeps (aca_unlock block cur : session unit).
Proof using HRC HRS PreOrder0 PreOrder1. unfold aca_unlock. keep2; [apply kept_aca_xauth|apply kept_aca_pin]. Qed.
Lemma kept_authenticate_aca key : keeps (authenticate_management_hid_crescendo_aca block key : session unit).
Proof using HRC HRS PreOrder0 PreOrder1. unfold authenticate_management_hid_crescendo_aca. keep2; [apply kept_aca_select|apply kept_aca_xauth]. Qed.
Lemma kept_restore key : keeps (restore_factory_key key : session _).
Proof using HRC HRS PreOrder0 PreOrder1. unfold restore_factory_key. keep2. apply kept_aca_pin. Qed.
End applets.

(** ** Everything else *)

Definition any_state : relation PivSessionState := fun _ _ => True.
#[export] Instance any_state_pre : PreOrder any_state.
Proof. split; by repeat intro. Qed.

Create HintDb kept.
Section session.
Context {C : Type} `{PcscCard C}.
Context (block : MgmtAlg -> CryptOp -> list Z -> list Z -> list Z) (sha256 sha384 sha512 : list Z -> list Z).
Context (compress_to_vec : list Z -> list Z) (decompress_to_vec_with_limit : list Z -> Z -> result TINFLStatus (list Z)).
Context (supplied : option CurrentMgmtAuth) (RC : relation C) `{!PreOrder RC}.
Context (HRC : forall cmd c, spends supplied cmd = false -> RC c (card_transmit cmd c).2).
Local Notation session := (io (PivSession C) (PivError (PcscError C))).
Local Notation keeps := (io_respects (kept RC any_state)).
Let HRS : forall v st, any_state st (put_select_response v st) := fun _ _ => I.
Ltac keep_known :=
  lazymatch goal with
  | |- io_respects _ (transmit_full_raw _) => apply (raw_kept supplied RC any_state HRC); harmless
  | |- io_respects _ (transmit_full _) => apply (kept_full supplied RC any_state HRC HRS); harmless
  | |- io_respects _ (answer _) => apply (kept_answer supplied RC any_state HRC HRS); harmless
  | |- io_respects _ (set_state _) => apply kept_set_state; [apply _|done]
  | |- io_respects _ (say _ _) => apply (kept_say supplied RC any_state HRC HRS)
  | |- io_respects _ (io_modify (with_selected _)) => apply kept_selected; apply _
  end.
Ltac keep := repeat first [keep_step | keep_known | solve [auto 1 with kept nocore]].

Lemma kept_select' : keeps (select : session _).
Proof using HRC PreOrder0. apply (kept_select supplied RC any_state HRC HRS). Qed.
Lemma kept_probed' : keeps (probed_fingerprint : session _).
Proof using HRC PreOrder0. apply (kept_probed supplied RC any_state HRC HRS). Qed.
Lemma kept_version' : keeps (version : session _).
Proof using HRC PreOrder0. apply (kept_version supplied RC any_state HRC HRS). Qed.
Lemma kept_serial' : keeps (serial : session _).
Proof using HRC PreOrder0. apply (kept_serial supplied RC any_state HRC HRS). Qed.
Lemma kept_nitrokey' id v : keeps (probe_nitrokey_admin id v : session _).
Proof using HRC PreOrder0. apply (kept_nitrokey supplied RC any_state HRC HRS). Qed.
Lemma kept_cplc' : keeps (probe_hid_crescendo_cplc_serial : session _).
Proof using HRC PreOrder0. apply (kept_cplc supplied RC any_state HRC HRS). Qed.
Lemma kept_token2' : keeps (probe_token2_otp_serial : session _).
Proof using HRC PreOrder0. apply (kept_token2 supplied RC any_state HRC HRS). Qed.
Lemma kept_swissbit' a b : keeps (probe_swissbit_management a b : session _).
Proof using HRC PreOrder0. apply (kept_swissbit_management supplied RC any_state HRC HRS). Qed.
Lemma kept_card_manager' : keeps (probe_swissbit_card_manager : session _).
Proof using HRC PreOrder0. apply (kept_card_manager supplied RC any_state HRC HRS). Qed.
#[local] Hint Resolve kept_select' kept_probed' kept_version' kept_serial' kept_nitrokey' kept_cplc' kept_token2' kept_swissbit' kept_card_manager' : kept.

Lemma kept_properties variant : keeps (hid_crescendo_properties_raw variant : session _).
Proof using HRC PreOrder0. unfold hid_crescendo_properties_raw. keep. Qed.
#[local] Hint Resolve kept_properties : kept.
Lemma kept_hid_version variant : keeps (hid_crescendo_version variant : session _).
Proof using HRC PreOrder0. unfold hid_crescendo_version. keep. Qed.
#[local] Hint Resolve kept_hid_version : kept.
Lemma kept_fingerprint : keeps (applet_fingerprint : session _).
Proof using HRC PreOrder0. unfold applet_fingerprint. keep. Qed.
#[local] Hint Resolve kept_fingerprint : kept.
Lemma kept_fp : keeps (PivSession.fingerprint : session _).
Proof using HRC PreOrder0. unfold fingerprint. keep. Qed.
#[local] Hint Resolve kept_fp : kept.
Lemma kept_quirks : keeps (quirks : session _).
Proof using HRC PreOrder0. unfold quirks. keep. Qed.
#[local] Hint Resolve kept_quirks : kept.
Lemma kept_gate x : keeps (extension_gate x : session _).
Proof using HRC PreOrder0. unfold extension_gate. keep. Qed.
#[local] Hint Resolve kept_gate : kept.
Lemma kept_refresh : keeps (refresh : session _).
Proof using HRC PreOrder0. unfold refresh. keep. Qed.
#[local] Hint Resolve kept_refresh : kept.
Lemma kept_read_allowed x w : keeps (internal_read_allowed x w : session _).
Proof using HRC PreOrder0. unfold internal_read_allowed. keep. Qed.
#[local] Hint Resolve kept_read_allowed : kept.
Lemma kept_apdu_id a : keeps (apdu_id a : session _).
Proof using HRC PreOrder0. unfold apdu_id. keep. Qed.
#[local] Hint Resolve kept_apdu_id : kept.
Lemma kept_alg_id a : keeps (alg_of_apdu_id a : session _).
Proof using HRC PreOrder0. unfold alg_of_apdu_id. keep. Qed.
#[local] Hint Resolve kept_alg_id : kept.
Lemma kept_metadata_reply k : keeps (metadata_reply k : session _).
Proof using HRC PreOrder0. unfold metadata_reply. keep. Qed.
#[local] Hint Resolve kept_metadata_reply : kept.
Lemma kept_metadata k : keeps (metadata k : session _).
Proof using HRC PreOrder0. unfold metadata. keep. Qed.
#[local] Hint Resolve kept_metadata : kept.
Lemma kept_resolve slot : keeps (resolve_slot_from_device slot : session _).
Proof using HRC PreOrder0. unfold resolve_slot_from_device. keep. Qed.
#[local] Hint Resolve kept_resolve : kept.
Lemma kept_cached_key slot : keeps (cached_slot_key slot : session _).
Proof using HRC PreOrder0. unfold cached_slot_key. keep. Qed.
#[local] Hint Resolve kept_cached_key : kept.
Lemma kept_confirmed_key slot : keeps (confirmed_slot_key slot : session _).
Proof using HRC PreOrder0. unfold confirmed_slot_key. keep. Qed.
#[local] Hint Resolve kept_confirmed_key : kept.
Lemma kept_hid_algs v : keeps (hid_crescendo_slot_key_algorithms v : session _).
Proof using HRC PreOrder0. unfold hid_crescendo_slot_key_algorithms. keep. Qed.
#[local] Hint Resolve kept_hid_algs : kept.
Lemma kept_hid_reports v : keeps (hid_crescendo_reports_management_key v : session _).
Proof using HRC PreOrder0. unfold hid_crescendo_reports_management_key. keep. Qed.
#[local] Hint Resolve kept_hid_reports : kept.
Lemma kept_hid_alg slot : keeps (hid_crescendo_slot_algorithm slot : session _).
Proof using HRC PreOrder0. unfold hid_crescendo_slot_algorithm. keep. Qed.
#[local] Hint Resolve kept_hid_alg : kept.
Lemma kept_presence slot : keeps (slot_key_presence slot : session _).
Proof using HRC PreOrder0. unfold slot_key_presence. keep. Qed.
#[local] Hint Resolve kept_presence : kept.
Lemma kept_attest slot : keeps (attest slot : session _).
Proof using HRC PreOrder0. unfold attest. keep. Qed.
#[local] Hint Resolve kept_attest : kept.
Lemma kept_policy slot : keeps (slot_policy slot : session _).
Proof using HRC PreOrder0. unfold slot_policy, policy_cached. keep. Qed.
#[local] Hint Resolve kept_policy : kept.
Lemma kept_reported_alg : keeps (reported_management_key_algorithm : session _).
Proof using HRC PreOrder0. unfold reported_management_key_algorithm. keep. Qed.
#[local] Hint Resolve kept_reported_alg : kept.
Lemma kept_probe_alg a : keeps (probe_mgmt_alg a : session _).
Proof using HRC PreOrder0. unfold probe_mgmt_alg. keep. Qed.
#[local] Hint Resolve kept_probe_alg : kept.
Lemma kept_probe_all l : keeps (probe_all l : session _).
Proof using HRC PreOrder0. induction l as [|a l IH]; cbn [probe_all]; keep. Qed.
#[local] Hint Resolve kept_probe_all : kept.
Lemma kept_resolve_alg n : keeps (resolve_management_key_algorithm n : session _).
Proof using HRC PreOrder0. unfold resolve_management_key_algorithm, hint_still_picked. keep. Qed.
#[local] Hint Resolve kept_resolve_alg : kept.
Lemma kept_aca_holds : keeps (aca_holds_key : session _).
Proof using HRC PreOrder0. unfold aca_holds_key. keep. Qed.
#[local] Hint Resolve kept_aca_holds : kept.
Lemma kept_authenticate alg key : keeps (authenticate_management block alg key : session _).
Proof using HRC PreOrder0. unfold authenticate_management. keep. apply (kept_authenticate_aca block supplied RC any_state HRC HRS). Qed.
#[local] Hint Resolve kept_authenticate : kept.
Lemma kept_pin_retries : keeps (pin_retries : session _).
Proof using HRC PreOrder0. unfold pin_retries. keep. Qed.
#[local] Hint Resolve kept_pin_retries : kept.
Lemma kept_chuid : keeps (read_chuid : session _).
Proof using HRC PreOrder0. unfold read_chuid. keep. Qed.
#[local] Hint Resolve kept_chuid : kept.
Lemma kept_cert slot : keeps (cert_object decompress_to_vec_with_limit slot : session _).
Proof using HRC PreOrder0. unfold cert_object. keep. Qed.
#[local] Hint Resolve kept_cert : kept.
Lemma kept_slot_status slot : keeps (slot_status decompress_to_vec_with_limit slot : session _).
Proof using HRC PreOrder0. unfold slot_status. keep. Qed.
#[local] Hint Resolve kept_slot_status : kept.
Lemma kept_chuid_default : keeps (chuid_or_default : session _).
Proof using HRC PreOrder0. unfold chuid_or_default. keep. Qed.
#[local] Hint Resolve kept_chuid_default : kept.
Lemma kept_slot_detail slot : keeps (slot_detail decompress_to_vec_with_limit slot : session _).
Proof using HRC PreOrder0. unfold slot_detail. keep. Qed.
#[local] Hint Resolve kept_slot_detail : kept.
Lemma kept_each {A B} (f : A -> session B) l : (forall a, keeps (f a)) -> keeps (for_each f l).
Proof using HRC PreOrder0. intros Hf. induction l as [|a l IH]; cbn [for_each]; keep. Qed.
Lemma kept_status : keeps (status decompress_to_vec_with_limit : session _).
Proof using HRC PreOrder0. unfold status. keep. apply kept_each. auto with kept. Qed.
Lemma kept_status_detailed : keeps (status_detailed decompress_to_vec_with_limit : session _).
Proof using HRC PreOrder0. unfold status_detailed. keep. apply kept_each. auto with kept. Qed.
Lemma kept_verify_supplied pin : supplied = Some (AuthPin pin) -> keeps (verify_pin pin : session _).
Proof using HRC PreOrder0. intros Hs. unfold verify_pin. keep. Qed.
Lemma kept_via_pin pin : supplied = Some (AuthPin pin) -> keeps (authenticate_management_via_pin block pin : session _).
Proof using HRC PreOrder0. intros Hs. unfold authenticate_management_via_pin. keep; by apply kept_verify_supplied. Qed.
Lemma kept_current cur : supplied = Some cur -> keeps (authenticate_management_current block cur : session _).
Proof using HRC PreOrder0. intros Hs. unfold authenticate_management_current. destruct cur as [key|pin]; [keep|by apply kept_via_pin]. Qed.
Lemma kept_reset pre : keeps (PivSession.reset pre : session _).
Proof using HRC PreOrder0. unfold reset. keep. Qed.
#[local] Hint Resolve kept_reset : kept.
Lemma kept_plan : keeps (plan_factory_reset : session _).
Proof using HRC PreOrder0. unfold plan_factory_reset. keep. Qed.
#[local] Hint Resolve kept_plan : kept.
Lemma kept_aca_reset cur : keeps (hid_crescendo_aca_reset_card block cur : session _).
Proof using HRC PreOrder0.
  unfold hid_crescendo_aca_reset_card. keep. apply (kept_then_reselect supplied RC any_state HRC HRS).
  keep; [apply (kept_aca_select supplied RC any_state HRC HRS)|apply (kept_aca_unlock block supplied RC any_state HRC HRS)|apply (kept_restore supplied RC any_state HRC HRS)].
Qed.
Lemma kept_bare wrap pre : keeps (bare_reset wrap pre : session _).
Proof using HRC PreOrder0. unfold bare_reset. keep. Qed.
Lemma kept_preview : keeps (preview_factory_reset : session _).
Proof using HRC PreOrder0. unfold preview_factory_reset, reset_global_gate. keep. Qed.
End session.

(** ** With the identity known *)

Section known.
Context {C : Type} `{PcscCard C} (block : MgmtAlg -> CryptOp -> list Z -> list Z -> list Z).
Context (decompress_to_vec_with_limit : list Z -> Z -> result TINFLStatus (list Z)).
Definition same_identity : relation PivSessionState := fun st st' => st_identity st = st_identity st'.
#[local] Instance same_identity_pre : PreOrder same_identity.
Proof. split; [done|intros a b c; unfold same_identity; congruence]. Qed.
Definition gate_of (x : PivExtension) (r : AppletFingerprintResult) : FeatureGate := resolve x (id_fingerprint r) (id_version r) (id_version_firmware r).
Definition quirks_of (r : AppletFingerprintResult) : list PivQuirk := resolve_quirks (id_fingerprint r) (id_version r) (id_version_firmware r).

Lemma fingerprint_known (s : PivSession C) r : st_identity (v_state s) = Some r -> applet_fingerprint s = (Ok r, s).
Proof. intros Hr. unfold applet_fingerprint, get_state. io_step. by rewrite Hr. Qed.
Lemma gate_known (s : PivSession C) r x : st_identity (v_state s) = Some r -> extension_gate x s = (Ok (gate_of x r), s).
Proof. intros Hr. unfold extension_gate. by rewrite (io_bind_Ok_eq _ _ _ _ _ (fingerprint_known s r Hr)). Qed.
Lemma quirks_known (s : PivSession C) r : st_identity (v_state s) = Some r -> quirks s = (Ok (quirks_of r), s).
Proof. intros Hr. unfold quirks. by rewrite (io_bind_Ok_eq _ _ _ _ _ (fingerprint_known s r Hr)). Qed.
Lemma plan_known (s : PivSession C) r : st_identity (v_state s) = Some r -> plan_factory_reset s =
  (Ok (match gate_of XReset r with
       | Unsupported => PlanUnsupported
       | Unverified => PlanUnverified
       | Supported => if has_quirk QResetNeedsManagementAuth (quirks_of r) then NeedsManagementAuth else BurnPinPukThenReset
       end), s).
Proof.
  intros Hr. unfold plan_factory_reset. rewrite (io_bind_Ok_eq _ _ _ _ _ (gate_known s r XReset Hr)). destruct (gate_of XReset r); try done.
  by rewrite (io_bind_Ok_eq _ _ _ _ _ (quirks_known s r Hr)).
Qed.

Context (supplied : option CurrentMgmtAuth) (RC : relation C) `{!PreOrder RC}.
Context (HRC : forall cmd c, spends supplied cmd = false -> RC c (card_transmit cmd c).2).
Local Notation the_card s := (card (v_world s)).
(** The device-wide reset leaves what is known of the applet. *)
Lemma aca_reset_known (s : PivSession C) r cur : st_identity (v_state s) = Some r ->
  let s' := (hid_crescendo_aca_reset_card block cur s).2 in RC (the_card s) (the_card s') /\ st_identity (v_state s') = Some r.
Proof using HRC PreOrder0.
  intros Hr s'. subst s'. unfold hid_crescendo_aca_reset_card. rewrite (io_bind_Ok_eq _ _ _ _ _ (quirks_known s r Hr)). cbv zeta. set (key := default _ _).
  set (m := then_reselect _). assert (io_respects (kept RC same_identity) m) as Hm; [|destruct (Hm s) as [H1 H2]; split; [exact H1|by rewrite <- H2]].
  assert (forall v st, same_identity st (put_select_response v st)) as HRS by done.
  apply (kept_then_reselect supplied RC same_identity HRC HRS). apply io_respects_bind; [apply _|by apply (kept_aca_select supplied RC same_identity HRC HRS)|intros _].
  apply io_respects_bind; [apply _|by apply (kept_aca_unlock block supplied RC same_identity HRC HRS)|intros _].
  apply io_respects_bind; [apply _|by apply (raw_kept supplied RC same_identity HRC)|intros [data sw]].
  apply kept_lift_bind; [apply _..|intros _ _]. by apply (kept_restore supplied RC same_identity HRC HRS).
Qed.
(** The one plan that blocks the PIN and the PUK. *)
Definition burns (r : AppletFingerprintResult) : bool :=
  match gate_of XReset r with Supported => negb (has_quirk QResetNeedsManagementAuth (quirks_of r)) | _ => false end.
Lemma planned_known (s : PivSession C) r : st_identity (v_state s) = Some r -> burns r = false ->
  RC (the_card s) (the_card (reset_as_planned block decompress_to_vec_with_limit supplied s).2).
Proof using HRC PreOrder0.
  intros Hr Hb. unfold reset_as_planned. rewrite (io_bind_Ok_eq _ _ _ _ _ (plan_known s r Hr)). unfold burns in Hb. destruct (gate_of XReset r).
  - apply negb_false_iff in Hb. rewrite Hb. destruct supplied as [cur|]; [|cbn; reflexivity]. cbn [ok_or]. io_step.
    apply (kept_map_err RC any_state). apply io_respects_bind; [apply _|by apply (kept_current block (Some cur) RC HRC)|intros _].
    apply io_respects_bind; [apply _|by apply (kept_reset (Some cur) RC HRC)|intros _; apply io_respects_ret, _].
  - by apply (kept_bare supplied RC HRC).
  - cbn. reflexivity.
Qed.
End known.

(** C12: resetting, looking and asking spend no PIN or PUK try unless the tables say they
    must. Take anything of a card that only a wrong VERIFY of the PIN, a CHANGE REFERENCE DATA
    or a RESET RETRY COUNTER may change (say, its retry counters). On a session that knows what
    applet it talks to: a factory reset leaves it as it was, the VERIFY of the credential the
    caller gave apart, whenever the tables do not list RESET as supported for that applet and
    its firmware, or list it as needing the management key; so does the plain PIV reset when
    RESET is not listed as supported, even forced; the plan and the preview of a reset and both
    status reads do so whatever the tables say. And where a credential is needed (the tables
    may know a device-wide reset, or list RESET as needing the management key) but was not
    given, the factory reset is refused with the card not touched at all. *)
Theorem piv_reset_spares_pin {C} `{PcscCard C} (block : MgmtAlg -> CryptOp -> list Z -> list Z -> list Z)
    (inflate : list Z -> Z -> result TINFLStatus (list Z)) (supplied : option CurrentMgmtAuth) (RC : relation C) (s : PivSession C)
    (r : AppletFingerprintResult) :
  PreOrder RC -> (forall cmd c, spends supplied cmd = false -> RC c (card_transmit cmd c).2) -> st_identity (v_state s) = Some r ->
  let spares {A} (m : io (PivSession C) (PivError (PcscError C)) A) := RC (card (v_world s)) (card (v_world (m s).2)) in
  (burns r = false -> spares (factory_reset block inflate supplied)) /\
  (forall force, gate_of XReset r <> Supported -> spares (force_reset_if_known_supported inflate supplied force)) /\
  spares plan_factory_reset /\ spares preview_factory_reset /\ spares (status inflate) /\ spares (status_detailed inflate) /\
  (supplied = None ->
   gate_of XResetGlobal r <> Unsupported \/ (gate_of XReset r = Supported /\ has_quirk QResetNeedsManagementAuth (quirks_of r) = true) ->
   factory_reset block inflate supplied s = (Err PivResetNeedsManagementAuth, s)).
Proof.
  intros Hpre HRC Hr spares. pose proof (fun A (m : io (PivSession C) (PivError (PcscError C)) A) (Hm : io_respects (kept RC any_state) m) => proj1 (Hm s)) as Hany.
  split_and!.
  - intros unless_burns. subst spares. cbv beta. unfold factory_reset, reset_global_gate. rewrite (io_bind_Ok_eq _ _ _ _ _ (gate_known s r XResetGlobal Hr)).
    case_bool_decide; [by apply planned_known with r|]. destruct supplied as [cur|]; [|cbn; reflexivity]. cbn [ok_or]. io_step.
    destruct (aca_reset_known block (Some cur) RC HRC s r cur Hr) as [H1 H2]. unfold tried, mbind, io_bind.
    destruct (hid_crescendo_aca_reset_card block cur s) as [[o|e] s1]; [exact H1|]. case_bool_decide; [|exact H1].
    etransitivity; [exact H1|]. by apply planned_known with r.
  - intros force Hg. subst spares. cbv beta. unfold force_reset_if_known_supported. rewrite (io_bind_Ok_eq _ _ _ _ _ (gate_known s r XReset Hr)).
    destruct (gate_of XReset r); [done|..]; cbn [reset_route]; [|destruct force]; try (by apply Hany, (kept_bare supplied RC HRC)); cbn; reflexivity.
  - by apply Hany, (kept_plan supplied RC HRC).
  - by apply Hany, (kept_preview supplied RC HRC).
  - by apply Hany, (kept_status inflate supplied RC HRC).
  - by apply Hany, (kept_status_detailed inflate supplied RC HRC).
  - intros -> Hneed. unfold factory_reset, reset_global_gate. rewrite (io_bind_Ok_eq _ _ _ _ _ (gate_known s r XResetGlobal Hr)).
    case_bool_decide as Hu; [|done]. destruct Hneed as [Hneed|[Hg Hq]]; [done|]. unfold reset_as_planned. rewrite (io_bind_Ok_eq _ _ _ _ _ (plan_known s r Hr)).
    by rewrite Hg, Hq.
Qed.

(** A card that counts down with every command that may, and knows no other. *)
Definition counting_card : PcscCard Z :=
  {| PcscError := list Z; pcsc_kind := fun _ => OtherPcsc; pcsc_text := id;
     card_transmit := fun cmd n => if spends None cmd then (Ok [0x63; 0xC0], n - 1) else (Ok [0x6D; 0x00], n) |}.
Definition known_session (f : AppletFingerprint) (v : option (list Z)) : PivSession Z :=
  mkPiv (mkWorld 3 None []) false false false [] [] true (put_identity (mkIdentity f [] v v None) default_state).
Lemma piv_reset_spares_pin_witness :
  let s := known_session (HidCrescendo C4000) None in
  factory_reset (H := counting_card) (fun _ _ _ b => b) (fun d _ => Ok d) None s = (Err PivResetNeedsManagementAuth, s) /\
  card (v_world (status_detailed (H := counting_card) (fun d _ => Ok d) s).2) = 3 /\
  let y := known_session YubiKey (Some (s2b "5.7.1")) in
  burns (mkIdentity YubiKey [] (Some (s2b "5.7.1")) (Some (s2b "5.7.1")) None) = true /\
  card (v_world (status (H := counting_card) (fun d _ => Ok d) y).2) = 3.
Proof.
  assert (forall cmd (n : Z), spends None cmd = false -> n = (@card_transmit Z counting_card cmd n).2) as HRC by (intros cmd n Hs; cbn; by rewrite Hs).
  destruct (piv_reset_spares_pin (H := counting_card) (fun _ _ _ b => b) (fun d _ => Ok d) None eq (known_session (HidCrescendo C4000) None)
    (mkIdentity (HidCrescendo C4000) [] None None None) _ HRC eq_refl) as (_ & _ & _ & _ & _ & Hd & Hn).
  split; [apply Hn; [done|by left]|]. split; [by rewrite <- Hd|].
  destruct (piv_reset_spares_pin (H := counting_card) (fun _ _ _ b => b) (fun d _ => Ok d) None eq (known_session YubiKey (Some (s2b "5.7.1")))
    (mkIdentity YubiKey [] (Some (s2b "5.7.1")) (Some (s2b "5.7.1")) None) _ HRC eq_refl) as (_ & _ & _ & _ & Hs & _).
  split; [reflexivity|by rewrite <- Hs].
Defined.
