(* ===== verification/ImportToken2.v ===== *)
(** keyroost-transport/src/import.rs, the Token2 side: the commands an import
    needs of a key, when its PIN is sent again, the destination over a session,
    and what a whole import leaves on the reference key of Token2Key. *)
From S2P Require Import ImportStore.
From S2P Require Import Token2Key.

Definition sw_hex (sw : Z) : list Z := hex_upper (sw / 256) ++ hex_upper (sw mod 256).

(** * Answers *)

Inductive Token2Answer := TOk | TFull | TPinWindow | TPinBlocked | TOther (sw : Z).
#[export] Instance Token2Answer_eq_dec : EqDecision Token2Answer.
Proof. solve_decision. Defined.

Definition token2_answer (sw : Z) : Token2Answer :=
  if sw =? OK then TOk
  else if sw =? NOT_ENOUGH_SPACE then TFull
  else if (sw =? PIN_INVALID) || (sw =? PIN_CONDITIONS_NOT_SATISFIED) then TPinWindow
  else if sw =? PIN_LOCKED then TPinBlocked
  else TOther sw.

(** The three commands an import needs. *)
Class Token2Io (S : Type) := {
  tio_write : WriteEntry -> option (list Z) -> io S OtpTransportError unit;
  tio_delete : list Z -> list Z -> option (list Z) -> io S OtpTransportError unit;
  tio_verify_pin : list Z -> io S OtpTransportError unit
}.

#[export] Instance session_token2_io {T} `{OtpTransport T} `{PinCrypto} : Token2Io (Token2OtpSession T) := {
  tio_write := write_entry_pinned;
  tio_delete := delete_entry_pinned;
  tio_verify_pin := verify_pin
}.

Definition token2_stored_name (name : StoredName) : result StoreError (list Z * list Z) :=
  match name with
  | NToken2 app account => Ok (app, account)
  | _ => Err (SFailed (s2b "this entry has no Token2 name to store it under"))
  end.

Definition token2_write_entry (app account : list Z) (e : ImportEntry) (touch : bool) : result StoreError WriteEntry :=
  algorithm ← match e_hash e with
              | ImportEntry.Sha1 => Ok Sha1
              | ImportEntry.Sha256 => Ok Sha256
              | ImportEntry.Sha512 => Err (SFailed (s2b "this Token2 key doesn't take SHA-512 codes"))
              end;
  '(otp_type, timestep) ← match e_kind e with
                          | ImportEntry.Totp period =>
                              if between 0 0xFFFF period then Ok (Totp, period)
                              else Err (SFailed (s2b "this Token2 key doesn't take a " ++ dec period ++ s2b " s period"))
                          | ImportEntry.Hotp _ => Ok (Hotp, 30)
                          end;
  Ok (mkWrite otp_type algorithm timestep (e_digits e) touch app account (e_secret e)).

Definition token2_classify (r : result OtpTransportError unit) : result StoreError Token2Answer :=
  match r with
  | Ok _ => Ok TOk
  | Err (XApplet e) => Ok (token2_answer (status_word e))
  | Err XPinRequired => Ok TPinWindow
  | Err other => Err (SFailed (otp_transport_error_text other))
  end.

Definition TOKEN2_PIN_BLOCKED : list Z := s2b "the key's OTP PIN is blocked".
Definition TOKEN2_PIN_WINDOW_CLOSED : list Z :=
  s2b "the key closed its OTP PIN window; nothing more was sent, so no PIN attempt was used. Run the import again.".

(** What the first answer ends the command with, before anything is classified:
    a wrong PIN. *)
Definition wrong_pin_said (pin : option (list Z)) (proven : bool) (first : result OtpTransportError unit) : option StoreError :=
  let held := negb (bool_decide (pin = None)) in
  match first with
  | Err (XApplet PinInvalid) => if negb proven && held then Some (SFailed (otp_error_text PinInvalid)) else None
  | Err (XApplet (PinInvalidRetries n)) => Some (SFailed (otp_error_text (PinInvalidRetries n)))
  | _ => None
  end.

Section token2_io.
Context {S : Type} `{Token2Io S}.

Definition verify_failed (e : OtpTransportError) : StoreError :=
  match e with
  | XApplet a => if bool_decide (token2_answer (status_word a) = TPinBlocked) then SFailed TOKEN2_PIN_BLOCKED
                 else SFailed (otp_transport_error_text e)
  | other => SFailed (otp_transport_error_text other)
  end.

(** The command and its answer as a value, for the code that looks at it. *)
Definition answer_of (send : io S OtpTransportError unit) : io S StoreError (result OtpTransportError unit) := fun s =>
  let '(r, s') := send s in (Ok r, s').

(** The flag [proven] goes in and comes out with the result, whatever it is. *)
Definition token2_with_pin (pin : option (list Z)) (proven : bool) (send : io S OtpTransportError unit) :
    S -> result StoreError unit * bool * S := fun s =>
  let '(first, s) := send s in
  match wrong_pin_said pin proven first with
  | Some e => (Err e, proven, s)
  | None =>
      match token2_classify first with
      | Err e => (Err e, proven, s)
      | Ok a =>
          let '(a, s) :=
            if bool_decide (a = TPinWindow) then
              (p ← lift (ok_or (SFailed (s2b "the key asks for its OTP PIN")) pin);
               if negb proven then lift (Err (SFailed TOKEN2_PIN_WINDOW_CLOSED)) else
               _ ← io_map_err verify_failed (tio_verify_pin p);
               r ← answer_of send;
               lift (token2_classify r)) s
            else (Ok a, s) in
          match a with
          | Err e => (Err e, proven, s)
          | Ok a =>
              (match a with
               | TOk => Ok tt
               | TFull => Err SFull
               | TPinWindow => Err (SFailed (s2b "the key asked for its OTP PIN again and refused it"))
               | TPinBlocked => Err (SFailed TOKEN2_PIN_BLOCKED)
               | TOther sw => Err (SFailed (s2b "the key refused it (status " ++ sw_hex sw ++ s2b ")"))
               end,
               proven || (bool_decide (a = TOk) && negb (bool_decide (pin = None))), s)
          end
      end
  end.

(** A result that needs no command. *)
Definition without_command {A} (proven : bool) (r : result StoreError A) (f : A -> S -> result StoreError unit * bool * S) :
    S -> result StoreError unit * bool * S := fun s =>
  match r with Ok a => f a s | Err e => (Err e, proven, s) end.

Definition token2_add (pin : option (list Z)) (proven : bool) (name : StoredName) (e : ImportEntry) (touch : bool) :
    S -> result StoreError unit * bool * S :=
  without_command proven (token2_stored_name name) (fun '(app, account) =>
    without_command proven (token2_write_entry app account e touch) (fun w => token2_with_pin pin proven (tio_write w pin))).

Definition token2_delete (pin : option (list Z)) (proven : bool) (name : StoredName) : S -> result StoreError unit * bool * S :=
  without_command proven (token2_stored_name name) (fun '(app, account) => token2_with_pin pin proven (tio_delete app account pin)).

(** ** The destination *)

Record Token2ImportStore := mkToken2Store { ts_session : S; ts_pin : option (list Z); ts_proven : bool }.

Definition on_store (f : S -> result StoreError unit * bool * S) : io Token2ImportStore StoreError unit := fun t =>
  let '(r, proven, s) := f (ts_session t) in (r, mkToken2Store s (ts_pin t) proven).

#[export] Instance token2_store : CodeStore Token2ImportStore := {
  store_add name e touch t := on_store (token2_add (ts_pin t) (ts_proven t) name e touch) t;
  store_delete name t := on_store (token2_delete (ts_pin t) (ts_proven t) name) t
}.
End token2_io.
Arguments Token2ImportStore : clear implicits.
Arguments mkToken2Store {S} _ _ _.
Arguments ts_session {S} _.
Arguments ts_pin {S} _.
Arguments ts_proven {S} _.

(** A typed PIN the session has verified counts as proven. *)
Definition token2_store_new {T} `{OtpTransport T} `{PinCrypto} (s : Token2OtpSession T) (pin : option (list Z)) :
    Token2ImportStore (Token2OtpSession T) :=
  mkToken2Store s pin (negb (bool_decide (pin = None)) && os_typed_pin_verified s).

(** [now]: seconds since 1970, 0 when the clock is before it. *)
Definition read_token2_existing {T} `{OtpTransport T} `{PinCrypto} (now : option Z) (pin : option (list Z)) :
    io (Token2OtpSession T) OtpTransportError Existing :=
  entries ← enumerate_pinned (default 0 now) pin;
  mret (mkExisting (map (fun e => NToken2 (Token2Entry.e_app e) (Token2Entry.e_account e)) entries) 0).

(** * When the PIN is sent again *)

(** A key whose commands are written down, with their answers. *)
Inductive KeyCommand := KWrite (e : WriteEntry) | KDelete (app account : list Z).
Inductive KeyEvent := ECommand (c : KeyCommand) (r : result OtpTransportError unit) | EVerify (p : list Z) (r : result OtpTransportError unit).
Record Logged (S : Type) := mkLogged { lg_key : S; lg_events : list KeyEvent }.
Arguments mkLogged {S} _ _.
Arguments lg_key {S} _.
Arguments lg_events {S} _.

Definition writing_down {S} (event : result OtpTransportError unit -> KeyEvent) (m : io S OtpTransportError unit) :
    io (Logged S) OtpTransportError unit := fun l =>
  let '(r, s) := m (lg_key l) in (r, mkLogged s (lg_events l ++ [event r])).
#[export] Instance logged_io {S} `{Token2Io S} : Token2Io (Logged S) := {
  tio_write e pin := writing_down (ECommand (KWrite e)) (tio_write e pin);
  tio_delete app account pin := writing_down (ECommand (KDelete app account)) (tio_delete app account pin);
  tio_verify_pin p := writing_down (EVerify p) (tio_verify_pin p)
}.

(** An answer that says the command was done, or that the PIN window is closed. *)
Definition went (r : result OtpTransportError unit) : Prop := token2_classify r = Ok TOk.
Definition window_closed (r : result OtpTransportError unit) : Prop := token2_classify r = Ok TPinWindow.
Definition held (pin : option (list Z)) : bool := negb (bool_decide (pin = None)).

(** What the key may see of an import with a PIN, and whether that PIN has
    worked: commands that go through; at most one that does not, the last; and
    where a command says the window is closed, the PIN once more and that command
    once more, if the PIN had worked before. *)
Inductive import_log (pin : option (list Z)) : bool -> list KeyEvent -> Prop :=
  | log_end proven : import_log pin proven []
  | log_went proven c r log : went r -> import_log pin (proven || held pin) log -> import_log pin proven (ECommand c r :: log)
  | log_refused proven c r : ~ went r -> import_log pin proven [ECommand c r]
  | log_pin_refused c r p e : window_closed r -> pin = Some p -> import_log pin true [ECommand c r; EVerify p (Err e)]
  | log_again c r p r' log : window_closed r -> pin = Some p -> went r' -> import_log pin true log ->
      import_log pin true (ECommand c r :: EVerify p (Ok tt) :: ECommand c r' :: log)
  | log_again_refused c r p r' : window_closed r -> pin = Some p -> ~ went r' ->
      import_log pin true [ECommand c r; EVerify p (Ok tt); ECommand c r'].

(** What one call adds: to a log that may go on, or to one that ends here. *)
Definition call_log (pin : option (list Z)) (proven proven' : bool) (new : list KeyEvent) (ok : bool) : Prop :=
  if ok then forall log, import_log pin proven' log -> import_log pin proven (new ++ log)
  else import_log pin proven new.

Lemma wrong_pin_not_went pin proven r e : wrong_pin_said pin proven r = Some e -> ~ went r.
Proof.
  unfold went. destruct r as [|[]]; try done. destruct e0 as [| | | | | | |n| | |]; try done. intros _ [= Hx]. unfold token2_answer in Hx.
  destruct (_ =? OK) eqn:Ho; [|by repeat case_match]. bools. apply (f_equal (fun z => Z.testbit z 8)) in Ho. cbn [status_word] in Ho.
  by rewrite Z.lor_spec in Ho.
Qed.

(** The Token2 side never says that a name is there. *)
Lemma wrong_pin_failed pin proven r e : wrong_pin_said pin proven r = Some e -> e <> SExists.
Proof. destruct r as [|[]]; cbn; try done. intros H ->. by repeat case_match. Qed.
Lemma classify_failed r e : token2_classify r = Err e -> e <> SExists.
Proof. destruct r as [|[]]; cbn; intros Hx; by simplify_eq. Qed.
Lemma verify_not_there e : verify_failed e <> SExists.
Proof. destruct e; cbn; try done. by case_bool_decide. Qed.

Lemma with_pin_not_there {S} `{Token2Io S} pin proven send (s : S) : (token2_with_pin pin proven send s).1.1 <> Err SExists.
Proof.
  unfold token2_with_pin. destruct (send s) as [first s1]. destruct (wrong_pin_said _ _ _) eqn:Hw.
  { cbn. intros [= ->]. by apply wrong_pin_failed in Hw. }
  destruct (token2_classify first) as [a|err] eqn:Ha; [|cbn; intros [= ->]; by apply classify_failed in Ha].
  case_bool_decide; [|by destruct a]. unfold mbind, io_bind, io_map_err, answer_of, lift.
  destruct pin as [p|]; [|done]. cbn [ok_or]. destruct proven; [|done]. cbn [negb]. destruct (tio_verify_pin p s1) as [[[]|e] s2]; cbn [map_err].
  - destruct (send s2) as [r s3]. destruct (token2_classify r) as [a'|err] eqn:Hr; [by destruct a'|].
    cbn. intros [= ->]. by apply classify_failed in Hr.
  - cbn. intros [= He]. by apply verify_not_there in He.
Qed.
Lemma add_not_there {S} `{Token2Io S} n e touch (t : Token2ImportStore S) : (store_add n e touch t).1 <> Err SExists.
Proof.
  cbn [store_add token2_store]. unfold on_store, token2_add, without_command.
  destruct n as [|ap ac|]; try done. cbn [token2_stored_name]. unfold token2_write_entry.
  destruct (match e_hash e with ImportEntry.Sha1 => _ | _ => _ end) as [a|err] eqn:Ha; cbn [mbind result_bind]; [|destruct (e_hash e); by simplify_eq].
  destruct (match e_kind e with ImportEntry.Totp _ => _ | _ => _ end) as [[ty step]|err] eqn:Hk; cbn [mbind result_bind];
    [|destruct (e_kind e); try case_match; by simplify_eq].
  pose proof (with_pin_not_there (ts_pin t) (ts_proven t)
    (tio_write (mkWrite ty a step (e_digits e) touch ap ac (e_secret e)) (ts_pin t)) (ts_session t)) as Hn.
  by destruct (token2_with_pin _ _ _ _) as [[r pr] s].
Qed.

Section discipline.
Context {S : Type} `{Token2Io S}.
Local Notation L := (Logged S).

(** A command of the store, which the log shows as [c]. *)
Definition logs_as (c : KeyCommand) (send : io L OtpTransportError unit) : Prop :=
  forall l, exists r s, send l = (r, mkLogged s (lg_events l ++ [ECommand c r])).

Lemma with_pin_log pin proven c send l : logs_as c send ->
  let '(r, proven', l') := token2_with_pin pin proven send l in
  exists new, lg_events l' = lg_events l ++ new /\ call_log pin proven proven' new (is_ok r).
Proof.
  intros Hs. unfold token2_with_pin. destruct (Hs l) as (first & s1 & ->).
  destruct (wrong_pin_said pin proven first) as [e|] eqn:Hw.
  { exists [ECommand c first]. split; [done|]. apply log_refused. by eapply wrong_pin_not_went. }
  destruct (token2_classify first) as [a|e] eqn:Ha.
  2:{ exists [ECommand c first]. split; [done|]. apply log_refused. unfold went. by rewrite Ha. }
  destruct (decide (a = TPinWindow)) as [->|Hn].
  - rewrite bool_decide_eq_true_2 by done. destruct pin as [p|].
    2:{ exists [ECommand c first]. split; [done|]. apply log_refused. unfold went. by rewrite Ha. }
    erewrite io_bind_Ok_eq by reflexivity. destruct proven; cbn [negb].
    2:{ exists [ECommand c first]. split; [done|]. apply log_refused. unfold went. by rewrite Ha. }
    unfold mbind at 1, io_bind at 1, io_map_err at 1. cbn [tio_verify_pin logged_io]. unfold writing_down. cbn [lg_key lg_events].
    destruct (tio_verify_pin p s1) as [[[]|e] s2]; cbn [map_err].
    2:{ eexists. rewrite <- app_assoc. split; [done|]. by apply log_pin_refused. }
    unfold mbind, io_bind, answer_of. destruct (Hs (mkLogged s2 ((lg_events l ++ [ECommand c first]) ++ [EVerify p (Ok tt)]))) as (r' & s3 & ->).
    cbn [lg_events]. unfold lift. destruct (token2_classify r') as [a|e] eqn:Hr.
    + exists [ECommand c first; EVerify p (Ok tt); ECommand c r']. rewrite <- !app_assoc.
      destruct a; (split; [done|]); cbn; try (apply log_again_refused; [done..|]; unfold went; by rewrite Hr).
      intros log. by apply log_again.
    + exists [ECommand c first; EVerify p (Ok tt); ECommand c r']. rewrite <- !app_assoc. split; [done|].
      apply log_again_refused; [done..|]. unfold went. by rewrite Hr.
  - rewrite bool_decide_eq_false_2 by done. exists [ECommand c first].
    destruct a; (split; [done|]); try (apply log_refused; unfold went; by rewrite Ha).
    cbn. intros log. by apply log_went.
Qed.

(** The log of a whole run: each row adds what one command does, and the first
    that fails is the last. *)
Definition store_log (t t' : Token2ImportStore L) (ok : bool) : Prop :=
  ts_pin t' = ts_pin t /\ exists new, lg_events (ts_session t') = lg_events (ts_session t) ++ new /\
    call_log (ts_pin t) (ts_proven t) (ts_proven t') new ok.

Lemma add_log n e touch t : let '(r, t') := store_add n e touch t in store_log t t' (is_ok r).
Proof.
  cbn [store_add token2_store]. unfold on_store, token2_add, without_command.
  assert (forall err : StoreError, store_log t (mkToken2Store (ts_session t) (ts_pin t) (ts_proven t)) false) as Hsame.
  { intros _. split; [done|]. exists []. rewrite app_nil_r. split; [done|constructor]. }
  destruct (token2_stored_name n) as [[app acct]|err]; [|by apply Hsame].
  destruct (token2_write_entry app acct e touch) as [w|err]; [|by apply Hsame].
  pose proof (with_pin_log (ts_pin t) (ts_proven t) (KWrite w) (tio_write w (ts_pin t)) (ts_session t)) as Hl.
  destruct (token2_with_pin _ _ _ _) as [[r proven] s]. destruct Hl as (new & Hn & Hc); [|by split; [|exists new]].
  intros l. cbn. unfold writing_down. destruct (tio_write w (ts_pin t) (lg_key l)) as [r' s']. by eexists _, _.
Qed.

Lemma write_one_log file p row t : let '(o, stop, t') := write_one file p row t in store_log t t' (bool_decide (stop = None)).
Proof.
  assert (store_log t t false) as Hsame by (split; [done|exists []; rewrite app_nil_r; split; [done|constructor]]).
  unfold write_one. destruct (r_name row) as [n|]; [|done]. destruct (row_entry file row) as [e|]; [|done].
  pose proof (add_log n e (r_touch row) t) as Hl. pose proof (add_not_there n e (r_touch row) t) as Hx.
  destruct (store_add n e (r_touch row) t) as [[[]|[]] t']; cbn [is_ok fst] in *; done.
Qed.

Lemma run_rows_rest {K} `{CodeStore K} file p st rows (k : K) :
  exists out, run_rows file p rows (Some st) k = (out, Some st, k) /\ snd <$> out = replicate (length rows) (stop_rest st).
Proof.
  induction rows as [|row rows (out & He & Ho)]; [by exists []|]. cbn [run_rows]. rewrite He. eexists. split; [done|]. cbn. by f_equal.
Qed.

Lemma run_log file p rows t : let '(_, _, t') := run_rows file p rows None t in
  ts_pin t' = ts_pin t /\ exists log, lg_events (ts_session t') = lg_events (ts_session t) ++ log /\ import_log (ts_pin t) (ts_proven t) log.
Proof.
  revert t. induction rows as [|row rows IH]; intros t; cbn [run_rows].
  { split; [done|]. exists []. rewrite app_nil_r. split; [done|constructor]. }
  pose proof (write_one_log file p row t) as Hw. destruct (write_one file p row t) as [[o stop] t1]. destruct Hw as (Hp & new & Hn & Hc).
  destruct stop as [st|].
  - destruct (run_rows_rest file p st rows t1) as (out & -> & _). split; [done|]. by exists new.
  - specialize (IH t1). destruct (run_rows file p rows None t1) as [[out stop] t2]. destruct IH as (Hp2 & log & Hl & Hi).
    rewrite Hp in *. split; [done|]. exists (new ++ log). rewrite Hl, Hn, app_assoc. split; [done|]. by apply Hc.
Qed.
End discipline.

(** * What an import leaves on the key *)

Definition write_of (app account : list Z) (e : ImportEntry) (touch : bool) : WriteEntry :=
  mkWrite (match e_kind e with ImportEntry.Totp _ => Totp | ImportEntry.Hotp _ => Hotp end)
    (match e_hash e with ImportEntry.Sha1 => Sha1 | _ => Sha256 end)
    (match e_kind e with ImportEntry.Totp period => period | ImportEntry.Hotp _ => 30 end)
    (e_digits e) touch app account (e_secret e).

(** The write a row is for. *)
Definition row_write (file : ImportFile) (row : PlanRow) (w : WriteEntry) : Prop :=
  exists app account e, r_name row = Some (NToken2 app account) /\ row_entry file row = Some e /\
    token2_write_entry app account e (r_touch row) = Ok w /\ w = write_of app account e (r_touch row) /\
    write_allowed w /\ is_word 16 (w_timestep w) /\ Bytes (w_app w) /\ Bytes (w_account w).

Lemma ascii_text_forall s : is_ascii_text s = true -> Forall (fun b => b < 0x80) s.
Proof. apply is_ascii_iff. Qed.

Lemma named_token2 target e n : t_store target = Token2Otp -> named target e n ->
  e_issuer e <> Some [] -> ImportEntry.e_account e <> Some [] ->
  Bytes (default [] (e_issuer e)) -> Bytes (default [] (ImportEntry.e_account e)) ->
  exists app account, n = NToken2 app account /\ ascii_within 0 app /\ ascii_within 1 account /\ Bytes app /\ Bytes account.
Proof.
  unfold named. intros -> H Hi Ha Hbi Hba. rewrite bool_decide_eq_false_2 in H by done. unfold name_for in H.
  inv_bind H. destruct a as [app account]. destruct (_ || _) eqn:Hasc in H; [done|]. bools. do 2 inv_bind H. injection H as <-.
  exists app, account. split; [done|]. cbn [limits name_max check_length] in Hb0, Hb1.
  destruct (64 <? zlen app) eqn:Hl1; [done|]. destruct (64 <? zlen account) eqn:Hl2; [done|]. bools.
  pose proof (zlen_nonneg app). pose proof (zlen_nonneg account).
  assert (account <> [] /\ Bytes app /\ Bytes account) as (Hne & ? & ?).
  { unfold token2_name in Hb. destruct (e_issuer e) as [i|], (ImportEntry.e_account e) as [ac|]; cbn in *; simplify_eq; (split; [congruence|by split]). }
  split; [split; [lia|by apply ascii_text_forall]|]. split; [|done]. split; [|by apply ascii_text_forall].
  destruct account as [|b account]; [done|]. pose proof (zlen_nonneg account). zlen. lia.
Qed.

Lemma planned_writes file target wants :
  t_store target = Token2Otp -> 0 <= t_first_slot target -> NoDup (i_index <$> f_items file) -> Forall ImportStore.entry_bytes (f_items file) ->
  exists ws, Forall2 (row_write file) (plan_writes (set_touch (plan file target) wants)) ws.
Proof.
  intros Hs H0 Hidx Hfile. pose proof (planned_ready file target wants H0 Hidx) as Hready.
  induction Hready as [|row rows (n & e & Hn & He & Hc & Hnamed) Hready (ws & IH)]; [exists []; constructor|].
  enough (exists w, row_write file row w) as [w Hw] by (exists (w :: ws); by constructor).
  destruct (row_entry_bytes file row e Hfile He) as (i & Hi & Hb). unfold ImportStore.entry_bytes in Hb. rewrite Hi in Hb.
  destruct Hb as ((Hlen & _ & _ & Hni & Hna) & Hsec & Hbi & Hba & _). destruct (named_token2 target e n) as (app & account & -> & Ha & Hac & Hb1 & Hb2); [done..|].
  apply check_params_ok in Hc as (Hh & Hd & _ & Hk & Hm). rewrite Hs in Hh, Hd, Hk, Hm. cbn in Hh, Hd, Hk, Hm.
  exists (write_of app account e (r_touch row)), app, account, e. split; [done|]. split; [done|].
  assert (match e_kind e with ImportEntry.Totp p => 1 <= p <= 65535 | _ => True end) as Hk' by (by destruct (e_kind e)).
  assert (is_word 16 (w_timestep (write_of app account e (r_touch row)))) as Hw by (cbn; unfold is_word; destruct (e_kind e); lia).
  split; [|split; [done|split; [|done]]].
  - unfold token2_write_entry, write_of. unfold SHA1_256 in Hh. rewrite !elem_of_cons, elem_of_nil in Hh.
    destruct Hh as [-> |[-> |[]]]; cbn [mbind result_bind]; destruct (e_kind e) as [per|c]; cbn [mbind result_bind]; try done;
      unfold between; by rewrite (proj2 (Z.leb_le 0 per)), (proj2 (Z.leb_le per _)) by lia.
  - split; [|split; [|split; [|split]]]; cbn; try done; try lia. destruct (e_kind e); [intros _; lia|done].
Qed.

(** What a key with room for some entries holds after writes in turn: how many
    went in, and the entries then. *)
Fixpoint stored_until_full `{KeyMake} (ws : list WriteEntry) (es : list WriteEntry) : nat * list WriteEntry :=
  match ws with
  | [] => (0%nat, es)
  | w :: ws =>
      if negb (has_name (w_app w) (w_account w) es) && (km_capacity <=? zlen es) then (0%nat, es)
      else let '(n, es) := stored_until_full ws (upsert w es) in (Datatypes.S n, es)
  end.
Definition row_outcome (row : PlanRow) : Outcome := if is_replace (r_verdict row) then Replaced else Added.

Section applied.
Context `{PinCryptoLaws} `{KeyMakeLaws}.
Local Notation S := (Token2OtpSession OtpKey).

(** The PIN opens the key, if it needs opening. *)
Definition opens (pin : option (list Z)) (st : Store) : Prop :=
  blocked st = false /\ (st_pin st = None \/ st_pin st = pin).

Lemma opens_unlock pin st : opens pin st ->
  exists st', spec_unlock pin st = (Ok tt, st') /\ st_entries st' = st_entries st /\ opens pin st'.
Proof.
  intros [Hb Hp]. unfold spec_unlock. rewrite Hb.
  destruct (st_pin st) as [p|] eqn:Hs; [|exists st; unfold opens; rewrite Hs; auto]. destruct Hp as [|<-]; [done|].
  unfold proof_matches. rewrite bool_decide_eq_true_2 by done. eexists. split; [done|]. unfold opens. cbn. auto.
Qed.
Lemma opens_closed pin st : opens pin st ->
  exists st', spec_unlock_closed pin st = (Ok tt, st') /\ st_entries st' = st_entries st /\ opens pin st'.
Proof. intros Ho. unfold spec_unlock_closed. destruct (st_open st); [by exists st|by apply opens_unlock]. Qed.

Lemma write_applied w data pin (s : S) : in_step s -> opens pin (abs s) ->
  is_word 16 (w_timestep w) -> Bytes (w_app w) -> Bytes (w_account w) -> serialize_write_entry w = Ok data ->
  exists s', in_step s' /\ opens pin (abs s') /\
    if negb (has_name (w_app w) (w_account w) (st_entries (abs s))) && (km_capacity <=? zlen (st_entries (abs s)))
    then write_entry_pinned w pin s = (Err (XApplet NotEnoughSpace), s') /\ st_entries (abs s') = st_entries (abs s)
    else write_entry_pinned w pin s = (Ok tt, s') /\ st_entries (abs s') = upsert w (st_entries (abs s)).
Proof.
  intros Hi Ho Ht Hba Hbc Hd. destruct (write_sim w pin s) as (Hr & Ha & Hi'); [done..|].
  destruct (opens_closed pin (abs s) Ho) as (st' & Hu & He & Ho'). unfold spec_write in Hr, Ha. rewrite Hd in Hr, Ha.
  unfold mbind, io_bind in Hr, Ha. rewrite Hu in Hr, Ha. cbn [map_err lift] in Hr, Ha. unfold spec_store in Hr, Ha. rewrite He in Hr, Ha.
  exists (write_entry_pinned w pin s).2. split; [done|]. destruct (write_entry_pinned w pin s) as [r s']. cbn [fst snd] in *.
  destruct (_ && _); cbn [fst snd] in Hr, Ha; subst r; rewrite Ha; by split.
Qed.

Lemma rows_applied file p rows ws : Forall2 (row_write file) rows ws -> forall pin proven (s : S), in_step s -> opens pin (abs s) ->
  let '(out, stop, t) := run_rows file p rows None (mkToken2Store s pin proven) in
  let '(n, es) := stored_until_full ws (st_entries (abs s)) in
  snd <$> out = (row_outcome <$> take n rows) ++ replicate (length rows - n) ONoRoom /\
  stop_reason <$> stop = (if (n <? length rows)%nat then Some (store_error_text SFull) else None) /\
  st_entries (abs (ts_session t)) = es /\ ts_pin t = pin /\ in_step (ts_session t) /\ opens pin (abs (ts_session t)).
Proof.
  induction 1 as [|row w rows ws Hw Hrows IH]; intros pin proven s Hi Ho; cbn [run_rows stored_until_full]; [done|].
  destruct Hw as (app & account & e & Hn & He & Htw & Hweq & Hal & Hwd & Hb1 & Hb2).
  destruct (token2_write_read w Hwd Hb1 Hb2) as (Hok & _). apply Hok in Hal. destruct (serialize_write_entry w) as [data|] eqn:Hd; [|done].
  destruct (write_applied w data pin s) as (s' & Hi' & Ho' & Hwr); [done..|].
  unfold write_one. rewrite Hn, He. cbn [store_add token2_store]. unfold on_store. cbn [ts_pin ts_proven ts_session]. unfold token2_add, without_command.
  cbn [token2_stored_name]. rewrite Htw. unfold token2_with_pin. cbn [tio_write session_token2_io].
  destruct (negb _ && _) eqn:Hfull; destruct Hwr as [-> Hes]; cbn [wrong_pin_said token2_classify status_word].
  - change (token2_answer NOT_ENOUGH_SPACE) with TFull. rewrite bool_decide_eq_false_2 by done. cbv beta iota. unfold run_full. cbv beta iota.
    match goal with |- context [run_rows file p rows (Some ?st) ?t] => destruct (run_rows_rest file p st rows t) as (out & -> & Hout) end.
    cbn [ts_session ts_pin]. rewrite Hes, Nat.sub_0_r. cbn. by rewrite Hout.
  - rewrite bool_decide_eq_false_2 by done. cbv beta iota. fold (row_outcome row).
    match goal with |- context [mkToken2Store s' pin ?pr] => specialize (IH pin pr s' Hi' Ho') end.
    destruct (run_rows file p rows None _) as [[out stop] t]. rewrite Hes in IH.
    destruct (stored_until_full ws _) as [n es]. destruct IH as (Hout & Hstop & Hrest). cbn. split; [by f_equal|]. by split.
Qed.

Definition names_of (es : list WriteEntry) : list StoredName := map (fun w => NToken2 (w_app w) (w_account w)) es.

Lemma read_applied now pin (s : S) : is_word 64 (default 0 now) -> in_step s -> opens pin (abs s) ->
  exists s', read_token2_existing now pin s = (Ok (mkExisting (names_of (st_entries (abs s))) 0), s') /\
    in_step s' /\ opens pin (abs s') /\ st_entries (abs s') = st_entries (abs s).
Proof.
  intros Ht Hi Ho. destruct (list_sim (default 0 now) pin s Ht Hi) as (Hr & Ha & Hi'). cbn [session_op spec_op] in *.
  destruct (opens_unlock pin (abs s) Ho) as (st' & Hu & He & Ho'). unfold mbind, io_bind, io_gets in Hr, Ha. rewrite Hu in Hr, Ha. cbn [fst snd] in Hr, Ha.
  unfold read_token2_existing, mbind, io_bind. destruct (enumerate_pinned _ pin s) as [res s']. cbn [fst snd] in *. subst res st'. exists s'.
  unfold names_of. rewrite He, map_map. done.
Qed.
End applied.

(** * Properties *)

(** C5: an import spends no PIN attempt it need not. Whatever the key answers,
    what it sees of a run is the log of [import_log]: the PIN is sent again only
    when a command says its window is closed and the PIN has worked before, that
    command follows once more at most, and the first command that does not go
    through ends the import; so a wrong PIN is never sent twice. Only the PIN that
    was given is ever sent, and every time it is, a command before has gone
    through (or the session had verified it when the import began). The exchange
    of a PIN with the key is the session's (one PIN proof each time, inside
    [tio_write]). *)
Theorem import_token2_pin_once {S : Type} `{Token2Io S} (file : ImportFile) (p : Plan) (s : S) (pin : option (list Z)) (proven : bool) :
  let '(_, t) := run file p (mkToken2Store (mkLogged s []) pin proven) in
  import_log pin proven (lg_events (ts_session t)) /\
  (forall before q r after, lg_events (ts_session t) = before ++ EVerify q r :: after ->
     pin = Some q /\ (proven = true \/ exists c r0, ECommand c r0 ∈ before /\ went r0) /\
     exists before' c r0, before = before' ++ [ECommand c r0] /\ window_closed r0).
Proof.
  unfold run. rewrite run_fold. pose proof (run_log file p (plan_writes p) (mkToken2Store (mkLogged s []) pin proven)) as Hl.
  destruct (run_rows file p (plan_writes p) None _) as [[out stop] t]. destruct Hl as (_ & log & -> & Hlog). cbn in *.
  split; [done|]. clear -Hlog. induction Hlog as [proven|proven c r log Hw Hlog IH|proven c r|c r p e Hw Hp|c r p r' log Hw Hp Hw' Hlog IH|c r p r' Hw Hp];
    intros before q r0 after He.
  - by destruct before.
  - destruct before as [|ev before]; [done|]. injection He as <- He. destruct (IH _ _ _ _ He) as (Hq & Hx & b' & c' & r1 & -> & Hwc).
    split; [done|]. split; [|by exists (ECommand c r :: b'), c', r1]. right. exists c, r. split; [constructor|done].
  - destruct before as [|ev [|]]; done.
  - destruct before as [|ev [|ev' [|]]]; try done. injection He as <- <- _ _. split; [done|]. split; [by left|]. by exists [], c, r.
  - destruct before as [|ev [|ev1 [|ev2 before]]]; try done.
    + injection He as <- <- _ _. split; [done|]. split; [by left|]. by exists [], c, r.
    + injection He as <- <- <- He. destruct (IH _ _ _ _ He) as (Hq & _ & b' & c' & r1 & -> & Hwc).
      split; [done|]. split; [by left|]. by exists (ECommand c r :: EVerify p (Ok tt) :: ECommand c r' :: b'), c', r1.
  - destruct before as [|ev [|ev1 [|ev2 [|]]]]; try done. injection He as <- <- _ _. split; [done|]. split; [by left|]. by exists [], c, r.
Qed.

(** C4: an import into a Token2 key leaves on it what the plan says. For a key just
    plugged in that needs no PIN or is given the right one, reading its names,
    planning a file against them and running the plan stores the planned entries
    in order until the key is full: every row is built into a command the key
    accepts, with the entry's kind, hash, period, digits, names and secret and the
    touch that was asked for; an entry of that name is replaced in place and no
    other changes; the report says added or replaced for the rows that are on the
    key and no room for the rest; and reading the names again gives the key's. *)
Theorem import_token2_applied `{PinCryptoLaws} `{KeyMakeLaws} (k : OtpKey) (is_pcsc : bool) (r : Random) (pin : option (list Z)) (now : option Z)
    (file : ImportFile) (first_slot : Z) (replace : bool) (wants : PlanRow -> bool) :
  plugged_in k -> (forall n, zlen (rnd_iv r n) = 16) -> k_pin k = None \/ k_pin k = pin /\ k_tries k <> 0 ->
  is_word 64 (default 0 now) -> 0 <= first_slot -> NoDup (i_index <$> f_items file) -> Forall ImportStore.entry_bytes (f_items file) ->
  exists s existing ws, read_token2_existing now pin (wrap k is_pcsc r) = (Ok existing, s) /\ ex_names existing = names_of (k_entries k) /\
  let p := set_touch (plan file (mkTarget Token2Otp first_slot existing replace)) wants in
  Forall2 (row_write file) (plan_writes p) ws /\
  let '(report, t) := run file p (token2_store_new s pin) in
  let '(n, es) := stored_until_full ws (k_entries k) in
  k_entries (os_transport (ts_session t)) = es /\
  snd <$> rp_rows report = (row_outcome <$> take n (plan_writes p)) ++ replicate (length (plan_writes p) - n) ONoRoom /\
  rp_stopped report = (if (n <? length (plan_writes p))%nat then Some (store_error_text SFull) else None) /\
  (read_token2_existing now pin (ts_session t)).1 = Ok (mkExisting (names_of es) 0).
Proof.
  intros [Hs Hc Ht Hst Hr] Hiv Hp Hnow Hslot Hidx Hfile. set (s0 := wrap k is_pcsc r).
  assert (in_step s0) as Hi by (split; cbn; try done; by rewrite Hc).
  assert (opens pin (abs s0)) as Ho.
  { unfold opens, blocked. cbn. destruct Hp as [-> |[-> Hz]]; [by rewrite bool_decide_eq_true_2; auto|].
    rewrite (proj2 (Z.eqb_neq _ _) Hz), andb_false_r. auto. }
  destruct (read_applied now pin s0 Hnow Hi Ho) as (s & Hread & Hi1 & Ho1 & He1).
  exists s, (mkExisting (names_of (k_entries k)) 0).
  destruct (planned_writes file (mkTarget Token2Otp first_slot (mkExisting (names_of (k_entries k)) 0) replace) wants) as [ws Hws]; [done..|].
  exists ws. split; [exact Hread|]. split; [done|]. cbv zeta. split; [exact Hws|]. unfold run. rewrite run_fold. unfold token2_store_new.
  set (p := set_touch _ wants) in *. match goal with |- context [mkToken2Store s pin ?pr] => pose proof (rows_applied file p _ ws Hws pin pr s Hi1 Ho1) as Hrun end.
  destruct (run_rows file p (plan_writes p) None _) as [[out stop] t]. rewrite He1 in Hrun. change (st_entries (abs s0)) with (k_entries k) in Hrun.
  destruct (stored_until_full ws (k_entries k)) as [n es]. destruct Hrun as (Hout & Hstop & Hes & _ & Hi2 & Ho2).
  cbn [rp_rows rp_stopped app]. split; [done|]. split; [done|]. split; [done|].
  destruct (read_applied now pin (ts_session t) Hnow Hi2 Ho2) as (s2 & -> & _). by rewrite Hes.
Qed.

Definition pin_key : OtpKey := mkKey [entry_30] (Some (s2b "431907")) 100 toy_device None false [].
Lemma import_token2_applied_witness :
  exists s existing ws, read_token2_existing (Some 59) (Some (s2b "431907")) (wrap pin_key false toy_random) = (Ok existing, s) /\
    ex_names existing = names_of [entry_30] /\
    let p := set_touch (plan run_file (mkTarget Token2Otp 0 existing true)) (fun _ => false) in
    Forall2 (row_write run_file) (plan_writes p) ws /\ 
    k_entries (os_transport (ts_session (run run_file p (token2_store_new s (Some (s2b "431907")))).2)) = (stored_until_full ws [entry_30]).2.
Proof.
  destruct (import_token2_applied pin_key false toy_random (Some (s2b "431907")) (Some 59) run_file 0 true (fun _ => false))
    as (s & ex & ws & Hr & Hn & Hw & Hrun).
  - split; by_decision.
  - intros n. cbn [rnd_iv toy_random]. unfold zlen. by rewrite length_replicate.
  - right. split; [done|by_decision].
  - by_decision.
  - done.
  - by_decision.
  - repeat constructor; cbn; try done; unfold is_byte; try lia; try (vm_compute; discriminate); by_decision.
  - exists s, ex, ws. split; [exact Hr|]. split; [exact Hn|]. split; [exact Hw|].
    destruct (run _ _ _) as [rep t], (stored_until_full ws _) as [n es]. destruct Hrun as [He _]. exact He.
Defined.
