(* ===== verification/UsbTree.v ===== *)
(** keyroost-hid/src/devtree.rs and the device record of keyroost-hid/src/lib.rs:
    the evidence of which physical USB device a FIDO node or a reader belongs to, and
    the fail-closed reading of a Windows ancestor chain. *)
From S2P Require Export Keyring Trace.

Inductive UsbDeviceKey := BusAddr (bus addr : Z) | WinNode (id : list Z).
#[export] Instance UsbDeviceKey_eq_dec : EqDecision UsbDeviceKey.
Proof. solve_decision. Defined.

Definition from_bus_addr (bus addr : option Z) : option UsbDeviceKey :=
  match bus, addr with Some b, Some a => Some (BusAddr b a) | _, _ => None end.
Definition win_node (instance_id : list Z) : UsbDeviceKey := WinNode (to_ascii_uppercase instance_id).

(** [matches!((a, b), (Some(x), Some(y)) if x == y)]. *)
Definition same_usb_device (a b : option UsbDeviceKey) : bool :=
  match a, b with Some x, Some y => bool_decide (x = y) | _, _ => false end.

Record HidDevice := mkHid {
  h_path : list Z; h_vendor_id : Z; h_product_id : Z; h_product_name : list Z; h_usage_page : Z; h_usage : Z;
  h_serial_number : option (list Z); h_usb_device : option UsbDeviceKey }.

Definition HID_USAGE_PAGE_FIDO : Z := 0xF1D0.
Definition is_fido (h : HidDevice) : bool := h_usage_page h =? HID_USAGE_PAGE_FIDO.
Definition KNOWN_BOOTLOADERS : list (Z * Z * list Z) := [(0x1209, 0xB000, s2b "Solo 2 / Nitrokey 3 in bootloader/DFU mode")].
Definition bootloader_label (h : HidDevice) : option (list Z) :=
  snd <$> List.find (fun '(vid, pid, _) => (vid =? h_vendor_id h) && (pid =? h_product_id h)) KNOWN_BOOTLOADERS.

(** * Ancestor chains *)

Definition REJECTED_ENUMERATORS : list (list Z) := [s2b "BTHENUM"; s2b "BTHLEDEVICE"; s2b "ROOT"; s2b "SWD"].
Definition MAX_DEPTH : nat := 3.

Inductive Level := UsbDevice | UsbInterface | RootHub | UsbOther | Rejected | Malformed | OtherLevel.
#[export] Instance Level_eq_dec : EqDecision Level.
Proof. solve_decision. Defined.

Definition classify (id : list Z) : Level :=
  match split_on 92 id with
  | [enumerator; device; inst] =>
      if bool_decide (enumerator = []) || bool_decide (device = []) || bool_decide (inst = []) then Malformed
      else if bool_decide (enumerator ∈ REJECTED_ENUMERATORS) then Rejected
      else if negb (bool_decide (enumerator = s2b "USB")) then OtherLevel
      else if starts_with (s2b "ROOT_HUB") device then RootHub
      else if negb (starts_with (s2b "VID_") device) then UsbOther
      else if contains (s2b "&MI_") device then UsbInterface
      else UsbDevice
  | _ => Malformed
  end.

Definition refusal (level : Level) : list Z :=
  match level with
  | RootHub => s2b "reached a USB root hub"
  | UsbOther => s2b "unrecognized USB node"
  | Rejected => s2b "Bluetooth, virtual or software node"
  | Malformed => s2b "malformed instance ID"
  | OtherLevel => s2b "more than one non-USB level"
  | UsbDevice | UsbInterface => s2b "unexpected chain shape"
  end.

Definition usb_device_node_checked (chain : list (list Z)) : result (list Z) (list Z) :=
  match chain with
  | [] => Err (s2b "empty chain")
  | _ =>
      let up := to_ascii_uppercase <$> take MAX_DEPTH chain in
      let i := if bool_decide (classify <$> up !! O = Some OtherLevel) then 1%nat else O in
      match up !! i with
      | None => Err (s2b "chain ends before a USB node")
      | Some node =>
          match classify node with
          | UsbDevice => Ok node
          | UsbInterface =>
              match up !! S i with
              | None => Err (s2b "USB interface with no USB device parent")
              | Some parent =>
                  match classify parent with
                  | UsbDevice => Ok parent
                  | UsbInterface => Err (s2b "USB interface with no USB device parent")
                  | other => Err (refusal other)
                  end
              end
          | other => Err (refusal other)
          end
      end
  end.
Definition usb_device_node (chain : list (list Z)) : option (list Z) := result_ok (usb_device_node_checked chain).

(** * Traces *)

Definition clean_ctl (s : list Z) : list Z := utf8_encode ((fun c => if is_control c then 63 else c) <$> chars s).

(** [id.rsplit_once('\\')]. *)
Definition rsplit_once (c : Z) (s : list Z) : option (list Z * list Z) :=
  (fun i => (take i s, drop (S i) s)) <$> rfind_byte c s.
Definition shown_id (id : list Z) : list Z :=
  let id := clean_ctl id in
  match rsplit_once 92 id with
  | Some (head, inst) => head ++ [92] ++ abbreviate inst
  | None => abbreviate id
  end.

Fixpoint joined (sep : list Z) (l : list (list Z)) : list Z :=
  match l with [] => [] | [x] => x | x :: r => x ++ sep ++ joined sep r end.
Definition devtree_trace_lines (subject : list Z) (chain : option (list (list Z))) : list Z * list Z :=
  let subject := clean_ctl subject in
  let '(shown, decision) :=
    match chain with
    | None => (s2b "none", s2b "no node: lookup failed")
    | Some c =>
        (joined (s2b " < ") (shown_id <$> c),
         match usb_device_node_checked c with
         | Ok node => s2b "node " ++ shown_id node
         | Err why => s2b "no node: " ++ why
         end)
    end in
  (format_line Note (s2b "devtree") (subject ++ s2b ": chain " ++ shown),
   format_line Note (s2b "devtree") (subject ++ s2b ": " ++ decision)).

(** The key for a node whose chain is [chain]; the trace it may print is
    [devtree_trace_lines]. *)
Definition win_node_from_chain (chain : option (list (list Z))) : option UsbDeviceKey :=
  win_node <$> (chain ≫= usb_device_node).

(** * The same device *)

Lemma same_usb_device_iff a b : same_usb_device a b = true <-> exists x, a = Some x /\ b = Some x.
Proof.
  destruct a as [x|], b as [y|]; cbn; rewrite ?bool_decide_eq_true; naive_solver.
Qed.
Lemma same_usb_device_sym a b : same_usb_device a b = same_usb_device b a.
Proof. destruct a, b; try done. cbn. by apply bool_decide_ext. Qed.
