(* ===== verification/Match.v ===== *)
(** keyroost-resolve: which smart-card reader belongs to which FIDO node. The
    serial attribution of lib.rs and the three matching steps of device.rs (USB
    topology, the identity both sides reported, the vendor guess). The identities
    themselves are in Identity.v. *)
From stdpp Require Export gmap.
From S2P Require Export UsbTree Device.
From S2P Require Token2Ids.

(** * What a scan gives *)

(** keyroost-transport/src/lib.rs [ReaderProbe] and [YubiKeyCcid]. *)
Record ReaderProbe := mkProbe {
  p_reader_name : list Z; p_is_molto2 : bool; p_serial : option (list Z); p_former_serial : option (list Z);
  p_openpgp_manufacturer : option Z; p_has_oath : bool; p_has_openpgp : bool; p_has_piv : bool; p_has_fido : bool;
  p_fido_ctap2_confirmed : bool; p_has_otp : bool; p_is_prog : bool; p_prog_serial : option (list Z);
  p_yubikey_serial : option (list Z); p_usb_device : option UsbDeviceKey; p_usb_product : option (list Z) }.
Record YubiKeyCcid := mkYk { y_reader_name : list Z; y_usb_device : option UsbDeviceKey; y_serial : option (list Z) }.

(** identity.rs: an identity, and those read for a scan. *)
Inductive IdScheme := YubicoSerial | Solo2Uuid | Token2Fido | Token2OtpId.
#[export] Instance IdScheme_eq_dec : EqDecision IdScheme.
Proof. solve_decision. Defined.
Record CanonicalId := mkId { id_scheme : IdScheme; id_value : list Z }.
#[export] Instance CanonicalId_eq_dec : EqDecision CanonicalId.
Proof. solve_decision. Defined.

Definition row_serial (i : CanonicalId) : option (list Z) :=
  match id_scheme i with YubicoSerial | Token2Fido => Some (id_value i) | Solo2Uuid | Token2OtpId => None end.

(** [HashMap<PathBuf, _>] finds a path by its components ([path_key]). *)
Record Identities := mkIds {
  ids_hid : gmap (bool * bool * list (list Z)) CanonicalId; ids_reader : gmap (list Z) CanonicalId }.
Definition hid_id (ids : Identities) (h : HidDevice) : option CanonicalId := ids_hid ids !! path_key (h_path h).

Record MatchOptions := mkOpts { skip_topology : bool; skip_vendor_fallback : bool; o_trace : bool }.
Inductive MatchStep := Topology | IdentityStep | Vendor.
#[export] Instance MatchStep_eq_dec : EqDecision MatchStep.
Proof. solve_decision. Defined.
Definition match_label (s : MatchStep) : list Z :=
  match s with Topology => s2b "USB topology" | IdentityStep => s2b "identity" | Vendor => s2b "vendor fallback" end.

(** * Serials read over the card side (lib.rs) *)

Definition VID_YUBICO : Z := 0x1050.
Definition needs_ccid_serial (d : HidDevice) : bool :=
  bool_decide (h_serial_number d = None) && (h_vendor_id d =? VID_YUBICO).

Definition topology_rules_out_guess (node reader : option UsbDeviceKey) : bool :=
  match node with
  | None => false
  | Some (WinNode _) => bool_decide (is_Some reader)
  | Some _ => true
  end.

Definition has_yk_serial (r : YubiKeyCcid) : bool := bool_decide (is_Some (y_serial r)).
Definition ccid_serial_by_topology (d : HidDevice) (readers : list YubiKeyCcid) : option (list Z) :=
  if negb (needs_ccid_serial d) then None else
  List.find (fun r => same_usb_device (y_usb_device r) (h_usb_device d)) (List.filter has_yk_serial readers) ≫= y_serial.
Definition ccid_serial_guess (d : HidDevice) (readers : list YubiKeyCcid) : option (list Z) :=
  if negb (needs_ccid_serial d) then None else
  match List.filter has_yk_serial readers with
  | [only] => if topology_rules_out_guess (h_usb_device d) (y_usb_device only) then None else y_serial only
  | _ => None
  end.

Definition ccid_serials_attributed (devices : list HidDevice) (readers : list YubiKeyCcid) (allow_guess : bool) :
    list (option (list Z)) :=
  let taken := omap (fun d => ccid_serial_by_topology d readers) devices in
  let claimants :=
    zlen (List.filter (fun d => bool_decide (is_Some (ccid_serial_guess d readers)))
           (List.filter (fun d => bool_decide (ccid_serial_by_topology d readers = None)) devices)) in
  (fun d =>
     match ccid_serial_by_topology d readers with
     | Some serial => Some serial
     | None =>
         guess ← ccid_serial_guess d readers;
         let contended := (1 <? claimants) || bool_decide (guess ∈ taken) in
         if allow_guess && negb contended then Some guess else None
     end) <$> devices.
Definition ccid_serials_for (devices : list HidDevice) (readers : list YubiKeyCcid) : list (option (list Z)) :=
  ccid_serials_attributed devices readers true.
Definition ccid_serial_for (d : HidDevice) (readers : list YubiKeyCcid) : option (list Z) :=
  match ccid_serial_by_topology d readers with Some s => Some s | None => ccid_serial_guess d readers end.

(** * Matching (device.rs) *)

Definition vendor_name (vid : Z) : list Z :=
  if vid =? 0x1050 then s2b "Yubico"
  else if vid =? 0x20A0 then s2b "Nitrokey"
  else if vid =? 0x1209 then s2b "SoloKeys"
  else if vid =? 0x096E then s2b "Feitian"
  else if vid =? 0x311F then s2b "TrustKey"
  else if vid =? 0x2581 then s2b "Kanokey"
  else if vid =? 0x349E then s2b "Token2"
  else if vid =? 0x1E0D then s2b "OpenSK"
  else s2b "Security key".

Definition without_topology (hids : list HidDevice) (probes : list ReaderProbe) : list HidDevice * list ReaderProbe :=
  ((fun h => mkHid (h_path h) (h_vendor_id h) (h_product_id h) (h_product_name h) (h_usage_page h) (h_usage h) (h_serial_number h) None) <$> hids,
   (fun p => mkProbe (p_reader_name p) (p_is_molto2 p) (p_serial p) (p_former_serial p) (p_openpgp_manufacturer p) (p_has_oath p)
               (p_has_openpgp p) (p_has_piv p) (p_has_fido p) (p_fido_ctap2_confirmed p) (p_has_otp p) (p_is_prog p)
               (p_prog_serial p) (p_yubikey_serial p) None (p_usb_product p)) <$> probes).

Definition has_fido_hid_sibling (p : ReaderProbe) (hids : list HidDevice) : bool :=
  existsb (fun h => same_usb_device (p_usb_device p) (h_usb_device h)) hids.
Definition is_yubico_reader (c : YubiKeyCcid) : bool :=
  bool_decide (is_Some (y_serial c)) || contains (s2b "yubikey") (to_ascii_lowercase (y_reader_name c)).

(** Readers already bound, with the claiming node's USB device key. *)
Notation Claimed := (gmap (list Z) (option UsbDeviceKey)).
Definition reader_is_bindable (claimed : Claimed) (reader : list Z) (hid : HidDevice) : bool :=
  match claimed !! reader with
  | None => true
  | Some key => same_usb_device key (h_usb_device hid)
  end.

Definition not_molto (p : ReaderProbe) : bool := negb (p_is_molto2 p).
Definition reader_by_topology (probes : list ReaderProbe) (hid : HidDevice) : option ReaderProbe :=
  List.find (fun p => same_usb_device (p_usb_device p) (h_usb_device hid)) (List.filter not_molto probes).

Definition reader_key (probes : list ReaderProbe) (yk_readers : list YubiKeyCcid) (name : list Z) : option UsbDeviceKey :=
  match List.find (fun p => bool_decide (p_reader_name p = name)) probes with
  | Some p => p_usb_device p
  | None => List.find (fun c => bool_decide (y_reader_name c = name)) yk_readers ≫= y_usb_device
  end.

Definition reader_by_vendor (probes : list ReaderProbe) (yk_readers : list YubiKeyCcid) (hid : HidDevice) : option (list Z) :=
  if h_vendor_id hid =? VID_YUBICO then
    match List.filter is_yubico_reader yk_readers with [only] => Some (y_reader_name only) | _ => None end
  else
    let vt := to_ascii_lowercase (vendor_name (h_vendor_id hid)) in
    match List.filter (fun r => contains vt (to_ascii_lowercase r)) (p_reader_name <$> List.filter not_molto probes) with
    | [only] => Some only
    | _ => None
    end.

Notation Bound := (list (option (list Z * MatchStep))).

(** Binding node [i] to [reader]: [claimed.insert] and [bound[i] = Some(..)]. *)
Definition bind_node (hids : list HidDevice) (i : nat) (reader : list Z) (step : MatchStep) (s : Bound * Claimed) : Bound * Claimed :=
  let '(bound, claimed) := s in
  (<[i := Some (reader, step)]> bound, <[reader := hids !! i ≫= h_usb_device]> claimed).

Definition is_free (bound : Bound) (i : nat) : bool :=
  match bound !! i with Some None => true | _ => false end.

(** Step 1 for one node. *)
Definition topology_one (probes : list ReaderProbe) (hids : list HidDevice) (i : nat) (s : Bound * Claimed) : Bound * Claimed :=
  match hids !! i ≫= reader_by_topology probes, hids !! i with
  | Some p, Some hid => if reader_is_bindable s.2 (p_reader_name p) hid then bind_node hids i (p_reader_name p) Topology s else s
  | _, _ => s
  end.
Definition each_node (hids : list HidDevice) (f : nat -> Bound * Claimed -> Bound * Claimed) (s : Bound * Claimed) : Bound * Claimed :=
  foldl (fun s i => f i s) s (seq 0 (length hids)).
Definition unbound (hids : list HidDevice) : Bound * Claimed := (replicate (length hids) None, ∅).
Definition topology_bound (hids : list HidDevice) (probes : list ReaderProbe) : list (option (list Z)) :=
  (fun b : option (list Z * MatchStep) => fst <$> b) <$> (each_node hids (topology_one probes hids) (unbound hids)).1.

(** Step 1 of [bind_readers]: what [topology_bound] gave, claimed again. *)
Definition topology_step (hids : list HidDevice) (probes : list ReaderProbe) (s : Bound * Claimed) : Bound * Claimed :=
  each_node hids (fun i s =>
    match topology_bound hids probes !! i with Some (Some reader) => bind_node hids i reader Topology s | _ => s end) s.

(** Step 2 for one node: the identity, unique on both sides. *)
Definition identity_one (probes : list ReaderProbe) (ids : Identities) (hids : list HidDevice) (i : nat) (s : Bound * Claimed) :
    Bound * Claimed :=
  if negb (is_free s.1 i) then s else
  match hids !! i with
  | None => s
  | Some hid =>
      match hid_id ids hid with
      | None => s
      | Some id =>
          let twins := zlen (List.filter (fun '(j, h) => is_free s.1 j && bool_decide (hid_id ids h = Some id)) (imap pair hids)) in
          let owners := List.filter (fun p => not_molto p && bool_decide (ids_reader ids !! p_reader_name p = Some id)) probes in
          match owners with
          | [owner] =>
              if negb (twins =? 1) || bool_decide (is_Some (h_usb_device hid)) && bool_decide (is_Some (p_usb_device owner)) then s
              else if negb (reader_is_bindable s.2 (p_reader_name owner) hid) then s
              else bind_node hids i (p_reader_name owner) IdentityStep s
          | _ => s
          end
      end
  end.

(** Step 3 for one node: the vendor guess. *)
Definition contended (probes : list ReaderProbe) (yk_readers : list YubiKeyCcid) (hids : list HidDevice) (bound : Bound)
    (i : nat) (name : list Z) (guessed_key : option UsbDeviceKey) : bool :=
  existsb (fun '(j, h) => negb (j =? i)%nat && is_free bound j && negb (topology_rules_out_guess (h_usb_device h) guessed_key) &&
                          bool_decide (reader_by_vendor probes yk_readers h = Some name)) (imap pair hids).
Definition vendor_one (probes : list ReaderProbe) (yk_readers : list YubiKeyCcid) (ids : Identities) (hids : list HidDevice)
    (i : nat) (s : Bound * Claimed) : Bound * Claimed :=
  if negb (is_free s.1 i) then s else
  match hids !! i with
  | None => s
  | Some hid =>
      match reader_by_vendor probes yk_readers hid with
      | None => s
      | Some name =>
          if negb (reader_is_bindable s.2 name hid) then s else
          let guessed_key := reader_key probes yk_readers name in
          if topology_rules_out_guess (h_usb_device hid) guessed_key then s
          else if match hid_id ids hid, ids_reader ids !! name with Some a, Some b => negb (bool_decide (a = b)) | _, _ => false end then s
          else if contended probes yk_readers hids s.1 i name guessed_key then s
          else bind_node hids i name Vendor s
      end
  end.

Definition bind_readers (hids : list HidDevice) (probes : list ReaderProbe) (yk_readers : list YubiKeyCcid) (ids : Identities)
    (opts : MatchOptions) : Bound :=
  let s := unbound hids in
  let s := if skip_topology opts then s else topology_step hids probes s in
  let s := each_node hids (identity_one probes ids hids) s in
  let s := if skip_vendor_fallback opts then s else each_node hids (vendor_one probes yk_readers ids hids) s in
  s.1.

(** * Who may hold a reader *)

(** The evidence a binding rests on. *)
Definition evidence (hids : list HidDevice) (probes : list ReaderProbe) (yk_readers : list YubiKeyCcid) (ids : Identities)
    (i : nat) (reader : list Z) (step : MatchStep) : Prop :=
  exists hid, hids !! i = Some hid /\
  match step with
  | Topology => exists p, p ∈ probes /\ p_is_molto2 p = false /\ p_reader_name p = reader /\
      same_usb_device (p_usb_device p) (h_usb_device hid) = true
  | IdentityStep => exists id p, hid_id ids hid = Some id /\ ids_reader ids !! reader = Some id /\
      List.filter (fun p => not_molto p && bool_decide (ids_reader ids !! p_reader_name p = Some id)) probes = [p] /\
      p_reader_name p = reader /\ (h_usb_device hid = None \/ p_usb_device p = None)
  | Vendor => reader_by_vendor probes yk_readers hid = Some reader /\
      topology_rules_out_guess (h_usb_device hid) (reader_key probes yk_readers reader) = false /\
      forall a b, hid_id ids hid = Some a -> ids_reader ids !! reader = Some b -> a = b
  end.

(** Who else could have claimed it. A node bound by its identity is the only node
    reporting that identity, but for those whose USB device had named their reader
    already; a node bound by its vendor is the only one the guess could stand for,
    but for those the two better steps had bound already. *)
Definition sole (hids : list HidDevice) (probes : list ReaderProbe) (yk_readers : list YubiKeyCcid) (ids : Identities)
    (bound : Bound) (i : nat) (reader : list Z) (step : MatchStep) : Prop :=
  forall j h, j <> i -> hids !! j = Some h ->
  match step with
  | Topology => True
  | IdentityStep => hid_id ids h = hids !! i ≫= hid_id ids -> exists r, bound !! j = Some (Some (r, Topology))
  | Vendor => reader_by_vendor probes yk_readers h = Some reader ->
      topology_rules_out_guess (h_usb_device h) (reader_key probes yk_readers reader) = false ->
      exists r st, bound !! j = Some (Some (r, st)) /\ st <> Vendor
  end.

Section binding.
Context (hids : list HidDevice) (probes : list ReaderProbe) (yk_readers : list YubiKeyCcid) (ids : Identities).

Definition usb (i : nat) : option UsbDeviceKey := hids !! i ≫= h_usb_device.

(** A reader in use is claimed with its node's USB device, and only interfaces of
    that device share it; every binding has its evidence. *)
Definition bound_ok (s : Bound * Claimed) : Prop :=
  length s.1 = length hids /\
  (forall i r st, s.1 !! i = Some (Some (r, st)) -> s.2 !! r = Some (usb i)) /\
  (forall i j r st st', i <> j -> s.1 !! i = Some (Some (r, st)) -> s.1 !! j = Some (Some (r, st')) -> same_usb_device (usb i) (usb j) = true) /\
  (forall i r st, s.1 !! i = Some (Some (r, st)) -> evidence hids probes yk_readers ids i r st) /\
  (forall i r st, s.1 !! i = Some (Some (r, st)) -> sole hids probes yk_readers ids s.1 i r st).

Lemma unbound_ok : bound_ok (unbound hids).
Proof.
  unfold unbound, bound_ok. cbn [fst snd]. split; [apply length_replicate|].
  assert (forall i x, replicate (length hids) (@None (list Z * MatchStep)) !! i = Some (Some x) -> False) as Hn.
  { intros i x [Hx _]%lookup_replicate. done. }
  split_and!; intros; exfalso; by eapply Hn.
Qed.

Lemma is_free_lookup bound i : is_free bound i = true -> bound !! i = Some None.
Proof. unfold is_free. by destruct (bound !! i) as [[]|]. Qed.

(** Binding a free node leaves the others as they were. *)
Lemma sole_stays bound i x j r st :
  bound !! i = Some None -> sole hids probes yk_readers ids bound j r st -> sole hids probes yk_readers ids (<[i := x]> bound) j r st.
Proof.
  intros Hfree Hs k h Hk Hh. specialize (Hs k h Hk Hh).
  assert (forall y, bound !! k = Some (Some y) -> <[i := x]> bound !! k = Some (Some y)) as Hkeep.
  { intros y Hy. rewrite list_lookup_insert_ne; [done|]. intros ->. congruence. }
  destruct st; [done| |].
  - intros Hid. destruct (Hs Hid) as [r' Hr]. eauto.
  - intros Hv Ht. destruct (Hs Hv Ht) as (r' & st & Hr & Hst). eauto.
Qed.

Lemma bind_node_ok s i r step hid :
  bound_ok s -> s.1 !! i = Some None -> hids !! i = Some hid -> reader_is_bindable s.2 r hid = true ->
  evidence hids probes yk_readers ids i r step -> sole hids probes yk_readers ids s.1 i r step -> bound_ok (bind_node hids i r step s).
Proof.
  destruct s as [bound claimed]. unfold bound_ok at 1. cbn [fst snd]. intros (Hl & Hc & Hx & He & Hso) Hfree Hhid Hb Hev Hsole.
  assert (Hlt : (i < length bound)%nat) by by eapply lookup_lt_Some.
  assert (Hui : usb i = h_usb_device hid) by (unfold usb; by rewrite Hhid).
  assert (Hsame : forall j st, bound !! j = Some (Some (r, st)) -> same_usb_device (usb j) (usb i) = true).
  { intros j st Hj. unfold reader_is_bindable in Hb. rewrite (Hc _ _ _ Hj) in Hb. by rewrite Hui. }
  unfold bind_node, bound_ok. cbn [fst snd] in *. fold (usb i). split; [by rewrite length_insert|].
  assert (Hlook : forall j r' st, <[i := Some (r, step)]> bound !! j = Some (Some (r', st)) ->
     (j = i /\ r' = r /\ st = step) \/ (j <> i /\ bound !! j = Some (Some (r', st)))).
  { intros j r' st. destruct (decide (j = i)) as [->|Hne].
    - rewrite list_lookup_insert_eq by done. intros [= -> ->]. by left.
    - rewrite list_lookup_insert_ne by done. by right. }
  split_and!.
  - intros j r' st [(-> & -> & ->)|[Hne Hj]]%Hlook; [by rewrite lookup_insert_eq|].
    destruct (decide (r' = r)) as [->|Hr]; [|rewrite lookup_insert_ne by done; by eapply Hc].
    rewrite lookup_insert_eq. f_equal. apply Hsame in Hj. apply same_usb_device_iff in Hj as (x & -> & ->). done.
  - intros j k r' st st' Hne [(-> & -> & ->)|[Hj1 Hj]]%Hlook [(-> & Hr & ->)|[Hk1 Hk]]%Hlook.
    + done.
    + rewrite same_usb_device_sym. by eapply Hsame.
    + subst r'. by eapply Hsame.
    + by apply (Hx j k r' st st').
  - intros j r' st [(-> & -> & ->)|[Hne Hj]]%Hlook; [done|by apply He].
  - intros j r' st [(-> & -> & ->)|[Hne Hj]]%Hlook; apply sole_stays; auto.
Qed.

(** A pass over the nodes keeps what each step keeps. *)
Lemma each_node_ok (P : nat -> Bound * Claimed -> Prop) f s :
  P O s -> (forall i s, (i < length hids)%nat -> P i s -> P (S i) (f i s)) -> P (length hids) (each_node hids f s).
Proof.
  intros H0 Hstep. unfold each_node.
  assert (forall n, (n <= length hids)%nat -> P n (foldl (fun s i => f i s) s (seq 0 n))) as Hn; [|by apply Hn].
  induction n as [|n IH]; intros Hn; [done|]. rewrite seq_S, foldl_app. cbn [foldl]. apply Hstep; [lia|]. apply IH. lia.
Qed.

Lemma find_in {A} (f : A -> bool) l x : List.find f l = Some x -> x ∈ l /\ f x = true.
Proof. intros [Hin Hf]%find_some. split; [by apply list_elem_of_In|done]. Qed.

Lemma topology_found i hid p :
  hids !! i = Some hid -> reader_by_topology probes hid = Some p -> evidence hids probes yk_readers ids i (p_reader_name p) Topology.
Proof.
  intros Hh [Hin Hs]%find_in. exists hid. split; [done|]. apply list_elem_of_In, List.filter_In in Hin as [Hin Hm].
  exists p. split_and!; [by apply list_elem_of_In|by apply negb_true_iff|done|done].
Qed.

(** The steps used so far. *)
Definition steps_in (P : MatchStep -> Prop) (s : Bound * Claimed) : Prop := forall j r st, s.1 !! j = Some (Some (r, st)) -> P st.
Lemma steps_bind (P : MatchStep -> Prop) s i r step : P step -> steps_in P s -> steps_in P (bind_node hids i r step s).
Proof.
  intros Hp Hs j r' st. destruct s as [bound claimed]. unfold bind_node. cbn [fst] in *.
  destruct (decide (j = i)) as [->|Hne]; [|rewrite list_lookup_insert_ne by done; apply Hs].
  intros Hj. destruct (decide (i < length bound)%nat) as [Hlt|Hge].
  - rewrite list_lookup_insert_eq in Hj by done. by injection Hj as <- <-.
  - rewrite list_insert_ge in Hj by lia. by eapply Hs.
Qed.

(** Step 1: up to node [n], and nothing bound from there on. *)
Definition topology_inv (n : nat) (s : Bound * Claimed) : Prop :=
  (bound_ok s /\ steps_in (eq Topology) s) /\ forall j, (n <= j < length hids)%nat -> s.1 !! j = Some None.

Lemma topology_one_ok i s : (i < length hids)%nat -> topology_inv i s -> topology_inv (S i) (topology_one probes hids i s).
Proof.
  intros Hi [[Hok Hst] Hfree]. unfold topology_one. destruct (hids !! i) as [hid|] eqn:Hh; cbn [mbind option_bind].
  2: { split; [done|]. intros j Hj. apply Hfree. lia. }
  destruct (reader_by_topology probes hid) as [p|] eqn:Hp; [destruct (reader_is_bindable _ _ _) eqn:Hb|].
  - split; [split; [by eapply bind_node_ok; [|apply Hfree; lia|..|eapply topology_found|]|by apply steps_bind]|].
    intros j Hj. destruct s as [bound claimed]. unfold bind_node. cbn [fst]. rewrite list_lookup_insert_ne by lia. apply Hfree. lia.
  - split; [done|]. intros j Hj. apply Hfree. lia.
  - split; [done|]. intros j Hj. apply Hfree. lia.
Qed.

Lemma unbound_inv : topology_inv 0 (unbound hids).
Proof.
  split; [split; [apply unbound_ok|]|].
  - intros j r st [Hx _]%lookup_replicate. done.
  - intros j Hj. apply lookup_replicate_2. lia.
Qed.

Lemma topology_one_later i s j : j <> i -> (topology_one probes hids i s).1 !! j = s.1 !! j.
Proof.
  intros Hne. unfold topology_one. repeat case_match; try done. destruct s. unfold bind_node. cbn [fst]. by apply list_lookup_insert_ne.
Qed.

(** Claiming again what step 1 gave makes the same state. *)
Lemma topology_step_same : topology_step hids probes (unbound hids) = each_node hids (topology_one probes hids) (unbound hids).
Proof.
  set (f := topology_one probes hids). unfold topology_step. fold f.
  assert (Hstable : forall n j, (j < n)%nat -> (n <= length hids)%nat ->
    (foldl (fun s i => f i s) (unbound hids) (seq 0 (length hids))).1 !! j = (foldl (fun s i => f i s) (unbound hids) (seq 0 n)).1 !! j).
  { intros n j Hj Hn. replace (length hids) with (n + (length hids - n))%nat by lia. rewrite seq_app, foldl_app. cbn [Nat.add].
    generalize (foldl (fun s i => f i s) (unbound hids) (seq 0 n)). generalize (length hids - n)%nat. intros m. clear -Hj.
    revert n Hj. induction m as [|m IH]; intros n Hj s; [done|]. cbn [seq foldl]. rewrite IH by lia. apply topology_one_later. lia. }
  unfold each_node. assert (forall n, (n <= length hids)%nat ->
    foldl (fun s i => (fun i s => match topology_bound hids probes !! i with Some (Some reader) => bind_node hids i reader Topology s | _ => s end) i s)
      (unbound hids) (seq 0 n) = foldl (fun s i => f i s) (unbound hids) (seq 0 n)) as Hn; [|by apply Hn].
  induction n as [|n IH]; intros Hn; [done|]. rewrite !seq_S, !foldl_app. cbn [foldl]. rewrite IH by lia. clear IH.
  assert (Hb : topology_bound hids probes !! n = (fun b : option (list Z * MatchStep) => fst <$> b) <$> (f n (foldl (fun s i => f i s) (unbound hids) (seq 0 n))).1 !! n).
  { unfold topology_bound. rewrite list_lookup_fmap. f_equal. unfold each_node. fold f. rewrite (Hstable (S n)) by lia.
    by rewrite seq_S, foldl_app. }
  cbn [Nat.add]. rewrite Hb.
  assert (Hinv : topology_inv n (foldl (fun s i => f i s) (unbound hids) (seq 0 n))).
  { assert (forall m, (m <= n)%nat -> topology_inv m (foldl (fun s i => f i s) (unbound hids) (seq 0 m))) as Hm; [|by apply Hm].
    induction m as [|m IHm]; intros Hm; [apply unbound_inv|]. rewrite seq_S, foldl_app. cbn [foldl]. apply topology_one_ok; [lia|]. apply IHm. lia. }
  revert Hinv. generalize (foldl (fun s i => f i s) (unbound hids) (seq 0 n)). intros s [_ Hfree].
  assert (Hsn : s.1 !! n = Some None) by (apply Hfree; lia). unfold f, topology_one.
  destruct (hids !! n) as [hid|] eqn:Hh; cbn [mbind option_bind]; [|by rewrite Hsn].
  destruct (reader_by_topology probes hid) as [p|]; [|by rewrite Hsn]. destruct (reader_is_bindable _ _ _); [|by rewrite Hsn].
  destruct s as [bound claimed]. unfold bind_node at 1. cbn [fst] in *. rewrite list_lookup_insert_eq by (by eapply lookup_lt_Some). done.
Qed.

Lemma bound_later bound j h : length bound = length hids -> hids !! j = Some h -> is_free bound j = false ->
  exists r st, bound !! j = Some (Some (r, st)).
Proof.
  intros Hl Hh Hf. destruct (lookup_lt_is_Some_2 bound j) as [b Hb]; [rewrite Hl; by eapply lookup_lt_Some|].
  unfold is_free in Hf. rewrite Hb in Hf. destruct b as [[r st]|]; [by exists r, st|done].
Qed.

Lemma one_twin (P : nat -> HidDevice -> bool) i j hid h :
  zlen (List.filter (fun '(j, h) => P j h) (imap pair hids)) = 1 -> hids !! i = Some hid -> P i hid = true ->
  hids !! j = Some h -> j <> i -> P j h = false.
Proof.
  intros Hone Hi Hpi Hj Hne. destruct (P j h) eqn:Hpj; [|done]. exfalso.
  set (l := List.filter _ _) in Hone.
  assert (forall k x, hids !! k = Some x -> P k x = true -> (k, x) ∈ l) as Hin.
  { intros k x Hk Hp. apply list_elem_of_In, filter_In. split; [|done]. apply list_elem_of_In, list_elem_of_lookup. exists k.
    by rewrite list_lookup_imap, Hk. }
  pose proof (Hin _ _ Hi Hpi) as Ha. pose proof (Hin _ _ Hj Hpj) as Hb. clearbody l.
  destruct l as [|a [|b l]]; [by apply elem_of_nil in Ha| |revert Hone; zlen; pose proof (zlen_nonneg l); lia].
  apply list_elem_of_singleton in Ha, Hb. congruence.
Qed.

(** Step 2: nothing is bound by vendor yet. *)
Definition identity_inv (s : Bound * Claimed) : Prop := bound_ok s /\ steps_in (fun st => st <> Vendor) s.

Lemma identity_one_ok i s : identity_inv s -> identity_inv (identity_one probes ids hids i s).
Proof.
  intros [Hok Hnv]. unfold identity_one. destruct (is_free s.1 i) eqn:Hf; cbn [negb]; [|done]. pose proof (is_free_lookup _ _ Hf) as Hfree.
  destruct (hids !! i) as [hid|] eqn:Hh; [|done]. destruct (hid_id ids hid) as [id|] eqn:Hid; [|done].
  destruct (List.filter _ probes) as [|owner [|]] eqn:Ho; [done| |done].
  match goal with |- context [if ?b then s else _] => destruct b eqn:Hg end; [done|].
  destruct (reader_is_bindable _ _ _) eqn:Hb; cbn [negb]; [|done].
  apply orb_false_iff in Hg as [Hone%negb_false_iff%Z.eqb_eq Hg]. split.
  2:{ by apply steps_bind. }
  eapply bind_node_ok; [done..| |].
  - exists hid. split; [done|]. exists id, owner.
    assert (owner ∈ List.filter (fun p => not_molto p && bool_decide (ids_reader ids !! p_reader_name p = Some id)) probes) as Hin by (rewrite Ho; left).
    apply list_elem_of_In, List.filter_In in Hin as [_ [_ Hr]%andb_true_iff]. apply bool_decide_eq_true in Hr.
    split_and!; [done..|]. destruct (h_usb_device hid), (p_usb_device owner); auto.
    exfalso. revert Hg. by rewrite !bool_decide_eq_true_2.
  - intros j h Hne Hj Hsame. rewrite Hh in Hsame. cbn [mbind option_bind] in Hsame. rewrite Hid in Hsame.
    pose proof (one_twin (fun j h => is_free s.1 j && bool_decide (hid_id ids h = Some id)) i j hid h Hone Hh) as Ht.
    cbn beta in Ht. rewrite Hf, !bool_decide_eq_true_2, !andb_true_r in Ht by done. specialize (Ht eq_refl Hj Hne).
    destruct Hok as (Hl & _ & _ & _ & Hso). destruct (bound_later _ _ _ Hl Hj Ht) as (r & st & Hr). exists r. rewrite Hr.
    destruct st; [done| |by destruct (Hnv _ _ _ Hr)].
    destruct (Hso _ _ _ Hr i hid (not_eq_sym Hne) Hh) as [r' Hr']; [|exfalso; rewrite Hr' in Hfree; discriminate]. rewrite Hj. cbn [mbind option_bind]. congruence.
Qed.

Lemma vendor_one_ok i s : bound_ok s -> bound_ok (vendor_one probes yk_readers ids hids i s).
Proof.
  intros Hok. unfold vendor_one. destruct (is_free s.1 i) eqn:Hf; cbn [negb]; [|done]. apply is_free_lookup in Hf.
  destruct (hids !! i) as [hid|] eqn:Hh; [|done]. destruct (reader_by_vendor probes yk_readers hid) as [name|] eqn:Hv; [|done].
  destruct (reader_is_bindable _ _ _) eqn:Hb; cbn [negb]; [|done]. cbn zeta.
  destruct (topology_rules_out_guess _ _) eqn:Ht; [done|].
  match goal with |- context [if ?b then s else _] => destruct b eqn:Hd end; [done|].
  destruct (contended _ _ _ _ _ _ _) eqn:Hc; [done|]. eapply bind_node_ok; [done..| |].
  - exists hid. split; [done|]. split_and!; [done..|].
    intros a b Ha Hbb. rewrite Ha, Hbb in Hd. by apply negb_false_iff, bool_decide_eq_true in Hd.
  - intros j h Hne Hj Hvj Htj. destruct (is_free s.1 j) eqn:Hfj.
    + exfalso. enough (contended probes yk_readers hids s.1 i name (reader_key probes yk_readers name) = true) by congruence.
      apply existsb_exists. exists (j, h). split; [apply list_elem_of_In, list_elem_of_lookup; exists j; by rewrite list_lookup_imap, Hj|].
      rewrite Hfj, Htj, (proj2 (Nat.eqb_neq _ _)) by done. by rewrite bool_decide_eq_true_2.
    + destruct Hok as (Hl & _ & _ & He & Hso). destruct (bound_later _ _ _ Hl Hj Hfj) as (r & st & Hr). exists r, st. split; [done|].
      intros ->. destruct (He _ _ _ Hr) as (h' & Hh' & Hvr & _). assert (h' = h) as -> by congruence.
      assert (r = name) as -> by congruence. destruct (Hso _ _ _ Hr i hid (not_eq_sym Hne) Hh Hv Ht) as (r & st & Hi & _). congruence.
Qed.

Lemma bind_readers_ok opts : exists claimed, bound_ok (bind_readers hids probes yk_readers ids opts, claimed).
Proof.
  unfold bind_readers. cbn zeta.
  set (s1 := if skip_topology opts then unbound hids else topology_step hids probes (unbound hids)).
  assert (identity_inv s1) as H1.
  { subst s1. destruct (skip_topology opts).
    - destruct unbound_inv as [[H Hst] _]. split; [done|]. intros j r st Hj. by rewrite <- (Hst _ _ _ Hj).
    - rewrite topology_step_same. destruct (each_node_ok topology_inv _ _ unbound_inv topology_one_ok) as [[H Hst] _].
      split; [done|]. intros j r st Hj. by rewrite <- (Hst _ _ _ Hj). }
  assert (identity_inv (each_node hids (identity_one probes ids hids) s1)) as [H2 _].
  { apply (each_node_ok (fun _ => identity_inv)); [done|]. intros i s _. apply identity_one_ok. }
  destruct (skip_vendor_fallback opts).
  - exists (each_node hids (identity_one probes ids hids) s1).2. by rewrite <- surjective_pairing.
  - assert (bound_ok (each_node hids (vendor_one probes yk_readers ids hids) (each_node hids (identity_one probes ids hids) s1))) as H3.
    { apply (each_node_ok (fun _ => bound_ok)); [done|]. intros i s _. apply vendor_one_ok. }
    eexists. by rewrite <- surjective_pairing.
Qed.
End binding.

(** C6: matching never gives one reader to two keys. Whatever was enumerated and
    whatever identities were read, two FIDO nodes are bound to the same reader only
    when both report the same USB device; and each binding rests on evidence about that
    node and that reader: the same USB device, or an identity that the reader alone
    reports among the readers, with no topology on both sides to contradict it, or the
    one reader the vendor allows, which neither the node's topology nor an identity
    rules out. The node is the only one that could claim it: any other node with the
    identity used was already matched by its USB device, and any other node whose
    vendor allows the reader guessed, and whose topology does not rule it out, was
    already matched by its USB device or its identity. *)
Theorem match_readers_exclusive hids probes yk_readers ids opts :
  let bound := bind_readers hids probes yk_readers ids opts in
  length bound = length hids /\
  (forall i j r st st', i <> j -> bound !! i = Some (Some (r, st)) -> bound !! j = Some (Some (r, st')) ->
     same_usb_device (hids !! i ≫= h_usb_device) (hids !! j ≫= h_usb_device) = true) /\
  (forall i r st, bound !! i = Some (Some (r, st)) -> evidence hids probes yk_readers ids i r st) /\
  (forall i r st, bound !! i = Some (Some (r, st)) -> sole hids probes yk_readers ids bound i r st).
Proof.
  destruct (bind_readers_ok hids probes yk_readers ids opts) as (claimed & Hl & _ & Hx & He & Hs). cbn [fst] in *.
  split_and!; [done| |done..]. intros i j r st st' Hne Hi Hj. by eapply Hx.
Qed.
