(* ===== verification/Identity.v ===== *)
(** keyroost-resolve/src/identity.rs: device-reported identities. Reading each vendor's
    reply into one comparable value, choosing which nodes and readers to ask, and the
    answers remembered per plug-in. Then what is remembered over scans. *)
From S2P Require Export Match.
From S2P Require Token2Ids Token2Otp Token2Wire.
From S2P Require Import Token2Wire.
Import Token2Wire(KeyAnswer, KReply, KDeclined, KNoAnswer).

(** * Reading a reply *)

Definition be32 (b : list Z) : Z := fold_left (fun a d => a * 256 + d) b 0.

(** The TLVs of a READ CONFIG reply, the fuel being its length: each takes two bytes
    or more. *)
Fixpoint config_serial (fuel : nat) (tlv : list Z) : option CanonicalId :=
  match fuel, tlv with
  | S fuel, tag :: l :: rest =>
      if zlen rest <? l then None else
      let value := take (Z.to_nat l) rest in
      if (tag =? 0x02) && (l =? 4) then
        let n := be32 value in if n =? 0 then None else Some (mkId YubicoSerial (dec n))
      else config_serial fuel (drop (Z.to_nat l) rest)
  | _, _ => None
  end.
Definition yubico_from_read_config (reply : list Z) : option CanonicalId :=
  match reply with
  | [] => None
  | len :: rest => if zlen rest <? len then None else config_serial (length rest) (take (Z.to_nat len) rest)
  end.

Definition yubico_from_serial_str (s : list Z) : option CanonicalId :=
  n ← parse_uint 32 (trim s);
  if n =? 0 then None else Some (mkId YubicoSerial (dec n)).

Definition solo2_from_uuid_bytes (b : list Z) : option CanonicalId :=
  if zlen b =? 16 then Some (mkId Solo2Uuid (hex b)) else None.
Definition is_hexdigit (b : Z) : bool := between 48 57 b || between 65 70 b || between 97 102 b.
Definition solo2_from_iserial (s : list Z) : option CanonicalId :=
  let s := trim s in
  if (zlen s =? 32) && forallb is_hexdigit s then Some (mkId Solo2Uuid (to_ascii_lowercase s)) else None.

Definition token2_from_fido_reply (reply : list Z) : option CanonicalId :=
  bytes ← result_ok (Token2Otp.parse_serial reply);
  if bool_decide (bytes = []) then None else Some (mkId Token2Fido (hex bytes)).
Definition token2_from_otp_reply (reply : list Z) : option CanonicalId :=
  n ← result_ok (Token2Otp.parse_otp_serial reply); Some (mkId Token2OtpId (dec n)).

(** [KeyAnswer::and_then]. *)
Definition answer_then {A B} (a : KeyAnswer A) (f : A -> option B) : KeyAnswer B :=
  match a with
  | KReply t => match f t with Some u => KReply u | None => KDeclined end
  | KDeclined => KDeclined
  | KNoAnswer => KNoAnswer
  end.

(** * Vendors *)

(** [dyn IdentityReader], its reads over the state of whatever answers. *)
Record IdentityReader (S : Type) := mkReader {
  ir_vendor : list Z;
  ir_claims_hid : HidDevice -> bool;
  ir_claims_reader : ReaderProbe -> bool;
  ir_read_hid : HidDevice -> S -> KeyAnswer CanonicalId * S;
  ir_read_ccid : ReaderProbe -> S -> option CanonicalId * S;
  ir_names_unpaired_hid : bool }.
Arguments ir_vendor {S}. Arguments ir_claims_hid {S}. Arguments ir_claims_reader {S}.
Arguments ir_read_hid {S}. Arguments ir_read_ccid {S}. Arguments ir_names_unpaired_hid {S}.

(** The transport's reads (keyroost-transport/src/identity.rs and token2otp.rs). *)
Class IdentityIo (S : Type) := {
  ctaphid_vendor_read : list Z -> Z -> list Z -> S -> KeyAnswer (list Z) * S;
  token2_serial_reply_hid : list Z -> S -> KeyAnswer (list Z) * S;
  ccid_applet_read : list Z -> list Z -> list Z -> bool -> S -> option (list Z) * S;
}.

Definition SOLO2_VID : Z := 0x1209.
Definition SOLO2_PID : Z := 0xBEEE.
Definition YUBICO_CTAPHID_READ_CONFIG : Z := 0xC2.
Definition SOLO2_CTAPHID_UUID : Z := 0xE2.
Definition SOLO2_ADMIN_AID : list Z := [0xA0; 0x00; 0x00; 0x08; 0x47; 0x00; 0x00; 0x00; 0x01].
Definition SOLO2_UUID_APDU : list Z := [0x00; 0x62; 0x00; 0x00].
Definition is_neo_pid (pid : Z) : bool := between 0x0110 0x0116 pid.

Definition token2_lax_fido_select (p : ReaderProbe) : bool :=
  p_has_otp p || contains (s2b "token2") (to_ascii_lowercase (p_reader_name p)).

Section readers.
Context {S : Type} `{IdentityIo S}.

Definition YubicoIdentity : IdentityReader S := {|
  ir_vendor := s2b "Yubico";
  ir_claims_hid h := (h_vendor_id h =? VID_YUBICO) && negb (is_neo_pid (h_product_id h));
  ir_claims_reader p := not_molto p && (bool_decide (is_Some (p_yubikey_serial p)) ||
                                        contains (s2b "yubikey") (to_ascii_lowercase (p_reader_name p)));
  ir_read_hid h s :=
    let '(a, s) := ctaphid_vendor_read (h_path h) YUBICO_CTAPHID_READ_CONFIG [0x00] s in
    (answer_then a yubico_from_read_config, s);
  ir_read_ccid p s := (p_yubikey_serial p ≫= yubico_from_serial_str, s);
  ir_names_unpaired_hid := true |}.

Definition Solo2Identity : IdentityReader S := {|
  ir_vendor := s2b "Solo 2";
  ir_claims_hid h := (h_vendor_id h =? SOLO2_VID) && (h_product_id h =? SOLO2_PID);
  ir_claims_reader p := not_molto p && negb (p_is_prog p) && bool_decide (p_yubikey_serial p = None) &&
                        (p_has_fido p || p_has_oath p || p_has_piv p || p_has_openpgp p);
  ir_read_hid h s :=
    match h_serial_number h ≫= solo2_from_iserial with
    | Some i => (KReply i, s)
    | None => let '(a, s) := ctaphid_vendor_read (h_path h) SOLO2_CTAPHID_UUID [] s in (answer_then a solo2_from_uuid_bytes, s)
    end;
  ir_read_ccid p s :=
    let '(a, s) := ccid_applet_read (p_reader_name p) (default [] (Token2Otp.build_select SOLO2_ADMIN_AID)) SOLO2_UUID_APDU true s in
    (a ≫= solo2_from_uuid_bytes, s);
  ir_names_unpaired_hid := false |}.

Definition Token2Identity : IdentityReader S := {|
  ir_vendor := s2b "Token2";
  ir_claims_hid h := h_vendor_id h =? Token2Ids.USB_VID;
  ir_claims_reader p := not_molto p && negb (p_is_prog p) && bool_decide (p_yubikey_serial p = None) && (p_has_fido p || p_has_otp p);
  ir_read_hid h s := let '(a, s) := token2_serial_reply_hid (h_path h) s in (answer_then a token2_from_fido_reply, s);
  ir_read_ccid p s :=
    let req := default [] Token2Otp.read_serial_request in
    let '(a, s) := ccid_applet_read (p_reader_name p) (default [] (Token2Otp.build_select Token2Otp.FIDO_APPLET_AID)) req
                     (negb (token2_lax_fido_select p)) s in
    match a ≫= token2_from_fido_reply with
    | Some i => (Some i, s)
    | None =>
        let '(b, s) := ccid_applet_read (p_reader_name p) (default [] (Token2Otp.build_select Token2Otp.OTP_APPLET_AID)) req true s in
        (b ≫= token2_from_otp_reply, s)
    end;
  ir_names_unpaired_hid := true |}.

Definition IDENTITY_READERS : list (IdentityReader S) := [YubicoIdentity; Solo2Identity; Token2Identity].
End readers.

(** * What to read *)

Record IdentityPlan := mkPlan { pl_hid : list (nat * list Z); pl_ccid : list (nat * list Z) }.

Definition eligible (h : HidDevice) (p : ReaderProbe) : bool :=
  negb (bool_decide (is_Some (h_usb_device h)) && bool_decide (is_Some (p_usb_device p))).

(** [if !plan.iter().any(..) { plan.push((v, x)) }]. *)
Definition push_new (same : list Z -> list Z -> bool) (v : nat) (x : list Z) (plan : list (nat * list Z)) : list (nat * list Z) :=
  if existsb (fun '(pv, y) => (pv =? v)%nat && same y x) plan then plan else plan ++ [(v, x)].
Definition same_name (a b : list Z) : bool := bool_decide (a = b).

Section plan.
Context {S : Type}.

Definition plan_vendor (free_hids : list HidDevice) (free_readers : list ReaderProbe) (plan : IdentityPlan) (vr : nat * IdentityReader S) :
    IdentityPlan :=
  let '(v, r) := vr in
  let hs := List.filter (ir_claims_hid r) free_hids in
  let ps := List.filter (ir_claims_reader r) free_readers in
  let wanted h := existsb (eligible h) ps || ir_names_unpaired_hid r && bool_decide (h_serial_number h = None) in
  let hid := foldl (fun plan h => if wanted h then push_new path_eq v (h_path h) plan else plan) (pl_hid plan) hs in
  let ccid := foldl (fun plan p => if existsb (fun h => eligible h p) hs then push_new same_name v (p_reader_name p) plan else plan)
                (pl_ccid plan) ps in
  mkPlan hid ccid.

Definition free_nodes (hids : list HidDevice) (probes : list ReaderProbe) : list HidDevice :=
  let fido := List.filter is_fido hids in
  fst <$> List.filter (fun '(_, b) => bool_decide (b = None)) (zip fido (topology_bound fido probes)).
Definition free_probes (hids : list HidDevice) (probes : list ReaderProbe) : list ReaderProbe :=
  let claimed := omap id (topology_bound (List.filter is_fido hids) probes) in
  List.filter (fun p => not_molto p && negb (p_is_prog p) && negb (bool_decide (p_reader_name p ∈ claimed))) probes.

Definition plan_identity_reads (hids : list HidDevice) (probes : list ReaderProbe) (registry : list (IdentityReader S)) : IdentityPlan :=
  foldl (plan_vendor (free_nodes hids probes) (free_probes hids probes)) (mkPlan [] []) (imap pair registry).
End plan.

(** * Answers remembered per plug-in *)

Record PlugIn := mkPlugIn {
  pi_path : list Z; pi_usb_device : option UsbDeviceKey; pi_serial_number : option (list Z); pi_vendor_id : Z; pi_product_id : Z }.
Definition plug_in_of (h : HidDevice) : PlugIn :=
  mkPlugIn (h_path h) (h_usb_device h) (h_serial_number h) (h_vendor_id h) (h_product_id h).
(** [PlugIn]'s derived equality, paths by their components. *)
Definition plug_in_eq (a b : PlugIn) : bool :=
  path_eq (pi_path a) (pi_path b) && bool_decide (pi_usb_device a = pi_usb_device b) &&
  bool_decide (pi_serial_number a = pi_serial_number b) && (pi_vendor_id a =? pi_vendor_id b) && (pi_product_id a =? pi_product_id b).

Definition unique_per_plug_in (h : HidDevice) : bool :=
  match h_usb_device h with
  | Some (BusAddr _ _) => true
  | Some _ => false
  | None => starts_with (s2b "DevSrvsID:") (path_display (h_path h))
  end.

Inductive Cached := CAnswer (id : option CanonicalId) | CFallback (id : CanonicalId).
Definition HidIdCache : Type := list ((PlugIn * nat) * Cached).
Definition key_eq (a b : PlugIn * nat) : bool := plug_in_eq a.1 b.1 && (a.2 =? b.2)%nat.

Section cache.
Context {S : Type} (ask : nat -> HidDevice -> S -> KeyAnswer CanonicalId * S).

Definition cache_get (cache : HidIdCache) (key : PlugIn * nat) : option Cached :=
  snd <$> List.find (fun e => key_eq e.1 key) cache.
Definition cache_put (cache : HidIdCache) (key : PlugIn * nat) (keep : Cached) : HidIdCache :=
  List.filter (fun e => negb (key_eq e.1 key)) cache ++ [(key, keep)].

(** The identity of one planned interface, with the cache and the answerer after;
    [None] when the key is to be left out ([continue]). *)
Definition one_identity (h : HidDevice) (v : nat) (cache : HidIdCache) (s : S) : option (option CanonicalId) * HidIdCache * S :=
  let key := (plug_in_of h, v) in
  match cache_get cache key with
  | Some (CAnswer i) => (Some i, cache, s)
  | earlier =>
      let fallback := match earlier with Some (CFallback i) => Some i | _ => None end in
      let '(a, s) := ask v h s in
      match a with
      | KReply i =>
          (Some (Some i), cache_put cache key (if unique_per_plug_in h then CAnswer (Some i) else CFallback i), s)
      | KDeclined => (Some None, cache_put cache key (CAnswer None), s)
      | KNoAnswer =>
          match fallback with
          | Some i => (Some (Some i), cache_put cache key (CFallback i), s)
          | None => (None, cache, s)
          end
      end
  end.

Definition forget_gone (hids : list HidDevice) (cache : HidIdCache) : HidIdCache :=
  List.filter (fun e => existsb (plug_in_eq e.1.1) (plug_in_of <$> hids)) cache.

Fixpoint identities_loop (hids : list HidDevice) (plan : list (nat * list Z)) (cache : HidIdCache)
    (out : gmap (bool * bool * list (list Z)) CanonicalId) (s : S) :
    gmap (bool * bool * list (list Z)) CanonicalId * HidIdCache * S :=
  match plan with
  | [] => (out, cache, s)
  | (v, path) :: plan =>
      match List.find (fun h => path_eq (h_path h) path) hids with
      | None => identities_loop hids plan cache out s
      | Some h =>
          let '(i, cache, s) := one_identity h v cache s in
          identities_loop hids plan cache (match i with Some (Some i) => <[path_key path := i]> out | _ => out end) s
      end
  end.
Definition hid_identities_from (cache : HidIdCache) (plan : IdentityPlan) (hids : list HidDevice) (s : S) :
    gmap (bool * bool * list (list Z)) CanonicalId * HidIdCache * S :=
  identities_loop hids (pl_hid plan) (forget_gone hids cache) ∅ s.
End cache.

(** [read_identities_with]: the HID side through the cache, the readers every time. *)
Section read.
Context {S : Type} (registry : list (IdentityReader S)).

Definition ask_registry (v : nat) (h : HidDevice) (s : S) : KeyAnswer CanonicalId * S :=
  match registry !! v with Some r => ir_read_hid r h s | None => (KNoAnswer, s) end.

Fixpoint reader_identities (probes : list ReaderProbe) (plan : list (nat * list Z)) (out : gmap (list Z) CanonicalId) (s : S) :
    gmap (list Z) CanonicalId * S :=
  match plan with
  | [] => (out, s)
  | (v, name) :: plan =>
      match List.find (fun p => bool_decide (p_reader_name p = name)) probes, registry !! v with
      | Some p, Some r =>
          let '(i, s) := ir_read_ccid r p s in
          reader_identities probes plan (match i with Some i => <[name := i]> out | None => out end) s
      | _, _ => reader_identities probes plan out s
      end
  end.

Definition read_identities_with (cache : HidIdCache) (plan : IdentityPlan) (hids : list HidDevice) (probes : list ReaderProbe) (s : S) :
    Identities * HidIdCache * S :=
  let '(hid, cache, s) := hid_identities_from ask_registry cache plan hids s in
  let '(reader, s) := reader_identities probes (pl_ccid plan) ∅ s in
  (mkIds hid reader, cache, s).
Definition read_identities (plan : IdentityPlan) (hids : list HidDevice) (probes : list ReaderProbe) (s : S) : Identities * S :=
  let '(ids, _, s) := read_identities_with [] plan hids probes s in (ids, s).
End read.

(** The identities remembered per plug-in (keyroost-resolve/src/identity.rs,
    [hid_identities_from]) over any sequence of scans, with the log of every question put to a
    key: what is remembered is what that plug-in last said, and a plug-in that has settled a
    question is not asked it again while it stays. *)

(** * The lookups of an association list with a coarser key equality *)

Lemma find_filter_kept {A} (p q : A -> bool) l :
  (forall x, p x = true -> q x = true) -> List.find p (List.filter q l) = List.find p l.
Proof.
  intros Hpq. induction l as [|x l IH]; [done|]. cbn. destruct (q x) eqn:Hq; cbn; [by rewrite IH|].
  destruct (p x) eqn:Hp; [by rewrite Hpq in Hq|done].
Qed.
Lemma find_filter_dropped {A} (p q : A -> bool) l :
  (forall x, p x = true -> q x = false) -> List.find p (List.filter q l) = None.
Proof.
  intros Hpq. induction l as [|x l IH]; [done|]. cbn. destruct (q x) eqn:Hq; [|done]. cbn.
  destruct (p x) eqn:Hp; [by rewrite Hpq in Hq|done].
Qed.
Lemma find_app {A} (p : A -> bool) l k :
  List.find p (l ++ k) = match List.find p l with Some x => Some x | None => List.find p k end.
Proof. induction l as [|x l IH]; [done|]. cbn. by destruct (p x). Qed.
Lemma find_ext {A} (p q : A -> bool) l : (forall x, p x = q x) -> List.find p l = List.find q l.
Proof. intros Hpq. induction l as [|x l IH]; [done|]. cbn. by rewrite Hpq, IH. Qed.

(** * Equality of plug-ins and keys *)

(** [plug_in_eq] compares the images of [plug_in_key]. *)
Definition plug_in_key (p : PlugIn) :=
  (path_key (pi_path p), pi_usb_device p, pi_serial_number p, pi_vendor_id p, pi_product_id p).
Lemma plug_in_eq_spec a b : plug_in_eq a b = true <-> plug_in_key a = plug_in_key b.
Proof.
  unfold plug_in_eq, path_eq, plug_in_key. rewrite !andb_true_iff, !bool_decide_eq_true, !Z.eqb_eq.
  by rewrite !pair_eq.
Qed.

Definition key_key (k : PlugIn * nat) := (plug_in_key k.1, k.2).
Lemma key_eq_spec a b : key_eq a b = true <-> key_key a = key_key b.
Proof.
  unfold key_eq, key_key. rewrite andb_true_iff, plug_in_eq_spec, Nat.eqb_eq.
  by rewrite pair_eq.
Qed.
Lemma key_eq_cong a b k : key_key a = key_key b -> key_eq k a = key_eq k b.
Proof. intros E. apply eq_true_iff_eq. by rewrite !key_eq_spec, E. Qed.

Lemma cache_get_put c k x k' :
  cache_get (cache_put c k x) k' = if key_eq k k' then Some x else cache_get c k'.
Proof.
  unfold cache_get, cache_put. rewrite find_app. destruct (key_eq k k') eqn:E.
  - apply key_eq_spec in E. rewrite find_filter_dropped; [cbn|].
    + by rewrite (proj2 (key_eq_spec _ _) E).
    + intros e He. by rewrite (key_eq_cong _ _ _ E), He.
  - rewrite find_filter_kept; [cbn; rewrite E; by destruct List.find|].
    intros e He. destruct (key_eq e.1 k) eqn:E2; [|done].
    apply key_eq_spec in He, E2. rewrite E2 in He. by apply key_eq_spec in He; rewrite He in E.
Qed.

Definition present (hids : list HidDevice) (p : PlugIn) : bool := existsb (plug_in_eq p) (plug_in_of <$> hids).
Lemma present_cong hids a b : plug_in_key a = plug_in_key b -> present hids a = present hids b.
Proof.
  intros E. unfold present. induction (plug_in_of <$> hids) as [|p l IH]; [done|]. cbn. rewrite IH. f_equal.
  apply eq_true_iff_eq. by rewrite !plug_in_eq_spec, E.
Qed.
Lemma cache_get_forget c hids k :
  cache_get (forget_gone hids c) k = if present hids k.1 then cache_get c k else None.
Proof.
  assert (Hk : forall e, key_eq e k = true -> present hids e.1 = present hids k.1).
  { intros e He. apply present_cong. apply key_eq_spec in He. by apply pair_eq in He as [He _]. }
  unfold cache_get, forget_gone. fold (present hids).
  destruct (present hids k.1) eqn:E; [rewrite find_filter_kept|rewrite find_filter_dropped]; try done;
    intros e He; apply Hk in He; unfold present in *; congruence.
Qed.

(** * The log of questions *)

(** Registry index, interface asked, answer. *)
Definition Asked : Type := nat * HidDevice * KeyAnswer CanonicalId.
Definition asked_key (e : Asked) : PlugIn * nat := (plug_in_of e.1.2, e.1.1).
Definition about (k : PlugIn * nat) (e : Asked) : bool := key_eq (asked_key e) k.

(** An answer that is kept: a refusal, or the identity of a plug-in that names one key. *)
Definition settles (e : Asked) : bool :=
  match e.2 with KReply _ => unique_per_plug_in e.1.2 | KDeclined => true | KNoAnswer => false end.
(** The last identity the plug-in gave to this question. *)
Definition last_word (log : list Asked) (k : PlugIn * nat) : option CanonicalId :=
  foldl (fun w e => match e.2 with KReply i => if about k e then Some i else w | _ => w end) None log.

Lemma last_word_snoc log e k :
  last_word (log ++ [e]) k = match e.2 with KReply i => if about k e then Some i else last_word log k | _ => last_word log k end.
Proof. unfold last_word. by rewrite foldl_app. Qed.

(** What happens, scan after scan: the interfaces found, and the questions put. *)
Inductive Event := EScan (hids : list HidDevice) | EAsk (e : Asked).
(** The questions put since the plug-in was last seen to be gone. *)
Definition since (p : PlugIn) (log : list Event) : list Asked :=
  foldl (fun l ev => match ev with EScan hids => if present hids p then l else [] | EAsk e => l ++ [e] end) [] log.

Lemma since_ask p log e : since p (log ++ [EAsk e]) = since p log ++ [e].
Proof. unfold since. by rewrite foldl_app. Qed.
Lemma since_scan p log hids : since p (log ++ [EScan hids]) = if present hids p then since p log else [].
Proof. unfold since. by rewrite foldl_app. Qed.
Lemma since_cong a b log : plug_in_key a = plug_in_key b -> since a log = since b log.
Proof.
  intros E. induction log as [|[hids|e] log IH] using rev_ind; [done| |].
  - by rewrite !since_scan, IH, (present_cong hids _ _ E).
  - by rewrite !since_ask, IH.
Qed.

(** One scan: what was planned, and the interfaces found. *)
Definition Scan : Type := IdentityPlan * list HidDevice.
Definition Ids : Type := gmap (bool * bool * list (list Z)) CanonicalId.

Section logged.
Context {S : Type} (ask : nat -> HidDevice -> S -> KeyAnswer CanonicalId * S).

Definition logged (v : nat) (h : HidDevice) (st : list Event * S) : KeyAnswer CanonicalId * (list Event * S) :=
  let '(a, s) := ask v h st.2 in (a, (st.1 ++ [EAsk (v, h, a)], s)).

(** Scans in a row over one cache: each scan's identities with the log as it was
    then, then the cache and the log. *)
Fixpoint scans_loop (scans : list Scan) (cache : HidIdCache) (st : list Event * S) : list (Ids * list Event) * HidIdCache * (list Event * S) :=
  match scans with
  | [] => ([], cache, st)
  | (plan, hids) :: scans =>
      let '(out, cache, st) := hid_identities_from logged cache plan hids (st.1 ++ [EScan hids], st.2) in
      let '(outs, cache, st') := scans_loop scans cache st in
      ((out, st.1) :: outs, cache, st')
  end.
Definition run_scans (scans : list Scan) (s : S) := scans_loop scans [] ([], s).

(** What a remembered entry says of the log. *)
Definition entry_ok (log : list Asked) (k : PlugIn * nat) (x : Cached) : Prop :=
  match x with
  | CAnswer (Some i) =>
      last_word log k = Some i /\ exists e, e ∈ log /\ about k e = true /\ e.2 = KReply i /\ unique_per_plug_in e.1.2 = true
  | CAnswer None => exists e, e ∈ log /\ about k e = true /\ e.2 = KDeclined
  | CFallback i => last_word log k = Some i
  end.
Definition remembers (c : HidIdCache) (log : list Event) : Prop :=
  forall k x, cache_get c k = Some x -> entry_ok (since k.1 log) k x.

(** Once a question is settled, it is not put again. *)
Definition once (k : PlugIn * nat) (log : list Asked) : Prop :=
  forall a e b, log = a ++ e :: b -> about k e = true -> settles e = true -> Forall (fun e' => about k e' = false) b.
Definition settled (k : PlugIn * nat) (c : HidIdCache) (log : list Asked) : Prop :=
  forall e, e ∈ log -> about k e = true -> settles e = true -> exists o, cache_get c k = Some (CAnswer o).

(** An identity given for a path is one that an interface with that path, on that very
    plug-in, gave since it was plugged in. *)
Definition spoke (log : list Event) (hids : list HidDevice) (pk : bool * bool * list (list Z)) (i : CanonicalId) : Prop :=
  exists h e, h ∈ hids /\ path_key (h_path h) = pk /\ e ∈ since (plug_in_of h) log /\ plug_in_eq (plug_in_of e.1.2) (plug_in_of h) = true /\ e.2 = KReply i.

Lemma about_refl v h a : about (plug_in_of h, v) (v, h, a) = true.
Proof. by apply key_eq_spec. Qed.
Lemma about_cong k k' e : key_eq k k' = true -> about k e = about k' e.
Proof. intros E. apply key_eq_cong, key_eq_spec, E. Qed.
Lemma last_word_cong log k k' : key_eq k k' = true -> last_word log k = last_word log k'.
Proof.
  intros E. induction log as [|e log IH] using rev_ind; [done|].
  by rewrite !last_word_snoc, IH, (about_cong _ _ _ E).
Qed.
Lemma last_word_in log k i : last_word log k = Some i -> exists e, e ∈ log /\ about k e = true /\ e.2 = KReply i.
Proof.
  induction log as [|e log IH] using rev_ind; [done|]. rewrite last_word_snoc.
  assert (Hold : last_word log k = Some i -> exists e', e' ∈ log ++ [e] /\ about k e' = true /\ e'.2 = KReply i).
  { intros (e' & ? & ?)%IH. exists e'. split; [by apply elem_of_app; left|done]. }
  destruct e.2 as [j| |] eqn:E; try done. destruct (about k e) eqn:Ea; [|done].
  intros [= ->]. exists e. split; [apply elem_of_app; right; apply list_elem_of_singleton|]; done.
Qed.
Lemma entry_ok_cong log k k' x : key_eq k k' = true -> entry_ok log k x -> entry_ok log k' x.
Proof.
  intros E. destruct x as [[i|]|i]; cbn; rewrite <- ?(last_word_cong _ _ _ E).
  - intros (? & e & ? & Ha & ?). split; [done|]. exists e. by rewrite <- (about_cong _ _ _ E).
  - intros (e & ? & Ha & ?). exists e. by rewrite <- (about_cong _ _ _ E).
  - done.
Qed.
Lemma entry_ok_spoke log k x i :
  entry_ok log k x -> (x = CAnswer (Some i) \/ x = CFallback i) -> exists e, e ∈ log /\ about k e = true /\ e.2 = KReply i.
Proof. intros H [-> | ->]; [by apply last_word_in, H|by apply last_word_in]. Qed.

(** A question about another key, or one without an identity, changes no entry. *)
Lemma entry_ok_snoc log k x e :
  (about k e = true -> e.2 = KNoAnswer) -> entry_ok log k x -> entry_ok (log ++ [e]) k x.
Proof.
  intros He. assert (Hw : last_word (log ++ [e]) k = last_word log k).
  { rewrite last_word_snoc. destruct e.2 eqn:E2; try done. destruct (about k e) eqn:Ea; [by specialize (He eq_refl)|done]. }
  destruct x as [[i|]|i]; cbn; rewrite ?Hw; [intros (? & e' & ? & ?); split; [done|]|intros (e' & ? & ?)|done];
    (exists e'; split; [by apply elem_of_app; left|done]).
Qed.

Lemma once_snoc k log e :
  once k log -> (about k e = true -> forall e', e' ∈ log -> about k e' = true -> settles e' = false) -> once k (log ++ [e]).
Proof.
  intros Ho He a x b Hl Hx Hs. destruct b as [|y b _] using rev_ind; [done|].
  rewrite app_comm_cons, app_assoc in Hl. apply app_inj_tail in Hl as [Hl <-]. apply Forall_app. split.
  - by eapply Ho.
  - apply Forall_singleton. destruct (about k e) eqn:Ea; [|done].
    rewrite (He eq_refl x) in Hs; [done| |done]. rewrite Hl. apply elem_of_app. right. left.
Qed.

(** The invariant of a key's questions over the cache and the log. *)
Record tracked (k : PlugIn * nat) (c : HidIdCache) (log : list Asked) : Prop := {
  tr_once : once k log;
  tr_settled : settled k c log }.

(** What one look-up does: no question, with the remembered answer; or one question. *)
Definition entry_of (h : HidDevice) (a : KeyAnswer CanonicalId) (earlier : option Cached) : option Cached :=
  match a with
  | KReply i => Some (if unique_per_plug_in h then CAnswer (Some i) else CFallback i)
  | KDeclined => Some (CAnswer None)
  | KNoAnswer => match earlier with Some (CFallback i) => Some (CFallback i) | _ => None end
  end.
Definition given (x : option Cached) (r : option (option CanonicalId)) : Prop :=
  forall i, r = Some (Some i) -> x = Some (CAnswer (Some i)) \/ x = Some (CFallback i).

Lemma one_identity_step h v c log s r c' st :
  one_identity logged h v c (log, s) = (r, c', st) ->
  given (cache_get c' (plug_in_of h, v)) r /\
  ((c' = c /\ st.1 = log /\ exists o, cache_get c (plug_in_of h, v) = Some (CAnswer o)) \/
   (exists a, st.1 = log ++ [EAsk (v, h, a)] /\ ~ (exists o, cache_get c (plug_in_of h, v) = Some (CAnswer o)) /\
      match entry_of h a (cache_get c (plug_in_of h, v)) with
      | Some x => c' = cache_put c (plug_in_of h, v) x
      | None => c' = c /\ a = KNoAnswer
      end)).
Proof.
  unfold one_identity, logged, entry_of, given. cbn [fst snd].
  assert (Hr : key_eq (plug_in_of h, v) (plug_in_of h, v) = true) by by apply key_eq_spec.
  destruct (cache_get c (plug_in_of h, v)) as [[o|f]|] eqn:Ec;
    [intros [= <- <- <-]; split; [intros i [= ->]; rewrite Ec; by left|left; eauto]| |];
    destruct (ask v h s) as [[i| |] s'] eqn:Ea; intros [= <- <- <-]; rewrite ?cache_get_put, ?Hr;
    (split; [intros j Hj; simplify_eq; destruct (unique_per_plug_in h); by eauto|]);
    right; eexists; (split; [done|]); (split; [by intros [? [=]]|done]).
Qed.

Lemma cache_get_cong c k k' : key_eq k k' = true -> cache_get c k = cache_get c k'.
Proof.
  intros E. unfold cache_get. f_equal. apply find_ext. intros e.
  apply key_eq_cong, key_eq_spec, E.
Qed.
Lemma elem_of_snoc {A} (l : list A) x y : x ∈ l ++ [y] <-> x ∈ l \/ x = y.
Proof. by rewrite elem_of_app, list_elem_of_singleton. Qed.

Lemma entry_of_ok h v a c log x :
  remembers c log -> entry_of h a (cache_get c (plug_in_of h, v)) = Some x ->
  entry_ok (since (plug_in_of h) (log ++ [EAsk (v, h, a)])) (plug_in_of h, v) x.
Proof.
  intros Hr. rewrite since_ask. set (l := since _ _). unfold entry_of. destruct a as [i| |].
  - intros [= <-]. assert (Hw : last_word (l ++ [(v, h, KReply i)]) (plug_in_of h, v) = Some i).
    { by rewrite last_word_snoc, about_refl. }
    destruct (unique_per_plug_in h) eqn:Hu; [|done]. split; [done|]. exists (v, h, KReply i).
    rewrite elem_of_snoc, about_refl. auto.
  - intros [= <-]. exists (v, h, KDeclined). rewrite elem_of_snoc, about_refl. auto.
  - destruct (cache_get c (plug_in_of h, v)) as [[o|f]|] eqn:E; intros [= <-].
    apply entry_ok_snoc; [done|]. by apply (Hr (plug_in_of h, v)).
Qed.

Lemma step_remembers h v c log s r c' st :
  one_identity logged h v c (log, s) = (r, c', st) -> remembers c log -> remembers c' st.1.
Proof.
  intros [_ [(-> & -> & _) | (a & -> & _ & Hx)]]%one_identity_step Hr; [done|].
  intros k y. destruct entry_of as [x|] eqn:Ex.
  - subst c'. rewrite cache_get_put. destruct key_eq eqn:Ek; intros E.
    + injection E as <-. eapply entry_ok_cong; [exact Ek|]. apply key_eq_spec, pair_eq in Ek as [Ek _].
      rewrite <- (since_cong _ _ _ Ek). by eapply entry_of_ok.
    + rewrite since_ask. apply entry_ok_snoc; [|by apply Hr]. unfold about, asked_key. cbn. by rewrite Ek.
  - destruct Hx as [-> ->]. intros E. rewrite since_ask. apply entry_ok_snoc; [done|by apply Hr].
Qed.

Lemma step_tracked k h v c log s r c' st :
  one_identity logged h v c (log, s) = (r, c', st) -> tracked k c (since k.1 log) -> tracked k c' (since k.1 st.1).
Proof.
  intros [_ [(-> & -> & _) | (a & -> & Hn & Hx)]]%one_identity_step [Ho Hs]; [done|]. rewrite since_ask.
  assert (Hopen : about k (v, h, a) = true -> ~ exists o, cache_get c k = Some (CAnswer o)).
  { intros Ha. by rewrite <- (cache_get_cong _ _ _ Ha). }
  split.
  - apply once_snoc; [done|]. intros Ha e He Hk. destruct (settles e) eqn:Hse; [|done].
    destruct (Hopen Ha). by eapply Hs.
  - intros e. rewrite elem_of_snoc. intros [He | ->] Hk Hse.
    + destruct (Hs e He Hk Hse) as [o Hc]. exists o. destruct entry_of; [|by destruct Hx as [-> _]].
      rewrite Hx, cache_get_put. destruct key_eq eqn:Ek; [destruct (Hopen Ek); eauto|done].
    + destruct a as [i| |]; [| |done]; cbn in Hx, Hse; rewrite ?Hse in Hx; rewrite Hx, cache_get_put;
        unfold about, asked_key in Hk; cbn in Hk; rewrite Hk; eauto.
Qed.

Lemma step_spoke h v c log s i c' st hids :
  one_identity logged h v c (log, s) = (Some (Some i), c', st) -> remembers c log -> h ∈ hids ->
  spoke st.1 hids (path_key (h_path h)) i.
Proof.
  intros E Hr Hh. pose proof (step_remembers _ _ _ _ _ _ _ _ E Hr) as Hr'.
  apply one_identity_step in E as [Hg _]. specialize (Hg _ eq_refl).
  assert (exists e, e ∈ since (plug_in_of h) st.1 /\ about (plug_in_of h, v) e = true /\ e.2 = KReply i) as (e & He & Ha & Hi).
  { destruct Hg as [Hg|Hg]; apply Hr' in Hg; [by eapply entry_ok_spoke; [|left]|by eapply entry_ok_spoke; [|right]]. }
  exists h, e. split_and!; try done. unfold about, asked_key, key_eq in Ha. by apply andb_true_iff in Ha as [Ha _].
Qed.

Lemma step_spoke_later h v c log s r c' st hids pk i :
  one_identity logged h v c (log, s) = (r, c', st) -> spoke log hids pk i -> spoke st.1 hids pk i.
Proof.
  intros [_ [(_ & -> & _) | (a & -> & _)]]%one_identity_step; [done|]. intros (h' & e & ? & ? & He & ? & ?). exists h', e.
  split_and!; try done. rewrite since_ask. apply elem_of_app. by left.
Qed.

Definition all_spoke (log : list Event) (hids : list HidDevice) (out : Ids) : Prop :=
  map_Forall (fun pk i => spoke log hids pk i) out.

(** * Scans *)

Lemma loop_ok hids plan c out log s out' c' st :
  identities_loop logged hids plan c out (log, s) = (out', c', st) ->
  remembers c log -> all_spoke log hids out ->
  remembers c' st.1 /\ all_spoke st.1 hids out' /\ (forall k, tracked k c (since k.1 log) -> tracked k c' (since k.1 st.1)).
Proof.
  revert c out log s. induction plan as [|[v path] plan IH]; cbn; intros c out log s; [by intros [= <- <- <-]|].
  destruct List.find as [h|] eqn:Hf; [|apply IH].
  destruct (one_identity logged h v c (log, s)) as [[i c1] [log1 s1]] eqn:E1. intros El Hr Ha.
  apply List.find_some in Hf as [Hh%list_elem_of_In Hp%bool_decide_eq_true].
  pose proof (step_remembers _ _ _ _ _ _ _ _ E1 Hr) as Hr1.
  assert (Ha1 : all_spoke log1 hids out) by (intros pk j Hj; eapply (step_spoke_later _ _ _ _ _ _ _ _ _ _ _ E1); by apply Ha).
  apply IH in El as (? & ? & Ht); [split_and!; try done| |].
  - intros k Hk. apply Ht. by apply (step_tracked _ _ _ _ _ _ _ _ _ E1).
  - done.
  - destruct i as [[i|]|]; try done. apply map_Forall_insert_2; [|done]. rewrite <- Hp.
    by apply (step_spoke _ _ _ _ _ _ _ _ hids E1).
Qed.

Lemma forget_remembers c log hids : remembers c log -> remembers (forget_gone hids c) (log ++ [EScan hids]).
Proof. intros Hr k x. rewrite cache_get_forget, since_scan. destruct present; [apply Hr|done]. Qed.
Lemma forget_tracked k c log hids : tracked k c (since k.1 log) -> tracked k (forget_gone hids c) (since k.1 (log ++ [EScan hids])).
Proof.
  intros [Ho Hs]. rewrite since_scan. destruct (present hids k.1) eqn:Hp.
  - split; [done|]. intros e. rewrite cache_get_forget, Hp. apply Hs.
  - split; [|by intros e He%elem_of_nil]. by intros [|] e b Hl.
Qed.

Lemma scans_ok scans c log s outs c' st :
  scans_loop scans c (log, s) = (outs, c', st) -> remembers c log ->
  Forall2 (fun sc out => all_spoke out.2 sc.2 out.1) scans outs /\ remembers c' st.1 /\
  (forall k, tracked k c (since k.1 log) -> tracked k c' (since k.1 st.1)).
Proof.
  revert c log s outs. induction scans as [|[plan hids] scans IH]; cbn [scans_loop]; intros c log s outs; [by intros [= <- <- <-]|].
  cbn [fst snd]. destruct (hid_identities_from logged c plan hids (log ++ [EScan hids], s)) as [[out c1] [log1 s1]] eqn:E1.
  destruct (scans_loop scans c1 (log1, s1)) as [[outs' c2] st2] eqn:E2. intros [= <- <- <-] Hr.
  apply loop_ok in E1 as (Hr1 & Ha & Ht); [|by apply forget_remembers|apply map_Forall_empty].
  apply IH in E2 as (Hf & Hr2 & Ht2); [|done]. split_and!.
  - by constructor.
  - done.
  - intros k Hk. apply Ht2. by apply Ht, forget_tracked.
Qed.

End logged.
