(* ===== verification/Correlate.v ===== *)
(** keyroost-resolve/src/device.rs, from a scan to rows: model labels, one row per
    token and card key, FIDO nodes merged into the row of their own key, ids told
    apart, the rows sorted and named. Bindings come from Match.v. Then what the rows
    promise. *)
From S2P Require Export Match KeyNames.
From S2P Require PgpAlg Token2Ids.

(** * Model labels *)

(** [s.split_whitespace()] on a string's characters. *)
Fixpoint words (cur cs : list Z) : list (list Z) :=
  match cs with
  | [] => match cur with [] => [] | _ => [rev cur] end
  | c :: cs =>
      if is_whitespace c then match cur with [] => words [] cs | _ => rev cur :: words [] cs end
      else words (c :: cur) cs
  end.
Definition split_whitespace (s : list Z) : list (list Z) := utf8_encode <$> words [] (chars s).

(** [s.replace(p, r)] for a [p] that is not empty. *)
Fixpoint replace_from (skip : nat) (p r s : list Z) : list Z :=
  match s with
  | [] => []
  | x :: s' =>
      match skip with
      | S k => replace_from k p r s'
      | O => if starts_with p s then r ++ replace_from (pred (length p)) p r s' else x :: replace_from O p r s'
      end
  end.
Definition str_replace (p r s : list Z) : list Z := replace_from 0 p r s.

Example str_replace_ex : str_replace (s2b "ab") (s2b "-") (s2b "xababyab") = s2b "x--y-".
Proof. reflexivity. Qed.

Definition card_vendor (openpgp_manufacturer : option Z) (reader_name : list Z) : list Z :=
  match openpgp_manufacturer ≫= PgpAlg.manufacturer_name with
  | Some name => name
  | None => default (s2b "Key") (head (split_whitespace reader_name))
  end.

(** Characters outside brackets. *)
Fixpoint unbracketed (depth : Z) (cs : list Z) : list Z :=
  match cs with
  | [] => []
  | ch :: cs =>
      if (ch =? 91) || (ch =? 40) then unbracketed (depth + 1) cs
      else if (ch =? 93) || (ch =? 41) then unbracketed (Z.max (depth - 1) 0) cs
      else if depth =? 0 then ch :: unbracketed depth cs else unbracketed depth cs
  end.
Definition JUNK : list (list Z) :=
  [s2b "CCID/ICCD Interface"; s2b "OTP+FIDO+CCID"; s2b "FIDO+CCID"; s2b "OTP+FIDO"; s2b "U2F+CCID"; s2b "+CCID";
   s2b "ICCD"; s2b "CCID"; s2b "Interface"; s2b "Smartcard"; s2b "Smart Card"].
Definition is_index (part : list Z) : bool := (zlen part =? 2) && forallb is_ascii_digit part.
(** Trailing two-digit groups, the first part kept; parts last first. *)
Fixpoint drop_indices (parts : list (list Z)) : list (list Z) :=
  match parts with
  | last :: (_ :: _) as rest => if is_index last then drop_indices rest else parts
  | _ => parts
  end.

Definition clean_model (raw vendor : list Z) : list Z :=
  let s := utf8_encode (unbracketed 0 (chars raw)) in
  let s := foldl (fun s junk => str_replace junk [32] s) s JUNK in
  let lead := trim_start s in
  let s :=
    if negb (bool_decide (vendor = [])) && starts_with (to_ascii_lowercase vendor) (to_ascii_lowercase lead)
    then drop (length vendor) lead else s in
  let parts := rev (drop_indices (rev (split_whitespace s))) in
  let out := joined [32] parts in
  if bool_decide (out = []) then vendor else out.

(** [s.strip_suffix(x)]. *)
Definition strip_suffix (x s : list Z) : option (list Z) :=
  if starts_with (rev x) (rev s) then Some (take (length s - length x) s) else None.

Definition product_model (product vendor : list Z) : option (list Z) :=
  let model := clean_model product vendor in
  let model := trim (default model (strip_suffix (s2b "Security Key") model)) in
  if negb (bool_decide (model = [])) && negb (bool_decide (model = vendor)) then Some model else None.

Definition reader_model (reader_name vendor : list Z) (windows : bool) : list Z :=
  let name :=
    match rsplit_once 32 reader_name with
    | Some (head, n) => if windows && negb (bool_decide (n = [])) && forallb is_ascii_digit n then head else reader_name
    | None => reader_name
    end in
  clean_model name vendor.

Example clean_model_ex :
  clean_model (s2b "Yubico YubiKey OTP+FIDO+CCID 00 00") (s2b "Yubico") = s2b "YubiKey" /\
  clean_model (s2b "Nitrokey Nitrokey 3 [CCID/ICCD Interface] 01 00") (s2b "Nitrokey") = s2b "Nitrokey 3" /\
  reader_model (s2b "SoloKeys CCID/ICCD Interface 0") (s2b "SoloKeys") true = s2b "SoloKeys" /\
  product_model (s2b "Solo 2 Security Key") (s2b "SoloKeys") = Some (s2b "Solo 2").
Proof. vm_compute. done. Qed.

(** keyroost-token2prog/src/commands.rs [model_for_serial]: the longest prefix, the
    last of several ([max_by_key]). *)
Definition MODELS : list (list Z * list Z) :=
  [(s2b "8659612", s2b "OTPC-P1-i"); (s2b "8659622", s2b "OTPC-P2-i"); (s2b "8659621", s2b "OTPC-P2-i-NB");
   (s2b "8659600", s2b "miniOTP-2-i"); (s2b "8659601", s2b "miniOTP-3-i"); (s2b "8659609", s2b "miniOTP-3-i-NB");
   (s2b "8659610", s2b "C301-i"); (s2b "8659632", s2b "C302-i")].
Definition model_for_serial (serial : list Z) : option (list Z) :=
  let s := trim serial in
  snd <$> foldl (fun best e => match best with
                  | Some b => if (length e.1 <? length b.1)%nat then Some b else Some e
                  | None => Some e end) None
    (List.filter (fun '(prefix, _) => starts_with prefix s) MODELS).

(** * Rows *)

Definition USB_PCSC : list Z := s2b "USB " ++ [0xC2; 0xB7] ++ s2b " PC/SC".
Definition USB_PCSC_HID : list Z := USB_PCSC ++ s2b " + FIDO HID".
Definition USB_HID : list Z := s2b "USB " ++ [0xC2; 0xB7] ++ s2b " FIDO HID".
Definition NFC_PCSC : list Z := s2b "NFC " ++ [0xC2; 0xB7] ++ s2b " PC/SC".

Definition molto_row (p : ReaderProbe) : Device :=
  mkDevice (s2b "molto:" ++ p_reader_name p) None (s2b "Token2") (s2b "Molto2") (default [] (p_serial p)) USB_PCSC []
    (Caps.insert Caps.empty Caps.TOTP) Caps.empty Token None (Some (p_reader_name p)) None None no_naming false.

Definition prog_row (p : ReaderProbe) : Device :=
  let serial := default [] (p_prog_serial p) in
  mkDevice (s2b "prog:" ++ p_reader_name p) None (s2b "Token2") (default (s2b "Programmable token") (model_for_serial serial)) serial
    NFC_PCSC [] (Caps.insert Caps.empty Caps.PROG) Caps.empty ProgToken None (Some (p_reader_name p)) None None no_naming false.

Definition insert_if (b : bool) (c s : Z) : Z := if b then Caps.insert s c else s.

(** A card key's row; none when the reader answered no applet. [windows] is
    [cfg!(windows)]. *)
Definition card_row (windows : bool) (p : ReaderProbe) : option Device :=
  let caps := insert_if (p_has_oath p) Caps.OATH Caps.empty in
  let caps := insert_if (p_has_openpgp p) Caps.PGP caps in
  let caps := insert_if (p_has_piv p) Caps.PIV caps in
  let caps := insert_if (p_has_fido p) Caps.FIDO2 caps in
  let unverified := insert_if (p_has_fido p && negb (p_fido_ctap2_confirmed p)) Caps.FIDO2 Caps.empty in
  let caps := insert_if (p_has_otp p) Caps.OTP caps in
  if Caps.is_empty caps then None else
  let serial := default [] (opt_or (p_yubikey_serial p) (p_serial p)) in
  let id := if bool_decide (serial = []) then s2b "reader:" ++ p_reader_name p else s2b "serial:" ++ serial in
  let vendor := if bool_decide (is_Some (p_yubikey_serial p)) then s2b "Yubico" else card_vendor (p_openpgp_manufacturer p) (p_reader_name p) in
  let model := reader_model (p_reader_name p) vendor windows in
  let model := if bool_decide (model = vendor) then default model (p_usb_product p ≫= fun prod => product_model prod vendor) else model in
  Some (mkDevice id None vendor model serial USB_PCSC [] caps unverified Key None (Some (p_reader_name p)) None
    (p_former_serial p) no_naming false).

(** The values that occur more than once. *)
Definition repeated (l : list (list Z)) : list (list Z) :=
  List.filter (fun s => 1 <? zlen (List.filter (fun t => bool_decide (t = s)) l)) l.

(** What a FIDO node brings to the merge. *)
Record Node := mkNode { n_hid : HidDevice; n_serial : list Z; n_from_identity : bool; n_reader : option (list Z) }.

Section correlate.
Context `{Unicode}.

(** [dev] with the node merged in. *)
Definition merge_into (n : Node) (dev : Device) : Device :=
  let hid := n_hid n in
  let serial := n_serial n in
  let has_otp := h_vendor_id hid =? Token2Ids.USB_VID in
  let caps := Caps.remove (Caps.insert (d_caps dev) Caps.FIDO2) Caps.FIDO_PROTOCOL_UNKNOWN in
  let unverified := Caps.remove (d_unverified dev) Caps.FIDO2 in
  let offer := has_otp && negb (Caps.has caps Caps.OTP) in
  let caps := insert_if offer Caps.OTP caps in
  let unverified := insert_if offer Caps.OTP unverified in
  let model :=
    if bool_decide (d_model dev = d_vendor dev) then default (d_model dev) (product_model (h_product_name hid) (d_vendor dev))
    else d_model dev in
  let empty := bool_decide (d_serial dev = []) in
  let hid_serial :=
    if negb empty && negb (bool_decide (canonical_serial serial = canonical_serial (d_serial dev))) && usable serial
    then Some serial else d_hid_serial dev in
  mkDevice (d_id dev) (d_name dev) (d_vendor dev) model (if empty then serial else d_serial dev) USB_PCSC_HID (d_firmware dev)
    caps unverified (d_kind dev) (Some (h_path hid)) (d_reader dev) hid_serial (d_former_serial dev) (d_naming dev)
    (d_smart_card_unlisted dev).

(** A row of its own. *)
Definition hid_row (n : Node) : Device :=
  let hid := n_hid n in
  let serial := n_serial n in
  let is_token2 := h_vendor_id hid =? Token2Ids.USB_VID in
  let id := if bool_decide (serial = []) then s2b "hid:" ++ path_display (h_path hid) else s2b "serial:" ++ serial in
  let caps := insert_if is_token2 Caps.OTP (Caps.insert Caps.empty Caps.FIDO2) in
  let unverified := insert_if is_token2 Caps.OTP Caps.empty in
  let vendor := vendor_name (h_vendor_id hid) in
  let cleaned := clean_model (h_product_name hid) vendor in
  let model := if is_token2 then default cleaned (Token2Ids.token2_pid_label (h_product_id hid)) else cleaned in
  mkDevice id None vendor model serial USB_HID [] caps unverified Key (Some (h_path hid)) (n_reader n) None None no_naming false.

(** Whether the node belongs to the row. *)
Definition joins (dup_serials : list (list Z)) (n : Node) (d : Device) : bool :=
  bool_decide (d_kind d = Key) &&
  (bool_decide (is_Some (n_reader n)) && bool_decide (d_reader d = n_reader n) ||
   negb (bool_decide (n_serial n = [])) && negb (n_from_identity n) && negb (bool_decide (n_serial n ∈ dup_serials)) &&
   bool_decide (d_serial d = n_serial n)).

Definition merge_node (dup_serials : list (list Z)) (devices : list Device) (n : Node) : list Device :=
  match position (joins dup_serials n) devices with
  | Some i => alter (merge_into n) i devices
  | None => devices ++ [hid_row n]
  end.

(** Rows that share an id get their reader or path appended. *)
Definition with_id (d : Device) (id : list Z) : Device :=
  mkDevice id (d_name d) (d_vendor d) (d_model d) (d_serial d) (d_transport d) (d_firmware d) (d_caps d) (d_unverified d)
    (d_kind d) (d_hid_path d) (d_reader d) (d_hid_serial d) (d_former_serial d) (d_naming d) (d_smart_card_unlisted d).
Definition disambiguate (devices : list Device) : list Device :=
  let dups := repeated (d_id <$> devices) in
  (fun d => if bool_decide (d_id d ∈ dups)
            then with_id d (d_id d ++ s2b "#" ++ default [] (opt_or (d_reader d) (path_display <$> d_hid_path d)))
            else d) <$> devices.

Definition display_cmp (a b : Device) : comparison :=
  then_with (then_with (cmp_bool (bool_decide (d_kind a = Token)) (bool_decide (d_kind b = Token))) (cmp_str (d_model a) (d_model b)))
    (cmp_str (d_id a) (d_id b)).

Definition yk_of (p : ReaderProbe) : YubiKeyCcid := mkYk (p_reader_name p) (p_usb_device p) (p_yubikey_serial p).

(** A node's serial: its USB serial, else the identity it reported, else one
    attributed over the card side. *)
Definition identity_serial (ids : Identities) (h : HidDevice) : option (list Z) := hid_id ids h ≫= row_serial.
Definition node_serials (hids : list HidDevice) (yk_readers : list YubiKeyCcid) (ids : Identities) (opts : MatchOptions) :
    list (option (list Z)) :=
  zip_with (fun h s => opt_or (h_serial_number h) (opt_or (identity_serial ids h) s)) hids
    (ccid_serials_attributed hids yk_readers (negb (skip_vendor_fallback opts))).
Definition node_from_identity (ids : Identities) (h : HidDevice) : bool :=
  bool_decide (h_serial_number h = None) && bool_decide (is_Some (identity_serial ids h)).

Definition nodes (hids : list HidDevice) (serials : list (option (list Z))) (ids : Identities) (bound : Bound) : list Node :=
  imap (fun i h => mkNode h (default [] (mjoin (serials !! i))) (node_from_identity ids h) (fst <$> mjoin (bound !! i))) hids.

Definition base_rows (windows : bool) (hids : list HidDevice) (probes : list ReaderProbe) : list Device :=
  (molto_row <$> List.filter (fun p => p_is_molto2 p && negb (has_fido_hid_sibling p hids)) probes) ++
  (prog_row <$> List.filter p_is_prog probes) ++
  omap (card_row windows) (List.filter not_molto probes).

(** Everything before the rows are sorted and named. *)
Definition merged_rows (windows : bool) (hids : list HidDevice) (probes : list ReaderProbe) (ids : Identities) (opts : MatchOptions) :
    list Device :=
  let yk_readers := yk_of <$> List.filter not_molto probes in
  let serials := node_serials hids yk_readers ids opts in
  let rows := base_rows windows hids probes in
  let card_serials := d_serial <$> List.filter (fun d => bool_decide (d_kind d = Key) && negb (bool_decide (d_serial d = []))) rows in
  let dup_serials := repeated (omap id serials) ++ repeated card_serials in
  let bound := bind_readers hids probes yk_readers ids opts in
  foldl (merge_node dup_serials) rows (nodes hids serials ids bound).

(** The nodes and probes matching works on. *)
Definition scanned (hids : list HidDevice) (probes : list ReaderProbe) (opts : MatchOptions) : list HidDevice * list ReaderProbe :=
  let '(hids, probes) := if skip_topology opts then without_topology hids probes else (hids, probes) in
  (List.filter is_fido hids, probes).

Definition correlate_with (windows : bool) (hids : list HidDevice) (probes : list ReaderProbe) (k : Keyring) (ids : Identities)
    (opts : MatchOptions) : list Device :=
  let '(hids, probes) := scanned hids probes opts in
  (apply_names (sort_by display_cmp (disambiguate (merged_rows windows hids probes ids opts))) k ∅).1.

(** The trace of the bindings. *)
Definition match_lines (hids : list HidDevice) (bound : Bound) : list (list Z) :=
  zip_with (fun h (b : option (list Z * MatchStep)) =>
    let to := match b with
              | Some (r, step) => s2b "'" ++ reader_name r ++ s2b "' by " ++ match_label step
              | None => s2b "no reader"
              end in
    format_line Note (s2b "match") (path_display (h_path h) ++ s2b " -> " ++ to)) hids bound.

Definition correlate (windows : bool) (hids : list HidDevice) (probes : list ReaderProbe) (k : Keyring) : list Device :=
  correlate_with windows hids probes k (mkIds ∅ ∅) (mkOpts false false false).
End correlate.

(** What a scan's rows promise (keyroost-resolve/src/device.rs): a row that holds a FIDO node
    and a reader holds the two of one key, a capability marked unverified is one that is
    offered, and a card that answered is never lost. *)

(** * Capability sets, bit by bit *)

Lemma testbit_flag k n : 0 <= k -> 0 <= n -> Z.testbit (Z.shiftl 1 k) n = (n =? k).
Proof.
  intros Hk Hn. rewrite Z.shiftl_spec by done. destruct (n =? k) eqn:E; bools.
  - subst. by rewrite Z.sub_diag.
  - destruct (decide (n - k < 0)) as [Hlt|Hge]; [by apply Z.testbit_neg_r|].
    destruct (n - k) as [|p|p] eqn:Hp; try lia. done.
Qed.

Lemma testbit_remove s k n :
  0 <= k < 16 -> 0 <= n < 16 -> Z.testbit (Caps.remove s (Z.shiftl 1 k)) n = Z.testbit s n && negb (n =? k).
Proof.
  intros Hk Hn. unfold Caps.remove. rewrite Z.land_spec, Z.lxor_spec, testbit_flag by lia.
  assert (Z.testbit 0xFFFF n = true) as ->; [|by destruct (n =? k)].
  change 0xFFFF with (Z.ones 16). apply Z.ones_spec_low. lia.
Qed.

(** What a scan marks unverified: only FIDO2 and OTP, and only when offered. *)
Definition caps_ok (d : Device) : Prop :=
  0 <= d_unverified d /\
  forall n, 0 <= n -> Z.testbit (d_unverified d) n = true -> (n = 0 \/ n = 5) /\ Z.testbit (d_caps d) n = true.

Lemma caps_ok_subset d : caps_ok d -> Z.land (d_unverified d) (d_caps d) = d_unverified d.
Proof.
  intros [_ Hc]. apply Z.bits_inj'. intros n Hn. rewrite Z.land_spec.
  destruct (Z.testbit (d_unverified d) n) eqn:Hu; [|done]. by destruct (Hc n Hn Hu) as [_ ->].
Qed.

Lemma testbit_insert_if b c s n : Z.testbit (insert_if b c s) n = Z.testbit s n || (b && Z.testbit c n).
Proof. unfold insert_if, Caps.insert. destruct b; [by rewrite Z.lor_spec|by rewrite orb_false_r]. Qed.
Lemma insert_if_nonneg b c s : 0 <= s -> 0 <= c -> 0 <= insert_if b c s.
Proof. intros Hs Hc. unfold insert_if, Caps.insert. destruct b; [|done]. by apply Z.lor_nonneg. Qed.

Lemma molto_caps p : caps_ok (molto_row p).
Proof. split; [done|]. intros n Hn Hu. by rewrite Z.testbit_0_l in Hu. Qed.
Lemma prog_caps p : caps_ok (prog_row p).
Proof. split; [done|]. intros n Hn Hu. by rewrite Z.testbit_0_l in Hu. Qed.

Lemma card_caps windows p d : card_row windows p = Some d -> caps_ok d.
Proof.
  unfold card_row. destruct (Caps.is_empty _); [done|]. intros [= <-]. split; cbn -[insert_if Caps.FIDO2 Caps.OTP].
  - by apply insert_if_nonneg.
  - intros n Hn. rewrite !testbit_insert_if, Z.testbit_0_l. unfold Caps.FIDO2. rewrite testbit_flag by lia.
    cbn [orb]. intros [Hb Hk]%andb_true_iff. apply Z.eqb_eq in Hk as ->. split; [by left|].
    apply andb_true_iff in Hb as [-> _]. by rewrite !orb_true_r.
Qed.

Lemma hid_caps n : caps_ok (hid_row n).
Proof.
  split; cbn -[insert_if Caps.FIDO2 Caps.OTP]; [by apply insert_if_nonneg|].
  intros k Hk. rewrite !testbit_insert_if, Z.testbit_0_l. cbn [orb]. unfold Caps.OTP. rewrite testbit_flag by lia.
  intros Hb. split; [apply andb_true_iff in Hb as [_ Hb]; right; by apply Z.eqb_eq|]. by rewrite Hb, orb_true_r.
Qed.

Section rows.
Context `{Unicode}.

Lemma merge_caps n d : caps_ok d -> caps_ok (merge_into n d).
Proof.
  intros [Hn Hc]. unfold merge_into. cbn zeta. unfold caps_ok. cbn [d_unverified d_caps].
  set (offer := _ && _). clearbody offer. unfold Caps.FIDO2, Caps.OTP, Caps.FIDO_PROTOCOL_UNKNOWN. split.
  - apply insert_if_nonneg; [|done]. unfold Caps.remove. apply Z.land_nonneg. by left.
  - intros k Hk. rewrite !testbit_insert_if. unfold Caps.insert. rewrite testbit_flag by lia.
    destruct (decide (k < 16)) as [Hlt|Hge].
    + rewrite !testbit_remove, Z.lor_spec, testbit_flag by lia. intros [[Hu Hk0]%andb_true_iff|Ho]%orb_true_iff.
      * destruct (Hc k Hk Hu) as [Hk5 Hck]. split; [done|]. rewrite Hck. destruct Hk5 as [->| ->]; done.
      * apply andb_true_iff in Ho as [-> Hk5]. apply Z.eqb_eq in Hk5 as ->. split; [by right|]. by rewrite orb_true_r.
    + intros [Hu|Ho]%orb_true_iff.
      * unfold Caps.remove in Hu. rewrite Z.land_spec in Hu. apply andb_true_iff in Hu as [Hu _]. apply Hc in Hu; lia.
      * apply andb_true_iff in Ho as [_ Ho]. apply Z.eqb_eq in Ho. lia.
Qed.

(** * Which node and reader a row holds *)

(** A node and a row are of one key: the reader bound to the node, or a serial of
    the node's own that nothing else has. *)
Definition one_key (dups : list (list Z)) (n : Node) (d : Device) : Prop :=
  d_reader d = n_reader n \/
  n_serial n <> [] /\ n_from_identity n = false /\ n_serial n ∉ dups /\ d_serial d = n_serial n.

Definition row_ok (dups : list (list Z)) (ns : list Node) (d : Device) : Prop :=
  caps_ok d /\ forall p, d_hid_path d = Some p -> exists n, n ∈ ns /\ h_path (n_hid n) = p /\ one_key dups n d.

Lemma joins_one_key dups n d : joins dups n d = true -> one_key dups n (merge_into n d).
Proof.
  unfold joins. intros [_ Hj]%andb_true_iff. unfold one_key, merge_into. cbn [d_reader d_serial].
  apply orb_true_iff in Hj as [[_ Hr]%andb_true_iff|Hs].
  - left. by apply bool_decide_eq_true in Hr.
  - right. rewrite !andb_true_iff, !negb_true_iff, !bool_decide_eq_false, bool_decide_eq_true in Hs.
    destruct Hs as [[[Hne Hid] Hd] He]. split_and!; [done..|]. rewrite bool_decide_eq_false_2; [done|congruence].
Qed.

Lemma merge_node_ok dups ns n devices :
  Forall (row_ok dups ns) devices -> Forall (row_ok dups (ns ++ [n])) (merge_node dups devices n).
Proof.
  intros Hd. assert (Hmore : Forall (row_ok dups (ns ++ [n])) devices).
  { eapply list.Forall_impl; [exact Hd|]. intros d [Hc Hp]. split; [done|]. intros p Hpath.
    destruct (Hp p Hpath) as (m & Hm & Hrest). exists m. split; [|done]. apply elem_of_app. by left. }
  assert (Hn : n ∈ ns ++ [n]) by (apply elem_of_app; right; apply list_elem_of_singleton; done).
  unfold merge_node. destruct (position (joins dups n) devices) as [i|] eqn:Hpos.
  - apply position_Some in Hpos as (d & Hi & Hj). apply list.Forall_lookup. intros j x Hx. rewrite list.Forall_lookup in Hmore.
    destruct (decide (j = i)) as [->|Hne].
    + rewrite list_lookup_alter_eq, Hi in Hx. injection Hx as <-. split.
      * apply merge_caps. by destruct (Hmore _ _ Hi).
      * intros p [= <-]. exists n. split_and!; [done..|by apply joins_one_key].
    + rewrite list_lookup_alter_ne in Hx by done. by apply (Hmore j).
  - apply list.Forall_app. split; [done|]. apply Forall_singleton. split; [apply hid_caps|].
    intros p [= <-]. exists n. split_and!; [done..|by left].
Qed.

Lemma merge_all_ok dups ns todo devices :
  Forall (row_ok dups ns) devices -> Forall (row_ok dups (ns ++ todo)) (foldl (merge_node dups) devices todo).
Proof.
  revert ns devices. induction todo as [|n todo IH]; intros ns devices Hd; [by rewrite app_nil_r|]. cbn [foldl].
  replace (ns ++ n :: todo) with ((ns ++ [n]) ++ todo) by by rewrite <- app_assoc. apply IH. by apply merge_node_ok.
Qed.

Lemma base_rows_ok windows hids probes dups : Forall (row_ok dups []) (base_rows windows hids probes).
Proof.
  assert (Hno : forall d, caps_ok d -> d_hid_path d = None -> row_ok dups [] d).
  { intros d Hc Hp. split; [done|]. intros p Hpath. congruence. }
  unfold base_rows. rewrite !list.Forall_app. split_and!.
  - apply list.Forall_forall. intros d (p & -> & _)%list_elem_of_fmap. apply Hno; [apply molto_caps|done].
  - apply list.Forall_forall. intros d (p & -> & _)%list_elem_of_fmap. apply Hno; [apply prog_caps|done].
  - apply list.Forall_forall. intros d (p & _ & Hd)%list_elem_of_omap. apply Hno; [by eapply card_caps|].
    unfold card_row in Hd. destruct (Caps.is_empty _); [done|]. by injection Hd as <-.
Qed.

(** ** A reader with a row keeps one *)

Definition has_reader (r : list Z) (devices : list Device) : Prop := exists d, d ∈ devices /\ d_reader d = Some r.

Lemma merge_node_reader dups n r devices : has_reader r devices -> has_reader r (merge_node dups devices n).
Proof.
  intros (d & Hd & Hr). unfold merge_node. destruct (position _ _) as [i|].
  - apply list_elem_of_lookup in Hd as [j Hj]. destruct (decide (i = j)) as [->|Hne].
    + exists (merge_into n d). split; [|done]. apply (list_elem_of_lookup_2 _ j). by rewrite list_lookup_alter_eq, Hj.
    + exists d. split; [|done]. apply (list_elem_of_lookup_2 _ j). by rewrite list_lookup_alter_ne.
  - exists d. split; [apply elem_of_app; by left|done].
Qed.
Lemma merge_all_reader dups todo r devices : has_reader r devices -> has_reader r (foldl (merge_node dups) devices todo).
Proof. revert devices. induction todo as [|n todo IH]; intros devices Hd; [done|]. apply IH. by apply merge_node_reader. Qed.

Lemma base_rows_reader windows hids probes p d :
  p ∈ probes -> p_is_molto2 p = false -> card_row windows p = Some d -> has_reader (p_reader_name p) (base_rows windows hids probes).
Proof.
  intros Hp Hm Hd. exists d. split.
  - unfold base_rows. rewrite !elem_of_app. right. right. apply list_elem_of_omap. exists p. split; [|done].
    apply list_elem_of_In, List.filter_In. split; [by apply list_elem_of_In|]. unfold not_molto. by rewrite Hm.
  - unfold card_row in Hd. destruct (Caps.is_empty _); [done|]. by injection Hd as <-.
Qed.

(** ** Ids, order and names change neither *)

(** Rows alike in what matters here. *)
Definition same_parts (d d' : Device) : Prop :=
  d_caps d' = d_caps d /\ d_unverified d' = d_unverified d /\ d_hid_path d' = d_hid_path d /\ d_reader d' = d_reader d /\
  d_serial d' = d_serial d.

Lemma named_row_parts k labels first d : same_parts d (named_row k labels first d).
Proof. unfold named_row. destruct (on_key_of labels d) eqn:Hl; try done; unfold name_row; by rewrite Hl. Qed.

Lemma final_row windows hids probes k ids opts d :
  d ∈ correlate_with windows hids probes k ids opts ->
  exists d0, d0 ∈ merged_rows windows (scanned hids probes opts).1 (scanned hids probes opts).2 ids opts /\ same_parts d0 d.
Proof.
  unfold correlate_with. destruct (scanned hids probes opts) as [fido probes']. cbn [fst snd]. rewrite apply_names_rows.
  intros (d1 & -> & Hd1)%list_elem_of_fmap. rewrite sort_by_perm in Hd1. unfold disambiguate in Hd1.
  apply list_elem_of_fmap in Hd1 as (d0 & -> & Hd0). exists d0. split; [done|].
  match goal with |- same_parts d0 (named_row _ _ _ ?x) => destruct (named_row_parts k ∅ (scan_first ∅ (sort_by display_cmp
    (disambiguate (merged_rows windows fido probes' ids opts)))) x) as (H1 & H2 & H3 & H4 & H5) end.
  unfold same_parts. rewrite H1, H2, H3, H4, H5. by case_bool_decide.
Qed.

Lemma final_reader windows hids probes k ids opts r :
  has_reader r (merged_rows windows (scanned hids probes opts).1 (scanned hids probes opts).2 ids opts) ->
  has_reader r (correlate_with windows hids probes k ids opts).
Proof.
  intros (d0 & Hd0 & Hr). unfold correlate_with. destruct (scanned hids probes opts) as [fido probes']. cbn [fst snd] in *.
  rewrite apply_names_rows. set (rows := merged_rows windows fido probes' ids opts) in *.
  set (f := named_row k ∅ (scan_first ∅ (sort_by display_cmp (disambiguate rows)))).
  set (g := fun d => if bool_decide (d_id d ∈ repeated (d_id <$> rows))
              then with_id d (d_id d ++ s2b "#" ++ default [] (opt_or (d_reader d) (path_display <$> d_hid_path d))) else d).
  exists (f (g d0)). split.
  - apply list_elem_of_fmap_2. rewrite sort_by_perm. unfold disambiguate. fold rows. fold g. by apply list_elem_of_fmap_2.
  - destruct (named_row_parts k ∅ (scan_first ∅ (sort_by display_cmp (disambiguate rows))) (g d0)) as (_ & _ & _ & Hp & _).
    fold f in Hp. rewrite Hp. subst g. cbn beta. by case_bool_decide.
Qed.

(** The nodes and the repeated serials of a scan. *)
Definition scan_serials (hids : list HidDevice) (probes : list ReaderProbe) (ids : Identities) (opts : MatchOptions) : list (option (list Z)) :=
  node_serials hids (yk_of <$> List.filter not_molto probes) ids opts.
Definition scan_bound (hids : list HidDevice) (probes : list ReaderProbe) (ids : Identities) (opts : MatchOptions) : Bound :=
  bind_readers hids probes (yk_of <$> List.filter not_molto probes) ids opts.

(** C7: the rows of a scan can be trusted. A row that holds a FIDO node and a reader
    holds the two of one key: either matching bound that node to that reader (or the
    row has no reader and neither has the node), or they share a serial which no other
    node reports and no two cards have, and which is not merely the identity the node
    gave; a capability marked unverified is always one the row offers, and a reader
    where a card applet answered always has a row. *)
Theorem correlate_rows_sound windows hids probes k ids opts :
  let fido := (scanned hids probes opts).1 in
  let cards := (scanned hids probes opts).2 in
  let rows := correlate_with windows hids probes k ids opts in
  (forall d, d ∈ rows -> Z.land (d_unverified d) (d_caps d) = d_unverified d) /\
  (forall d path, d ∈ rows -> d_hid_path d = Some path ->
     exists i hid, fido !! i = Some hid /\ h_path hid = path /\
       (d_reader d = fst <$> mjoin (scan_bound fido cards ids opts !! i) \/
        exists s, s <> [] /\ d_serial d = s /\ mjoin (scan_serials fido cards ids opts !! i) = Some s /\
          node_from_identity ids hid = false /\ s ∉ repeated (omap id (scan_serials fido cards ids opts)) /\
          s ∉ repeated (d_serial <$> List.filter (fun d => bool_decide (d_kind d = Key) && negb (bool_decide (d_serial d = [])))
                          (base_rows windows fido cards)))) /\
  (forall p d, p ∈ cards -> p_is_molto2 p = false -> card_row windows p = Some d -> has_reader (p_reader_name p) rows).
Proof.
  cbn zeta. destruct (scanned hids probes opts) as [fido cards] eqn:Hsc. cbn [fst snd].
  pose proof (base_rows_ok windows fido cards) as Hbase.
  assert (Hall : forall d, d ∈ correlate_with windows hids probes k ids opts -> exists d0, d0 ∈ merged_rows windows fido cards ids opts /\ same_parts d0 d).
  { intros d Hd. apply final_row in Hd. by rewrite Hsc in Hd. }
  unfold merged_rows in Hall. cbn zeta in Hall.
  match type of Hall with context [foldl (merge_node ?dups) ?rows ?ns] =>
    pose proof (merge_all_ok dups [] ns rows (Hbase dups)) as Hok end. cbn [app] in Hok. rewrite list.Forall_forall in Hok.
  split_and!.
  - intros d (d0 & Hd0 & (Hc & Hu & _))%Hall. destruct (Hok _ Hd0) as [Hcaps _]. rewrite Hc, Hu. by apply caps_ok_subset.
  - intros d path (d0 & Hd0 & (_ & _ & Hp & Hr & Hs))%Hall Hpath. destruct (Hok _ Hd0) as [_ Hrow].
    rewrite Hp in Hpath. destruct (Hrow _ Hpath) as (n & Hn & Hnp & Hone). unfold nodes in Hn.
    apply elem_of_lookup_imap in Hn as (i & hid & -> & Hi). cbn [n_hid] in Hnp. exists i, hid. split_and!; [done..|].
    destruct Hone as [Hone|(Hne & Hid & Hdup & Hser)]; cbn [n_reader n_serial n_from_identity] in *.
    + left. by rewrite Hr, Hone.
    + right. unfold scan_serials. destruct (mjoin (node_serials fido (yk_of <$> List.filter not_molto cards) ids opts !! i)) as [s|] eqn:Hsi; [|done].
      cbn in Hne, Hdup, Hser. exists s. rewrite Hs. apply not_elem_of_app in Hdup as [Hd1 Hd2]. split_and!; done.
  - intros p d Hp Hm Hcard. apply final_reader. rewrite Hsc. cbn [fst snd]. unfold merged_rows. apply merge_all_reader.
    by eapply base_rows_reader.
Qed.
End rows.
